(* ===== verification/_CoqProject ===== *)
-Q . S2P
Prelude.v
Events.v
Network.v
Monitor.v
MonitorFacts.v
MonitorReorg.v
MonitorLoop.v
Bridge.v
RedisBridge.v
Decimal.v
Database.v
DatabaseFacts.v
Services.v
Cleanup.v
WatchRetry.v
Consumer.v
ConsumerFacts.v
ConsumerSystem.v
ConsumerStatus.v
ConsumerPayments.v
ConsumerReorg.v
ConsumerDemo.v
Webhook.v
WebhookFacts.v
OutboxDrain.v
LiveWatch.v
Startup.v
Coordinator.v
Commands.v
CoordinatorFacts.v
MonitorProcess.v
CoordinatorRouting.v
WatchReconcile.v
ProcessDemo.v
Wallets.v
WalletFacts.v
WalletRouting.v
Derivation.v
Quotes.v
ApiKeys.v
Invoicing.v
InvoiceFacts.v
InvoiceCreated.v
InvoiceDemo.v
Idempotency.v
Payouts.v
PayoutFacts.v
ApiAuth.v
ApiKeyLife.v
RateLimit.v
RpcSource.v
RpcSourceFacts.v
RpcStreams.v
ApiDemo.v
Office.v
Teams.v
TeamFacts.v
StoreSettings.v
SettingsFacts.v
Accounts.v
AccountFacts.v
ServerSettings.v
Deletion.v
DeletionFacts.v
Standing.v
StandingFacts.v
Reading.v
ReadingFacts.v
WalletRoutes.v
Credentials.v
CredentialFacts.v
LiveFeed.v
LiveFeedFacts.v
Deliveries.v
Tokens.v
OfficeDemo.v
Plugins.v
PluginFacts.v
PluginCalls.v
PluginDemo.v
