(* ===== verification/Prelude.v ===== *)
(** * Verification of ETHPayServer's payment pipeline

    ETHPayServer (Rust) accepts payments on EVM chains.  This library models
    the path of an invoice and its payment through the program, from the request
    that creates it to the webhook that reports it settled, and proves what makes
    that path correct.

    ** The program

    A merchant's _wallets_ ([data-service/src/postgres/wallet.rs]) hold account
    keys.  _Creating an invoice_ ([server/src/api/invoices/crud.rs]) checks the
    caller, quotes the amount in every enabled payment method, derives a new
    address for each ([evm/src/wallet.rs]) and writes the invoice, its payment
    options and the watches for their addresses in one transaction; the request
    passes the _idempotency_ middleware ([server/src/api/idempotency/]) first.
    Watch commands go to the _monitor process_ ([evm/src/bin/evmmonitor/]), which
    keeps the watches in Redis and hands them to a _chain monitor_ per chain
    ([evm/src/monitor/chain/]) through a _coordinator_
    ([evm/src/monitor/coordinator.rs]).

    A chain monitor scans blocks for transfers to watched addresses, counts
    confirmations and notices reorgs.  Its events are routed to a durable
    _outbox_ ([evm/src/monitor/bridge/]: in memory or a Redis stream).  The
    server's _event consumer_ ([server/src/services/event_consumer/]) resumes
    from cursors stored per chain, applies each event to PostgreSQL
    ([data-service/src/postgres/]) and commits the cursor after it.  Applying a
    payment also records an obligation to notify the store; the _outbox drain_
    ([server/src/services/webhook_outbox_drain.rs]) turns obligations into jobs
    on a Redis queue, and _webhook workers_
    ([server/src/services/webhook/service.rs]) deliver them with retries.  The
    _cleanup service_ ([server/src/services/invoice_cleanup.rs]) expires
    invoices and stops watching their addresses; _watch retry_
    ([server/src/services/watch_retry.rs]) re-sends watch commands the monitor
    did not get, and the _watch reconciler_
    ([server/src/services/watch_reconciler.rs]) compares what should be watched
    with what is.

    ** The files

    - [Prelude]: results, the state and error monad with its loops, rules and
      hint database, machine integers, text of integers.
    - [Events]: events, commands, errors and the block source interface
      ([evm/src/monitor/events.rs], [error.rs], [source/mod.rs]).
    - [Network]: networks and chain configurations ([evm/src/network.rs],
      [testnet.rs]).
    - [Monitor]: the chain monitor: [MonState] is [ChainMonitor], one definition
      per method, [loop_iteration] one turn of its task.  [MonitorFacts] (the
      cursor passes only scanned blocks; failures fail closed), [MonitorReorg]
      (reorgs are announced exactly when the chain diverged; the survivor scan
      is complete and sound), [MonitorLoop] (confirmations, closing of gaps,
      invariants of every run).
    - [Bridge]: the interface [EventOutbox] with its laws, what any outbox that
      keeps them delivers, and the in-memory outbox ([bridge/memory.rs]).
      [RedisBridge]: the Redis stream ([bridge/redis.rs]) keeps the laws, and a
      subscription to it delivers consecutive entries.
    - [Decimal]: settlement tolerance and unit conversion
      ([server/src/services/settlement.rs]) over an interface to the decimal
      library; [ConsumerDemo] instantiates it with rationals.
    - [Database]: the tables the pipeline uses, each SQL statement as a function
      on them, and the trigger on payments.  [DatabaseFacts]: well-formedness
      and what writes can do.
    - [Services]: the server's state ([Server]): database, Redis sets and the
      record of effects; requests that may be lost; what the handlers call
      (transactions, WebSocket broadcast, webhook queueing, receipts,
      observers), and which of them change nothing.
    - [Cleanup]: the cleanup service; told before deactivated,
      the grace period of paid invoices.
    - [WatchRetry]: re-sending watch commands
      ([server/src/services/watch_retry.rs]); marked only once told, and a pass
      leaves no pending watch behind.
    - [Consumer]: the consumer: startup, the envelope loop, the handlers.
      [ConsumerFacts] (how cursors move, amounts, resuming, redelivery),
      [ConsumerSystem] (the whole system of outbox and server with crashes: a
      stored cursor covers only applied events), [ConsumerStatus] (closed
      invoices stay closed while handlers and cleanup passes run one after the
      other), [ConsumerPayments] (detection is atomic and idempotent;
      confirmation refines a specification), [ConsumerReorg] (reorgs retract
      exactly what is gone), [ConsumerDemo] (a concrete store and invoice, and
      what a confirmation does when a cleanup pass overtakes it).
    - [Webhook]: the worker, as a program that pauses before each request, so
      that workers interleave.  [WebhookFacts] (a job is never lost; outcome of
      an attempt, retry schedule, paging).  [OutboxDrain]: the drain and its
      theorem.  Concrete instances for these, the cleanup service and watch
      retry are in [ProcessDemo].

    - [LiveWatch]: the watches in Redis ([data-service/src/redis/
      watched_address.rs]) and the round trip of their keys.  [Startup]: retried
      startup steps ([evm/src/monitor/startup.rs]).  [Coordinator]: the
      coordinator over a heap of shared monitors, broadcast channels, routing
      and handlers.  [Commands]: commands, restoring watches and the start of
      the process.  [CoordinatorFacts] (shared lemmas), [MonitorProcess] (the
      watches of memory and Redis refine the commands, across restarts, lost
      writes and starts that cannot read the stored watches),
      [CoordinatorRouting] (events reach the stream in order), [ProcessDemo].
    - [WatchReconcile]: the view of expected watches and the reconciler, which
      is exact; instantiated in [ProcessDemo].
    - [Wallets]: wallets, store overrides, payment methods, derivation counters
      and key rotation, each statement as a function on [WalletDb].
      [WalletFacts] (no index of a key is issued twice), [WalletRouting]
      (addresses come from the account's own key of the right family, when
      requests that pin a wallet interleave; what
      assignment and rotation redirect; what the two multi-statement requests on
      methods do), instantiated in [InvoiceDemo].
    - [Derivation]: chain families, the server's deriver and the merchant's
      wallet agree on every address.
    - [Quotes]: conversion of an invoice amount to smallest units, never
      short where the decimal library need not round.
      [ApiKeys]: scopes of API keys, enforced as accepted.
    - [Invoicing]: the statements and the transaction that write an invoice, and
      the handlers [create_invoice] and [cancel_invoice] over both databases.
      [InvoiceFacts] (nothing is written without permission; what cancelling
      does), [InvoiceCreated] (all or nothing; every quoted address is expected
      to be watched and freshly derived), [InvoiceDemo].
    - [Idempotency]: the middleware as a program that pauses at each Redis
      command; a retry is replayed and its lock excludes.

    - [Payouts]: the payouts a merchant records ([server/src/api/payouts.rs]).
      [PayoutFacts] (what the handlers read and write; no invoice's money is
      claimed twice; a payout is closed once; what a payout is worth).
    - [ApiAuth]: who a request acts as ([server/src/api/extractors.rs]) and the
      routes that manage API keys.  [ApiKeyLife] (keys only weaken, dead keys
      stay dead, narrowed keys cannot manage keys, rotation swaps the secret).
      [RateLimit]: limits per address and per key.
    - [RpcSource]: the block source over a node ([evm/src/monitor/source/
      rpc.rs]).  [RpcSourceFacts] (the monitor on it announces every payment in
      a block it passes), [RpcStreams] (what its streams yield).
    - [ApiDemo]: idempotency keys, payouts, API keys and the RPC source on
      concrete inputs, the races that remain among them.

    - [Office]: what the routes below share: statements on tables, requests
      that may be lost, mail, and the rule [runs] that computes what a handler
      can do.
    - [Teams]: stores, their members and invites ([server/src/api/stores/]).
      [TeamFacts] (memberships change with authority only, owners stay members,
      invites work once, stores of others cannot be told from missing ones).
    - [StoreSettings]: a store's settings, webhook, tolerance and token policy.
      [SettingsFacts] (what is stored is well typed; an update changes what it
      names; only with authority).
    - [Accounts]: the account table, address changes and the administrator's
      routes on users.  [AccountFacts] (the last administrator, the first
      account, the salt of recovery, codes for addresses).
    - [ServerSettings]: the server's settings and the payment-method routes they
      gate (mainnet stays closed; the operator's store is the operator's).
    - [Deletion]: deleting accounts and test stores with what the schema
      cascades to.  [DeletionFacts] (no financial record is lost if nothing else
      writes meanwhile; the monitor is told only of what is gone).
    - [Standing]: the standing an external service pushes, who reads it, and
      signing up.  [StandingFacts] (pushes converge and are answered truly; the
      banner, the header and the gate agree; warnings are recent).
    - [Reading]: the routes that list, look up and export invoices and payments,
      with their queries and search patterns.  [ReadingFacts] (nothing of other
      stores is shown; searches are literal; files are complete and can be read
      back).
    - [WalletRoutes]: the routes on an account's keys and on the wallet a store or
      a method derives from: what they may change, what a merchant is shown, and
      that the reported wallet is the one addresses are taken from.
    - [Credentials]: wallet credentials, devices, sessions, passkeys and pending
      challenges, and the routes that list and promote wallet credentials.
      [CredentialFacts] (the tables stay sound; a challenge is answered once and
      in time; the wallet an account logs in by changes only with proof, and
      when the proof is believed).
    - [LiveFeed]: the live updates of a store, an invoice and the administrators,
      a socket as a machine among others, and the checkout page.
      [LiveFeedFacts] (only who is entitled gets an update; a feed has no gaps;
      a checkout page gets its own invoice).
    - [Deliveries]: the log of webhook deliveries, its listings and replays
      (a replay carries the event as first queued, to the webhook it went to).
    - [Tokens]: the registry of tokens, its standards, table and routes, and the
      list of networks (the registry stays sound; what a lookup finds).
    - [OfficeDemo]: the routes since [Office] on concrete tables, and what
      interleaving breaks.
    - [Plugins]: install records, a plugin's schema, role and pool over a model
      of PostgreSQL's catalog, boot, the administrator's routes, pages and
      dispatch.  A plugin's migrations run as the host and may change the whole
      catalog.  [PluginFacts] (records stay sound; a boot runs what was
      installed; a plugin's role keeps to its schema if its migrations do; what
      was accepted runs and what was disabled does not; only filters refuse
      invoices).
    - [PluginCalls]: what a plugin can ask the host for: statements, invoices,
      notices, settled payments, volumes (a storage call is one transaction;
      invoices are issued on the own store only).
    - [PluginDemo]: a small plugin directory, host and database, and what
      failures in the middle of an install or uninstall leave behind.

    ** How code becomes definitions

    A method becomes a function in [St S E], from a state to a result and a new
    state; [?] is [st_bind], a [match] on a [Result] is [st_try].  Integers are
    [Z]; where the width matters the wrap-around is written out ([u64_add],
    [u64_as_i64], ...).  Maps are [gmap]s; a loop over a map follows an
    unspecified order that is [map_to_list]'s.  Addresses, hashes and UUIDs are
    [Z], instants nanoseconds.  Metrics and log lines are left out, except the
    log line of a permanently failed webhook, which pages an operator.

    Requests to PostgreSQL, Redis and the monitor go through a schedule
    ([Runtime.calls]): the n-th is answered, not sent, or carried out with its
    reply lost.  Theorems hold for every schedule unless they say that requests
    are answered.  SQL statements outside a transaction are atomic; those of a
    transaction take effect together at its commit.  Where statements of several
    requests interleave, a theorem says so ([WalletFacts], [WebhookFacts],
    [Idempotency], [CredentialFacts], [LiveFeedFacts] and others); elsewhere a
    handler or a background pass runs to its end before the next one starts,
    and the [Demo] files show races of the program that lie outside this.

    Parameters, with the behaviour relied on stated as classes of laws: the
    block source ([BlockSource]), the decimal library ([BigDecimalLaws]),
    PostgreSQL's [NUMERIC] text ([NumericLaws]), printing and parsing of
    addresses, hashes, chain ids and UUIDs ([FormatLaws]), the shared API
    vocabulary ([ApiTypes]), JSON of jobs ([JobCodecLaws]) and of events, HTTP
    and HMAC ([HttpWorld]), [SCAN] and the text of keys, BIP-32
    derivation ([HdKeysLaws]), the [rust_decimal] library ([RustDecimalLaws]),
    names of policies ([PolicyLaws]), JSON of cache entries
    ([IdempotencyLaws]), the text of 256-bit integers ([U256TextLaws]), the
    session service and hashes ([AuthHost]), the token bucket
    ([GovernorLaws]), a node and its client ([RpcNodeLaws]), the mail transport
    ([MailHost]), names of roles and policy modes ([RoleNames], [PolicyModes]),
    the defaults of the settings ([ServerDefaults]), dates, header values and
    the signup service ([StandingHost]), the order of rows that [ORDER BY]
    leaves open ([ReadHostLaws]), manifests, artifacts and the WebAssembly host
    ([PluginCratesLaws]), what a plugin's statement does ([SqlHost]) and what a
    plugin answers ([PluginAnswers]), division and rates of volumes
    ([VolumeHost]), the masking of keys ([XpubMask]), the
    JSON of credentials ([AuthTypes]), signatures ([WalletCrypto]), the JSON of
    logged payloads ([DeliveryHostLaws]), and chain ids and permissions of the
    token routes ([TokenHostLaws]).

    The model is executable.  Loops over lists recurse on the list; the one
    [while] loop with fuel, [survived_erc20], gets one unit per block of the
    window plus one, and [survivor_scan_sound] shows that it never runs out.
    [drain] and [redis_drain], which read an outbox to its end, get one unit
    per published entry plus one.

    [export_pages] gets one unit per counted row plus one, and
    [export_complete] shows that it never runs out.
    The loop of [SCAN] in [LiveWatch] gets the number of pages the server's
    cursor takes, which the laws of [SCAN] bound.

    ** Not modelled

    The remaining handlers of the HTTP API (dashboards, health
    checks), login and recovery (another crate, which calls the statements of
    [Credentials]), refunds (the route refuses every request), the WebAssembly
    host itself (another crate), transaction building, calls to token contracts, telemetry, argument
    parsing and shutdown of the processes.  Next in line: the dashboards. *)

From stdpp Require Import gmap strings list fin_maps.
From Stdlib Require Import ZArith Lia Ascii DecimalString DecimalZ.

#[global] Open Scope Z_scope.

(** ** Results and the state-and-error monad

    Rust's [Result<T, E>] is [result E T].  An async method that reads and
    writes the state behind [&self] and may fail is a [St S E T]: it always
    returns a state, because what a failing call wrote before it failed stays
    written. *)

Inductive result (E A : Type) : Type :=
| Ok (a : A)
| Err (e : E).
Arguments Ok {E A} a.
Arguments Err {E A} e.

Definition is_ok {E A} (r : result E A) : bool :=
  match r with Ok _ => true | Err _ => false end.

(** [Result::ok]. *)
Definition result_ok {E A} (r : result E A) : option A :=
  match r with Ok a => Some a | Err _ => None end.

Definition St (S E A : Type) : Type := S -> result E A * S.

Declare Scope st_scope.
Delimit Scope st_scope with st.
#[global] Open Scope st_scope.

Section Monad.
Context {S E : Type}.

Definition st_ret {A} (a : A) : St S E A := fun s => (Ok a, s).

Definition st_bind {A B} (m : St S E A) (f : A -> St S E B) : St S E B :=
  fun s =>
    match m s with
    | (Ok a, s') => f a s'
    | (Err e, s') => (Err e, s')
    end.

Definition st_throw {A} (e : E) : St S E A := fun s => (Err e, s).

Definition st_get : St S E S := fun s => (Ok s, s).

Definition st_gets {A} (f : S -> A) : St S E A := fun s => (Ok (f s), s).

Definition st_modify (f : S -> S) : St S E unit := fun s => (Ok tt, f s).

(** A call whose [Result] the code inspects instead of propagating with [?]. *)
Definition st_try {A} {E'} (m : St S E A) : St S E' (result E A) :=
  fun s => let '(r, s') := m s in (Ok r, s').

Definition st_lift {A} (r : result E A) : St S E A := fun s => (r, s).

Definition st_map_err {A} {E'} (f : E -> E') (m : St S E A) : St S E' A :=
  fun s =>
    match m s with
    | (Ok a, s') => (Ok a, s')
    | (Err e, s') => (Err (f e), s')
    end.

(** [for x in l { body }]: stops at the first error. *)
Fixpoint st_for {A} (l : list A) (body : A -> St S E unit) : St S E unit :=
  match l with
  | [] => st_ret tt
  | x :: l' => st_bind (body x) (fun _ => st_for l' body)
  end.

(** The same, threading an accumulator ([&mut acc] in the code). *)
Fixpoint st_fold {A B} (f : B -> A -> St S E B) (b : B) (l : list A) : St S E B :=
  match l with
  | [] => st_ret b
  | x :: l' => st_bind (f b x) (fun b' => st_fold f b' l')
  end.

Definition st_when (b : bool) (m : St S E unit) : St S E unit :=
  if b then m else st_ret tt.
End Monad.

Notation "'let*' x ':=' m 'in' k" := (st_bind m (fun x => k))
  (at level 10, x pattern, m at level 100, k at level 200,
   format "'[v' 'let*'  x  ':='  m  'in' '/' k ']'") : st_scope.
Notation "'do*' m ; k" := (st_bind m (fun _ => k))
  (at level 10, m at level 100, k at level 200,
   format "'[v' 'do*'  m ; '/' k ']'") : st_scope.

(** *** Reasoning about monadic code

    [preserves I m]: whatever the outcome, running [m] keeps the invariant.
    [post m s Q]: the outcome and the final state of [m] from [s] satisfy [Q]. *)

Definition preserves {S E A} (I : S -> Prop) (m : St S E A) : Prop :=
  forall s, I s -> I (snd (m s)).

Definition post {S E A} (m : St S E A) (s : S) (Q : result E A -> S -> Prop) : Prop :=
  Q (fst (m s)) (snd (m s)).

Create HintDb preserves.

Section Hoare.
Context {S E : Type} (I : S -> Prop).

Lemma preserves_ret {A} (a : A) : preserves I (@st_ret S E A a).
Proof. by intros s Hs. Qed.

Lemma preserves_throw {A} (e : E) : preserves I (@st_throw S E A e).
Proof. by intros s Hs. Qed.

Lemma preserves_gets {A} (f : S -> A) : preserves I (@st_gets S E A f).
Proof. by intros s Hs. Qed.

Lemma preserves_lift {A} (r : result E A) : preserves I (@st_lift S E A r).
Proof. by intros s Hs. Qed.

Lemma preserves_modify (f : S -> S) :
  (forall s, I s -> I (f s)) -> preserves I (@st_modify S E f).
Proof. intros Hf s Hs. by apply Hf. Qed.

Lemma preserves_bind {A B} (m : St S E A) (f : A -> St S E B) :
  preserves I m -> (forall a, preserves I (f a)) -> preserves I (st_bind m f).
Proof.
  intros Hm Hf s Hs. unfold st_bind.
  specialize (Hm s Hs). destruct (m s) as [[a|e] s'] eqn:Hms; simpl in *; [|done].
  by apply Hf.
Qed.

Lemma preserves_try {A} {E'} (m : St S E A) :
  preserves I m -> preserves I (@st_try S E A E' m).
Proof. intros Hm s Hs. specialize (Hm s Hs). unfold st_try. by destruct (m s). Qed.

Lemma preserves_map_err {A} {E'} (f : E -> E') (m : St S E A) :
  preserves I m -> preserves I (st_map_err f m).
Proof.
  intros Hm s Hs. specialize (Hm s Hs). unfold st_map_err.
  by destruct (m s) as [[] ?].
Qed.

Lemma preserves_for {A} (l : list A) (body : A -> St S E unit) :
  (forall x, x ∈ l -> preserves I (body x)) -> preserves I (st_for l body).
Proof.
  induction l as [|x l IH]; intros Hb; simpl; [apply preserves_ret|].
  apply preserves_bind; [apply Hb; set_solver|].
  intros _. apply IH. intros y Hy. apply Hb. set_solver.
Qed.

Lemma preserves_fold {A B} (f : B -> A -> St S E B) (l : list A) :
  (forall x b, x ∈ l -> preserves I (f b x)) -> forall b, preserves I (st_fold f b l).
Proof.
  induction l as [|x l IH]; intros Hb b; simpl; [apply preserves_ret|].
  apply preserves_bind; [apply Hb; set_solver|].
  intros b'. apply IH. intros y b'' Hy. apply Hb. set_solver.
Qed.

Lemma preserves_when (b : bool) (m : St S E unit) :
  preserves I m -> preserves I (st_when b m).
Proof. intros Hm. destruct b; [done | apply preserves_ret]. Qed.
End Hoare.

#[export] Hint Resolve preserves_ret preserves_throw preserves_gets preserves_lift
  preserves_bind preserves_try preserves_map_err preserves_when : preserves.

(** [triple I m J F]: from a state that satisfies [I], a value and the state it
    is returned in satisfy [J], and the state of a failure satisfies [F]. *)
Definition triple {S E A} (I : S -> Prop) (m : St S E A) (J : A -> S -> Prop) (F : S -> Prop) : Prop :=
  forall s, I s -> match m s with (Ok a, s') => J a s' | (Err _, s') => F s' end.

Section Triples.
Context {S E : Type} (F : S -> Prop).

Lemma triple_bind {A B} I (m : St S E A) J (f : A -> St S E B) K :
  triple I m J F -> (forall a, triple (J a) (f a) K F) -> triple I (st_bind m f) K F.
Proof.
  intros Hm Hf s Hs. specialize (Hm s Hs). unfold st_bind.
  destruct (m s) as [[a|e] s']; [by apply Hf | exact Hm].
Qed.

Lemma triple_preserves {A} (I : S -> Prop) (m : St S E A) :
  preserves I m -> (forall s, I s -> F s) -> triple I m (fun _ => I) F.
Proof.
  intros Hm Hf s Hs. specialize (Hm s Hs). destruct (m s) as [[] ?]; cbn in *; auto.
Qed.

Lemma triple_ret {A} (I : S -> Prop) (a : A) (J : A -> S -> Prop) :
  (forall s, I s -> J a s) -> triple I (@st_ret S E A a) J F.
Proof. intros HJ s Hs. by apply HJ. Qed.

Lemma triple_throw {A} (I : S -> Prop) (e : E) (J : A -> S -> Prop) :
  (forall s, I s -> F s) -> triple I (@st_throw S E A e) J F.
Proof. intros HF s Hs. by apply HF. Qed.

Lemma triple_weaken {A} (I I' : S -> Prop) (m : St S E A) J J' :
  triple I' m J' F -> (forall s, I s -> I' s) -> (forall a s, J' a s -> J a s) -> triple I m J F.
Proof.
  intros Hm HI HJ s Hs. specialize (Hm s (HI s Hs)). destruct (m s) as [[] ?]; auto.
Qed.

Lemma triple_for {A} (I : S -> Prop) (l : list A) (body : A -> St S E unit) :
  (forall s, I s -> F s) ->
  (forall x, x ∈ l -> triple I (body x) (fun _ => I) F) -> triple I (st_for l body) (fun _ => I) F.
Proof.
  intros HF. induction l as [|x l IH]; intros Hb; cbn [st_for].
  - by apply triple_ret.
  - eapply triple_bind; [apply Hb; left|]. intros u. apply IH. intros y Hy. apply Hb. by right.
Qed.

(** A triple whose failures and results agree is preservation. *)
Lemma preserves_triple {A} (I : S -> Prop) (m : St S E A) :
  triple I m (fun _ => I) I -> preserves I m.
Proof. intros Hm s Hs. specialize (Hm s Hs). by destruct (m s) as [[] ?]. Qed.
End Triples.

Section HoarePost.
Context {S E : Type}.

Lemma post_bind {A B} (m : St S E A) (f : A -> St S E B) s Q :
  post m s (fun r s' =>
    match r with Ok a => post (f a) s' Q | Err e => Q (Err e) s' end) ->
  post (st_bind m f) s Q.
Proof. unfold post, st_bind. by destruct (m s) as [[a|e] s']. Qed.

Lemma post_mono {A} (m : St S E A) s (Q Q' : result E A -> S -> Prop) :
  post m s Q -> (forall r s', Q r s' -> Q' r s') -> post m s Q'.
Proof. unfold post. auto. Qed.

Lemma bind_ok_inv {A B} (m : St S E A) (f : A -> St S E B) s b s'' :
  st_bind m f s = (Ok b, s'') ->
  exists a s', m s = (Ok a, s') /\ f a s' = (Ok b, s'').
Proof.
  unfold st_bind. destruct (m s) as [[a|e] s'] eqn:Hm; intros H; [eauto|].
  discriminate.
Qed.

Lemma bind_err_inv {A B} (m : St S E A) (f : A -> St S E B) s e s'' :
  st_bind m f s = (Err e, s'') ->
  m s = (Err e, s'') \/ exists a s', m s = (Ok a, s') /\ f a s' = (Err e, s'').
Proof.
  unfold st_bind. destruct (m s) as [[a|e'] s'] eqn:Hm; intros H; [eauto|].
  left. congruence.
Qed.

Lemma for_cons {A} (x : A) l (body : A -> St S E unit) s :
  st_for (x :: l) body s =
    match body x s with
    | (Ok _, s') => st_for l body s'
    | (Err e, s') => (Err e, s')
    end.
Proof. reflexivity. Qed.
End HoarePost.

(** Inverts a chain of binds that is known to have returned a value. *)
Tactic Notation "inv_ok" hyp(H) "as" ident(a) ident(s) ident(H1) ident(H2) :=
  apply bind_ok_inv in H; destruct H as (a & s & H1 & H2).

(** ** Computations that never fail *)

Definition total {S E A} (m : St S E A) : Prop := forall s, is_ok (fst (m s)) = true.

Lemma total_ret {S E A} (a : A) : total (@st_ret S E A a).
Proof. done. Qed.
Lemma total_gets {S E A} (f : S -> A) : total (@st_gets S E A f).
Proof. done. Qed.
Lemma total_modify {S E} (f : S -> S) : total (@st_modify S E f).
Proof. done. Qed.
Lemma total_try {S E E' A} (m : St S E A) : total (@st_try S E A E' m).
Proof. intros s. unfold st_try. by destruct (m s). Qed.
Lemma total_bind {S E A B} (m : St S E A) (f : A -> St S E B) :
  total m -> (forall a, total (f a)) -> total (st_bind m f).
Proof.
  intros Hm Hf s. specialize (Hm s). unfold st_bind. destruct (m s) as [[] ?]; [apply Hf | done].
Qed.
Lemma total_when {S E} b (m : St S E unit) : total m -> total (st_when b m).
Proof. by destruct b. Qed.
Lemma total_for {S E A} (l : list A) (body : A -> St S E unit) :
  (forall x, total (body x)) -> total (st_for l body).
Proof. intros Hb. induction l as [|x l IH]; [done|]. by apply total_bind. Qed.

Lemma total_fold {S E A B} (f : B -> A -> St S E B) (l : list A) b :
  (forall b x, total (f b x)) -> total (st_fold f b l).
Proof.
  intros Hf. revert b. induction l as [|x l IH]; intros b; cbn; [apply total_ret|]. by apply total_bind.
Qed.

Lemma total_run {S E A} (m : St S E A) s : total m -> exists a s', m s = (Ok a, s').
Proof. intros Hm. specialize (Hm s). destruct (m s) as [[a|e] s']; [eauto | done]. Qed.

Create HintDb total.
#[export] Hint Resolve total_ret total_gets total_modify total_bind total_fold total_for : total.

Ltac total_step :=
  match goal with
  | |- total (st_ret _) => apply total_ret
  | |- total (st_gets _) => apply total_gets
  | |- total (st_modify _) => apply total_modify
  | |- total (st_try _) => apply total_try
  | |- total (st_bind _ _) => apply total_bind; [|intros]
  | |- total (st_when _ _) => apply total_when
  | |- total (st_for _ _) => apply total_for; intros
  | |- total (match ?x with _ => _ end) => destruct x
  end.
Ltac totals := repeat total_step.

(** A request to another process: it is answered, never reaches the other side,
    or takes effect there and loses its reply. *)
Inductive Call := Answered | NotSent | ReplyLost.

(** ** Machine integers

    Block numbers, chain ids and confirmation counts are [u64].  Plain [+] and
    [-] wrap, as in a release build (the workspace sets no [overflow-checks]);
    the saturating operations clamp.  [as] casts truncate two's complement. *)

Definition u64_modulus : Z := 2 ^ 64.
Definition u64_max : Z := u64_modulus - 1.
Definition u64_add (a b : Z) : Z := (a + b) mod u64_modulus.
Definition u64_sub (a b : Z) : Z := (a - b) mod u64_modulus.
Definition u64_saturating_sub (a b : Z) : Z := Z.max 0 (a - b).
Definition u64_saturating_add (a b : Z) : Z := Z.min u64_max (a + b).
Definition u64_saturating_mul (a b : Z) : Z := Z.min u64_max (a * b).

Definition in_u64 (a : Z) : Prop := 0 <= a <= u64_max.

(** [x as i64] for a [u64], [x as i32] for a [u32], [x as u32] for a [u64]. *)
Definition u64_as_i64 (a : Z) : Z := if a <? 2 ^ 63 then a else a - 2 ^ 64.
Definition u32_as_i32 (a : Z) : Z := if a <? 2 ^ 31 then a else a - 2 ^ 32.
Definition u64_as_u32 (a : Z) : Z := a mod 2 ^ 32.
(** [x as u64] for an [i64]. *)
Definition i64_as_u64 (a : Z) : Z := a mod u64_modulus.

Lemma u64_add_small a b : 0 <= a + b <= u64_max -> u64_add a b = a + b.
Proof. unfold u64_add, u64_max, u64_modulus. intros. apply Z.mod_small. lia. Qed.

Lemma u64_sub_small a b : 0 <= a - b <= u64_max -> u64_sub a b = a - b.
Proof. unfold u64_sub, u64_max, u64_modulus. intros. apply Z.mod_small. lia. Qed.

Lemma u64_as_i64_roundtrip a : in_u64 a -> i64_as_u64 (u64_as_i64 a) = a.
Proof.
  unfold in_u64, u64_max, i64_as_u64, u64_as_i64, u64_modulus. intros Ha.
  destruct (Z.ltb_spec a (2 ^ 63)).
  - apply Z.mod_small. lia.
  - rewrite <- (Z.mod_small a (2 ^ 64)) at 2 by lia.
    replace (a - 2 ^ 64) with (a + (-1) * 2 ^ 64) by lia.
    apply Z_mod_plus_full.
Qed.

(** ** Inclusive ranges [from..=to] *)

Definition range_inclusive (from to : Z) : list Z := seqZ from (to - from + 1).

Lemma elem_of_range_inclusive from to n :
  n ∈ range_inclusive from to <-> from <= n <= to.
Proof. unfold range_inclusive. rewrite elem_of_seqZ. lia. Qed.

Lemma range_inclusive_cons from to :
  from <= to -> range_inclusive from to = from :: range_inclusive (from + 1) to.
Proof.
  intros. unfold range_inclusive. rewrite seqZ_cons by lia.
  do 2 f_equal; lia.
Qed.

Lemma range_inclusive_nil from to : to < from -> range_inclusive from to = [].
Proof. intros. unfold range_inclusive. apply seqZ_nil. lia. Qed.

Lemma range_inclusive_app from mid to :
  from <= mid + 1 -> mid <= to ->
  range_inclusive from to = range_inclusive from mid ++ range_inclusive (mid + 1) to.
Proof.
  intros. unfold range_inclusive.
  replace (to - from + 1) with ((mid - from + 1) + (to - (mid + 1) + 1)) by lia.
  rewrite seqZ_app by lia. do 2 f_equal. lia.
Qed.

(** ** Lists and options *)

Definition option_is_none {A} (o : option A) : bool :=
  match o with Some _ => false | None => true end.
Definition option_is_some {A} (o : option A) : bool := negb (option_is_none o).

Lemma omap_app {A B} (f : A -> option B) (l k : list A) :
  omap f (l ++ k) = omap f l ++ omap f k.
Proof.
  induction l as [|x l IH]; [done|]. cbn. destruct (f x); cbn; f_equal; exact IH.
Qed.

(** [Iterator::filter] with a boolean test is [List.filter]. *)
Lemma elem_of_filter_b {A} (p : A -> bool) l x :
  x ∈ List.filter p l <-> p x = true /\ x ∈ l.
Proof. rewrite !list_elem_of_In, filter_In. tauto. Qed.

(** ** Integers as text

    [to_string] of an integer and [str::parse] back ([+] is accepted, the
    value must fit the type). *)

Definition z_to_string (z : Z) : string := NilZero.string_of_int (Z.to_int z).

Definition z_parse (s : string) : option Z :=
  match s with
  | String "+"%char rest => Z.of_int ∘ Decimal.Pos <$> NilZero.uint_of_string rest
  | _ => Z.of_int <$> NilZero.int_of_string s
  end.

Definition parse_i64 (s : string) : option Z :=
  z ← z_parse s; if (- 2 ^ 63 <=? z) && (z <? 2 ^ 63) then Some z else None.
(** An unsigned type takes no minus sign, not even before zero. *)
Definition parse_u64 (s : string) : option Z :=
  if String.prefix "-" s then None
  else z ← z_parse s; if (0 <=? z) && (z <=? u64_max) then Some z else None.

Lemma string_of_int_head d :
  match NilZero.string_of_int d with String "+"%char _ => False | _ => True end.
Proof. by destruct d as [[]|[]]. Qed.

Lemma z_parse_to_string z : z_parse (z_to_string z) = Some z.
Proof.
  assert (Hz : Z.of_int <$> NilZero.int_of_string (z_to_string z) = Some z).
  { unfold z_to_string. pose proof (DecimalZ.of_to z) as Hof.
    destruct (Z.to_int z) as [[]|[]] eqn:Hi;
      try (rewrite NilZero.isi by discriminate; cbn [fmap option_fmap option_map]; by rewrite Hof).
    - by rewrite NilZero.isi_posnil, <- Hof.
    - by rewrite NilZero.isi_negnil, <- Hof. }
  pose proof (string_of_int_head (Z.to_int z)) as Hh. fold (z_to_string z) in Hh.
  unfold z_parse. destruct (z_to_string z) as [|a rest]; [done|].
  repeat case_match; done.
Qed.

Lemma parse_i64_to_string z : - 2 ^ 63 <= z < 2 ^ 63 -> parse_i64 (z_to_string z) = Some z.
Proof.
  intros Hz. unfold parse_i64. rewrite z_parse_to_string. cbn.
  destruct (Z.leb_spec (- 2 ^ 63) z), (Z.ltb_spec z (2 ^ 63)); try lia. done.
Qed.

Lemma parse_i64_inv z z' : parse_i64 (z_to_string z) = Some z' -> z' = z.
Proof. unfold parse_i64. rewrite z_parse_to_string. cbn. destruct (_ && _); congruence. Qed.

Lemma parse_u64_inv z z' : parse_u64 (z_to_string z) = Some z' -> z' = z.
Proof.
  unfold parse_u64. destruct (String.prefix _ _); [done|]. rewrite z_parse_to_string. cbn.
  destruct (_ && _); congruence.
Qed.

Lemma z_to_string_unsigned z : 0 <= z -> String.prefix "-" (z_to_string z) = false.
Proof. intros Hz. destruct z as [|p|p]; [done| |lia]. unfold z_to_string. cbn. by destruct (Pos.to_uint p). Qed.

Lemma parse_u64_to_string z : 0 <= z <= u64_max -> parse_u64 (z_to_string z) = Some z.
Proof.
  intros Hz. unfold parse_u64. rewrite z_to_string_unsigned by lia. rewrite z_parse_to_string. cbn.
  destruct (Z.leb_spec 0 z), (Z.leb_spec z u64_max); try lia. done.
Qed.

(** ** Concatenated strings *)

Lemma append_cons c (a b : string) : String c a +:+ b = String c (a +:+ b).
Proof. done. Qed.

Lemma string_app_assoc (a b c : string) : (a +:+ b) +:+ c = a +:+ (b +:+ c).
Proof. induction a as [|x a IH]; [done|]. by rewrite !append_cons, IH. Qed.

Lemma length_string_app (a b : string) :
  String.length (a +:+ b) = (String.length a + String.length b)%nat.
Proof. induction a as [|x a IH]; [done|]. rewrite append_cons. cbn. by rewrite IH. Qed.

Lemma string_app_inj_r (s t u : string) : s +:+ u = t +:+ u -> s = t.
Proof.
  revert t. induction s as [|a s IH]; intros [|b t] He; [done| | |].
  - apply (f_equal String.length) in He. rewrite !length_string_app in He. cbn in He. lia.
  - apply (f_equal String.length) in He. rewrite !length_string_app in He. cbn in He. lia.
  - rewrite !append_cons in He. injection He as <- He. by rewrite (IH t He).
Qed.
