(* ===== verification/Events.v ===== *)
(** * Monitor events, commands and the block-source interface

    The data that crosses between the chain monitor, the event outbox and the
    server: [evm/src/monitor/events.rs], and the types of
    [evm/src/monitor/source/mod.rs].  Addresses, hashes, 256-bit amounts,
    UUIDs and instants are integers; a [u64] stays a [Z] with the arithmetic
    of the prelude. *)

From stdpp Require Import gmap strings list.
From Stdlib Require Import ZArith Lia.
From S2P Require Import Prelude.

Abbreviation Address := Z (only parsing).
Abbreviation B256 := Z (only parsing).
Abbreviation U256 := Z (only parsing).
Abbreviation Uuid := Z (only parsing).
Abbreviation Instant := Z (only parsing).

Definition B256_ZERO : B256 := 0.

(** ** Errors of the EVM crate *)

Inductive EvmError : Type :=
| Rpc (msg : string)
| Connection (msg : string)
| InvalidChainConfig (msg : string)
| UnsupportedNetwork (msg : string)
| WalletDerivation (msg : string)
| InvalidMnemonic (msg : string)
| InvalidDerivationPath (msg : string)
| InvalidXpub (msg : string)
| InvalidAddress (msg : string)
| Contract (msg : string)
| TokenNotFound (msg : string)
| TransactionNotFound (msg : string)
| Timeout (msg : string)
| Config (msg : string)
| Subscription (msg : string)
| EventStreamOutOfRange (msg : string)
| Monitor (msg : string)
| Signing (msg : string)
| Transaction (msg : string)
| InsufficientBalance (msg : string)
| Internal (msg : string).

Abbreviation EvmResult := (result EvmError).

(** The [Display] of an error, as its [#[error(...)]] attributes give it. *)
Definition evm_error_to_string (e : EvmError) : string :=
  (match e with
   | Rpc m => "RPC error: " ++ m
   | Connection m => "connection error: " ++ m
   | InvalidChainConfig m => "invalid chain config: " ++ m
   | UnsupportedNetwork m => "unsupported network: " ++ m
   | WalletDerivation m => "wallet derivation error: " ++ m
   | InvalidMnemonic m => "invalid mnemonic: " ++ m
   | InvalidDerivationPath m => "invalid derivation path: " ++ m
   | InvalidXpub m => "invalid xpub: " ++ m
   | InvalidAddress m => "invalid address: " ++ m
   | Contract m => "contract error: " ++ m
   | TokenNotFound m => "token not found: " ++ m
   | TransactionNotFound m => "transaction not found: " ++ m
   | Timeout m => "timeout: " ++ m
   | Config m => "config error: " ++ m
   | Subscription m => "subscription error: " ++ m
   | EventStreamOutOfRange m => "event stream out of range: " ++ m
   | Monitor m => "monitor error: " ++ m
   | Signing m => "signing error: " ++ m
   | Transaction m => "transaction error: " ++ m
   | InsufficientBalance m => "insufficient balance: " ++ m
   | Internal m => "internal error: " ++ m
   end)%string.

(** ** Commands (API server to monitor) *)

Record WatchAddressCommand := mkWatchAddressCommand {
  wac_chain_id : Z;
  wac_address : Address;
  wac_invoice_id : Uuid;
  wac_expected_amount : option U256;
  wac_token_contract : option Address
}.

Record UnwatchAddressCommand := mkUnwatchAddressCommand {
  uac_chain_id : Z;
  uac_address : Address;
  uac_token_contract : option Address
}.

Record GetStatusCommand := mkGetStatusCommand { gsc_chain_id : option Z }.

Inductive MonitorCommand : Type :=
| WatchAddress (c : WatchAddressCommand)
| UnwatchAddress (c : UnwatchAddressCommand)
| GetStatus (c : GetStatusCommand).

(** ** Events (monitor to API server) *)

Record PaymentDetected := mkPaymentDetected {
  pd_chain_id : Z;
  pd_invoice_id : Uuid;
  pd_payment_address : Address;
  pd_amount : U256;
  pd_tx_hash : B256;
  pd_block_number : Z;
  pd_block_hash : B256;
  pd_log_index : option Z;
  pd_is_native : bool;
  pd_token_address : option Address;
  pd_from_address : Address;
  pd_confirmations : Z;
  pd_required_confirmations : Z;
  pd_detected_at : Instant
}.

Record PaymentConfirmed := mkPaymentConfirmed {
  pc_tx_index : Z;
  pc_chain_id : Z;
  pc_invoice_id : Uuid;
  pc_payment_address : Address;
  pc_amount : U256;
  pc_tx_hash : B256;
  pc_block_number : Z;
  pc_confirmations : Z;
  pc_confirmed_at : Instant
}.

Record ReorgDetected := mkReorgDetected {
  rd_chain_id : Z;
  rd_fork_block : Z;
  rd_old_hash : B256;
  rd_new_hash : B256;
  rd_depth : Z;
  rd_affected_invoices : list Uuid;
  rd_survived_tx_hashes : list B256;
  rd_survivors_verifiable : bool;
  rd_detected_at : Instant
}.

Record AddressWatched := mkAddressWatched {
  aw_chain_id : Z;
  aw_address : Address;
  aw_invoice_id : Uuid;
  aw_watched_at : Instant
}.

Record AddressUnwatched := mkAddressUnwatched {
  au_chain_id : Z;
  au_address : Address;
  au_invoice_id : option Uuid
}.

Record WatchedAddressInfo := mkWatchedAddressInfo {
  wai_address : Address;
  wai_invoice_id : Uuid;
  wai_token_contract : option Address
}.

Record StatusReport := mkStatusReport {
  sr_chain_id : Z;
  sr_watched_count : nat;
  sr_current_block : Z;
  sr_addresses : list WatchedAddressInfo;
  sr_reported_at : Instant
}.

Inductive MonitorEvent : Type :=
| EvPaymentDetected (p : PaymentDetected)
| EvPaymentConfirmed (p : PaymentConfirmed)
| EvReorgDetected (r : ReorgDetected)
| EvMonitorStarted (chain_id : Z)
| EvMonitorStopped (chain_id : Z)
| EvMonitorError (chain_id : Z) (error : string)
| EvAddressWatched (w : AddressWatched)
| EvAddressUnwatched (w : AddressUnwatched)
| EvStatusReport (s : StatusReport).

(** [MonitorEvent::chain_id] *)
Definition event_chain_id (e : MonitorEvent) : Z :=
  match e with
  | EvPaymentDetected p => pd_chain_id p
  | EvPaymentConfirmed p => pc_chain_id p
  | EvReorgDetected r => rd_chain_id r
  | EvMonitorStarted c | EvMonitorStopped c => c
  | EvMonitorError c _ => c
  | EvAddressWatched w => aw_chain_id w
  | EvAddressUnwatched w => au_chain_id w
  | EvStatusReport s => sr_chain_id s
  end.

(** [MonitorEvent::block_height] *)
Definition event_block_height (e : MonitorEvent) : Z :=
  match e with
  | EvPaymentDetected p => pd_block_number p
  | EvPaymentConfirmed p => pc_block_number p
  | EvReorgDetected r => rd_fork_block r
  | EvStatusReport s => sr_current_block s
  | EvMonitorStarted _ | EvMonitorStopped _ | EvMonitorError _ _
  | EvAddressWatched _ | EvAddressUnwatched _ => 0
  end.

(** [PaymentDetected::is_confirmed] *)
Definition is_confirmed (p : PaymentDetected) : bool :=
  pd_required_confirmations p <=? pd_confirmations p.

(** [PaymentDetected::tx_index] *)
Definition tx_index (p : PaymentDetected) : option Z :=
  if pd_is_native p then Some (-1) else u32_as_i32 <$> pd_log_index p.

(** [ReorgDetected::is_significant] *)
Definition is_significant (r : ReorgDetected) (threshold : Z) : bool :=
  threshold <=? rd_depth r.

(** ** Block source: what the monitor asks the chain *)

Record NativeTransfer := mkNativeTransfer {
  nt_tx_hash : B256;
  nt_from : Address;
  nt_to : Address;
  nt_value : U256;
  nt_tx_index : Z
}.

Record BlockNotification := mkBlockNotification {
  bn_number : Z;
  bn_hash : B256;
  bn_parent_hash : B256;
  bn_timestamp : Z
}.

(** The parts of an RPC log the monitor reads. *)
Record Log := mkLog {
  log_address : Address;
  log_topics : list B256;
  log_data : list Z;
  log_block_number : option Z;
  log_transaction_hash : option B256;
  log_block_hash : option B256;
  log_log_index : option Z
}.

Record LogFilter := mkLogFilter {
  lf_addresses : list Address;
  lf_topics : list (option B256);
  lf_from_block : option Z;
  lf_to_block : option Z
}.

(** keccak256 of [Transfer(address,address,uint256)]. *)
Definition TRANSFER_TOPIC : B256 :=
  0xddf252ad1be2c89b69c2b068fc378daa952ba7f163c4a11628f55a4df523b3ef.

(** [LogFilter::erc20_transfers_to]: the recipient list is ignored, the caller
    filters afterwards. *)
Definition erc20_transfers_to (_addresses : list Address) : LogFilter :=
  {| lf_addresses := [];
     lf_topics := [Some TRANSFER_TOPIC; None];
     lf_from_block := None;
     lf_to_block := None |}.

(** [LogFilter::with_block_range] *)
Definition with_block_range (f : LogFilter) (from to : Z) : LogFilter :=
  {| lf_addresses := lf_addresses f;
     lf_topics := lf_topics f;
     lf_from_block := Some from;
     lf_to_block := Some to |}.

Inductive SourceStatus : Type :=
| Connected
| Connecting
| Disconnected
| Failed (reason : string).

#[export] Instance SourceStatus_eq_dec : EqDecision SourceStatus.
Proof. solve_decision. Defined.

Record ChainHealth := mkChainHealth {
  ch_chain_id : Z;
  ch_chain_name : string;
  ch_status : SourceStatus;
  ch_current_block : option Z;
  ch_last_processed_block : option Z;
  ch_watched_addresses : nat;
  ch_is_healthy : bool
}.

(** The [BlockSource] trait.  The chain and the connection to it change while
    the monitor runs, so every query also takes the number of queries the
    monitor has made before it: two identical queries may get two answers. *)
Class BlockSource := {
  source_status : nat -> SourceStatus;
  source_subscribe_blocks : nat -> EvmResult unit;
  source_get_logs : nat -> LogFilter -> EvmResult (list Log);
  source_get_block_number : nat -> EvmResult Z;
  source_get_block : nat -> Z -> EvmResult (option B256);
  source_find_native_transfers_to : nat -> Z -> list Address -> EvmResult (list NativeTransfer)
}.

(** [BlockSource::get_block_hash] (the default method; [get_block] is reduced
    to the header hash). *)
Definition source_get_block_hash `{BlockSource} (t : nat) (number : Z) : EvmResult (option B256) :=
  source_get_block t number.

(** [BlockSource::get_confirmations] *)
Definition source_get_confirmations `{BlockSource} (t : nat) (block_number : Z) : EvmResult Z :=
  match source_get_block_number t with
  | Err e => Err e
  | Ok current =>
      if current <? block_number then Ok 0
      else Ok (u64_add (u64_sub current block_number) 1)
  end.

(** ** Lemmas *)

(** The transfer key distinguishes what it must: a log index below 2^31 is
    kept, and never collides with the native sentinel. *)
Lemma tx_index_erc20 p i :
  pd_is_native p = false -> pd_log_index p = Some i -> 0 <= i < 2 ^ 31 ->
  tx_index p = Some i.
Proof.
  intros Hn Hi Hr. unfold tx_index. rewrite Hn, Hi. simpl. unfold u32_as_i32.
  destruct (Z.ltb_spec i (2 ^ 31)); [done | lia].
Qed.

Lemma tx_index_native p : pd_is_native p = true -> tx_index p = Some (-1).
Proof. intros Hn. unfold tx_index. by rewrite Hn. Qed.
