(* ===== verification/Network.v ===== *)
(** * Supported networks and chain configurations

    [evm/src/network.rs] and [evm/src/testnet.rs]: the network enum with its
    tables, the static chain configurations, the lookups by chain id, and the
    floor they put under the unwatch grace period. *)

From stdpp Require Import gmap strings list.
From Stdlib Require Import ZArith Lia Ascii String.
From S2P Require Import Prelude.

#[local] Open Scope string_scope.
#[local] Open Scope Z_scope.

Inductive EvmNetwork : Type :=
| Ethereum
| Polygon
| Arbitrum
| Optimism
| Base
| Avalanche
| BinanceSmartChain
| ZkSync
| Linea
| Scroll
| Fantom
| Gnosis.

#[export] Instance EvmNetwork_eq_dec : EqDecision EvmNetwork.
Proof. solve_decision. Defined.

(** [EvmNetwork::display_name] *)
Definition display_name (n : EvmNetwork) : string :=
  match n with
  | Ethereum => "Ethereum"
  | Polygon => "Polygon"
  | Arbitrum => "Arbitrum"
  | Optimism => "Optimism"
  | Base => "Base"
  | Avalanche => "Avalanche"
  | BinanceSmartChain => "BNB Chain"
  | ZkSync => "zkSync"
  | Linea => "Linea"
  | Scroll => "Scroll"
  | Fantom => "Fantom"
  | Gnosis => "Gnosis"
  end.

(** [EvmNetwork::native_symbol] *)
Definition native_symbol (n : EvmNetwork) : string :=
  match n with
  | Ethereum => "ETH"
  | Polygon => "POL"
  | Arbitrum => "ETH"
  | Optimism => "ETH"
  | Base => "ETH"
  | Avalanche => "AVAX"
  | BinanceSmartChain => "BNB"
  | ZkSync => "ETH"
  | Linea => "ETH"
  | Scroll => "ETH"
  | Fantom => "FTM"
  | Gnosis => "xDAI"
  end.

(** [EvmNetwork::chain_id] *)
Definition network_chain_id (n : EvmNetwork) : Z :=
  match n with
  | Ethereum => 1
  | Polygon => 137
  | Arbitrum => 42161
  | Optimism => 10
  | Base => 8453
  | Avalanche => 43114
  | BinanceSmartChain => 56
  | ZkSync => 324
  | Linea => 59144
  | Scroll => 534352
  | Fantom => 250
  | Gnosis => 100
  end.

(** [EvmNetwork::from_chain_id] *)
Definition from_chain_id (chain_id : Z) : option EvmNetwork :=
  match chain_id with
  | 1 => Some Ethereum
  | 137 => Some Polygon
  | 42161 => Some Arbitrum
  | 10 => Some Optimism
  | 8453 => Some Base
  | 43114 => Some Avalanche
  | 56 => Some BinanceSmartChain
  | 324 => Some ZkSync
  | 59144 => Some Linea
  | 534352 => Some Scroll
  | 250 => Some Fantom
  | 100 => Some Gnosis
  | _ => None
  end.

(** [EvmNetwork::as_str] *)
Definition as_str (n : EvmNetwork) : string :=
  match n with
  | Ethereum => "ethereum"
  | Polygon => "polygon"
  | Arbitrum => "arbitrum"
  | Optimism => "optimism"
  | Base => "base"
  | Avalanche => "avalanche"
  | BinanceSmartChain => "binance_smart_chain"
  | ZkSync => "zksync"
  | Linea => "linea"
  | Scroll => "scroll"
  | Fantom => "fantom"
  | Gnosis => "gnosis"
  end.

(** ASCII [str::to_lowercase]. *)
Definition ascii_lower (c : ascii) : ascii :=
  let n := nat_of_ascii c in
  if (65 <=? n)%nat && (n <=? 90)%nat then ascii_of_nat (n + 32) else c.

Fixpoint to_lowercase (s : string) : string :=
  match s with
  | EmptyString => EmptyString
  | String c s' => String (ascii_lower c) (to_lowercase s')
  end.

(** [EvmNetwork::from_str] *)
Definition network_from_str (s : string) : result string EvmNetwork :=
  let l := to_lowercase s in
  if String.eqb l "ethereum" || String.eqb l "eth" then Ok Ethereum else
  if String.eqb l "polygon" || String.eqb l "matic" then Ok Polygon else
  if String.eqb l "arbitrum" || String.eqb l "arb" then Ok Arbitrum else
  if String.eqb l "optimism" || String.eqb l "op" then Ok Optimism else
  if String.eqb l "base" then Ok Base else
  if String.eqb l "avalanche" || String.eqb l "avax" then Ok Avalanche else
  if String.eqb l "binance_smart_chain" || String.eqb l "bsc" || String.eqb l "bnb" then Ok BinanceSmartChain else
  if String.eqb l "zksync" || String.eqb l "zk_sync" then Ok ZkSync else
  if String.eqb l "linea" then Ok Linea else
  if String.eqb l "scroll" then Ok Scroll else
  if String.eqb l "fantom" || String.eqb l "ftm" then Ok Fantom else
  if String.eqb l "gnosis" || String.eqb l "xdai" then Ok Gnosis else
  Err ("unknown network: " ++ s)%string.

Record ChainConfig := mkChainConfig {
  cc_network : option EvmNetwork;
  cc_chain_id : Z;
  cc_name : string;
  cc_native_symbol : string;
  cc_native_decimals : Z;
  cc_block_time_secs : Z;
  cc_confirmations_required : Z;
  cc_explorer_url : string
}.

(** [str::replace]: every non-overlapping occurrence, left to right. *)
Fixpoint str_replace (skip : nat) (pat by_ s : string) : string :=
  match s with
  | EmptyString => EmptyString
  | String c s' =>
      match skip with
      | S k => str_replace k pat by_ s'
      | O =>
          if String.prefix pat s
          then by_ ++ str_replace (String.length pat - 1) pat by_ s'
          else String c (str_replace O pat by_ s')
      end
  end.

(** [ChainConfig::tx_explorer_url] *)
Definition tx_explorer_url (c : ChainConfig) (tx_hash : string) : string :=
  str_replace 0 "{tx}" tx_hash (cc_explorer_url c).

(** [ChainConfig::address_explorer_url] *)
Definition address_explorer_url (c : ChainConfig) (address : string) : string :=
  str_replace 0 "/tx/{tx}" ("/address/" ++ address) (cc_explorer_url c).

(** [ChainConfig::min_paid_unwatch_grace_period_secs] *)
Definition min_paid_unwatch_grace_period_secs (c : ChainConfig) : Z :=
  u64_saturating_mul
    (u64_saturating_mul (cc_confirmations_required c) (cc_block_time_secs c)) 2.

Definition ETHEREUM : ChainConfig :=
  {| cc_network := Some Ethereum;
     cc_chain_id := 1;
     cc_name := "Ethereum";
     cc_native_symbol := "ETH";
     cc_native_decimals := 18;
     cc_block_time_secs := 12;
     cc_confirmations_required := 12;
     cc_explorer_url := "https://etherscan.io/tx/{tx}" |}.

Definition POLYGON : ChainConfig :=
  {| cc_network := Some Polygon;
     cc_chain_id := 137;
     cc_name := "Polygon";
     cc_native_symbol := "POL";
     cc_native_decimals := 18;
     cc_block_time_secs := 2;
     cc_confirmations_required := 128;
     cc_explorer_url := "https://polygonscan.com/tx/{tx}" |}.

Definition ARBITRUM : ChainConfig :=
  {| cc_network := Some Arbitrum;
     cc_chain_id := 42161;
     cc_name := "Arbitrum One";
     cc_native_symbol := "ETH";
     cc_native_decimals := 18;
     cc_block_time_secs := 1;
     cc_confirmations_required := 64;
     cc_explorer_url := "https://arbiscan.io/tx/{tx}" |}.

Definition OPTIMISM : ChainConfig :=
  {| cc_network := Some Optimism;
     cc_chain_id := 10;
     cc_name := "Optimism";
     cc_native_symbol := "ETH";
     cc_native_decimals := 18;
     cc_block_time_secs := 2;
     cc_confirmations_required := 64;
     cc_explorer_url := "https://optimistic.etherscan.io/tx/{tx}" |}.

Definition BASE : ChainConfig :=
  {| cc_network := Some Base;
     cc_chain_id := 8453;
     cc_name := "Base";
     cc_native_symbol := "ETH";
     cc_native_decimals := 18;
     cc_block_time_secs := 2;
     cc_confirmations_required := 64;
     cc_explorer_url := "https://basescan.org/tx/{tx}" |}.

Definition AVALANCHE : ChainConfig :=
  {| cc_network := Some Avalanche;
     cc_chain_id := 43114;
     cc_name := "Avalanche C-Chain";
     cc_native_symbol := "AVAX";
     cc_native_decimals := 18;
     cc_block_time_secs := 2;
     cc_confirmations_required := 12;
     cc_explorer_url := "https://snowtrace.io/tx/{tx}" |}.

Definition BINANCE_SMART_CHAIN : ChainConfig :=
  {| cc_network := Some BinanceSmartChain;
     cc_chain_id := 56;
     cc_name := "BNB Smart Chain";
     cc_native_symbol := "BNB";
     cc_native_decimals := 18;
     cc_block_time_secs := 3;
     cc_confirmations_required := 15;
     cc_explorer_url := "https://bscscan.com/tx/{tx}" |}.

Definition ZKSYNC : ChainConfig :=
  {| cc_network := Some ZkSync;
     cc_chain_id := 324;
     cc_name := "zkSync Era";
     cc_native_symbol := "ETH";
     cc_native_decimals := 18;
     cc_block_time_secs := 1;
     cc_confirmations_required := 1;
     cc_explorer_url := "https://explorer.zksync.io/tx/{tx}" |}.

Definition LINEA : ChainConfig :=
  {| cc_network := Some Linea;
     cc_chain_id := 59144;
     cc_name := "Linea";
     cc_native_symbol := "ETH";
     cc_native_decimals := 18;
     cc_block_time_secs := 2;
     cc_confirmations_required := 20;
     cc_explorer_url := "https://lineascan.build/tx/{tx}" |}.

Definition SCROLL : ChainConfig :=
  {| cc_network := Some Scroll;
     cc_chain_id := 534352;
     cc_name := "Scroll";
     cc_native_symbol := "ETH";
     cc_native_decimals := 18;
     cc_block_time_secs := 3;
     cc_confirmations_required := 20;
     cc_explorer_url := "https://scrollscan.com/tx/{tx}" |}.

Definition FANTOM : ChainConfig :=
  {| cc_network := Some Fantom;
     cc_chain_id := 250;
     cc_name := "Fantom Opera";
     cc_native_symbol := "FTM";
     cc_native_decimals := 18;
     cc_block_time_secs := 1;
     cc_confirmations_required := 12;
     cc_explorer_url := "https://ftmscan.com/tx/{tx}" |}.

Definition GNOSIS : ChainConfig :=
  {| cc_network := Some Gnosis;
     cc_chain_id := 100;
     cc_name := "Gnosis Chain";
     cc_native_symbol := "xDAI";
     cc_native_decimals := 18;
     cc_block_time_secs := 5;
     cc_confirmations_required := 20;
     cc_explorer_url := "https://gnosisscan.io/tx/{tx}" |}.

Definition ALL_CHAINS : list ChainConfig :=
  [ETHEREUM;
   POLYGON;
   ARBITRUM;
   OPTIMISM;
   BASE;
   AVALANCHE;
   BINANCE_SMART_CHAIN;
   ZKSYNC;
   LINEA;
   SCROLL;
   FANTOM;
   GNOSIS].

Definition SEPOLIA : ChainConfig :=
  {| cc_network := None;
     cc_chain_id := 11155111;
     cc_name := "Sepolia";
     cc_native_symbol := "ETH";
     cc_native_decimals := 18;
     cc_block_time_secs := 12;
     cc_confirmations_required := 3;
     cc_explorer_url := "https://sepolia.etherscan.io/tx/{tx}" |}.

Definition HOLESKY : ChainConfig :=
  {| cc_network := None;
     cc_chain_id := 17000;
     cc_name := "Holesky";
     cc_native_symbol := "ETH";
     cc_native_decimals := 18;
     cc_block_time_secs := 12;
     cc_confirmations_required := 3;
     cc_explorer_url := "https://holesky.etherscan.io/tx/{tx}" |}.

Definition POLYGON_AMOY : ChainConfig :=
  {| cc_network := None;
     cc_chain_id := 80002;
     cc_name := "Polygon Amoy";
     cc_native_symbol := "POL";
     cc_native_decimals := 18;
     cc_block_time_secs := 2;
     cc_confirmations_required := 5;
     cc_explorer_url := "https://amoy.polygonscan.com/tx/{tx}" |}.

Definition ARBITRUM_SEPOLIA : ChainConfig :=
  {| cc_network := None;
     cc_chain_id := 421614;
     cc_name := "Arbitrum Sepolia";
     cc_native_symbol := "ETH";
     cc_native_decimals := 18;
     cc_block_time_secs := 1;
     cc_confirmations_required := 5;
     cc_explorer_url := "https://sepolia.arbiscan.io/tx/{tx}" |}.

Definition OPTIMISM_SEPOLIA : ChainConfig :=
  {| cc_network := None;
     cc_chain_id := 11155420;
     cc_name := "Optimism Sepolia";
     cc_native_symbol := "ETH";
     cc_native_decimals := 18;
     cc_block_time_secs := 2;
     cc_confirmations_required := 5;
     cc_explorer_url := "https://sepolia-optimism.etherscan.io/tx/{tx}" |}.

Definition BASE_SEPOLIA : ChainConfig :=
  {| cc_network := None;
     cc_chain_id := 84532;
     cc_name := "Base Sepolia";
     cc_native_symbol := "ETH";
     cc_native_decimals := 18;
     cc_block_time_secs := 2;
     cc_confirmations_required := 5;
     cc_explorer_url := "https://sepolia.basescan.org/tx/{tx}" |}.

Definition AVALANCHE_FUJI : ChainConfig :=
  {| cc_network := None;
     cc_chain_id := 43113;
     cc_name := "Avalanche Fuji";
     cc_native_symbol := "AVAX";
     cc_native_decimals := 18;
     cc_block_time_secs := 2;
     cc_confirmations_required := 3;
     cc_explorer_url := "https://testnet.snowtrace.io/tx/{tx}" |}.

Definition BSC_TESTNET : ChainConfig :=
  {| cc_network := None;
     cc_chain_id := 97;
     cc_name := "BSC Testnet";
     cc_native_symbol := "tBNB";
     cc_native_decimals := 18;
     cc_block_time_secs := 3;
     cc_confirmations_required := 5;
     cc_explorer_url := "https://testnet.bscscan.com/tx/{tx}" |}.

Definition HOODI : ChainConfig :=
  {| cc_network := None;
     cc_chain_id := 560048;
     cc_name := "Hoodi";
     cc_native_symbol := "ETH";
     cc_native_decimals := 18;
     cc_block_time_secs := 12;
     cc_confirmations_required := 3;
     cc_explorer_url := "https://hoodi.etherscan.io/tx/{tx}" |}.

Definition ALL_TESTNETS : list ChainConfig :=
  [SEPOLIA;
   HOLESKY;
   HOODI;
   POLYGON_AMOY;
   ARBITRUM_SEPOLIA;
   OPTIMISM_SEPOLIA;
   BASE_SEPOLIA;
   AVALANCHE_FUJI;
   BSC_TESTNET].

(** [get_chain_config]: [None] is the panic of its [expect]. *)
Definition get_chain_config (network : EvmNetwork) : option ChainConfig :=
  List.find (fun c => bool_decide (cc_network c = Some network)) ALL_CHAINS.

(** [get_chain_config_by_id] *)
Definition get_chain_config_by_id (chain_id : Z) : option ChainConfig :=
  List.find (fun c => cc_chain_id c =? chain_id) ALL_CHAINS.

(** [get_testnet_config] *)
Definition get_testnet_config (chain_id : Z) : option ChainConfig :=
  List.find (fun c => cc_chain_id c =? chain_id) ALL_TESTNETS.

(** [get_any_chain_config] *)
Definition get_any_chain_config (chain_id : Z) : option ChainConfig :=
  match get_chain_config_by_id chain_id with
  | Some config => Some config
  | None => get_testnet_config chain_id
  end.

(** ** Theorems *)

(** The two tables [chain_id] and [from_chain_id] are inverse. *)
Lemma from_chain_id_network_chain_id n : from_chain_id (network_chain_id n) = Some n.
Proof. by destruct n. Qed.

Lemma network_chain_id_from_chain_id c n : from_chain_id c = Some n -> network_chain_id n = c.
Proof.
  unfold from_chain_id. intros H.
  repeat (case_match; try discriminate; simplify_eq; try reflexivity).
Qed.

Lemma network_from_str_as_str n : network_from_str (as_str n) = Ok n.
Proof. by destruct n. Qed.

(** The printed names and the chain ids of the supported networks are
    unambiguous: parsing a printed name gives the network back, the chain-id
    table is inverse to [from_chain_id] in both directions, and the
    configuration lookup by network never panics and agrees on the chain id. *)
Theorem network_tables_roundtrip n :
  network_from_str (as_str n) = Ok n /\
  (forall c, from_chain_id c = Some n <-> network_chain_id n = c) /\
  exists cfg, get_chain_config n = Some cfg /\ cc_network cfg = Some n /\
              get_any_chain_config (network_chain_id n) = Some cfg.
Proof.
  split; [apply network_from_str_as_str|]. split.
  - intros c. split; [apply network_chain_id_from_chain_id|].
    intros <-. apply from_chain_id_network_chain_id.
  - destruct n; eexists; repeat split; reflexivity.
Qed.

Definition offered_chains : list ChainConfig := ALL_CHAINS ++ ALL_TESTNETS.

Lemma offered_chain_ids_NoDup : NoDup (cc_chain_id <$> offered_chains).
Proof. apply (bool_decide_unpack _). by vm_compute. Qed.

Lemma find_by_id_Some l chain_id cfg :
  NoDup (cc_chain_id <$> l) ->
  List.find (fun c => cc_chain_id c =? chain_id) l = Some cfg <->
  cfg ∈ l /\ cc_chain_id cfg = chain_id.
Proof.
  induction l as [|c l IH]; simpl; intros Hnd.
  - split; [discriminate|]. intros [?%not_elem_of_nil _]. done.
  - apply NoDup_cons in Hnd as [Hc Hnd].
    destruct (Z.eqb_spec (cc_chain_id c) chain_id) as [Heq|Hne].
    + split.
      * intros [= ->]. split; [set_solver|done].
      * intros [[->|Hin]%elem_of_cons Hid]; [done|].
        exfalso. apply Hc. apply list_elem_of_fmap. exists cfg. split; [congruence|done].
    + rewrite IH by done. split; [set_solver|].
      intros [[->|Hin]%elem_of_cons Hid]; [congruence|done].
Qed.

Lemma find_app {A} (p : A -> bool) l k :
  List.find p (l ++ k) = match List.find p l with Some x => Some x | None => List.find p k end.
Proof. induction l as [|x l IH]; simpl; [done|]. by destruct (p x). Qed.

Lemma any_chain_config_spec chain_id cfg :
  get_any_chain_config chain_id = Some cfg <-> cfg ∈ offered_chains /\ cc_chain_id cfg = chain_id.
Proof.
  rewrite <- find_by_id_Some by apply offered_chain_ids_NoDup.
  unfold offered_chains. by rewrite find_app.
Qed.

Lemma offered_grace_floor chain_id cfg :
  get_any_chain_config chain_id = Some cfg -> 0 < min_paid_unwatch_grace_period_secs cfg <= 3600.
Proof.
  intros [Hin _]%any_chain_config_spec. revert cfg Hin.
  apply Forall_forall. apply (bool_decide_unpack _). by vm_compute.
Qed.

(** Looking a chain up by id is exact over everything offered, mainnets and
    testnets together: it returns a configuration precisely when one of the
    static configurations carries that id, that one only, and every floor
    under the paid-unwatch grace period is a genuine number of seconds below
    the 3600 second default. *)
Theorem any_chain_config_exact chain_id cfg :
  (get_any_chain_config chain_id = Some cfg <->
   cfg ∈ offered_chains /\ cc_chain_id cfg = chain_id) /\
  (get_any_chain_config chain_id = Some cfg ->
   0 < min_paid_unwatch_grace_period_secs cfg <= 3600).
Proof. split; [apply any_chain_config_spec|apply offered_grace_floor]. Qed.
