(* ===== verification/Monitor.v ===== *)
(** * The chain monitor

    [ChainMonitor] of [evm/src/monitor/chain/]: the watched-address map, block
    processing with gap backfill and reorg detection ([processing.rs]),
    confirmation tracking and reorg re-validation ([confirmations.rs]), health
    and the event loop ([lifecycle.rs]).

    The state behind the monitor's locks is the record [MonState]; what it
    sends on its broadcast channel is the list [mon_events], oldest first.
    Every question to the chain goes through [query], which hands the source
    the number of questions asked so far, so a theorem over an arbitrary
    [BlockSource] covers every pattern of answers and failures. *)

From stdpp Require Import gmap strings list pretty.
From Stdlib Require Import ZArith Lia.
From S2P Require Import Prelude Events Network.

(** ** Data *)

(** [(address, token_contract)]. *)
Abbreviation WatchKey := (Z * option Z)%type (only parsing).

Record WatchedAddress := mkWatchedAddress {
  wa_address : Address;
  wa_invoice_id : Uuid;
  wa_expected_amount : option U256;
  wa_token_contract : option Address;
  wa_created_at : Instant
}.

Record ChainMonitorConfig := mkChainMonitorConfig {
  required_confirmations : Z;
  max_blocks_per_scan : Z;
  confirmation_check_interval_secs : Z;
  stall_timeout_secs : Z;
  loop_hang_timeout_secs : Z;
  monitor_native : bool;
  monitor_erc20 : bool
}.

Definition default_config : ChainMonitorConfig :=
  {| required_confirmations := 12;
     max_blocks_per_scan := 100;
     confirmation_check_interval_secs := 30;
     stall_timeout_secs := 120;
     loop_hang_timeout_secs := 300;
     monitor_native := true;
     monitor_erc20 := true |}.

(** [ChainMonitorConfig::from_chain] *)
Definition from_chain (chain : ChainConfig) : ChainMonitorConfig :=
  {| required_confirmations := cc_confirmations_required chain;
     max_blocks_per_scan := max_blocks_per_scan default_config;
     confirmation_check_interval_secs := confirmation_check_interval_secs default_config;
     stall_timeout_secs := stall_timeout_secs default_config;
     loop_hang_timeout_secs := loop_hang_timeout_secs default_config;
     monitor_native := monitor_native default_config;
     monitor_erc20 := monitor_erc20 default_config |}.

Record PendingPayment := mkPendingPayment {
  pp_event : PaymentDetected;
  pp_last_check_block : Z
}.

(** The state of a monitor.  [mon_events] is what was sent on its broadcast
    channel: all of it, for the channel of 1024 events overwrites what a slow
    receiver has not read and never holds up the sender.  What a receiver that
    lags loses is in the receiver ([Coordinator]). *)
Record MonState := mkMonState {
  mon_watched : gmap WatchKey WatchedAddress;
  mon_pending : gmap (Z * Z) PendingPayment;
  mon_last_block_at : Instant;
  mon_loop_alive_at : Instant;
  mon_last_block : option Z;
  mon_last_block_hash : option B256;
  mon_events : list MonitorEvent;
  mon_started : bool;
  mon_tick : nat
}.

(** [ChainMonitor::new], at the instant [now]. *)
Definition new_monitor (now : Instant) : MonState :=
  {| mon_watched := ∅;
     mon_pending := ∅;
     mon_last_block_at := now;
     mon_loop_alive_at := now;
     mon_last_block := None;
     mon_last_block_hash := None;
     mon_events := [];
     mon_started := false;
     mon_tick := 0 |}.

Definition set_watched (w : gmap WatchKey WatchedAddress) (s : MonState) : MonState :=
  mkMonState w (mon_pending s) (mon_last_block_at s) (mon_loop_alive_at s) (mon_last_block s)
    (mon_last_block_hash s) (mon_events s) (mon_started s) (mon_tick s).
Definition set_pending (p : gmap (Z * Z) PendingPayment) (s : MonState) : MonState :=
  mkMonState (mon_watched s) p (mon_last_block_at s) (mon_loop_alive_at s) (mon_last_block s)
    (mon_last_block_hash s) (mon_events s) (mon_started s) (mon_tick s).
Definition set_last_block_at (i : Instant) (s : MonState) : MonState :=
  mkMonState (mon_watched s) (mon_pending s) i (mon_loop_alive_at s) (mon_last_block s)
    (mon_last_block_hash s) (mon_events s) (mon_started s) (mon_tick s).
Definition set_loop_alive_at (i : Instant) (s : MonState) : MonState :=
  mkMonState (mon_watched s) (mon_pending s) (mon_last_block_at s) i (mon_last_block s)
    (mon_last_block_hash s) (mon_events s) (mon_started s) (mon_tick s).
(** [*self.last_block.write().await = ...; *self.last_block_hash.write().await = ...] *)
Definition set_cursor (n : Z) (h : B256) (s : MonState) : MonState :=
  mkMonState (mon_watched s) (mon_pending s) (mon_last_block_at s) (mon_loop_alive_at s) (Some n)
    (Some h) (mon_events s) (mon_started s) (mon_tick s).
Definition set_started (b : bool) (s : MonState) : MonState :=
  mkMonState (mon_watched s) (mon_pending s) (mon_last_block_at s) (mon_loop_alive_at s)
    (mon_last_block s) (mon_last_block_hash s) (mon_events s) b (mon_tick s).
(** [let _ = self.event_tx.send(e);] *)
Definition send (e : MonitorEvent) (s : MonState) : MonState :=
  mkMonState (mon_watched s) (mon_pending s) (mon_last_block_at s) (mon_loop_alive_at s)
    (mon_last_block s) (mon_last_block_hash s) (mon_events s ++ [e]) (mon_started s) (mon_tick s).
Definition advance (s : MonState) : MonState :=
  mkMonState (mon_watched s) (mon_pending s) (mon_last_block_at s) (mon_loop_alive_at s)
    (mon_last_block s) (mon_last_block_hash s) (mon_events s) (mon_started s) (S (mon_tick s)).

(** ** Watching *)

(** [ChainMonitor::watch] *)
Definition watch (w : WatchedAddress) (s : MonState) : MonState :=
  set_watched (<[(wa_address w, wa_token_contract w) := w]> (mon_watched s)) s.

(** [ChainMonitor::unwatch] *)
Definition unwatch (address : Address) (token_contract : option Address) (s : MonState)
  : option WatchedAddress * MonState :=
  (mon_watched s !! (address, token_contract),
   set_watched (delete (address, token_contract) (mon_watched s)) s).

(** [ChainMonitor::watched_addresses] *)
Definition watched_addresses (s : MonState) : list WatchedAddress :=
  (map_to_list (mon_watched s)).*2.

Definition BACKFILL_MAX_BLOCKS : Z := 200.

Section Monitor.
Context `{BlockSource}.
(** The wall clock, read at a point of the run. *)
Context (now : nat -> Instant).
(** [U256::from_be_slice], of the bigint library. *)
Context (u256_from_be_slice : list Z -> U256).
Context (chain_id : Z) (chain_name : string) (config : ChainMonitorConfig).

Abbreviation M := (St MonState EvmError).

(** One question to the block source. *)
Definition query {A} (f : nat -> EvmResult A) : M A :=
  fun s => (f (mon_tick s), advance s).

(** ** Payment detection *)

(** [Address::from_slice(&topic.as_slice()[12..])] *)
Definition topic_address (topic : B256) : Address := topic mod 2 ^ 160.

Definition native_event (invoice_map : gmap Z Uuid) (block_number : Z) (block_hash : B256)
    (at_ : Instant) (transfer : NativeTransfer) : option PaymentDetected :=
  invoice_id ← invoice_map !! nt_to transfer;
  Some {| pd_chain_id := chain_id;
          pd_invoice_id := invoice_id;
          pd_payment_address := nt_to transfer;
          pd_amount := nt_value transfer;
          pd_tx_hash := nt_tx_hash transfer;
          pd_block_number := block_number;
          pd_block_hash := block_hash;
          pd_log_index := None;
          pd_is_native := true;
          pd_token_address := None;
          pd_from_address := nt_from transfer;
          pd_confirmations := 1;
          pd_required_confirmations := required_confirmations config;
          pd_detected_at := at_ |}.

(** The [invoice_map] of the native scan: watched native addresses only. *)
Definition native_invoice_map (watched : gmap WatchKey WatchedAddress) : gmap Z Uuid :=
  list_to_map
    (omap (fun '((address, token), w) =>
             if option_is_none token then Some (address, wa_invoice_id w) else None)
          (map_to_list watched)).

(** [ChainMonitor::check_native_payments]; [detected] is the [&mut Vec]. *)
Definition check_native_payments (watched : gmap WatchKey WatchedAddress)
    (block_number : Z) (block_hash : B256) (detected : list PaymentDetected)
  : M (list PaymentDetected) :=
  let invoice_map := native_invoice_map watched in
  if decide (invoice_map = ∅) then st_ret detected
  else
    let addresses := (map_to_list invoice_map).*1 in
    let* transfers := query (fun t => source_find_native_transfers_to t block_number addresses) in
    let* t := st_gets mon_tick in
    st_ret (detected ++ omap (native_event invoice_map block_number block_hash (now t)) transfers).

(** The loop over the logs of one range query. *)
Fixpoint decode_transfer_logs (watched : gmap WatchKey WatchedAddress) (from to : Z)
    (at_ : Instant) (detected : list PaymentDetected) (logs : list Log) : EvmResult (list PaymentDetected) :=
  match logs with
  | [] => Ok detected
  | l :: rest =>
      match log_topics l with
      | _ :: topic1 :: topic2 :: _ =>
          let to_address := topic_address topic2 in
          let token_address := log_address l in
          match watched !! (to_address, Some token_address) with
          | Some w =>
              let from_address := topic_address topic1 in
              let amount := u256_from_be_slice (log_data l) in
              match log_block_number l with
              | None => Err (Rpc ("transfer log in blocks " +:+ pretty from +:+ "..=" +:+ pretty to
                                      +:+ " has no block number"))
              | Some log_block =>
                  let event :=
                    {| pd_chain_id := chain_id;
                       pd_invoice_id := wa_invoice_id w;
                       pd_payment_address := to_address;
                       pd_amount := amount;
                       pd_tx_hash := default B256_ZERO (log_transaction_hash l);
                       pd_block_number := log_block;
                       pd_block_hash := default B256_ZERO (log_block_hash l);
                       pd_log_index := u64_as_u32 <$> log_log_index l;
                       pd_is_native := false;
                       pd_token_address := Some (log_address l);
                       pd_from_address := from_address;
                       pd_confirmations := 1;
                       pd_required_confirmations := required_confirmations config;
                       pd_detected_at := at_ |} in
                  decode_transfer_logs watched from to at_ (detected ++ [event]) rest
              end
          | None => decode_transfer_logs watched from to at_ detected rest
          end
      | _ => decode_transfer_logs watched from to at_ detected rest
      end
  end.

Definition erc20_watch_addresses (watched : gmap WatchKey WatchedAddress) : list Address :=
  omap (fun '((address, token), _) => if option_is_some token then Some address else None)
       (map_to_list watched).

(** [ChainMonitor::check_erc20_payments] *)
Definition check_erc20_payments (watched : gmap WatchKey WatchedAddress) (from to : Z)
    (detected : list PaymentDetected) : M (list PaymentDetected) :=
  let watch_addresses := erc20_watch_addresses watched in
  if decide (watch_addresses = []) then st_ret detected
  else
    let filter := with_block_range (erc20_transfers_to watch_addresses) from to in
    let* logs := query (fun t => source_get_logs t filter) in
    let* t := st_gets mon_tick in
    st_lift (decode_transfer_logs watched from to (now t) detected logs).

(** [ChainMonitor::record_detected] *)
Definition record_detected (event : PaymentDetected) : M unit :=
  do* (match tx_index event with
       | Some i =>
           st_modify (fun s =>
             set_pending
               (<[(pd_tx_hash event, i) :=
                    {| pp_event := event; pp_last_check_block := pd_block_number event |}]>
                  (mon_pending s)) s)
       | None => st_ret tt
       end);
  st_modify (send (EvPaymentDetected event)).

(** ** Gap backfill *)

(** [ChainMonitor::block_hash_or_err] *)
Definition block_hash_or_err (number : Z) : M B256 :=
  let* h := query (fun t => source_get_block_hash t number) in
  match h with
  | Some h => st_ret h
  | None => st_throw (Rpc ("block " +:+ pretty number +:+ " not available while backfilling a gap"))
  end.

(** [ChainMonitor::backfill_missed_blocks] *)
Definition backfill_missed_blocks (watched : gmap WatchKey WatchedAddress) (from to : Z)
    (detected : list PaymentDetected) : M (B256 * list PaymentDetected) :=
  let* detected :=
    (if monitor_native config then
       st_fold (fun detected number =>
                  let* hash := block_hash_or_err number in
                  check_native_payments watched number hash detected)
               detected (range_inclusive from to)
     else st_ret detected) in
  let* detected :=
    (if monitor_erc20 config then check_erc20_payments watched from to detected
     else st_ret detected) in
  let* h := block_hash_or_err to in
  st_ret (h, detected).

(** [ChainMonitor::backfill_chunk] *)
Definition backfill_chunk (watched : gmap WatchKey WatchedAddress) (from to : Z)
    (block : BlockNotification) : M bool :=
  let chunk_to := Z.min to (u64_sub (u64_add from BACKFILL_MAX_BLOCKS) 1) in
  let* r := backfill_missed_blocks watched from chunk_to [] in
  let '(chunk_hash, detected) := r in
  do* st_for detected record_detected;
  do* st_modify (set_cursor chunk_to chunk_hash);
  st_ret (negb (chunk_to <? to)).

(** ** Reorg re-validation *)

(** The [while start <= to] loop over [eth_getLogs] chunks. *)
Fixpoint survived_erc20 (fuel : nat) (start to chunk : Z) (addresses : list Address)
    (survived : list B256) : M (list B256) :=
  match fuel with
  | O => st_throw (Internal "chunk loop out of fuel")
  | S fuel' =>
      if start <=? to then
        let end_ := Z.min (u64_saturating_add start (u64_sub chunk 1)) to in
        let filter := with_block_range (erc20_transfers_to addresses) start end_ in
        let* logs := query (fun t => source_get_logs t filter) in
        let survived := survived ++ omap log_transaction_hash logs in
        if end_ =? to then st_ret survived
        else survived_erc20 fuel' (u64_add end_ 1) to chunk addresses survived
      else st_ret survived
  end.

Definition native_watch_addresses (watched : gmap WatchKey WatchedAddress) : list Address :=
  omap (fun '((address, token), _) => if option_is_none token then Some address else None)
       (map_to_list watched).

(** [ChainMonitor::find_survived_tx_hashes] *)
Definition find_survived_tx_hashes (from to : Z) : M (list B256 * bool) :=
  let* watched := st_gets mon_watched in
  if decide (watched = ∅) then st_ret ([], false)
  else
    let native_addresses := native_watch_addresses watched in
    let erc20_addresses := erc20_watch_addresses watched in
    let chunk := Z.max (max_blocks_per_scan config) 1 in
    let* survived :=
      (if decide (native_addresses = []) then st_ret []
       else
         st_fold (fun survived block_number =>
                    let* transfers :=
                      query (fun t => source_find_native_transfers_to t block_number native_addresses) in
                    st_ret (survived ++ (nt_tx_hash <$> transfers)))
                 [] (range_inclusive from to)) in
    let* survived :=
      (if decide (erc20_addresses = []) then st_ret survived
       else survived_erc20 (S (Z.to_nat (to - from + 1))) from to chunk erc20_addresses survived) in
    st_ret (survived, true).

(** [ChainMonitor::handle_reorg] *)
Definition handle_reorg (fork_block : Z) (old_hash : B256) (new_block : BlockNotification)
  : M unit :=
  let* pending := st_gets mon_pending in
  let affected :=
    (fun p => pd_invoice_id (pp_event p))
      <$> List.filter (fun p => fork_block <=? pd_block_number (pp_event p))
                      (map_to_list pending).*2 in
  let depth := u64_add (u64_saturating_sub (bn_number new_block) fork_block) 1 in
  let* r := find_survived_tx_hashes fork_block (bn_number new_block) in
  let '(survived_tx_hashes, survivors_verifiable) := r in
  let* t := st_gets mon_tick in
  let event :=
    {| rd_chain_id := chain_id;
       rd_fork_block := fork_block;
       rd_old_hash := old_hash;
       rd_new_hash := bn_hash new_block;
       rd_depth := depth;
       rd_affected_invoices := affected;
       rd_survived_tx_hashes := survived_tx_hashes;
       rd_survivors_verifiable := survivors_verifiable;
       rd_detected_at := now t |} in
  st_modify (send (EvReorgDetected event)).

(** ** Block processing *)

(** The fork-block decision of [process_block]. *)
Definition detect_fork (last_num : Z) (last_hash : B256) (block : BlockNotification)
  : M (option Z) :=
  if bn_number block =? u64_add last_num 1 then
    st_ret (if bn_parent_hash block =? last_hash then None else Some last_num)
  else
    let* h := query (fun t => source_get_block_hash t last_num) in
    match h with
    | Some hash =>
        st_ret (if hash =? last_hash then None else Some (Z.min last_num (bn_number block)))
    | None => st_ret None
    end.

(** The reorg check that opens [process_block]. *)
Definition check_continuity (block : BlockNotification) : M unit :=
  let* last_block_hash := st_gets mon_last_block_hash in
  let* last_block := st_gets mon_last_block in
  match last_block_hash, last_block with
  | Some last_hash, Some last_num =>
      let* fork_block := detect_fork last_num last_hash block in
      match fork_block with
      | Some fork_block => handle_reorg fork_block last_hash block
      | None => st_ret tt
      end
  | _, _ => st_ret tt
  end.

(** The blocks between the last one processed and this one. *)
Definition missed_blocks (last_block : option Z) (block : BlockNotification) : option (Z * Z) :=
  match last_block with
  | Some last_num =>
      if u64_add last_num 1 <? bn_number block
      then Some (u64_add last_num 1, u64_sub (bn_number block) 1) else None
  | None => None
  end.

(** The scan of the delivered block itself. *)
Definition scan_block (watched : gmap WatchKey WatchedAddress) (block : BlockNotification)
  : M unit :=
  let* detected :=
    (if monitor_native config
     then check_native_payments watched (bn_number block) (bn_hash block) []
     else st_ret []) in
  let* detected :=
    (if monitor_erc20 config
     then check_erc20_payments watched (bn_number block) (bn_number block) detected
     else st_ret detected) in
  do* st_for detected record_detected;
  st_modify (set_cursor (bn_number block) (bn_hash block)).

(** [ChainMonitor::process_block] *)
Definition process_block (block : BlockNotification) : M unit :=
  do* check_continuity block;
  let* last_block := st_gets mon_last_block in
  let missed := missed_blocks last_block block in
  let* watched := st_gets mon_watched in
  if decide (watched = ∅) then st_modify (set_cursor (bn_number block) (bn_hash block))
  else
    let* caught_up :=
      (match missed with
       | Some (from, to) => backfill_chunk watched from to block
       | None => st_ret true
       end) in
    if caught_up then scan_block watched block else st_ret tt.

(** ** Confirmations *)

Definition confirmations_at (current_block : Z) (p : PaymentDetected) : Z :=
  u64_add (u64_saturating_sub current_block (pd_block_number p)) 1.

(** [payment.event.confirmations = confirmations;] *)
Definition update_confirmations (current_block : Z) (p : PendingPayment) : PendingPayment :=
  let e := pp_event p in
  {| pp_event :=
       {| pd_chain_id := pd_chain_id e;
          pd_invoice_id := pd_invoice_id e;
          pd_payment_address := pd_payment_address e;
          pd_amount := pd_amount e;
          pd_tx_hash := pd_tx_hash e;
          pd_block_number := pd_block_number e;
          pd_block_hash := pd_block_hash e;
          pd_log_index := pd_log_index e;
          pd_is_native := pd_is_native e;
          pd_token_address := pd_token_address e;
          pd_from_address := pd_from_address e;
          pd_confirmations := confirmations_at current_block e;
          pd_required_confirmations := pd_required_confirmations e;
          pd_detected_at := pd_detected_at e |};
     pp_last_check_block := pp_last_check_block p |}.

Definition confirm_event (at_ : Instant) (key : Z * Z) (p : PendingPayment) : PaymentConfirmed :=
  let e := pp_event p in
  {| pc_tx_index := key.2;
     pc_chain_id := pd_chain_id e;
     pc_invoice_id := pd_invoice_id e;
     pc_payment_address := pd_payment_address e;
     pc_amount := pd_amount e;
     pc_tx_hash := pd_tx_hash e;
     pc_block_number := pd_block_number e;
     pc_confirmations := pd_confirmations e;
     pc_confirmed_at := at_ |}.

(** [ChainMonitor::check_confirmations] *)
Definition check_confirmations : M unit :=
  let* current_block := query source_get_block_number in
  let* pending := st_gets mon_pending in
  let* t := st_gets mon_tick in
  let pending := update_confirmations current_block <$> pending in
  let confirmed := List.filter (fun kp => is_confirmed (pp_event kp.2)) (map_to_list pending) in
  do* st_for confirmed (fun kp =>
        st_modify (send (EvPaymentConfirmed (confirm_event (now t) kp.1 kp.2))));
  st_modify (set_pending (foldr delete pending confirmed.*1)).

(** ** Lifecycle *)

(** [ChainMonitor::current_block]: a request to the source. *)
Definition current_block : M Z := query source_get_block_number.

(** [ChainMonitor::get_health] *)
Definition get_health : M ChainHealth :=
  let* t := st_gets mon_tick in
  let status := source_status t in
  let* current_block := st_try (query source_get_block_number) in
  let current_block := result_ok current_block in
  let* last_processed_block := st_gets mon_last_block in
  let* watched := st_gets mon_watched in
  let is_healthy :=
    bool_decide (status = Connected) &&
    match current_block, last_processed_block with
    | Some current, Some last => u64_saturating_sub current last <=? 10
    | Some _, None => true
    | _, _ => false
    end in
  st_ret {| ch_chain_id := chain_id;
            ch_chain_name := chain_name;
            ch_status := status;
            ch_current_block := current_block;
            ch_last_processed_block := last_processed_block;
            ch_watched_addresses := size watched;
            ch_is_healthy := is_healthy |}.

(** [ChainMonitor::resubscribe_if_stalled] *)
Definition resubscribe_if_stalled : M unit :=
  let* health := get_health in
  let disconnected := negb (bool_decide (ch_status health = Connected)) in
  let* t := st_gets mon_tick in
  let* last_block_at := st_gets mon_last_block_at in
  let silent_for := now t - last_block_at in
  let stalled := stall_timeout_secs config * 10 ^ 9 <=? silent_for in
  if negb disconnected && negb stalled then st_ret tt
  else
    do* query source_subscribe_blocks;
    let* t := st_gets mon_tick in
    st_modify (set_last_block_at (now t)).

(** What wakes the [select!] of the event loop. *)
Inductive LoopInput : Type :=
| ShutdownSignal
| NewBlock (r : EvmResult BlockNotification)
| ConfirmTick.

(** The part of [ChainMonitor::start] before the loop. *)
Definition start : M unit :=
  let* started := st_gets mon_started in
  if started then st_throw (Monitor "monitor already started")
  else
    do* st_modify (set_started true);
    do* query source_subscribe_blocks;
    let* t := st_gets mon_tick in
    do* st_modify (set_last_block_at (now t));
    st_modify (send (EvMonitorStarted chain_id)).

(** One iteration of the loop; [false] is [break]. *)
Definition loop_iteration (input : LoopInput) : M bool :=
  let* t := st_gets mon_tick in
  do* st_modify (set_loop_alive_at (now t));
  match input with
  | ShutdownSignal =>
      do* st_modify (send (EvMonitorStopped chain_id));
      st_ret false
  | NewBlock (Ok block) =>
      do* st_modify (set_last_block_at (now t));
      let* r := st_try (process_block block) in
      do* (match r with
           | Ok _ => st_ret tt
           | Err e => st_modify (send (EvMonitorError chain_id (evm_error_to_string e)))
           end);
      st_ret true
  | NewBlock (Err _) => st_ret true
  | ConfirmTick =>
      do* @st_try _ _ _ EvmError check_confirmations;
      do* @st_try _ _ _ EvmError resubscribe_if_stalled;
      st_ret true
  end.

(** The loop, over the inputs that arrive. *)
Fixpoint run_loop (inputs : list LoopInput) : M unit :=
  match inputs with
  | [] => st_ret tt
  | i :: rest =>
      let* continue := loop_iteration i in
      if continue then run_loop rest else st_ret tt
  end.
End Monitor.
