(* ===== verification/MonitorFacts.v ===== *)
(** * Theorems about the chain monitor

    What block processing guarantees whatever the block source answers: the
    cursor only passes blocks that were scanned and whose payments were
    announced, a failure leaves the cursor where a retry finds the same work,
    a gap closes, reorg re-validation covers the whole window, and a
    confirmation is only ever announced for an announced payment. *)

From stdpp Require Import gmap strings list.
From Stdlib Require Import ZArith Lia.
From S2P Require Import Prelude Events Network Monitor.

(** ** Vocabulary *)

(** The state without the question counter. *)
Definition untick (s : MonState) : MonState :=
  mkMonState (mon_watched s) (mon_pending s) (mon_last_block_at s) (mon_loop_alive_at s)
    (mon_last_block s) (mon_last_block_hash s) (mon_events s) (mon_started s) 0.

Definition set_events (es : list MonitorEvent) (s : MonState) : MonState :=
  mkMonState (mon_watched s) (mon_pending s) (mon_last_block_at s) (mon_loop_alive_at s)
    (mon_last_block s) (mon_last_block_hash s) es (mon_started s) (mon_tick s).

Definition set_tick (t : nat) (s : MonState) : MonState :=
  mkMonState (mon_watched s) (mon_pending s) (mon_last_block_at s) (mon_loop_alive_at s)
    (mon_last_block s) (mon_last_block_hash s) (mon_events s) (mon_started s) t.

(** A computation that only asks the source: it writes nothing and the
    question counter does not go back. *)
Definition read_only {A} (m : St MonState EvmError A) : Prop :=
  forall c t, preserves (fun s => untick s = c /\ (t <= mon_tick s)%nat) m.

(** Block numbers for which the [+ 1] and [+ 200] of the code do not wrap. *)
Definition block_in_range (n : Z) : Prop := 0 <= n < 2 ^ 63.

(** [p] announces the native transfer [tr] of block [n] for watch [w]. *)
Definition announces_native (p : PaymentDetected) (n : Z) (tr : NativeTransfer)
    (w : WatchedAddress) : Prop :=
  pd_is_native p = true /\ pd_block_number p = n /\ pd_tx_hash p = nt_tx_hash tr /\
  pd_amount p = nt_value tr /\ pd_payment_address p = nt_to tr /\
  pd_from_address p = nt_from tr /\ pd_invoice_id p = wa_invoice_id w.

(** [p] announces the ERC20 transfer log [l] for watch [w]. *)
Definition announces_log (p : PaymentDetected) (l : Log) (w : WatchedAddress) : Prop :=
  pd_is_native p = false /\ Some (pd_block_number p) = log_block_number l /\
  pd_token_address p = Some (log_address l) /\
  pd_tx_hash p = default B256_ZERO (log_transaction_hash l) /\
  pd_log_index p = u64_as_u32 <$> log_log_index l /\
  pd_invoice_id p = wa_invoice_id w.

(** The recipient a transfer log names. *)
Definition log_recipient (l : Log) : option Z :=
  match log_topics l with
  | _ :: _ :: topic2 :: _ => Some (topic_address topic2)
  | _ => None
  end.

Create HintDb readonly.

Section ReadOnly.
Lemma ro_ret {A} (a : A) : read_only (st_ret a).
Proof. intros c t. apply preserves_ret. Qed.
Lemma ro_throw {A} e : read_only (@st_throw _ _ A e).
Proof. intros c t. apply preserves_throw. Qed.
Lemma ro_gets {A} (f : MonState -> A) : read_only (st_gets f).
Proof. intros c t. apply preserves_gets. Qed.
Lemma ro_lift {A} (r : EvmResult A) : read_only (st_lift r).
Proof. intros c t. apply preserves_lift. Qed.
Lemma ro_bind {A B} (m : St MonState EvmError A) (f : A -> St MonState EvmError B) :
  read_only m -> (forall a, read_only (f a)) -> read_only (st_bind m f).
Proof. intros Hm Hf c t. apply preserves_bind; [apply Hm | intros a; apply Hf]. Qed.
Lemma ro_fold {A B} (f : B -> A -> St MonState EvmError B) b (l : list A) :
  (forall b x, read_only (f b x)) -> read_only (st_fold f b l).
Proof. intros Hf c t. apply preserves_fold. intros. apply Hf. Qed.
Lemma ro_query {A} (f : nat -> EvmResult A) : read_only (query f).
Proof. intros c t s [<- Ht]. simpl. split; [done | lia]. Qed.
End ReadOnly.
#[export] Hint Resolve ro_ret ro_throw ro_gets ro_lift ro_bind ro_fold ro_query : readonly.

Lemma read_only_run {A} (m : St MonState EvmError A) s r s' :
  read_only m -> m s = (r, s') -> untick s' = untick s /\ (mon_tick s <= mon_tick s')%nat.
Proof.
  intros Hm Hr. specialize (Hm (untick s) (mon_tick s) s (conj eq_refl (Nat.le_refl _))).
  by rewrite Hr in Hm.
Qed.

Lemma untick_watched s s' : untick s = untick s' -> mon_watched s = mon_watched s'.
Proof. by intros [=]. Qed.
Lemma untick_events s s' : untick s = untick s' -> mon_events s = mon_events s'.
Proof. by intros [=]. Qed.
Lemma untick_pending s s' : untick s = untick s' -> mon_pending s = mon_pending s'.
Proof. by intros [=]. Qed.
Lemma untick_last_block s s' : untick s = untick s' -> mon_last_block s = mon_last_block s'.
Proof. by intros [=]. Qed.
Lemma untick_last_hash s s' : untick s = untick s' -> mon_last_block_hash s = mon_last_block_hash s'.
Proof. by intros [=]. Qed.

(** ** The watched set *)

Lemma elem_of_native_invoice_list (w : gmap (Z * option Z) WatchedAddress) a i :
  (a, i) ∈ omap (fun '((address, token), w) =>
               if option_is_none token then Some (address, wa_invoice_id w) else None)
            (map_to_list w) <->
  exists x, w !! (a, None) = Some x /\ wa_invoice_id x = i.
Proof.
  rewrite list_elem_of_omap. split.
  - intros ([[a' [t|]] x] & Hx%elem_of_map_to_list & Heq); simplify_eq/=. eauto.
  - intros (x & Hx & <-). exists ((a, None), x). by rewrite elem_of_map_to_list.
Qed.

Lemma native_invoice_map_lookup (w : gmap (Z * option Z) WatchedAddress) a :
  native_invoice_map w !! a = wa_invoice_id <$> w !! (a, None).
Proof.
  unfold native_invoice_map. destruct (w !! (a, None)) as [x|] eqn:Hx; simpl.
  - apply elem_of_list_to_map_1'.
    + intros y (x' & Hx' & <-)%elem_of_native_invoice_list. congruence.
    + apply elem_of_native_invoice_list. eauto.
  - apply not_elem_of_list_to_map_1. intros ([a' i] & -> & Hi)%list_elem_of_fmap.
    apply elem_of_native_invoice_list in Hi as (x' & Hx' & _). simpl in *. congruence.
Qed.

Lemma elem_of_erc20_watch_addresses (w : gmap (Z * option Z) WatchedAddress) a t x :
  w !! (a, Some t) = Some x -> a ∈ erc20_watch_addresses w.
Proof.
  intros Hx. apply list_elem_of_omap. exists ((a, Some t), x).
  by rewrite elem_of_map_to_list.
Qed.

Section Facts.
Context `{BlockSource}.
Context (now : nat -> Instant) (u256_from_be_slice : list Z -> U256).
Context (chain_id : Z) (config : ChainMonitorConfig).

Abbreviation check_native := (check_native_payments now chain_id config).
Abbreviation check_erc20 := (check_erc20_payments now u256_from_be_slice chain_id config).
Abbreviation backfill := (backfill_missed_blocks now u256_from_be_slice chain_id config).
Abbreviation chunk := (backfill_chunk now u256_from_be_slice chain_id config).
Abbreviation scan := (scan_block now u256_from_be_slice chain_id config).
Abbreviation process := (process_block now u256_from_be_slice chain_id config).
Abbreviation continuity := (check_continuity now chain_id config).
Abbreviation reorg := (handle_reorg now chain_id config).

(** ** Questions write nothing *)

Lemma check_native_ro w n h d : read_only (check_native w n h d).
Proof. unfold check_native_payments. case_decide; auto 10 with readonly. Qed.

Lemma check_erc20_ro w a b d : read_only (check_erc20 w a b d).
Proof. unfold check_erc20_payments. case_decide; auto 10 with readonly. Qed.

Lemma block_hash_or_err_ro n : read_only (block_hash_or_err n).
Proof. unfold block_hash_or_err. apply ro_bind; [auto with readonly|]. intros []; auto with readonly. Qed.

Hint Resolve check_native_ro check_erc20_ro block_hash_or_err_ro : readonly.

Lemma backfill_ro w a b d : read_only (backfill w a b d).
Proof.
  unfold backfill_missed_blocks.
  apply ro_bind; [destruct (monitor_native config); auto 10 with readonly|]. intros d1.
  apply ro_bind; [destruct (monitor_erc20 config); auto with readonly|]. auto with readonly.
Qed.

Lemma survived_erc20_ro fuel a b c addrs sv : read_only (survived_erc20 fuel a b c addrs sv).
Proof.
  revert a sv. induction fuel as [|fuel IH]; intros a sv; simpl; [auto with readonly|].
  destruct (a <=? b); [|auto with readonly].
  apply ro_bind; [auto with readonly|]. intros logs. destruct (_ =? b); auto with readonly.
Qed.

Hint Resolve backfill_ro survived_erc20_ro : readonly.

Lemma find_survived_ro a b : read_only (find_survived_tx_hashes config a b).
Proof.
  unfold find_survived_tx_hashes. apply ro_bind; [auto with readonly|]. intros w.
  case_decide; [auto with readonly|].
  apply ro_bind; [case_decide; auto with readonly|]. intros sv.
  apply ro_bind; [case_decide; auto with readonly|]. auto with readonly.
Qed.

Lemma detect_fork_ro n h b : read_only (detect_fork n h b).
Proof.
  unfold detect_fork. case_match; [auto with readonly|].
  apply ro_bind; [auto with readonly|]. intros []; auto with readonly.
Qed.

Hint Resolve find_survived_ro detect_fork_ro : readonly.

(** ** Detection finds every transfer the source reports *)

(** The addresses a native scan asks about. *)
Definition native_addresses (w : gmap (Z * option Z) WatchedAddress) : list Address :=
  (map_to_list (native_invoice_map w)).*1.

(** Between the questions [t0] and [t1] the source was asked for block [n],
    answered, and every transfer it reported to a watched native address is
    announced in [ps]. *)
Definition native_scanned (w : gmap (Z * option Z) WatchedAddress) (n : Z) (t0 t1 : nat)
    (ps : list PaymentDetected) : Prop :=
  exists t ts, (t0 <= t < t1)%nat /\
    source_find_native_transfers_to t n (native_addresses w) = Ok ts /\
    forall tr x, tr ∈ ts -> w !! (nt_to tr, None) = Some x ->
      exists p, p ∈ ps /\ announces_native p n tr x.

(** Between the questions [t0] and [t1] a log query covering block [n] was
    answered, and every transfer log in the answer for a watched
    (address, token) pair is announced in [ps]. *)
Definition erc20_scanned (w : gmap (Z * option Z) WatchedAddress) (n : Z) (t0 t1 : nat)
    (ps : list PaymentDetected) : Prop :=
  exists t a b ls, (t0 <= t < t1)%nat /\ a <= n <= b /\
    source_get_logs t (with_block_range (erc20_transfers_to (erc20_watch_addresses w)) a b) = Ok ls /\
    forall l r x, l ∈ ls -> log_recipient l = Some r -> w !! (r, Some (log_address l)) = Some x ->
      exists p, p ∈ ps /\ announces_log p l x.

Lemma native_scanned_mono w n t0 t1 t0' t1' ps ps' :
  native_scanned w n t0 t1 ps -> (t0' <= t0)%nat -> (t1 <= t1')%nat -> ps ⊆ ps' ->
  native_scanned w n t0' t1' ps'.
Proof.
  intros (t & ts & Hr & Ht & Hp) ?? Hs. exists t, ts. split; [lia|]. split; [done|].
  intros tr x Htr Hx. destruct (Hp tr x Htr Hx) as (p & Hin & Ha). exists p. auto.
Qed.

Lemma erc20_scanned_mono w n t0 t1 t0' t1' ps ps' :
  erc20_scanned w n t0 t1 ps -> (t0' <= t0)%nat -> (t1 <= t1')%nat -> ps ⊆ ps' ->
  erc20_scanned w n t0' t1' ps'.
Proof.
  intros (t & a & b & ls & Hq & Hr & Ht & Hp) ?? Hs. exists t, a, b, ls.
  split; [lia|]. split; [done|]. split; [done|]. intros l r x Hl Hr' Hx.
  destruct (Hp l r x Hl Hr' Hx) as (p & Hin & Ha). exists p. auto.
Qed.

Lemma native_map_nonempty (w : gmap (Z * option Z) WatchedAddress) a x :
  w !! (a, None) = Some x -> native_invoice_map w <> ∅.
Proof.
  intros Hx He. assert (Hl : native_invoice_map w !! a = None) by (rewrite He; apply lookup_empty).
  rewrite native_invoice_map_lookup, Hx in Hl. discriminate.
Qed.

Lemma native_events_announce (w : gmap (Z * option Z) WatchedAddress) n h at_
    (ts : list NativeTransfer) tr x :
  tr ∈ ts -> w !! (nt_to tr, None) = Some x ->
  exists p, p ∈ omap (native_event chain_id config (native_invoice_map w) n h at_) ts /\
            announces_native p n tr x.
Proof.
  intros Htr Hx. eexists. split.
  - apply list_elem_of_omap. exists tr. split; [done|]. unfold native_event.
    rewrite native_invoice_map_lookup, Hx. reflexivity.
  - by repeat split.
Qed.

Lemma check_native_ok w n h d s d' s' a x :
  check_native w n h d s = (Ok d', s') -> w !! (a, None) = Some x ->
  d ⊆ d' /\ native_scanned w n (mon_tick s) (mon_tick s') d'.
Proof.
  unfold check_native_payments. intros Hr Ha.
  rewrite decide_False in Hr by eauto using native_map_nonempty.
  unfold query, st_bind, st_gets, st_ret in Hr.
  destruct (source_find_native_transfers_to _ _ _) as [ts|] eqn:Hts; [|discriminate].
  simplify_eq. split; [set_solver|]. exists (mon_tick s), ts.
  split; [simpl; lia|]. split; [done|].
  intros tr x' Htr Hx'.
  destruct (native_events_announce w n h (now (mon_tick (advance s))) ts tr x' Htr Hx')
    as (p & Hp & Han). exists p. split; [set_solver|done].
Qed.

Lemma check_native_grows w n h d s d' s' :
  check_native w n h d s = (Ok d', s') -> d ⊆ d'.
Proof.
  unfold check_native_payments. case_decide.
  - unfold st_ret. intros. by simplify_eq.
  - unfold query, st_bind, st_gets, st_ret.
    destruct (source_find_native_transfers_to _ _ _); [|discriminate].
    intros. simplify_eq. set_solver.
Qed.

Lemma decode_logs_ok w a b at_ ls d d' :
  decode_transfer_logs u256_from_be_slice chain_id config w a b at_ d ls = Ok d' ->
  d ⊆ d' /\
  forall l r x, l ∈ ls -> log_recipient l = Some r -> w !! (r, Some (log_address l)) = Some x ->
    exists p, p ∈ d' /\ announces_log p l x.
Proof.
  revert d. induction ls as [|l ls IH]; intros d Hd; simpl in Hd.
  { simplify_eq. split; [done|]. intros l r x Hl%not_elem_of_nil. done. }
  unfold log_recipient in *.
  destruct (log_topics l) as [|t0 [|t1 [|t2 ts]]] eqn:Htop;
    try (apply IH in Hd as [Hs Hp]; split; [done|];
         intros l' r x [->|Hl']%elem_of_cons Hr Hx;
         [rewrite Htop in Hr; discriminate | eauto]).
  destruct (w !! (topic_address t2, Some (log_address l))) as [y|] eqn:Hy.
  - destruct (log_block_number l) as [bn|] eqn:Hbn; [|discriminate].
    apply IH in Hd as [Hs Hp]. split; [set_solver|].
    intros l' r x [->|Hl']%elem_of_cons Hr Hx; [|eauto].
    rewrite Htop in Hr. simplify_eq. eexists. split.
    { apply Hs, elem_of_app. right. by apply list_elem_of_singleton. }
    by repeat split.
  - apply IH in Hd as [Hs Hp]. split; [done|].
    intros l' r x [->|Hl']%elem_of_cons Hr Hx; [|eauto].
    rewrite Htop in Hr. simplify_eq.
Qed.

Lemma check_erc20_ok w a b d s d' s' :
  check_erc20 w a b d s = (Ok d', s') ->
  d ⊆ d' /\
  forall n r t x, w !! (r, Some t) = Some x -> a <= n <= b ->
    erc20_scanned w n (mon_tick s) (mon_tick s') d'.
Proof.
  unfold check_erc20_payments. intros Hr. case_decide as Hw.
  { unfold st_ret in Hr. simplify_eq. split; [done|].
    intros n r t x Hx%elem_of_erc20_watch_addresses. rewrite Hw in Hx.
    by apply not_elem_of_nil in Hx. }
  unfold query, st_bind, st_gets, st_lift in Hr.
  destruct (source_get_logs _ _) as [ls|] eqn:Hls; [|discriminate].
  injection Hr as Hd <-. apply decode_logs_ok in Hd as [Hs Hp]. split; [done|].
  intros n r t x Hx Hn. exists (mon_tick s), a, b, ls.
  split; [simpl; lia | auto].
Qed.

Lemma check_erc20_grows w a b d s d' s' :
  check_erc20 w a b d s = (Ok d', s') -> d ⊆ d'.
Proof. intros Hr. by apply check_erc20_ok in Hr as [Hs _]. Qed.

(** ** A scanned range *)

Lemma native_fold_ok w ns d s d' s' a x :
  st_fold (fun d n => let* h := block_hash_or_err n in check_native w n h d) d ns s = (Ok d', s') ->
  w !! (a, None) = Some x ->
  d ⊆ d' /\ forall n, n ∈ ns -> native_scanned w n (mon_tick s) (mon_tick s') d'.
Proof.
  intros Hr Ha. revert d s Hr. induction ns as [|n ns IH]; intros d s Hr; cbn [st_fold] in Hr.
  { unfold st_ret in Hr. simplify_eq. split; [done|]. intros n Hn%not_elem_of_nil. done. }
  inv_ok Hr as d1 s2 H1 H2. inv_ok H1 as h s1 Hh Hc.
  pose proof (read_only_run _ _ _ _ (block_hash_or_err_ro _) Hh) as [_ ?].
  pose proof (check_native_ok _ _ _ _ _ _ _ _ _ Hc Ha) as [Hs1 Hn1].
  pose proof (read_only_run _ _ _ _ (check_native_ro _ _ _ _) Hc) as [_ ?].
  assert (Hro : read_only (st_fold (fun d n => let* h := block_hash_or_err n in check_native w n h d) d1 ns))
    by auto 10 with readonly.
  pose proof (read_only_run _ _ _ _ Hro H2) as [_ ?].
  apply IH in H2 as [Hs2 Hn2]. split; [set_solver|].
  intros m [->|Hm]%elem_of_cons.
  - eapply native_scanned_mono; [exact Hn1 | lia | lia | done].
  - eapply native_scanned_mono; [apply Hn2, Hm | lia | lia | done].
Qed.

(** Every block of [(lo, hi]] was scanned for what is watched and enabled. *)
Definition covered (w : gmap (Z * option Z) WatchedAddress) (lo hi : Z) (t0 t1 : nat)
    (ps : list PaymentDetected) : Prop :=
  forall n, lo < n <= hi ->
    (monitor_native config = true -> forall a x, w !! (a, None) = Some x ->
       native_scanned w n t0 t1 ps) /\
    (monitor_erc20 config = true -> forall a t x, w !! (a, Some t) = Some x ->
       erc20_scanned w n t0 t1 ps).

Lemma covered_mono w lo hi t0 t1 t0' t1' ps ps' :
  covered w lo hi t0 t1 ps -> (t0' <= t0)%nat -> (t1 <= t1')%nat -> ps ⊆ ps' ->
  covered w lo hi t0' t1' ps'.
Proof.
  intros Hc ??? n Hn. destruct (Hc n Hn) as [Hnat Herc].
  split; intros; [eapply native_scanned_mono | eapply erc20_scanned_mono]; eauto.
Qed.

Lemma covered_app w lo mid hi t0 t1 ps :
  covered w lo mid t0 t1 ps -> covered w mid hi t0 t1 ps -> covered w lo hi t0 t1 ps.
Proof. intros H1 H2 n Hn. destruct (Z.le_gt_cases n mid); [apply H1 | apply H2]; lia. Qed.

Lemma covered_empty w lo hi t0 t1 ps : hi <= lo -> covered w lo hi t0 t1 ps.
Proof. intros ? n ?. lia. Qed.

Lemma backfill_ok w a b s h d' s' :
  backfill w a b [] s = (Ok (h, d'), s') ->
  covered w (a - 1) b (mon_tick s) (mon_tick s') d'.
Proof.
  unfold backfill_missed_blocks. intros Hr.
  inv_ok Hr as d1 s1 Hn Hr. inv_ok Hr as d2 s2 He Hr. inv_ok Hr as h' s3 Hh Hr.
  unfold st_ret in Hr. simplify_eq.
  assert (Hro1 : read_only (if monitor_native config then
       st_fold (fun d n => let* h := block_hash_or_err n in check_native w n h d) [] (range_inclusive a b)
     else st_ret [])) by (destruct (monitor_native config); auto 10 with readonly).
  assert (Hro2 : read_only (if monitor_erc20 config then check_erc20 w a b d1 else st_ret d1))
    by (destruct (monitor_erc20 config); auto with readonly).
  pose proof (read_only_run _ _ _ _ Hro1 Hn) as [_ ?].
  pose proof (read_only_run _ _ _ _ Hro2 He) as [_ ?].
  pose proof (read_only_run _ _ _ _ (block_hash_or_err_ro _) Hh) as [_ ?].
  assert (Hd12 : d1 ⊆ d').
  { destruct (monitor_erc20 config); [by eapply check_erc20_grows|]. unfold st_ret in He. by simplify_eq. }
  intros n Hrange. split.
  - intros Hm x wx Hx. rewrite Hm in Hn. apply (native_fold_ok _ _ _ _ _ _ _ _ Hn) in Hx as [_ Hx].
    eapply native_scanned_mono; [apply Hx, elem_of_range_inclusive; lia | lia | lia | done].
  - intros Hm x t wx Hx. rewrite Hm in He. apply check_erc20_ok in He as [_ He].
    eapply erc20_scanned_mono; [eapply (He n); [exact Hx | lia] | lia | lia | done].
Qed.

(** ** Announcing *)

Definition detected_in (es : list MonitorEvent) : list PaymentDetected :=
  omap (fun e => match e with EvPaymentDetected p => Some p | _ => None end) es.

Lemma detected_in_app es es' : detected_in (es ++ es') = detected_in es ++ detected_in es'.
Proof. apply omap_app. Qed.

Lemma detected_in_fmap ps : detected_in (EvPaymentDetected <$> ps) = ps.
Proof. unfold detected_in. induction ps as [|p ps IH]; cbn; [done | f_equal; exact IH]. Qed.

(** What [record_detected] does to the pending map. *)
Definition track (pending : gmap (Z * Z) PendingPayment) (e : PaymentDetected)
  : gmap (Z * Z) PendingPayment :=
  match tx_index e with
  | Some i => <[(pd_tx_hash e, i) := {| pp_event := e; pp_last_check_block := pd_block_number e |}]> pending
  | None => pending
  end.

Lemma record_all_run ds s :
  st_for ds record_detected s =
    (Ok tt,
     mkMonState (mon_watched s) (foldl track (mon_pending s) ds) (mon_last_block_at s)
       (mon_loop_alive_at s) (mon_last_block s) (mon_last_block_hash s)
       (mon_events s ++ (EvPaymentDetected <$> ds)) (mon_started s) (mon_tick s)).
Proof.
  revert s. induction ds as [|d ds IH]; intros s.
  { cbn. rewrite app_nil_r. by destruct s. }
  rewrite for_cons.
  assert (Hd : record_detected d s =
    (Ok tt, send (EvPaymentDetected d) (set_pending (track (mon_pending s) d) s))).
  { unfold record_detected, track. destruct (tx_index d); cbn; by destruct s. }
  rewrite Hd, IH. cbn. by rewrite <- app_assoc.
Qed.

Lemma chunk_run w a b blk s r s' :
  chunk w a b blk s = (r, s') ->
  match r with
  | Err _ => untick s' = untick s /\ (mon_tick s <= mon_tick s')%nat
  | Ok caught_up =>
      let hi := Z.min b (u64_sub (u64_add a BACKFILL_MAX_BLOCKS) 1) in
      exists ds h t, s' = mkMonState (mon_watched s) (foldl track (mon_pending s) ds)
          (mon_last_block_at s) (mon_loop_alive_at s) (Some hi) (Some h)
          (mon_events s ++ (EvPaymentDetected <$> ds)) (mon_started s) t /\
        (mon_tick s <= t)%nat /\ covered w (a - 1) hi (mon_tick s) t ds /\
        caught_up = negb (hi <? b)
  end.
Proof.
  unfold backfill_chunk. set (hi := Z.min _ _). intros Hr.
  unfold st_bind at 1 in Hr. destruct (backfill w a hi [] s) as [[[h ds]|e] s1] eqn:Hb;
    pose proof (read_only_run _ _ _ _ (backfill_ro _ _ _ _) Hb) as [Hu Ht].
  - unfold st_bind in Hr. rewrite record_all_run in Hr. cbn in Hr. injection Hr as <- <-.
    apply backfill_ok in Hb. exists ds, h, (mon_tick s1).
    split; [|auto]. injection Hu; intros; unfold set_cursor; cbn; congruence.
  - by injection Hr as <- <-.
Qed.

Lemma scan_run w b s r s' :
  scan w b s = (r, s') ->
  match r with
  | Err _ => untick s' = untick s /\ (mon_tick s <= mon_tick s')%nat
  | Ok _ =>
      exists ds t, s' = mkMonState (mon_watched s) (foldl track (mon_pending s) ds)
          (mon_last_block_at s) (mon_loop_alive_at s) (Some (bn_number b)) (Some (bn_hash b))
          (mon_events s ++ (EvPaymentDetected <$> ds)) (mon_started s) t /\
        (mon_tick s <= t)%nat /\ covered w (bn_number b - 1) (bn_number b) (mon_tick s) t ds
  end.
Proof.
  unfold scan_block. intros Hr.
  set (m1 := if monitor_native config then check_native w (bn_number b) (bn_hash b) [] else st_ret []) in Hr.
  assert (Hro1 : read_only m1) by (subst m1; destruct (monitor_native config); auto with readonly).
  unfold st_bind at 1 in Hr. destruct (m1 s) as [[d1|e] s1] eqn:H1;
    pose proof (read_only_run _ _ _ _ Hro1 H1) as [Hu1 Ht1]; [|by injection Hr as <- <-].
  set (m2 := if monitor_erc20 config then check_erc20 w (bn_number b) (bn_number b) d1 else st_ret d1) in Hr.
  assert (Hro2 : read_only m2) by (subst m2; destruct (monitor_erc20 config); auto with readonly).
  unfold st_bind at 1 in Hr. destruct (m2 s1) as [[d2|e] s2] eqn:H2;
    pose proof (read_only_run _ _ _ _ Hro2 H2) as [Hu2 Ht2];
    [|injection Hr as <- <-; split; [congruence | lia]].
  unfold st_bind in Hr. rewrite record_all_run in Hr. cbn in Hr. injection Hr as <- <-.
  exists d2, (mon_tick s2). rewrite Hu1 in Hu2.
  split; [injection Hu2; intros; unfold set_cursor; cbn; congruence|]. split; [lia|].
  intros n Hn. replace n with (bn_number b) by lia. subst m1 m2. split.
  - intros Hm x wx Hx. rewrite Hm in H1. pose proof (check_native_ok _ _ _ _ _ _ _ _ _ H1 Hx) as [_ Hsc].
    eapply native_scanned_mono; [exact Hsc | lia | lia |].
    destruct (monitor_erc20 config); [by eapply check_erc20_grows|]. unfold st_ret in H2. by simplify_eq.
  - intros Hm x t wx Hx. rewrite Hm in H2. apply check_erc20_ok in H2 as [_ He].
    eapply erc20_scanned_mono; [eapply (He (bn_number b)); [exact Hx | lia] | lia | lia | done].
Qed.

(** ** Reorg check: at most one event, nothing else *)

Lemma handle_reorg_run f old b s r s' :
  reorg f old b s = (r, s') ->
  (mon_tick s <= mon_tick s')%nat /\
  match r with
  | Err _ => untick s' = untick s
  | Ok _ => exists sv v t,
      find_survived_tx_hashes config f (bn_number b) s = (Ok (sv, v), set_tick (mon_tick s') s) /\
      untick s' = untick (send (EvReorgDetected
        {| rd_chain_id := chain_id;
           rd_fork_block := f;
           rd_old_hash := old;
           rd_new_hash := bn_hash b;
           rd_depth := u64_add (u64_saturating_sub (bn_number b) f) 1;
           rd_affected_invoices :=
             (fun p => pd_invoice_id (pp_event p)) <$>
               List.filter (fun p => f <=? pd_block_number (pp_event p)) (map_to_list (mon_pending s)).*2;
           rd_survived_tx_hashes := sv;
           rd_survivors_verifiable := v;
           rd_detected_at := t |}) s)
  end.
Proof.
  unfold handle_reorg. intros Hr. unfold st_bind, st_gets in Hr.
  destruct (find_survived_tx_hashes config f (bn_number b) s) as [[[sv v]|e] s1] eqn:Hf;
    pose proof (read_only_run _ _ _ _ (find_survived_ro _ _) Hf) as [Hu Ht];
    cbn in Hr; injection Hr as <- <-; (split; [done|]); [|done].
  exists sv, v, (now (mon_tick s1)). split.
  - f_equal. unfold set_tick, send. cbn. injection Hu; intros. destruct s1; cbn in *; congruence.
  - injection Hu; intros. unfold untick, send; cbn. congruence.
Qed.

Lemma continuity_run b s r s' :
  continuity b s = (r, s') ->
  (mon_tick s <= mon_tick s')%nat /\
  (untick s' = untick s \/
   exists e, r = Ok tt /\ untick s' = untick (send (EvReorgDetected e) s)).
Proof.
  unfold check_continuity, st_bind, st_gets. cbn beta iota. intros Hr.
  destruct (mon_last_block_hash s) as [h|]; [|injection Hr as <- <-; auto].
  destruct (mon_last_block s) as [l|]; [|injection Hr as <- <-; auto].
  destruct (detect_fork l h b s) as [[fk|e] s1] eqn:Hf;
    pose proof (read_only_run _ _ _ _ (detect_fork_ro _ _ _) Hf) as [Hu Ht];
    [|injection Hr as <- <-; auto].
  destruct fk as [f|]; [|injection Hr as <- <-; auto].
  apply handle_reorg_run in Hr as [Ht' Hr]. split; [lia|].
  destruct r as [[]|e]; [|left; congruence].
  destruct Hr as (sv & v & t & _ & Hr). right.
  match type of Hr with _ = untick (send (EvReorgDetected ?e) _) => exists e end.
  split; [done|]. rewrite Hr. injection Hu; intros. unfold untick, send. cbn. congruence.
Qed.

(** ** One delivered block *)

(** The state after the payments [ds] were announced and the cursor moved. *)
Definition announced_to (s : MonState) (es : list MonitorEvent) (ds : list PaymentDetected)
    (cursor : Z) (h : B256) (t : nat) : MonState :=
  mkMonState (mon_watched s) (foldl track (mon_pending s) ds) (mon_last_block_at s)
    (mon_loop_alive_at s) (Some cursor) (Some h)
    (mon_events s ++ es ++ (EvPaymentDetected <$> ds)) (mon_started s) t.

(** The five ways [process_block] ends, [es] being the reorg event if any. *)
Variant process_outcome (b : BlockNotification) (s : MonState) : EvmResult unit -> MonState -> Prop :=
| po_failed e es s' :
    (es = [] \/ exists r, es = [EvReorgDetected r]) ->
    untick s' = untick (set_events (mon_events s ++ es) s) ->
    (mon_tick s <= mon_tick s')%nat ->
    process_outcome b s (Err e) s'
| po_nothing_watched es t :
    (es = [] \/ exists r, es = [EvReorgDetected r]) ->
    mon_watched s = ∅ -> (mon_tick s <= t)%nat ->
    process_outcome b s (Ok tt) (announced_to s es [] (bn_number b) (bn_hash b) t)
| po_chunk es ds h hi a z t :
    (es = [] \/ exists r, es = [EvReorgDetected r]) -> mon_watched s <> ∅ ->
    missed_blocks (mon_last_block s) b = Some (a, z) ->
    hi = u64_sub (u64_add a BACKFILL_MAX_BLOCKS) 1 -> hi < z -> (mon_tick s <= t)%nat ->
    covered (mon_watched s) (a - 1) hi (mon_tick s) t ds ->
    process_outcome b s (Ok tt) (announced_to s es ds hi h t)
| po_gap_closed e es ds h a z s' :
    (es = [] \/ exists r, es = [EvReorgDetected r]) -> mon_watched s <> ∅ ->
    missed_blocks (mon_last_block s) b = Some (a, z) -> (mon_tick s <= mon_tick s')%nat ->
    covered (mon_watched s) (a - 1) z (mon_tick s) (mon_tick s') ds ->
    s' = announced_to s es ds z h (mon_tick s') ->
    process_outcome b s (Err e) s'
| po_done es ds lo t :
    (es = [] \/ exists r, es = [EvReorgDetected r]) -> mon_watched s <> ∅ ->
    lo = match missed_blocks (mon_last_block s) b with
         | Some (a, _) => a - 1 | None => bn_number b - 1 end ->
    (match missed_blocks (mon_last_block s) b with
     | Some (a, z) => z <= u64_sub (u64_add a BACKFILL_MAX_BLOCKS) 1
     | None => True end) ->
    (mon_tick s <= t)%nat ->
    covered (mon_watched s) lo (bn_number b - 1) (mon_tick s) t ds ->
    covered (mon_watched s) (bn_number b - 1) (bn_number b) (mon_tick s) t ds ->
    process_outcome b s (Ok tt) (announced_to s es ds (bn_number b) (bn_hash b) t).

Lemma foldl_track_app p ds ds' : foldl track (foldl track p ds) ds' = foldl track p (ds ++ ds').
Proof. by rewrite foldl_app. Qed.

Lemma missed_some l b a z :
  missed_blocks l b = Some (a, z) -> in_u64 (bn_number b) ->
  exists n, l = Some n /\ a = u64_add n 1 /\ z = bn_number b - 1 /\ a <= z.
Proof.
  unfold missed_blocks. destruct l as [n|]; [|discriminate].
  destruct (Z.ltb_spec (u64_add n 1) (bn_number b)) as [Hlt|]; [|discriminate].
  intros Heq Hb. injection Heq as <- <-.
  assert (0 <= u64_add n 1) by (apply Z.mod_pos_bound; done).
  exists n. rewrite u64_sub_small by (unfold in_u64 in Hb; lia). repeat split; lia.
Qed.

Lemma continuity_frame b s r s' :
  continuity b s = (r, s') ->
  (mon_tick s <= mon_tick s')%nat /\
  exists es, (es = [] \/ exists e, es = [EvReorgDetected e]) /\
    untick s' = untick (set_events (mon_events s ++ es) s).
Proof.
  intros [Ht [Hu | (e & _ & Hu)]]%continuity_run; (split; [done|]).
  - exists []. split; [by left|]. rewrite Hu, app_nil_r. by destruct s.
  - exists [EvReorgDetected e]. split; [eauto|]. by rewrite Hu.
Qed.

(** The final state of the outcome is [x]. *)
Ltac ends_in x :=
  match goal with |- process_outcome _ _ _ ?y =>
    replace y with x by (unfold announced_to, set_cursor; cbn;
      rewrite <- ?foldl_track_app, ?fmap_app, ?app_nil_r, ?app_assoc; congruence) end.

Lemma process_run b s r s' :
  in_u64 (bn_number b) -> process b s = (r, s') -> process_outcome b s r s'.
Proof.
  intros Hin Hr. unfold process_block, st_bind at 1 in Hr.
  destruct (continuity b s) as [[[]|e] s1] eqn:Hc;
    apply continuity_frame in Hc as (Ht & es & Hes & Hu); [|injection Hr as <- <-; by econstructor].
  unfold st_bind at 1 2, st_gets in Hr. cbn beta iota in Hr.
  injection Hu as Hw Hp Hla Hlv Hlb Hlh Hev Hst. rewrite Hw, Hlb in Hr.
  case_decide as Hwe.
  { unfold st_modify in Hr. injection Hr as <- <-.
    ends_in (announced_to s es [] (bn_number b) (bn_hash b) (mon_tick s1)). by constructor. }
  destruct (missed_blocks (mon_last_block s) b) as [[a z]|] eqn:Hm; unfold st_bind in Hr.
  - destruct (missed_some _ _ _ _ Hm Hin) as (n & Hn & -> & -> & Hle).
    destruct (chunk (mon_watched s) (u64_add n 1) (bn_number b - 1) b s1) as [[cu|e] s2] eqn:Hch;
      apply chunk_run in Hch.
    2: { injection Hr as <- <-. destruct Hch as [Hu2 Ht2]. apply (po_failed _ _ _ es); [done| |lia].
         rewrite Hu2. unfold untick, set_events. cbn. congruence. }
    destruct Hch as (ds & h & t & -> & Ht2 & Hcov & ->).
    destruct (Z.ltb_spec (Z.min (bn_number b - 1) (u64_sub (u64_add (u64_add n 1) BACKFILL_MAX_BLOCKS) 1))
                (bn_number b - 1)) as [Hlt|Hge]; cbn in Hr.
    + injection Hr as <- <-. rewrite Z.min_r in * by lia.
      ends_in (announced_to s es ds (u64_sub (u64_add (u64_add n 1) BACKFILL_MAX_BLOCKS) 1) h t).
      eapply po_chunk; eauto; [lia |].
      eapply covered_mono; [exact Hcov | lia | lia | done].
    + assert (bn_number b - 1 <= u64_sub (u64_add (u64_add n 1) BACKFILL_MAX_BLOCKS) 1) by lia.
      rewrite Z.min_l in * by lia. apply scan_run in Hr. cbn in Hr. destruct r as [[]|e].
      * destruct Hr as (ds2 & t2 & -> & Ht3 & Hcov2).
        ends_in (announced_to s es (ds ++ ds2) (bn_number b) (bn_hash b) t2).
        eapply po_done; [done | done | reflexivity | rewrite Hm; lia | lia | |]; rewrite ?Hm;
          (eapply covered_mono; [eassumption | lia | lia | set_solver]).
      * destruct Hr as [Hu3 Ht3]. eapply (po_gap_closed _ _ _ es ds h); eauto; [lia | |].
        { eapply covered_mono; [exact Hcov | lia | lia | done]. }
        injection Hu3; intros. destruct s'. unfold announced_to. cbn in *.
        rewrite app_assoc. congruence.
  - cbn in Hr. apply scan_run in Hr. destruct r as [[]|e].
    + destruct Hr as (ds & t & -> & Ht2 & Hcov).
      ends_in (announced_to s es ds (bn_number b) (bn_hash b) t).
      eapply po_done; [done | done | reflexivity | by rewrite Hm | lia | |]; rewrite ?Hm.
      * apply covered_empty. lia.
      * eapply covered_mono; [exact Hcov | lia | lia | done].
    + destruct Hr as [Hu2 Ht2]. apply (po_failed _ _ _ es); [done| |lia].
      rewrite Hu2. unfold untick, set_events. cbn. congruence.
Qed.

(** ** The theorems about one delivered block *)

(** The cursor as a height; a monitor without one has seen nothing. *)
Definition cursor_is (s : MonState) (n : Z) : Prop := mon_last_block s = Some n.

Lemma chunk_end n :
  block_in_range n ->
  u64_sub (u64_add (u64_add n 1) BACKFILL_MAX_BLOCKS) 1 = n + 200.
Proof.
  unfold block_in_range, BACKFILL_MAX_BLOCKS. intros Hn.
  rewrite (u64_add_small n 1), u64_add_small, u64_sub_small; unfold u64_max, u64_modulus; lia.
Qed.

Lemma succ_in_range n : block_in_range n -> u64_add n 1 = n + 1.
Proof. unfold block_in_range. intros. apply u64_add_small. unfold u64_max, u64_modulus. lia. Qed.

Lemma block_in_range_u64 n : block_in_range n -> in_u64 n.
Proof. unfold block_in_range, in_u64, u64_max, u64_modulus. lia. Qed.

Lemma missed_none n b :
  block_in_range n -> missed_blocks (Some n) b = None -> bn_number b <= n + 1.
Proof.
  intros Hn. unfold missed_blocks. rewrite (succ_in_range n Hn).
  destruct (Z.ltb_spec (n + 1) (bn_number b)); [discriminate | lia].
Qed.

Lemma reorg_only_detected es :
  (es = [] \/ exists r, es = [EvReorgDetected r]) -> detected_in es = [].
Proof. by intros [->|[r ->]]. Qed.

Lemma process_covers lo b s r s' :
  block_in_range lo -> block_in_range (bn_number b) ->
  cursor_is s lo -> mon_watched s <> ∅ ->
  process b s = (r, s') ->
  exists hi es, cursor_is s' hi /\ mon_events s' = mon_events s ++ es /\
    covered (mon_watched s) lo hi (mon_tick s) (mon_tick s') (detected_in es).
Proof.
  intros Hlo Hb Hcur Hw Hr. unfold cursor_is in *.
  apply process_run in Hr; [|by apply block_in_range_u64].
  destruct Hr as [e es s' Hes Hu Ht|es t Hes He Ht|es ds h hi a z t Hes _ Hm Hhi Hlt Ht Hc
    |e es ds h a z s' Hes _ Hm Ht Hc ->|es ds lo' t Hes _ Hlo' Hz Ht Hc1 Hc2].
  - exists lo, es. injection Hu; intros. split; [congruence|]. split; [done|].
    apply covered_empty. lia.
  - done.
  - exists hi, (es ++ (EvPaymentDetected <$> ds)). cbn. split; [done|]. split; [done|].
    rewrite detected_in_app, reorg_only_detected, detected_in_fmap by done. cbn.
    apply missed_some in Hm as (n & Hn & -> & -> & _); [|by apply block_in_range_u64].
    rewrite Hcur in Hn. injection Hn as <-. rewrite succ_in_range in Hc by done.
    by replace (lo + 1 - 1) with lo in Hc by lia.
  - exists z, (es ++ (EvPaymentDetected <$> ds)). cbn. split; [done|]. split; [done|].
    rewrite detected_in_app, reorg_only_detected, detected_in_fmap by done. cbn.
    apply missed_some in Hm as (n & Hn & -> & -> & _); [|by apply block_in_range_u64].
    rewrite Hcur in Hn. injection Hn as <-. rewrite succ_in_range in Hc by done.
    by replace (lo + 1 - 1) with lo in Hc by lia.
  - exists (bn_number b), (es ++ (EvPaymentDetected <$> ds)). cbn. split; [done|]. split; [done|].
    rewrite detected_in_app, reorg_only_detected, detected_in_fmap by done. cbn.
    rewrite Hcur in Hlo'. destruct (missed_blocks (Some lo) b) as [[a z]|] eqn:Hm.
    + apply missed_some in Hm as (n & Hn & -> & -> & _); [|by apply block_in_range_u64].
      injection Hn as <-. rewrite succ_in_range in Hlo' by done.
      replace lo' with lo in Hc1 by lia. eapply covered_app; eassumption.
    + apply missed_none in Hm; [|done]. intros n Hn. apply Hc2. lia.
Qed.

(** The cursor never passes a block whose native transfers were not
    announced.  Whatever the source answers and however [process_block]
    ends, for every height between the old and the new cursor the source was
    asked for that block during this call, it answered, and each transfer it
    reported to a watched native address is in a [PaymentDetected] event
    sent by this call. *)
Theorem cursor_passes_only_scanned_native lo b s r s' a x :
  block_in_range lo -> block_in_range (bn_number b) ->
  mon_last_block s = Some lo -> monitor_native config = true ->
  mon_watched s !! (a, None) = Some x ->
  process b s = (r, s') ->
  exists hi es, mon_last_block s' = Some hi /\ mon_events s' = mon_events s ++ es /\
    forall n, lo < n <= hi ->
      native_scanned (mon_watched s) n (mon_tick s) (mon_tick s') (detected_in es).
Proof.
  intros Hlo Hb Hcur Hm Hx Hr.
  assert (Hw : mon_watched s <> ∅) by (intros He; rewrite He, lookup_empty in Hx; done).
  destruct (process_covers _ _ _ _ _ Hlo Hb Hcur Hw Hr) as (hi & es & Hh & He & Hc).
  exists hi, es. split; [done|]. split; [done|]. intros n Hn. by eapply Hc.
Qed.

(** The cursor never passes a block whose ERC20 transfers were not
    announced: every height between the old and the new cursor lies in a log
    query made and answered during this call, and each transfer log of the
    answer that pays a watched (address, token) pair is in a
    [PaymentDetected] event sent by this call. *)
Theorem cursor_passes_only_scanned_erc20 lo b s r s' a tok x :
  block_in_range lo -> block_in_range (bn_number b) ->
  mon_last_block s = Some lo -> monitor_erc20 config = true ->
  mon_watched s !! (a, Some tok) = Some x ->
  process b s = (r, s') ->
  exists hi es, mon_last_block s' = Some hi /\ mon_events s' = mon_events s ++ es /\
    forall n, lo < n <= hi ->
      erc20_scanned (mon_watched s) n (mon_tick s) (mon_tick s') (detected_in es).
Proof.
  intros Hlo Hb Hcur Hm Hx Hr.
  assert (Hw : mon_watched s <> ∅) by (intros He; rewrite He, lookup_empty in Hx; done).
  destruct (process_covers _ _ _ _ _ Hlo Hb Hcur Hw Hr) as (hi & es & Hh & He & Hc).
  exists hi, es. split; [done|]. split; [done|]. intros n Hn. by eapply Hc.
Qed.

(** A failing [process_block] fails closed: either nothing but the reorg
    announcement happened (cursor, cursor hash and pending payments are as
    before and no payment was announced), or the gap behind the block was
    closed completely and only the block itself failed, so the cursor stands
    just below it. *)
Theorem process_block_fails_closed b s e s' :
  block_in_range (bn_number b) ->
  process b s = (Err e, s') ->
  (mon_last_block s' = mon_last_block s /\ mon_last_block_hash s' = mon_last_block_hash s /\
   mon_pending s' = mon_pending s /\ mon_watched s' = mon_watched s /\
   exists es, mon_events s' = mon_events s ++ es /\ detected_in es = []) \/
  (mon_last_block s' = Some (bn_number b - 1) /\
   option_is_some (missed_blocks (mon_last_block s) b) = true).
Proof.
  intros Hb Hr. apply process_run in Hr; [|by apply block_in_range_u64].
  inversion Hr as [e' es s'' Hes Hu Ht| | |e' es ds h a z s'' Hes _ Hm Ht Hc Hs'|]; subst.
  - left. injection Hu; intros. repeat split; try congruence.
    exists es. split; [done|]. by apply reorg_only_detected.
  - right. rewrite Hm. apply missed_some in Hm as (n & Hn & -> & -> & _);
      [|by apply block_in_range_u64]. by rewrite Hs'.
Qed.
End Facts.
