(* ===== verification/MonitorReorg.v ===== *)
(** * Reorg detection and re-validation

    When [process_block] announces a reorg, what the announcement says, and
    that the survivor scan behind it ([find_survived_tx_hashes]) covers the
    whole window in bounded chunks and reports exactly what the source
    reported. *)

From stdpp Require Import gmap strings list.
From Stdlib Require Import ZArith Lia.
From S2P Require Import Prelude Events Network Monitor MonitorFacts.

Definition reorgs_in (es : list MonitorEvent) : list ReorgDetected :=
  omap (fun e => match e with EvReorgDetected r => Some r | _ => None end) es.

Lemma reorgs_in_detected ps : reorgs_in (EvPaymentDetected <$> ps) = [].
Proof. unfold reorgs_in. induction ps as [|p ps IH]; cbn; [done | exact IH]. Qed.

Section Survivors.
Context `{BlockSource} (config : ChainMonitorConfig).

(** The chunk size of the log scan. *)
Definition scan_chunk : Z := Z.max (max_blocks_per_scan config) 1.

(** Block [n] was asked about between [t0] and [t1], and the hashes of the
    transfers the source reported are all in [sv]. *)
Definition native_revalidated (addrs : list Address) (n : Z) (t0 t1 : nat) (sv : list B256) : Prop :=
  exists t ts, (t0 <= t < t1)%nat /\ source_find_native_transfers_to t n addrs = Ok ts /\
    forall tr, tr ∈ ts -> nt_tx_hash tr ∈ sv.

(** Block [n] lies in a log query of at most [scan_chunk] blocks, answered
    between [t0] and [t1], whose transaction hashes are all in [sv]. *)
Definition erc20_revalidated (addrs : list Address) (n : Z) (t0 t1 : nat) (sv : list B256) : Prop :=
  exists t a b ls, (t0 <= t < t1)%nat /\ a <= n <= b /\ b - a < scan_chunk /\
    source_get_logs t (with_block_range (erc20_transfers_to addrs) a b) = Ok ls /\
    forall l h, l ∈ ls -> log_transaction_hash l = Some h -> h ∈ sv.

Lemma native_revalidated_mono addrs n t0 t1 t0' t1' sv sv' :
  native_revalidated addrs n t0 t1 sv -> (t0' <= t0)%nat -> (t1 <= t1')%nat -> sv ⊆ sv' ->
  native_revalidated addrs n t0' t1' sv'.
Proof.
  intros (t & ts & Ht & Hq & Hs) ???. exists t, ts. split; [lia|]. split; [done|]. set_solver.
Qed.

Lemma erc20_revalidated_mono addrs n t0 t1 t0' t1' sv sv' :
  erc20_revalidated addrs n t0 t1 sv -> (t0' <= t0)%nat -> (t1 <= t1')%nat -> sv ⊆ sv' ->
  erc20_revalidated addrs n t0' t1' sv'.
Proof.
  intros (t & a & b & ls & Ht & Hn & Hl & Hq & Hs) ???. exists t, a, b, ls.
  split; [lia|]. repeat (split; [done|]). intros l h Hin Hh. eauto.
Qed.

Abbreviation native_scan addrs :=
  (fun (survived : list B256) (block_number : Z) =>
     let* transfers := query (fun t => source_find_native_transfers_to t block_number addrs) in
     st_ret (survived ++ (nt_tx_hash <$> transfers))).

Lemma native_scan_ok addrs ns sv s sv' s' :
  st_fold (native_scan addrs) sv ns s = (Ok sv', s') ->
  sv ⊆ sv' /\ (mon_tick s <= mon_tick s')%nat /\
  forall n, n ∈ ns -> native_revalidated addrs n (mon_tick s) (mon_tick s') sv'.
Proof.
  revert sv s. induction ns as [|n ns IH]; intros sv s Hr; cbn [st_fold] in Hr.
  { injection Hr as <- <-. split; [done|]. split; [lia|]. intros n Hn%not_elem_of_nil. done. }
  inv_ok Hr as sv1 s1 H1 H2. unfold st_bind, query, st_ret in H1.
  destruct (source_find_native_transfers_to _ _ _) as [ts|] eqn:Hts; [|discriminate].
  injection H1 as <- <-. apply IH in H2 as (Hs & Ht & Hn). cbn in Ht, Hn.
  split; [set_solver|]. split; [lia|]. intros m [->|Hm]%elem_of_cons.
  - exists (mon_tick s), ts. split; [lia|]. split; [done|]. intros tr Htr. apply Hs, elem_of_app.
    right. apply list_elem_of_fmap. eauto.
  - eapply native_revalidated_mono; [by apply Hn | lia | lia | done].
Qed.

Lemma log_scan_ok addrs fuel a b sv s sv' s' :
  0 <= a -> b <= u64_max -> 1 <= scan_chunk <= u64_max ->
  survived_erc20 fuel a b scan_chunk addrs sv s = (Ok sv', s') ->
  sv ⊆ sv' /\ (mon_tick s <= mon_tick s')%nat /\
  forall n, a <= n <= b -> erc20_revalidated addrs n (mon_tick s) (mon_tick s') sv'.
Proof.
  intros Ha Hb Hc. revert a Ha sv s. induction fuel as [|fuel IH]; intros a Ha sv s Hr; [discriminate|].
  cbn [survived_erc20] in Hr. destruct (Z.leb_spec a b) as [Hab|Hab].
  2: { injection Hr as <- <-. split; [done|]. split; [lia|]. intros; lia. }
  rewrite (u64_sub_small scan_chunk 1) in Hr by lia.
  set (e := Z.min (u64_saturating_add a (scan_chunk - 1)) b) in *.
  assert (He : a <= e <= b /\ e - a < scan_chunk) by (subst e; unfold u64_saturating_add; lia).
  unfold st_bind, query in Hr.
  destruct (source_get_logs _ _) as [ls|] eqn:Hls; [|discriminate].
  assert (Hhead : forall n sv'' t1, (mon_tick s < t1)%nat -> a <= n <= e ->
            sv ++ omap log_transaction_hash ls ⊆ sv'' -> erc20_revalidated addrs n (mon_tick s) t1 sv'').
  { intros n sv'' t1 Ht1 Hn Hs. exists (mon_tick s), a, e, ls. split; [lia|]. split; [done|].
    split; [lia|]. split; [done|]. intros l h Hl Hh. apply Hs, elem_of_app. right.
    apply list_elem_of_omap. eauto. }
  destruct (Z.eqb_spec e b) as [Heb|Heb].
  - injection Hr as <- <-. split; [set_solver|]. split; [cbn; lia|]. intros n Hn.
    apply Hhead; [cbn; lia | lia | done].
  - rewrite (u64_add_small e 1) in Hr by lia. apply IH in Hr as (Hs & Ht & Hn); [|lia].
    cbn in Ht, Hn. split; [set_solver|]. split; [lia|]. intros n Hrange.
    destruct (Z.le_gt_cases n e).
    + apply Hhead; [lia | lia | done].
    + eapply erc20_revalidated_mono; [apply Hn; lia | lia | lia | done].
Qed.

(** The source reported [h] for some block of [a, b]. *)
Definition reported (a b : Z) (h : B256) : Prop :=
  (exists t n addrs ts tr, a <= n <= b /\ source_find_native_transfers_to t n addrs = Ok ts /\
     tr ∈ ts /\ nt_tx_hash tr = h) \/
  (exists t x y addrs ls l, a <= x /\ y <= b /\
     source_get_logs t (with_block_range (erc20_transfers_to addrs) x y) = Ok ls /\
     l ∈ ls /\ log_transaction_hash l = Some h).

(** The source failed a question about [a, b] with [e]. *)
Definition source_failed (e : EvmError) : Prop :=
  (exists t n addrs, source_find_native_transfers_to t n addrs = Err e) \/
  (exists t f, source_get_logs t f = Err e).

Lemma native_scan_sound addrs a b ns sv s r s' :
  (forall n, n ∈ ns -> a <= n <= b) -> (forall h, h ∈ sv -> reported a b h) ->
  st_fold (native_scan addrs) sv ns s = (r, s') ->
  match r with Ok sv' => forall h, h ∈ sv' -> reported a b h | Err e => source_failed e end.
Proof.
  revert sv s. induction ns as [|n ns IH]; intros sv s Hns Hsv Hr; cbn [st_fold] in Hr.
  { by injection Hr as <- <-. }
  unfold st_bind at 1 2, query, st_ret in Hr.
  destruct (source_find_native_transfers_to _ _ _) as [ts|e] eqn:Hts.
  2: { injection Hr as <- <-. left. eauto. }
  eapply IH; [|clear IH|exact Hr]; [set_solver|].
  intros h [Hh|(tr & -> & Htr)%list_elem_of_fmap]%elem_of_app; [auto|].
  left. exists (mon_tick s), n, addrs, ts, tr. split; [apply Hns; set_solver|done].
Qed.

Lemma log_scan_sound addrs fuel a0 a b sv s r s' :
  a0 <= a -> 0 <= a -> b <= u64_max -> 1 <= scan_chunk <= u64_max ->
  (Z.to_nat (b - a + 1) < fuel)%nat -> (forall h, h ∈ sv -> reported a0 b h) ->
  survived_erc20 fuel a b scan_chunk addrs sv s = (r, s') ->
  match r with Ok sv' => forall h, h ∈ sv' -> reported a0 b h | Err e => source_failed e end.
Proof.
  intros Ha0 Ha Hb Hc. revert a Ha0 Ha sv s.
  induction fuel as [|fuel IH]; intros a Ha0 Ha sv s Hf Hsv Hr; [lia|].
  cbn [survived_erc20] in Hr. destruct (Z.leb_spec a b) as [Hab|Hab]; [|by injection Hr as <- <-].
  rewrite (u64_sub_small scan_chunk 1) in Hr by lia.
  set (e := Z.min (u64_saturating_add a (scan_chunk - 1)) b) in *.
  assert (He : a <= e <= b) by (subst e; unfold u64_saturating_add; lia).
  unfold st_bind, query in Hr.
  destruct (source_get_logs _ _) as [ls|err] eqn:Hls.
  2: { injection Hr as <- <-. right. eauto. }
  assert (Hsv' : forall h, h ∈ sv ++ omap log_transaction_hash ls -> reported a0 b h).
  { intros h [Hh|(l & Hl & Hh)%list_elem_of_omap]%elem_of_app; [auto|].
    right. exists (mon_tick s), a, e, addrs, ls, l. repeat split; try done; lia. }
  destruct (Z.eqb_spec e b) as [Heb|Heb]; [by injection Hr as <- <-|].
  rewrite (u64_add_small e 1) in Hr by lia.
  eapply IH; [| | |exact Hsv'|exact Hr]; lia.
Qed.

Lemma elem_of_native_watch_addresses (w : gmap (Z * option Z) WatchedAddress) a x :
  w !! (a, None) = Some x -> a ∈ native_watch_addresses w.
Proof. intros Hx. apply list_elem_of_omap. exists ((a, None), x). by rewrite elem_of_map_to_list. Qed.

Lemma native_addresses_nonempty (w : gmap (Z * option Z) WatchedAddress) a x :
  w !! (a, None) = Some x -> native_watch_addresses w <> [].
Proof.
  intros Hx%elem_of_native_watch_addresses He. rewrite He in Hx. by apply not_elem_of_nil in Hx.
Qed.

Lemma erc20_addresses_nonempty (w : gmap (Z * option Z) WatchedAddress) a t x :
  w !! (a, Some t) = Some x -> erc20_watch_addresses w <> [].
Proof.
  intros Hx%elem_of_erc20_watch_addresses He. rewrite He in Hx. by apply not_elem_of_nil in Hx.
Qed.

(** A survivor scan that returns covered the whole window: it is
    verifiable exactly when something is watched; every block of [from, to]
    was asked about for native transfers if a native address is watched, and
    lies in an answered log query of at most the configured chunk size if a
    token is watched; every transaction the source reported there is in the
    survivor set. *)
Theorem survivor_scan_complete from to s sv v s' :
  0 <= from -> to <= u64_max -> max_blocks_per_scan config <= u64_max ->
  find_survived_tx_hashes config from to s = (Ok (sv, v), s') ->
  (v = true <-> mon_watched s <> ∅) /\
  forall n, from <= n <= to ->
    (forall a x, mon_watched s !! (a, None) = Some x ->
       native_revalidated (native_watch_addresses (mon_watched s)) n (mon_tick s) (mon_tick s') sv) /\
    (forall a tok x, mon_watched s !! (a, Some tok) = Some x ->
       erc20_revalidated (erc20_watch_addresses (mon_watched s)) n (mon_tick s) (mon_tick s') sv).
Proof.
  intros Hf Ht Hm Hr. unfold find_survived_tx_hashes in Hr.
  unfold st_bind at 1, st_gets in Hr. cbn beta iota in Hr. case_decide as Hw.
  { injection Hr as <- <- <-. split; [by split|]. intros n _. rewrite Hw.
    split; intros *; rewrite lookup_empty; discriminate. }
  assert (Hc : 1 <= scan_chunk <= u64_max) by (unfold scan_chunk, u64_max, u64_modulus in *; lia).
  inv_ok Hr as sv1 s1 H1 Hr. inv_ok Hr as sv2 s2 H2 Hr. injection Hr as <- <- <-.
  split; [by split|].
  assert (T1 : (mon_tick s <= mon_tick s1)%nat).
  { clear H2. case_decide; [by injection H1 as <- <-|]. by apply native_scan_ok in H1 as (_ & ? & _). }
  assert (T2 : sv1 ⊆ sv2 /\ (mon_tick s1 <= mon_tick s2)%nat).
  { clear H1. case_decide; [by injection H2 as <- <-|].
    apply log_scan_ok in H2 as (? & ? & _); [done | lia | lia | done]. }
  intros n Hn. split.
  - intros a x Hx. rewrite decide_False in H1 by eauto using native_addresses_nonempty.
    apply native_scan_ok in H1 as (_ & _ & H1).
    eapply native_revalidated_mono; [apply H1, elem_of_range_inclusive, Hn | lia | lia | apply T2].
  - intros a tok x Hx. rewrite decide_False in H2 by eauto using erc20_addresses_nonempty.
    apply log_scan_ok in H2 as (_ & _ & H2); [|lia|lia|done].
    eapply erc20_revalidated_mono; [apply H2, Hn | lia | lia | done].
Qed.

(** C25. The survivor scan invents nothing and gives up only when the source
    does: a hash in the answer was reported by the source for a block of the
    window, and an error of the scan is an error of one of its queries (in
    particular the chunk loop always terminates). *)
Theorem survivor_scan_sound from to s r s' :
  0 <= from -> to <= u64_max -> max_blocks_per_scan config <= u64_max ->
  find_survived_tx_hashes config from to s = (r, s') ->
  match r with
  | Ok (sv, _) => forall h, h ∈ sv -> reported from to h
  | Err e => source_failed e
  end.
Proof.
  intros Hf Ht Hm Hr. unfold find_survived_tx_hashes in Hr.
  unfold st_bind at 1, st_gets in Hr. cbn beta iota in Hr. case_decide as Hw.
  { injection Hr as <- <-. set_solver. }
  assert (Hc : 1 <= scan_chunk <= u64_max) by (unfold scan_chunk, u64_max, u64_modulus in *; lia).
  set (m1 := if decide (native_watch_addresses _ = []) then _ else _) in Hr.
  unfold st_bind at 1 in Hr. destruct (m1 s) as [r1 s1] eqn:H1.
  assert (Hr1 : match r1 with Ok sv' => forall h, h ∈ sv' -> reported from to h
                            | Err e => source_failed e end).
  { subst m1. clear Hr. case_decide; [injection H1 as <- <-; set_solver|].
    eapply native_scan_sound; [| |exact H1]; [intros n; apply elem_of_range_inclusive | set_solver]. }
  destruct r1 as [sv1|e]; [|by injection Hr as <- <-].
  set (m2 := if decide (erc20_watch_addresses _ = []) then _ else _) in Hr.
  unfold st_bind in Hr. destruct (m2 s1) as [r2 s2] eqn:H2.
  assert (Hr2 : match r2 with Ok sv' => forall h, h ∈ sv' -> reported from to h
                            | Err e => source_failed e end).
  { subst m2. clear Hr. case_decide; [by injection H2 as <- <-|].
    eapply log_scan_sound; [| | | | |exact Hr1|exact H2]; [done | lia | lia | done | lia]. }
  destruct r2; injection Hr as <- <-; done.
Qed.
End Survivors.

Section Announce.
Context `{BlockSource}.
Context (now : nat -> Instant) (u256_from_be_slice : list Z -> U256).
Context (chain_id : Z) (config : ChainMonitorConfig).

Abbreviation process := (process_block now u256_from_be_slice chain_id config).

(** The chain the block belongs to does not contain the cursor block: the
    block is the cursor's successor with another parent, or the source now
    reports another hash at the cursor's height. *)
Definition diverged (last_num : Z) (last_hash : B256) (b : BlockNotification) (t : nat) : Prop :=
  (bn_number b = last_num + 1 /\ bn_parent_hash b <> last_hash) \/
  (bn_number b <> last_num + 1 /\
   exists h, source_get_block t last_num = Ok (Some h) /\ h <> last_hash).

Lemma detect_fork_spec n h b s r s' :
  block_in_range n -> detect_fork n h b s = (Ok r, s') ->
  match r with
  | Some f => diverged n h b (mon_tick s) /\ f = Z.min n (bn_number b)
  | None => ~ diverged n h b (mon_tick s)
  end.
Proof.
  intros Hn Hr. unfold detect_fork in Hr. rewrite succ_in_range in Hr by done.
  unfold diverged. destruct (Z.eqb_spec (bn_number b) (n + 1)) as [Hs|Hs].
  - injection Hr as <- _. destruct (Z.eqb_spec (bn_parent_hash b) h); [naive_solver|].
    split; [auto | lia].
  - unfold st_bind, query, source_get_block_hash in Hr.
    destruct (source_get_block (mon_tick s) n) as [[g|]|] eqn:Hg; [| |discriminate];
      injection Hr as <- _.
    + destruct (Z.eqb_spec g h); [naive_solver | split; [eauto | done]].
    + naive_solver.
Qed.

Lemma continuity_reorgs n h b s s1 :
  block_in_range n -> mon_last_block s = Some n -> mon_last_block_hash s = Some h ->
  check_continuity now chain_id config b s = (Ok tt, s1) ->
  exists es, mon_events s1 = mon_events s ++ es /\
    ((es = [] /\ ~ diverged n h b (mon_tick s)) \/
     exists e, es = [EvReorgDetected e] /\ diverged n h b (mon_tick s) /\
       rd_fork_block e = Z.min n (bn_number b) /\ rd_old_hash e = h /\ rd_new_hash e = bn_hash b /\
       forall p k, mon_pending s !! k = Some p -> rd_fork_block e <= pd_block_number (pp_event p) ->
         pd_invoice_id (pp_event p) ∈ rd_affected_invoices e).
Proof.
  intros Hn Hl Hh Hr. unfold check_continuity, st_bind, st_gets in Hr. cbn beta iota in Hr.
  rewrite Hl, Hh in Hr. destruct (detect_fork n h b s) as [[fk|e] s0] eqn:Hf; [|discriminate].
  pose proof (read_only_run _ _ _ _ (detect_fork_ro _ _ _) Hf) as [Hu _].
  apply detect_fork_spec in Hf; [|done]. destruct fk as [f|].
  - destruct Hf as [Hd ->]. apply handle_reorg_run in Hr as (_ & sv & v & t & _ & Hr).
    injection Hu; injection Hr; intros. rewrite H1, H9.
    eexists. split; [done|]. right. eexists. split; [done|]. do 4 (split; [done|]). cbn.
    intros p k Hk Hle. apply list_elem_of_fmap. exists p. split; [done|]. apply elem_of_filter_b.
    split; [by apply Z.leb_le|]. apply list_elem_of_fmap. exists (k, p). split; [done|].
    apply elem_of_map_to_list. congruence.
  - injection Hr as <-. exists []. rewrite app_nil_r. split; [by apply untick_events | auto].
Qed.

Lemma process_after_continuity b s s' :
  process b s = (Ok tt, s') ->
  exists s1 ds, check_continuity now chain_id config b s = (Ok tt, s1) /\
    mon_events s' = mon_events s1 ++ (EvPaymentDetected <$> ds).
Proof.
  unfold process_block. intros Hr. inv_ok Hr as u s1 Hc Hr. destruct u. exists s1.
  unfold st_bind at 1 2, st_gets in Hr. cbn beta iota in Hr. case_decide.
  { injection Hr as <-. exists []. split; [done|]. cbn. by rewrite app_nil_r. }
  inv_ok Hr as cu s2 H1 Hr.
  assert (exists ds, mon_events s2 = mon_events s1 ++ (EvPaymentDetected <$> ds)) as [ds1 Hd1].
  { destruct (missed_blocks _ _) as [[x z]|].
    - apply chunk_run in H1 as (ds & h & t & -> & _). by exists ds.
    - injection H1 as _ <-. exists []. by rewrite app_nil_r. }
  destruct cu; [|injection Hr as <-; eauto].
  apply scan_run in Hr as (ds & t & -> & _). exists (ds1 ++ ds). split; [done|]. cbn.
  by rewrite Hd1, fmap_app, app_assoc.
Qed.

(** A processed block announces a reorg exactly when the chain diverged
    from the cursor: one [ReorgDetected], forking at the lower of the cursor
    and the block, carrying both hashes and the invoice of every pending
    payment at or above the fork; and none otherwise. *)
Theorem reorg_announced_iff_diverged n h b s s' :
  block_in_range n -> mon_last_block s = Some n -> mon_last_block_hash s = Some h ->
  process b s = (Ok tt, s') ->
  exists es, mon_events s' = mon_events s ++ es /\
    match reorgs_in es with
    | [] => ~ diverged n h b (mon_tick s)
    | [e] => diverged n h b (mon_tick s) /\
        rd_fork_block e = Z.min n (bn_number b) /\ rd_old_hash e = h /\ rd_new_hash e = bn_hash b /\
        forall p k, mon_pending s !! k = Some p -> rd_fork_block e <= pd_block_number (pp_event p) ->
          pd_invoice_id (pp_event p) ∈ rd_affected_invoices e
    | _ => False
    end.
Proof.
  intros Hn Hl Hh (s1 & ds & Hc & Hev)%process_after_continuity.
  apply (continuity_reorgs n h) in Hc as (es & Hes & Hcase); try done.
  exists (es ++ (EvPaymentDetected <$> ds)). split; [by rewrite Hev, Hes, app_assoc|].
  unfold reorgs_in. rewrite omap_app. fold (reorgs_in (EvPaymentDetected <$> ds)).
  rewrite reorgs_in_detected, app_nil_r.
  destruct Hcase as [[-> Hd] | (e & -> & Hrest)]; cbn; [done | exact Hrest].
Qed.
End Announce.
