(* ===== verification/MonitorLoop.v ===== *)
(** * The monitor over time

    Confirmation checks, gap closing under a responsive source, and the
    invariant of every run of the event loop. *)

From stdpp Require Import gmap strings list relations.
From Stdlib Require Import ZArith Lia.
From S2P Require Import Prelude Events Network Monitor MonitorFacts.

Lemma send_all {A} (f : A -> MonitorEvent) (l : list A) (s : MonState) :
  st_for l (fun x => st_modify (send (f x))) s
    = (Ok tt : EvmResult unit, set_events (mon_events s ++ (f <$> l)) s).
Proof.
  revert s. induction l as [|x l IH]; intros s.
  - cbn. rewrite app_nil_r. by destruct s.
  - rewrite for_cons. unfold st_modify at 1. rewrite IH. unfold set_events, send. cbn.
    by rewrite <- app_assoc.
Qed.

Lemma lookup_delete_all {A} (m : gmap (Z * Z) A) (ks : list (Z * Z)) k :
  foldr delete m ks !! k = if decide (k ∈ ks) then None else m !! k.
Proof.
  induction ks as [|k' ks IH]; cbn [foldr].
  - rewrite decide_False; [done | apply not_elem_of_nil].
  - destruct (decide (k = k')) as [->|Hne].
    + rewrite lookup_delete_eq, decide_True; [done | by left].
    + rewrite lookup_delete_ne, IH by done.
      destruct (decide (k ∈ ks)); [rewrite decide_True by (by right) | rewrite decide_False];
        [done | done | set_solver].
Qed.

Section Confirmations.
Context `{BlockSource} (now : nat -> Instant).

Definition reached (cur : Z) (p : PendingPayment) : bool :=
  pd_required_confirmations (pp_event p) <=? confirmations_at cur (pp_event p).

Lemma is_confirmed_update cur p : is_confirmed (pp_event (update_confirmations cur p)) = reached cur p.
Proof. reflexivity. Qed.

(** The entries [check_confirmations] announces. *)
Definition due (cur : Z) (pending : gmap (Z * Z) PendingPayment) : list ((Z * Z) * PendingPayment) :=
  List.filter (fun kp => is_confirmed (pp_event kp.2))
    (map_to_list (update_confirmations cur <$> pending)).

Lemma elem_of_due cur pending k p :
  (k, p) ∈ due cur pending <->
  exists p0, pending !! k = Some p0 /\ reached cur p0 = true /\ p = update_confirmations cur p0.
Proof.
  unfold due. rewrite elem_of_filter_b, elem_of_map_to_list, lookup_fmap, fmap_Some. cbn. split.
  - intros (Hc & p0 & Hp0 & ->). eauto.
  - intros (p0 & Hp0 & Hc & ->). eauto.
Qed.

Lemma due_nodup cur pending : NoDup (due cur pending).*1.
Proof.
  unfold due. generalize (NoDup_fst_map_to_list (update_confirmations cur <$> pending)).
  generalize (map_to_list (update_confirmations cur <$> pending)). intros l.
  induction l as [|[k p] l IH]; intros Hnd; cbn; [constructor|].
  apply NoDup_cons in Hnd as [Hk Hnd]. destruct (is_confirmed _); [|auto].
  apply NoDup_cons. split; [|auto]. contradict Hk.
  apply list_elem_of_fmap in Hk as ([k' p'] & -> & Hin). apply elem_of_filter_b in Hin as [_ Hin].
  apply list_elem_of_fmap. by exists (k', p').
Qed.

Lemma check_confirmations_run s :
  check_confirmations now s =
    match source_get_block_number (mon_tick s) with
    | Err e => (Err e, advance s)
    | Ok cur =>
        (Ok tt,
         set_pending
           (foldr delete (update_confirmations cur <$> mon_pending s) (due cur (mon_pending s)).*1)
           (set_events (mon_events s ++
              ((fun kp => EvPaymentConfirmed (confirm_event (now (S (mon_tick s))) kp.1 kp.2))
                 <$> due cur (mon_pending s))) (advance s)))
    end.
Proof.
  unfold check_confirmations, st_bind, query, st_gets.
  destruct (source_get_block_number (mon_tick s)) as [cur|e]; [|done].
  cbn [mon_pending mon_tick advance]. fold (due cur (mon_pending s)).
  rewrite (send_all (fun kp => EvPaymentConfirmed (confirm_event (now (S (mon_tick s))) kp.1 kp.2))).
  reflexivity.
Qed.

(** A confirmation check does exactly its job.  If the source does not
    give the block height nothing changes.  Otherwise every pending payment
    that reached its required confirmations is announced once, with the
    count, and leaves the pending map; every other one stays with its count
    brought up to date. *)
Theorem check_confirmations_exact s :
  match source_get_block_number (mon_tick s) with
  | Err e => check_confirmations now s = (Err e, advance s)
  | Ok cur => exists due_now s', check_confirmations now s = (Ok tt, s') /\
      NoDup due_now.*1 /\
      (forall k p, (k, p) ∈ due_now <->
         exists p0, mon_pending s !! k = Some p0 /\ p = update_confirmations cur p0 /\
           pd_required_confirmations (pp_event p0) <= confirmations_at cur (pp_event p0)) /\
      mon_events s' = mon_events s ++
        ((fun kp => EvPaymentConfirmed (confirm_event (now (S (mon_tick s))) kp.1 kp.2)) <$> due_now) /\
      (forall k, mon_pending s' !! k =
         p ← mon_pending s !! k;
         if confirmations_at cur (pp_event p) <? pd_required_confirmations (pp_event p)
         then Some (update_confirmations cur p) else None) /\
      mon_last_block s' = mon_last_block s /\ mon_watched s' = mon_watched s
  end.
Proof.
  rewrite check_confirmations_run.
  destruct (source_get_block_number (mon_tick s)) as [cur|e]; [|done].
  exists (due cur (mon_pending s)). eexists. split; [done|]. split; [apply due_nodup|].
  split; [|split; [done | split; [|done]]].
  - intros k p. rewrite elem_of_due. unfold reached. setoid_rewrite Z.leb_le. naive_solver.
  - intros k. cbn. rewrite lookup_delete_all, lookup_fmap.
    destruct (mon_pending s !! k) as [p|] eqn:Hk; cbn; [|by case_decide].
    destruct (Z.ltb_spec (confirmations_at cur (pp_event p)) (pd_required_confirmations (pp_event p)))
      as [Hlt|Hge].
    + rewrite decide_False; [done|]. intros ([k' p'] & -> & Hin)%list_elem_of_fmap.
      apply elem_of_due in Hin as (p0 & Hp0 & Hr & _). cbn in Hk. simplify_eq.
      unfold reached in Hr. apply Z.leb_le in Hr. lia.
    + rewrite decide_True; [done|]. apply list_elem_of_fmap.
      exists (k, update_confirmations cur p). split; [done|]. apply elem_of_due.
      exists p. unfold reached. rewrite Z.leb_le. auto.
Qed.
End Confirmations.

(** ** Gap closing *)

Section Progress.
Context `{BlockSource}.
Context (now : nat -> Instant) (u256_from_be_slice : list Z -> U256).
Context (chain_id : Z) (config : ChainMonitorConfig).

Abbreviation process := (process_block now u256_from_be_slice chain_id config).

(** A source that answers: no query fails, every block has a hash and every
    log a block number. *)
Definition responsive : Prop :=
  (forall t n addrs, exists ts, source_find_native_transfers_to t n addrs = Ok ts) /\
  (forall t f, exists ls, source_get_logs t f = Ok ls /\
     forall l, l ∈ ls -> exists n, log_block_number l = Some n) /\
  (forall t n, exists h, source_get_block t n = Ok (Some h)).

Context (Hresp : responsive) (Hscan : max_blocks_per_scan config <= u64_max).

Lemma total_query_native n addrs :
  total (query (fun t => source_find_native_transfers_to t n addrs)).
Proof.
  intros s. destruct Hresp as (Hn & _). unfold query.
  destruct (Hn (mon_tick s) n addrs) as [ts ->]. done.
Qed.

Lemma total_query_logs f : total (query (fun t => source_get_logs t f)).
Proof.
  intros s. destruct Hresp as (_ & Hl & _). unfold query.
  destruct (Hl (mon_tick s) f) as (ls & -> & _). done.
Qed.

Lemma total_block_hash n : total (block_hash_or_err n).
Proof.
  intros s. destruct Hresp as (_ & _ & Hb). unfold block_hash_or_err, st_bind, query, source_get_block_hash.
  destruct (Hb (mon_tick s) n) as [h ->]. done.
Qed.

Hint Resolve total_query_native total_query_logs total_block_hash : total.

Lemma total_native w n h d : total (check_native_payments now chain_id config w n h d).
Proof. unfold check_native_payments. case_decide; auto 10 with total. Qed.

Lemma decode_total w a b at_ ls d :
  (forall l, l ∈ ls -> exists n, log_block_number l = Some n) ->
  exists d', decode_transfer_logs u256_from_be_slice chain_id config w a b at_ d ls = Ok d'.
Proof.
  revert d. induction ls as [|l ls IH]; intros d Hn; cbn; [eauto|].
  assert (IH' : forall d, exists d',
    decode_transfer_logs u256_from_be_slice chain_id config w a b at_ d ls = Ok d')
    by (intros; apply IH; set_solver).
  destruct (Hn l) as [n ->]; [by left|].
  destruct (log_topics l) as [|? [|? [|? ?]]]; auto. destruct (w !! _); auto.
Qed.

Lemma total_erc20 w a b d : total (check_erc20_payments now u256_from_be_slice chain_id config w a b d).
Proof.
  unfold check_erc20_payments. case_decide; [auto with total|]. intros s.
  destruct Hresp as (_ & Hl & _). unfold st_bind, query, st_gets, st_lift.
  destruct (Hl (mon_tick s) (with_block_range (erc20_transfers_to (erc20_watch_addresses w)) a b))
    as (ls & -> & Hls).
  edestruct decode_total as [d' ->]; [exact Hls|]. done.
Qed.

Hint Resolve total_native total_erc20 : total.

Lemma total_record d : total (record_detected d).
Proof. unfold record_detected. apply total_bind; [destruct (tx_index d)|]; auto with total. Qed.

Hint Resolve total_record : total.

Lemma total_chunk w a b blk : total (backfill_chunk now u256_from_be_slice chain_id config w a b blk).
Proof.
  unfold backfill_chunk, backfill_missed_blocks. apply total_bind.
  - apply total_bind; [destruct (monitor_native config); auto 10 with total|]. intros d1.
    apply total_bind; [destruct (monitor_erc20 config)|]; auto 10 with total.
  - intros [h ds]. auto 10 with total.
Qed.

Lemma total_scan w b : total (scan_block now u256_from_be_slice chain_id config w b).
Proof.
  unfold scan_block. apply total_bind; [destruct (monitor_native config); auto 10 with total|].
  intros d1. apply total_bind; [destruct (monitor_erc20 config)|]; auto 10 with total.
Qed.

Lemma total_survived fuel a b addrs sv :
  0 <= a -> b <= u64_max -> (Z.to_nat (b - a + 1) < fuel)%nat ->
  total (survived_erc20 fuel a b (Z.max (max_blocks_per_scan config) 1) addrs sv).
Proof.
  intros Ha Hb. revert a Ha sv. induction fuel as [|fuel IH]; intros a Ha sv Hf; [lia|].
  cbn [survived_erc20]. destruct (Z.leb_spec a b); [|auto with total].
  apply total_bind; [auto with total|]. intros ls.
  rewrite (u64_sub_small (Z.max _ 1) 1) by (unfold u64_max, u64_modulus in *; lia).
  set (e := Z.min _ b). assert (He : a <= e <= b) by (subst e; unfold u64_saturating_add; lia).
  destruct (Z.eqb_spec e b); [auto with total|].
  rewrite (u64_add_small e 1) by lia. apply IH; lia.
Qed.

Lemma total_find_survived a b :
  0 <= a -> b <= u64_max -> total (find_survived_tx_hashes config a b).
Proof.
  intros Ha Hb. unfold find_survived_tx_hashes. apply total_bind; [auto with total|]. intros w.
  case_decide; [auto with total|].
  apply total_bind; [case_decide; auto 10 with total|]. intros sv.
  apply total_bind; [case_decide; [auto with total | apply total_survived; lia]|]. auto with total.
Qed.

Lemma detect_fork_total n h b s :
  block_in_range n -> 0 <= bn_number b ->
  exists fk s', detect_fork n h b s = (Ok fk, s') /\ forall f, fk = Some f -> 0 <= f.
Proof.
  intros Hn Hb. unfold detect_fork. unfold block_in_range in Hn. case_match.
  - eexists _, _. split; [done|]. intros f Hf. case_match; [discriminate|]. simplify_eq. lia.
  - destruct Hresp as (_ & _ & Hblk). unfold st_bind, query, source_get_block_hash.
    destruct (Hblk (mon_tick s) n) as [h' ->]. eexists _, _. split; [done|].
    intros f Hf. case_match; [discriminate|]. simplify_eq. lia.
Qed.

Lemma process_total n b s :
  block_in_range n -> mon_last_block s = Some n -> block_in_range (bn_number b) ->
  exists s', process b s = (Ok tt, s').
Proof.
  intros Hn Hl Hb.
  assert (Hc : exists s1, check_continuity now chain_id config b s = (Ok tt, s1)).
  { unfold check_continuity, st_bind, st_gets. cbn beta iota. rewrite Hl.
    destruct (mon_last_block_hash s) as [h|]; [|by eexists].
    destruct (detect_fork_total n h b s Hn) as (fk & s1 & -> & Hfk); [apply Hb|].
    destruct fk as [f|]; [|by eexists].
    assert (Ht : total (handle_reorg now chain_id config f h b)).
    { unfold handle_reorg. apply total_bind; [auto with total|]. intros p.
      apply total_bind; [|intros []; auto with total].
      apply total_find_survived; [auto | apply block_in_range_u64, Hb]. }
    destruct (total_run _ s1 Ht) as ([] & s2 & ->). by eexists. }
  destruct Hc as [s1 Hc]. unfold process_block, st_bind at 1. rewrite Hc.
  match goal with |- exists s', ?m s1 = _ => assert (Ht : total m) end.
  { apply total_bind; [auto with total|]. intros lb. apply total_bind; [auto with total|]. intros w.
    case_decide; [auto with total|]. apply total_bind.
    - destruct (missed_blocks lb b) as [[a z]|]; [apply total_chunk | auto with total].
    - intros []; [apply total_scan | auto with total]. }
  destruct (total_run _ s1 Ht) as ([] & s2 & Hs2). eauto.
Qed.

(** The blocks [bs], delivered one after the other, up to a delivery that fails. *)
Definition deliver (bs : list BlockNotification) : St MonState EvmError unit := st_for bs process.

Lemma process_advances lo b s s' :
  block_in_range lo -> mon_last_block s = Some lo -> block_in_range (bn_number b) ->
  process b s = (Ok tt, s') ->
  exists hi, mon_last_block s' = Some hi /\ block_in_range hi /\ Z.min (bn_number b) (lo + 200) <= hi.
Proof.
  intros Hlo Hcur Hb Hr. apply process_run in Hr; [|by apply block_in_range_u64].
  inversion Hr as [| |es ds h hi a z t Hes _ Hm Hhi Hlt Ht Hc| |]; subst; cbn;
    try (exists (bn_number b); split; [done|]; split; [done|]; lia).
  apply missed_some in Hm as (n & Hn & -> & -> & _); [|by apply block_in_range_u64].
  rewrite Hcur in Hn. injection Hn as <-. rewrite chunk_end in * by done.
  eexists. split; [done|]. unfold block_in_range in *. lia.
Qed.

(** C24. A gap closes.  While the source answers, delivering [k] blocks at
    height [N] or above brings a cursor at [lo] to at least
    [min N (lo + 200 k)], and each delivery returns without an error: no gap
    outlasts one delivery per 200 missed blocks. *)
Theorem gap_closes lo N bs s :
  block_in_range lo -> mon_last_block s = Some lo ->
  (forall b, b ∈ bs -> block_in_range (bn_number b) /\ N <= bn_number b) ->
  exists s' hi, deliver bs s = (Ok tt, s') /\ mon_last_block s' = Some hi /\
    Z.min N (lo + 200 * Z.of_nat (length bs)) <= hi.
Proof.
  revert lo s. unfold deliver. induction bs as [|b bs IH]; intros lo s Hlo Hcur Hbs; cbn [length].
  { exists s, lo. repeat split; [done | lia]. }
  destruct (Hbs b) as [Hb HN]; [by left|]. rewrite for_cons.
  destruct (process_total lo b s Hlo Hcur Hb) as [s' Hs']. rewrite Hs'.
  destruct (process_advances lo b s s' Hlo Hcur Hb Hs') as (hi & Hhi & Hr & Hle).
  destruct (IH hi s' Hr Hhi) as (s2 & hi' & Hrun & Hhi' & Hle'); [intros; apply Hbs; by right|].
  exists s2, hi'. repeat split; [done | done | lia].
Qed.
End Progress.

(** ** Every run of the monitor *)

(** The same payment, up to the confirmation count. *)
Definition same_payment (p d : PaymentDetected) : Prop :=
  pd_chain_id p = pd_chain_id d /\ pd_invoice_id p = pd_invoice_id d /\
  pd_payment_address p = pd_payment_address d /\ pd_amount p = pd_amount d /\
  pd_tx_hash p = pd_tx_hash d /\ pd_block_number p = pd_block_number d /\
  pd_required_confirmations p = pd_required_confirmations d.

(** [c] confirms the payment announced by [d], at a sufficient depth. *)
Definition confirms (c : PaymentConfirmed) (d : PaymentDetected) : Prop :=
  pc_chain_id c = pd_chain_id d /\ pc_invoice_id c = pd_invoice_id d /\
  pc_payment_address c = pd_payment_address d /\ pc_amount c = pd_amount d /\
  pc_tx_hash c = pd_tx_hash d /\ pc_block_number c = pd_block_number d /\
  tx_index d = Some (pc_tx_index c) /\ pd_required_confirmations d <= pc_confirmations c.

(** Every confirmation in the event list follows the detection it confirms. *)
Definition confirmations_follow (es : list MonitorEvent) : Prop :=
  forall i c, es !! i = Some (EvPaymentConfirmed c) ->
    exists j d, (j < i)%nat /\ es !! j = Some (EvPaymentDetected d) /\ confirms c d.

Definition pending_announced (s : MonState) : Prop :=
  forall k p, mon_pending s !! k = Some p ->
    exists d, EvPaymentDetected d ∈ mon_events s /\ same_payment (pp_event p) d /\
      k.1 = pd_tx_hash d /\ tx_index d = Some k.2.

(** The invariant of the monitor's state. *)
Definition mon_inv (s : MonState) : Prop :=
  confirmations_follow (mon_events s) /\ pending_announced s /\
  (mon_last_block s = None <-> mon_last_block_hash s = None).

Lemma confirmations_follow_app es new :
  confirmations_follow es ->
  (forall c, EvPaymentConfirmed c ∈ new -> exists d, EvPaymentDetected d ∈ es /\ confirms c d) ->
  confirmations_follow (es ++ new).
Proof.
  intros Hes Hnew i c Hi. destruct (decide (i < length es)%nat) as [Hlt|Hge].
  - rewrite lookup_app_l in Hi by done. destruct (Hes i c Hi) as (j & d & Hj & Hd & Hc).
    exists j, d. rewrite lookup_app_l by lia. done.
  - rewrite lookup_app_r in Hi by lia. apply list_elem_of_lookup_2 in Hi.
    destruct (Hnew c Hi) as (d & Hd & Hc). apply list_elem_of_lookup in Hd as [j Hj].
    exists j, d. pose proof (lookup_lt_Some _ _ _ Hj). rewrite lookup_app_l by done. split; [lia | done].
Qed.

Lemma no_confirmation_follows es new :
  confirmations_follow es -> (forall c, EvPaymentConfirmed c ∉ new) -> confirmations_follow (es ++ new).
Proof. intros Hes Hnew. apply confirmations_follow_app; [done|]. intros c Hc. by apply Hnew in Hc. Qed.

Lemma pending_announced_mono s s' :
  mon_pending s' = mon_pending s -> mon_events s ⊆ mon_events s' ->
  pending_announced s -> pending_announced s'.
Proof.
  intros Hp He Hs k p Hk. rewrite Hp in Hk. destruct (Hs k p Hk) as (d & Hd & Hrest).
  exists d. auto.
Qed.

Lemma track_announced (es : list MonitorEvent) ds pending :
  (forall d, d ∈ ds -> EvPaymentDetected d ∈ es) ->
  (forall k p, pending !! k = Some p ->
    exists d, EvPaymentDetected d ∈ es /\ same_payment (pp_event p) d /\
      k.1 = pd_tx_hash d /\ tx_index d = Some k.2) ->
  forall k p, foldl track pending ds !! k = Some p ->
    exists d, EvPaymentDetected d ∈ es /\ same_payment (pp_event p) d /\
      k.1 = pd_tx_hash d /\ tx_index d = Some k.2.
Proof.
  revert pending. induction ds as [|d ds IH]; intros pending Hds Hp; cbn; [done|].
  apply IH; [set_solver|]. intros k p Hk. unfold track in Hk.
  destruct (tx_index d) as [i|] eqn:Hi; [|eauto].
  destruct (decide (k = (pd_tx_hash d, i))) as [->|Hne].
  - rewrite lookup_insert_eq in Hk. simplify_eq. exists d.
    split; [apply Hds; by left|]. by repeat split.
  - rewrite lookup_insert_ne in Hk by done. eauto.
Qed.

Section Runs.
Context `{BlockSource}.
Context (now : nat -> Instant) (u256_from_be_slice : list Z -> U256).
Context (chain_id : Z) (chain_name : string) (config : ChainMonitorConfig).

Abbreviation process := (process_block now u256_from_be_slice chain_id config).
Abbreviation iteration := (loop_iteration now u256_from_be_slice chain_id chain_name config).

(** A delivered header has a [u64] number. *)
Definition input_ok (i : LoopInput) : Prop :=
  match i with NewBlock (Ok b) => in_u64 (bn_number b) | _ => True end.

(** What can happen to a monitor: the coordinator adds or removes a watch, or
    its task is started or takes one turn of the loop. *)
Inductive mon_step : MonState -> MonState -> Prop :=
| ms_watch w s : mon_step s (watch w s)
| ms_unwatch a t s : mon_step s (snd (unwatch a t s))
| ms_start s : mon_step s (snd (start now chain_id s))
| ms_turn i s : input_ok i -> mon_step s (snd (iteration i s)).

Lemma mon_inv_frame s s' new :
  mon_inv s -> mon_pending s' = mon_pending s -> mon_last_block s' = mon_last_block s ->
  mon_last_block_hash s' = mon_last_block_hash s -> mon_events s' = mon_events s ++ new ->
  (forall c, EvPaymentConfirmed c ∉ new) -> mon_inv s'.
Proof.
  intros (Hc & Hp & Hl) Hp' Hl' Hh' He Hn. unfold mon_inv. rewrite He, Hl', Hh'.
  split; [by apply no_confirmation_follows|]. split; [|done].
  eapply pending_announced_mono; [done | rewrite He; set_solver | done].
Qed.

Lemma mon_inv_quiet s s' :
  mon_inv s -> mon_pending s' = mon_pending s -> mon_last_block s' = mon_last_block s ->
  mon_last_block_hash s' = mon_last_block_hash s -> mon_events s' = mon_events s -> mon_inv s'.
Proof.
  intros Hi ??? He. eapply (mon_inv_frame s s' []); try done; [by rewrite app_nil_r | set_solver].
Qed.

Lemma mon_inv_untick s s' : untick s = untick s' -> mon_inv s -> mon_inv s'.
Proof.
  intros Hu Hi. eapply mon_inv_quiet; [exact Hi | | | |]; symmetry;
    eauto using untick_pending, untick_last_block, untick_last_hash, untick_events.
Qed.

Lemma reorg_only_no_confirm es :
  (es = [] \/ exists r, es = [EvReorgDetected r]) -> forall c, EvPaymentConfirmed c ∉ es.
Proof. intros [->|[r ->]] c; set_solver. Qed.

Lemma announced_to_inv s es ds cursor h t :
  mon_inv s -> (es = [] \/ exists r, es = [EvReorgDetected r]) ->
  mon_inv (announced_to s es ds cursor h t).
Proof.
  intros (Hc & Hp & Hl) Hes. split; [|split; [|done]]; cbn.
  - apply no_confirmation_follows; [done|].
    intros c [Hin|(d & Hd & _)%list_elem_of_fmap]%elem_of_app; [|discriminate].
    by eapply reorg_only_no_confirm.
  - intros k p. cbn. apply track_announced.
    + intros d Hd. apply elem_of_app. right. apply elem_of_app. right.
      apply list_elem_of_fmap. by exists d.
    + intros k' p' Hk'. destruct (Hp k' p' Hk') as (d & Hd & Hrest). exists d. set_solver.
Qed.

Lemma process_inv b s : in_u64 (bn_number b) -> mon_inv s -> mon_inv (snd (process b s)).
Proof.
  intros Hb Hi. destruct (process b s) as [r s'] eqn:Hr. cbn.
  apply process_run in Hr; [|done].
  destruct Hr as [e es s' Hes Hu Ht|es t Hes He Ht|es ds h hi a z t Hes _ Hm Hhi Hlt Ht Hc
    |e es ds h a z s' Hes _ Hm Ht Hc ->|es ds lo' t Hes _ Hlo' Hz Ht Hc1 Hc2];
    try by apply announced_to_inv.
  injection Hu; intros. eapply (mon_inv_frame s s' es); try done. by apply reorg_only_no_confirm.
Qed.

Lemma check_confirmations_inv s : mon_inv s -> mon_inv (snd (check_confirmations now s)).
Proof.
  intros Hi. rewrite check_confirmations_run.
  destruct (source_get_block_number (mon_tick s)) as [cur|e]; [|by eapply mon_inv_quiet].
  destruct Hi as (Hc & Hp & Hl). split; [|split; [|done]]; cbn.
  - apply confirmations_follow_app; [done|].
    intros c ([k p] & Hcf & Hin)%list_elem_of_fmap. injection Hcf as ->.
    apply elem_of_due in Hin as (p0 & Hp0 & Hr & ->).
    destruct (Hp k p0 Hp0) as (d & Hd & (?&?&?&?&?&?&Hreq) & Hk1 & Hk2). exists d.
    split; [done|]. unfold reached in Hr. apply Z.leb_le in Hr.
    repeat split; cbn; try congruence; lia.
  - intros k p. cbn. rewrite lookup_delete_all. case_decide; [discriminate|].
    rewrite lookup_fmap, fmap_Some. intros (p0 & Hp0 & ->).
    destruct (Hp k p0 Hp0) as (d & Hd & Hsame & Hk). exists d. set_solver.
Qed.

Lemma get_health_ro : read_only (get_health chain_id chain_name).
Proof.
  unfold get_health. intros c t s Hs. unfold st_bind, st_try, query, st_gets. cbn.
  destruct Hs as [<- Ht]. split; [done | lia].
Qed.

Lemma resubscribe_inv s : mon_inv s -> mon_inv (snd (resubscribe_if_stalled now chain_id chain_name config s)).
Proof.
  intros Hi. unfold resubscribe_if_stalled, st_bind at 1.
  destruct (get_health chain_id chain_name s) as [[h|e] s1] eqn:Hg;
    pose proof (read_only_run _ _ _ _ get_health_ro Hg) as [Hu _]; symmetry in Hu;
    [|by eapply mon_inv_untick].
  apply (mon_inv_untick _ _ Hu) in Hi. unfold st_bind, st_gets. cbn beta iota. case_match.
  - exact Hi.
  - unfold query. destruct (source_subscribe_blocks (mon_tick s1)); by eapply mon_inv_quiet.
Qed.

Lemma iteration_inv i s : input_ok i -> mon_inv s -> mon_inv (snd (iteration i s)).
Proof.
  intros Hin Hi. unfold loop_iteration, st_bind at 1 2, st_gets, st_modify at 1. cbn beta iota.
  set (s1 := set_loop_alive_at _ s). assert (Hi1 : mon_inv s1) by (by eapply mon_inv_quiet).
  destruct i as [|[b|e]|].
  - eapply (mon_inv_frame s1 _ [_]); try done. set_solver.
  - unfold st_bind, st_modify, st_try. set (s2 := set_last_block_at _ s1).
    assert (Hi2 : mon_inv s2) by (by eapply mon_inv_quiet).
    apply (process_inv b s2 Hin) in Hi2. destruct (process b s2) as [[u|e] s3]; cbn in *; [done|].
    eapply (mon_inv_frame s3 _ [_]); try done. set_solver.
  - exact Hi1.
  - unfold st_bind, st_try. apply check_confirmations_inv in Hi1.
    destruct (check_confirmations now s1) as [r2 s2]. apply resubscribe_inv in Hi1.
    cbn [snd] in Hi1.
    by destruct (resubscribe_if_stalled now chain_id chain_name config s2) as [r3 s3].
Qed.

Lemma start_inv s : mon_inv s -> mon_inv (snd (start now chain_id s)).
Proof.
  intros Hi. unfold start, st_bind at 1, st_gets. cbn beta iota. destruct (mon_started s); [done|].
  unfold st_bind, st_modify, query, st_gets. cbn.
  destruct (source_subscribe_blocks (mon_tick s)); cbn; [|by eapply mon_inv_quiet].
  eapply (mon_inv_frame s _ [_]); try done. set_solver.
Qed.

Lemma mon_step_inv s s' : mon_step s s' -> mon_inv s -> mon_inv s'.
Proof.
  intros [w s0|a t s0|s0|i s0 Hi] Hs; [by eapply mon_inv_quiet | by eapply mon_inv_quiet | |];
    auto using start_inv, iteration_inv.
Qed.

Lemma new_monitor_inv t : mon_inv (new_monitor t).
Proof.
  split; [|by split]. intros i c Hi. cbn in Hi. by rewrite lookup_nil in Hi.
Qed.

(** C21. In every run of the monitor, whatever the source answers and however
    watches, unwatches, blocks and ticks interleave: a [PaymentConfirmed] is
    only ever sent after the [PaymentDetected] it confirms (same chain,
    invoice, address, amount, transaction and transfer index), with at least
    the required confirmations; every pending payment has been announced;
    and the cursor height and hash are set together. *)
Theorem monitor_runs_safe t0 s :
  rtc mon_step (new_monitor t0) s ->
  confirmations_follow (mon_events s) /\ pending_announced s /\
  (mon_last_block s = None <-> mon_last_block_hash s = None).
Proof.
  intros Hr. change (mon_inv s). generalize (new_monitor_inv t0).
  induction Hr as [|x y z Hxy _ IH]; eauto using mon_step_inv.
Qed.
End Runs.
