(* ===== verification/Bridge.v ===== *)
(** * The event outbox: interface and in-memory bridge

    [evm/src/monitor/bridge/mod.rs] and [memory.rs].  The [EventBridge] trait
    is the class [EventOutbox]; what an outbox promises its reader is the class
    [EventOutboxLaws], stated against the history of everything published:
    positions are consecutive and never reused, a reader resumed at a position
    delivers the entries after it one by one, in order, and a reader that can
    no longer do so ends instead of skipping. *)

From stdpp Require Import gmap strings list pretty relations.
From Stdlib Require Import ZArith Lia.
From S2P Require Import Prelude Events.

Record EventCursor := mkEventCursor {
  ec_epoch : Z;
  ec_seq : Z;
  ec_block_height : Z
}.

Record EventEnvelope := mkEventEnvelope {
  ee_chain_id : Z;
  ee_cursor : EventCursor;
  ee_event : MonitorEvent
}.

#[export] Instance EventCursor_eq_dec : EqDecision EventCursor.
Proof. solve_decision. Defined.

(** ** The interface *)

(** What one poll of a [DurableEventStream] gives: an entry, nothing yet, the
    end of the stream, or a panic inside the generator. *)
Inductive Polled (R : Type) : Type :=
| Yielded (e : EventEnvelope) (r : R)
| Waiting (r : R)
| Ended
| Panicked.
Arguments Yielded {R} e r.
Arguments Waiting {R} r.
Arguments Ended {R}.
Arguments Panicked {R}.

(** The events side of the [EventBridge] trait, for an outbox state [B], a
    subscription state [R] and the outcomes [X] of external calls (network
    failures, random draws). *)
Class EventOutbox (B R X : Type) := {
  ob_publish : X -> MonitorEvent -> B -> EvmResult unit * B;
  ob_subscribe_from : X -> option EventCursor -> B -> EvmResult R * B;
  ob_current_epoch : X -> B -> EvmResult Z * B;
  ob_next : X -> B -> R -> Polled R
}.

(** What the consumer relies on.  [ob_history b log]: [log] is everything
    published since the outbox was created, of which [b] retains a part; entry
    [i] of [log] has position [ob_base + i].  [ob_position r log pos]: the
    subscription [r] will next deliver position [pos]; [None] means it has not
    delivered anything and starts wherever the outbox does. *)
Class EventOutboxLaws (B R X : Type) `{EventOutbox B R X} := {
  ob_base : Z;
  ob_history : B -> list EventEnvelope -> Prop;
  ob_position : R -> list EventEnvelope -> option Z -> Prop;
  ob_history_seq b log i e :
    ob_history b log -> log !! i = Some e -> ec_seq (ee_cursor e) = ob_base + Z.of_nat i;
  ob_publish_history x ev b log r b' :
    ob_history b log -> ob_publish x ev b = (r, b') ->
    match r with
    | Ok _ => exists e, ob_history b' (log ++ [e]) /\ ee_event e = ev /\
                        ee_chain_id e = event_chain_id ev
    | Err _ => ob_history b' log \/ exists e, ob_history b' (log ++ [e])
    end;
  ob_epoch_history x b log r b' :
    ob_history b log -> ob_current_epoch x b = (r, b') -> ob_history b' log;
  ob_subscribe_position x from b log r b' :
    ob_history b log -> ob_subscribe_from x from b = (r, b') ->
    ob_history b' log /\
    match r with Ok sub => ob_position sub log (c ← from; Some (ec_seq c + 1)) | Err _ => True end;
  ob_position_app r log pos e :
    ob_position r log pos -> ob_position r (log ++ [e]) pos;
  ob_next_position x b log r pos :
    ob_history b log -> ob_position r log pos ->
    match ob_next x b r with
    | Yielded e r' => (forall p, pos = Some p -> ec_seq (ee_cursor e) = p) /\
        (exists i, log !! i = Some e) /\ ob_position r' log (Some (ec_seq (ee_cursor e) + 1))
    | Waiting r' => ob_position r' log pos
    | Ended => True
    | Panicked => False
    end
}.

(** ** Any outbox that keeps the interface delivers without gaps *)

Section Delivery.
Context {B R X : Type} `{EventOutboxLaws B R X}.

(** The world of one subscription: the outbox, the subscription, what it has
    delivered, and the history of what was published. *)
Record World := mkWorld { w_box : B; w_sub : R; w_seen : list EventEnvelope; w_log : list EventEnvelope }.

(** Publishers and the subscriber interleave freely. *)
Inductive delivery_step : World -> World -> Prop :=
| ds_publish x ev b b' r seen log e :
    ob_publish x ev b = (Ok tt, b') -> ob_history b' (log ++ [e]) ->
    delivery_step (mkWorld b r seen log) (mkWorld b' r seen (log ++ [e]))
| ds_publish_failed x ev b b' r seen log err log' :
    ob_publish x ev b = (Err err, b') ->
    log' = log \/ (exists e, log' = log ++ [e]) -> ob_history b' log' ->
    delivery_step (mkWorld b r seen log) (mkWorld b' r seen log')
| ds_epoch x b b' r seen log res :
    ob_current_epoch x b = (res, b') ->
    delivery_step (mkWorld b r seen log) (mkWorld b' r seen log)
| ds_yield x b r r' seen log e :
    ob_next x b r = Yielded e r' ->
    delivery_step (mkWorld b r seen log) (mkWorld b r' (seen ++ [e]) log)
| ds_wait x b r r' seen log :
    ob_next x b r = Waiting r' ->
    delivery_step (mkWorld b r seen log) (mkWorld b r' seen log).

(** [seen] is the segment of [log] from index [i] on. *)
Definition segment (log seen : list EventEnvelope) (i : nat) : Prop :=
  forall j e, seen !! j = Some e -> log !! (i + j)%nat = Some e.

(** Resumed after [from], the subscription has delivered exactly the entries
    that follow it. *)
Definition delivered_from (from : option EventCursor) (w : World) : Prop :=
  ob_history (w_box w) (w_log w) /\
  exists i, segment (w_log w) (w_seen w) i /\
    (forall c, from = Some c -> ob_base + Z.of_nat i = ec_seq c + 1 \/ w_seen w = []) /\
    ob_position (w_sub w) (w_log w)
      (match last (w_seen w) with
       | Some e => Some (ec_seq (ee_cursor e) + 1)
       | None => c ← from; Some (ec_seq c + 1)
       end).

Lemma segment_app log seen i e : segment log seen i -> segment (log ++ [e]) seen i.
Proof. intros Hs j x Hj. apply lookup_app_l_Some. by apply Hs. Qed.

Lemma segment_nil log i : segment log [] i.
Proof. intros j e Hj. by rewrite lookup_nil in Hj. Qed.

Lemma segment_snoc log seen i e :
  segment log seen i -> log !! (i + length seen)%nat = Some e -> segment log (seen ++ [e]) i.
Proof.
  intros Hs He j x Hj. apply lookup_app_Some in Hj as [Hj|[Hge Hj]]; [by apply Hs|].
  apply list_lookup_singleton_Some in Hj as [Hj ->].
  by replace (i + j)%nat with (i + length seen)%nat by lia.
Qed.

Lemma last_index (seen : list EventEnvelope) e :
  last seen = Some e -> exists j, length seen = S j /\ seen !! j = Some e.
Proof.
  rewrite last_lookup. destruct seen as [|x seen]; [discriminate|]. cbn. intros Hl.
  by exists (length seen).
Qed.

Lemma delivery_step_keeps from w w' :
  delivery_step w w' -> delivered_from from w -> delivered_from from w'.
Proof.
  intros Hstep (Hh & i & Hseg & Hfrom & Hpos).
  destruct Hstep as [x ev b b' r seen log e Hp Hh'|x ev b b' r seen log err log' Hp Hl Hh'
                    |x b b' r seen log res He
                    |x b r r' seen log e Hn|x b r r' seen log Hn]; cbn in *.
  - split; [exact Hh'|]. exists i. cbn. split; [by apply segment_app|]. split; [done|].
    by apply ob_position_app.
  - split; [exact Hh'|]. exists i. cbn. destruct Hl as [->|[e ->]]; [done|].
    split; [by apply segment_app|]. split; [done|]. by apply ob_position_app.
  - split; [|eauto]. by eapply ob_epoch_history.
  - pose proof (ob_next_position x b log r _ Hh Hpos) as Hlaw. rewrite Hn in Hlaw.
    destruct Hlaw as (Hseq & [k Hk] & Hpos'). split; [done|]. cbn.
    pose proof (ob_history_seq b log k e Hh Hk) as Hek.
    destruct (last seen) as [l|] eqn:Hlast.
    + destruct (last_index seen l Hlast) as (j & Hlen & Hj).
      pose proof (ob_history_seq b log (i + j) l Hh (Hseg j l Hj)) as Hl.
      specialize (Hseq _ eq_refl). assert (k = i + length seen)%nat as -> by lia.
      exists i. split; [by apply segment_snoc|]. split; [|by rewrite last_snoc].
      intros c Hc. left. destruct (Hfrom c Hc) as [?|Hnil]; [done|]. by rewrite Hnil in Hlast.
    + apply last_None in Hlast as ->. exists k. split; [|split; [|done]].
      * apply segment_snoc; [apply segment_nil|]. by rewrite Nat.add_0_r.
      * intros c ->. left. cbn in Hseq. specialize (Hseq _ eq_refl). lia.
  - pose proof (ob_next_position x b log r _ Hh Hpos) as Hlaw. rewrite Hn in Hlaw.
    split; [done|]. exists i. auto.
Qed.

(** A change of the outbox under a subscription, by which at most one entry more
    is published. *)
Lemma delivered_from_box from b b' r seen log more :
  (length more <= 1)%nat -> ob_history b' (log ++ more) ->
  delivered_from from (mkWorld b r seen log) -> delivered_from from (mkWorld b' r seen (log ++ more)).
Proof.
  intros Hl Hh (_ & i & Hseg & Hfrom & Hpos). split; [exact Hh|]. exists i. cbn in *.
  destruct more as [|e [|]]; cbn in Hl; [| |lia]; [by rewrite app_nil_r|].
  split; [by apply segment_app|]. split; [done|]. by apply ob_position_app.
Qed.

Lemma delivered_from_start from b r log :
  ob_history b log -> ob_position r log (c ← from; Some (ec_seq c + 1)) -> delivered_from from (mkWorld b r [] log).
Proof. intros Hh Hp. split; [done|]. exists 0%nat. split; [apply segment_nil|]. auto. Qed.

(** What a delivered prefix is: a run of the log, after the cursor. *)
Lemma delivered_from_run from w :
  delivered_from from w ->
  exists i, segment (w_log w) (w_seen w) i /\
    (forall j e, w_seen w !! j = Some e -> ec_seq (ee_cursor e) = ob_base + Z.of_nat (i + j)) /\
    (forall c e, from = Some c -> head (w_seen w) = Some e -> ec_seq (ee_cursor e) = ec_seq c + 1).
Proof.
  intros (HhW & i & Hseg & Hfrom & _). exists i. split; [done|].
  assert (Hsq : forall j e, w_seen w !! j = Some e -> ec_seq (ee_cursor e) = ob_base + Z.of_nat (i + j)).
  { intros j e Hj. eapply ob_history_seq; [exact HhW | by apply Hseg]. }
  split; [done|]. intros c e -> He. rewrite head_lookup in He. specialize (Hsq 0%nat e He).
  destruct (Hfrom c eq_refl) as [Hi|Hnil]; [lia|]. rewrite Hnil in He. discriminate.
Qed.

(** However publishing and reading interleave, a subscription of any outbox that
    keeps the interface, resumed after a stored cursor, delivers the published
    entries that follow that cursor: consecutively, in order, none skipped and
    none twice; a fresh subscription delivers a consecutive run of them. *)
Theorem subscription_delivers_consecutively x from b log r b' w :
  ob_history b log -> ob_subscribe_from x from b = (Ok r, b') ->
  rtc delivery_step (mkWorld b' r [] log) w ->
  exists i, (forall j e, w_seen w !! j = Some e -> w_log w !! (i + j)%nat = Some e) /\
    (forall j e, w_seen w !! j = Some e -> ec_seq (ee_cursor e) = ob_base + Z.of_nat (i + j)) /\
    (forall c e, from = Some c -> head (w_seen w) = Some e -> ec_seq (ee_cursor e) = ec_seq c + 1).
Proof.
  intros Hh Hs Hr. destruct (ob_subscribe_position _ _ _ _ _ _ Hh Hs) as [Hh' Hpos].
  apply (delivered_from_run from w). pose proof (delivered_from_start from b' r log Hh' Hpos) as Hinit.
  clear - Hr Hinit. induction Hr as [|u v z Huv _ IH]; eauto using delivery_step_keeps.
Qed.
End Delivery.

(** ** The in-memory bridge *)

Record Outbox := mkOutbox {
  ob_epoch : Z;
  ob_entries : list EventEnvelope;
  ob_next_seq : Z;
  ob_max_retained : option nat
}.

(** [MemoryBridge::new_inner]; the epoch is a random draw. *)
Definition new_inner (random_epoch : Z) (max_retained : option nat) : Outbox :=
  {| ob_epoch := random_epoch; ob_entries := []; ob_next_seq := 0; ob_max_retained := max_retained |}.

(** [while entries.len() > max { entries.pop_front(); }] *)
Fixpoint pop_to (max : nat) (entries : list EventEnvelope) : list EventEnvelope :=
  if (max <? length entries)%nat then
    match entries with [] => [] | _ :: rest => pop_to max rest end
  else entries.

(** [MemoryBridge::publish] *)
Definition memory_publish (event : MonitorEvent) (o : Outbox) : EvmResult unit * Outbox :=
  let seq := ob_next_seq o in
  let cursor := {| ec_epoch := ob_epoch o; ec_seq := seq;
                   ec_block_height := u64_as_i64 (event_block_height event) |} in
  let entries :=
    ob_entries o ++ [{| ee_chain_id := event_chain_id event; ee_cursor := cursor; ee_event := event |}] in
  let entries := match ob_max_retained o with Some max => pop_to max entries | None => entries end in
  (Ok tt, {| ob_epoch := ob_epoch o; ob_entries := entries; ob_next_seq := seq + 1;
             ob_max_retained := ob_max_retained o |}).

(** The state of the [stream!] generator: its two variables and the rest of the
    batch it is yielding. *)
Record MemoryReader := mkMemoryReader {
  mr_next_seq : Z;
  mr_expected_seq : option Z;
  mr_batch : list EventEnvelope
}.

(** [next_seq - entries.len()] *)
Definition oldest_retained (o : Outbox) : Z := ob_next_seq o - Z.of_nat (length (ob_entries o)).

(** [MemoryBridge::subscribe_from] *)
Definition memory_subscribe_from (from : option EventCursor) (o : Outbox) : EvmResult MemoryReader :=
  let reader :=
    {| mr_next_seq := match from with Some c => ec_seq c + 1 | None => 0 end;
       mr_expected_seq := c ← from; Some (ec_seq c + 1);
       mr_batch := [] |} in
  match from with
  | Some cursor =>
      if (ec_seq cursor <? oldest_retained o - 1) || (ob_next_seq o <=? ec_seq cursor) then
        Err (EventStreamOutOfRange
               ("resume at seq " +:+ pretty (ec_seq cursor) +:+ " is outside the retained range (seq "
                  +:+ pretty (oldest_retained o) +:+ ".." +:+ pretty (ob_next_seq o) +:+ ")"))
      else Ok reader
  | None => Ok reader
  end.

(** Yielding the head of the batch. *)
Definition yield_batch (r : MemoryReader) : Polled MemoryReader :=
  match mr_batch r with
  | [] => Waiting r
  | envelope :: rest =>
      let next_seq := ec_seq (ee_cursor envelope) + 1 in
      Yielded envelope {| mr_next_seq := next_seq; mr_expected_seq := Some next_seq; mr_batch := rest |}
  end.

(** One poll of the stream: continue the batch, or take the lock and fetch the
    next one.  [VecDeque::range] panics when the start is past the end. *)
Definition memory_next (o : Outbox) (r : MemoryReader) : Polled MemoryReader :=
  match mr_batch r with
  | _ :: _ => yield_batch r
  | [] =>
      let oldest := oldest_retained o in
      if match mr_expected_seq r with Some expected => expected <? oldest | None => false end
      then Ended
      else
        let start := Z.to_nat (Z.max (mr_next_seq r - oldest) 0) in
        if (length (ob_entries o) <? start)%nat then Panicked
        else yield_batch {| mr_next_seq := mr_next_seq r; mr_expected_seq := mr_expected_seq r;
                            mr_batch := drop start (ob_entries o) |}
  end.

(** [MemoryBridge::bump_epoch] *)
Definition memory_bump_epoch (o : Outbox) : Z * Outbox :=
  let epoch := ob_epoch o + 1 in
  (epoch, {| ob_epoch := epoch; ob_entries := ob_entries o; ob_next_seq := ob_next_seq o;
             ob_max_retained := ob_max_retained o |}).

#[export] Instance MemoryBridge : EventOutbox Outbox MemoryReader unit := {
  ob_publish := fun _ => memory_publish;
  ob_subscribe_from := fun _ from o => (memory_subscribe_from from o, o);
  ob_current_epoch := fun _ o => (Ok (ob_epoch o), o);
  ob_next := fun _ => memory_next
}.

(** *** Its invariant *)

(** [log] is everything published: numbered from 0, the retained entries are
    its end, and the counter is its length. *)
Definition memory_history (o : Outbox) (log : list EventEnvelope) : Prop :=
  ob_next_seq o = Z.of_nat (length log) /\
  (exists k, ob_entries o = drop k log) /\
  forall i e, log !! i = Some e -> ec_seq (ee_cursor e) = Z.of_nat i.

(** The subscription stands at [mr_next_seq], and its batch is the log from
    there on. *)
Definition memory_position (r : MemoryReader) (log : list EventEnvelope) (pos : option Z) : Prop :=
  mr_expected_seq r = pos /\ 0 <= mr_next_seq r <= Z.of_nat (length log) /\
  (pos = Some (mr_next_seq r) \/ pos = None /\ mr_next_seq r = 0 /\ mr_batch r = []) /\
  forall j e, mr_batch r !! j = Some e -> log !! (Z.to_nat (mr_next_seq r) + j)%nat = Some e.

Lemma pop_to_drop max l : exists k, pop_to max l = drop k l.
Proof.
  induction l as [|x l [k Hk]]; cbn [pop_to].
  - exists 0%nat. by destruct (max <? _)%nat.
  - destruct (max <? _)%nat; [by exists (S k) | by exists 0%nat].
Qed.

Lemma pop_to_length max l : (length (pop_to max l) = Nat.min max (length l))%nat.
Proof.
  induction l as [|x l IH]; cbn [pop_to].
  { by destruct (max <? _)%nat; cbn; rewrite Nat.min_0_r. }
  destruct (Nat.ltb_spec max (length (x :: l))); cbn [length] in *; lia.
Qed.

Lemma oldest_in_history o log k :
  ob_next_seq o = Z.of_nat (length log) -> ob_entries o = drop k log ->
  oldest_retained o = Z.of_nat (Nat.min k (length log)).
Proof. intros Hn He. unfold oldest_retained. rewrite Hn, He, length_drop. lia. Qed.

Lemma drop_snoc_suffix {A} k (log : list A) e : exists k', drop k log ++ [e] = drop k' (log ++ [e]).
Proof.
  exists (Nat.min k (length log)). rewrite drop_app_le by lia. f_equal.
  destruct (Nat.min_spec k (length log)) as [[_ ->]|[Hle ->]]; [done|]. by rewrite !drop_ge by lia.
Qed.

Lemma memory_publish_history ev o log :
  memory_history o log ->
  exists e o', memory_publish ev o = (Ok tt, o') /\ memory_history o' (log ++ [e]) /\
    ee_event e = ev /\ ee_chain_id e = event_chain_id ev.
Proof.
  intros (Hn & (k & Hk) & Hs). unfold memory_publish. set (e := mkEventEnvelope _ _ _).
  exists e. eexists. split; [reflexivity|]. split; [|done]. split; [|split].
  - cbn. rewrite Hn, length_app. cbn. lia.
  - cbn [ob_entries]. rewrite Hk. destruct (drop_snoc_suffix k log e) as [k' ->].
    destruct (ob_max_retained o) as [m|]; [|by eexists].
    destruct (pop_to_drop m (drop k' (log ++ [e]))) as [k2 ->]. rewrite drop_drop. by eexists.
  - intros i x [Hi|[Hge Hi]]%lookup_app_Some; [by apply Hs|].
    apply list_lookup_singleton_Some in Hi as [Hi <-]. subst e. cbn. lia.
Qed.

Lemma memory_subscribe_position from o log r :
  memory_history o log -> memory_subscribe_from from o = Ok r ->
  memory_position r log (c ← from; Some (ec_seq c + 1)).
Proof.
  intros (Hn & (k & Hk) & Hs) Hr. pose proof (oldest_in_history o log k Hn Hk) as Ho.
  destruct from as [c|]; cbn in Hr.
  2: { injection Hr as <-. split; [done|]. cbn. split; [lia|]. split; [by right|].
       intros j e Hj. by rewrite lookup_nil in Hj. }
  destruct (Z.ltb_spec (ec_seq c) (oldest_retained o - 1)); [discriminate|].
  destruct (Z.leb_spec (ob_next_seq o) (ec_seq c)); [discriminate|]. injection Hr as <-.
  split; [done|]. cbn. split; [lia|]. split; [by left|]. intros j e Hj. by rewrite lookup_nil in Hj.
Qed.

(** A poll from position [pos] delivers that position of the log, or nothing. *)
Definition poll_ok (log : list EventEnvelope) (pos : option Z) (p : Polled MemoryReader) : Prop :=
  match p with
  | Yielded e r' => (forall p, pos = Some p -> ec_seq (ee_cursor e) = p) /\
      (exists i, log !! i = Some e) /\ memory_position r' log (Some (ec_seq (ee_cursor e) + 1))
  | Waiting r' => memory_position r' log pos
  | Ended => True
  | Panicked => False
  end.

(** Yielding from a batch that continues the log at the reader's position. *)
Lemma yield_batch_position r log pos :
  mr_expected_seq r = pos -> 0 <= mr_next_seq r <= Z.of_nat (length log) ->
  (pos = Some (mr_next_seq r) \/ pos = None /\ mr_next_seq r = 0) ->
  (exists i, (pos = Some (Z.of_nat i) \/ pos = None) /\
     forall j e, mr_batch r !! j = Some e -> log !! (i + j)%nat = Some e) ->
  (forall i e, log !! i = Some e -> ec_seq (ee_cursor e) = Z.of_nat i) ->
  poll_ok log pos (yield_batch r).
Proof.
  intros He Hr Hp (i & Hi & Hb) Hs. unfold poll_ok, yield_batch. destruct r as [n x [|e rest]]; cbn in *.
  { split; [done|]. cbn. split; [lia|]. split; [naive_solver|]. intros j y Hj. by rewrite lookup_nil in Hj. }
  pose proof (Hb 0%nat e eq_refl) as He0. rewrite Nat.add_0_r in He0.
  pose proof (Hs i e He0) as Hse. pose proof (lookup_lt_Some _ _ _ He0) as Hlt.
  split; [intros p ->; destruct Hi as [Hi|Hi]; congruence|]. split; [eauto|].
  split; [done|]. cbn. split; [lia|]. split; [by left|].
  intros j y Hj. replace (Z.to_nat (ec_seq (ee_cursor e) + 1) + j)%nat with (i + S j)%nat by lia.
  by apply Hb.
Qed.

Lemma memory_next_position o log r pos :
  memory_history o log -> memory_position r log pos ->
  poll_ok log pos (memory_next o r).
Proof.
  intros (Hn & (k & Hk) & Hs) (He & Hr & Hp & Hb).
  pose proof (oldest_in_history o log k Hn Hk) as Ho. unfold memory_next.
  destruct (mr_batch r) as [|e0 rest] eqn:Hbatch.
  - rewrite He. destruct pos as [p|].
    + destruct Hp as [[= ->]|[? _]]; [|done]. rewrite Ho.
      destruct (Z.ltb_spec (mr_next_seq r) (Z.of_nat (Nat.min k (length log)))); [done|].
      rewrite Z.max_l by lia. rewrite Hk, length_drop.
      destruct (Nat.ltb_spec (length log - k) (Z.to_nat (mr_next_seq r - Z.of_nat (Nat.min k (length log)))));
        [lia|].
      apply (yield_batch_position (mkMemoryReader _ _ _)); try done; [by left|].
      exists (Z.to_nat (mr_next_seq r)). split; [left; f_equal; lia|]. cbn. intros j e.
      rewrite drop_drop, lookup_drop. intros Hj.
      destruct (decide (k <= length log)%nat); [|rewrite lookup_ge_None_2 in Hj by lia; done].
      rewrite <- Hj. f_equal. lia.
    + destruct Hp as [?|(_ & H0 & _)]; [done|]. rewrite H0, Ho.
      rewrite Z.max_r by lia. cbn [Z.to_nat]. cbn [Nat.ltb Nat.leb].
      destruct (length (ob_entries o) <? 0)%nat eqn:Hlt; [apply Nat.ltb_lt in Hlt; lia|].
      apply (yield_batch_position (mkMemoryReader _ _ _)); try done; [cbn; lia | by right |].
      exists k. split; [by right|]. cbn. intros j e. by rewrite drop_0, Hk, lookup_drop.
  - assert (Hpos : pos = Some (mr_next_seq r)) by (by destruct Hp as [?|(_ & _ & ?)]).
    apply yield_batch_position; try done; [by left|]. exists (Z.to_nat (mr_next_seq r)).
    split; [left; rewrite Hpos; f_equal; lia | by rewrite Hbatch].
Qed.

#[export] Instance MemoryBridge_laws : EventOutboxLaws Outbox MemoryReader unit.
Proof.
  refine {| ob_base := 0; ob_history := memory_history; ob_position := memory_position |}.
  - intros b log i e (_ & _ & Hs) Hi. by apply Hs.
  - intros x ev b log r b' Hh Hp. destruct (memory_publish_history ev b log Hh) as (e & o' & He & Hrest).
    cbn in Hp. rewrite He in Hp. injection Hp as <- <-. by exists e.
  - intros x b log r b' Hh Hp. by injection Hp as <- <-.
  - intros x from b log r b' Hh Hp. cbn in Hp. injection Hp as Hr <-. split; [done|].
    destruct r; [|done]. by eapply memory_subscribe_position.
  - intros r log pos e (He & Hr & Hp & Hb). split; [done|]. rewrite length_app. split; [lia|].
    split; [done|]. intros j y Hj. apply lookup_app_l_Some. by apply Hb.
  - intros x b log r pos. apply memory_next_position.
Defined.

(** *** Resuming is exact *)

(** Everything a subscription delivers before it has to wait. *)
Fixpoint drain (fuel : nat) (o : Outbox) (r : MemoryReader) : list EventEnvelope :=
  match fuel with
  | O => []
  | S fuel' =>
      match memory_next o r with
      | Yielded e r' => e :: drain fuel' o r'
      | _ => []
      end
  end.

Lemma drop_cons_inv {A} n (l : list A) x rest :
  drop n l = x :: rest -> rest = drop (S n) l /\ (n < length l)%nat.
Proof.
  revert n. induction l as [|y l IH]; intros [|n] Hd; cbn in *; try discriminate.
  - injection Hd as -> ->. split; [done | lia].
  - destruct (IH n Hd) as [-> ?]. split; [done | lia].
Qed.

Lemma drain_from o log fuel n b :
  memory_history o log -> oldest_retained o <= Z.of_nat n -> (n <= length log)%nat ->
  b = [] \/ b = drop n log -> (length log - n < fuel)%nat ->
  drain fuel o (mkMemoryReader (Z.of_nat n) (Some (Z.of_nat n)) b) = drop n log.
Proof.
  intros Hh. revert n b. induction fuel as [|fuel IH]; intros n b Ho Hn Hb Hf; [lia|].
  destruct Hh as (Hns & (k & Hk) & Hs). cbn [drain].
  pose proof (oldest_in_history o log k Hns Hk) as Hold.
  assert (Hy : memory_next o (mkMemoryReader (Z.of_nat n) (Some (Z.of_nat n)) b)
               = yield_batch (mkMemoryReader (Z.of_nat n) (Some (Z.of_nat n)) (drop n log))).
  { unfold memory_next. cbn [mr_batch mr_expected_seq mr_next_seq].
    destruct Hb as [->|Hb]; [|destruct b; [|by rewrite Hb]];
      (destruct (Z.ltb_spec (Z.of_nat n) (oldest_retained o)); [lia|]);
      rewrite Hk, length_drop, Hold, drop_drop;
      (destruct (Nat.ltb_spec (length log - k)
                   (Z.to_nat (Z.max (Z.of_nat n - Z.of_nat (Nat.min k (length log))) 0))); [lia|]);
      do 2 f_equal; try lia.
    all: destruct (decide (k <= length log)%nat); [f_equal; lia | by rewrite !drop_ge by lia]. }
  rewrite Hy. unfold yield_batch. cbn [mr_batch]. destruct (drop n log) as [|e rest] eqn:Hd; [done|].
  apply drop_cons_inv in Hd as Hd'. destruct Hd' as [Hrest Hlt].
  assert (He : log !! n = Some e).
  { rewrite <- (Nat.add_0_r n), <- lookup_drop, Hd. done. }
  rewrite (Hs n e He). f_equal. rewrite Hrest.
  replace (Z.of_nat n + 1) with (Z.of_nat (S n)) by lia. apply IH; [lia | lia | by right | lia].
Qed.

(** Resuming the in-memory outbox is exact.  After a cursor it can still
    serve it delivers every entry published since, and only those; it refuses
    exactly the cursors it cannot serve: those whose next entry was already
    trimmed, and those beyond anything ever published. *)
Theorem memory_resume_exact o log c :
  memory_history o log ->
  match memory_subscribe_from (Some c) o with
  | Ok r => drain (S (length log)) o r = drop (Z.to_nat (ec_seq c + 1)) log /\
            oldest_retained o <= ec_seq c + 1 <= Z.of_nat (length log)
  | Err _ => ec_seq c + 1 < oldest_retained o \/ Z.of_nat (length log) <= ec_seq c
  end.
Proof.
  intros Hh. destruct Hh as (Hns & (k & Hk) & Hs).
  pose proof (oldest_in_history o log k Hns Hk) as Hold. cbn [memory_subscribe_from].
  destruct (Z.ltb_spec (ec_seq c) (oldest_retained o - 1)); cbn [orb]; [left; lia|].
  destruct (Z.leb_spec (ob_next_seq o) (ec_seq c)); [right; lia|]. split; [|lia].
  change (mbind _ (Some c)) with (Some (ec_seq c + 1)).
  replace (ec_seq c + 1) with (Z.of_nat (Z.to_nat (ec_seq c + 1))) at 1 2 by lia.
  apply drain_from; [by split; eauto | lia | lia | by left | lia].
Qed.

Definition demo_outbox : Outbox :=
  snd (memory_publish (EvMonitorStopped 1) (snd (memory_publish (EvMonitorStarted 1)
        (snd (memory_publish (EvMonitorStarted 10) (new_inner 42 (Some 2%nat))))))).

Definition demo_history : list EventEnvelope :=
  [mkEventEnvelope 10 (mkEventCursor 42 0 0) (EvMonitorStarted 10);
   mkEventEnvelope 1 (mkEventCursor 42 1 0) (EvMonitorStarted 1);
   mkEventEnvelope 1 (mkEventCursor 42 2 0) (EvMonitorStopped 1)].

Lemma demo_outbox_history : memory_history demo_outbox demo_history.
Proof.
  split; [reflexivity|]. split; [by exists 1%nat|].
  intros [|[|[|i]]] e He; cbn in He; simplify_eq; reflexivity.
Qed.

Lemma memory_resume_exact_witness :
  match memory_subscribe_from (Some (mkEventCursor 42 1 0)) demo_outbox with
  | Ok r => drain (S (length demo_history)) demo_outbox r = drop (Z.to_nat (1 + 1)) demo_history /\
            oldest_retained demo_outbox <= 1 + 1 <= Z.of_nat (length demo_history)
  | Err _ => 1 + 1 < oldest_retained demo_outbox \/ Z.of_nat (length demo_history) <= 1
  end.
Proof. exact (memory_resume_exact demo_outbox demo_history (mkEventCursor 42 1 0) demo_outbox_history). Defined.

(** A subscription resumed after position 0 that reads one entry and then a
    publish it has not read yet. *)
Definition demo_reader : MemoryReader := mkMemoryReader 1 (Some 1) [].
Definition demo_world : World (B:=Outbox) (R:=MemoryReader) :=
  mkWorld demo_outbox (mkMemoryReader 2 (Some 2) [mkEventEnvelope 1 (mkEventCursor 42 2 0) (EvMonitorStopped 1)])
    [mkEventEnvelope 1 (mkEventCursor 42 1 0) (EvMonitorStarted 1)] demo_history.

Lemma subscription_delivers_consecutively_witness :
  exists i, (forall j e, w_seen demo_world !! j = Some e -> w_log demo_world !! (i + j)%nat = Some e) /\
    (forall j e, w_seen demo_world !! j = Some e -> ec_seq (ee_cursor e) = ob_base + Z.of_nat (i + j)) /\
    (forall c e, Some (mkEventCursor 42 0 0) = Some c -> head (w_seen demo_world) = Some e ->
       ec_seq (ee_cursor e) = ec_seq c + 1).
Proof.
  apply (@subscription_delivers_consecutively Outbox MemoryReader unit MemoryBridge MemoryBridge_laws
           tt (Some (mkEventCursor 42 0 0)) demo_outbox demo_history
           demo_reader demo_outbox demo_world demo_outbox_history eq_refl).
  apply rtc_once. apply (ds_yield tt demo_outbox demo_reader _ []). reflexivity.
Defined.
