(* ===== verification/RedisBridge.v ===== *)
(** * The Redis event bridge

    [evm/src/monitor/bridge/redis.rs]: the event stream in Redis, its atomic
    publish script, resuming it and the reading loop, as an instance of the
    outbox interface.

    Redis is the record [RedisDb] of the three keys the bridge uses.  A command
    can be answered, never reach the server, or take effect and lose its reply;
    a stream entry id [ms-n] is the pair [(ms, n)]. *)

From stdpp Require Import gmap strings list pretty relations.
From Stdlib Require Import ZArith Lia.
From S2P Require Import Prelude Events Bridge.

Definition STREAM_MAXLEN : nat := Z.to_nat 200000.

(** One entry of a Redis stream: its id and its field map. *)
Record StreamId := mkStreamId {
  si_id : Z * Z;
  si_map : gmap string string
}.

Record RedisDb := mkRedisDb {
  rs_stream : list StreamId;      (* the key [events_channel] *)
  rs_last_id : Z * Z;             (* its last generated id *)
  rs_seq : option Z;              (* the key [events_channel:seq] *)
  rs_epoch : option string        (* the key [events_channel:epoch] *)
}.

(** What happens to the commands of one operation, the random draw it makes and
    how many entries an approximate trim removes. *)
Record RedisIO := mkRedisIO {
  io_call : nat -> Call;
  io_random_epoch : Z;
  io_trimmed : nat
}.

(** [(epoch, seq, chain_id, block_height, payload)] *)
Definition parse_entry (entry : StreamId) : option (Z * Z * Z * Z * string) :=
  let get_field name := si_map entry !! name in
  epoch ← (t ← get_field "epoch"; parse_i64 t);
  seq ← (t ← get_field "seq"; parse_i64 t);
  chain_id ← (t ← get_field "chain_id"; parse_u64 t);
  block_height ← (t ← get_field "block_height"; parse_i64 t);
  payload ← get_field "payload";
  Some (epoch, seq, chain_id, block_height, payload).

(** Whether an entry does not continue from [expected_seq]. *)
Definition is_seq_gap (expected_seq : option Z) (seq : Z) : bool :=
  match expected_seq with
  | None => false
  | Some expected => negb (seq =? expected)
  end.

Definition subscription_end_is_fault (shutting_down : bool) : bool := negb shutting_down.

Definition id_gt (a b : Z * Z) : bool := (b.1 <? a.1) || ((a.1 =? b.1) && (b.2 <? a.2)).

Section Redis.
(** [serde_json]'s rendering of an event, and reading it back. *)
Context (event_to_json : MonitorEvent -> string) (event_from_json : string -> option MonitorEvent).
Context (maxlen : nat).

(** A command whose failure [f] maps to [EvmError::Monitor]. *)
Definition redis_call {A} (io : RedisIO) (i : nat) (what : string)
    (cmd : RedisDb -> A * RedisDb) (db : RedisDb) : EvmResult A * RedisDb :=
  match io_call io i with
  | Answered => let '(a, db') := cmd db in (Ok a, db')
  | NotSent => (Err (Monitor what), db)
  | ReplyLost => (Err (Monitor what), snd (cmd db))
  end.

(** The fields of the entry an event is stored as. *)
Definition entry_fields (epoch : string) (seq chain_id block_height : Z) (payload : string)
  : gmap string string :=
  <["epoch" := epoch]> (<["seq" := z_to_string seq]> (<["chain_id" := z_to_string chain_id]>
    (<["block_height" := z_to_string block_height]> (<["payload" := payload]> ∅)))).

(** [PUBLISH_SCRIPT].  [MAXLEN ~] may remove from the front whatever exceeds
    [maxlen], or less; an id not above the last one is an error, raised after
    the increment and the epoch were written. *)
Definition publish_script (io : RedisIO) (chain_id block_height : Z) (payload : string)
    (db : RedisDb) : option (Z * string) * RedisDb :=
  let seq := default 0 (rs_seq db) + 1 in
  let epoch := default (z_to_string (io_random_epoch io)) (rs_epoch db) in
  if id_gt (seq, 0) (rs_last_id db) then
    let stream :=
      rs_stream db ++ [{| si_id := (seq, 0);
                          si_map := entry_fields epoch seq chain_id block_height payload |}] in
    let stream := drop (Nat.min (io_trimmed io) (length stream - maxlen)) stream in
    (Some (seq, epoch),
     {| rs_stream := stream; rs_last_id := (seq, 0); rs_seq := Some seq; rs_epoch := Some epoch |})
  else
    (None, {| rs_stream := rs_stream db; rs_last_id := rs_last_id db; rs_seq := Some seq;
              rs_epoch := Some epoch |}).

(** [RedisBridge::publish] *)
Definition redis_publish (io : RedisIO) (event : MonitorEvent) (db : RedisDb) : EvmResult unit * RedisDb :=
  let payload := event_to_json event in
  let chain_id := event_chain_id event in
  let block_height := event_block_height event in
  let '(r, db) := redis_call io 0 "redis publish script failed"
                    (publish_script io chain_id block_height payload) db in
  match r with
  | Err e => (Err e, db)
  | Ok None => (Err (Monitor "redis publish script failed"), db)
  | Ok (Some (_, epoch)) =>
      match parse_i64 epoch with
      | None => (Err (Monitor "redis publish script failed"), db)
      | Some _ => (Ok tt, db)
      end
  end.

Definition parse_epoch (epoch : string) : EvmResult Z :=
  match parse_i64 epoch with
  | Some z => Ok z
  | None => Err (Monitor ("corrupt epoch value " +:+ epoch))
  end.

(** [RedisBridge::get_or_init_epoch] *)
Definition get_or_init_epoch (io : RedisIO) (db : RedisDb) : EvmResult Z * RedisDb :=
  match redis_call io 0 "redis GET failed" (fun d => (rs_epoch d, d)) db with
  | (Err e, db) => (Err e, db)
  | (Ok (Some epoch), db) => (parse_epoch epoch, db)
  | (Ok None, db) =>
      let set_nx d :=
        (tt, {| rs_stream := rs_stream d; rs_last_id := rs_last_id d; rs_seq := rs_seq d;
                rs_epoch := Some (default (z_to_string (io_random_epoch io)) (rs_epoch d)) |}) in
      match redis_call io 1 "redis SET NX failed" set_nx db with
      | (Err e, db) => (Err e, db)
      | (Ok _, db) =>
          match redis_call io 2 "redis GET failed" (fun d => (rs_epoch d, d)) db with
          | (Err e, db) => (Err e, db)
          | (Ok None, db) => (Err (Monitor "redis GET failed"), db)
          | (Ok (Some epoch), db) => (parse_epoch epoch, db)
          end
      end
  end.

(** [RedisBridge::oldest_retained_seq] *)
Definition oldest_retained_seq (io : RedisIO) (db : RedisDb) : EvmResult (option Z) :=
  match io_call io 3 with
  | Answered => Ok (fst ∘ si_id <$> head (rs_stream db))
  | _ => Err (Monitor "redis XRANGE failed")
  end.

(** The state of the reading loop. *)
Record RedisReader := mkRedisReader {
  rr_connected : bool;
  rr_epoch : Z;
  rr_last_id : Z * Z;
  rr_expected_seq : option Z;
  rr_batch : list StreamId
}.

(** [RedisBridge::subscribe_from] *)
Definition redis_subscribe_from (io : RedisIO) (from : option EventCursor) (db : RedisDb)
  : EvmResult RedisReader * RedisDb :=
  match get_or_init_epoch io db with
  | (Err e, db) => (Err e, db)
  | (Ok subscribed_epoch, db) =>
      let reader :=
        {| rr_connected := false;
           rr_epoch := subscribed_epoch;
           rr_last_id := match from with Some c => (ec_seq c, 0) | None => (0, 0) end;
           rr_expected_seq := c ← from; Some (ec_seq c + 1);
           rr_batch := [] |} in
      match from with
      | None => (Ok reader, db)
      | Some cursor =>
          if negb (ec_epoch cursor =? subscribed_epoch) then
            (Err (EventStreamOutOfRange
                    ("resume cursor names epoch " +:+ pretty (ec_epoch cursor)
                       +:+ " but the outbox is at epoch " +:+ pretty subscribed_epoch)), db)
          else
            match oldest_retained_seq io db with
            | Err e => (Err e, db)
            | Ok oldest =>
                if match oldest with Some o => ec_seq cursor + 1 <? o | None => false end then
                  (Err (EventStreamOutOfRange
                          ("resume at seq " +:+ pretty (ec_seq cursor)
                             +:+ " is behind the oldest retained entry (seq " +:+ pretty (default 0 oldest) +:+ ")")), db)
                else (Ok reader, db)
            end
      end
  end.

(** The body of the loop over the entries of one reply. *)
Definition next_entry (r : RedisReader) : Polled RedisReader :=
  match rr_batch r with
  | [] => Waiting r
  | entry :: rest =>
      match parse_entry entry with
      | None => Ended
      | Some (epoch, seq, chain_id, block_height, payload) =>
          if is_seq_gap (rr_expected_seq r) seq then Ended
          else
            match event_from_json payload with
            | None => Ended
            | Some event =>
                Yielded {| ee_chain_id := chain_id;
                           ee_cursor := {| ec_epoch := epoch; ec_seq := seq;
                                           ec_block_height := block_height |};
                           ee_event := event |}
                        {| rr_connected := rr_connected r;
                           rr_epoch := rr_epoch r;
                           rr_last_id := si_id entry;
                           rr_expected_seq := Some (seq + 1);
                           rr_batch := rest |}
            end
      end
  end.

(** [epoch_unchanged] *)
Definition epoch_unchanged (io : RedisIO) (db : RedisDb) (expected : Z) : bool :=
  match io_call io 1, rs_epoch db with
  | Answered, Some v => bool_decide (parse_i64 v = Some expected)
  | _, _ => false
  end.

(** [XREAD COUNT 500]: the first 500 entries above an id. *)
Definition xread (last_id : Z * Z) (db : RedisDb) : list StreamId :=
  take 500 (List.filter (fun e => id_gt (si_id e) last_id) (rs_stream db)).

(** One poll of the stream. *)
Definition redis_next (io : RedisIO) (db : RedisDb) (r : RedisReader) : Polled RedisReader :=
  match rr_batch r with
  | _ :: _ => next_entry r
  | [] =>
      if negb (rr_connected r) && negb (match io_call io 0 with Answered => true | _ => false end)
      then Ended
      else if negb (epoch_unchanged io db (rr_epoch r)) then Ended
      else
        match io_call io 2 with
        | Answered =>
            next_entry {| rr_connected := true; rr_epoch := rr_epoch r; rr_last_id := rr_last_id r;
                          rr_expected_seq := rr_expected_seq r;
                          rr_batch := xread (rr_last_id r) db |}
        | _ => Ended
        end
  end.

(** [RedisBridge::bump_epoch] *)
Definition redis_bump_epoch (io : RedisIO) (db : RedisDb) : EvmResult Z * RedisDb :=
  let new_epoch := io_random_epoch io in
  match redis_call io 0 "redis SET failed"
          (fun d => (tt, {| rs_stream := rs_stream d; rs_last_id := rs_last_id d; rs_seq := rs_seq d;
                            rs_epoch := Some (z_to_string new_epoch) |})) db with
  | (Err e, db) => (Err e, db)
  | (Ok _, db) => (Ok new_epoch, db)
  end.

#[export] Instance RedisBridge : EventOutbox RedisDb RedisReader RedisIO := {
  ob_publish := redis_publish;
  ob_subscribe_from := redis_subscribe_from;
  ob_current_epoch := get_or_init_epoch;
  ob_next := redis_next
}.

(** ** It keeps the interface *)

Context (event_json_roundtrip : forall e, event_from_json (event_to_json e) = Some e).
Context (maxlen_pos : (1 <= maxlen)%nat).

(** How an envelope is stored. *)
Definition entry_of (e : EventEnvelope) : StreamId :=
  {| si_id := (ec_seq (ee_cursor e), 0);
     si_map := entry_fields (z_to_string (ec_epoch (ee_cursor e))) (ec_seq (ee_cursor e))
                 (ee_chain_id e) (ec_block_height (ee_cursor e)) (event_to_json (ee_event e)) |}.

(** [log] is everything published, numbered from 1; the stream holds its end,
    and is not empty once something was published. *)
Definition redis_history (db : RedisDb) (log : list EventEnvelope) : Prop :=
  (exists k, rs_stream db = entry_of <$> drop k log /\ (log = [] \/ (k < length log)%nat)) /\
  rs_last_id db = (Z.of_nat (length log), 0) /\
  default 0 (rs_seq db) = Z.of_nat (length log) /\
  (forall t, rs_epoch db = Some t -> exists ep, t = z_to_string ep) /\
  forall i e, log !! i = Some e -> ec_seq (ee_cursor e) = 1 + Z.of_nat i.

Definition redis_position (r : RedisReader) (log : list EventEnvelope) (pos : option Z) : Prop :=
  rr_expected_seq r = pos /\ forall x, x ∈ rr_batch r -> exists e, e ∈ log /\ x = entry_of e.

Lemma parse_entry_of e v :
  parse_entry (entry_of e) = Some v ->
  v = (ec_epoch (ee_cursor e), ec_seq (ee_cursor e), ee_chain_id e, ec_block_height (ee_cursor e),
       event_to_json (ee_event e)).
Proof.
  unfold parse_entry, entry_of, entry_fields. cbn [si_map].
  repeat (rewrite lookup_insert_eq || rewrite lookup_insert_ne by done). cbn [mbind option_bind].
  destruct (parse_i64 (z_to_string (ec_epoch _))) as [a|] eqn:Ha; [|discriminate].
  destruct (parse_i64 (z_to_string (ec_seq _))) as [b|] eqn:Hb; [|discriminate].
  destruct (parse_u64 (z_to_string (ee_chain_id _))) as [c|] eqn:Hc; [|discriminate].
  destruct (parse_i64 (z_to_string (ec_block_height _))) as [d|] eqn:Hd; [|discriminate].
  intros [= <-]. apply parse_i64_inv in Ha, Hb, Hd. apply parse_u64_inv in Hc. congruence.
Qed.

Lemma publish_script_history io ev db log :
  redis_history db log ->
  exists e epoch db', publish_script io (event_chain_id ev) (event_block_height ev) (event_to_json ev) db
      = (Some (Z.of_nat (length log) + 1, epoch), db') /\
    redis_history db' (log ++ [e]) /\
    e = mkEventEnvelope (event_chain_id ev)
          (mkEventCursor (default 0 (z_parse epoch)) (Z.of_nat (length log) + 1) (event_block_height ev)) ev.
Proof.
  intros ((k & Hk & Hkl) & Hlast & Hseq & Hep & Hs). unfold publish_script. rewrite Hseq, Hlast.
  assert (Hgt : id_gt (Z.of_nat (length log) + 1, 0) (Z.of_nat (length log), 0) = true).
  { unfold id_gt. cbn. apply orb_true_iff. left. apply Z.ltb_lt. lia. }
  rewrite Hgt. set (epoch := default _ (rs_epoch db)).
  assert (exists ep, epoch = z_to_string ep) as [ep Hepoch].
  { subst epoch. destruct (rs_epoch db) as [t|] eqn:Ht; [by apply Hep | by eexists]. }
  exists (mkEventEnvelope (event_chain_id ev)
            (mkEventCursor ep (Z.of_nat (length log) + 1) (event_block_height ev)) ev).
  eexists epoch, _. split; [reflexivity|]. split; [|by rewrite Hepoch, z_parse_to_string]. split; [|split; [|split; [|split]]]; cbn.
  - set (e := mkEventEnvelope _ _ _). rewrite Hk, Hepoch.
    change (mkStreamId _ _) with (entry_of e).
    destruct (drop_snoc_suffix k log e) as [k' Hk'].
    assert (Happ : (entry_of <$> drop k log) ++ [entry_of e] = entry_of <$> drop k' (log ++ [e])).
    { rewrite <- Hk', fmap_app. reflexivity. }
    rewrite Happ, <- fmap_drop, drop_drop, length_fmap, length_drop.
    eexists. split; [done|]. right.
    assert (Hk'' : (k' < length (log ++ [e]))%nat).
    { apply (f_equal length) in Hk'. rewrite length_app, !length_drop in Hk'. cbn in Hk'. lia. }
    lia.
  - rewrite length_app. cbn. f_equal. lia.
  - rewrite length_app. cbn. lia.
  - intros t [= <-]. eauto.
  - intros i e [Hi|[Hge Hi]]%lookup_app_Some; [by apply Hs|].
    apply list_lookup_singleton_Some in Hi as [Hi <-]. cbn. lia.
Qed.

Lemma redis_publish_history io ev db log r db' :
  redis_history db log -> redis_publish io ev db = (r, db') ->
  match r with
  | Ok _ => exists e, redis_history db' (log ++ [e]) /\ ee_event e = ev /\
                      ee_chain_id e = event_chain_id ev
  | Err _ => redis_history db' log \/ exists e, redis_history db' (log ++ [e])
  end.
Proof.
  intros Hh. destruct (publish_script_history io ev db log Hh) as (e & epoch & db1 & Hp & Hh1 & He).
  unfold redis_publish, redis_call. destruct (io_call io 0); cbn beta iota zeta; rewrite ?Hp.
  - destruct (parse_i64 epoch); intros [= <- <-]; [exists e; by subst | eauto].
  - intros [= <- <-]. by left.
  - intros [= <- <-]. right. cbn. eauto.
Qed.

Lemma get_or_init_epoch_history io db log r db' :
  redis_history db log -> get_or_init_epoch io db = (r, db') -> redis_history db' log.
Proof.
  intros Hh.
  assert (Hset : redis_history
    {| rs_stream := rs_stream db; rs_last_id := rs_last_id db; rs_seq := rs_seq db;
       rs_epoch := Some (default (z_to_string (io_random_epoch io)) (rs_epoch db)) |} log).
  { destruct Hh as (Hk & Hlast & Hseq & Hep & Hs). split; [done|]. do 2 (split; [done|]).
    split; [|done]. cbn. intros t [= <-]. destruct (rs_epoch db); cbn; eauto. }
  unfold get_or_init_epoch, redis_call.
  destruct (io_call io 0); try (intros [= <- <-]; exact Hh).
  destruct (rs_epoch db) as [t|]; [intros [= <- <-]; exact Hh|].
  destruct (io_call io 1); cbn; try (intros [= <- <-]; done).
  destruct (io_call io 2); intros [= <- <-]; done.
Qed.

Lemma redis_subscribe_position io from db log r db' :
  redis_history db log -> redis_subscribe_from io from db = (r, db') ->
  redis_history db' log /\
  match r with Ok sub => redis_position sub log (c ← from; Some (ec_seq c + 1)) | Err _ => True end.
Proof.
  intros Hh. unfold redis_subscribe_from.
  destruct (get_or_init_epoch io db) as [rep db1] eqn:Hg.
  apply (get_or_init_epoch_history _ _ _ _ _ Hh) in Hg.
  destruct rep as [ep|e]; [|by intros [= <- <-]]. destruct from as [c|].
  - destruct (negb _); [by intros [= <- <-]|].
    destruct (oldest_retained_seq io db1) as [o|]; [|by intros [= <- <-]].
    destruct (match o with Some _ => _ | None => _ end); [by intros [= <- <-]|].
    intros [= <- <-]. split; [done|]. split; [done|]. cbn. set_solver.
  - intros [= <- <-]. split; [done|]. split; [done|]. cbn. set_solver.
Qed.

Lemma next_entry_position r log pos :
  redis_position r log pos ->
  match next_entry r with
  | Yielded e r' => (forall p, pos = Some p -> ec_seq (ee_cursor e) = p) /\
      (exists i, log !! i = Some e) /\ redis_position r' log (Some (ec_seq (ee_cursor e) + 1))
  | Waiting r' => redis_position r' log pos
  | Ended => True
  | Panicked => False
  end.
Proof.
  intros [He Hb]. unfold next_entry. destruct (rr_batch r) as [|x rest] eqn:Hbatch.
  { split; [done|]. by rewrite Hbatch. }
  destruct (Hb x) as (e & Hin & ->); [by left|].
  destruct (parse_entry (entry_of e)) as [v|] eqn:Hv; [|done]. apply parse_entry_of in Hv as ->.
  destruct (is_seq_gap (rr_expected_seq r) (ec_seq (ee_cursor e))) eqn:Hgap; [done|].
  rewrite event_json_roundtrip. destruct e as [ch [ep sq h] ev]; cbn in *. split; [|split].
  - intros p ->. rewrite He in Hgap. cbn in Hgap. apply negb_false_iff, Z.eqb_eq in Hgap. done.
  - by apply list_elem_of_lookup.
  - split; [done|]. cbn. set_solver.
Qed.

Lemma xread_in_log db log id x :
  redis_history db log -> x ∈ xread id db -> exists e, e ∈ log /\ x = entry_of e.
Proof.
  intros ((k & Hk & _) & _) Hx. unfold xread in Hx.
  apply elem_of_take in Hx as (i & Hi%list_elem_of_lookup_2 & _).
  apply elem_of_filter_b in Hi as [_ Hi]. rewrite Hk in Hi.
  apply list_elem_of_fmap in Hi as (e & -> & He). exists e. split; [|done].
  apply list_elem_of_lookup in He as [j Hj]. rewrite lookup_drop in Hj.
  by eapply list_elem_of_lookup_2.
Qed.

#[export] Instance RedisBridge_laws : EventOutboxLaws RedisDb RedisReader RedisIO.
Proof.
  refine {| ob_base := 1; ob_history := redis_history; ob_position := redis_position |}.
  - intros b log i e (_ & _ & _ & _ & Hs) Hi. by apply Hs.
  - intros x ev b log r b'. apply redis_publish_history.
  - intros x b log r b'. apply get_or_init_epoch_history.
  - intros x from b log r b'. apply redis_subscribe_position.
  - intros r log pos e [He Hb]. split; [done|]. intros x Hx.
    destruct (Hb x Hx) as (y & Hy & ->). exists y. split; [set_solver | done].
  - intros x b log r pos Hh Hp. cbn. unfold redis_next.
    destruct (rr_batch r) eqn:Hbatch; [|by apply next_entry_position].
    destruct (_ && _); [done|]. destruct (negb _); [done|]. destruct (io_call x 2); try done.
    apply next_entry_position. destruct Hp as [He _]. split; [done|]. cbn. intros y Hy.
    by eapply xread_in_log.
Defined.

(** ** A subscription on a stream from its first event on *)

(** What one call of [publish] adds to the stream: nothing if the script was not
    run, or refused. *)
Definition redis_published (io : RedisIO) (ev : MonitorEvent) (db : RedisDb) : list EventEnvelope :=
  match io_call io 0,
        fst (publish_script io (event_chain_id ev) (event_block_height ev) (event_to_json ev) db) with
  | NotSent, _ | _, None => []
  | _, Some (seq, epoch) =>
      [mkEventEnvelope (event_chain_id ev)
         (mkEventCursor (default 0 (z_parse epoch)) seq (event_block_height ev)) ev]
  end.

(** Redis, everything the script has stored, and one subscription: where it was
    asked to resume, its reading loop, and what it has delivered. *)
Record RedisWorld := mkRedisWorld {
  rw_db : RedisDb;
  rw_log : list EventEnvelope;
  rw_from : option EventCursor;
  rw_reader : option RedisReader;
  rw_seen : list EventEnvelope
}.

Definition redis_new : RedisWorld := mkRedisWorld (mkRedisDb [] (0, 0) None None) [] None None [].

(** Publishers, readers of the epoch, the operator's reset and the subscriber
    interleave; any command may fail.  A subscription ends when its loop does,
    and a consumer may subscribe again at any time. *)
Inductive redis_step : RedisWorld -> RedisWorld -> Prop :=
| rstep_publish io ev db log from r seen :
    redis_step (mkRedisWorld db log from r seen)
      (mkRedisWorld (snd (redis_publish io ev db)) (log ++ redis_published io ev db) from r seen)
| rstep_epoch io db log from r seen :
    redis_step (mkRedisWorld db log from r seen) (mkRedisWorld (snd (get_or_init_epoch io db)) log from r seen)
| rstep_bump io db log from r seen :
    redis_step (mkRedisWorld db log from r seen) (mkRedisWorld (snd (redis_bump_epoch io db)) log from r seen)
| rstep_subscribe io db db' log from from' r r' seen :
    redis_subscribe_from io from' db = (Ok r', db') ->
    redis_step (mkRedisWorld db log from r seen) (mkRedisWorld db' log from' (Some r') [])
| rstep_refused io db db' log from from' r e seen :
    redis_subscribe_from io from' db = (Err e, db') ->
    redis_step (mkRedisWorld db log from r seen) (mkRedisWorld db' log from' None [])
| rstep_yield io db log from r r' e seen :
    redis_next io db r = Yielded e r' ->
    redis_step (mkRedisWorld db log from (Some r) seen) (mkRedisWorld db log from (Some r') (seen ++ [e]))
| rstep_wait io db log from r r' seen :
    redis_next io db r = Waiting r' ->
    redis_step (mkRedisWorld db log from (Some r) seen) (mkRedisWorld db log from (Some r') seen)
| rstep_end io db log from r seen :
    redis_next io db r = Ended ->
    redis_step (mkRedisWorld db log from (Some r) seen) (mkRedisWorld db log from None seen).

Lemma redis_published_history io ev db log :
  redis_history db log -> redis_history (snd (redis_publish io ev db)) (log ++ redis_published io ev db).
Proof.
  intros Hh. destruct (publish_script_history io ev db log Hh) as (e & epoch & db1 & Hp & Hh1 & He).
  unfold redis_publish, redis_published, redis_call. destruct (io_call io 0); cbn beta iota zeta; rewrite ?Hp; cbn.
  - rewrite <- He. by destruct (parse_i64 epoch).
  - by rewrite app_nil_r.
  - by rewrite <- He.
Qed.

Lemma redis_published_length io ev db : (length (redis_published io ev db) <= 1)%nat.
Proof. unfold redis_published. destruct (publish_script _ _ _ _ db) as [[[? ?]|] ?], (io_call io 0); cbn; lia. Qed.

Lemma redis_bump_history io db log : redis_history db log -> redis_history (snd (redis_bump_epoch io db)) log.
Proof.
  intros Hh. unfold redis_bump_epoch, redis_call. destruct (io_call io 0); [|exact Hh|]; cbn;
    destruct Hh as (Hk & Hlast & Hseq & _ & Hs); (split; [done|]); do 2 (split; [done|]); (split; [|done]);
    intros t [= <-]; eauto.
Qed.

(** What was delivered stays a run of the log even when the loop has ended. *)
Definition redis_delivered (w : RedisWorld) : Prop :=
  redis_history (rw_db w) (rw_log w) /\
  exists r, delivered_from (rw_from w) (mkWorld (rw_db w) r (rw_seen w) (rw_log w)) /\
    forall r', rw_reader w = Some r' -> r' = r.

Lemma redis_step_delivered w w' : redis_step w w' -> redis_delivered w -> redis_delivered w'.
Proof.
  intros Hstep [Hh (r0 & Hd & Hr)].
  destruct Hstep as [io ev db log from r seen|io db log from r seen|io db log from r seen
    |io db db' log from from' r r' seen Hs|io db db' log from from' r e seen Hs
    |io db log from r r' e seen Hn|io db log from r r' seen Hn|io db log from r seen Hn]; cbn in *.
  - assert (Hh' := redis_published_history io ev db log Hh). split; [done|]. exists r0. split; [|done].
    eapply delivered_from_box; [apply redis_published_length | exact Hh' | exact Hd].
  - assert (Hh' : redis_history (snd (get_or_init_epoch io db)) log)
      by (destruct (get_or_init_epoch io db) eqn:Hg; by eapply get_or_init_epoch_history).
    split; [done|]. exists r0. split; [|done].
    rewrite <- (app_nil_r log). eapply delivered_from_box; [cbn; lia | by rewrite app_nil_r | exact Hd].
  - assert (Hh' := redis_bump_history io db log Hh). split; [done|]. exists r0. split; [|done].
    rewrite <- (app_nil_r log). eapply delivered_from_box; [cbn; lia | by rewrite app_nil_r | exact Hd].
  - destruct (redis_subscribe_position _ _ _ _ _ _ Hh Hs) as [Hh' Hp]. split; [done|]. exists r'.
    split; [by apply delivered_from_start | by intros ? [= <-]].
  - destruct (redis_subscribe_position _ _ _ _ _ _ Hh Hs) as [Hh' _]. split; [done|].
    exists (mkRedisReader false 0 (0, 0) (c ← from'; Some (ec_seq c + 1)) []). split; [|done].
    apply delivered_from_start; [done|]. split; [done|]. cbn. set_solver.
  - assert (r = r0) as -> by eauto. split; [done|]. exists r'. split; [|by intros ? [= <-]].
    eapply delivery_step_keeps; [by apply (ds_yield io) | exact Hd].
  - assert (r = r0) as -> by eauto. split; [done|]. exists r'. split; [|by intros ? [= <-]].
    eapply delivery_step_keeps; [by apply (ds_wait io) | exact Hd].
  - split; [done|]. by exists r0.
Qed.

(** C20. However publishers, resets of the epoch and the reading loop interleave
    on a Redis stream from its first event on, whatever commands fail or lose
    their replies and whatever the stream trims: what a subscription has
    delivered is a consecutive run of what the publish script stored, in order,
    none skipped and none twice, and resumed after a cursor it begins with the
    entry right after it; the stored entries are numbered 1, 2, 3 and so on. *)
Theorem redis_subscription_consecutive w :
  rtc redis_step redis_new w ->
  (forall i e, rw_log w !! i = Some e -> ec_seq (ee_cursor e) = 1 + Z.of_nat i) /\
  exists i, (forall j e, rw_seen w !! j = Some e -> rw_log w !! (i + j)%nat = Some e) /\
    (forall c e, rw_from w = Some c -> head (rw_seen w) = Some e -> ec_seq (ee_cursor e) = ec_seq c + 1).
Proof.
  intros Hrun. assert (Hd : redis_delivered w).
  { assert (Hinit : redis_delivered redis_new).
    { assert (Hh : redis_history (mkRedisDb [] (0, 0) None None) []).
      { split; [exists 0%nat; split; [done | by left]|]. do 2 (split; [done|]). by split. }
      split; [exact Hh|]. exists (mkRedisReader false 0 (0, 0) None []). split; [|done].
      apply delivered_from_start; [exact Hh|]. split; [done|]. cbn. set_solver. }
    clear - Hrun Hinit event_json_roundtrip maxlen_pos. induction Hrun; eauto using redis_step_delivered. }
  destruct Hd as [Hh (r & Hd & _)]. split; [apply Hh|].
  destruct (delivered_from_run _ _ Hd) as (i & Hseg & _ & Hfrom). by exists i.
Qed.

(** ** Resuming is exact *)

(** Everything a subscription delivers before it has to wait. *)
Fixpoint redis_drain (fuel : nat) (io : RedisIO) (db : RedisDb) (r : RedisReader) : list EventEnvelope :=
  match fuel with
  | O => []
  | S fuel' =>
      match redis_next io db r with
      | Yielded e r' => e :: redis_drain fuel' io db r'
      | _ => []
      end
  end.

(** The numbers of an envelope fit the types they are read back as. *)
Definition storable (e : EventEnvelope) : Prop :=
  - 2 ^ 63 <= ec_epoch (ee_cursor e) < 2 ^ 63 /\ - 2 ^ 63 <= ec_seq (ee_cursor e) < 2 ^ 63 /\
  0 <= ee_chain_id e <= u64_max /\ - 2 ^ 63 <= ec_block_height (ee_cursor e) < 2 ^ 63.

Lemma parse_entry_storable e :
  storable e ->
  parse_entry (entry_of e) =
    Some (ec_epoch (ee_cursor e), ec_seq (ee_cursor e), ee_chain_id e, ec_block_height (ee_cursor e),
          event_to_json (ee_event e)).
Proof.
  intros (H1 & H2 & H3 & H4). unfold parse_entry, entry_of, entry_fields. cbn [si_map].
  repeat (rewrite lookup_insert_eq || rewrite lookup_insert_ne by done). cbn [mbind option_bind].
  rewrite !parse_i64_to_string by done. cbn. by rewrite parse_u64_to_string.
Qed.

Definition numbered (log : list EventEnvelope) : Prop :=
  forall j e, log !! j = Some e -> ec_seq (ee_cursor e) = 1 + Z.of_nat j.

Lemma id_gt_entry log i n e :
  numbered log -> log !! i = Some e ->
  id_gt (si_id (entry_of e)) (Z.of_nat n, 0) = (n <=? i)%nat.
Proof.
  intros Hs He. unfold id_gt. cbn. rewrite (Hs i e He), andb_false_r, orb_false_r.
  destruct (Z.ltb_spec (Z.of_nat n) (1 + Z.of_nat i)), (Nat.leb_spec n i); try lia; done.
Qed.

Lemma filter_above (log : list EventEnvelope) n i :
  numbered log -> (i <= n)%nat ->
  List.filter (fun e => id_gt (si_id e) (Z.of_nat n, 0)) (entry_of <$> drop i log)
    = entry_of <$> drop n log.
Proof.
  intros Hs Hi. remember (length log - i)%nat as m eqn:Hm. revert i Hi Hm.
  induction m as [|m IH]; intros i Hi Hm.
  { rewrite !drop_ge by lia. done. }
  destruct (log !! i) as [e|] eqn:He; [|apply lookup_ge_None in He; lia].
  destruct (decide (i = n)) as [->|Hne].
  - clear IH. assert (Hall : forall x, In x (entry_of <$> drop n log) -> id_gt (si_id x) (Z.of_nat n, 0) = true).
    { intros x Hx. apply list_elem_of_In, list_elem_of_fmap in Hx as (y & -> & Hy).
      apply list_elem_of_lookup in Hy as [j Hj]. rewrite lookup_drop in Hj.
      rewrite (id_gt_entry log (n + j)) by done. apply Nat.leb_le. lia. }
    revert Hall. generalize (entry_of <$> drop n log). intros l.
    induction l as [|x l IHl]; intros Hall; [done|]. cbn. rewrite Hall by (by left).
    f_equal. apply IHl. intros. apply Hall. by right.
  - rewrite (drop_S log e i He), fmap_cons. cbn [List.filter].
    rewrite (id_gt_entry log i) by done. destruct (Nat.leb_spec n i); [lia|]. apply IH; lia.
Qed.

Definition all_answered (io : RedisIO) : Prop := forall i, io_call io i = Answered.

Lemma redis_drain_from io db log fuel n ep t b cn :
  redis_history db log -> all_answered io -> (forall e, e ∈ log -> storable e) ->
  rs_epoch db = Some t -> parse_i64 t = Some ep ->
  (exists k, rs_stream db = entry_of <$> drop k log /\ (k <= n)%nat) ->
  (exists m, b = entry_of <$> take m (drop n log)) -> (length log - n < fuel)%nat ->
  redis_drain fuel io db (mkRedisReader cn ep (Z.of_nat n, 0) (Some (Z.of_nat n + 1)) b) = drop n log.
Proof.
  intros Hh Hio Hst Ht Hep (k & Hk & Hkn). revert n Hkn b cn.
  assert (Hs : numbered log) by (destruct Hh as (_ & _ & _ & _ & Hs); exact Hs).
  induction fuel as [|fuel IH]; intros n Hkn b cn Hb Hf; [lia|]. cbn [redis_drain].
  assert (Hy : exists cn' m, redis_next io db (mkRedisReader cn ep (Z.of_nat n, 0) (Some (Z.of_nat n + 1)) b)
     = next_entry (mkRedisReader cn' ep (Z.of_nat n, 0) (Some (Z.of_nat n + 1))
                     (entry_of <$> take (S m) (drop n log)))).
  { unfold redis_next. cbn [rr_batch rr_connected rr_epoch rr_last_id rr_expected_seq].
    destruct Hb as [m Hb]. destruct b as [|x b].
    - unfold epoch_unchanged. rewrite !Hio, Ht, bool_decide_true by done.
      exists true, 499%nat. rewrite andb_false_r. cbn [negb]. do 2 f_equal.
      unfold xread. rewrite Hk, filter_above by done. by rewrite fmap_take.
    - destruct m as [|m]; [discriminate|]. rewrite Hb. by exists cn, m. }
  destruct Hy as (cn' & m & ->). clear Hb b.
  destruct (log !! n) as [e|] eqn:He.
  - rewrite (drop_S log e n He), firstn_cons, fmap_cons. unfold next_entry. cbn [rr_batch rr_expected_seq].
    rewrite parse_entry_storable by (by eapply Hst, list_elem_of_lookup_2).
    rewrite (Hs n e He). cbn [is_seq_gap].
    replace (1 + Z.of_nat n =? Z.of_nat n + 1) with true by (symmetry; apply Z.eqb_eq; lia).
    cbn [negb]. rewrite event_json_roundtrip, <- (Hs n e He).
    destruct e as [ch [epo sq h] ev]. cbn [ee_cursor ec_epoch ec_seq ec_block_height ee_chain_id ee_event entry_of si_id].
    f_equal. specialize (Hs n _ He). cbn in Hs. cbn [rr_connected rr_epoch].
    pose proof (lookup_lt_Some _ _ _ He).
    replace sq with (Z.of_nat (S n)) by lia. apply IH; [lia | by exists m | lia].
  - apply lookup_ge_None in He. rewrite drop_ge, take_nil by lia. done.
Qed.

Lemma head_stream db log k :
  numbered log -> rs_stream db = entry_of <$> drop k log ->
  match fst ∘ si_id <$> head (rs_stream db) with
  | Some o => o = 1 + Z.of_nat k /\ (k < length log)%nat
  | None => (length log <= k)%nat
  end.
Proof.
  intros Hs ->. destruct (log !! k) as [e|] eqn:He.
  - rewrite (drop_S log e k He). cbn. split; [by apply Hs | by eapply lookup_lt_Some].
  - apply lookup_ge_None in He. by rewrite drop_ge by lia.
Qed.

(** Resuming the Redis stream is exact.  While Redis answers, a cursor of
    the outbox's own epoch is either refused, because the entry after it was
    already trimmed, or resumed, and then every entry published after it is
    delivered in order; a cursor of another epoch is always refused. *)
Theorem redis_resume_exact io db log c t ep :
  redis_history db log -> all_answered io -> (forall e, e ∈ log -> storable e) ->
  rs_epoch db = Some t -> parse_i64 t = Some ep -> 0 <= ec_seq c ->
  match redis_subscribe_from io (Some c) db with
  | (Ok r, db') => db' = db /\ ec_epoch c = ep /\
      redis_drain (S (length log)) io db r = drop (Z.to_nat (ec_seq c)) log
  | (Err _, db') => db' = db /\
      (ec_epoch c <> ep \/ exists e, head (rs_stream db) = Some e /\ ec_seq c + 1 < (si_id e).1)
  end.
Proof.
  intros Hh Hio Hst Ht Hep Hc. unfold redis_subscribe_from, get_or_init_epoch, redis_call.
  rewrite Hio, Ht. unfold parse_epoch. rewrite Hep. cbn [negb].
  destruct (Z.eqb_spec (ec_epoch c) ep) as [He|He]; cbn [negb]; [|auto].
  unfold oldest_retained_seq. rewrite Hio.
  pose proof Hh as ((k & Hk & Hkl) & _ & _ & _ & Hs). pose proof (head_stream db log k Hs Hk) as Hhd.
  remember (S (length log)) as fuel eqn:Hfuel.
  destruct (head (rs_stream db)) as [h|] eqn:Hhead; cbn in Hhd |- *.
  - destruct (Z.ltb_spec (ec_seq c + 1) (si_id h).1) as [Hlt|Hge]; [eauto|].
    split; [done|]. split; [done|].
    replace (ec_seq c) with (Z.of_nat (Z.to_nat (ec_seq c))) at 1 2 by lia.
    eapply redis_drain_from; try done; [exists k; split; [done|lia] | by exists 0%nat | lia].
  - split; [done|]. split; [done|]. destruct Hkl as [->|?]; [|lia].
    replace (ec_seq c) with (Z.of_nat (Z.to_nat (ec_seq c))) at 1 2 by lia.
    eapply redis_drain_from; try done; [|by exists 0%nat|cbn in *; lia].
    exists 0%nat. split; [by rewrite Hk, !drop_nil | lia].
Qed.
End Redis.

(** ** A concrete rendering of events, and the theorem on a small stream *)

Definition EventCode : Type := Z * list Z * list Z * list Z * list (Z * Z * option Z) * string.

Definition option_list {A} (o : option A) : list A := match o with Some a => [a] | None => [] end.

Definition event_code (e : MonitorEvent) : EventCode :=
  match e with
  | EvPaymentDetected p =>
      (0, [pd_chain_id p; pd_invoice_id p; pd_payment_address p; pd_amount p; pd_tx_hash p;
           pd_block_number p; pd_block_hash p; Z.b2z (pd_is_native p); pd_from_address p;
           pd_confirmations p; pd_required_confirmations p; pd_detected_at p],
       option_list (pd_log_index p), option_list (pd_token_address p), [], "")
  | EvPaymentConfirmed c =>
      (1, [pc_tx_index c; pc_chain_id c; pc_invoice_id c; pc_payment_address c; pc_amount c;
           pc_tx_hash c; pc_block_number c; pc_confirmations c; pc_confirmed_at c], [], [], [], "")
  | EvReorgDetected r =>
      (2, [rd_chain_id r; rd_fork_block r; rd_old_hash r; rd_new_hash r; rd_depth r;
           Z.b2z (rd_survivors_verifiable r); rd_detected_at r],
       rd_affected_invoices r, rd_survived_tx_hashes r, [], "")
  | EvMonitorStarted c => (3, [c], [], [], [], "")
  | EvMonitorStopped c => (4, [c], [], [], [], "")
  | EvMonitorError c m => (5, [c], [], [], [], m)
  | EvAddressWatched w =>
      (6, [aw_chain_id w; aw_address w; aw_invoice_id w; aw_watched_at w], [], [], [], "")
  | EvAddressUnwatched w =>
      (7, [au_chain_id w; au_address w], option_list (au_invoice_id w), [], [], "")
  | EvStatusReport s =>
      (8, [sr_chain_id s; Z.of_nat (sr_watched_count s); sr_current_block s; sr_reported_at s], [], [],
       (fun i => (wai_address i, wai_invoice_id i, wai_token_contract i)) <$> sr_addresses s, "")
  end.

Definition event_decode (c : EventCode) : option MonitorEvent :=
  match c with
  | (0, [a; b; c; d; e; f; g; h; i; j; k; l], li, tk, _, _) =>
      Some (EvPaymentDetected (mkPaymentDetected a b c d e f g (head li) (h =? 1) (head tk) i j k l))
  | (1, [a; b; c; d; e; f; g; h; i], _, _, _, _) =>
      Some (EvPaymentConfirmed (mkPaymentConfirmed a b c d e f g h i))
  | (2, [a; b; c; d; e; f; g], inv, sv, _, _) =>
      Some (EvReorgDetected (mkReorgDetected a b c d e inv sv (f =? 1) g))
  | (3, [c], _, _, _, _) => Some (EvMonitorStarted c)
  | (4, [c], _, _, _, _) => Some (EvMonitorStopped c)
  | (5, [c], _, _, _, m) => Some (EvMonitorError c m)
  | (6, [a; b; c; d], _, _, _, _) => Some (EvAddressWatched (mkAddressWatched a b c d))
  | (7, [a; b], inv, _, _, _) => Some (EvAddressUnwatched (mkAddressUnwatched a b (head inv)))
  | (8, [a; b; c; d], _, _, l, _) =>
      Some (EvStatusReport (mkStatusReport a (Z.to_nat b) c
        ((fun '(x, y, z) => mkWatchedAddressInfo x y z) <$> l) d))
  | _ => None
  end.

Lemma event_decode_code e : event_decode (event_code e) = Some e.
Proof.
  assert (Hh : forall o : option Z, head (option_list o) = o) by (by intros []).
  assert (Hb : forall b, (Z.b2z b =? 1) = b) by (by intros []).
  destruct e as [[]|[]|[]| | | |[]|[]|[]]; cbn; rewrite ?Hh, ?Hb; try reflexivity.
  rewrite Nat2Z.id, <- list_fmap_compose. do 3 f_equal. clear Hh Hb.
  induction sr_addresses as [|[] l IH]; cbn; [done|]. f_equal. exact IH.
Qed.

#[export] Instance MonitorEvent_eq_dec : EqDecision MonitorEvent.
Proof.
  intros a b. destruct (decide (event_code a = event_code b)) as [He|He].
  - left. apply (f_equal event_decode) in He. rewrite !event_decode_code in He. congruence.
  - right. congruence.
Defined.

#[export] Instance MonitorEvent_countable : Countable MonitorEvent :=
  inj_countable event_code event_decode event_decode_code.

Definition demo_to_json (e : MonitorEvent) : string := z_to_string (Z.pos (encode e)).
Definition demo_from_json (s : string) : option MonitorEvent := z ← z_parse s; decode (Z.to_pos z).

Lemma demo_json_roundtrip e : demo_from_json (demo_to_json e) = Some e.
Proof. unfold demo_from_json, demo_to_json. rewrite z_parse_to_string. cbn. apply decode_encode. Qed.

Definition demo_io : RedisIO := mkRedisIO (fun _ => Answered) 77 0.
Definition demo_db : RedisDb :=
  snd (redis_publish demo_to_json 10 demo_io (EvMonitorStopped 1)
    (snd (redis_publish demo_to_json 10 demo_io (EvMonitorStarted 1) (mkRedisDb [] (0, 0) None None)))).
Definition demo_redis_log : list EventEnvelope :=
  [mkEventEnvelope 1 (mkEventCursor 77 1 0) (EvMonitorStarted 1);
   mkEventEnvelope 1 (mkEventCursor 77 2 0) (EvMonitorStopped 1)].

Lemma demo_db_history : redis_history demo_to_json demo_db demo_redis_log.
Proof.
  split; [exists 0%nat; split; [by vm_compute | right; cbn; lia]|].
  split; [by vm_compute|]. split; [by vm_compute|]. split.
  - intros t Ht. exists 77. vm_compute in Ht. injection Ht as <-. by vm_compute.
  - intros [|[|i]] e He; cbn in He; simplify_eq; reflexivity.
Qed.

Lemma redis_resume_exact_witness :
  match redis_subscribe_from demo_io (Some (mkEventCursor 77 1 0)) demo_db with
  | (Ok r, db') => db' = demo_db /\ 77 = 77 /\
      redis_drain demo_from_json (S (length demo_redis_log)) demo_io demo_db r
        = drop (Z.to_nat 1) demo_redis_log
  | (Err _, db') => db' = demo_db /\
      (77 <> 77 \/ exists e, head (rs_stream demo_db) = Some e /\ 1 + 1 < (si_id e).1)
  end.
Proof.
  apply (redis_resume_exact demo_to_json demo_from_json 10 demo_json_roundtrip
           ltac:(lia) demo_io demo_db demo_redis_log (mkEventCursor 77 1 0) "77" 77 demo_db_history);
    [done | | by vm_compute | by vm_compute | done].
  intros e [->|[->|[]%not_elem_of_nil]%elem_of_cons]%elem_of_cons; by vm_compute.
Defined.

(** A publisher whose second reply is lost, and a consumer resumed after the
    first entry. *)
Definition demo_lost : RedisIO := mkRedisIO (fun _ => ReplyLost) 78 0.

Definition demo_resume : EventCursor := mkEventCursor 77 1 0.
Definition demo_db1 : RedisDb :=
  snd (redis_publish demo_to_json 10 demo_io (EvMonitorStarted 1) (rw_db redis_new)).
Definition demo_db2 : RedisDb := snd (redis_publish demo_to_json 10 demo_lost (EvMonitorStopped 1) demo_db1).
Definition demo_sub : RedisReader :=
  match fst (redis_subscribe_from demo_io (Some demo_resume) demo_db2) with
  | Ok r => r
  | Err _ => mkRedisReader false 0 (0, 0) None []
  end.
Definition demo_second : EventEnvelope := mkEventEnvelope 1 (mkEventCursor 77 2 0) (EvMonitorStopped 1).
Definition demo_sub' : RedisReader :=
  match redis_next demo_from_json demo_io demo_db2 demo_sub with Yielded _ r => r | _ => demo_sub end.

Definition demo_published (db : RedisDb) (log : list EventEnvelope) : RedisWorld := mkRedisWorld db log None None [].
Definition demo_log1 : list EventEnvelope :=
  [] ++ redis_published demo_to_json 10 demo_io (EvMonitorStarted 1) (rw_db redis_new).
Definition demo_log2 : list EventEnvelope :=
  demo_log1 ++ redis_published demo_to_json 10 demo_lost (EvMonitorStopped 1) demo_db1.
Definition demo_stream : RedisWorld :=
  mkRedisWorld demo_db2 demo_log2 (Some demo_resume) (Some demo_sub') ([] ++ [demo_second]).

Lemma redis_subscription_consecutive_witness :
  (rw_log demo_stream, rw_seen demo_stream) = (demo_redis_log, drop 1 demo_redis_log) /\
  (forall i e, rw_log demo_stream !! i = Some e -> ec_seq (ee_cursor e) = 1 + Z.of_nat i) /\
  exists i, (forall j e, rw_seen demo_stream !! j = Some e -> rw_log demo_stream !! (i + j)%nat = Some e) /\
    (forall c e, rw_from demo_stream = Some c -> head (rw_seen demo_stream) = Some e ->
       ec_seq (ee_cursor e) = ec_seq c + 1).
Proof.
  split; [by vm_compute|].
  apply (redis_subscription_consecutive demo_to_json demo_from_json 10 demo_json_roundtrip ltac:(lia)).
  apply (rtc_l _ _ (demo_published demo_db1 demo_log1)).
  { exact (rstep_publish _ _ _ demo_io (EvMonitorStarted 1) _ _ _ _ _). }
  apply (rtc_l _ _ (demo_published demo_db2 demo_log2)).
  { exact (rstep_publish _ _ _ demo_lost (EvMonitorStopped 1) _ _ _ _ _). }
  apply (rtc_l _ _ (mkRedisWorld demo_db2 demo_log2 (Some demo_resume) (Some demo_sub) [])).
  { apply (rstep_subscribe _ _ _ demo_io). vm_compute. reflexivity. }
  apply rtc_once. apply (rstep_yield _ _ _ demo_io). vm_compute. reflexivity.
Defined.
