(* ===== verification/Decimal.v ===== *)
(** * Decimals, text formats and settlement

    The arbitrary-precision decimal library and the text formats of the
    Ethereum primitives are not part of the repository; they are the classes
    [BigDecimal] and [Formats], with what the code relies on as the classes
    [BigDecimalLaws], [NumericLaws] and [FormatLaws].  On top of them: the
    settlement rules of [server/src/services/settlement.rs] and the amount
    conversions of [event_consumer/mod.rs]. *)

From stdpp Require Import gmap strings list.
From Stdlib Require Import ZArith QArith Qpower Qround Qabs Lia Lqa.
From S2P Require Import Prelude.

#[local] Open Scope Z_scope.

(** ** The decimal library *)

Class BigDecimal (D : Type) := {
  bd_parse : string -> option D;
  bd_to_string : D -> string;
  bd_of_Z : Z -> D;
  bd_add : D -> D -> D;
  bd_sub : D -> D -> D;
  bd_mul : D -> D -> D;
  bd_div : D -> D -> D;
  bd_powi : D -> Z -> D;
  bd_leb : D -> D -> bool;
  (** [with_scale_round(scale, HalfUp)] *)
  bd_with_scale_round : D -> Z -> D;
  bd_normalized : D -> D;
  bd_to_plain_string : D -> string
}.

(** Exact rationals that a decimal of at most 100 significant digits holds:
    the precision division runs at. *)
Definition within_precision (q : Q) : Prop :=
  exists n k, 0 <= k /\ Z.abs n < 10 ^ 100 /\ (q == inject_Z n / inject_Z (10 ^ k))%Q.

(** What the code relies on: parsing, addition, subtraction, multiplication and
    comparison are exact; dividing by a power of ten is exact at the working
    precision. *)
Class BigDecimalLaws (D : Type) `{BigDecimal D} := {
  bd_value : D -> Q;
  bd_value_of_Z z : (bd_value (bd_of_Z z) == inject_Z z)%Q;
  bd_value_add a b : (bd_value (bd_add a b) == bd_value a + bd_value b)%Q;
  bd_value_sub a b : (bd_value (bd_sub a b) == bd_value a - bd_value b)%Q;
  bd_value_mul a b : (bd_value (bd_mul a b) == bd_value a * bd_value b)%Q;
  bd_value_powi a k : 0 <= k -> (bd_value (bd_powi a k) == bd_value a ^ k)%Q;
  bd_value_div_pow10 a b k :
    0 <= k -> (bd_value b == inject_Z (10 ^ k))%Q -> within_precision (bd_value a / bd_value b) ->
    (bd_value (bd_div a b) == bd_value a / bd_value b)%Q;
  bd_leb_spec a b : bd_leb a b = true <-> (bd_value a <= bd_value b)%Q;
  bd_parse_Z z : exists d, bd_parse (z_to_string z) = Some d /\ (bd_value d == inject_Z z)%Q;
  bd_parse_literal_0_1 : exists d, bd_parse "0.1" = Some d /\ (bd_value d == 1 # 10)%Q;
  bd_parse_literal_0_0001 : exists d, bd_parse "0.0001" = Some d /\ (bd_value d == 1 # 10000)%Q
}.

(** ** Settlement tolerance *)

Definition DEFAULT_TOLERANCE_PERCENT : string := "0.0001".
Definition MAX_TOLERANCE_PERCENT : string := "0.1".

Definition is_space (a : Ascii.ascii) : bool :=
  let n := Ascii.nat_of_ascii a in
  (n =? 32)%nat || ((9 <=? n) && (n <=? 13))%nat.

Fixpoint trim_start (s : string) : string :=
  match s with
  | String a rest => if is_space a then trim_start rest else s
  | EmptyString => EmptyString
  end.

Fixpoint trim_end (s : string) : string :=
  match s with
  | EmptyString => EmptyString
  | String a rest =>
      match trim_end rest with
      | EmptyString => if is_space a then EmptyString else String a EmptyString
      | rest' => String a rest'
      end
  end.

(** [str::trim], on ASCII text. *)
Definition trim (s : string) : string := trim_end (trim_start s).

Section Settlement.
Context {D : Type} `{BigDecimal D}.

(** [a >= b], [a < b], [a > b] *)
Definition bd_geb (a b : D) : bool := bd_leb b a.
Definition bd_ltb (a b : D) : bool := negb (bd_leb b a).

(** [parse_tolerance_percent] *)
Definition parse_tolerance_percent (raw : string) : result string D :=
  match bd_parse (trim raw) with
  | None => Err "Tolerance is not a number"
  | Some value =>
      if bd_ltb value (bd_of_Z 0) then Err "Tolerance cannot be negative"
      else
        match bd_parse MAX_TOLERANCE_PERCENT with
        | None => Err "Invalid ceiling"
        | Some max =>
            if bd_ltb max value then Err "Tolerance exceeds the maximum allowed" else Ok value
        end
  end.

(** [effective_tolerance] *)
Definition effective_tolerance (store_setting : option string) : result string (D * string) :=
  match store_setting with
  | Some raw =>
      match parse_tolerance_percent raw with
      | Ok v => Ok (v, "store")
      | Err e => Err ("Stored tolerance '" +:+ raw +:+ "' is invalid: " +:+ e)
      end
  | None =>
      match bd_parse DEFAULT_TOLERANCE_PERCENT with
      | Some v => Ok (v, "default")
      | None => Err "invalid decimal"
      end
  end.

(** [is_fully_paid] *)
Definition is_fully_paid (received expected tolerance_percent : D) : bool :=
  let allowance := bd_div (bd_mul expected tolerance_percent) (bd_of_Z 100) in
  bd_geb (bd_add received allowance) expected.

(** ** Amount conversion *)

(** [EventConsumer::compute_decimal_divisor] *)
Definition compute_decimal_divisor (decimals : Z) : D := bd_powi (bd_of_Z 10) decimals.

(** [EventConsumer::format_amount] *)
Definition format_amount (value : D) : string :=
  bd_to_plain_string (bd_normalized (bd_with_scale_round value 18)).

Definition bd_is_zero (d : D) : bool := bd_leb d (bd_of_Z 0) && bd_leb (bd_of_Z 0) d.

(** [EventConsumer::convert_payment_to_invoice_currency] *)
Definition convert_payment_to_invoice_currency (raw_amount rate_str : string) (decimals : Z)
  : result string string :=
  match bd_parse raw_amount with
  | None => Err ("Invalid raw amount '" +:+ raw_amount +:+ "'")
  | Some raw =>
      match bd_parse rate_str with
      | None => Err ("Invalid rate '" +:+ rate_str +:+ "'")
      | Some rate =>
          if bd_is_zero rate then Err "Rate is zero, cannot convert"
          else
            let divisor := compute_decimal_divisor decimals in
            let human_amount := bd_div raw divisor in
            let invoice_amount := bd_div human_amount rate in
            Ok (format_amount invoice_amount)
      end
  end.

(** [EventConsumer::convert_smallest_to_human] *)
Definition convert_smallest_to_human (raw_amount : string) (decimals : Z) : result string string :=
  match bd_parse raw_amount with
  | None => Err ("Invalid raw amount '" +:+ raw_amount +:+ "'")
  | Some raw =>
      let divisor := compute_decimal_divisor decimals in
      let human_amount := bd_div raw divisor in
      Ok (format_amount human_amount)
  end.
End Settlement.

(** ** Numeric columns

    [NUMERIC(78,18)] columns are integers in units of 10^-18.  [numeric18_in]
    is the cast of text, [numeric18_out] the cast back to text. *)

Class Numeric := {
  numeric18_in : string -> option Z;
  numeric18_out : Z -> string
}.

Class NumericLaws (D : Type) `{BigDecimalLaws D, Numeric} := {
  (** Text read from a column parses to the column's value. *)
  numeric18_out_parse z :
    exists d, bd_parse (numeric18_out z) = Some d /\
      (bd_value d == inject_Z z / inject_Z (10 ^ 18))%Q;
  (** A decimal with at most 18 decimals is stored as it was formatted. *)
  numeric18_in_format (d : D) z :
    Z.abs z < 10 ^ 78 -> (bd_value d == inject_Z z / inject_Z (10 ^ 18))%Q ->
    numeric18_in (format_amount d) = Some z;
  (** Text read from a column has no white space around it. *)
  numeric18_out_trim z : trim (numeric18_out z) = numeric18_out z
}.

(** ** Text formats of the Ethereum primitives, UUIDs and CAIP-2 chain ids *)

Class Formats := {
  chain_id_evm : Z -> string;
  evm_chain_id : string -> option Z;
  fmt_address : Z -> string;
  fmt_b256 : Z -> string;
  parse_address : string -> option Z;
  parse_b256 : string -> option Z;
  uuid_to_string : Z -> string
}.

Fixpoint has_colon (s : string) : bool :=
  match s with
  | EmptyString => false
  | String a rest => Ascii.eqb a (Ascii.ascii_of_nat 58) || has_colon rest
  end.

Lemma uint_no_colon d : has_colon (DecimalString.NilEmpty.string_of_uint d) = false.
Proof. by induction d. Qed.

Lemma z_to_string_no_colon z : has_colon (z_to_string z) = false.
Proof.
  assert (Hz : forall d, has_colon (DecimalString.NilZero.string_of_uint d) = false)
    by (intros d; destruct d; [done|apply (uint_no_colon (_ d))..]).
  unfold z_to_string. destruct (Z.to_int z) as [d|d]; [apply Hz | apply Hz].
Qed.

Class FormatLaws `{Formats} := {
  evm_chain_id_roundtrip n : evm_chain_id (chain_id_evm n) = Some n;
  parse_address_fmt a : parse_address (fmt_address a) = Some a;
  parse_b256_fmt h : parse_b256 (fmt_b256 h) = Some h;
  uuid_to_string_inj u v : uuid_to_string u = uuid_to_string v -> u = v;
  uuid_to_string_no_colon u : has_colon (uuid_to_string u) = false
}.

(** ** Theorems *)

Section SettlementFacts.
Context {D : Type} `{BigDecimalLaws D}.

Lemma bd_geb_spec (a b : D) : bd_geb a b = true <-> (bd_value b <= bd_value a)%Q.
Proof. apply bd_leb_spec. Qed.

Lemma bd_ltb_spec (a b : D) : bd_ltb a b = true <-> (bd_value a < bd_value b)%Q.
Proof.
  unfold bd_ltb. rewrite negb_true_iff, <- not_true_iff_false, bd_leb_spec.
  split; [apply Qnot_le_lt | apply Qlt_not_le].
Qed.

(** The allowance the code computes is exact. *)
Lemma allowance_exact (e t : D) :
  within_precision (bd_value e * bd_value t / 100) ->
  (bd_value (bd_div (bd_mul e t) (bd_of_Z 100)) == bd_value e * bd_value t / 100)%Q.
Proof.
  intros Hw. assert (H100 : (bd_value (bd_of_Z 100) == inject_Z (10 ^ 2))%Q) by (rewrite bd_value_of_Z; reflexivity).
  rewrite (bd_value_div_pow10 _ _ 2); [|lia|done|].
  - rewrite bd_value_mul, H100. reflexivity.
  - destruct Hw as (n & k & Hk & Hn & Hq). exists n, k. split; [done|]. split; [done|].
    rewrite bd_value_mul, H100. exact Hq.
Qed.

(** An invoice counts as fully paid exactly when the shortfall is at most
    the tolerated percentage of the invoice amount; the boundary is
    inclusive. *)
Theorem is_fully_paid_exact (received expected tolerance : D) :
  within_precision (bd_value expected * bd_value tolerance / 100) ->
  is_fully_paid received expected tolerance = true <->
  (bd_value expected - bd_value received <= bd_value expected * bd_value tolerance / 100)%Q.
Proof.
  intros Hw. unfold is_fully_paid. rewrite bd_geb_spec, bd_value_add, allowance_exact by done.
  split; intros; lra.
Qed.

Lemma parse_tolerance_ok raw (t : D) :
  parse_tolerance_percent raw = Ok t -> (0 <= bd_value t <= 1 # 10)%Q.
Proof.
  unfold parse_tolerance_percent. destruct (bd_parse (trim raw)) as [v|]; [|discriminate].
  destruct (bd_ltb v (bd_of_Z 0)) eqn:Hneg; [discriminate|].
  destruct bd_parse_literal_0_1 as (m & Hm & Hmv). unfold MAX_TOLERANCE_PERCENT. rewrite Hm.
  destruct (bd_ltb m v) eqn:Hmax; [discriminate|]. intros [= <-].
  apply not_true_iff_false in Hneg, Hmax. rewrite bd_ltb_spec in Hneg, Hmax.
  apply Qnot_lt_le in Hneg, Hmax. rewrite bd_value_of_Z in Hneg. rewrite Hmv in Hmax. done.
Qed.

(** A tolerance percentage is accepted exactly when it is a number
    between zero and the ceiling of 0.1 percent, and is kept unchanged:
    refused, never clamped. *)
Theorem tolerance_refused_not_clamped raw :
  match bd_parse (trim raw) with
  | None => is_ok (parse_tolerance_percent (D:=D) raw) = false
  | Some v =>
      (parse_tolerance_percent raw = Ok v <-> (0 <= bd_value v <= 1 # 10)%Q) /\
      (is_ok (parse_tolerance_percent (D:=D) raw) = true -> parse_tolerance_percent raw = Ok v)
  end.
Proof.
  pose proof (parse_tolerance_ok raw) as Hok. revert Hok. unfold parse_tolerance_percent.
  destruct (bd_parse (trim raw)) as [v|]; [|done]. intros Hok. split; [split|].
  - apply Hok.
  - intros [Hlo Hhi]. destruct (bd_ltb v (bd_of_Z 0)) eqn:Hneg.
    { apply bd_ltb_spec in Hneg. rewrite bd_value_of_Z in Hneg. exfalso. apply Qlt_not_le in Hneg. done. }
    destruct bd_parse_literal_0_1 as (m & Hm & Hmv). unfold MAX_TOLERANCE_PERCENT. rewrite Hm.
    destruct (bd_ltb m v) eqn:Hmax; [|done].
    apply bd_ltb_spec in Hmax. rewrite Hmv in Hmax. exfalso. apply Qlt_not_le in Hmax. done.
  - destruct (bd_ltb v (bd_of_Z 0)); [done|]. destruct (bd_parse MAX_TOLERANCE_PERCENT); [|done].
    by destruct (bd_ltb _ _).
Qed.

Lemma effective_tolerance_range setting (t : D) src :
  effective_tolerance setting = Ok (t, src) -> (0 <= bd_value t <= 1 # 10)%Q.
Proof.
  unfold effective_tolerance. destruct setting as [raw|].
  - destruct (parse_tolerance_percent raw) eqn:Hp; [|discriminate]. intros [= <- <-].
    by eapply parse_tolerance_ok.
  - destruct bd_parse_literal_0_0001 as (v & Hv & Hvv). unfold DEFAULT_TOLERANCE_PERCENT. rewrite Hv.
    intros [= <- <-]. rewrite Hvv. by vm_compute.
Qed.

(** Whatever a store configures, an invoice that counts as fully paid is
    short by at most a tenth of a percent of its amount. *)
Theorem settlement_shortfall_bounded setting (received expected tolerance : D) src :
  effective_tolerance setting = Ok (tolerance, src) ->
  (0 <= bd_value expected)%Q ->
  within_precision (bd_value expected * bd_value tolerance / 100) ->
  is_fully_paid received expected tolerance = true ->
  (bd_value expected - bd_value received <= bd_value expected * (1 # 1000))%Q.
Proof.
  intros Ht%effective_tolerance_range He Hw. unfold is_fully_paid.
  rewrite bd_geb_spec, bd_value_add, allowance_exact by done. intros Hp.
  assert (bd_value expected * bd_value tolerance <= bd_value expected * (1 # 10))%Q.
  { rewrite !(Qmult_comm (bd_value expected)). apply Qmult_le_compat_r; [apply Ht | done]. }
  assert (Hdiv : (bd_value expected * bd_value tolerance / 100 ==
                  (1 # 100) * (bd_value expected * bd_value tolerance))%Q) by field.
  rewrite Hdiv in Hp. lra.
Qed.
End SettlementFacts.

Section ConversionFacts.
Context {D : Type} `{NumericLaws D}.

(** Crediting an asset-denominated payment loses nothing: for an asset of
    at most 18 decimals, the credited amount stored for [amount] smallest
    units is exactly [amount / 10^decimals]. *)
Theorem convert_smallest_to_human_exact amount decimals :
  0 <= decimals <= 18 -> 0 <= amount -> amount * 10 ^ (18 - decimals) < 10 ^ 78 ->
  exists text, convert_smallest_to_human (D:=D) (z_to_string amount) decimals = Ok text /\
    numeric18_in text = Some (amount * 10 ^ (18 - decimals)).
Proof.
  intros Hd Ha Hmax. unfold convert_smallest_to_human.
  destruct (bd_parse_Z amount) as (raw & -> & Hraw). eexists. split; [reflexivity|].
  apply numeric18_in_format; [nia|].
  assert (Hten : (bd_value (compute_decimal_divisor (D:=D) decimals) == inject_Z (10 ^ decimals))%Q).
  { unfold compute_decimal_divisor. rewrite bd_value_powi by lia. rewrite bd_value_of_Z.
    symmetry. apply Zpower_Qpower. lia. }
  assert (Hpow : 10 ^ 18 = 10 ^ (18 - decimals) * 10 ^ decimals).
  { rewrite <- Z.pow_add_r by lia. f_equal. lia. }
  assert (0 < 10 ^ decimals) by (apply Z.pow_pos_nonneg; lia).
  assert (0 < 10 ^ (18 - decimals)) by (apply Z.pow_pos_nonneg; lia).
  rewrite (bd_value_div_pow10 _ _ decimals); [| lia | done |].
  - rewrite Hraw, Hten, Hpow, !inject_Z_mult. field.
    split; intros Hz; change 0%Q with (inject_Z 0) in Hz; rewrite inject_Z_injective in Hz; lia.
  - exists amount, decimals. split; [lia|]. split; [|by rewrite Hraw, Hten].
    assert (amount < 10 ^ 78) by nia. assert (10 ^ 78 < 10 ^ 100) by (apply Z.pow_lt_mono_r; lia). lia.
Qed.
End ConversionFacts.
