(* ===== verification/Database.v ===== *)
(** * The database

    The tables of [data-service/migrations/postgres] that the payment path
    reads and writes, the trigger on [payments], and the repository methods of
    [data-service/src/postgres] as state transformers on them.

    A statement runs at one instant and either applies as a whole or not at
    all.  A call to the database may also fail on the way there or on the way
    back ([Call]), whatever the state. *)

From stdpp Require Import gmap strings list.
From Stdlib Require Import ZArith Lia.
From S2P Require Import Prelude Events Network Decimal.

(** ** Data *)

Inductive InvoiceStatus : Type :=
| Pending | Processing | PartiallyPaid | LatePaid | Paid | Expired | Cancelled | Refunded.

#[export] Instance InvoiceStatus_eq_dec : EqDecision InvoiceStatus.
Proof. solve_decision. Defined.

Inductive RepositoryError : Type :=
| NotFound (msg : string)
| Database (msg : string)
| InvalidRow (msg : string)
| Conflict (msg : string).

(** [status_to_db] *)
Definition status_to_db (status : InvoiceStatus) : string :=
  match status with
  | Pending => "pending"
  | Processing => "processing"
  | PartiallyPaid => "partially_paid"
  | LatePaid => "late_paid"
  | Paid => "paid"
  | Expired => "expired"
  | Cancelled => "cancelled"
  | Refunded => "refunded"
  end.

(** [try_db_to_status] *)
Definition try_db_to_status (s : string) : result RepositoryError InvoiceStatus :=
  if String.eqb s "pending" then Ok Pending
  else if String.eqb s "processing" then Ok Processing
  else if String.eqb s "partially_paid" then Ok PartiallyPaid
  else if String.eqb s "late_paid" then Ok LatePaid
  else if String.eqb s "paid" then Ok Paid
  else if String.eqb s "expired" then Ok Expired
  else if String.eqb s "cancelled" then Ok Cancelled
  else if String.eqb s "refunded" then Ok Refunded
  else Err (InvalidRow ("Unknown invoice status in database: " +:+ s)).

Inductive AssetType := Native | ERC20.

Definition asset_type_to_db (t : AssetType) : string :=
  match t with Native => "native" | ERC20 => "erc20" end.

Definition db_to_asset_type (s : string) : AssetType :=
  if String.eqb s "erc20" then ERC20 else Native.

(** [serde_json::Value], as the code looks into it. *)
Inductive Json : Type :=
| JNull
| JBool (b : bool)
| JString (s : string)
| JObject (fields : list (string * Json))
| JOther.

(** [Value::get] *)
Fixpoint assoc (key : string) (fields : list (string * Json)) : option Json :=
  match fields with
  | [] => None
  | (k, v) :: rest => if String.eqb k key then Some v else assoc key rest
  end.
Definition json_get (key : string) (v : Json) : option Json :=
  match v with JObject fields => assoc key fields | _ => None end.
Definition json_is_false (v : option Json) : bool :=
  match v with Some (JBool false) => true | _ => false end.

(** *** Rows.  [NUMERIC(78,18)] columns hold units of 10^-18. *)

Record InvoiceRow := mkInvoiceRow {
  inv_store_id : Uuid;
  inv_currency : string;
  inv_status : InvoiceStatus;
  inv_amount : Z;
  inv_amount_received : Z;
  inv_created_at : Instant;
  inv_expires_at : Instant;
  inv_metadata : option Json;
  inv_customer_email : option string
}.

Record PaymentRow := mkPaymentRow {
  pay_id : Uuid;
  pay_invoice_id : string;
  pay_payment_option_id : option Uuid;
  pay_asset_type : AssetType;
  pay_amount : Z;
  pay_asset_symbol : string;
  pay_token_address : option string;
  pay_block_number : option Z;
  pay_detected_at : Instant;
  pay_confirmed_at : option Instant;
  pay_from_address : option string;
  pay_reorged : bool;
  pay_extra : option Json;
  pay_credited_amount : option Z;
  pay_rate_used : option string;
  pay_rate_applied_at : option Instant
}.

Record PaymentOptionRow := mkPaymentOptionRow {
  po_invoice_id : string;
  po_chain_id : string;
  po_asset_symbol : string;
  po_token_address : option string;
  po_decimals : Z;
  po_payment_address : string;
  po_rate : option string;
  po_amount : Z;
  po_created_at : Instant;
  po_payment_method_id : string;
  po_wallet_id : option Uuid;
  po_derivation_index : option Z;
  po_rate_at : option Instant;
  po_is_active : bool
}.

Record WatchRow := mkWatchRow {
  wr_address : string;
  wr_payment_option_id : Uuid;
  wr_chain_id : string;
  wr_token_address : option string;
  wr_is_active : bool;
  wr_monitor_notified : bool;
  wr_created_at : Instant;
  wr_expires_at : Instant
}.

Record TokenRow := mkTokenRow {
  tok_chain_id : string;
  tok_address : string;
  tok_symbol : option string
}.

Record ChainCursor := mkChainCursor {
  cc_epoch : Z;
  cc_seq : Z;
  cc_block_height : Z
}.

Record ObligationRow := mkObligationRow {
  ob_id : Uuid;
  ob_invoice_id : string;
  ob_created_at : Instant;
  ob_dispatched_at : option Instant;
  ob_claimed_until : option Instant
}.

Record AllowanceRow := mkAllowanceRow {
  al_shortfall : string;
  al_tolerance_percent : string;
  al_source : string
}.

Record StoreWebhook := mkStoreWebhook {
  sw_id : Uuid;
  sw_url : string;
  sw_secret : string;
  sw_enabled : bool
}.

(** The unique key of a payment: [(chain_id, tx_hash, tx_index)]. *)
Abbreviation PaymentKey := (string * string * Z)%type (only parsing).

Record Db := mkDb {
  db_invoices : gmap string InvoiceRow;
  db_payments : gmap PaymentKey PaymentRow;
  db_payment_options : gmap Z PaymentOptionRow;
  db_watched : list WatchRow;
  db_tokens : list TokenRow;
  db_cursors : gmap (string * Z) ChainCursor;
  db_outbox : gmap (Z * string) ObligationRow;   (* keyed by (payment_id, event_type) *)
  db_tolerances : gmap Z string;
  db_allowances : gmap string AllowanceRow;
  db_webhooks : gmap Z StoreWebhook;
  db_settings : gmap Z Json;                     (* notification_prefs *)
  db_stores : gmap Z string                      (* store name *)
}.

Definition db_set_invoices (x : gmap string InvoiceRow) (d : Db) : Db :=
  mkDb x (db_payments d) (db_payment_options d) (db_watched d) (db_tokens d) (db_cursors d)
    (db_outbox d) (db_tolerances d) (db_allowances d) (db_webhooks d) (db_settings d) (db_stores d).
Definition db_set_payments (x : gmap PaymentKey PaymentRow) (d : Db) : Db :=
  mkDb (db_invoices d) x (db_payment_options d) (db_watched d) (db_tokens d) (db_cursors d)
    (db_outbox d) (db_tolerances d) (db_allowances d) (db_webhooks d) (db_settings d) (db_stores d).
Definition db_set_payment_options (x : gmap Z PaymentOptionRow) (d : Db) : Db :=
  mkDb (db_invoices d) (db_payments d) x (db_watched d) (db_tokens d) (db_cursors d)
    (db_outbox d) (db_tolerances d) (db_allowances d) (db_webhooks d) (db_settings d) (db_stores d).
Definition db_set_watched (x : list WatchRow) (d : Db) : Db :=
  mkDb (db_invoices d) (db_payments d) (db_payment_options d) x (db_tokens d) (db_cursors d)
    (db_outbox d) (db_tolerances d) (db_allowances d) (db_webhooks d) (db_settings d) (db_stores d).
Definition db_set_cursors (x : gmap (string * Z) ChainCursor) (d : Db) : Db :=
  mkDb (db_invoices d) (db_payments d) (db_payment_options d) (db_watched d) (db_tokens d) x
    (db_outbox d) (db_tolerances d) (db_allowances d) (db_webhooks d) (db_settings d) (db_stores d).
Definition db_set_outbox (x : gmap (Z * string) ObligationRow) (d : Db) : Db :=
  mkDb (db_invoices d) (db_payments d) (db_payment_options d) (db_watched d) (db_tokens d)
    (db_cursors d) x (db_tolerances d) (db_allowances d) (db_webhooks d) (db_settings d) (db_stores d).
Definition db_set_allowances (x : gmap string AllowanceRow) (d : Db) : Db :=
  mkDb (db_invoices d) (db_payments d) (db_payment_options d) (db_watched d) (db_tokens d)
    (db_cursors d) (db_outbox d) (db_tolerances d) x (db_webhooks d) (db_settings d) (db_stores d).

(** *** What the repository methods hand to the services *)

Record InvoiceData := mkInvoiceData {
  id_id : string;
  id_store_id : Uuid;
  id_currency : string;
  id_status : InvoiceStatus;
  id_amount : string;
  id_amount_received : string;
  id_created_at : Instant;
  id_expires_at : Instant;
  id_metadata : option Json;
  id_customer_email : option string
}.

Record PaymentData := mkPaymentData {
  pda_id : Uuid;
  pda_invoice_id : string;
  pda_payment_option_id : option Uuid;
  pda_chain_id : string;
  pda_asset_type : AssetType;
  pda_amount : string;
  pda_asset_symbol : string;
  pda_token_address : option string;
  pda_tx_hash : string;
  pda_block_number : option Z;
  pda_detected_at : Instant;
  pda_confirmed_at : option Instant;
  pda_from_address : option string;
  pda_reorged : bool;
  pda_extra : option Json;
  pda_credited_amount : option string;
  pda_rate_used : option string;
  pda_rate_applied_at : option Instant
}.

(** A SQL statement: at an instant, a result and the new tables. *)
Definition Statement (A : Type) : Type := Instant -> Db -> result RepositoryError A * Db.

Definition select {A} (f : Db -> A) : Statement A := fun _ d => (Ok (f d), d).

Section Statements.
Context `{Numeric} `{Formats}.

(** [try_row_to_invoice] *)
Definition row_to_invoice (id : string) (r : InvoiceRow) : InvoiceData :=
  {| id_id := id;
     id_store_id := inv_store_id r;
     id_currency := inv_currency r;
     id_status := inv_status r;
     id_amount := numeric18_out (inv_amount r);
     id_amount_received := numeric18_out (inv_amount_received r);
     id_created_at := inv_created_at r;
     id_expires_at := inv_expires_at r;
     id_metadata := inv_metadata r;
     id_customer_email := inv_customer_email r |}.

(** [try_row_to_payment] *)
Definition row_to_payment (k : PaymentKey) (r : PaymentRow) : PaymentData :=
  {| pda_id := pay_id r;
     pda_invoice_id := pay_invoice_id r;
     pda_payment_option_id := pay_payment_option_id r;
     pda_chain_id := k.1.1;
     pda_asset_type := pay_asset_type r;
     pda_amount := z_to_string (pay_amount r);
     pda_asset_symbol := pay_asset_symbol r;
     pda_token_address := pay_token_address r;
     pda_tx_hash := k.1.2;
     pda_block_number := i64_as_u64 <$> pay_block_number r;
     pda_detected_at := pay_detected_at r;
     pda_confirmed_at := pay_confirmed_at r;
     pda_from_address := pay_from_address r;
     pda_reorged := pay_reorged r;
     pda_extra := pay_extra r;
     pda_credited_amount := numeric18_out <$> pay_credited_amount r;
     pda_rate_used := pay_rate_used r;
     pda_rate_applied_at := pay_rate_applied_at r |}.

(** ** The trigger on [payments] *)

(** [SUM(credited_amount)] over the invoice's payments that are not reorged. *)
Definition credited_total (payments : gmap PaymentKey PaymentRow) (invoice_id : string) : Z :=
  foldr Z.add 0
    ((fun r : PaymentRow => default 0 (pay_credited_amount r))
       <$> List.filter (fun r => String.eqb (pay_invoice_id r) invoice_id && negb (pay_reorged r))
                       (map_to_list payments).*2).

Definition set_received (total : Z) (status : InvoiceStatus) (r : InvoiceRow) : InvoiceRow :=
  mkInvoiceRow (inv_store_id r) (inv_currency r) status (inv_amount r) total
    (inv_created_at r) (inv_expires_at r) (inv_metadata r) (inv_customer_email r).

(** [update_invoice_on_payment()], after a row of [payments] was inserted or
    updated to [new]. *)
Definition update_invoice_on_payment (now : Instant) (new : PaymentRow) (d : Db) : Db :=
  db_set_invoices
    (alter (fun r =>
              set_received (credited_total (db_payments d) (pay_invoice_id new))
                (if bool_decide (inv_status r = Pending) && negb (pay_reorged new)
                    && (now <=? inv_expires_at r)
                 then Processing else inv_status r) r)
           (pay_invoice_id new) (db_invoices d)) d.

(** Writing one row of [payments], with the trigger. *)
Definition put_payment (now : Instant) (k : PaymentKey) (r : PaymentRow) (d : Db) : Db :=
  update_invoice_on_payment now r (db_set_payments (<[k := r]> (db_payments d)) d).

(** ** [PaymentReader], [PaymentWriter] *)

Definition payments_where (p : PaymentKey -> PaymentRow -> bool) (d : Db)
  : list (PaymentKey * PaymentRow) :=
  List.filter (fun kr => p kr.1 kr.2) (map_to_list (db_payments d)).

(** [PaymentReader::get] *)
Definition payment_get (id : Uuid) : Statement (option PaymentData) :=
  select (fun d => (fun kr => row_to_payment kr.1 kr.2)
                     <$> head (payments_where (fun _ r => pay_id r =? id) d)).

(** [PaymentReader::get_for_invoice] (as a set: the order is the reader's) *)
Definition payments_get_for_invoice (invoice_id : string) : Statement (list PaymentData) :=
  select (fun d => (fun kr => row_to_payment kr.1 kr.2)
                     <$> payments_where (fun _ r => String.eqb (pay_invoice_id r) invoice_id) d).

(** [PaymentReader::has_valid_payments] *)
Definition has_valid_payments (invoice_id : string) : Statement bool :=
  select (fun d => existsb (fun kr => String.eqb (pay_invoice_id kr.2) invoice_id && negb (pay_reorged kr.2))
                     (map_to_list (db_payments d))).

(** [PaymentTxIndexReader::get_by_tx_index] *)
Definition get_by_tx_index (invoice_id tx_hash : string) (tx_index : Z)
  : Statement (option PaymentData) :=
  select (fun d => (fun kr => row_to_payment kr.1 kr.2)
                     <$> head (payments_where (fun k r =>
                           String.eqb (pay_invoice_id r) invoice_id && String.eqb k.1.2 tx_hash
                             && (k.2 =? tx_index) && negb (pay_reorged r)) d)).

Definition coalesce {A} (excluded old : option A) : option A :=
  match excluded with Some _ => excluded | None => old end.

(** The [DO UPDATE SET] of the upsert. *)
Definition merge_payment (old : PaymentRow) (p : PaymentData) (credited : option Z) : PaymentRow :=
  {| pay_id := pay_id old;
     pay_invoice_id := pay_invoice_id old;
     pay_payment_option_id := pay_payment_option_id old;
     pay_asset_type := pay_asset_type old;
     pay_amount := pay_amount old;
     pay_asset_symbol := pay_asset_symbol old;
     pay_token_address := pay_token_address old;
     pay_block_number := coalesce (u64_as_i64 <$> pda_block_number p) (pay_block_number old);
     pay_detected_at := pay_detected_at old;
     pay_confirmed_at := coalesce (pda_confirmed_at p) (pay_confirmed_at old);
     pay_from_address := pay_from_address old;
     pay_reorged := pay_reorged old;
     pay_extra := coalesce (pda_extra p) (pay_extra old);
     pay_credited_amount := coalesce credited (pay_credited_amount old);
     pay_rate_used := coalesce (pda_rate_used p) (pay_rate_used old);
     pay_rate_applied_at := coalesce (pda_rate_applied_at p) (pay_rate_applied_at old) |}.

(** The inserted row; [reorged] takes its default. *)
Definition new_payment (p : PaymentData) (amount : Z) (credited : option Z) : PaymentRow :=
  {| pay_id := pda_id p;
     pay_invoice_id := pda_invoice_id p;
     pay_payment_option_id := pda_payment_option_id p;
     pay_asset_type := pda_asset_type p;
     pay_amount := amount;
     pay_asset_symbol := pda_asset_symbol p;
     pay_token_address := pda_token_address p;
     pay_block_number := u64_as_i64 <$> pda_block_number p;
     pay_detected_at := pda_detected_at p;
     pay_confirmed_at := pda_confirmed_at p;
     pay_from_address := pda_from_address p;
     pay_reorged := false;
     pay_extra := pda_extra p;
     pay_credited_amount := credited;
     pay_rate_used := pda_rate_used p;
     pay_rate_applied_at := pda_rate_applied_at p |}.

Definition payment_key (p : PaymentData) (tx_index : Z) : PaymentKey :=
  (pda_chain_id p, pda_tx_hash p, tx_index).

(** [upsert_payment_row]: casts, then [ON CONFLICT] update or an insert that
    the foreign keys and the primary key can refuse. *)
Definition upsert_payment_row (p : PaymentData) (tx_index : Z) : Statement Uuid :=
  fun now d =>
    match z_parse (pda_amount p), (match pda_credited_amount p with
                                   | Some t => Some <$> numeric18_in t
                                   | None => Some None
                                   end) with
    | Some amount, Some credited =>
        match db_payments d !! payment_key p tx_index with
        | Some old =>
            (Ok (pay_id old), put_payment now (payment_key p tx_index) (merge_payment old p credited) d)
        | None =>
            if option_is_none (db_invoices d !! pda_invoice_id p)
            then (Err (Database "foreign key violation: invoice_id"), d)
            else if match pda_payment_option_id p with
                    | Some po => option_is_none (db_payment_options d !! po) | None => false end
            then (Err (Database "foreign key violation: payment_option_id"), d)
            else if existsb (fun r => pay_id r =? pda_id p) (map_to_list (db_payments d)).*2
            then (Err (Database "duplicate key value: payments_pkey"), d)
            else
              (Ok (pda_id p),
               put_payment now (payment_key p tx_index) (new_payment p amount credited) d)
        end
    | _, _ => (Err (Database "invalid input syntax for type numeric"), d)
    end.

(** [INSERT INTO webhook_outbox ... ON CONFLICT DO NOTHING] *)
Definition insert_obligation (id payment_id : Uuid) (invoice_id event_type : string) : Statement unit :=
  fun now d =>
    match db_outbox d !! (payment_id, event_type) with
    | Some _ => (Ok tt, d)
    | None =>
        (Ok tt, db_set_outbox (<[(payment_id, event_type) :=
                   mkObligationRow id invoice_id now None None]> (db_outbox d)) d)
    end.

(** Setting a column of every payment that matches, with the trigger. *)
Definition update_payments (p : PaymentKey -> PaymentRow -> bool) (f : PaymentRow -> PaymentRow)
    (now : Instant) (d : Db) : nat * Db :=
  let hit := payments_where p d in
  (length hit, foldl (fun d kr => put_payment now kr.1 (f kr.2) d) d hit).

Definition set_confirmed (at_ : option Instant) (reorged : bool) (r : PaymentRow) : PaymentRow :=
  mkPaymentRow (pay_id r) (pay_invoice_id r) (pay_payment_option_id r) (pay_asset_type r)
    (pay_amount r) (pay_asset_symbol r) (pay_token_address r) (pay_block_number r)
    (pay_detected_at r) at_ (pay_from_address r) reorged (pay_extra r) (pay_credited_amount r)
    (pay_rate_used r) (pay_rate_applied_at r).

(** [PaymentWriter::mark_confirmed] *)
Definition mark_confirmed (id : Uuid) (confirmed_at : Instant) : Statement unit :=
  fun now d =>
    let '(affected, d') :=
      update_payments (fun _ r => (pay_id r =? id) && option_is_none (pay_confirmed_at r))
        (fun r => set_confirmed (Some confirmed_at) (pay_reorged r) r) now d in
    if (affected =? 0)%nat
    then (Err (NotFound ("Payment not found or already confirmed: " +:+ uuid_to_string id)), d')
    else (Ok tt, d').

(** [ReorgCandidateReader::reorg_candidates] *)
Definition reorg_candidates (chain_id : string) (fork_block : Z) : Statement (list PaymentData) :=
  select (fun d => (fun kr => row_to_payment kr.1 kr.2)
    <$> payments_where (fun k r =>
          String.eqb k.1.1 chain_id
            && match pay_block_number r with Some n => u64_as_i64 fork_block <=? n | None => false end
            && negb (pay_reorged r)) d).

(** [ReorgWriter::mark_payment_reorged] *)
Definition mark_payment_reorged (id : Uuid) : Statement unit :=
  fun now d =>
    (Ok tt, snd (update_payments (fun _ r => (pay_id r =? id) && negb (pay_reorged r))
                   (set_confirmed None true) now d)).

(** ** [InvoiceReader], [InvoiceWriter] *)

(** [InvoiceReader::get] *)
Definition invoice_get (id : string) : Statement (option InvoiceData) :=
  select (fun d => row_to_invoice id <$> db_invoices d !! id).

Definition set_status (status : InvoiceStatus) (r : InvoiceRow) : InvoiceRow :=
  set_received (inv_amount_received r) status r.

(** [InvoiceWriter::update_status] *)
Definition update_status (id : string) (status : InvoiceStatus) : Statement unit :=
  fun _ d =>
    match db_invoices d !! id with
    | Some r => (Ok tt, db_set_invoices (<[id := set_status status r]> (db_invoices d)) d)
    | None => (Err (NotFound ("Invoice not found: " +:+ id)), d)
    end.

Definition is_open (status : InvoiceStatus) : bool :=
  match status with Pending | Processing | PartiallyPaid => true | _ => false end.

(** [InvoiceWriter::expire] *)
Definition invoice_expire (id : string) : Statement bool :=
  fun _ d =>
    match db_invoices d !! id with
    | Some r =>
        if is_open (inv_status r)
        then (Ok true, db_set_invoices (<[id := set_status Expired r]> (db_invoices d)) d)
        else (Ok false, d)
    | None => (Ok false, d)
    end.

(** [InvoiceReader::stream_expired_pending] (as a set) *)
Definition stream_expired_pending : Statement (list string) :=
  fun now d =>
    (Ok (fst <$> List.filter (fun ir => is_open (inv_status ir.2) && (inv_expires_at ir.2 <? now))
                   (map_to_list (db_invoices d))), d).

(** ** Watched addresses and payment options *)

Definition same_token (a b : option string) : bool :=
  match a, b with
  | Some a, Some b => String.eqb (to_lowercase a) (to_lowercase b)
  | None, None => true
  | _, _ => false
  end.

Definition watch_matches (address chain_id : string) (token : option string) (w : WatchRow) : bool :=
  String.eqb (to_lowercase (wr_address w)) (to_lowercase address)
    && String.eqb (wr_chain_id w) chain_id && same_token (wr_token_address w) token.

(** [WatchedAddressReader::get_payment_option_id] *)
Definition get_payment_option_id (address chain_id : string) (token : option string)
  : Statement (option Uuid) :=
  select (fun d => wr_payment_option_id
    <$> head (List.filter (fun w => watch_matches address chain_id token w && wr_is_active w) (db_watched d))).

Definition set_watch_flags (active notified : bool) (w : WatchRow) : WatchRow :=
  mkWatchRow (wr_address w) (wr_payment_option_id w) (wr_chain_id w) (wr_token_address w)
    active notified (wr_created_at w) (wr_expires_at w).

(** [WatchedAddressWriter::deactivate] *)
Definition deactivate (address chain_id : string) (token : option string) : Statement bool :=
  fun _ d =>
    let hit w := watch_matches address chain_id token w && wr_is_active w in
    (Ok (existsb hit (db_watched d)),
     db_set_watched ((fun w => if hit w then set_watch_flags false (wr_monitor_notified w) w else w)
                       <$> db_watched d) d).

(** [WatchedAddressWriter::mark_notified] *)
Definition mark_notified (address chain_id : string) (token : option string) : Statement unit :=
  fun _ d =>
    (Ok tt,
     db_set_watched ((fun w => if watch_matches address chain_id token w
                               then set_watch_flags (wr_is_active w) true w else w)
                       <$> db_watched d) d).

(** [PaymentOptionReader::get] *)
Definition payment_option_get (id : Uuid) : Statement (option PaymentOptionRow) :=
  select (fun d => db_payment_options d !! id).

(** [PaymentOptionReader::get_for_invoice] *)
Definition payment_options_for_invoice (invoice_id : string) : Statement (list (Uuid * PaymentOptionRow)) :=
  select (fun d => List.filter (fun ip => String.eqb (po_invoice_id ip.2) invoice_id)
                     (map_to_list (db_payment_options d))).

(** [TokenReader::get_by_address] *)
Definition token_get_by_address (chain_id address : string) : Statement (option TokenRow) :=
  select (fun d => head (List.filter (fun t => String.eqb (tok_chain_id t) chain_id
                           && String.eqb (to_lowercase (tok_address t)) (to_lowercase address)) (db_tokens d))).

(** ** Settlement, cursors *)

(** [SettlementToleranceReader::get_settlement_tolerance] *)
Definition get_settlement_tolerance (store_id : Uuid) : Statement (option string) :=
  select (fun d => db_tolerances d !! store_id).

(** [SettlementToleranceWriter::record_settlement_allowance] *)
Definition record_settlement_allowance (invoice_id shortfall tolerance_percent source : string)
  : Statement unit :=
  fun _ d =>
    if option_is_none (db_invoices d !! invoice_id)
    then (Err (Database "foreign key violation: invoice_id"), d)
    else (Ok tt, db_set_allowances (<[invoice_id := mkAllowanceRow shortfall tolerance_percent source]>
                                      (db_allowances d)) d).

(** [ChainCursorReader::chain_cursors] *)
Definition chain_cursors (adapter_id : string) : Statement (gmap Z ChainCursor) :=
  select (fun d => list_to_map
    (omap (fun '((a, c), cur) => if String.eqb a adapter_id then Some (i64_as_u64 c, cur) else None)
          (map_to_list (db_cursors d)))).

(** [ChainCursorWriter::commit_chain_cursor] *)
Definition commit_chain_cursor (adapter_id : string) (chain_id : Z) (cursor : ChainCursor) : Statement unit :=
  fun _ d =>
    let key := (adapter_id, u64_as_i64 chain_id) in
    let put := db_set_cursors (<[key := cursor]> (db_cursors d)) d in
    match db_cursors d !! key with
    | None => (Ok tt, put)
    | Some old =>
        if negb (cc_epoch old =? cc_epoch cursor) || (cc_seq old <? cc_seq cursor)
        then (Ok tt, put) else (Ok tt, d)
    end.

(** [ChainCursorWriter::delete_chain_cursor] *)
Definition delete_chain_cursor (adapter_id : string) (chain_id : Z) : Statement unit :=
  fun _ d => (Ok tt, db_set_cursors (delete (adapter_id, u64_as_i64 chain_id) (db_cursors d)) d).

(** [ChainCursorWriter::reset_chain_watch_notifications] *)
Definition reset_chain_watch_notifications (chain_id : Z) : Statement nat :=
  fun _ d =>
    let hit w := String.eqb (wr_chain_id w) (chain_id_evm chain_id) && wr_is_active w in
    (Ok (length (List.filter hit (db_watched d))),
     db_set_watched ((fun w => if hit w then set_watch_flags (wr_is_active w) false w else w)
                       <$> db_watched d) d).

(** ** Webhook configuration *)

(** [StoreWebhookReader::get_enabled_webhook] *)
Definition get_enabled_webhook (store_id : Uuid) : Statement (option StoreWebhook) :=
  select (fun d => w ← db_webhooks d !! store_id; if sw_enabled w then Some w else None).

(** [StoreSettingsReader::get_store_settings], its [notification_prefs] *)
Definition get_store_settings (store_id : Uuid) : Statement (option Json) :=
  select (fun d => db_settings d !! store_id).

(** [StoreRepository::get_store], its name *)
Definition get_store (store_id : Uuid) : Statement (option string) :=
  select (fun d => db_stores d !! store_id).
End Statements.
