(* ===== verification/DatabaseFacts.v ===== *)
(** * The database's own invariant

    What the trigger on [payments] and the constraints keep: an invoice's
    received amount is the sum of what its standing payments credit, every
    payment belongs to an invoice, and payment ids are unique. *)

From stdpp Require Import gmap strings list.
From Stdlib Require Import ZArith Lia.
From S2P Require Import Prelude Events Network Decimal Database.

(** ** Updating the payments that match *)

Section Update.
Context (p : PaymentKey -> PaymentRow -> bool).

Lemma payments_where_spec d kr :
  kr ∈ payments_where p d <-> db_payments d !! kr.1 = Some kr.2 /\ p kr.1 kr.2 = true.
Proof.
  unfold payments_where. rewrite elem_of_filter_b. destruct kr as [k r].
  rewrite elem_of_map_to_list. cbn. tauto.
Qed.

Lemma payments_where_keys_NoDup d : NoDup (payments_where p d).*1.
Proof.
  unfold payments_where. pose proof (NoDup_fst_map_to_list (db_payments d)) as Hnd.
  induction (map_to_list (db_payments d)) as [|kr l IH]; cbn; [constructor|].
  apply NoDup_cons in Hnd as [Hn Hnd]. destruct (p kr.1 kr.2); cbn; [|auto].
  apply NoDup_cons. split; [|auto]. intros Hin. apply Hn.
  apply list_elem_of_fmap in Hin as (x & Hx & Hin). apply elem_of_filter_b in Hin as [_ Hin].
  rewrite Hx. by apply list_elem_of_fmap_2.
Qed.

Context (f : PaymentRow -> PaymentRow) (now : Instant).

(** Rule induction for an [UPDATE payments]: each row that matched is written
    once, from the value it had. *)
Lemma update_payments_ind (P : Db -> Prop) d :
  P d ->
  (forall d' k r, P d' -> db_payments d' !! k = Some r -> p k r = true ->
     P (put_payment now k (f r) d')) ->
  P (snd (update_payments p f now d)).
Proof.
  intros Hd Hstep. unfold update_payments. cbn.
  assert (Hrows : forall kr, kr ∈ payments_where p d -> db_payments d !! kr.1 = Some kr.2 /\ p kr.1 kr.2 = true)
    by (intros; by apply payments_where_spec).
  pose proof (payments_where_keys_NoDup d) as Hnd.
  revert Hd Hrows Hnd. generalize (payments_where p d). intros l. revert d.
  induction l as [|[k r] l IH]; intros d Hd Hrows Hnd; cbn; [done|].
  apply NoDup_cons in Hnd as [Hk Hnd]. destruct (Hrows (k, r) ltac:(left)) as [Hr Hp].
  apply IH; [by apply Hstep| |done].
  intros kr Hkr. destruct (Hrows kr ltac:(by right)) as [Hr' Hp']. split; [|done].
  unfold put_payment, update_invoice_on_payment. cbn. rewrite lookup_insert_ne; [done|].
  intros Heq. apply Hk. rewrite Heq. exact (list_elem_of_fmap_2 fst l kr Hkr).
Qed.

Lemma update_payments_none d :
  (forall k r, db_payments d !! k = Some r -> p k r = false) -> update_payments p f now d = (0%nat, d).
Proof.
  intros Hn. unfold update_payments. destruct (payments_where p d) as [|kr l] eqn:E; [done|].
  assert (Hin : kr ∈ payments_where p d) by (rewrite E; left).
  apply payments_where_spec in Hin as [Hr Hp]. apply Hn in Hr. congruence.
Qed.
End Update.

(** ** The credited total *)

Definition credit (invoice_id : string) (r : PaymentRow) : Z :=
  if String.eqb (pay_invoice_id r) invoice_id && negb (pay_reorged r)
  then default 0 (pay_credited_amount r) else 0.

Lemma credited_total_sum (m : gmap PaymentKey PaymentRow) i :
  credited_total m i = foldr (fun kr acc => credit i kr.2 + acc) 0 (map_to_list m).
Proof.
  unfold credited_total. generalize (map_to_list m). intros l.
  induction l as [|[k r] l IH]; cbn; [done|]. rewrite <- IH. unfold credit. cbn.
  destruct (_ && _); cbn; lia.
Qed.

Lemma credit_sum_perm i (l l' : list (PaymentKey * PaymentRow)) :
  l ≡ₚ l' ->
  foldr (fun kr acc => credit i kr.2 + acc) 0 l = foldr (fun kr acc => credit i kr.2 + acc) 0 l'.
Proof. induction 1; cbn; lia. Qed.

Lemma credited_total_insert_new (m : gmap PaymentKey PaymentRow) k r i :
  m !! k = None -> credited_total (<[k := r]> m) i = credit i r + credited_total m i.
Proof.
  intros Hk. rewrite !credited_total_sum.
  by rewrite (credit_sum_perm i _ _ (map_to_list_insert m k r Hk)).
Qed.

(** A row of another invoice, before and after, does not count. *)
Lemma credited_total_insert_other (m : gmap PaymentKey PaymentRow) k r i :
  pay_invoice_id r <> i -> (forall r0, m !! k = Some r0 -> pay_invoice_id r0 <> i) ->
  credited_total (<[k := r]> m) i = credited_total m i.
Proof.
  intros Hr Hold. assert (Hz : forall x, pay_invoice_id x <> i -> credit i x = 0).
  { intros x Hx. unfold credit. destruct (String.eqb_spec (pay_invoice_id x) i); [done|]. done. }
  destruct (m !! k) as [r0|] eqn:Hk.
  - rewrite <- (insert_delete_id m k r0 Hk) at 2. rewrite <- insert_delete_eq.
    rewrite !credited_total_insert_new by apply lookup_delete_eq. rewrite (Hz r), (Hz r0); auto.
  - rewrite credited_total_insert_new by done. rewrite Hz by done. lia.
Qed.

(** ** The invariant *)

Record db_wf (d : Db) : Prop := {
  wf_received i row : db_invoices d !! i = Some row ->
    inv_amount_received row = credited_total (db_payments d) i;
  wf_fk k r : db_payments d !! k = Some r -> is_Some (db_invoices d !! pay_invoice_id r);
  wf_ids k k' r r' : db_payments d !! k = Some r -> db_payments d !! k' = Some r' ->
    pay_id r = pay_id r' -> k = k'
}.

(** Writing a payment row keeps it, when an existing row keeps its invoice and
    id, and a new one brings an invoice that exists and an id that does not. *)
Lemma put_payment_wf now k r d :
  db_wf d ->
  (forall r0, db_payments d !! k = Some r0 -> pay_invoice_id r = pay_invoice_id r0) ->
  is_Some (db_invoices d !! pay_invoice_id r) ->
  (forall k' r', db_payments d !! k' = Some r' -> pay_id r' = pay_id r -> k' = k) ->
  db_wf (put_payment now k r d).
Proof.
  intros [Hrec Hfk Hid] Hold Hinv Hnew. unfold put_payment, update_invoice_on_payment.
  constructor; cbn.
  - intros i row. rewrite lookup_alter_Some. intros [(<- & row0 & Hrow0 & ->)|[Hne Hrow]]; [done|].
    rewrite (Hrec i row Hrow). symmetry. apply credited_total_insert_other; [done|].
    intros r0 Hr0. rewrite <- (Hold r0 Hr0). done.
  - intros k' r'. rewrite lookup_insert_Some. intros Hk'.
    assert (Hr' : is_Some (db_invoices d !! pay_invoice_id r'))
      by (destruct Hk' as [[_ <-]|[_ Hk']]; eauto).
    apply lookup_alter_is_Some. exact Hr'.
  - intros k1 k2 r1 r2. rewrite !lookup_insert_Some.
    intros [[<- <-]|[Hn1 H1]] [[<- <-]|[Hn2 H2]] He; eauto.
    symmetry. eauto.
Qed.

(** ** The writes of the payment path

    Every statement of the payment path except the cursor statements is a
    sequence of these. *)

Inductive write : Db -> Db -> Prop :=
| W_update_payment now k r0 r d :
    db_payments d !! k = Some r0 ->
    pay_invoice_id r = pay_invoice_id r0 -> pay_id r = pay_id r0 ->
    write d (put_payment now k r d)
| W_insert_payment now k r d :
    db_payments d !! k = None -> pay_reorged r = false ->
    is_Some (db_invoices d !! pay_invoice_id r) ->
    (forall k' r', db_payments d !! k' = Some r' -> pay_id r' <> pay_id r) ->
    write d (put_payment now k r d)
| W_status i row st d :
    db_invoices d !! i = Some row ->
    write d (db_set_invoices (<[i := set_status st row]> (db_invoices d)) d)
| W_watched x d : write d (db_set_watched x d)
| W_outbox x d : write d (db_set_outbox x d)
| W_allowances x d : write d (db_set_allowances x d).

Abbreviation writes := (rtc write).

(** A statement whose effect is a sequence of such writes. *)
Definition writing {A} (stmt : Statement A) : Prop :=
  forall now d, writes d (snd (stmt now d)).

Create HintDb writing.

Section Writing.
Context `{Numeric} `{Formats}.

Lemma select_writing {A} (f : Db -> A) : writing (select f).
Proof. intros now d. apply rtc_refl. Qed.

Lemma upsert_payment_row_writing p i : writing (upsert_payment_row p i).
Proof.
  intros now d. unfold upsert_payment_row.
  destruct (z_parse _); [|apply rtc_refl].
  destruct (match pda_credited_amount p with Some t => Some <$> numeric18_in t | None => Some None end)
    as [c|]; [|apply rtc_refl].
  destruct (db_payments d !! payment_key p i) as [old|] eqn:Hold; cbn.
  - apply rtc_once. eapply W_update_payment; [exact Hold | done..].
  - destruct (option_is_none (db_invoices d !! _)) eqn:Hi; [apply rtc_refl|].
    destruct (match pda_payment_option_id p with Some _ => _ | None => _ end); [apply rtc_refl|].
    destruct (existsb _ _) eqn:Hex; [apply rtc_refl|]. cbn.
    apply rtc_once, W_insert_payment; [done|done| |]; cbn.
    + by destruct (db_invoices d !! _).
    + intros k' r' Hk' Hid. assert (Ht : existsb (fun r => pay_id r =? pda_id p)
        (map_to_list (db_payments d)).*2 = true); [|congruence].
      apply existsb_exists. exists r'. split; [|lia]. apply list_elem_of_In.
      apply (list_elem_of_fmap_2 snd _ (k', r')), elem_of_map_to_list, Hk'.
Qed.

Lemma insert_obligation_writing a b c e : writing (insert_obligation a b c e).
Proof.
  intros now d. unfold insert_obligation. destruct (_ !! _); [apply rtc_refl|].
  apply rtc_once, W_outbox.
Qed.

Lemma update_payments_writing p f now d :
  (forall r, pay_invoice_id (f r) = pay_invoice_id r /\ pay_id (f r) = pay_id r) ->
  writes d (snd (update_payments p f now d)).
Proof.
  intros Hf. apply update_payments_ind; [apply rtc_refl|].
  intros d' k r Hd' Hr _. eapply rtc_r; [exact Hd'|].
  eapply W_update_payment; [exact Hr | apply Hf..].
Qed.

Lemma mark_confirmed_writing id t : writing (mark_confirmed id t).
Proof.
  intros now d. unfold mark_confirmed.
  pose proof (update_payments_writing
    (fun _ r => (pay_id r =? id) && option_is_none (pay_confirmed_at r))
    (fun r => set_confirmed (Some t) (pay_reorged r) r) now d) as Hw.
  destruct (update_payments _ _ now d) as [n d']. cbn in *. by destruct (n =? 0)%nat; apply Hw.
Qed.

Lemma mark_payment_reorged_writing id : writing (mark_payment_reorged id).
Proof. intros now d. apply update_payments_writing. done. Qed.

Lemma update_status_writing i st : writing (update_status i st).
Proof.
  intros now d. unfold update_status. destruct (_ !! _) eqn:E; [|apply rtc_refl].
  by apply rtc_once, W_status.
Qed.

Lemma invoice_expire_writing i : writing (invoice_expire i).
Proof.
  intros now d. unfold invoice_expire. destruct (_ !! _) eqn:E; [|apply rtc_refl].
  destruct (is_open _); [|apply rtc_refl]. by apply rtc_once, W_status.
Qed.

Lemma stream_expired_writing : writing stream_expired_pending.
Proof. intros now d. apply rtc_refl. Qed.

Lemma record_allowance_writing a b c e : writing (record_settlement_allowance a b c e).
Proof.
  intros now d. unfold record_settlement_allowance. destruct (option_is_none _); [apply rtc_refl|].
  apply rtc_once, W_allowances.
Qed.

Lemma deactivate_writing a c t : writing (deactivate a c t).
Proof. intros now d. apply rtc_once, W_watched. Qed.

Lemma mark_notified_writing a c t : writing (mark_notified a c t).
Proof. intros now d. apply rtc_once, W_watched. Qed.

Lemma reset_notifications_writing c : writing (reset_chain_watch_notifications c).
Proof. intros now d. apply rtc_once, W_watched. Qed.
End Writing.

#[export] Hint Resolve select_writing upsert_payment_row_writing insert_obligation_writing
  mark_confirmed_writing mark_payment_reorged_writing update_status_writing invoice_expire_writing
  stream_expired_writing record_allowance_writing deactivate_writing mark_notified_writing
  reset_notifications_writing : writing.
#[export] Hint Extern 2 (writing _) => apply select_writing : writing.

(** *** What the writes keep *)

Lemma write_cursors d d' : write d d' -> db_cursors d' = db_cursors d.
Proof. by destruct 1. Qed.

Lemma writes_cursors d d' : writes d d' -> db_cursors d' = db_cursors d.
Proof. induction 1 as [|x y z Hxy _ IH]; [done|]. rewrite IH. by apply write_cursors. Qed.

Lemma write_wf d d' : write d d' -> db_wf d -> db_wf d'.
Proof.
  intros Hw Hwf. destruct Hw as [now k r0 r d Hk Hi Hid|now k r d Hk Hre Hi Hid|i row st d Hrow|x d|x d|x d];
    try (destruct Hwf; by constructor).
  - apply put_payment_wf; [done| | |].
    + intros r1 Hr1. congruence.
    + rewrite Hi. by eapply wf_fk.
    + intros k' r' Hk' He. eapply (wf_ids d); eauto. congruence.
  - apply put_payment_wf; [done| |done|].
    + congruence.
    + intros k' r' Hk' He. by destruct (Hid k' r').
  - destruct Hwf as [Hrec Hfk Hid]. constructor; cbn; [|intros k r Hk|done].
    + intros j r. rewrite lookup_insert_Some. intros [[<- <-]|[Hne Hr]]; [|by apply Hrec].
      exact (Hrec i row Hrow).
    + destruct (decide (i = pay_invoice_id r)) as [<-|Hne].
      * rewrite lookup_insert_eq. eauto.
      * rewrite lookup_insert_ne by done. by eapply Hfk.
Qed.

Lemma writes_wf d d' : writes d d' -> db_wf d -> db_wf d'.
Proof. induction 1; eauto using write_wf. Qed.
