(* ===== verification/Services.v ===== *)
(** * The server process: its world, and the services the handlers share

    What a background task of the server can touch: the database, the webhook
    queue in Redis, the WebSocket hub, the mailer, the plugin observers and the
    command channel to the monitor.  Every request that leaves the process may
    be answered, may never arrive, or may take effect and lose its reply.

    On top of it: [api/ws.rs] (publishing), [webhook/job.rs],
    [webhook/service.rs] (queueing), [webhook/dispatch.rs], the transactional
    upsert of [postgres/payment.rs], and [plugins/payment_observer.rs]. *)

From stdpp Require Import gmap strings list.
From Stdlib Require Import ZArith Lia.
From S2P Require Import Prelude Events Network Decimal Database.

(** ** The runtime *)

(** The outcome of the n-th request, the wall clock (in nanoseconds) when it is
    made, and the n-th random UUID. *)
Class Runtime := {
  calls : nat -> Call;
  clock : nat -> Instant;
  new_v4 : nat -> Uuid
}.

Definition NANOS : Z := 10 ^ 9.
Definition seconds (n : Z) : Z := n * NANOS.
(** [DateTime::timestamp] *)
Definition timestamp (t : Instant) : Z := t / NANOS.

(** The API types are not part of the repository: the webhook vocabulary and the
    display names.  A payload constructor also reads the clock and draws an id,
    which its first argument stands for. *)
Class ApiTypes := {
  status_to_string : InvoiceStatus -> string;
  WebhookEventType : Type;
  PaymentDetectedEvent : WebhookEventType;
  PaymentConfirmedEvent : WebhookEventType;
  LatePaidEvent : WebhookEventType;
  InvoiceExpiredEvent : WebhookEventType;
  event_type_str : WebhookEventType -> string;
  event_type_of_str : string -> option WebhookEventType;
  WebhookPayload : Type;
  payload_event_type : WebhookPayload -> string;
  payload_invoice_id : WebhookPayload -> string;
  invoice_event : nat -> WebhookEventType -> InvoiceData -> WebhookPayload;
  payment_event : nat -> WebhookEventType -> InvoiceData -> PaymentData -> WebhookPayload;
  payment_reorged : nat -> InvoiceData -> list PaymentData -> WebhookPayload
}.

(** ** Webhook jobs *)

Section Jobs.
Context `{ApiTypes}.

Record WebhookJob := mkWebhookJob {
  wj_id : Uuid;
  wj_store_webhook_id : Uuid;
  wj_webhook_url : string;
  wj_webhook_secret : string;
  wj_payload : WebhookPayload;
  wj_attempts : Z;
  wj_max_attempts : Z;
  wj_created_at : Instant;
  wj_scheduled_at : Instant
}.

(** [RETRY_DELAYS_SECS] *)
Definition RETRY_DELAYS_SECS : list Z := [60; 300; 1800; 7200; 43200; 86400].

(** [WebhookJob::new] *)
Definition new_job (id : Uuid) (now : Instant) (store_webhook_id : Uuid) (url secret : string)
    (payload : WebhookPayload) : WebhookJob :=
  {| wj_id := id;
     wj_store_webhook_id := store_webhook_id;
     wj_webhook_url := url;
     wj_webhook_secret := secret;
     wj_payload := payload;
     wj_attempts := 0;
     wj_max_attempts := 7;
     wj_created_at := now;
     wj_scheduled_at := now |}.

(** [WebhookJob::retry_delay], in seconds *)
Definition retry_delay (job : WebhookJob) : Z :=
  let idx := Z.to_nat (wj_attempts job - 1) in
  nth (Nat.min idx (length RETRY_DELAYS_SECS - 1)) RETRY_DELAYS_SECS 0.

(** [WebhookJob::is_exhausted] *)
Definition is_exhausted (job : WebhookJob) : bool := wj_max_attempts job <=? wj_attempts job.
End Jobs.

(** The JSON text of a job ([serde_json] on the derived implementations). *)
Class JobCodec `{ApiTypes} := {
  job_to_json : WebhookJob -> string;
  job_from_json : string -> option WebhookJob
}.

Class JobCodecLaws `{JobCodec} := {
  job_json_roundtrip j : job_from_json (job_to_json j) = Some j
}.

(** ** The world *)

Inductive StatusUpdate : Type :=
| InvoiceStatusUpdate (invoice_id status : string)
| PaymentUpdate (payment_id invoice_id status : string) (amount : option string).

Record ReceiptData := mkReceiptData {
  rc_invoice_id : string;
  rc_amount : string;
  rc_currency : string;
  rc_tx_hash : string;
  rc_explorer_url : string;
  rc_paid_at : Instant;
  rc_merchant_name : string
}.

Record OwnStorePayment := mkOwnStorePayment {
  os_invoice_id : string;
  os_currency : string;
  os_amount_received : string;
  os_status : InvoiceStatus;
  os_settled_at : Instant;
  os_metadata : option Json
}.

Inductive WebhookDeliveryStatus := DPending | DRetrying | DDelivered | DFailed.

(** A row of [webhook_deliveries], keyed by the job's id. *)
Record DeliveryRow := mkDeliveryRow {
  dl_store_webhook_id : Uuid;
  dl_invoice_id : string;
  dl_event_type : string;
  dl_status : WebhookDeliveryStatus;
  dl_attempts : Z;
  dl_max_attempts : Z;
  dl_last_error : option string
}.

(** [sv_ready] and [sv_processing] are the two Redis sorted sets of the webhook
    queue, [sv_accepted] the webhook jobs whose endpoint answered with success,
    [sv_failed_log] the jobs logged as permanently failed and whether the line
    pages; [sv_ticks] counts
    requests and [sv_uuids] the UUIDs drawn. *)
Record Server := mkServer {
  sv_db : Db;
  sv_ticks : nat;
  sv_uuids : nat;
  sv_ready : gmap string Z;
  sv_processing : gmap string Z;
  sv_deliveries : gmap Z DeliveryRow;
  sv_events : list (string * string);
  sv_broadcasts : list (Uuid * StatusUpdate);
  sv_mails : list (string * ReceiptData);
  sv_observed : list (nat * OwnStorePayment);
  sv_commands : list MonitorCommand;
  sv_accepted : list Uuid;
  sv_failed_log : list (Uuid * bool)
}.

Definition set_db (d : Db) (s : Server) : Server :=
  mkServer d (sv_ticks s) (sv_uuids s) (sv_ready s) (sv_processing s) (sv_deliveries s)
    (sv_events s) (sv_broadcasts s) (sv_mails s) (sv_observed s) (sv_commands s) (sv_accepted s) (sv_failed_log s).
Definition tick (s : Server) : Server :=
  mkServer (sv_db s) (S (sv_ticks s)) (sv_uuids s) (sv_ready s) (sv_processing s) (sv_deliveries s)
    (sv_events s) (sv_broadcasts s) (sv_mails s) (sv_observed s) (sv_commands s) (sv_accepted s) (sv_failed_log s).
Definition set_uuids (n : nat) (s : Server) : Server :=
  mkServer (sv_db s) (sv_ticks s) n (sv_ready s) (sv_processing s) (sv_deliveries s)
    (sv_events s) (sv_broadcasts s) (sv_mails s) (sv_observed s) (sv_commands s) (sv_accepted s) (sv_failed_log s).
Definition set_queue (ready processing : gmap string Z) (s : Server) : Server :=
  mkServer (sv_db s) (sv_ticks s) (sv_uuids s) ready processing (sv_deliveries s)
    (sv_events s) (sv_broadcasts s) (sv_mails s) (sv_observed s) (sv_commands s) (sv_accepted s) (sv_failed_log s).
Definition set_deliveries (x : gmap Z DeliveryRow) (s : Server) : Server :=
  mkServer (sv_db s) (sv_ticks s) (sv_uuids s) (sv_ready s) (sv_processing s) x
    (sv_events s) (sv_broadcasts s) (sv_mails s) (sv_observed s) (sv_commands s) (sv_accepted s) (sv_failed_log s).
Definition add_event (x : string * string) (s : Server) : Server :=
  mkServer (sv_db s) (sv_ticks s) (sv_uuids s) (sv_ready s) (sv_processing s) (sv_deliveries s)
    (sv_events s ++ [x]) (sv_broadcasts s) (sv_mails s) (sv_observed s) (sv_commands s) (sv_accepted s) (sv_failed_log s).
Definition add_broadcast (x : Uuid * StatusUpdate) (s : Server) : Server :=
  mkServer (sv_db s) (sv_ticks s) (sv_uuids s) (sv_ready s) (sv_processing s) (sv_deliveries s)
    (sv_events s) (sv_broadcasts s ++ [x]) (sv_mails s) (sv_observed s) (sv_commands s) (sv_accepted s) (sv_failed_log s).
Definition add_mail (x : string * ReceiptData) (s : Server) : Server :=
  mkServer (sv_db s) (sv_ticks s) (sv_uuids s) (sv_ready s) (sv_processing s) (sv_deliveries s)
    (sv_events s) (sv_broadcasts s) (sv_mails s ++ [x]) (sv_observed s) (sv_commands s) (sv_accepted s) (sv_failed_log s).
Definition add_observed (x : list (nat * OwnStorePayment)) (s : Server) : Server :=
  mkServer (sv_db s) (sv_ticks s) (sv_uuids s) (sv_ready s) (sv_processing s) (sv_deliveries s)
    (sv_events s) (sv_broadcasts s) (sv_mails s) (sv_observed s ++ x) (sv_commands s) (sv_accepted s) (sv_failed_log s).
Definition add_command (x : MonitorCommand) (s : Server) : Server :=
  mkServer (sv_db s) (sv_ticks s) (sv_uuids s) (sv_ready s) (sv_processing s) (sv_deliveries s)
    (sv_events s) (sv_broadcasts s) (sv_mails s) (sv_observed s) (sv_commands s ++ [x]) (sv_accepted s) (sv_failed_log s).
Definition add_accepted (x : Uuid) (s : Server) : Server :=
  mkServer (sv_db s) (sv_ticks s) (sv_uuids s) (sv_ready s) (sv_processing s) (sv_deliveries s)
    (sv_events s) (sv_broadcasts s) (sv_mails s) (sv_observed s) (sv_commands s) (sv_accepted s ++ [x])
    (sv_failed_log s).
Definition add_failed_log (x : Uuid * bool) (s : Server) : Server :=
  mkServer (sv_db s) (sv_ticks s) (sv_uuids s) (sv_ready s) (sv_processing s) (sv_deliveries s)
    (sv_events s) (sv_broadcasts s) (sv_mails s) (sv_observed s) (sv_commands s) (sv_accepted s)
    (sv_failed_log s ++ [x]).

Abbreviation M := (St Server).

Inductive WebhookError : Type :=
| WhRedis (msg : string)
| WhHttp (msg : string)
| WhUnreachable (msg : string)
| WhSerialization (msg : string)
| WhDatabase (msg : string).

(** ** Requests *)

Section Requests.
Context `{Runtime}.

(** One request: [fault] is the error of a request that was not answered. *)
Definition exchange {E A} (fault : E) (op : St Server E A) : M E A :=
  fun s =>
    match calls (sv_ticks s) with
    | Answered => op (tick s)
    | NotSent => (Err fault, tick s)
    | ReplyLost => (Err fault, snd (op (tick s)))
    end.

Definition db_lost : RepositoryError := Database "connection lost".

(** A statement in a transaction of its own. *)
Definition db {A} (stmt : Statement A) : M RepositoryError A :=
  fun s =>
    exchange db_lost (fun s' => let '(r, d) := stmt (clock (sv_ticks s)) (sv_db s') in
                                (r, set_db d s')) s.

(** A statement inside an open transaction that began at [began]: it works on
    the transaction's own copy of the tables. *)
Definition tx_statement {A} (began : Instant) (stmt : Statement A) (buf : Db) : M RepositoryError (A * Db) :=
  exchange db_lost (fun s => let '(r, buf') := stmt began buf in
                             (match r with Ok a => Ok (a, buf') | Err e => Err e end, s)).

(** [Uuid::new_v4], [Utc::now] *)
Definition fresh {E} : M E Uuid :=
  fun s => (Ok (new_v4 (sv_uuids s)), set_uuids (S (sv_uuids s)) s).
Definition utc_now {E} : M E Instant := st_gets (fun s => clock (sv_ticks s)).

(** [PaymentTxIndexWriter::upsert_with_tx_index_and_obligation]: the payment
    row and its obligation in one transaction. *)
Definition upsert_with_tx_index_and_obligation `{Numeric}
    (payment : PaymentData) (tx_index : Z) (event_type : string) : M RepositoryError unit :=
  let* began := utc_now in
  let* tx := exchange db_lost (st_gets sv_db) in
  let* (payment_id, tx) := tx_statement began (upsert_payment_row payment tx_index) tx in
  let* id := fresh in
  let* (_, tx) :=
    tx_statement began (insert_obligation id payment_id (pda_invoice_id payment) event_type) tx in
  exchange db_lost (st_modify (set_db tx)).
End Requests.

(** ** WebSocket *)

Section Services.
Context `{Runtime} `{Numeric} `{Formats} `{ApiTypes} `{!JobCodec}.

(** [WsBroadcast::send] *)
Definition ws_send {E} (store_id : Uuid) (update : StatusUpdate) : M E unit :=
  st_modify (add_broadcast (store_id, update)).

(** [WsBroadcast::send_for_invoice] *)
Definition send_for_invoice {E} (invoice_id : string) (update : StatusUpdate) : M E unit :=
  let* r := st_try (db (invoice_get invoice_id)) in
  match r with
  | Ok (Some invoice) => ws_send (id_store_id invoice) update
  | Ok None => st_ret tt
  | Err _ => st_ret tt
  end.

(** ** Webhook queue *)

(** [WebhookDeliveryWriter::upsert_delivery], on the row of that id: [ON CONFLICT]
    changes the status, the attempts and the error alone. *)
Definition upserted_row (row : DeliveryRow) (stored : option DeliveryRow) : DeliveryRow :=
  match stored with
  | Some r => mkDeliveryRow (dl_store_webhook_id r) (dl_invoice_id r) (dl_event_type r) (dl_status row) (dl_attempts row)
                (dl_max_attempts r) (dl_last_error row)
  | None => row
  end.

(** [WebhookService::write_delivery_record] *)
Definition write_delivery_record {E} (job : WebhookJob) (status : WebhookDeliveryStatus) (attempts : Z)
    (last_error : option string) : M E unit :=
  let row := mkDeliveryRow (wj_store_webhook_id job) (payload_invoice_id (wj_payload job))
               (payload_event_type (wj_payload job)) status attempts (u32_as_i32 (wj_max_attempts job)) last_error in
  do* st_try (exchange db_lost
                (st_modify (fun s => set_deliveries
                   (<[wj_id job := upserted_row row (sv_deliveries s !! wj_id job)]> (sv_deliveries s)) s)));
  st_ret tt.

(** [ZADD] on the ready queue *)
Definition zadd_ready (score : Z) (json : string) : M WebhookError unit :=
  exchange (WhRedis "connection lost")
    (st_modify (fun s => set_queue (<[json := score]> (sv_ready s)) (sv_processing s) s)).

(** [WebhookService::connection]: obtaining the shared connection may fail. *)
Definition connection : M WebhookError unit :=
  exchange (WhRedis "connection refused") (st_ret tt).

(** [WebhookService::queue_webhook] *)
Definition queue_webhook (job : WebhookJob) : M WebhookError unit :=
  do* connection;
  do* zadd_ready (timestamp (wj_scheduled_at job)) (job_to_json job);
  write_delivery_record job DPending 0 None.

Inductive QueueOutcome := Queued | Skipped | QueueFailed.

(** [suppressed_by_prefs] *)
Definition suppressed_by_prefs {E} (store_id : Uuid) (event_key : string) : M E bool :=
  let* r := st_try (db (get_store_settings store_id)) in
  match r with
  | Ok (Some prefs) =>
      st_ret (json_is_false (x ← json_get event_key prefs; json_get "webhook" x))
  | _ => st_ret false
  end.

(** [queue_for_store] *)
Definition queue_for_store {E} (store_id : Uuid) (payload : WebhookPayload) : M E QueueOutcome :=
  let event_key := payload_event_type payload in
  let* suppressed := suppressed_by_prefs store_id event_key in
  if (suppressed : bool) then st_ret Skipped
  else
    let* config := st_try (db (get_enabled_webhook store_id)) in
    match config with
    | Ok None => st_ret Skipped
    | Err _ => st_ret QueueFailed
    | Ok (Some webhook) =>
        let* id := fresh in
        let* now := utc_now in
        let job := new_job id now (sw_id webhook) (sw_url webhook) (sw_secret webhook) payload in
        let* r := st_try (queue_webhook job) in
        match r with
        | Err _ => st_ret QueueFailed
        | Ok _ => st_ret Queued
        end
    end.

(** ** Own-store observers *)

(** [OwnStorePayment::from_invoice] *)
Definition from_invoice (invoice : InvoiceData) (settled_at : Instant) : OwnStorePayment :=
  {| os_invoice_id := id_id invoice;
     os_currency := id_currency invoice;
     os_amount_received := id_amount_received invoice;
     os_status := id_status invoice;
     os_settled_at := settled_at;
     os_metadata := id_metadata invoice |}.

(** [is_own_store] *)
Definition is_own_store (own_store_id : option Uuid) (settled_store_id : Uuid) : bool :=
  match own_store_id with Some own => own =? settled_store_id | None => false end.

(** [notify_own_store_payment]; an observer is named by its position. *)
Definition notify_own_store_payment {E} (observers : list nat) (own_store_id : option Uuid)
    (invoice : InvoiceData) (settled_at : Instant) : M E unit :=
  match observers with
  | [] => st_ret tt
  | _ =>
      if negb (is_own_store own_store_id (id_store_id invoice)) then st_ret tt
      else
        let payment := from_invoice invoice settled_at in
        st_for observers (fun o => st_modify (add_observed [(o, payment)]))
  end.
End Services.

(** * Reasoning about the server's services

    Invariants of the database through the code that uses it: what a statement
    keeps, a request that runs it keeps, whatever becomes of the request; and
    the services that only read keep every invariant of the database. *)

(** A property of the database, as an invariant of the server. *)
Definition on_db (P : Db -> Prop) : Server -> Prop := fun s => P (sv_db s).

Definition stmt_keeps {A} (P : Db -> Prop) (stmt : Statement A) : Prop :=
  forall now d, P d -> P (snd (stmt now d)).

(** Case analysis through a monadic program. *)
Ltac keep_step :=
  match goal with
  | |- preserves _ (st_ret _) => apply preserves_ret
  | |- preserves _ (st_throw _) => apply preserves_throw
  | |- preserves _ (st_gets _) => apply preserves_gets
  | |- preserves _ (st_bind _ _) => apply preserves_bind; [|intros]
  | |- preserves _ (st_try _) => apply preserves_try
  | |- preserves _ (st_map_err _ _) => apply preserves_map_err
  | |- preserves _ (st_when _ _) => apply preserves_when
  | |- preserves _ (st_for _ _) => apply preserves_for; intros
  | |- preserves _ (st_fold _ _ _) => apply preserves_fold; intros
  | |- preserves _ (match ?x with _ => _ end) => destruct x
  | |- preserves _ _ => solve [eauto with preserves]
  end.
Ltac keeps := repeat keep_step.

Section Keeps.
Context `{Runtime} `{Numeric} `{Formats} `{ApiTypes} `{!JobCodec}.

Lemma keeps_select {A} P (f : Db -> A) : stmt_keeps P (select f).
Proof. by intros now d Hd. Qed.

Lemma preserves_exchange (I : Server -> Prop) {E A} (fault : E) (op : M E A) :
  (forall s, I s -> I (tick s)) -> preserves I op -> preserves I (exchange fault op).
Proof.
  intros Ht Hop s Hs. unfold exchange. destruct (calls _); cbn; auto; apply Hop; auto.
Qed.

Lemma on_db_tick P s : on_db P s -> on_db P (tick s).
Proof. done. Qed.

Lemma preserves_exchange_db P {E A} (fault : E) (op : M E A) :
  preserves (on_db P) op -> preserves (on_db P) (exchange fault op).
Proof. apply preserves_exchange. done. Qed.

Lemma preserves_db P {A} (stmt : Statement A) : stmt_keeps P stmt -> preserves (on_db P) (db stmt).
Proof.
  intros Hst s Hs. unfold db. apply preserves_exchange_db; [|done].
  intros s' Hs'. specialize (Hst (clock (sv_ticks s)) _ Hs').
  by destruct (stmt _ _) as [r d] eqn:E.
Qed.

Lemma preserves_modify_db P {E} (f : Server -> Server) :
  (forall s, sv_db (f s) = sv_db s) -> preserves (on_db P) (@st_modify Server E f).
Proof. intros Hf s Hs. unfold on_db in *. cbn. by rewrite Hf. Qed.

Lemma preserves_fresh P {E} : preserves (on_db P) (@fresh _ E).
Proof. by intros s Hs. Qed.

Lemma preserves_utc_now I {E} : preserves I (@utc_now _ E).
Proof. apply preserves_gets. Qed.
End Keeps.

#[export] Hint Resolve keeps_select preserves_exchange_db preserves_db preserves_fresh
  preserves_utc_now : preserves.
#[export] Hint Extern 2 (preserves (on_db _) (st_modify _)) =>
  apply preserves_modify_db; intros; reflexivity : preserves.
#[export] Hint Extern 2 (stmt_keeps _ _) => apply keeps_select : preserves.

Section ReadOnlyServices.
Context `{Runtime} `{Numeric} `{Formats} `{ApiTypes} `{!JobCodec}.
Context (P : Db -> Prop).

Lemma ws_send_keeps {E} store u : preserves (on_db P) (@ws_send E store u).
Proof. unfold ws_send. keeps. Qed.

Lemma send_for_invoice_keeps {E} i u : preserves (on_db P) (send_for_invoice (E := E) i u).
Proof. unfold send_for_invoice. keeps; apply ws_send_keeps. Qed.

Lemma write_delivery_record_keeps {E} j st n e :
  preserves (on_db P) (write_delivery_record (E := E) j st n e).
Proof. unfold write_delivery_record. keeps. Qed.

Lemma queue_webhook_keeps j : preserves (on_db P) (queue_webhook j).
Proof.
  unfold queue_webhook, connection, zadd_ready, write_delivery_record. keeps.
Qed.

Lemma suppressed_by_prefs_keeps {E} st k : preserves (on_db P) (suppressed_by_prefs (E := E) st k).
Proof. unfold suppressed_by_prefs. keeps. Qed.

Lemma queue_for_store_keeps {E} st p : preserves (on_db P) (queue_for_store (E := E) st p).
Proof.
  unfold queue_for_store. apply preserves_bind; [apply suppressed_by_prefs_keeps|]. intros b.
  keeps. apply queue_webhook_keeps.
Qed.

Lemma notify_own_store_payment_keeps {E} os own i t :
  preserves (on_db P) (notify_own_store_payment (E := E) os own i t).
Proof. unfold notify_own_store_payment. keeps. Qed.

(** The transactional upsert: the invariant must survive both statements. *)
Lemma upsert_with_obligation_keeps p i ev :
  stmt_keeps P (upsert_payment_row p i) ->
  (forall id pid, stmt_keeps P (insert_obligation id pid (pda_invoice_id p) ev)) ->
  preserves (on_db P) (upsert_with_tx_index_and_obligation p i ev).
Proof.
  intros Hu Ho s Hs. unfold upsert_with_tx_index_and_obligation, st_bind, utc_now, st_gets, exchange at 1.
  destruct (calls _); cbn; [|done..].
  unfold tx_statement at 1, exchange at 1. destruct (calls _); cbn.
  2: done.
  2: by destruct (upsert_payment_row p i _ _) as [[] ?].
  specialize (Hu (clock (sv_ticks s)) _ Hs).
  destruct (upsert_payment_row p i _ _) as [[pid|e] d1]; cbn in *; [|done].
  unfold tx_statement, exchange at 1. destruct (calls _); cbn.
  2: done.
  2: by destruct (insert_obligation _ _ _ _ _ _) as [[] ?].
  specialize (Ho (new_v4 (sv_uuids s)) pid (clock (sv_ticks s)) _ Hu).
  destruct (insert_obligation _ _ _ _ _ _) as [[u|e] d2]; cbn in *; [|done].
  unfold exchange. by destruct (calls _).
Qed.
End ReadOnlyServices.

#[export] Hint Resolve ws_send_keeps send_for_invoice_keeps write_delivery_record_keeps
  queue_webhook_keeps suppressed_by_prefs_keeps queue_for_store_keeps
  notify_own_store_payment_keeps upsert_with_obligation_keeps : preserves.

(** ** Best-effort services never fail *)

Section Total.
Context `{Runtime} `{Numeric} `{Formats} `{ApiTypes} `{!JobCodec}.

Lemma utc_now_total {E} : total (@utc_now _ E).
Proof. done. Qed.

Lemma fresh_total {E} : total (@fresh _ E).
Proof. done. Qed.

Lemma send_for_invoice_total {E} i u : total (send_for_invoice (E := E) i u).
Proof. unfold send_for_invoice, ws_send. totals. Qed.

Lemma queue_for_store_total {E} st p : total (queue_for_store (E := E) st p).
Proof. unfold queue_for_store, suppressed_by_prefs. totals; first [apply fresh_total | apply utc_now_total]. Qed.

(** A request that is answered is the statement. *)
Lemma db_answered {A} (stmt : Statement A) s :
  calls (sv_ticks s) = Answered ->
  db stmt s = (fst (stmt (clock (sv_ticks s)) (sv_db s)),
               set_db (snd (stmt (clock (sv_ticks s)) (sv_db s))) (tick s)).
Proof.
  intros Hc. unfold db, exchange. rewrite Hc. cbn. by destruct (stmt _ _).
Qed.
End Total.
