(* ===== verification/Cleanup.v ===== *)
(** * Invoice expiry and address cleanup

    [server/src/services/invoice_cleanup.rs] with the readers it uses from
    [data-service/src/postgres/watched_address.rs] and the command it sends
    through [server/src/services/evm_monitor.rs]. *)

From stdpp Require Import gmap strings list sorting.
From Stdlib Require Import ZArith Lia.
From S2P Require Import Prelude Events Network Decimal Database Services DatabaseFacts.

Record CleanupConfig := mkCleanupConfig {
  fallback_interval_secs : Z;
  unwatch_grace_period_secs : Z;
  paid_unwatch_grace_period_secs : Z
}.

(** [CleanupConfig::default] *)
Definition default_cleanup_config : CleanupConfig := mkCleanupConfig 60 60 3600.

(** [CleanupConfig::from_env]: a variable that is unset or does not parse as a
    [u64] takes its default. *)
Definition cleanup_config_from_env (var : string -> option string) : CleanupConfig :=
  let get name dflt := default dflt (v ← var name; parse_u64 v) in
  mkCleanupConfig (get "CLEANUP_FALLBACK_INTERVAL_SECS"%string 60)
    (get "CLEANUP_UNWATCH_GRACE_PERIOD_SECS"%string 60)
    (get "CLEANUP_PAID_UNWATCH_GRACE_PERIOD_SECS"%string 3600).

(** The largest number of seconds a [chrono::Duration] holds. *)
Definition MAX_DURATION_SECS : Z := (2 ^ 63 - 1) / 1000.

(** [InvoiceCleanupService]: its configuration and which optional services it
    was given. *)
Record CleanupService := mkCleanupService {
  cs_config : CleanupConfig;
  cs_webhooks : bool;
  cs_ws : bool
}.

Inductive CleanupError : Type :=
| NotAnEvmChain (chain : string)
| CleanupRepository (e : RepositoryError)
| CleanupMonitor (msg : string)
| CleanupInvalidAddress (address : string).

Record CleanupStats := mkCleanupStats { st_expired : Z; st_paid : Z; st_cancelled : Z }.

(** [CleanupStats::total] *)
Definition stats_total (s : CleanupStats) : Z :=
  u64_add (u64_add (st_expired s) (st_paid s)) (st_cancelled s).

Record CleanupAddressInfo := mkCleanupAddressInfo {
  ca_address : string;
  ca_payment_option_id : Uuid;
  ca_invoice_id : string;
  ca_chain_id : string;
  ca_token_address : option string
}.

(** ** The readers *)

(** The join of active watches with their payment option and invoice, filtered,
    ordered by an instant and limited to 100 rows. *)
Definition cleanup_join (p : InvoiceRow -> bool) (d : Db) : list (InvoiceRow * CleanupAddressInfo) :=
  omap (fun w =>
          if negb (wr_is_active w) then None
          else
            po ← db_payment_options d !! wr_payment_option_id w;
            i ← db_invoices d !! po_invoice_id po;
            if p i
            then Some (i, mkCleanupAddressInfo (wr_address w) (wr_payment_option_id w)
                            (po_invoice_id po) (wr_chain_id w) (wr_token_address w))
            else None)
       (db_watched d).

Definition before (key : InvoiceRow -> Instant) (a b : InvoiceRow * CleanupAddressInfo) : Prop :=
  key a.1 <= key b.1.
#[export] Instance before_dec key : RelDecision (before key).
Proof. intros a b. unfold before. apply _. Defined.

Definition cleanup_rows (p : InvoiceRow -> bool) (key : InvoiceRow -> Instant) (d : Db)
  : list CleanupAddressInfo :=
  take 100 (snd <$> merge_sort (before key) (cleanup_join p d)).

(** [WatchedAddressReader::get_expired_for_cleanup] *)
Definition get_expired_for_cleanup (grace_period_secs : Z) : Statement (list CleanupAddressInfo) :=
  fun now d =>
    (Ok (cleanup_rows (fun i => bool_decide (inv_status i = Expired)
                                && (inv_expires_at i <? now - seconds grace_period_secs))
           inv_expires_at d), d).

(** [WatchedAddressReader::get_paid_for_cleanup] *)
Definition get_paid_for_cleanup : Statement (list CleanupAddressInfo) :=
  select (cleanup_rows (fun i => bool_decide (inv_status i = Paid)) inv_created_at).

(** [WatchedAddressReader::get_cancelled_for_cleanup] *)
Definition get_cancelled_for_cleanup : Statement (list CleanupAddressInfo) :=
  select (cleanup_rows (fun i => bool_decide (inv_status i = Cancelled)) inv_created_at).

Section Cleanup.
Context `{Runtime} `{Numeric} `{Formats} `{ApiTypes} `{!JobCodec}.

Definition cleanup_db {A} (stmt : Statement A) : M CleanupError A :=
  st_map_err CleanupRepository (db stmt).

(** ** Expiry *)

(** [queue_expiration_webhook] *)
Definition queue_expiration_webhook {E} (svc : CleanupService) (invoice_id : string) : M E unit :=
  if negb (cs_webhooks svc) then st_ret tt
  else
    let* r := st_try (db (invoice_get invoice_id)) in
    match r with
    | Ok (Some invoice) =>
        let* t := st_gets sv_ticks in
        do* queue_for_store (id_store_id invoice) (invoice_event t InvoiceExpiredEvent invoice);
        st_ret tt
    | Ok None => st_ret tt
    | Err _ => st_ret tt
    end.

(** The body of the loop of [check_expired]. *)
Definition expire_one {E} (svc : CleanupService) (expired_count : Z) (invoice_id : string) : M E Z :=
  let* r := st_try (db (invoice_expire invoice_id)) in
  match r with
  | Ok true =>
      do* st_when (cs_ws svc)
            (send_for_invoice invoice_id (InvoiceStatusUpdate invoice_id "expired"));
      do* queue_expiration_webhook svc invoice_id;
      st_ret (u64_add expired_count 1)
  | Ok false => st_ret expired_count
  | Err _ => st_ret expired_count
  end.

(** [check_expired]; the rows of the stream are read as one answer. *)
Definition check_expired (svc : CleanupService) : M CleanupError Z :=
  let* r := st_try (db stream_expired_pending) in
  match r with
  | Ok ids => st_fold (expire_one svc) 0 ids
  | Err _ => st_ret 0
  end.

(** [check_chain] *)
Definition check_chain (svc : CleanupService) (_chain_id : Z) : M CleanupError Z := check_expired svc.

(** ** Unwatching *)

(** [RedisEVMMonitor::unwatch_address_by_chain_id] *)
Definition unwatch_address_by_chain_id (chain_id : Z) (address : Address) (token : option Address)
  : M CleanupError unit :=
  exchange (CleanupMonitor "publish failed")
    (st_modify (add_command (UnwatchAddress (mkUnwatchAddressCommand chain_id address token)))).

(** [unwatch_and_deactivate] *)
Definition unwatch_and_deactivate (info : CleanupAddressInfo) : M CleanupError unit :=
  match parse_address (ca_address info) with
  | None => st_throw (CleanupInvalidAddress (ca_address info))
  | Some addr =>
      let token_contract := t ← ca_token_address info; parse_address t in
      match evm_chain_id (ca_chain_id info) with
      | None => st_throw (NotAnEvmChain (ca_chain_id info))
      | Some eip155 =>
          do* unwatch_address_by_chain_id eip155 addr token_contract;
          do* cleanup_db (deactivate (ca_address info) (ca_chain_id info) (ca_token_address info));
          st_ret tt
      end
  end.

Definition count_unwatched (count : Z) (info : CleanupAddressInfo) : M CleanupError Z :=
  let* r := st_try (unwatch_and_deactivate info) in
  match r with
  | Err _ => st_ret count
  | Ok _ => st_ret (u64_add count 1)
  end.

(** [cleanup_expired_addresses] *)
Definition cleanup_expired_addresses (cfg : CleanupConfig) : M CleanupError Z :=
  let* addresses := cleanup_db (get_expired_for_cleanup (u64_as_i64 (unwatch_grace_period_secs cfg))) in
  st_fold count_unwatched 0 addresses.

(** [effective_paid_unwatch_grace_period_secs] *)
Definition effective_paid_unwatch_grace_period_secs (cfg : CleanupConfig) (chain_id : string) : Z :=
  let floor := default 0 (min_paid_unwatch_grace_period_secs
                            <$> (c ← evm_chain_id chain_id; get_any_chain_config c)) in
  Z.max (paid_unwatch_grace_period_secs cfg) floor.

(** [within_paid_grace_period]; [chrono::Duration::seconds] panics beyond
    [MAX_DURATION_SECS], so a configuration past it is outside the model. *)
Definition within_paid_grace_period (cfg : CleanupConfig) (invoice_id : string) : M CleanupError bool :=
  let* payments := cleanup_db (payments_get_for_invoice invoice_id) in
  let* now := utc_now in
  st_ret (existsb (fun p =>
    match pda_confirmed_at p with
    | Some c =>
        now - c <? seconds (u64_as_i64 (effective_paid_unwatch_grace_period_secs cfg (pda_chain_id p)))
    | None => false
    end) payments).

(** The body of the loop of [cleanup_paid_addresses]. *)
Definition cleanup_one_paid (cfg : CleanupConfig) (count : Z) (info : CleanupAddressInfo)
  : M CleanupError Z :=
  let* within := st_try (within_paid_grace_period cfg (ca_invoice_id info)) in
  match within with
  | Ok true => st_ret count
  | Ok false => count_unwatched count info
  | Err _ => st_ret count
  end.

(** [cleanup_paid_addresses] *)
Definition cleanup_paid_addresses (cfg : CleanupConfig) : M CleanupError Z :=
  let* addresses := cleanup_db get_paid_for_cleanup in
  st_fold (cleanup_one_paid cfg) 0 addresses.

(** [cleanup_cancelled_addresses] *)
Definition cleanup_cancelled_addresses : M CleanupError Z :=
  let* addresses := cleanup_db get_cancelled_for_cleanup in
  st_fold count_unwatched 0 addresses.

(** [cleanup_addresses] *)
Definition cleanup_addresses (cfg : CleanupConfig) : M CleanupError CleanupStats :=
  let* expired := cleanup_expired_addresses cfg in
  let* paid := cleanup_paid_addresses cfg in
  let* cancelled := cleanup_cancelled_addresses in
  st_ret (mkCleanupStats expired paid cancelled).

(** One turn of the loop of [InvoiceCleanupService::run]. *)
Definition cleanup_turn (svc : CleanupService) : M CleanupError unit :=
  do* st_try (E' := CleanupError) (check_expired svc);
  do* st_try (E' := CleanupError) (cleanup_addresses (cs_config svc));
  st_ret tt.
End Cleanup.

(** * What the cleanup service may take away

    An address stops being watched only after the monitor was told, and the
    address of a paid invoice only once every confirmation on it is older than
    the grace period of its chain. *)

Section CleanupFacts.
Context `{Runtime} `{Numeric} `{Formats} `{ApiTypes} `{!JobCodec}.

(** ** Told before deactivated *)

(** The monitor was sent the command to stop watching [w]. *)
Definition told (s : Server) (w : WatchRow) : Prop :=
  exists info addr chain token,
    watch_matches (ca_address info) (ca_chain_id info) (ca_token_address info) w = true /\
    parse_address (ca_address info) = Some addr /\ evm_chain_id (ca_chain_id info) = Some chain /\
    UnwatchAddress (mkUnwatchAddressCommand chain addr token) ∈ sv_commands s.

(** Since [ws], every watch that was deactivated was announced. *)
Definition announced_from (ws : list WatchRow) (s : Server) : Prop :=
  Forall2 (fun w w' => set_watch_flags true true w = set_watch_flags true true w' /\
             (wr_is_active w' = wr_is_active w \/ wr_is_active w' = false /\ told s w))
    ws (db_watched (sv_db s)).

Lemma told_mono s s' w :
  (forall c, c ∈ sv_commands s -> c ∈ sv_commands s') -> told s w -> told s' w.
Proof. intros Hc (i & a & c & t & Hm & Ha & Hch & Hin). exists i, a, c, t. auto. Qed.

Lemma announced_mono ws s s' :
  db_watched (sv_db s') = db_watched (sv_db s) -> (forall c, c ∈ sv_commands s -> c ∈ sv_commands s') ->
  announced_from ws s -> announced_from ws s'.
Proof.
  unfold announced_from. intros -> Hc Hs. eapply Forall2_impl; [exact Hs|]. intros w w' [Hf [?|[? Ht]]]; [by auto|].
  split; [done|]. right. split; [done|]. by eapply told_mono.
Qed.

(** The statements and requests that change neither watches nor commands. *)
Definition quiet (s s' : Server) : Prop :=
  db_watched (sv_db s') = db_watched (sv_db s) /\ sv_commands s' = sv_commands s.

Lemma quiet_announced ws {E A} (m : M E A) :
  (forall s, quiet s (snd (m s))) -> preserves (announced_from ws) m.
Proof.
  intros Hq s Hs. destruct (Hq s) as [Hw Hc]. eapply announced_mono; [done| |done]. by rewrite Hc.
Qed.

Definition quiet_stmt {A} (stmt : Statement A) : Prop :=
  forall now d, db_watched (snd (stmt now d)) = db_watched d.

Lemma quiet_db {A} (stmt : Statement A) s : quiet_stmt stmt -> quiet s (snd (db stmt s)).
Proof.
  intros Hq. unfold db, exchange. specialize (Hq (clock (sv_ticks s)) (sv_db s)).
  destruct (calls _); cbn; [|done|]; by destruct (stmt _ _) as [r d].
Qed.

Lemma announced_db ws {A} (stmt : Statement A) : quiet_stmt stmt -> preserves (announced_from ws) (db stmt).
Proof. intros Hq. apply quiet_announced. intros s. by apply quiet_db. Qed.

Lemma announced_tick ws s : announced_from ws s -> announced_from ws (tick s).
Proof. by apply announced_mono. Qed.

Lemma announced_exchange ws {E A} (fault : E) (op : M E A) :
  preserves (announced_from ws) op -> preserves (announced_from ws) (exchange fault op).
Proof. apply preserves_exchange, announced_tick. Qed.

Lemma announced_modify ws {E} (f : Server -> Server) :
  (forall s, quiet s (f s)) -> preserves (announced_from ws) (@st_modify Server E f).
Proof. intros Hf. apply quiet_announced. exact Hf. Qed.

Lemma expire_quiet i : quiet_stmt (invoice_expire i).
Proof. intros now d. unfold invoice_expire. by repeat case_match. Qed.

Lemma announced_fresh ws {E} : preserves (announced_from ws) (@fresh _ E).
Proof. by apply quiet_announced. Qed.

#[local] Hint Resolve announced_db announced_exchange announced_fresh expire_quiet : preserves.
#[local] Hint Extern 2 (quiet_stmt _) => (intros ? ?; reflexivity) : preserves.
#[local] Hint Extern 2 (preserves (announced_from _) (st_modify _)) =>
  (apply announced_modify; intros; split; reflexivity) : preserves.

Lemma check_expired_announced ws svc : preserves (announced_from ws) (check_expired svc).
Proof.
  unfold check_expired, expire_one, queue_expiration_webhook, send_for_invoice, ws_send, queue_for_store,
    suppressed_by_prefs, queue_webhook, connection, zadd_ready, write_delivery_record. keeps.
Qed.

(** Deactivating what was just announced. *)
Lemma deactivate_announced ws info addr chain token s :
  parse_address (ca_address info) = Some addr -> evm_chain_id (ca_chain_id info) = Some chain ->
  UnwatchAddress (mkUnwatchAddressCommand chain addr token) ∈ sv_commands s -> announced_from ws s ->
  announced_from ws
    (set_db (snd (deactivate (ca_address info) (ca_chain_id info) (ca_token_address info) (clock 0) (sv_db s))) s).
Proof.
  intros Ha Hch Hin Hs. unfold announced_from in *. cbn. apply Forall2_fmap_r.
  eapply Forall2_impl; [exact Hs|]. intros w w' [Hf Hold]. cbn.
  destruct (watch_matches _ _ _ w' && wr_is_active w') eqn:Hhit; [|done].
  apply andb_true_iff in Hhit as [Hm _]. split; [exact Hf|]. right. split; [done|].
  exists info, addr, chain, token. split; [|done].
  rewrite <- Hm. destruct w, w'. cbn in Hf. injection Hf as -> -> -> -> -> ->. done.
Qed.

Lemma unwatch_announced ws info : preserves (announced_from ws) (unwatch_and_deactivate info).
Proof.
  unfold unwatch_and_deactivate. destruct (parse_address (ca_address info)) as [addr|] eqn:Ha; [|keeps].
  destruct (evm_chain_id (ca_chain_id info)) as [chain|] eqn:Hch; [|keeps].
  set (token := _ ← ca_token_address info; _). intros s Hs.
  unfold unwatch_address_by_chain_id, st_bind, exchange at 1.
  assert (Hsent : announced_from ws (add_command (UnwatchAddress (mkUnwatchAddressCommand chain addr token)) (tick s))).
  { eapply announced_mono; [|intros c Hc|exact Hs]; [done|]. cbn. set_solver. }
  destruct (calls (sv_ticks s)); [|exact Hs|exact Hsent]. cbn [fst snd st_modify].
  set (s1 := add_command _ _) in *. unfold cleanup_db, st_map_err, db, exchange.
  assert (Hdone : announced_from ws (set_db (snd (deactivate (ca_address info) (ca_chain_id info)
            (ca_token_address info) (clock 0) (sv_db s1))) (tick s1))).
  { apply (deactivate_announced ws info addr chain token (tick s1)); [done..| |done]. cbn. set_solver. }
  destruct (calls (sv_ticks s1)); cbn; [exact Hdone|exact Hsent|exact Hdone].
Qed.

(** Whatever requests fail during a pass of the cleanup service, a watch
    it deactivates is one whose unwatch command reached the monitor's channel:
    the database never says an address is not watched while the monitor was
    never told to stop. *)
Theorem watch_deactivated_only_after_unwatch svc s j w w' :
  db_watched (sv_db s) !! j = Some w -> db_watched (sv_db (snd (cleanup_turn svc s))) !! j = Some w' ->
  wr_is_active w = true -> wr_is_active w' = false -> told (snd (cleanup_turn svc s)) w.
Proof.
  intros Hj Hj' Hact Hina.
  assert (Hp : preserves (announced_from (db_watched (sv_db s))) (cleanup_turn svc)).
  { unfold cleanup_turn. keep_step; [keep_step; apply check_expired_announced|].
    unfold cleanup_addresses, cleanup_expired_addresses, cleanup_paid_addresses,
      cleanup_cancelled_addresses, cleanup_one_paid, within_paid_grace_period, count_unwatched, cleanup_db.
    keeps; apply unwatch_announced. }
  assert (Hs : announced_from (db_watched (sv_db s)) s)
    by (unfold announced_from; apply Forall_Forall2_diag, Forall_true; auto).
  specialize (Hp s Hs). unfold announced_from in Hp.
  destruct (Forall2_lookup_lr _ _ _ _ _ _ Hp Hj Hj') as [_ [He|[_ Ht]]]; [congruence|done].
Qed.

(** ** The grace period of a paid invoice *)

Lemma within_grace_spec cfg i s b s' :
  within_paid_grace_period cfg i s = (Ok b, s') ->
  sv_commands s' = sv_commands s /\
  (b = false -> forall k r c, db_payments (sv_db s) !! k = Some r -> pay_invoice_id r = i ->
     pay_confirmed_at r = Some c ->
     seconds (u64_as_i64 (effective_paid_unwatch_grace_period_secs cfg k.1.1)) <= clock (S (sv_ticks s)) - c).
Proof.
  unfold within_paid_grace_period. intros Hw. inv_ok Hw as ps s1 Ha Hb.
  unfold cleanup_db, st_map_err, db, exchange in Ha. destruct (calls _); cbn in Ha; [|discriminate..].
  injection Ha as <- <-. injection Hb as <- <-. cbn. split; [done|].
  intros Hex k r c Hk Hi Hc.
  assert (Hin : row_to_payment k r ∈ (fun kr => row_to_payment kr.1 kr.2)
            <$> payments_where (fun _ r => String.eqb (pay_invoice_id r) i) (sv_db s)).
  { apply list_elem_of_fmap. exists (k, r). split; [done|]. apply payments_where_spec. split; [done|].
    by apply String.eqb_eq. }
  apply not_true_iff_false in Hex. rewrite existsb_exists in Hex.
  destruct (Z.lt_ge_cases (clock (S (sv_ticks s)) - c)
    (seconds (u64_as_i64 (effective_paid_unwatch_grace_period_secs cfg k.1.1)))) as [Hlt|Hge]; [|done].
  destruct Hex. exists (row_to_payment k r). split; [by apply list_elem_of_In|]. cbn. rewrite Hc.
  by apply Z.ltb_lt.
Qed.

Lemma seconds_mono x y : x <= y -> seconds x <= seconds y.
Proof. unfold seconds, NANOS. lia. Qed.

(** The grace period is the larger of the configured one and the chain's own,
    and neither is lost in the cast to a signed number of seconds. *)
Lemma grace_small cfg chain_id :
  0 <= paid_unwatch_grace_period_secs cfg <= MAX_DURATION_SECS ->
  u64_as_i64 (effective_paid_unwatch_grace_period_secs cfg chain_id)
  = effective_paid_unwatch_grace_period_secs cfg chain_id.
Proof.
  intros Hcfg. unfold u64_as_i64. destruct (Z.ltb_spec (effective_paid_unwatch_grace_period_secs cfg chain_id) (2 ^ 63)) as [|Hbig]; [done|].
  exfalso. unfold effective_paid_unwatch_grace_period_secs in Hbig.
  assert (Hfl : default 0 (min_paid_unwatch_grace_period_secs <$> (c ← evm_chain_id chain_id; get_any_chain_config c)) <= 3600).
  { destruct (evm_chain_id chain_id) as [c|]; simpl; [|lia].
    destruct (get_any_chain_config c) eqn:Hc; simpl; [|lia]. by apply offered_grace_floor in Hc as [_ ?]. }
  assert (Hm : MAX_DURATION_SECS < 2 ^ 63) by done. lia.
Qed.

Lemma grace_configured cfg chain_id :
  0 <= paid_unwatch_grace_period_secs cfg <= MAX_DURATION_SECS ->
  paid_unwatch_grace_period_secs cfg <= u64_as_i64 (effective_paid_unwatch_grace_period_secs cfg chain_id).
Proof. intros Hcfg. rewrite grace_small by done. unfold effective_paid_unwatch_grace_period_secs. lia. Qed.

Lemma grace_floor cfg chain_id chain chain_cfg :
  0 <= paid_unwatch_grace_period_secs cfg <= MAX_DURATION_SECS ->
  evm_chain_id chain_id = Some chain -> get_any_chain_config chain = Some chain_cfg ->
  min_paid_unwatch_grace_period_secs chain_cfg
  <= u64_as_i64 (effective_paid_unwatch_grace_period_secs cfg chain_id).
Proof.
  intros Hcfg Hch Hcc. rewrite grace_small by done.
  unfold effective_paid_unwatch_grace_period_secs. rewrite Hch. cbn. rewrite Hcc. cbn. lia.
Qed.

(** The address of a paid invoice is only unwatched when every confirmed
    payment of the invoice has been confirmed for at least the configured
    grace period and at least the minimum its own chain asks for, at the
    instant read after looking the payments up; a failed lookup leaves it
    watched. *)
Theorem paid_address_watched_through_grace cfg count info s r s' :
  0 <= paid_unwatch_grace_period_secs cfg <= MAX_DURATION_SECS ->
  cleanup_one_paid cfg count info s = (r, s') -> sv_commands s' <> sv_commands s ->
  let now := clock (S (sv_ticks s)) in
  forall k row c, db_payments (sv_db s) !! k = Some row ->
    pay_invoice_id row = ca_invoice_id info -> pay_confirmed_at row = Some c ->
    seconds (paid_unwatch_grace_period_secs cfg) <= now - c /\
    forall chain chain_cfg, evm_chain_id k.1.1 = Some chain -> get_any_chain_config chain = Some chain_cfg ->
      seconds (min_paid_unwatch_grace_period_secs chain_cfg) <= now - c.
Proof.
  intros Hcfg Hc Hne now. unfold cleanup_one_paid, st_bind, st_try in Hc.
  destruct (within_paid_grace_period cfg (ca_invoice_id info) s) as [[b|e] s1] eqn:Hw.
  2:{ destruct Hne. injection Hc as _ <-.
      unfold within_paid_grace_period, st_bind, cleanup_db, st_map_err, db, exchange in Hw.
      destruct (calls _); cbn in Hw; [discriminate|injection Hw as _ <-..]; done. }
  apply within_grace_spec in Hw as [Hcmd Hw].
  destruct b; [destruct Hne; by injection Hc as _ <-|].
  intros k row c Hk Hi Hco. specialize (Hw eq_refl k row c Hk Hi Hco).
  split; [|intros chain chain_cfg Hch Hcc]; (etrans; [|exact Hw]); apply seconds_mono.
  - by apply grace_configured.
  - by apply (grace_floor cfg _ chain).
Qed.
End CleanupFacts.
