(* ===== verification/WatchRetry.v ===== *)
(** * Re-sending watch commands

    [server/src/services/watch_retry.rs] with the reader [get_pending] of
    [data-service/src/postgres/watched_address.rs] and the command it sends
    through [server/src/services/evm_monitor.rs]: a watch the monitor was not
    told of is announced again until its row says it was. *)

From stdpp Require Import gmap strings list sorting.
From Stdlib Require Import ZArith Lia.
From S2P Require Import Prelude Events Network Decimal Database DatabaseFacts Services.

(** [retry_interval] in seconds *)
Record WatchRetryConfig := mkWatchRetryConfig { retry_interval : Z; enabled : bool }.

(** [WatchRetryConfig::default] *)
Definition default_watch_retry_config : WatchRetryConfig := mkWatchRetryConfig 30 true.

(** [WatchRetryConfig::from_env] *)
Definition watch_retry_config_from_env (var : string -> option string) : WatchRetryConfig :=
  mkWatchRetryConfig
    (default 30 (v ← var "WATCH_RETRY_INTERVAL_SECS"%string; parse_u64 v))
    (match var "WATCH_RETRY_ENABLED"%string with
     | Some v => negb (String.eqb v "false") && negb (String.eqb v "0")
     | None => true
     end).

Record PendingWatchInfo := mkPendingWatchInfo {
  pw_address : string;
  pw_payment_option_id : Uuid;
  pw_invoice_id : string;
  pw_chain_id : string;
  pw_expected_amount : option string;
  pw_token_address : option string
}.

(** [EVMMonitorError] of a command that was not published. *)
Inductive WatchRetryError : Type :=
| RetryRepository (e : RepositoryError)
| RetryMonitor (msg : string).

(** ** The reader *)

(** The row is active, the monitor was not told, and it has not expired. *)
Definition is_pending (now : Instant) (w : WatchRow) : bool :=
  wr_is_active w && negb (wr_monitor_notified w) && (now <? wr_expires_at w).

Definition pending_info (d : Db) (w : WatchRow) : option (WatchRow * PendingWatchInfo) :=
  po ← db_payment_options d !! wr_payment_option_id w;
  Some (w, mkPendingWatchInfo (wr_address w) (wr_payment_option_id w) (po_invoice_id po)
             (wr_chain_id w) (Some (z_to_string (po_amount po))) (wr_token_address w)).

Definition created_before (a b : WatchRow * PendingWatchInfo) : Prop := wr_created_at a.1 <= wr_created_at b.1.
#[export] Instance created_before_dec : RelDecision created_before.
Proof. intros a b. unfold created_before. apply _. Defined.

(** [WatchedAddressReader::get_pending] *)
Definition get_pending : Statement (list PendingWatchInfo) :=
  fun now d =>
    (Ok (take 100 (snd <$> merge_sort created_before
           (omap (pending_info d) (List.filter (is_pending now) (db_watched d))))), d).

(** ** The service *)

Section WatchRetry.
Context `{Runtime} `{Formats}.
(** [Uuid::parse_str] and [U256::from_str]. *)
Context (parse_uuid : string -> option Uuid) (parse_u256 : string -> option U256).

(** [RedisEVMMonitor::watch_address_by_chain_id] *)
Definition watch_address_by_chain_id (chain_id : Z) (address : Address) (invoice_id : Uuid)
    (expected_amount : option U256) (token_contract : option Address) : M WatchRetryError unit :=
  exchange (RetryMonitor "publish failed")
    (st_modify (add_command (WatchAddress
       (mkWatchAddressCommand chain_id address invoice_id expected_amount token_contract)))).

(** The body of the loop of [retry_pending_watches]; [continue] returns. *)
Definition retry_watch (watch : PendingWatchInfo) : M WatchRetryError unit :=
  match parse_address (pw_address watch) with
  | None => st_ret tt
  | Some address =>
      match parse_uuid (pw_invoice_id watch) with
      | None => st_ret tt
      | Some invoice_id =>
          let expected_amount := s ← pw_expected_amount watch; parse_u256 s in
          let token_contract := s ← pw_token_address watch; parse_address s in
          match evm_chain_id (pw_chain_id watch) with
          | None => st_ret tt
          | Some eip155 =>
              let* r := st_try (watch_address_by_chain_id eip155 address invoice_id expected_amount token_contract) in
              match r with
              | Ok _ =>
                  do* st_try (db (mark_notified (pw_address watch) (pw_chain_id watch) (pw_token_address watch)));
                  st_ret tt
              | Err _ => st_ret tt
              end
          end
      end
  end.

(** [retry_pending_watches] *)
Definition retry_pending_watches : M WatchRetryError unit :=
  let* pending := st_map_err RetryRepository (db get_pending) in
  st_for pending retry_watch.

(** One turn of the loop of [WatchRetryService::run]. *)
Definition watch_retry_turn (cfg : WatchRetryConfig) : M WatchRetryError unit :=
  if enabled cfg then
    do* st_try (E' := WatchRetryError) retry_pending_watches;
    st_ret tt
  else st_ret tt.

(** ** What a pass does to the watches *)

(** The command that announces a pending watch, where its fields parse. *)
Definition command_for (watch : PendingWatchInfo) : option MonitorCommand :=
  address ← parse_address (pw_address watch);
  invoice_id ← parse_uuid (pw_invoice_id watch);
  chain ← evm_chain_id (pw_chain_id watch);
  Some (WatchAddress (mkWatchAddressCommand chain address invoice_id
    (s ← pw_expected_amount watch; parse_u256 s) (s ← pw_token_address watch; parse_address s))).

Definition names_watch (watch : PendingWatchInfo) (w : WatchRow) : bool :=
  watch_matches (pw_address watch) (pw_chain_id watch) (pw_token_address watch) w.

(** The monitor was sent the command of a pending watch that names the row. *)
Definition commanded (s : Server) (w : WatchRow) : Prop :=
  exists watch c, names_watch watch w = true /\ command_for watch = Some c /\ c ∈ sv_commands s.

(** From [ws] on, rows keep everything but their notified flag, and the flag
    was only raised where the monitor had been sent the command. *)
Definition notified_from (ws : list WatchRow) (s : Server) : Prop :=
  Forall2 (fun w w' => set_watch_flags true true w = set_watch_flags true true w' /\
             wr_is_active w' = wr_is_active w /\
             (wr_monitor_notified w' = wr_monitor_notified w \/ wr_monitor_notified w' = true /\ commanded s w))
    ws (db_watched (sv_db s)).

Lemma names_watch_flags watch w w' :
  set_watch_flags true true w = set_watch_flags true true w' -> names_watch watch w = names_watch watch w'.
Proof. destruct w, w'. intros Hf. cbn in Hf. injection Hf as -> -> -> -> -> ->. done. Qed.

Lemma notified_from_mono ws s s' :
  db_watched (sv_db s') = db_watched (sv_db s) -> (forall c, c ∈ sv_commands s -> c ∈ sv_commands s') ->
  notified_from ws s -> notified_from ws s'.
Proof.
  unfold notified_from. intros -> Hc Hs. eapply Forall2_impl; [exact Hs|].
  intros w w' (Hf & Ha & [?|[? (i & c & Hm & Hcmd & Hin)]]); [by auto|].
  split; [done|]. split; [done|]. right. split; [done|]. exists i, c. auto.
Qed.

(** Marking the rows a sent command names. *)
Lemma mark_notified_from ws watch c t s :
  command_for watch = Some c -> c ∈ sv_commands s -> notified_from ws s ->
  notified_from ws (set_db (snd (mark_notified (pw_address watch) (pw_chain_id watch) (pw_token_address watch) t
                                   (sv_db s))) s).
Proof.
  intros Hc Hin Hs. unfold notified_from in *. cbn. apply Forall2_fmap_r.
  eapply Forall2_impl; [exact Hs|]. intros w w' (Hf & Ha & Hold). cbn.
  fold (names_watch watch w'). destruct (names_watch watch w') eqn:Hm; [|done].
  split; [exact Hf|]. split; [exact Ha|]. right. split; [done|]. exists watch, c.
  split; [|done]. by rewrite (names_watch_flags _ _ _ Hf).
Qed.

(** The two requests of one pending watch, by whether they went through. *)
Lemma retry_watch_run watch s :
  match command_for watch with
  | None => retry_watch watch s = (Ok tt, s)
  | Some c =>
      exists s1, retry_watch watch s = (Ok tt, s1) /\
        let marked := set_db (snd (mark_notified (pw_address watch) (pw_chain_id watch) (pw_token_address watch)
          (clock (S (sv_ticks s))) (sv_db s))) (tick (add_command c (tick s))) in
        match calls (sv_ticks s) with
        | NotSent => s1 = tick s
        | ReplyLost => s1 = add_command c (tick s)
        | Answered => s1 = match calls (S (sv_ticks s)) with NotSent => tick (add_command c (tick s)) | _ => marked end
        end
  end.
Proof.
  unfold retry_watch, command_for.
  destruct (parse_address (pw_address watch)) as [a|]; [|done]. cbn.
  destruct (parse_uuid (pw_invoice_id watch)) as [i|]; [|done]. cbn.
  destruct (evm_chain_id (pw_chain_id watch)) as [ch|]; [|done]. cbn.
  unfold watch_address_by_chain_id, st_bind, st_try, db, exchange.
  destruct (calls (sv_ticks s)); cbn; [|by eexists..].
  destruct (calls (S (sv_ticks s))); cbn; by eexists.
Qed.

Lemma retry_watch_notified ws watch : preserves (notified_from ws) (retry_watch watch).
Proof.
  intros s Hs. pose proof (retry_watch_run watch s) as Hrun.
  destruct (command_for watch) as [c|] eqn:Hc; [|by rewrite Hrun].
  destruct Hrun as (s1 & -> & Hs1). cbn [snd].
  assert (Hsent : notified_from ws (tick (add_command c (tick s)))).
  { eapply notified_from_mono; [|intros c' Hc'|exact Hs]; [done|]. cbn. set_solver. }
  assert (Hin : c ∈ sv_commands (tick (add_command c (tick s)))) by (cbn; set_solver).
  pose proof (mark_notified_from ws watch c (clock (S (sv_ticks s))) _ Hc Hin Hsent) as Hmark.
  destruct (calls (sv_ticks s)); [destruct (calls (S (sv_ticks s)))|..]; by rewrite Hs1.
Qed.

(** Whatever requests fail during a pass, a watch whose row turns to
    notified is one for which a [WatchAddress] command, for that address, chain
    and token, reached the monitor's channel; the pass changes nothing else of
    the watches. *)
Theorem watch_notified_only_after_command cfg s (j : nat) (w w' : WatchRow) :
  db_watched (sv_db s) !! j = Some w ->
  db_watched (sv_db (snd (watch_retry_turn cfg s))) !! j = Some w' ->
  w' = set_watch_flags (wr_is_active w) (wr_monitor_notified w') w /\
  (wr_monitor_notified w = true -> wr_monitor_notified w' = true) /\
  (wr_monitor_notified w = false -> wr_monitor_notified w' = true ->
   commanded (snd (watch_retry_turn cfg s)) w).
Proof.
  intros Hj Hj'.
  assert (Hp : preserves (notified_from (db_watched (sv_db s))) (watch_retry_turn cfg)).
  { unfold watch_retry_turn, retry_pending_watches. destruct (enabled cfg); keeps; [|apply retry_watch_notified].
    intros s0 Hs0. unfold db, exchange. destruct (calls _); cbn; exact Hs0. }
  assert (Hs : notified_from (db_watched (sv_db s)) s)
    by (unfold notified_from; apply Forall_Forall2_diag, Forall_true; auto).
  specialize (Hp s Hs). unfold notified_from in Hp.
  destruct (Forall2_lookup_lr _ _ _ _ _ _ Hp Hj Hj') as (Hf & Ha & Hn).
  split; [destruct w, w'; cbn in *; by simplify_eq|].
  destruct Hn as [->|[-> Hc]]; split; auto; congruence.
Qed.

(** ** A pass with every request answered *)

(** Later states: commands are kept, and notified rows stay notified. *)
Definition later (s s' : Server) : Prop :=
  (forall c, c ∈ sv_commands s -> c ∈ sv_commands s') /\
  Forall2 (fun w w' => set_watch_flags true true w = set_watch_flags true true w' /\
  (wr_monitor_notified w = true -> wr_monitor_notified w' = true))
    (db_watched (sv_db s)) (db_watched (sv_db s')).

Lemma later_refl s : later s s.
Proof. split; [done|]. apply Forall_Forall2_diag, Forall_true. auto. Qed.

Lemma later_trans s1 s2 s3 : later s1 s2 -> later s2 s3 -> later s1 s3.
Proof.
  intros [Hc1 Hw1] [Hc2 Hw2]. split; [auto|]. revert Hw1 Hw2. apply Forall2_trans.
  intros w1 w2 w3 [? ?] [? ?]. split; [congruence | auto].
Qed.

(** The pending watch was announced, and the rows it names say so. *)
Definition announced (watch : PendingWatchInfo) (s : Server) : Prop :=
  forall c, command_for watch = Some c ->
    c ∈ sv_commands s /\
  forall w, w ∈ db_watched (sv_db s) -> names_watch watch w = true -> wr_monitor_notified w = true.

Lemma announced_later watch s s' : later s s' -> announced watch s -> announced watch s'.
Proof.
  intros [Hc Hw] Ha c Hcmd. destruct (Ha c Hcmd) as [Hin Hn]. split; [auto|].
  intros w' Hw' Hm. apply list_elem_of_lookup in Hw' as [j Hj].
  destruct (Forall2_lookup_r _ _ _ _ _ Hw Hj) as (w & Hj0 & Hf & Hk).
  apply Hk, Hn; [by eapply list_elem_of_lookup_2|]. by rewrite (names_watch_flags _ _ _ Hf).
Qed.

Section Answering.
Context (Hup : forall n, calls n = Answered).

Lemma retry_watch_answered watch s :
  exists s', retry_watch watch s = (Ok tt, s') /\ later s s' /\ announced watch s'.
Proof.
  pose proof (retry_watch_run watch s) as Hrun. unfold announced.
  destruct (command_for watch) as [c|] eqn:Hc.
  2:{ exists s. split; [done|]. split; [apply later_refl | done]. }
  rewrite !Hup in Hrun. destruct Hrun as (s1 & Hrun & ->). eexists. split; [exact Hrun|]. split.
  - split; [cbn; set_solver|]. cbn. apply Forall2_fmap_r, Forall_Forall2_diag, Forall_true.
    intros w. cbn. by destruct (watch_matches _ _ _ w).
  - intros c' [= <-]. split; [cbn; set_solver|]. cbn. intros w (w0 & -> & _)%list_elem_of_fmap Hm.
    fold (names_watch watch w0) in Hm |- *. destruct (names_watch watch w0) eqn:Hm0; [done|congruence].
Qed.

Lemma retry_all_answered l s :
  exists s', st_for l retry_watch s = (Ok tt, s') /\ later s s' /\ forall watch, watch ∈ l -> announced watch s'.
Proof.
  revert s. induction l as [|x l IH]; intros s; cbn [st_for].
  { exists s. split; [done|]. split; [apply later_refl|]. by intros w Hw%not_elem_of_nil. }
  destruct (retry_watch_answered x s) as (s1 & Hx & Hl1 & Ha1).
  destruct (IH s1) as (s2 & Hr & Hl2 & Ha2). exists s2. unfold st_bind. rewrite Hx. cbn.
  split; [exact Hr|]. split; [by eapply later_trans|].
  intros watch [->|Hin]%elem_of_cons; [by eapply announced_later | auto].
Qed.

Lemma pending_named d w watch : pending_info d w = Some (w, watch) -> names_watch watch w = true.
Proof.
  unfold pending_info. destruct (db_payment_options d !! _) as [po|]; [|discriminate]. intros [= <-].
  unfold names_watch, watch_matches. cbn. rewrite !String.eqb_refl. cbn.
  destruct (wr_token_address w); [apply String.eqb_refl | done].
Qed.

Lemma length_omap_le {A B} (f : A -> option B) l : (length (omap f l) <= length l)%nat.
Proof. induction l as [|x l IH]; [done|]. cbn. destruct (f x); cbn; lia. Qed.

Lemma get_pending_complete now d w x :
  w ∈ db_watched d -> is_pending now w = true -> pending_info d w = Some (w, x) ->
  (length (List.filter (is_pending now) (db_watched d)) <= 100)%nat ->
  exists l, get_pending now d = (Ok l, d) /\ x ∈ l.
Proof.
  intros Hw Hp Hx Hlen. eexists. split; [reflexivity|].
  rewrite take_ge.
  - apply list_elem_of_fmap. exists (w, x). split; [done|]. rewrite merge_sort_Permutation.
    apply list_elem_of_omap. exists w. split; [|done]. by apply elem_of_filter_b.
  - rewrite length_fmap, (Permutation_length (merge_sort_Permutation _ _)).
    etrans; [apply length_omap_le | exact Hlen].
Qed.

(** A pass with every request answered, with no more than a hundred watches
    pending, leaves none of them behind: for every active, unexpired watch the
    monitor was not told of, whose fields parse, the command that announces it
    with its invoice and amount is sent, and its row says so. *)
Theorem watch_retry_complete cfg s (j : nat) (w : WatchRow) watch c :
  enabled cfg = true ->
  db_watched (sv_db s) !! j = Some w -> is_pending (clock (sv_ticks s)) w = true ->
  (length (List.filter (is_pending (clock (sv_ticks s))) (db_watched (sv_db s))) <= 100)%nat ->
  pending_info (sv_db s) w = Some (w, watch) -> command_for watch = Some c ->
  exists s', watch_retry_turn cfg s = (Ok tt, s') /\ c ∈ sv_commands s' /\
    exists w', db_watched (sv_db s') !! j = Some w' /\ wr_monitor_notified w' = true.
Proof.
  intros Hen Hj Hp Hlen Hx Hc.
  destruct (get_pending_complete _ _ w watch (list_elem_of_lookup_2 _ _ _ Hj) Hp Hx Hlen) as (l & Hl & Hin).
  destruct (retry_all_answered l (tick s)) as (s' & Hrun & [Hcm Hws] & Ha).
  exists s'. destruct (Ha watch Hin c Hc) as [Hcs Hn]. split; [|split; [exact Hcs|]].
  - unfold watch_retry_turn, retry_pending_watches, st_bind, st_map_err, st_try. rewrite Hen, db_answered by apply Hup.
    rewrite Hl. cbn [fst snd]. change (set_db (sv_db s) (tick s)) with (tick s). by rewrite Hrun.
  - destruct (Forall2_lookup_l _ _ _ _ _ Hws Hj) as (w' & Hj' & Hf & _). exists w'. split; [done|].
    apply Hn; [by eapply list_elem_of_lookup_2|]. rewrite <- (names_watch_flags _ _ _ Hf).
    by apply (pending_named (sv_db s)).
Qed.
End Answering.
End WatchRetry.
