(* ===== verification/Consumer.v ===== *)
(** * The event consumer

    [server/src/services/event_consumer]: the three handlers, the dispatch of
    events, the cursor discipline around them and the start of [run].  The
    event stream itself is the interface of the outbox. *)

From stdpp Require Import gmap strings list.
From Stdlib Require Import ZArith Lia Ascii.
From S2P Require Import Prelude Events Network Bridge Decimal Database Services Cleanup.

Definition ADAPTER_ID : string := "evmmonitor".

Inductive EventConsumerError : Type :=
| DatabaseError (e : RepositoryError)
| InvalidData (msg : string).

(** [EventConsumer]: which optional services it holds and its operator
    settings. *)
Record EventConsumer := mkEventConsumer {
  ecs_cleanup_service : option CleanupService;
  ecs_webhook_service : bool;
  ecs_ws_broadcast : bool;
  ecs_payment_observers : list nat;
  ecs_own_store_id : option Uuid;
  ecs_skip_events : list (Z * Z * Z);
  ecs_accept_lineage_break : bool
}.

(** ** Operator settings *)

(** [str::split] on one character: at least one piece, separators dropped. *)
Fixpoint split_on (sep : ascii) (s : string) : list string :=
  match s with
  | EmptyString => [EmptyString]
  | String a rest =>
      if Ascii.eqb a sep then EmptyString :: split_on sep rest
      else match split_on sep rest with
           | piece :: pieces => String a piece :: pieces
           | [] => [String a EmptyString]
           end
  end.

(** One entry [chain_id:epoch:seq]. *)
Definition parse_skip_event (part : string) : result string (Z * Z * Z) :=
  match split_on ":"%char part with
  | [chain; epoch; seq] =>
      match parse_u64 (trim chain) with
      | None => Err ("bad chain_id in " +:+ part)
      | Some chain =>
          match parse_i64 (trim epoch) with
          | None => Err ("bad epoch in " +:+ part)
          | Some epoch =>
              match parse_i64 (trim seq) with
              | None => Err ("bad seq in " +:+ part)
              | Some seq => Ok (chain, epoch, seq)
              end
          end
      end
  | _ => Err ("expected chain_id:epoch:seq, got " +:+ part)
  end.

(** [collect] into a [Result]: the first error, or all values. *)
Fixpoint collect_results {E A} (l : list (result E A)) : result E (list A) :=
  match l with
  | [] => Ok []
  | Err e :: _ => Err e
  | Ok a :: rest => match collect_results rest with Ok l => Ok (a :: l) | Err e => Err e end
  end.

(** [parse_skip_events] *)
Definition parse_skip_events (raw : string) : result string (list (Z * Z * Z)) :=
  collect_results (parse_skip_event <$>
    List.filter (fun part => negb (String.eqb part "")) (trim <$> split_on ","%char raw)).

Section Handlers.
Context {D : Type} `{BigDecimal D} `{Runtime} `{Numeric} `{Formats} `{ApiTypes} `{!JobCodec}.

Definition ask {A} (stmt : Statement A) : M EventConsumerError A :=
  st_map_err DatabaseError (db stmt).

(** ** Webhooks *)

(** [EventConsumer::queue_payload] *)
Definition queue_payload {E} (ec : EventConsumer) (store_id : Uuid) (payload : WebhookPayload)
  : M E QueueOutcome :=
  if negb (ecs_webhook_service ec) then st_ret Skipped
  else queue_for_store store_id payload.

(** [EventConsumer::queue_webhook] *)
Definition queue_webhook_event {E} (ec : EventConsumer) (event_type : WebhookEventType)
    (invoice : InvoiceData) (payment : option PaymentData) : M E QueueOutcome :=
  let* t := st_gets sv_ticks in
  let payload := match payment with
                 | None => invoice_event t event_type invoice
                 | Some p => payment_event t event_type invoice p
                 end in
  queue_payload ec (id_store_id invoice) payload.

(** ** [PaymentDetected] *)

(** [asset_symbol_for] *)
Definition asset_symbol_for (symbol : option string) : string :=
  match symbol with
  | Some symbol => if negb (String.eqb (trim symbol) "") then symbol else "ERC20"
  | None => "ERC20"
  end.

(** The asset of a detected payment: its type, symbol and token address. *)
Definition asset_of (event : PaymentDetected)
  : M EventConsumerError (AssetType * string * option string) :=
  if pd_is_native event then
    st_ret (Native, default "ETH" (cc_native_symbol <$> get_any_chain_config (pd_chain_id event)), None)
  else
    match pd_token_address event with
    | None => st_throw (InvalidData "ERC20 payment missing token_address")
    | Some token_addr =>
        let token_addr_str := fmt_address token_addr in
        let* found := ask (token_get_by_address (chain_id_evm (pd_chain_id event)) token_addr_str) in
        st_ret (ERC20, asset_symbol_for (t ← found; tok_symbol t), Some token_addr_str)
    end.

(** The payment option an expired watch leads to, through the invoice. *)
Definition late_option (event : PaymentDetected) (token_address : option string)
    (options : list (Uuid * PaymentOptionRow)) : option Uuid :=
  fst <$> List.find (fun ip : Uuid * PaymentOptionRow =>
    String.eqb (to_lowercase (po_payment_address ip.2))
               (to_lowercase (fmt_address (pd_payment_address event)))
      && String.eqb (po_chain_id ip.2) (chain_id_evm (pd_chain_id event))
      && same_token (po_token_address ip.2) token_address) options.

(** The payment option of a detected payment. *)
Definition find_payment_option (event : PaymentDetected) (token_address : option string)
  : M EventConsumerError (option Uuid) :=
  let* active := ask (get_payment_option_id (fmt_address (pd_payment_address event))
                        (chain_id_evm (pd_chain_id event)) token_address) in
  match active with
  | Some id => st_ret (Some id)
  | None =>
      let* options := ask (payment_options_for_invoice (uuid_to_string (pd_invoice_id event))) in
      st_ret (late_option event token_address options)
  end.

(** What the payment is worth in the invoice's currency: credited amount, rate
    used and when. *)
Definition credit_of (event : PaymentDetected) (payment_option_id : option Uuid)
  : M EventConsumerError (option string * option string * option Instant) :=
  match payment_option_id with
  | None => st_ret (None, None, None)
  | Some po_id =>
      let* found := ask (payment_option_get po_id) in
      match found with
      | None => st_ret (None, None, None)
      | Some payment_option =>
          match po_rate payment_option with
          | Some rate_str =>
              match convert_payment_to_invoice_currency (D := D) (z_to_string (pd_amount event))
                      rate_str (po_decimals payment_option) with
              | Ok converted =>
                  let* now := utc_now in
                  st_ret (Some converted, Some rate_str, Some now)
              | Err _ => st_ret (None, None, None)
              end
          | None =>
              match convert_smallest_to_human (D := D) (z_to_string (pd_amount event))
                      (po_decimals payment_option) with
              | Ok human_amount => st_ret (Some human_amount, None, None)
              | Err _ => st_ret (None, None, None)
              end
          end
      end
  end.

(** [handle_payment_detected] *)
Definition handle_payment_detected (ec : EventConsumer) (event : PaymentDetected)
  : M EventConsumerError unit :=
  let chain_id := chain_id_evm (pd_chain_id event) in
  let* (asset_type, asset_symbol, token_address) := asset_of event in
  let* payment_option_id := find_payment_option event token_address in
  let* (credited_amount, rate_used, rate_applied_at) := credit_of event payment_option_id in
  let* id := fresh in
  let payment :=
    {| pda_id := id;
       pda_invoice_id := uuid_to_string (pd_invoice_id event);
       pda_payment_option_id := payment_option_id;
       pda_chain_id := chain_id;
       pda_asset_type := asset_type;
       pda_amount := z_to_string (pd_amount event);
       pda_asset_symbol := asset_symbol;
       pda_token_address := token_address;
       pda_tx_hash := fmt_b256 (pd_tx_hash event);
       pda_block_number := Some (pd_block_number event);
       pda_detected_at := pd_detected_at event;
       pda_confirmed_at := None;
       pda_from_address := Some (fmt_address (pd_from_address event));
       pda_reorged := false;
       pda_extra := None;
       pda_credited_amount := credited_amount;
       pda_rate_used := rate_used;
       pda_rate_applied_at := rate_applied_at |} in
  match tx_index event with
  | None =>
      st_throw (InvalidData ("ERC20 transfer in " +:+ fmt_b256 (pd_tx_hash event) +:+
        " has no log index; cannot tell it apart from other transfers in the same transaction"))
  | Some tx_index =>
      do* st_map_err DatabaseError
            (upsert_with_tx_index_and_obligation payment tx_index (event_type_str PaymentDetectedEvent));
      st_when (ecs_ws_broadcast ec)
        (send_for_invoice (pda_invoice_id payment)
           (PaymentUpdate (uuid_to_string (pda_id payment)) (uuid_to_string (pd_invoice_id event))
              "detected" (pda_credited_amount payment)))
  end.

(** ** [PaymentConfirmed] *)

(** [record_allowance_if_short] *)
Definition record_allowance_if_short (invoice_id : string) (amount_received amount_expected tolerance : D)
    (tolerance_source : string) : M EventConsumerError unit :=
  if bd_geb amount_received amount_expected then st_ret tt
  else
    let shortfall := bd_sub amount_expected amount_received in
    ask (record_settlement_allowance invoice_id (bd_to_string shortfall) (bd_to_string tolerance)
           tolerance_source).

(** [extract_customer_email] *)
Definition extract_customer_email (invoice : InvoiceData) : option string :=
  match id_customer_email invoice with
  | Some email => Some email
  | None =>
      m ← id_metadata invoice;
      v ← match json_get "customer_email" m with
          | Some v => Some v
          | None => json_get "buyer_email" m
          end;
      match v with JString s => Some s | _ => None end
  end.

(** [receipts_disabled_for_store] *)
Definition receipts_disabled_for_store {E} (store_id : Uuid) : M E bool :=
  let* r := st_try (db (get_store_settings store_id)) in
  match r with
  | Ok (Some prefs) => st_ret (json_is_false (json_get "customer_receipts_enabled" prefs))
  | _ => st_ret false
  end.

(** [send_customer_receipt] *)
Definition send_customer_receipt {E} (invoice : InvoiceData) (payment : PaymentData) (chain_id : Z)
  : M E unit :=
  match extract_customer_email invoice with
  | None => st_ret tt
  | Some email =>
      let* disabled := receipts_disabled_for_store (id_store_id invoice) in
      if (disabled : bool) then st_ret tt
      else
        let* store := st_try (db (get_store (id_store_id invoice))) in
        let merchant_name := match store with Ok (Some name) => name | _ => "Merchant"%string end in
        let explorer_url := match get_any_chain_config chain_id with
                            | Some cfg => tx_explorer_url cfg (pda_tx_hash payment)
                            | None => pda_tx_hash payment
                            end in
        let* now := utc_now in
        let receipt :=
          {| rc_invoice_id := id_id invoice;
             rc_amount := id_amount invoice;
             rc_currency := id_currency invoice;
             rc_tx_hash := pda_tx_hash payment;
             rc_explorer_url := explorer_url;
             rc_paid_at := default now (pda_confirmed_at payment);
             rc_merchant_name := merchant_name |} in
        do* st_try (exchange ("mail"%string) (st_modify (add_mail (email, receipt))));
        st_ret tt
  end.

(** [notify_own_store_settled] *)
Definition notify_own_store_settled {E} (ec : EventConsumer) (invoice_id : string) (settled_at : Instant)
  : M E unit :=
  match ecs_payment_observers ec with
  | [] => st_ret tt
  | _ =>
      let* r := st_try (db (invoice_get invoice_id)) in
      match r with
      | Ok (Some settled) =>
          notify_own_store_payment (ecs_payment_observers ec) (ecs_own_store_id ec) settled settled_at
      | Ok None => st_ret tt
      | Err _ => st_ret tt
      end
  end.

(** The webhook of a settled invoice, from the invoice as it now is. *)
Definition queue_settled_webhook {E} (ec : EventConsumer) (event_type : WebhookEventType)
    (invoice_id : string) (payment : PaymentData) : M E unit :=
  let* r := st_try (db (invoice_get invoice_id)) in
  match r with
  | Ok (Some updated_invoice) =>
      do* queue_webhook_event ec event_type updated_invoice (Some payment);
      st_ret tt
  | _ => st_ret tt
  end.

(** The part both settling arms share: the allowance, the status, the
    broadcast and the webhook. *)
Definition settle_as (ec : EventConsumer) (event : PaymentConfirmed) (invoice : InvoiceData)
    (payment : PaymentData) (received expected tolerance : D) (source : string)
    (status : InvoiceStatus) (webhook : WebhookEventType) : M EventConsumerError unit :=
  let invoice_id := uuid_to_string (pc_invoice_id event) in
  do* record_allowance_if_short invoice_id received expected tolerance source;
  do* ask (update_status invoice_id status);
  do* st_when (ecs_ws_broadcast ec)
        (ws_send (id_store_id invoice) (InvoiceStatusUpdate invoice_id (status_to_string status)));
  queue_settled_webhook ec webhook invoice_id payment.

(** [handle_payment_confirmed], from the invoice on. *)
Definition settle (ec : EventConsumer) (event : PaymentConfirmed) (payment : PaymentData)
    (invoice : InvoiceData) : M EventConsumerError unit :=
  let invoice_id := uuid_to_string (pc_invoice_id event) in
  match bd_parse (id_amount_received invoice) with
  | None => st_throw (InvalidData ("Invalid amount_received '" +:+ id_amount_received invoice +:+ "'"))
  | Some amount_received =>
      match bd_parse (id_amount invoice) with
      | None => st_throw (InvalidData ("Invalid amount '" +:+ id_amount invoice +:+ "'"))
      | Some amount_expected =>
          let* store_tolerance := ask (get_settlement_tolerance (id_store_id invoice)) in
          match effective_tolerance (D := D) store_tolerance with
          | Err e => st_throw (InvalidData e)
          | Ok (tolerance_percent, tolerance_source) =>
              let fully_paid := is_fully_paid amount_received amount_expected tolerance_percent in
              match id_status invoice with
              | Processing | PartiallyPaid =>
                  if (fully_paid : bool) then
                    do* settle_as ec event invoice payment amount_received amount_expected
                          tolerance_percent tolerance_source Paid PaymentConfirmedEvent;
                    do* send_customer_receipt invoice payment (pc_chain_id event);
                    notify_own_store_settled ec invoice_id (pc_confirmed_at event)
                  else st_ret tt
              | Expired =>
                  if (fully_paid : bool) then
                    do* settle_as ec event invoice payment amount_received amount_expected
                          tolerance_percent tolerance_source LatePaid LatePaidEvent;
                    notify_own_store_settled ec invoice_id (pc_confirmed_at event)
                  else st_ret tt
              | _ => st_ret tt
              end
          end
      end
  end.

(** [handle_payment_confirmed] *)
Definition handle_payment_confirmed (ec : EventConsumer) (event : PaymentConfirmed)
  : M EventConsumerError unit :=
  let invoice_id := uuid_to_string (pc_invoice_id event) in
  let tx_hash := fmt_b256 (pc_tx_hash event) in
  let* found := ask (get_by_tx_index invoice_id tx_hash (pc_tx_index event)) in
  match found with
  | None => st_ret tt
  | Some payment =>
      do* ask (mark_confirmed (pda_id payment) (pc_confirmed_at event));
      let* invoice := ask (invoice_get invoice_id) in
      match invoice with
      | None => st_throw (InvalidData ("Invoice not found: " +:+ invoice_id))
      | Some invoice => settle ec event payment invoice
      end
  end.

(** ** [ReorgDetected] *)

(** [tx_hash_eq] *)
Definition tx_hash_eq (hash : B256) (stored : string) : bool :=
  match parse_b256 stored with Some parsed => parsed =? hash | None => false end.

(** [apply_reorg_status] *)
Definition apply_reorg_status (invoice_id : string) (computed : InvoiceStatus)
  : M EventConsumerError InvoiceStatus :=
  let* current := ask (invoice_get invoice_id) in
  match current with
  | None => st_throw (InvalidData ("Invoice not found: " +:+ invoice_id))
  | Some current =>
      match id_status current with
      | Refunded | Cancelled | Expired | LatePaid => st_ret (id_status current)
      | _ =>
          do* ask (update_status invoice_id computed);
          st_ret computed
      end
  end.

(** [notify_reorg] *)
Definition notify_reorg {E} (ec : EventConsumer) (invoice_id : string) (retracted : list PaymentData)
  : M E unit :=
  if (match retracted with [] => true | _ => false end) || negb (ecs_webhook_service ec) then st_ret tt
  else
    let* r := st_try (db (invoice_get invoice_id)) in
    match r with
    | Ok (Some invoice) =>
        let* t := st_gets sv_ticks in
        do* queue_payload ec (id_store_id invoice) (payment_reorged t invoice retracted);
        st_ret tt
    | Ok None => st_ret tt
    | Err _ => st_ret tt
    end.

(** [payment.reorged = true; payment.confirmed_at = None] *)
Definition mirror_reorged (p : PaymentData) : PaymentData :=
  {| pda_id := pda_id p; pda_invoice_id := pda_invoice_id p;
     pda_payment_option_id := pda_payment_option_id p; pda_chain_id := pda_chain_id p;
     pda_asset_type := pda_asset_type p; pda_amount := pda_amount p;
     pda_asset_symbol := pda_asset_symbol p; pda_token_address := pda_token_address p;
     pda_tx_hash := pda_tx_hash p; pda_block_number := pda_block_number p;
     pda_detected_at := pda_detected_at p; pda_confirmed_at := None;
     pda_from_address := pda_from_address p; pda_reorged := true; pda_extra := pda_extra p;
     pda_credited_amount := pda_credited_amount p; pda_rate_used := pda_rate_used p;
     pda_rate_applied_at := pda_rate_applied_at p |}.

(** The candidates the event does not list as survivors. *)
Definition not_survived (event : ReorgDetected) (payment : PaymentData) : bool :=
  negb (existsb (fun hash => tx_hash_eq hash (pda_tx_hash payment)) (rd_survived_tx_hashes event)).

(** [by_invoice]: the payments to retract, per invoice. *)
Definition by_invoice (event : ReorgDetected) (candidates : list PaymentData)
  : gmap string (list PaymentData) :=
  foldl (fun (m : gmap string (list PaymentData)) p =>
           if not_survived event p
           then <[pda_invoice_id p := default [] (m !! pda_invoice_id p) ++ [p]]> m
           else m) ∅ candidates.

(** Retracting the payments of one invoice. *)
Definition retract_invoice (ec : EventConsumer) (group : string * list PaymentData)
  : M EventConsumerError unit :=
  let invoice_id := group.1 in
  let to_retract := group.2 in
  do* st_for to_retract (fun payment => ask (mark_payment_reorged (pda_id payment)));
  let* has_valid := ask (has_valid_payments invoice_id) in
  let new_status := if (has_valid : bool) then Processing else Pending in
  let* new_status := apply_reorg_status invoice_id new_status in
  do* st_when (ecs_ws_broadcast ec)
        (send_for_invoice invoice_id (InvoiceStatusUpdate invoice_id (status_to_string new_status)));
  notify_reorg ec invoice_id (mirror_reorged <$> to_retract).

(** [handle_reorg_detected] *)
Definition handle_reorg_detected (ec : EventConsumer) (event : ReorgDetected)
  : M EventConsumerError unit :=
  if negb (rd_survivors_verifiable event) then st_ret tt
  else
    let* candidates := ask (reorg_candidates (chain_id_evm (rd_chain_id event)) (rd_fork_block event)) in
    st_for (map_to_list (by_invoice event candidates)) (retract_invoice ec).

(** ** Dispatch *)

(** [trigger_expiration_check] *)
Definition trigger_expiration_check {E} (ec : EventConsumer) (chain_id : Z) : M E unit :=
  match ecs_cleanup_service ec with
  | None => st_ret tt
  | Some cleanup_service =>
      do* st_try (check_chain cleanup_service chain_id);
      st_ret tt
  end.

(** [handle_event] *)
Definition handle_event (ec : EventConsumer) (event : MonitorEvent) : M EventConsumerError unit :=
  match event with
  | EvPaymentDetected payment => handle_payment_detected ec payment
  | EvPaymentConfirmed payment => handle_payment_confirmed ec payment
  | EvReorgDetected reorg => handle_reorg_detected ec reorg
  | EvMonitorStarted _ | EvMonitorStopped _ | EvMonitorError _ _
  | EvAddressWatched _ | EvAddressUnwatched _ => st_ret tt
  | EvStatusReport report => trigger_expiration_check ec (sr_chain_id report)
  end.

(** ** Cursors *)

(** Why the consumer stopped: [halt] after an envelope, or [fatal]. *)
Inductive Exit := Halted (chain_id seq : Z) | Fatal (reason : string).

(** [self.skip_events.contains(..)] *)
Definition skipped (ec : EventConsumer) (envelope : EventEnvelope) : bool :=
  bool_decide ((ee_chain_id envelope, ec_epoch (ee_cursor envelope), ec_seq (ee_cursor envelope))
                 ∈ ecs_skip_events ec).

(** [apply_or_halt] *)
Definition apply_or_halt (ec : EventConsumer) (envelope : EventEnvelope) : M Exit unit :=
  st_map_err (fun _ => Halted (ee_chain_id envelope) (ec_seq (ee_cursor envelope)))
    (handle_event ec (ee_event envelope)).

(** [apply_envelope]; the [false] of the source is the error. *)
Definition apply_envelope (ec : EventConsumer) (envelope : EventEnvelope) (bridge_epoch : Z)
    (cursors : gmap Z ChainCursor) : M Exit (gmap Z ChainCursor) :=
  let chain_id := ee_chain_id envelope in
  do* (if skipped ec envelope then st_ret tt else apply_or_halt ec envelope);
  let cursor := {| cc_epoch := bridge_epoch; cc_seq := ec_seq (ee_cursor envelope);
                   cc_block_height := ec_block_height (ee_cursor envelope) |} in
  do* st_map_err (fun _ => Halted chain_id (ec_seq (ee_cursor envelope)))
        (db (commit_chain_cursor ADAPTER_ID chain_id cursor));
  st_ret (<[chain_id := cursor]> cursors).

(** The body of the loop of [break_lineage]: the remaining cursors and
    whether all chains were re-armed so far. *)
Definition break_one {E} (acc : gmap Z ChainCursor * bool) (chain_id : Z)
  : M E (gmap Z ChainCursor * bool) :=
  let* r := st_try (db (reset_chain_watch_notifications chain_id)) in
  match r with
  | Ok _ =>
      let* r := st_try (db (delete_chain_cursor ADAPTER_ID chain_id)) in
      match r with
      | Err _ => st_ret (acc.1, false)
      | Ok _ => st_ret (delete chain_id acc.1, acc.2)
      end
  | Err _ => st_ret (acc.1, false)
  end.

(** [break_lineage] *)
Definition break_lineage (cursors : gmap Z ChainCursor) (chain_ids : list Z)
  : M Exit (gmap Z ChainCursor) :=
  let* (cursors, all_rearmed) := st_fold break_one (cursors, true) chain_ids in
  if (all_rearmed : bool) then st_ret cursors
  else st_throw (Fatal "failed to re-arm watch_retry or drop the stale cursor").

(** [cursors.values().map(|c| c.seq).max()] *)
Definition max_seq (cursors : gmap Z ChainCursor) : option Z :=
  foldr (fun (c : ChainCursor) (m : option Z) =>
           Some (match m with Some n => Z.max (cc_seq c) n | None => cc_seq c end))
    None (map_to_list cursors).*2.

Definition mismatched_chains (bridge_epoch : Z) (cursors : gmap Z ChainCursor) : list Z :=
  (List.filter (fun kc : Z * ChainCursor => negb (cc_epoch kc.2 =? bridge_epoch)) (map_to_list cursors)).*1.

(** [reconcile_cursors] *)
Definition reconcile_cursors (ec : EventConsumer) (cursors : gmap Z ChainCursor) (bridge_epoch : Z)
  : M Exit (gmap Z ChainCursor * option EventCursor) :=
  if bool_decide (cursors = ∅) then st_ret (cursors, None)
  else
    let mismatched := mismatched_chains bridge_epoch cursors in
    let clean := bool_decide (mismatched = []) in
    if negb clean && negb (ecs_accept_lineage_break ec)
    then st_throw (Fatal "event outbox lineage break not accepted")
    else
      let* cursors := (if clean then st_ret cursors else break_lineage cursors mismatched) in
      st_ret (cursors, (fun seq => mkEventCursor bridge_epoch seq 0) <$> max_seq cursors).

(** ** [run] *)

Context {B R X : Type} `{EventOutbox B R X}.

(** A running consumer: its stream and what it holds in memory. *)
Record Running := mkRunning {
  rn_stream : R;
  rn_epoch : Z;
  rn_cursors : gmap Z ChainCursor
}.

(** [run], up to its loop. *)
Definition run_start (ec : EventConsumer) (x1 x2 : X) (b : B) (s : Server)
  : result Exit (option EventCursor * Running) * B * Server :=
  match db (chain_cursors ADAPTER_ID) s with
  | (Err _, s) => (Err (Fatal "failed to load chain cursors"), b, s)
  | (Ok cursors, s) =>
      match ob_current_epoch x1 b with
      | (Err _, b) => (Err (Fatal "failed to read the event outbox's epoch"), b, s)
      | (Ok bridge_epoch, b) =>
          match reconcile_cursors ec cursors bridge_epoch s with
          | (Err e, s) => (Err e, b, s)
          | (Ok (cursors, resume_from), s) =>
              match ob_subscribe_from x2 resume_from b with
              | (Err (EventStreamOutOfRange _), b) =>
                  (Err (Fatal "event resume position is out of range"), b, s)
              | (Err _, b) => (Err (Fatal "failed to subscribe to events"), b, s)
              | (Ok stream, b) => (Ok (resume_from, mkRunning stream bridge_epoch cursors), b, s)
              end
          end
      end
  end.

(** One turn of the loop of [run]: poll the stream and apply what it gives. *)
Definition run_turn (ec : EventConsumer) (x : X) (b : B) (rn : Running) : M Exit Running :=
  match ob_next x b (rn_stream rn) with
  | Waiting stream => st_ret (mkRunning stream (rn_epoch rn) (rn_cursors rn))
  | Yielded envelope stream =>
      let* cursors := apply_envelope ec envelope (rn_epoch rn) (rn_cursors rn) in
      st_ret (mkRunning stream (rn_epoch rn) cursors)
  | Ended | Panicked => st_throw (Fatal "event stream ended unexpectedly")
  end.
End Handlers.
