(* ===== verification/ConsumerFacts.v ===== *)
(** * What the consumer may write, and its cursor

    No handler touches the stored cursors, so they move only where the code
    commits them.  Over every interleaving of publishers, the consumer, crashes
    and restarts, a committed cursor never passes an event that was not applied
    (or that the operator did not name for skipping). *)

From stdpp Require Import gmap strings list relations.
From Stdlib Require Import ZArith Lia.
From S2P Require Import Prelude Events Network Bridge Decimal Database DatabaseFacts Services Cleanup Consumer.

(** ** Every handler only makes the writes of the payment path *)

Lemma writing_keeps {A} (stmt : Statement A) d0 : writing stmt -> stmt_keeps (writes d0) stmt.
Proof. intros Hw now d Hd. etrans; [exact Hd | apply Hw]. Qed.

#[export] Hint Resolve writing_keeps : preserves.
#[export] Hint Extern 3 (writing _) => solve [eauto with writing] : preserves.

Section Frame.
Context {D : Type} `{BigDecimal D} `{Runtime} `{Numeric} `{Formats} `{ApiTypes} `{!JobCodec}.
Context (d0 : Db).

Lemma queue_settled_keeps {E} ec ev i p :
  preserves (on_db (writes d0)) (queue_settled_webhook (E := E) ec ev i p).
Proof. unfold queue_settled_webhook, queue_webhook_event, queue_payload. keeps. Qed.

Lemma send_customer_receipt_keeps {E} i p c :
  preserves (on_db (writes d0)) (send_customer_receipt (E := E) i p c).
Proof. unfold send_customer_receipt, receipts_disabled_for_store. keeps. Qed.

Lemma notify_own_store_settled_keeps {E} ec i t :
  preserves (on_db (writes d0)) (notify_own_store_settled (E := E) ec i t).
Proof. unfold notify_own_store_settled. keeps. Qed.

Lemma check_expired_keeps svc : preserves (on_db (writes d0)) (check_expired svc).
Proof. unfold check_expired, expire_one, queue_expiration_webhook. keeps. Qed.

Lemma cleanup_rows_writing g : writing (get_expired_for_cleanup g).
Proof. intros now d. apply rtc_refl. Qed.

#[local] Hint Resolve queue_settled_keeps send_customer_receipt_keeps
  notify_own_store_settled_keeps check_expired_keeps : preserves.
#[local] Hint Resolve cleanup_rows_writing : writing.

Lemma cleanup_turn_keeps svc : preserves (on_db (writes d0)) (cleanup_turn svc).
Proof.
  unfold cleanup_turn, cleanup_addresses, cleanup_expired_addresses, cleanup_paid_addresses,
    cleanup_cancelled_addresses, cleanup_one_paid, within_paid_grace_period, count_unwatched,
    unwatch_and_deactivate, unwatch_address_by_chain_id, cleanup_db. keeps.
Qed.

Lemma handle_event_keeps ec ev : preserves (on_db (writes d0)) (handle_event (D := D) ec ev).
Proof.
  destruct ev; cbn [handle_event]; try (keeps; fail).
  - unfold handle_payment_detected, asset_of, find_payment_option, credit_of, ask. keeps.
  - unfold handle_payment_confirmed, settle, settle_as, record_allowance_if_short, ask. keeps.
  - unfold handle_reorg_detected, retract_invoice, apply_reorg_status, notify_reorg, queue_payload, ask.
    keeps.
  - unfold trigger_expiration_check, check_chain. keeps.
Qed.
End Frame.

(** ** Loading and reconciling the cursors *)

Section Reconcile.
Context `{Runtime} `{Numeric} `{Formats} `{ApiTypes} `{!JobCodec}.

(** A [BIGINT] chain id comes from a [u64]. *)
Definition cursor_keys_ok (d : Db) : Prop :=
  forall a k cur, db_cursors d !! (a, k) = Some cur -> exists u, in_u64 u /\ k = u64_as_i64 u.

(** The map in memory is the stored rows of this adapter. *)
Definition cursors_match (d : Db) (m : gmap Z ChainCursor) : Prop :=
  (forall u cur, m !! u = Some cur -> in_u64 u) /\
  forall u, in_u64 u -> m !! u = db_cursors d !! (ADAPTER_ID, u64_as_i64 u).

Lemma u64_as_i64_inj a b : in_u64 a -> in_u64 b -> u64_as_i64 a = u64_as_i64 b -> a = b.
Proof.
  intros Ha Hb He. rewrite <- (u64_as_i64_roundtrip a Ha), <- (u64_as_i64_roundtrip b Hb). by rewrite He.
Qed.

Definition cursor_entry (adapter_id : string) (x : string * Z * ChainCursor) : option (Z * ChainCursor) :=
  let '((a, c), cur) := x in if String.eqb a adapter_id then Some (i64_as_u64 c, cur) else None.

Lemma chain_cursors_match d m now d' :
  cursor_keys_ok d -> chain_cursors ADAPTER_ID now d = (Ok m, d') -> d' = d /\ cursors_match d m.
Proof.
  intros Hk Hc. unfold chain_cursors, select in Hc. injection Hc as <- <-. split; [done|].
  change (omap _ _) with (omap (cursor_entry ADAPTER_ID) (map_to_list (db_cursors d))).
  assert (Hin : forall u cur, (u, cur) ∈ omap (cursor_entry ADAPTER_ID) (map_to_list (db_cursors d)) <->
            in_u64 u /\ db_cursors d !! (ADAPTER_ID, u64_as_i64 u) = Some cur).
  { intros u cur. rewrite list_elem_of_omap. split.
    - intros ([[a c] cur'] & Hx & Ho). apply elem_of_map_to_list in Hx. cbn in Ho.
      destruct (String.eqb_spec a ADAPTER_ID) as [->|]; [|discriminate]. injection Ho as <- <-.
      destruct (Hk _ _ _ Hx) as (v & Hv & ->). by rewrite u64_as_i64_roundtrip.
    - intros [Hu Hl]. exists (ADAPTER_ID, u64_as_i64 u, cur). split; [by apply elem_of_map_to_list|].
      cbn. by rewrite u64_as_i64_roundtrip. }
  assert (Hfun : forall u cur cur', (u, cur) ∈ omap (cursor_entry ADAPTER_ID) (map_to_list (db_cursors d)) ->
            (u, cur') ∈ omap (cursor_entry ADAPTER_ID) (map_to_list (db_cursors d)) -> cur = cur').
  { intros u cur cur' Ha Hb. apply Hin in Ha as [_ Ha], Hb as [_ Hb]. congruence. }
  split.
  - intros u cur Hu. apply elem_of_list_to_map_2 in Hu. by apply Hin in Hu as [? _].
  - intros u Hu. destruct (db_cursors d !! _) as [cur|] eqn:E.
    + apply elem_of_list_to_map_1'; [|by apply Hin]. intros cur' Hc'.
      symmetry. eapply Hfun; [exact Hc' | by apply Hin].
    + apply not_elem_of_list_to_map_1. intros Hu'. apply list_elem_of_fmap in Hu' as ([u' cur] & -> & Hu').
      apply Hin in Hu' as [_ Hu']. cbn in *. congruence.
Qed.

(** The stored cursors only shrink. *)
Definition cursors_within (d0 d : Db) : Prop :=
  forall k cur, db_cursors d !! k = Some cur -> db_cursors d0 !! k = Some cur.

Lemma cursors_within_refl d : cursors_within d d.
Proof. by intros k cur. Qed.

Lemma delete_within d0 k d now :
  cursors_within d0 d -> cursors_within d0 (snd (delete_chain_cursor ADAPTER_ID k now d)).
Proof.
  intros Hw k' cur. cbn. rewrite lookup_delete_Some. intros [_ Hl]. by apply Hw.
Qed.

Lemma writes_within d0 d d' : cursors_within d0 d -> writes d d' -> cursors_within d0 d'.
Proof. intros Hw Hd k cur. rewrite (writes_cursors d d' Hd). apply Hw. Qed.

Lemma break_lineage_within d0 m l : preserves (on_db (cursors_within d0)) (break_lineage m l).
Proof.
  unfold break_lineage, break_one. keeps; apply preserves_db; intros now d Hd.
  - eapply writes_within; [exact Hd | apply reset_notifications_writing].
  - by apply delete_within.
Qed.

Lemma db_ok_inv {A} (stmt : Statement A) s a s' :
  db stmt s = (Ok a, s') ->
  exists d', stmt (clock (sv_ticks s)) (sv_db s) = (Ok a, d') /\ s' = set_db d' (tick s).
Proof.
  unfold db, exchange. intros Hs. destruct (calls _); [|discriminate..]. cbn in Hs.
  destruct (stmt _ _) as [r d'] eqn:E. injection Hs as -> <-. eauto.
Qed.

Lemma break_one_match {E} m flag u s m' s' :
  in_u64 u -> cursors_match (sv_db s) m -> break_one (E := E) (m, flag) u s = (Ok (m', true), s') ->
  flag = true /\ cursors_match (sv_db s') m' /\ m' = delete u m.
Proof.
  intros Hu [Hdom Hm]. unfold break_one, st_bind at 1, st_try at 1.
  destruct (db (reset_chain_watch_notifications u) s) as [[n|e] s1] eqn:E1; [|discriminate].
  unfold st_bind, st_try. destruct (db (delete_chain_cursor ADAPTER_ID u) s1) as [[[]|e] s2] eqn:E2;
    [|discriminate].
  intros Hr. injection Hr as <- -> <-. cbn. split; [done|]. split; [|done].
  apply db_ok_inv in E1 as (d1 & E1 & ->), E2 as (d2 & E2 & ->). cbn in *.
  unfold reset_chain_watch_notifications in E1. injection E1 as _ <-.
  unfold delete_chain_cursor in E2. injection E2 as <-. cbn. split.
  - intros v cur. rewrite lookup_delete_Some. intros [_ Hv]. by eapply Hdom.
  - intros v Hv. cbn. destruct (decide (u = v)) as [->|Hne]; [by rewrite !lookup_delete_eq|].
    rewrite !lookup_delete_ne; [by apply Hm| |done]. intros He.
    apply Hne, u64_as_i64_inj; [done..|congruence].
Qed.

(** Once a chain could not be re-armed the pass stays failed. *)
Lemma break_fold_failed {E} l : forall m s m' s',
  st_fold (break_one (E := E)) (m, false) l s <> (Ok (m', true), s').
Proof.
  induction l as [|v l IHl]; intros m s m' s' Hr; [done|].
  cbn [st_fold] in Hr. inv_ok Hr as acc s2 Ha Hb. destruct acc as [m2 []]; [|by eapply IHl].
  revert Ha. unfold break_one, st_bind, st_try.
  destruct (db _ s) as [[] ?]; [|discriminate]. destruct (db _ _) as [[] ?]; discriminate.
Qed.

Lemma break_fold_match {E} l : forall m flag s m' s',
  Forall in_u64 l -> cursors_match (sv_db s) m ->
  st_fold (break_one (E := E)) (m, flag) l s = (Ok (m', true), s') ->
  flag = true /\ cursors_match (sv_db s') m' /\
    forall u, m' !! u = if bool_decide (u ∈ l) then None else m !! u.
Proof.
  induction l as [|u l IH]; intros m flag s m' s' Hl Hm Hr.
  - cbn in Hr. injection Hr as <- -> <-. done.
  - apply Forall_cons in Hl as [Hu Hl]. cbn [st_fold] in Hr.
    inv_ok Hr as acc s1 Ha Hb. destruct acc as [m1 flag1].
    destruct flag1.
    + apply break_one_match in Ha as (-> & Hm1 & ->); [|done..].
      destruct (IH _ _ _ _ _ Hl Hm1 Hb) as (_ & Hm' & Hlook). split; [done|]. split; [done|].
      intros v. rewrite Hlook. destruct (decide (u = v)) as [->|Hne].
      * rewrite lookup_delete_eq, (bool_decide_true (v ∈ v :: l)) by set_solver. by case_bool_decide.
      * rewrite lookup_delete_ne by done. repeat case_bool_decide; set_solver.
    + by destruct (break_fold_failed l _ _ _ _ Hb).
Qed.

(** *** The resume position *)

Lemma max_seq_None m : max_seq m = None <-> m = ∅.
Proof.
  unfold max_seq. split; [|intros ->; by rewrite map_to_list_empty].
  intros Hn. apply map_to_list_empty_iff. by destruct (map_to_list m).
Qed.

Lemma max_seq_Some m n :
  max_seq m = Some n ->
  (exists u c, m !! u = Some c /\ cc_seq c = n) /\ (forall u c, m !! u = Some c -> cc_seq c <= n).
Proof.
  unfold max_seq. intros Hn.
  assert (Hl : (exists c, c ∈ (map_to_list m).*2 /\ cc_seq c = n) /\
               (forall c, c ∈ (map_to_list m).*2 -> cc_seq c <= n)).
  { revert n Hn. induction ((map_to_list m).*2) as [|c l IH]; cbn; [discriminate|].
    intros n Hn. injection Hn as <-.
    destruct (foldr _ None l) as [n'|] eqn:E.
    - destruct (IH _ eq_refl) as [(c' & Hc' & <-) Hle]. split.
      + destruct (Z.max_spec (cc_seq c) (cc_seq c')) as [[_ ->]|[_ ->]]; [exists c'|exists c]; set_solver.
      + intros c0 Hc0. apply elem_of_cons in Hc0 as [->|Hc0]; [lia|]. apply Hle in Hc0. lia.
    - destruct l; [|discriminate]. split; [exists c; set_solver|].
      intros c0 Hc0. apply list_elem_of_singleton in Hc0 as ->. lia. }
  destruct Hl as [(c & Hc & <-) Hle]. split.
  - apply list_elem_of_fmap in Hc as ([u c'] & -> & Hc). apply elem_of_map_to_list in Hc. eauto.
  - intros u c' Hu. apply Hle. apply (list_elem_of_fmap_2 snd _ (u, c')). by apply elem_of_map_to_list.
Qed.

Lemma mismatched_spec e m u :
  u ∈ mismatched_chains e m <-> exists c, m !! u = Some c /\ cc_epoch c <> e.
Proof.
  unfold mismatched_chains. rewrite list_elem_of_fmap. split.
  - intros ([u' c] & -> & Hin). apply elem_of_filter_b in Hin as [He Hin].
    apply elem_of_map_to_list in Hin. cbn in *. exists c. split; [done|].
    rewrite negb_true_iff, Z.eqb_neq in He. done.
  - intros (c & Hu & He). exists (u, c). split; [done|]. apply elem_of_filter_b.
    cbn. rewrite negb_true_iff, Z.eqb_neq. split; [done|]. by apply elem_of_map_to_list.
Qed.

Lemma reconcile_within ec m e d0 : preserves (on_db (cursors_within d0)) (reconcile_cursors ec m e).
Proof.
  unfold reconcile_cursors. keeps. apply break_lineage_within.
Qed.

(** What [reconcile_cursors] hands to the loop, when it hands anything. *)
Lemma reconcile_ok ec m e s m' from s' :
  cursors_match (sv_db s) m -> reconcile_cursors ec m e s = (Ok (m', from), s') ->
  cursors_match (sv_db s') m' /\
  (forall u, m' !! u = c ← m !! u; if cc_epoch c =? e then Some c else None) /\
  (ecs_accept_lineage_break ec = false -> m' = m) /\
  from = (fun n => mkEventCursor e n 0) <$> max_seq m'.
Proof.
  intros Hm Hr. unfold reconcile_cursors in Hr. case_bool_decide as Hempty.
  { cbn in Hr. injection Hr as <- <- <-. subst m. split; [done|]. split; [|done].
    intros u. by rewrite lookup_empty. }
  case_bool_decide as Hclean; cbn [negb andb] in Hr.
  - cbn in Hr. injection Hr as <- <- <-. split; [done|]. split; [|done]. intros u.
    destruct (m !! u) as [c|] eqn:Hu; [|done]. cbn. destruct (Z.eqb_spec (cc_epoch c) e); [done|].
    assert (Hin : u ∈ mismatched_chains e m) by (apply mismatched_spec; eauto).
    rewrite Hclean in Hin. set_solver.
  - destruct (ecs_accept_lineage_break ec) eqn:Hacc; cbn [negb] in Hr; [|discriminate].
    inv_ok Hr as m1 s1 Ha Hb. cbn in Hb. injection Hb as <- <- <-.
    unfold break_lineage in Ha. inv_ok Ha as acc s2 Hf Hg. destruct acc as [m2 []]; [|discriminate].
    cbn in Hg. injection Hg as <- <-.
    apply break_fold_match in Hf as (_ & Hm2 & Hlook); [|apply Forall_forall|done].
    + split; [done|]. split; [|done]. intros u. rewrite Hlook.
      case_bool_decide as Hin.
      * apply mismatched_spec in Hin as (c & -> & He). cbn. destruct (Z.eqb_spec (cc_epoch c) e); done.
      * destruct (m !! u) as [c|] eqn:Hu; [|done]. cbn. destruct (Z.eqb_spec (cc_epoch c) e); [done|].
        destruct Hin. apply mismatched_spec. eauto.
    + intros u Hin. apply mismatched_spec in Hin as (c & Hu & _). by eapply (proj1 Hm).
Qed.
End Reconcile.

(** * What the handlers do to the database

    Whatever requests fail, and in whatever order events and cleanup passes
    come: amounts received stay the sum of what the standing payments credit,
    closed invoices stay closed, a detected payment is recorded with its
    notification or not at all, and only once. *)

Section Sequences.
Context {D : Type} `{BigDecimal D} `{Runtime} `{Numeric} `{Formats} `{ApiTypes} `{!JobCodec}.

(** The tasks that write the payment tables: the consumer handling an event,
    and a pass of the cleanup service; each may fail part way, and each has run
    to its end before the next begins.  The server spawns the cleanup service
    beside the consumer ([bin/server.rs]), so a pass may also come between two
    requests of a handler: what is proved of [server_step] does not speak of
    that, and [ConsumerDemo.stale_confirmation_reopens] shows where it matters. *)
Inductive server_step : Server -> Server -> Prop :=
| S_event ec ev s : server_step s (snd (handle_event (D := D) ec ev s))
| S_cleanup svc s : server_step s (snd (cleanup_turn svc s)).

Lemma server_step_writes s s' : server_step s s' -> writes (sv_db s) (sv_db s').
Proof.
  destruct 1 as [ec ev s|svc s].
  - apply (handle_event_keeps (sv_db s) ec ev s), rtc_refl.
  - apply (cleanup_turn_keeps (sv_db s) svc s), rtc_refl.
Qed.

Lemma server_steps_writes s s' : rtc server_step s s' -> writes (sv_db s) (sv_db s').
Proof. induction 1 as [|x y z Hxy _ IH]; [apply rtc_refl|]. etrans; [by apply server_step_writes | done]. Qed.

(** C9. After any sequence of events and cleanup passes, with any requests
    failing on the way, every invoice's received amount is the sum of the
    credited amounts of its payments that were not retracted, and every
    payment still belongs to an invoice. *)
Theorem amount_received_is_credited_total s s' i row :
  db_wf (sv_db s) -> rtc server_step s s' -> db_invoices (sv_db s') !! i = Some row ->
  inv_amount_received row = credited_total (db_payments (sv_db s')) i /\
  forall k r, db_payments (sv_db s') !! k = Some r -> is_Some (db_invoices (sv_db s') !! pay_invoice_id r).
Proof.
  intros Hwf Hs Hrow. assert (Hwf' : db_wf (sv_db s')) by (eapply writes_wf; [by apply server_steps_writes | done]).
  split; [by apply (wf_received _ Hwf') | apply (wf_fk _ Hwf')].
Qed.
End Sequences.

Section Resume.
Context `{Runtime} `{Numeric} `{Formats} `{ApiTypes} `{!JobCodec}.

(** Reconciling the stored cursors against the outbox's epoch: without an
    accepted break, a chain stored under another epoch stops the consumer and
    nothing is changed; otherwise exactly the chains under the current epoch
    keep their cursor, in memory and in the table, and the consumer resumes
    after the highest of them, from the start when none is left. *)
Theorem reconcile_cursors_exact ec m e s r s' :
  cursors_match (sv_db s) m -> reconcile_cursors ec m e s = (r, s') ->
  (ecs_accept_lineage_break ec = false -> s' = s /\
     (is_ok r = true <-> forall u c, m !! u = Some c -> cc_epoch c = e)) /\
  match r with
  | Err _ => True
  | Ok (m', from) =>
      cursors_match (sv_db s') m' /\
      (forall u c, m' !! u = Some c <-> m !! u = Some c /\ cc_epoch c = e) /\
      match from with
      | None => m' = ∅
      | Some c => ec_epoch c = e /\ (exists u cur, m' !! u = Some cur /\ cc_seq cur = ec_seq c) /\
          forall u cur, m' !! u = Some cur -> cc_seq cur <= ec_seq c
      end
  end.
Proof.
  intros Hm Hr. split.
  - intros Hacc. unfold reconcile_cursors in Hr. case_bool_decide as Hempty.
    { injection Hr as <- <-. split; [done|]. subst m. split; [|done]. intros _ u c. by rewrite lookup_empty. }
    rewrite Hacc in Hr. case_bool_decide as Hclean; cbn in Hr; injection Hr as <- <-; (split; [done|]); cbn.
    + split; [|done]. intros _ u c Hu. destruct (decide (cc_epoch c = e)) as [|Hne]; [done|].
      assert (Hin : u ∈ mismatched_chains e m) by (apply mismatched_spec; eauto).
      rewrite Hclean in Hin. set_solver.
    + split; [discriminate|]. intros Hall. destruct Hclean. apply elem_of_nil_inv. intros u Hu.
      apply mismatched_spec in Hu as (c & Hu & He). destruct He. by eapply Hall.
  - destruct r as [[m' from]|]; [|done].
    apply reconcile_ok in Hr as (Hm' & Hlook & _ & ->); [|done]. split; [done|]. split.
    + intros u c. rewrite Hlook. destruct (m !! u) as [c0|]; cbn; [|by split; [|intros [? _]]].
      destruct (Z.eqb_spec (cc_epoch c0) e); split; [intros [= <-]|intros [[= ->] _]|..]; try done.
      by intros [[= ->] ?].
    + destruct (max_seq m') as [n|] eqn:Hmax; cbn; [|by apply max_seq_None].
      split; [done|]. by apply max_seq_Some.
Qed.
End Resume.

Section Confirmed.
Context {D : Type} `{BigDecimal D} `{Runtime} `{Numeric} `{Formats} `{ApiTypes} `{!JobCodec}.

Lemma ask_ok_inv {A} (stmt : Statement A) s a s' :
  ask stmt s = (Ok a, s') ->
  exists d', stmt (clock (sv_ticks s)) (sv_db s) = (Ok a, d') /\ s' = set_db d' (tick s).
Proof.
  unfold ask, st_map_err. intros Hs. destruct (db stmt s) as [[x|e] s1] eqn:E; [|discriminate].
  injection Hs as -> ->. by apply db_ok_inv.
Qed.

(** A confirmation that is delivered again never applies: once the
    payment it names is confirmed, the handler fails on every schedule of
    requests, so the consumer halts on the event at every restart. *)
Theorem redelivered_confirmation_fails ec ev s k r :
  db_wf (sv_db s) ->
  db_payments (sv_db s) !! k = Some r -> pay_confirmed_at r <> None -> pay_reorged r = false ->
  pay_invoice_id r = uuid_to_string (pc_invoice_id ev) -> k.1.2 = fmt_b256 (pc_tx_hash ev) ->
  k.2 = pc_tx_index ev ->
  (forall k' r', db_payments (sv_db s) !! k' = Some r' -> k'.1.2 = k.1.2 -> k'.2 = k.2 -> k' = k) ->
  is_ok (fst (handle_payment_confirmed (D := D) ec ev s)) = false.
Proof.
  intros Hwf Hk Hconf Hre Hinv Hhash Hidx Hone.
  destruct (handle_payment_confirmed ec ev s) as [[[]|e] s'] eqn:Hh; [|done]. exfalso.
  unfold handle_payment_confirmed in Hh. inv_ok Hh as found s1 Ha Hb.
  apply ask_ok_inv in Ha as (d1 & Hget & ->). unfold get_by_tx_index, select in Hget.
  injection Hget as <- <-.
  match goal with HB : context [payments_where ?p _] |- _ =>
    assert (Hin : (k, r) ∈ payments_where p (sv_db s)) end.
  { apply payments_where_spec. split; [exact Hk|]. cbn. rewrite Hinv, Hhash, Hidx, Hre.
    by rewrite !String.eqb_refl, Z.eqb_refl. }
  destruct (payments_where _ (sv_db s)) as [|[k' r'] l] eqn:Hw; [set_solver|]. cbn in Hb.
  assert (Hk' : (k', r') ∈ (k', r') :: l) by left. rewrite <- Hw in Hk'.
  apply payments_where_spec in Hk' as [Hk' Hp]. cbn in Hk', Hp.
  rewrite !andb_true_iff, !String.eqb_eq, Z.eqb_eq in Hp. destruct Hp as [[[_ Hh'] Hi'] _].
  assert (k' = k) as -> by (eapply Hone; eauto; congruence).
  assert (r' = r) as -> by congruence.
  inv_ok Hb as u s2 Hc Hd. apply ask_ok_inv in Hc as (d2 & Hmark & _).
  unfold mark_confirmed in Hmark. rewrite update_payments_none in Hmark; [discriminate|].
  intros k'' r'' Hk''. destruct (pay_id r'' =? pay_id r) eqn:He; [|done]. apply Z.eqb_eq in He.
  assert (k'' = k) as -> by (eapply (wf_ids _ Hwf); eauto).
  assert (r'' = r) as -> by (cbn in Hk''; congruence). by destruct (pay_confirmed_at r).
Qed.
End Confirmed.
