(* ===== verification/ConsumerSystem.v ===== *)
(** * The consumer, the outbox and crashes

    The consumer runs against any outbox that keeps the interface.  Publishers,
    other tasks of the server, crashes and restarts interleave with it freely. *)

From stdpp Require Import gmap strings list relations.
From Stdlib Require Import ZArith Lia.
From S2P Require Import Prelude Events Network Bridge Decimal Database DatabaseFacts Services.
From S2P Require Import Services Cleanup Consumer ConsumerFacts.

Section ApplyEnvelope.
Context {D : Type} `{BigDecimal D} `{Runtime} `{Numeric} `{Formats} `{ApiTypes} `{!JobCodec}.

(** The event was applied, or the operator named it for skipping. *)
Definition settled (ec : EventConsumer) (e : EventEnvelope) (s : Server) : Prop :=
  skipped ec e = true \/ fst (handle_event (D := D) ec (ee_event e) s) = Ok tt.

(** The cursors after are the cursors before, except that the event's chain
    may now hold [cur]. *)
Definition cursors_after (d d' : Db) (chain : Z) (cur : ChainCursor) : Prop :=
  forall key c, db_cursors d' !! key = Some c ->
    db_cursors d !! key = Some c \/ key = (ADAPTER_ID, u64_as_i64 chain) /\ c = cur.

Lemma commit_after chain cur now d :
  cursors_after d (snd (commit_chain_cursor ADAPTER_ID chain cur now d)) chain cur.
Proof.
  intros key c. unfold commit_chain_cursor.
  assert (Hput : (<[(ADAPTER_ID, u64_as_i64 chain) := cur]> (db_cursors d)) !! key = Some c ->
    db_cursors d !! key = Some c \/ key = (ADAPTER_ID, u64_as_i64 chain) /\ c = cur).
  { rewrite lookup_insert_Some. intros [[<- <-]|[_ Hc]]; auto. }
  destruct (db_cursors d !! (ADAPTER_ID, u64_as_i64 chain)) as [old|]; cbn; [|exact Hput].
  destruct (_ || _); cbn; [exact Hput|auto].
Qed.

Lemma handle_event_cursors ec ev s :
  db_cursors (sv_db (snd (handle_event (D := D) ec ev s))) = db_cursors (sv_db s).
Proof.
  apply (writes_cursors (sv_db s)). apply (handle_event_keeps (sv_db s) ec ev s). apply rtc_refl.
Qed.

(** A cursor is only ever written once the event it names is settled. *)
Lemma apply_envelope_cursors ec e ep cs s r s' :
  apply_envelope (D := D) ec e ep cs s = (r, s') ->
  let cur := mkChainCursor ep (ec_seq (ee_cursor e)) (ec_block_height (ee_cursor e)) in
  match r with
  | Ok _ => settled ec e s /\ cursors_after (sv_db s) (sv_db s') (ee_chain_id e) cur
  | Err _ => db_cursors (sv_db s') = db_cursors (sv_db s) \/
      settled ec e s /\ cursors_after (sv_db s) (sv_db s') (ee_chain_id e) cur
  end.
Proof.
  intros Ha cur. unfold apply_envelope, st_bind in Ha.
  set (first := if skipped ec e then st_ret tt else apply_or_halt ec e) in Ha.
  assert (Hfirst : db_cursors (sv_db (snd (first s))) = db_cursors (sv_db s) /\
                   (fst (first s) = Ok tt -> settled ec e s)).
  { unfold first, settled. destruct (skipped ec e); [by auto|].
    unfold apply_or_halt, st_map_err. pose proof (handle_event_cursors ec (ee_event e) s) as Hc.
    destruct (handle_event ec (ee_event e) s) as [[[]|x] s1]; cbn in *; auto. split; [done|discriminate]. }
  destruct (first s) as [[[]|x] s1]; cbn in Hfirst; destruct Hfirst as [Hc Hok];
    [|by injection Ha as <- <-; auto].
  specialize (Hok eq_refl). unfold st_map_err in Ha.
  assert (Hafter : forall now, cursors_after (sv_db s)
    (snd (commit_chain_cursor ADAPTER_ID (ee_chain_id e) cur now (sv_db s1))) (ee_chain_id e) cur).
  { intros now key c Hkey. apply commit_after in Hkey. by rewrite Hc in Hkey. }
  unfold db, exchange in Ha. fold cur in Ha. destruct (calls (sv_ticks s1)); cbn in Ha.
  - specialize (Hafter (clock (sv_ticks s1))).
    destruct (commit_chain_cursor _ _ _ _ _) as [[u|x] d1]; cbn in Ha; injection Ha as <- <-; auto.
  - injection Ha as <- <-. left. exact Hc.
  - specialize (Hafter (clock (sv_ticks s1))).
    destruct (commit_chain_cursor _ _ _ _ _) as [x d1]; cbn in Ha; injection Ha as <- <-; auto.
Qed.
End ApplyEnvelope.

(** ** The system *)

Section System.
Context {D : Type} `{BigDecimal D} `{Runtime} `{Numeric} `{Formats} `{ApiTypes} `{!JobCodec}.
Context {B R X : Type} `{EventOutboxLaws B R X}.
Context (ec : EventConsumer).

(** The outbox and everything published; the server and the consumer, if it
    runs.  [y_first] is the position of the first event delivered since the
    consumer last had no cursor to resume from, [y_applied] the positions of
    the events whose handler returned. *)
Record Sys := mkSys {
  y_box : B;
  y_log : list EventEnvelope;
  y_server : Server;
  y_run : option (Running (R := R));
  y_first : option Z;
  y_applied : list Z
}.

Definition seq_of (e : EventEnvelope) : Z := ec_seq (ee_cursor e).

(** The bookkeeping of a turn that was delivered [e]. *)
Definition note (e : EventEnvelope) (s : Server) (applied : list Z) : list Z :=
  if is_ok (fst (handle_event (D := D) ec (ee_event e) s)) then seq_of e :: applied else applied.

Inductive sys_step : Sys -> Sys -> Prop :=
| Y_publish x ev b b' log e s run first applied r :
    ob_publish x ev b = (r, b') -> ob_history b' (log ++ [e]) -> in_u64 (ee_chain_id e) ->
    sys_step (mkSys b log s run first applied) (mkSys b' (log ++ [e]) s run first applied)
| Y_publish_failed x ev b b' log s run first applied err :
    ob_publish x ev b = (Err err, b') -> ob_history b' log ->
    sys_step (mkSys b log s run first applied) (mkSys b' log s run first applied)
| Y_other b log s s' run first applied :
    db_cursors (sv_db s') = db_cursors (sv_db s) ->
    sys_step (mkSys b log s run first applied) (mkSys b log s' run first applied)
| Y_start x1 x2 b b' log s s' first applied from rn :
    run_start ec x1 x2 b s = (Ok (from, rn), b', s') ->
    sys_step (mkSys b log s None first applied)
             (mkSys b' log s' (Some rn) (match from with Some _ => first | None => None end) applied)
| Y_start_failed x1 x2 b b' log s s' first applied exit :
    run_start ec x1 x2 b s = (Err exit, b', s') ->
    sys_step (mkSys b log s None first applied) (mkSys b' log s' None first applied)
| Y_turn x b log s s' rn first applied r e stream :
    ob_next x b (rn_stream rn) = Yielded e stream ->
    run_turn (D := D) ec x b rn s = (r, s') ->
    sys_step (mkSys b log s (Some rn) first applied)
             (mkSys b log s' (result_ok r) (Some (default (seq_of e) first)) (note e s applied))
| Y_wait x b log s s' rn first applied r stream :
    ob_next x b (rn_stream rn) = Waiting stream ->
    run_turn (D := D) ec x b rn s = (r, s') ->
    sys_step (mkSys b log s (Some rn) first applied) (mkSys b log s' (result_ok r) first applied)
| Y_crash b log s rn first applied :
    sys_step (mkSys b log s (Some rn) first applied) (mkSys b log s None first applied).

(** Every event published at a position in [from, upto) was applied or is one
    the operator named. *)
Definition accounted (y : Sys) (from upto : Z) : Prop :=
  forall e, e ∈ y_log y -> from <= seq_of e < upto -> seq_of e ∈ y_applied y \/ skipped ec e = true.

(** The position the next published event will get. *)
Definition published (y : Sys) : Z := ob_base + Z.of_nat (length (y_log y)).

Record sys_inv (y : Sys) : Prop := {
  inv_history : ob_history (y_box y) (y_log y);
  inv_chains e : e ∈ y_log y -> in_u64 (ee_chain_id e);
  inv_keys : cursor_keys_ok (sv_db (y_server y));
  inv_cursors k cur : db_cursors (sv_db (y_server y)) !! (ADAPTER_ID, k) = Some cur ->
    exists f, y_first y = Some f /\ f <= cc_seq cur < published y /\ accounted y f (cc_seq cur + 1);
  inv_run rn : y_run y = Some rn ->
    exists pos, ob_position (rn_stream rn) (y_log y) pos /\
      match pos with
      | None => y_first y = None /\ forall k, db_cursors (sv_db (y_server y)) !! (ADAPTER_ID, k) = None
      | Some p => exists f, y_first y = Some f /\ f <= p <= published y /\ accounted y f p
      end
}.

(** *** Its preservation, step by step *)

Lemma seq_of_unique b log e e' :
  ob_history b log -> e ∈ log -> e' ∈ log -> seq_of e = seq_of e' -> e = e'.
Proof.
  intros Hh He He' Hs. apply list_elem_of_lookup in He as [i Hi], He' as [j Hj].
  pose proof (ob_history_seq b log i e Hh Hi). pose proof (ob_history_seq b log j e' Hh Hj).
  unfold seq_of in Hs. assert (i = j) by lia. congruence.
Qed.

Lemma accounted_mono y y' f n :
  (forall e, e ∈ y_log y' -> e ∈ y_log y \/ n <= seq_of e) ->
  (forall p, p ∈ y_applied y -> p ∈ y_applied y') ->
  accounted y f n -> accounted y' f n.
Proof.
  intros Hlog Happ Ha e He Hr. destruct (Hlog e He) as [He'|He']; [|lia].
  destruct (Ha e He' Hr); auto.
Qed.

Lemma published_seq y e : ob_history (y_box y) (y_log y) -> e ∈ y_log y -> seq_of e < published y.
Proof.
  intros Hh He. apply list_elem_of_lookup in He as [i Hi].
  pose proof (ob_history_seq _ _ i e Hh Hi). apply lookup_lt_Some in Hi.
  unfold seq_of, published. lia.
Qed.

Lemma note_incl e s applied p : p ∈ applied -> p ∈ note e s applied.
Proof. unfold note. destruct (is_ok _); set_solver. Qed.

Lemma inv_publish b b' log e s run first applied :
  sys_inv (mkSys b log s run first applied) -> ob_history b' (log ++ [e]) -> in_u64 (ee_chain_id e) ->
  sys_inv (mkSys b' (log ++ [e]) s run first applied).
Proof.
  intros [Hh Hc Hk Hcur Hrun] Hh' He. cbn in *.
  assert (Hlast : seq_of e = ob_base + Z.of_nat (length log)).
  { apply (ob_history_seq b' (log ++ [e])); [done|]. by apply list_lookup_middle. }
  assert (Hmono : forall f n, n <= ob_base + Z.of_nat (length log) ->
    accounted (mkSys b log s run first applied) f n ->
    accounted (mkSys b' (log ++ [e]) s run first applied) f n).
  { intros f n Hn. apply accounted_mono; [|done]. cbn. intros e' He'.
    apply elem_of_app in He' as [?|He']; [auto|]. apply list_elem_of_singleton in He' as ->. lia. }
  constructor; cbn; [done| |done| |].
  - intros e' He'. apply elem_of_app in He' as [?|He']; [auto|].
    by apply list_elem_of_singleton in He' as ->.
  - intros k cur Hk'. destruct (Hcur k cur Hk') as (f & Hf & Hr & Ha). unfold published in *. cbn in *.
    exists f. split; [done|]. rewrite length_app. cbn. split; [lia|]. apply Hmono; [lia|done].
  - intros rn Hrn. destruct (Hrun rn Hrn) as (pos & Hpos & Hm). exists pos.
    split; [by apply ob_position_app|]. destruct pos as [p|]; [|done].
    destruct Hm as (f & Hf & Hr & Ha). unfold published in *. cbn in *. exists f. split; [done|].
    rewrite length_app. cbn. split; [lia|]. apply Hmono; [lia|done].
Qed.

(** Replacing the outbox, the server or the consumer by ones that agree on
    what the invariant mentions. *)
Lemma inv_frame b b' log s s' run run' first applied :
  sys_inv (mkSys b log s run first applied) -> ob_history b' log ->
  db_cursors (sv_db s') = db_cursors (sv_db s) -> (run' = None \/ run' = run) ->
  sys_inv (mkSys b' log s' run' first applied).
Proof.
  intros [Hh Hc Hk Hcur Hrun] Hh' Hs Hr. cbn in *. constructor; cbn; [done|done| | |].
  - intros a k cur. rewrite Hs. apply Hk.
  - intros k cur. rewrite Hs. apply Hcur.
  - intros rn Hrn. destruct Hr as [->| ->]; [discriminate|].
    destruct (Hrun rn Hrn) as (pos & Hpos & Hm). exists pos. split; [done|].
    destruct pos; [done|]. by rewrite Hs.
Qed.

(** Starting reads the cursors, reconciles them and subscribes after the
    highest that is left. *)
Lemma run_start_spec x1 x2 b log s r b' s' :
  ob_history b log -> cursor_keys_ok (sv_db s) -> run_start ec x1 x2 b s = (r, b', s') ->
  ob_history b' log /\ cursors_within (sv_db s) (sv_db s') /\
  match r with
  | Err _ => True
  | Ok (from, rn) =>
      ob_position (rn_stream rn) log (c ← from; Some (ec_seq c + 1)) /\
      match from with
      | None => forall k, db_cursors (sv_db s') !! (ADAPTER_ID, k) = None
      | Some c => exists k cur, db_cursors (sv_db s) !! (ADAPTER_ID, k) = Some cur /\ cc_seq cur = ec_seq c
      end
  end.
Proof.
  intros Hh Hk Hr. unfold run_start in Hr.
  assert (Hw0 : forall (rl : result RepositoryError (gmap Z ChainCursor)) s1,
    db (chain_cursors ADAPTER_ID) s = (rl, s1) -> sv_db s1 = sv_db s).
  { intros rl s1. unfold db, exchange. destruct (calls _); cbn; intros [= <- <-]; done. }
  destruct (db (chain_cursors ADAPTER_ID) s) as [[m|e] s1] eqn:Hload.
  2:{ injection Hr as <- <- <-. specialize (Hw0 _ _ eq_refl). rewrite Hw0. split; [done|]. split; [apply cursors_within_refl | done]. }
  specialize (Hw0 _ _ eq_refl).
  apply db_ok_inv in Hload as (dl & Hload & _). apply chain_cursors_match in Hload as [_ Hmatch]; [|done].
  destruct (ob_current_epoch x1 b) as [re b1] eqn:He. apply (ob_epoch_history _ _ _ _ _ Hh) in He.
  destruct re as [ep|e].
  2:{ injection Hr as <- <- <-. rewrite Hw0. split; [done|]. split; [apply cursors_within_refl | done]. }
  destruct (reconcile_cursors ec m ep s1) as [rr s2] eqn:Hrec.
  assert (Hw : cursors_within (sv_db s) (sv_db s2)).
  { pose proof (reconcile_within ec m ep (sv_db s) s1) as Hp. rewrite Hrec in Hp. apply Hp.
    unfold on_db. rewrite Hw0. apply cursors_within_refl. }
  destruct rr as [[m' from]|e]; [|by injection Hr as <- <- <-].
  rewrite <- Hw0 in Hmatch. apply reconcile_ok in Hrec as (Hm' & Hlook & _ & ->); [|done].
  destruct (ob_subscribe_from x2 _ b1) as [rs b2] eqn:Hs.
  apply (ob_subscribe_position _ _ _ _ _ _ He) in Hs as [Hh2 Hpos].
  assert (Hdone : (b', s') = (b2, s2)) by (destruct rs as [|[]]; by injection Hr as <- <- <-).
  injection Hdone as -> ->. split; [done|]. split; [done|].
  destruct rs as [sub|e]; [|destruct e; by injection Hr as <-].
  injection Hr as <-. split; [exact Hpos|]. destruct (max_seq m') as [n|] eqn:Hmax; cbn.
  - destruct (max_seq_Some m' n Hmax) as [(u & c & Hu & <-) _].
    pose proof (proj1 Hm' u c Hu) as Hu64. rewrite (proj2 Hm' u Hu64) in Hu.
    exists (u64_as_i64 u), c. split; [by apply Hw | done].
  - apply max_seq_None in Hmax as ->. intros k. destruct (_ !! _) as [c|] eqn:Hc; [|done].
    apply Hw in Hc as Hc'. apply Hk in Hc' as (u & Hu & ->).
    rewrite <- (proj2 Hm' u Hu), lookup_empty in Hc. discriminate.
Qed.

Lemma inv_start x1 x2 b b' log s s' first applied r :
  sys_inv (mkSys b log s None first applied) -> run_start ec x1 x2 b s = (r, b', s') ->
  match r with
  | Ok (from, rn) =>
      sys_inv (mkSys b' log s' (Some rn) (match from with Some _ => first | None => None end) applied)
  | Err _ => sys_inv (mkSys b' log s' None first applied)
  end.
Proof.
  intros [Hh Hc Hk Hcur Hrun] Hr. cbn in *.
  destruct (run_start_spec _ _ _ log _ _ _ _ Hh Hk Hr) as (Hh' & Hw & Hres).
  assert (Hk' : cursor_keys_ok (sv_db s')) by (intros a k cur Hl; apply (Hk a k cur); by apply Hw).
  destruct r as [[from rn]|e].
  - destruct Hres as [Hpos Hfrom]. constructor; cbn; [done|done|done| |].
    + intros k cur Hl. destruct from as [c|]; [|by rewrite Hfrom in Hl].
      apply Hw, Hcur in Hl. exact Hl.
    + intros rn0 [= <-]. eexists. split; [exact Hpos|]. destruct from as [c|]; cbn; [|done].
      destruct Hfrom as (k & cur & Hl & <-). destruct (Hcur k cur Hl) as (f & Hf & Hle & Ha).
      exists f. unfold published in *. cbn in *. split; [done|]. split; [lia|done].
  - constructor; cbn; [done|done|done| |done].
    intros k cur Hl. apply Hw, Hcur in Hl. exact Hl.
Qed.

Lemma inv_turn x b log s s' rn first applied r e stream :
  sys_inv (mkSys b log s (Some rn) first applied) ->
  ob_next x b (rn_stream rn) = Yielded e stream -> run_turn (D := D) ec x b rn s = (r, s') ->
  sys_inv (mkSys b log s' (result_ok r) (Some (default (seq_of e) first)) (note e s applied)).
Proof.
  intros [Hh Hc Hk Hcur Hrun] Hn Hr. cbn in *. unfold run_turn in Hr. rewrite Hn in Hr.
  destruct (Hrun rn eq_refl) as (pos & Hpos & Hm).
  pose proof (ob_next_position x b log _ _ Hh Hpos) as Hlaw. rewrite Hn in Hlaw.
  destruct Hlaw as (Hseq & [i Hi] & Hpos'). fold (seq_of e) in *.
  assert (Hin : e ∈ log) by (by eapply list_elem_of_lookup_2).
  pose proof (published_seq (mkSys b log s (Some rn) first applied) e Hh Hin) as Hpub. cbn in Hpub.
  set (f := default (seq_of e) first). set (y' := mkSys b log s' (result_ok r) (Some f) (note e s applied)).
  (* what was accounted for stays so *)
  assert (Hmono : forall n, accounted (mkSys b log s (Some rn) first applied) f n -> accounted y' f n).
  { intros n. apply accounted_mono; [by left|]. apply note_incl. }
  (* the entries before the one delivered are accounted for *)
  assert (Hbefore : f <= seq_of e /\ accounted (mkSys b log s (Some rn) first applied) f (seq_of e)).
  { destruct pos as [p|].
    - destruct Hm as (f0 & -> & Hle & Ha). rewrite (Hseq p eq_refl). split; [cbn; lia | exact Ha].
    - destruct Hm as [-> _]. split; [cbn; lia|]. intros e' _ Hr'. cbn in Hr'. lia. }
  destruct Hbefore as [Hfe Hbefore].
  assert (Hnow : settled (D := D) ec e s -> accounted y' f (seq_of e + 1)).
  { intros Hset e' He' Hr'. destruct (decide (seq_of e' < seq_of e)) as [Hlt|Hge].
    - apply (Hmono _ Hbefore); [done|lia].
    - assert (e' = e) as -> by (eapply (seq_of_unique b log); eauto; lia).
      destruct Hset as [?|Hok]; [by right|]. left. cbn. unfold note. rewrite Hok. by left. }
  assert (Hold : forall k cur, db_cursors (sv_db s) !! (ADAPTER_ID, k) = Some cur ->
    f <= cc_seq cur < published y' /\ accounted y' f (cc_seq cur + 1)).
  { intros k cur Hl. destruct (Hcur k cur Hl) as (f0 & -> & Hle & Ha). split; [exact Hle|]. by apply Hmono. }
  unfold st_bind in Hr. destruct (apply_envelope _ _ _ _ s) as [ra s1] eqn:Happ.
  assert (s1 = s') as -> by (by destruct ra; injection Hr as <- <-).
  apply apply_envelope_cursors in Happ. cbn zeta in Happ.
  assert (Hcases : db_cursors (sv_db s') = db_cursors (sv_db s) \/ settled (D := D) ec e s /\
    cursors_after (sv_db s) (sv_db s') (ee_chain_id e)
      (mkChainCursor (rn_epoch rn) (seq_of e) (ec_block_height (ee_cursor e))))
    by (destruct ra; auto).
  constructor; cbn; [done|done| | |].
  - intros a k cur Hl. destruct Hcases as [Hs|[_ Hs]]; [rewrite Hs in Hl; eauto|].
    destruct (Hs _ _ Hl) as [?|[[= -> ->] _]]; [eauto|]. exists (ee_chain_id e). eauto.
  - intros k cur Hl. exists f. split; [done|]. destruct Hcases as [Hs|[Hset Hs]].
    + rewrite Hs in Hl. by apply (Hold k).
    + destruct (Hs _ _ Hl) as [?|[_ ->]]; [by apply (Hold k)|]. cbn. split; [|by apply Hnow].
      split; [done | exact Hpub].
  - intros rn' Hrn'. destruct ra as [cs|]; [|injection Hr as <-; discriminate].
    injection Hr as <-. injection Hrn' as <-. cbn. eexists. split; [exact Hpos'|].
    destruct Happ as [Hset _]. exists f. split; [done|]. split; [|by apply Hnow].
    unfold published in *. cbn in *. lia.
Qed.

Lemma inv_wait x b log s rn first applied stream :
  sys_inv (mkSys b log s (Some rn) first applied) -> ob_next x b (rn_stream rn) = Waiting stream ->
  sys_inv (mkSys b log s (Some (mkRunning stream (rn_epoch rn) (rn_cursors rn))) first applied).
Proof.
  intros [Hh Hc Hk Hcur Hrun] Hn. cbn in *. constructor; cbn; [done..|].
  intros rn' [= <-]. destruct (Hrun rn eq_refl) as (pos & Hpos & Hm). exists pos. split; [|exact Hm].
  pose proof (ob_next_position x b log _ _ Hh Hpos) as Hlaw. by rewrite Hn in Hlaw.
Qed.

Lemma sys_step_inv y y' : sys_step y y' -> sys_inv y -> sys_inv y'.
Proof.
  intros Hstep Hinv.
  destruct Hstep as [| | |x1 x2 b b' log s s' first applied from rn Hst
                    |x1 x2 b b' log s s' first applied exit Hst|
                    |x b log s s' rn first applied r stream Hn Hr|].
  - by eapply inv_publish.
  - eapply inv_frame; eauto.
  - eapply inv_frame; eauto. by destruct Hinv.
  - exact (inv_start _ _ _ _ _ _ _ _ _ _ Hinv Hst).
  - exact (inv_start _ _ _ _ _ _ _ _ _ _ Hinv Hst).
  - by eapply inv_turn.
  - unfold run_turn in Hr. rewrite Hn in Hr. injection Hr as <- <-. by eapply inv_wait.
  - eapply inv_frame; eauto. by destruct Hinv.
Qed.

(** A first boot: nothing stored, nothing running. *)
Definition first_boot (b : B) (log : list EventEnvelope) (s : Server) : Sys :=
  mkSys b log s None None [].

(** C1. Over every interleaving of publishing, the consumer, other tasks of
    the server, failed requests, crashes and restarts: when a cursor is
    stored for a chain, every event published from the first one delivered up
    to that cursor was applied by its handler or was named by the operator for
    skipping, so a restart, which resumes after the highest stored cursor,
    loses none of them. *)
Theorem committed_cursor_covers_only_applied b log s y k cur :
  ob_history b log -> (forall e, e ∈ log -> in_u64 (ee_chain_id e)) -> db_cursors (sv_db s) = ∅ ->
  rtc sys_step (first_boot b log s) y ->
  db_cursors (sv_db (y_server y)) !! (ADAPTER_ID, k) = Some cur ->
  exists first, y_first y = Some first /\ first <= cc_seq cur /\
    forall e, e ∈ y_log y -> first <= ec_seq (ee_cursor e) <= cc_seq cur ->
      ec_seq (ee_cursor e) ∈ y_applied y \/ skipped ec e = true.
Proof.
  intros Hh Hu Hs Hr Hl.
  assert (Hinv : sys_inv y).
  { assert (Hinit : sys_inv (first_boot b log s)).
    { constructor; cbn; [done|done| | |done]; [intros a k' c|intros k' c]; by rewrite Hs, lookup_empty. }
    clear -Hr Hinit. induction Hr; eauto using sys_step_inv. }
  destruct (inv_cursors _ Hinv k cur Hl) as (f & Hf & Hle & Ha). exists f.
  split; [done|]. split; [lia|]. intros e He Hr'. apply (Ha e He). unfold seq_of. lia.
Qed.
End System.
