(* ===== verification/ConsumerStatus.v ===== *)
(** * Invoice statuses under the consumer and the cleanup service

    [update_status] is a bare write: what keeps a closed invoice closed are the
    guards around it.  Here they are shown to be enough. *)

From stdpp Require Import gmap strings list relations.
From Stdlib Require Import ZArith Lia.
From S2P Require Import Prelude Events Network Bridge Decimal Database DatabaseFacts Services.
From S2P Require Import Services Cleanup Consumer ConsumerFacts.

(** What a status may become: refunded, cancelled and late-paid invoices are
    final, an expired one can only turn out late-paid. *)
Definition may_become (a b : InvoiceStatus) : Prop :=
  match a with
  | Refunded | Cancelled | LatePaid => b = a
  | Expired => b = Expired \/ b = LatePaid
  | Pending | Processing | PartiallyPaid | Paid => True
  end.

#[export] Instance may_become_preorder : PreOrder may_become.
Proof.
  split.
  - intros []; cbn; auto.
  - intros [] [] []; cbn; intuition congruence.
Qed.

(** Every invoice of [d0] is still there, with a status it may have got. *)
Definition statuses_from (d0 d : Db) : Prop :=
  forall i row, db_invoices d0 !! i = Some row ->
    exists row', db_invoices d !! i = Some row' /\ may_become (inv_status row) (inv_status row').

Lemma statuses_refl d : statuses_from d d.
Proof. intros i row Hi. exists row. split; [done | reflexivity]. Qed.

Lemma statuses_trans d1 d2 d3 : statuses_from d1 d2 -> statuses_from d2 d3 -> statuses_from d1 d3.
Proof.
  intros H12 H23 i row Hi. destruct (H12 i row Hi) as (r2 & H2 & Hm).
  destruct (H23 i r2 H2) as (r3 & H3 & Hm'). exists r3. split; [done | by etrans].
Qed.

Section Statements.
Context `{Numeric} `{Formats} (d0 : Db).
Let P := statuses_from d0.

Lemma statuses_put_payment now k r d : P d -> P (put_payment now k r d).
Proof.
  intros HP. eapply statuses_trans; [exact HP|]. intros i row Hi. cbn.
  rewrite lookup_alter. cbn. destruct (decide (pay_invoice_id r = i)) as [->|Hne].
  - rewrite Hi. cbn. eexists. split; [done|]. cbn.
    destruct (bool_decide (inv_status row = Pending)) eqn:Hp; cbn; [|reflexivity].
    apply bool_decide_eq_true in Hp. destruct (_ && _); rewrite ?Hp; cbn; auto.
  - exists row. split; [done | reflexivity].
Qed.

Lemma statuses_update_payments p f now d : P d -> P (snd (update_payments p f now d)).
Proof. intros HP. apply update_payments_ind; [done|]. intros. by apply statuses_put_payment. Qed.

Lemma statuses_upsert p i : stmt_keeps P (upsert_payment_row p i).
Proof.
  intros now d HP. unfold upsert_payment_row.
  repeat case_match; cbn; auto using statuses_put_payment.
Qed.

Lemma statuses_obligation a b c e : stmt_keeps P (insert_obligation a b c e).
Proof. intros now d HP. unfold insert_obligation. by case_match. Qed.

Lemma statuses_mark_confirmed id t : stmt_keeps P (mark_confirmed id t).
Proof.
  intros now d HP. unfold mark_confirmed.
  pose proof (statuses_update_payments
    (fun _ r => (pay_id r =? id) && option_is_none (pay_confirmed_at r))
    (fun r => set_confirmed (Some t) (pay_reorged r) r) now d HP) as Hu.
  destruct (update_payments _ _ now d) as [n d']. by destruct (n =? 0)%nat.
Qed.

Lemma statuses_mark_reorged id : stmt_keeps P (mark_payment_reorged id).
Proof. intros now d HP. by apply statuses_update_payments. Qed.

Lemma statuses_allowance a b c e : stmt_keeps P (record_settlement_allowance a b c e).
Proof. intros now d HP. unfold record_settlement_allowance. by case_match. Qed.

Lemma statuses_watched d x : P d -> P (db_set_watched x d).
Proof. done. Qed.

Lemma statuses_deactivate a c t : stmt_keeps P (deactivate a c t).
Proof. by intros now d HP. Qed.

Lemma statuses_stream : stmt_keeps P stream_expired_pending.
Proof. by intros now d HP. Qed.

Lemma statuses_get_expired g : stmt_keeps P (get_expired_for_cleanup g).
Proof. by intros now d HP. Qed.

(** A status write that respects the order. *)
Lemma statuses_set i row st d :
  P d -> db_invoices d !! i = Some row -> may_become (inv_status row) st ->
  P (db_set_invoices (<[i := set_status st row]> (db_invoices d)) d).
Proof.
  intros HP Hi Hm. eapply statuses_trans; [exact HP|]. intros j r Hj. cbn.
  destruct (decide (i = j)) as [->|Hne].
  - rewrite lookup_insert_eq. eexists. split; [done|]. cbn. by simplify_eq.
  - rewrite lookup_insert_ne by done. exists r. split; [done | reflexivity].
Qed.

Lemma statuses_expire i : stmt_keeps P (invoice_expire i).
Proof.
  intros now d HP. unfold invoice_expire. destruct (db_invoices d !! i) as [row|] eqn:Hi; [|done].
  destruct (is_open (inv_status row)) eqn:Ho; [|done]. cbn. apply statuses_set; [done..|].
  by destruct (inv_status row).
Qed.

(** The statement is guarded when the stored status may become the new one. *)
Definition guarded (i : string) (st : InvoiceStatus) (d : Db) : Prop :=
  P d /\ exists row, db_invoices d !! i = Some row /\ may_become (inv_status row) st.

Lemma statuses_update_status i st now d : guarded i st d -> P (snd (update_status i st now d)).
Proof.
  intros [HP (row & Hi & Hm)]. unfold update_status. rewrite Hi. by apply statuses_set.
Qed.

Lemma guarded_allowance i st a b c e : stmt_keeps (guarded i st) (record_settlement_allowance a b c e).
Proof. intros now d HP. unfold record_settlement_allowance. by case_match. Qed.
End Statements.

#[export] Hint Resolve statuses_upsert statuses_obligation statuses_mark_confirmed statuses_mark_reorged
  statuses_allowance statuses_deactivate statuses_stream statuses_get_expired statuses_expire
  guarded_allowance : preserves.

Section Handlers.
Context {D : Type} `{BigDecimal D} `{Runtime} `{Numeric} `{Formats} `{ApiTypes} `{!JobCodec}.
Context (d0 : Db).
Let P := statuses_from d0.

Lemma check_expired_statuses svc : preserves (on_db P) (check_expired svc).
Proof. unfold check_expired, expire_one, queue_expiration_webhook. keeps. Qed.

Lemma cleanup_turn_statuses svc : preserves (on_db P) (cleanup_turn svc).
Proof.
  unfold cleanup_turn. keep_step; [keep_step; apply check_expired_statuses|].
  unfold cleanup_addresses, cleanup_expired_addresses, cleanup_paid_addresses,
    cleanup_cancelled_addresses, cleanup_one_paid, within_paid_grace_period, count_unwatched,
    unwatch_and_deactivate, unwatch_address_by_chain_id, cleanup_db. keeps.
Qed.

Lemma detected_statuses ec ev : preserves (on_db P) (handle_payment_detected (D := D) ec ev).
Proof. unfold handle_payment_detected, asset_of, find_payment_option, credit_of, ask. keeps. Qed.

(** Reading an invoice tells its stored status. *)
Lemma read_invoice i :
  triple (on_db P) (ask (invoice_get i))
    (fun o s => on_db P s /\
       match o with
       | Some inv => exists row, db_invoices (sv_db s) !! i = Some row /\ inv_status row = id_status inv
       | None => True
       end) (on_db P).
Proof.
  intros s Hs. destruct (ask (invoice_get i) s) as [[o|e] s'] eqn:Ha.
  - apply ask_ok_inv in Ha as (d' & Hg & ->). unfold invoice_get, select in Hg. injection Hg as <- <-.
    split; [done|]. cbn. destruct (db_invoices (sv_db s) !! i) as [row|] eqn:Hi; cbn; [|done].
    by exists row.
  - unfold ask, st_map_err, db, exchange in Ha. cbn in Ha. destruct (calls _); cbn in Ha;
      [discriminate|injection Ha as _ <-..]; done.
Qed.

Lemma update_status_guarded i st :
  triple (on_db (guarded d0 i st)) (ask (update_status i st)) (fun _ => on_db P) (on_db P).
Proof.
  intros s Hs. unfold ask, st_map_err, db, exchange.
  assert (HP : on_db P (tick s)) by apply Hs.
  pose proof (statuses_update_status d0 i st (clock (sv_ticks s)) (sv_db (tick s)) Hs) as Hu.
  destruct (calls _); cbn in *; [|done|]; destruct (update_status _ _ _ _) as [[] ?]; exact Hu.
Qed.

Lemma settle_as_statuses ec ev inv p a b t src st wh :
  triple (on_db (guarded d0 (uuid_to_string (pc_invoice_id ev)) st))
    (settle_as (D := D) ec ev inv p a b t src st wh) (fun _ => on_db P) (on_db P).
Proof.
  unfold settle_as.
  eapply triple_bind.
  { apply triple_preserves; [|by intros s [? _]].
    unfold record_allowance_if_short, ask. keeps. }
  intros u. eapply triple_bind; [apply update_status_guarded|]. intros v.
  apply triple_preserves; [|done].
  unfold queue_settled_webhook, queue_webhook_event, queue_payload. keeps.
Qed.

(** What the settling code knows: the invoice it read is the stored one. *)
Let read_as (i : string) (inv : InvoiceData) : Db -> Prop :=
  fun d => P d /\ exists row, db_invoices d !! i = Some row /\ inv_status row = id_status inv.

Lemma read_as_guarded i inv st d :
  may_become (id_status inv) st -> read_as i inv d -> guarded d0 i st d.
Proof. intros Hm [HP (row & Hi & Hs)]. split; [done|]. exists row. by rewrite Hs. Qed.

Lemma after_settling_statuses {E} ec i t : preserves (on_db P) (notify_own_store_settled (E := E) ec i t).
Proof. unfold notify_own_store_settled. keeps. Qed.

Lemma settle_statuses ec ev p inv :
  triple (on_db (read_as (uuid_to_string (pc_invoice_id ev)) inv)) (settle (D := D) ec ev p inv)
    (fun _ => on_db P) (on_db P).
Proof.
  assert (HF : forall s, on_db (read_as (uuid_to_string (pc_invoice_id ev)) inv) s -> on_db P s)
    by (by intros s [? _]).
  unfold settle. destruct (bd_parse (id_amount_received inv)); [|by apply triple_throw].
  destruct (bd_parse (id_amount inv)); [|by apply triple_throw].
  eapply triple_bind; [apply triple_preserves; [unfold ask; keeps|exact HF]|]. intros tol.
  destruct (effective_tolerance tol) as [[pct src]|]; [|by apply triple_throw].
  assert (Hgo : forall st a b pct src wh, may_become (id_status inv) st ->
    triple (on_db (read_as (uuid_to_string (pc_invoice_id ev)) inv))
      (settle_as (D := D) ec ev inv p a b pct src st wh) (fun _ => on_db P) (on_db P)).
  { intros st a b pct' src' wh Hm. eapply triple_weaken; [apply settle_as_statuses | | done].
    intros s. by apply read_as_guarded. }
  destruct (id_status inv) eqn:Hst; try (by apply triple_ret);
    (destruct (is_fully_paid _ _ _); [|by apply triple_ret]);
    (eapply triple_bind; [apply Hgo; cbn; auto | intros u]).
  1, 2: apply triple_preserves; [|done];
    unfold send_customer_receipt, receipts_disabled_for_store, notify_own_store_settled; keeps.
  apply triple_preserves; [apply after_settling_statuses | done].
Qed.

Lemma confirmed_statuses ec ev : preserves (on_db P) (handle_payment_confirmed (D := D) ec ev).
Proof.
  apply preserves_triple. unfold handle_payment_confirmed.
  eapply triple_bind; [apply triple_preserves; [unfold ask; keeps|done]|]. intros found.
  destruct found as [payment|]; [|by apply triple_ret].
  eapply triple_bind; [apply triple_preserves; [unfold ask; keeps|done]|]. intros u.
  eapply triple_bind; [apply read_invoice|]. intros [inv|]; cbn.
  - eapply triple_weaken; [apply settle_statuses | intros s [HP Hr]; by split | done].
  - apply triple_throw. by intros s [? _].
Qed.

Lemma apply_reorg_statuses i st :
  triple (on_db P) (apply_reorg_status i st) (fun _ => on_db P) (on_db P).
Proof.
  unfold apply_reorg_status. eapply triple_bind; [apply read_invoice|]. intros [inv|]; cbn.
  - destruct (id_status inv) eqn:Hst; try (apply triple_ret; by intros s [? _]);
      (eapply triple_bind;
        [eapply triple_weaken; [apply (update_status_guarded i st) | | done]
        | intros u; by apply triple_ret]);
      (intros s [HP (row & Hi & Hs)]; split; [done|]; exists row; by rewrite Hs).
  - apply triple_throw. by intros s [? _].
Qed.

Lemma reorg_statuses ec ev : preserves (on_db P) (handle_reorg_detected ec ev).
Proof.
  unfold handle_reorg_detected, ask. keeps. apply preserves_triple. unfold retract_invoice.
  eapply triple_bind; [apply triple_preserves; [unfold ask; keeps|done]|]. intros u.
  eapply triple_bind; [apply triple_preserves; [unfold ask; keeps|done]|]. intros valid.
  eapply triple_bind; [apply apply_reorg_statuses|]. intros st.
  apply triple_preserves; [|done]. unfold notify_reorg, queue_payload. keeps.
Qed.

Lemma handle_event_statuses ec ev : preserves (on_db P) (handle_event (D := D) ec ev).
Proof.
  destruct ev; cbn [handle_event]; try apply preserves_ret.
  - apply detected_statuses.
  - apply confirmed_statuses.
  - apply reorg_statuses.
  - unfold trigger_expiration_check, check_chain. keeps. apply check_expired_statuses.
Qed.

(** C5. A closed invoice is not reopened when event handlers and cleanup passes
    run one after the other: whatever events arrive (late payments,
    confirmations, reorgs, expiry checks) and whatever passes run, in any order
    and with any requests failing, an invoice that was refunded, cancelled or
    late-paid keeps its status, and an expired one stays expired or becomes
    late-paid.  A cleanup pass between two requests of one handler is outside
    the statement. *)
Theorem closed_invoice_never_reopened s s' i row :
  sv_db s = d0 -> rtc (server_step (D := D)) s s' -> db_invoices d0 !! i = Some row ->
  exists row', db_invoices (sv_db s') !! i = Some row' /\
    match inv_status row with
    | Refunded | Cancelled | LatePaid => inv_status row' = inv_status row
    | Expired => inv_status row' = Expired \/ inv_status row' = LatePaid
    | _ => True
    end.
Proof.
  intros Hd Hs Hi. assert (HP : P (sv_db s')).
  { assert (Hinit : P (sv_db s)) by (rewrite Hd; apply statuses_refl). clear Hd.
    induction Hs as [|x y z Hxy _ IH]; [done|]. apply IH. destruct Hxy as [ec ev x|svc x].
    - by apply handle_event_statuses.
    - by apply cleanup_turn_statuses. }
  destruct (HP i row Hi) as (row' & Hi' & Hm). exists row'. split; [done|].
  by destruct (inv_status row).
Qed.
End Handlers.
