(* ===== verification/ConsumerPayments.v ===== *)
(** * Recording and confirming a payment

    Recording: the payment row and the obligation to notify its store are one
    transaction: both on file or neither, however requests fail; and an event
    delivered again finds its row and adds nothing. *)

From stdpp Require Import gmap strings list relations.
From Stdlib Require Import ZArith Lia.
From S2P Require Import Prelude Events Network Bridge Decimal Database DatabaseFacts Services Cleanup Consumer ConsumerFacts.

Section Detect.
Context {D : Type} `{BigDecimal D} `{Runtime} `{Numeric} `{Formats} `{ApiTypes} `{!JobCodec}.

(** The key of the transfer an event reports. *)
Definition transfer_key (ev : PaymentDetected) (idx : Z) : PaymentKey :=
  (chain_id_evm (pd_chain_id ev), fmt_b256 (pd_tx_hash ev), idx).

(** What a payment's row does to the invoices: its own has the new total
    received, and is processing if it was pending and the payment is in time; no
    other is touched. *)
Definition counted (row : PaymentRow) (d d' : Db) : Prop :=
  (forall i, i <> pay_invoice_id row -> db_invoices d' !! i = db_invoices d !! i) /\
  match db_invoices d !! pay_invoice_id row with
  | None => db_invoices d' !! pay_invoice_id row = None
  | Some inv => exists st,
      db_invoices d' !! pay_invoice_id row
        = Some (set_received (credited_total (db_payments d') (pay_invoice_id row)) st inv) /\
      (st = inv_status inv \/ inv_status inv = Pending /\ st = Processing)
  end.

(** Every table but those of invoices, payments and obligations is as it was. *)
Definition only_payment_tables (d d' : Db) : Prop :=
  d' = db_set_invoices (db_invoices d') (db_set_payments (db_payments d') (db_set_outbox (db_outbox d') d)).

(** What recording the event does: its row at the transfer's key, new or
    merged into the one already there, its obligation, its part in its invoice,
    and nothing else. *)
Record recorded (ev : PaymentDetected) (d d' : Db) : Prop := {
  rec_row : exists idx row, tx_index ev = Some idx /\
    db_payments d' = <[transfer_key ev idx := row]> (db_payments d) /\
    match db_payments d !! transfer_key ev idx with
    | None => pay_invoice_id row = uuid_to_string (pd_invoice_id ev) /\ pay_amount row = pd_amount ev /\
        pay_reorged row = false /\ pay_confirmed_at row = None /\
        is_Some (db_invoices d !! pay_invoice_id row)
    | Some old => pay_id row = pay_id old /\ pay_invoice_id row = pay_invoice_id old /\
        pay_amount row = pay_amount old /\ pay_reorged row = pay_reorged old /\
        pay_confirmed_at row = pay_confirmed_at old
    end /\
    let key := (pay_id row, event_type_str PaymentDetectedEvent) in
    match db_outbox d !! key with
    | Some ob => db_outbox d' = db_outbox d
    | None => exists ob, db_outbox d' = <[key := ob]> (db_outbox d) /\ ob_dispatched_at ob = None
    end /\
    counted row d d';
  rec_frame : only_payment_tables d d'
}.

(** The transaction: nothing, or everything. *)
Lemma upsert_with_obligation_atomic p idx evt s r s' :
  upsert_with_tx_index_and_obligation p idx evt s = (r, s') ->
  (is_ok r = false /\ sv_db s' = sv_db s) \/
  exists now id pid d1,
    upsert_payment_row p idx now (sv_db s) = (Ok pid, d1) /\
    insert_obligation id pid (pda_invoice_id p) evt now d1 = (Ok tt, sv_db s').
Proof.
  unfold upsert_with_tx_index_and_obligation, st_bind, utc_now, st_gets, exchange at 1. intros Hr.
  destruct (calls _); cbn in Hr; [|by injection Hr as <- <-; left..].
  unfold tx_statement at 1, exchange at 1 in Hr. destruct (calls _); cbn in Hr.
  2: by injection Hr as <- <-; left.
  2: by destruct (upsert_payment_row p idx _ _) as [[] ?]; injection Hr as <- <-; left.
  destruct (upsert_payment_row p idx _ (sv_db s)) as [[pid|e] d1] eqn:Hu; cbn in Hr;
    [|by injection Hr as <- <-; left].
  unfold tx_statement, exchange at 1 in Hr. destruct (calls _); cbn in Hr.
  2: by injection Hr as <- <-; left.
  2: by destruct (insert_obligation _ _ _ _ _ _) as [[] ?]; injection Hr as <- <-; left.
  destruct (insert_obligation _ _ _ _ _ d1) as [[[]|e] d2] eqn:Hi; cbn in Hr;
    [|by injection Hr as <- <-; left].
  unfold exchange in Hr. destruct (calls _); cbn in Hr; injection Hr as <- <-; cbn; eauto 8.
Qed.

Lemma insert_obligation_outbox id pid inv evt now d d' :
  insert_obligation id pid inv evt now d = (Ok tt, d') ->
  d' = db_set_outbox (db_outbox d') d /\
  match db_outbox d !! (pid, evt) with
  | Some _ => db_outbox d' = db_outbox d
  | None => exists ob, db_outbox d' = <[(pid, evt) := ob]> (db_outbox d) /\ ob_dispatched_at ob = None
  end.
Proof.
  unfold insert_obligation. destruct (db_outbox d !! (pid, evt)); intros [= <-]; [by destruct d|]. split; [done|].
  cbn. by eexists.
Qed.

(** Writing a row of [payments], with the trigger. *)
Lemma put_payment_frame now k row d :
  counted row d (put_payment now k row d) /\ only_payment_tables d (put_payment now k row d).
Proof.
  split; [|by destruct d]. unfold put_payment, update_invoice_on_payment. split; cbn.
  - intros i Hne. by rewrite lookup_alter_ne.
  - destruct (db_invoices d !! pay_invoice_id row) as [inv|] eqn:Hi; [|by rewrite lookup_alter_eq, Hi].
    rewrite lookup_alter_eq, Hi. eexists. split; [done|].
    case_bool_decide; cbn; [|by left]. destruct (negb _ && _); auto.
Qed.

Lemma only_payment_tables_outbox d d1 x : only_payment_tables d d1 -> only_payment_tables d (db_set_outbox x d1).
Proof. unfold only_payment_tables. intros Heq. rewrite Heq. by destruct d. Qed.

Lemma upsert_payment_row_ok p idx now d pid d1 :
  upsert_payment_row p idx now d = (Ok pid, d1) ->
  exists row, pid = pay_id row /\ db_outbox d1 = db_outbox d /\ d1 = put_payment now (payment_key p idx) row d /\
    db_payments d1 = <[payment_key p idx := row]> (db_payments d) /\
    match db_payments d !! payment_key p idx with
    | None => pay_invoice_id row = pda_invoice_id p /\ z_parse (pda_amount p) = Some (pay_amount row) /\
        pay_reorged row = false /\ pay_confirmed_at row = pda_confirmed_at p /\
        is_Some (db_invoices d !! pay_invoice_id row)
    | Some old => pay_id row = pay_id old /\ pay_invoice_id row = pay_invoice_id old /\
        pay_amount row = pay_amount old /\ pay_reorged row = pay_reorged old /\
        pay_confirmed_at row = coalesce (pda_confirmed_at p) (pay_confirmed_at old)
    end.
Proof.
  unfold upsert_payment_row. destruct (z_parse (pda_amount p)) as [a|] eqn:Ha; [|discriminate].
  destruct (match pda_credited_amount p with Some t => Some <$> numeric18_in t | None => Some None end)
    as [c|]; [|discriminate].
  destruct (db_payments d !! payment_key p idx) as [old|].
  - intros [= <- <-]. by exists (merge_payment old p c).
  - destruct (option_is_none (db_invoices d !! _)) eqn:Hi; [discriminate|].
    destruct (match pda_payment_option_id p with Some _ => _ | None => _ end); [discriminate|].
    destruct (existsb _ _); [discriminate|]. intros [= <- <-]. exists (new_payment p a c). cbn.
    repeat split. by destruct (db_invoices d !! _).
Qed.

Lemma keeps_unchanged {E A} (m : M E A) s r s' :
  preserves (on_db (eq (sv_db s))) m -> m s = (r, s') -> sv_db s' = sv_db s.
Proof. intros Hm Hs. specialize (Hm s eq_refl). rewrite Hs in Hm. by symmetry. Qed.

Lemma detected_cases ec ev s r s' :
  handle_payment_detected (D := D) ec ev s = (r, s') ->
  (is_ok r = false /\ sv_db s' = sv_db s) \/ recorded ev (sv_db s) (sv_db s').
Proof.
  intros Hr. unfold handle_payment_detected in Hr.
  assert (Hread : forall E A B (m : M E A) (f : A -> M E B) s0 rr,
    preserves (on_db (eq (sv_db s0))) m -> st_bind m f s0 = rr ->
    (exists e s1, rr = (Err e, s1) /\ sv_db s1 = sv_db s0) \/
    exists a s1, f a s1 = rr /\ sv_db s1 = sv_db s0).
  { intros E A B m f s0 rr Hm <-. unfold st_bind.
    destruct (m s0) as [ra s1] eqn:Hs0. apply keeps_unchanged in Hs0; [|done].
    destruct ra as [a|e]; eauto. }
  apply Hread in Hr as [(e & s1 & [= -> ->] & Hs)|([[asset sym] tok] & s1 & Hr & Hs1)];
    [by left| |unfold asset_of, ask; keeps].
  apply Hread in Hr as [(e & s2 & [= -> ->] & Hs)|(po & s2 & Hr & Hs2)];
    [left; split; [done|congruence]| |unfold find_payment_option, ask; keeps].
  apply Hread in Hr as [(e & s3 & [= -> ->] & Hs)|([[cr rate] at_] & s3 & Hr & Hs3)];
    [left; split; [done|congruence]| |unfold credit_of, ask; keeps].
  apply Hread in Hr as [(e & s4 & [= -> ->] & Hs)|(id & s4 & Hr & Hs4)];
    [left; split; [done|congruence]| |keeps].
  assert (Heq : sv_db s4 = sv_db s) by congruence. clear Hs1 Hs2 Hs3 Hs4.
  destruct (tx_index ev) as [idx|] eqn:Hidx; [|injection Hr as <- <-; by left].
  unfold st_bind, st_map_err in Hr.
  destruct (upsert_with_tx_index_and_obligation _ _ _ s4) as [ru s5] eqn:Hup.
  apply upsert_with_obligation_atomic in Hup as [[Hbad Hdb]|(now & oid & pid & d1 & Hu & Ho)].
  { destruct ru; [discriminate|]. injection Hr as <- <-. left. split; [done|congruence]. }
  right. assert (Hs' : sv_db s' = sv_db s5).
  { destruct ru; [|by injection Hr as <- <-].
    eapply keeps_unchanged; [|exact Hr]. keeps. }
  rewrite Hs'. rewrite Heq in Hu.
  apply upsert_payment_row_ok in Hu as (row & -> & Hob & Hd1 & Hpay & Hrow).
  apply insert_obligation_outbox in Ho as [Hset Hob']. rewrite Hob in Hob'.
  assert (counted row (sv_db s) d1 /\ only_payment_tables (sv_db s) d1) as [Hcnt Honly]
    by (rewrite Hd1; apply put_payment_frame).
  assert (Hpay' : db_payments (sv_db s5) = db_payments d1) by by rewrite Hset.
  split; [|rewrite Hset; by apply only_payment_tables_outbox].
  exists idx, row. split; [done|]. split; [by rewrite Hpay'|].
  split; [|split; [exact Hob' | unfold counted; by rewrite Hset]].
  unfold transfer_key. cbn in Hrow |- *. destruct (db_payments (sv_db s) !! _); [done|].
  destruct Hrow as (Hi & Ha & Hre & Hc & Hfk). rewrite z_parse_to_string in Ha. by injection Ha as <-.
Qed.


(** A detected payment delivered again, whatever happens to the second
    delivery, adds no payment and no obligation, and the payments on file keep
    their id, invoice, amount and standing. *)
Theorem payment_redelivery_adds_nothing ec ev s s1 r2 s2 :
  handle_payment_detected (D := D) ec ev s = (Ok tt, s1) ->
  handle_payment_detected (D := D) ec ev s1 = (r2, s2) ->
  dom (db_payments (sv_db s2)) = dom (db_payments (sv_db s1)) /\
  db_outbox (sv_db s2) = db_outbox (sv_db s1) /\
  forall k r, db_payments (sv_db s1) !! k = Some r ->
    exists r', db_payments (sv_db s2) !! k = Some r' /\
      pay_id r' = pay_id r /\ pay_invoice_id r' = pay_invoice_id r /\ pay_amount r' = pay_amount r /\
      pay_reorged r' = pay_reorged r /\ pay_confirmed_at r' = pay_confirmed_at r.
Proof.
  intros H1' H2'.
  apply detected_cases in H1' as [[? _]|[(i1 & row1 & Hi1 & Hp1 & _ & Ho1 & _) _]];
    [discriminate|].
  apply detected_cases in H2' as [[_ ->]|[(i2 & row2 & Hi2 & Hp2 & Hr2 & Ho2 & _) _]].
  { split; [done|]. split; [done|]. intros k r Hk. by exists r. }
  assert (i2 = i1) as -> by congruence.
  assert (Hk1 : db_payments (sv_db s1) !! transfer_key ev i1 = Some row1)
    by (rewrite Hp1; apply lookup_insert_eq).
  rewrite Hk1 in Hr2. destruct Hr2 as (Hid & Hinv & Ham & Hre & Hc).
  assert (Hob : is_Some (db_outbox (sv_db s1) !! (pay_id row1, event_type_str PaymentDetectedEvent))).
  { cbn zeta in Ho1. destruct (db_outbox (sv_db s) !! _) eqn:He.
    - rewrite Ho1, He. eauto.
    - destruct Ho1 as (ob & -> & _). rewrite lookup_insert_eq. eauto. }
  split; [|split].
  - rewrite Hp2, dom_insert_L. apply subseteq_union_1_L, singleton_subseteq_l.
    by eapply elem_of_dom_2.
  - cbn zeta in Ho2. rewrite Hid in Ho2. destruct Hob as [ob Hob]. by rewrite Hob in Ho2.
  - intros k r Hk. rewrite Hp2. destruct (decide (transfer_key ev i1 = k)) as [<-|Hne].
    + rewrite lookup_insert_eq. exists row2. assert (r = row1) as -> by congruence. done.
    + rewrite lookup_insert_ne by done. by exists r.
Qed.
End Detect.

(** * Confirming a payment

    The confirmation handler against a specification that is a function of the
    database alone: mark the payment confirmed, then settle the invoice if what
    was received covers it.  Mails, broadcasts, webhooks and observers never
    change what the handler stores. *)

Section Spec.
Context {D : Type} `{BigDecimal D} `{Numeric} `{Formats}.

(** The status a fully paid invoice moves to. *)
Definition settled_status (st : InvoiceStatus) : option InvoiceStatus :=
  match st with
  | Processing | PartiallyPaid => Some Paid
  | Expired => Some LatePaid
  | _ => None
  end.

(** Settling an invoice: [None] when an amount or the store's tolerance does
    not parse. *)
Definition settle_spec (i : string) (row : InvoiceRow) (d : Db) : option Db :=
  received ← bd_parse (D := D) (numeric18_out (inv_amount_received row));
  expected ← bd_parse (D := D) (numeric18_out (inv_amount row));
  match effective_tolerance (D := D) (db_tolerances d !! inv_store_id row) with
  | Err _ => None
  | Ok (tolerance, source) =>
      Some (match settled_status (inv_status row) with
            | Some st =>
                if is_fully_paid received expected tolerance then
                  let d1 :=
                    if bd_geb received expected then d
                    else db_set_allowances
                           (<[i := mkAllowanceRow (bd_to_string (bd_sub expected received))
                                     (bd_to_string tolerance) source]> (db_allowances d)) d in
                  db_set_invoices (<[i := set_status st row]> (db_invoices d1)) d1
                else d
            | None => d
            end)
  end.

(** The whole confirmation. *)
Definition confirm_spec (now : Instant) (ev : PaymentConfirmed) (d : Db) : option Db :=
  let i := uuid_to_string (pc_invoice_id ev) in
  match payments_where (fun k r =>
          String.eqb (pay_invoice_id r) i && String.eqb k.1.2 (fmt_b256 (pc_tx_hash ev))
            && (k.2 =? pc_tx_index ev) && negb (pay_reorged r)) d with
  | [] => Some d
  | (_, r) :: _ =>
      match mark_confirmed (pay_id r) (pc_confirmed_at ev) now d with
      | (Err _, _) => None
      | (Ok _, d1) => row ← db_invoices d1 !! i; settle_spec i row d1
      end
  end.
End Spec.

Section Refinement.
Context {D : Type} `{BigDecimal D} `{Runtime} `{Numeric} `{Formats} `{ApiTypes} `{!JobCodec}.

Lemma record_allowance_ok i a b t src s u s' :
  record_allowance_if_short (D := D) i a b t src s = (Ok u, s') ->
  is_Some (db_invoices (sv_db s) !! i) ->
  sv_db s' = if bd_geb a b then sv_db s
             else db_set_allowances (<[i := mkAllowanceRow (bd_to_string (bd_sub b a)) (bd_to_string t) src]>
                                       (db_allowances (sv_db s))) (sv_db s).
Proof.
  unfold record_allowance_if_short. destruct (bd_geb a b); intros Hr [row Hi]; [by injection Hr as _ <-|].
  apply ask_ok_inv in Hr as (d' & Hst & ->). unfold record_settlement_allowance in Hst.
  rewrite Hi in Hst. by injection Hst as _ <-.
Qed.

Lemma settle_as_ok ec ev inv p a b t src st wh s u s' row :
  let i := uuid_to_string (pc_invoice_id ev) in
  settle_as (D := D) ec ev inv p a b t src st wh s = (Ok u, s') ->
  db_invoices (sv_db s) !! i = Some row ->
  sv_db s' =
    let d := sv_db s in
    let d1 := if bd_geb a b then d
              else db_set_allowances (<[i := mkAllowanceRow (bd_to_string (bd_sub b a)) (bd_to_string t) src]>
                                        (db_allowances d)) d in
    db_set_invoices (<[i := set_status st row]> (db_invoices d1)) d1.
Proof.
  intros i Hr Hi. unfold settle_as in Hr. fold i in Hr.
  inv_ok Hr as u1 s1 Ha Hb. apply record_allowance_ok in Ha; [|eauto].
  inv_ok Hb as u2 s2 Hc Hd. apply ask_ok_inv in Hc as (d2 & Hst & ->).
  unfold update_status in Hst.
  assert (Hi1 : db_invoices (sv_db s1) !! i = Some row) by (rewrite Ha; by destruct (bd_geb a b)).
  rewrite Hi1 in Hst. injection Hst as _ <-.
  assert (Hs' : sv_db s' = sv_db (set_db (db_set_invoices (<[i := set_status st row]> (db_invoices (sv_db s1)))
                                            (sv_db s1)) (tick s1))).
  { eapply keeps_unchanged; [|exact Hd].
    unfold queue_settled_webhook, queue_webhook_event, queue_payload. keeps. }
  rewrite Hs', Ha. done.
Qed.

Lemma settle_ok ec ev p row s s' :
  let i := uuid_to_string (pc_invoice_id ev) in
  db_invoices (sv_db s) !! i = Some row ->
  settle (D := D) ec ev p (row_to_invoice i row) s = (Ok tt, s') ->
  settle_spec (D := D) i row (sv_db s) = Some (sv_db s').
Proof.
  intros i Hi Hr. unfold settle in Hr. unfold settle_spec. cbn in Hr |- *. fold i in Hr.
  destruct (bd_parse (numeric18_out (inv_amount_received row))) as [a|]; [|discriminate].
  destruct (bd_parse (numeric18_out (inv_amount row))) as [b|]; [|discriminate]. cbn.
  inv_ok Hr as tol s1 Ha Hb. apply ask_ok_inv in Ha as (d1 & Hst & ->).
  unfold get_settlement_tolerance, select in Hst. injection Hst as <- <-.
  destruct (effective_tolerance (db_tolerances (sv_db s) !! inv_store_id row)) as [[t src]|];
    [|discriminate]. f_equal.
  assert (Hdone : forall (m : M EventConsumerError unit) st wh s3,
    preserves (on_db (eq (sv_db s3))) m ->
    settle_as (D := D) ec ev (row_to_invoice i row) p a b t src st wh (set_db (sv_db s) (tick s)) = (Ok tt, s3) ->
    m s3 = (Ok tt, s') -> sv_db s' = sv_db s3).
  { intros m st wh s3 Hm _ Hm'. by eapply keeps_unchanged. }
  destruct (inv_status row); cbn [settled_status]; try (by injection Hb as <-);
    (destruct (is_fully_paid a b t); [|by injection Hb as <-]);
    inv_ok Hb as u s3 Hc Hd; pose proof Hc as Hc'; eapply settle_as_ok in Hc'; try exact Hi; cbn in Hc';
    (etrans; [symmetry; exact Hc'|]); symmetry; destruct u; eapply Hdone; try exact Hc; try exact Hd;
    unfold send_customer_receipt, receipts_disabled_for_store, notify_own_store_settled; keeps.
Qed.

Lemma confirmed_ok ec ev s s' :
  handle_payment_confirmed (D := D) ec ev s = (Ok tt, s') ->
  confirm_spec (D := D) (clock (S (sv_ticks s))) ev (sv_db s) = Some (sv_db s').
Proof.
  intros Hr. unfold handle_payment_confirmed in Hr. inv_ok Hr as found s1 Ha Hb.
  apply ask_ok_inv in Ha as (d1 & Hg & ->). unfold get_by_tx_index, select in Hg. injection Hg as <- <-.
  unfold confirm_spec. destruct (payments_where _ (sv_db s)) as [|[k r] l].
  { cbn in Hb. by injection Hb as <-. }
  cbn in Hb. inv_ok Hb as u s2 Hc Hd. apply ask_ok_inv in Hc as (d2 & Hm & ->).
  cbn [sv_ticks sv_db tick set_db pda_id row_to_payment fst snd] in Hm.
  rewrite Hm.
  inv_ok Hd as inv s3 He Hf. apply ask_ok_inv in He as (d3 & Hg & ->).
  unfold invoice_get, select in Hg. injection Hg as <- <-. cbn in Hf.
  destruct (db_invoices d2 !! _) as [row|] eqn:Hi; [|discriminate]. cbn in Hf |- *.
  apply settle_ok in Hf; [exact Hf | exact Hi].
Qed.

(** *** When every request is answered *)

Context (Hup : forall n, calls n = Answered).

Lemma ask_answered {A} (stmt : Statement A) s :
  ask stmt s =
    (match fst (stmt (clock (sv_ticks s)) (sv_db s)) with Ok a => Ok a | Err e => Err (DatabaseError e) end,
     set_db (snd (stmt (clock (sv_ticks s)) (sv_db s))) (tick s)).
Proof. unfold ask, st_map_err. rewrite db_answered by done. by destruct (fst _). Qed.

(** What follows the status write. *)
Let announce_settled ec inv i st wh p : M EventConsumerError unit :=
  do* st_when (ecs_ws_broadcast ec) (ws_send (id_store_id inv) (InvoiceStatusUpdate i (status_to_string st)));
  queue_settled_webhook ec wh i p.

Lemma announce_settled_total ec inv i st wh p : total (announce_settled ec inv i st wh p).
Proof.
  unfold announce_settled, ws_send, queue_settled_webhook, queue_webhook_event, queue_payload. totals.
  apply queue_for_store_total.
Qed.

Lemma settle_as_answered ec ev inv p a b t src st wh s row :
  db_invoices (sv_db s) !! uuid_to_string (pc_invoice_id ev) = Some row ->
  is_ok (fst (settle_as (D := D) ec ev inv p a b t src st wh s)) = true.
Proof.
  intros Hi. unfold settle_as.
  assert (Hrest : forall s1, db_invoices (sv_db s1) !! uuid_to_string (pc_invoice_id ev) = Some row ->
    is_ok (fst (st_bind (ask (update_status (uuid_to_string (pc_invoice_id ev)) st))
                  (fun _ => announce_settled ec inv (uuid_to_string (pc_invoice_id ev)) st wh p) s1)) = true).
  { intros s1 Hi1. unfold st_bind at 1. rewrite ask_answered. unfold update_status. rewrite Hi1.
    apply announce_settled_total. }
  unfold st_bind at 1, record_allowance_if_short.
  destruct (bd_geb a b); [by apply Hrest|]. rewrite ask_answered. unfold record_settlement_allowance.
  rewrite Hi. cbn [option_is_none fst snd]. by apply Hrest.
Qed.

Lemma settle_answered ec ev p row s d' :
  let i := uuid_to_string (pc_invoice_id ev) in
  db_invoices (sv_db s) !! i = Some row -> settle_spec (D := D) i row (sv_db s) = Some d' ->
  is_ok (fst (settle (D := D) ec ev p (row_to_invoice i row) s)) = true.
Proof.
  intros i Hi Hspec. unfold settle_spec in Hspec. unfold settle. cbn [row_to_invoice id_amount_received
    id_amount id_store_id id_status]. fold i.
  destruct (bd_parse (numeric18_out (inv_amount_received row))) as [a|]; [|discriminate]. cbn in Hspec.
  destruct (bd_parse (numeric18_out (inv_amount row))) as [b|]; [|discriminate]. cbn in Hspec.
  unfold st_bind at 1. rewrite ask_answered. unfold get_settlement_tolerance, select. cbn [fst snd].
  destruct (effective_tolerance _) as [[t src]|]; [|discriminate].
  set (s1 := set_db _ _).
  assert (Hs1 : db_invoices (sv_db s1) !! i = Some row) by exact Hi.
  assert (Hthen : forall st wh (m : M EventConsumerError unit), total m ->
    is_ok (fst ((do* settle_as (D := D) ec ev (row_to_invoice i row) p a b t src st wh; m) s1)) = true).
  { intros st wh m Hm. unfold st_bind. pose proof (settle_as_answered ec ev (row_to_invoice i row) p a b t src st wh s1 row Hs1).
    destruct (settle_as _ _ _ _ _ _ _ _ _ _ s1) as [[] ?]; [apply Hm | done]. }
  destruct (inv_status row); try done; (destruct (is_fully_paid a b t); [|done]); apply Hthen;
    unfold send_customer_receipt, receipts_disabled_for_store, notify_own_store_settled,
      notify_own_store_payment; totals; apply utc_now_total.
Qed.

Lemma confirmed_answered ec ev s d' :
  confirm_spec (D := D) (clock (S (sv_ticks s))) ev (sv_db s) = Some d' ->
  is_ok (fst (handle_payment_confirmed (D := D) ec ev s)) = true.
Proof.
  intros Hspec. unfold confirm_spec in Hspec. unfold handle_payment_confirmed, st_bind at 1.
  rewrite ask_answered. unfold get_by_tx_index, select. cbn [fst snd].
  destruct (payments_where _ (sv_db s)) as [|[k r] l]; [done|]. cbn [head fmap option_fmap option_map fst snd].
  unfold st_bind at 1. rewrite ask_answered. cbn [sv_ticks sv_db tick set_db pda_id row_to_payment].
  destruct (mark_confirmed _ _ _ _) as [[u|e] d1]; [|discriminate]. cbn [fst snd].
  unfold st_bind at 1. rewrite ask_answered. unfold invoice_get, select. cbn [fst snd sv_db set_db tick].
  destruct (db_invoices d1 !! _) as [row|] eqn:Hi; [|discriminate].
  cbn [fmap option_fmap option_map]. eapply settle_answered; [exact Hi | exact Hspec].
Qed.
End Refinement.

Section Theorems.
Context {D : Type} `{BigDecimal D} `{Runtime} `{Numeric} `{Formats} `{ApiTypes} `{!JobCodec}.

(** C13. A confirmation that is handled leaves exactly the database the
    specification names: the payment confirmed, and the invoice moved to
    [Paid] from [Processing] or [PartiallyPaid], or to [LatePaid] from
    [Expired], when what was received covers it within the store's tolerance,
    with the shortfall recorded when there is one; no mail, broadcast, webhook
    or observer affects it. *)
Theorem confirmation_refines_spec ec ev s s' :
  handle_payment_confirmed (D := D) ec ev s = (Ok tt, s') ->
  confirm_spec (D := D) (clock (S (sv_ticks s))) ev (sv_db s) = Some (sv_db s').
Proof. apply confirmed_ok. Qed.

(** When every request is answered, a confirmation succeeds exactly when
    the specification defines a result: it fails only for a payment already
    confirmed, a missing invoice, or an amount or tolerance that does not
    parse, never because a notification could not be sent. *)
Theorem confirmation_succeeds_iff_defined ec ev s :
  (forall n, calls n = Answered) ->
  is_ok (fst (handle_payment_confirmed (D := D) ec ev s)) = true <->
  is_Some (confirm_spec (D := D) (clock (S (sv_ticks s))) ev (sv_db s)).
Proof.
  intros Hup. split.
  - destruct (handle_payment_confirmed ec ev s) as [[[]|e] s'] eqn:Hh; [|discriminate].
    intros _. rewrite (confirmed_ok _ _ _ _ Hh). eauto.
  - intros [d' Hd]. by eapply confirmed_answered.
Qed.
End Theorems.
