(* ===== verification/ConsumerReorg.v ===== *)
(** * Retracting payments after a reorg

    What a handled reorg does to every payment and every invoice: exactly the
    payments at or above the fork that the monitor did not find again are
    retracted, and each of their invoices is moved back, unless it is closed. *)

From stdpp Require Import gmap strings list relations.
From Stdlib Require Import ZArith Lia.
From S2P Require Import Prelude Events Network Bridge Decimal Database DatabaseFacts Services.
From S2P Require Import Services Cleanup Consumer ConsumerFacts ConsumerPayments.

(** ** [UPDATE payments], row by row *)

Lemma update_payments_lookup p f now d k :
  db_payments (snd (update_payments p f now d)) !! k =
    (fun r => if p k r then f r else r) <$> db_payments d !! k.
Proof.
  unfold update_payments. cbn [snd].
  assert (Hfold : forall l (d1 : Db), NoDup l.*1 ->
    db_payments (foldl (fun d kr => put_payment now kr.1 (f kr.2) d) d1 l) !! k =
      match List.find (fun kr : PaymentKey * PaymentRow => bool_decide (kr.1 = k)) l with
      | Some kr => Some (f kr.2)
      | None => db_payments d1 !! k
      end).
  { induction l as [|[k0 r0] l IH]; intros d1 Hnd; [done|]. apply NoDup_cons in Hnd as [Hk0 Hnd].
    cbn [foldl List.find]. rewrite IH by done. cbn [fst snd]. case_bool_decide as Hk.
    - destruct (List.find _ l) as [[k1 r1]|] eqn:Hf.
      + exfalso. apply find_some in Hf as [Hin Hk1]. apply bool_decide_eq_true in Hk1. cbn in Hk1. subst.
        apply Hk0. apply (list_elem_of_fmap_2 fst l (k, r1)). by apply list_elem_of_In.
      + subst. apply lookup_insert_eq.
    - destruct (List.find _ l); [done|]. by apply lookup_insert_ne. }
  rewrite Hfold by apply payments_where_keys_NoDup. clear Hfold.
  destruct (List.find _ _) as [[k1 r1]|] eqn:Hf.
  - apply find_some in Hf as [Hin Hk1]. apply bool_decide_eq_true in Hk1. cbn in Hk1. subst k1.
    apply list_elem_of_In, payments_where_spec in Hin as [Hr Hp]. cbn in Hr, Hp. rewrite Hr. cbn. by rewrite Hp.
  - destruct (db_payments d !! k) as [r|] eqn:Hr; [|done]. cbn. destruct (p k r) eqn:Hp; [|done].
    eapply find_none in Hf; [|apply list_elem_of_In, (payments_where_spec p d (k, r)); by split].
    cbn in Hf. by rewrite bool_decide_true in Hf.
Qed.

(** ** Retracting by id *)

Definition retract (ids : list Uuid) (r : PaymentRow) : PaymentRow :=
  if bool_decide (pay_id r ∈ ids) && negb (pay_reorged r) then set_confirmed None true r else r.

Lemma retract_nil r : retract [] r = r.
Proof. done. Qed.

Lemma retract_app ids1 ids2 r : retract ids2 (retract ids1 r) = retract (ids1 ++ ids2) r.
Proof.
  unfold retract. destruct (pay_reorged r) eqn:Hr.
  - cbn. rewrite !andb_false_r, Hr. cbn. by rewrite andb_false_r.
  - cbn. rewrite !andb_true_r. destruct (bool_decide (pay_id r ∈ ids1)) eqn:H1; cbn.
    + rewrite andb_false_r. rewrite bool_decide_eq_true in H1. rewrite bool_decide_true by set_solver. done.
    + rewrite bool_decide_eq_false in H1. rewrite Hr, andb_true_r.
      by rewrite (bool_decide_ext (pay_id r ∈ ids1 ++ ids2) (pay_id r ∈ ids2)) by set_solver.
Qed.

Lemma retract_keeps ids r :
  pay_id (retract ids r) = pay_id r /\ pay_invoice_id (retract ids r) = pay_invoice_id r.
Proof. unfold retract. by destruct (_ && _). Qed.

(** The status of an invoice. *)
Definition status_of (d : Db) (i : string) : option InvoiceStatus := inv_status <$> db_invoices d !! i.

Lemma mark_reorged_effect id now d :
  let d' := snd (mark_payment_reorged id now d) in
  db_payments d' = retract [id] <$> db_payments d /\ forall i, status_of d' i = status_of d i.
Proof.
  cbn zeta. split.
  - apply map_eq. intros k. unfold mark_payment_reorged. cbn [snd].
    rewrite update_payments_lookup, lookup_fmap. destruct (db_payments d !! k) as [r|]; [|done]. cbn.
    f_equal. unfold retract.
    destruct (Z.eqb_spec (pay_id r) id) as [->|Hne]; cbn.
    + by rewrite bool_decide_true by set_solver.
    + by rewrite bool_decide_false by set_solver.
  - intros i. unfold mark_payment_reorged. cbn [snd].
    apply (update_payments_ind _ _ now (fun d0 => status_of d0 i = status_of d i)); [reflexivity|].
    intros d' k r Hd Hk Hp. rewrite <- Hd. unfold status_of, put_payment, update_invoice_on_payment.
    cbn [db_invoices db_set_invoices db_set_payments].
    destruct (decide (pay_invoice_id (set_confirmed None true r) = i)) as [<-|Hne].
    + rewrite lookup_alter_eq. destruct (db_invoices d' !! _) as [row|]; [|done]. cbn.
      by rewrite andb_false_r.
    + by rewrite lookup_alter_ne.
Qed.

(** An invoice's standing payments. *)
Definition has_standing (ps : gmap PaymentKey PaymentRow) (i : string) : bool :=
  existsb (fun kr : PaymentKey * PaymentRow => String.eqb (pay_invoice_id kr.2) i && negb (pay_reorged kr.2))
    (map_to_list ps).

Lemma has_standing_spec ps i :
  has_standing ps i = true <->
  exists k r, ps !! k = Some r /\ pay_invoice_id r = i /\ pay_reorged r = false.
Proof.
  unfold has_standing. rewrite existsb_exists. split.
  - intros ([k r] & Hin & Hp). apply list_elem_of_In, elem_of_map_to_list in Hin. cbn in Hp.
    rewrite andb_true_iff, String.eqb_eq, negb_true_iff in Hp. naive_solver.
  - intros (k & r & Hk & Hi & Hr). exists (k, r). split; [by apply list_elem_of_In, elem_of_map_to_list|].
    cbn. by rewrite Hi, Hr, String.eqb_refl.
Qed.

(** The status a reorg leaves an invoice in. *)
Definition reverted (st : InvoiceStatus) (standing : bool) : InvoiceStatus :=
  match st with
  | Refunded | Cancelled | Expired | LatePaid => st
  | _ => if standing then Processing else Pending
  end.

Section Retract.
Context `{Runtime} `{Numeric} `{Formats} `{ApiTypes} `{!JobCodec}.

Lemma mark_all_effect ps : forall s s',
  st_for ps (fun payment => ask (mark_payment_reorged (pda_id payment))) s = (Ok tt, s') ->
  db_payments (sv_db s') = retract (pda_id <$> ps) <$> db_payments (sv_db s) /\
  forall i, status_of (sv_db s') i = status_of (sv_db s) i.
Proof.
  induction ps as [|p ps IH]; intros s s' Hr.
  - injection Hr as <-. split; [|done]. symmetry. apply map_fmap_id.
  - cbn [st_for] in Hr. inv_ok Hr as u s1 Ha Hb. apply IH in Hb as [Hp Hs].
    apply ask_ok_inv in Ha as (d1 & Hm & ->).
    destruct (mark_reorged_effect (pda_id p) (clock (sv_ticks s)) (sv_db s)) as [Hp1 Hs1].
    rewrite Hm in Hp1, Hs1. cbn in Hp, Hs, Hp1, Hs1. split.
    + rewrite Hp, Hp1, <- map_fmap_compose. apply map_fmap_ext. intros k r _.
      cbn [compose]. by rewrite retract_app.
    + intros i. by rewrite Hs.
Qed.

Lemma apply_reorg_status_effect i st s st' s' :
  apply_reorg_status i st s = (Ok st', s') ->
  db_payments (sv_db s') = db_payments (sv_db s) /\
  (exists old, status_of (sv_db s) i = Some old /\
     status_of (sv_db s') i = Some (match old with
       | Refunded | Cancelled | Expired | LatePaid => old | _ => st end)) /\
  forall j, j <> i -> status_of (sv_db s') j = status_of (sv_db s) j.
Proof.
  intros Hr. unfold apply_reorg_status in Hr. inv_ok Hr as cur s1 Ha Hb.
  apply ask_ok_inv in Ha as (d1 & Hg & ->). unfold invoice_get, select in Hg. injection Hg as <- <-.
  destruct (db_invoices (sv_db s) !! i) as [row|] eqn:Hi; [|discriminate]. cbn in Hb.
  assert (Hold : status_of (sv_db s) i = Some (inv_status row)) by (unfold status_of; by rewrite Hi).
  destruct (inv_status row) eqn:Hst;
    match type of Hb with
    | st_ret _ _ = _ => injection Hb as _ <-; split; [done|]; split; [eauto|done]
    | _ => inv_ok Hb as u s2 Hc Hd; apply ask_ok_inv in Hc as (d2 & Hu & ->); injection Hd as <- <-;
           unfold update_status in Hu; cbn in Hu; rewrite Hi in Hu; injection Hu as _ <-; cbn;
           (split; [done|]); split;
           [ eexists; split; [exact Hold|]; unfold status_of; cbn; by rewrite lookup_insert_eq
           | intros j Hj; unfold status_of; cbn; by rewrite lookup_insert_ne by done ]
    end.
Qed.

(** One invoice. *)
Lemma retract_invoice_effect ec i ps s s' :
  retract_invoice ec (i, ps) s = (Ok tt, s') ->
  db_payments (sv_db s') = retract (pda_id <$> ps) <$> db_payments (sv_db s) /\
  (exists old, status_of (sv_db s) i = Some old /\
     status_of (sv_db s') i = Some (reverted old (has_standing (db_payments (sv_db s')) i))) /\
  forall j, j <> i -> status_of (sv_db s') j = status_of (sv_db s) j.
Proof.
  intros Hr. unfold retract_invoice in Hr. cbn [fst snd] in Hr.
  inv_ok Hr as u1 s1 Ha Hb. destruct u1. apply mark_all_effect in Ha as [Hp1 Hs1].
  inv_ok Hb as valid s2 Hc Hd. apply ask_ok_inv in Hc as (d2 & Hv & ->).
  unfold has_valid_payments, select in Hv. injection Hv as Hv <-. fold (has_standing (db_payments (sv_db s1)) i) in Hv.
  inv_ok Hd as st s3 He Hf. apply apply_reorg_status_effect in He as (Hp3 & (old & Ho & Hs3) & Hj3).
  cbn in Hp3, Ho, Hs3, Hj3.
  assert (Hs' : sv_db s' = sv_db s3).
  { eapply keeps_unchanged; [|exact Hf]. unfold notify_reorg, queue_payload. keeps. }
  rewrite Hs', Hp3. split; [done|]. split.
  - exists old. rewrite <- Hs1. split; [done|]. rewrite Hs3. by subst valid.
  - intros j Hj. by rewrite Hj3, Hs1.
Qed.

(** *** All invoices *)

Definition group_ids (groups : list (string * list PaymentData)) : list Uuid :=
  concat ((fun g : string * list PaymentData => pda_id <$> g.2) <$> groups).

Lemma group_ids_spec groups id :
  id ∈ group_ids groups <-> exists i l p, (i, l) ∈ groups /\ p ∈ l /\ id = pda_id p.
Proof.
  unfold group_ids. rewrite list_elem_of_In, in_concat. split.
  - intros (ids & Hids & Hin). apply list_elem_of_In, list_elem_of_fmap in Hids as ([i l] & -> & Hg).
    apply list_elem_of_In, list_elem_of_fmap in Hin as (p & -> & Hp). eauto 6.
  - intros (i & l & p & Hg & Hp & ->). exists (pda_id <$> l). split.
    + apply list_elem_of_In, list_elem_of_fmap. by exists (i, l).
    + by apply list_elem_of_In, list_elem_of_fmap_2.
Qed.

(** The payments of a group belong to its invoice. *)
Definition grouped (ps : gmap PaymentKey PaymentRow) (groups : list (string * list PaymentData)) : Prop :=
  forall i l p, (i, l) ∈ groups -> p ∈ l ->
    forall k r, ps !! k = Some r -> pay_id r = pda_id p -> pay_invoice_id r = i.

Lemma retract_standing ps ids i :
  (forall k r, ps !! k = Some r -> pay_id r ∈ ids -> pay_invoice_id r <> i) ->
  has_standing (retract ids <$> ps) i = has_standing ps i.
Proof.
  intros Hids. apply eq_bool_prop_intro. rewrite !Is_true_true, !has_standing_spec. split.
  - intros (k & r & Hk & Hi & Hr). rewrite lookup_fmap in Hk. apply fmap_Some in Hk as (r0 & Hk & ->).
    exists k, r0. split; [done|]. rewrite (proj2 (retract_keeps ids r0)) in Hi. split; [done|].
    unfold retract in Hr. destruct (_ && _); [discriminate | done].
  - intros (k & r & Hk & Hi & Hr). exists k, r. split; [|done]. rewrite lookup_fmap, Hk. cbn. f_equal.
    unfold retract. rewrite bool_decide_false; [done|]. intros Hin. by eapply Hids.
Qed.

Lemma retract_groups_effect ec groups : forall s s',
  NoDup groups.*1 -> grouped (db_payments (sv_db s)) groups ->
  st_for groups (retract_invoice ec) s = (Ok tt, s') ->
  db_payments (sv_db s') = retract (group_ids groups) <$> db_payments (sv_db s) /\
  forall i, status_of (sv_db s') i =
    if bool_decide (i ∈ groups.*1)
    then (fun old => reverted old (has_standing (db_payments (sv_db s')) i)) <$> status_of (sv_db s) i
    else status_of (sv_db s) i.
Proof.
  induction groups as [|[i l] groups IH]; intros s s' Hnd Hg Hr.
  - injection Hr as <-. split; [symmetry; apply map_fmap_id|done].
  - apply NoDup_cons in Hnd as [Hni Hnd]. cbn [st_for] in Hr. inv_ok Hr as u s1 Ha Hb. destruct u.
    apply retract_invoice_effect in Ha as (Hp1 & (old & Ho & Hs1) & Hj1).
    apply IH in Hb as [Hp Hs]; [|done|].
    2:{ intros i' l' p Hin Hpl k r Hk Hid. rewrite Hp1, lookup_fmap in Hk.
        apply fmap_Some in Hk as (r0 & Hk & ->). rewrite (proj1 (retract_keeps _ r0)) in Hid.
        rewrite (proj2 (retract_keeps _ r0)). eapply Hg; [by right|done..]. }
    assert (Hsplit : db_payments (sv_db s') = retract (group_ids ((i, l) :: groups)) <$> db_payments (sv_db s)).
    { rewrite Hp, Hp1, <- map_fmap_compose. apply map_fmap_ext. intros k r _. cbn [compose].
      by rewrite retract_app. }
    split; [exact Hsplit|]. intros j. rewrite Hs. cbn [fmap list_fmap fst].
    destruct (decide (j = i)) as [->|Hne].
    + rewrite (bool_decide_false (i ∈ groups.*1)) by done.
      rewrite (bool_decide_true (i ∈ i :: groups.*1)) by left.
      rewrite Hs1, Ho. cbn. do 2 f_equal. rewrite Hp. symmetry. apply retract_standing.
      intros k r Hk Hin Hinv. apply group_ids_spec in Hin as (i' & l' & p & Hgl & Hpl & Hid).
      rewrite Hp1, lookup_fmap in Hk. apply fmap_Some in Hk as (r0 & Hk & ->).
      rewrite (proj1 (retract_keeps _ r0)) in Hid. rewrite (proj2 (retract_keeps _ r0)) in Hinv.
      assert (pay_invoice_id r0 = i') by (eapply Hg; [by right|done..]). subst i'.
      apply Hni. rewrite <- Hinv. apply (list_elem_of_fmap_2 fst _ _ Hgl).
    + rewrite Hj1 by done. do 2 case_bool_decide; set_solver.
Qed.

(** *** The payments to retract *)

Lemma by_invoice_lookup ev cs i :
  by_invoice ev cs !! i =
    match List.filter (fun p => not_survived ev p && String.eqb (pda_invoice_id p) i) cs with
    | [] => None
    | l => Some l
    end.
Proof.
  unfold by_invoice. induction cs as [|p cs IH] using rev_ind; [done|].
  rewrite foldl_app, List.filter_app. cbn [foldl List.filter].
  destruct (not_survived ev p); cbn [andb]; [|by rewrite app_nil_r].
  destruct (String.eqb_spec (pda_invoice_id p) i) as [<-|Hne].
  - rewrite lookup_insert_eq, IH. destruct (List.filter _ cs); done.
  - rewrite lookup_insert_ne by done. by rewrite IH, app_nil_r.
Qed.

(** A payment the reorg takes away: on the chain, standing, at or above the
    fork, and not among the transactions found again. *)
Definition gone (ev : ReorgDetected) (k : PaymentKey) (r : PaymentRow) : bool :=
  String.eqb k.1.1 (chain_id_evm (rd_chain_id ev))
    && match pay_block_number r with Some n => u64_as_i64 (rd_fork_block ev) <=? n | None => false end
    && negb (pay_reorged r) && not_survived ev (row_to_payment k r).

Definition candidates_of (ev : ReorgDetected) (d : Db) : list PaymentData :=
  (fun kr => row_to_payment kr.1 kr.2)
    <$> payments_where (fun k r =>
          String.eqb k.1.1 (chain_id_evm (rd_chain_id ev))
            && match pay_block_number r with Some n => u64_as_i64 (rd_fork_block ev) <=? n | None => false end
            && negb (pay_reorged r)) d.

Lemma in_group ev d i l p :
  (i, l) ∈ map_to_list (by_invoice ev (candidates_of ev d)) -> p ∈ l ->
  exists k r, db_payments d !! k = Some r /\ gone ev k r = true /\ p = row_to_payment k r /\
    pay_invoice_id r = i.
Proof.
  intros Hg Hp. apply elem_of_map_to_list in Hg. rewrite by_invoice_lookup in Hg.
  assert (Hin : p ∈ List.filter (fun p => not_survived ev p && String.eqb (pda_invoice_id p) i)
                      (candidates_of ev d)) by (destruct (List.filter _ _); by simplify_eq).
  apply elem_of_filter_b in Hin as [Hb Hin]. rewrite andb_true_iff, String.eqb_eq in Hb.
  apply list_elem_of_fmap in Hin as ([k r] & -> & Hin). apply payments_where_spec in Hin as [Hk Hc].
  exists k, r. cbn in Hk, Hc, Hb. split; [done|]. split; [|split; [done|apply Hb]].
  unfold gone. by rewrite Hc, (proj1 Hb).
Qed.

Lemma gone_grouped ev d k r :
  db_payments d !! k = Some r -> gone ev k r = true ->
  exists l, (pay_invoice_id r, l) ∈ map_to_list (by_invoice ev (candidates_of ev d)) /\ row_to_payment k r ∈ l.
Proof.
  intros Hk Hg. unfold gone in Hg. rewrite andb_true_iff in Hg. destruct Hg as [Hc Hs].
  assert (Hin : row_to_payment k r ∈ List.filter
    (fun p => not_survived ev p && String.eqb (pda_invoice_id p) (pay_invoice_id r)) (candidates_of ev d)).
  { apply elem_of_filter_b. rewrite Hs. cbn. rewrite String.eqb_refl. split; [done|].
    apply list_elem_of_fmap. exists (k, r). split; [done|]. apply payments_where_spec. by split. }
  eexists. split; [|exact Hin]. apply elem_of_map_to_list. rewrite by_invoice_lookup.
  destruct (List.filter _ _); [by apply not_elem_of_nil in Hin | done].
Qed.

(** C8. A reorg whose survivors could not be verified changes nothing.
    Otherwise, once handled: a payment is retracted, its confirmation cleared,
    exactly when it was standing on that chain at or above the fork and its
    transaction was not found again; every other payment is untouched; each
    invoice that lost a payment is back to [Processing] if it still has a
    standing one and to [Pending] if not, unless it is refunded, cancelled,
    expired or late-paid; and no other invoice changes status. *)
Theorem reorg_retracts_exactly ec ev s s' :
  db_wf (sv_db s) -> handle_reorg_detected ec ev s = (Ok tt, s') ->
  if rd_survivors_verifiable ev then
    (forall k, db_payments (sv_db s') !! k =
       (fun r => if gone ev k r then set_confirmed None true r else r) <$> db_payments (sv_db s) !! k) /\
    (forall k r, db_payments (sv_db s) !! k = Some r -> gone ev k r = true ->
       status_of (sv_db s') (pay_invoice_id r) =
         (fun old => reverted old (has_standing (db_payments (sv_db s')) (pay_invoice_id r)))
           <$> status_of (sv_db s) (pay_invoice_id r)) /\
    (forall i, (forall k r, db_payments (sv_db s) !! k = Some r -> gone ev k r = true -> pay_invoice_id r <> i) ->
       status_of (sv_db s') i = status_of (sv_db s) i)
  else s' = s.
Proof.
  intros Hwf Hr. unfold handle_reorg_detected in Hr.
  destruct (rd_survivors_verifiable ev); cbn [negb] in Hr; [|by injection Hr as <-].
  inv_ok Hr as cs s1 Ha Hb. apply ask_ok_inv in Ha as (d1 & Hc & ->).
  unfold reorg_candidates, select in Hc. injection Hc as <- <-. fold (candidates_of ev (sv_db s)) in Hb.
  apply retract_groups_effect in Hb as [Hp Hs]; [|apply NoDup_fst_map_to_list|]; cbn [sv_db set_db tick] in *.
  2:{ intros i l p Hg Hpl k r Hk Hid. destruct (in_group _ _ _ _ _ Hg Hpl) as (k0 & r0 & Hk0 & _ & -> & <-).
      assert (k = k0) as -> by (eapply (wf_ids _ Hwf); eauto). congruence. }
  assert (Hkeys : forall i, i ∈ (map_to_list (by_invoice ev (candidates_of ev (sv_db s)))).*1 ->
    exists k r, db_payments (sv_db s) !! k = Some r /\ gone ev k r = true /\ pay_invoice_id r = i).
  { intros i Hi. apply list_elem_of_fmap in Hi as ([i' [|p l]] & -> & Hg).
    - apply elem_of_map_to_list in Hg. rewrite by_invoice_lookup in Hg. by destruct (List.filter _ _).
    - destruct (in_group _ _ _ _ p Hg) as (k & r & Hk & Hgo & _ & Hi); [left|]. eauto 6. }
  split; [|split].
  - intros k. rewrite Hp, lookup_fmap. destruct (db_payments (sv_db s) !! k) as [r|] eqn:Hk; [|done].
    cbn. f_equal. unfold retract.
    destruct (gone ev k r) eqn:Hg.
    + destruct (gone_grouped ev _ k r Hk Hg) as (l & Hgl & Hl).
      rewrite bool_decide_true by (apply group_ids_spec; eauto 6).
      unfold gone in Hg. rewrite !andb_true_iff in Hg. by destruct Hg as [[_ ->] _].
    + case_bool_decide as Hin; [|done]. exfalso.
      apply group_ids_spec in Hin as (i & l & p & Hgl & Hpl & Hid).
      destruct (in_group _ _ _ _ _ Hgl Hpl) as (k0 & r0 & Hk0 & Hg0 & -> & _).
      assert (k = k0) as -> by (eapply (wf_ids _ Hwf); eauto). congruence.
  - intros k r Hk Hg. rewrite Hs, bool_decide_true; [done|].
    destruct (gone_grouped ev _ k r Hk Hg) as (l & Hgl & _). apply (list_elem_of_fmap_2 fst _ _ Hgl).
  - intros i Hnone. rewrite Hs, bool_decide_false; [done|]. intros Hi.
    destruct (Hkeys i Hi) as (k & r & Hk & Hg & Hinv). by eapply Hnone.
Qed.
End Retract.
