(* ===== verification/ConsumerDemo.v ===== *)
(** * The consumer on a concrete server

    The rationals as [BigDecimal], scaled integers as column text and decimal
    text for identifiers, which satisfy the laws of [Decimal].  One store, one invoice of 1 ETH and its watch; a payment that is detected,
    confirmed and reorged away.  The theorems about the consumer are applied to
    runs of it. *)

From stdpp Require Import gmap strings list relations.
From Stdlib Require Import ZArith Ascii QArith Qpower Qround Qabs Lia Lqa.
From S2P Require Import Prelude Events Network Bridge Decimal Database DatabaseFacts.
From S2P Require Import Services Cleanup Consumer ConsumerFacts ConsumerSystem.
From S2P Require Import ConsumerFacts ConsumerStatus ConsumerPayments ConsumerReorg.

#[local] Open Scope Z_scope.

(** ** A concrete decimal library *)

(** Column text: [@] and the value in units of 10^-18. *)
Definition demo_numeric_out (z : Z) : string := String "@"%char (z_to_string z).
Definition demo_numeric_in (s : string) : option Z :=
  match s with String "@"%char rest => z_parse rest | _ => None end.

Fixpoint split_point (s : string) : option (string * string) :=
  match s with
  | EmptyString => None
  | String "."%char rest => Some (EmptyString, rest)
  | String a rest => '(i, f) ← split_point rest; Some (String a i, f)
  end.

(** [z], [i.f] or column text. *)
Definition demo_parse (s : string) : option Q :=
  match s with
  | String "@"%char rest => z ← z_parse rest; Some (inject_Z z / inject_Z (10 ^ 18))%Q
  | _ =>
      match z_parse s with
      | Some z => Some (inject_Z z)
      | None =>
          '(i, f) ← split_point s;
          zi ← z_parse i; zf ← z_parse f;
          Some (inject_Z zi + inject_Z zf / inject_Z (10 ^ Z.of_nat (String.length f)))%Q
      end
  end.

#[export] Instance demo_decimal : BigDecimal Q := {
  bd_parse := demo_parse;
  bd_to_string := fun q => demo_numeric_out (Qfloor (q * inject_Z (10 ^ 18)));
  bd_of_Z := inject_Z;
  bd_add := Qplus;
  bd_sub := Qminus;
  bd_mul := Qmult;
  bd_div := Qdiv;
  bd_powi := Qpower;
  bd_leb := Qle_bool;
  bd_with_scale_round := fun q k =>
    (inject_Z (Qfloor (q * inject_Z (10 ^ k) + (1 # 2))) / inject_Z (10 ^ k))%Q;
  bd_normalized := fun q => q;
  bd_to_plain_string := fun q => demo_numeric_out (Qfloor (q * inject_Z (10 ^ 18)))
}.

#[export] Instance demo_numeric : Numeric := {
  numeric18_in := demo_numeric_in;
  numeric18_out := demo_numeric_out
}.

#[export] Instance demo_formats : Formats := {
  chain_id_evm := fun n => "eip155:" +:+ z_to_string n;
  evm_chain_id := fun s =>
    match s with
    | String "e"%char (String "i"%char (String "p"%char (String "1"%char (String "5"%char (String "5"%char (String ":"%char rest))))))
        => z_parse rest
    | _ => None
    end;
  fmt_address := z_to_string;
  fmt_b256 := z_to_string;
  parse_address := z_parse;
  parse_b256 := z_parse;
  uuid_to_string := z_to_string
}.

Lemma z_to_string_not_at z : match z_to_string z with String "@"%char _ => False | _ => True end.
Proof. unfold z_to_string. by destruct (Z.to_int z) as [[]|[]]. Qed.

Lemma demo_parse_Z z : demo_parse (z_to_string z) = Some (inject_Z z).
Proof.
  pose proof (z_to_string_not_at z) as Hat. unfold demo_parse. rewrite z_parse_to_string.
  destruct (z_to_string z) as [|a rest]; [done|]. repeat case_match; done.
Qed.

#[export] Instance demo_decimal_laws : BigDecimalLaws Q.
Proof.
  refine {| bd_value := fun q : Q => q |}; try (intros; reflexivity).
  - intros a b. apply Qle_bool_iff.
  - intros z. eexists. split; [apply demo_parse_Z | reflexivity].
  - eexists. split; [by vm_compute|]. by vm_compute.
  - eexists. split; [by vm_compute|]. by vm_compute.
Defined.

Lemma ten18_nonzero : ~ (inject_Z (10 ^ 18) == 0)%Q.
Proof. by vm_compute. Qed.

Fixpoint has_space (s : string) : bool :=
  match s with EmptyString => false | String a rest => is_space a || has_space rest end.

Lemma trim_no_space s : has_space s = false -> trim s = s.
Proof.
  assert (He : forall s, has_space s = false -> trim_end s = s).
  { clear s. intros s. induction s as [|a s IH]; cbn; [done|]. intros [Ha Hs]%orb_false_iff. rewrite (IH Hs), Ha. by destruct s. }
  intros Hs. unfold trim. rewrite <- (He s) at 2 by done. f_equal. destruct s as [|a s]; [done|].
  cbn in Hs |- *. apply orb_false_iff in Hs as [-> _]. done.
Qed.

Lemma z_to_string_no_space z : has_space (z_to_string z) = false.
Proof.
  assert (Hu : forall d, has_space (DecimalString.NilEmpty.string_of_uint d) = false) by (intros d; by induction d).
  assert (Hz : forall d, has_space (DecimalString.NilZero.string_of_uint d) = false)
    by (intros d; destruct d; [done|apply (Hu (_ d))..]).
  unfold z_to_string. destruct (Z.to_int z) as [d|d]; [apply Hz | apply Hz].
Qed.

#[export] Instance demo_numeric_laws : NumericLaws Q.
Proof.
  constructor.
  - intros z. eexists. split; [|reflexivity]. cbn. by rewrite z_parse_to_string.
  - intros d z _ Hd. unfold format_amount. cbn [bd_to_plain_string bd_normalized bd_with_scale_round demo_decimal].
    cbn [numeric18_in demo_numeric]. unfold demo_numeric_out, demo_numeric_in.
    rewrite z_parse_to_string. f_equal. cbn [bd_value demo_decimal_laws] in Hd.
    pose proof ten18_nonzero as H18.
    assert (Hin : Qfloor (d * inject_Z (10 ^ 18) + (1 # 2)) = z).
    { rewrite (Qfloor_comp _ (inject_Z z + (1 # 2))); [|rewrite Hd; by field].
      apply Z.le_antisymm.
      - apply Z.lt_succ_r. rewrite Zlt_Qlt. eapply Qle_lt_trans; [apply Qfloor_le|].
        unfold Z.succ. rewrite inject_Z_plus. change (inject_Z 1) with 1%Q. lra.
      - rewrite <- (Qfloor_Z z) at 1. apply Qfloor_resp_le. lra. }
    rewrite Hin. rewrite (Qfloor_comp _ (inject_Z z)); [apply Qfloor_Z|]. by field.
  - intros z. apply trim_no_space. cbn. apply z_to_string_no_space.
Qed.

#[export] Instance demo_format_laws : FormatLaws.
Proof.
  constructor.
  - intros n. cbn. apply z_parse_to_string.
  - apply z_parse_to_string.
  - apply z_parse_to_string.
  - intros u v Huv. cbn in Huv. apply (f_equal z_parse) in Huv.
    rewrite !z_parse_to_string in Huv. congruence.
  - apply z_to_string_no_colon.
Qed.

(** ** Witnesses *)

Lemma is_fully_paid_exact_witness :
  is_fully_paid (19.98)%Q (20 # 1) (1 # 10) = true <-> ((20 # 1) - 19.98 <= (20 # 1) * (1 # 10) / 100)%Q.
Proof.
  apply (@is_fully_paid_exact Q demo_decimal demo_decimal_laws (19.98)%Q (20 # 1) (1 # 10)).
  exists 2, 2. split; [lia|]. split; [by vm_compute | by vm_compute].
Defined.

Lemma settlement_shortfall_bounded_witness :
  ((20 # 1) - (19.98) <= (20 # 1) * (1 # 1000))%Q.
Proof.
  apply (@settlement_shortfall_bounded Q demo_decimal demo_decimal_laws (Some "0.1") (19.98)%Q (20 # 1)
           (inject_Z 0 + inject_Z 1 / inject_Z 10)%Q "store").
  - by vm_compute.
  - by vm_compute.
  - exists 2, 2. split; [lia|]. split; by vm_compute.
  - by vm_compute.
Defined.

Lemma convert_smallest_to_human_exact_witness :
  exists text, convert_smallest_to_human (D:=Q) (z_to_string 1500000) 6 = Ok text /\
    numeric18_in text = Some (1500000 * 10 ^ (18 - 6)).
Proof. apply (convert_smallest_to_human_exact (D:=Q) 1500000 6); [lia | lia | by vm_compute]. Defined.

(** ** Concrete parameters *)

#[export] Instance demo_api : ApiTypes := {
  status_to_string := status_to_db;
  WebhookEventType := string;
  PaymentDetectedEvent := "payment_detected"%string;
  PaymentConfirmedEvent := "payment_confirmed"%string;
  LatePaidEvent := "late_paid"%string;
  InvoiceExpiredEvent := "invoice_expired"%string;
  event_type_str := fun e => e;
  event_type_of_str := Some;
  WebhookPayload := string * string;
  payload_event_type := fst;
  payload_invoice_id := snd;
  invoice_event := fun _ e i => (e, id_id i);
  payment_event := fun _ e i _ => (e, id_id i);
  payment_reorged := fun _ i _ => ("payment_reorged"%string, id_id i)
}.

(** A job as a list of fields. *)
Definition job_fields (j : WebhookJob) : list string :=
  [z_to_string (wj_id j); z_to_string (wj_store_webhook_id j); wj_webhook_url j; wj_webhook_secret j;
   fst (wj_payload j : string * string); snd (wj_payload j : string * string); z_to_string (wj_attempts j);
   z_to_string (wj_max_attempts j); z_to_string (wj_created_at j); z_to_string (wj_scheduled_at j)].
Definition fields_job (l : list string) : option WebhookJob :=
  match l with
  | [a; b; c; d; e; f; g; h; i; k] =>
      a ← z_parse a; b ← z_parse b; g ← z_parse g; h ← z_parse h; i ← z_parse i; k ← z_parse k;
      Some (mkWebhookJob a b c d (e, f) g h i k)
  | _ => None
  end.

#[export] Instance demo_codec : JobCodec := {
  job_to_json := fun j => z_to_string (Zpos (encode (job_fields j)));
  job_from_json := fun t => match z_parse t with
                            | Some (Zpos p) => l ← decode p; fields_job l
                            | _ => None
                            end
}.

#[export] Instance demo_codec_laws : JobCodecLaws.
Proof.
  constructor. intros [? ? ? ? [? ?] ? ? ? ?].
  cbn [job_from_json job_to_json demo_codec]. rewrite z_parse_to_string, decode_encode.
  cbn [mbind option_bind]. unfold fields_job, job_fields. by rewrite !z_parse_to_string.
Qed.

(** Every request answered; the [k]-th not sent. *)
Definition demo_up : Runtime :=
  {| calls := fun _ => Answered; clock := fun n => seconds (Z.of_nat n); new_v4 := fun n => 1000 + Z.of_nat n |}.
Definition demo_drop (k : nat) : Runtime :=
  {| calls := fun n => if (n =? k)%nat then NotSent else Answered;
     clock := fun n => seconds (Z.of_nat n); new_v4 := fun n => 1000 + Z.of_nat n |}.

Definition demo_ec : EventConsumer :=
  mkEventConsumer (Some (mkCleanupService default_cleanup_config true true)) true true [0%nat] (Some 1) [] false.

Definition ether : Z := 10 ^ 18.

Definition demo_db : Db :=
  mkDb {["77" := mkInvoiceRow 1 "ETH" Pending ether 0 0 (seconds 1000) None (Some "buyer@example.com");
         "78" := mkInvoiceRow 1 "ETH" Refunded ether 0 0 (seconds 1000) None None]}
    ∅
    {[9 := mkPaymentOptionRow "77" "eip155:1" "ETH" None 18 "7" None ether 0 "ETH-1" None None None true]}
    [mkWatchRow "7" 9 "eip155:1" None true true 0 (seconds 1000)]
    [] ∅ ∅ ∅ ∅ {[1 := mkStoreWebhook 50 "https://shop.example" "secret" true]} ∅ {[1 := "Shop"%string]}.

Definition demo_server : Server := mkServer demo_db 0 0 ∅ ∅ ∅ [] [] [] [] [] [] [].

Definition demo_detected : PaymentDetected :=
  mkPaymentDetected 1 77 7 ether 501 5 605 None true None 8 1 3 0.
Definition demo_confirmed : PaymentConfirmed := mkPaymentConfirmed (-1) 1 77 7 ether 501 5 3 (seconds 60).
Definition demo_reorg : ReorgDetected := mkReorgDetected 1 5 605 705 1 [77] [] true 0.

Definition demo_handle (rt : Runtime) (ev : MonitorEvent) (s : Server) : result EventConsumerError unit * Server :=
  @handle_event Q demo_decimal rt demo_numeric demo_formats demo_api demo_codec demo_ec ev s.

Definition demo_after_detect : Server := snd (demo_handle demo_up (EvPaymentDetected demo_detected) demo_server).
Definition demo_after_confirm : Server :=
  snd (demo_handle demo_up (EvPaymentConfirmed demo_confirmed) demo_after_detect).

(** What a run returned, and where it ended. *)
Lemma ran {A B} (p : A * B) a : fst p = a -> p = (a, snd p).
Proof. by destruct p as [? ?]; intros <-. Qed.

Definition demo_status (s : Server) : option InvoiceStatus := inv_status <$> db_invoices (sv_db s) !! "77"%string.

Example demo_lifecycle :
  (demo_status demo_after_detect, demo_status demo_after_confirm,
   demo_status (snd (demo_handle demo_up (EvReorgDetected demo_reorg) demo_after_confirm)))
  = (Some Processing, Some Paid, Some Pending).
Proof. vm_compute. reflexivity. Qed.

Example demo_notified :
  (length (sv_mails demo_after_confirm), length (sv_observed demo_after_confirm),
   size (sv_ready demo_after_confirm), size (db_outbox (sv_db demo_after_confirm)))
  = (1, 1, 1, 1)%nat.
Proof. vm_compute. reflexivity. Qed.

(** The confirmation handler and a cleanup pass, interleaved.  The handler has
    marked the payment confirmed and read the invoice as processing; the pass
    expires the invoice; the handler goes on with what it read and writes its
    status without looking again: the expired invoice becomes paid, where a
    handler that ran after the pass would have made it late-paid. *)
Definition stale_read : option (InvoiceData * PaymentData) :=
  match fst (invoice_get "77" 0 (sv_db demo_after_detect)),
        fst (get_by_tx_index "77" (fmt_b256 501) (-1) 0 (sv_db demo_after_detect)) with
  | Ok (Some invoice), Ok (Some payment) => Some (invoice, payment)
  | _, _ => None
  end.

Definition expired_meanwhile : Server := set_db (snd (invoice_expire "77" 0 (sv_db demo_after_detect))) demo_after_detect.

Definition settle_stale (s : Server) : Server :=
  match stale_read with
  | Some (invoice, payment) =>
      snd (@settle Q demo_decimal demo_up demo_numeric demo_formats demo_api demo_codec demo_ec demo_confirmed payment invoice s)
  | None => s
  end.

Example stale_confirmation_reopens :
  (demo_status demo_after_detect, demo_status expired_meanwhile, demo_status (settle_stale expired_meanwhile),
   demo_status (snd (demo_handle demo_up (EvPaymentConfirmed demo_confirmed) expired_meanwhile)))
  = (Some Processing, Some Expired, Some Paid, Some LatePaid).
Proof. vm_compute. reflexivity. Qed.

(** A reorg whose handling is interrupted after the payments were retracted
    is not made good by its redelivery: here the status write of the first
    delivery is lost and the handler fails; the second delivery succeeds, finds
    no payment left to retract, and the invoice stays [Paid] without one
    standing payment. *)
Theorem interrupted_reorg_leaves_invoice_paid :
  let first := demo_handle (demo_drop 26) (EvReorgDetected demo_reorg) demo_after_confirm in
  let second := demo_handle demo_up (EvReorgDetected demo_reorg) (snd first) in
  is_ok (fst first) = false /\ is_ok (fst second) = true /\
  demo_status (snd second) = Some Paid /\
  has_standing (db_payments (sv_db (snd second))) "77" = false /\
  demo_status (snd (demo_handle demo_up (EvReorgDetected demo_reorg) demo_after_confirm)) = Some Pending.
Proof. vm_compute. repeat split. Qed.

(** ** Witnesses *)

Lemma demo_db_wf : db_wf demo_db.
Proof.
  constructor.
  - intros i row Hi. unfold demo_db in Hi. cbn in Hi.
    apply lookup_insert_Some in Hi as [[<- <-]|[_ Hi]]; [by vm_compute|].
    apply lookup_singleton_Some in Hi as [<- <-]. by vm_compute.
  - intros k r Hk. cbn [demo_db db_payments] in Hk. by rewrite lookup_empty in Hk.
  - intros k k' r r' Hk. cbn [demo_db db_payments] in Hk. by rewrite lookup_empty in Hk.
Qed.

Lemma demo_detect_steps :
  rtc (@server_step Q demo_decimal demo_up demo_numeric demo_formats demo_api demo_codec) demo_server demo_after_confirm.
Proof.
  eapply rtc_l; [exact (@S_event Q _ demo_up _ _ _ _ demo_ec (EvPaymentDetected demo_detected) demo_server)|].
  apply rtc_once.
  exact (@S_event Q _ demo_up _ _ _ _ demo_ec (EvPaymentConfirmed demo_confirmed) demo_after_detect).
Qed.

Lemma demo_wf_after : db_wf (sv_db demo_after_confirm).
Proof. eapply writes_wf; [apply (server_steps_writes _ _ demo_detect_steps) | apply demo_db_wf]. Qed.

Lemma amount_received_is_credited_total_witness :
  exists row, db_invoices (sv_db demo_after_confirm) !! "77"%string = Some row /\
    inv_amount_received row = ether /\
    inv_amount_received row = credited_total (db_payments (sv_db demo_after_confirm)) "77" /\
    forall k r, db_payments (sv_db demo_after_confirm) !! k = Some r ->
      is_Some (db_invoices (sv_db demo_after_confirm) !! pay_invoice_id r).
Proof.
  eexists. split; [vm_compute; reflexivity|]. split; [reflexivity|].
  apply (@amount_received_is_credited_total Q demo_decimal demo_up demo_numeric demo_formats demo_api demo_codec
           demo_server); [apply demo_db_wf | apply demo_detect_steps | vm_compute; reflexivity].
Defined.

Lemma closed_invoice_never_reopened_witness :
  exists row', db_invoices (sv_db demo_after_confirm) !! "78"%string = Some row' /\
    inv_status row' = Refunded.
Proof.
  exact (@closed_invoice_never_reopened Q demo_decimal demo_up demo_numeric demo_formats demo_api demo_codec
           demo_db demo_server demo_after_confirm "78" _ eq_refl demo_detect_steps eq_refl).
Defined.


Lemma payment_redelivery_adds_nothing_witness :
  let again := snd (demo_handle (demo_drop 11) (EvPaymentDetected demo_detected) demo_after_detect) in
  dom (db_payments (sv_db again)) = dom (db_payments (sv_db demo_after_detect)) /\
  db_outbox (sv_db again) = db_outbox (sv_db demo_after_detect) /\
  size (db_payments (sv_db demo_after_detect)) = 1%nat.
Proof.
  intros again. cut (dom (db_payments (sv_db again)) = dom (db_payments (sv_db demo_after_detect)) /\
    db_outbox (sv_db again) = db_outbox (sv_db demo_after_detect) /\
    forall k r, db_payments (sv_db demo_after_detect) !! k = Some r ->
      exists r', db_payments (sv_db again) !! k = Some r' /\
        pay_id r' = pay_id r /\ pay_invoice_id r' = pay_invoice_id r /\ pay_amount r' = pay_amount r /\
        pay_reorged r' = pay_reorged r /\ pay_confirmed_at r' = pay_confirmed_at r).
  { intros (Hd & Ho & _). split; [exact Hd|]. split; [exact Ho|]. vm_compute. reflexivity. }
  unshelve eapply (@payment_redelivery_adds_nothing Q demo_decimal (demo_drop 11) demo_numeric demo_formats demo_api
    demo_ec demo_detected demo_server demo_after_detect).
  3: apply surjective_pairing.
  vm_compute. reflexivity.
Defined.

Lemma confirmation_refines_spec_witness :
  @confirm_spec Q demo_decimal demo_numeric demo_formats (seconds 8) demo_confirmed (sv_db demo_after_detect)
    = Some (sv_db demo_after_confirm) /\ demo_status demo_after_confirm = Some Paid.
Proof.
  split; [|vm_compute; reflexivity].
  refine (@confirmation_refines_spec Q demo_decimal demo_up demo_numeric demo_formats demo_api demo_codec
            demo_ec demo_confirmed demo_after_detect demo_after_confirm (ran _ _ _)).
  vm_compute. reflexivity.
Defined.

Lemma confirmation_succeeds_iff_defined_witness :
  is_ok (fst (demo_handle demo_up (EvPaymentConfirmed demo_confirmed) demo_after_detect)) = true <->
  is_Some (@confirm_spec Q demo_decimal demo_numeric demo_formats (seconds 8) demo_confirmed
             (sv_db demo_after_detect)).
Proof.
  exact (@confirmation_succeeds_iff_defined Q demo_decimal demo_up demo_numeric demo_formats demo_api demo_codec
           demo_ec demo_confirmed demo_after_detect (fun _ => eq_refl)).
Defined.

Definition demo_key : PaymentKey := ("eip155:1"%string, "501"%string, -1).

Lemma map_size_one_unique {A} (m : gmap PaymentKey A) k r k' r' :
  size m = 1%nat -> m !! k = Some r -> m !! k' = Some r' -> k' = k.
Proof.
  intros Hsize Hk Hk'. destruct (decide (k' = k)) as [|Hne]; [done|]. exfalso.
  assert (Hd : delete k m !! k' = Some r') by (by rewrite lookup_delete_ne).
  assert (Hz : size (delete k m) = 0%nat) by (rewrite map_size_delete_Some by eauto; lia).
  apply map_size_empty_inv in Hz. rewrite Hz, lookup_empty in Hd. discriminate.
Qed.

Lemma some_test {A} (o : option A) (f : A -> bool) :
  match o with Some a => f a | None => true end = false -> exists a, o = Some a /\ f a = false.
Proof. destruct o; [eauto|discriminate]. Qed.

Lemma demo_payment :
  exists r, db_payments (sv_db demo_after_confirm) !! demo_key = Some r /\
    option_is_none (pay_confirmed_at r) || pay_reorged r || negb (String.eqb (pay_invoice_id r) "77") = false /\
    forall k' r', db_payments (sv_db demo_after_confirm) !! k' = Some r' -> k' = demo_key.
Proof.
  destruct (some_test (db_payments (sv_db demo_after_confirm) !! demo_key)
              (fun r => option_is_none (pay_confirmed_at r) || pay_reorged r
                          || negb (String.eqb (pay_invoice_id r) "77"))) as (r & Hk & Hr);
    [vm_compute; reflexivity|].
  exists r. split; [exact Hk|]. split; [exact Hr|]. intros k' r'.
  refine (map_size_one_unique _ _ _ k' r' _ Hk). vm_compute. reflexivity.
Qed.

Lemma redelivered_confirmation_fails_witness :
  is_ok (fst (demo_handle demo_up (EvPaymentConfirmed demo_confirmed) demo_after_confirm)) = false.
Proof.
  destruct demo_payment as (r & Hp & Hb & Hone).
  apply orb_false_iff in Hb as [[Hc Hre]%orb_false_iff Hi%negb_false_iff%String.eqb_eq].
  refine (@redelivered_confirmation_fails Q demo_decimal demo_up demo_numeric demo_formats demo_api demo_codec
           demo_ec demo_confirmed demo_after_confirm demo_key r demo_wf_after Hp _ Hre Hi eq_refl eq_refl _).
  - by destruct (pay_confirmed_at r).
  - intros k' r' Hk' _ _. by eapply Hone.
Defined.

Lemma reorg_retracts_exactly_witness :
  let s' := snd (demo_handle demo_up (EvReorgDetected demo_reorg) demo_after_confirm) in
  (forall k, db_payments (sv_db s') !! k =
     (fun r => if @gone demo_numeric demo_formats demo_reorg k r then set_confirmed None true r else r)
       <$> db_payments (sv_db demo_after_confirm) !! k) /\
  (forall k r, db_payments (sv_db demo_after_confirm) !! k = Some r ->
     @gone demo_numeric demo_formats demo_reorg k r = true ->
     status_of (sv_db s') (pay_invoice_id r) =
       (fun old => reverted old (has_standing (db_payments (sv_db s')) (pay_invoice_id r)))
         <$> status_of (sv_db demo_after_confirm) (pay_invoice_id r)) /\
  (forall i, (forall k r, db_payments (sv_db demo_after_confirm) !! k = Some r ->
       @gone demo_numeric demo_formats demo_reorg k r = true -> pay_invoice_id r <> i) ->
     status_of (sv_db s') i = status_of (sv_db demo_after_confirm) i).
Proof.
  intros s'. refine (@reorg_retracts_exactly demo_up demo_numeric demo_formats demo_api demo_codec
    demo_ec demo_reorg demo_after_confirm s' demo_wf_after (ran _ _ _)).
  vm_compute. reflexivity.
Defined.

Lemma reconcile_cursors_exact_witness :
  let m : gmap Z ChainCursor := {[1 := mkChainCursor 4 10 0; 5 := mkChainCursor 4 12 0]} in
  let s := set_db (db_set_cursors {[(ADAPTER_ID, 1) := mkChainCursor 4 10 0; (ADAPTER_ID, 5) := mkChainCursor 4 12 0]}
                     demo_db) demo_server in
  let r := @reconcile_cursors demo_up demo_formats demo_ec m 4 s in
  (snd r = s /\ (is_ok (fst r) = true <-> forall u c, m !! u = Some c -> cc_epoch c = 4)) /\
  fst r = Ok (m, Some (mkEventCursor 4 12 0)).
Proof.
  intros m s r. split; [|vm_compute; reflexivity].
  apply (@reconcile_cursors_exact demo_up demo_formats demo_ec m 4 s (fst r) (snd r)); [|apply surjective_pairing|reflexivity].
  split.
  - intros u cur Hu. apply lookup_insert_Some in Hu as [[<- _]|[_ Hu]]; [by vm_compute|].
    apply lookup_singleton_Some in Hu as [<- _]. by vm_compute.
  - intros u Hu. subst m s. cbn [sv_db set_db db_cursors db_set_cursors].
    destruct (decide (u = 1)) as [->|H1]; [by vm_compute|].
    destruct (decide (u = 5)) as [->|H5]; [by vm_compute|].
    assert (Hk : forall v, in_u64 v -> v <> u -> (ADAPTER_ID, v) <> (ADAPTER_ID, u64_as_i64 u) \/ 2 ^ 63 <= v).
    { intros v Hv Hne. destruct (decide (v < 2 ^ 63)) as [Hlt|]; [|right; lia]. left. intros [= He].
      apply Hne, u64_as_i64_inj; [done..|]. rewrite <- He. unfold u64_as_i64.
      destruct (Z.ltb_spec v (2 ^ 63)); [done|lia]. }
    destruct (Hk 1) as [Hk1|Hbad]; [by vm_compute|done| |by vm_compute in Hbad].
    destruct (Hk 5) as [Hk5|Hbad]; [by vm_compute|done| |by vm_compute in Hbad].
    rewrite !lookup_insert_ne by (done || congruence). by rewrite !lookup_singleton_ne by (done || congruence).
Defined.

(** A first boot against an outbox that holds the payment, to its commit. *)
Definition demo_envelope : EventEnvelope :=
  mkEventEnvelope 1 (mkEventCursor 3 0 5) (EvPaymentDetected demo_detected).
Definition demo_outbox : Outbox := snd (memory_publish (EvPaymentDetected demo_detected) (new_inner 3 None)).

Lemma committed_cursor_covers_only_applied_witness :
  exists y, rtc (@sys_step Q demo_decimal demo_up demo_numeric demo_formats demo_api demo_codec
                   Outbox MemoryReader unit MemoryBridge MemoryBridge_laws demo_ec)
              (first_boot demo_outbox [demo_envelope] demo_server) y /\
    db_cursors (sv_db (y_server y)) !! (ADAPTER_ID, 1) = Some (mkChainCursor 3 0 5) /\
    exists first, y_first y = Some first /\ first <= 0 /\
      forall e, e ∈ y_log y -> first <= ec_seq (ee_cursor e) <= 0 ->
        ec_seq (ee_cursor e) ∈ y_applied y \/ skipped demo_ec e = true.
Proof.
  assert (Hrun : exists y, rtc (@sys_step Q demo_decimal demo_up demo_numeric demo_formats demo_api demo_codec
                   Outbox MemoryReader unit MemoryBridge MemoryBridge_laws demo_ec)
              (first_boot demo_outbox [demo_envelope] demo_server) y /\
    db_cursors (sv_db (y_server y)) !! (ADAPTER_ID, 1) = Some (mkChainCursor 3 0 5)).
  { eexists. split; [|shelve].
    eapply rtc_l; [eapply Y_start with (x1 := tt) (x2 := tt); vm_compute; reflexivity|].
    eapply rtc_l; [eapply Y_turn with (x := tt); vm_compute; reflexivity|]. apply rtc_refl.
    Unshelve. vm_compute. reflexivity. }
  destruct Hrun as (y & Hr & Hc). exists y. split; [exact Hr|]. split; [exact Hc|].
  refine (@committed_cursor_covers_only_applied Q demo_decimal demo_up demo_numeric demo_formats demo_api demo_codec
    Outbox MemoryReader unit MemoryBridge MemoryBridge_laws demo_ec demo_outbox [demo_envelope] demo_server y 1
    (mkChainCursor 3 0 5) _ _ eq_refl Hr Hc).
  - split; [reflexivity|]. split; [by exists 0%nat|].
    intros i e He. destruct i; [by injection He as <-|by destruct i].
  - intros e [->|[]%not_elem_of_nil]%elem_of_cons. by vm_compute.
Defined.
