(* ===== verification/Webhook.v ===== *)
(** * Webhook delivery

    [server/src/services/webhook/service.rs], [config.rs] and [signing.rs]: the
    worker that claims jobs from the Redis queue, delivers them, and reschedules
    or gives up.  Several workers run against the same Redis, so the worker is
    written as a program that pauses before every request: run alone it is a
    function of the world, and the requests of several workers interleave. *)

From stdpp Require Import gmap strings list sorting.
From Stdlib Require Import ZArith Lia Ascii.
From S2P Require Import Prelude Events Network Decimal Database Services.

(** ** Programs that pause before each request *)

Inductive Prog (A : Type) : Type :=
| Return (a : A)
| Pause (k : Server -> Prog A * Server).
Arguments Return {A} a.
Arguments Pause {A} k.

Fixpoint prog_bind {A B} (p : Prog A) (f : A -> Prog B) : Prog B :=
  match p with
  | Return a => f a
  | Pause k => Pause (fun s => match k s with (p', s') => (prog_bind p' f, s') end)
  end.

(** Running one program alone. *)
Fixpoint run_prog {A} (p : Prog A) (s : Server) : A * Server :=
  match p with
  | Return a => (a, s)
  | Pause k => match k s with (p', s') => run_prog p' s' end
  end.

(** One request. *)
Definition request {E A} (op : M E A) : Prog (result E A) :=
  Pause (fun s => let '(r, s') := op s in (Return r, s')).

(** A program that may fail; [?] propagates. *)
Abbreviation Worker A := (Prog (result WebhookError A)).
Definition try_bind {A B} (p : Worker A) (f : A -> Worker B) : Worker B :=
  prog_bind p (fun r => match r with Ok a => f a | Err e => Return (Err e) end).

Notation "'let?' x ':=' p 'in' q" := (try_bind p (fun x => q))
  (at level 10, x pattern, p at level 100, q at level 200) : st_scope.
Notation "'run' p ; q" := (prog_bind p (fun _ => q))
  (at level 10, p at level 100, q at level 200) : st_scope.

(** ** Configuration *)

Record WebhookConfig := mkWebhookConfig {
  wc_queue_key : string;
  wc_request_timeout : Z;
  wc_poll_interval : Z;
  wc_connect_timeout : Z;
  wc_visibility_timeout : Z
}.

(** [WebhookConfig::default], in seconds *)
Definition default_webhook_config : WebhookConfig :=
  mkWebhookConfig "ethpayserver:webhooks" 30 5 3 300.

(** [WebhookConfig::from_env] *)
Definition webhook_config_from_env (var : string -> option string) : WebhookConfig :=
  let secs name dflt := default dflt (v ← var name; parse_u64 v) in
  {| wc_queue_key := default "ethpayserver:webhooks"%string (var "WEBHOOK_QUEUE_KEY"%string);
     wc_request_timeout := secs "WEBHOOK_REQUEST_TIMEOUT_SECS"%string 30;
     wc_poll_interval := secs "WEBHOOK_POLL_INTERVAL_SECS"%string 5;
     wc_connect_timeout := secs "WEBHOOK_REDIS_CONNECT_TIMEOUT_SECS"%string 3;
     wc_visibility_timeout := secs "WEBHOOK_VISIBILITY_TIMEOUT_SECS"%string 300 |}.

(** ** Error classification *)

(** [process_error_is_fault] *)
Definition process_error_is_fault (error : WebhookError) (shutting_down : bool) : bool :=
  match error with
  | WhRedis _ => negb shutting_down
  | WhHttp _ | WhUnreachable _ | WhSerialization _ | WhDatabase _ => true
  end.

(** [permanent_failure_is_merchant_unreachable] *)
Definition permanent_failure_is_merchant_unreachable (error : WebhookError) : bool :=
  match error with WhUnreachable _ => true | _ => false end.

Definition RECENT_UNREACHABLE_CAPACITY : nat := 8.
Definition MAX_CONSECUTIVE_DEMOTIONS : Z := 5.

(** [recent_unreachable_are_one_merchant]; the back of the queue is the end of
    the list. *)
Definition recent_unreachable_are_one_merchant (recent : list Uuid) : bool :=
  match last recent with
  | Some l => forallb (fun id => id =? l) recent
  | None => true
  end.

(** [recent_unreachable] and [demotion_streak]. *)
Record Isolation := mkIsolation { is_recent : list Uuid; is_streak : Z }.

(** [record_unreachable_and_check_isolated]: whether this failure may be demoted,
    and the new state. *)
Definition record_unreachable_and_check_isolated (id : Uuid) (st : Isolation) : bool * Isolation :=
  let recent := is_recent st ++ [id] in
  let recent := drop (length recent - RECENT_UNREACHABLE_CAPACITY) recent in
  let isolated := recent_unreachable_are_one_merchant recent in
  if isolated && (is_streak st <? MAX_CONSECUTIVE_DEMOTIONS)
  then (true, mkIsolation recent (is_streak st + 1))
  else (false, mkIsolation recent 0).

(** [log_permanent_failure]: whether the line keeps the target that pages. *)
Definition log_permanent_failure `{ApiTypes} (job : WebhookJob) (error : WebhookError) (st : Isolation)
  : bool * Isolation :=
  if permanent_failure_is_merchant_unreachable error then
    let '(demoted, st') := record_unreachable_and_check_isolated (wj_store_webhook_id job) st in
    (negb demoted, st')
  else (true, st).

(** The byte at an index continues a UTF-8 character. *)
Definition is_char_boundary (s : string) (i : nat) : bool :=
  if (i =? 0)%nat || (i =? String.length s)%nat then true
  else match String.get i s with
       | Some a => negb ((128 <=? nat_of_ascii a) && (nat_of_ascii a <? 192))%nat
       | None => false
       end.

Fixpoint boundary_below (s : string) (fuel : nat) : nat :=
  match fuel with
  | O => O
  | S n => if is_char_boundary s (S n) then S n else boundary_below s n
  end.

(** [truncate_error] *)
Definition truncate_error (error : string) (max_len : nat) : string :=
  if (String.length error <=? max_len)%nat then error
  else String.substring 0 (boundary_below error (max_len - 3)) error +:+ "...".

(** ** HTTP *)

Record WebhookRequest := mkWebhookRequest {
  rq_url : string;
  rq_body : string;
  rq_signature : string;
  rq_signature_timestamped : string;
  rq_event : string;
  rq_event_id : string;
  rq_idempotency_key : string
}.

Inductive HttpOutcome :=
| HttpStatus (code : Z)
| HttpConnect (msg : string)
| HttpTimeout (msg : string)
| HttpOther (msg : string).

(** The HTTP client, HMAC-SHA256 in hex, and the JSON and ids of a payload. *)
Class HttpWorld `{ApiTypes} := {
  http_send : nat -> WebhookRequest -> HttpOutcome;
  hmac_sha256_hex : string -> string -> string;
  payload_to_json : WebhookPayload -> string;
  payload_event_id : WebhookPayload -> string;
  payload_idempotency_key : WebhookPayload -> string
}.

Section Webhook.
Context `{Runtime} `{Formats} `{ApiTypes} `{!JobCodec} `{!HttpWorld}.

(** [sign_webhook_payload], [WebhookService::sign_payload] *)
Definition sign_webhook_payload (payload secret : string) : string :=
  "sha256=" +:+ hmac_sha256_hex payload secret.

(** [strip_prefix] *)
Definition strip_prefix (prefix s : string) : option string :=
  if String.prefix prefix s
  then Some (String.substring (String.length prefix) (String.length s - String.length prefix) s) else None.

(** [sign_webhook_payload_timestamped] *)
Definition sign_webhook_payload_timestamped (payload secret : string) (sent_at_unix : Z) : string :=
  let signed := z_to_string sent_at_unix +:+ "." +:+ payload in
  let sig := sign_webhook_payload signed secret in
  let hex := default sig (strip_prefix "sha256=" sig) in
  "t=" +:+ z_to_string sent_at_unix +:+ ",v1=" +:+ hex.

(** The request of one delivery attempt. *)
Definition delivery_request (job : WebhookJob) (now : Instant) : WebhookRequest :=
  let payload_json := payload_to_json (wj_payload job) in
  {| rq_url := wj_webhook_url job;
     rq_body := payload_json;
     rq_signature := sign_webhook_payload payload_json (wj_webhook_secret job);
     rq_signature_timestamped :=
       sign_webhook_payload_timestamped payload_json (wj_webhook_secret job) (timestamp now);
     rq_event := payload_event_type (wj_payload job);
     rq_event_id := payload_event_id (wj_payload job);
     rq_idempotency_key := payload_idempotency_key (wj_payload job) |}.

(** [deliver_webhook] *)
Definition deliver_webhook (job : WebhookJob) : M WebhookError unit :=
  fun s =>
    let t := sv_ticks s in
    match http_send t (delivery_request job (clock t)) with
    | HttpConnect msg | HttpTimeout msg => (Err (WhUnreachable msg), tick s)
    | HttpOther msg => (Err (WhHttp msg), tick s)
    | HttpStatus code =>
        if (200 <=? code) && (code <? 300) then (Ok tt, add_accepted (wj_id job) (tick s))
        else (Err (WhHttp ("HTTP " +:+ z_to_string code +:+ " from webhook endpoint")), tick s)
    end.

(** [record_delivery_event] *)
Definition record_delivery_event {E} (job : WebhookJob) (event_type : string) : M E unit :=
  do* st_try (exchange db_lost (st_modify (add_event (payload_invoice_id (wj_payload job), event_type))));
  st_ret tt.

Definition redis {A} (op : M WebhookError A) : M WebhookError A :=
  exchange (WhRedis "connection lost") op.

(** ** The two sorted sets *)

(** [format!("{claim_id}:{json}")] *)
Definition claim_member (claim_id : Uuid) (json : string) : string :=
  uuid_to_string claim_id +:+ ":" +:+ json.

(** [str::split_once(':')] *)
Fixpoint split_once (s : string) : option (string * string) :=
  match s with
  | EmptyString => None
  | String a rest =>
      if Ascii.eqb a ":"%char then Some (EmptyString, rest)
      else '(before, after) ← split_once rest; Some (String a before, after)
  end.

(** [CLAIM_JOB_SCRIPT] *)
Definition claim_script (json member : string) (deadline : Z) : M WebhookError Z :=
  fun s =>
    match sv_ready s !! json with
    | None => (Ok 0, s)
    | Some _ => (Ok 1, set_queue (delete json (sv_ready s)) (<[member := deadline]> (sv_processing s)) s)
    end.

(** [claim_job] *)
Definition claim_job (json : string) (deadline : Z) : Worker (option string) :=
  request (
    let* claim_id := fresh in
    let processing_member := claim_member claim_id json in
    let* claimed := redis (claim_script json processing_member deadline) in
    st_ret (if claimed =? 1 then Some processing_member else None)).

(** [clear_processing] *)
Definition clear_processing (processing_member : string) : Prog unit :=
  run request (redis (st_modify (fun s =>
                 set_queue (sv_ready s) (delete processing_member (sv_processing s)) s)));
  Return tt.

(** [reclaim_one_expired_job] *)
Definition reclaim_one_expired_job (processing_member : string) (now : Z) : Prog unit :=
  match split_once processing_member with
  | None => Return tt
  | Some (_claim_id, json) =>
      prog_bind (request (zadd_ready now json)) (fun requeued =>
        match requeued with
        | Err _ => Return tt
        | Ok _ => clear_processing processing_member
        end)
  end.

(** Members with a score up to [now], lowest first. *)
Definition by_score (a b : string * Z) : Prop := a.2 <= b.2.
#[local] Instance by_score_dec : RelDecision by_score.
Proof. intros a b. unfold by_score. apply _. Defined.
Definition zrangebyscore (set : gmap string Z) (now : Z) : list string :=
  (List.filter (fun mz : string * Z => mz.2 <=? now) (merge_sort by_score (map_to_list set))).*1.

Fixpoint prog_for {A} (l : list A) (body : A -> Prog unit) : Prog unit :=
  match l with
  | [] => Return tt
  | x :: l' => run body x; prog_for l' body
  end.

(** [reclaim_expired_jobs] *)
Definition reclaim_expired_jobs : Prog unit :=
  prog_bind (request (E := WebhookError) utc_now) (fun t =>
    let now := timestamp (match t with Ok t => t | Err _ => 0 end) in
    prog_bind (request (redis (st_gets (fun s => zrangebyscore (sv_processing s) now)))) (fun expired =>
      match expired with
      | Err _ => Return tt
      | Ok expired => prog_for expired (fun member => reclaim_one_expired_job member now)
      end)).

(** [update_queue_gauges]: two reads whose results only feed metrics. *)
Definition update_queue_gauges : Prog unit :=
  run request (redis (st_gets (fun s => size (sv_ready s))));
  run request (redis (st_gets (fun s => length (zrangebyscore (sv_ready s) (timestamp (clock (sv_ticks s)))))));
  Return tt.

(** [job.attempts += 1], [job.scheduled_at = next] *)
Definition bump_attempts (job : WebhookJob) : WebhookJob :=
  mkWebhookJob (wj_id job) (wj_store_webhook_id job) (wj_webhook_url job) (wj_webhook_secret job)
    (wj_payload job) ((wj_attempts job + 1) mod 2 ^ 32) (wj_max_attempts job) (wj_created_at job)
    (wj_scheduled_at job).
Definition reschedule (next : Instant) (job : WebhookJob) : WebhookJob :=
  mkWebhookJob (wj_id job) (wj_store_webhook_id job) (wj_webhook_url job) (wj_webhook_secret job)
    (wj_payload job) (wj_attempts job) (wj_max_attempts job) (wj_created_at job) next.

Definition webhook_error_to_string (e : WebhookError) : string :=
  match e with
  | WhRedis m => "redis error: " +:+ m
  | WhHttp m => "http error: " +:+ m
  | WhUnreachable m => "webhook endpoint unreachable: " +:+ m
  | WhSerialization m => "serialization error: " +:+ m
  | WhDatabase m => "database error: " +:+ m
  end.

(** The outcome of a delivery: recorded, and the job cleared or put back. *)
Definition finish_job (iso : Isolation) (member : string) (job : WebhookJob)
    (outcome : result WebhookError unit) : Worker Isolation :=
  match outcome with
  | Ok _ =>
      run request (E := WebhookError) (record_delivery_event job "webhook_delivered");
      run request (E := WebhookError) (write_delivery_record job DDelivered (u32_as_i32 (wj_attempts job)) None);
      run clear_processing member;
      Return (Ok iso)
  | Err e =>
      let error_msg := truncate_error (webhook_error_to_string e) 500 in
      if is_exhausted job then
        let '(paged, iso') := log_permanent_failure job e iso in
        run request (E := WebhookError) (st_modify (add_failed_log (wj_id job, paged)));
        run request (E := WebhookError)
              (write_delivery_record job DFailed (u32_as_i32 (wj_attempts job)) (Some error_msg));
        run request (E := WebhookError) (record_delivery_event job "webhook_permanent_failed");
        run clear_processing member;
        Return (Ok iso')
      else
        run request (E := WebhookError)
              (write_delivery_record job DRetrying (u32_as_i32 (wj_attempts job)) (Some error_msg));
        run request (E := WebhookError) (record_delivery_event job "webhook_retrying");
        let? now := request utc_now in
        let job := reschedule (now + seconds (retry_delay job)) job in
        let? _ := request (zadd_ready (timestamp (wj_scheduled_at job)) (job_to_json job)) in
        run clear_processing member;
        Return (Ok iso)
  end.

(** [process_next_job], with the isolation state of the process *)
Definition process_next_job (cfg : WebhookConfig) (iso : Isolation) : Worker (bool * Isolation) :=
  let? _ := request connection in
  run reclaim_expired_jobs;
  let? t := request utc_now in
  let now := timestamp t in
  let? results := request (redis (st_gets (fun s => take 1 (zrangebyscore (sv_ready s) now)))) in
  match results with
  | [] =>
      run update_queue_gauges;
      Return (Ok (false, iso))
  | json :: _ =>
      let deadline := now + wc_visibility_timeout cfg in
      let? claimed := claim_job json deadline in
      match claimed with
      | None => Return (Ok (false, iso))
      | Some processing_member =>
          match job_from_json json with
          | None => Return (Err (WhSerialization "invalid job"))
          | Some job =>
              let job := bump_attempts job in
              prog_bind (request (deliver_webhook job)) (fun outcome =>
                let? iso := finish_job iso processing_member job outcome in
                run update_queue_gauges;
                Return (Ok (true, iso)))
          end
      end
  end.
End Webhook.
