(* ===== verification/WebhookFacts.v ===== *)
(** * A webhook job is never lost

    Any number of workers, interleaved request by request, with requests lost in
    either direction, workers killed at any point and new ones started: a job on
    the ready queue stays on one of the two sets until its endpoint accepted it
    or it was logged as permanently failed.  The argument is the one behind the
    claim ids: a worker removes a processing entry only after the job it carries
    is settled or back on the ready queue, and no later claim can be mistaken
    for that entry. *)

From stdpp Require Import gmap strings list relations sorting.
From Stdlib Require Import ZArith Lia Ascii.
From S2P Require Import Prelude Events Network Decimal Database Services Webhook.

(** Induction over a program: every pause leads to a smaller one. *)
Fixpoint prog_induction {A} (P : Prog A -> Prop) (HR : forall a, P (Return a))
    (HP : forall k, (forall s, P (fst (k s))) -> P (Pause k)) (p : Prog A) : P p :=
  match p with
  | Return a => HR a
  | Pause k =>
      HP k (fun s => match k s as x return P (fst x) with
                     | (p', s') => prog_induction P HR HP p'
                     end)
  end.

Section NeverLost.
Context `{Runtime} `{FormatLaws} `{ApiTypes} `{!JobCodec} `{!JobCodecLaws} `{!HttpWorld}.
Context (v4_inj : forall n n', new_v4 n = new_v4 n' -> n = n').
Context (J : Uuid).

(** ** Where a job can be *)

Definition carries (json : string) : Prop :=
  exists j, job_from_json json = Some j /\ wj_id j = J.
Definition member_carries (m : string) : Prop :=
  exists c json, split_once m = Some (c, json) /\ carries json.

(** Accepted by its endpoint, or logged as permanently failed. *)
Definition job_settled (s : Server) : Prop :=
  J ∈ sv_accepted s \/ exists paged, (J, paged) ∈ sv_failed_log s.
Definition job_ready (s : Server) : Prop := exists json, json ∈ dom (sv_ready s) /\ carries json.
Definition job_claimed (s : Server) : Prop := exists m, m ∈ dom (sv_processing s) /\ member_carries m.

Lemma split_once_app a b : has_colon a = false -> split_once (a +:+ ":" +:+ b) = Some (a, b).
Proof.
  induction a as [|c a IH]; intros Ha; [done|]. cbn [has_colon] in Ha.
  apply orb_false_iff in Ha as [Hc Ha].
  change (String c a +:+ ":" +:+ b) with (String c (a +:+ ":" +:+ b)). cbn [split_once].
  change (ascii_of_nat 58) with ":"%char in Hc. rewrite Hc, IH by done. done.
Qed.

Lemma split_claim_member c json : split_once (claim_member c json) = Some (uuid_to_string c, json).
Proof. apply split_once_app, uuid_to_string_no_colon. Qed.

Lemma claim_member_id n json n' json' :
  claim_member (new_v4 n) json = claim_member (new_v4 n') json' -> n = n'.
Proof.
  intros Heq. apply (f_equal split_once) in Heq. rewrite !split_claim_member in Heq.
  injection Heq as Hu _. by apply v4_inj, uuid_to_string_inj.
Qed.

(** ** The invariant

    [g_made]: every processing entry ever made; [g_spent]: those whose job is
    settled or was put back, so that removing them is harmless. *)

Record Ghost := mkGhost { g_made : gset string; g_spent : gset string }.

Definition ghost_le (g g' : Ghost) : Prop := g_made g ⊆ g_made g' /\ g_spent g ⊆ g_spent g'.

Record queue_inv (g : Ghost) (s : Server) : Prop := {
  qi_job : job_settled s \/ job_ready s \/
    (exists m, m ∈ dom (sv_processing s) /\ (m ∉ g_spent g) /\ member_carries m);
  qi_made m : (m ∈ dom (sv_processing s) \/ m ∈ g_spent g) -> m ∈ g_made g;
  qi_ids m : m ∈ g_made g -> exists n json, (n < sv_uuids s)%nat /\ m = claim_member (new_v4 n) json
}.

(** [safe t p Q]: from any state that satisfies the invariant, each step of
    [p] keeps it, whatever others did in between; [t] is what the program
    knows of the ghost sets (they only grow), [Q] what it knows at the end. *)
Fixpoint safe {A} (t : Ghost) (p : Prog A) (Q : Ghost -> A -> Prop) : Prop :=
  match p with
  | Return a => Q t a
  | Pause k =>
      forall g s, ghost_le t g -> queue_inv g s ->
        match k s with
        | (p', s') => exists g', ghost_le g g' /\ queue_inv g' s' /\ safe g' p' Q
        end
  end.

#[local] Instance ghost_le_preorder : PreOrder ghost_le.
Proof. split; [by split|]. intros a b c [? ?] [? ?]. split; set_solver. Qed.

(** Sequencing; nothing known is forgotten. *)
Lemma safe_bind {A B} (p : Prog A) (f : A -> Prog B) Q R t :
  safe t p Q -> (forall t' a, ghost_le t t' -> Q t' a -> safe t' (f a) R) -> safe t (prog_bind p f) R.
Proof.
  intros Hp Hf. assert (Hgen : forall t1, ghost_le t t1 -> safe t1 p Q -> safe t1 (prog_bind p f) R);
    [|by apply Hgen].
  clear Hp. induction p as [a|k IH] using prog_induction; intros t1 Ht Hp; cbn in *; [by apply Hf|].
  intros g s Hg Hinv. specialize (Hp g s Hg Hinv). specialize (IH s).
  destruct (k s) as [p' s']. cbn in IH. destruct Hp as (g' & Hle & Hi & Hs).
  exists g'. split_and!; [done..|]. apply IH; [|done]. by do 2 (etrans; [eassumption|]).
Qed.

Lemma safe_try_bind {A B} (p : Worker A) (f : A -> Worker B) Q R t :
  safe t p Q -> (forall t' a, ghost_le t t' -> Q t' (Ok a) -> safe t' (f a) R) ->
  (forall t' e, R t' (Err e)) -> safe t (try_bind p f) R.
Proof.
  intros Hp Hf He. eapply safe_bind; [exact Hp|]. intros t' [a|e] Ht Hq; [by apply Hf|apply He].
Qed.

(** A request: what it does to the world, and what is known afterwards. *)
Lemma safe_request {E A} (op : M E A) t (Q : Ghost -> result E A -> Prop) :
  (forall g s, ghost_le t g -> queue_inv g s ->
     match op s with
     | (r, s') => exists g', ghost_le g g' /\ queue_inv g' s' /\ Q g' r
     end) ->
  safe t (request op) Q.
Proof. intros Hop g s Hg Hinv. specialize (Hop g s Hg Hinv). by destruct (op s). Qed.

(** ** Steps that leave the two sets alone *)

(** What such a step may change. *)
Definition queue_frame (s s' : Server) : Prop :=
  sv_ready s' = sv_ready s /\ sv_processing s' = sv_processing s /\
  (sv_uuids s <= sv_uuids s')%nat /\
  (forall x, x ∈ sv_accepted s -> x ∈ sv_accepted s') /\
  (forall x, x ∈ sv_failed_log s -> x ∈ sv_failed_log s').

Lemma queue_frame_inv g s s' : queue_frame s s' -> queue_inv g s -> queue_inv g s'.
Proof.
  intros (Hr & Hp & Hu & Ha & Hf) [Hj Hm Hi]. constructor.
  - destruct Hj as [[Hj|[b Hj]]|[[json Hj]|Hj]].
    + left. left. auto.
    + left. right. eauto.
    + right. left. exists json. by rewrite Hr.
    + right. right. by rewrite Hp.
  - intros m. rewrite Hp. apply Hm.
  - intros m Hmade. destruct (Hi m Hmade) as (n & json & Hn & ->). exists n, json. split; [lia|done].
Qed.

Lemma tick_inv g s : queue_inv g s -> queue_inv g (tick s).
Proof. apply queue_frame_inv. split_and!; auto. Qed.

Lemma safe_frame {E A} (op : M E A) t :
  (forall s, queue_frame s (snd (op s))) -> safe t (request op) (fun _ _ => True).
Proof.
  intros Hop. apply safe_request. intros g s Hg Hinv. specialize (Hop s).
  destruct (op s) as [r s']. exists g. split_and!; [reflexivity| |done].
  by eapply queue_frame_inv.
Qed.

Lemma frame_refl s : queue_frame s s.
Proof. split_and!; auto. Qed.

Lemma frame_exchange {E A} (fault : E) (op : M E A) :
  (forall s, queue_frame s (snd (op s))) -> forall s, queue_frame s (snd (exchange fault op s)).
Proof.
  intros Hop s. unfold exchange. specialize (Hop (tick s)).
  destruct (calls _); [exact Hop|exact (frame_refl (tick s))|exact Hop].
Qed.

Lemma frame_write_record {E} j st n e s : queue_frame s (snd (write_delivery_record (E := E) j st n e s)).
Proof.
  unfold write_delivery_record, st_bind, st_try.
  pose proof (frame_exchange db_lost (E := RepositoryError) (A := unit) (st_modify (fun s => set_deliveries
    (<[wj_id j := upserted_row (mkDeliveryRow (wj_store_webhook_id j) (payload_invoice_id (wj_payload j))
       (payload_event_type (wj_payload j)) st n (u32_as_i32 (wj_max_attempts j)) e) (sv_deliveries s !! wj_id j)]> (sv_deliveries s)) s))
    (fun s => frame_refl s) s) as Hf.
  by destruct (exchange db_lost _ s).
Qed.

Lemma frame_record_event {E} j ev s : queue_frame s (snd (record_delivery_event (E := E) j ev s)).
Proof.
  unfold record_delivery_event, st_bind, st_try.
  pose proof (frame_exchange db_lost (E := RepositoryError) (A := unit)
    (st_modify (add_event (payload_invoice_id (wj_payload j), ev))) (fun s => frame_refl s) s) as Hf.
  by destruct (exchange db_lost _ s).
Qed.

Lemma frame_reads {A} (f : Server -> A) s :
  queue_frame s (snd (redis (st_gets f) s)).
Proof. apply frame_exchange. intros. apply frame_refl. Qed.

(** ** Steps on the two sets *)

(** Adding to the ready queue. *)
Lemma ready_add_inv g s score json : queue_inv g s ->
  queue_inv g (set_queue (<[json := score]> (sv_ready s)) (sv_processing s) s).
Proof.
  intros [Hj Hm Hi]. constructor; [|exact Hm|exact Hi].
  destruct Hj as [Hj|[(json' & Hr & Hc)|Hj]]; [by left| |by right; right].
  right. left. exists json'. cbn. rewrite dom_insert_L. set_solver.
Qed.

(** Declaring an entry spent: allowed when the job it carries is settled or on
    the ready queue. *)
Definition spend (m : string) (g : Ghost) : Ghost := mkGhost (g_made g) ({[m]} ∪ g_spent g).

Lemma spend_inv g s m :
  queue_inv g s -> m ∈ g_made g -> (member_carries m -> job_settled s \/ job_ready s) ->
  queue_inv (spend m g) s.
Proof.
  intros [Hj Hm Hi] Hmade Hok. constructor; [|intros m'; cbn; set_solver|exact Hi].
  destruct Hj as [Hj|[Hj|(m' & Hp & Hs & Hc)]]; [by left|by right; left|].
  destruct (decide (m' = m)) as [->|Hne].
  - destruct (Hok Hc); auto.
  - right. right. exists m'. cbn. set_solver.
Qed.

Lemma spend_le m g : ghost_le g (spend m g).
Proof. split; cbn; set_solver. Qed.

(** What a program knows: some entries were made, some are spent. *)
Definition knows_made (m : string) (t : Ghost) : Prop := m ∈ g_made t.
Definition knows_spent (m : string) (t : Ghost) : Prop := m ∈ g_spent t.

(** [ZADD] of the job that [m] carries; once answered, [m] is spent. *)
Lemma safe_requeue t score json m :
  knows_made m t -> (member_carries m -> carries json) ->
  safe t (request (zadd_ready score json))
    (fun t' r => is_ok r = true -> knows_spent m t').
Proof.
  intros Hm Hc. apply safe_request. intros g s Hg Hinv%tick_inv. unfold zadd_ready, exchange.
  pose proof (ready_add_inv g (tick s) score json Hinv) as Hadd.
  assert (Hmade : m ∈ g_made g) by (by apply Hg).
  destruct (calls _); cbn.
  - exists (spend m g). split_and!; [apply spend_le| |].
    + apply spend_inv; [exact Hadd|done|]. intros Hmc. right. exists json. split; [|by apply Hc].
      cbn. rewrite dom_insert_L. set_solver.
    + intros _. unfold knows_spent. cbn. set_solver.
  - exists g. split_and!; [reflexivity|exact Hinv|discriminate].
  - exists g. split_and!; [reflexivity|exact Hadd|discriminate].
Qed.

(** [ZREM] of a spent entry. *)
Lemma clear_inv g s m : m ∈ g_spent g -> queue_inv g s ->
  queue_inv g (set_queue (sv_ready s) (delete m (sv_processing s)) s).
Proof.
  intros Hs [Hj Hm Hi]. constructor; [| |exact Hi].
  - destruct Hj as [Hj|[Hj|(m' & Hp & Hns & Hc)]]; [by left|by right; left|].
    right. right. exists m'. cbn. rewrite dom_delete_L. set_solver.
  - intros m'. cbn. rewrite dom_delete_L. intros Hm'. apply Hm. set_solver.
Qed.

Lemma safe_clear t m : knows_spent m t -> safe t (clear_processing m) (fun _ _ => True).
Proof.
  intros Hm. unfold clear_processing. apply (safe_bind _ _ (fun _ _ => True)); [|done].
  apply safe_request. intros g s Hg Hinv%tick_inv. unfold redis, exchange.
  assert (Hs : m ∈ g_spent g) by (by apply Hg).
  destruct (calls _); cbn; exists g; (split_and!; [reflexivity| |done]); [|exact Hinv|];
    exact (clear_inv g (tick s) m Hs Hinv).
Qed.

(** The claim: the ready entry becomes a new processing entry. *)
Lemma claim_inv g s json deadline : queue_inv g s ->
  let m := claim_member (new_v4 (sv_uuids s)) json in
  json ∈ dom (sv_ready s) ->
  queue_inv (mkGhost ({[m]} ∪ g_made g) (g_spent g))
    (set_queue (delete json (sv_ready s)) (<[m := deadline]> (sv_processing s)) (set_uuids (S (sv_uuids s)) s)).
Proof.
  intros [Hj Hm Hi] m Hjson.
  assert (Hfresh : m ∉ g_made g).
  { intros Hin. destruct (Hi m Hin) as (n & json' & Hn & He). apply claim_member_id in He. lia. }
  constructor; cbn.
  - destruct Hj as [Hj|[(json' & Hr & Hc)|(m' & Hp & Hs & Hc)]]; [by left| |].
    + destruct (decide (json' = json)) as [->|Hne].
      * right. right. exists m. cbn. rewrite dom_insert_L. split_and!; [set_solver| |].
        -- intros Hs. apply Hfresh, Hm. by right.
        -- exists (uuid_to_string (new_v4 (sv_uuids s))), json. split; [apply split_claim_member|done].
      * right. left. exists json'. cbn. rewrite dom_delete_L. set_solver.
    + right. right. exists m'. cbn. rewrite dom_insert_L. set_solver.
  - intros m'. rewrite dom_insert_L. intros Hm'. specialize (Hm m'). set_solver.
  - intros m' Hm'. apply elem_of_union in Hm' as [->%elem_of_singleton|Hm'].
    + exists (sv_uuids s), json. split; [lia|done].
    + destruct (Hi m' Hm') as (n & json' & Hn & ->). exists n, json'. split; [lia|done].
Qed.

Lemma draw_inv g s : queue_inv g s -> queue_inv g (set_uuids (S (sv_uuids s)) s).
Proof. apply queue_frame_inv. split_and!; cbn; auto. Qed.

Lemma safe_claim t json deadline :
  safe t (claim_job json deadline)
    (fun t' r => forall m, r = Ok (Some m) ->
       knows_made m t' /\ exists c, split_once m = Some (c, json)).
Proof.
  apply safe_request. intros g s Hg Hinv%tick_inv. unfold st_bind, fresh, redis, exchange. cbn.
  pose proof (claim_inv g (tick s) json deadline Hinv) as Hclaim. cbn zeta in Hclaim.
  pose proof (draw_inv g (tick s) Hinv) as Hdraw. cbn [sv_uuids sv_ready sv_processing tick] in *.
  set (m := claim_member (new_v4 (sv_uuids s)) json) in *.
  set (g' := mkGhost ({[m]} ∪ g_made g) (g_spent g)) in *.
  assert (Hle : ghost_le g g') by (split; cbn; set_solver).
  unfold claim_script. cbn.
  destruct (sv_ready s !! json) as [z|] eqn:Hr.
  - specialize (Hclaim ltac:(by eapply elem_of_dom_2)).
    destruct (calls _); cbn.
    + exists g'. split_and!; [done|exact Hclaim|]. intros m' [= <-].
      split; [unfold knows_made; cbn; set_solver|]. eexists. apply split_claim_member.
    + exists g. split_and!; [reflexivity|exact Hdraw|discriminate].
    + exists g'. split_and!; [done|exact Hclaim|discriminate].
  - destruct (calls _); cbn; exists g; (split_and!; [reflexivity|exact Hdraw|discriminate]).
Qed.

(** ** The worker *)

Lemma safe_reclaim_one t m now : knows_made m t -> safe t (reclaim_one_expired_job m now) (fun _ _ => True).
Proof.
  intros Hm. unfold reclaim_one_expired_job. destruct (split_once m) as [[c json]|] eqn:Hsp; [|done].
  eapply safe_bind; [apply (safe_requeue t now json m Hm)|].
  - intros (c' & json' & Hsp' & Hc). congruence.
  - intros t' [u|e] _ Hr; [|done]. apply safe_clear. by apply Hr.
Qed.

Lemma knows_made_le m t t' : knows_made m t -> ghost_le t t' -> knows_made m t'.
Proof. intros Hm [Hle _]. by apply Hle. Qed.

Lemma safe_for t (l : list string) body :
  (forall t' m, m ∈ l -> ghost_le t t' -> safe t' (body m) (fun _ _ => True)) ->
  safe t (prog_for l body) (fun _ _ => True).
Proof.
  revert t. induction l as [|m l IH]; intros t Hb; [done|]. cbn [prog_for].
  eapply safe_bind; [apply Hb; [left|reflexivity]|]. intros t' u Ht _. apply IH.
  intros t2 m' Hm' Ht2. apply Hb; [by right|by etrans].
Qed.

Lemma zrangebyscore_dom set now m : m ∈ zrangebyscore set now -> m ∈ dom set.
Proof.
  unfold zrangebyscore. intros Hm. apply list_elem_of_fmap in Hm as ([m' z] & -> & Hm).
  apply elem_of_filter_b in Hm as [_ Hm]. rewrite merge_sort_Permutation in Hm.
  apply elem_of_map_to_list in Hm. by eapply elem_of_dom_2.
Qed.

Lemma safe_reclaim t : safe t reclaim_expired_jobs (fun _ _ => True).
Proof.
  unfold reclaim_expired_jobs. eapply safe_bind; [apply safe_frame; intros; apply frame_refl|].
  intros t1 r _ _. set (now := timestamp _).
  apply (safe_bind _ _ (fun t' r => forall l, r = Ok l -> forall m, m ∈ l -> knows_made m t')).
  - apply safe_request. intros g s Hg Hinv%tick_inv. unfold redis, exchange.
    destruct (calls _); cbn; exists g; (split_and!; [reflexivity|exact Hinv|]); [|discriminate..].
    intros l [= <-] m Hm. apply (qi_made _ _ Hinv). left. by eapply zrangebyscore_dom.
  - intros t2 [l|e] _ Hl; [|done]. apply safe_for. intros t3 m Hm Ht3. apply safe_reclaim_one.
    eapply knows_made_le; [|exact Ht3]. by apply (Hl l).
Qed.

Lemma safe_gauges t : safe t update_queue_gauges (fun _ _ => True).
Proof.
  unfold update_queue_gauges.
  do 2 (eapply safe_bind; [apply safe_frame, frame_reads|intros ? ? _ _]). done.
Qed.

(** A claim that is being worked on. *)
Definition working (m : string) (job : WebhookJob) (t : Ghost) : Prop :=
  knows_made m t /\ (member_carries m -> wj_id job = J).

Lemma working_le m job t t' : working m job t -> ghost_le t t' -> working m job t'.
Proof. intros [Hm Hc] Hle. split; [by eapply knows_made_le|done]. Qed.

Lemma safe_deliver t m job :
  working m job t ->
  safe t (request (deliver_webhook job)) (fun t' r => r = Ok tt -> knows_spent m t').
Proof.
  intros [Hm Hc]. apply safe_request. intros g s Hg Hinv%tick_inv. unfold deliver_webhook.
  assert (Hmade : m ∈ g_made g) by (by apply Hg).
  assert (Hfail : forall e : WebhookError,
    exists g', ghost_le g g' /\ queue_inv g' (tick s) /\ (Err e = Ok tt -> knows_spent m g')).
  { intros e. exists g. split_and!; [reflexivity|exact Hinv|discriminate]. }
  destruct (http_send _ _) as [code| | |]; [|apply Hfail..].
  destruct (_ && _); [|apply Hfail]. exists (spend m g). split_and!; [apply spend_le| |].
  - apply spend_inv; [|done|].
    + eapply queue_frame_inv; [|exact Hinv]. split_and!; cbn; auto. set_solver.
    + intros Hmc. left. left. cbn. rewrite (Hc Hmc). set_solver.
  - intros _. unfold knows_spent. cbn. set_solver.
Qed.

Lemma safe_log_failed t m job paged :
  working m job t ->
  safe t (request (E := WebhookError) (st_modify (add_failed_log (wj_id job, paged))))
    (fun t' _ => knows_spent m t').
Proof.
  intros [Hm Hc]. apply safe_request. intros g s Hg Hinv. cbn.
  exists (spend m g). split_and!; [apply spend_le| |unfold knows_spent; cbn; set_solver].
  apply spend_inv; [|by apply Hg|].
  - eapply queue_frame_inv; [|exact Hinv]. split_and!; cbn; auto. set_solver.
  - intros Hmc. left. right. exists paged. cbn. rewrite (Hc Hmc). set_solver.
Qed.

Lemma knows_spent_le m t t' : knows_spent m t -> ghost_le t t' -> knows_spent m t'.
Proof. intros Hm [_ Hle]. by apply Hle. Qed.

(** A step that touches neither set, in front of the rest. *)
Lemma safe_then {E A B} (op : M E A) (q : Prog B) t R :
  (forall s, queue_frame s (snd (op s))) -> (forall t', ghost_le t t' -> safe t' q R) ->
  safe t (prog_bind (request op) (fun _ => q)) R.
Proof. intros Hop Hq. eapply safe_bind; [by apply safe_frame|]. intros t' a Ht _. by apply Hq. Qed.

Lemma safe_finish t iso m job outcome :
  working m job t -> (outcome = Ok tt -> knows_spent m t) ->
  safe t (finish_job iso m job outcome) (fun _ _ => True).
Proof.
  intros Hw Hok. unfold finish_job. destruct outcome as [[]|e].
  - specialize (Hok eq_refl).
    apply safe_then; [intros; apply frame_record_event|]. intros t1 Ht1.
    apply safe_then; [intros; apply frame_write_record|]. intros t2 Ht2.
    eapply safe_bind; [apply safe_clear; eapply knows_spent_le; [exact Hok|by etrans]|done].
  - destruct (is_exhausted job).
    + destruct (log_permanent_failure job e iso) as [paged iso'].
      eapply safe_bind; [by apply (safe_log_failed t m)|]. intros t1 u1 _ Hs.
      apply safe_then; [intros; apply frame_write_record|]. intros t2 Ht2.
      apply safe_then; [intros; apply frame_record_event|]. intros t3 Ht3.
      eapply safe_bind; [apply safe_clear; eapply knows_spent_le; [exact Hs|by etrans]|done].
    + apply safe_then; [intros; apply frame_write_record|]. intros t1 Ht1.
      apply safe_then; [intros; apply frame_record_event|]. intros t2 Ht2.
      eapply safe_try_bind; [apply safe_frame; intros; apply frame_refl| |done]. intros t3 now Ht3 _.
      assert (Hw3 : working m job t3) by (eapply working_le; [exact Hw|do 2 (etrans; [eassumption|]); done]).
      eapply safe_try_bind; [apply (safe_requeue t3 _ _ m); [apply Hw3|]| |done].
      * intros Hmc. eexists. split; [apply job_json_roundtrip|]. by apply Hw3.
      * intros t4 u _ Hs. eapply safe_bind; [apply safe_clear; by apply Hs|done].
Qed.

Lemma safe_worker t cfg iso : safe t (process_next_job cfg iso) (fun _ _ => True).
Proof.
  unfold process_next_job.
  eapply safe_try_bind; [apply safe_frame; intros; apply frame_exchange; intros; apply frame_refl| |done].
  intros t1 u _ _. eapply safe_bind; [apply safe_reclaim|]. intros t2 u2 _ _.
  eapply safe_try_bind; [apply safe_frame; intros; apply frame_refl| |done]. intros t3 now _ _.
  eapply safe_try_bind; [apply safe_frame; intros; apply frame_reads| |done]. intros t4 results _ _.
  destruct results as [|json rest]; [eapply safe_bind; [apply safe_gauges|done]|].
  eapply safe_try_bind; [apply safe_claim| |done]. intros t5 [m|] _ Hm; [|done].
  destruct (Hm m eq_refl) as [Hmade [c Hsp]].
  destruct (job_from_json json) as [job|] eqn:Hj; [|done].
  assert (Hw : working m (bump_attempts job) t5).
  { split; [done|]. intros (c' & json' & Hsp' & j & Hj' & <-). cbn. congruence. }
  eapply safe_bind; [by apply (safe_deliver t5 m)|]. intros t6 outcome Ht6 Hout.
  eapply safe_try_bind; [eapply safe_finish; [by eapply working_le|exact Hout]| |done].
  intros t7 iso' _ _. eapply safe_bind; [apply safe_gauges|done].
Qed.

(** ** Many workers *)

Abbreviation Pool := (Server * list (Worker (bool * Isolation)))%type.

(** Workers start, make one request each at a time in any order, and can be
    killed between any two; other tasks queue jobs or do things that concern
    neither set. *)
Inductive pool_step : Pool -> Pool -> Prop :=
| PS_start cfg iso s ps : pool_step (s, ps) (s, ps ++ [process_next_job cfg iso])
| PS_run i k s ps : ps !! i = Some (Pause k) -> pool_step (s, ps) (snd (k s), <[i := fst (k s)]> ps)
| PS_kill i s ps : pool_step (s, ps) (s, delete i ps)
| PS_queue job s ps : pool_step (s, ps) (snd (queue_webhook job s), ps)
| PS_other s s' ps : queue_frame s s' -> pool_step (s, ps) (s', ps).

Definition pool_inv (x : Pool) : Prop :=
  exists g, queue_inv g x.1 /\ forall p, p ∈ x.2 -> exists t, ghost_le t g /\ safe t p (fun _ _ => True).

Lemma queue_webhook_inv g job s : queue_inv g s -> queue_inv g (snd (queue_webhook job s)).
Proof.
  intros Hinv. unfold queue_webhook, st_bind.
  pose proof (frame_exchange (WhRedis "connection refused") (st_ret tt) (fun s => frame_refl s) s) as Hf.
  fold connection in Hf. destruct (connection s) as [[[]|e] s1]; cbn in Hf |- *.
  2: by eapply queue_frame_inv.
  apply (queue_frame_inv g _ _ Hf), tick_inv in Hinv. unfold zadd_ready, exchange.
  destruct (calls _); cbn; [|done|by apply (ready_add_inv g (tick s1))].
  eapply queue_frame_inv; [apply frame_write_record|]. by apply (ready_add_inv g (tick s1)).
Qed.

Lemma pool_step_inv x y : pool_step x y -> pool_inv x -> pool_inv y.
Proof.
  intros Hstep (g & Hinv & Hps). destruct Hstep as [cfg iso s ps|i k s ps Hi|i s ps|job s ps|s s' ps Hf]; cbn [fst snd] in *.
  - exists g. split; [done|]. intros p [Hp|Hp]%elem_of_app; [by apply Hps|].
    apply list_elem_of_singleton in Hp as ->. exists g. split; [reflexivity|apply safe_worker].
  - destruct (Hps (Pause k)) as (t & Ht & Hs); [by eapply list_elem_of_lookup_2|]. cbn in Hs.
    specialize (Hs g s Ht Hinv). destruct (k s) as [p' s']. destruct Hs as (g' & Hle & Hinv' & Hs).
    exists g'. split; [done|]. intros p Hp. apply list_elem_of_lookup in Hp as [j Hj]. cbn [fst snd] in Hj.
    destruct (decide (i = j)) as [<-|Hne].
    + rewrite list_lookup_insert_eq in Hj by (by eapply lookup_lt_Some). injection Hj as <-.
      exists g'. split; [reflexivity|done].
    + rewrite list_lookup_insert_ne in Hj by done.
      destruct (Hps p) as (t' & Ht' & Hs'); [by eapply list_elem_of_lookup_2|].
      exists t'. split; [by etrans|done].
  - exists g. split; [done|]. intros p Hp. apply Hps.
    apply list_elem_of_lookup in Hp as [j Hj]. cbn [fst snd] in Hj. rewrite list_lookup_delete in Hj.
    destruct (decide _); by eapply list_elem_of_lookup_2.
  - exists g. split; [by apply queue_webhook_inv|done].
  - exists g. split; [by eapply queue_frame_inv|done].
Qed.

Lemma pool_steps_inv x y : rtc pool_step x y -> pool_inv x -> pool_inv y.
Proof. induction 1; eauto using pool_step_inv. Qed.

(** C2. However many workers run, however their requests interleave, whichever
    are lost on the way there or back, and wherever workers are killed: a job
    that was on the ready queue has been accepted by its endpoint, or logged as
    permanently failed, or is still on the ready queue or in the processing
    set, from where it is delivered or reclaimed. *)
Theorem webhook_job_never_lost s0 s ps :
  job_ready s0 -> sv_processing s0 = ∅ -> rtc pool_step (s0, []) (s, ps) ->
  job_settled s \/ job_ready s \/ job_claimed s.
Proof.
  intros Hr Hp Hrun.
  assert (Hinit : pool_inv (s0, [])).
  { exists (mkGhost ∅ ∅). split; [|by intros p Hin%not_elem_of_nil]. constructor; cbn; [auto| |set_solver].
    rewrite Hp, dom_empty_L. set_solver. }
  destruct (pool_steps_inv _ _ Hrun Hinit) as (g & [Hj _ _] & _). destruct Hj as [?|[?|(m & Hm & _ & Hc)]]; [auto..|].
  right. right. by exists m.
Qed.
End NeverLost.

(** * What a delivery attempt leads to

    The retry schedule of [server/src/services/webhook/job.rs] as the worker of
    [service.rs] applies it, the outcome of an attempt on every branch, and the
    rule that decides which permanent failures page an operator. *)

(** ** One attempt *)

Section Outcome.
Context `{Runtime} `{Formats} `{ApiTypes} `{!JobCodec} `{!HttpWorld}.

(** The delivery row an attempt leaves. *)
Definition delivery_row (job : WebhookJob) (status : WebhookDeliveryStatus) (e : option WebhookError)
  : DeliveryRow :=
  mkDeliveryRow (wj_store_webhook_id job) (payload_invoice_id (wj_payload job))
    (payload_event_type (wj_payload job)) status (u32_as_i32 (wj_attempts job)) (u32_as_i32 (wj_max_attempts job))
    ((fun e => truncate_error (webhook_error_to_string e) 500) <$> e).

(** Running alone while every request is answered. *)
Ltac answered Hup :=
  cbn; unfold st_bind, st_try, exchange; cbn; repeat (rewrite Hup; cbn).

Lemma retry_delay_spec job k :
  wj_attempts job = Z.of_nat k -> (1 <= k <= 6)%nat ->
  [60; 300; 1800; 7200; 43200; 86400] !! (k - 1)%nat = Some (retry_delay job).
Proof.
  intros Hk Hrange. unfold retry_delay. rewrite Hk.
  do 7 (destruct k as [|k]; [first [lia|done]|]). lia.
Qed.

(** The attempt numbered [k] of a job, with every request answered, ends in
    exactly one of three ways, and in each the claim is released.  Accepted:
    the delivery is recorded and nothing is queued.  Refused with [k] below
    seven: the job is back on the ready queue, due after 1 minute, 5 minutes,
    30 minutes, 2, 12 or 24 hours for [k] = 1 to 6, and no failure is logged.
    Refused at the seventh: nothing is queued and the failure is logged. *)
Theorem attempt_outcome_exact iso m job outcome s k :
  (forall n, calls n = Answered) -> wj_max_attempts job = 7 -> wj_attempts job = Z.of_nat k ->
  (1 <= k <= 7)%nat ->
  exists r s' iso', run_prog (finish_job iso m job outcome) s = (r, s') /\ r = Ok iso' /\
    sv_processing s' = delete m (sv_processing s) /\
    match outcome with
    | Ok _ => sv_ready s' = sv_ready s /\ sv_failed_log s' = sv_failed_log s /\
        sv_deliveries s' !! wj_id job = Some (upserted_row (delivery_row job DDelivered None) (sv_deliveries s !! wj_id job))
    | Err e =>
        if (k <? 7)%nat then
          exists n delay, [60; 300; 1800; 7200; 43200; 86400] !! (k - 1)%nat = Some delay /\
            (sv_ticks s <= n <= sv_ticks s')%nat /\
            let next := clock n + seconds delay in
            sv_ready s' = <[job_to_json (reschedule next job) := timestamp next]> (sv_ready s) /\
            sv_failed_log s' = sv_failed_log s /\
            sv_deliveries s' !! wj_id job = Some (upserted_row (delivery_row job DRetrying (Some e)) (sv_deliveries s !! wj_id job))
        else
          exists paged, sv_ready s' = sv_ready s /\
            (wj_id job, paged) ∈ sv_failed_log s' /\
            sv_deliveries s' !! wj_id job = Some (upserted_row (delivery_row job DFailed (Some e)) (sv_deliveries s !! wj_id job))
    end.
Proof.
  intros Hup Hmax Hk Hrange.
  assert (Hex : is_exhausted job = negb (k <? 7)%nat).
  { unfold is_exhausted. rewrite Hmax, Hk. destruct (Nat.ltb_spec k 7); cbn [negb]; lia. }
  unfold finish_job, clear_processing, try_bind, redis, zadd_ready, write_delivery_record, record_delivery_event.
  rewrite Hex. destruct outcome as [[]|e].
  - do 3 eexists. split; [answered Hup; reflexivity|]. cbn. by rewrite lookup_insert_eq.
  - destruct (Nat.ltb_spec k 7) as [Hlt|Hge]; cbn [negb].
    + do 3 eexists. split; [answered Hup; reflexivity|]. cbn. repeat split.
      do 2 eexists. split; [apply (retry_delay_spec job k); [done|lia]|].
      split; [|repeat split]; [cbn; lia|]. by rewrite lookup_insert_eq.
    + destruct (log_permanent_failure job e iso) as [paged iso'].
      do 3 eexists. split; [answered Hup; reflexivity|]. cbn. repeat split.
      exists paged. split; [done|]. split; [set_solver|]. by rewrite lookup_insert_eq.
Qed.
End Outcome.

(** ** Which failures page *)

(** Whether each of a sequence of merchant-unreachable failures is demoted. *)
Fixpoint demotions (st : Isolation) (ids : list Uuid) : list bool :=
  match ids with
  | [] => []
  | id :: ids' => let '(demoted, st') := record_unreachable_and_check_isolated id st in
                  demoted :: demotions st' ids'
  end.

Fixpoint isolation_after (st : Isolation) (ids : list Uuid) : Isolation :=
  match ids with
  | [] => st
  | id :: ids' => isolation_after (snd (record_unreachable_and_check_isolated id st)) ids'
  end.

Lemma demotions_app st ids ids' :
  demotions st (ids ++ ids') = demotions st ids ++ demotions (isolation_after st ids) ids'.
Proof.
  revert st. induction ids as [|id ids IH]; intros st; [done|]. cbn.
  destruct (record_unreachable_and_check_isolated id st) as [b st'] eqn:Hr. cbn. by rewrite IH.
Qed.

Lemma length_demotions st ids : length (demotions st ids) = length ids.
Proof.
  revert st. induction ids as [|id ids IH]; intros st; [done|]. cbn.
  destruct (record_unreachable_and_check_isolated id st) as [b st']. cbn. by rewrite IH.
Qed.

Lemma isolation_after_app st ids ids' :
  isolation_after st (ids ++ ids') = isolation_after (isolation_after st ids) ids'.
Proof. revert st. induction ids as [|id ids IH]; intros st; [done|]. cbn. apply IH. Qed.

(** One failure, described. *)
Lemma record_unreachable_spec id st demoted st' :
  record_unreachable_and_check_isolated id st = (demoted, st') ->
  is_recent st' = drop (length (is_recent st ++ [id]) - 8) (is_recent st ++ [id]) /\
  (demoted = true -> is_streak st < 5 /\ is_streak st' = is_streak st + 1 /\
     recent_unreachable_are_one_merchant (is_recent st') = true) /\
  (demoted = false -> is_streak st' = 0).
Proof.
  unfold record_unreachable_and_check_isolated. intros Hr.
  destruct (recent_unreachable_are_one_merchant _ && _) eqn:Hb; injection Hr as <- <-; [|done].
  apply andb_true_iff in Hb as [Hone Hlt%Z.ltb_lt]. by unfold MAX_CONSECUTIVE_DEMOTIONS in Hlt.
Qed.

(** The window holds the last eight failures. *)
Lemma recent_after ids :
  is_recent (isolation_after (mkIsolation [] 0) ids) = drop (length ids - 8) ids.
Proof.
  induction ids as [|id ids IH] using rev_ind; [done|]. rewrite isolation_after_app. cbn.
  destruct (record_unreachable_and_check_isolated id _) as [b st'] eqn:Hr.
  apply record_unreachable_spec in Hr as [Hrec _]. cbn [snd]. rewrite Hrec, IH.
  rewrite !length_app, length_drop, drop_app. cbn [length].
  rewrite drop_drop. rewrite length_drop. rewrite drop_app.
  f_equal; f_equal; lia.
Qed.

Lemma streak_range st ids : 0 <= is_streak st -> 0 <= is_streak (isolation_after st ids).
Proof.
  revert st. induction ids as [|id ids IH]; intros st Hst; [done|]. cbn. apply IH.
  destruct (record_unreachable_and_check_isolated id st) as [[] st'] eqn:Hr;
    apply record_unreachable_spec in Hr as (_ & Hd & Hp); cbn [snd]; [|by rewrite Hp].
  destruct (Hd eq_refl) as (_ & -> & _). lia.
Qed.

Lemma streak_bound st ids : is_streak st <= 5 -> is_streak (isolation_after st ids) <= 5.
Proof.
  revert st. induction ids as [|id ids IH]; intros st Hst; [done|]. cbn. apply IH.
  destruct (record_unreachable_and_check_isolated id st) as [[] st'] eqn:Hr;
    apply record_unreachable_spec in Hr as (_ & Hd & Hp); cbn [snd]; [|by rewrite Hp].
  destruct (Hd eq_refl) as (? & -> & _). lia.
Qed.

(** A run of demotions is as long as the streak allows. *)
Lemma demotion_run st ids :
  0 <= is_streak st -> Forall (eq true) (demotions st ids) -> is_streak st <= 5 -> is_streak st + Z.of_nat (length ids) <= 5.
Proof.
  revert st. induction ids as [|id ids IH]; intros st Hst Hall H5; cbn in *; [lia|].
  destruct (record_unreachable_and_check_isolated id st) as [b st'] eqn:Hr.
  apply Forall_cons in Hall as [<- Hall]. apply record_unreachable_spec in Hr as (_ & Hd & _).
  destruct (Hd eq_refl) as (Hlt & Hs & _). specialize (IH st' ltac:(lia) Hall ltac:(lia)). lia.
Qed.

Lemma one_merchant_spec recent a :
  recent_unreachable_are_one_merchant recent = true -> last recent = Some a -> Forall (eq a) recent.
Proof.
  unfold recent_unreachable_are_one_merchant. intros Hone Hl. rewrite Hl in Hone.
  apply Forall_forall. intros b Hb%list_elem_of_In.
  by apply (proj1 (forallb_forall _ _) Hone), Z.eqb_eq in Hb.
Qed.

(** A demoted failure and the window it closes. *)
Lemma demoted_window ids i :
  demotions (mkIsolation [] 0) ids !! i = Some true ->
  recent_unreachable_are_one_merchant (drop (S i - 8) (take (S i) ids)) = true.
Proof.
  intros Hi. assert (Hlen : (i < length ids)%nat).
  { apply lookup_lt_Some in Hi. by rewrite length_demotions in Hi. }
  destruct (lookup_lt_is_Some_2 ids i Hlen) as [a Ha].
  assert (Htk : take (S i) ids = take i ids ++ [a]) by by apply take_S_r.
  rewrite <- (take_drop (S i) ids), Htk in Hi. rewrite <- app_assoc, demotions_app in Hi.
  rewrite lookup_app_r in Hi by (rewrite length_demotions, length_take; lia).
  rewrite length_demotions, length_take, Nat.min_l, Nat.sub_diag in Hi by lia. cbn in Hi.
  pose proof (recent_after (take (S i) ids)) as Hrec. rewrite length_take, Nat.min_l in Hrec by lia.
  rewrite <- Hrec, Htk, isolation_after_app. cbn.
  destruct (record_unreachable_and_check_isolated a _) as [b st'] eqn:Hr. cbn in Hi |- *. injection Hi as ->.
  apply record_unreachable_spec in Hr as (_ & Hd & _). by apply Hd.
Qed.

(** A merchant whose endpoint is down does not page for every delivery, and
    cannot hide an outage of our own: among any six consecutive permanent
    failures to reach an endpoint at least one pages, a failure is only demoted
    when every one of the last eight was the same merchant's, and the first
    failure of a quiet system is demoted. *)
Theorem unreachable_paging ids :
  let demoted := demotions (mkIsolation [] 0) ids in
  (forall i, (i + 6 <= length ids)%nat -> exists j, (i <= j < i + 6)%nat /\ demoted !! j = Some false) /\
  (forall i j a b, demoted !! i = Some true -> (j <= i < j + 8)%nat ->
     ids !! i = Some a -> ids !! j = Some b -> a = b) /\
  (ids <> [] -> demoted !! 0%nat = Some true).
Proof.
  intros demoted. split; [|split].
  - intros i Hi. destruct (decide (Forall (eq true) (take 6 (drop i demoted)))) as [Hall|Hno].
    + exfalso. unfold demoted in Hall. rewrite <- (take_drop i ids), demotions_app in Hall.
      rewrite drop_app_length' in Hall by (rewrite length_demotions, length_take; lia).
      rewrite <- (take_drop 6 (drop i ids)), demotions_app in Hall.
      rewrite take_app_length' in Hall by (rewrite length_demotions, length_take, length_drop; lia).
      set (st := isolation_after (mkIsolation [] 0) (take i ids)) in Hall.
      assert (H0 : 0 <= is_streak st) by by apply streak_range.
      pose proof (streak_bound (mkIsolation [] 0) (take i ids)) as H5.
      pose proof (demotion_run st _ H0 Hall ltac:(apply H5; cbn; lia)) as Hrun.
      rewrite length_take, length_drop in Hrun. lia.
    + apply not_Forall_Exists in Hno; [|apply _]. apply Exists_exists in Hno as ([] & Hin & Hb); [done|].
      apply list_elem_of_lookup in Hin as [j Hj]. exists (i + j)%nat.
      assert (Hj6 : (j < 6)%nat) by (apply lookup_lt_Some in Hj; rewrite length_take in Hj; lia).
      split; [lia|]. by rewrite lookup_take_lt, lookup_drop in Hj.
  - intros i j a b Hd Hij Ha Hb. pose proof (demoted_window _ _ Hd) as Hone.
    assert (Hlast : last (drop (S i - 8) (take (S i) ids)) = Some a).
    { rewrite (take_S_r _ _ _ Ha), drop_app_le by (rewrite length_take; apply lookup_lt_Some in Ha; lia).
      apply last_snoc. }
    pose proof (one_merchant_spec _ _ Hone Hlast) as Hall.
    apply (Forall_lookup_1 _ _ (j - (S i - 8)) b) in Hall; [done|].
    rewrite lookup_drop, lookup_take_lt by lia. rewrite <- Hb. f_equal. lia.
  - intros Hne. destruct ids as [|id ids]; [done|]. unfold demoted. cbn [demotions].
    unfold record_unreachable_and_check_isolated, recent_unreachable_are_one_merchant. cbn -[Z.eqb].
    by rewrite Z.eqb_refl.
Qed.
