(* ===== verification/OutboxDrain.v ===== *)
(** * Draining the webhook outbox

    [server/src/services/webhook_outbox_drain.rs] with the claim and mark
    statements of [data-service/src/postgres/webhook_outbox.rs]: obligations
    recorded with a payment are turned into queued webhooks. *)

From stdpp Require Import gmap strings list sorting.
From Stdlib Require Import ZArith Lia.
From S2P Require Import Prelude Events Network Decimal Database DatabaseFacts Services.

Record WebhookOutboxDrainConfig := mkDrainConfig {
  dc_poll_interval : Z;
  dc_batch_size : Z;
  dc_claim_visibility : Z
}.

(** [WebhookOutboxDrainConfig::default], in seconds *)
Definition default_drain_config : WebhookOutboxDrainConfig := mkDrainConfig 5 100 30.

(** [WebhookOutboxDrainConfig::from_env] *)
Definition drain_config_from_env (var : string -> option string) : WebhookOutboxDrainConfig :=
  mkDrainConfig
    (default 5 (v ← var "WEBHOOK_OUTBOX_DRAIN_INTERVAL_SECS"%string; parse_u64 v))
    (default 100 (v ← var "WEBHOOK_OUTBOX_DRAIN_BATCH_SIZE"%string; parse_i64 v))
    (default 30 (v ← var "WEBHOOK_OUTBOX_CLAIM_VISIBILITY_SECS"%string; parse_u64 v)).

Record WebhookObligation := mkObligation {
  wo_id : Uuid;
  wo_payment_id : Uuid;
  wo_invoice_id : string;
  wo_event_type : string;
  wo_created_at : Instant
}.

(** ** Statements *)

Definition set_claimed (until : Instant) (o : ObligationRow) : ObligationRow :=
  mkObligationRow (ob_id o) (ob_invoice_id o) (ob_created_at o) (ob_dispatched_at o) (Some until).
Definition set_dispatched (at_ : Instant) (o : ObligationRow) : ObligationRow :=
  mkObligationRow (ob_id o) (ob_invoice_id o) (ob_created_at o) (Some at_) (ob_claimed_until o).

Definition claimable (now : Instant) (o : ObligationRow) : bool :=
  option_is_none (ob_dispatched_at o)
    && match ob_claimed_until o with None => true | Some until => until <? now end.

Definition older (a b : (Z * string) * ObligationRow) : Prop := ob_created_at a.2 <= ob_created_at b.2.
#[export] Instance older_dec : RelDecision older.
Proof. intros a b. unfold older. apply _. Defined.

(** [claim_undispatched_obligations]: pick the oldest claimable rows and stamp
    them, in one statement. *)
Definition claim_undispatched_obligations (limit visibility_secs : Z) : Statement (list WebhookObligation) :=
  fun now d =>
    let picked := take (Z.to_nat limit)
      (List.filter (fun ko : (Z * string) * ObligationRow => claimable now ko.2)
         (merge_sort older (map_to_list (db_outbox d)))) in
    let ids := (fun ko : (Z * string) * ObligationRow => ob_id ko.2) <$> picked in
    (Ok ((fun ko : (Z * string) * ObligationRow =>
            mkObligation (ob_id ko.2) ko.1.1 (ob_invoice_id ko.2) ko.1.2 (ob_created_at ko.2)) <$> picked),
     db_set_outbox ((fun o => if bool_decide (ob_id o ∈ ids)
                              then set_claimed (now + seconds visibility_secs) o else o) <$> db_outbox d) d).

(** [mark_obligation_dispatched] *)
Definition mark_obligation_dispatched (id : Uuid) : Statement unit :=
  fun now d =>
    (Ok tt, db_set_outbox ((fun o => if ob_id o =? id then set_dispatched now o else o) <$> db_outbox d) d).

(** ** The service *)

Inductive Lookup (T : Type) : Type := LFound (t : T) | LGiveUp | LRetry.
Arguments LFound {T} t.
Arguments LGiveUp {T}.
Arguments LRetry {T}.

Section Drain.
Context `{Runtime} `{Numeric} `{Formats} `{ApiTypes} `{!JobCodec}.

(** [mark_dispatched] *)
Definition mark_dispatched {E} (id : Uuid) : M E unit :=
  do* st_try (db (mark_obligation_dispatched id));
  st_ret tt.

(** [load_invoice] *)
Definition load_invoice {E} (o : WebhookObligation) : M E (Lookup InvoiceData) :=
  let* r := st_try (db (invoice_get (wo_invoice_id o))) in
  match r with
  | Ok (Some invoice) => st_ret (LFound invoice)
  | Ok None => st_ret LGiveUp
  | Err _ => st_ret LRetry
  end.

(** [load_payment] *)
Definition load_payment {E} (o : WebhookObligation) : M E (Lookup PaymentData) :=
  let* r := st_try (db (payment_get (wo_payment_id o))) in
  match r with
  | Ok (Some payment) => st_ret (LFound payment)
  | Ok None => st_ret LGiveUp
  | Err _ => st_ret LRetry
  end.

(** [load_obligation_subject] *)
Definition load_obligation_subject {E} (o : WebhookObligation) : M E (Lookup (InvoiceData * PaymentData)) :=
  let* invoice := load_invoice o in
  match invoice with
  | LGiveUp => st_ret LGiveUp
  | LRetry => st_ret LRetry
  | LFound invoice =>
      let* payment := load_payment o in
      match payment with
      | LGiveUp => st_ret LGiveUp
      | LRetry => st_ret LRetry
      | LFound payment =>
          if pda_reorged payment then st_ret LGiveUp else st_ret (LFound (invoice, payment))
      end
  end.

(** [dispatch_obligation] *)
Definition dispatch_obligation {E} (o : WebhookObligation) : M E unit :=
  match event_type_of_str (wo_event_type o) with
  | None => mark_dispatched (wo_id o)
  | Some event_type =>
      let* subject := load_obligation_subject o in
      match subject with
      | LGiveUp => mark_dispatched (wo_id o)
      | LRetry => st_ret tt
      | LFound (invoice, payment) =>
          let* t := st_gets sv_ticks in
          let* outcome := queue_for_store (id_store_id invoice) (payment_event t event_type invoice payment) in
          match outcome with
          | Queued | Skipped => mark_dispatched (wo_id o)
          | QueueFailed => st_ret tt
          end
      end
  end.

(** [drain_once] *)
Definition drain_once {E} (cfg : WebhookOutboxDrainConfig) : M E unit :=
  let* r := st_try (db (claim_undispatched_obligations (dc_batch_size cfg) (u64_as_i64 (dc_claim_visibility cfg)))) in
  match r with
  | Err _ => st_ret tt
  | Ok obligations => st_for obligations dispatch_obligation
  end.
End Drain.

(** ** An obligation is kept until it is due *)

Section DrainFacts.
Context `{Runtime} `{Numeric} `{Formats} `{ApiTypes} `{!JobCodec}.

(** The store turned the event off, or has no enabled webhook. *)
Definition unwanted (d : Db) (store_id : Uuid) (event_key : string) : Prop :=
  (exists prefs, db_settings d !! store_id = Some prefs /\
     json_is_false (x ← json_get event_key prefs; json_get "webhook" x) = true) \/
  (w ← db_webhooks d !! store_id; if sw_enabled w then Some w else None) = None.

(** A job that delivers the payload to the store's webhook is on the queue. *)
Definition enqueued (d : Db) (ready : gmap string Z) (store_id : Uuid) (payload : WebhookPayload) : Prop :=
  exists w job, db_webhooks d !! store_id = Some w /\ sw_enabled w = true /\
    job_to_json job ∈ dom ready /\ wj_payload job = payload /\ wj_store_webhook_id job = sw_id w /\
    wj_webhook_url job = sw_url w.

Lemma db_select_ok {A} (f : Db -> A) s a s' :
  db (select f) s = (Ok a, s') -> a = f (sv_db s) /\ sv_db s' = sv_db s.
Proof. unfold db, exchange. destruct (calls _); cbn; intros [= <- <-]; done. Qed.

Lemma db_select_db {A} (f : Db -> A) s r s' : db (select f) s = (r, s') -> sv_db s' = sv_db s.
Proof. unfold db, exchange. destruct (calls _); cbn; intros [= <- <-]; done. Qed.

Lemma keeps_db {E A} (m : M E A) s r s' :
  preserves (on_db (eq (sv_db s))) m -> m s = (r, s') -> sv_db s' = sv_db s.
Proof. intros Hm Hs. specialize (Hm s eq_refl). rewrite Hs in Hm. by symmetry. Qed.

Lemma queue_webhook_ready job s s' :
  queue_webhook job s = (Ok tt, s') -> job_to_json job ∈ dom (sv_ready s').
Proof.
  intros Hq. unfold queue_webhook in Hq. inv_ok Hq as u s1 Ha Hb. inv_ok Hb as u2 s2 Hc Hd.
  unfold zadd_ready, exchange in Hc. destruct (calls _); cbn in Hc; [|discriminate..].
  injection Hc as _ <-. unfold write_delivery_record, st_bind, st_try, exchange in Hd.
  destruct (calls _); cbn in Hd; injection Hd as <-; cbn; rewrite dom_insert_L; set_solver.
Qed.

Lemma queue_for_store_spec {E} store payload s outcome s' :
  queue_for_store (E := E) store payload s = (Ok outcome, s') ->
  sv_db s' = sv_db s /\
  match outcome with
  | Queued => enqueued (sv_db s) (sv_ready s') store payload
  | Skipped => unwanted (sv_db s) store (payload_event_type payload)
  | QueueFailed => True
  end.
Proof.
  intros Hq. split; [eapply keeps_db; [|exact Hq]; apply queue_for_store_keeps|].
  unfold queue_for_store in Hq. inv_ok Hq as sup s1 Ha Hb.
  assert (Hs1 : sv_db s1 = sv_db s) by (eapply keeps_db; [apply suppressed_by_prefs_keeps|exact Ha]).
  destruct sup.
  { injection Hb as <- _. left. unfold suppressed_by_prefs in Ha. inv_ok Ha as r s2 Hc Hd.
    unfold st_try in Hc. destruct (db _ s) as [[[prefs|]|e] s3] eqn:Hdb; injection Hc as <- <-; try discriminate.
    apply db_select_ok in Hdb as [Hp _]. injection Hd as Hd _. by exists prefs. }
  inv_ok Hb as cfg s2 Hc Hd. unfold st_try in Hc. destruct (db _ s1) as [rc s3] eqn:Hdb.
  injection Hc as <- <-. destruct rc as [[w|]|e]; [| |by injection Hd as <- _].
  2:{ injection Hd as <- _. right. apply db_select_ok in Hdb as [Hn _]. rewrite <- Hs1. by symmetry. }
  apply db_select_ok in Hdb as [Hw _]. rewrite Hs1 in Hw.
  inv_ok Hd as id s4 He Hf. inv_ok Hf as now s5 Hg Hh. inv_ok Hh as rq s6 Hi Hj.
  unfold st_try in Hi. destruct (queue_webhook _ s5) as [r s7] eqn:Hqw. injection Hi as <- <-.
  destruct r as [[]|e]; injection Hj as <- <-; [|done].
  symmetry in Hw. apply bind_Some in Hw as (w0 & Hlook & Hen). destruct (sw_enabled w0) eqn:Hen0; [|discriminate].
  injection Hen as ->. apply queue_webhook_ready in Hqw. exists w. eexists. split; [done|]. split; [done|].
  split; [exact Hqw|]. done.
Qed.

(** Why an obligation may be marked dispatched. *)
Inductive due (o : WebhookObligation) (d : Db) (ready : gmap string Z) : Prop :=
| due_unknown_event : event_type_of_str (wo_event_type o) = None -> due o d ready
| due_no_invoice : db_invoices d !! wo_invoice_id o = None -> due o d ready
| due_no_payment :
    (forall k r, db_payments d !! k = Some r -> pay_id r <> wo_payment_id o) -> due o d ready
| due_reorged k r :
    db_payments d !! k = Some r -> pay_id r = wo_payment_id o -> pay_reorged r = true -> due o d ready
| due_sent ev row k r t :
    event_type_of_str (wo_event_type o) = Some ev ->
    db_invoices d !! wo_invoice_id o = Some row ->
    db_payments d !! k = Some r -> pay_id r = wo_payment_id o -> pay_reorged r = false ->
    let payload := payment_event t ev (row_to_invoice (wo_invoice_id o) row) (row_to_payment k r) in
    unwanted d (inv_store_id row) (payload_event_type payload) \/
      enqueued d ready (inv_store_id row) payload ->
    due o d ready.

Lemma payment_get_spec id s r s' :
  db (payment_get id) s = (Ok r, s') ->
  sv_db s' = sv_db s /\
  match r with
  | Some p => exists k row, db_payments (sv_db s) !! k = Some row /\ pay_id row = id /\ p = row_to_payment k row
  | None => forall k row, db_payments (sv_db s) !! k = Some row -> pay_id row <> id
  end.
Proof.
  intros Hg. apply db_select_ok in Hg as [-> Hs]. split; [done|].
  destruct (payments_where (fun _ r => pay_id r =? id) (sv_db s)) as [|[k row] l] eqn:Hw; cbn.
  - intros k row Hk Hid. assert (Hin : (k, row) ∈ payments_where (fun _ r => pay_id r =? id) (sv_db s))
      by (apply payments_where_spec; split; [done|by apply Z.eqb_eq]).
    rewrite Hw in Hin. by apply not_elem_of_nil in Hin.
  - assert (Hin : (k, row) ∈ payments_where (fun _ r => pay_id r =? id) (sv_db s)) by (rewrite Hw; left).
    apply payments_where_spec in Hin as [Hk Hid]. exists k, row. split; [done|]. split; [by apply Z.eqb_eq|done].
Qed.

Lemma mark_dispatched_outbox {E} id s r s' key :
  mark_dispatched (E := E) id s = (r, s') ->
  db_outbox (sv_db s') !! key = db_outbox (sv_db s) !! key \/
  exists row, db_outbox (sv_db s) !! key = Some row /\ ob_id row = id.
Proof.
  unfold mark_dispatched, st_bind, st_try, db, exchange. intros Hm.
  assert (Hcase : forall now, (((fun o => if ob_id o =? id then set_dispatched now o else o)
      <$> db_outbox (sv_db s)) !! key = db_outbox (sv_db s) !! key) \/
    exists row, db_outbox (sv_db s) !! key = Some row /\ ob_id row = id).
  { intros now. rewrite lookup_fmap. destruct (db_outbox (sv_db s) !! key) as [row|] eqn:Hk; [|by left].
    cbn. destruct (Z.eqb_spec (ob_id row) id) as [<-|]; [right; eauto|by left]. }
  destruct (calls _); cbn in Hm; injection Hm as <- <-; cbn; auto.
Qed.

(** An obligation is only ever marked dispatched when it is due: its event
    type is unknown, its invoice or payment no longer exists, the payment was
    reorged out, the store does not want the event, or a job carrying exactly
    this payment to the store's webhook is on the ready queue.  In every other
    case, a failed lookup or a queue that could not be reached, it stays for
    the next pass. *)
Theorem obligation_kept_until_due {E} o s r s' key row row' :
  dispatch_obligation (E := E) o s = (r, s') ->
  db_outbox (sv_db s) !! key = Some row -> ob_dispatched_at row = None ->
  db_outbox (sv_db s') !! key = Some row' -> ob_dispatched_at row' <> None ->
  ob_id row = wo_id o /\ due o (sv_db s) (sv_ready s').
Proof.
  intros Hd Hrow Hnone Hrow' Hsome.
  (* marking at [s1] is the only way *)
  assert (Hmark : forall s1 r1 s2, sv_db s1 = sv_db s -> mark_dispatched (E := E) (wo_id o) s1 = (r1, s2) ->
    db_outbox (sv_db s2) !! key = Some row' -> ob_id row = wo_id o).
  { intros s1 r1 s2 Hs1 Hm Hk. apply (mark_dispatched_outbox _ _ _ _ key) in Hm as [He|(row1 & He & Hid)];
      rewrite Hs1 in He; congruence. }
  assert (Hsame : forall s1, sv_db s1 = sv_db s -> db_outbox (sv_db s1) !! key = Some row' -> False).
  { intros s1 Hs1 Hk. rewrite Hs1 in Hk. congruence. }
  unfold dispatch_obligation in Hd.
  destruct (event_type_of_str (wo_event_type o)) as [ev|] eqn:Hev.
  2:{ split; [by eapply Hmark|]. by apply due_unknown_event. }
  unfold load_obligation_subject, load_invoice, load_payment, st_bind, st_try in Hd.
  destruct (db (invoice_get (wo_invoice_id o)) s) as [ri s1] eqn:Hinv.
  pose proof (db_select_db _ _ _ _ Hinv) as Hs1.
  destruct ri as [[inv|]|e]; cbn in Hd; [| |exfalso; injection Hd as _ <-; by eapply Hsame].
  2:{ split; [by eapply Hmark|]. apply db_select_ok in Hinv as [Hn _].
      apply due_no_invoice. by destruct (db_invoices (sv_db s) !! _). }
  apply db_select_ok in Hinv as [Hinv _]. symmetry in Hinv. apply fmap_Some in Hinv as (irow & Hirow & ->).
  destruct (db (payment_get (wo_payment_id o)) s1) as [rp s2] eqn:Hpay.
  pose proof (db_select_db _ _ _ _ Hpay) as Hs2. rewrite Hs1 in Hs2.
  destruct rp as [rp|e]; cbn in Hd; [|exfalso; injection Hd as _ <-; by eapply Hsame].
  apply payment_get_spec in Hpay as [_ Hpay]. rewrite Hs1 in Hpay. destruct rp as [p|]; cbn in Hd.
  2:{ split; [by eapply Hmark|]. by apply due_no_payment. }
  destruct Hpay as (k & prow & Hk & Hid & ->). cbn in Hd. destruct (pay_reorged prow) eqn:Hre; cbn in Hd.
  { split; [by eapply Hmark|]. by eapply due_reorged. }
  destruct (queue_for_store _ _ s2) as [rq s3] eqn:Hq.
  destruct rq as [outcome|e].
  2:{ exfalso. injection Hd as _ <-. eapply Hsame; [|exact Hrow'].
      rewrite <- Hs2. eapply keeps_db; [apply queue_for_store_keeps|exact Hq]. }
  apply queue_for_store_spec in Hq as [Hs3 Hq]. rewrite Hs2 in Hs3, Hq.
  destruct outcome; [| |exfalso; injection Hd as _ <-; eapply Hsame; [exact Hs3|exact Hrow']].
  - split; [exact (Hmark s3 _ _ Hs3 Hd Hrow')|]. eapply due_sent; eauto. right.
    assert (Hr : sv_ready s' = sv_ready s3).
    { revert Hd. unfold mark_dispatched, st_bind, st_try, db, exchange.
      destruct (calls _); cbn; intros [= _ <-]; done. }
    rewrite Hr. exact Hq.
  - split; [exact (Hmark s3 _ _ Hs3 Hd Hrow')|]. eapply due_sent; eauto.
Qed.
End DrainFacts.
