(* ===== verification/LiveWatch.v ===== *)
(** * The watched addresses kept in Redis

    [data-service/src/redis/watched_address.rs]: the monitor's own record of
    what it watches, one key per chain, address and token whose value is the
    invoice.  The keyspace is a map of strings; [SCAN] is Redis's and comes as a
    parameter.  Every request goes through the schedule of [Runtime]. *)

From stdpp Require Import gmap strings list.
From Stdlib Require Import ZArith Lia Ascii.
From S2P Require Import Prelude Events Network Decimal Database Services.

(** ** Text *)

Definition colon : ascii := ascii_of_nat 58.

(** [key.split(':').collect()] *)
Fixpoint split_colon (s : string) : list string :=
  match s with
  | EmptyString => [EmptyString]
  | String a rest =>
      if Ascii.eqb a colon then EmptyString :: split_colon rest
      else match split_colon rest with
           | part :: parts => String a part :: parts
           | [] => [String a EmptyString]
           end
  end.

(** ** Keys *)

Definition KEY_PREFIX : string := "evmwatch:addr".
Definition NATIVE_TOKEN : string := "native".

(** [RedisDataService::watched_address_key] *)
Definition watched_address_key (chain_id : Z) (address : string) (token_address : option string) : string :=
  let token := default NATIVE_TOKEN token_address in
  KEY_PREFIX +:+ ":" +:+ z_to_string chain_id +:+ ":" +:+ to_lowercase address +:+ ":" +:+ to_lowercase token.

(** [RedisDataService::parse_watched_address_key] *)
Definition parse_watched_address_key (key : string) : option (Z * string * option string) :=
  match split_colon key with
  | [p0; p1; p2; p3; p4] =>
      if negb (String.eqb p0 "evmwatch") || negb (String.eqb p1 "addr") then None
      else
        chain_id ← parse_u64 p2;
        let address := p3 in
        let token := if String.eqb p4 NATIVE_TOKEN then None else Some p4 in
        Some (chain_id, address, token)
  | _ => None
  end.

(** ** Redis *)

(** The keyspace the monitor's process shares, the events its bridge has put on
    the stream, and the requests made so far. *)
Record Redis := mkRedis {
  rd_keys : gmap string string;
  rd_stream : list MonitorEvent;
  rd_ticks : nat
}.

Definition rd_set_keys (k : gmap string string) (r : Redis) : Redis := mkRedis k (rd_stream r) (rd_ticks r).
Definition rd_append (e : MonitorEvent) (r : Redis) : Redis :=
  mkRedis (rd_keys r) (rd_stream r ++ [e]) (rd_ticks r).
Definition rd_tick (r : Redis) : Redis := mkRedis (rd_keys r) (rd_stream r) (S (rd_ticks r)).

(** [SCAN cursor MATCH pattern COUNT 100]: the next cursor and some keys; a
    cursor of 0 starts and ends an iteration, which takes [scan_replies]
    replies. *)
Class RedisScan := {
  redis_scan : gmap string string -> string -> Z -> Z * list string;
  scan_replies : gmap string string -> string -> nat
}.

Section Redis.
Context `{Runtime} `{RedisScan} `{Formats}.

Definition redis_request {E A} (fault : E) (op : Redis -> A * Redis) : St Redis E A :=
  fun r =>
    let r1 := rd_tick r in
    match calls (rd_ticks r) with
    | Answered => let '(a, r2) := op r1 in (Ok a, r2)
    | NotSent => (Err fault, r1)
    | ReplyLost => (Err fault, snd (op r1))
    end.

Definition redis_get (key : string) : St Redis RepositoryError (option string) :=
  redis_request (Database "redis get failed") (fun r => (rd_keys r !! key, r)).

Definition not_evm {A} (chain_id : string) : St Redis RepositoryError A :=
  st_throw (InvalidRow (chain_id +:+ " is not an EVM chain; the EVM monitor cannot watch it")).

(** [LiveWatchedAddressReader::get_watched_invoice] *)
Definition get_watched_invoice (address chain_id : string) (token_address : option string)
  : St Redis RepositoryError (option string) :=
  match evm_chain_id chain_id with
  | None => not_evm chain_id
  | Some eip155 => redis_get (watched_address_key eip155 address token_address)
  end.

(** The keys of one [SCAN] reply: each is read, and parsed if it has a value. *)
Definition read_scanned (result : list (string * string * string * option string)) (key : string)
  : St Redis RepositoryError (list (string * string * string * option string)) :=
  let* value := redis_get key in
  st_ret (match value with
          | Some invoice_id =>
              match parse_watched_address_key key with
              | Some (chain_id, address, token) =>
                  result ++ [(address, invoice_id, chain_id_evm chain_id, token)]
              | None => result
              end
          | None => result
          end).

(** The [loop] over [SCAN] replies. *)
Fixpoint scan_loop (fuel : nat) (pattern : string) (cursor : Z)
    (result : list (string * string * string * option string))
  : St Redis RepositoryError (list (string * string * string * option string)) :=
  match fuel with
  | O => st_throw (Database "scan loop out of fuel")
  | S fuel' =>
      let* (new_cursor, keys) :=
        redis_request (Database "redis scan failed") (fun r => (redis_scan (rd_keys r) pattern cursor, r)) in
      let* result := st_fold read_scanned result keys in
      if new_cursor =? 0 then st_ret result else scan_loop fuel' pattern new_cursor result
  end.

(** [LiveWatchedAddressReader::get_all_watched] *)
Definition get_all_watched
  : St Redis RepositoryError (list (string * string * string * option string)) :=
  let pattern := KEY_PREFIX +:+ ":*" in
  let* keys := st_gets rd_keys in
  scan_loop (scan_replies keys pattern) pattern 0 [].

(** [LiveWatchedAddressWriter::watch_address] *)
Definition watch_address (address invoice_id chain_id : string) (token_address : option string)
  : St Redis RepositoryError unit :=
  match evm_chain_id chain_id with
  | None => not_evm chain_id
  | Some eip155 =>
      let key := watched_address_key eip155 address token_address in
      redis_request (Database "redis set failed") (fun r => (tt, rd_set_keys (<[key := invoice_id]> (rd_keys r)) r))
  end.

(** [LiveWatchedAddressWriter::unwatch_address] *)
Definition unwatch_address (address chain_id : string) (token_address : option string)
  : St Redis RepositoryError bool :=
  match evm_chain_id chain_id with
  | None => not_evm chain_id
  | Some eip155 =>
      let key := watched_address_key eip155 address token_address in
      redis_request (Database "redis del failed") (fun r =>
        (option_is_some (rd_keys r !! key), rd_set_keys (delete key (rd_keys r)) r))
  end.
End Redis.

(** What Redis documents of a full iteration: it ends, and it returns every
    matching key that is there throughout (perhaps more than once) and no key
    that is not there.  The pattern of the code is a prefix and a star. *)
Fixpoint scan_keys `{RedisScan} (fuel : nat) (keys : gmap string string) (pattern : string) (cursor : Z)
  : option (list string) :=
  match fuel with
  | O => None
  | S fuel' =>
      let '(new_cursor, found) := redis_scan keys pattern cursor in
      if new_cursor =? 0 then Some found else app found <$> scan_keys fuel' keys pattern new_cursor
  end.

Class RedisScanLaws `{RedisScan} := {
  scan_complete keys prefix :
    exists found, scan_keys (scan_replies keys (prefix +:+ "*")) keys (prefix +:+ "*") 0 = Some found /\
      forall k, k ∈ found <-> is_Some (keys !! k) /\ String.prefix prefix k = true
}.

(** The text of addresses and UUIDs, as the monitor stores it. *)
Class UuidText := { parse_uuid : string -> option Z }.

Class WatchTextLaws `{Formats} `{UuidText} := {
  parse_address_lower a : parse_address (to_lowercase (fmt_address a)) = Some a;
  fmt_address_no_colon a : has_colon (fmt_address a) = false;
  parse_address_native : parse_address NATIVE_TOKEN = None;
  parse_uuid_fmt u : parse_uuid (uuid_to_string u) = Some u
}.

(** ** Round trip of keys *)

Lemma colon_lower a : Ascii.eqb (ascii_lower a) colon = Ascii.eqb a colon.
Proof. by destruct a as [[] [] [] [] [] [] [] []]. Qed.

Lemma ascii_lower_idem a : ascii_lower (ascii_lower a) = ascii_lower a.
Proof. by destruct a as [[] [] [] [] [] [] [] []]. Qed.

Lemma to_lowercase_idem s : to_lowercase (to_lowercase s) = to_lowercase s.
Proof. induction s as [|a s IH]; [done|]. cbn. by rewrite ascii_lower_idem, IH. Qed.

Lemma has_colon_lower s : has_colon (to_lowercase s) = has_colon s.
Proof. induction s as [|a s IH]; [done|]. cbn. fold colon. by rewrite colon_lower, IH. Qed.

Lemma split_colon_app s rest :
  has_colon s = false -> split_colon (s +:+ String colon rest) = s :: split_colon rest.
Proof.
  induction s as [|a s IH]; [done|]. cbn [has_colon]. fold colon.
  intros [Ha Hs]%orb_false_iff.
  change (String a s +:+ ?x) with (String a (s +:+ x)). cbn [split_colon]. by rewrite Ha, IH.
Qed.

Lemma split_colon_single s : has_colon s = false -> split_colon s = [s].
Proof.
  induction s as [|a s IH]; [done|]. cbn [has_colon]. fold colon.
  intros [Ha Hs]%orb_false_iff. cbn [split_colon]. rewrite Ha. by rewrite IH.
Qed.

Lemma split_watched_address_key c a t :
  has_colon a = false -> has_colon (default NATIVE_TOKEN t) = false ->
  split_colon (watched_address_key c a t)
  = ["evmwatch"; "addr"; z_to_string c; to_lowercase a; to_lowercase (default NATIVE_TOKEN t)]%string.
Proof.
  intros Ha Ht. unfold watched_address_key.
  change (KEY_PREFIX +:+ ":" +:+ z_to_string c +:+ ":" +:+ to_lowercase a +:+ ":" +:+ ?x)
    with ("evmwatch" +:+ String colon ("addr" +:+ String colon
            (z_to_string c +:+ String colon (to_lowercase a +:+ String colon x)))).
  rewrite !split_colon_app by (done || apply z_to_string_no_colon || by rewrite has_colon_lower).
  by rewrite split_colon_single by (by rewrite has_colon_lower).
Qed.

(** A watch key parses back to the chain, the address and the token it was
    built from, in lower case, for text without a colon; only a token spelled
    like the native marker reads back as native. *)
Theorem watched_key_roundtrip (c : Z) (a : string) (t : option string) :
  in_u64 c -> has_colon a = false -> has_colon (default NATIVE_TOKEN t) = false ->
  parse_watched_address_key (watched_address_key c a t)
  = Some (c, to_lowercase a,
          match t with
          | Some t => if String.eqb (to_lowercase t) NATIVE_TOKEN then None else Some (to_lowercase t)
          | None => None
          end).
Proof.
  intros Hc Ha Ht. unfold parse_watched_address_key. rewrite split_watched_address_key by done.
  cbn [negb orb String.eqb]. rewrite parse_u64_to_string by done. by destruct t.
Qed.

(** ** What a complete read returns *)

Fixpoint join_colon (parts : list string) : string :=
  match parts with
  | [] => EmptyString
  | [p] => p
  | p :: rest => p +:+ String colon (join_colon rest)
  end.

Lemma split_colon_cons s : exists p ps, split_colon s = p :: ps.
Proof.
  induction s as [|a s (p & ps & IH)]; cbn; [eauto|]. rewrite IH. destruct (Ascii.eqb a colon); eauto.
Qed.

Lemma join_split_colon s : join_colon (split_colon s) = s.
Proof.
  induction s as [|a s IH]; [done|]. cbn [split_colon].
  destruct (split_colon_cons s) as (p & ps & Hs). rewrite Hs in *.
  destruct (Ascii.eqb_spec a colon) as [->|_].
  - change (join_colon (EmptyString :: p :: ps)) with (String colon (join_colon (p :: ps))). by rewrite IH.
  - destruct ps; cbn [join_colon] in *; [by rewrite IH|].
    change (String a p +:+ ?x) with (String a (p +:+ x)). by rewrite IH.
Qed.

(** A key that parses starts with the scanned prefix. *)
Lemma parsed_key_prefix key v :
  parse_watched_address_key key = Some v -> String.prefix (KEY_PREFIX +:+ ":") key = true.
Proof.
  unfold parse_watched_address_key. intros Hp. rewrite <- (join_split_colon key).
  destruct (split_colon key) as [|p0 [|p1 [|p2 [|p3 [|p4 [|]]]]]]; try done.
  destruct (String.eqb_spec p0 "evmwatch") as [->|]; [|done].
  destruct (String.eqb_spec p1 "addr") as [->|]; [|done]. 
  by destruct (join_colon [p2; p3; p4]) eqn:Hj; cbn in Hj |- *; rewrite ?Hj.
Qed.

Section Reading.
Context `{Runtime} `{RedisScan} `{!RedisScanLaws} `{Formats}.

Lemma redis_ok {E A} (fault : E) (op : Redis -> A * Redis) r a r' :
  redis_request fault op r = (Ok a, r') -> op (rd_tick r) = (a, r').
Proof. unfold redis_request. destruct (calls _); try done. destruct (op _). by intros [= -> ->]. Qed.

(** A request that was sent has taken effect, answered or not. *)
Lemma redis_effect {E A} (fault : E) (op : Redis -> A * Redis) r :
  calls (rd_ticks r) <> NotSent -> snd (redis_request fault op r) = snd (op (rd_tick r)).
Proof. unfold redis_request. destruct (calls _); [|done|]; destruct (op _); done. Qed.

Definition entry_of (key invoice : string) : option (string * string * string * option string) :=
  '(c, a, t) ← parse_watched_address_key key; Some (a, invoice, chain_id_evm c, t).

Definition entries (keys : gmap string string) (found : list string)
  : list (string * string * string * option string) :=
  omap (fun key => invoice ← keys !! key; entry_of key invoice) found.

Definition later (r r' : Redis) : Prop :=
  rd_keys r' = rd_keys r /\ rd_stream r' = rd_stream r /\ (rd_ticks r <= rd_ticks r')%nat.

Lemma redis_later_trans r1 r2 r3 : later r1 r2 -> later r2 r3 -> later r1 r3.
Proof. intros (? & ? & ?) (? & ? & ?). repeat split; try congruence. lia. Qed.

Lemma later_tick r : later r (rd_tick r).
Proof. repeat split. cbn. lia. Qed.

Lemma read_all_scanned keys acc r l r' :
  st_fold read_scanned acc keys r = (Ok l, r') -> l = acc ++ entries (rd_keys r) keys /\ later r r'.
Proof.
  revert acc r. induction keys as [|key keys IH]; intros acc r; cbn [st_fold].
  { intros [= <- <-]. cbn. rewrite app_nil_r. by repeat split. }
  intros Hr. inv_ok Hr as acc' r1 Hkey Hrest. unfold read_scanned in Hkey.
  inv_ok Hkey as value r2 Hget Hret. apply redis_ok in Hget. injection Hget as <- <-.
  injection Hret as <- <-. apply IH in Hrest as [-> Hl]. cbn [rd_keys rd_tick] in *.
  split; [|eapply redis_later_trans; [apply later_tick | exact Hl]].
  unfold entries. cbn [omap list_omap].
  destruct (rd_keys r !! key) as [invoice|]; cbn; [|done].
  unfold entry_of at 2. destruct (parse_watched_address_key key) as [[[c a] t]|]; cbn; [|done].
  by rewrite <- app_assoc.
Qed.

Lemma scan_loop_run fuel pattern cursor acc r l r' found :
  scan_keys fuel (rd_keys r) pattern cursor = Some found ->
  scan_loop fuel pattern cursor acc r = (Ok l, r') ->
  l = acc ++ entries (rd_keys r) found /\ later r r'.
Proof.
  revert cursor acc r found. induction fuel as [|fuel IH]; intros cursor acc r found; [done|].
  cbn [scan_keys scan_loop]. intros Hf Hr. inv_ok Hr as page r1 Hscan Hrest. apply redis_ok in Hscan.
  injection Hscan as <- <-. cbn [rd_keys rd_tick] in *.
  destruct (redis_scan (rd_keys r) pattern cursor) as [c keys].
  inv_ok Hrest as acc' r2 Hread Hloop. apply read_all_scanned in Hread as [-> Hl]. cbn [rd_keys rd_tick] in *.
  assert (Hl2 : later r r2) by (eapply redis_later_trans; [apply later_tick | exact Hl]).
  pose proof Hl2 as (Hk & _). destruct (c =? 0).
  { injection Hf as <-. by injection Hloop as <- <-. }
  apply fmap_Some in Hf as (rest & Hrest & ->). rewrite <- Hk in Hrest.
  destruct (IH _ _ _ _ Hrest Hloop) as [-> Hl3]. split; [|by eapply redis_later_trans].
  rewrite Hk, <- app_assoc. unfold entries. by rewrite omap_app.
Qed.

(** Reading every watch returns exactly the stored keys that parse. *)
Lemma get_all_watched_exact r l r' :
  get_all_watched r = (Ok l, r') ->
  later r r' /\
  forall x, x ∈ l <-> exists key invoice, rd_keys r !! key = Some invoice /\ entry_of key invoice = Some x.
Proof.
  intros Hr. destruct (scan_complete (rd_keys r) (KEY_PREFIX +:+ ":")) as (found & Hf & Hin).
  destruct (scan_loop_run _ _ _ _ _ _ _ _ Hf Hr) as [-> Hl]. split; [done|].
  intros x. cbn [app]. unfold entries. rewrite list_elem_of_omap. split.
  - intros (key & Hkey & He). apply bind_Some in He as (invoice & Hi & He). eauto.
  - intros (key & invoice & Hi & He). exists key. rewrite Hi. split; [|done].
    apply Hin. split; [by rewrite Hi|]. unfold entry_of in He.
    destruct (parse_watched_address_key key) eqn:Hp; [|done]. by eapply parsed_key_prefix.
Qed.

(** The read leaves the keys alone, wherever it ends. *)
Lemma get_all_watched_keeps keys : preserves (fun r => rd_keys r = keys) get_all_watched.
Proof.
  assert (Hreq : forall A (fault : RepositoryError) (op : Redis -> A), preserves (fun r => rd_keys r = keys)
    (redis_request fault (fun r => (op r, r)))).
  { intros A fault op r Hr. unfold redis_request. by destruct (calls _). }
  unfold get_all_watched. apply preserves_bind; [apply preserves_gets|]. intros k0.
  generalize (scan_replies k0 (KEY_PREFIX +:+ ":*")) as fuel, (@nil (string * string * string * option string)) as acc.
  generalize 0 as cursor. intros cursor fuel. revert cursor.
  induction fuel as [|fuel IH]; intros cursor acc; [apply preserves_throw|]. cbn [scan_loop].
  apply preserves_bind; [apply Hreq|]. intros [c page]. apply preserves_bind.
  - apply preserves_fold. intros key res _. apply preserves_bind; [apply Hreq | intros; apply preserves_ret].
  - intros res. destruct (c =? 0); [apply preserves_ret | apply IH].
Qed.

(** With the requests answered, the read ends and succeeds. *)
Lemma get_all_watched_total : (forall n, calls n = Answered) -> total get_all_watched.
Proof.
  intros Ha r. unfold get_all_watched, st_bind at 1, st_gets.
  assert (Hreq : forall E A (fault : E) (op : Redis -> A * Redis), total (redis_request fault op)).
  { intros E A fault op r0. unfold redis_request. rewrite Ha. by destruct (op _). }
  destruct (scan_complete (rd_keys r) (KEY_PREFIX +:+ ":")) as (found & Hf & _).
  change (KEY_PREFIX +:+ ":*") with ((KEY_PREFIX +:+ ":") +:+ "*").
  revert Hf. generalize ((KEY_PREFIX +:+ ":") +:+ "*") as pattern. intros pattern.
  generalize (scan_replies (rd_keys r) pattern) as fuel. generalize (@nil (string * string * string * option string)) as acc.
  generalize 0 at 1 2 as cursor. intros cursor acc fuel. revert cursor acc r found.
  induction fuel as [|fuel IH]; intros cursor acc r found; [done|]. cbn [scan_keys scan_loop]. intros Hf.
  destruct (total_run (redis_request (Database "redis scan failed")
    (fun r => (redis_scan (rd_keys r) pattern cursor, r))) r) as (page & r1 & Hp); [apply Hreq|].
  unfold st_bind at 1. rewrite Hp. apply redis_ok in Hp. injection Hp as <- <-. cbn [rd_keys rd_tick].
  destruct (redis_scan (rd_keys r) pattern cursor) as [c keys].
  destruct (total_run (st_fold read_scanned acc keys) (rd_tick r)) as (acc' & r2 & Hread).
  { apply total_fold. intros b x. apply total_bind; [apply Hreq | intros; apply total_ret]. }
  unfold st_bind. rewrite Hread. apply read_all_scanned in Hread as [-> (Hk & _)]. cbn in Hk.
  destruct (c =? 0); [done|]. apply fmap_Some in Hf as (rest & Hrest & _). rewrite <- Hk in Hrest.
  by eapply IH.
Qed.
End Reading.
