(* ===== verification/Startup.v ===== *)
(** * Bounded retry at startup

    [evm/src/monitor/startup.rs]: running a startup step until it succeeds or its
    attempts are used up, building one monitor per chain, and handing the built
    monitors to the coordinator.  The state and what sleeping does to it are
    parameters, so the theorems hold for any step. *)

From stdpp Require Import gmap strings list.
From Stdlib Require Import ZArith Lia.
From S2P Require Import Prelude Events.

(** Total attempts, including the first. *)
Definition STARTUP_ATTEMPTS : Z := 5.
(** Two seconds, in nanoseconds. *)
Definition STARTUP_INITIAL_DELAY : Z := 2 * 10 ^ 9.

(** [Duration::MAX], in nanoseconds, and [Duration::saturating_mul]. *)
Definition DURATION_MAX : Z := u64_max * 10 ^ 9 + 999999999.
Definition duration_saturating_mul (d k : Z) : Z := Z.min DURATION_MAX (d * k).

Section Startup.
Context {S : Type}.
(** [tokio::time::sleep] *)
Context (sleep : Z -> S -> S).

Abbreviation M := (St S EvmError).

(** The [loop] of [retry_startup]. *)
Fixpoint retry_loop {A} (fuel : nat) (attempts attempt delay : Z) (op : M A) : M A :=
  match fuel with
  | O => st_throw (Internal "retry loop out of fuel")
  | Datatypes.S fuel' => fun s =>
      match op s with
      | (Ok value, s') => (Ok value, s')
      | (Err e, s') =>
          if attempts <=? attempt then (Err e, s')
          else retry_loop fuel' attempts (attempt + 1) (duration_saturating_mul delay 2) op (sleep delay s')
      end
  end.

(** [retry_startup] *)
Definition retry_startup {A} (attempts initial_delay : Z) (op : M A) : M A :=
  let attempts := Z.max attempts 1 in
  retry_loop (Z.to_nat attempts) attempts 1 initial_delay op.

(** [build_monitors] *)
Definition build_monitors {Mon} (chain_ids : list Z) (attempts initial_delay : Z) (create : Z -> M Mon)
  : M (list (Z * Mon)) :=
  st_fold (fun monitors chain_id =>
      let* monitor :=
        st_map_err (fun e => Monitor ("failed to create chain monitor for chain " +:+ z_to_string chain_id
                                        +:+ ": " +:+ evm_error_to_string e))
          (retry_startup attempts initial_delay (create chain_id)) in
      st_ret (monitors ++ [(chain_id, monitor)]))
    [] chain_ids.

(** [start_monitors] *)
Definition start_monitors {Mon} (chain_ids : list Z) (attempts initial_delay : Z) (create : Z -> M Mon)
    (register : Z -> Mon -> M unit) : M unit :=
  let* monitors := build_monitors chain_ids attempts initial_delay create in
  st_for monitors (fun '(chain_id, monitor) => register chain_id monitor).

(** ** Retrying *)

(** [Tries op delay k s s']: from [s], [op] failed [k] times, with a sleep after
    each failure, the first of [delay] and each twice the one before; [s'] is
    the state after the last sleep. *)
Inductive Tries {A} (op : M A) : Z -> nat -> S -> S -> Prop :=
| tries_none d s : Tries op d 0 s s
| tries_more d k s e t s' :
    op s = (Err e, t) -> Tries op (duration_saturating_mul d 2) k (sleep d t) s' ->
    Tries op d (Datatypes.S k) s s'.

Lemma retry_loop_run {A} (op : M A) fuel n i d s r s' :
  (Z.of_nat fuel = n - i + 1) -> 1 <= i <= n ->
  retry_loop fuel n i d op s = (r, s') ->
  exists k t, Z.of_nat k <= n - i /\ Tries op d k s t /\ op t = (r, s') /\
    (is_ok r = false -> Z.of_nat k = n - i).
Proof.
  revert i d s. induction fuel as [|fuel IH]; intros i d s Hf Hi; [lia|]. cbn [retry_loop].
  destruct (op s) as [[a|e] t] eqn:Ho.
  { intros [= <- <-]. exists 0%nat, s. split; [lia|]. split; [constructor|]. done. }
  destruct (Z.leb_spec n i) as [Hle|Hlt].
  { intros [= <- <-]. exists 0%nat, s. split; [lia|]. split; [constructor|]. split; [done|]. intros _. lia. }
  intros Hr. apply IH in Hr as (k & u & Hk & Ht & Hu & He); [|lia..].
  exists (Datatypes.S k), u. split; [lia|]. split; [by econstructor|]. split; [done|]. intros Hn. apply He in Hn. lia.
Qed.

Lemma retry_startup_run {A} (op : M A) attempts delay s :
  exists k t, Tries op delay k s t /\ op t = retry_startup attempts delay op s.
Proof.
  unfold retry_startup. destruct (retry_loop _ _ _ _ op s) as [r s'] eqn:Hr.
  apply retry_loop_run in Hr as (k & t & _ & Ht & Ho & _); [|lia..]. eauto.
Qed.

Lemma tries_keeps {A} (I : S -> Prop) (op : M A) d k s t :
  (forall d s, I s -> I (sleep d s)) -> preserves I op -> Tries op d k s t -> I s -> I t.
Proof.
  intros Hsl Hop. induction 1 as [|d k s e t s' Ho _ IH]; [done|]. intros Hs. apply IH, Hsl.
  specialize (Hop s Hs). by rewrite Ho in Hop.
Qed.

(** Retrying always ends: the step is run once after [k] failures, fewer
    than the attempts, with a doubled sleep between runs; the result is that of
    the last run, and it is an error only if every attempt was used. *)
Theorem retry_startup_bounded {A} (op : M A) attempts delay s :
  exists k t, (k < Z.to_nat (Z.max attempts 1))%nat /\ Tries op delay k s t /\
    op t = retry_startup attempts delay op s /\
    (is_ok (fst (op t)) = false -> Datatypes.S k = Z.to_nat (Z.max attempts 1)).
Proof.
  unfold retry_startup. destruct (retry_loop _ _ _ _ op s) as [r s'] eqn:Hr.
  apply retry_loop_run in Hr as (k & t & Hk & Ht & Ho & He); [|lia..].
  exists k, t. split; [lia|]. split; [done|]. split; [done|]. rewrite Ho. cbn. intros Hn. apply He in Hn. lia.
Qed.

(** ** All or nothing *)

(** What a property of the state that neither creating a monitor nor sleeping
    touches. *)
Section Framing.
Context (I : S -> Prop) (sleep_keeps : forall d s, I s -> I (sleep d s)).

Lemma preserves_retry {A} (op : M A) attempts delay :
  preserves I op -> preserves I (retry_startup attempts delay op).
Proof.
  intros Hop. unfold retry_startup. generalize (Z.max attempts 1). intros n.
  generalize (Z.to_nat n) as fuel. intros fuel. generalize 1 as i. revert delay.
  induction fuel as [|fuel IH]; intros d i; [apply preserves_throw|].
  intros s Hs. cbn [retry_loop]. specialize (Hop s Hs). destruct (op s) as [[a|e] t]; [done|].
  cbn in Hop. destruct (_ <=? _); [done|]. apply IH. by apply sleep_keeps.
Qed.

Lemma preserves_build {Mon} (create : Z -> M Mon) ids attempts delay :
  (forall c, c ∈ ids -> preserves I (create c)) -> preserves I (build_monitors ids attempts delay create).
Proof.
  intros Hc. apply preserves_fold. intros c ms Hin. apply preserves_bind; [|intros; apply preserves_ret].
  by apply preserves_map_err, preserves_retry, Hc.
Qed.
End Framing.

(** What every successful [create] established, and no later step undoes, holds
    of every monitor built. *)
Lemma build_monitors_each {Mon} (I : S -> Prop) (Q : Z -> Mon -> S -> Prop) (create : Z -> M Mon) ids attempts delay s ms s' :
  (forall d t, I t -> I (sleep d t)) -> (forall c, preserves I (create c)) ->
  (forall c m d t, Q c m t -> Q c m (sleep d t)) -> (forall c m c', preserves (Q c m) (create c')) ->
  (forall c m t t', I t -> create c t = (Ok m, t') -> Q c m t') ->
  I s -> build_monitors ids attempts delay create s = (Ok ms, s') -> Forall (fun cm => Q cm.1 cm.2 s') ms.
Proof.
  intros HsI HcI HsQ HcQ Hnew Hs. unfold build_monitors. set (step := fun (l : list _) (c : Z) => st_bind _ _).
  assert (Hacc : Forall (fun cm : Z * Mon => Q cm.1 cm.2 s) []) by constructor.
  revert s Hs Hacc. generalize (@nil (Z * Mon)) as acc.
  induction ids as [|c ids IH]; intros acc s Hs Hacc; cbn [st_fold]; [by intros [= <- <-]|].
  intros Hr. inv_ok Hr as acc' s1 Hone Hrest. unfold step in Hone. inv_ok Hone as m s2 Hm Hret. injection Hret as <- <-.
  unfold st_map_err in Hm.
  pose proof (preserves_retry I HsI (create c) attempts delay (HcI c) s Hs) as Hi.
  pose proof (fun cm => preserves_retry (Q cm.1 cm.2) (HsQ _ _) (create c) attempts delay (HcQ cm.1 cm.2 c) s) as Hq.
  destruct (retry_startup_run (create c) attempts delay s) as (k & t & Ht & Hop).
  destruct (retry_startup attempts delay (create c) s) as [[m'|e] s3] eqn:Hre; [|done].
  injection Hm as -> ->. cbn [snd] in Hi, Hq. apply (IH (acc ++ [(c, m)]) s2 Hi); [|exact Hrest]. apply Forall_app. split.
  - eapply Forall_impl; [exact Hacc|]. intros cm Hcm. by apply Hq.
  - constructor; [|constructor]. eapply Hnew; [|exact Hop]. eapply tries_keeps; eauto.
Qed.

Definition create_failed (chain_id : Z) (e : EvmError) : EvmError :=
  Monitor ("failed to create chain monitor for chain " +:+ z_to_string chain_id +:+ ": "
             +:+ evm_error_to_string e).

(** Every monitor is built, in order, or the first chain that fails is named. *)
Lemma build_monitors_outcome {Mon} (create : Z -> M Mon) attempts delay ids acc s r s' :
  st_fold (fun monitors chain_id =>
      let* monitor := st_map_err (create_failed chain_id) (retry_startup attempts delay (create chain_id)) in
      st_ret (monitors ++ [(chain_id, monitor)])) acc ids s = (r, s') ->
  (exists ms, r = Ok (acc ++ ms) /\ ms.*1 = ids) \/
  (exists c e t, c ∈ ids /\ r = Err (create_failed c e) /\ retry_startup attempts delay (create c) t = (Err e, s')).
Proof.
  revert acc s. induction ids as [|c ids IH]; intros acc s; cbn [st_fold].
  { intros [= <- <-]. left. exists []. by rewrite app_nil_r. }
  unfold st_bind at 1 2, st_map_err.
  destruct (retry_startup attempts delay (create c) s) as [[m|e] t] eqn:Hc.
  - intros [(ms & -> & Hms)|(c' & e & u & Hin & Hr)]%IH.
    + left. exists ((c, m) :: ms). rewrite <- app_assoc. cbn. by rewrite Hms.
    + right. exists c', e, u. split; [by right|done].
  - intros [= <- <-]. right. exists c, e, s. split; [by left|done].
Qed.

(** When a chain's monitor cannot be built, startup fails with an error
    that names the chain, and nothing has been registered: whatever [create]
    and sleeping leave alone is as before.  Otherwise every chain of the list
    was handed to [register], in order, up to the first that is refused. *)
Theorem start_monitors_all_or_nothing {Mon} (I : S -> Prop) (create : Z -> M Mon) register ids attempts delay s r s' :
  (forall d t, I t -> I (sleep d t)) -> (forall c, c ∈ ids -> preserves I (create c)) -> I s ->
  start_monitors ids attempts delay create register s = (r, s') ->
  (exists c e, c ∈ ids /\ r = Err (create_failed c e) /\ I s') \/
  (exists ms t, ms.*1 = ids /\ I t /\
     st_for ms (fun '(c, m) => register c m) t = (r, s')).
Proof.
  intros Hsl Hcr Hs. unfold start_monitors, st_bind.
  pose proof (preserves_build I Hsl create ids attempts delay Hcr s Hs) as Hk.
  destruct (build_monitors ids attempts delay create s) as [br t] eqn:Hb. cbn in Hk.
  apply build_monitors_outcome in Hb as [(ms & -> & Hms)|(c & e & u & Hin & -> & _)]; intros Hr.
  - right. by exists ms, t.
  - injection Hr as <- <-. left. eauto.
Qed.
End Startup.

(** ** Concrete instances *)

(** A step that fails until its third run, on a state that counts runs and adds
    up the sleep. *)
Definition flaky (s : Z * Z) : EvmResult Z * (Z * Z) :=
  let '(runs, slept) := s in
  if runs <? 2 then (Err (Monitor "blip"), (runs + 1, slept)) else (Ok 7, (runs + 1, slept)).
Definition sleep_sum (d : Z) (s : Z * Z) : Z * Z := (s.1, s.2 + d).

Example flaky_recovers :
  retry_startup sleep_sum STARTUP_ATTEMPTS STARTUP_INITIAL_DELAY flaky (0, 0) = (Ok 7, (3, 6 * 10 ^ 9)).
Proof. reflexivity. Qed.

Definition build_demo (c : Z) (s : list Z * Z) : EvmResult Z * (list Z * Z) :=
  if c =? 11155111 then (Err (Rpc "down"), s) else (Ok c, s).
Definition register_demo (c m : Z) (s : list Z * Z) : EvmResult unit * (list Z * Z) :=
  (Ok tt, (s.1 ++ [c], s.2)).
Definition sleep_demo (d : Z) (s : list Z * Z) : list Z * Z := (s.1, s.2 + d).

(** One chain of two is down: nothing is registered. *)
Lemma start_monitors_all_or_nothing_witness :
  exists c e, c ∈ [1; 11155111] /\
    fst (start_monitors sleep_demo [1; 11155111] 3 1 build_demo register_demo ([], 0)) = Err (create_failed c e) /\
    (snd (start_monitors sleep_demo [1; 11155111] 3 1 build_demo register_demo ([], 0))).1 = [].
Proof.
  destruct (start_monitors_all_or_nothing sleep_demo (fun s : list Z * Z => s.1 = []) build_demo register_demo
    [1; 11155111] 3 1 ([], 0)
    (fst (start_monitors sleep_demo [1; 11155111] 3 1 build_demo register_demo ([], 0)))
    (snd (start_monitors sleep_demo [1; 11155111] 3 1 build_demo register_demo ([], 0))))
    as [Hfail|(ms & t & Hms & Ht & Hr)].
  - intros d t Ht. exact Ht.
  - intros c _ t Ht. unfold build_demo. destruct (c =? 11155111); exact Ht.
  - reflexivity.
  - reflexivity.
  - exact Hfail.
  - destruct ms as [|[c1 m1] [|[c2 m2] [|]]]; try discriminate Hms.
    exfalso. vm_compute in Hr. discriminate Hr.
Defined.
