(* ===== verification/Coordinator.v ===== *)
(** * The monitor process

    [evmmonitor]: the coordinator that owns one monitor per chain
    ([evm/src/monitor/coordinator.rs]), the handlers it routes events to
    ([handlers.rs], [bin/evmmonitor/main.rs]), the commands it takes from the
    server and the watches it restores ([bin/evmmonitor/commands.rs]).

    A [ChainMonitor] is shared through an [Arc] by its task, its watchdog and
    the coordinator: it lives in a heap and is named by its index.  The events a
    monitor has sent on its broadcast channel are [mon_events] of its state; a
    receiver is a position in that list. *)

From stdpp Require Import gmap strings list sorting.
From Stdlib Require Import ZArith Lia.
From S2P Require Import Prelude Events Network Monitor Decimal Database Services LiveWatch Startup.

(** ** Data *)

(** A [ChainMonitor] with what it was built from. *)
Record Instance := mkInstance {
  in_chain : ChainConfig;
  in_config : ChainMonitorConfig;
  in_source : BlockSource;
  in_state : MonState
}.

Definition in_set_state (s : MonState) (i : Instance) : Instance :=
  mkInstance (in_chain i) (in_config i) (in_source i) s.

(** [MonitorHandle]; the tasks it can abort are [co_tasks] and [co_watchdogs] of
    the process. *)
Record MonitorHandle := mkMonitorHandle {
  mh_chain_id : Z;
  mh_chain_name : string;
  mh_monitor : nat;
  mh_event_rx : nat
}.

(** A receiver of a monitor's channel: the next position to read.  The other
    fields record what it has been through: where it began, what it handed over
    and how many events it was told it had missed. *)
Record Receiver := mkReceiver {
  rx_monitor : nat;
  rx_next : nat;
  rx_start : nat;
  rx_delivered : list MonitorEvent;
  rx_lagged : nat
}.

(** A routing task spawned by [start]. *)
Record Router := mkRouter {
  ro_receivers : list Receiver;
  ro_alive : bool
}.

(** The implementations of [EventHandler]. *)
Inductive EventHandler : Type :=
| FnHandler (name : string) (handler : MonitorEvent -> EvmResult unit)
| LoggingHandler
| BridgeHandler
| ChainFilter (chain_ids : list Z) (inner : EventHandler)
| PaymentOnlyFilter (inner : EventHandler).

Record CoordinatorConfig := mkCoordinatorConfig {
  event_channel_capacity : nat;
  on_loop_hang : bool
}.

(** [CoordinatorConfig::new] *)
Definition coordinator_config_new : CoordinatorConfig := mkCoordinatorConfig 4096 false.

(** The process: the [MonitorCoordinator] ([co_*]), the monitors it shares,
    and Redis.  [co_event_log] is what was sent on the aggregated channel,
    [co_hangs] the calls of an overriding hang hook. *)
Record Process := mkProcess {
  co_config : CoordinatorConfig;
  co_heap : list Instance;
  co_monitors : gmap Z MonitorHandle;
  co_tasks : gset nat;
  co_watchdogs : gset nat;
  co_event_log : list MonitorEvent;
  co_handlers : list EventHandler;
  co_routers : list Router;
  co_handler_task : option nat;
  co_hangs : list (Z * Z);
  co_exited : bool;
  pr_redis : Redis
}.

(** [MonitorCoordinator::new], in a new process. *)
Definition coordinator_new (config : CoordinatorConfig) (redis : Redis) : Process :=
  mkProcess config [] ∅ ∅ ∅ [] [] [] None [] false redis.

Definition co_set_heap (x : list Instance) (p : Process) : Process :=
  mkProcess (co_config p) x (co_monitors p) (co_tasks p) (co_watchdogs p) (co_event_log p) (co_handlers p)
    (co_routers p) (co_handler_task p) (co_hangs p) (co_exited p) (pr_redis p).
Definition co_set_monitors (x : gmap Z MonitorHandle) (p : Process) : Process :=
  mkProcess (co_config p) (co_heap p) x (co_tasks p) (co_watchdogs p) (co_event_log p) (co_handlers p)
    (co_routers p) (co_handler_task p) (co_hangs p) (co_exited p) (pr_redis p).
Definition co_set_tasks (tasks watchdogs : gset nat) (p : Process) : Process :=
  mkProcess (co_config p) (co_heap p) (co_monitors p) tasks watchdogs (co_event_log p) (co_handlers p)
    (co_routers p) (co_handler_task p) (co_hangs p) (co_exited p) (pr_redis p).
Definition co_log_event (e : MonitorEvent) (p : Process) : Process :=
  mkProcess (co_config p) (co_heap p) (co_monitors p) (co_tasks p) (co_watchdogs p) (co_event_log p ++ [e])
    (co_handlers p) (co_routers p) (co_handler_task p) (co_hangs p) (co_exited p) (pr_redis p).
Definition co_set_handlers (x : list EventHandler) (p : Process) : Process :=
  mkProcess (co_config p) (co_heap p) (co_monitors p) (co_tasks p) (co_watchdogs p) (co_event_log p) x
    (co_routers p) (co_handler_task p) (co_hangs p) (co_exited p) (pr_redis p).
Definition co_set_routers (x : list Router) (task : option nat) (p : Process) : Process :=
  mkProcess (co_config p) (co_heap p) (co_monitors p) (co_tasks p) (co_watchdogs p) (co_event_log p)
    (co_handlers p) x task (co_hangs p) (co_exited p) (pr_redis p).
Definition co_hang (chain_id stalled : Z) (p : Process) : Process :=
  if on_loop_hang (co_config p)
  then mkProcess (co_config p) (co_heap p) (co_monitors p) (co_tasks p) (co_watchdogs p) (co_event_log p)
         (co_handlers p) (co_routers p) (co_handler_task p) (co_hangs p ++ [(chain_id, stalled)])
         (co_exited p) (pr_redis p)
  else mkProcess (co_config p) (co_heap p) (co_monitors p) (co_tasks p) (co_watchdogs p) (co_event_log p)
         (co_handlers p) (co_routers p) (co_handler_task p) (co_hangs p) true (pr_redis p).
Definition set_redis (x : Redis) (p : Process) : Process :=
  mkProcess (co_config p) (co_heap p) (co_monitors p) (co_tasks p) (co_watchdogs p) (co_event_log p)
    (co_handlers p) (co_routers p) (co_handler_task p) (co_hangs p) (co_exited p) x.

(** A method call on a shared monitor. *)
Definition co_alter (i : nat) (f : MonState -> MonState) (p : Process) : Process :=
  co_set_heap (alter (fun inst => in_set_state (f (in_state inst)) inst) i (co_heap p)) p.

(** A request to Redis from the process. *)
Definition on_redis {E A} (m : St Redis E A) : St Process E A :=
  fun p => let '(r, x) := m (pr_redis p) in (r, set_redis x p).

Section Coordinator.
Context `{Runtime} `{RedisScan} `{Formats} `{UuidText}.
(** The clock a monitor reads and the decoding of log data, as in [Monitor]. *)
Context (u256_from_be_slice : list Z -> U256).

Definition now_utc {E} : St Process E Instant := st_gets (fun p => clock (rd_ticks (pr_redis p))).

(** ** Handlers *)

(** [EventBridge::publish] *)
Definition bridge_publish (event : MonitorEvent) : St Redis EvmError unit :=
  redis_request (Connection "redis publish failed") (fun r => (tt, rd_append event r)).

(** The [chain_id] of [ChainFilter::handle]. *)
Definition filter_chain_id (event : MonitorEvent) : Z :=
  match event with
  | EvPaymentDetected p => pd_chain_id p
  | EvPaymentConfirmed p => pc_chain_id p
  | EvReorgDetected r => rd_chain_id r
  | EvMonitorStarted chain_id => chain_id
  | EvMonitorStopped chain_id => chain_id
  | EvMonitorError chain_id _ => chain_id
  | EvAddressWatched w => aw_chain_id w
  | EvAddressUnwatched w => au_chain_id w
  | EvStatusReport s => sr_chain_id s
  end.

(** [EventHandler::handle] *)
Fixpoint handle (h : EventHandler) (event : MonitorEvent) : St Redis EvmError unit :=
  match h with
  | FnHandler _ handler => st_lift (handler event)
  | LoggingHandler => st_ret tt
  | BridgeHandler => bridge_publish event
  | ChainFilter chain_ids inner =>
      if bool_decide (filter_chain_id event ∈ chain_ids) then handle inner event else st_ret tt
  | PaymentOnlyFilter inner =>
      match event with
      | EvPaymentDetected _ | EvPaymentConfirmed _ | EvReorgDetected _ => handle inner event
      | _ => st_ret tt
      end
  end.

(** [EventHandler::name] *)
Fixpoint handler_name (h : EventHandler) : string :=
  match h with
  | FnHandler name _ => name
  | LoggingHandler => "LoggingHandler"
  | BridgeHandler => "BridgeHandler"
  | ChainFilter _ inner | PaymentOnlyFilter inner => handler_name inner
  end.

(** [MonitorCoordinator::register_handler] *)
Definition register_handler (h : EventHandler) (p : Process) : Process :=
  co_set_handlers (co_handlers p ++ [h]) p.

(** ** Chains *)

(** [MonitorCoordinator::add_chain]: the monitor's own task and its watchdog are
    spawned, and run later. *)
Definition add_chain (monitor : nat) : St Process EvmError unit :=
  let* p := st_get in
  match co_heap p !! monitor with
  | None => st_throw (Internal "no such monitor")
  | Some inst =>
      let chain_id := cc_chain_id (in_chain inst) in
      let chain_name := cc_name (in_chain inst) in
      if bool_decide (is_Some (co_monitors p !! chain_id))
      then st_throw (Monitor ("already monitoring chain " +:+ z_to_string chain_id))
      else
        let event_rx := length (mon_events (in_state inst)) in
        do* st_modify (co_set_tasks ({[monitor]} ∪ co_tasks p) ({[monitor]} ∪ co_watchdogs p));
        st_modify (co_set_monitors
          (<[chain_id := mkMonitorHandle chain_id chain_name monitor event_rx]> (co_monitors p)))
  end.

(** [MonitorCoordinator::get_chain] *)
Definition get_chain (chain_id : Z) (p : Process) : option nat := mh_monitor <$> co_monitors p !! chain_id.

(** [MonitorCoordinator::chain_ids] *)
Definition chain_ids (p : Process) : list Z := (map_to_list (co_monitors p)).*1.

(** [MonitorCoordinator::remove_chain] *)
Definition remove_chain (chain_id : Z) : St Process EvmError unit :=
  let* p := st_get in
  match co_monitors p !! chain_id with
  | None => st_throw (Monitor ("chain " +:+ z_to_string chain_id +:+ " not found"))
  | Some handle =>
      do* st_modify (co_set_monitors (delete chain_id (co_monitors p)));
      st_modify (co_set_tasks (co_tasks p ∖ {[mh_monitor handle]}) (co_watchdogs p ∖ {[mh_monitor handle]}))
  end.

(** [ChainMonitor::get_health] of a shared monitor. *)
Definition instance_health (i : nat) : St Process EvmError (option ChainHealth) :=
  fun p =>
    match co_heap p !! i with
    | None => (Ok None, p)
    | Some inst =>
        let '(r, s) :=
          @get_health (in_source inst) (cc_chain_id (in_chain inst)) (cc_name (in_chain inst)) (in_state inst) in
        (Ok (result_ok r), co_alter i (fun _ => s) p)
    end.

Definition health_le (a b : ChainHealth) : Prop := ch_chain_id a <= ch_chain_id b.
#[global] Instance health_le_dec : RelDecision health_le.
Proof. intros a b. apply Z_le_dec. Defined.

(** [MonitorCoordinator::get_all_health] *)
Definition get_all_health : St Process EvmError (list ChainHealth) :=
  let* p := st_get in
  let* health :=
    st_fold (fun health (handle : MonitorHandle) =>
        let* h := instance_health (mh_monitor handle) in
        st_ret (health ++ option_list h))
      [] (map_to_list (co_monitors p)).*2 in
  st_ret (merge_sort health_le health).

(** [MonitorCoordinator::watch] *)
Definition co_watch (chain_id : Z) (watched : WatchedAddress) : St Process EvmError unit :=
  let* m := st_gets (get_chain chain_id) in
  match m with
  | Some monitor => st_modify (co_alter monitor (watch watched))
  | None => st_throw (Monitor ("chain " +:+ z_to_string chain_id +:+ " not found"))
  end.

(** What [ChainMonitor::unwatch] of a shared monitor returns. *)
Definition unwatch_result (i : nat) (address : Address) (token : option Address) (p : Process)
  : option WatchedAddress :=
  inst ← co_heap p !! i; fst (unwatch address token (in_state inst)).

(** [MonitorCoordinator::unwatch] *)
Definition co_unwatch (chain_id : Z) (address : Address) (token : option Address)
  : St Process EvmError (option WatchedAddress) :=
  let* m := st_gets (get_chain chain_id) in
  match m with
  | Some monitor =>
      let* removed := st_gets (unwatch_result monitor address token) in
      do* st_modify (co_alter monitor (fun s => snd (unwatch address token s)));
      st_ret removed
  | None => st_throw (Monitor ("chain " +:+ z_to_string chain_id +:+ " not found"))
  end.

(** ** Routing *)

(** The capacity of a monitor's broadcast channel ([ChainMonitor::new]). *)
Definition CHANNEL_CAPACITY : nat := 1024.

Inductive TryRecv : Type :=
| Received (event : MonitorEvent)
| RecvEmpty
| RecvLagged (n : nat)
| RecvClosed.

(** [broadcast::Receiver::try_recv]: the channel keeps the last
    [CHANNEL_CAPACITY] events; a receiver behind them is told how many it
    missed and moves to the oldest kept. *)
Definition try_recv (events : list MonitorEvent) (open : bool) (next : nat) : TryRecv * nat :=
  let oldest := (length events - CHANNEL_CAPACITY)%nat in
  if (next <? oldest)%nat then (RecvLagged (oldest - next), oldest)
  else match events !! next with
       | Some e => (Received e, S next)
       | None => (if open then RecvEmpty else RecvClosed, next)
       end.

(** Some handle still owns the monitor. *)
Definition monitor_open (i : nat) (p : Process) : bool :=
  existsb (fun h => Nat.eqb (mh_monitor h) i) (map_to_list (co_monitors p)).*2.

(** Calling every registered handler; an error is only logged. *)
Definition call_handlers (event : MonitorEvent) (p : Process) : Process :=
  foldl (fun p h => set_redis (snd (handle h event (pr_redis p))) p) p (co_handlers p).

(** One receiver's turn in the routing loop. *)
Definition route_receiver (rx : Receiver) (p : Process) : Receiver * Process :=
  match co_heap p !! rx_monitor rx with
  | None => (rx, p)
  | Some inst =>
      match try_recv (mon_events (in_state inst)) (monitor_open (rx_monitor rx) p) (rx_next rx) with
      | (Received event, next) =>
          (mkReceiver (rx_monitor rx) next (rx_start rx) (rx_delivered rx ++ [event]) (rx_lagged rx),
           call_handlers event (co_log_event event p))
      | (RecvLagged n, next) =>
          (mkReceiver (rx_monitor rx) next (rx_start rx) (rx_delivered rx) (rx_lagged rx + n), p)
      | (RecvEmpty, _) | (RecvClosed, _) => (rx, p)
      end
  end.

Fixpoint route_receivers (rxs : list Receiver) (p : Process) : list Receiver * Process :=
  match rxs with
  | [] => ([], p)
  | rx :: rest =>
      let '(rx, p) := route_receiver rx p in
      let '(rest, p) := route_receivers rest p in
      (rx :: rest, p)
  end.

(** One iteration of a routing task's loop. *)
Definition route_pass (k : nat) (p : Process) : Process :=
  match co_routers p !! k with
  | Some ro =>
      if ro_alive ro then
        let '(rxs, p) := route_receivers (ro_receivers ro) p in
        co_set_routers (<[k := mkRouter rxs true]> (co_routers p)) (co_handler_task p) p
      else p
  | None => p
  end.

(** [Receiver::resubscribe]: a new receiver at the channel's current end. *)
Definition resubscribe (p : Process) (h : MonitorHandle) : Receiver :=
  let end_ := match co_heap p !! mh_monitor h with
              | Some inst => length (mon_events (in_state inst))
              | None => 0%nat
              end in
  mkReceiver (mh_monitor h) end_ end_ [] 0.

(** [MonitorCoordinator::start] *)
Definition co_start (p : Process) : Process :=
  let receivers := resubscribe p <$> (map_to_list (co_monitors p)).*2 in
  co_set_routers (co_routers p ++ [mkRouter receivers true]) (Some (length (co_routers p))) p.

(** [MonitorCoordinator::stop] *)
Definition co_stop : St Process EvmError unit :=
  do* st_modify (fun p =>
        match co_handler_task p with
        | Some k =>
            co_set_routers (alter (fun ro => mkRouter (ro_receivers ro) false) k (co_routers p)) None p
        | None => p
        end);
  let* ids := st_gets chain_ids in
  st_for ids (fun c => do* @st_try _ _ _ EvmError (remove_chain c); st_ret tt).

(** ** Tasks *)

(** The instant at which a monitor's [n]-th question is asked. *)
Definition mon_now : nat -> Instant := clock.

(** A spawned task runs [ChainMonitor::start]; a failing start ends it. *)
Definition task_start (i : nat) (p : Process) : Process :=
  match co_heap p !! i with
  | Some inst =>
      let '(r, s) := @start (in_source inst) mon_now (cc_chain_id (in_chain inst)) (in_state inst) in
      let p := co_alter i (fun _ => s) p in
      if is_ok r then p else co_set_tasks (co_tasks p ∖ {[i]}) (co_watchdogs p) p
  | None => p
  end.

(** One turn of a monitor's event loop. *)
Definition task_turn (i : nat) (input : LoopInput) (p : Process) : Process :=
  match co_heap p !! i with
  | Some inst =>
      let '(r, s) :=
        @loop_iteration (in_source inst) mon_now u256_from_be_slice (cc_chain_id (in_chain inst))
          (cc_name (in_chain inst)) (in_config inst) input (in_state inst) in
      let p := co_alter i (fun _ => s) p in
      match r with
      | Ok true => p
      | _ => co_set_tasks (co_tasks p ∖ {[i]}) (co_watchdogs p) p
      end
  | None => p
  end.

(** [(hang_timeout / 4).max(50ms)] *)
Definition watchdog_interval (config : ChainMonitorConfig) : Z :=
  Z.max (seconds (loop_hang_timeout_secs config) / 4) (50 * 10 ^ 6).

(** One tick of a watchdog, at the instant [at_]. *)
Definition watchdog_tick (i : nat) (at_ : Instant) (p : Process) : Process :=
  match co_heap p !! i with
  | Some inst =>
      let stalled_for := at_ - mon_loop_alive_at (in_state inst) in
      if seconds (loop_hang_timeout_secs (in_config inst)) <=? stalled_for
      then co_hang (cc_chain_id (in_chain inst)) stalled_for p
      else p
  | None => p
  end.
End Coordinator.
