(* ===== verification/Commands.v ===== *)
(** * Commands and restoration

    [bin/evmmonitor/commands.rs], [chain.rs] and the startup sequence of
    [main.rs]: what the monitor process does with the server's commands, and how
    a new process comes to watch what the last one watched. *)

From stdpp Require Import gmap strings list.
From Stdlib Require Import ZArith Lia.
From S2P Require Import Prelude Events Network Monitor Decimal Database Services LiveWatch Startup Coordinator.

(** [ChainRpcConfig] *)
Record ChainRpcConfig := mkChainRpcConfig {
  crc_chain_id : Z;
  crc_rpc_http : string;
  crc_rpc_ws : option string
}.

(** [RpcBlockSource::new] connects to a node: the [n]-th call's result. *)
Class RpcConnect := { rpc_source_new : nat -> ChainRpcConfig -> EvmResult BlockSource }.

Section Commands.
Context `{Runtime} `{RedisScan} `{Formats} `{UuidText} `{RpcConnect}.

(** ** Commands *)

(** Publishing a confirmation event; a failure is only logged. *)
Definition publish_logged (event : MonitorEvent) : St Process EvmError unit :=
  do* @st_try _ _ _ EvmError (on_redis (bridge_publish event)); st_ret tt.

(** The [WatchAddress] arm of [handle_commands]. *)
Definition handle_watch (cmd : WatchAddressCommand) : St Process EvmError unit :=
  let invoice_id := uuid_to_string (wac_invoice_id cmd) in
  let address_str := to_lowercase (fmt_address (wac_address cmd)) in
  let token_address_str := (fun a => to_lowercase (fmt_address a)) <$> wac_token_contract cmd in
  do* @st_try _ _ _ EvmError
        (on_redis (watch_address address_str invoice_id (chain_id_evm (wac_chain_id cmd)) token_address_str));
  let* m := st_gets (get_chain (wac_chain_id cmd)) in
  match m with
  | Some monitor =>
      let* created_at := now_utc in
      let watched :=
        {| wa_address := wac_address cmd;
           wa_invoice_id := wac_invoice_id cmd;
           wa_expected_amount := wac_expected_amount cmd;
           wa_token_contract := wac_token_contract cmd;
           wa_created_at := created_at |} in
      do* st_modify (co_alter monitor (watch watched));
      let* watched_at := now_utc in
      publish_logged (EvAddressWatched
        {| aw_chain_id := wac_chain_id cmd;
           aw_address := wac_address cmd;
           aw_invoice_id := wac_invoice_id cmd;
           aw_watched_at := watched_at |})
  | None => st_ret tt
  end.

(** The [UnwatchAddress] arm. *)
Definition handle_unwatch (cmd : UnwatchAddressCommand) : St Process EvmError unit :=
  let address_str := to_lowercase (fmt_address (uac_address cmd)) in
  let token_address_str := (fun a => to_lowercase (fmt_address a)) <$> uac_token_contract cmd in
  do* @st_try _ _ _ EvmError
        (on_redis (unwatch_address address_str (chain_id_evm (uac_chain_id cmd)) token_address_str));
  let* m := st_gets (get_chain (uac_chain_id cmd)) in
  match m with
  | Some monitor =>
      let* removed := st_gets (unwatch_result monitor (uac_address cmd) (uac_token_contract cmd)) in
      do* st_modify (co_alter monitor (fun s => snd (unwatch (uac_address cmd) (uac_token_contract cmd) s)));
      publish_logged (EvAddressUnwatched
        {| au_chain_id := uac_chain_id cmd;
           au_address := uac_address cmd;
           au_invoice_id := wa_invoice_id <$> removed |})
  | None => st_ret tt
  end.

(** [ChainMonitor::watched_addresses] of a shared monitor. *)
Definition instance_watched (i : nat) (p : Process) : list WatchedAddress :=
  default [] ((fun inst => watched_addresses (in_state inst)) <$> co_heap p !! i).

(** [ChainMonitor::current_block] of a shared monitor. *)
Definition instance_current_block (i : nat) : St Process EvmError Z :=
  fun p =>
    match co_heap p !! i with
    | None => (Err (Internal "no such monitor"), p)
    | Some inst =>
        let '(r, s) := @current_block (in_source inst) (in_state inst) in
        (r, co_alter i (fun _ => s) p)
    end.

(** The report of one chain in the [GetStatus] arm: the node is asked for its
    height, and 0 stands for a failed request. *)
Definition report_chain (chain_id : Z) : St Process EvmError unit :=
  let* m := st_gets (get_chain chain_id) in
  match m with
  | Some monitor =>
      let* watched := st_gets (instance_watched monitor) in
      let* current_block := st_try (instance_current_block monitor) in
      let current_block := default 0 (result_ok current_block) in
      let* reported_at := now_utc in
      publish_logged (EvStatusReport
        {| sr_chain_id := chain_id;
           sr_watched_count := length watched;
           sr_current_block := current_block;
           sr_addresses :=
             (fun w => {| wai_address := wa_address w;
                          wai_invoice_id := wa_invoice_id w;
                          wai_token_contract := wa_token_contract w |}) <$> watched;
           sr_reported_at := reported_at |})
  | None => st_ret tt
  end.

(** The [GetStatus] arm. *)
Definition handle_get_status (cmd : GetStatusCommand) : St Process EvmError unit :=
  let* ids := (match gsc_chain_id cmd with
               | Some chain_id => st_ret [chain_id]
               | None => st_gets chain_ids
               end) in
  st_for ids report_chain.

(** One turn of the loop of [handle_commands]. *)
Definition handle_command (command : MonitorCommand) : St Process EvmError unit :=
  match command with
  | WatchAddress cmd => handle_watch cmd
  | UnwatchAddress cmd => handle_unwatch cmd
  | GetStatus cmd => handle_get_status cmd
  end.

(** [handle_commands], over the commands that arrive. *)
Definition handle_commands (commands : list MonitorCommand) : St Process EvmError unit :=
  st_for commands handle_command.

(** ** Restoration *)

(** The body of the loop of [restore_watched_addresses]. *)
Definition restore_one (monitored_chain_ids : list Z) (entry : string * string * string * option string)
  : St Process EvmError unit :=
  let '(address, invoice_id, chain_id, token_address) := entry in
  match evm_chain_id chain_id with
  | None => st_ret tt
  | Some eip155 =>
      if negb (bool_decide (eip155 ∈ monitored_chain_ids)) then st_ret tt
      else
        let* m := st_gets (get_chain eip155) in
        match m with
        | None => st_ret tt
        | Some monitor =>
            match parse_address address with
            | None => st_ret tt
            | Some parsed_address =>
                match parse_uuid invoice_id with
                | None => st_ret tt
                | Some uuid =>
                    let token_contract := token_address ≫= parse_address in
                    let* created_at := now_utc in
                    let watched :=
                      {| wa_address := parsed_address;
                         wa_invoice_id := uuid;
                         wa_expected_amount := None;
                         wa_token_contract := token_contract;
                         wa_created_at := created_at |} in
                    st_modify (co_alter monitor (watch watched))
                end
            end
        end
  end.

(** [restore_watched_addresses]: a failing read is only logged. *)
Definition restore_watched_addresses (monitored_chain_ids : list Z) : St Process EvmError unit :=
  let* r := st_try (on_redis get_all_watched) in
  match r with
  | Ok addresses => st_for addresses (restore_one monitored_chain_ids)
  | Err _ => st_ret tt
  end.

(** ** Startup *)

(** [create_chain_monitor]: the new monitor's place in the heap. *)
Definition create_chain_monitor (rpc_config : ChainRpcConfig) : St Process EvmError nat :=
  match get_any_chain_config (crc_chain_id rpc_config) with
  | None => st_throw (Monitor ("unknown chain id: " +:+ z_to_string (crc_chain_id rpc_config)))
  | Some chain_config =>
      let* p := st_get in
      let n := rd_ticks (pr_redis p) in
      do* st_modify (set_redis (rd_tick (pr_redis p)));
      let* source := st_lift (rpc_source_new n rpc_config) in
      let monitor := mkInstance chain_config (from_chain chain_config) source (new_monitor (clock n)) in
      do* st_modify (co_set_heap (co_heap p ++ [monitor]));
      st_ret (length (co_heap p))
  end.

(** Sleeping lets the process's other tasks run and time pass; nothing of the
    starting process is running yet. *)
Definition startup_sleep (d : Z) (p : Process) : Process := set_redis (rd_tick (pr_redis p)) p.

(** The closure [main] passes as [create]. *)
Definition create_for (chain_configs : list ChainRpcConfig) (chain_id : Z) : St Process EvmError nat :=
  match List.find (fun c => crc_chain_id c =? chain_id) chain_configs with
  | Some chain_config => create_chain_monitor chain_config
  | None => st_throw (Internal "chain id comes from chain_configs")
  end.

(** [main] up to the restoration: register the handlers, build and add the
    monitors. *)
Definition boot_chains (chain_configs : list ChainRpcConfig) : St Process EvmError unit :=
  do* st_modify (register_handler LoggingHandler);
  do* st_modify (register_handler BridgeHandler);
  start_monitors startup_sleep (crc_chain_id <$> chain_configs) STARTUP_ATTEMPTS STARTUP_INITIAL_DELAY
    (create_for chain_configs) (fun _ monitor => add_chain monitor).

(** [main] up to the point where commands are served. *)
Definition boot (chain_configs : list ChainRpcConfig) : St Process EvmError unit :=
  do* boot_chains chain_configs;
  do* restore_watched_addresses (crc_chain_id <$> chain_configs);
  st_modify co_start.
End Commands.
