(* ===== verification/CoordinatorFacts.v ===== *)
(** * Watches survive commands and restarts

    The monitor process against a specification whose state is only the set of
    watches: every command does to the process what it does to that set, both
    in the chain monitors' memory and in Redis, and a process that starts anew
    watches what the last one watched. *)

From stdpp Require Import gmap strings list.
From Stdlib Require Import ZArith Lia.
From S2P Require Import Prelude Events Network Monitor MonitorFacts MonitorLoop Decimal Database Services.
From S2P Require Import LiveWatch Startup Coordinator Commands.

(** ** The specification *)

(** Chain, address and token to invoice. *)
Abbreviation WatchSet := (gmap (Z * (Z * option Z)) Z).

Definition spec_command (cmd : MonitorCommand) (ws : WatchSet) : WatchSet :=
  match cmd with
  | WatchAddress c => <[(wac_chain_id c, (wac_address c, wac_token_contract c)) := wac_invoice_id c]> ws
  | UnwatchAddress c => delete (uac_chain_id c, (uac_address c, uac_token_contract c)) ws
  | GetStatus _ => ws
  end.

(** A chain id is a [u64]. *)
Definition command_ok (cmd : MonitorCommand) : Prop :=
  match cmd with
  | WatchAddress c => in_u64 (wac_chain_id c)
  | UnwatchAddress c => in_u64 (uac_chain_id c)
  | GetStatus _ => True
  end.

(** ** The monitor's task leaves the watches alone *)

Section Task.
Context `{BlockSource}.
Context (now : nat -> Instant) (u256_from_be_slice : list Z -> U256).
Context (chain_id : Z) (chain_name : string) (config : ChainMonitorConfig).

(** The watches stay and the channel only grows. *)
Definition grown (s s' : MonState) : Prop :=
  mon_watched s' = mon_watched s /\ mon_events s `prefix_of` mon_events s'.

Lemma grown_refl s : grown s s.
Proof. by split. Qed.

Lemma grown_trans s1 s2 s3 : grown s1 s2 -> grown s2 s3 -> grown s1 s3.
Proof. intros [? ?] [? ?]. split; [congruence | by etrans]. Qed.

Lemma grown_untick s s' : untick s = untick s' -> grown s s'.
Proof. intros Hu. split; [symmetry; by apply untick_watched | by rewrite (untick_events _ _ Hu)]. Qed.

Lemma grown_send e s : grown s (send e s).
Proof. split; [done | by eexists]. Qed.

Definition grows {A} (m : St MonState EvmError A) : Prop := forall s0, preserves (grown s0) m.

Lemma grows_modify f : (forall s, grown s (f s)) -> grows (st_modify f).
Proof. intros Hf s0 s Hs. eapply grown_trans; [exact Hs | apply Hf]. Qed.

Lemma grows_ro {A} (m : St MonState EvmError A) : read_only m -> grows m.
Proof.
  intros Hm s0 s Hs. destruct (m s) as [r s'] eqn:Hr. cbn. eapply grown_trans; [exact Hs|].
  apply grown_untick. symmetry. by eapply read_only_run.
Qed.

Lemma grows_record e : grows (record_detected e).
Proof.
  intros s0. unfold record_detected. apply preserves_bind; [|intros; by apply grows_modify, grown_send].
  destruct (tx_index e); [|apply preserves_ret]. apply grows_modify. by split.
Qed.

Lemma grows_handle_reorg f h b : grows (handle_reorg now chain_id config f h b).
Proof.
  intros s0. unfold handle_reorg. apply preserves_bind; [apply preserves_gets|]. intros pending.
  apply preserves_bind; [apply grows_ro, find_survived_ro|]. intros [sv v].
  apply preserves_bind; [apply preserves_gets|]. intros t. apply grows_modify, grown_send.
Qed.

Lemma grows_process b : grows (process_block now u256_from_be_slice chain_id config b).
Proof.
  intros s0. unfold process_block, check_continuity. apply preserves_bind.
  { apply preserves_bind; [apply preserves_gets|]. intros [h|]; (apply preserves_bind; [apply preserves_gets|]);
      intros [n|]; try apply preserves_ret.
    apply preserves_bind; [apply grows_ro, detect_fork_ro|].
    intros [f|]; [apply grows_handle_reorg | apply preserves_ret]. }
  intros _. apply preserves_bind; [apply preserves_gets|]. intros last.
  apply preserves_bind; [apply preserves_gets|]. intros w.
  assert (Hcur : forall n h, grows (st_modify (set_cursor n h))) by (intros; apply grows_modify; by split).
  assert (Hrec : forall ds, grows (st_for ds record_detected))
    by (intros ds s1; apply preserves_for; intros; apply grows_record).
  case_decide; [apply Hcur|]. apply preserves_bind.
  { destruct (missed_blocks last b) as [[from to]|]; [|apply preserves_ret]. unfold backfill_chunk.
    apply preserves_bind; [apply grows_ro, backfill_ro|]. intros [h ds].
    apply preserves_bind; [apply Hrec|]. intros _. apply preserves_bind; [apply Hcur|].
    intros _. apply preserves_ret. }
  intros [|]; [|apply preserves_ret]. unfold scan_block.
  apply preserves_bind; [destruct (monitor_native config); [apply grows_ro, check_native_ro | apply preserves_ret]|].
  intros d1.
  apply preserves_bind; [destruct (monitor_erc20 config); [apply grows_ro, check_erc20_ro | apply preserves_ret]|].
  intros d2. apply preserves_bind; [apply Hrec | intros; apply Hcur].
Qed.

Lemma grows_confirmations : grows (check_confirmations now).
Proof.
  intros s0. unfold check_confirmations. apply preserves_bind; [apply grows_ro, ro_query|]. intros cur.
  apply preserves_bind; [apply preserves_gets|]. intros pending.
  apply preserves_bind; [apply preserves_gets|]. intros t. apply preserves_bind.
  - apply preserves_for. intros kp _. apply grows_modify, grown_send.
  - intros _. apply grows_modify. by split.
Qed.

Lemma grows_resubscribe : grows (resubscribe_if_stalled now chain_id chain_name config).
Proof.
  intros s0. unfold resubscribe_if_stalled. apply preserves_bind; [apply grows_ro, get_health_ro|]. intros h.
  apply preserves_bind; [apply preserves_gets|]. intros t. apply preserves_bind; [apply preserves_gets|]. intros l.
  destruct (_ && _); [apply preserves_ret|]. apply preserves_bind; [apply grows_ro, ro_query|]. intros _.
  apply preserves_bind; [apply preserves_gets|]. intros t'. apply grows_modify. by split.
Qed.

Lemma turn_grows i s :
  grown s (snd (loop_iteration now u256_from_be_slice chain_id chain_name config i s)).
Proof.
  revert s. assert (Hm : grows (loop_iteration now u256_from_be_slice chain_id chain_name config i)).
  { intros s0. unfold loop_iteration. apply preserves_bind; [apply preserves_gets|]. intros t.
    apply preserves_bind; [apply grows_modify; by split|]. intros _. destruct i as [|[b|e]|].
    - apply preserves_bind; [apply grows_modify, grown_send | intros; apply preserves_ret].
    - apply preserves_bind; [apply grows_modify; by split|]. intros _.
      apply preserves_bind; [apply preserves_try, grows_process|]. intros r.
      apply preserves_bind; [|intros; apply preserves_ret].
      destruct r; [apply preserves_ret | apply grows_modify, grown_send].
    - apply preserves_ret.
    - apply preserves_bind; [apply preserves_try, grows_confirmations|]. intros _.
      apply preserves_bind; [apply preserves_try, grows_resubscribe | intros; apply preserves_ret]. }
  intros s. apply Hm, grown_refl.
Qed.

Lemma start_grows s : grown s (snd (start now chain_id s)).
Proof.
  assert (Hm : grows (start now chain_id)); [|apply Hm, grown_refl].
  intros s0. unfold start. apply preserves_bind; [apply preserves_gets|]. intros [|]; [apply preserves_throw|].
  apply preserves_bind; [apply grows_modify; by split|]. intros _.
  apply preserves_bind; [apply grows_ro, ro_query|]. intros _.
  apply preserves_bind; [apply preserves_gets|]. intros t.
  apply preserves_bind; [apply grows_modify; by split|]. intros _. apply grows_modify, grown_send.
Qed.
End Task.

(** ** The relation to the specification *)

Section Refinement.
Context `{Runtime} `{RedisScan} `{!RedisScanLaws} `{Formats} `{!FormatLaws} `{UuidText} `{!WatchTextLaws} `{RpcConnect}.
Context (u256_from_be_slice : list Z -> U256).

Definition addr_text (a : Z) : string := to_lowercase (fmt_address a).

(** The key the process uses for a watch. *)
Definition watch_key (c : Z) (k : Z * option Z) : string :=
  watched_address_key c (addr_text k.1) (addr_text <$> k.2).

(** Redis holds exactly the watches of the specification, among the keys that
    parse as watches. *)
Definition stored (ws : WatchSet) (keys : gmap string string) : Prop :=
  (forall c k, in_u64 c -> keys !! watch_key c k = uuid_to_string <$> ws !! (c, k)) /\
  (forall key invoice v, keys !! key = Some invoice -> parse_watched_address_key key = Some v ->
     exists c k, in_u64 c /\ key = watch_key c k) /\
  (forall c k u, ws !! (c, k) = Some u -> in_u64 c).

(** The invoice a shared monitor has for a watch. *)
Definition invoice_at (p : Process) (i : nat) (k : Z * option Z) : option Z :=
  inst ← co_heap p !! i; wa_invoice_id <$> mon_watched (in_state inst) !! k.

(** Every handle is filed under its monitor's chain. *)
Definition filed (p : Process) : Prop :=
  forall c h, co_monitors p !! c = Some h ->
    exists inst, co_heap p !! mh_monitor h = Some inst /\ cc_chain_id (in_chain inst) = c.

(** Each monitor watches exactly the watches of its chain. *)
Definition in_memory (ws : WatchSet) (p : Process) : Prop :=
  filed p /\
  forall c h k, co_monitors p !! c = Some h -> invoice_at p (mh_monitor h) k = ws !! (c, k).

(** *** Keys *)

Lemma addr_text_no_colon a : has_colon (addr_text a) = false.
Proof. unfold addr_text. rewrite has_colon_lower. apply fmt_address_no_colon. Qed.

Lemma addr_text_inj a b : addr_text a = addr_text b -> a = b.
Proof.
  intros He. pose proof (parse_address_lower a) as Ha. unfold addr_text in He.
  rewrite He, parse_address_lower in Ha. congruence.
Qed.

Lemma addr_text_not_native a : String.eqb (addr_text a) NATIVE_TOKEN = false.
Proof.
  apply String.eqb_neq. intros He. pose proof (parse_address_lower a) as Ha. unfold addr_text in He.
  rewrite He, parse_address_native in Ha. done.
Qed.

Lemma parse_watch_key c k :
  in_u64 c -> parse_watched_address_key (watch_key c k) = Some (c, addr_text k.1, addr_text <$> k.2).
Proof.
  intros Hc. unfold watch_key, parse_watched_address_key.
  rewrite split_watched_address_key;
    [|apply addr_text_no_colon | destruct k.2; [apply addr_text_no_colon | done]].
  cbn [negb orb String.eqb]. rewrite parse_u64_to_string by done. cbn [mbind option_bind].
  unfold addr_text. rewrite to_lowercase_idem. destruct k as [a [t|]]; cbn; [|done].
  rewrite to_lowercase_idem. fold (addr_text t). by rewrite addr_text_not_native.
Qed.

Lemma watch_key_inj c k c' k' : in_u64 c -> in_u64 c' -> watch_key c k = watch_key c' k' -> (c, k) = (c', k').
Proof.
  intros Hc Hc' He. pose proof (parse_watch_key c k Hc) as Hp. rewrite He, parse_watch_key in Hp by done.
  injection Hp as -> Ha Ht. apply addr_text_inj in Ha. destruct k as [a t], k' as [a' t']. cbn in *. subst.
  f_equal. f_equal. destruct t, t'; try done. injection Ht as Ht. f_equal. by apply addr_text_inj.
Qed.

Lemma stored_insert ws keys c k u :
  in_u64 c -> stored ws keys ->
  stored (<[(c, k) := u]> ws) (<[watch_key c k := uuid_to_string u]> keys).
Proof.
  intros Hc (Hs & Hk & Hu). split; [|split].
  - intros c' k' Hc'. destruct (decide ((c, k) = (c', k'))) as [[= <- <-]|Hne].
    + by rewrite !lookup_insert_eq.
    + rewrite !lookup_insert_ne; [by apply Hs | done | intros He; by apply Hne, watch_key_inj].
  - intros key inv v Hkey Hp. destruct (decide (key = watch_key c k)) as [->|Hne]; [eauto|].
    rewrite lookup_insert_ne in Hkey by done. eauto.
  - intros c' k' u' [[[= <- <-] _]|[_ Hl]]%lookup_insert_Some; eauto.
Qed.

Lemma stored_delete ws keys c k :
  in_u64 c -> stored ws keys -> stored (delete (c, k) ws) (delete (watch_key c k) keys).
Proof.
  intros Hc (Hs & Hk & Hu). split; [|split].
  - intros c' k' Hc'. destruct (decide ((c, k) = (c', k'))) as [[= <- <-]|Hne].
    + by rewrite !lookup_delete_eq.
    + rewrite !lookup_delete_ne; [by apply Hs | done | intros He; by apply Hne, watch_key_inj].
  - intros key inv v [_ Hkey]%lookup_delete_Some Hp. eauto.
  - intros c' k' u [_ Hl]%lookup_delete_Some. eauto.
Qed.

(** *** Memory *)

Lemma heap_alter i f p j inst :
  co_heap p !! j = Some inst ->
  co_heap (co_alter i f p) !! j
  = Some (if decide (i = j) then in_set_state (f (in_state inst)) inst else inst).
Proof.
  intros Hj. cbn. case_decide as He; [subst; by rewrite list_lookup_alter_eq, Hj|].
  by rewrite list_lookup_alter_ne.
Qed.

Lemma filed_alter i f p : filed p -> filed (co_alter i f p).
Proof.
  intros Hf c h Hh. destruct (Hf c h Hh) as (inst & Hi & Hc). rewrite (heap_alter _ _ _ _ _ Hi).
  eexists. split; [done|]. by case_decide.
Qed.

(** Changing the state of one chain's monitor changes that chain's watches. *)
Lemma in_memory_alter ws ws' p c h f :
  in_memory ws p -> co_monitors p !! c = Some h ->
  (forall s k, (forall k, wa_invoice_id <$> mon_watched s !! k = ws !! (c, k)) ->
     wa_invoice_id <$> mon_watched (f s) !! k = ws' !! (c, k)) ->
  (forall c' k, c' <> c -> ws' !! (c', k) = ws !! (c', k)) ->
  in_memory ws' (co_alter (mh_monitor h) f p).
Proof.
  intros [Hf Hm] Hh Hsame Hother. split; [by apply filed_alter|]. intros c' h' k Hh'. cbn in Hh'.
  destruct (Hf c h Hh) as (inst & Hi & Hc). destruct (Hf c' h' Hh') as (inst' & Hi' & Hc').
  unfold invoice_at. rewrite (heap_alter _ _ _ _ _ Hi'). cbn. case_decide as He.
  - assert (inst = inst') as -> by congruence. assert (c' = c) as -> by congruence. cbn. apply Hsame.
    intros k'. specialize (Hm c h k' Hh). unfold invoice_at in Hm. by rewrite Hi in Hm.
  - assert (c' <> c) by (intros ->; congruence). rewrite Hother by done.
    specialize (Hm c' h' k Hh'). unfold invoice_at in Hm. by rewrite Hi' in Hm.
Qed.

(** A step that keeps the handles and every monitor's chain and watches. *)
Definition same_watches (p p' : Process) : Prop :=
  co_monitors p' = co_monitors p /\
  forall i inst, co_heap p !! i = Some inst ->
    exists inst', co_heap p' !! i = Some inst' /\ in_chain inst' = in_chain inst /\
      mon_watched (in_state inst') = mon_watched (in_state inst).

Lemma same_watches_refl p : same_watches p p.
Proof. split; [done|]. eauto. Qed.

Lemma same_watches_trans p1 p2 p3 : same_watches p1 p2 -> same_watches p2 p3 -> same_watches p1 p3.
Proof.
  intros [Hm Hh] [Hm' Hh']. split; [congruence|]. intros i inst Hi.
  destruct (Hh i inst Hi) as (inst2 & Hi2 & Hc & Hw). destruct (Hh' i inst2 Hi2) as (inst3 & Hi3 & Hc' & Hw').
  exists inst3. repeat split; congruence.
Qed.

Lemma same_watches_heap p p' : co_monitors p' = co_monitors p -> co_heap p' = co_heap p -> same_watches p p'.
Proof. intros Hm Hh. split; [done|]. rewrite Hh. eauto. Qed.

Lemma same_watches_alter p i f :
  (forall s, mon_watched (f s) = mon_watched s) -> same_watches p (co_alter i f p).
Proof.
  intros Hf. split; [done|]. intros j inst Hj. rewrite (heap_alter _ _ _ _ _ Hj). eexists. split; [done|].
  case_decide; [by rewrite <- (Hf (in_state inst)) | done].
Qed.

Lemma same_watches_put p i inst s :
  co_heap p !! i = Some inst -> mon_watched s = mon_watched (in_state inst) ->
  same_watches p (co_alter i (fun _ => s) p).
Proof.
  intros Hi Hs. split; [done|]. intros j inst' Hj. rewrite (heap_alter _ _ _ _ _ Hj). eexists. split; [done|].
  case_decide; [|done]. subst. assert (inst' = inst) as -> by congruence. done.
Qed.

Lemma in_memory_same ws p p' : same_watches p p' -> in_memory ws p -> in_memory ws p'.
Proof.
  intros [Hm Hh] [Hf Hw]. split.
  - intros c h Hc. rewrite Hm in Hc. destruct (Hf c h Hc) as (inst & Hi & Hid).
    destruct (Hh _ _ Hi) as (inst' & Hi' & Hc' & _). exists inst'. split; [done|]. congruence.
  - intros c h k Hc. rewrite Hm in Hc. specialize (Hw c h k Hc). destruct (Hf c h Hc) as (inst & Hi & _).
    destruct (Hh _ _ Hi) as (inst' & Hi' & _ & Hww). unfold invoice_at in *. rewrite Hi in Hw. rewrite Hi'. cbn in *.
    by rewrite Hww.
Qed.

(** *** Commands *)

Lemma lookup_total_watch (w : WatchedAddress) s k :
  wa_invoice_id <$> mon_watched (watch w s) !! k =
  if decide ((wa_address w, wa_token_contract w) = k) then Some (wa_invoice_id w)
  else wa_invoice_id <$> mon_watched s !! k.
Proof.
  cbn. case_decide as He; [by rewrite He, lookup_insert_eq | by rewrite lookup_insert_ne].
Qed.

Lemma publish_logged_same e p : same_watches p (snd (publish_logged e p)).
Proof.
  unfold publish_logged, st_bind, st_try, on_redis. destruct (bridge_publish e (pr_redis p)).
  by apply same_watches_heap.
Qed.

Lemma publish_logged_keys e p : rd_keys (pr_redis (snd (publish_logged e p))) = rd_keys (pr_redis p).
Proof.
  unfold publish_logged, st_bind, st_try, on_redis, bridge_publish, redis_request.
  by destruct (calls (rd_ticks (pr_redis p))).
Qed.

(** The process has the watches [ws] in memory, and Redis has [kept]. *)
Definition refines (ws kept : WatchSet) (p : Process) : Prop :=
  in_memory ws p /\ stored kept (rd_keys (pr_redis p)).

Lemma refines_publish ws kept e p : refines ws kept p -> refines ws kept (snd (publish_logged e p)).
Proof.
  intros [Hm Hs]. split; [by eapply in_memory_same; [apply publish_logged_same|]|].
  by rewrite publish_logged_keys.
Qed.

(** The next request to Redis does not reach it. *)
Definition next_lost (p : Process) : bool :=
  match calls (rd_ticks (pr_redis p)) with NotSent => true | _ => false end.

(** A write changes the keys unless it is lost. *)
Lemma redis_write_keys {E A} (fault : E) (op : Redis -> A * Redis) f p :
  (forall r, rd_keys (snd (op r)) = f (rd_keys r)) ->
  exists r x, on_redis (redis_request fault op) p = (r, set_redis x p) /\
    rd_keys x = if next_lost p then rd_keys (pr_redis p) else f (rd_keys (pr_redis p)).
Proof.
  intros Hop. specialize (Hop (rd_tick (pr_redis p))). unfold on_redis, redis_request, next_lost.
  destruct (calls _), (op (rd_tick (pr_redis p))) as [a x]; eauto.
Qed.

Lemma in_memory_unmonitored ws p c k o :
  co_monitors p !! c = None -> in_memory ws p ->
  in_memory (partial_alter (fun _ => o) (c, k) ws) p.
Proof.
  intros Hc [Hf Hm]. split; [done|]. intros c' h k' Hh. rewrite (Hm c' h k' Hh).
  rewrite lookup_partial_alter_ne; [done|]. intros [= -> ->]. congruence.
Qed.

Lemma handle_watch_refines ws kept cmd p :
  in_u64 (wac_chain_id cmd) -> refines ws kept p ->
  refines (spec_command (WatchAddress cmd) ws)
    (if next_lost p then kept else spec_command (WatchAddress cmd) kept) (snd (handle_watch cmd p)).
Proof.
  intros Hc [Hm Hs]. set (c := wac_chain_id cmd) in *. set (k := (wac_address cmd, wac_token_contract cmd)).
  unfold handle_watch, watch_address. rewrite evm_chain_id_roundtrip.
  set (op := fun r => (tt, rd_set_keys _ r)).
  destruct (redis_write_keys (Database "redis set failed") op
    (insert (watch_key c k) (uuid_to_string (wac_invoice_id cmd))) p (fun _ => eq_refl)) as (r & x & Hr & Hx).
  unfold st_bind at 1, st_try. rewrite Hr. clear Hr. set (p1 := set_redis x p).
  assert (Hs1 : stored (if next_lost p then kept else <[(c, k) := wac_invoice_id cmd]> kept) (rd_keys (pr_redis p1))).
  { unfold p1. cbn [pr_redis set_redis]. rewrite Hx. destruct (next_lost p); [exact Hs | by apply stored_insert]. }
  assert (Hm1 : in_memory ws p1) by (eapply in_memory_same; [|exact Hm]; by apply same_watches_heap).
  unfold st_bind at 1, st_gets, get_chain. change (co_monitors p1) with (co_monitors p). fold c.
  destruct (co_monitors p !! c) as [h|] eqn:Hh; cbn [fmap option_fmap option_map].
  - unfold st_bind at 1, now_utc, st_gets. unfold st_bind at 1, st_modify. unfold st_bind at 1, now_utc, st_gets.
    apply refines_publish. split; [|exact Hs1]. eapply (in_memory_alter ws); [exact Hm1 | exact Hh | |].
    + intros s k' Hk. rewrite lookup_total_watch. cbn [wa_address wa_token_contract wa_invoice_id]. fold k.
      cbn [spec_command]. case_decide as He; [subst k'; by rewrite lookup_insert_eq|].
      rewrite lookup_insert_ne by (intros [= Heq]; by apply He). apply Hk.
    + intros c' k' Hne. cbn [spec_command]. rewrite lookup_insert_ne; [done|]. unfold c in Hne. congruence.
  - split; [|exact Hs1]. by apply in_memory_unmonitored.
Qed.

Lemma handle_unwatch_refines ws kept cmd p :
  in_u64 (uac_chain_id cmd) -> refines ws kept p ->
  refines (spec_command (UnwatchAddress cmd) ws)
    (if next_lost p then kept else spec_command (UnwatchAddress cmd) kept) (snd (handle_unwatch cmd p)).
Proof.
  intros Hc [Hm Hs]. set (c := uac_chain_id cmd) in *. set (k := (uac_address cmd, uac_token_contract cmd)).
  unfold handle_unwatch, unwatch_address. rewrite evm_chain_id_roundtrip.
  set (op := fun r => (_, rd_set_keys _ r)).
  destruct (redis_write_keys (Database "redis del failed") op (delete (watch_key c k)) p (fun _ => eq_refl))
    as (r & x & Hr & Hx).
  unfold st_bind at 1, st_try. rewrite Hr. clear Hr. set (p1 := set_redis x p).
  assert (Hs1 : stored (if next_lost p then kept else delete (c, k) kept) (rd_keys (pr_redis p1))).
  { unfold p1. cbn [pr_redis set_redis]. rewrite Hx. destruct (next_lost p); [exact Hs | by apply stored_delete]. }
  assert (Hm1 : in_memory ws p1) by (eapply in_memory_same; [|exact Hm]; by apply same_watches_heap).
  unfold st_bind at 1, st_gets, get_chain. change (co_monitors p1) with (co_monitors p). fold c.
  destruct (co_monitors p !! c) as [h|] eqn:Hh; cbn [fmap option_fmap option_map].
  - unfold st_bind at 1, st_gets. unfold st_bind at 1, st_modify.
    apply refines_publish. split; [|exact Hs1]. eapply (in_memory_alter ws); [exact Hm1 | exact Hh | |].
    + intros s k' Hk. cbn [unwatch snd mon_watched set_watched spec_command]. fold k.
      destruct (decide (k = k')) as [<-|He]; [by rewrite !lookup_delete_eq|].
      rewrite !lookup_delete_ne by (done || intros [= Heq]; by apply He). apply Hk.
    + intros c' k' Hne. cbn [spec_command]. rewrite lookup_delete_ne; [done|]. unfold c in Hne. congruence.
  - split; [|exact Hs1]. by apply in_memory_unmonitored.
Qed.

(** Asking a node for its height only takes time. *)
Lemma instance_current_block_frame i p :
  same_watches p (snd (instance_current_block i p)) /\ pr_redis (snd (instance_current_block i p)) = pr_redis p.
Proof.
  unfold instance_current_block. destruct (co_heap p !! i) as [inst|] eqn:Hi; [|split; [apply same_watches_refl | done]].
  destruct (current_block _) as [r s] eqn:Hc. split; [|done]. eapply same_watches_put; [exact Hi|].
  symmetry. apply untick_watched. symmetry. by apply (read_only_run _ _ _ _ (ro_query _) Hc).
Qed.

Lemma handle_get_status_refines ws kept cmd p :
  refines ws kept p -> refines ws kept (snd (handle_get_status cmd p)).
Proof.
  revert p. change (preserves (refines ws kept) (handle_get_status cmd)). unfold handle_get_status.
  apply preserves_bind; [destruct (gsc_chain_id cmd); [apply preserves_ret | apply preserves_gets]|]. intros ids.
  apply preserves_for. intros c _. unfold report_chain.
  apply preserves_bind; [apply preserves_gets|]. intros [i|]; [|apply preserves_ret].
  apply preserves_bind; [apply preserves_gets|]. intros watched.
  apply preserves_bind; [|intros current; apply preserves_bind;
    [apply preserves_gets | intros at_ p; apply refines_publish]].
  apply preserves_try. intros p [Hm Hs]. destruct (instance_current_block_frame i p) as [Hsame Hr].
  split; [by eapply in_memory_same | by rewrite Hr].
Qed.

(** The first request of a watch or unwatch command is its write to Redis. *)
Definition write_lost (cmd : MonitorCommand) (p : Process) : bool :=
  match cmd with GetStatus _ => false | _ => next_lost p end.

Lemma handle_command_refines ws kept cmd p :
  command_ok cmd -> refines ws kept p ->
  refines (spec_command cmd ws) (if write_lost cmd p then kept else spec_command cmd kept)
    (snd (handle_command cmd p)).
Proof.
  destruct cmd; cbn [write_lost command_ok handle_command];
    auto using handle_watch_refines, handle_unwatch_refines, handle_get_status_refines.
Qed.
End Refinement.
