(* ===== verification/MonitorProcess.v ===== *)
(** * Runs of the monitor process

    Restarting restores exactly the stored watches; every run of the process,
    with commands, turns of the monitors' loops, routing and restarts, keeps the
    watches of memory and Redis those of the specification. *)

From stdpp Require Import gmap strings list relations.
From Stdlib Require Import ZArith Lia.
From S2P Require Import Prelude Events Network Monitor MonitorFacts MonitorLoop Decimal Database Services.
From S2P Require Import LiveWatch Startup Coordinator Commands CoordinatorFacts.

Section Boot.
Context `{Runtime} `{RedisScan} `{!RedisScanLaws} `{Formats} `{!FormatLaws} `{UuidText} `{!WatchTextLaws} `{RpcConnect}.
Context (u256_from_be_slice : list Z -> U256).

(** ** Building the monitors *)

(** Before the restoration: nothing is watched yet. *)
Definition blank (ids : list Z) (inst : Instance) : Prop :=
  mon_watched (in_state inst) = ∅ /\ cc_chain_id (in_chain inst) ∈ ids.

Definition unwatched (ids : list Z) (keys : gmap string string) (p : Process) : Prop :=
  filed p /\ (forall i inst, co_heap p !! i = Some inst -> blank ids inst) /\
  rd_keys (pr_redis p) = keys.

Lemma filed_snoc inst p : filed p -> filed (co_set_heap (co_heap p ++ [inst]) p).
Proof.
  intros Hf c h Hh. destruct (Hf c h Hh) as (inst' & Hi & Hc). exists inst'. split; [|done].
  cbn. by apply lookup_app_l_Some.
Qed.

(** Creating a monitor counts a request and extends the heap. *)
Lemma preserves_create_for (I : Process -> Prop) cfgs c :
  (forall p r, I p -> rd_keys r = rd_keys (pr_redis p) -> I (set_redis r p)) ->
  (forall p inst, I p -> blank (crc_chain_id <$> cfgs) inst -> I (co_set_heap (co_heap p ++ [inst]) p)) ->
  preserves I (create_for cfgs c).
Proof.
  intros Hr Hh. unfold create_for. destruct (List.find _ cfgs) as [cfg|] eqn:Hf; [|apply preserves_throw].
  apply List.find_some in Hf as [Hin _]. apply list_elem_of_In in Hin.
  intros p Hp. unfold create_chain_monitor. destruct (get_any_chain_config _) as [cc|] eqn:Hcc; [|done].
  apply any_chain_config_spec in Hcc as [_ Hcc].
  unfold st_bind at 1, st_get. unfold st_bind at 1, st_modify.
  pose proof (Hr p (rd_tick (pr_redis p)) Hp eq_refl) as Hp1.
  unfold st_bind at 1, st_lift. destruct (rpc_source_new _ cfg) as [src|e]; [|done].
  unfold st_bind, st_modify, st_ret. cbn [snd]. apply (Hh _ _ Hp1). split; [done|]. cbn. rewrite Hcc.
  apply list_elem_of_fmap. eauto.
Qed.

Lemma unwatched_redis ids keys p r :
  unwatched ids keys p -> rd_keys r = rd_keys (pr_redis p) -> unwatched ids keys (set_redis r p).
Proof. intros (Hf & Hw & Hk) Hr. split; [exact Hf|]. split; [exact Hw | cbn; congruence]. Qed.

Lemma unwatched_snoc ids keys p inst :
  unwatched ids keys p -> blank ids inst -> unwatched ids keys (co_set_heap (co_heap p ++ [inst]) p).
Proof.
  intros (Hf & Hw & Hk) Hi. split; [by apply filed_snoc|]. split; [|exact Hk].
  intros i inst' [Hl|[_ Hl]]%lookup_app_Some; [by eapply Hw|]. by apply list_lookup_singleton_Some in Hl as [_ <-].
Qed.

Lemma unwatched_add ids keys i : preserves (unwatched ids keys) (add_chain i).
Proof.
  intros p (Hf & Hw & Hk). unfold add_chain, st_bind at 1, st_get. destruct (co_heap p !! i) as [inst|] eqn:Hi; [|done].
  case_bool_decide; [done|]. split; [|split; [exact Hw | exact Hk]].
  intros c h. cbn. destruct (decide (cc_chain_id (in_chain inst) = c)) as [<-|Hne].
  - rewrite lookup_insert_eq. intros [= <-]. eauto.
  - rewrite lookup_insert_ne by done. apply Hf.
Qed.

(** The monitor built for chain [c] is at [i]. *)
Definition built (c : Z) (i : nat) (p : Process) : Prop :=
  exists inst, co_heap p !! i = Some inst /\ cc_chain_id (in_chain inst) = c.

Lemma built_snoc c i p inst : built c i p -> built c i (co_set_heap (co_heap p ++ [inst]) p).
Proof. intros (inst' & Hi & Hc). exists inst'. split; [|done]. cbn. by apply lookup_app_l_Some. Qed.

Lemma created_built cfgs c i p p' : create_for cfgs c p = (Ok i, p') -> built c i p'.
Proof.
  unfold create_for. destruct (List.find _ cfgs) as [cfg|] eqn:Hf; [|done].
  apply List.find_some in Hf as [_ Hid%Z.eqb_eq]. unfold create_chain_monitor. rewrite Hid.
  destruct (get_any_chain_config c) as [cc|] eqn:Hcc; [|done].
  apply any_chain_config_spec in Hcc as [_ Hcc]. unfold st_bind at 1, st_get. unfold st_bind at 1, st_modify.
  unfold st_bind at 1, st_lift. destruct (rpc_source_new _ cfg) as [src|e]; [|done].
  unfold st_bind, st_modify, st_ret. intros [= <- <-]. unfold built. cbn.
  rewrite list_lookup_middle by done. by eexists.
Qed.

Lemma add_chain_filed c i p p' :
  built c i p -> add_chain i p = (Ok tt, p') -> co_heap p' = co_heap p /\ is_Some (co_monitors p' !! c).
Proof.
  intros (inst & Hi & Hc). unfold add_chain, st_bind at 1, st_get. rewrite Hi, Hc. case_bool_decide; [done|].
  intros [= <-]. split; [done|]. cbn. rewrite lookup_insert_eq. eauto.
Qed.

Lemma add_chain_keeps c i p p' :
  add_chain i p = (Ok tt, p') -> is_Some (co_monitors p !! c) -> is_Some (co_monitors p' !! c).
Proof.
  unfold add_chain, st_bind at 1, st_get. destruct (co_heap p !! i) as [inst|]; [|done]. case_bool_decide; [done|].
  intros [= <-] Hc. cbn. destruct (decide (cc_chain_id (in_chain inst) = c)) as [<-|];
    [rewrite lookup_insert_eq; eauto | by rewrite lookup_insert_ne].
Qed.

Lemma add_all_filed ms p p' :
  Forall (fun cm => built cm.1 cm.2 p) ms ->
  st_for ms (fun '(_, i) => add_chain i) p = (Ok tt, p') ->
  (forall c, is_Some (co_monitors p !! c) -> is_Some (co_monitors p' !! c)) /\
  (forall c, c ∈ ms.*1 -> is_Some (co_monitors p' !! c)).
Proof.
  revert p. induction ms as [|[c i] ms IH]; intros p Hb; cbn [st_for].
  { intros [= <-]. split; [done|]. cbn. intros c Hc. by apply not_elem_of_nil in Hc. }
  apply Forall_cons in Hb as [Hc Hb]. intros Hr. inv_ok Hr as u p1 Hadd Hrest. destruct u.
  destruct (add_chain_filed c i p p1 Hc Hadd) as [Hheap Hin].
  destruct (IH p1) as [Hk Hms]; [|done|].
  { eapply Forall_impl; [exact Hb|]. intros [c' i'] (inst & Hi & Hid). exists inst. by rewrite Hheap. }
  split.
  - intros c' Hc'. apply Hk. by eapply add_chain_keeps.
  - cbn. intros c' [->|Hc']%elem_of_cons; auto.
Qed.

(** Wherever the build ends, nothing is watched and Redis has the keys it had. *)
Lemma boot_chains_keeps cfgs cfg r :
  unwatched (crc_chain_id <$> cfgs) (rd_keys r) (snd (boot_chains cfgs (coordinator_new cfg r))).
Proof.
  set (I := unwatched (crc_chain_id <$> cfgs) (rd_keys r)).
  enough (Hp : preserves I (boot_chains cfgs)) by (apply Hp; by split).
  unfold boot_chains. apply preserves_bind; [by intros p Hp|]. intros _.
  apply preserves_bind; [by intros p Hp|]. intros _. unfold start_monitors.
  apply preserves_bind; [|intros ms; apply preserves_for; intros [c i] _; apply unwatched_add].
  apply preserves_build; [intros d t Ht; by apply unwatched_redis|]. intros c _.
  apply preserves_create_for; unfold I; eauto using unwatched_redis, unwatched_snoc.
Qed.

(** After the build every configured chain is monitored and watches nothing. *)
Lemma boot_chains_run cfgs cfg r p :
  boot_chains cfgs (coordinator_new cfg r) = (Ok tt, p) ->
  unwatched (crc_chain_id <$> cfgs) (rd_keys r) p /\ forall c, c ∈ crc_chain_id <$> cfgs -> is_Some (co_monitors p !! c).
Proof.
  intros Hrun. split; [pose proof (boot_chains_keeps cfgs cfg r) as Hk; by rewrite Hrun in Hk|].
  revert Hrun. unfold boot_chains, st_bind at 1, st_modify. unfold st_bind at 1. set (p0 := register_handler _ _).
  unfold start_monitors. intros Hr. inv_ok Hr as ms p1 Hb Hreg.
  assert (Hbuilt : Forall (fun cm => built cm.1 cm.2 p1) ms).
  { eapply (build_monitors_each startup_sleep (fun _ => True) built (create_for cfgs)); try exact Hb; try done.
    - intros c i c'. apply preserves_create_for; [by intros | intros; by apply built_snoc].
    - intros c i t t' _. apply created_built. }
  apply add_all_filed in Hreg as [_ Hall]; [|done].
  unfold build_monitors in Hb. apply (build_monitors_outcome startup_sleep) in Hb as [(ms' & [= ->] & Hms)|(?&?&?&_&?&_)]; [|done].
  cbn in Hall. by rewrite <- Hms.
Qed.

(** ** Restoring the watches *)

(** The record of a watch that the store returns. *)
Definition watch_entry (c : Z) (k : Z * option Z) (u : Z) : string * string * string * option string :=
  (addr_text k.1, uuid_to_string u, chain_id_evm c, addr_text <$> k.2).

Lemma stored_entries ws keys x :
  stored ws keys ->
  (exists key invoice, keys !! key = Some invoice /\ entry_of key invoice = Some x) <->
  (exists c k u, ws !! (c, k) = Some u /\ x = watch_entry c k u).
Proof.
  intros (Hs & Hk & Hu). unfold entry_of, watch_entry. split.
  - intros (key & invoice & Hkey & Hp). destruct (parse_watched_address_key key) as [v|] eqn:Hv; [|done].
    destruct (Hk key invoice v Hkey Hv) as (c & k & Hc & ->). rewrite parse_watch_key in Hv by done.
    rewrite Hs in Hkey by done. apply fmap_Some in Hkey as (u & Hws & ->). injection Hv as <-. cbn in Hp.
    injection Hp as <-. eauto.
  - intros (c & k & u & Hws & ->). pose proof (Hu c k u Hws) as Hc. exists (watch_key c k), (uuid_to_string u).
    rewrite Hs, Hws, parse_watch_key by done. done.
Qed.

(** Watching an address on one chain's monitor. *)
Lemma invoice_at_watch p c h w c' h' k :
  filed p -> co_monitors p !! c = Some h -> co_monitors p !! c' = Some h' ->
  invoice_at (co_alter (mh_monitor h) (watch w) p) (mh_monitor h') k =
  if decide (c = c' /\ (wa_address w, wa_token_contract w) = k) then Some (wa_invoice_id w)
  else invoice_at p (mh_monitor h') k.
Proof.
  intros Hf Hh Hh'. destruct (Hf c h Hh) as (inst & Hi & Hc). destruct (Hf c' h' Hh') as (inst' & Hi' & Hc').
  unfold invoice_at. rewrite (heap_alter _ _ _ _ _ Hi'), Hi'. cbn [mbind option_bind].
  destruct (decide (mh_monitor h = mh_monitor h')) as [He|Hne].
  - assert (c = c') as <- by congruence. cbn [in_set_state in_state]. rewrite lookup_total_watch.
    repeat case_decide; naive_solver.
  - case_decide as Hd; [|done]. destruct Hd as [<- _]. congruence.
Qed.

Lemma restore_one_run ids c k u p :
  exists p', restore_one ids (watch_entry c k u) p = (Ok tt, p') /\
    (p' = p /\ (c ∉ ids \/ co_monitors p !! c = None) \/
     exists h w, co_monitors p !! c = Some h /\ c ∈ ids /\ p' = co_alter (mh_monitor h) (watch w) p /\
       (wa_address w, wa_token_contract w) = k /\ wa_invoice_id w = u).
Proof.
  unfold restore_one, watch_entry. rewrite evm_chain_id_roundtrip. case_bool_decide as Hin; cbn [negb];
    [|exists p; split; [done|]; left; by auto].
  unfold st_bind at 1, st_gets, get_chain. destruct (co_monitors p !! c) as [h|] eqn:Hh; cbn;
    [|exists p; split; [done|]; left; by auto].
  unfold addr_text at 1. rewrite parse_address_lower, parse_uuid_fmt. cbn. eexists. split; [done|]. right.
  eexists h, _. split; [done|]. split; [done|]. split; [done|]. cbn. split; [|done].
  destruct k as [a [t|]]; cbn; [|done]. unfold addr_text. by rewrite parse_address_lower.
Qed.

(** Restoring a list of records of [ws]. *)
Lemma restore_all (ws : WatchSet) ids l p :
  (forall x, x ∈ l -> exists c k u, ws !! (c, k) = Some u /\ x = watch_entry c k u) -> filed p ->
  exists p', st_for l (restore_one ids) p = (Ok tt, p') /\ co_monitors p' = co_monitors p /\
    pr_redis p' = pr_redis p /\ filed p' /\
    forall c h k, co_monitors p !! c = Some h ->
      (invoice_at p' (mh_monitor h) k = invoice_at p (mh_monitor h) k \/
       invoice_at p' (mh_monitor h) k = ws !! (c, k)) /\
      (forall u, c ∈ ids -> ws !! (c, k) = Some u -> watch_entry c k u ∈ l ->
         invoice_at p' (mh_monitor h) k = Some u).
Proof.
  revert p. induction l as [|x l IH]; intros p Hl Hf.
  { exists p. repeat split; [exact Hf | by left |]. intros u _ _ Hin. by apply not_elem_of_nil in Hin. }
  destruct (Hl x) as (c & k & u & Hws & ->); [by left|]. rewrite for_cons.
  destruct (restore_one_run ids c k u p) as (p1 & -> & Hp1).
  assert (Hone : co_monitors p1 = co_monitors p /\ pr_redis p1 = pr_redis p /\ filed p1 /\
    forall c' h k', co_monitors p !! c' = Some h ->
      (invoice_at p1 (mh_monitor h) k' = invoice_at p (mh_monitor h) k' \/
       invoice_at p1 (mh_monitor h) k' = ws !! (c', k')) /\
      (c' ∈ ids -> (c, k) = (c', k') -> invoice_at p1 (mh_monitor h) k' = Some u)).
  { destruct Hp1 as [[-> Hno]|(h & w & Hh & Hin & -> & Hk & Hu)].
    - split; [done|]. split; [done|]. split; [done|]. intros c' h k' Hh. split; [by left|].
      intros Hin [= <- <-]. destruct Hno; [done | congruence].
    - split; [done|]. split; [done|]. split; [by apply filed_alter|]. intros c' h' k' Hh'.
      rewrite (invoice_at_watch p c h w c' h' k') by done. rewrite Hk, Hu. case_decide as Hd.
      + destruct Hd as [<- <-]. split; [by right | done].
      + split; [by left|]. intros _ [= <- <-]. by destruct Hd. }
  destruct Hone as (Hm1 & Hr1 & Hf1 & Hone). destruct (IH p1) as (p2 & Hrun & Hm2 & Hr2 & Hf2 & Hall);
    [intros; apply Hl; by right | done |].
  exists p2. split; [done|]. split; [congruence|]. split; [congruence|]. split; [done|].
  intros c' h k' Hh. rewrite Hm1 in Hall. specialize (Hall c' h k' Hh) as [Hor Hdef].
  destruct (Hone c' h k' Hh) as [Hor1 Hdef1]. split; [destruct Hor as [->|]; auto|].
  intros u' Hin Hws' [He|Hl']%elem_of_cons; [|by apply Hdef].
  assert ((c, k) = (c', k') /\ u = u') as [Hck <-].
  { unfold watch_entry in He. injection He as Ha _ Hc Ht.
    assert (c = c') as <- by (apply (f_equal evm_chain_id) in Hc; rewrite !evm_chain_id_roundtrip in Hc; congruence).
    assert (k = k') as <-; [|split; [done | congruence]]. destruct k as [a t], k' as [a' t']; cbn in *.
    apply addr_text_inj in Ha as <-. f_equal. destruct t, t'; try done. injection Ht as Ht. f_equal.
    by apply addr_text_inj. }
  specialize (Hdef1 Hin Hck). destruct Hor as [->| ->]; congruence.
Qed.

(** What a successful startup whose read succeeded leaves. *)
Lemma boot_run cfgs cfg r ws p1 :
  stored ws (rd_keys r) ->
  boot_chains cfgs (coordinator_new cfg r) = (Ok tt, p1) ->
  is_ok (fst (get_all_watched (pr_redis p1))) = true ->
  refines ws ws (snd (boot cfgs (coordinator_new cfg r))) /\
  forall c, c ∈ crc_chain_id <$> cfgs -> is_Some (co_monitors (snd (boot cfgs (coordinator_new cfg r))) !! c).
Proof.
  intros Hst Hb Hread. destruct (boot_chains_run cfgs cfg r p1 Hb) as [(Hf & Hw & Hk) Hall].
  destruct (get_all_watched (pr_redis p1)) as [[l|e] r1] eqn:Hg; [|done]. clear Hread.
  pose proof (get_all_watched_exact _ _ _ Hg) as [(Hk1 & _) Hl]. rewrite Hk in Hk1, Hl.
  destruct (restore_all ws (crc_chain_id <$> cfgs) l (set_redis r1 p1)) as (p3 & Hrun & Hm3 & Hr3 & Hf3 & Hall3).
  { intros x Hx. apply (stored_entries ws _ x Hst), Hl, Hx. }
  { exact Hf. }
  assert (Hp : snd (boot cfgs (coordinator_new cfg r)) = co_start p3).
  { unfold boot, restore_watched_addresses, st_bind, st_try, on_redis. by rewrite Hb, Hg, Hrun. }
  rewrite Hp. change (co_monitors (co_start p3)) with (co_monitors p3). rewrite Hm3. split; [|exact Hall]. split.
  2: { change (stored ws (rd_keys (pr_redis p3))). rewrite Hr3. change (stored ws (rd_keys r1)). by rewrite Hk1. }
  split; [exact Hf3|]. change (invoice_at (co_start p3)) with (invoice_at p3).
  change (co_monitors (co_start p3)) with (co_monitors p3). rewrite Hm3.
  intros c h k Hh. destruct (Hall3 c h k Hh) as [Hor Hdef].
  destruct (Hf c h Hh) as (inst & Hi & Hc). destruct (Hw _ _ Hi) as [Hempty Hin]. rewrite Hc in Hin.
  destruct (ws !! (c, k)) as [u|] eqn:Hws.
  - apply Hdef; [done..|]. apply Hl, (stored_entries ws _ _ Hst). eauto.
  - destruct Hor as [->|]; [|done]. unfold invoice_at. cbn. rewrite Hi. cbn. by rewrite Hempty, lookup_empty.
Qed.

(** A process whose read failed starts all the same, watches nothing and leaves
    the store as it was. *)
Lemma boot_unread cfgs cfg r ws p1 :
  stored ws (rd_keys r) ->
  boot_chains cfgs (coordinator_new cfg r) = (Ok tt, p1) ->
  is_ok (fst (get_all_watched (pr_redis p1))) = false ->
  refines ∅ ws (snd (boot cfgs (coordinator_new cfg r))).
Proof.
  intros Hst Hb Hread. destruct (boot_chains_run cfgs cfg r p1 Hb) as [(Hf & Hw & Hk) _].
  pose proof (get_all_watched_keeps (rd_keys r) (pr_redis p1) Hk) as Hk1.
  destruct (get_all_watched (pr_redis p1)) as [[l|e] r1] eqn:Hg; [done|]. cbn [snd] in Hk1.
  assert (Hp : snd (boot cfgs (coordinator_new cfg r)) = co_start (set_redis r1 p1)).
  { unfold boot, restore_watched_addresses, st_bind, st_try, on_redis. by rewrite Hb, Hg. }
  rewrite Hp. split; [|change (stored ws (rd_keys r1)); by rewrite Hk1].
  split; [exact Hf|]. intros c h k Hh. destruct (Hf c h Hh) as (inst & Hi & _).
  change (invoice_at (co_start (set_redis r1 p1))) with (invoice_at p1). unfold invoice_at. rewrite Hi. cbn.
  destruct (Hw _ _ Hi) as [-> _]. by rewrite !lookup_empty.
Qed.

(** A restarted process watches exactly what the store holds: if startup
    succeeds and its read of the stored watches does, every configured chain is
    monitored, every monitor's watches are those of its chain, and the store is
    as it was. *)
Theorem restart_restores_watches cfgs cfg r ws p1 :
  stored ws (rd_keys r) ->
  boot_chains cfgs (coordinator_new cfg r) = (Ok tt, p1) ->
  is_ok (fst (get_all_watched (pr_redis p1))) = true ->
  refines ws ws (snd (boot cfgs (coordinator_new cfg r))) /\
  forall c, c ∈ crc_chain_id <$> cfgs -> is_Some (co_monitors (snd (boot cfgs (coordinator_new cfg r))) !! c).
Proof. apply boot_run. Qed.

(** ** Every run *)

(** Steps of the process that no command causes. *)
Inductive background : Process -> Process -> Prop :=
| bg_start i p : background p (task_start i p)
| bg_turn i input p : background p (task_turn u256_from_be_slice i input p)
| bg_route k p : background p (route_pass k p)
| bg_watchdog i at_ p : background p (watchdog_tick i at_ p)
| bg_health p : background p (snd (get_all_health p)).

(** The state of the specification: what the process watches, what Redis holds,
    and whether nothing has come between the two. *)
Record WatchSpec := mkWatchSpec {
  sp_memory : WatchSet;
  sp_stored : WatchSet;
  sp_synced : bool
}.

(** A command changes both sets, but Redis misses it when the write is lost. *)
Definition spec_serve (cmd : MonitorCommand) (lost : bool) (w : WatchSpec) : WatchSpec :=
  mkWatchSpec (spec_command cmd (sp_memory w))
    (if lost then sp_stored w else spec_command cmd (sp_stored w)) (sp_synced w && negb lost).

(** A start takes up what Redis holds, or nothing when it cannot be read. *)
Definition spec_restart (read : bool) (w : WatchSpec) : WatchSpec :=
  mkWatchSpec (if read then sp_stored w else ∅) (sp_stored w) read.

(** No process, no watches. *)
Definition spec_exit (w : WatchSpec) : WatchSpec := mkWatchSpec ∅ (sp_stored w) false.

(** What is left when [main] returns an error. *)
Definition exited (cfg : CoordinatorConfig) (r : Redis) : Process :=
  mkProcess cfg [] ∅ ∅ ∅ [] [] [] None [] true r.

(** A run, next to the specification.  A process that has exited does nothing;
    any process may be stopped and started again, whether the start fails to
    build a monitor, fails to read the stored watches, or succeeds. *)
Inductive run_step : WatchSpec * Process -> WatchSpec * Process -> Prop :=
| run_command cmd w p :
    co_exited p = false -> command_ok cmd ->
    run_step (w, p) (spec_serve cmd (write_lost cmd p) w, snd (handle_command cmd p))
| run_background w p p' : co_exited p = false -> background p p' -> run_step (w, p) (w, p')
| run_restart cfgs cfg w p p1 :
    boot_chains cfgs (coordinator_new cfg (pr_redis p)) = (Ok tt, p1) ->
    run_step (w, p) (spec_restart (is_ok (fst (get_all_watched (pr_redis p1)))) w,
                     snd (boot cfgs (coordinator_new cfg (pr_redis p))))
| run_failed_start cfgs cfg w p e p1 :
    boot_chains cfgs (coordinator_new cfg (pr_redis p)) = (Err e, p1) ->
    run_step (w, p) (spec_exit w, exited cfg (pr_redis p1)).

Lemma call_handlers_frame e p :
  same_watches p (call_handlers e p) /\ rd_keys (pr_redis (call_handlers e p)) = rd_keys (pr_redis p).
Proof.
  unfold call_handlers. generalize (co_handlers p) as hs. intros hs. revert p.
  induction hs as [|h hs IH]; intros p; cbn; [split; [apply same_watches_refl | done]|].
  set (p1 := set_redis _ p). destruct (IH p1) as [Hs Hk]. split.
  - eapply same_watches_trans; [|exact Hs]. by apply same_watches_heap.
  - rewrite Hk. unfold p1. cbn. clear IH Hs Hk p1. induction h as [n f| | |ids h IHh|h IHh]; cbn; try done.
    + unfold bridge_publish, redis_request. by destruct (calls _).
    + by case_bool_decide.
    + by destruct e.
Qed.

Lemma route_receivers_frame rxs p :
  same_watches p (snd (route_receivers rxs p)) /\
  rd_keys (pr_redis (snd (route_receivers rxs p))) = rd_keys (pr_redis p).
Proof.
  revert p. induction rxs as [|rx rxs IH]; intros p; cbn; [split; [apply same_watches_refl | done]|].
  assert (Hone : same_watches p (snd (route_receiver rx p)) /\
    rd_keys (pr_redis (snd (route_receiver rx p))) = rd_keys (pr_redis p)).
  { unfold route_receiver. destruct (co_heap p !! _) as [inst|]; [|split; [apply same_watches_refl | done]].
    destruct (try_recv _ _ _) as [[e| |n|] next]; try (split; [apply same_watches_refl | done]). cbn [snd].
    destruct (call_handlers_frame e (co_log_event e p)) as [Hs Hk]. split; [|exact Hk].
    eapply same_watches_trans; [|exact Hs]. by apply same_watches_heap. }
  destruct (route_receiver rx p) as [rx' p1]. specialize (IH p1). destruct (route_receivers rxs p1) as [rxs' p2].
  cbn in *. destruct Hone as [Hs1 Hk1], IH as [Hs2 Hk2]. split; [by eapply same_watches_trans | congruence].
Qed.

Lemma instance_health_frame i p :
  same_watches p (snd (instance_health i p)) /\ pr_redis (snd (instance_health i p)) = pr_redis p.
Proof.
  unfold instance_health. destruct (co_heap p !! i) as [inst|] eqn:Hi; [|split; [apply same_watches_refl | done]].
  destruct (get_health _ _ _) as [r s] eqn:Hg. split; [|done]. eapply same_watches_put; [exact Hi|].
  symmetry. apply untick_watched. symmetry.
  apply (read_only_run _ _ _ _ (get_health_ro _ _ : read_only (@get_health (in_source inst) _ _)) Hg).
Qed.

Definition quiet (p p' : Process) : Prop :=
  same_watches p p' /\ rd_keys (pr_redis p') = rd_keys (pr_redis p).

Lemma quiet_trans p1 p2 p3 : quiet p1 p2 -> quiet p2 p3 -> quiet p1 p3.
Proof. intros [? ?] [? ?]. split; [by eapply same_watches_trans | congruence]. Qed.

Lemma quiet_heap p p' :
  co_monitors p' = co_monitors p -> co_heap p' = co_heap p -> pr_redis p' = pr_redis p -> quiet p p'.
Proof. intros Hm Hh Hr. split; [by apply same_watches_heap | by rewrite Hr]. Qed.

Lemma health_quiet p : quiet p (snd (get_all_health p)).
Proof.
  assert (Hm : preserves (quiet p) get_all_health).
  { unfold get_all_health. apply preserves_bind; [by intros q Hq|]. intros q0.
    apply preserves_bind; [|intros; apply preserves_ret].
    apply preserves_fold. intros h acc _. apply preserves_bind; [|intros; apply preserves_ret].
    intros q Hq. destruct (instance_health_frame (mh_monitor h) q) as [Hs Hr].
    eapply quiet_trans; [exact Hq|]. split; [exact Hs | by rewrite Hr]. }
  apply Hm. by apply quiet_heap.
Qed.

Lemma background_quiet p p' : background p p' -> quiet p p'.
Proof.
  destruct 1 as [i p|i input p|k p|i at_ p|p].
  - unfold task_start. destruct (co_heap p !! i) as [inst|] eqn:Hi; [|by apply quiet_heap].
    pose proof (@start_grows (in_source inst) mon_now (cc_chain_id (in_chain inst)) (in_state inst)) as [Hw _].
    destruct (start _ _ _) as [r s]. destruct (is_ok r); (split; [|done]);
      (eapply same_watches_trans; [by eapply same_watches_put|]; by apply same_watches_heap).
  - unfold task_turn. destruct (co_heap p !! i) as [inst|] eqn:Hi; [|by apply quiet_heap].
    pose proof (@turn_grows (in_source inst) mon_now u256_from_be_slice (cc_chain_id (in_chain inst))
      (cc_name (in_chain inst)) (in_config inst) input (in_state inst)) as [Hw _].
    destruct (loop_iteration _ _ _ _ _ _ _) as [[[|]|e] s]; (split; [|done]);
      (eapply same_watches_trans; [by eapply same_watches_put|]; by apply same_watches_heap).
  - unfold route_pass. destruct (co_routers p !! k) as [ro|]; [|by apply quiet_heap].
    destruct (ro_alive ro); [|by apply quiet_heap].
    destruct (route_receivers_frame (ro_receivers ro) p) as [Hs Hk].
    destruct (route_receivers (ro_receivers ro) p) as [rxs p1]. split; [|exact Hk].
    eapply same_watches_trans; [exact Hs | by apply same_watches_heap].
  - unfold watchdog_tick. destruct (co_heap p !! i); [|by apply quiet_heap].
    destruct (_ <=? _); [|by apply quiet_heap]. unfold co_hang. destruct (on_loop_hang _); by apply quiet_heap.
  - apply health_quiet.
Qed.

(** The process has what the specification has, and its two sets are one while
    nothing came between them. *)
Definition agrees (w : WatchSpec) (p : Process) : Prop :=
  refines (sp_memory w) (sp_stored w) p /\ (sp_synced w = true -> sp_memory w = sp_stored w).

Lemma run_step_agrees x x' : run_step x x' -> agrees x.1 x.2 -> agrees x'.1 x'.2.
Proof.
  destruct 1 as [cmd w p _ Hok|w p p' _ Hb|cfgs cfg w p p1 Hb|cfgs cfg w p e p1 Hb]; cbn; intros [Href Hsync].
  - split; [by apply handle_command_refines|]. cbn. intros [Hw Hl]%andb_true_iff.
    apply negb_true_iff in Hl. by rewrite Hl, Hsync.
  - destruct (background_quiet _ _ Hb) as [Hs Hk]. destruct Href as [Hm Hst].
    split; [|done]. split; [by eapply in_memory_same | by rewrite Hk].
  - destruct Href as [_ Hst]. destruct (is_ok _) eqn:Hread; (split; [|done]); [by eapply boot_run | by eapply boot_unread].
  - destruct Href as [_ Hst]. split; [|done]. split; [by split|].
    pose proof (boot_chains_keeps cfgs cfg (pr_redis p)) as (_ & _ & Hk). rewrite Hb in Hk. cbn in *. by rewrite Hk.
Qed.

(** C22. The watches of the process are those of the specification.  From a new
    process on a store without watches, through any commands, turns of the
    monitors' loops with any block source, routing, health checks and restarts,
    with any request failing: every monitor watches exactly the addresses the
    commands since the last start, and what that start took up, left watched on
    its chain, for the right invoices.  Redis holds exactly what the commands
    whose write reached it left.  The two are the same set unless a command's
    write was lost or the last start failed or could not read the store, and are
    again after a start that read it. *)
Theorem watches_refine_commands cfg r w p :
  (forall key v, is_Some (rd_keys r !! key) -> parse_watched_address_key key <> Some v) ->
  rtc run_step (mkWatchSpec ∅ ∅ true, coordinator_new cfg r) (w, p) ->
  in_memory (sp_memory w) p /\ stored (sp_stored w) (rd_keys (pr_redis p)) /\
  (sp_synced w = true -> sp_memory w = sp_stored w).
Proof.
  intros Hr Hrun. assert (Hinit : agrees (mkWatchSpec ∅ ∅ true) (coordinator_new cfg r)).
  { split; [|done]. cbn [sp_memory sp_stored]. split; [by split|]. split; [|split].
    - intros c k Hc. rewrite lookup_empty. cbn. apply eq_None_not_Some. intros Hk.
      eapply Hr; [exact Hk | by apply parse_watch_key].
    - intros key inv v Hk Hp. exfalso. eapply Hr; [|exact Hp]. by exists inv.
    - intros c k u. by rewrite lookup_empty. }
  enough (Hall : forall x x', rtc run_step x x' -> agrees x.1 x.2 -> agrees x'.1 x'.2)
    by (destruct (Hall _ _ Hrun Hinit) as [[? ?] ?]; done).
  induction 1; eauto using run_step_agrees.
Qed.
End Boot.
