(* ===== verification/CoordinatorRouting.v ===== *)
(** * Routing of events

    What the coordinator's routing loop hands to its handlers, against what the
    monitors sent: in order, without repetition, and complete except for the
    events a receiver was told it had missed.  What a monitor sent before the
    loop started is never routed. *)

From stdpp Require Import gmap strings list relations.
From Stdlib Require Import ZArith Lia.
From S2P Require Import Prelude Events Network Monitor MonitorFacts MonitorLoop Decimal Database Services.
From S2P Require Import LiveWatch Startup Coordinator Commands CoordinatorFacts MonitorProcess.

(** The events from position [a] up to [b]. *)
Definition segment (a b : nat) (es : list MonitorEvent) : list MonitorEvent := take (b - a) (drop a es).

Section Routing.
Context `{Runtime} `{RedisScan} `{Formats} `{UuidText} `{RpcConnect}.
Context (u256_from_be_slice : list Z -> U256).

(** What holds of a receiver: it is inside its monitor's channel, handed over a
    part of what was sent since it began, in order, and every event it passed
    was handed over or reported as missed. *)
Definition receiver_ok (p : Process) (rx : Receiver) : Prop :=
  exists inst, co_heap p !! rx_monitor rx = Some inst /\
    let es := mon_events (in_state inst) in
    (rx_start rx <= rx_next rx <= length es)%nat /\
    rx_delivered rx `sublist_of` segment (rx_start rx) (rx_next rx) es /\
    (length (rx_delivered rx) + rx_lagged rx = rx_next rx - rx_start rx)%nat.

(** With a bridge among the handlers, what was handed over is on the stream. *)
Definition bridged (p : Process) (rx : Receiver) : Prop :=
  BridgeHandler ∈ co_handlers p -> rx_delivered rx `sublist_of` rd_stream (pr_redis p).

Definition routers_ok (p : Process) : Prop :=
  forall ro rx, ro ∈ co_routers p -> rx ∈ ro_receivers ro -> receiver_ok p rx.
Definition routers_bridged (p : Process) : Prop :=
  forall ro rx, ro ∈ co_routers p -> rx ∈ ro_receivers ro -> bridged p rx.

(** ** Steps that route nothing *)

Definition extends (p p' : Process) : Prop :=
  co_handlers p' = co_handlers p /\
  (forall i inst, co_heap p !! i = Some inst ->
     exists inst', co_heap p' !! i = Some inst' /\ mon_events (in_state inst) `prefix_of` mon_events (in_state inst')) /\
  rd_stream (pr_redis p) `prefix_of` rd_stream (pr_redis p').

Lemma extends_refl p : extends p p.
Proof. split; [done|]. split; [|done]. eauto. Qed.

Lemma extends_trans p1 p2 p3 : extends p1 p2 -> extends p2 p3 -> extends p1 p3.
Proof.
  intros (Hh & He & Hs) (Hh' & He' & Hs'). split; [congruence|]. split; [|by etrans].
  intros i inst Hi. destruct (He i inst Hi) as (i2 & Hi2 & Hp2). destruct (He' i i2 Hi2) as (i3 & Hi3 & Hp3).
  exists i3. split; [done | by etrans].
Qed.

Lemma segment_prefix a b es es' :
  (b <= length es)%nat -> es `prefix_of` es' -> segment a b es' = segment a b es.
Proof.
  intros Hb [k ->]. unfold segment. destruct (decide (a <= length es)%nat).
  - rewrite drop_app_le by done. rewrite take_app_le; [done|]. rewrite length_drop. lia.
  - replace (b - a)%nat with 0%nat by lia. by rewrite !take_0.
Qed.

Lemma receiver_ok_extends p p' rx : extends p p' -> receiver_ok p rx -> receiver_ok p' rx.
Proof.
  intros (_ & He & _) (inst & Hi & Hb & Hs & Hl). destruct (He _ _ Hi) as (inst' & Hi' & Hp).
  exists inst'. split; [done|]. cbn. rewrite (segment_prefix _ _ _ _ (proj2 Hb) Hp).
  apply prefix_length in Hp. split; [lia | done].
Qed.

Lemma bridged_extends p p' rx : extends p p' -> bridged p rx -> bridged p' rx.
Proof.
  intros (Hh & _ & Hs) Hb Hin. rewrite Hh in Hin. etrans; [by apply Hb|]. destruct Hs as [k ->].
  by apply sublist_inserts_r.
Qed.

Lemma extends_heap p p' :
  co_handlers p' = co_handlers p -> co_heap p' = co_heap p ->
  rd_stream (pr_redis p) `prefix_of` rd_stream (pr_redis p') -> extends p p'.
Proof. intros Hh He Hs. split; [done|]. split; [|done]. rewrite He. eauto. Qed.

Lemma extends_alter p i f :
  (forall s, mon_events s `prefix_of` mon_events (f s)) -> extends p (co_alter i f p).
Proof.
  intros Hf. split; [done|]. split; [|done]. intros j inst Hj. rewrite (heap_alter _ _ _ _ _ Hj).
  eexists. split; [done|]. case_decide; [apply Hf | done].
Qed.

Lemma extends_put p i inst s :
  co_heap p !! i = Some inst -> mon_events (in_state inst) `prefix_of` mon_events s ->
  extends p (co_alter i (fun _ => s) p).
Proof.
  intros Hi Hs. split; [done|]. split; [|done]. intros j inst' Hj. rewrite (heap_alter _ _ _ _ _ Hj).
  eexists. split; [done|]. case_decide; [|done]. subst. by assert (inst' = inst) as -> by congruence.
Qed.

(** ** Publishing *)

Lemma redis_request_stream {E A} (fault : E) (op : Redis -> A * Redis) r :
  (forall x, rd_stream x `prefix_of` rd_stream (snd (op x))) ->
  rd_stream r `prefix_of` rd_stream (snd (redis_request fault op r)).
Proof.
  intros Hop. specialize (Hop (rd_tick r)). unfold redis_request.
  destruct (calls _); [destruct (op _)..|]; try exact Hop. done.
Qed.

Lemma publish_stream e r : rd_stream r `prefix_of` rd_stream (snd (bridge_publish e r)).
Proof. apply redis_request_stream. intros x. by eexists. Qed.

Lemma handle_stream h e r : rd_stream r `prefix_of` rd_stream (snd (handle h e r)).
Proof.
  induction h as [n f| | |ids h IH|h IH]; cbn; try done.
  - apply publish_stream.
  - by case_bool_decide.
  - by destruct e.
Qed.

Lemma call_handlers_extends e p : extends p (call_handlers e p) /\ co_routers (call_handlers e p) = co_routers p.
Proof.
  unfold call_handlers. generalize (co_handlers p) as hs. intros hs. revert p.
  induction hs as [|h hs IH]; intros p; cbn; [split; [apply extends_refl | done]|].
  set (p1 := set_redis _ p). destruct (IH p1) as [He Hr]. split; [|exact Hr].
  eapply extends_trans; [|exact He]. apply extends_heap; [done..|]. apply handle_stream.
Qed.

Lemma fold_handlers_stream e hs p :
  rd_stream (pr_redis p) `prefix_of`
    rd_stream (pr_redis (foldl (fun p h => set_redis (snd (handle h e (pr_redis p))) p) p hs)).
Proof.
  revert p. induction hs as [|h hs IH]; intros p; cbn; [done|]. etrans; [|apply IH]. apply handle_stream.
Qed.

(** A bridge among the handlers publishes the event, unless the request is
    dropped. *)
Lemma call_handlers_published e p :
  (forall n, calls n <> NotSent) -> BridgeHandler ∈ co_handlers p ->
  exists k, rd_stream (pr_redis (call_handlers e p)) = rd_stream (pr_redis p) ++ k /\ e ∈ k.
Proof.
  intros Hn Hin. unfold call_handlers. revert Hin. generalize (co_handlers p) as hs. intros hs. revert p.
  induction hs as [|h hs IH]; intros p Hin; [by apply not_elem_of_nil in Hin|]. cbn [foldl].
  set (p1 := set_redis _ p).
  pose proof (fold_handlers_stream e hs p1) as Hrest.
  apply elem_of_cons in Hin as [<-|Hin].
  - destruct Hrest as [k Hk]. exists (e :: k). rewrite Hk. split; [|by left]. unfold p1. cbn.
    unfold bridge_publish. rewrite redis_effect by done. cbn. by rewrite <- app_assoc.
  - destruct (IH p1 Hin) as (k & Hk & Hek). rewrite Hk.
    destruct (handle_stream h e (pr_redis p)) as [k' Hk']. exists (k' ++ k). unfold p1. cbn. rewrite Hk'.
    rewrite <- app_assoc. split; [done | set_solver].
Qed.

(** ** One turn of a receiver *)

Lemma channel_segment_snoc a b es e : (a <= b)%nat -> es !! b = Some e -> segment a (S b) es = segment a b es ++ [e].
Proof.
  intros Hab He. unfold segment. replace (S b - a)%nat with (S (b - a)) by lia.
  rewrite (take_S_r _ _ e); [done|]. rewrite lookup_drop. by replace (a + (b - a))%nat with b by lia.
Qed.

Lemma segment_grow a b b' es : (b <= b')%nat -> segment a b es `sublist_of` segment a b' es.
Proof.
  intros Hb. unfold segment. replace (take (b - a) (drop a es)) with (take (b - a) (take (b' - a) (drop a es))).
  - apply sublist_take.
  - rewrite take_take. f_equal. lia.
Qed.

Lemma route_receiver_ok rx p rx' p' :
  route_receiver rx p = (rx', p') -> receiver_ok p rx ->
  extends p p' /\ co_routers p' = co_routers p /\ co_handler_task p' = co_handler_task p /\ receiver_ok p' rx' /\
  ((forall n, calls n <> NotSent) -> bridged p rx -> bridged p' rx').
Proof.
  unfold route_receiver. intros Hr (inst & Hi & Hb & Hs & Hl). rewrite Hi in Hr.
  unfold try_recv in Hr. set (es := mon_events (in_state inst)) in *.
  destruct (Nat.ltb_spec (rx_next rx) (length es - CHANNEL_CAPACITY)) as [Hlt|Hge].
  - injection Hr as <- <-. split; [apply extends_refl|]. do 2 (split; [done|]). split; [|done].
    exists inst. split; [done|]. cbn [rx_monitor rx_next rx_start rx_delivered rx_lagged]. fold es. split; [lia|].
    split; [etrans; [exact Hs|]; apply segment_grow; lia | lia].
  - destruct (es !! rx_next rx) as [e|] eqn:He.
    2: { assert (rx' = rx /\ p' = p) as [-> ->] by (destruct (monitor_open _ _); by injection Hr as <- <-).
         split; [apply extends_refl|]. do 2 (split; [done|]). split; [by exists inst | done]. }
    injection Hr as <- <-. set (p1 := co_log_event e p).
    destruct (call_handlers_extends e p1) as [Hex Hro].
    assert (Hex1 : extends p (call_handlers e p1)) by exact Hex.
    split; [exact Hex1|]. split; [exact Hro|]. split.
    { unfold call_handlers. generalize (co_handlers p1) as hs. intros hs. change (co_handler_task p) with (co_handler_task p1).
      generalize p1 as q. induction hs as [|h hs IH]; intros q; [done|]. cbn. by rewrite IH. }
    split.
    + apply (receiver_ok_extends p); [exact Hex1|]. exists inst. split; [done|].
      cbn [rx_monitor rx_next rx_start rx_delivered rx_lagged]. fold es.
      apply lookup_lt_Some in He as Hlen. split; [lia|]. rewrite (channel_segment_snoc _ _ _ e) by (done || lia).
      split; [by apply sublist_app|]. rewrite length_app. cbn. lia.
    + intros Hn Hbr Hin. cbn [rx_delivered].
      rewrite (proj1 Hex) in Hin. destruct (call_handlers_published e p1 Hn Hin) as (k & -> & Hk).
      apply sublist_app; [by apply Hbr|]. by apply singleton_sublist_l.
Qed.

Lemma route_receivers_ok rxs p rxs' p' :
  route_receivers rxs p = (rxs', p') -> (forall rx, rx ∈ rxs -> receiver_ok p rx) ->
  extends p p' /\ co_routers p' = co_routers p /\ co_handler_task p' = co_handler_task p /\
  (forall rx, rx ∈ rxs' -> receiver_ok p' rx) /\
  ((forall n, calls n <> NotSent) -> (forall rx, rx ∈ rxs -> bridged p rx) -> forall rx, rx ∈ rxs' -> bridged p' rx).
Proof.
  revert p rxs'. induction rxs as [|rx rxs IH]; intros p rxs'; cbn.
  { intros [= <- <-] _. split; [apply extends_refl|]. do 2 (split; [done|]).
    split; [intros rx Hin | intros _ _ rx Hin]; by apply not_elem_of_nil in Hin. }
  destruct (route_receiver rx p) as [rx1 p1] eqn:Hone. destruct (route_receivers rxs p1) as [rxs1 p2] eqn:Hrest.
  intros [= <- <-] Hok.
  destruct (route_receiver_ok rx p rx1 p1 Hone) as (He1 & Hr1 & Ht1 & Hk1 & Hb1); [apply Hok; by left|].
  destruct (IH p1 rxs1 Hrest) as (He2 & Hr2 & Ht2 & Hk2 & Hb2).
  { intros rx0 Hin. apply (receiver_ok_extends p); [done|]. apply Hok. by right. }
  split; [by eapply extends_trans|]. split; [congruence|]. split; [congruence|]. split.
  - intros rx0 [->|Hin]%elem_of_cons; [|by apply Hk2]. by apply (receiver_ok_extends p1).
  - intros Hn Hall rx0 [->|Hin]%elem_of_cons.
    + apply (bridged_extends p1); [done|]. apply Hb1; [done|]. apply Hall. by left.
    + apply Hb2; [done| |done]. intros rx2 Hin2. apply (bridged_extends p); [done|]. apply Hall. by right.
Qed.

(** ** Every run after the start *)

(** Commands and background steps. *)
Inductive serve_step : Process -> Process -> Prop :=
| serve_command cmd p : serve_step p (snd (handle_command cmd p))
| serve_background p p' : background u256_from_be_slice p p' -> serve_step p p'.

(** A step that leaves the routing tasks alone. *)
Definition idle (p p' : Process) : Prop := extends p p' /\ co_routers p' = co_routers p.

Lemma idle_refl p : idle p p.
Proof. split; [apply extends_refl | done]. Qed.

Lemma idle_trans p1 p2 p3 : idle p1 p2 -> idle p2 p3 -> idle p1 p3.
Proof. intros [? ?] [? ?]. split; [by eapply extends_trans | congruence]. Qed.

Lemma idle_keeps p p' : idle p p' ->
  (routers_ok p -> routers_ok p') /\ (routers_bridged p -> routers_bridged p').
Proof.
  intros [He Hr]. unfold routers_ok, routers_bridged. rewrite Hr.
  eauto 10 using receiver_ok_extends, bridged_extends.
Qed.

Definition idles {A} (m : St Process EvmError A) : Prop := forall p0, preserves (idle p0) m.

Lemma idles_step {A} (m : St Process EvmError A) : (forall p, idle p (snd (m p))) -> idles m.
Proof. intros Hm p0 p Hp. eapply idle_trans; [exact Hp | apply Hm]. Qed.

Lemma idles_redis {E A} (m : St Redis E A) :
  (forall r, rd_stream r `prefix_of` rd_stream (snd (m r))) ->
  idles (@st_try _ _ _ EvmError (on_redis m)).
Proof.
  intros Hm. apply idles_step. intros p. unfold st_try, on_redis. specialize (Hm (pr_redis p)).
  destruct (m (pr_redis p)) as [r x]. split; [by apply extends_heap | done].
Qed.

Lemma idles_publish e : idles (publish_logged e).
Proof.
  intros p0. apply preserves_bind; [apply idles_redis, publish_stream | intros; apply preserves_ret].
Qed.

Lemma idles_alter i f :
  (forall s, mon_events s `prefix_of` mon_events (f s)) -> idles (st_modify (co_alter i f)).
Proof. intros Hf. apply idles_step. intros p. split; [by apply extends_alter | done]. Qed.

Lemma idle_put p i inst s :
  co_heap p !! i = Some inst -> mon_events (in_state inst) `prefix_of` mon_events s ->
  idle p (co_alter i (fun _ => s) p).
Proof. intros. split; [by eapply extends_put | done]. Qed.

Lemma idles_current_block i : idles (instance_current_block i).
Proof.
  apply idles_step. intros p. unfold instance_current_block.
  destruct (co_heap p !! i) as [inst|] eqn:Hi; [|apply idle_refl].
  destruct (current_block _) as [r s] eqn:Hc. eapply idle_put; [exact Hi|].
  pose proof (read_only_run _ _ _ _ (ro_query _) Hc) as [Hu _]. by rewrite (untick_events _ _ Hu).
Qed.

Lemma command_idle cmd p : idle p (snd (handle_command cmd p)).
Proof.
  assert (Hm : idles (handle_command cmd)); [|apply Hm, idle_refl].
  assert (Hset : forall E (fault : E) A f (g : Redis -> A),
    idles (@st_try _ _ _ EvmError (on_redis (redis_request fault (fun r => (g r, rd_set_keys (f r) r)))))).
  { intros E fault A f g. apply idles_redis. intros r. by apply redis_request_stream. }
  assert (Hne : forall A c, idles (@st_try _ _ _ EvmError (on_redis (@not_evm A c)))).
  { intros A c. apply idles_redis. done. }
  intros p0. destruct cmd as [cmd|cmd|cmd]; cbn [handle_command].
  - apply preserves_bind; [unfold watch_address; destruct (evm_chain_id _); [apply Hset | apply Hne]|]. intros _.
    apply preserves_bind; [apply preserves_gets|]. intros [i|]; [|apply preserves_ret].
    apply preserves_bind; [apply preserves_gets|]. intros t. apply preserves_bind; [by apply idles_alter|]. intros _.
    apply preserves_bind; [apply preserves_gets|]. intros t'. apply idles_publish.
  - apply preserves_bind; [unfold unwatch_address; destruct (evm_chain_id _); [apply Hset | apply Hne]|]. intros _.
    apply preserves_bind; [apply preserves_gets|]. intros [i|]; [|apply preserves_ret].
    apply preserves_bind; [apply preserves_gets|]. intros t. apply preserves_bind; [by apply idles_alter|]. intros _.
    apply idles_publish.
  - apply preserves_bind; [destruct (gsc_chain_id cmd); [apply preserves_ret | apply preserves_gets]|]. intros ids.
    apply preserves_for. intros c _. apply preserves_bind; [apply preserves_gets|]. intros [i|]; [|apply preserves_ret].
    apply preserves_bind; [apply preserves_gets|]. intros watched.
    apply preserves_bind; [apply preserves_try, idles_current_block|]. intros current.
    apply preserves_bind; [apply preserves_gets|]. intros t. apply idles_publish.
Qed.

Lemma idle_tasks p t w : idle p (co_set_tasks t w p).
Proof. split; [by apply extends_heap | done]. Qed.

Lemma health_idle p : idle p (snd (get_all_health p)).
Proof.
  assert (Hm : idles get_all_health); [|apply Hm, idle_refl].
  intros p0. unfold get_all_health. apply preserves_bind; [by intros q Hq|]. intros q0.
  apply preserves_bind; [|intros; apply preserves_ret].
  apply preserves_fold. intros h acc _. apply preserves_bind; [|intros; apply preserves_ret].
  apply idles_step. intros q. unfold instance_health.
  destruct (co_heap q !! mh_monitor h) as [inst|] eqn:Hi; [|apply idle_refl].
  destruct (get_health _ _ _) as [r s] eqn:Hg. eapply idle_put; [exact Hi|].
  pose proof (read_only_run _ _ _ _ (get_health_ro _ _ : read_only (@get_health (in_source inst) _ _)) Hg) as [Hu _].
  by rewrite (untick_events _ _ Hu).
Qed.

(** A background step that is not a turn of a routing loop. *)
Lemma background_idle p p' :
  background u256_from_be_slice p p' -> (exists k, p' = route_pass k p) \/ idle p p'.
Proof.
  destruct 1 as [i p|i input p|k p|i at_ p|p]; [right|right|eauto|right|right].
  - unfold task_start. destruct (co_heap p !! i) as [inst|] eqn:Hi; [|apply idle_refl].
    pose proof (@start_grows (in_source inst) mon_now (cc_chain_id (in_chain inst)) (in_state inst)) as [_ Hw].
    destruct (start _ _ _) as [r s]. cbn in Hw. destruct (is_ok r); [by eapply idle_put|].
    eapply idle_trans; [by eapply idle_put | apply idle_tasks].
  - unfold task_turn. destruct (co_heap p !! i) as [inst|] eqn:Hi; [|apply idle_refl].
    pose proof (@turn_grows (in_source inst) mon_now u256_from_be_slice (cc_chain_id (in_chain inst))
      (cc_name (in_chain inst)) (in_config inst) input (in_state inst)) as [_ Hw].
    destruct (loop_iteration _ _ _ _ _ _ _) as [r s]. cbn in Hw.
    destruct r as [[|]|e]; [by eapply idle_put|..]; (eapply idle_trans; [by eapply idle_put | apply idle_tasks]).
  - unfold watchdog_tick. destruct (co_heap p !! i); [|apply idle_refl].
    destruct (_ <=? _); [|apply idle_refl]. unfold co_hang.
    destruct (on_loop_hang _); (split; [by apply extends_heap | done]).
  - apply health_idle.
Qed.

Lemma route_pass_keeps k p :
  routers_ok p -> routers_ok (route_pass k p) /\
  ((forall n, calls n <> NotSent) -> routers_bridged p -> routers_bridged (route_pass k p)).
Proof.
  intros Hok. unfold route_pass. destruct (co_routers p !! k) as [ro|] eqn:Hk; [|done].
  destruct (ro_alive ro); [|done]. apply list_elem_of_lookup_2 in Hk as Hin.
  destruct (route_receivers (ro_receivers ro) p) as [rxs p1] eqn:Hr.
  destruct (route_receivers_ok _ _ _ _ Hr) as (He & Hro & _ & Hk1 & Hb1); [by intros; eapply Hok|].
  rewrite Hro. set (p2 := co_set_routers _ _ p1).
  assert (He2 : extends p1 p2) by by apply extends_heap.
  assert (Hrs : forall ro' rx, ro' ∈ co_routers p2 -> rx ∈ ro_receivers ro' ->
    rx ∈ rxs \/ exists ro0, ro0 ∈ co_routers p /\ rx ∈ ro_receivers ro0).
  { intros ro' rx Hro' Hrx. cbn in Hro'. apply list_elem_of_lookup in Hro' as [j Hj].
    apply list_lookup_insert_Some in Hj as [(-> & <- & _)|[_ Hj]]; [by left|]. right. exists ro'.
    split; [by eapply list_elem_of_lookup_2 | done]. }
  split; [|intros Hn Hbr]; intros ro' rx Hro' Hrx; destruct (Hrs _ _ Hro' Hrx) as [Hx|(ro0 & Hx & Hx')].
  - apply (receiver_ok_extends p1); eauto.
  - apply (receiver_ok_extends p1); [done|]. apply (receiver_ok_extends p); eauto.
  - apply (bridged_extends p1); [done|]. apply Hb1; [done| |done]. intros; by eapply Hbr.
  - apply (bridged_extends p1); [done|]. apply (bridged_extends p); eauto.
Qed.

Lemma serve_step_keeps p p' :
  serve_step p p' -> routers_ok p ->
  routers_ok p' /\ ((forall n, calls n <> NotSent) -> routers_bridged p -> routers_bridged p').
Proof.
  intros [cmd q|q q' Hb] Hok.
  - destruct (idle_keeps _ _ (command_idle cmd q)). auto.
  - apply background_idle in Hb as [[k ->]|Hi]; [by apply route_pass_keeps|].
    destruct (idle_keeps _ _ Hi). auto.
Qed.

Lemma serve_run_keeps p p' :
  rtc serve_step p p' -> routers_ok p ->
  routers_ok p' /\ ((forall n, calls n <> NotSent) -> routers_bridged p -> routers_bridged p').
Proof.
  induction 1 as [q|q q1 q2 Hs _ IH]; intros Hok; [done|].
  destruct (serve_step_keeps _ _ Hs Hok) as [Hok1 Hbr1]. destruct (IH Hok1) as [Hok2 Hbr2]. auto.
Qed.

(** A sublist of full length is the whole list. *)
Lemma sublist_eq {A} (l k : list A) : l `sublist_of` k -> (length k <= length l)%nat -> l = k.
Proof.
  induction 1 as [|x l k Hs IH|x l k Hs IH]; cbn; intros Hl; [done| |].
  - f_equal. apply IH. lia.
  - apply sublist_length in Hs. lia.
Qed.

Lemma co_start_keeps p :
  co_routers p = [] -> filed p -> routers_ok (co_start p) /\ routers_bridged (co_start p).
Proof.
  intros Hr Hf.
  assert (Hrx : forall ro rx, ro ∈ co_routers (co_start p) -> rx ∈ ro_receivers ro ->
    exists h, rx = resubscribe p h /\ exists c, co_monitors p !! c = Some h).
  { intros ro rx Hro Hrx. cbn in Hro. rewrite Hr in Hro. apply list_elem_of_singleton in Hro as ->. cbn in Hrx.
    apply list_elem_of_fmap in Hrx as (h & -> & Hh). exists h. split; [done|].
    apply list_elem_of_fmap in Hh as ([c h'] & -> & Hh%elem_of_map_to_list). eauto. }
  split; intros ro rx Hro Hin; destruct (Hrx _ _ Hro Hin) as (h & -> & c & Hc).
  - destruct (Hf c h Hc) as (inst & Hi & _). exists inst. unfold resubscribe. cbn. rewrite Hi.
    split; [done|]. split; [lia|]. split; [apply sublist_nil_l | lia].
  - intros _. apply sublist_nil_l.
Qed.

(** Events are routed in order.  After the routing loop was started, through
    any commands, turns of the monitors and routing turns, what a receiver
    handed to the handlers is, in order and without repetition, part of what its
    monitor sent since the start, and everything it passed it handed over or
    reported as missed; if none was missed, it is exactly the run of events from
    the start to the receiver's position.  With the bridge among the handlers
    and no request dropped, all of it is on the stream, in order. *)
Theorem events_routed_in_order p0 p ro rx :
  co_routers p0 = [] -> filed p0 -> rtc serve_step (co_start p0) p ->
  ro ∈ co_routers p -> rx ∈ ro_receivers ro ->
  exists inst, co_heap p !! rx_monitor rx = Some inst /\
    let sent := segment (rx_start rx) (rx_next rx) (mon_events (in_state inst)) in
    rx_delivered rx `sublist_of` sent /\
    (length (rx_delivered rx) + rx_lagged rx = length sent)%nat /\
    (rx_lagged rx = 0%nat -> rx_delivered rx = sent) /\
    ((forall n, calls n <> NotSent) -> BridgeHandler ∈ co_handlers p ->
       rx_delivered rx `sublist_of` rd_stream (pr_redis p)).
Proof.
  intros Hr Hf Hrun Hro Hrx. destruct (co_start_keeps p0 Hr Hf) as [Hok0 Hbr0].
  destruct (serve_run_keeps _ _ Hrun Hok0) as [Hok Hbr].
  destruct (Hok ro rx Hro Hrx) as (inst & Hi & Hb & Hs & Hl). exists inst. split; [done|]. cbn zeta.
  set (sent := segment _ _ _) in *.
  assert (Hlen : length sent = (rx_next rx - rx_start rx)%nat)
    by (unfold sent, segment; rewrite length_take, length_drop; lia).
  split; [done|]. split; [lia|]. split.
  - intros Hz. apply sublist_eq; [done | lia].
  - intros Hn. by apply (Hbr Hn Hbr0 ro rx Hro Hrx).
Qed.
End Routing.
