(* ===== verification/WatchReconcile.v ===== *)
(** * Watch reconciliation

    The set of watches the database asks for
    ([data-service/src/postgres/expected_watch.rs] over the view
    [expected_watched_addresses]) against the set the monitor keeps in Redis:
    [data-service/src/watch_reconciliation.rs] and
    [server/src/services/watch_reconciler.rs]. *)

From stdpp Require Import gmap strings list.
From Stdlib Require Import ZArith Lia.
From S2P Require Import Prelude Events Network Decimal Database Services LiveWatch.
From S2P Require Import Coordinator Commands CoordinatorFacts MonitorProcess.

(** ** Data *)

(** [ExpectedWatch] *)
Record ExpectedWatch := mkExpectedWatch {
  ew_address : string;
  ew_chain_id : string;
  ew_token_address : option string;
  ew_invoice_id : string
}.

(** [watch_reconciliation::WatchKey] *)
Record ReconKey := mkReconKey {
  rk_chain_id : string;
  rk_address : string;
  rk_token_address : option string;
  rk_invoice_id : string
}.

#[export] Instance ReconKey_eq_dec : EqDecision ReconKey.
Proof. solve_decision. Defined.

(** [WatchKey::new] *)
Definition recon_key_new (chain_id address : string) (token_address : option string) (invoice_id : string)
  : ReconKey :=
  mkReconKey chain_id (to_lowercase address) (to_lowercase <$> token_address) invoice_id.

(** [ExpectedWatch::key] *)
Definition expected_key (w : ExpectedWatch) : ReconKey :=
  recon_key_new (ew_chain_id w) (ew_address w) (ew_token_address w) (ew_invoice_id w).

Record WatchReconciliation := mkWatchReconciliation {
  wr_stale : list ReconKey;
  wr_missed : list ReconKey
}.

Record WatchReconciliationCounts := mkWatchReconciliationCounts {
  wc_stale : nat;
  wc_missed : nat
}.

Inductive WatchReconciliationError : Type :=
| ExpectedFailed (e : RepositoryError)
| ActualFailed (e : RepositoryError).

(** [reconcile]: the differences of the two hash sets; their order is
    unspecified. *)
Definition reconcile (expected actual : list ReconKey) : WatchReconciliation :=
  let expected_set := remove_dups expected in
  let actual_set := remove_dups actual in
  {| wr_stale := list_difference actual_set expected_set;
     wr_missed := list_difference expected_set actual_set |}.

(** ** The expected set *)

(** The [INTERVAL '1 day'] of the view. *)
Definition GRACE_CEILING : Z := seconds 86400.

(** The [WHERE] clause of the view on an invoice, at the instant [now]. *)
Definition still_expected (now : Instant) (d : Db) (invoice_id : string) (i : InvoiceRow) : bool :=
  match inv_status i with
  | Pending | Processing | PartiallyPaid | Cancelled | LatePaid => true
  | Expired => now - GRACE_CEILING <? inv_expires_at i
  | Paid =>
      existsb (fun p => String.eqb (pay_invoice_id p) invoice_id &&
                        match pay_confirmed_at p with
                        | Some at_ => now - GRACE_CEILING <? at_
                        | None => false
                        end) (map_to_list (db_payments d)).*2
  | Refunded => false
  end.

(** The view [expected_watched_addresses]. *)
Definition expected_watched_addresses (now : Instant) (d : Db) : list ExpectedWatch :=
  omap (fun wa : WatchRow =>
          if wr_is_active wa then
            po ← db_payment_options d !! wr_payment_option_id wa;
            i ← db_invoices d !! po_invoice_id po;
            if still_expected now d (po_invoice_id po) i
            then Some (mkExpectedWatch (wr_address wa) (wr_chain_id wa) (wr_token_address wa) (po_invoice_id po))
            else None
          else None)
       (db_watched d).

(** [PgDataService::get_expected_watched_addresses] *)
Definition get_expected_watched_addresses : Statement (list ExpectedWatch) :=
  fun now d => (Ok (expected_watched_addresses now d), d).

(** ** The comparison *)

Section Reconcile.
Context `{Runtime} `{RedisScan} `{Formats}.

(** The server next to the monitor's Redis. *)
Abbreviation M := (St (Server * Redis) WatchReconciliationError).

(** [RedisEVMMonitor::get_watched_addresses] *)
Definition get_watched_addresses : St Redis RepositoryError (list (string * string * string * option string)) :=
  get_all_watched.

(** [diff_watches] *)
Definition diff_watches : M WatchReconciliation :=
  fun '(s, r) =>
    match db get_expected_watched_addresses s with
    | (Err e, s') => (Err (ExpectedFailed e), (s', r))
    | (Ok expected, s') =>
        let expected := expected_key <$> expected in
        match get_watched_addresses r with
        | (Err e, r') => (Err (ActualFailed e), (s', r'))
        | (Ok actual, r') =>
            let actual := (fun '(address, invoice_id, chain_id, token_address) =>
                             recon_key_new chain_id address token_address invoice_id) <$> actual in
            (Ok (reconcile expected actual), (s', r'))
        end
    end.

(** [reconcile_watches] *)
Definition reconcile_watches : M WatchReconciliationCounts :=
  let* diff := diff_watches in
  st_ret {| wc_stale := length (wr_stale diff); wc_missed := length (wr_missed diff) |}.
End Reconcile.

(** ** What is reported *)

Lemma reconcile_spec expected actual k :
  (k ∈ wr_stale (reconcile expected actual) <-> k ∈ actual /\ k ∉ expected) /\
  (k ∈ wr_missed (reconcile expected actual) <-> k ∈ expected /\ k ∉ actual) /\
  NoDup (wr_stale (reconcile expected actual)) /\ NoDup (wr_missed (reconcile expected actual)).
Proof.
  cbn. rewrite !list_elem_of_difference, !elem_of_remove_dups.
  repeat split; try tauto; apply NoDup_list_difference, NoDup_remove_dups.
Qed.

Section Exact.
Context `{Runtime} `{RedisScan} `{!RedisScanLaws} `{Formats} `{!FormatLaws} `{UuidText} `{!WatchTextLaws}.

(** The identity of a watch of the monitor's set. *)
Definition watch_recon_key (c : Z) (k : Z * option Z) (u : Z) : ReconKey :=
  mkReconKey (chain_id_evm c) (addr_text k.1) (addr_text <$> k.2) (uuid_to_string u).

Lemma watch_entry_key c k u :
  (fun '(address, invoice_id, chain_id, token_address) => recon_key_new chain_id address token_address invoice_id)
    (watch_entry c k u) = watch_recon_key c k u.
Proof.
  unfold watch_entry, recon_key_new, watch_recon_key, addr_text. cbn. rewrite to_lowercase_idem. f_equal.
  destruct k as [a [t|]]; cbn; [by rewrite to_lowercase_idem | done].
Qed.

(** The identities the database asks for. *)
Definition asked_for (now : Instant) (d : Db) (k : ReconKey) : Prop :=
  exists wa po i, wa ∈ db_watched d /\ wr_is_active wa = true /\
    db_payment_options d !! wr_payment_option_id wa = Some po /\
    db_invoices d !! po_invoice_id po = Some i /\ still_expected now d (po_invoice_id po) i = true /\
    k = recon_key_new (wr_chain_id wa) (wr_address wa) (wr_token_address wa) (po_invoice_id po).

Lemma expected_spec now d k :
  k ∈ expected_key <$> expected_watched_addresses now d <-> asked_for now d k.
Proof.
  rewrite list_elem_of_fmap. unfold expected_watched_addresses, asked_for. split.
  - intros (w & -> & (wa & Hin & Hw)%list_elem_of_omap). destruct (wr_is_active wa) eqn:Ha; [|done].
    apply bind_Some in Hw as (po & Hpo & (i & Hi & Hw)%bind_Some). destruct (still_expected _ _ _ _) eqn:Hs; [|done].
    injection Hw as <-. exists wa, po, i. done.
  - intros (wa & po & i & Hin & Ha & Hpo & Hi & Hs & ->).
    exists (mkExpectedWatch (wr_address wa) (wr_chain_id wa) (wr_token_address wa) (po_invoice_id po)).
    split; [done|]. apply list_elem_of_omap. exists wa. split; [done|]. rewrite Ha. cbn. rewrite Hpo. cbn.
    rewrite Hi. cbn. by rewrite Hs.
Qed.

(** Reconciliation is exact.  When it returns, a watch is reported missed
    exactly if the database asks for it and the monitor's set does not have it
    for that invoice, and stale exactly if the monitor has it and the database
    does not ask for it; nothing is reported twice, and neither side was
    changed. *)
Theorem reconciliation_exact s r diff s' r' ws :
  stored ws (rd_keys r) ->
  diff_watches (s, r) = (Ok diff, (s', r')) ->
  let has k := exists c x u, ws !! (c, x) = Some u /\ k = watch_recon_key c x u in
  let asked := asked_for (clock (sv_ticks s)) (sv_db s) in
  (forall k, k ∈ wr_missed diff <-> asked k /\ ~ has k) /\
  (forall k, k ∈ wr_stale diff <-> has k /\ ~ asked k) /\
  NoDup (wr_missed diff) /\ NoDup (wr_stale diff) /\ sv_db s' = sv_db s /\ rd_keys r' = rd_keys r.
Proof.
  intros Hst Hrun has asked. unfold diff_watches in Hrun.
  destruct (db get_expected_watched_addresses s) as [[expected|e] s1] eqn:Hdb; [|done].
  unfold get_watched_addresses in Hrun.
  destruct (get_all_watched r) as [[actual|e] r1] eqn:Hr; [|done]. injection Hrun as <- <- <-.
  assert (expected = expected_watched_addresses (clock (sv_ticks s)) (sv_db s) /\ sv_db s1 = sv_db s) as [-> Hsame].
  { unfold db, exchange in Hdb. destruct (calls (sv_ticks s)); try discriminate Hdb.
    cbn in Hdb. injection Hdb as Hx Hy. subst. done. }
  apply get_all_watched_exact in Hr as [(Hk & _) Hin].
  assert (Hact : forall k, k ∈ (fun '(address, invoice_id, chain_id, token_address) =>
    recon_key_new chain_id address token_address invoice_id) <$> actual <-> has k).
  { intros k. rewrite list_elem_of_fmap. unfold has. split.
    - intros (x & -> & Hx). apply Hin, (stored_entries ws) in Hx as (c & y & u & Hws & ->); [|done].
      rewrite watch_entry_key. eauto.
    - intros (c & y & u & Hws & ->). exists (watch_entry c y u). rewrite watch_entry_key. split; [done|].
      apply Hin, (stored_entries ws); eauto. }
  set (actual' := _ <$> actual) in *. set (expected' := expected_key <$> _).
  split; [|split].
  - intros k. rewrite (proj1 (proj2 (reconcile_spec expected' actual' k))), Hact. unfold expected'.
    by rewrite expected_spec.
  - intros k. rewrite (proj1 (reconcile_spec expected' actual' k)), Hact. unfold expected'. by rewrite expected_spec.
  - destruct (reconcile_spec expected' actual' (mkReconKey "" "" None "")) as (_ & _ & Hn1 & Hn2). done.
Qed.
End Exact.
