(* ===== verification/ProcessDemo.v ===== *)
(** * The monitor and its process on a concrete chain

    A small source (two transfers per block, height 20) and the monitor
    theorems applied to runs over it; then a process that monitors Ethereum
    mainnet through that source, with one watched address. *)

From stdpp Require Import gmap strings list relations.
From Stdlib Require Import ZArith Lia Ascii QArith.
From S2P Require Import Prelude Events Network Monitor MonitorFacts MonitorReorg MonitorLoop Decimal Database Services ConsumerDemo LiveWatch.
From S2P Require Import Cleanup Consumer Webhook WebhookFacts OutboxDrain WatchRetry Startup Coordinator Commands CoordinatorFacts MonitorProcess CoordinatorRouting WatchReconcile.

Definition demo_log (n : Z) : Log :=
  mkLog 9 [TRANSFER_TOPIC; 4; 8] [n] (Some n) (Some (700 + n)) (Some (1000 + n)) (Some 3).

(** Block [n] has hash [1000 + n], a native transfer to address 7 and a
    transfer of token 9 to address 8. *)
Definition demo_source : BlockSource :=
  {| source_status := fun _ => Connected;
     source_subscribe_blocks := fun _ => Ok tt;
     source_get_logs := fun _ f =>
       match lf_from_block f, lf_to_block f with
       | Some a, Some b => Ok (demo_log <$> range_inclusive a b)
       | _, _ => Ok []
       end;
     source_get_block_number := fun _ => Ok 20;
     source_get_block := fun _ n => Ok (Some (1000 + n));
     source_find_native_transfers_to := fun _ n _ => Ok [mkNativeTransfer (500 + n) 3 7 n 0] |}.

(** The same chain behind a source whose log queries fail. *)
Definition failing_source : BlockSource :=
  {| source_status := fun _ => Connected;
     source_subscribe_blocks := fun _ => Ok tt;
     source_get_logs := fun _ _ => Err (Rpc "timeout");
     source_get_block_number := fun _ => Ok 20;
     source_get_block := fun _ n => Ok (Some (1000 + n));
     source_find_native_transfers_to := fun _ _ _ => Ok [] |}.

Definition demo_watched : gmap (Z * option Z) WatchedAddress :=
  <[(7, None) := mkWatchedAddress 7 77 None None 0]>
    (<[(8, Some 9) := mkWatchedAddress 8 88 None (Some 9) 0]> ∅).

Definition demo_payment : PaymentDetected :=
  mkPaymentDetected 1 77 7 4 504 4 1004 None true None 3 1 12 0.

(** The cursor at block 5 with hash [h], one pending payment. *)
Definition demo_state (h : B256) : MonState :=
  mkMonState demo_watched {[(504, -1) := mkPendingPayment demo_payment 4]} 0 0 (Some 5) (Some h)
    [EvPaymentDetected demo_payment] true 0.

Definition demo_block (n : Z) : BlockNotification := mkBlockNotification n (1000 + n) (999 + n) 0.

Abbreviation demo_process src :=
  (@process_block src Z.of_nat (fun _ => 0) 1 default_config) (only parsing).

Lemma cursor_passes_only_scanned_native_witness :
  let s := demo_state 1005 in
  let r := demo_process demo_source (demo_block 9) s in
  mon_last_block (snd r) = Some 9 /\
  exists hi es, mon_last_block (snd r) = Some hi /\ mon_events (snd r) = mon_events s ++ es /\
    forall n, 5 < n <= hi ->
      @native_scanned demo_source (mon_watched s) n (mon_tick s) (mon_tick (snd r)) (detected_in es).
Proof.
  intros s r. split; [by vm_compute|].
  apply (@cursor_passes_only_scanned_native demo_source Z.of_nat (fun _ => 0) 1 default_config
           5 (demo_block 9) s (fst r) (snd r) 7 (mkWatchedAddress 7 77 None None 0));
    [split; reflexivity || done | split; reflexivity || done | reflexivity | reflexivity
    | by vm_compute | apply surjective_pairing].
Defined.

Lemma cursor_passes_only_scanned_erc20_witness :
  let s := demo_state 1005 in
  let r := demo_process demo_source (demo_block 9) s in
  exists hi es, mon_last_block (snd r) = Some hi /\ mon_events (snd r) = mon_events s ++ es /\
    forall n, 5 < n <= hi ->
      @erc20_scanned demo_source (mon_watched s) n (mon_tick s) (mon_tick (snd r)) (detected_in es).
Proof.
  intros s r.
  apply (@cursor_passes_only_scanned_erc20 demo_source Z.of_nat (fun _ => 0) 1 default_config
           5 (demo_block 9) s (fst r) (snd r) 8 9 (mkWatchedAddress 8 88 None (Some 9) 0));
    [split; reflexivity || done | split; reflexivity || done | reflexivity | reflexivity
    | by vm_compute | apply surjective_pairing].
Defined.

Lemma process_block_fails_closed_witness :
  let s := demo_state 1005 in
  let r := demo_process failing_source (demo_block 6) s in
  (mon_last_block (snd r) = mon_last_block s /\ mon_last_block_hash (snd r) = mon_last_block_hash s /\
   mon_pending (snd r) = mon_pending s /\ mon_watched (snd r) = mon_watched s /\
   exists es, mon_events (snd r) = mon_events s ++ es /\ detected_in es = []) \/
  (mon_last_block (snd r) = Some (6 - 1) /\
   option_is_some (missed_blocks (mon_last_block s) (demo_block 6)) = true).
Proof.
  intros s r.
  apply (@process_block_fails_closed failing_source Z.of_nat (fun _ => 0) 1 default_config
           (demo_block 6) s (Rpc "timeout") (snd r)); [split; reflexivity || done|].
  by vm_compute.
Defined.

Lemma demo_responsive : @responsive demo_source.
Proof.
  split; [|split].
  - intros. eexists. reflexivity.
  - intros t [? ? [a|] [b|]]; cbn; eexists; (split; [reflexivity|]);
      try (intros l Hl%not_elem_of_nil; done).
    intros l (n & -> & _)%list_elem_of_fmap. by exists n.
  - intros. eexists. reflexivity.
Qed.

Lemma gap_closes_witness :
  exists s' hi, @deliver demo_source Z.of_nat (fun _ => 0) 1 default_config
                  [demo_block 300; demo_block 301] (demo_state 1005) = (Ok tt, s') /\
    mon_last_block s' = Some hi /\
    Z.min 300 (5 + 200 * Z.of_nat (length [demo_block 300; demo_block 301])) <= hi.
Proof.
  apply (@gap_closes demo_source Z.of_nat (fun _ => 0) 1 default_config demo_responsive);
    [vm_compute; discriminate | split; reflexivity || done | reflexivity |].
  intros b [->|[->|[]%not_elem_of_nil]%elem_of_cons]%elem_of_cons; (split; [split|]); by vm_compute.
Defined.

Lemma reorg_announced_iff_diverged_witness :
  let s := demo_state 4242 in
  let r := demo_process demo_source (demo_block 6) s in
  exists es, mon_events (snd r) = mon_events s ++ es /\
    match reorgs_in es with
    | [] => ~ @diverged demo_source 5 4242 (demo_block 6) (mon_tick s)
    | [e] => @diverged demo_source 5 4242 (demo_block 6) (mon_tick s) /\
        rd_fork_block e = Z.min 5 (bn_number (demo_block 6)) /\ rd_old_hash e = 4242 /\
        rd_new_hash e = bn_hash (demo_block 6) /\
        forall p k, mon_pending s !! k = Some p -> rd_fork_block e <= pd_block_number (pp_event p) ->
          pd_invoice_id (pp_event p) ∈ rd_affected_invoices e
    | _ => False
    end.
Proof.
  intros s r.
  apply (@reorg_announced_iff_diverged demo_source Z.of_nat (fun _ => 0) 1 default_config);
    [split; reflexivity || done | reflexivity | reflexivity | by vm_compute].
Defined.

Lemma survivor_scan_complete_witness :
  let s := demo_state 4242 in
  let r := @find_survived_tx_hashes demo_source default_config 5 6 s in
  let sv := [505; 506; 705; 706] in
  (true = true <-> mon_watched s <> ∅) /\
  forall n, 5 <= n <= 6 ->
    (forall a x, mon_watched s !! (a, None) = Some x ->
       @native_revalidated demo_source (native_watch_addresses (mon_watched s)) n (mon_tick s)
         (mon_tick (snd r)) sv) /\
    (forall a tok x, mon_watched s !! (a, Some tok) = Some x ->
       @erc20_revalidated demo_source default_config (erc20_watch_addresses (mon_watched s)) n
         (mon_tick s) (mon_tick (snd r)) sv).
Proof.
  intros s r sv. apply (@survivor_scan_complete demo_source default_config 5 6 s sv true (snd r));
    by vm_compute.
Defined.

Lemma survivor_scan_sound_witness :
  let r := @find_survived_tx_hashes demo_source default_config 5 6 (demo_state 4242) in
  match fst r with
  | Ok (sv, _) => forall h, h ∈ sv -> @reported demo_source 5 6 h
  | Err e => @source_failed demo_source e
  end.
Proof.
  intros r. apply (@survivor_scan_sound demo_source default_config 5 6 (demo_state 4242) (fst r) (snd r));
    [by vm_compute | by vm_compute | by vm_compute | apply surjective_pairing].
Defined.

(** A run that detects a payment at block 3 and confirms it at height 20. *)
Abbreviation demo_turn := (@loop_iteration demo_source Z.of_nat (fun _ => 0) 1 "demo" default_config)
  (only parsing).
Definition demo_watching : MonState := watch (mkWatchedAddress 7 77 None None 0) (new_monitor 0).
Definition demo_seen : MonState := snd (demo_turn (NewBlock (Ok (demo_block 3))) demo_watching).
Definition demo_run : MonState := snd (demo_turn ConfirmTick demo_seen).

Lemma monitor_runs_safe_witness :
  (exists c, EvPaymentConfirmed c ∈ mon_events demo_run) /\
  confirmations_follow (mon_events demo_run) /\ pending_announced demo_run /\
  (mon_last_block demo_run = None <-> mon_last_block_hash demo_run = None).
Proof.
  split.
  { eexists. apply list_elem_of_lookup. exists 1%nat. vm_compute. reflexivity. }
  apply (@monitor_runs_safe demo_source Z.of_nat (fun _ => 0) 1 "demo" default_config 0).
  apply (rtc_l _ _ demo_watching); [exact (ms_watch _ _ _ _ _ _ _)|].
  apply (rtc_l _ _ demo_seen);
    [refine (ms_turn Z.of_nat (fun _ => 0) 1 "demo" default_config _ demo_watching _); by vm_compute|].
  apply rtc_once. exact (ms_turn Z.of_nat (fun _ => 0) 1 "demo" default_config ConfirmTick demo_seen I).
Defined.

(** * The process *)

#[local] Existing Instance demo_up.

(** ** Redis and text *)

Fixpoint chop_last (s : string) : string :=
  match s with
  | EmptyString | String _ EmptyString => EmptyString
  | String a rest => String a (chop_last rest)
  end.

(** A [SCAN] that returns every matching key in one reply. *)
#[export] Instance demo_scan : RedisScan := {
  redis_scan := fun keys pattern _ =>
    (0, List.filter (String.prefix (chop_last pattern)) (map_to_list keys).*1);
  scan_replies := fun _ _ => 1%nat
}.

Lemma chop_last_snoc s a : chop_last (s +:+ String a EmptyString) = s.
Proof.
  induction s as [|b s IH]; [done|]. change (String b s +:+ ?x) with (String b (s +:+ x)). cbn [chop_last].
  destruct (s +:+ String a EmptyString) eqn:Hs; [by destruct s|]. by rewrite <- Hs in *; rewrite IH.
Qed.

#[export] Instance demo_scan_laws : RedisScanLaws.
Proof.
  constructor. intros keys prefix. eexists. split; [reflexivity|]. cbn [redis_scan demo_scan].
  intros k. rewrite elem_of_filter_b, chop_last_snoc. rewrite list_elem_of_fmap. split.
  - intros [Hp ([k' v] & -> & Hk%elem_of_map_to_list)]. cbn in *. by rewrite Hk.
  - intros [[v Hk] Hp]. split; [done|]. exists (k, v). by rewrite elem_of_map_to_list.
Qed.

#[export] Instance demo_uuid : UuidText := { parse_uuid := z_parse }.

Lemma lower_uint u : to_lowercase (DecimalString.NilEmpty.string_of_uint u) = DecimalString.NilEmpty.string_of_uint u.
Proof. induction u; cbn; by f_equal. Qed.

Lemma lower_z z : to_lowercase (z_to_string z) = z_to_string z.
Proof.
  assert (Hu : forall u, to_lowercase (DecimalString.NilZero.string_of_uint u) = DecimalString.NilZero.string_of_uint u)
    by (intros []; try apply (lower_uint (_ _)); done).
  unfold z_to_string. destruct (Z.to_int z) as [d|d]; [apply Hu|]. cbn. f_equal. apply Hu.
Qed.

#[export] Instance demo_text_laws : WatchTextLaws.
Proof.
  constructor; cbn.
  - intros a. rewrite lower_z. apply z_parse_to_string.
  - apply z_to_string_no_colon.
  - reflexivity.
  - apply z_parse_to_string.
Qed.

(** ** The process *)

#[export] Instance demo_rpc : RpcConnect := { rpc_source_new := fun _ _ => Ok demo_source }.

Definition mainnet_rpc : list ChainRpcConfig := [mkChainRpcConfig 1 "http" None].
Definition watch_seven : MonitorCommand := WatchAddress (mkWatchAddressCommand 1 7 77 None None).
Definition empty_redis : Redis := mkRedis ∅ [] 0.
Definition stored_redis : Redis := mkRedis (<[watch_key 1 (7, None) := uuid_to_string 77]> ∅) [] 0.
Definition seven : WatchSet := <[(1, (7, None)) := 77]> ∅.
Definition new_process (r : Redis) : Process := coordinator_new coordinator_config_new r.

Abbreviation demo_boot := (@boot demo_up demo_scan demo_formats demo_uuid demo_rpc) (only parsing).
Abbreviation demo_boot_chains := (@boot_chains demo_up demo_rpc) (only parsing).
Abbreviation demo_command := (@handle_command demo_up demo_formats) (only parsing).

Lemma watched_key_roundtrip_witness :
  parse_watched_address_key (watched_address_key 1 "0xAB" (Some "0xCD"%string))
  = Some (1, "0xab", Some "0xcd")%string.
Proof. apply (watched_key_roundtrip 1 "0xAB" (Some "0xCD"%string)); [done | reflexivity | reflexivity]. Defined.

Lemma stored_empty : stored ∅ ∅.
Proof. split; [|split]; intros; [done | by rewrite lookup_empty in * | by rewrite lookup_empty in *]. Qed.

Lemma stored_seven : stored seven (rd_keys stored_redis).
Proof. apply stored_insert; [split; [done | by vm_compute] | apply stored_empty]. Qed.

Lemma restart_restores_watches_witness :
  refines seven seven (snd (demo_boot mainnet_rpc (new_process stored_redis))) /\
  forall c, c ∈ crc_chain_id <$> mainnet_rpc ->
    is_Some (co_monitors (snd (demo_boot mainnet_rpc (new_process stored_redis))) !! c).
Proof.
  apply (@restart_restores_watches demo_up demo_scan demo_scan_laws demo_formats demo_format_laws demo_uuid
    demo_text_laws demo_rpc mainnet_rpc coordinator_config_new stored_redis seven
    (snd (demo_boot_chains mainnet_rpc (new_process stored_redis)))).
  - exact stored_seven.
  - vm_compute. reflexivity.
  - vm_compute. reflexivity.
Defined.

(** A started process, and the same after a watch command. *)
Definition booted : Process := snd (demo_boot mainnet_rpc (new_process empty_redis)).
Definition watching : Process := snd (demo_command watch_seven booted).

(** ** Runs *)

Lemma watches_refine_commands_witness :
  in_memory seven watching /\ stored seven (rd_keys (pr_redis watching)) /\ (true = true -> seven = seven).
Proof.
  apply (@watches_refine_commands demo_up demo_scan demo_scan_laws demo_formats demo_format_laws demo_uuid
    demo_text_laws demo_rpc (fun _ => 0) coordinator_config_new empty_redis (mkWatchSpec seven seven true) watching).
  - intros key v [x Hx]. cbn in Hx. by rewrite lookup_empty in Hx.
  - eapply (rtc_l _ _ (mkWatchSpec ∅ ∅ true, booted)).
    + assert (Hread : is_ok (fst (get_all_watched (pr_redis
        (snd (demo_boot_chains mainnet_rpc (new_process empty_redis)))))) = true) by (vm_compute; reflexivity).
      pose proof (run_restart (fun _ => 0) mainnet_rpc coordinator_config_new (mkWatchSpec ∅ ∅ true)
        (new_process empty_redis) (snd (demo_boot_chains mainnet_rpc (new_process empty_redis)))) as Hr.
      rewrite Hread in Hr. apply Hr. vm_compute. reflexivity.
    + apply rtc_once. assert (Hwrite : write_lost watch_seven booted = false) by (vm_compute; reflexivity).
      pose proof (run_command (fun _ => 0) watch_seven (mkWatchSpec ∅ ∅ true) booted) as Hc.
      rewrite Hwrite in Hc. apply Hc; [by vm_compute | split; [done | by vm_compute]].
Defined.

(** A start whose read of the stored watches fails: the process serves, watches
    nothing, and Redis still has the watch. *)
Definition unread : result EvmError unit * Process :=
  @boot (demo_drop 1) demo_scan demo_formats demo_uuid demo_rpc mainnet_rpc (new_process stored_redis).

Example unread_start_watches_nothing :
  (is_ok (fst unread), invoice_at (snd unread) 0 (7, None),
   rd_keys (pr_redis (snd unread)) !! watch_key 1 (7, None))
  = (true, None, Some (uuid_to_string 77)).
Proof. vm_compute. reflexivity. Qed.

(** Block 9 pays address 7: its event is routed to the stream. *)
Definition paid : Process := task_turn (fun _ => 0) 0 (NewBlock (Ok (demo_block 9))) watching.
Definition routed : Process := route_pass 0 paid.

Definition routed_receiver : Receiver :=
  default (mkReceiver 0 0 0 [] 0) (ro ← co_routers routed !! 0%nat; ro_receivers ro !! 0%nat).

Definition is_detected (e : MonitorEvent) : bool :=
  match e with EvPaymentDetected _ => true | _ => false end.

Example demo_routed :
  (List.map is_detected (rd_stream (pr_redis routed)), length (rx_delivered routed_receiver), rx_lagged routed_receiver)
  = ([false; true], 1%nat, 0%nat).
Proof. vm_compute. reflexivity. Qed.

(** The process just before its routing loop starts. *)
Definition restored_from (r : Redis) : Process :=
  snd (restore_watched_addresses [1] (snd (demo_boot_chains mainnet_rpc (new_process r)))).
Definition restored : Process := restored_from empty_redis.

Lemma booted_restored : booted = co_start restored.
Proof. vm_compute. reflexivity. Qed.

Lemma restored_filed : filed restored.
Proof.
  intros c h Hh. assert (Hc : co_monitors restored = {[1 := mkMonitorHandle 1 "Ethereum" 0 0]})
    by (vm_compute; reflexivity).
  rewrite Hc in Hh. apply lookup_singleton_Some in Hh as [<- <-]. eexists. vm_compute. split; reflexivity.
Qed.

Lemma events_routed_in_order_witness :
  exists inst, co_heap routed !! rx_monitor routed_receiver = Some inst /\
    let sent := segment (rx_start routed_receiver) (rx_next routed_receiver) (mon_events (in_state inst)) in
    rx_delivered routed_receiver `sublist_of` sent /\
    (length (rx_delivered routed_receiver) + rx_lagged routed_receiver = length sent)%nat /\
    (rx_lagged routed_receiver = 0%nat -> rx_delivered routed_receiver = sent) /\
    ((forall n, @calls demo_up n <> NotSent) -> BridgeHandler ∈ co_handlers routed ->
       rx_delivered routed_receiver `sublist_of` rd_stream (pr_redis routed)).
Proof.
  apply (@events_routed_in_order demo_up demo_formats (fun _ => 0) restored routed
    (default (mkRouter [] true) (co_routers routed !! 0%nat)) routed_receiver).
  - vm_compute. reflexivity.
  - exact restored_filed.
  - rewrite <- booted_restored.
    eapply rtc_l; [apply (serve_command (fun _ => 0) watch_seven booted)|].
    eapply rtc_l; [apply serve_background, (bg_turn (fun _ => 0) 0 (NewBlock (Ok (demo_block 9))) watching)|].
    apply rtc_once, serve_background, (bg_route (fun _ => 0) 0%nat paid).
  - apply (list_elem_of_lookup_2 _ 0). vm_compute. reflexivity.
  - apply (list_elem_of_lookup_2 _ 0). vm_compute. reflexivity.
Defined.

(** A payment found between the restoration of the watches and the start of the
    routing loop is never published: the loop's receivers begin at the end of
    the channel, and the monitor's cursor is already past the block. *)
Definition early_paid : Process :=
  co_start (task_turn (fun _ => 0) 0 (NewBlock (Ok (demo_block 9))) (restored_from stored_redis)).

Example early_payment_not_routed :
  let p := Nat.iter 10 (route_pass 0) early_paid in
  (List.map (fun inst => (List.map is_detected (mon_events (in_state inst)), mon_last_block (in_state inst))) (co_heap p),
   List.map is_detected (rd_stream (pr_redis p)))
  = ([([true], Some 9)], []).
Proof. vm_compute. reflexivity. Qed.

(** * Reconciliation on a concrete server

    The server of [ConsumerDemo] next to the Redis of [ProcessDemo]. *)

#[local] Existing Instance demo_up.

(** The watch of the demo invoice is in both sets; without it in Redis it is
    missed, without the invoice it is stale. *)
Definition demo_diff (s : Server) (r : Redis) : WatchReconciliation :=
  match fst (diff_watches (s, r)) with Ok d => d | Err _ => mkWatchReconciliation [] [] end.

Definition no_invoices : Server := set_db (db_set_invoices ∅ (sv_db demo_server)) demo_server.

Example demo_reconciled :
  (demo_diff demo_server stored_redis, demo_diff demo_server empty_redis, demo_diff no_invoices stored_redis)
  = (mkWatchReconciliation [] [],
     mkWatchReconciliation [] [watch_recon_key 1 (7, None) 77],
     mkWatchReconciliation [watch_recon_key 1 (7, None) 77] []).
Proof. vm_compute. reflexivity. Qed.

Lemma reconciliation_exact_witness :
  watch_recon_key 1 (7, None) 77 ∈ wr_missed (demo_diff demo_server stored_redis) <->
  asked_for (clock 0) (sv_db demo_server) (watch_recon_key 1 (7, None) 77) /\
  ~ exists c x u, seven !! (c, x) = Some u /\ watch_recon_key 1 (7, None) 77 = watch_recon_key c x u.
Proof.
  pose proof (reconciliation_exact demo_server stored_redis (demo_diff demo_server stored_redis)
    (snd (diff_watches (demo_server, stored_redis))).1 (snd (diff_watches (demo_server, stored_redis))).2
    seven stored_seven) as Hex.
  apply (proj1 (Hex ltac:(vm_compute; reflexivity))).
Defined.

(** * Webhooks and cleanup

    The webhook workers, the outbox and the cleanup service on the server of
    [ConsumerDemo]. *)

#[local] Open Scope Z_scope.

(** An endpoint that is down until the thirtieth request. *)
#[export] Instance demo_http : HttpWorld := {
  http_send := fun t _ => if (t <? 30)%nat then HttpTimeout "timed out" else HttpStatus 204;
  hmac_sha256_hex := fun payload secret => secret +:+ "#" +:+ payload;
  payload_to_json := fun p => fst p +:+ " " +:+ snd p;
  payload_event_id := snd;
  payload_idempotency_key := fst
}.

Definition demo_json : string := default EmptyString (head (map_to_list (sv_ready demo_after_confirm)).*1).
Definition demo_job : WebhookJob :=
  default (new_job 0 0 0 EmptyString EmptyString (EmptyString, EmptyString)) (job_from_json demo_json).

(** ** A worker that is killed *)

Definition step_prog {A} (x : Server * Prog A) : Server * Prog A :=
  match x.2 with
  | Return a => x
  | Pause k => (snd (k x.1), fst (k x.1))
  end.

Definition demo_pool_step := @pool_step demo_up demo_formats demo_api demo_codec demo_http.

Lemma demo_pool_run n x :
  rtc demo_pool_step (x.1, [x.2]) ((Nat.iter n step_prog x).1, [(Nat.iter n step_prog x).2]).
Proof.
  induction n as [|n IH]; [apply rtc_refl|]. etrans; [exact IH|]. change (Nat.iter (S n) step_prog x) with (step_prog (Nat.iter n step_prog x)).
  destruct (Nat.iter n step_prog x) as [s [a|k]]; cbn; [apply rtc_refl|].
  apply rtc_once. exact (PS_run 0 k s [Pause k] eq_refl).
Qed.

Definition demo_worker : Worker (bool * Isolation) :=
  @process_next_job demo_up demo_formats demo_api demo_codec demo_http default_webhook_config (mkIsolation [] 0).

(** The worker claims the job with its sixth request and is killed. *)
Definition demo_claimed : Server := (Nat.iter 6 step_prog (demo_after_confirm, demo_worker)).1.

Example demo_claimed_queues :
  (size (sv_ready demo_after_confirm), size (sv_processing demo_after_confirm),
   size (sv_ready demo_claimed), size (sv_processing demo_claimed)) = (1, 0, 0, 1)%nat.
Proof. vm_compute. reflexivity. Qed.

Lemma demo_killed : rtc demo_pool_step (demo_after_confirm, []) (demo_claimed, []).
Proof.
  eapply rtc_l; [exact (PS_start default_webhook_config (mkIsolation [] 0) demo_after_confirm [])|].
  etrans; [exact (demo_pool_run 6 (demo_after_confirm, demo_worker))|].
  apply rtc_once. exact (PS_kill 0 demo_claimed [_]).
Qed.

Lemma webhook_job_never_lost_witness :
  job_settled (wj_id demo_job) demo_claimed \/ job_ready (wj_id demo_job) demo_claimed \/
  job_claimed (wj_id demo_job) demo_claimed.
Proof.
  apply (@webhook_job_never_lost demo_up demo_formats _ demo_api demo_codec _ demo_http
           ltac:(cbn; lia) (wj_id demo_job) demo_after_confirm demo_claimed []).
  - exists demo_json. split; [apply (bool_decide_unpack _); vm_compute; reflexivity|].
    exists demo_job. split; vm_compute; reflexivity.
  - apply map_size_empty_inv. vm_compute. reflexivity.
  - exact demo_killed.
Defined.

(** ** Attempts *)

Lemma attempt_outcome_exact_witness :
  wj_attempts (bump_attempts demo_job) = 1 /\
  exists r s' iso', run_prog (@finish_job demo_up demo_api demo_codec (mkIsolation [] 0) "m"
      (bump_attempts demo_job) (Err (WhUnreachable "timed out"))) demo_after_confirm = (r, s') /\ r = Ok iso' /\
    exists n, sv_ready s' = <[job_to_json (reschedule (@clock demo_up n + seconds 60) (bump_attempts demo_job))
                               := timestamp (@clock demo_up n + seconds 60)]> (sv_ready demo_after_confirm).
Proof.
  split; [vm_compute; reflexivity|].
  destruct (@attempt_outcome_exact demo_up demo_api demo_codec (mkIsolation [] 0) "m"
    (bump_attempts demo_job) (Err (WhUnreachable "timed out")) demo_after_confirm 1
    (fun _ => eq_refl) ltac:(vm_compute; reflexivity) ltac:(vm_compute; reflexivity) ltac:(lia))
    as (r & s' & iso' & Hrun & Hr & _ & n & delay & Hd & _ & Hready & _).
  exists r, s', iso'. split; [exact Hrun|]. split; [exact Hr|]. exists n. by injection Hd as <-.
Defined.

(** ** The outbox *)

Definition demo_obligation : WebhookObligation := mkObligation 1001 1000 "77" "payment_detected" (seconds 2).
Definition demo_dispatched : Server :=
  snd (@dispatch_obligation demo_up demo_numeric demo_api demo_codec unit demo_obligation demo_after_detect).
Definition demo_row (s : Server) : ObligationRow :=
  default (mkObligationRow 0 "" 0 None None) (db_outbox (sv_db s) !! (1000, "payment_detected"%string)).

Lemma obligation_kept_until_due_witness :
  ob_id (demo_row demo_after_detect) = wo_id demo_obligation /\
  due demo_obligation (sv_db demo_after_detect) (sv_ready demo_dispatched).
Proof.
  apply (@obligation_kept_until_due demo_up demo_numeric demo_api demo_codec unit demo_obligation demo_after_detect
    (Ok tt) demo_dispatched (1000, "payment_detected"%string) (demo_row demo_after_detect) (demo_row demo_dispatched)).
  - exact (ran (@dispatch_obligation demo_up demo_numeric demo_api demo_codec unit demo_obligation demo_after_detect)
             (Ok tt) ltac:(vm_compute; reflexivity)).
  - vm_compute. reflexivity.
  - vm_compute. reflexivity.
  - vm_compute. reflexivity.
  - vm_compute. discriminate.
Defined.

(** ** Cleanup *)

(** Two days later. *)
Definition demo_late : Runtime :=
  {| calls := fun _ => Answered; clock := fun n => seconds (172800 + Z.of_nat n);
     new_v4 := fun n => 1000 + Z.of_nat n |}.
Definition demo_service : CleanupService := mkCleanupService default_cleanup_config true true.
Definition demo_cleaned : Server :=
  snd (@cleanup_turn demo_late demo_numeric demo_formats demo_api demo_codec demo_service demo_after_confirm).
Definition demo_watch (s : Server) : WatchRow :=
  default (mkWatchRow "" 0 "" None false false 0 0) (db_watched (sv_db s) !! 0%nat).

Lemma watch_deactivated_only_after_unwatch_witness :
  @told demo_formats demo_cleaned (demo_watch demo_after_confirm).
Proof.
  apply (@watch_deactivated_only_after_unwatch demo_late demo_numeric demo_formats demo_api demo_codec demo_service
    demo_after_confirm 0 (demo_watch demo_after_confirm) (demo_watch demo_cleaned)); vm_compute; reflexivity.
Defined.

Definition demo_info : CleanupAddressInfo := mkCleanupAddressInfo "7" 9 "77" "eip155:1" None.
Definition demo_unwatched : result CleanupError Z * Server :=
  @cleanup_one_paid demo_late demo_numeric demo_formats default_cleanup_config 0 demo_info demo_after_confirm.

Lemma paid_address_watched_through_grace_witness :
  fst demo_unwatched = Ok 1 /\
  forall row c, db_payments (sv_db demo_after_confirm) !! demo_key = Some row ->
    pay_invoice_id row = "77"%string -> pay_confirmed_at row = Some c ->
    seconds 3600 <= seconds (172800 + Z.of_nat (S (sv_ticks demo_after_confirm))) - c.
Proof.
  split; [vm_compute; reflexivity|]. intros row c Hk Hi Hc.
  refine (proj1 (@paid_address_watched_through_grace demo_late demo_numeric demo_formats default_cleanup_config 0
    demo_info demo_after_confirm (Ok 1) (snd demo_unwatched) _ _ _ demo_key row c Hk Hi Hc)).
  - split; by vm_compute.
  - exact (ran demo_unwatched (Ok 1) ltac:(vm_compute; reflexivity)).
  - vm_compute. discriminate.
Defined.

(** * Watch retry on a concrete server

    The server of [ConsumerDemo] with its watch not yet announced. *)

Definition silent_watch : WatchRow := mkWatchRow "7" 9 "eip155:1" None true false 0 (seconds 1000).
Definition silent_server : Server :=
  mkServer (db_set_watched [silent_watch] demo_db) 0 0 ∅ ∅ ∅ [] [] [] [] [] [] [].
Definition silent_info : PendingWatchInfo :=
  mkPendingWatchInfo "7" 9 "77" "eip155:1" (Some "1000000000000000000"%string) None.
Definition silent_command : MonitorCommand :=
  WatchAddress (mkWatchAddressCommand 1 7 77 (Some ether) None).

Definition demo_retry (rt : Runtime) (s : Server) : result WatchRetryError unit * Server :=
  @watch_retry_turn rt demo_formats z_parse z_parse default_watch_retry_config s.

(** The command goes out and the row is marked; a lost publish leaves it. *)
Example demo_retried :
  (sv_commands (snd (demo_retry demo_up silent_server)),
   wr_monitor_notified <$> db_watched (sv_db (snd (demo_retry demo_up silent_server))),
   wr_monitor_notified <$> db_watched (sv_db (snd (demo_retry (demo_drop 1) silent_server))))
  = ([silent_command], [true], [false]).
Proof. vm_compute. reflexivity. Qed.

Lemma watch_notified_only_after_command_witness :
  @commanded demo_formats z_parse z_parse (snd (demo_retry demo_up silent_server)) silent_watch.
Proof.
  apply (@watch_notified_only_after_command demo_up demo_formats z_parse z_parse default_watch_retry_config
    silent_server 0 silent_watch (set_watch_flags true true silent_watch)); vm_compute; reflexivity.
Defined.

Lemma watch_retry_complete_witness :
  exists s', demo_retry demo_up silent_server = (Ok tt, s') /\ silent_command ∈ sv_commands s' /\
    exists w', db_watched (sv_db s') !! 0%nat = Some w' /\ wr_monitor_notified w' = true.
Proof.
  apply (@watch_retry_complete demo_up demo_formats z_parse z_parse (fun _ => eq_refl) default_watch_retry_config
    silent_server 0 silent_watch silent_info silent_command).
  - reflexivity.
  - reflexivity.
  - vm_compute. reflexivity.
  - apply Nat.leb_le. vm_compute. reflexivity.
  - vm_compute. reflexivity.
  - vm_compute. reflexivity.
Defined.
