(* ===== verification/Wallets.v ===== *)
(** * Wallets and payment methods

    Where addresses come from: account wallets with their derivation counters
    ([data-service/src/postgres/wallet.rs]), the payment methods of a store and
    the wallet each resolves to ([store_payment_method.rs]), and rotation
    ([wallet_rotation.rs]).

    A transaction that holds [lock_account] and [lock_xpub] is one statement
    here: every writer of an account's wallets or of a key takes them first.
    Operations made of several transactions are programs of requests. *)

From stdpp Require Import gmap strings list sorting.
From Stdlib Require Import ZArith Lia.
From S2P Require Import Prelude Events Network Decimal Database Services LiveWatch.

(** ** Tables *)

(** A row of [wallets], keyed by its id. *)
Record WalletRow := mkWalletRow {
  wl_user_id : Uuid;
  wl_namespace : string;
  wl_xpub : string;
  wl_derivation_index : Z;
  wl_name : option string;
  wl_is_primary : bool;
  wl_created_at : Instant
}.

(** A row of [store_payment_methods]; the generated column [chain_namespace] is
    [method_namespace]. *)
Record MethodRow := mkMethodRow {
  pm_store_id : Uuid;
  pm_chain_id : string;
  pm_token_address : option string;
  pm_asset_symbol : string;
  pm_decimals : Z;
  pm_wallet_id : option Uuid;
  pm_enabled : bool;
  pm_created_at : Instant
}.

(** What is read of a row of [stores]. *)
Record StoreRow := mkStoreRow {
  so_owner_id : Uuid;
  so_archived : bool
}.

(** [WalletRotation], less its id *)
Record RotationRow := mkRotationRow {
  ro_store_id : Uuid;
  ro_previous_xpub : string;
  ro_new_xpub : string;
  ro_payment_method_id : Uuid;
  ro_previous_derivation_index : Z;
  ro_reason : option string;
  ro_rotated_at : Instant
}.

(** [DerivationAllocation] *)
Record DerivationAllocation := mkDerivationAllocation {
  da_wallet_id : Uuid;
  da_namespace : string;
  da_xpub : string;
  da_index : Z
}.

(** [StoreTokenPolicyWithEntries], as it is read: the mode and the chain and
    token of each entry *)
Inductive TokenPolicyMode := Allowlist | Blocklist.
Record TokenPolicy := mkTokenPolicy {
  tp_mode : TokenPolicyMode;
  tp_entries : list (string * option string)
}.

(** The role a member has in a store, and the permissions of a role. *)
Record Memberships := mkMemberships {
  mb_user_stores : gmap (Z * Z) Z;
  mb_store_roles : gmap Z (list string);
  mb_token_policies : gmap Z TokenPolicy
}.

(** [wd_issued] is not a table: it records every index the counters gave out,
    in order. *)
Record WalletDb := mkWalletDb {
  wd_wallets : gmap Z WalletRow;
  wd_store_wallets : gmap (Z * string) Z;
  wd_methods : gmap Z MethodRow;
  wd_stores : gmap Z StoreRow;
  wd_rotations : list RotationRow;
  wd_issued : list DerivationAllocation;
  wd_members : Memberships
}.

Definition wd_set_wallets (x : gmap Z WalletRow) (d : WalletDb) : WalletDb :=
  mkWalletDb x (wd_store_wallets d) (wd_methods d) (wd_stores d) (wd_rotations d) (wd_issued d) (wd_members d).
Definition wd_set_store_wallets (x : gmap (Z * string) Z) (d : WalletDb) : WalletDb :=
  mkWalletDb (wd_wallets d) x (wd_methods d) (wd_stores d) (wd_rotations d) (wd_issued d) (wd_members d).
Definition wd_set_methods (x : gmap Z MethodRow) (d : WalletDb) : WalletDb :=
  mkWalletDb (wd_wallets d) (wd_store_wallets d) x (wd_stores d) (wd_rotations d) (wd_issued d) (wd_members d).
Definition wd_add_rotation (x : RotationRow) (d : WalletDb) : WalletDb :=
  mkWalletDb (wd_wallets d) (wd_store_wallets d) (wd_methods d) (wd_stores d) (wd_rotations d ++ [x]) (wd_issued d) (wd_members d).
Definition wd_issue (x : DerivationAllocation) (d : WalletDb) : WalletDb :=
  mkWalletDb (wd_wallets d) (wd_store_wallets d) (wd_methods d) (wd_stores d) (wd_rotations d) (wd_issued d ++ [x]) (wd_members d).

(** A statement, or a transaction under its locks: a failing one changes
    nothing.  Its first argument is [NOW()]. *)
Definition WStatement (A : Type) : Type := Instant -> WalletDb -> result RepositoryError A * WalletDb.

Definition wselect {A} (f : WalletDb -> A) : WStatement A := fun _ d => (Ok (f d), d).

Definition wl_set_index (n : Z) (w : WalletRow) : WalletRow :=
  mkWalletRow (wl_user_id w) (wl_namespace w) (wl_xpub w) n (wl_name w) (wl_is_primary w) (wl_created_at w).
Definition wl_set_name (n : option string) (w : WalletRow) : WalletRow :=
  mkWalletRow (wl_user_id w) (wl_namespace w) (wl_xpub w) (wl_derivation_index w) n (wl_is_primary w) (wl_created_at w).
Definition wl_set_primary (b : bool) (w : WalletRow) : WalletRow :=
  mkWalletRow (wl_user_id w) (wl_namespace w) (wl_xpub w) (wl_derivation_index w) (wl_name w) b (wl_created_at w).
Definition pm_set_wallet (x : option Z) (m : MethodRow) : MethodRow :=
  mkMethodRow (pm_store_id m) (pm_chain_id m) (pm_token_address m) (pm_asset_symbol m) (pm_decimals m) x
    (pm_enabled m) (pm_created_at m).
Definition pm_set_enabled (b : bool) (m : MethodRow) : MethodRow :=
  mkMethodRow (pm_store_id m) (pm_chain_id m) (pm_token_address m) (pm_asset_symbol m) (pm_decimals m)
    (pm_wallet_id m) b (pm_created_at m).

(** ** Resolution *)

(** [split_part(chain_id, ':', 1)], and [ChainId::namespace] *)
Definition chain_namespace (chain_id : string) : string := default "" (head (split_colon chain_id)).
Definition method_namespace (m : MethodRow) : string := chain_namespace (pm_chain_id m).

(** The wallets that satisfy a condition. *)
Definition wallets_where (p : WalletRow -> bool) (d : WalletDb) : list (Z * WalletRow) :=
  List.filter (fun iw => p iw.2) (map_to_list (wd_wallets d)).

Definition is_primary_of (user_id : Uuid) (namespace : string) (w : WalletRow) : bool :=
  (wl_user_id w =? user_id) && wl_is_primary w && String.eqb (wl_namespace w) namespace.

(** [store_wallet_resolution]: the store's override, else its owner's primary,
    of one chain family. *)
Definition store_wallet_resolution (store_id : Uuid) (namespace : string) (d : WalletDb) : option Z :=
  s ← wd_stores d !! store_id;
  match wd_store_wallets d !! (store_id, namespace) with
  | Some wallet_id => Some wallet_id
  | None => fst <$> head (wallets_where (is_primary_of (so_owner_id s) namespace) d)
  end.

(** [method_wallet]: the pin, else what the store resolves to. *)
Definition method_wallet (m : MethodRow) (d : WalletDb) : option Z :=
  match pm_wallet_id m with
  | Some wallet_id => Some wallet_id
  | None => store_wallet_resolution (pm_store_id m) (method_namespace m) d
  end.

(** The [JOIN wallets w ON w.id = ... AND w.namespace = ...] of [method_from]
    and [allocate_derivation]. *)
Definition resolved_wallet (m : MethodRow) (d : WalletDb) : option (Z * WalletRow) :=
  id ← (if bool_decide (is_Some (wd_stores d !! pm_store_id m)) then method_wallet m d else None);
  w ← wd_wallets d !! id;
  if String.eqb (wl_namespace w) (method_namespace m) then Some (id, w) else None.

(** ** Account wallets *)

(** [reject_if_another_account_holds] *)
Definition reject_if_another_account_holds (user_id : Uuid) (xpub : string) (d : WalletDb)
  : result RepositoryError unit :=
  if bool_decide (wallets_where (fun w => String.eqb (wl_xpub w) xpub && negb (wl_user_id w =? user_id)) d = [])
  then Ok tt
  else Err (Conflict "this xpub is already registered to another account").

Definition holds_key (user_id : Uuid) (namespace xpub : string) (w : WalletRow) : bool :=
  (wl_user_id w =? user_id) && String.eqb (wl_namespace w) namespace && String.eqb (wl_xpub w) xpub.

(** [upsert_wallet]; [id] is the row's default id. *)
Definition upsert_wallet (now : Instant) (id : Uuid) (user_id : Uuid) (namespace xpub : string)
    (name : option string) (d : WalletDb) : result RepositoryError (Uuid * WalletRow) * WalletDb :=
  match head (wallets_where (holds_key user_id namespace xpub) d) with
  | Some (existing, w) =>
      let w := wl_set_name (match name with Some n => Some n | None => wl_name w end) w in
      (Ok (existing, w), wd_set_wallets (<[existing := w]> (wd_wallets d)) d)
  | None =>
      if bool_decide (is_Some (wd_wallets d !! id)) then (Err (Database "duplicate key: wallets_pkey"), d)
      else
        let first :=
          bool_decide (wallets_where (fun w => (wl_user_id w =? user_id) && String.eqb (wl_namespace w) namespace) d = []) in
        let w := mkWalletRow user_id namespace xpub 0 name first now in
        (Ok (id, w), wd_set_wallets (<[id := w]> (wd_wallets d)) d)
  end.

(** [WalletWriter::create_wallet], and the transaction shared by
    [wallet_for_store_xpub] and rotation *)
Definition create_wallet (id user_id : Uuid) (namespace xpub : string) (name : option string)
  : WStatement (Uuid * WalletRow) :=
  fun now d =>
    match reject_if_another_account_holds user_id xpub d with
    | Err e => (Err e, d)
    | Ok _ => upsert_wallet now id user_id namespace xpub name d
    end.

(** [PgDataService::wallet_for_store_xpub] *)
Definition wallet_for_store_xpub (id store_id : Uuid) (namespace xpub : string) : WStatement Uuid :=
  fun now d =>
    match wd_stores d !! store_id with
    | None => (Err (NotFound "store not found"), d)
    | Some s =>
        match create_wallet id (so_owner_id s) namespace xpub None now d with
        | (Ok (wallet_id, _), d') => (Ok wallet_id, d')
        | (Err e, d') => (Err e, d')
        end
    end.

(** [WalletReader] *)
Definition get_wallet (wallet_id : Uuid) : WStatement (option WalletRow) :=
  wselect (fun d => wd_wallets d !! wallet_id).

(** [ORDER BY is_primary DESC, created_at ASC, id ASC] *)
Definition list_le (a b : Z * WalletRow) : Prop :=
  if Bool.eqb (wl_is_primary a.2) (wl_is_primary b.2)
  then wl_created_at a.2 < wl_created_at b.2 \/ (wl_created_at a.2 = wl_created_at b.2 /\ a.1 <= b.1)
  else wl_is_primary a.2 = true.
#[global] Instance list_le_dec : RelDecision list_le.
Proof. intros a b. unfold list_le. destruct (Bool.eqb _ _); apply _. Defined.

Definition list_wallets (user_id : Uuid) : WStatement (list (Z * WalletRow)) :=
  wselect (fun d => merge_sort list_le (wallets_where (fun w => wl_user_id w =? user_id) d)).

Definition get_primary_wallet (user_id : Uuid) (namespace : string) : WStatement (option (Z * WalletRow)) :=
  wselect (fun d => head (wallets_where (is_primary_of user_id namespace) d)).

Definition resolve_store_wallet (store_id : Uuid) (namespace : string) : WStatement (option (Z * WalletRow)) :=
  wselect (fun d => id ← store_wallet_resolution store_id namespace d; w ← wd_wallets d !! id; Some (id, w)).

Definition get_store_wallet_override (store_id : Uuid) (namespace : string) : WStatement (option Z) :=
  wselect (fun d => wd_store_wallets d !! (store_id, namespace)).

(** [PgDataService::store_resolves_to_a_wallet] *)
Definition store_resolves_to_a_wallet (store_id : Uuid) (namespace : string) : WStatement bool :=
  wselect (fun d => bool_decide (is_Some (store_wallet_resolution store_id namespace d))).

(** [WalletWriter::rename_wallet] *)
Definition rename_wallet (wallet_id : Uuid) (name : option string) : WStatement WalletRow :=
  fun _ d =>
    match wd_wallets d !! wallet_id with
    | Some w => (Ok (wl_set_name name w), wd_set_wallets (<[wallet_id := wl_set_name name w]> (wd_wallets d)) d)
    | None => (Err (NotFound "wallet not found"), d)
    end.

(** [WalletWriter::set_primary_wallet]: demote the primary of the wallet's
    family, then promote. *)
Definition set_primary_wallet (user_id wallet_id : Uuid) : WStatement WalletRow :=
  fun _ d =>
    match wd_wallets d !! wallet_id with
    | Some w =>
        if wl_user_id w =? user_id then
          let demoted :=
            (fun v => if is_primary_of user_id (wl_namespace w) v then wl_set_primary false v else v) <$> wd_wallets d in
          (Ok (wl_set_primary true w), wd_set_wallets (<[wallet_id := wl_set_primary true w]> demoted) d)
        else (Err (NotFound "wallet not found"), d)
    | None => (Err (NotFound "wallet not found"), d)
    end.

(** [ON DELETE RESTRICT]: an override or a pinned method names the wallet.  A
    primary that stores use because they have neither is not in use in this
    sense, and can be deleted. *)
Definition wallet_in_use (wallet_id : Uuid) (d : WalletDb) : bool :=
  existsb (Z.eqb wallet_id) (map_to_list (wd_store_wallets d)).*2
  || existsb (fun m => bool_decide (pm_wallet_id m = Some wallet_id)) (map_to_list (wd_methods d)).*2.

(** [WalletWriter::delete_wallet]; that it also clears [wallet_id] of the payment
    options the wallet issued addresses for is not read by any statement here. *)
Definition delete_wallet (wallet_id : Uuid) : WStatement unit :=
  fun _ d =>
    if bool_decide (is_Some (wd_wallets d !! wallet_id)) then
      if wallet_in_use wallet_id d
      then (Err (Conflict "wallet is still used by a store or payment method"), d)
      else (Ok tt, wd_set_wallets (delete wallet_id (wd_wallets d)) d)
    else (Err (NotFound "wallet not found"), d).

(** Unpinning a store's methods of one family. *)
Definition unpin (store_id : Uuid) (namespace : string) (m : MethodRow) : MethodRow :=
  if (pm_store_id m =? store_id) && String.eqb (method_namespace m) namespace then pm_set_wallet None m else m.

(** [WalletWriter::set_store_wallet] *)
Definition set_store_wallet (store_id wallet_id : Uuid) : WStatement unit :=
  fun _ d =>
    match wd_stores d !! store_id with
    | None => (Err (NotFound "store not found"), d)
    | Some s =>
        match wd_wallets d !! wallet_id with
        | Some w =>
            if wl_user_id w =? so_owner_id s then
              (Ok tt,
               wd_set_methods (unpin store_id (wl_namespace w) <$> wd_methods d)
                 (wd_set_store_wallets (<[(store_id, wl_namespace w) := wallet_id]> (wd_store_wallets d)) d))
            else (Err (NotFound "store or wallet not found, or the wallet belongs to another account"), d)
        | None => (Err (NotFound "store or wallet not found, or the wallet belongs to another account"), d)
        end
    end.

(** [WalletWriter::clear_store_wallet] *)
Definition clear_store_wallet (store_id : Uuid) (namespace : string) : WStatement unit :=
  fun _ d =>
    match wd_stores d !! store_id with
    | None => (Err (NotFound "store not found"), d)
    | Some _ =>
        (Ok tt,
         wd_set_methods (unpin store_id namespace <$> wd_methods d)
           (wd_set_store_wallets (delete (store_id, namespace) (wd_store_wallets d)) d))
    end.

(** ** Derivation *)

(** An [INTEGER] column refuses a value beyond 32 bits. *)
Definition INTEGER_MAX : Z := 2 ^ 31 - 1.

(** [SET derivation_index = derivation_index + 1 ... RETURNING derivation_index - 1] *)
Definition advance_counter (wallet_id : Uuid) (w : WalletRow) (d : WalletDb)
  : result RepositoryError DerivationAllocation * WalletDb :=
  if wl_derivation_index w =? INTEGER_MAX then (Err (Database "integer out of range"), d)
  else
    let a := mkDerivationAllocation wallet_id (wl_namespace w) (wl_xpub w) (wl_derivation_index w) in
    (Ok a, wd_issue a (wd_set_wallets
             (<[wallet_id := wl_set_index (wl_derivation_index w + 1) w]> (wd_wallets d)) d)).

(** [WalletWriter::next_derivation_index] *)
Definition next_derivation_index (wallet_id : Uuid) : WStatement Z :=
  fun _ d =>
    match wd_wallets d !! wallet_id with
    | Some w =>
        match advance_counter wallet_id w d with
        | (Ok a, d') => (Ok (da_index a), d')
        | (Err e, d') => (Err e, d')
        end
    | None => (Err (NotFound "wallet not found"), d)
    end.

(** [StorePaymentMethodWriter::allocate_derivation] *)
Definition allocate_derivation (id : Uuid) : WStatement DerivationAllocation :=
  fun _ d =>
    match (m ← wd_methods d !! id; resolved_wallet m d) with
    | Some (wallet_id, w) => advance_counter wallet_id w d
    | None => (Err (NotFound "payment method has no wallet in its chain family to derive from"), d)
    end.

(** ** Payment methods *)

(** [StorePaymentMethod]: the method with its resolved wallet. *)
Record StorePaymentMethod := mkStorePaymentMethod {
  spm_id : Uuid;
  spm_store_id : Uuid;
  spm_chain_id : string;
  spm_token_address : option string;
  spm_asset_symbol : string;
  spm_decimals : Z;
  spm_wallet_id : option Uuid;
  spm_xpub : option string;
  spm_derivation_index : option Z;
  spm_enabled : bool;
  spm_created_at : Instant
}.

(** [row_to_payment_method] on the projection [METHOD_COLUMNS] *)
Definition row_to_payment_method (d : WalletDb) (id : Uuid) (m : MethodRow) : StorePaymentMethod :=
  let w := resolved_wallet m d in
  {| spm_id := id;
     spm_store_id := pm_store_id m;
     spm_chain_id := pm_chain_id m;
     spm_token_address := pm_token_address m;
     spm_asset_symbol := pm_asset_symbol m;
     spm_decimals := pm_decimals m;
     spm_wallet_id := fst <$> w;
     spm_xpub := (fun iw => wl_xpub iw.2) <$> w;
     spm_derivation_index := (fun iw => wl_derivation_index iw.2) <$> w;
     spm_enabled := pm_enabled m;
     spm_created_at := pm_created_at m |}.

(** [ORDER BY pm.created_at] *)
Definition created_le (a b : StorePaymentMethod) : Prop := spm_created_at a <= spm_created_at b.
#[global] Instance created_le_dec : RelDecision created_le.
Proof. intros a b. apply Z_le_dec. Defined.

(** The joined rows of [method_from] that satisfy a condition: a method whose
    store is gone has no row. *)
Definition methods_where (p : Uuid -> MethodRow -> bool) (d : WalletDb) : list StorePaymentMethod :=
  (fun im => row_to_payment_method d im.1 im.2)
    <$> List.filter (fun im => p im.1 im.2 && bool_decide (is_Some (wd_stores d !! pm_store_id im.2)))
          (map_to_list (wd_methods d)).

(** [StorePaymentMethodReader::get_payment_methods] *)
Definition get_payment_methods (store_id : Uuid) : WStatement (list StorePaymentMethod) :=
  wselect (fun d => merge_sort created_le (methods_where (fun _ m => pm_store_id m =? store_id) d)).

(** [StorePaymentMethodReader::get_enabled_payment_methods] *)
Definition get_enabled_payment_methods (store_id : Uuid) : WStatement (list StorePaymentMethod) :=
  wselect (fun d =>
    merge_sort created_le (methods_where (fun _ m => (pm_store_id m =? store_id) && pm_enabled m) d)).

(** [StorePaymentMethodReader::get_payment_method] *)
Definition get_payment_method (id : Uuid) : WStatement (option StorePaymentMethod) :=
  wselect (fun d => head (methods_where (fun i _ => i =? id) d)).

Definition same_token_column (a b : option string) : bool := bool_decide (a = b).

(** [StorePaymentMethodReader::get_payment_method_by_chain] *)
Definition get_payment_method_by_chain (store_id : Uuid) (chain_id : string) (token_address : option string)
  : WStatement (option StorePaymentMethod) :=
  wselect (fun d => head (methods_where (fun _ m =>
    (pm_store_id m =? store_id) && String.eqb (pm_chain_id m) chain_id
      && same_token_column (pm_token_address m) token_address) d)).

(** [StorePaymentMethodReader::find_by_asset_symbol] *)
Definition find_by_asset_symbol (store_id : Uuid) (asset_symbol : string) : WStatement (list StorePaymentMethod) :=
  wselect (fun d => merge_sort created_le (methods_where (fun _ m =>
    (pm_store_id m =? store_id) && String.eqb (pm_asset_symbol m) asset_symbol && pm_enabled m) d)).

(** The composite foreign key: a pinned wallet is of the method's family. *)
Definition pin_allowed (chain_id : string) (wallet_id : option Uuid) (d : WalletDb) : bool :=
  match wallet_id with
  | None => true
  | Some id => match wd_wallets d !! id with
               | Some w => String.eqb (wl_namespace w) (chain_namespace chain_id)
               | None => false
               end
  end.

(** The [INSERT ... ON CONFLICT] of [create_payment_method]; the two conflict
    targets together are equality of store, chain and token. *)
Definition insert_payment_method (id store_id : Uuid) (chain_id : string) (token_address : option string)
    (asset_symbol : string) (decimals : Z) (wallet_id : option Uuid) : WStatement Uuid :=
  fun now d =>
    if negb (pin_allowed chain_id wallet_id d && bool_decide (is_Some (wd_stores d !! store_id)))
    then (Err (Database "foreign key violation"), d)
    else
      match head (List.filter (fun im : Z * MethodRow =>
                    (pm_store_id im.2 =? store_id) && String.eqb (pm_chain_id im.2) chain_id
                      && same_token_column (pm_token_address im.2) token_address) (map_to_list (wd_methods d))) with
      | Some (existing, m) =>
          let m' := mkMethodRow store_id chain_id token_address asset_symbol decimals wallet_id true (pm_created_at m) in
          (Ok existing, wd_set_methods (<[existing := m']> (wd_methods d)) d)
      | None =>
          if bool_decide (is_Some (wd_methods d !! id)) then (Err (Database "duplicate key"), d)
          else
            let m' := mkMethodRow store_id chain_id token_address asset_symbol decimals wallet_id true now in
            (Ok id, wd_set_methods (<[id := m']> (wd_methods d)) d)
      end.

(** The [UPDATE] of [update_payment_method] *)
Definition update_method_row (id : Uuid) (enabled : option bool) (wallet_id : option Uuid) : WStatement unit :=
  fun _ d =>
    match wd_methods d !! id with
    | None => (Ok tt, d)
    | Some m =>
        if negb (pin_allowed (pm_chain_id m) wallet_id d) then (Err (Database "foreign key violation"), d)
        else
          let m' := pm_set_wallet (match wallet_id with Some w => Some w | None => pm_wallet_id m end)
                      (pm_set_enabled (default (pm_enabled m) enabled) m) in
          (Ok tt, wd_set_methods (<[id := m']> (wd_methods d)) d)
    end.

(** [StorePaymentMethodWriter::delete_payment_method] *)
Definition delete_payment_method (id : Uuid) : WStatement unit :=
  fun _ d =>
    if bool_decide (is_Some (wd_methods d !! id)) then (Ok tt, wd_set_methods (delete id (wd_methods d)) d)
    else (Err (NotFound "payment method not found"), d).

(** ** Rotation *)

Record MethodToRotate := mkMethodToRotate {
  mtr_payment_method_id : Uuid;
  mtr_xpub : string;
  mtr_derivation_index : Z;
  mtr_pinned : bool
}.

Definition method_id_le (a b : Z * MethodRow) : Prop := a.1 <= b.1.
#[global] Instance method_id_le_dec : RelDecision method_id_le.
Proof. intros a b. apply Z_le_dec. Defined.

(** [PgDataService::methods_to_rotate] *)
Definition methods_to_rotate (store_id : Uuid) (only : option (list Uuid)) (namespace : string)
    (new_wallet_id : Uuid) (d : WalletDb) : list MethodToRotate :=
  omap (fun im : Z * MethodRow =>
          '(wid, w) ← resolved_wallet im.2 d;
          if (pm_store_id im.2 =? store_id) && negb (wid =? new_wallet_id)
               && match only with None => true | Some ids => bool_decide (im.1 ∈ ids) end
               && String.eqb (method_namespace im.2) namespace
          then Some (mkMethodToRotate im.1 (wl_xpub w) (wl_derivation_index w) (option_is_some (pm_wallet_id im.2)))
          else None)
       (merge_sort method_id_le (map_to_list (wd_methods d))).

(** The row [rotate_methods] inserts for a method. *)
Definition rotation_record (now : Instant) (store_id : Uuid) (new_xpub : string) (reason : option string)
    (m : MethodToRotate) : RotationRow :=
  mkRotationRow store_id (mtr_xpub m) new_xpub (mtr_payment_method_id m) (mtr_derivation_index m) reason now.

(** One turn of the loop of [rotate_methods]: the record, and the pin if there
    is one. *)
Definition rotate_one (now : Instant) (store_id : Uuid) (new_xpub : string) (reason : option string)
    (new_wallet_id : Uuid) (d : WalletDb) (m : MethodToRotate) : WalletDb :=
  let d := wd_add_rotation (rotation_record now store_id new_xpub reason m) d in
  if mtr_pinned m
  then wd_set_methods (alter (pm_set_wallet (Some new_wallet_id)) (mtr_payment_method_id m) (wd_methods d)) d
  else d.

(** [PgDataService::rotate_methods], one transaction under both locks *)
Definition rotate_methods (id store_id : Uuid) (only : option (list Uuid)) (namespace new_xpub : string)
    (reason : option string) : WStatement (list RotationRow) :=
  fun now d =>
    match wd_stores d !! store_id with
    | None => (Err (NotFound "store not found"), d)
    | Some s =>
        match create_wallet id (so_owner_id s) namespace new_xpub None now d with
        | (Err e, _) => (Err e, d)
        | (Ok (new_wallet_id, _), d1) =>
            let methods := methods_to_rotate store_id only namespace new_wallet_id d1 in
            let d2 := foldl (rotate_one now store_id new_xpub reason new_wallet_id) d1 methods in
            let needs_override := existsb (fun m => negb (mtr_pinned m)) methods in
            (Ok (rotation_record now store_id new_xpub reason <$> methods),
             if needs_override
             then wd_set_store_wallets (<[(store_id, namespace) := new_wallet_id]> (wd_store_wallets d2)) d2
             else d2)
        end
    end.

(** [rotate_payment_method_xpub] *)
Definition rotate_payment_method_xpub (id store_id payment_method_id : Uuid) (namespace new_xpub : string)
    (reason : option string) : WStatement RotationRow :=
  fun now d =>
    match rotate_methods id store_id (Some [payment_method_id]) namespace new_xpub reason now d with
    | (Ok (r :: _), d') => (Ok r, d')
    | (Ok [], d') => (Err (NotFound "payment method not found, or already on this xpub"), d')
    | (Err e, d') => (Err e, d')
    end.

(** [rotate_store_xpub] *)
Definition rotate_store_xpub (id store_id : Uuid) (namespace new_xpub : string) (reason : option string)
  : WStatement (list RotationRow) :=
  rotate_methods id store_id None namespace new_xpub reason.

(** [ORDER BY rotated_at DESC] *)
Definition rotated_ge (a b : RotationRow) : Prop := ro_rotated_at b <= ro_rotated_at a.
#[global] Instance rotated_ge_dec : RelDecision rotated_ge.
Proof. intros a b. apply Z_le_dec. Defined.

(** [get_rotation_history] *)
Definition get_rotation_history (store_id : Uuid) : WStatement (list RotationRow) :=
  wselect (fun d => merge_sort rotated_ge (List.filter (fun r => ro_store_id r =? store_id) (wd_rotations d))).

(** ** Requests *)

Section WalletRequests.
Context `{Runtime}.

(** The server next to the wallet tables; requests are counted by the server. *)
Record Site := mkSite {
  st_server : Server;
  st_wallets : WalletDb
}.

Definition on_server {E A} (m : St Server E A) : St Site E A :=
  fun s => let '(r, sv) := m (st_server s) in (r, mkSite sv (st_wallets s)).

(** One statement of the wallet tables. *)
Definition wdb {A} (stmt : WStatement A) : St Site RepositoryError A :=
  fun s =>
    let now := clock (sv_ticks (st_server s)) in
    let sv := tick (st_server s) in
    match calls (sv_ticks (st_server s)) with
    | Answered => let '(r, d) := stmt now (st_wallets s) in (r, mkSite sv d)
    | NotSent => (Err db_lost, mkSite sv (st_wallets s))
    | ReplyLost => (Err db_lost, mkSite sv (snd (stmt now (st_wallets s))))
    end.

(** The default id of a row the database inserts. *)
Definition db_uuid : St Site RepositoryError Uuid := on_server fresh.

(** [StorePaymentMethodWriter::create_payment_method] *)
Definition create_payment_method (store_id : Uuid) (chain_id : string) (token_address : option string)
    (asset_symbol : string) (decimals : Z) (xpub : option string) : St Site RepositoryError StorePaymentMethod :=
  let namespace := chain_namespace chain_id in
  let* wallet_id :=
    (match xpub with
     | Some xpub =>
         let* id := db_uuid in
         let* wallet_id := wdb (wallet_for_store_xpub id store_id namespace xpub) in
         st_ret (Some wallet_id)
     | None =>
         let* resolves := wdb (store_resolves_to_a_wallet store_id namespace) in
         if (resolves : bool) then st_ret None
         else st_throw (Conflict ("This store has no receiving key for " +:+ namespace +:+
                " chains to derive addresses from. Add one on the Wallets page, or supply an xpub with this payment method."))
     end) in
  let* id := db_uuid in
  let* id := wdb (insert_payment_method id store_id chain_id token_address asset_symbol decimals wallet_id) in
  let* r := wdb (get_payment_method id) in
  match r with
  | Some m => st_ret m
  | None => st_throw (NotFound "payment method not found")
  end.

(** [StorePaymentMethodWriter::update_payment_method] *)
Definition update_payment_method (id : Uuid) (enabled : option bool) (xpub : option string)
  : St Site RepositoryError StorePaymentMethod :=
  let* existing := wdb (get_payment_method id) in
  match existing with
  | None => st_throw (NotFound "payment method not found")
  | Some existing =>
      let* wallet_id :=
        (match xpub with
         | Some x =>
             let* wid := db_uuid in
             let* w := wdb (wallet_for_store_xpub wid (spm_store_id existing)
                              (chain_namespace (spm_chain_id existing)) x) in
             st_ret (Some w)
         | None => st_ret None
         end) in
      do* wdb (update_method_row id enabled wallet_id);
      let* r := wdb (get_payment_method id) in
      match r with
      | Some m => st_ret m
      | None => st_throw (NotFound "payment method not found")
      end
  end.
End WalletRequests.
