(* ===== verification/WalletFacts.v ===== *)
(** * Addresses are issued once, to the right account

    The invariants of the wallet tables and what they give: no derivation index
    of a key is issued twice, and an address is derived from a key of the
    store's own account and of the method's own chain family. *)

From stdpp Require Import gmap strings list sorting relations.
From Stdlib Require Import ZArith Lia.
From S2P Require Import Prelude Events Network Decimal Database Services LiveWatch Wallets.

(** ** Counters *)

(** What issuing depends on: the key and counter of a wallet. *)
Record WalletCore := mkWalletCore {
  co_user : Z;
  co_ns : string;
  co_xpub : string;
  co_index : Z
}.

Definition wl_core (w : WalletRow) : WalletCore :=
  mkWalletCore (wl_user_id w) (wl_namespace w) (wl_xpub w) (wl_derivation_index w).

Definition cores (d : WalletDb) : gmap Z WalletCore := wl_core <$> wd_wallets d.

(** The key and index of an allocation: what determines the address. *)
Definition alloc_key (a : DerivationAllocation) : string * string * Z := (da_namespace a, da_xpub a, da_index a).

(** One account per key, one counter per key and family; every issued index lies
    below the counter of its key; no index of a key was issued twice. *)
Definition issue_ok (cs : gmap Z WalletCore) (issued : list DerivationAllocation) : Prop :=
  (forall i j w v, cs !! i = Some w -> cs !! j = Some v -> co_xpub w = co_xpub v ->
     co_user w = co_user v /\ (co_ns w = co_ns v -> i = j)) /\
  (forall i w, cs !! i = Some w -> 0 <= co_index w <= INTEGER_MAX) /\
  (forall a i w, a ∈ issued -> cs !! i = Some w -> co_ns w = da_namespace a -> co_xpub w = da_xpub a ->
     da_index a < co_index w) /\
  (forall a, a ∈ issued -> 0 <= da_index a < INTEGER_MAX) /\
  NoDup (alloc_key <$> issued).

Definition counters_ok (d : WalletDb) : Prop := issue_ok (cores d) (wd_issued d).

(** Some index of the wallet's key was issued. *)
Definition has_issued (wallet_id : Z) (d : WalletDb) : Prop :=
  exists w a, wd_wallets d !! wallet_id = Some w /\ a ∈ wd_issued d /\
    wl_namespace w = da_namespace a /\ wl_xpub w = da_xpub a.

Lemma elem_of_wallets_where p d i w :
  (i, w) ∈ wallets_where p d <-> wd_wallets d !! i = Some w /\ p w = true.
Proof. unfold wallets_where. rewrite elem_of_filter_b, elem_of_map_to_list. tauto. Qed.

Lemma wallets_where_nil p d i w : wallets_where p d = [] -> wd_wallets d !! i = Some w -> p w = false.
Proof.
  intros Hn Hi. apply not_true_is_false. intros Hp.
  assert (Hin : (i, w) ∈ wallets_where p d) by by apply elem_of_wallets_where.
  rewrite Hn in Hin. by apply not_elem_of_nil in Hin.
Qed.

Lemma wallets_where_head p d i w :
  head (wallets_where p d) = Some (i, w) -> wd_wallets d !! i = Some w /\ p w = true.
Proof. intros Hh. apply elem_of_wallets_where, head_Some_elem_of. done. Qed.

Lemma wallets_where_head_none p d : head (wallets_where p d) = None -> wallets_where p d = [].
Proof. by destruct (wallets_where p d). Qed.

Lemma cores_insert d i w : cores (wd_set_wallets (<[i := w]> (wd_wallets d)) d) = <[i := wl_core w]> (cores d).
Proof. unfold cores. cbn. apply fmap_insert. Qed.

Lemma cores_same d i w w' :
  wd_wallets d !! i = Some w -> wl_core w' = wl_core w ->
  cores (wd_set_wallets (<[i := w']> (wd_wallets d)) d) = cores d.
Proof.
  intros Hi Hc. rewrite cores_insert. apply insert_id. unfold cores. rewrite lookup_fmap, Hi. cbn. by rewrite Hc.
Qed.

Lemma cores_lookup d i : cores d !! i = wl_core <$> wd_wallets d !! i.
Proof. unfold cores. apply lookup_fmap. Qed.

(** A new key. *)
Lemma issue_ok_insert cs issued i w :
  issue_ok cs issued -> cs !! i = None -> 0 <= co_index w <= INTEGER_MAX ->
  (forall j v, cs !! j = Some v -> co_xpub v = co_xpub w -> co_user v = co_user w /\ co_ns v <> co_ns w) ->
  (forall a, a ∈ issued -> co_ns w = da_namespace a -> co_xpub w = da_xpub a -> da_index a < co_index w) ->
  issue_ok (<[i := w]> cs) issued.
Proof.
  intros (Hk & Hb & Hi & Hr & Hn) Hfresh Hw Hkey Hiss. split; [|split; [|split; [|done]]].
  - intros j l v u Hj Hl Hx. apply lookup_insert_Some in Hj as [[<- <-]|[Hne Hj]], Hl as [[<- <-]|[Hne' Hl]].
    + done.
    + destruct (Hkey l u Hl (eq_sym Hx)) as [Hu Hns]. split; [done|]. intros Heq. by rewrite Heq in Hns.
    + destruct (Hkey j v Hj Hx) as [Hu Hns]. split; [done|]. intros Heq. by rewrite Heq in Hns.
    + by apply (Hk j l).
  - intros j v [[<- <-]|[_ Hj]]%lookup_insert_Some; [done | by apply (Hb j)].
  - intros a j v Ha [[<- <-]|[_ Hj]]%lookup_insert_Some Hns Hx; [by apply Hiss | by eapply Hi].
Qed.

Lemma issue_ok_advance cs issued i w a :
  issue_ok cs issued -> cs !! i = Some w -> co_index w < INTEGER_MAX ->
  alloc_key a = (co_ns w, co_xpub w, co_index w) ->
  issue_ok (<[i := mkWalletCore (co_user w) (co_ns w) (co_xpub w) (co_index w + 1)]> cs) (issued ++ [a]).
Proof.
  intros (Hk & Hb & Hi & Hr & Hn) Hw Hlt [= Hans Hax Hai]. pose proof (Hb i w Hw) as Hwb. split; [|split; [|split; [|split]]].
  - intros j l v u Hj Hl Hx. apply lookup_insert_Some in Hj as [[<- <-]|[Hne Hj]], Hl as [[<- <-]|[Hne' Hl]]; cbn in *.
    + done.
    + by apply (Hk i l w u).
    + destruct (Hk j i v w Hj Hw Hx). done.
    + by apply (Hk j l).
  - intros j v [[<- <-]|[_ Hj]]%lookup_insert_Some; cbn; [lia | by apply (Hb j)].
  - intros b j v [Hin|Hin]%elem_of_app Hj Hns Hx.
    + apply lookup_insert_Some in Hj as [[<- <-]|[_ Hj]]; cbn in *; [|by eapply Hi].
      assert (da_index b < co_index w) by (by eapply Hi). lia.
    + apply list_elem_of_singleton in Hin as ->. apply lookup_insert_Some in Hj as [[<- <-]|[Hne Hj]]; cbn; [lia|].
      exfalso. apply Hne. eapply (Hk i j w v); [done..| |]; congruence.
  - intros b [Hin|Hin]%elem_of_app; [by apply Hr|]. apply list_elem_of_singleton in Hin as ->. lia.
  - rewrite fmap_app. apply NoDup_app. split; [done|]. split; [|apply NoDup_singleton].
    intros k Hin Hk'. apply list_elem_of_singleton in Hk' as ->.
    apply list_elem_of_fmap in Hin as (b & Heq & Hin). injection Heq as Hns Hx Hidx.
    assert (da_index b < co_index w) by (eapply Hi; [done..| |]; congruence). lia.
Qed.

Lemma issue_ok_delete cs issued i : issue_ok cs issued -> issue_ok (delete i cs) issued.
Proof.
  intros (Hk & Hb & Hi & Hr & Hn). split; [|split; [|split; [|done]]].
  - intros j l v u [_ Hj]%lookup_delete_Some [_ Hl]%lookup_delete_Some. by apply Hk.
  - intros j v [_ Hj]%lookup_delete_Some. by apply (Hb j).
  - intros a j v Ha [_ Hj]%lookup_delete_Some. by eapply Hi.
Qed.

(** ** Statements *)

(** A statement that keeps every key and counter and issues nothing. *)
Definition core_frame (d d' : WalletDb) : Prop := cores d' = cores d /\ wd_issued d' = wd_issued d.

Lemma core_frame_ok d d' : core_frame d d' -> counters_ok d -> counters_ok d'.
Proof. intros [Hc Hi]. unfold counters_ok. by rewrite Hc, Hi. Qed.

Lemma create_wallet_run id user ns xpub name now d r d' :
  create_wallet id user ns xpub name now d = (r, d') ->
  match r with
  | Err _ => d' = d
  | Ok (i, w) =>
      wl_user_id w = user /\ wl_namespace w = ns /\ wl_xpub w = xpub /\
      d' = wd_set_wallets (<[i := w]> (wd_wallets d)) d /\
      ((exists v, wd_wallets d !! i = Some v /\ wl_core w = wl_core v /\ wl_is_primary w = wl_is_primary v) \/
       (i = id /\ wd_wallets d !! i = None /\ wl_derivation_index w = 0 /\
        (forall j v, wd_wallets d !! j = Some v -> wl_xpub v = xpub -> wl_user_id v = user /\ wl_namespace v <> ns) /\
        (wl_is_primary w = true ->
           forall j v, wd_wallets d !! j = Some v -> wl_user_id v = user -> wl_namespace v <> ns)))
  end.
Proof.
  unfold create_wallet, reject_if_another_account_holds. case_bool_decide as Hrej; [|by intros [= <- <-]].
  unfold upsert_wallet. destruct (head (wallets_where (holds_key user ns xpub) d)) as [[i v]|] eqn:Hh.
  - intros [= <- <-]. apply wallets_where_head in Hh as [Hi Hk].
    unfold holds_key in Hk. apply andb_true_iff in Hk as [[Hu%Z.eqb_eq Hns%String.eqb_eq]%andb_true_iff Hx%String.eqb_eq].
    repeat split; try done. left. by exists v.
  - apply wallets_where_head_none in Hh. case_bool_decide as Hid; [by intros [= <- <-]|].
    intros [= <- <-]. cbn. repeat split; try done. right. split; [done|].
    split; [by apply eq_None_not_Some|]. split; [done|]. split.
    + intros j v Hj Hx. pose proof (wallets_where_nil _ _ _ _ Hrej Hj) as Hu. pose proof (wallets_where_nil _ _ _ _ Hh Hj) as Hk.
      cbn in Hu. rewrite Hx, String.eqb_refl in Hu. cbn in Hu. apply negb_false_iff, Z.eqb_eq in Hu. split; [done|].
      intros Hns. unfold holds_key in Hk. by rewrite Hu, Hns, Hx, Z.eqb_refl, !String.eqb_refl in Hk.
    + intros Hfirst%bool_decide_eq_true j v Hj Hu Hns. pose proof (wallets_where_nil _ _ _ _ Hfirst Hj) as Hk.
      cbn in Hk. by rewrite Hu, Hns, Z.eqb_refl, String.eqb_refl in Hk.
Qed.

(** Creating a wallet for a key whose indices were never issued, or that is
    still on file, keeps the counters right. *)
Lemma create_wallet_counters id user ns xpub name now d :
  (forall a, a ∈ wd_issued d -> da_namespace a = ns -> da_xpub a = xpub ->
     exists i w, wd_wallets d !! i = Some w /\ wl_namespace w = ns /\ wl_xpub w = xpub) ->
  counters_ok d -> counters_ok (snd (create_wallet id user ns xpub name now d)).
Proof.
  intros Hrec Hok. destruct (create_wallet id user ns xpub name now d) as [r d'] eqn:Hr.
  apply create_wallet_run in Hr. destruct r as [[i w]|e]; cbn; [|by subst].
  destruct Hr as (Hu & Hns & Hx & -> & [(v & Hv & Hc & _)|(-> & Hnone & Hidx & Hkey & _)]).
  { eapply core_frame_ok; [|exact Hok]. split; [by eapply cores_same | done]. }
  unfold counters_ok. rewrite cores_insert. apply issue_ok_insert; [exact Hok | | | |].
  - by rewrite cores_lookup, Hnone.
  - cbn. rewrite Hidx. unfold INTEGER_MAX. lia.
  - intros j v Hj Hxv. rewrite cores_lookup in Hj. apply fmap_Some in Hj as (v' & Hv' & ->). cbn in *.
    rewrite Hx in Hxv. rewrite Hu, Hns. by apply (Hkey j).
  - cbn. rewrite Hns, Hx, Hidx. intros a Ha Hans Hax. exfalso.
    destruct (Hrec a Ha (eq_sym Hans) (eq_sym Hax)) as (j & v & Hj & Hvn & Hvx). by destruct (Hkey j v Hj Hvx).
Qed.

Lemma advance_counters i w d :
  wd_wallets d !! i = Some w -> counters_ok d -> counters_ok (snd (advance_counter i w d)).
Proof.
  intros Hi Hok. unfold advance_counter. destruct (Z.eqb_spec (wl_derivation_index w) INTEGER_MAX) as [|Hne]; [done|].
  cbn [snd]. unfold counters_ok. cbn [wd_issued wd_issue wd_set_wallets].
  change (cores (wd_issue ?a ?x)) with (cores x). rewrite cores_insert.
  pose proof Hok as (_ & Hb & _). assert (Hc : cores d !! i = Some (wl_core w)) by by rewrite cores_lookup, Hi.
  specialize (Hb i _ Hc). cbn in Hb.
  apply (issue_ok_advance (cores d) (wd_issued d) i (wl_core w)); [exact Hok | exact Hc | cbn; lia | reflexivity].
Qed.

(** The key of every issued index is on file. *)
Definition keys_on_file (d : WalletDb) : Prop :=
  forall a, a ∈ wd_issued d -> exists i c, cores d !! i = Some c /\ co_ns c = da_namespace a /\ co_xpub c = da_xpub a.

Definition issuing_ok (d : WalletDb) : Prop := counters_ok d /\ keys_on_file d.

Lemma core_frame_issuing d d' : core_frame d d' -> issuing_ok d -> issuing_ok d'.
Proof. intros Hf [Hc Hk]. split; [by eapply core_frame_ok|]. destruct Hf as [Hc' Hi']. unfold keys_on_file. by rewrite Hc', Hi'. Qed.

(** The statement keeps the invariant of the counters. *)
Definition keeps_issuing {A} (stmt : WStatement A) : Prop :=
  forall now d, issuing_ok d -> issuing_ok (snd (stmt now d)).

Lemma keeps_frame {A} (stmt : WStatement A) : (forall now d, core_frame d (snd (stmt now d))) -> keeps_issuing stmt.
Proof. intros Hf now d. by apply core_frame_issuing. Qed.

Lemma cores_insert_extends d i w :
  (forall v, wd_wallets d !! i = Some v -> wl_namespace v = wl_namespace w /\ wl_xpub v = wl_xpub w) ->
  keys_on_file d -> keys_on_file (wd_set_wallets (<[i := w]> (wd_wallets d)) d).
Proof.
  intros Hsame Hk a Ha. destruct (Hk a Ha) as (j & c & Hj & Hns & Hx). rewrite cores_insert.
  destruct (decide (i = j)) as [<-|Hne]; [|exists j, c; by rewrite lookup_insert_ne].
  exists i, (wl_core w). rewrite lookup_insert_eq. split; [done|]. rewrite cores_lookup in Hj.
  apply fmap_Some in Hj as (v & Hv & ->). cbn in *.
  destruct (Hsame v Hv) as [<- <-]. done.
Qed.

Lemma create_wallet_keeps id user ns xpub name : keeps_issuing (create_wallet id user ns xpub name).
Proof.
  intros now d [Hc Hk]. split.
  - apply create_wallet_counters; [|done]. intros a Ha <- <-. destruct (Hk a Ha) as (i & c & Hi & Hns & Hx).
    rewrite cores_lookup in Hi. apply fmap_Some in Hi as (w & Hw & ->). by exists i, w.
  - destruct (create_wallet id user ns xpub name now d) as [r d'] eqn:Hr. apply create_wallet_run in Hr.
    destruct r as [[i w]|e]; cbn; [|by subst].
    destruct Hr as (_ & _ & _ & -> & [(v & Hv & Hcore & _)|(_ & Hnone & _)]); apply cores_insert_extends; try done.
    + intros v' Hv'. rewrite Hv in Hv'. injection Hv' as <-. by injection Hcore.
    + intros v' Hv'. by rewrite Hnone in Hv'.
Qed.

Lemma advance_keeps i w d :
  wd_wallets d !! i = Some w -> issuing_ok d -> issuing_ok (snd (advance_counter i w d)).
Proof.
  intros Hi [Hc Hk]. split; [by apply advance_counters|]. unfold advance_counter.
  destruct (wl_derivation_index w =? INTEGER_MAX); [done|]. cbn [snd].
  intros a Ha. change (cores (wd_issue ?b ?x)) with (cores x). rewrite cores_insert.
  cbn [wd_issued wd_issue wd_set_wallets] in Ha. apply elem_of_app in Ha as [Ha|Ha].
  - pose proof (cores_insert_extends d i (wl_set_index (wl_derivation_index w + 1) w)) as He.
    rewrite <-cores_insert. apply He; [|done|done]. intros v Hv. rewrite Hi in Hv. by injection Hv as <-.
  - apply list_elem_of_singleton in Ha as ->. exists i. eexists. rewrite lookup_insert_eq. split; [done|]. done.
Qed.

Lemma resolved_wallet_row m d i w :
  resolved_wallet m d = Some (i, w) -> wd_wallets d !! i = Some w /\ wl_namespace w = method_namespace m.
Proof.
  unfold resolved_wallet. intros (j & Hj & (v & Hv & Hw)%bind_Some)%bind_Some.
  destruct (String.eqb_spec (wl_namespace v) (method_namespace m)); [|done]. by injection Hw as <- <-.
Qed.

(** ** Operations *)

(** The writing statements of the wallet tables with their arguments. *)
Inductive WalletOp :=
| OpCreate (id user_id : Z) (namespace xpub : string) (name : option string)
| OpForStore (id store_id : Z) (namespace xpub : string)
| OpRename (wallet_id : Z) (name : option string)
| OpSetPrimary (user_id wallet_id : Z)
| OpDelete (wallet_id : Z)
| OpSetStore (store_id wallet_id : Z)
| OpClearStore (store_id : Z) (namespace : string)
| OpNext (wallet_id : Z)
| OpAllocate (method_id : Z)
| OpInsertMethod (id store_id : Z) (chain_id : string) (token_address : option string) (symbol : string)
    (decimals : Z) (wallet_id : option Z)
| OpUpdateMethod (id : Z) (enabled : option bool) (wallet_id : option Z)
| OpDeleteMethod (id : Z)
| OpRotate (id store_id : Z) (only : option (list Z)) (namespace xpub : string) (reason : option string).

Definition apply_op (op : WalletOp) (now : Instant) (d : WalletDb) : WalletDb :=
  match op with
  | OpCreate id user ns xpub name => snd (create_wallet id user ns xpub name now d)
  | OpForStore id store ns xpub => snd (wallet_for_store_xpub id store ns xpub now d)
  | OpRename id name => snd (rename_wallet id name now d)
  | OpSetPrimary user id => snd (set_primary_wallet user id now d)
  | OpDelete id => snd (delete_wallet id now d)
  | OpSetStore store id => snd (set_store_wallet store id now d)
  | OpClearStore store ns => snd (clear_store_wallet store ns now d)
  | OpNext id => snd (next_derivation_index id now d)
  | OpAllocate id => snd (allocate_derivation id now d)
  | OpInsertMethod id store chain token symbol decimals wid =>
      snd (insert_payment_method id store chain token symbol decimals wid now d)
  | OpUpdateMethod id enabled wid => snd (update_method_row id enabled wid now d)
  | OpDeleteMethod id => snd (delete_payment_method id now d)
  | OpRotate id store only ns xpub reason => snd (rotate_methods id store only ns xpub reason now d)
  end.

(** Statements as the sessions' interleaving orders them, each at its time. *)
Definition run_ops (ops : list (Instant * WalletOp)) (d : WalletDb) : WalletDb :=
  foldl (fun d top => apply_op top.2 top.1 d) d ops.

(** A condition on every statement of the run, on the tables it meets. *)
Fixpoint ops_satisfy (P : WalletOp -> WalletDb -> Prop) (ops : list (Instant * WalletOp)) (d : WalletDb) : Prop :=
  match ops with
  | [] => True
  | (now, op) :: ops => P op d /\ ops_satisfy P ops (apply_op op now d)
  end.

Lemma run_ops_invariant (I : WalletDb -> Prop) P ops d :
  (forall op now x, P op x -> I x -> I (apply_op op now x)) ->
  ops_satisfy P ops d -> I d -> I (run_ops ops d).
Proof.
  intros Hstep. revert d. induction ops as [|[now op] ops IH]; intros d; [done|].
  cbn. intros [Hp Hps] Hi. apply IH; [done | by apply Hstep].
Qed.

(** No wallet is deleted whose key was issued from. *)
Definition spares_issued (op : WalletOp) (d : WalletDb) : Prop :=
  match op with OpDelete wallet_id => ~ has_issued wallet_id d | _ => True end.

Lemma rotate_one_frame now store xpub reason wid d m : core_frame d (rotate_one now store xpub reason wid d m).
Proof. unfold rotate_one. by destruct (mtr_pinned m). Qed.

Lemma rotate_fold_frame now store xpub reason wid ms d :
  core_frame d (foldl (rotate_one now store xpub reason wid) d ms).
Proof.
  revert d. induction ms as [|m ms IH]; intros d; [done|]. cbn.
  destruct (IH (rotate_one now store xpub reason wid d m)) as [Hc Hi].
  destruct (rotate_one_frame now store xpub reason wid d m) as [Hc' Hi']. split; congruence.
Qed.

Lemma wallet_for_store_keeps id store ns xpub : keeps_issuing (wallet_for_store_xpub id store ns xpub).
Proof.
  intros now d Hok. unfold wallet_for_store_xpub. destruct (wd_stores d !! store) as [s|]; [|done].
  pose proof (create_wallet_keeps id (so_owner_id s) ns xpub None now d Hok) as Hk.
  by destruct (create_wallet _ _ _ _ _ _ _) as [[[i w]|e] d'].
Qed.

Lemma rotate_keeps id store only ns xpub reason : keeps_issuing (rotate_methods id store only ns xpub reason).
Proof.
  intros now d Hok. unfold rotate_methods. destruct (wd_stores d !! store) as [s|]; [|done].
  pose proof (create_wallet_keeps id (so_owner_id s) ns xpub None now d Hok) as Hk.
  destruct (create_wallet _ _ _ _ _ _ _) as [[[i w]|e] d1]; [|done]. cbn [snd] in *.
  pose proof (rotate_fold_frame now store xpub reason i (methods_to_rotate store only ns i d1) d1) as Hf.
  destruct (existsb _ _); by eapply core_frame_issuing.
Qed.

Lemma set_primary_frame user wid now d : core_frame d (snd (set_primary_wallet user wid now d)).
Proof.
  unfold set_primary_wallet. destruct (wd_wallets d !! wid) as [w|] eqn:Hw; [|done].
  destruct (wl_user_id w =? user); [|done]. split; [|done]. cbn [snd].
  apply map_eq. intros j. rewrite !cores_lookup. cbn [wd_wallets wd_set_wallets]. rewrite lookup_insert. case_decide as Hj.
  - subst j. by rewrite Hw.
  - rewrite lookup_fmap. destruct (wd_wallets d !! j) as [v|]; [|done]. cbn. by destruct (is_primary_of _ _ v).
Qed.

Lemma delete_keeps wid now d : ~ has_issued wid d -> issuing_ok d -> issuing_ok (snd (delete_wallet wid now d)).
Proof.
  intros Hn [Hc Hk]. unfold delete_wallet. case_bool_decide as Hs; [|done]. destruct (wallet_in_use wid d); [done|].
  cbn [snd]. assert (Hcores : cores (wd_set_wallets (delete wid (wd_wallets d)) d) = delete wid (cores d))
    by (unfold cores; cbn; apply fmap_delete).
  split.
  - unfold counters_ok. rewrite Hcores. by apply issue_ok_delete.
  - intros a Ha. destruct (Hk a Ha) as (i & c & Hi & Hns & Hx). exists i, c. rewrite Hcores. split; [|done].
    rewrite lookup_delete_ne; [done|]. intros <-. apply Hn. rewrite cores_lookup in Hi.
    apply fmap_Some in Hi as (w & Hw & ->). by exists w, a.
Qed.

Lemma apply_op_issuing op now d : spares_issued op d -> issuing_ok d -> issuing_ok (apply_op op now d).
Proof.
  intros Hs Hok. destruct op; cbn [apply_op].
  - by apply create_wallet_keeps.
  - by apply wallet_for_store_keeps.
  - apply keeps_frame; [|done]. intros t x. unfold rename_wallet. destruct (wd_wallets x !! wallet_id) as [w|] eqn:Hw; [|done].
    split; [by eapply cores_same | done].
  - apply keeps_frame; [|done]. apply set_primary_frame.
  - by apply delete_keeps.
  - apply keeps_frame; [|done]. intros t x. unfold set_store_wallet. by repeat case_match.
  - apply keeps_frame; [|done]. intros t x. unfold clear_store_wallet. by repeat case_match.
  - unfold next_derivation_index. destruct (wd_wallets d !! wallet_id) as [w|] eqn:Hw; [|done].
    pose proof (advance_keeps _ _ _ Hw Hok) as Ha. by destruct (advance_counter _ _ _) as [[a|e] d'].
  - unfold allocate_derivation. destruct (m ← _; _) as [[i w]|] eqn:Hm; [|done].
    apply bind_Some in Hm as (m & Hm & Hr). apply resolved_wallet_row in Hr as [Hw _]. by apply advance_keeps.
  - apply keeps_frame; [|done]. intros t x. unfold insert_payment_method. by repeat case_match.
  - apply keeps_frame; [|done]. intros t x. unfold update_method_row. by repeat case_match.
  - apply keeps_frame; [|done]. intros t x. unfold delete_payment_method. by repeat case_match.
  - by apply rotate_keeps.
Qed.

(** C4. However the statements of concurrent requests interleave, as long as no
    wallet that issued an address is deleted, no derivation index of a key is
    handed out twice, and every one handed out is a valid non-hardened child. *)
Theorem indices_issued_once ops d :
  issuing_ok d -> ops_satisfy spares_issued ops d ->
  NoDup (alloc_key <$> wd_issued (run_ops ops d)) /\
  (forall a, a ∈ wd_issued (run_ops ops d) -> 0 <= da_index a < 2 ^ 31 - 1).
Proof.
  intros Hok Hs. assert (Hend : issuing_ok (run_ops ops d)).
  { eapply run_ops_invariant; [|exact Hs|exact Hok]. intros op now x. apply apply_op_issuing. }
  by destruct Hend as [(_ & _ & _ & Hr & Hn) _].
Qed.
