(* ===== verification/WalletRouting.v ===== *)
(** * Which wallet a payment method derives from

    Overrides and pins name wallets of the store owner's account and of the
    right chain family, every account has one primary wallet per family, and
    what assigning a store wallet and rotating a key redirect. *)

From stdpp Require Import gmap strings list sorting relations.
From Stdlib Require Import ZArith Lia.
From S2P Require Import Prelude Events Network Decimal Database Services LiveWatch Wallets WalletFacts.

(** ** The invariant *)

(** The wallet is of the store owner's account and of the family. *)
Definition belongs (d : WalletDb) (store : Z) (ns : string) (wid : Z) : Prop :=
  exists s w, wd_stores d !! store = Some s /\ wd_wallets d !! wid = Some w /\
    wl_user_id w = so_owner_id s /\ wl_namespace w = ns.

Definition one_primary (ws : gmap Z WalletRow) : Prop :=
  forall i j w v, ws !! i = Some w -> ws !! j = Some v -> wl_is_primary w = true -> wl_is_primary v = true ->
    wl_user_id w = wl_user_id v -> wl_namespace w = wl_namespace v -> i = j.

Definition pins_ok (d : WalletDb) (ms : gmap Z MethodRow) : Prop :=
  forall i m wid, ms !! i = Some m -> pm_wallet_id m = Some wid -> belongs d (pm_store_id m) (method_namespace m) wid.

Definition overrides_ok (d : WalletDb) (sw : gmap (Z * string) Z) : Prop :=
  forall store ns wid, sw !! (store, ns) = Some wid -> belongs d store ns wid.

Definition routing_ok (d : WalletDb) : Prop :=
  overrides_ok d (wd_store_wallets d) /\ pins_ok d (wd_methods d) /\ one_primary (wd_wallets d).

(** Stores are kept, and every wallet keeps its account and family. *)
Definition wallets_extend (d d' : WalletDb) : Prop :=
  wd_stores d' = wd_stores d /\
  forall i w, wd_wallets d !! i = Some w ->
    exists w', wd_wallets d' !! i = Some w' /\ wl_user_id w' = wl_user_id w /\ wl_namespace w' = wl_namespace w.

#[global] Instance wallets_extend_preorder : PreOrder wallets_extend.
Proof.
  split.
  - intros d. split; [done|]. intros i w Hw. by exists w.
  - intros d1 d2 d3 [Hs H12] [Hs' H23]. split; [congruence|]. intros i w Hw.
    destruct (H12 i w Hw) as (w' & Hw' & Hu & Hn). destruct (H23 i w' Hw') as (w'' & Hw'' & Hu' & Hn').
    exists w''. split; [done|]. split; congruence.
Qed.

Lemma belongs_extend d d' store ns wid : wallets_extend d d' -> belongs d store ns wid -> belongs d' store ns wid.
Proof.
  intros [Hs Hw] (s & w & Hst & Hwl & Hu & Hn). destruct (Hw wid w Hwl) as (w' & Hw' & Hu' & Hn').
  exists s, w'. rewrite Hs. split; [done|]. split; [done|]. split; congruence.
Qed.

Lemma routing_extend d d' :
  wallets_extend d d' -> wd_store_wallets d' = wd_store_wallets d -> wd_methods d' = wd_methods d ->
  one_primary (wd_wallets d') -> routing_ok d -> routing_ok d'.
Proof.
  intros He Hsw Hm Hp (Ho & Hpin & _). split; [|split; [|done]].
  - intros store ns wid. rewrite Hsw. intros Hl. by eapply belongs_extend, Ho.
  - intros i m wid. rewrite Hm. intros Hl Hw. eapply belongs_extend; [exact He|]. by eapply Hpin.
Qed.

(** A change of the wallet tables that keeps the wallets themselves. *)
Lemma routing_same_wallets d sw ms :
  overrides_ok d sw -> pins_ok d ms -> one_primary (wd_wallets d) ->
  routing_ok (wd_set_methods ms (wd_set_store_wallets sw d)).
Proof. intros Ho Hp H1. split; [|split]; done. Qed.

Lemma insert_extend d i w v :
  wd_wallets d !! i = Some v -> wl_user_id w = wl_user_id v -> wl_namespace w = wl_namespace v ->
  wallets_extend d (wd_set_wallets (<[i := w]> (wd_wallets d)) d).
Proof.
  intros Hv Hu Hn. split; [done|]. intros j x Hx. cbn. rewrite lookup_insert. case_decide as Hj; [|by exists x].
  subst j. rewrite Hv in Hx. injection Hx as <-. by exists w.
Qed.

Lemma insert_extend_fresh d i w :
  wd_wallets d !! i = None -> wallets_extend d (wd_set_wallets (<[i := w]> (wd_wallets d)) d).
Proof.
  intros Hn. split; [done|]. intros j x Hx. cbn. exists x. rewrite lookup_insert_ne; [done|]. intros <-. by rewrite Hn in Hx.
Qed.

Lemma one_primary_same ws i w v :
  ws !! i = Some v -> wl_user_id w = wl_user_id v -> wl_namespace w = wl_namespace v ->
  wl_is_primary w = wl_is_primary v -> one_primary ws -> one_primary (<[i := w]> ws).
Proof.
  intros Hv Hu Hn Hpr Hp j l x y Hj Hl Hjp Hlp Hxu Hxn.
  apply lookup_insert_Some in Hj as [[<- <-]|[Hne Hj]], Hl as [[<- <-]|[Hne' Hl]].
  - done.
  - apply (Hp i l v y); congruence.
  - apply (Hp j i x v); congruence.
  - by apply (Hp j l x y).
Qed.

Lemma one_primary_insert ws i w :
  (wl_is_primary w = true -> forall j v, ws !! j = Some v -> wl_is_primary v = true -> wl_user_id v = wl_user_id w ->
     wl_namespace v <> wl_namespace w) ->
  one_primary ws -> one_primary (<[i := w]> ws).
Proof.
  intros Hw Hp j l x y Hj Hl Hjp Hlp Hxu Hxn.
  apply lookup_insert_Some in Hj as [[<- <-]|[Hne Hj]], Hl as [[<- <-]|[Hne' Hl]].
  - done.
  - exfalso. by apply (Hw Hjp l y).
  - exfalso. by apply (Hw Hlp j x).
  - by apply (Hp j l x y).
Qed.

(** ** Wallet statements *)

Lemma create_wallet_extend id user ns xpub name now d :
  wallets_extend d (snd (create_wallet id user ns xpub name now d)).
Proof.
  destruct (create_wallet id user ns xpub name now d) as [r d'] eqn:Hr. apply create_wallet_run in Hr.
  destruct r as [[i w]|e]; cbn; [|by subst].
  destruct Hr as (_ & _ & _ & -> & [(v & Hv & Hc & _)|(-> & Hnone & _)]).
  - injection Hc as Hu Hn _ _. by eapply insert_extend.
  - by apply insert_extend_fresh.
Qed.

Lemma create_wallet_frame id user ns xpub name now d d' r :
  create_wallet id user ns xpub name now d = (r, d') ->
  wd_store_wallets d' = wd_store_wallets d /\ wd_methods d' = wd_methods d /\ wd_rotations d' = wd_rotations d.
Proof.
  intros Hr%create_wallet_run. destruct r as [[i w]|e]; [|by subst]. by destruct Hr as (_ & _ & _ & -> & _).
Qed.

Lemma create_wallet_routing id user ns xpub name now d :
  routing_ok d -> routing_ok (snd (create_wallet id user ns xpub name now d)).
Proof.
  intros Hok. pose proof (create_wallet_extend id user ns xpub name now d) as He.
  destruct (create_wallet id user ns xpub name now d) as [r d'] eqn:Hr. cbn [snd] in *.
  destruct (create_wallet_frame _ _ _ _ _ _ _ _ _ Hr) as (Hsw & Hm & _).
  eapply routing_extend; [done..| |exact Hok]. destruct Hok as (_ & _ & Hp).
  apply create_wallet_run in Hr. destruct r as [[i w]|e]; [|by subst].
  destruct Hr as (Hu & Hn & _ & -> & [(v & Hv & Hc & Hpr)|(-> & _ & _ & _ & Hfirst)]); cbn.
  - injection Hc as Hcu Hcn _ _. by eapply one_primary_same.
  - apply one_primary_insert; [|done]. rewrite Hu, Hn. intros Hpr j v Hj _. by apply (Hfirst Hpr j).
Qed.

(** The demotion of [set_primary_wallet] *)
Definition demote (user : Z) (ns : string) (v : WalletRow) : WalletRow :=
  if is_primary_of user ns v then wl_set_primary false v else v.

Lemma demote_same user ns v :
  wl_user_id (demote user ns v) = wl_user_id v /\ wl_namespace (demote user ns v) = wl_namespace v.
Proof. unfold demote. by destruct (is_primary_of user ns v). Qed.

Lemma demote_primary user ns v :
  wl_is_primary (demote user ns v) = true ->
  wl_is_primary v = true /\ ~ (wl_user_id v = user /\ wl_namespace v = ns).
Proof.
  unfold demote. destruct (is_primary_of user ns v) eqn:Hp; [done|]. intros Hv. split; [done|]. intros [Hu Hn].
  unfold is_primary_of in Hp. by rewrite Hu, Hn, Hv, Z.eqb_refl, String.eqb_refl in Hp.
Qed.

Lemma one_primary_demote user ns ws : one_primary ws -> one_primary (demote user ns <$> ws).
Proof.
  intros Hp i j w v Hi Hj Hw Hv Hu Hn. rewrite lookup_fmap in Hi, Hj.
  apply fmap_Some in Hi as (w0 & Hw0 & ->), Hj as (v0 & Hv0 & ->).
  apply demote_primary in Hw as [Hw _], Hv as [Hv _].
  destruct (demote_same user ns w0) as [Hwu Hwn], (demote_same user ns v0) as [Hvu Hvn].
  apply (Hp i j w0 v0); congruence.
Qed.

Lemma set_primary_routing user wid now d : routing_ok d -> routing_ok (snd (set_primary_wallet user wid now d)).
Proof.
  intros Hok. unfold set_primary_wallet. destruct (wd_wallets d !! wid) as [w|] eqn:Hw; [|done].
  destruct (Z.eqb_spec (wl_user_id w) user) as [Hu|]; [|done]. cbn [snd]. cbn zeta. fold (demote user (wl_namespace w)).
  eapply (routing_extend d); [|done|done| |exact Hok].
  - split; [done|]. intros i v Hv. cbn. rewrite lookup_insert. case_decide as Hi.
    + subst i. rewrite Hw in Hv. injection Hv as <-. by eexists.
    + rewrite lookup_fmap, Hv. cbn. eexists. split; [done|]. apply demote_same.
  - destruct Hok as (_ & _ & Hp). cbn. apply one_primary_insert; [|by apply one_primary_demote].
    intros _ j v Hj Hv Hvu Hvn. rewrite lookup_fmap in Hj. apply fmap_Some in Hj as (v0 & Hv0 & ->).
    apply demote_primary in Hv as [_ Hv]. apply Hv.
    destruct (demote_same user (wl_namespace w) v0) as [<- <-]. cbn in Hvu, Hvn. split; congruence.
Qed.

Lemma delete_routing wid now d : routing_ok d -> routing_ok (snd (delete_wallet wid now d)).
Proof.
  intros (Ho & Hpin & Hp). unfold delete_wallet. case_bool_decide as Hs; [|done].
  destruct (wallet_in_use wid d) eqn:Hu; [done|]. cbn [snd]. apply orb_false_iff in Hu as [Hns Hnm].
  assert (Hkeep : forall store ns i, i <> wid -> belongs d store ns i ->
    belongs (wd_set_wallets (delete wid (wd_wallets d)) d) store ns i).
  { intros store ns i Hne (s & w & ? & Hw & ? & ?). exists s, w. cbn. by rewrite lookup_delete_ne. }
  split; [|split]; cbn.
  - intros store ns i Hi. apply Hkeep; [|by apply Ho]. intros ->.
    apply not_true_iff_false in Hns. apply Hns, existsb_exists. exists wid. rewrite Z.eqb_refl. split; [|done].
    apply list_elem_of_In, list_elem_of_fmap. exists ((store, ns), wid). by rewrite elem_of_map_to_list.
  - intros i m v Hi Hv. apply Hkeep; [|by eapply Hpin]. intros ->.
    apply not_true_iff_false in Hnm. apply Hnm, existsb_exists. exists m. rewrite bool_decide_true by done. split; [|done].
    apply list_elem_of_In, list_elem_of_fmap. exists (i, m). by rewrite elem_of_map_to_list.
  - intros i j w v [_ Hi]%lookup_delete_Some [_ Hj]%lookup_delete_Some. by apply Hp.
Qed.

Lemma unpin_pins d store ns ms : pins_ok d ms -> pins_ok d (unpin store ns <$> ms).
Proof.
  intros Hp i m wid Hi Hw. rewrite lookup_fmap in Hi. apply fmap_Some in Hi as (m0 & Hm0 & ->). revert Hw.
  unfold unpin. destruct (_ && _); [done|]. by apply (Hp i).
Qed.

Lemma set_store_routing store wid now d : routing_ok d -> routing_ok (snd (set_store_wallet store wid now d)).
Proof.
  intros (Ho & Hpin & Hp). unfold set_store_wallet. destruct (wd_stores d !! store) as [s|] eqn:Hs; [|done].
  destruct (wd_wallets d !! wid) as [w|] eqn:Hw; [|done]. destruct (Z.eqb_spec (wl_user_id w) (so_owner_id s)); [|done].
  cbn [snd]. apply routing_same_wallets; [|by apply unpin_pins|done].
  intros st ns i [[[= <- <-] <-]|[_ Hi]]%lookup_insert_Some; [by exists s, w | by apply Ho].
Qed.

Lemma clear_store_routing store ns now d : routing_ok d -> routing_ok (snd (clear_store_wallet store ns now d)).
Proof.
  intros (Ho & Hpin & Hp). unfold clear_store_wallet. destruct (wd_stores d !! store) as [s|]; [|done].
  cbn [snd]. apply routing_same_wallets; [|by apply unpin_pins|done].
  intros st n i [_ Hi]%lookup_delete_Some. by apply Ho.
Qed.

Lemma advance_routing i w d :
  wd_wallets d !! i = Some w -> routing_ok d -> routing_ok (snd (advance_counter i w d)).
Proof.
  intros Hw Hok. unfold advance_counter. destruct (_ =? _); [done|]. cbn [snd].
  eapply (routing_extend d); [|done|done| |exact Hok].
  - etransitivity; [by eapply (insert_extend d i (wl_set_index (wl_derivation_index w + 1) w) w)|]. by split; [|intros j x Hx; exists x].
  - destruct Hok as (_ & _ & Hp). by eapply one_primary_same.
Qed.

(** ** Method statements *)

(** The wallet a method is pinned to is of the account of the method's store:
    the callers pin what [wallet_for_store_xpub] returned for that store. *)
Definition pin_owned (d : WalletDb) (store : Z) (wid : option Z) : Prop :=
  forall i w s, wid = Some i -> wd_wallets d !! i = Some w -> wd_stores d !! store = Some s ->
    wl_user_id w = so_owner_id s.

Lemma pin_belongs d store chain wid i s :
  pin_owned d store wid -> pin_allowed chain wid d = true -> wd_stores d !! store = Some s -> wid = Some i ->
  belongs d store (chain_namespace chain) i.
Proof.
  intros Hown Hal Hs ->. cbn in Hal. destruct (wd_wallets d !! i) as [w|] eqn:Hw; [|done].
  apply String.eqb_eq in Hal. exists s, w. split; [done|]. split; [done|]. split; [by eapply Hown | done].
Qed.

Lemma pins_insert d i m ms :
  (forall wid, pm_wallet_id m = Some wid -> belongs d (pm_store_id m) (method_namespace m) wid) ->
  pins_ok d ms -> pins_ok d (<[i := m]> ms).
Proof. intros Hm Hp j x wid [[<- <-]|[_ Hj]]%lookup_insert_Some; [apply Hm | by eapply Hp]. Qed.

Lemma routing_set_methods d ms : pins_ok d ms -> routing_ok d -> routing_ok (wd_set_methods ms d).
Proof. intros Hp (Ho & _ & H1). by split; [|split]. Qed.

Lemma insert_method_routing id store chain token symbol decimals wid now d :
  pin_owned d store wid -> routing_ok d ->
  routing_ok (snd (insert_payment_method id store chain token symbol decimals wid now d)).
Proof.
  intros Hown Hok. unfold insert_payment_method. destruct (negb _) eqn:Hn; [done|].
  apply negb_false_iff, andb_true_iff in Hn as [Hal [s Hs]%bool_decide_eq_true].
  assert (Hb : forall i, wid = Some i -> belongs d store (chain_namespace chain) i) by (intros i; by eapply pin_belongs).
  destruct (head _) as [[j m]|]; [|case_bool_decide; [done|]]; cbn [snd];
    (apply routing_set_methods; [|done]); (apply pins_insert; [exact Hb | apply Hok]).
Qed.

Lemma update_method_routing id enabled wid now d :
  (is_Some wid -> forall m, wd_methods d !! id = Some m ->
     pin_owned d (pm_store_id m) wid /\ is_Some (wd_stores d !! pm_store_id m)) ->
  routing_ok d -> routing_ok (snd (update_method_row id enabled wid now d)).
Proof.
  intros Hown Hok. unfold update_method_row. destruct (wd_methods d !! id) as [m|] eqn:Hm; [|done].
  destruct (negb _) eqn:Hn; [done|]. apply negb_false_iff in Hn. cbn [snd].
  apply routing_set_methods; [|done]. apply pins_insert; [|apply Hok]. intros i Hi. cbn in Hi.
  change (belongs d (pm_store_id m) (chain_namespace (pm_chain_id m)) i).
  destruct wid as [x|]; [|destruct Hok as (_ & Hpin & _); by eapply Hpin].
  destruct (Hown ltac:(eauto) m eq_refl) as [Ho [s Hs]]. by eapply pin_belongs.
Qed.

Lemma delete_method_routing id now d : routing_ok d -> routing_ok (snd (delete_payment_method id now d)).
Proof.
  intros Hok. unfold delete_payment_method. case_bool_decide; [|done]. cbn [snd]. apply routing_set_methods; [|done].
  intros j m wid [_ Hj]%lookup_delete_Some. by apply (proj1 (proj2 Hok) j).
Qed.

(** ** Rotation *)

(** A method the rotation moves. *)
Lemma elem_of_methods_to_rotate mt store only ns new d :
  mt ∈ methods_to_rotate store only ns new d <->
  exists m wid w, wd_methods d !! mtr_payment_method_id mt = Some m /\ resolved_wallet m d = Some (wid, w) /\
    pm_store_id m = store /\ wid <> new /\ method_namespace m = ns /\
    match only with None => True | Some ids => mtr_payment_method_id mt ∈ ids end /\
    mt = mkMethodToRotate (mtr_payment_method_id mt) (wl_xpub w) (wl_derivation_index w) (option_is_some (pm_wallet_id m)).
Proof.
  unfold methods_to_rotate. rewrite list_elem_of_omap. split.
  - intros ([i m] & Hin & ([wid w] & Hr & Hif)%bind_Some).
    rewrite merge_sort_Permutation, elem_of_map_to_list in Hin. cbn in Hr, Hif.
    destruct (pm_store_id m =? store) eqn:Hs, (wid =? new) eqn:Hw, (String.eqb (method_namespace m) ns) eqn:Hn;
      rewrite ?andb_false_r in Hif; try done.
    apply Z.eqb_eq in Hs. apply Z.eqb_neq in Hw. apply String.eqb_eq in Hn.
    exists m, wid, w. destruct only as [ids|]; cbn in Hif; [case_bool_decide|]; try done; by injection Hif as <-.
  - intros (m & wid & w & Hm & Hr & Hs & Hw & Hn & Ho & Hmt). exists (mtr_payment_method_id mt, m).
    rewrite merge_sort_Permutation, elem_of_map_to_list. split; [done|]. cbn. rewrite Hr. cbn.
    rewrite (proj2 (Z.eqb_eq _ _) Hs), (proj2 (Z.eqb_neq _ _) Hw), (proj2 (String.eqb_eq _ _) Hn).
    destruct only as [ids|]; cbn; [rewrite bool_decide_true by done|]; cbn; by rewrite <-Hmt.
Qed.

(** What the loop of [rotate_methods] does to the tables. *)
Definition pins_moved (new : Z) (mts : list MethodToRotate) (i : Z) (m : MethodRow) : MethodRow :=
  if existsb (fun mt => (mtr_payment_method_id mt =? i) && mtr_pinned mt) mts then pm_set_wallet (Some new) m else m.

Lemma rotate_fold now store xpub reason new mts d :
  let d' := foldl (rotate_one now store xpub reason new) d mts in
  wd_wallets d' = wd_wallets d /\ wd_store_wallets d' = wd_store_wallets d /\ wd_stores d' = wd_stores d /\
  wd_rotations d' = wd_rotations d ++ (rotation_record now store xpub reason <$> mts) /\
  (forall i, wd_methods d' !! i = pins_moved new mts i <$> wd_methods d !! i).
Proof.
  revert d. induction mts as [|mt mts IH]; intros d; cbn.
  { rewrite app_nil_r. repeat split; try done. intros i. by destruct (wd_methods d !! i). }
  destruct (IH (rotate_one now store xpub reason new d mt)) as (Hw & Hsw & Hst & Hro & Hms).
  assert (Hone : wd_wallets (rotate_one now store xpub reason new d mt) = wd_wallets d /\
    wd_store_wallets (rotate_one now store xpub reason new d mt) = wd_store_wallets d /\
    wd_stores (rotate_one now store xpub reason new d mt) = wd_stores d /\
    wd_rotations (rotate_one now store xpub reason new d mt)
      = wd_rotations d ++ [rotation_record now store xpub reason mt])
    by (unfold rotate_one; by destruct (mtr_pinned mt)).
  destruct Hone as (Hw1 & Hsw1 & Hst1 & Hro1).
  rewrite Hw, Hsw, Hst, Hro, Hw1, Hsw1, Hst1, Hro1, <-app_assoc. split; [done|]. do 3 (split; [done|]).
  intros i. rewrite Hms. unfold rotate_one, pins_moved. cbn.
  destruct (mtr_pinned mt) eqn:Hp; cbn; rewrite ?andb_false_r, ?andb_true_r; [|done].
  rewrite lookup_alter. destruct (Z.eqb_spec (mtr_payment_method_id mt) i) as [->|Hne].
  - rewrite decide_True by done. destruct (wd_methods d !! i) as [m|]; [|done]. cbn. by destruct (existsb _ mts).
  - by rewrite decide_False.
Qed.

Lemma rotate_run id store only ns xpub reason now d rs d' :
  rotate_methods id store only ns xpub reason now d = (Ok rs, d') ->
  exists s new w d1 mts, wd_stores d !! store = Some s /\
    create_wallet id (so_owner_id s) ns xpub None now d = (Ok (new, w), d1) /\
    mts = methods_to_rotate store only ns new d1 /\ rs = (rotation_record now store xpub reason <$> mts) /\
    wd_wallets d' = wd_wallets d1 /\ wd_stores d' = wd_stores d1 /\
    wd_rotations d' = wd_rotations d ++ rs /\
    (forall i, wd_methods d' !! i = pins_moved new mts i <$> wd_methods d !! i) /\
    wd_store_wallets d' = (if existsb (fun m => negb (mtr_pinned m)) mts
                           then <[(store, ns) := new]> (wd_store_wallets d) else wd_store_wallets d).
Proof.
  unfold rotate_methods. destruct (wd_stores d !! store) as [s|]; [|done].
  destruct (create_wallet id (so_owner_id s) ns xpub None now d) as [[[new w]|e] d1] eqn:Hc; [|done].
  intros [= <- <-]. exists s, new, w, d1, (methods_to_rotate store only ns new d1). destruct (create_wallet_frame _ _ _ _ _ _ _ _ _ Hc) as (Hsw & Hms & Hro).
  destruct (rotate_fold now store xpub reason new (methods_to_rotate store only ns new d1) d1) as (Fw & Fsw & Fst & Fro & Fms).
  rewrite Hro in Fro. rewrite Hms in Fms. rewrite Hsw in Fsw. do 4 (split; [done|]).
  destruct (existsb _ _) eqn:Hn; cbn [wd_wallets wd_stores wd_rotations wd_methods wd_store_wallets wd_set_store_wallets];
    rewrite ?Fsw; done.
Qed.

Lemma pins_moved_same new mts i m :
  pm_store_id (pins_moved new mts i m) = pm_store_id m /\ method_namespace (pins_moved new mts i m) = method_namespace m.
Proof. unfold pins_moved. by destruct (existsb _ _). Qed.

Lemma pins_moved_pin new mts i m wid :
  pm_wallet_id (pins_moved new mts i m) = Some wid ->
  pm_wallet_id m = Some wid \/ (wid = new /\ exists mt, mt ∈ mts /\ mtr_payment_method_id mt = i /\ mtr_pinned mt = true).
Proof.
  unfold pins_moved. destruct (existsb _ _) eqn:He; [|by left]. cbn. intros [= <-]. right. split; [done|].
  apply existsb_exists in He as (mt & Hin & [Hi%Z.eqb_eq Hp]%andb_true_iff). exists mt. by rewrite list_elem_of_In.
Qed.

Lemma created_belongs id s ns xpub now d store new w d1 :
  wd_stores d !! store = Some s -> create_wallet id (so_owner_id s) ns xpub None now d = (Ok (new, w), d1) ->
  wd_stores d1 !! store = Some s /\ wd_wallets d1 !! new = Some w /\ wl_user_id w = so_owner_id s /\
  wl_namespace w = ns /\ wl_xpub w = xpub.
Proof.
  intros Hs Hc. apply create_wallet_run in Hc as (Hu & Hn & Hx & -> & _). cbn. by rewrite lookup_insert_eq.
Qed.

Lemma rotate_routing id store only ns xpub reason now d :
  routing_ok d -> routing_ok (snd (rotate_methods id store only ns xpub reason now d)).
Proof.
  intros Hok. destruct (rotate_methods id store only ns xpub reason now d) as [[rs|e] d'] eqn:Hr.
  2: { revert Hr. unfold rotate_methods. destruct (wd_stores d !! store) as [s|]; [|by intros [= _ <-]].
       by destruct (create_wallet _ _ _ _ _ _ _) as [[[new w]|e'] d1]; intros [= _ <-]. }
  apply rotate_run in Hr as (s & new & w & d1 & mts & Hs & Hc & Hmts & Hrs & Hwal & Hst & _ & Hms & Hsw).
  pose proof (create_wallet_routing id (so_owner_id s) ns xpub None now d Hok) as Hok1.
  destruct (created_belongs _ _ _ _ _ _ _ _ _ _ Hs Hc) as (Hs1 & Hw1 & Hu & Hn & _).
  destruct (create_wallet_frame _ _ _ _ _ _ _ _ _ Hc) as (Hsw1 & Hms1 & _). rewrite Hc in Hok1. cbn [snd] in *.
  assert (Hb : forall st n i, belongs d1 st n i -> belongs d' st n i) by (unfold belongs; rewrite Hwal, Hst; done).
  assert (Hnew : belongs d1 store ns new) by (by exists s, w).
  destruct Hok1 as (Ho1 & Hp1 & Hone). split; [|split; [|by rewrite Hwal]].
  - intros st n i. rewrite Hsw. intros Hi. apply Hb. destruct (existsb _ _); [|apply Ho1; by rewrite Hsw1].
    apply lookup_insert_Some in Hi as [[[= <- <-] <-]|[_ Hi]]; [done | apply Ho1; by rewrite Hsw1].
  - intros i m wid Hi Hw. rewrite Hms in Hi. apply fmap_Some in Hi as (m0 & Hm0 & ->). apply Hb.
    destruct (pins_moved_same new mts i m0) as [-> ->].
    apply pins_moved_pin in Hw as [Hw|(-> & mt & Hin & <- & _)]; [apply (Hp1 i); by rewrite ?Hms1|].
    rewrite Hmts in Hin. apply elem_of_methods_to_rotate in Hin as (m & ? & ? & Hm & _ & Hsm & _ & Hnm & _).
    rewrite Hms1, Hm0 in Hm. injection Hm as <-. by rewrite Hsm, Hnm.
Qed.

(** ** The invariant holds *)

(** Every pin written names a wallet of the store's own account. *)
Definition pins_own_account (op : WalletOp) (d : WalletDb) : Prop :=
  match op with
  | OpInsertMethod _ store _ _ _ _ wid => pin_owned d store wid
  | OpUpdateMethod id _ wid =>
      is_Some wid -> forall m, wd_methods d !! id = Some m ->
        pin_owned d (pm_store_id m) wid /\ is_Some (wd_stores d !! pm_store_id m)
  | _ => True
  end.

Lemma apply_op_routing op now d : pins_own_account op d -> routing_ok d -> routing_ok (apply_op op now d).
Proof.
  intros Hpin Hok. destruct op; cbn [apply_op].
  - by apply create_wallet_routing.
  - unfold wallet_for_store_xpub. destruct (wd_stores d !! store_id) as [s|]; [|done].
    pose proof (create_wallet_routing id (so_owner_id s) namespace xpub None now d Hok) as Hk.
    by destruct (create_wallet _ _ _ _ _ _ _) as [[[i w]|e] d'].
  - unfold rename_wallet. destruct (wd_wallets d !! wallet_id) as [w|] eqn:Hw; [|done]. cbn [snd].
    eapply (routing_extend d); [by eapply insert_extend|done..| |exact Hok]. by eapply one_primary_same; [..|apply Hok].
  - by apply set_primary_routing.
  - by apply delete_routing.
  - by apply set_store_routing.
  - by apply clear_store_routing.
  - unfold next_derivation_index. destruct (wd_wallets d !! wallet_id) as [w|] eqn:Hw; [|done].
    pose proof (advance_routing _ _ _ Hw Hok) as Ha. by destruct (advance_counter _ _ _) as [[a|e] d'].
  - unfold allocate_derivation. destruct (m ← _; _) as [[i w]|] eqn:Hm; [|done].
    apply bind_Some in Hm as (m & Hm & Hr). apply resolved_wallet_row in Hr as [Hw _]. by apply advance_routing.
  - by apply insert_method_routing.
  - by apply update_method_routing.
  - by apply delete_method_routing.
  - by apply rotate_routing.
Qed.

Lemma primary_head d u ns i w :
  one_primary (wd_wallets d) ->
  head (wallets_where (is_primary_of u ns) d) = Some (i, w) <->
  wd_wallets d !! i = Some w /\ is_primary_of u ns w = true.
Proof.
  intros H1. split; [apply wallets_where_head|]. intros [Hi Hp].
  destruct (head (wallets_where (is_primary_of u ns) d)) as [[j v]|] eqn:Hh.
  - apply wallets_where_head in Hh as [Hj Hv].
    assert (i = j) as <-; [|by rewrite Hi in Hj; injection Hj as <-].
    unfold is_primary_of in Hp, Hv.
    apply andb_true_iff in Hp as [[Hu%Z.eqb_eq Hpr]%andb_true_iff Hn%String.eqb_eq].
    apply andb_true_iff in Hv as [[Hu'%Z.eqb_eq Hpr']%andb_true_iff Hn'%String.eqb_eq].
    by apply (H1 i j w v); [..|congruence|congruence].
  - apply wallets_where_head_none in Hh. by rewrite (wallets_where_nil _ _ _ _ Hh Hi) in Hp.
Qed.

Lemma resolution_belongs d store ns wid :
  overrides_ok d (wd_store_wallets d) -> store_wallet_resolution store ns d = Some wid -> belongs d store ns wid.
Proof.
  intros Ho (s & Hs & Hi)%bind_Some. destruct (wd_store_wallets d !! (store, ns)) as [o|] eqn:Hov.
  - injection Hi as <-. by apply Ho.
  - apply fmap_Some in Hi as ([i w] & [Hw Hp]%wallets_where_head & ->). exists s, w.
    unfold is_primary_of in Hp. by apply andb_true_iff in Hp as [[Hu%Z.eqb_eq _]%andb_true_iff Hn%String.eqb_eq].
Qed.

Lemma resolved_belongs d id m wid w :
  routing_ok d -> wd_methods d !! id = Some m -> resolved_wallet m d = Some (wid, w) ->
  belongs d (pm_store_id m) (method_namespace m) wid.
Proof.
  intros (Ho & Hpin & _) Hm Hr. unfold resolved_wallet in Hr. case_bool_decide as Hs; [|done].
  apply bind_Some in Hr as (i & Hi & (v & Hv & Hif)%bind_Some). destruct (String.eqb _ _); [|done]. injection Hif as -> _.
  unfold method_wallet in Hi. destruct (pm_wallet_id m) as [p|] eqn:Hp; [|by apply resolution_belongs].
  injection Hi as ->. by apply (Hpin id).
Qed.

(** ** Concurrent requests *)

(** The id a statement draws for the row it may insert. *)
Definition drawn_by (op : WalletOp) : option Z :=
  match op with
  | OpCreate id _ _ _ _ | OpForStore id _ _ _ | OpInsertMethod id _ _ _ _ _ _ | OpRotate id _ _ _ _ _ => Some id
  | _ => None
  end.

(** The tables with what requests have seen of them: the ids drawn so far, the
    answers of [wallet_for_store_xpub] (a store and a wallet), and the methods
    read by [update_payment_method] (a method and its store). *)
Record RouteState := mkRouteState {
  rt_db : WalletDb;
  rt_drawn : gset Z;
  rt_answers : list (Z * Z);
  rt_reads : list (Z * Z)
}.

Definition answer_of (op : WalletOp) (now : Instant) (d : WalletDb) : list (Z * Z) :=
  match op with
  | OpForStore id store ns xpub =>
      match fst (wallet_for_store_xpub id store ns xpub now d) with Ok wid => [(store, wid)] | Err _ => [] end
  | _ => []
  end.

(** A request pins a wallet only as [create_payment_method] and
    [update_payment_method] do: an answer it got for the store of the method. *)
Definition pin_obtained (x : RouteState) (op : WalletOp) : Prop :=
  match op with
  | OpInsertMethod _ store _ _ _ _ (Some wid) => (store, wid) ∈ rt_answers x
  | OpUpdateMethod id _ (Some wid) => exists store, (id, store) ∈ rt_reads x /\ (store, wid) ∈ rt_answers x
  | _ => True
  end.

(** One statement of any request: a drawn id is a new one, as [gen_random_uuid]
    gives it. *)
Inductive route_step : RouteState -> RouteState -> Prop :=
| route_read id m now x :
    fst (get_payment_method id now (rt_db x)) = Ok (Some m) ->
    route_step x (mkRouteState (rt_db x) (rt_drawn x) (rt_answers x) ((id, spm_store_id m) :: rt_reads x))
| route_op op now x :
    (forall id, drawn_by op = Some id -> id ∉ rt_drawn x) -> pin_obtained x op ->
    route_step x (mkRouteState (apply_op op now (rt_db x))
                    (match drawn_by op with Some id => {[id]} ∪ rt_drawn x | None => rt_drawn x end)
                    (answer_of op now (rt_db x) ++ rt_answers x) (rt_reads x)).

(** What a statement leaves of the rows: stores stay, and a wallet or method that
    is there afterwards was there before, with its account or store, or has the
    id the statement drew. *)
Definition rows_back (o : option Z) (d d' : WalletDb) : Prop :=
  wd_stores d' = wd_stores d /\
  (forall i w', wd_wallets d' !! i = Some w' ->
     o = Some i \/ exists w, wd_wallets d !! i = Some w /\ wl_user_id w' = wl_user_id w) /\
  (forall i m', wd_methods d' !! i = Some m' ->
     o = Some i \/ exists m, wd_methods d !! i = Some m /\ pm_store_id m' = pm_store_id m).

Lemma rows_back_refl o d : rows_back o d d.
Proof. split; [done|]. split; eauto. Qed.

Lemma rows_back_wallet o d i w :
  (o = Some i \/ exists v, wd_wallets d !! i = Some v /\ wl_user_id w = wl_user_id v) ->
  rows_back o d (wd_set_wallets (<[i := w]> (wd_wallets d)) d).
Proof.
  intros Hi. split; [done|]. split; [|eauto]. cbn. intros j w' [[<- <-]|[_ Hj]]%lookup_insert_Some; eauto.
Qed.

Lemma rows_back_method o d i m :
  (o = Some i \/ exists v, wd_methods d !! i = Some v /\ pm_store_id m = pm_store_id v) ->
  rows_back o d (wd_set_methods (<[i := m]> (wd_methods d)) d).
Proof.
  intros Hi. split; [done|]. split; [eauto|]. cbn. intros j m' [[<- <-]|[_ Hj]]%lookup_insert_Some; eauto.
Qed.

Lemma create_wallet_back id user ns xpub name now d :
  rows_back (Some id) d (snd (create_wallet id user ns xpub name now d)).
Proof.
  destruct (create_wallet id user ns xpub name now d) as [r d'] eqn:Hr. apply create_wallet_run in Hr.
  destruct r as [[i w]|e]; cbn; [|subst; apply rows_back_refl]. destruct Hr as (_ & _ & _ & -> & Hcase).
  apply rows_back_wallet. destruct Hcase as [(v & Hv & Hc & _)|(-> & _)]; [right|by left].
  injection Hc as Hu _ _ _. eauto.
Qed.

Lemma unpinned_back o store ns sw d :
  rows_back o d (wd_set_methods (unpin store ns <$> wd_methods d) (wd_set_store_wallets sw d)).
Proof.
  split; [done|]. split; [eauto|]. cbn. intros i m' Hi. rewrite lookup_fmap in Hi.
  apply fmap_Some in Hi as (m & Hm & ->). right. exists m. split; [done|]. unfold unpin. by destruct (_ && _).
Qed.

Lemma advance_back o i w d : wd_wallets d !! i = Some w -> rows_back o d (snd (advance_counter i w d)).
Proof.
  intros Hw. unfold advance_counter. destruct (_ =? _); [apply rows_back_refl|]. cbn [snd].
  destruct (rows_back_wallet o d i (wl_set_index (wl_derivation_index w + 1) w)) as (? & ? & ?); [right; eauto|].
  by split.
Qed.

Lemma rotate_back id store only ns xpub reason now d :
  rows_back (Some id) d (snd (rotate_methods id store only ns xpub reason now d)).
Proof.
  destruct (rotate_methods id store only ns xpub reason now d) as [[rs|e] d'] eqn:Hr.
  2: { revert Hr. unfold rotate_methods. destruct (wd_stores d !! store) as [s|]; [|intros [= _ <-]; apply rows_back_refl].
       destruct (create_wallet _ _ _ _ _ _ _) as [[[new w]|e'] d1]; [done|]. intros [= _ <-]. apply rows_back_refl. }
  apply rotate_run in Hr as (s & new & w & d1 & mts & Hs & Hc & _ & _ & Hwal & Hst & _ & Hms & _).
  pose proof (create_wallet_back id (so_owner_id s) ns xpub None now d) as (Hst1 & Hw1 & _). rewrite Hc in Hst1, Hw1.
  cbn [snd] in *. split; [congruence|]. split; [by rewrite Hwal|]. intros i m' Hi. rewrite Hms in Hi.
  apply fmap_Some in Hi as (m & Hm & ->). right. exists m. split; [done|]. apply pins_moved_same.
Qed.

Lemma apply_op_back op now d : rows_back (drawn_by op) d (apply_op op now d).
Proof.
  destruct op; cbn [apply_op drawn_by].
  - apply create_wallet_back.
  - unfold wallet_for_store_xpub. destruct (wd_stores d !! store_id) as [s|]; [|apply rows_back_refl].
    pose proof (create_wallet_back id (so_owner_id s) namespace xpub None now d) as Hk.
    by destruct (create_wallet _ _ _ _ _ _ _) as [[[i w]|e] d'].
  - unfold rename_wallet. destruct (wd_wallets d !! wallet_id) as [w|] eqn:Hw; [|apply rows_back_refl].
    apply rows_back_wallet. eauto.
  - unfold set_primary_wallet. destruct (wd_wallets d !! wallet_id) as [w|] eqn:Hw; [|apply rows_back_refl].
    destruct (_ =? _); [|apply rows_back_refl]. split; [done|]. split; [|eauto]. cbn.
    intros i w' [[<- <-]|[_ Hi]]%lookup_insert_Some; [eauto|]. rewrite lookup_fmap in Hi.
    apply fmap_Some in Hi as (v & Hv & ->). right. exists v. split; [done|]. by destruct (is_primary_of _ _ _).
  - unfold delete_wallet. case_bool_decide; [|apply rows_back_refl]. destruct (wallet_in_use _ _); [apply rows_back_refl|].
    split; [done|]. split; [|eauto]. cbn. intros i w' [_ Hi]%lookup_delete_Some. eauto.
  - unfold set_store_wallet. destruct (wd_stores d !! store_id); [|apply rows_back_refl].
    destruct (wd_wallets d !! wallet_id) as [w|]; [|apply rows_back_refl].
    destruct (_ =? _); [apply unpinned_back | apply rows_back_refl].
  - unfold clear_store_wallet. destruct (wd_stores d !! store_id); [apply unpinned_back | apply rows_back_refl].
  - unfold next_derivation_index. destruct (wd_wallets d !! wallet_id) as [w|] eqn:Hw; [|apply rows_back_refl].
    pose proof (advance_back None _ _ _ Hw) as Ha. by destruct (advance_counter _ _ _) as [[a|e] d'].
  - unfold allocate_derivation. destruct (m ← _; _) as [[i w]|] eqn:Hm; [|apply rows_back_refl].
    apply bind_Some in Hm as (m & Hm & Hr). apply resolved_wallet_row in Hr as [Hw _]. by apply advance_back.
  - unfold insert_payment_method. destruct (negb _); [apply rows_back_refl|].
    destruct (head _) as [[j m]|] eqn:Hh.
    + apply rows_back_method. right. apply head_Some_elem_of in Hh.
      apply elem_of_filter_b in Hh as [Hf Hin%elem_of_map_to_list]. exists m. split; [done|]. cbn in *.
      apply andb_true_iff in Hf as [[Hs%Z.eqb_eq _]%andb_true_iff _]. done.
    + case_bool_decide; [apply rows_back_refl|]. apply rows_back_method. by left.
  - unfold update_method_row. destruct (wd_methods d !! id) as [m|] eqn:Hm; [|apply rows_back_refl].
    destruct (negb _); [apply rows_back_refl|]. apply rows_back_method. right. by exists m.
  - unfold delete_payment_method. case_bool_decide; [|apply rows_back_refl].
    split; [done|]. split; [eauto|]. cbn. intros i m' [_ Hi]%lookup_delete_Some. eauto.
  - apply rotate_back.
Qed.

(** The wallets answered and the methods read are, while they exist, those of
    the store they were answered or read for; and every id in use was drawn. *)
Record provenance (x : RouteState) : Prop := {
  pv_wallets : forall i, is_Some (wd_wallets (rt_db x) !! i) -> i ∈ rt_drawn x;
  pv_methods : forall i, is_Some (wd_methods (rt_db x) !! i) -> i ∈ rt_drawn x;
  pv_answers : forall store wid, (store, wid) ∈ rt_answers x ->
    wid ∈ rt_drawn x /\ pin_owned (rt_db x) store (Some wid);
  pv_reads : forall id store, (id, store) ∈ rt_reads x ->
    id ∈ rt_drawn x /\ is_Some (wd_stores (rt_db x) !! store) /\
    forall m, wd_methods (rt_db x) !! id = Some m -> pm_store_id m = store
}.

Lemma provenance_pins x op : provenance x -> pin_obtained x op -> pins_own_account op (rt_db x).
Proof.
  intros Hp. destruct op as [| | | | | | | | |id store chain token symbol decimals [wid|]|id enabled [wid|]| |];
    cbn; try done.
  - by intros [_ Ha]%(pv_answers _ Hp).
  - intros (store & [_ [Hs Hm]]%(pv_reads _ Hp) & [_ Ha]%(pv_answers _ Hp)) _ m Hid. by rewrite (Hm m Hid).
Qed.

(** What [wallet_for_store_xpub] answers may be pinned to the store's methods. *)
Lemma for_store_owned id store ns xpub now d wid d' :
  wallet_for_store_xpub id store ns xpub now d = (Ok wid, d') ->
  is_Some (wd_stores d' !! store) /\ is_Some (wd_wallets d' !! wid) /\ pin_owned d' store (Some wid).
Proof.
  unfold wallet_for_store_xpub. destruct (wd_stores d !! store) as [s|] eqn:Hs; [|done].
  destruct (create_wallet _ _ _ _ _ _ _) as [[[i w]|e] d1] eqn:Hc; [|done]. intros [= <- <-].
  destruct (created_belongs _ _ _ _ _ _ _ _ _ _ Hs Hc) as (Hs1 & Hw1 & Hu & _). split; [by exists s|].
  split; [by exists w|]. intros j v t [= <-] Hv Ht. congruence.
Qed.

Lemma answer_of_owned op now d store wid :
  (store, wid) ∈ answer_of op now d ->
  is_Some (wd_wallets (apply_op op now d) !! wid) /\ pin_owned (apply_op op now d) store (Some wid).
Proof.
  destruct op; cbn; try by intros ?%not_elem_of_nil.
  destruct (wallet_for_store_xpub _ _ _ _ _ _) as [[i|e] d'] eqn:Hf; cbn; [|by intros ?%not_elem_of_nil].
  intros [= -> ->]%list_elem_of_singleton. by apply for_store_owned in Hf as (_ & ? & ?).
Qed.

Lemma payment_method_read id now d m :
  fst (get_payment_method id now d) = Ok (Some m) ->
  exists r, wd_methods d !! id = Some r /\ spm_store_id m = pm_store_id r /\ is_Some (wd_stores d !! pm_store_id r).
Proof.
  unfold get_payment_method, wselect, methods_where. cbn.
  intros [= Hh]. apply head_Some_elem_of, list_elem_of_fmap in Hh as ([i r] & -> & Hin).
  apply elem_of_filter_b in Hin as [[Hi%Z.eqb_eq Hs%bool_decide_eq_true]%andb_true_iff Hr%elem_of_map_to_list].
  cbn in *. subst. by exists r.
Qed.

Lemma route_step_provenance x x' : route_step x x' -> provenance x -> provenance x'.
Proof.
  destruct 1 as [id m now x Hget|op now x Hfresh Hpin]; intros Hp.
  - apply payment_method_read in Hget as (r & Hr & Hst & Hs). destruct Hp as [Hw Hm Ha Hrd]. split; cbn; try done.
    intros i store [[= -> ->]|Hin]%elem_of_cons; [|by apply Hrd]. split; [by apply Hm|]. rewrite Hst. split; [done|]. congruence.
  - destruct (apply_op_back op now (rt_db x)) as (Bst & Bw & Bm).
    set (drawn' := match drawn_by op with Some id => {[id]} ∪ rt_drawn x | None => rt_drawn x end).
    assert (Hsub : rt_drawn x ⊆ drawn') by (unfold drawn'; destruct (drawn_by op); set_solver).
    assert (Hnew : forall i, drawn_by op = Some i -> i ∈ drawn') by (unfold drawn'; intros i ->; set_solver).
    assert (Hw' : forall i, is_Some (wd_wallets (apply_op op now (rt_db x)) !! i) -> i ∈ drawn').
    { intros i [w Hi]. destruct (Bw i w Hi) as [Ho|(v & Hv & _)]; [by apply Hnew|]. apply Hsub, (pv_wallets _ Hp). eauto. }
    split; cbn; [exact Hw'| | |].
    + intros i [m Hi]. destruct (Bm i m Hi) as [Ho|(v & Hv & _)]; [by apply Hnew|]. apply Hsub, (pv_methods _ Hp). eauto.
    + intros store wid [Hin|Hin]%elem_of_app; [destruct (answer_of_owned _ _ _ _ _ Hin); auto|].
      destruct (pv_answers _ Hp _ _ Hin) as [Hd Hown]. split; [by apply Hsub|].
      intros i w s [= <-] Hwi Hs. rewrite Bst in Hs.
      destruct (Bw wid w Hwi) as [Ho|(v & Hv & ->)]; [by destruct (Hfresh wid Ho)|]. by eapply Hown.
    + intros id store Hin. destruct (pv_reads _ Hp _ _ Hin) as (Hd & Hs & Hm). split; [by apply Hsub|].
      rewrite Bst. split; [done|]. intros m Hi.
      destruct (Bm id m Hi) as [Ho|(v & Hv & ->)]; [by destruct (Hfresh id Ho) | by apply Hm].
Qed.

Lemma route_steps_ok x x' :
  rtc route_step x x' -> provenance x /\ routing_ok (rt_db x) -> provenance x' /\ routing_ok (rt_db x').
Proof.
  induction 1 as [|x y z Hxy _ IH]; [done|]. intros [Hp Hr]. apply IH. split; [by eapply route_step_provenance|].
  destruct Hxy as [id m now x _|op now x _ Hpin]; [done|]. cbn. apply apply_op_routing; [by apply provenance_pins | done].
Qed.

(** Tables that no request has looked at yet. *)
Definition fresh_tables (d : WalletDb) (drawn : gset Z) : RouteState := mkRouteState d drawn [] [].

(** C11. An address is derived from a key of the account that owns the method's
    store and of the method's own chain family, at the index the wallet's counter
    stood at, which moves by one.  The statements of concurrent requests on
    wallets and payment methods may interleave in any way, from tables that
    route to own wallets, if a request pins only a wallet that was answered to
    [wallet_for_store_xpub] for that method's store, as creating and updating a
    method do, and a drawn id is one not seen before. *)
Theorem allocation_from_own_account d0 drawn x now id a d' :
  routing_ok d0 -> dom (wd_wallets d0) ∪ dom (wd_methods d0) ⊆ drawn ->
  rtc route_step (fresh_tables d0 drawn) x ->
  allocate_derivation id now (rt_db x) = (Ok a, d') ->
  exists m s w, wd_methods (rt_db x) !! id = Some m /\
    wd_stores (rt_db x) !! pm_store_id m = Some s /\
    wd_wallets (rt_db x) !! da_wallet_id a = Some w /\
    wl_user_id w = so_owner_id s /\ da_namespace a = chain_namespace (pm_chain_id m) /\
    da_xpub a = wl_xpub w /\ da_index a = wl_derivation_index w /\
    wl_derivation_index <$> wd_wallets d' !! da_wallet_id a = Some (da_index a + 1).
Proof.
  intros Hok0 Hdrawn Hrun. destruct (route_steps_ok _ _ Hrun) as [_ Hok].
  { split; [|done]. split; cbn; [intros i Hi%elem_of_dom; set_solver..| |]; by intros ? ? ?%not_elem_of_nil. }
  set (d := rt_db x) in *.
  unfold allocate_derivation. destruct (wd_methods d !! id) as [m|] eqn:Hm; [|done]. cbn.
  destruct (resolved_wallet m d) as [[i w]|] eqn:Hr; [|done].
  destruct (resolved_wallet_row _ _ _ _ Hr) as [Hw Hn]. destruct (resolved_belongs _ _ _ _ _ Hok Hm Hr) as (s & w' & Hs & Hw' & Hu & _).
  rewrite Hw in Hw'. injection Hw' as <-. unfold advance_counter. destruct (_ =? _); [done|]. intros [= <- <-].
  exists m, s, w. cbn. rewrite lookup_insert_eq. done.
Qed.

(** ** Assigning a store's wallet *)

Lemma resolved_wallet_ext d d' m :
  wd_wallets d' = wd_wallets d -> wd_stores d' = wd_stores d ->
  wd_store_wallets d' !! (pm_store_id m, method_namespace m) = wd_store_wallets d !! (pm_store_id m, method_namespace m) ->
  resolved_wallet m d' = resolved_wallet m d.
Proof.
  intros Hw Hs Hsw. unfold resolved_wallet, method_wallet, store_wallet_resolution, wallets_where. by rewrite Hw, Hs, Hsw.
Qed.

(** An unpinned method under an override of its store and family. *)
Lemma resolved_override d m s wid w :
  wd_stores d !! pm_store_id m = Some s -> pm_wallet_id m = None ->
  wd_store_wallets d !! (pm_store_id m, method_namespace m) = Some wid ->
  wd_wallets d !! wid = Some w -> wl_namespace w = method_namespace m -> resolved_wallet m d = Some (wid, w).
Proof.
  intros Hs Hp Ho Hw Hn. unfold resolved_wallet, method_wallet, store_wallet_resolution.
  rewrite bool_decide_true by (by rewrite Hs). rewrite Hp, Hs. cbn. rewrite Ho. cbn. rewrite Hw. cbn. by rewrite Hn, String.eqb_refl.
Qed.

Lemma resolved_pinned d m s wid w :
  wd_stores d !! pm_store_id m = Some s -> pm_wallet_id m = Some wid ->
  wd_wallets d !! wid = Some w -> wl_namespace w = method_namespace m -> resolved_wallet m d = Some (wid, w).
Proof.
  intros Hs Hp Hw Hn. unfold resolved_wallet, method_wallet.
  rewrite bool_decide_true by (by rewrite Hs). rewrite Hp. cbn. rewrite Hw. cbn. by rewrite Hn, String.eqb_refl.
Qed.

(** Assigning a wallet to a store redirects exactly the store's methods of
    the wallet's chain family, pinned ones too; every other method keeps its row
    and the wallet it resolves to. *)
Theorem set_store_wallet_redirects store wid now d d' :
  set_store_wallet store wid now d = (Ok tt, d') ->
  exists w, wd_wallets d !! wid = Some w /\
  forall i m, wd_methods d !! i = Some m ->
    if bool_decide (pm_store_id m = store /\ method_namespace m = wl_namespace w)
    then exists m', wd_methods d' !! i = Some m' /\ pm_wallet_id m' = None /\ resolved_wallet m' d' = Some (wid, w)
    else wd_methods d' !! i = Some m /\ resolved_wallet m d' = resolved_wallet m d.
Proof.
  unfold set_store_wallet. destruct (wd_stores d !! store) as [s|] eqn:Hs; [|done].
  destruct (wd_wallets d !! wid) as [w|] eqn:Hw; [|done]. destruct (_ =? _); [|done]. intros [= <-].
  exists w. split; [done|]. intros i m Hm. case_bool_decide as Hf.
  - destruct Hf as [Hst Hn]. exists (pm_set_wallet None m). cbn. rewrite lookup_fmap, Hm. cbn. unfold unpin.
    rewrite Hst, Hn, Z.eqb_refl, String.eqb_refl. cbn. split; [done|]. split; [done|].
    apply (resolved_override _ (pm_set_wallet None m) s); cbn; try done; [by rewrite Hst|].
    change (method_namespace (pm_set_wallet None m)) with (method_namespace m). by rewrite Hst, Hn, lookup_insert_eq.
  - split.
    + cbn. rewrite lookup_fmap, Hm. cbn. unfold unpin. destruct (_ && _) eqn:Hif; [|done].
      apply andb_true_iff in Hif as [?%Z.eqb_eq ?%String.eqb_eq]. by destruct Hf.
    + apply resolved_wallet_ext; [done..|]. cbn. rewrite lookup_insert_ne; [done|]. intros [= Hst Hn]. by destruct Hf.
Qed.

(** ** Rotating a key *)

Lemma create_wallet_rows id user ns xpub now d r d' j v :
  create_wallet id user ns xpub None now d = (r, d') -> wd_wallets d !! j = Some v -> wd_wallets d' !! j = Some v.
Proof.
  unfold create_wallet. destruct (reject_if_another_account_holds _ _ _); [|by intros [= _ <-]]. unfold upsert_wallet.
  destruct (head _) as [[i w]|] eqn:Hh.
  - intros [= _ <-] Hj. cbn. apply wallets_where_head in Hh as [Hw _]. rewrite lookup_insert. case_decide as Hij; [|done].
    subst j. rewrite Hw in Hj. injection Hj as <-. by destruct w.
  - case_bool_decide as Hid; intros [= _ <-] Hj; [done|]. cbn. rewrite lookup_insert_ne; [done|].
    intros <-. apply Hid. by rewrite Hj.
Qed.

(** Creating a wallet changes no resolution that succeeds. *)
Lemma create_wallet_resolved id user ns xpub now d r d' m wid w :
  routing_ok d -> create_wallet id user ns xpub None now d = (r, d') ->
  resolved_wallet m d = Some (wid, w) -> resolved_wallet m d' = Some (wid, w).
Proof.
  intros Hok Hc. pose proof (create_wallet_routing id user ns xpub None now d Hok) as (_ & _ & H1').
  pose proof (create_wallet_extend id user ns xpub None now d) as [Hst _].
  destruct (create_wallet_frame _ _ _ _ _ _ _ _ _ Hc) as (Hsw & _). rewrite Hc in H1', Hst. cbn [snd] in *.
  unfold resolved_wallet. rewrite Hst. case_bool_decide as Hs; [|done].
  intros (i & Hi & (v & Hv & Hif)%bind_Some)%bind_Some.
  assert (Hi' : method_wallet m d' = Some i).
  { unfold method_wallet, store_wallet_resolution in *. destruct (pm_wallet_id m); [done|]. rewrite Hst, Hsw.
    destruct Hs as [s Hs]. rewrite Hs in Hi |- *. cbn in *. destruct (wd_store_wallets d !! _); [done|].
    apply fmap_Some in Hi as ([k x] & Hh & ->). apply wallets_where_head in Hh as [Hk Hp].
    rewrite (proj2 (primary_head d' _ _ k x H1')); [done|]. split; [by eapply create_wallet_rows | done]. }
  rewrite Hi'. cbn. rewrite (create_wallet_rows _ _ _ _ _ _ _ _ _ _ Hc Hv). done.
Qed.

Lemma pins_moved_unpinned new mts i m :
  (forall mt, mt ∈ mts -> mtr_payment_method_id mt = i -> mtr_pinned mt = false) -> pins_moved new mts i m = m.
Proof.
  intros Hn. unfold pins_moved. destruct (existsb _ _) eqn:He; [|done].
  apply existsb_exists in He as (mt & Hin & [Hi%Z.eqb_eq Hp]%andb_true_iff).
  rewrite <-list_elem_of_In in Hin. by rewrite (Hn mt Hin Hi) in Hp.
Qed.

Lemma pins_moved_pinned new mts mt m :
  mt ∈ mts -> mtr_pinned mt = true -> pins_moved new mts (mtr_payment_method_id mt) m = pm_set_wallet (Some new) m.
Proof.
  intros Hin Hp. unfold pins_moved. destruct (existsb _ _) eqn:He; [done|].
  apply not_true_iff_false in He. exfalso. apply He, existsb_exists. exists mt. by rewrite <-list_elem_of_In, Z.eqb_refl, Hp.
Qed.

(** A method of the rotated family that is pinned. *)
Lemma rotated_pinned store ns new w s d1 d' i m wid v mts :
  mts = methods_to_rotate store None ns new d1 -> wd_methods d1 !! i = Some m ->
  wd_stores d' !! store = Some s -> wd_wallets d' !! new = Some w -> wl_namespace w = ns ->
  pm_store_id m = store -> method_namespace m = ns -> pm_wallet_id m = Some wid ->
  resolved_wallet m d1 = Some (wid, v) -> resolved_wallet (pins_moved new mts i m) d' = Some (new, w).
Proof.
  intros Hmts Hm Hs Hw Hn Hsm Hnm Hp Hres. destruct (decide (wid = new)) as [->|Hne].
  - rewrite pins_moved_unpinned; [apply (resolved_pinned d' m s); congruence|].
    intros mt Hin Hi. rewrite Hmts in Hin. apply elem_of_methods_to_rotate in Hin as (m' & u & x & Hm' & Hr' & _ & Hu & _).
    rewrite Hi, Hm in Hm'. injection Hm' as <-. rewrite Hres in Hr'. by injection Hr' as <- <-.
  - set (mt := mkMethodToRotate i (wl_xpub v) (wl_derivation_index v) (option_is_some (pm_wallet_id m))).
    rewrite (pins_moved_pinned new mts mt).
    + apply (resolved_pinned d' (pm_set_wallet (Some new) m) s); try done; cbn; by rewrite ?Hsm, ?Hn.
    + rewrite Hmts. apply elem_of_methods_to_rotate. by exists m, wid, v.
    + cbn. by rewrite Hp.
Qed.

(** One that is not. *)
Lemma rotated_inheriting store ns new w s d1 d' i m wid v mts :
  mts = methods_to_rotate store None ns new d1 -> wd_methods d1 !! i = Some m ->
  wd_stores d1 !! store = Some s -> wd_stores d' = wd_stores d1 -> wd_wallets d' = wd_wallets d1 ->
  wd_wallets d1 !! new = Some w -> wl_namespace w = ns ->
  wd_store_wallets d' = (if existsb (fun m => negb (mtr_pinned m)) mts
                         then <[(store, ns) := new]> (wd_store_wallets d1) else wd_store_wallets d1) ->
  pm_store_id m = store -> method_namespace m = ns -> pm_wallet_id m = None ->
  resolved_wallet m d1 = Some (wid, v) -> resolved_wallet (pins_moved new mts i m) d' = Some (new, w).
Proof.
  intros Hmts Hm Hs Hst Hwal Hw Hn Hsw Hsm Hnm Hp Hres. rewrite pins_moved_unpinned.
  2: { intros mt Hin Hi. rewrite Hmts in Hin. apply elem_of_methods_to_rotate in Hin as (m' & u & x & Hm' & _ & _ & _ & _ & _ & Hmt).
       rewrite Hi, Hm in Hm'. injection Hm' as <-. rewrite Hmt, Hp. done. }
  destruct (existsb _ mts) eqn:He.
  - apply (resolved_override d' m s); [congruence|done| |congruence..]. by rewrite Hsw, Hsm, Hnm, lookup_insert_eq.
  - destruct (decide (wid = new)) as [->|Hne].
    + rewrite (resolved_wallet_ext d1); [|done|done|by rewrite Hsw].
      destruct (resolved_wallet_row _ _ _ _ Hres) as [Hv _]. congruence.
    + apply not_true_iff_false in He. exfalso. apply He, existsb_exists.
      exists (mkMethodToRotate i (wl_xpub v) (wl_derivation_index v) false). split; [|done].
      apply list_elem_of_In. rewrite Hmts. apply elem_of_methods_to_rotate. exists m, wid, v. by rewrite Hp.
Qed.

Lemma pinned_resolves m d wid v p : pm_wallet_id m = Some p -> resolved_wallet m d = Some (wid, v) -> wid = p.
Proof.
  intros Hp. unfold resolved_wallet, method_wallet. rewrite Hp. case_bool_decide; [|done]. cbn.
  destruct (wd_wallets d !! p); [|done]. cbn. destruct (String.eqb _ _); [|done]. by intros [= <- _].
Qed.

(** The record [rotate_methods] leaves of a method that derived from wallet
    [v]: where its old addresses came from. *)
Definition rotation_of (now : Instant) (store : Z) (xpub : string) (reason : option string) (i : Z) (v : WalletRow) :=
  mkRotationRow store (wl_xpub v) xpub i (wl_derivation_index v) reason now.

(** Rotating a store's key moves every method of the store and family that
    derived from some wallet, pinned or inheriting, to one wallet of the new key,
    and leaves a record of the key and index each moved method had; methods of
    other stores and families keep their rows and their wallets. *)
Theorem rotation_moves_family id store ns xpub reason now d rs d' :
  routing_ok d -> rotate_store_xpub id store ns xpub reason now d = (Ok rs, d') ->
  exists new w, wd_wallets d' !! new = Some w /\ wl_xpub w = xpub /\
  forall i m wid v, wd_methods d !! i = Some m -> resolved_wallet m d = Some (wid, v) ->
    if bool_decide (pm_store_id m = store /\ method_namespace m = ns)
    then (exists m', wd_methods d' !! i = Some m' /\ resolved_wallet m' d' = Some (new, w)) /\
         (wid <> new -> rotation_of now store xpub reason i v ∈ rs /\ rotation_of now store xpub reason i v ∈ wd_rotations d')
    else wd_methods d' !! i = Some m /\ resolved_wallet m d' = Some (wid, v).
Proof.
  intros Hok Hr. apply rotate_run in Hr as (s & new & w & d1 & mts & Hs & Hc & Hmts & Hrs & Hwal & Hst & Hro & Hms & Hsw).
  destruct (created_belongs _ _ _ _ _ _ _ _ _ _ Hs Hc) as (Hs1 & Hw1 & Hu & Hn & Hx).
  destruct (create_wallet_frame _ _ _ _ _ _ _ _ _ Hc) as (Hsw1 & Hms1 & _). rewrite <-Hsw1 in Hsw. rewrite <-Hms1 in *.
  exists new, w. rewrite Hwal. do 2 (split; [done|]). intros i m wid v Hm Hres.
  pose proof (create_wallet_resolved _ _ _ _ _ _ _ _ _ _ _ Hok Hc Hres) as Hres1.
  case_bool_decide as Hf; rewrite Hms, Hm; cbn.
  - destruct Hf as [Hsm Hnm]. split.
    + eexists. split; [done|]. destruct (pm_wallet_id m) as [p|] eqn:Hp.
      * pose proof (pinned_resolves _ _ _ _ _ Hp Hres1) as <-.
        eapply (rotated_pinned store ns new w s d1); rewrite ?Hst, ?Hwal; done.
      * by eapply (rotated_inheriting store ns new w s d1).
    + intros Hne. rewrite Hro. assert (Hrec : rotation_of now store xpub reason i v ∈ rs);
        [|split; [done | apply elem_of_app; by right]]. rewrite Hrs. apply list_elem_of_fmap.
      exists (mkMethodToRotate i (wl_xpub v) (wl_derivation_index v) (option_is_some (pm_wallet_id m))). split; [done|].
      rewrite Hmts. apply elem_of_methods_to_rotate. by exists m, wid, v.
  - rewrite pins_moved_unpinned.
    + split; [done|]. rewrite (resolved_wallet_ext d1); [done..|]. rewrite Hsw. destruct (existsb _ _); [|done].
      rewrite lookup_insert_ne; [done|]. intros [= Hsm Hnm]. by apply Hf.
    + intros mt Hin <-. rewrite Hmts in Hin. apply elem_of_methods_to_rotate in Hin as (m' & u & x & Hm' & _ & Hsm & _ & Hnm & _).
      rewrite Hm in Hm'. injection Hm' as <-. by destruct Hf.
Qed.

(** * Payment-method requests keep the wallet tables right

    The programs of [store_payment_method.rs] that are several transactions:
    whatever fails between them, the invariants of the wallet tables hold. *)

Section Requests.
Context `{Runtime}.

Definition wallet_tables_ok (d : WalletDb) : Prop := issuing_ok d /\ routing_ok d.
Definition site_ok (s : Site) : Prop := wallet_tables_ok (st_wallets s).

(** A statement in a triple: a lost reply commits, a request not sent does not. *)
Lemma wdb_triple {A} (stmt : WStatement A) (I F : WalletDb -> Prop) (J : A -> WalletDb -> Prop) :
  (forall d, I d -> F d) ->
  (forall now d, I d -> F (snd (stmt now d)) /\ forall a d', stmt now d = (Ok a, d') -> J a d') ->
  triple (fun s => I (st_wallets s)) (wdb stmt) (fun a s => J a (st_wallets s)) (fun s => F (st_wallets s)).
Proof.
  intros HIF Hs s Hi. unfold wdb. destruct (calls _).
  - destruct (Hs (clock (sv_ticks (st_server s))) (st_wallets s) Hi) as [Hf Hj].
    destruct (stmt _ _) as [[a|e] d']; cbn in *; [by apply Hj | exact Hf].
  - cbn. by apply HIF.
  - cbn. by apply Hs.
Qed.

Lemma uuid_triple (I F : WalletDb -> Prop) :
  triple (fun s => I (st_wallets s)) db_uuid (fun _ s => I (st_wallets s)) (fun s => F (st_wallets s)).
Proof. intros s Hi. exact Hi. Qed.

Lemma op_ok op now d :
  spares_issued op d -> pins_own_account op d -> wallet_tables_ok d -> wallet_tables_ok (apply_op op now d).
Proof. intros Hs Hp [Hi Hr]. split; [by apply apply_op_issuing | by apply apply_op_routing]. Qed.

Lemma for_store_triple id store ns xpub :
  triple site_ok (wdb (wallet_for_store_xpub id store ns xpub))
    (fun wid s => wallet_tables_ok (st_wallets s) /\ pin_owned (st_wallets s) store (Some wid)) site_ok.
Proof.
  apply (wdb_triple _ wallet_tables_ok wallet_tables_ok
    (fun wid d => wallet_tables_ok d /\ pin_owned d store (Some wid))); [done|].
  intros now d Hok. assert (Ho : wallet_tables_ok (snd (wallet_for_store_xpub id store ns xpub now d)))
    by (by apply (op_ok (OpForStore id store ns xpub) now)).
  split; [done|]. intros a d' Hr. rewrite Hr in Ho. split; [done|]. by apply for_store_owned in Hr as (_ & _ & Hr).
Qed.

Lemma select_triple {A} (f : WalletDb -> A) (I F : WalletDb -> Prop) :
  (forall d, I d -> F d) ->
  triple (fun s => I (st_wallets s)) (wdb (wselect f)) (fun _ s => I (st_wallets s)) (fun s => F (st_wallets s)).
Proof.
  intros HF. apply (wdb_triple _ I F (fun _ => I)); [done|]. intros now d Hi. cbn. split; [by apply HF|]. by intros a d' [= <- <-].
Qed.

Lemma read_back id :
  triple site_ok
    (let* r := wdb (get_payment_method id) in
     match r with Some m => st_ret m | None => st_throw (NotFound "payment method not found") end)%st
    (fun _ => site_ok) site_ok.
Proof.
  eapply triple_bind; [by apply (select_triple _ wallet_tables_ok wallet_tables_ok)|].
  intros [m|]; [by apply triple_ret | by apply triple_throw].
Qed.

Lemma create_payment_method_ok store chain token symbol decimals xpub :
  preserves site_ok (create_payment_method store chain token symbol decimals xpub).
Proof.
  apply preserves_triple. unfold create_payment_method.
  eapply (triple_bind _ _ _ (fun wid s => wallet_tables_ok (st_wallets s) /\ pin_owned (st_wallets s) store wid)).
  - destruct xpub as [x|].
    + eapply triple_bind; [apply (uuid_triple wallet_tables_ok)|]. intros id.
      eapply triple_bind; [apply for_store_triple|]. intros wid. by apply triple_ret.
    + eapply triple_bind; [by apply (select_triple _ wallet_tables_ok wallet_tables_ok)|].
      intros [|]; [apply triple_ret | by apply triple_throw]. by intros s Hs.
  - intros wid. eapply triple_bind; [apply (uuid_triple (fun d => wallet_tables_ok d /\ pin_owned d store wid))|]. intros id.
    eapply triple_bind; [|intros; apply read_back].
    apply (wdb_triple _ (fun d => wallet_tables_ok d /\ pin_owned d store wid) wallet_tables_ok (fun _ => wallet_tables_ok)).
    { by intros d [Hd _]. }
    intros now d [Hok Hown]. pose proof (op_ok (OpInsertMethod id store chain token symbol decimals wid) now d I Hown Hok) as Hs.
    split; [done|]. intros a d' Hr. cbn in Hs. by rewrite Hr in Hs.
Qed.

(** The row behind an answer of [get_payment_method]. *)
Definition method_of_store (id store : Z) (d : WalletDb) : Prop :=
  is_Some (wd_stores d !! store) /\ forall m, wd_methods d !! id = Some m -> pm_store_id m = store.

Lemma get_payment_method_row id d r :
  head (methods_where (fun i _ => i =? id) d) = Some r -> method_of_store id (spm_store_id r) d.
Proof.
  intros Hh%head_Some_elem_of. unfold methods_where in Hh. apply list_elem_of_fmap in Hh as ([i m] & -> & Hin).
  apply elem_of_filter_b in Hin as [[Hi%Z.eqb_eq Hs%bool_decide_eq_true]%andb_true_iff Hin].
  apply elem_of_map_to_list in Hin. cbn in Hi. subst i. split; [done|]. intros m' Hm'. rewrite Hin in Hm'. by injection Hm' as <-.
Qed.

Lemma create_wallet_stores id user ns xpub name now d d' r :
  create_wallet id user ns xpub name now d = (r, d') -> wd_stores d' = wd_stores d.
Proof. intros Hc. pose proof (create_wallet_extend id user ns xpub name now d) as [Hs _]. by rewrite Hc in Hs. Qed.

Lemma for_store_method id store0 store ns xpub now d r d' k :
  wallet_for_store_xpub id store0 ns xpub now d = (r, d') -> method_of_store k store d -> method_of_store k store d'.
Proof.
  unfold wallet_for_store_xpub. destruct (wd_stores d !! store0) as [s|]; [|by intros [= _ <-]].
  destruct (create_wallet _ _ _ _ _ _ _) as [[[i w]|e] d1] eqn:Hc; intros [= _ <-];
    pose proof (create_wallet_stores _ _ _ _ _ _ _ _ _ Hc) as Hs;
    destruct (create_wallet_frame _ _ _ _ _ _ _ _ _ Hc) as (_ & Hm & _); unfold method_of_store; by rewrite Hs, Hm.
Qed.

(** The tables between the statements of an update. *)
Definition update_ready (id store : Z) (wid : option Z) (d : WalletDb) : Prop :=
  wallet_tables_ok d /\ method_of_store id store d /\ pin_owned d store wid.

Lemma update_row_ok id enabled wid store now d :
  update_ready id store wid d -> wallet_tables_ok (snd (update_method_row id enabled wid now d)).
Proof.
  intros (Hok & [Hs Hm] & Hp). apply (op_ok (OpUpdateMethod id enabled wid) now d I); [|done].
  intros _ m Hl. by rewrite (Hm m Hl).
Qed.

Lemma for_store_ready wid0 id store ns xpub :
  triple (fun s => update_ready id store None (st_wallets s)) (wdb (wallet_for_store_xpub wid0 store ns xpub))
    (fun wid s => update_ready id store (Some wid) (st_wallets s)) site_ok.
Proof.
  apply (wdb_triple _ (update_ready id store None) wallet_tables_ok (fun wid => update_ready id store (Some wid))).
  { by intros d (Hok & _). }
  intros now d (Hok & Hm & _).
  pose proof (op_ok (OpForStore wid0 store ns xpub) now d I I Hok) as Ho. split; [exact Ho|]. intros wid d' Hr.
  pose proof (for_store_method _ _ _ _ _ _ _ _ _ _ Hr Hm) as Hm'. apply for_store_owned in Hr as Hr'.
  cbn in Ho. rewrite Hr in Ho. by destruct Hr' as (_ & _ & ?).
Qed.

Lemma update_payment_method_ok id enabled xpub : preserves site_ok (update_payment_method id enabled xpub).
Proof.
  apply preserves_triple. unfold update_payment_method.
  eapply (triple_bind _ _ _ (fun r s => wallet_tables_ok (st_wallets s) /\
    match r with Some e => method_of_store id (spm_store_id e) (st_wallets s) | None => True end)).
  { apply (wdb_triple _ wallet_tables_ok wallet_tables_ok (fun r d => wallet_tables_ok d /\
      match r with Some e => method_of_store id (spm_store_id e) d | None => True end)); [done|].
    intros now d Hok. split; [done|]. intros r d' [= Hr <-]. split; [done|].
    destruct r as [e|]; [by apply get_payment_method_row | done]. }
  intros [e|]; [|apply triple_throw; by intros s [Hs _]].
  eapply (triple_bind _ _ _ (fun wid s => update_ready id (spm_store_id e) wid (st_wallets s))).
  - destruct xpub as [x|].
    + eapply (triple_weaken _ _ (fun s => update_ready id (spm_store_id e) None (st_wallets s)) _ _
        (fun wid s => update_ready id (spm_store_id e) wid (st_wallets s)));
        [|intros s [Hs Hm]; split; [done|]; split; [done|]; by intros i w t | by intros w s Hw].
      eapply triple_bind; [apply (uuid_triple (update_ready id (spm_store_id e) None))|]. intros w0.
      eapply triple_bind; [apply for_store_ready|]. intros wid. by apply triple_ret.
    + apply triple_ret. intros s [Hs Hm]. split; [done|]. split; [done|]. by intros i w t.
  - intros wid. eapply triple_bind; [|intros; apply read_back].
    apply (wdb_triple _ (update_ready id (spm_store_id e) wid) wallet_tables_ok (fun _ => wallet_tables_ok)).
    { by intros d (Hok & _). }
    intros now d Hd. pose proof (update_row_ok id enabled wid _ now d Hd) as Hu. split; [done|].
    intros a d' Hr. by rewrite Hr in Hu.
Qed.
(** *** The requests pin as [route_step] says *)

Section Pins.
Context (x0 : RouteState) (uuid_inj : forall n m, new_v4 n = new_v4 m -> n = m).

(** The site's wallet tables are reached from [x0] by [route_step]s; the ids to
    come are new, and [P] holds of what was seen. *)
Definition routed (P : nat -> RouteState -> Prop) (s : Site) : Prop :=
  exists x, rtc route_step x0 x /\ rt_db x = st_wallets s /\
    (forall n, (sv_uuids (st_server s) <= n)%nat -> new_v4 n ∉ rt_drawn x) /\ P (sv_uuids (st_server s)) x.

Definition anyhow : Site -> Prop := routed (fun _ _ => True).

(** An id that was drawn and not used yet. *)
Definition unused (id : Z) (n : nat) (x : RouteState) : Prop :=
  (id ∉ rt_drawn x) /\ forall k, (n <= k)%nat -> new_v4 k <> id.

Lemma routed_weaken P Q s : (forall n x, P n x -> Q n x) -> routed P s -> routed Q s.
Proof. intros HPQ (x & ? & ? & ? & ?). exists x. auto. Qed.

Lemma routed_uuid (P : RouteState -> Prop) :
  triple (routed (fun _ => P)) db_uuid (fun id => routed (fun n x => P x /\ unused id n x)) anyhow.
Proof.
  intros s (x & Hx & Hdb & Hn & HP). cbn. exists x. split; [done|]. split; [done|]. cbn. split; [intros n Hk; apply Hn; lia|].
  split; [done|]. split; [by apply Hn|]. intros k Hk He%uuid_inj. lia.
Qed.

Lemma routed_select {A} (f : WalletDb -> A) (P : RouteState -> Prop) :
  triple (routed (fun _ => P)) (wdb (wselect f)) (fun _ => routed (fun _ => P)) anyhow.
Proof.
  intros s (x & Hx & Hdb & Hn & HP). unfold wdb. destruct (calls _); cbn; exists x; done.
Qed.

(** A statement that writes, by the step of its operation. *)
Lemma routed_op {A} op (stmt : WStatement A) (P : RouteState -> Prop) (J : A -> RouteState -> Prop) :
  (forall now d, snd (stmt now d) = apply_op op now d) ->
  (forall x, P x -> pin_obtained x op) ->
  (forall now x a, P x -> fst (stmt now (rt_db x)) = Ok a -> forall drawn,
     J a (mkRouteState (apply_op op now (rt_db x)) drawn (answer_of op now (rt_db x) ++ rt_answers x) (rt_reads x))) ->
  triple (routed (fun n x => P x /\ forall id, drawn_by op = Some id -> unused id n x)) (wdb stmt)
    (fun a => routed (fun _ => J a)) anyhow.
Proof.
  intros Hst Hpin HJ s (x & Hx & Hdb & Hn & HP & Hid). unfold wdb.
  set (now := clock (sv_ticks (st_server s))). rewrite <- Hdb.
  assert (Hstep : forall K, (forall drawn, K (mkRouteState (apply_op op now (rt_db x)) drawn
                       (answer_of op now (rt_db x) ++ rt_answers x) (rt_reads x)) : Prop) ->
    routed (fun _ => K) (mkSite (tick (st_server s)) (snd (stmt now (rt_db x))))).
  { intros K HK. eexists. split; [eapply rtc_r; [exact Hx|]; apply (route_op op now); [|by apply Hpin]|].
    - intros id Ho. by apply Hid.
    - split; [by rewrite Hst|]. split; [|apply HK]. cbn. intros n Hk. destruct (drawn_by op) as [id|]; [|by apply Hn].
      destruct (Hid id eq_refl) as [_ Hne]. specialize (Hn n Hk). specialize (Hne n Hk). set_solver. }
  destruct (calls _); [|exists x; done|by apply Hstep].
  pose proof (HJ now x) as HJx. destruct (stmt now (rt_db x)) as [[a|e] d'] eqn:Hr; cbn [snd fst] in *; by apply Hstep; eauto.
Qed.

Lemma routed_read_back id (P : RouteState -> Prop) :
  triple (routed (fun _ => P))
    (let* r := wdb (get_payment_method id) in
     match r with Some m => st_ret m | None => st_throw (NotFound "payment method not found") end)%st
    (fun _ => anyhow) anyhow.
Proof.
  eapply triple_bind; [apply routed_select|]. intros [m|]; [apply triple_ret | apply triple_throw];
    intros s; by apply routed_weaken.
Qed.

(** The answer a wallet to pin came from. *)
Definition answered (store : Z) (wid : option Z) (x : RouteState) : Prop :=
  forall i, wid = Some i -> (store, i) ∈ rt_answers x.

Lemma routed_for_store store ns xpub (P : RouteState -> Prop) :
  (forall x db drawn more, P x -> P (mkRouteState db drawn (more ++ rt_answers x) (rt_reads x))) ->
  triple (routed (fun _ => P))
    (let* id := db_uuid in let* wid := wdb (wallet_for_store_xpub id store ns xpub) in st_ret (Some wid))%st
    (fun wid => routed (fun _ x => P x /\ answered store wid x)) anyhow.
Proof.
  intros HP. eapply triple_bind; [apply routed_uuid|]. intros id. eapply triple_bind.
  - eapply triple_weaken; [apply (routed_op (OpForStore id store ns xpub) _ P
      (fun wid x => P x /\ answered store (Some wid) x)) | |]; try done.
    + intros now x a Hx Ha drawn. split; [by apply HP|]. intros i [= <-]. cbn. rewrite Ha. by left.
    + intros s. apply routed_weaken. intros n x [Hx Hu]. split; [done|]. by intros i [= <-].
  - intros wid. by apply triple_ret.
Qed.

Lemma create_payment_method_routes store chain token symbol decimals xpub :
  preserves anyhow (create_payment_method store chain token symbol decimals xpub).
Proof.
  apply preserves_triple. unfold create_payment_method.
  eapply (triple_bind _ _ _ (fun wid => routed (fun _ => answered store wid))).
  - destruct xpub as [x|].
    + eapply triple_weaken; [by apply (routed_for_store store _ x (fun _ => True)) | done |].
      intros wid s. apply routed_weaken. by intros n y [_ Hy].
    + eapply triple_bind; [apply routed_select|]. intros [|]; [apply triple_ret | by apply triple_throw].
      intros s. apply routed_weaken. by intros n x _ i.
  - intros wid. eapply triple_bind; [apply routed_uuid|]. intros id.
    eapply triple_bind; [|intros; apply (routed_read_back _ (fun _ => True))].
    eapply triple_weaken; [apply (routed_op (OpInsertMethod id store chain token symbol decimals wid) _
      (answered store wid) (fun _ _ => True)) | |]; try done.
    + intros x Hx. cbn. destruct wid; [by apply Hx | done].
    + intros s. apply routed_weaken. intros n x [Hx Hu]. split; [done|]. by intros i [= <-].
Qed.

Lemma update_payment_method_routes id enabled xpub :
  preserves anyhow (update_payment_method id enabled xpub).
Proof.
  apply preserves_triple. unfold update_payment_method.
  eapply (triple_bind _ _ _ (fun r => routed (fun _ x =>
    match r with Some e => (id, spm_store_id e) ∈ rt_reads x | None => True end))).
  { intros s (x & Hx & Hdb & Hn & _). unfold wdb. destruct (calls _); [|exists x; done..].
    cbn. destruct (head _) as [m|] eqn:Hh; [|exists x; done]. eexists. split; [eapply rtc_r; [exact Hx|];
      apply (route_read id m 0); cbn; by rewrite Hdb, Hh|]. split; [done|]. split; [done|]. by left. }
  intros [e|]; [|apply triple_throw; intros s; by apply routed_weaken].
  set (store := spm_store_id e). set (seen := fun x => (id, store) ∈ rt_reads x).
  eapply (triple_bind _ _ _ (fun wid => routed (fun _ x => seen x /\ answered store wid x))).
  - destruct xpub as [x|]; [by apply (routed_for_store store _ x seen)|].
    apply triple_ret. intros s. apply routed_weaken. intros n x Hx. split; [done|]. by intros i.
  - intros wid. eapply triple_bind; [|intros; apply (routed_read_back _ (fun _ => True))].
    eapply triple_weaken; [apply (routed_op (OpUpdateMethod id enabled wid) _
      (fun x => seen x /\ answered store wid x) (fun _ _ => True)) | |]; try done.
    + intros x [Hs Hx]. cbn. destruct wid as [i|]; [|done]. exists store. split; [done | by apply Hx].
    + intros s. apply routed_weaken. intros n x Hx. split; [done|]. by intros i.
Qed.
End Pins.
End Requests.
