(* ===== verification/Derivation.v ===== *)
(** * Chain families and address derivation

    [evm/src/family.rs] and [evm/src/wallet.rs]: which family a key belongs to,
    the paths of its addresses, the deriver of the server and the wallet of the
    merchant.  Curve arithmetic, hashing, BIP-39 and base58 are third-party
    code: the class [HdKeys], with the BIP-32 and encoding facts the code relies
    on as [HdKeysLaws]. *)

From stdpp Require Import strings list countable.
From Stdlib Require Import ZArith Lia.
From S2P Require Import Prelude Events.

(** ** Families *)

Definition NAMESPACE_EIP155 : string := "eip155".
Definition NAMESPACE_TRON : string := "tron".
Definition ETH_COIN_TYPE : Z := 60.
Definition TRON_COIN_TYPE : Z := 195.
Definition TRON_ADDRESS_PREFIX : Z := 65.

Inductive ChainFamily := Evm | Tron.

#[export] Instance ChainFamily_eq_dec : EqDecision ChainFamily.
Proof. solve_decision. Defined.

(** [ChainFamily::from_namespace] *)
Definition from_namespace (namespace : string) : option ChainFamily :=
  if String.eqb namespace NAMESPACE_EIP155 then Some Evm
  else if String.eqb namespace NAMESPACE_TRON then Some Tron
  else None.

(** [ChainFamily::namespace] *)
Definition family_namespace (f : ChainFamily) : string :=
  match f with Evm => NAMESPACE_EIP155 | Tron => NAMESPACE_TRON end.

(** [ChainFamily::coin_type] *)
Definition coin_type (f : ChainFamily) : Z :=
  match f with Evm => ETH_COIN_TYPE | Tron => TRON_COIN_TYPE end.

(** [ChainFamily::account_path] *)
Definition account_path (f : ChainFamily) : string := "m/44'/" +:+ z_to_string (coin_type f) +:+ "'/0'".

(** [ChainFamily::derivation_path] *)
Definition derivation_path (f : ChainFamily) (index : Z) : string :=
  account_path f +:+ "/0/" +:+ z_to_string index.

(** [family_for_namespace] *)
Definition family_for_namespace (namespace : string) : EvmResult ChainFamily :=
  match from_namespace namespace with
  | Some f => Ok f
  | None => Err (InvalidXpub ("no key derivation is implemented for chain namespace `" +:+ namespace +:+ "`"))
  end.

(** ** Keys *)

(** A hardened child number. *)
Definition HARDENED : Z := 2 ^ 31.

(** Private and public extended keys, their children, their text, and what
    turns a public key into the 20 bytes of an address. *)
Class HdKeys := {
  XPriv : Type;
  XPub : Type;
  mnemonic_seed : string -> string -> option (list Z);
  root_from_seed : list Z -> option XPriv;
  priv_child : XPriv -> Z -> option XPriv;
  verify_key : XPriv -> XPub;
  pub_child : XPub -> Z -> option XPub;
  xpub_from_base58 : string -> option XPub;
  xpub_to_base58 : XPub -> option string;
  xpub_depth : XPub -> Z;
  parse_path : string -> option (list Z);
  (** [public_key_to_address]: the last 20 bytes of the Keccak hash *)
  public_key_to_address : XPub -> Z;
  sha256 : list Z -> list Z;
  address_bytes : Z -> list Z;
  base58 : list Z -> string;
  address_to_string : Z -> string
}.

(** The BIP-44 path of an address as child numbers. *)
Definition path_of (coin index : Z) : list Z := [44 + HARDENED; coin + HARDENED; HARDENED; 0; index].
Definition account_path_of (coin : Z) : list Z := [44 + HARDENED; coin + HARDENED; HARDENED].

Class HdKeysLaws `{HdKeys} := {
  (** BIP-32: a non-hardened child of the public key is the public key of the
      child of the private key. *)
  bip32_neuter k i : 0 <= i < HARDENED -> pub_child (verify_key k) i = verify_key <$> priv_child k i;
  base58_roundtrip x t : xpub_to_base58 x = Some t -> xpub_from_base58 t = Some x;
  parse_account_path f : parse_path (account_path f) = Some (account_path_of (coin_type f));
  parse_derivation_path f i :
    0 <= i < HARDENED -> parse_path (derivation_path f i) = Some (path_of (coin_type f) i)
}.

Section Derivation.
Context `{HdKeys}.

(** [encode_tron_address] *)
Definition encode_tron_address (address : Z) : string :=
  let payload := TRON_ADDRESS_PREFIX :: address_bytes address in
  let checksum := sha256 (sha256 payload) in
  base58 (payload ++ take 4 checksum).

(** [ChainFamily::encode_address] *)
Definition encode_address (f : ChainFamily) (address : Z) : string :=
  match f with Evm => address_to_string address | Tron => encode_tron_address address end.

(** [XpubDeriver] *)
Record XpubDeriver := mkXpubDeriver {
  xd_account_xpub : XPub;
  xd_family : ChainFamily
}.

(** [XpubDeriver::for_family] *)
Definition for_family (family : ChainFamily) (xpub_str : string) : EvmResult XpubDeriver :=
  match xpub_from_base58 xpub_str with
  | Some account_xpub => Ok (mkXpubDeriver account_xpub family)
  | None => Err (InvalidXpub "failed to parse xpub")
  end.

(** [XpubDeriver::from_xpub] *)
Definition from_xpub (namespace xpub_str : string) : EvmResult XpubDeriver :=
  match family_for_namespace namespace with
  | Ok f => for_family f xpub_str
  | Err e => Err e
  end.

(** [XpubDeriver::derive_address_bytes] *)
Definition derive_address_bytes (d : XpubDeriver) (index : Z) : EvmResult Z :=
  match (external ← pub_child (xd_account_xpub d) 0; pub_child external index) with
  | Some derived => Ok (public_key_to_address derived)
  | None => Err (WalletDerivation "derivation failed")
  end.

(** [XpubDeriver::derive_address] *)
Definition derive_address (d : XpubDeriver) (index : Z) : EvmResult string :=
  match derive_address_bytes d index with
  | Ok a => Ok (encode_address (xd_family d) a)
  | Err e => Err e
  end.

(** [XpubDeriver::derive_evm_address] *)
Definition derive_evm_address (d : XpubDeriver) (index : Z) : EvmResult Z :=
  match xd_family d with
  | Evm => derive_address_bytes d index
  | f => Err (InvalidXpub ("this key is registered for `" +:+ family_namespace f +:+ "`, not an EVM chain"))
  end.

(** [validate_xpub] *)
Definition validate_xpub (xpub_str : string) : bool :=
  negb ((String.length xpub_str <? 10)%nat) && option_is_some (xpub_from_base58 xpub_str).

Definition ACCOUNT_XPUB_DEPTH : Z := 3.

(** [xpub_depth_problem], whether it names a problem *)
Definition xpub_depth_problem (xpub_str : string) : bool :=
  match xpub_from_base58 xpub_str with
  | None => false
  | Some xpub => negb (xpub_depth xpub =? ACCOUNT_XPUB_DEPTH)
  end.

(** ** The merchant's wallet *)

Record HdWallet := mkHdWallet { master_key : XPriv }.

(** [HdWallet::from_seed] *)
Definition from_seed (seed : list Z) : EvmResult HdWallet :=
  if negb (length seed =? 64)%nat then Err (WalletDerivation "seed must be 64 bytes")
  else match root_from_seed seed with
       | Some k => Ok (mkHdWallet k)
       | None => Err (WalletDerivation "invalid seed")
       end.

(** [HdWallet::from_mnemonic] *)
Definition from_mnemonic (mnemonic passphrase : string) : EvmResult HdWallet :=
  match mnemonic_seed mnemonic passphrase with
  | None => Err (InvalidMnemonic "invalid mnemonic")
  | Some seed => match root_from_seed seed with
                 | Some k => Ok (mkHdWallet k)
                 | None => Err (WalletDerivation "invalid seed")
                 end
  end.

(** [XPriv::derive_path] *)
Definition priv_derive_path (k : XPriv) (path : list Z) : option XPriv :=
  foldl (fun k i => k ← k; priv_child k i) (Some k) path.

(** [HdWallet::derive_address_at_path] *)
Definition derive_address_at_path (w : HdWallet) (path : string) : EvmResult Z :=
  match parse_path path with
  | None => Err (InvalidDerivationPath "invalid path")
  | Some p =>
      match priv_derive_path (master_key w) p with
      | None => Err (WalletDerivation "derivation failed")
      | Some k => Ok (public_key_to_address (verify_key k))
      end
  end.

(** [HdWallet::derive_address_for] *)
Definition derive_address_for (w : HdWallet) (family : ChainFamily) (index : Z) : EvmResult Z :=
  derive_address_at_path w (derivation_path family index).

(** [HdWallet::account_xpub_for] *)
Definition account_xpub_for (w : HdWallet) (family : ChainFamily) : EvmResult XPub :=
  match parse_path (account_path family) with
  | None => Err (InvalidDerivationPath "invalid path")
  | Some p =>
      match priv_derive_path (master_key w) p with
      | None => Err (WalletDerivation "derivation failed")
      | Some k => Ok (verify_key k)
      end
  end.

(** [HdWallet::account_xpub_string_for] *)
Definition account_xpub_string_for (w : HdWallet) (family : ChainFamily) : EvmResult string :=
  match account_xpub_for w family with
  | Err e => Err e
  | Ok x => match xpub_to_base58 x with Some t => Ok t | None => Err (WalletDerivation "encoding failed") end
  end.
End Derivation.

(** ** Agreement *)

(** A family is named by one namespace. *)
Lemma from_namespace_roundtrip f : from_namespace (family_namespace f) = Some f.
Proof. by destruct f. Qed.

Section Agreement.
Context `{HdKeysLaws}.

Lemma priv_path_account k coin index :
  priv_derive_path k (path_of coin index) =
  (a ← priv_derive_path k (account_path_of coin); e ← priv_child a 0; priv_child e index).
Proof.
  unfold priv_derive_path, path_of, account_path_of. cbn [foldl]. cbn [mbind option_bind].
  destruct (priv_child k (44 + HARDENED)); [|done]. cbn [mbind option_bind].
  destruct (priv_child _ (coin + HARDENED)); [|done]. cbn [mbind option_bind].
  destruct (priv_child _ HARDENED); [|done]. cbn [mbind option_bind]. by destruct (priv_child _ 0).
Qed.

Lemma deriver_matches w f text index :
  account_xpub_string_for w f = Ok text -> 0 <= index < 2 ^ 31 ->
  exists d, from_xpub (family_namespace f) text = Ok d /\ xd_family d = f /\
    match derive_address_for w f index with
    | Ok a => derive_address_bytes d index = Ok a
    | Err _ => is_ok (derive_address_bytes d index) = false
    end.
Proof.
  unfold account_xpub_string_for, account_xpub_for. rewrite parse_account_path.
  destruct (priv_derive_path (master_key w) (account_path_of (coin_type f))) as [acc|] eqn:Hacc; [|done].
  destruct (xpub_to_base58 (verify_key acc)) as [t|] eqn:Ht; [|done]. intros [= <-] Hi.
  exists (mkXpubDeriver (verify_key acc) f). split; [|split; [done|]].
  { unfold from_xpub, family_for_namespace. rewrite from_namespace_roundtrip. unfold for_family.
    by rewrite (base58_roundtrip _ _ Ht). }
  unfold derive_address_for, derive_address_at_path. rewrite parse_derivation_path by done.
  rewrite priv_path_account, Hacc. cbn [mbind option_bind]. unfold derive_address_bytes. cbn [xd_account_xpub].
  rewrite bip32_neuter by (unfold HARDENED; lia). destruct (priv_child acc 0) as [e|]; [|done]. cbn [fmap option_fmap option_map mbind option_bind].
  rewrite bip32_neuter by done. by destruct (priv_child e index) as [k|].
Qed.

(** C17. The server derives the merchant's addresses: from the account key a
    merchant's wallet exports for a family, the deriver of the server gives at
    every non-hardened index the address the merchant's own wallet shows at the
    BIP-44 path of that family, in the family's encoding, and it fails exactly
    when the wallet does. *)
Theorem server_derives_merchant_address w f text index :
  account_xpub_string_for w f = Ok text -> 0 <= index < 2 ^ 31 ->
  exists d, from_xpub (family_namespace f) text = Ok d /\
    match derive_address_for w f index with
    | Ok a => derive_address d index = Ok (encode_address f a) /\
              (derive_evm_address d index = Ok a <-> f = Evm)
    | Err _ => is_ok (derive_address d index) = false
    end.
Proof.
  intros Ht Hi. destruct (deriver_matches w f text index Ht Hi) as (d & Hd & Hf & Hm). exists d. split; [done|].
  unfold derive_address, derive_evm_address. rewrite Hf. destruct (derive_address_for w f index) as [a|e].
  - rewrite Hm. split; [done|]. destruct f; [done|]. by split.
  - by destruct (derive_address_bytes d index).
Qed.
End Agreement.

(** ** A key tree in which an extended key is its path *)

Fixpoint strip_prefix (p s : string) : option string :=
  match p, s with
  | EmptyString, _ => Some s
  | String a p', String b s' => if Ascii.eqb a b then strip_prefix p' s' else None
  | _, _ => None
  end.

Lemma strip_prefix_app p s : strip_prefix p (p +:+ s) = Some s.
Proof. induction p as [|a p IH]; [done|]. change (String a p +:+ s) with (String a (p +:+ s)). cbn. by rewrite Ascii.eqb_refl. Qed.

Lemma append_assoc_text (a b c : string) : a +:+ (b +:+ c) = (a +:+ b) +:+ c.
Proof.
  induction a as [|x a IH]; [done|]. change (String x (a +:+ (b +:+ c)) = String x ((a +:+ b) +:+ c)). by rewrite IH.
Qed.

Definition toy_parse_path (s : string) : option (list Z) :=
  match strip_prefix (account_path Evm +:+ "/0/") s, strip_prefix (account_path Tron +:+ "/0/") s with
  | Some t, _ => i ← z_parse t; Some (path_of 60 i)
  | _, Some t => i ← z_parse t; Some (path_of 195 i)
  | None, None =>
      if String.eqb s (account_path Evm) then Some (account_path_of 60)
      else if String.eqb s (account_path Tron) then Some (account_path_of 195) else None
  end.

#[export] Instance toy_keys : HdKeys := {
  XPriv := list Z;
  XPub := list Z;
  mnemonic_seed := fun m _ => if String.eqb m "" then None else Some (replicate 64 0);
  root_from_seed := fun _ => Some [];
  priv_child := fun k i => Some (k ++ [i]);
  verify_key := fun k => k;
  pub_child := fun k i => if (0 <=? i) && (i <? HARDENED) then Some (k ++ [i]) else None;
  xpub_from_base58 := fun t => match z_parse t with Some (Zpos p) => decode p | _ => None end;
  xpub_to_base58 := fun k => Some (z_to_string (Zpos (encode k)));
  xpub_depth := fun k => Z.of_nat (length k);
  parse_path := toy_parse_path;
  public_key_to_address := fun k => List.last k 0;
  sha256 := fun l => l;
  address_bytes := fun a => [a];
  base58 := fun l => foldr (fun z s => z_to_string z +:+ s) "" l;
  address_to_string := fun a => "0x" +:+ z_to_string a
}.

#[export] Instance toy_keys_laws : HdKeysLaws.
Proof.
  split.
  - intros k i Hi. cbn. by rewrite (proj2 (Z.leb_le 0 i)), (proj2 (Z.ltb_lt i HARDENED)) by lia.
  - intros x t Ht. assert (t = z_to_string (Zpos (encode x))) as -> by (by injection Ht).
    cbn [xpub_from_base58 toy_keys]. by rewrite z_parse_to_string, decode_encode.
  - by intros [].
  - intros f i _. cbn [parse_path toy_keys]. unfold toy_parse_path, derivation_path.
    replace (account_path f +:+ "/0/" +:+ z_to_string i) with ((account_path f +:+ "/0/") +:+ z_to_string i)
      by (symmetry; apply append_assoc_text).
    destruct f; [by rewrite strip_prefix_app, z_parse_to_string|].
    rewrite (strip_prefix_app (account_path Tron +:+ "/0/")).
    assert (strip_prefix (account_path Evm +:+ "/0/") ((account_path Tron +:+ "/0/") +:+ z_to_string i) = None) as ->
      by reflexivity.
    by rewrite z_parse_to_string.
Qed.

Definition toy_wallet : HdWallet := mkHdWallet ([] : list Z).

Lemma server_derives_merchant_address_witness :
  exists text d, account_xpub_string_for toy_wallet Tron = Ok text /\
    from_xpub "tron" text = Ok d /\ derive_address d 7 = Ok (encode_address Tron 7).
Proof.
  destruct (account_xpub_string_for toy_wallet Tron) as [text|e] eqn:Ht; [|done]. exists text.
  destruct (server_derives_merchant_address toy_wallet Tron text 7 Ht ltac:(lia)) as (d & Hd & Ha).
  exists d. split; [reflexivity|]. split; [exact Hd|].
  assert (Hr : derive_address_for toy_wallet Tron 7 = Ok 7) by (vm_compute; reflexivity).
  rewrite Hr in Ha. exact (proj1 Ha).
Defined.
