(* ===== verification/Quotes.v ===== *)
(** * Quoting an invoice in an asset

    The amount conversions of [server/src/api/invoices/mod.rs]: from the
    invoice's currency to the smallest units of the asset a customer pays in.
    The 96-bit decimals of [rust_decimal] are third-party code: the class
    [RustDecimal], with its documented behaviour as [RustDecimalLaws]. *)

From stdpp Require Import strings list.
From Stdlib Require Import ZArith QArith Qround Lia Lqa.
From S2P Require Import Prelude.

#[local] Open Scope Z_scope.

(** ** The decimal type *)

Class RustDecimal (R : Type) := {
  rd_parse : string -> option R;
  rd_to_string : R -> string;
  rd_of_Z : Z -> R;
  rd_leb : R -> R -> bool;
  rd_checked_mul : R -> R -> option R;
  rd_ceil : R -> R;
  rd_floor : R -> R;
  rd_is_sign_negative : R -> bool;
  rd_to_u128 : R -> option Z;
  rd_normalize : R -> R;
  rd_scale : R -> Z;
  rd_mantissa : R -> Z
}.

(** The numbers the type holds: a 96-bit mantissa and at most 28 decimals. *)
Definition holds (q : Q) : Prop :=
  exists m s, 0 <= s <= 28 /\ Z.abs m < 2 ^ 96 /\ (q == inject_Z m / inject_Z (10 ^ s))%Q.

(** A product that can be held is computed exactly; rounding to whole numbers
    is exact. *)
Class RustDecimalLaws (R : Type) `{RustDecimal R} := {
  rd_value : R -> Q;
  rd_value_of_Z z : Z.abs z < 2 ^ 96 -> (rd_value (rd_of_Z z) == inject_Z z)%Q;
  rd_leb_spec a b : rd_leb a b = true <-> (rd_value a <= rd_value b)%Q;
  rd_mul_exact a b : holds (rd_value a * rd_value b) ->
    exists c, rd_checked_mul a b = Some c /\ (rd_value c == rd_value a * rd_value b)%Q;
  rd_ceil_value a : (rd_value (rd_ceil a) == inject_Z (Qceiling (rd_value a)))%Q;
  rd_floor_value a : (rd_value (rd_floor a) == inject_Z (Qfloor (rd_value a)))%Q;
  (** the sign of a positive number, and of its floor, is not negative *)
  rd_floor_sign a : (0 < rd_value a)%Q -> rd_is_sign_negative (rd_floor a) = false;
  rd_to_u128_spec a n :
    0 <= n < 2 ^ 128 -> (rd_value a == inject_Z n)%Q -> rd_is_sign_negative a = false -> rd_to_u128 a = Some n
}.

(** ** Conversions *)

Section Conversions.
Context {R : Type} `{RustDecimal R}.

Definition rd_zero : R := rd_of_Z 0.

(** The loop of [multiply_by_decimals]. *)
Fixpoint power_of_ten (n : nat) (multiplier : R) : result string R :=
  match n with
  | O => Ok multiplier
  | S n =>
      match rd_checked_mul multiplier (rd_of_Z 10) with
      | Some m => power_of_ten n m
      | None => Err "Overflow computing multiplier"
      end
  end.

(** [multiply_by_decimals] *)
Definition multiply_by_decimals (value : R) (decimals : Z) : result string R :=
  match power_of_ten (Z.to_nat decimals) (rd_of_Z 1) with
  | Err e => Err e
  | Ok multiplier =>
      match rd_checked_mul value multiplier with
      | Some v => Ok v
      | None => Err "Overflow in smallest units calculation"
      end
  end.

(** [decimal_to_integer_string] *)
Definition decimal_to_integer_string (value : R) : result string string :=
  let floored := rd_floor value in
  if rd_is_sign_negative floored then Err "Negative amount after conversion"
  else
    match rd_to_u128 floored with
    | Some n => Ok (z_to_string n)
    | None =>
        let normalized := rd_normalize floored in
        if 0 <? rd_scale normalized then Err "Unexpected decimal places in conversion result"
        else if rd_mantissa normalized <? 0 then Err "Negative amount after conversion"
        else Ok (z_to_string (rd_mantissa normalized))
    end.

(** [convert_to_crypto_smallest_unit] *)
Definition convert_to_crypto_smallest_unit (amount : string) (rate : R) (decimals : Z) : result string string :=
  match rd_parse amount with
  | None => Err "Invalid amount"
  | Some parsed_amount =>
      if rd_leb parsed_amount rd_zero then Err "Amount must be positive"
      else
        match rd_checked_mul parsed_amount rate with
        | None => Err "Overflow in rate multiplication"
        | Some crypto_amount =>
            match multiply_by_decimals crypto_amount decimals with
            | Err e => Err e
            | Ok smallest_units => decimal_to_integer_string (rd_ceil smallest_units)
            end
        end
  end.

(** [convert_human_to_smallest_unit] *)
Definition convert_human_to_smallest_unit (amount : string) (decimals : Z) : result string string :=
  match rd_parse amount with
  | None => Err "Invalid amount"
  | Some parsed_amount =>
      if rd_leb parsed_amount rd_zero then Err "Amount must be positive"
      else
        match multiply_by_decimals parsed_amount decimals with
        | Err e => Err e
        | Ok smallest_units => decimal_to_integer_string smallest_units
        end
  end.
End Conversions.

(** ** What is quoted *)

Section QuoteFacts.
Context {R : Type} `{RustDecimalLaws R}.

Lemma holds_Z z : Z.abs z < 2 ^ 96 -> holds (inject_Z z).
Proof. intros Hz. exists z, 0. split; [lia|]. split; [done|]. change (10 ^ 0) with 1. unfold Qdiv. by rewrite Qmult_1_r. Qed.

Lemma holds_ext p q : (p == q)%Q -> holds p -> holds q.
Proof. intros Hpq (m & s & Hs & Hm & Hq). exists m, s. split; [done|]. split; [done|]. by rewrite <-Hpq. Qed.

Lemma ten_pow_bound (k : nat) : (k <= 28)%nat -> 0 < 10 ^ Z.of_nat k < 2 ^ 96.
Proof.
  intros Hk. split; [apply Z.pow_pos_nonneg; lia|].
  apply (Z.le_lt_trans _ (10 ^ 28)); [apply Z.pow_le_mono_r; lia | by vm_compute].
Qed.

Lemma power_of_ten_exact n k (m : R) :
  (k + n <= 28)%nat -> (rd_value m == inject_Z (10 ^ Z.of_nat k))%Q ->
  exists v, power_of_ten n m = Ok v /\ (rd_value v == inject_Z (10 ^ Z.of_nat (k + n)))%Q.
Proof.
  revert k m. induction n as [|n IH]; intros k m Hk Hm.
  { exists m. by rewrite Nat.add_0_r. }
  assert (H10 : (rd_value (rd_of_Z 10 : R) == inject_Z 10)%Q) by (apply rd_value_of_Z; by vm_compute).
  assert (Hprod : (rd_value m * rd_value (rd_of_Z 10 : R) == inject_Z (10 ^ Z.of_nat (S k)))%Q).
  { rewrite Hm, H10, <-inject_Z_mult. by rewrite Nat2Z.inj_succ, Z.pow_succ_r, Z.mul_comm by lia. }
  destruct (rd_mul_exact m (rd_of_Z 10)) as (c & Hc & Hv).
  { eapply holds_ext; [symmetry; exact Hprod|]. apply holds_Z. pose proof (ten_pow_bound (S k)). lia. }
  destruct (IH (S k) c) as (v & Hr & Hval); [lia | by rewrite Hv, Hprod|].
  exists v. cbn [power_of_ten]. rewrite Hc. split; [done|]. by rewrite Hval, Nat.add_succ_comm.
Qed.

Lemma multiply_by_decimals_exact (a : R) decimals :
  0 <= decimals <= 28 -> holds (rd_value a * inject_Z (10 ^ decimals)) ->
  exists v, multiply_by_decimals a decimals = Ok v /\ (rd_value v == rd_value a * inject_Z (10 ^ decimals))%Q.
Proof.
  intros Hd Hh. destruct (power_of_ten_exact (Z.to_nat decimals) 0 (rd_of_Z 1)) as (v & Hv & Hval).
  { lia. } { apply rd_value_of_Z. by vm_compute. }
  rewrite Nat.add_0_l, Z2Nat.id in Hval by lia. unfold multiply_by_decimals. rewrite Hv.
  destruct (rd_mul_exact a v) as (c & -> & Hc).
  { eapply holds_ext; [|exact Hh]. by rewrite Hval. }
  exists c. split; [done|]. by rewrite Hc, Hval.
Qed.

(** A positive whole number is written out. *)
Lemma integer_string_exact (a : R) :
  (0 < rd_value a)%Q -> Qfloor (rd_value a) < 2 ^ 128 ->
  decimal_to_integer_string a = Ok (z_to_string (Qfloor (rd_value a))).
Proof.
  intros Hpos Hmax. unfold decimal_to_integer_string. rewrite rd_floor_sign by done.
  assert (0 <= Qfloor (rd_value a)) by (change 0 with (Qfloor 0); apply Qfloor_resp_le; by apply Qlt_le_weak).
  rewrite (rd_to_u128_spec _ (Qfloor (rd_value a))); [done | done | apply rd_floor_value | by apply rd_floor_sign].
Qed.

Lemma holds_floor_bound q : holds q -> Qfloor q < 2 ^ 96 /\ Qceiling q <= 2 ^ 96.
Proof.
  intros (m & s & Hs & Hm & Hq). assert (Hp : 0 < 10 ^ s) by (apply Z.pow_pos_nonneg; lia).
  assert (Hle : (q <= inject_Z (2 ^ 96 - 1))%Q).
  { rewrite Hq. apply Qle_shift_div_r; [by change 0%Q with (inject_Z 0); rewrite <-Zlt_Qlt|].
    rewrite <-inject_Z_mult, <-Zle_Qle. nia. }
  split; [apply Qfloor_resp_le in Hle | apply Qceiling_resp_le in Hle]; rewrite ?Qfloor_Z, ?Qceiling_Z in Hle; lia.
Qed.

Lemma pos_scaled (a : Q) d : (0 < a)%Q -> 0 <= d -> (0 < a * inject_Z (10 ^ d))%Q.
Proof.
  intros Ha Hd. apply Qmult_lt_0_compat; [done|]. change 0%Q with (inject_Z 0). rewrite <-Zlt_Qlt. apply Z.pow_pos_nonneg; lia.
Qed.

(** C16. A quote in another asset covers the invoice when its decimals do not
    have to be rounded: for a positive amount and rate and an asset of at most 28
    decimals, where the amount times the rate, and that many smallest units, are
    numbers a [Decimal] holds (a 96-bit mantissa and at most 28 places), the
    number of smallest units asked for, converted back at the quoted rate, is at
    least the invoice amount, and is the least such number of units. *)
Theorem quote_covers_invoice amount (a rate : R) decimals :
  rd_parse amount = Some a -> (0 < rd_value a)%Q -> (0 < rd_value rate)%Q -> 0 <= decimals <= 28 ->
  holds (rd_value a * rd_value rate) -> holds (rd_value a * rd_value rate * inject_Z (10 ^ decimals)) ->
  exists n, convert_to_crypto_smallest_unit amount rate decimals = Ok (z_to_string n) /\
    (rd_value a <= inject_Z n / inject_Z (10 ^ decimals) / rd_value rate)%Q /\
    (inject_Z (n - 1) / inject_Z (10 ^ decimals) / rd_value rate < rd_value a)%Q.
Proof.
  intros Hp Ha Hr Hd Hh1 Hh2. destruct (rd_mul_exact a rate Hh1) as (c & Hc & Hcv).
  destruct (multiply_by_decimals_exact c decimals Hd) as (v & Hv & Hvv); [eapply holds_ext; [|exact Hh2]; by rewrite Hcv|].
  rewrite Hcv in Hvv. assert (Hpos : (0 < rd_value v)%Q).
  { rewrite Hvv. apply pos_scaled; [by apply Qmult_lt_0_compat | lia]. }
  assert (Hten : (0 < inject_Z (10 ^ decimals))%Q) by (change 0%Q with (inject_Z 0); rewrite <-Zlt_Qlt; apply Z.pow_pos_nonneg; lia).
  exists (Qceiling (rd_value v)). split; [|split].
  - unfold convert_to_crypto_smallest_unit. rewrite Hp. destruct (rd_leb a rd_zero) eqn:Hz.
    { apply rd_leb_spec in Hz. unfold rd_zero in Hz. rewrite rd_value_of_Z in Hz by done. exfalso. by apply Qlt_not_le in Ha. }
    rewrite Hc, Hv. rewrite integer_string_exact; rewrite ?rd_ceil_value, ?Qfloor_Z; [done| |].
    + apply Qlt_le_trans with (rd_value v); [done | apply Qle_ceiling].
    + assert (Hb : Qceiling (rd_value v) <= 2 ^ 96) by (apply holds_floor_bound; eapply holds_ext; [|exact Hh2]; by rewrite Hvv).
      assert (2 ^ 96 < 2 ^ 128) by (by vm_compute). lia.
  - apply Qle_shift_div_l; [done|]. apply Qle_shift_div_l; [done|]. rewrite <-Hvv. apply Qle_ceiling.
  - apply Qlt_shift_div_r; [done|]. apply Qlt_shift_div_r; [done|]. rewrite <-Hvv. unfold Z.sub.
    rewrite inject_Z_plus. pose proof (Qceiling_lt (rd_value v)) as Hlt. unfold Z.sub in Hlt. rewrite inject_Z_plus in Hlt. done.
Qed.
End QuoteFacts.
