(* ===== verification/ApiKeys.v ===== *)
(** * Scopes of API keys

    [server/src/api/api_key_scope.rs] (what a stored scope grants) and
    [server/src/api/api_key_permissions.rs] (which scopes may be requested).
    The policy names belong to the [auth] crate: the class [PolicyNames]. *)

From stdpp Require Import strings list.
From Stdlib Require Import ZArith Lia.
From S2P Require Import Prelude Decimal LiveWatch.

Class PolicyNames := {
  UNRESTRICTED : string;
  SERVER_VIEW_USERS : string;
  is_store_policy : string -> bool
}.

(** The names are plain words, and the three kinds do not overlap. *)
Class PolicyLaws `{PolicyNames} := {
  store_policy_no_colon p : is_store_policy p = true -> has_colon p = false;
  unrestricted_not_store : is_store_policy UNRESTRICTED = false;
  view_users_not_store : is_store_policy SERVER_VIEW_USERS = false;
  unrestricted_no_colon : has_colon UNRESTRICTED = false;
  view_users_no_colon : has_colon SERVER_VIEW_USERS = false;
  view_users_not_unrestricted : SERVER_VIEW_USERS <> UNRESTRICTED;
  standing_push_no_policy :
    is_store_policy "ethpay.server.canpushstanding" = false /\
    UNRESTRICTED <> "ethpay.server.canpushstanding" /\ SERVER_VIEW_USERS <> "ethpay.server.canpushstanding"
}.

(** [str::split_once(':')] *)
Fixpoint split_once_colon (s : string) : option (string * string) :=
  match s with
  | EmptyString => None
  | String a rest =>
      if Ascii.eqb a (Ascii.ascii_of_nat 58) then Some (EmptyString, rest)
      else match split_once_colon rest with Some (l, r) => Some (String a l, r) | None => None end
  end.

Section Scopes.
Context `{PolicyNames} `{UuidText}.

Definition contains (set : list string) (entry : string) : bool := existsb (fun p => String.eqb p entry) set.

(** [key_retains_unrestricted_access] *)
Definition key_retains_unrestricted_access (permissions : option (list string)) : bool :=
  match permissions with None => true | Some set => contains set UNRESTRICTED end.

(** [key_grants_merchant_read] *)
Definition key_grants_merchant_read (permissions : option (list string)) : bool :=
  key_retains_unrestricted_access permissions
  || match permissions with Some set => contains set SERVER_VIEW_USERS | None => false end.

Definition STANDING_PUSH_SCOPE : string := "ethpay.server.canpushstanding".

(** [key_grants_standing_push] *)
Definition key_grants_standing_push (permissions : option (list string)) : bool :=
  match permissions with Some set => contains set STANDING_PUSH_SCOPE | None => false end.

(** The closure of [key_grants_store_permission]. *)
Definition entry_grants (policy : string) (store_id : Z) (entry : string) : bool :=
  if String.eqb entry UNRESTRICTED || String.eqb entry policy then true
  else
    match split_once_colon entry with
    | Some (entry_policy, entry_store_id) =>
        String.eqb entry_policy policy
        && match parse_uuid entry_store_id with Some id => id =? store_id | None => false end
    | None => false
    end.

(** [key_grants_store_permission] *)
Definition key_grants_store_permission (permissions : option (list string)) (policy : string) (store_id : Z) : bool :=
  match permissions with None => true | Some set => existsb (entry_grants policy store_id) set end.

(** [is_store_scope_entry] *)
Definition is_store_scope_entry (entry : string) : bool :=
  match split_once_colon entry with
  | Some (policy, store_id) => is_store_policy policy && option_is_some (parse_uuid store_id)
  | None => is_store_policy entry
  end.

Inductive ScopeError := BadRequest.

(** [validate_requested_permissions] *)
Definition validate_requested_permissions (requested : list string) : result ScopeError unit :=
  match requested with
  | [] => Ok tt
  | _ =>
      if match requested with
         | [single] => String.eqb single UNRESTRICTED || String.eqb single STANDING_PUSH_SCOPE
         | _ => false
         end
      then Ok tt
      else if forallb (fun e => is_store_scope_entry e || String.eqb e SERVER_VIEW_USERS) requested then Ok tt
      else Err BadRequest
  end.
End Scopes.

(** ** What an accepted scope grants *)

Lemma split_policy_app l r : has_colon l = false -> split_once_colon (l +:+ ":" +:+ r) = Some (l, r).
Proof.
  induction l as [|a l IH]; [done|]. change (String a l +:+ ":" +:+ r) with (String a (l +:+ ":" +:+ r)). cbn.
  intros [Ha Hl]%orb_false_iff. by rewrite Ha, IH.
Qed.

Lemma split_once_none s : has_colon s = false -> split_once_colon s = None.
Proof. induction s as [|a s IH]; [done|]. cbn. intros [Ha Hs]%orb_false_iff. by rewrite Ha, IH. Qed.

Lemma split_once_inv s l r : split_once_colon s = Some (l, r) -> s = l +:+ ":" +:+ r.
Proof.
  revert l. induction s as [|a s IH]; intros l; [done|]. cbn. destruct (Ascii.eqb_spec a (Ascii.ascii_of_nat 58)) as [->|_].
  - by intros [= <- <-].
  - destruct (split_once_colon s) as [[l' r']|]; [|done]. intros [= <- <-]. by rewrite (IH l' eq_refl).
Qed.

Lemma contains_spec set e : contains set e = true <-> e ∈ set.
Proof.
  unfold contains. rewrite existsb_exists. split.
  - intros (x & Hin & ->%String.eqb_eq). by apply list_elem_of_In.
  - intros Hin. exists e. rewrite String.eqb_refl. by rewrite <-list_elem_of_In.
Qed.

Section Enforced.
Context `{PolicyLaws} `{UuidText}.

(** The entries the third arm of [validate_requested_permissions] accepts. *)
Definition store_or_listing (e : string) : bool := is_store_scope_entry e || String.eqb e SERVER_VIEW_USERS.

Lemma validate_cases set :
  validate_requested_permissions set = Ok tt -> set <> [] ->
  set = [UNRESTRICTED] \/ set = [STANDING_PUSH_SCOPE] \/ (forall e, e ∈ set -> store_or_listing e = true).
Proof.
  unfold validate_requested_permissions. destruct set as [|e set]; [done|]. intros Hv _.
  destruct (match set with [] => _ | _ => false end) eqn:Hs.
  - destruct set; [|done]. apply orb_true_iff in Hs as [->%String.eqb_eq| ->%String.eqb_eq]; auto.
  - destruct (forallb _ (e :: set)) eqn:Hf; [|done]. right. right. intros x Hx.
    apply (proj1 (forallb_forall _ _) Hf). by apply list_elem_of_In.
Qed.

Lemma listing_not_names e :
  store_or_listing e = true -> e <> UNRESTRICTED /\ e <> STANDING_PUSH_SCOPE.
Proof.
  destruct standing_push_no_policy as (Hs & Hu & Hv). unfold store_or_listing, is_store_scope_entry. intros He.
  assert (Hsu : split_once_colon UNRESTRICTED = None) by (apply split_once_none, unrestricted_no_colon).
  split; intros ->.
  - rewrite Hsu, unrestricted_not_store in He. cbn in He. apply String.eqb_eq in He. by apply view_users_not_unrestricted.
  - change (split_once_colon STANDING_PUSH_SCOPE) with (@None (string * string)) in He.
    change STANDING_PUSH_SCOPE with "ethpay.server.canpushstanding"%string in He. rewrite Hs in He. cbn [orb] in He.
    apply String.eqb_eq in He. by symmetry in He.
Qed.

(** What one entry grants of a store policy. *)
Lemma entry_grants_spec policy store e :
  is_store_policy policy = true ->
  entry_grants policy store e = true <->
  e = UNRESTRICTED \/ e = policy \/ exists t, e = policy +:+ ":" +:+ t /\ parse_uuid t = Some store.
Proof.
  intros Hp. pose proof (store_policy_no_colon _ Hp) as Hc. unfold entry_grants.
  destruct (String.eqb_spec e UNRESTRICTED) as [->|Hu]; [cbn; tauto|].
  destruct (String.eqb_spec e policy) as [->|He]; [cbn; tauto|]. cbn [orb]. split.
  - destruct (split_once_colon e) as [[l r]|] eqn:Hs; [|done]. apply split_once_inv in Hs as ->.
    intros [->%String.eqb_eq Hid]%andb_true_iff. right. right. exists r. split; [done|].
    destruct (parse_uuid r) as [id|]; [|done]. by apply Z.eqb_eq in Hid as ->.
  - intros [?|[?|(t & -> & Ht)]]; [done..|]. by rewrite split_policy_app, Ht, String.eqb_refl, Z.eqb_refl by done.
Qed.

(** A scope that is accepted is enforced as written.  For a non-empty
    requested scope: a store permission is granted on a store exactly if the
    scope is [unrestricted], names the permission, or names it for that store;
    full access is kept exactly by the scope [unrestricted]; and a key that may
    push standings holds that scope alone, grants no store permission and does
    not read the merchant list. *)
Theorem accepted_scope_enforced set policy store :
  validate_requested_permissions set = Ok tt -> set <> [] -> is_store_policy policy = true ->
  (key_grants_store_permission (Some set) policy store = true <->
     set = [UNRESTRICTED] \/ policy ∈ set \/ exists t, policy +:+ ":" +:+ t ∈ set /\ parse_uuid t = Some store) /\
  (key_retains_unrestricted_access (Some set) = true <-> set = [UNRESTRICTED]) /\
  (key_grants_standing_push (Some set) = true ->
     set = [STANDING_PUSH_SCOPE] /\ key_grants_store_permission (Some set) policy store = false /\
     key_grants_merchant_read (Some set) = false).
Proof.
  intros Hv Hne Hp. pose proof (validate_cases set Hv Hne) as Hcases.
  destruct standing_push_no_policy as (Hsp & Hsu & Hsv).
  assert (Hun : UNRESTRICTED ∈ set <-> set = [UNRESTRICTED]).
  { split; [|intros ->; by apply list_elem_of_singleton]. intros Hin. destruct Hcases as [?|[->|Hall]]; [done| |].
    - apply list_elem_of_singleton in Hin. done.
    - by destruct (listing_not_names _ (Hall _ Hin)). }
  assert (Hgrant : key_grants_store_permission (Some set) policy store = true <->
    set = [UNRESTRICTED] \/ policy ∈ set \/ exists t, policy +:+ ":" +:+ t ∈ set /\ parse_uuid t = Some store).
  { cbn. rewrite existsb_exists. rewrite <-Hun. split.
    - intros (e & Hin & He). apply list_elem_of_In in Hin. apply entry_grants_spec in He; [|done].
      destruct He as [->|[->|(t & -> & Ht)]]; [tauto | tauto | right; right; eauto].
    - intros Hg. assert (Hex : exists e, e ∈ set /\ entry_grants policy store e = true).
      { destruct Hg as [Hin|[Hin|(t & Hin & Ht)]]; eexists; (split; [exact Hin|]); apply entry_grants_spec; eauto. }
      destruct Hex as (e & Hin & He). exists e. by rewrite <-list_elem_of_In. }
  split; [exact Hgrant|]. split; [cbn; by rewrite contains_spec|]. cbn [key_grants_standing_push]. rewrite contains_spec.
  intros Hin. assert (set = [STANDING_PUSH_SCOPE]) as ->.
  { destruct Hcases as [->|[?|Hall]]; [|done|by destruct (listing_not_names _ (Hall _ Hin))].
    apply list_elem_of_singleton in Hin. by symmetry in Hin. }
  split; [done|]. split.
  - apply not_true_iff_false. rewrite Hgrant. intros [Hx|[Hx|(t & Hx & _)]].
    + by injection Hx as Hx.
    + apply list_elem_of_singleton in Hx. change STANDING_PUSH_SCOPE with "ethpay.server.canpushstanding"%string in Hx. congruence.
    + apply list_elem_of_singleton in Hx. assert (Hs : split_once_colon STANDING_PUSH_SCOPE = None) by done.
      rewrite <-Hx, split_policy_app in Hs; [done | by apply store_policy_no_colon].
  - unfold key_grants_merchant_read, key_retains_unrestricted_access, contains. cbn [existsb].
    rewrite (proj2 (String.eqb_neq _ _)), (proj2 (String.eqb_neq _ _)); [done|..]; unfold STANDING_PUSH_SCOPE; congruence.
Qed.
End Enforced.

(** ** The names of the server *)

#[export] Instance demo_policies : PolicyNames := {
  UNRESTRICTED := "unrestricted";
  SERVER_VIEW_USERS := "ethpay.server.canviewusers";
  is_store_policy := fun p => String.eqb p "ethpay.store.cancreateinvoice" || String.eqb p "ethpay.store.canviewinvoices"
}.

#[export] Instance demo_policy_laws : PolicyLaws.
Proof.
  split; try done. cbn [is_store_policy demo_policies]. intros p Hp.
  apply orb_true_iff in Hp as [Hp|Hp]; apply String.eqb_eq in Hp as ->; done.
Qed.

#[local] Instance demo_uuid_text : UuidText := { parse_uuid := z_parse }.

Lemma accepted_scope_enforced_witness :
  key_grants_store_permission (Some ["ethpay.store.cancreateinvoice:7"%string]) "ethpay.store.cancreateinvoice" 7 = true /\
  key_grants_store_permission (Some ["ethpay.store.cancreateinvoice:7"%string]) "ethpay.store.cancreateinvoice" 8 = false.
Proof.
  split.
  - apply (accepted_scope_enforced ["ethpay.store.cancreateinvoice:7"%string] "ethpay.store.cancreateinvoice" 7);
      [reflexivity | discriminate | reflexivity |]. right. right. exists "7"%string. split; [left | reflexivity].
  - reflexivity.
Defined.
