(* ===== verification/Invoicing.v ===== *)
(** * Writing an invoice in one transaction

    [data-service/src/postgres/invoice_creation.rs]: the invoice row, its payment
    options and their watched addresses; and the statements of
    [payment_option.rs] that cancelling uses. *)

From stdpp Require Import gmap strings list.
From Stdlib Require Import ZArith Lia.
From S2P Require Import Prelude Events Network Decimal Database Services WatchRetry LiveWatch Wallets Derivation Quotes ApiKeys.

(** [PaymentOptionData] *)
Record PaymentOptionData := mkPaymentOptionData {
  pod_id : Uuid;
  pod_invoice_id : string;
  pod_payment_method_id : string;
  pod_chain_id : string;
  pod_asset_symbol : string;
  pod_token_address : option string;
  pod_decimals : Z;
  pod_payment_address : string;
  pod_wallet_id : option Uuid;
  pod_derivation_index : option Z;
  pod_amount : string;
  pod_rate : option string;
  pod_rate_at : option Instant;
  pod_is_active : bool;
  pod_created_at : Instant
}.

Section Statements.
Context `{Numeric}.

(** [insert_invoice]: a taken id or a missing store refuses the row. *)
Definition insert_invoice (invoice : InvoiceData) : Statement unit :=
  fun _ d =>
    match numeric18_in (id_amount invoice), numeric18_in (id_amount_received invoice) with
    | Some amount, Some received =>
        if option_is_some (db_invoices d !! id_id invoice) then (Err (Database "duplicate key: invoices_pkey"), d)
        else if option_is_none (db_stores d !! id_store_id invoice)
        then (Err (Database "foreign key violation: store_id"), d)
        else
          let row := mkInvoiceRow (id_store_id invoice) (id_currency invoice) (id_status invoice) amount received
                       (id_created_at invoice) (id_expires_at invoice) (id_metadata invoice)
                       (id_customer_email invoice) in
          (Ok tt, db_set_invoices (<[id_id invoice := row]> (db_invoices d)) d)
    | _, _ => (Err (Database "invalid input syntax for type numeric"), d)
    end.

(** The row of an option; [rate] is a column of 18 decimals, [asset_type] is
    determined by the token address. *)
Definition option_row (o : PaymentOptionData) (amount : Z) (rate : option Z) : PaymentOptionRow :=
  {| po_invoice_id := pod_invoice_id o;
     po_chain_id := pod_chain_id o;
     po_asset_symbol := pod_asset_symbol o;
     po_token_address := pod_token_address o;
     po_decimals := pod_decimals o;
     po_payment_address := pod_payment_address o;
     po_rate := numeric18_out <$> rate;
     po_amount := amount;
     po_created_at := pod_created_at o;
     po_payment_method_id := pod_payment_method_id o;
     po_wallet_id := pod_wallet_id o;
     po_derivation_index := pod_derivation_index o;
     po_rate_at := pod_rate_at o;
     po_is_active := pod_is_active o |}.

(** [insert_payment_option]: the primary key, the invoice, and [UNIQUE
    (invoice_id, payment_method_id)]. *)
Definition insert_payment_option (o : PaymentOptionData) : Statement unit :=
  fun _ d =>
    match z_parse (pod_amount o), (match pod_rate o with
                                   | Some r => Some <$> numeric18_in r
                                   | None => Some None
                                   end) with
    | Some amount, Some rate =>
        if option_is_some (db_payment_options d !! pod_id o) then (Err (Database "duplicate key: payment_options_pkey"), d)
        else if option_is_none (db_invoices d !! pod_invoice_id o)
        then (Err (Database "foreign key violation: invoice_id"), d)
        else if existsb (fun p => String.eqb (po_invoice_id p) (pod_invoice_id o)
                                  && String.eqb (po_payment_method_id p) (pod_payment_method_id o))
                  (map_to_list (db_payment_options d)).*2
        then (Err (Database "duplicate key: unique_payment_option"), d)
        else (Ok tt, db_set_payment_options (<[pod_id o := option_row o amount rate]> (db_payment_options d)) d)
    | _, _ => (Err (Database "invalid input syntax for type numeric"), d)
    end.

(** The row an upsert finds: an exact match for a token, a match without regard
    to case for the native asset. *)
Definition watch_conflict (address chain_id : string) (token : option string) (w : WatchRow) : bool :=
  String.eqb (wr_chain_id w) chain_id &&
  match token with
  | Some t => String.eqb (wr_address w) address && bool_decide (wr_token_address w = Some t)
  | None => String.eqb (to_lowercase (wr_address w)) (to_lowercase address) && bool_decide (wr_token_address w = None)
  end.

(** [DO UPDATE SET payment_option_id, is_active, expires_at, monitor_notified] *)
Definition repoint_watch (payment_option_id : Uuid) (expires_at : Instant) (w : WatchRow) : WatchRow :=
  mkWatchRow (wr_address w) payment_option_id (wr_chain_id w) (wr_token_address w) true false (wr_created_at w) expires_at.

(** [upsert_watched_address]; the column [invoice_id] it also inserts is read by
    no query. *)
Definition upsert_watched_address (expires_at : Instant) (address : string) (payment_option_id : Uuid)
    (chain_id : string) (token : option string) : Statement unit :=
  fun now d =>
    let hit := watch_conflict address chain_id token in
    (Ok tt,
     db_set_watched
       (if existsb hit (db_watched d)
        then (fun w => if hit w then repoint_watch payment_option_id expires_at w else w) <$> db_watched d
        else db_watched d ++ [mkWatchRow address payment_option_id chain_id token true false now expires_at]) d).

(** [PaymentOptionWriter::deactivate_for_invoice] *)
Definition deactivate_for_invoice (invoice_id : string) : Statement nat :=
  fun _ d =>
    let hit p := String.eqb (po_invoice_id p) invoice_id && po_is_active p in
    let off p := mkPaymentOptionRow (po_invoice_id p) (po_chain_id p) (po_asset_symbol p) (po_token_address p)
                   (po_decimals p) (po_payment_address p) (po_rate p) (po_amount p) (po_created_at p)
                   (po_payment_method_id p) (po_wallet_id p) (po_derivation_index p) (po_rate_at p) false in
    (Ok (length (List.filter hit (map_to_list (db_payment_options d)).*2)),
     db_set_payment_options ((fun p => if hit p then off p else p) <$> db_payment_options d) d).
End Statements.

Section Transaction.
Context `{Runtime} `{Numeric}.

(** The two statements of one option inside the transaction. *)
Definition write_option (began : Instant) (expires_at : Instant) (tx : Db) (o : PaymentOptionData) : M RepositoryError Db :=
  let* (_, tx) := tx_statement began (insert_payment_option o) tx in
  let* (_, tx) := tx_statement began (upsert_watched_address expires_at (pod_payment_address o) (pod_id o)
                                        (pod_chain_id o) (pod_token_address o)) tx in
  st_ret tx.

(** [InvoiceCreationWriter::create_invoice_with_options] *)
Definition create_invoice_with_options (invoice : InvoiceData) (options : list PaymentOptionData) : M RepositoryError unit :=
  let* began := utc_now in
  let* tx := exchange db_lost (st_gets sv_db) in
  let* (_, tx) := tx_statement began (insert_invoice invoice) tx in
  let* tx := st_fold (write_option began (id_expires_at invoice)) tx options in
  exchange db_lost (st_modify (set_db tx)).
End Transaction.

(** * Creating and cancelling invoices

    The handler [create_invoice] of [server/src/api/invoices/crud.rs] with
    [payment_options.rs], the helpers of [invoices/mod.rs] and the plugin filter
    of [services/plugins/filter.rs]; the handler [cancel_invoice].

    Currencies, exchange rates and identifiers are crates outside the repository:
    the class [InvoiceHost].  A handler is a program on the server and the wallet
    tables; its error is the status, code and message of the response. *)

(** ** Data *)

Record ApiError := mkApiError {
  ae_status : Z;
  ae_code : string;
  ae_message : string
}.

(** [invoice_error] *)
Definition invoice_error (status : Z) (code message : string) : ApiError := mkApiError status code message.

(** [AuthenticatedCaller], as it is read *)
Record Caller := mkCaller {
  ca_user : Uuid;
  ca_key_scope : option (list string);
  ca_is_operator : bool
}.

Record CreateInvoiceRequest := mkCreateInvoiceRequest {
  cr_store_id : Uuid;
  cr_currency : string;
  cr_amount : string;
  cr_expiration_seconds : option Z;
  cr_metadata : option Json;
  cr_customer_email : option string
}.

Inductive FilterVerdict := Allow | Deny (reason : string).

(** [InvoiceCreationFilter]: asked for a store and its owner. *)
Definition InvoiceCreationFilter : Type := Uuid -> Uuid -> FilterVerdict.

(** [run_invoice_creation_filters] *)
Fixpoint run_invoice_creation_filters (filters : list InvoiceCreationFilter) (store_id account_id : Uuid) : FilterVerdict :=
  match filters with
  | [] => Allow
  | f :: filters =>
      match f store_id account_id with
      | Deny reason => Deny reason
      | Allow => run_invoice_creation_filters filters store_id account_id
      end
  end.

Inductive RateError := UnsupportedPair | RateUnavailable (msg : string).

(** [ExchangeRate] is the rate and its timestamp; [get_rate]'s first argument
    is the request's number. *)
Class InvoiceHost (R : Type) := {
  is_fiat_currency : string -> bool;
  get_rate : nat -> string -> string -> result RateError (R * Instant);
  is_stale : Instant -> Instant -> Z -> bool;
  payment_method_id_new : string -> string -> string;
  new_invoice_id : Uuid -> string;
  DEFAULT_INVOICE_EXPIRATION_SECS : Z;
  parse_u256 : string -> option U256
}.

(** ** Helpers *)

(** ASCII [str::to_uppercase] *)
Definition ascii_upper (c : Ascii.ascii) : Ascii.ascii :=
  let n := Ascii.nat_of_ascii c in
  if (97 <=? n)%nat && (n <=? 122)%nat then Ascii.ascii_of_nat (n - 32) else c.
Fixpoint to_uppercase (s : string) : string :=
  match s with
  | EmptyString => EmptyString
  | String c s' => String (ascii_upper c) (to_uppercase s')
  end.

(** [i64::from_str] *)
Definition parse_i64 (s : string) : option Z :=
  z ← z_parse s; if (- 2 ^ 63 <=? z) && (z <? 2 ^ 63) then Some z else None.

(** [rate_stale_reject_secs] *)
Definition rate_stale_reject_secs (var : string -> option string) : Z :=
  default 300 (v ← var "RATE_STALE_REJECT_SECS"%string; parse_i64 v).

(** [store_has_no_wallet] *)
Definition store_has_no_wallet (payment_methods : list StorePaymentMethod) : bool :=
  forallb (fun pm => option_is_none (spm_wallet_id pm)) payment_methods.

(** [apply_token_policy_filter] *)
Definition apply_token_policy_filter (payment_methods : list StorePaymentMethod) (policy : TokenPolicy)
  : list StorePaymentMethod :=
  List.filter (fun pm =>
    let matches_entry := existsb (fun e : string * option string =>
      String.eqb e.1 (spm_chain_id pm) && bool_decide (e.2 = spm_token_address pm)) (tp_entries policy) in
    match tp_mode policy with Allowlist => matches_entry | Blocklist => negb matches_entry end) payment_methods.

(** [Map::remove] on an object *)
Definition json_remove (key : string) (v : Json) : option Json * Json :=
  match v with
  | JObject fields => (assoc key fields, JObject (List.filter (fun kv => negb (String.eqb kv.1 key)) fields))
  | _ => (None, v)
  end.

(** The [or_else] of [create_invoice]: the address lifted out of the metadata. *)
Definition lift_customer_email (customer_email : option string) (metadata : option Json) : option string * option Json :=
  match customer_email, metadata with
  | Some e, _ => (Some e, metadata)
  | None, None => (None, None)
  | None, Some m =>
      let '(v, m) := match json_remove "customer_email" m with
                     | (Some v, m) => (Some v, m)
                     | (None, m) => json_remove "buyer_email" m
                     end in
      (match v with Some (JString s) => Some s | _ => None end, Some m)
  end.

(** [eip155_for_watch] *)
Definition eip155_for_watch `{Formats} (chain_id : string) : option Z := evm_chain_id chain_id.

(** ** Statements *)

(** [UserStoreRepository::user_has_store_permission] *)
Definition user_has_store_permission (user_id store_id : Uuid) (permission : string) : WStatement bool :=
  wselect (fun d =>
    match (role ← mb_user_stores (wd_members d) !! (user_id, store_id); mb_store_roles (wd_members d) !! role) with
    | Some permissions => contains permissions permission
    | None => false
    end).

(** [StoreRepository::get_store], its owner and archived flag *)
Definition get_store_row (store_id : Uuid) : WStatement (option StoreRow) := wselect (fun d => wd_stores d !! store_id).

(** The two queries of [get_token_policy] *)
Definition token_policy_mode (store_id : Uuid) : WStatement (option TokenPolicyMode) :=
  wselect (fun d => tp_mode <$> mb_token_policies (wd_members d) !! store_id).
Definition token_policy_entries (store_id : Uuid) : WStatement (list (string * option string)) :=
  wselect (fun d => default [] (tp_entries <$> mb_token_policies (wd_members d) !! store_id)).

Section Invoicing.
Context {R : Type} `{RustDecimal R} `{!InvoiceHost R}.
Context `{Runtime} `{Numeric} `{Formats} `{HdKeys} `{PolicyNames} `{UuidText}.
(** The environment, and the state of the application. *)
Context (var : string -> option string) (invoice_creation_filters : list InvoiceCreationFilter) (evm_monitor : bool).

Abbreviation Handler A := (St Site ApiError A).

Definition internal (message : string) : ApiError := invoice_error 500 "internal_error" message.

(** [StoreTokenPolicyReader::get_token_policy] *)
Definition get_token_policy (store_id : Uuid) : St Site RepositoryError (option TokenPolicy) :=
  let* mode := wdb (token_policy_mode store_id) in
  match mode with
  | None => st_ret None
  | Some mode => let* entries := wdb (token_policy_entries store_id) in st_ret (Some (mkTokenPolicy mode entries))
  end.

(** [ValidatedMethod] *)
Definition ValidatedMethod : Type := nat * string * option string * option Instant.

(** One turn of the validation loop of [create_invoice]: a skipped method adds
    nothing. *)
Definition validate_method (req : CreateInvoiceRequest) (acc : list ValidatedMethod) (im : nat * StorePaymentMethod)
  : Handler (list ValidatedMethod) :=
  let '(idx, payment_method) := im in
  if String.eqb (to_uppercase (cr_currency req)) (to_uppercase (spm_asset_symbol payment_method)) then
    if is_fiat_currency (cr_currency req) then st_ret acc
    else
      match convert_human_to_smallest_unit (R:=R) (cr_amount req) (spm_decimals payment_method) with
      | Err _ => st_throw (invoice_error 400 "invalid_amount" "Invalid amount format")
      | Ok amount => st_ret (acc ++ [(idx, amount, None, None)])
      end
  else
    let* tick_no := st_gets (fun s => sv_ticks (st_server s)) in
    do* on_server (st_modify tick);
    match get_rate tick_no (cr_currency req) (spm_asset_symbol payment_method) with
    | Ok (rate, timestamp) =>
        let* now := on_server utc_now in
        if rd_leb rate rd_zero
        then st_throw (invoice_error 503 "invalid_rate" "Received invalid exchange rate, please try again later")
        else if is_stale now timestamp (rate_stale_reject_secs var)
        then st_throw (invoice_error 503 "rate_stale" "Exchange rate data is too old, please try again later")
        else
          match convert_to_crypto_smallest_unit (cr_amount req) rate (spm_decimals payment_method) with
          | Err _ => st_throw (invoice_error 400 "conversion_error" "Invalid amount or conversion error")
          | Ok amount => st_ret (acc ++ [(idx, amount, Some (rd_to_string rate), Some timestamp)])
          end
    | Err UnsupportedPair => st_ret acc
    | Err (RateUnavailable _) =>
        st_throw (invoice_error 503 "rate_unavailable" "Exchange rate service is unavailable, please try again later")
    end.

(** [DerivedOption] *)
Record DerivedOption := mkDerivedOption {
  do_option : PaymentOptionData;
  do_address : Address;
  do_expected_amount : option U256;
  do_token_contract : option Address
}.

(** [derive_payment_address] *)
Definition derive_payment_address (payment_method : StorePaymentMethod) : Handler (Address * DerivationAllocation) :=
  let* allocation :=
    st_map_err (fun e => match e with
      | NotFound _ => invoice_error 409 "no_receiving_key"
          ("This store's payment method has no receiving key for " +:+ spm_chain_id payment_method +:+
           " to derive an address from. Add one on the Wallets page, or set a key on the payment method.")
      | _ => internal "Failed to allocate payment address"
      end) (wdb (allocate_derivation (spm_id payment_method))) in
  match from_xpub (da_namespace allocation) (da_xpub allocation) with
  | Err _ => st_throw (internal "Failed to derive payment address")
  | Ok deriver =>
      match derive_evm_address deriver (da_index allocation) with
      | Err _ => st_throw (invoice_error 409 "unsupported_chain"
          "This store's payment method is on a chain this server cannot yet watch for payments. Disable it, or use a chain with a registered adapter.")
      | Ok address => st_ret (address, allocation)
      end
  end.

(** [derive_one_payment_option] *)
Definition derive_one_payment_option (invoice : InvoiceData) (payment_method : StorePaymentMethod)
    (crypto_amount : string) (rate_str : option string) (rate_at : option Instant) : Handler DerivedOption :=
  let* (address, allocation) := derive_payment_address payment_method in
  let* id := on_server fresh in
  let* now := on_server utc_now in
  let option := {|
    pod_id := id;
    pod_invoice_id := id_id invoice;
    pod_payment_method_id := payment_method_id_new (spm_asset_symbol payment_method) (spm_chain_id payment_method);
    pod_chain_id := spm_chain_id payment_method;
    pod_asset_symbol := spm_asset_symbol payment_method;
    pod_token_address := spm_token_address payment_method;
    pod_decimals := spm_decimals payment_method;
    pod_payment_address := fmt_address address;
    pod_wallet_id := Some (da_wallet_id allocation);
    pod_derivation_index := Some (da_index allocation);
    pod_amount := crypto_amount;
    pod_rate := rate_str;
    pod_rate_at := rate_at;
    pod_is_active := true;
    pod_created_at := now |} in
  st_ret {| do_option := option;
            do_address := address;
            do_expected_amount := parse_u256 crypto_amount;
            do_token_contract := t ← spm_token_address payment_method; parse_address t |}.

(** The loop of [derive_payment_options]; the index was taken from the same
    list. *)
Definition derive_payment_options (invoice : InvoiceData) (payment_methods : list StorePaymentMethod)
    (validated_methods : list ValidatedMethod) : Handler (list DerivedOption) :=
  st_fold (fun acc '(idx, amount, rate, rate_at) =>
    match payment_methods !! (idx : nat) with
    | None => st_throw (internal "index out of bounds")
    | Some pm =>
        let* d := derive_one_payment_option invoice pm amount rate rate_at in
        st_ret (acc ++ [d])
    end) [] validated_methods.

(** [notify_evm_watch] *)
Definition notify_evm_watch {E} (invoice_id payment_address chain_id : string) (token_address : option string)
    (address : Address) (expected_amount : option U256) (token_contract : option Address) : M E unit :=
  match eip155_for_watch chain_id with
  | None => st_ret tt
  | Some eip155 =>
      if negb evm_monitor then st_ret tt
      else
        match parse_uuid invoice_id with
        | None => st_ret tt
        | Some invoice_uuid =>
            let* r := st_try (watch_address_by_chain_id eip155 address invoice_uuid expected_amount token_contract) in
            match r with
            | Ok _ => do* st_try (db (mark_notified payment_address chain_id token_address)); st_ret tt
            | Err _ => st_ret tt
            end
        end
  end.

(** [notify_monitor_for] *)
Definition notify_monitor_for {E} (invoice : InvoiceData) (derived : list DerivedOption) : M E unit :=
  st_for derived (fun d =>
    notify_evm_watch (id_id invoice) (pod_payment_address (do_option d)) (pod_chain_id (do_option d))
      (pod_token_address (do_option d)) (do_address d) (do_expected_amount d) (do_token_contract d)).

Definition CREATE_INVOICE : string := "ethpay.store.cancreateinvoice".

(** The checks of [create_invoice] before anything is read of the payment
    methods. *)
Definition create_gates (caller : Caller) (req : CreateInvoiceRequest) : Handler unit :=
  let* allowed := st_map_err (fun _ => internal "Failed to check store permissions")
                    (wdb (user_has_store_permission (ca_user caller) (cr_store_id req) CREATE_INVOICE)) in
  if negb ((allowed : bool) && key_grants_store_permission (ca_key_scope caller) CREATE_INVOICE (cr_store_id req))
  then st_throw (invoice_error 403 "forbidden" "Insufficient permissions to create invoices for this store")
  else
  let* store := st_try (wdb (get_store_row (cr_store_id req))) in
  do* (match store with
       | Ok (Some s) => if so_archived s
                        then st_throw (invoice_error 409 "store_archived" "This store is archived and cannot receive new invoices")
                        else st_ret tt
       | Ok None => st_ret tt
       | Err _ => st_throw (internal "Failed to load store")
       end);
  let* account_id :=
    (if ca_is_operator caller || bool_decide (length invoice_creation_filters = 0%nat) then st_ret None
     else
       let* store := st_try (wdb (get_store_row (cr_store_id req))) in
       match store with
       | Ok (Some s) => st_ret (Some (so_owner_id s))
       | _ => st_throw (internal "Could not identify the account that owns this store")
       end) in
  match account_id with
  | None => st_ret tt
  | Some account_id =>
      match run_invoice_creation_filters invoice_creation_filters (cr_store_id req) account_id with
      | Allow => st_ret tt
      | Deny reason => st_throw (invoice_error 403 "invoice_creation_blocked" reason)
      end
  end.

(** The methods an invoice is quoted in. *)
Definition load_methods (req : CreateInvoiceRequest) : Handler (list StorePaymentMethod) :=
  let* payment_methods := st_map_err (fun _ => internal "Failed to load payment methods")
                            (wdb (get_enabled_payment_methods (cr_store_id req))) in
  let* policy := st_map_err (fun _ => internal "Failed to load token policy") (get_token_policy (cr_store_id req)) in
  let payment_methods := match policy with Some p => apply_token_policy_filter payment_methods p | None => payment_methods end in
  if bool_decide (length payment_methods = 0%nat)
  then st_throw (invoice_error 400 "no_payment_methods"
         "Store has no enabled payment methods. Configure at least one payment method before creating invoices.")
  else if store_has_no_wallet payment_methods
  then st_throw (invoice_error 400 "no_wallet"
         "This store has no wallet to receive payments. Add a wallet on the Wallets page before creating an invoice.")
  else st_ret payment_methods.

(** [create_invoice]; it answers with the invoice and its options. *)
Definition create_invoice (caller : Caller) (req : CreateInvoiceRequest) : Handler (InvoiceData * list PaymentOptionData) :=
  do* create_gates caller req;
  let* payment_methods := load_methods req in
  let* validated_methods := st_fold (validate_method req) [] (imap (fun i pm => (i, pm)) payment_methods) in
  if bool_decide (length validated_methods = 0%nat)
  then st_throw (invoice_error 422 "no_supported_pairs" "No payment methods support the requested invoice currency")
  else
  let* now := on_server utc_now in
  let expires_at := now + seconds (u64_as_i64 (default DEFAULT_INVOICE_EXPIRATION_SECS (cr_expiration_seconds req))) in
  let '(customer_email, metadata) := lift_customer_email (cr_customer_email req) (cr_metadata req) in
  let* id := on_server fresh in
  let* created_at := on_server utc_now in
  let invoice := {|
    id_id := new_invoice_id id;
    id_store_id := cr_store_id req;
    id_currency := cr_currency req;
    id_status := Pending;
    id_amount := cr_amount req;
    id_amount_received := "0";
    id_created_at := created_at;
    id_expires_at := expires_at;
    id_metadata := metadata;
    id_customer_email := customer_email |} in
  let* derived := derive_payment_options invoice payment_methods validated_methods in
  let options := do_option <$> derived in
  do* st_map_err (fun _ => internal "Failed to create invoice")
        (on_server (create_invoice_with_options invoice options));
  do* on_server (notify_monitor_for invoice derived);
  st_ret (invoice, options).
End Invoicing.

(** ** Cancelling *)

Section Cancel.
Context `{Runtime} `{Numeric} `{Formats} `{ApiTypes} `{!JobCodec}.
(** The event type [InvoiceCancelled], and whether webhooks are configured. *)
Context (InvoiceCancelledEvent : WebhookEventType) (webhook_sink : bool).

Definition can_cancel (status : InvoiceStatus) : bool := is_open status.

(** [cancel_invoice], for an administrator; its error is the status. *)
Definition cancel_invoice (id : string) : M Z InvoiceData :=
  let* r := st_map_err (fun _ => 500) (db (invoice_get id)) in
  match r with
  | None => st_throw 404
  | Some invoice =>
      if negb (can_cancel (id_status invoice)) then st_throw 400
      else
        do* st_map_err (fun _ => 500) (db (update_status id Cancelled));
        do* st_try (db (deactivate_for_invoice id));
        let cancelled := mkInvoiceData (id_id invoice) (id_store_id invoice) (id_currency invoice) Cancelled
          (id_amount invoice) (id_amount_received invoice) (id_created_at invoice) (id_expires_at invoice)
          (id_metadata invoice) (id_customer_email invoice) in
        let* n := st_gets sv_uuids in
        do* (if webhook_sink
             then st_bind (queue_for_store (id_store_id cancelled) (invoice_event n InvoiceCancelledEvent cancelled))
                    (fun _ => st_ret tt)
             else st_ret tt);
        do* st_try (db (payment_options_for_invoice id));
        st_ret cancelled
  end.
End Cancel.
