(* ===== verification/InvoiceFacts.v ===== *)
(** * What creating and cancelling an invoice does

    The creating transaction first, then the gates of the handler, then
    cancelling. *)

From stdpp Require Import gmap strings list sorting.
From Stdlib Require Import ZArith Lia.
From S2P Require Import Prelude Events Network Decimal Database Services Invoicing WatchRetry LiveWatch Wallets WalletFacts WalletRouting Derivation Quotes.
From S2P Require Import ApiKeys Coordinator Commands CoordinatorFacts MonitorProcess WatchReconcile.

Section Pure.
Context `{Numeric}.

(** The statements of the transaction on the tables it began with. *)
Definition option_written (began expires_at : Instant) (d : Db) (o : PaymentOptionData) : option Db :=
  match insert_payment_option o began d with
  | (Ok _, d') => Some (snd (upsert_watched_address expires_at (pod_payment_address o) (pod_id o) (pod_chain_id o)
                               (pod_token_address o) began d'))
  | (Err _, _) => None
  end.

Fixpoint options_written (began expires_at : Instant) (d : Db) (options : list PaymentOptionData) : option Db :=
  match options with
  | [] => Some d
  | o :: options => d ← option_written began expires_at d o; options_written began expires_at d options
  end.

Definition invoice_written (began : Instant) (invoice : InvoiceData) (options : list PaymentOptionData) (d : Db) : option Db :=
  match insert_invoice invoice began d with
  | (Ok _, d') => options_written began (id_expires_at invoice) d' options
  | (Err _, _) => None
  end.

(** A watch row of an option. *)
Definition watches_option (o : PaymentOptionData) (w : WatchRow) : Prop :=
  wr_is_active w = true /\ wr_payment_option_id w = pod_id o /\ wr_chain_id w = pod_chain_id o /\
  wr_token_address w = pod_token_address o /\
  to_lowercase (wr_address w) = to_lowercase (pod_payment_address o).

Definition asset_key (o : PaymentOptionData) : string * option string := (pod_chain_id o, pod_token_address o).

Lemma conflict_key address chain token w :
  watch_conflict address chain token w = true ->
  wr_chain_id w = chain /\ wr_token_address w = token /\ to_lowercase (wr_address w) = to_lowercase address.
Proof.
  unfold watch_conflict. intros [->%String.eqb_eq Hm]%andb_true_iff. split; [done|].
  destruct token as [t|]; apply andb_true_iff in Hm as [Ha%String.eqb_eq Ht%bool_decide_eq_true]; split; congruence.
Qed.

Lemma upsert_watch_new expires address po chain token now d :
  exists w, w ∈ db_watched (snd (upsert_watched_address expires address po chain token now d)) /\
    wr_is_active w = true /\ wr_monitor_notified w = false /\ wr_payment_option_id w = po /\ wr_chain_id w = chain /\ wr_token_address w = token /\
    to_lowercase (wr_address w) = to_lowercase address.
Proof.
  cbn. destruct (existsb _ (db_watched d)) eqn:He.
  - apply existsb_exists in He as (w & Hin & Hw). apply list_elem_of_In in Hin.
    exists (repoint_watch po expires w). split; [|by apply conflict_key in Hw as (? & ? & ?)].
    apply list_elem_of_fmap. exists w. by rewrite Hw.
  - eexists. split; [apply elem_of_app; right; by apply list_elem_of_singleton|]. done.
Qed.

Lemma upsert_watch_keeps expires address po chain token now d w :
  w ∈ db_watched d -> (wr_chain_id w, wr_token_address w) <> (chain, token) ->
  w ∈ db_watched (snd (upsert_watched_address expires address po chain token now d)).
Proof.
  intros Hin Hk. cbn. destruct (existsb _ (db_watched d)); [|apply elem_of_app; by left].
  apply list_elem_of_fmap. exists w. split; [|done]. destruct (watch_conflict address chain token w) eqn:Hc; [|done].
  apply conflict_key in Hc as (Hch & Htk & _). by rewrite Hch, Htk in Hk.
Qed.

(** One option: its row is new, everything else but the watches stays. *)
Lemma option_written_spec began expires d o d' :
  option_written began expires d o = Some d' ->
  db_invoices d' = db_invoices d /\ db_payments d' = db_payments d /\ db_stores d' = db_stores d /\
  db_payment_options d !! pod_id o = None /\
  (exists row, db_payment_options d' = <[pod_id o := row]> (db_payment_options d) /\
     po_invoice_id row = pod_invoice_id o /\ po_payment_address row = pod_payment_address o /\
     Some (po_amount row) = z_parse (pod_amount o) /\ po_wallet_id row = pod_wallet_id o /\
     po_derivation_index row = pod_derivation_index o) /\
  (exists w, w ∈ db_watched d' /\ watches_option o w /\ wr_monitor_notified w = false) /\
  (forall w, w ∈ db_watched d -> (wr_chain_id w, wr_token_address w) <> asset_key o -> w ∈ db_watched d').
Proof.
  unfold option_written, insert_payment_option.
  destruct (z_parse (pod_amount o)) as [amount|] eqn:Ha; [|done]. destruct (match pod_rate o with Some _ => _ | None => _ end) as [rate|]; [|done].
  destruct (db_payment_options d !! pod_id o) eqn:Hpo; [done|]. cbn [option_is_some].
  destruct (option_is_none _); [done|]. destruct (existsb _ _); [done|]. intros [= <-].
  destruct (upsert_watch_new expires (pod_payment_address o) (pod_id o) (pod_chain_id o) (pod_token_address o) began
    (db_set_payment_options (<[pod_id o := option_row o amount rate]> (db_payment_options d)) d)) as (w & Hw & Hact & Hnot & Hrest).
  do 4 (split; [done|]). split; [by eexists|]. split.
  - exists w. split; [exact Hw|]. by split.
  - intros v Hv Hk. apply (upsert_watch_keeps _ _ _ _ _ _ (db_set_payment_options _ d)); [exact Hv | exact Hk].
Qed.

Lemma options_written_spec began expires options d d' :
  NoDup (asset_key <$> options) -> options_written began expires d options = Some d' ->
  db_invoices d' = db_invoices d /\ db_payments d' = db_payments d /\ db_stores d' = db_stores d /\
  NoDup (pod_id <$> options) /\
  (forall o, o ∈ options -> db_payment_options d !! pod_id o = None /\ exists row, db_payment_options d' !! pod_id o = Some row /\
     po_invoice_id row = pod_invoice_id o /\ po_payment_address row = pod_payment_address o /\
     Some (po_amount row) = z_parse (pod_amount o) /\ po_wallet_id row = pod_wallet_id o /\
     po_derivation_index row = pod_derivation_index o) /\
  (forall i, i ∉ pod_id <$> options -> db_payment_options d' !! i = db_payment_options d !! i) /\
  (forall o, o ∈ options -> exists w, w ∈ db_watched d' /\ watches_option o w /\ wr_monitor_notified w = false) /\
  (forall w, w ∈ db_watched d -> (wr_chain_id w, wr_token_address w) ∉ asset_key <$> options -> w ∈ db_watched d').
Proof.
  revert d. induction options as [|o options IH]; intros d Hnd Hw.
  { injection Hw as <-. split; [done|]. split; [done|]. split; [done|]. split; [apply NoDup_nil_2|].
    split; [intros o Ho; by apply not_elem_of_nil in Ho|]. split; [done|].
    split; [intros o Ho; by apply not_elem_of_nil in Ho | done]. }
  rewrite fmap_cons in Hnd. apply NoDup_cons in Hnd as [Hno Hnd]. cbn in Hw. apply bind_Some in Hw as (d1 & H1 & Hw).
  apply option_written_spec in H1 as (Hi1 & Hp1 & Hs1 & Hfresh & (row & Hrow & Hrest) & (w & Hw1 & Hwo & Hwn) & Hk1).
  destruct (IH d1 Hnd Hw) as (Hi & Hp & Hs & Hndi & Hos & Hoth & Hws & Hkeep). clear IH.
  rewrite Hi, Hp, Hs. do 3 (split; [done|]).
  assert (Hnew : pod_id o ∉ pod_id <$> options).
  { intros (o' & Heq & Hin)%list_elem_of_fmap. destruct (Hos o' Hin) as [Hn _]. by rewrite Hrow, <-Heq, lookup_insert_eq in Hn. }
  split; [rewrite fmap_cons; by apply NoDup_cons|]. split; [|split; [|split]].
  - intros o' [->|Hin]%elem_of_cons; [split; [done|]; exists row; by rewrite Hoth, Hrow, lookup_insert_eq|].
    destruct (Hos o' Hin) as [Hn Hr]. split; [|done]. rewrite Hrow in Hn. by apply lookup_insert_None in Hn as [Hn _].
  - intros i [Hne Hni]%not_elem_of_cons. rewrite Hoth by done. rewrite Hrow. by rewrite lookup_insert_ne.
  - intros o' [->|Hin]%elem_of_cons; [|by apply Hws]. exists w. split; [|done]. apply Hkeep; [done|].
    by destruct Hwo as (_ & _ & -> & -> & _).
  - intros v Hv [Hne Hni]%not_elem_of_cons. apply Hkeep; [|done]. by apply Hk1.
Qed.

(** The whole transaction. *)
Lemma invoice_written_spec began invoice options d d' :
  NoDup (asset_key <$> options) -> invoice_written began invoice options d = Some d' ->
  db_invoices d !! id_id invoice = None /\
  (exists row, db_invoices d' = <[id_id invoice := row]> (db_invoices d) /\ inv_status row = id_status invoice /\
     inv_store_id row = id_store_id invoice /\ Some (inv_amount row) = numeric18_in (id_amount invoice) /\
     inv_expires_at row = id_expires_at invoice) /\
  db_payments d' = db_payments d /\
  (forall o, o ∈ options -> exists row, db_payment_options d' !! pod_id o = Some row /\
     po_invoice_id row = pod_invoice_id o /\ po_payment_address row = pod_payment_address o /\
     Some (po_amount row) = z_parse (pod_amount o) /\ po_wallet_id row = pod_wallet_id o /\
     po_derivation_index row = pod_derivation_index o) /\
  (forall i, i ∉ pod_id <$> options -> db_payment_options d' !! i = db_payment_options d !! i) /\
  (forall o, o ∈ options -> exists w, w ∈ db_watched d' /\ watches_option o w /\ wr_monitor_notified w = false).
Proof.
  intros Hnd. unfold invoice_written, insert_invoice.
  destruct (numeric18_in (id_amount invoice)) as [a|] eqn:Ha; [|done].
  destruct (numeric18_in (id_amount_received invoice)) as [rv|]; [|done].
  destruct (db_invoices d !! id_id invoice) eqn:Hi; [done|]. cbn [option_is_some]. destruct (option_is_none _); [done|].
  intros Hw%options_written_spec; [|done]. destruct Hw as (Hinv & Hp & _ & _ & Hos & Hoth & Hws & _).
  split; [done|]. rewrite Hinv, Hp. split; [by eexists|]. split; [done|]. split; [|split; done].
  intros o Ho. by destruct (Hos o Ho).
Qed.
End Pure.

(** ** The program *)

Section Program.
Context `{Runtime} `{Numeric}.

(** A statement on the transaction's copy: the server's tables stay. *)
Lemma tx_statement_triple {A} began (stmt : Statement A) buf (P : Db -> Prop) (J : A * Db -> Prop) :
  (forall a buf', stmt began buf = (Ok a, buf') -> J (a, buf')) ->
  triple (fun s => P (sv_db s)) (tx_statement began stmt buf) (fun r s => P (sv_db s) /\ J r) (fun s => P (sv_db s)).
Proof.
  intros HJ s Hs. unfold tx_statement, exchange. destruct (calls (sv_ticks s)); cbn; destruct (stmt began buf) as [[a|e] buf'] eqn:Hst; cbn; auto.
Qed.

Lemma write_option_triple began expires buf o (P : Db -> Prop) :
  triple (fun s => P (sv_db s)) (write_option began expires buf o)
    (fun tx s => P (sv_db s) /\ option_written began expires buf o = Some tx) (fun s => P (sv_db s)).
Proof.
  unfold write_option. eapply triple_bind.
  { apply (tx_statement_triple _ _ _ P (fun r => insert_payment_option o began buf = (Ok r.1, r.2))). by intros [] buf' ?. }
  intros [u tx]. intros s [Hs Hst]. cbn in Hst.
  pose proof (tx_statement_triple began (upsert_watched_address expires (pod_payment_address o) (pod_id o) (pod_chain_id o)
    (pod_token_address o)) tx P (fun r => option_written began expires buf o = Some r.2)) as Ht.
  specialize (Ht ltac:(intros a b Hu; unfold option_written; rewrite Hst; by rewrite Hu) s Hs).
  unfold st_bind. destruct (tx_statement _ _ _ s) as [[[a b]|e] s']; cbn in *; exact Ht.
Qed.

Lemma write_options_triple began expires options buf (P : Db -> Prop) :
  triple (fun s => P (sv_db s)) (st_fold (write_option began expires) buf options)
    (fun tx s => P (sv_db s) /\ options_written began expires buf options = Some tx) (fun s => P (sv_db s)).
Proof.
  revert buf. induction options as [|o options IH]; intros buf; cbn [st_fold]; [by apply triple_ret|].
  eapply triple_bind; [apply write_option_triple|]. intros tx s [Hs Ho]. specialize (IH tx s Hs). cbn.
  rewrite Ho. cbn. exact IH.
Qed.

(** The transaction commits as a whole or leaves the tables as they were. *)
Lemma create_tx_triple invoice options d :
  triple (fun s => sv_db s = d) (create_invoice_with_options invoice options)
    (fun _ s => exists began, invoice_written began invoice options d = Some (sv_db s))
    (fun s => sv_db s = d \/ exists began, invoice_written began invoice options d = Some (sv_db s)).
Proof.
  set (F := fun s => sv_db s = d \/ exists began, invoice_written began invoice options d = Some (sv_db s)).
  assert (HF : forall s, sv_db s = d -> F s) by (intros s Hs; by left).
  unfold create_invoice_with_options. apply (triple_bind F _ _ (fun _ s => sv_db s = d)); [by intros s Hs|]. intros began.
  apply (triple_bind F _ _ (fun tx s => sv_db s = d /\ tx = d)).
  { intros s Hs. unfold exchange. destruct (calls _); cbn; auto. }
  intros tx s [Hs ->]. revert s Hs. change (triple (fun s => sv_db s = d)
    (st_bind (tx_statement began (insert_invoice invoice) d) (fun '(_, tx) =>
       st_bind (st_fold (write_option began (id_expires_at invoice)) tx options) (fun tx => exchange db_lost (st_modify (set_db tx)))))
    (fun _ s => exists began, invoice_written began invoice options d = Some (sv_db s)) F).
  apply (triple_bind F _ _ (fun r s => sv_db s = d /\ insert_invoice invoice began d = (Ok r.1, r.2))).
  { intros s Hs. pose proof (tx_statement_triple began (insert_invoice invoice) d (fun x => x = d)
      (fun r => insert_invoice invoice began d = (Ok r.1, r.2)) ltac:(by intros [] b Hb) s Hs) as Ht.
    destruct (tx_statement _ _ _ s) as [[r|e] s']; [exact Ht | by apply HF]. }
  intros [u tx]. cbn. intros s [Hs Hins].
  pose proof (write_options_triple began (id_expires_at invoice) options tx (fun x => x = d) s Hs) as Ht.
  unfold st_bind. destruct (st_fold _ _ _ s) as [[tx'|e] s1]; [|by apply HF]. destruct Ht as [Hs1 Hw].
  assert (Hdone : invoice_written began invoice options d = Some tx') by (unfold invoice_written; by rewrite Hins).
  unfold exchange. destruct (calls (sv_ticks s1)); cbn; [by exists began | by apply HF | right; by exists began].
Qed.
End Program.

(** * Invoice creation is gated, atomic and watched *)

(** ** A store has one method per chain and token *)

Definition method_key (m : MethodRow) : Z * string * option string := (pm_store_id m, pm_chain_id m, pm_token_address m).

Definition methods_unique (d : WalletDb) : Prop :=
  forall i j m v, wd_methods d !! i = Some m -> wd_methods d !! j = Some v -> method_key m = method_key v -> i = j.

Lemma unique_map d d' (g : Z -> MethodRow -> MethodRow) :
  (forall i, wd_methods d' !! i = g i <$> wd_methods d !! i) -> (forall i m, method_key (g i m) = method_key m) ->
  methods_unique d -> methods_unique d'.
Proof.
  intros Hg Hk Hu i j m v Hi Hj Heq. rewrite Hg in Hi, Hj. apply fmap_Some in Hi as (m0 & Hm & ->), Hj as (v0 & Hv & ->).
  rewrite !Hk in Heq. by apply (Hu i j m0 v0).
Qed.

Lemma unique_same d d' : wd_methods d' = wd_methods d -> methods_unique d -> methods_unique d'.
Proof. intros Hm. unfold methods_unique. by rewrite Hm. Qed.

Lemma unpin_key store ns m : method_key (unpin store ns m) = method_key m.
Proof. unfold unpin. by destruct (_ && _). Qed.

Lemma unique_unpin store ns sw d :
  methods_unique d -> methods_unique (wd_set_methods (unpin store ns <$> wd_methods d) (wd_set_store_wallets sw d)).
Proof. apply (unique_map _ _ (fun _ => unpin store ns)); [intros i; apply lookup_fmap | intros; apply unpin_key]. Qed.

Lemma unique_insert d i m :
  (forall j v, wd_methods d !! j = Some v -> method_key v = method_key m -> j = i) ->
  methods_unique d -> methods_unique (wd_set_methods (<[i := m]> (wd_methods d)) d).
Proof.
  intros Hi Hu j l v w Hj Hl Hk. cbn in Hj, Hl. apply lookup_insert_Some in Hj as [[<- <-]|[_ Hj]], Hl as [[<- <-]|[_ Hl]].
  - done.
  - symmetry. by apply (Hi l w).
  - by apply (Hi j v).
  - by apply (Hu j l v w).
Qed.

Lemma insert_method_unique id store chain token symbol decimals wid now d :
  methods_unique d -> methods_unique (snd (insert_payment_method id store chain token symbol decimals wid now d)).
Proof.
  intros Hu. unfold insert_payment_method. destruct (negb _); [done|].
  destruct (head _) as [[j m]|] eqn:Hh.
  - cbn [snd]. apply unique_insert; [|done]. intros l v Hl Hk.
    apply head_Some_elem_of, elem_of_filter_b in Hh as [Hc Hin]. apply elem_of_map_to_list in Hin. cbn in Hc.
    apply andb_true_iff in Hc as [[Hs%Z.eqb_eq Hch%String.eqb_eq]%andb_true_iff Ht%bool_decide_eq_true].
    apply (Hu l j v m); [done..|]. rewrite Hk. unfold method_key. cbn. congruence.
  - case_bool_decide as Hid; [done|]. cbn [snd]. apply unique_insert; [|done]. intros l v Hl Hk. exfalso.
    injection Hk as Hs Hch Ht. assert (Hin : (l, v) ∈ List.filter (fun im : Z * MethodRow => (pm_store_id im.2 =? store)
      && String.eqb (pm_chain_id im.2) chain && same_token_column (pm_token_address im.2) token) (map_to_list (wd_methods d))).
    { apply elem_of_filter_b. split; [|by apply elem_of_map_to_list]. cbn. rewrite Hs, Hch, Ht.
      unfold same_token_column. by rewrite Z.eqb_refl, String.eqb_refl, bool_decide_true. }
    destruct (List.filter _ _); [by apply not_elem_of_nil in Hin | done].
Qed.

Lemma pins_moved_key new mts i m : method_key (pins_moved new mts i m) = method_key m.
Proof. unfold pins_moved. by destruct (existsb _ _). Qed.

Lemma rotate_unique id store only ns xpub reason now d :
  methods_unique d -> methods_unique (snd (rotate_methods id store only ns xpub reason now d)).
Proof.
  intros Hu. destruct (rotate_methods id store only ns xpub reason now d) as [[rs|e] d'] eqn:Hr.
  - apply rotate_run in Hr as (s & new & w & d1 & mts & _ & _ & _ & _ & _ & _ & _ & Hms & _).
    eapply unique_map; [exact Hms | intros; apply pins_moved_key | done].
  - revert Hr. unfold rotate_methods. destruct (wd_stores d !! store); [|by intros [= _ <-]].
    by destruct (create_wallet _ _ _ _ _ _ _) as [[[new w]|e'] d1]; intros [= _ <-].
Qed.

(** Every statement of the wallet tables keeps the methods unique. *)
Lemma apply_op_unique op now d : methods_unique d -> methods_unique (apply_op op now d).
Proof.
  intros Hu. destruct op; cbn [apply_op].
  - destruct (create_wallet _ _ _ _ _ _ _) as [r d'] eqn:Hc. apply (unique_same d); [|done]. cbn. by apply create_wallet_frame in Hc as (_ & -> & _).
  - unfold wallet_for_store_xpub. destruct (wd_stores d !! store_id); [|done].
    destruct (create_wallet _ _ _ _ _ _ _) as [[[i w]|e] d'] eqn:Hc; apply (unique_same d); try done; cbn;
      by apply create_wallet_frame in Hc as (_ & -> & _).
  - unfold rename_wallet. by destruct (wd_wallets d !! wallet_id).
  - unfold set_primary_wallet. destruct (wd_wallets d !! wallet_id); [|done]. by destruct (_ =? _).
  - unfold delete_wallet. case_bool_decide; [|done]. by destruct (wallet_in_use wallet_id d).
  - unfold set_store_wallet. destruct (wd_stores d !! store_id); [|done]. destruct (wd_wallets d !! wallet_id); [|done].
    destruct (_ =? _); [|done]. by apply unique_unpin.
  - unfold clear_store_wallet. destruct (wd_stores d !! store_id); [|done]. by apply unique_unpin.
  - unfold next_derivation_index, advance_counter. destruct (wd_wallets d !! wallet_id); [|done]. by destruct (_ =? _).
  - unfold allocate_derivation, advance_counter. destruct (m ← _; _) as [[i w]|]; [|done]. by destruct (_ =? _).
  - by apply insert_method_unique.
  - unfold update_method_row. destruct (wd_methods d !! id) as [m|] eqn:Hm; [|done]. destruct (negb _); [done|]. cbn [snd].
    apply unique_insert; [|done]. intros j v Hj Hk. apply (Hu j id v m); [done..|]. by rewrite Hk.
  - unfold delete_payment_method. case_bool_decide; [|done]. cbn [snd]. intros i j m v. cbn [wd_methods wd_set_methods].
    intros [_ Hi]%lookup_delete_Some [_ Hj]%lookup_delete_Some.
    by apply Hu.
  - by apply rotate_unique.
Qed.

(** ** The handler *)

Create HintDb read_only.

Section Handler.
Context {R : Type} `{RustDecimal R} `{!InvoiceHost R}.
Context `{Runtime} `{Numeric} `{Formats} `{HdKeys} `{PolicyNames} `{UuidText}.
Context (var : string -> option string) (filters : list InvoiceCreationFilter) (evm_monitor : bool).

(** The database and the wallet tables. *)
Definition tables (s : Site) : Db * WalletDb := (sv_db (st_server s), st_wallets s).

(** A program that changes no table. *)
Definition read_only {E A} (m : St Site E A) : Prop := forall t, preserves (fun s => tables s = t) m.

Lemma read_only_bind {E A B} (m : St Site E A) (f : A -> St Site E B) :
  read_only m -> (forall a, read_only (f a)) -> read_only (st_bind m f).
Proof. intros Hm Hf t. apply preserves_bind; [apply Hm | intros a; apply Hf]. Qed.
Lemma read_only_ret {E A} (a : A) : read_only (@st_ret Site E A a).
Proof. intros t. apply preserves_ret. Qed.
Lemma read_only_throw {E A} (e : E) : read_only (@st_throw Site E A e).
Proof. intros t. apply preserves_throw. Qed.
Lemma read_only_gets {E A} (f : Site -> A) : read_only (@st_gets Site E A f).
Proof. intros t. apply preserves_gets. Qed.
Lemma read_only_map_err {E E' A} (f : E -> E') (m : St Site E A) : read_only m -> read_only (st_map_err f m).
Proof. intros Hm t. by apply preserves_map_err. Qed.
Lemma read_only_try {E E' A} (m : St Site E A) : read_only m -> read_only (@st_try Site E A E' m).
Proof. intros Hm t. by apply preserves_try. Qed.
Lemma read_only_fold {E A B} (f : B -> A -> St Site E B) l b : (forall x y, read_only (f x y)) -> read_only (st_fold f b l).
Proof. intros Hf t. apply preserves_fold. intros x y _. apply Hf. Qed.
Lemma read_only_select {A} (f : WalletDb -> A) : read_only (wdb (wselect f)).
Proof. intros t s Hs. unfold wdb. by destruct (calls _). Qed.
Lemma read_only_utc {E} : read_only (on_server (E:=E) utc_now).
Proof. by intros t s Hs. Qed.
Lemma read_only_fresh {E} : read_only (on_server (E:=E) fresh).
Proof. by intros t s Hs. Qed.
Lemma read_only_tick {E} : read_only (on_server (E:=E) (st_modify tick)).
Proof. by intros t s Hs. Qed.
#[local] Hint Resolve read_only_ret read_only_throw read_only_gets read_only_select read_only_utc read_only_fresh
  read_only_tick : read_only.

Ltac read_only_step :=
  match goal with
  | |- read_only (st_bind _ _) => apply read_only_bind; [|intros ?]
  | |- read_only (st_map_err _ _) => apply read_only_map_err
  | |- read_only (st_try _) => apply read_only_try
  | |- read_only (st_fold _ _ _) => apply read_only_fold; intros ? ?
  | |- read_only (match ?x with _ => _ end) => destruct x
  | |- read_only (if ?x then _ else _) => destruct x
  | |- read_only (let '_ := ?x in _) => destruct x
  end.
Ltac read_only_prog := repeat (first [solve [eauto with read_only] | read_only_step]).

Lemma create_gates_read_only caller req : read_only (create_gates filters caller req).
Proof. unfold create_gates, user_has_store_permission, get_store_row. read_only_prog. Qed.

Lemma get_token_policy_read_only store : read_only (get_token_policy store).
Proof. unfold get_token_policy, token_policy_mode, token_policy_entries. read_only_prog. Qed.

Lemma load_methods_read_only req : read_only (load_methods req).
Proof.
  unfold load_methods, get_token_policy, get_enabled_payment_methods, token_policy_mode, token_policy_entries. cbv zeta.
  read_only_prog.
Qed.

Lemma validate_method_read_only req acc im : read_only (validate_method (R:=R) var req acc im).
Proof. unfold validate_method. destruct im as [idx pm]. cbv zeta. read_only_prog. Qed.

(** *** Gates *)

Lemma select_ok {A} (f : WalletDb -> A) s a s' :
  wdb (wselect f) s = (Ok a, s') -> a = f (st_wallets s) /\ tables s' = tables s.
Proof. unfold wdb. destruct (calls _); cbn; try done. by intros [= <- <-]. Qed.

(** The caller's role grants the permission, so does the key; the store takes
    invoices; and no filter refuses, unless the caller is the operator. *)
Definition permitted (d : WalletDb) (caller : Caller) (req : CreateInvoiceRequest) : Prop :=
  fst (user_has_store_permission (ca_user caller) (cr_store_id req) CREATE_INVOICE 0 d) = Ok true /\
  key_grants_store_permission (ca_key_scope caller) CREATE_INVOICE (cr_store_id req) = true /\
  (forall st, wd_stores d !! cr_store_id req = Some st -> so_archived st = false) /\
  (ca_is_operator caller = true \/ filters = [] \/
   exists st, wd_stores d !! cr_store_id req = Some st /\
     run_invoice_creation_filters filters (cr_store_id req) (so_owner_id st) = Allow).

Lemma try_select_ok {A E} (f : WalletDb -> A) s r s' :
  st_try (E' := E) (wdb (wselect f)) s = (Ok r, s') ->
  tables s' = tables s /\ match r with Ok a => a = f (st_wallets s) | Err _ => True end.
Proof.
  unfold st_try, wdb. destruct (calls _); cbn; intros [= <- <-]; done.
Qed.

Lemma gates_permit caller req s s' :
  create_gates filters caller req s = (Ok tt, s') -> permitted (st_wallets s) caller req.
Proof.
  unfold create_gates. intros Hg. inv_ok Hg as allowed s1 Ha Hg. unfold st_map_err in Ha.
  destruct (wdb _ s) as [[al|e] s1'] eqn:Hal; [|done]. injection Ha as -> ->.
  apply select_ok in Hal as [Hal Ht1]. injection Ht1 as _ Hw1.
  destruct (negb _) eqn:Hperm; [done|]. apply negb_false_iff, andb_true_iff in Hperm as [-> Hkey].
  inv_ok Hg as store s2 Hst Hg. apply try_select_ok in Hst as [Ht2 Hst]. injection Ht2 as _ Hw2. rewrite Hw1 in Hst.
  inv_ok Hg as u s3 Harch Hg. split; [by rewrite Hal|]. split; [done|].
  assert (Hnot : (forall st, wd_stores (st_wallets s) !! cr_store_id req = Some st -> so_archived st = false) /\ s3 = s2).
  { destruct store as [[st|]|]; [|injection Harch as _ <-; by rewrite <-Hst|done].
    destruct (so_archived st) eqn:Hst'; [done|]. injection Harch as _ <-. split; [|done]. intros st'. rewrite <-Hst. by intros [= <-]. }
  destruct Hnot as [Hnot ->]. split; [done|]. inv_ok Hg as account s4 Hacc Hg.
  destruct (ca_is_operator caller); [by left|]. case_bool_decide as Hf; cbn [orb] in Hacc.
  { right. left. by apply length_zero_iff_nil. }
  right. right. inv_ok Hacc as st2 s5 Hst2 Hacc. apply try_select_ok in Hst2 as [_ Hst2]. rewrite Hw2, Hw1 in Hst2.
  destruct st2 as [[st|]|]; try done. injection Hacc as <- <-. exists st. split; [by symmetry|].
  by destruct (run_invoice_creation_filters _ _ _).
Qed.

(** C10. An invoice is created, an index consumed or anything else written only
    for a permitted caller: a member whose role grants the permission, through a
    key that grants it on that store, on a store that is not archived, and with
    every plugin filter allowing it or the caller being the operator. *)
Theorem invoice_creation_gated caller req s r s' :
  create_invoice (R:=R) var filters evm_monitor caller req s = (r, s') ->
  tables s' <> tables s \/ is_ok r = true -> permitted (st_wallets s) caller req.
Proof.
  unfold create_invoice. intros Hc Hch. destruct (create_gates filters caller req s) as [[[]|e] s1] eqn:Hg;
    [by eapply gates_permit|].
  exfalso. unfold st_bind in Hc. rewrite Hg in Hc. injection Hc as <- <-.
  pose proof (create_gates_read_only caller req (tables s) s eq_refl) as Ht. rewrite Hg in Ht. cbn in Ht. by destruct Hch.
Qed.
End Handler.

(** * Cancelling closes an open invoice

    What [cancel_invoice] does to the tables when no other session writes the
    invoice between its read and its write. *)

Section Cancel.
Context `{Runtime} `{Numeric} `{Formats} `{ApiTypes} `{!JobCodec}.
Context (InvoiceCancelledEvent : WebhookEventType) (webhook_sink : bool).

(** The invoice became cancelled; nothing but the invoice and the active flags
    of its options changed. *)
Definition cancelled_db (id : string) (d d' : Db) : Prop :=
  exists row, db_invoices d !! id = Some row /\ is_open (inv_status row) = true /\
    db_invoices d' = <[id := set_status Cancelled row]> (db_invoices d) /\
    db_payments d' = db_payments d /\ db_watched d' = db_watched d.

Lemma deactivate_cancelled id now d d' :
  cancelled_db id d d' -> cancelled_db id d (snd (deactivate_for_invoice id now d')).
Proof. done. Qed.

Lemma db_keeps {A} (P : Db -> Prop) (stmt : Statement A) s r s' :
  (forall now d, P d -> P (snd (stmt now d))) -> P (sv_db s) -> db stmt s = (r, s') -> P (sv_db s').
Proof.
  intros Hst Hp. unfold db, exchange. destruct (calls (sv_ticks s)).
  - pose proof (Hst (clock (sv_ticks s)) (sv_db (tick s)) Hp). destruct (stmt _ (sv_db (tick s))) as [x d']. by intros [= <- <-].
  - by intros [= <- <-].
  - pose proof (Hst (clock (sv_ticks s)) (sv_db (tick s)) Hp). destruct (stmt _ (sv_db (tick s))) as [x d']. by intros [= <- <-].
Qed.

Lemma try_db_keeps {A E} (P : Db -> Prop) (stmt : Statement A) s r s' :
  (forall now d, P d -> P (snd (stmt now d))) -> P (sv_db s) -> st_try (E' := E) (db stmt) s = (Ok r, s') -> P (sv_db s').
Proof. intros Hst Hp. unfold st_try. destruct (db stmt s) as [x y] eqn:Hd. intros [= _ <-]. by eapply db_keeps. Qed.

(** A cancellation that answers turned an open invoice, and no other, into a
    cancelled one. *)
Theorem cancel_closes_open_invoice id s invoice s' :
  cancel_invoice InvoiceCancelledEvent webhook_sink id s = (Ok invoice, s') ->
  id_status invoice = Cancelled /\ cancelled_db id (sv_db s) (sv_db s').
Proof.
  unfold cancel_invoice. intros Hc. inv_ok Hc as found s1 Hget Hc.
  unfold st_map_err in Hget. destruct (db (invoice_get id) s) as [[f|e] s1'] eqn:Hdb; [|done]. injection Hget as -> ->.
  assert (found = row_to_invoice id <$> db_invoices (sv_db s) !! id /\ sv_db s1 = sv_db s) as [-> Hs1].
  { unfold db, exchange in Hdb. destruct (calls (sv_ticks s)); try done. cbn in Hdb. injection Hdb as <- <-. done. }
  destruct (db_invoices (sv_db s) !! id) as [row|] eqn:Hrow; [|done]. cbn in Hc.
  destruct (negb _) eqn:Hopen; [done|]. apply negb_false_iff in Hopen.
  inv_ok Hc as u s2 Hup Hc. unfold st_map_err in Hup. destruct (db (update_status id Cancelled) s1) as [[[]|e] s2'] eqn:Hdb2; [|done].
  injection Hup as _ ->. assert (Hc2 : cancelled_db id (sv_db s) (sv_db s2)).
  { unfold db, exchange in Hdb2. destruct (calls (sv_ticks s1)); try done. cbn in Hdb2. unfold update_status in Hdb2.
    rewrite Hs1, Hrow in Hdb2. cbn in Hdb2. injection Hdb2 as <-. exists row. cbn. by rewrite ?Hs1. }
  inv_ok Hc as r3 s3 H3' Hc. apply (try_db_keeps (cancelled_db id (sv_db s))) in H3'; [|intros; by apply deactivate_cancelled|done].
  inv_ok Hc as n s4 Hn Hc. injection Hn as <- <-. inv_ok Hc as v s5 Hq Hc. inv_ok Hc as r6 s6 Ho Hc. injection Hc as <- <-.
  split; [done|]. apply (try_db_keeps (cancelled_db id (sv_db s))) in Ho; [done|done|].
  destruct webhook_sink; [|by injection Hq as _ <-]. inv_ok Hq as q s7 Hqs Hq. injection Hq as _ <-.
  match type of Hqs with queue_for_store ?st ?p _ = _ =>
    pose proof (queue_for_store_keeps (cancelled_db id (sv_db s)) (E := Z) st p s3 H3') as Hk end. by rewrite Hqs in Hk.
Qed.
End Cancel.
