(* ===== verification/InvoiceCreated.v ===== *)
(** * What a created invoice looks like

    Whatever fails during a creation, the database has all of the invoice or
    none of it; a created invoice's addresses come from freshly issued indices
    and are the ones reconciliation expects the monitor to watch. *)

From stdpp Require Import gmap strings list sorting.
From Stdlib Require Import ZArith Lia.
From S2P Require Import Prelude Events Network Decimal Database Services WatchRetry LiveWatch Wallets WalletFacts WalletRouting.
From S2P Require Import Derivation Quotes ApiKeys Invoicing InvoiceFacts.
From S2P Require Import Coordinator Commands CoordinatorFacts MonitorProcess WatchReconcile.

(** ** Triples over the site *)

Lemma triple_map_err {S E E' A} (f : E -> E') I (m : St S E A) J F :
  triple I m J F -> triple I (st_map_err f m) J F.
Proof. intros Hm s Hs. specialize (Hm s Hs). unfold st_map_err. by destruct (m s) as [[a|e] s']. Qed.

Lemma triple_fail {S E A} (F F' : S -> Prop) I (m : St S E A) J : (forall s, F s -> F' s) -> triple I m J F -> triple I m J F'.
Proof. intros HF Hm s Hs. specialize (Hm s Hs). destruct (m s) as [[a|e] s']; auto. Qed.

Lemma on_server_triple {E A} (m : St Server E A) (I F : Server -> Prop) (J : A -> Server -> Prop) (Q : WalletDb -> Prop) :
  triple I m J F ->
  triple (fun s => I (st_server s) /\ Q (st_wallets s)) (on_server m)
    (fun a s => J a (st_server s) /\ Q (st_wallets s)) (fun s => F (st_server s) /\ Q (st_wallets s)).
Proof.
  intros Hm s [Hs Hq]. specialize (Hm (st_server s) Hs). unfold on_server. by destruct (m (st_server s)) as [[a|e] sv].
Qed.

(** ** Deriving the options *)

Section Derive.
Context {R : Type} `{RustDecimal R} `{!InvoiceHost R}.
Context `{Runtime} `{Numeric} `{Formats} `{HdKeys} `{PolicyNames} `{UuidText}.

(** The address of an option is derived from an allocation. *)
Definition derived_from (o : DerivedOption) (a : DerivationAllocation) : Prop :=
  pod_wallet_id (do_option o) = Some (da_wallet_id a) /\ pod_derivation_index (do_option o) = Some (da_index a) /\
  pod_payment_address (do_option o) = fmt_address (do_address o) /\
  exists dv, from_xpub (da_namespace a) (da_xpub a) = Ok dv /\ derive_evm_address dv (da_index a) = Ok (do_address o).

(** The option of a validated method. *)
Definition option_of (invoice : InvoiceData) (pms : list StorePaymentMethod) (v : ValidatedMethod) (o : DerivedOption) : Prop :=
  exists pm, pms !! v.1.1.1 = Some pm /\ asset_key (do_option o) = (spm_chain_id pm, spm_token_address pm) /\
    pod_invoice_id (do_option o) = id_id invoice /\ pod_amount (do_option o) = v.1.1.2.

Definition before (d : Db) (iss : list DerivationAllocation) (s : Site) : Prop :=
  sv_db (st_server s) = d /\ wd_issued (st_wallets s) = iss.
Definition untouched (d : Db) (s : Site) : Prop := sv_db (st_server s) = d.

Lemma allocate_issued id now d a d' : allocate_derivation id now d = (Ok a, d') -> wd_issued d' = wd_issued d ++ [a].
Proof.
  unfold allocate_derivation, advance_counter. destruct (m ← _; _) as [[i w]|]; [|done]. destruct (_ =? _); [done|].
  by intros [= <- <-].
Qed.

Lemma derive_address_triple pm d iss :
  triple (before d iss) (derive_payment_address pm)
    (fun '(address, a) s => before d (iss ++ [a]) s /\
       exists dv, from_xpub (da_namespace a) (da_xpub a) = Ok dv /\ derive_evm_address dv (da_index a) = Ok address)
    (untouched d).
Proof.
  unfold derive_payment_address. apply (triple_bind _ _ _ (fun a s => before d (iss ++ [a]) s)).
  - apply triple_map_err. intros s [Hd Hi]. unfold wdb. destruct (calls _); cbn; try done.
    destruct (allocate_derivation _ _ _) as [[a|e] d'] eqn:Ha; [|done]. split; [done|]. cbn. by rewrite (allocate_issued _ _ _ _ _ Ha), Hi.
  - intros a. destruct (from_xpub _ _) as [dv|e] eqn:Hx; [|apply triple_throw; by intros s [? _]].
    destruct (derive_evm_address _ _) as [address|e] eqn:Hdv; [|apply triple_throw; by intros s [? _]].
    apply triple_ret. intros s Hs. split; [done|]. by exists dv.
Qed.

Lemma derive_one_triple invoice pm amount rate rate_at d iss :
  triple (before d iss) (derive_one_payment_option (R:=R) invoice pm amount rate rate_at)
    (fun o s => exists a, before d (iss ++ [a]) s /\ derived_from o a /\
       asset_key (do_option o) = (spm_chain_id pm, spm_token_address pm) /\
       pod_invoice_id (do_option o) = id_id invoice /\ pod_amount (do_option o) = amount)
    (untouched d).
Proof.
  unfold derive_one_payment_option. eapply triple_bind; [apply derive_address_triple|].
  intros [address a] s [Hb (dv & Hx & Hdv)]. cbn. exists a. split; [exact Hb|]. split; [|done].
  split; [done|]. split; [done|]. split; [done|]. by exists dv.
Qed.

Lemma derive_options_triple invoice pms vs d iss :
  triple (before d iss) (derive_payment_options (R:=R) invoice pms vs)
    (fun os s => exists allocs, before d (iss ++ allocs) s /\ Forall2 derived_from os allocs /\
       Forall2 (option_of invoice pms) vs os)
    (untouched d).
Proof.
  unfold derive_payment_options.
  assert (Hgen : forall vs vs0 os0 allocs0, Forall2 derived_from os0 allocs0 -> Forall2 (option_of invoice pms) vs0 os0 ->
    triple (before d (iss ++ allocs0))
      (st_fold (fun acc '(idx, amount, rate, rate_at) =>
         match pms !! (idx : nat) with
         | None => st_throw (internal "index out of bounds")
         | Some pm => st_bind (derive_one_payment_option (R:=R) invoice pm amount rate rate_at) (fun x => st_ret (acc ++ [x]))
         end) os0 vs)
      (fun os s => exists allocs, before d (iss ++ allocs) s /\ Forall2 derived_from os allocs /\
         Forall2 (option_of invoice pms) (vs0 ++ vs) os) (untouched d)).
  { clear vs. induction vs as [|v vs IH]; intros vs0 os0 allocs0 Hd Hv; cbn [st_fold].
    { apply triple_ret. intros s Hs. exists allocs0. by rewrite app_nil_r. }
    destruct v as [[[idx amount] rate] rate_at]. destruct (pms !! idx) as [pm|] eqn:Hpm; [|apply triple_throw; by intros s [? _]].
    apply (triple_bind _ _ _ (fun os s => exists o a, os = os0 ++ [o] /\ before d (iss ++ allocs0 ++ [a]) s /\ derived_from o a /\
      option_of invoice pms (idx, amount, rate, rate_at) o)).
    - eapply triple_bind; [apply derive_one_triple|]. intros o. apply triple_ret.
      intros s (a & Hb & Hda & Hk & Hi & Ha). exists o, a. rewrite <-app_assoc in Hb. split; [done|]. split; [done|]. split; [done|]. by exists pm.
    - intros os s (o & a & -> & Hb & Hda & Ho).
      specialize (IH (vs0 ++ [(idx, amount, rate, rate_at)]) (os0 ++ [o]) (allocs0 ++ [a])).
      rewrite <-app_assoc in IH. apply IH; [apply Forall2_app; auto..|done]. }
  specialize (Hgen vs [] [] []). rewrite app_nil_r in Hgen. apply Hgen; constructor.
Qed.
End Derive.

(** ** The methods quoted are of different assets *)

Definition spm_key (pm : StorePaymentMethod) : string * option string := (spm_chain_id pm, spm_token_address pm).

Lemma filter_NoDup_fmap {A B} (f : A -> B) (p : A -> bool) l : NoDup (f <$> l) -> NoDup (f <$> List.filter p l).
Proof.
  induction l as [|x l IH]; cbn; [done|]. intros [Hx Hl]%NoDup_cons. destruct (p x); [|by apply IH].
  cbn. apply NoDup_cons. split; [|by apply IH]. intros (y & Heq & Hy)%list_elem_of_fmap. apply Hx.
  apply elem_of_filter_b in Hy as [_ Hy]. rewrite Heq. by apply list_elem_of_fmap_2.
Qed.

Lemma enabled_methods_distinct store now d pms d' :
  methods_unique d -> get_enabled_payment_methods store now d = (Ok pms, d') -> NoDup (spm_key <$> pms).
Proof.
  intros Hu [= <- _]. rewrite merge_sort_Permutation. unfold methods_where. rewrite <-list_fmap_compose.
  apply NoDup_fmap_2_strong; [|apply NoDup_ListNoDup, List.NoDup_filter, NoDup_ListNoDup, NoDup_map_to_list].
  intros [i m] [j v] Hi Hj Hk. apply elem_of_filter_b in Hi as [Hi Him], Hj as [Hj Hjm]. cbn in Hi, Hj, Hk.
  apply elem_of_map_to_list in Him, Hjm. apply andb_true_iff in Hi as [[Hi%Z.eqb_eq _]%andb_true_iff _], Hj as [[Hj%Z.eqb_eq _]%andb_true_iff _].
  injection Hk as Hc Ht. assert (i = j) as -> by (apply (Hu i j m v); [done..|]; unfold method_key; congruence). congruence.
Qed.

Lemma fst_imap {A} (l : list A) k : fst <$> imap (fun i x => (k + i, x)%nat) l = seq k (length l).
Proof.
  revert k. induction l as [|x l IH]; intros k; [done|]. cbn. rewrite Nat.add_0_r. f_equal. rewrite <-IH. f_equal.
  apply imap_ext. intros i y _. cbn. f_equal. lia.
Qed.

Section Created.
Context {R : Type} `{RustDecimal R} `{!InvoiceHost R}.
Context `{Runtime} `{Numeric} `{Formats} `{HdKeys} `{PolicyNames} `{UuidText}.
Context (var : string -> option string) (filters : list InvoiceCreationFilter) (evm_monitor : bool).

Lemma load_methods_distinct req s pms s' :
  methods_unique (st_wallets s) -> load_methods req s = (Ok pms, s') -> NoDup (spm_key <$> pms).
Proof.
  intros Hu. unfold load_methods. intros Hl. inv_ok Hl as all s1 Ha Hl. inv_ok Hl as policy s2 Hp Hl.
  assert (Hall : NoDup (spm_key <$> all)).
  { unfold st_map_err, wdb in Ha. destruct (calls _); try done.
    destruct (get_enabled_payment_methods _ _ _) as [[x|e] d'] eqn:Hg; [|done]. injection Ha as -> _.
    by eapply enabled_methods_distinct. }
  cbv zeta in Hl. set (kept := match policy with Some p => _ | None => all end) in *.
  assert (Hkept : NoDup (spm_key <$> kept)) by (unfold kept; destruct policy; [by apply filter_NoDup_fmap | done]).
  case_bool_decide; [done|]. destruct (store_has_no_wallet kept); [done|]. by injection Hl as <- _.
Qed.

Definition v_idx (v : ValidatedMethod) : nat := v.1.1.1.

Lemma validate_method_idx req acc idx pm s res s' :
  validate_method (R:=R) var req acc (idx, pm) s = (Ok res, s') -> res = acc \/ exists v, res = acc ++ [v] /\ v_idx v = idx.
Proof.
  unfold validate_method. destruct (String.eqb _ _).
  - destruct (is_fiat_currency _); [intros [= <- _]; by left|].
    destruct (convert_human_to_smallest_unit _ _); [|done]. intros [= <- _]. right. by eexists.
  - intros Hv. inv_ok Hv as n s1 Hn Hv. inv_ok Hv as u s2 Hu Hv. destruct (get_rate _ _ _) as [[rate ts]|[|msg]]; try done.
    + inv_ok Hv as now s3 Hnow Hv. destruct (rd_leb _ _); [done|]. destruct (is_stale _ _ _); [done|].
      destruct (convert_to_crypto_smallest_unit _ _ _); [|done]. injection Hv as <- _. right. by eexists.
    + injection Hv as <- _. by left.
Qed.

Lemma validated_idx req l acc s res s' :
  st_fold (validate_method (R:=R) var req) acc l s = (Ok res, s') ->
  exists sub, v_idx <$> res = (v_idx <$> acc) ++ sub /\ sublist sub (fst <$> l).
Proof.
  revert acc s. induction l as [|[idx pm] l IH]; intros acc s; cbn [st_fold].
  { intros [= <- _]. exists []. by rewrite app_nil_r. }
  intros Hf. inv_ok Hf as acc1 s1 Hone Hf. apply IH in Hf as (sub & Hres & Hsub).
  apply validate_method_idx in Hone as [->|(v & -> & Hv)].
  - exists sub. split; [done|]. cbn. by apply sublist_cons.
  - exists (idx :: sub). split; [|cbn; by apply sublist_skip]. by rewrite Hres, fmap_app, <-app_assoc, <-Hv.
Qed.

Lemma options_distinct invoice pms vs os :
  NoDup (spm_key <$> pms) -> NoDup (v_idx <$> vs) -> Forall2 (option_of invoice pms) vs os ->
  NoDup (asset_key <$> (do_option <$> os)).
Proof.
  intros Hk Hv Ho. induction Ho as [|v o vs os (pm & Hpm & Hkey & _) Hos IH]; cbn; [apply NoDup_nil_2|].
  rewrite fmap_cons in Hv. apply NoDup_cons in Hv as [Hnv Hv]. apply NoDup_cons. split; [|by apply IH].
  rewrite <-list_fmap_compose. intros (o' & Heq & Hin)%list_elem_of_fmap. cbn in Heq.
  apply list_elem_of_lookup in Hin as (k & Hk').
  destruct (Forall2_lookup_r _ _ _ _ _ Hos Hk') as (v' & Hv' & (pm' & Hpm' & Hkey' & _)).
  apply Hnv. assert (v_idx v = v_idx v') as ->; [|apply list_elem_of_fmap_2; by eapply list_elem_of_lookup_2].
  eapply (NoDup_lookup _ _ _ (spm_key pm) Hk); rewrite list_lookup_fmap.
  - unfold v_idx. by rewrite Hpm.
  - unfold v_idx. rewrite Hpm'. cbn. f_equal. unfold spm_key. congruence.
Qed.

(** ** Announcing changes only flags *)

(** Only the notified flags of watches were raised. *)
Definition flags_raised (d d' : Db) : Prop :=
  exists ws, d' = db_set_watched ws d /\
    Forall2 (fun w w' => w' = w \/ w' = set_watch_flags (wr_is_active w) true w) (db_watched d) ws.

Lemma flags_refl d : flags_raised d d.
Proof. exists (db_watched d). split; [by destruct d|]. apply Forall_Forall2_diag, Forall_true. by left. Qed.

Lemma flags_mark d address chain token now :
  flags_raised d (snd (mark_notified address chain token now d)).
Proof.
  eexists. split; [reflexivity|]. apply Forall2_fmap_r, Forall_Forall2_diag, Forall_true. intros w. cbn.
  destruct (watch_matches _ _ _ w); [by right | by left].
Qed.

Lemma flags_trans d1 d2 d3 : flags_raised d1 d2 -> flags_raised d2 d3 -> flags_raised d1 d3.
Proof.
  intros (ws & -> & Hws) (vs & -> & Hvs). exists vs. split; [done|]. cbn in Hvs.
  eapply Forall2_trans; [|exact Hws|exact Hvs]. intros w w' w'' [->| ->] [->| ->]; auto.
Qed.

Lemma notify_watch_flags {E} d i address chain token a e t :
  preserves (fun s => flags_raised d (sv_db s)) (notify_evm_watch (E:=E) evm_monitor i address chain token a e t).
Proof.
  intros s Hs. unfold notify_evm_watch. destruct (eip155_for_watch chain); [|done]. destruct (negb evm_monitor); [done|].
  destruct (parse_uuid i); [|done].
  unfold watch_address_by_chain_id, st_bind, st_try, db, exchange.
  destruct (calls (sv_ticks s)); cbn; [|done..].
  pose proof (flags_mark (sv_db s) address chain token (clock (S (sv_ticks s)))) as Hm. cbn in Hm.
  destruct (calls (S (sv_ticks s))); cbn; [|done|]; by eapply flags_trans.
Qed.

Lemma notify_total {E} i address chain token a e t :
  total (notify_evm_watch (E:=E) evm_monitor i address chain token a e t).
Proof.
  unfold notify_evm_watch. destruct (eip155_for_watch chain); [|apply total_ret]. destruct (negb evm_monitor); [apply total_ret|].
  destruct (parse_uuid i); [|apply total_ret]. apply total_bind; [apply total_try|].
  intros [|]; [|apply total_ret]. apply total_bind; [apply total_try|]. intros r. apply total_ret.
Qed.

(** ** The creation as a whole *)

(** The database after a creation: the whole transaction on the tables it
    began with. *)
Definition committed (invoice : InvoiceData) (options : list PaymentOptionData) (d d' : Db) : Prop :=
  exists began, invoice_written began invoice options d = Some d'.

(** An invoice with its options, as the handler writes it. *)
Definition writable (invoice : InvoiceData) (options : list PaymentOptionData) : Prop :=
  options <> [] /\ NoDup (asset_key <$> options) /\ id_status invoice = Pending /\
  (forall o, o ∈ options -> pod_invoice_id o = id_id invoice).

(** What a creation that answers has done. *)
Definition created_ok (d : Db) (iss : list DerivationAllocation) (invoice : InvoiceData)
    (options : list PaymentOptionData) (s : Site) : Prop :=
  exists d1 derived allocs, options = do_option <$> derived /\ committed invoice options d d1 /\
    flags_raised d1 (sv_db (st_server s)) /\ wd_issued (st_wallets s) = iss ++ allocs /\
    Forall2 derived_from derived allocs /\ writable invoice options.

Definition all_or_nothing (d : Db) (s : Site) : Prop :=
  sv_db (st_server s) = d \/
  exists invoice options, writable invoice options /\ committed invoice options d (sv_db (st_server s)).

Lemma options_invoice invoice pms vs os :
  Forall2 (option_of invoice pms) vs os -> forall o, o ∈ do_option <$> os -> pod_invoice_id o = id_id invoice.
Proof.
  intros Ho o (x & -> & Hx)%list_elem_of_fmap. apply list_elem_of_lookup in Hx as (k & Hk).
  by destruct (Forall2_lookup_r _ _ _ _ _ Ho Hk) as (v & _ & (pm & _ & _ & Hi & _)).
Qed.

(** This invoice, or nothing. *)
Definition this_or_nothing (invoice : InvoiceData) (d : Db) (s : Site) : Prop :=
  sv_db (st_server s) = d \/ exists options, writable invoice options /\ committed invoice options d (sv_db (st_server s)).

Lemma this_nothing invoice d s : this_or_nothing invoice d s -> all_or_nothing d s.
Proof. intros [Hd|(options & Hw & Hc)]; [by left|right; by exists invoice, options]. Qed.

Definition derived_for invoice pms vs d iss (derived : list DerivedOption) (s : Site) : Prop :=
  exists allocs, before d (iss ++ allocs) s /\ Forall2 derived_from derived allocs /\ Forall2 (option_of invoice pms) vs derived.

Definition recorded_for invoice pms vs d iss (derived : list DerivedOption) (s : Site) : Prop :=
  exists allocs, committed invoice (do_option <$> derived) d (sv_db (st_server s)) /\
    wd_issued (st_wallets s) = iss ++ allocs /\ Forall2 derived_from derived allocs /\ Forall2 (option_of invoice pms) vs derived.

(** Deriving, recording and announcing, with any reading of their errors. *)
Lemma derive_part {E} (g : ApiError -> E) invoice pms vs d iss :
  triple (before d iss) (st_map_err g (derive_payment_options (R:=R) invoice pms vs))
    (derived_for invoice pms vs d iss) (this_or_nothing invoice d).
Proof.
  apply triple_map_err. intros s Hs. pose proof (derive_options_triple (R:=R) invoice pms vs d iss s Hs) as Ht.
  destruct (derive_payment_options _ _ _ s) as [[os|e] s']; [exact Ht | by left].
Qed.

Section Part.
Context {E : Type} (invoice : InvoiceData) (pms : list StorePaymentMethod) (vs : list ValidatedMethod) (d : Db) (iss : list DerivationAllocation).
Hypotheses (Hne : vs <> []) (Hpms : NoDup (spm_key <$> pms)) (Hvs : NoDup (v_idx <$> vs)) (Hst : id_status invoice = Pending).

Lemma derived_writable derived : Forall2 (option_of invoice pms) vs derived -> writable invoice (do_option <$> derived).
Proof.
  intros Hv. split; [|split; [by eapply options_distinct|]; split; [done|]; by eapply options_invoice].
  intros Hnil. apply Hne. apply Forall2_length in Hv. apply fmap_nil_inv in Hnil as ->. by destruct vs.
Qed.

Lemma record_part (h : RepositoryError -> E) derived :
  triple (derived_for invoice pms vs d iss derived)
    (st_map_err h (on_server (create_invoice_with_options invoice (do_option <$> derived))))
    (fun _ => recorded_for invoice pms vs d iss derived) (this_or_nothing invoice d).
Proof.
  apply triple_map_err. intros s (allocs & [Hd Hi] & Hda & Hv).
  pose proof (on_server_triple _ _ _ _ (fun w => wd_issued w = iss ++ allocs)
    (create_tx_triple invoice (do_option <$> derived) d) s (conj Hd Hi)) as Ht.
  destruct (on_server _ s) as [[u|e] s']; destruct Ht as [Hc Hw]; [by exists allocs|].
  destruct Hc as [Hc|Hc]; [by left | right; exists (do_option <$> derived); by split; [apply derived_writable|]].
Qed.

Lemma announce_part (F : Site -> Prop) derived :
  triple (recorded_for invoice pms vs d iss derived) (on_server (notify_monitor_for (E:=E) evm_monitor invoice derived))
    (fun _ s => created_ok d iss invoice (do_option <$> derived) s) F.
Proof.
  intros s (allocs & Hc & Hi & Hda & Hv). pose proof (on_server_triple _ _ _ _ (fun w => wd_issued w = iss ++ allocs)
    (triple_preserves (fun _ => True) (fun x => flags_raised (sv_db (st_server s)) (sv_db x))
       (notify_monitor_for (E:=E) evm_monitor invoice derived)
       (preserves_for _ _ _ (fun x _ => notify_watch_flags _ _ _ _ _ _ _ _)) (fun _ _ => Logic.I))
    s (conj (flags_refl _) Hi)) as Ht.
  destruct (total_run (on_server (notify_monitor_for (E:=E) evm_monitor invoice derived)) s) as (a & s' & Hrun).
  { intros x. unfold on_server. pose proof (total_for derived (fun d => notify_evm_watch evm_monitor (id_id invoice)
      (pod_payment_address (do_option d)) (pod_chain_id (do_option d)) (pod_token_address (do_option d)) (do_address d)
      (do_expected_amount d) (do_token_contract d)) (fun x => notify_total (E:=E) _ _ _ _ _ _ _) (st_server x)) as Htot.
    unfold notify_monitor_for. by destruct (st_for _ _ _). }
  rewrite Hrun in Ht |- *. destruct Ht as [Hfl Hiss]. exists (sv_db (st_server s)), derived, allocs.
  do 5 (split; [done|]). by apply derived_writable.
Qed.
End Part.

(** From the derived options on. *)
Lemma commit_triple invoice pms vs d iss :
  vs <> [] -> NoDup (spm_key <$> pms) -> NoDup (v_idx <$> vs) -> id_status invoice = Pending ->
  triple (before d iss)
    (let* derived := derive_payment_options (R:=R) invoice pms vs in
     let options := do_option <$> derived in
     do* st_map_err (fun _ => internal "Failed to create invoice") (on_server (create_invoice_with_options invoice options));
     do* on_server (notify_monitor_for evm_monitor invoice derived);
     st_ret (invoice, options))
    (fun '(invoice, options) s => created_ok d iss invoice options s) (all_or_nothing d).
Proof.
  intros Hne Hpms Hvs Hst. apply (triple_fail (this_or_nothing invoice d)); [apply this_nothing|].
  eapply triple_bind.
  { intros s Hs. pose proof (derive_part (fun e => e) invoice pms vs d iss s Hs) as Ht. unfold st_map_err in Ht.
    by destruct (derive_payment_options _ _ _ s) as [[os|e] s']. }
  intros derived. cbv zeta. eapply triple_bind; [by apply record_part|]. intros u.
  eapply triple_bind; [by apply announce_part|]. intros u2. by apply triple_ret.
Qed.

Lemma create_invoice_triple caller req d wd :
  methods_unique wd ->
  triple (fun s => tables s = (d, wd)) (create_invoice (R:=R) var filters evm_monitor caller req)
    (fun '(invoice, options) s => created_ok d (wd_issued wd) invoice options s) (all_or_nothing d).
Proof.
  intros Hu. set (I0 := fun s => tables s = (d, wd)).
  assert (HF : forall s, I0 s -> all_or_nothing d s) by (intros s [= Hd _]; by left).
  assert (Hro : forall A (m : St Site ApiError A), read_only m -> triple I0 m (fun _ => I0) (all_or_nothing d))
    by (intros A m Hm; apply triple_preserves; [apply Hm | exact HF]).
  unfold create_invoice. eapply triple_bind; [apply Hro, create_gates_read_only|]. intros u.
  apply (triple_bind _ _ _ (fun pms s => I0 s /\ NoDup (spm_key <$> pms))).
  { intros s Hs. pose proof (Hro _ _ (load_methods_read_only req) s Hs) as Ht.
    destruct (load_methods req s) as [[pms|e] s'] eqn:Hl; [|exact Ht]. split; [exact Ht|].
    eapply load_methods_distinct; [|exact Hl]. injection Hs as _ Hw. by rewrite Hw. }
  intros pms. apply (triple_bind _ _ _ (fun vs s => I0 s /\ NoDup (spm_key <$> pms) /\ NoDup (v_idx <$> vs))).
  { intros s [Hs Hn]. pose proof (Hro _ _ (read_only_fold (validate_method (R:=R) var req) (imap (fun i pm => (i, pm)) pms) []
      (fun x y => validate_method_read_only var req x y)) s Hs) as Ht.
    destruct (st_fold _ _ _ s) as [[vs|e] s'] eqn:Hv; [|exact Ht]. split; [exact Ht|]. split; [done|].
    apply validated_idx in Hv as (sub & Heq & Hsub). rewrite Heq. cbn. eapply sublist_NoDup; [|exact Hsub].
    change (fun (i : nat) (pm : StorePaymentMethod) => (i, pm)) with (fun (i : nat) (pm : StorePaymentMethod) => (0 + i, pm)%nat).
    rewrite fst_imap. apply NoDup_ListNoDup, List.seq_NoDup. }
  intros vs. case_bool_decide as Hlen; [apply triple_throw; intros s [Hs _]; by apply HF|].
  apply (triple_bind _ _ _ (fun _ s => I0 s /\ NoDup (spm_key <$> pms) /\ NoDup (v_idx <$> vs))); [by intros s Hs|]. intros now.
  destruct (lift_customer_email _ _) as [email metadata].
  apply (triple_bind _ _ _ (fun _ s => I0 s /\ NoDup (spm_key <$> pms) /\ NoDup (v_idx <$> vs))); [by intros s Hs|]. intros id.
  apply (triple_bind _ _ _ (fun _ s => I0 s /\ NoDup (spm_key <$> pms) /\ NoDup (v_idx <$> vs))); [by intros s Hs|]. intros at_.
  intros s ([= Hd Hw] & Hp & Hv). apply commit_triple; try done; [by intros ->|]. split; [done|]. by rewrite Hw.
Qed.

(** ** Theorems *)

(** All of an invoice is on file: its row, every option, and an active watch for
    every option; other invoices, options and payments are as they were. *)
Definition whole (invoice : InvoiceData) (options : list PaymentOptionData) (d d' : Db) : Prop :=
  options <> [] /\ db_invoices d !! id_id invoice = None /\
  (exists row, db_invoices d' = <[id_id invoice := row]> (db_invoices d) /\ inv_status row = Pending /\
     inv_store_id row = id_store_id invoice /\ Some (inv_amount row) = numeric18_in (id_amount invoice) /\
     inv_expires_at row = id_expires_at invoice) /\
  db_payments d' = db_payments d /\
  (forall o, o ∈ options -> exists row, db_payment_options d' !! pod_id o = Some row /\ po_invoice_id row = id_id invoice /\
     po_payment_address row = pod_payment_address o /\ Some (po_amount row) = z_parse (pod_amount o)) /\
  (forall i, i ∉ pod_id <$> options -> db_payment_options d' !! i = db_payment_options d !! i) /\
  (forall o, o ∈ options -> exists w, w ∈ db_watched d' /\ watches_option o w).

Lemma watches_flags o w w' :
  w' = w \/ w' = set_watch_flags (wr_is_active w) true w -> watches_option o w -> watches_option o w'.
Proof. by intros [->| ->]. Qed.

Lemma whole_committed invoice options d d1 d' :
  writable invoice options -> committed invoice options d d1 -> flags_raised d1 d' -> whole invoice options d d'.
Proof.
  intros (Hne & Hnd & Hst & Hinv) (began & Hw) (ws & -> & Hws).
  destruct (invoice_written_spec began invoice options d d1 Hnd Hw) as (Hfresh & (row & Hrow & Hrs & Hrest) & Hp & Hos & Hoth & Hwat).
  split; [done|]. split; [done|]. split; [exists row; by rewrite <-Hst|]. split; [done|]. split; [|split; [done|]].
  - intros o Ho. destruct (Hos o Ho) as (r & Hr & Hri & Hra & Ham & _). exists r. by rewrite Hri, Hinv.
  - intros o Ho. destruct (Hwat o Ho) as (w & Hin & Hwo & _). apply list_elem_of_lookup in Hin as (k & Hk).
    destruct (Forall2_lookup_l _ _ _ _ _ Hws Hk) as (w' & Hk' & Hor). exists w'.
    split; [by eapply list_elem_of_lookup_2 | by eapply watches_flags].
Qed.

(** C3. Creating an invoice is all or nothing.  Whatever requests fail, also
    when the reply to the commit is lost: the database is as it was, or all of
    the invoice is on file with an active watch for each of its options and
    nothing else changed; a handler that answers with an invoice has written
    that one. *)
Theorem invoice_creation_atomic caller req s r s' :
  methods_unique (st_wallets s) ->
  create_invoice (R:=R) var filters evm_monitor caller req s = (r, s') ->
  match r with
  | Ok (invoice, options) => whole invoice options (sv_db (st_server s)) (sv_db (st_server s'))
  | Err _ => sv_db (st_server s') = sv_db (st_server s) \/
             exists invoice options, whole invoice options (sv_db (st_server s)) (sv_db (st_server s'))
  end.
Proof.
  intros Hu Hc. pose proof (create_invoice_triple caller req (sv_db (st_server s)) (st_wallets s) Hu s eq_refl) as Ht.
  rewrite Hc in Ht. destruct r as [[invoice options]|e].
  - destruct Ht as (d1 & derived & allocs & _ & Hcom & Hfl & _ & _ & Hwr). by eapply whole_committed.
  - destruct Ht as [Ht|(invoice & options & Hwr & Hcom)]; [by left|]. right. exists invoice, options.
    eapply whole_committed; [done..|apply flags_refl].
Qed.

(** Every address quoted to a customer is one the monitor is expected to
    watch: right after an invoice was created, and at any later instant while it
    is pending, the reconciliation view asks for each of its options' addresses,
    for this invoice. *)
Theorem quoted_addresses_expected caller req s invoice options s' now o :
  methods_unique (st_wallets s) ->
  create_invoice (R:=R) var filters evm_monitor caller req s = (Ok (invoice, options), s') ->
  o ∈ options ->
  asked_for now (sv_db (st_server s'))
    (recon_key_new (pod_chain_id o) (pod_payment_address o) (pod_token_address o) (id_id invoice)).
Proof.
  intros Hu Hc Ho. pose proof (create_invoice_triple caller req (sv_db (st_server s)) (st_wallets s) Hu s eq_refl) as Ht.
  rewrite Hc in Ht. destruct Ht as (d1 & derived & allocs & _ & Hcom & Hfl & _ & _ & Hwr).
  destruct (whole_committed _ _ _ _ _ Hwr Hcom Hfl) as (_ & _ & (row & Hrow & Hst & _) & _ & Hos & _ & Hws).
  destruct (Hos o Ho) as (po & Hpo & Hpi & _). destruct (Hws o Ho) as (w & Hw & (Hact & Hid & Hch & Htk & Hadr)).
  exists w, po, row. split; [done|]. split; [done|]. split; [by rewrite Hid|]. rewrite Hpi, Hrow, lookup_insert_eq.
  split; [done|]. split; [unfold still_expected; by rewrite Hst|]. unfold recon_key_new. by rewrite Hch, Htk, Hadr.
Qed.

(** The addresses of a created invoice are new: each is derived at an index
    that was issued for it during the creation, from the key the index belongs
    to, and the option records that wallet and index. *)
Theorem options_use_fresh_indices caller req s invoice options s' :
  methods_unique (st_wallets s) ->
  create_invoice (R:=R) var filters evm_monitor caller req s = (Ok (invoice, options), s') ->
  exists allocs, wd_issued (st_wallets s') = wd_issued (st_wallets s) ++ allocs /\
    Forall2 (fun o a => pod_wallet_id o = Some (da_wallet_id a) /\ pod_derivation_index o = Some (da_index a) /\
      exists dv address, from_xpub (da_namespace a) (da_xpub a) = Ok dv /\
        derive_evm_address dv (da_index a) = Ok address /\ pod_payment_address o = fmt_address address) options allocs.
Proof.
  intros Hu Hc. pose proof (create_invoice_triple caller req (sv_db (st_server s)) (st_wallets s) Hu s eq_refl) as Ht.
  rewrite Hc in Ht. destruct Ht as (d1 & derived & allocs & -> & _ & _ & Hi & Hda & _). exists allocs. split; [done|].
  apply Forall2_fmap_l. eapply Forall2_impl; [exact Hda|]. intros o a (Hw & Hx & Hp & (dv & Hf & Hdv)).
  split; [done|]. split; [done|]. by exists dv, (do_address o).
Qed.
End Created.
