(* ===== verification/InvoiceDemo.v ===== *)
(** * Wallets and invoices on a concrete account

    One account with two stores, an EVM and a Tron wallet, and an inheriting and
    a pinned method: the wallet theorems at work, and two behaviours outside
    them.  Then a store with one EVM method, quoted in dollars and in ether: the
    creation theorems, and two behaviours of the quoting and writing code. *)

From stdpp Require Import gmap strings list sorting.
From Stdlib Require Import ZArith QArith Qround Lia Lqa.
From S2P Require Import Prelude Events Network Decimal Database Services ConsumerDemo WatchRetry LiveWatch.
From S2P Require Import Wallets WalletFacts WalletRouting Derivation Quotes ApiKeys Invoicing InvoiceFacts InvoiceCreated.
From S2P Require Import Coordinator Commands CoordinatorFacts MonitorProcess ProcessDemo WatchReconcile.

Definition w_evm : WalletRow := mkWalletRow 1 "eip155" "xpubA" 0 None true 0.
Definition w_evm2 : WalletRow := mkWalletRow 1 "eip155" "xpubB" 0 None false 1.
Definition w_tron : WalletRow := mkWalletRow 1 "tron" "xpubT" 0 None true 2.

Definition meth (store : Z) (chain : string) (pin : option Z) (at_ : Z) : MethodRow :=
  mkMethodRow store chain None "ETH" 18 pin true at_.

Definition demo_members : Memberships :=
  mkMemberships {[(1, 5) := 40]} {[40 := ["ethpay.store.cancreateinvoice"]]} ∅.

Definition demo_account : WalletDb :=
  mkWalletDb (<[10 := w_evm]> (<[11 := w_evm2]> (<[12 := w_tron]> ∅))) ∅
    (<[20 := meth 5 "eip155:1" None 0]> (<[21 := meth 5 "eip155:137" (Some 11) 1]>
      (<[22 := meth 5 "tron:728126428" None 2]> (<[23 := meth 6 "eip155:1" None 3]> ∅))))
    (<[5 := mkStoreRow 1 false]> (<[6 := mkStoreRow 1 false]> ∅)) [] [] demo_members.

Ltac lookups :=
  repeat match goal with
  | H : <[_ := _]> _ !! _ = Some _ |- _ => apply lookup_insert_Some in H as [[<- <-]|[_ H]]
  | H : ∅ !! _ = Some _ |- _ => by rewrite lookup_empty in H
  end.

Lemma demo_issuing : issuing_ok demo_account.
Proof.
  assert (Hc : cores demo_account = <[10 := wl_core w_evm]> (<[11 := wl_core w_evm2]> (<[12 := wl_core w_tron]> ∅))).
  { unfold cores. cbn [wd_wallets demo_account]. by rewrite !fmap_insert, fmap_empty. }
  split; [|intros a Ha; by apply not_elem_of_nil in Ha].
  unfold counters_ok. rewrite Hc. split; [|split; [|split; [|split]]].
  - intros i j w v Hi Hj Hx. lookups; by split.
  - intros i w Hi. lookups; unfold INTEGER_MAX; cbn; lia.
  - intros a i w Ha. by apply not_elem_of_nil in Ha.
  - intros a Ha. by apply not_elem_of_nil in Ha.
  - apply NoDup_nil_2.
Qed.

Lemma demo_routing : routing_ok demo_account.
Proof.
  split; [|split].
  - intros store ns wid Hi. cbn [wd_store_wallets demo_account] in Hi. by rewrite lookup_empty in Hi.
  - intros i m wid Hi Hp. cbn [wd_methods demo_account] in Hi. lookups; try done. injection Hp as <-.
    by exists (mkStoreRow 1 false), w_evm2.
  - intros i j w v Hi Hj. cbn [wd_wallets demo_account] in Hi, Hj. lookups; done.
Qed.

(** Two methods of a store and one of another share the primary's counter. *)
Definition demo_ops : list (Instant * WalletOp) :=
  [(1, OpAllocate 20); (2, OpAllocate 23); (3, OpSetStore 5 11); (4, OpAllocate 20); (5, OpAllocate 22); (6, OpDelete 10)].

Example demo_issues :
  alloc_key <$> wd_issued (run_ops (take 5 demo_ops) demo_account)
  = [("eip155", "xpubA", 0); ("eip155", "xpubA", 1); ("eip155", "xpubB", 0); ("tron", "xpubT", 0)].
Proof. vm_compute. reflexivity. Qed.

Lemma indices_issued_once_witness :
  NoDup (alloc_key <$> wd_issued (run_ops (take 5 demo_ops) demo_account)) /\
  (forall a, a ∈ wd_issued (run_ops (take 5 demo_ops) demo_account) -> 0 <= da_index a < 2 ^ 31 - 1).
Proof. apply (indices_issued_once (take 5 demo_ops) demo_account demo_issuing). repeat split. Defined.

(** A second request to set up a method pins the wallet it was answered; in
    between another request allocates. *)
Definition demo_seen : RouteState := fresh_tables demo_account {[10; 11; 12; 20; 21; 22; 23]}.

Definition after_op (now : Instant) (op : WalletOp) (x : RouteState) : RouteState :=
  mkRouteState (apply_op op now (rt_db x))
    (match drawn_by op with Some id => {[id]} ∪ rt_drawn x | None => rt_drawn x end)
    (answer_of op now (rt_db x) ++ rt_answers x) (rt_reads x).

Definition demo_pinned : RouteState :=
  after_op 3 (OpInsertMethod 31 5 "eip155:10" None "ETH" 18 (Some 30))
    (after_op 2 (OpAllocate 20) (after_op 1 (OpForStore 30 5 "eip155" "xpubN") demo_seen)).

Lemma allocation_from_own_account_witness :
  exists a d' m s w, allocate_derivation 31 6 (rt_db demo_pinned) = (Ok a, d') /\
    wd_methods (rt_db demo_pinned) !! 31 = Some m /\
    wd_stores (rt_db demo_pinned) !! pm_store_id m = Some s /\
    wd_wallets (rt_db demo_pinned) !! da_wallet_id a = Some w /\ wl_user_id w = so_owner_id s.
Proof.
  destruct (allocate_derivation 31 6 (rt_db demo_pinned)) as [[a|e] d'] eqn:Ha; [|by vm_compute in Ha].
  exists a, d'.
  destruct (allocation_from_own_account demo_account {[10; 11; 12; 20; 21; 22; 23]} demo_pinned 6 31 a d' demo_routing)
    as (m & s & w & Hm & Hs & Hw & Hu & _); [by vm_compute | | exact Ha |].
  - eapply rtc_l; [apply (route_op (OpForStore 30 5 "eip155" "xpubN") 1); [|done]|];
      [intros ? [= <-]; by vm_compute|].
    eapply rtc_l; [apply (route_op (OpAllocate 20) 2); done|].
    apply rtc_once. apply (route_op (OpInsertMethod 31 5 "eip155:10" None "ETH" 18 (Some 30)) 3);
      [intros ? [= <-]; by vm_compute|]. cbn. vm_compute. by left.
  - exists m, s, w. repeat (split; [assumption || reflexivity|]). exact Hu.
Defined.

Lemma set_store_wallet_redirects_witness :
  exists w, wd_wallets demo_account !! 10 = Some w /\
  exists m', wd_methods (snd (set_store_wallet 5 10 7 demo_account)) !! 21 = Some m' /\ pm_wallet_id m' = None /\
    resolved_wallet m' (snd (set_store_wallet 5 10 7 demo_account)) = Some (10, w).
Proof.
  destruct (set_store_wallet_redirects 5 10 7 demo_account (snd (set_store_wallet 5 10 7 demo_account))) as (w & Hw & Hall);
    [reflexivity|].
  exists w. split; [exact Hw|]. assert (w = w_evm) as -> by (vm_compute in Hw; by injection Hw as <-).
  exact (Hall 21 (meth 5 "eip155:137" (Some 11) 1) eq_refl).
Defined.

(** After an EVM rotation of store 5 the Tron method and the other store's
    method stay where they were. *)
Definition rotated : WalletDb := snd (rotate_store_xpub 30 5 "eip155" "xpubC" None 9 demo_account).

Example demo_rotated :
  (fun m => fst <$> (m ← wd_methods rotated !! m; resolved_wallet m rotated)) <$> [20; 21; 22; 23]
  = [Some 30; Some 30; Some 12; Some 10].
Proof. vm_compute. reflexivity. Qed.

Lemma rotation_moves_family_witness :
  exists rs, rotate_store_xpub 30 5 "eip155" "xpubC" None 9 demo_account = (Ok rs, rotated) /\
  exists new w, wd_wallets rotated !! new = Some w /\ wl_xpub w = "xpubC" /\
    exists m', wd_methods rotated !! 21 = Some m' /\ resolved_wallet m' rotated = Some (new, w).
Proof.
  destruct (rotate_store_xpub 30 5 "eip155" "xpubC" None 9 demo_account) as [[rs|e] d'] eqn:Hr; [|by vm_compute in Hr].
  assert (Hd : d' = rotated) by (unfold rotated; by rewrite Hr). rewrite <-Hd. exists rs. split; [done|].
  destruct (rotation_moves_family 30 5 "eip155" "xpubC" None 9 demo_account rs d' demo_routing Hr) as (new & w & Hw & Hx & Hall).
  exists new, w. split; [exact Hw|]. split; [exact Hx|].
  exact (proj1 (Hall 21 (meth 5 "eip155:137" (Some 11) 1) 11 w_evm2 eq_refl eq_refl)).
Defined.

(** Deleting a wallet nothing points at and adding its key again restarts the
    counter: the addresses of the open invoices are issued again. *)
Definition readded_ops : list (Instant * WalletOp) :=
  [(1, OpAllocate 20); (2, OpSetPrimary 1 11); (3, OpDelete 10); (4, OpCreate 31 1 "eip155" "xpubA" None);
   (5, OpSetPrimary 1 31); (6, OpAllocate 20)].

Example readded_key_reissues :
  alloc_key <$> wd_issued (run_ops readded_ops demo_account) = [("eip155", "xpubA", 0); ("eip155", "xpubA", 0)].
Proof. vm_compute. reflexivity. Qed.

(** Rotating one inheriting method moves the other inheriting methods of its
    store and family. *)
Definition sibling_account : WalletDb :=
  wd_set_methods (<[24 := meth 5 "eip155:10" None 4]> (wd_methods demo_account)) demo_account.

Example single_rotation_moves_siblings :
  (fun m => fst <$> (m ← wd_methods (snd (rotate_payment_method_xpub 30 5 20 "eip155" "xpubC" None 9 sibling_account)) !! m;
     resolved_wallet m (snd (rotate_payment_method_xpub 30 5 20 "eip155" "xpubC" None 9 sibling_account)))) <$> [20; 24; 21]
  = [Some 30; Some 30; Some 11].
Proof. vm_compute. reflexivity. Qed.

(** A primary that stores inherit may be deleted: their methods then resolve to
    nothing. *)
Example inherited_primary_deleted :
  (fst (delete_wallet 10 1 demo_account),
   fst (allocate_derivation 20 2 (snd (delete_wallet 10 1 demo_account))))
  = (Ok tt, Err (NotFound "payment method has no wallet in its chain family to derive from")).
Proof. vm_compute. reflexivity. Qed.

(** * Invoices *)

#[local] Open Scope Z_scope.
#[local] Existing Instance demo_up.

(** ** Decimals *)

#[export] Instance demo_rust_decimal : RustDecimal Q := {
  rd_parse := demo_parse;
  rd_to_string := fun q => demo_numeric_out (Qfloor (q * inject_Z (10 ^ 18)));
  rd_of_Z := inject_Z;
  rd_leb := Qle_bool;
  rd_checked_mul := fun a b => Some (a * b)%Q;
  rd_ceil := fun q => inject_Z (Qceiling q);
  rd_floor := fun q => inject_Z (Qfloor q);
  rd_is_sign_negative := fun q => (Qfloor q <? 0);
  rd_to_u128 := fun q => if (0 <=? Qfloor q) && (Qfloor q <? 2 ^ 128) then Some (Qfloor q) else None;
  rd_normalize := fun q => q;
  rd_scale := fun _ => 0;
  rd_mantissa := Qfloor
}.

#[export] Instance demo_rust_decimal_laws : RustDecimalLaws Q.
Proof.
  refine {| rd_value := fun q : Q => q |}; try (intros; reflexivity).
  - intros a b. apply Qle_bool_iff.
  - intros a b _. eexists. split; reflexivity.
  - intros a Ha. cbn [rd_is_sign_negative rd_floor demo_rust_decimal]. apply Z.ltb_ge. rewrite Qfloor_Z. change 0 with (Qfloor 0). apply Qfloor_resp_le. by apply Qlt_le_weak.
  - intros a n Hn Ha _. cbn [rd_to_u128 demo_rust_decimal]. assert (Hf : Qfloor a = n) by (rewrite (Qfloor_comp _ _ Ha); apply Qfloor_Z).
    by rewrite Hf, (proj2 (Z.leb_le 0 n)), (proj2 (Z.ltb_lt n _)) by lia.
Defined.

(** Ten dollars at 0.0005 ether a dollar are 5 * 10^15 wei. *)
Lemma quote_covers_invoice_witness :
  exists n, convert_to_crypto_smallest_unit "10" (5 # 10000)%Q 18 = Ok (z_to_string n) /\
    (10 <= inject_Z n / inject_Z (10 ^ 18) / (5 # 10000))%Q.
Proof.
  destruct (quote_covers_invoice (R:=Q) "10" (inject_Z 10) (5 # 10000)%Q 18) as (n & Hn & Hle & _).
  - vm_compute. reflexivity.
  - by vm_compute.
  - by vm_compute.
  - lia.
  - exists 50, 4. split; [lia|]. split; by vm_compute.
  - exists 5000000000000000, 0. split; [lia|]. split; by vm_compute.
  - exists n. split; [exact Hn | exact Hle].
Defined.

(** A quote in the invoice's own asset is rounded down: paying it in full leaves
    an invoice with more decimals than the asset short by more than the default
    tolerance. *)
Example same_asset_quote_short :
  convert_human_to_smallest_unit (R:=Q) "0.5000019" 6 = Ok "500001"%string /\
  (exists credited invoice tolerance,
     bd_parse (D:=Q) "0.500001" = Some credited /\ bd_parse "0.5000019" = Some invoice /\
     bd_parse DEFAULT_TOLERANCE_PERCENT = Some tolerance /\ is_fully_paid credited invoice tolerance = false).
Proof. split; [vm_compute; reflexivity|]. do 3 eexists. repeat split; vm_compute; reflexivity. Qed.

(** ** A store *)

#[local] Instance demo_columns : Numeric := {
  numeric18_in := fun s => q ← demo_parse s; Some (Qfloor (q * inject_Z (10 ^ 18)));
  numeric18_out := demo_numeric_out
}.

#[local] Instance demo_host : InvoiceHost Q := {
  is_fiat_currency := fun c => String.eqb c "USD";
  get_rate := fun _ from to_ =>
    if String.eqb from "USD" && negb (String.eqb to_ "XXX") then Ok ((5 # 10000)%Q, 0) else Err UnsupportedPair;
  is_stale := fun now at_ secs => at_ + seconds secs <? now;
  payment_method_id_new := fun symbol chain => symbol +:+ "-" +:+ chain;
  new_invoice_id := z_to_string;
  DEFAULT_INVOICE_EXPIRATION_SECS := 900;
  parse_u256 := z_parse
}.

(** The account key of the wallet of [Derivation]. *)
Definition account_text : string :=
  Eval vm_compute in match account_xpub_string_for toy_wallet Evm with Ok t => t | Err _ => ""%string end.

Definition shop_wallets (methods : gmap Z MethodRow) : WalletDb :=
  mkWalletDb {[10 := mkWalletRow 1 "eip155" account_text 3 None true 0]} ∅ methods {[5 := mkStoreRow 1 false]} [] [] demo_members.

Definition shop_db : Db := mkDb ∅ ∅ ∅ [] [] ∅ ∅ ∅ ∅ ∅ ∅ {[5 := "Shop"%string]}.

Definition shop (methods : gmap Z MethodRow) : Site :=
  mkSite (mkServer shop_db 0 0 ∅ ∅ ∅ [] [] [] [] [] [] []) (shop_wallets methods).

Definition one_method : gmap Z MethodRow := <[20 := meth 5 "eip155:1" None 0]> ∅.

Definition shop_request : CreateInvoiceRequest := mkCreateInvoiceRequest 5 "USD" "10" None None None.
Definition shop_caller : Caller := mkCaller 1 (Some ["ethpay.store.cancreateinvoice:5"%string]) false.

Definition shop_create (methods : gmap Z MethodRow) (caller : Caller) : result ApiError (InvoiceData * list PaymentOptionData) * Site :=
  create_invoice (R:=Q) (fun _ => None) [] true caller shop_request (shop methods).

Definition shop_created : InvoiceData * list PaymentOptionData :=
  match fst (shop_create one_method shop_caller) with
  | Ok r => r
  | Err _ => (mkInvoiceData "" 0 "" Pending "" "" 0 0 None None, [])
  end.
Definition shop_after : Site := snd (shop_create one_method shop_caller).

(** The quote, its address at index 3 of the key, and the command to the
    monitor. *)
Example shop_created_ok :
  (fun o => (pod_amount o, pod_payment_address o, pod_derivation_index o)) <$> snd shop_created
    = [("5000000000000000"%string, "3"%string, Some 3)] /\
  length (sv_commands (st_server shop_after)) = 1%nat /\
  wr_monitor_notified <$> db_watched (sv_db (st_server shop_after)) = [true].
Proof. vm_compute. repeat split. Qed.

(** A key scoped to another store is refused. *)
Example shop_foreign_key_refused :
  (fun e => ae_status e) <$>
    match fst (shop_create one_method (mkCaller 1 (Some ["ethpay.store.cancreateinvoice:6"%string]) false)) with
    | Err e => Some e | Ok _ => None end = Some 403.
Proof. vm_compute. reflexivity. Qed.

(** Two enabled tokens with one symbol on one chain share a payment method id:
    no invoice of the store can be created. *)
Definition two_usdc : gmap Z MethodRow :=
  <[20 := mkMethodRow 5 "eip155:137" (Some "111"%string) "USDC" 6 None true 0]>
    (<[21 := mkMethodRow 5 "eip155:137" (Some "222"%string) "USDC" 6 None true 1]> ∅).

Example same_symbol_methods_block_invoices :
  (fun e => (ae_status e, ae_message e)) <$>
    match fst (shop_create two_usdc shop_caller) with Err e => Some e | Ok _ => None end
    = Some (500, "Failed to create invoice"%string) /\
  sv_db (st_server (snd (shop_create two_usdc shop_caller))) = shop_db /\
  length (wd_issued (st_wallets (snd (shop_create two_usdc shop_caller)))) = 2%nat.
Proof. vm_compute. repeat split. Qed.

(** ** Witnesses *)

Lemma shop_ran : shop_create one_method shop_caller = (Ok shop_created, shop_after).
Proof. vm_compute. reflexivity. Qed.

Lemma shop_ran_pair : shop_create one_method shop_caller = (Ok (fst shop_created, snd shop_created), shop_after).
Proof. rewrite shop_ran. by destruct shop_created. Qed.

Lemma shop_unique : methods_unique (st_wallets (shop one_method)).
Proof. intros i j m v Hi Hj. cbn [st_wallets shop shop_wallets wd_methods] in Hi, Hj. unfold one_method in Hi, Hj. lookups; done. Qed.

Lemma invoice_creation_gated_witness : permitted [] (shop_wallets one_method) shop_caller shop_request.
Proof.
  apply (invoice_creation_gated (R:=Q) (fun _ => None) [] true shop_caller shop_request (shop one_method) (Ok shop_created) shop_after
    shop_ran). right. reflexivity.
Defined.

Lemma invoice_creation_atomic_witness :
  whole (fst shop_created) (snd shop_created) shop_db (sv_db (st_server shop_after)).
Proof.
  exact (invoice_creation_atomic (R:=Q) (fun _ => None) [] true shop_caller shop_request (shop one_method)
    (Ok (fst shop_created, snd shop_created)) shop_after shop_unique shop_ran_pair).
Defined.

Definition shop_option : PaymentOptionData :=
  Eval vm_compute in default (mkPaymentOptionData 0 "" "" "" "" None 0 "" None None "" None None false 0) (head (snd shop_created)).

Lemma quoted_addresses_expected_witness :
  asked_for 0 (sv_db (st_server shop_after))
    (recon_key_new (pod_chain_id shop_option) (pod_payment_address shop_option) (pod_token_address shop_option)
       (id_id (fst shop_created))).
Proof.
  assert (Ho : shop_option ∈ snd shop_created) by (vm_compute; left).
  exact (quoted_addresses_expected (R:=Q) (fun _ => None) [] true shop_caller shop_request (shop one_method)
    (fst shop_created) (snd shop_created) shop_after 0 shop_option shop_unique shop_ran_pair Ho).
Defined.

Lemma options_use_fresh_indices_witness :
  exists allocs, wd_issued (st_wallets shop_after) = wd_issued (st_wallets (shop one_method)) ++ allocs /\ length allocs = 1%nat.
Proof.
  destruct (options_use_fresh_indices (R:=Q) (fun _ => None) [] true shop_caller shop_request (shop one_method)
    (fst shop_created) (snd shop_created) shop_after shop_unique shop_ran_pair) as (allocs & Hi & Hf).
  exists allocs. split; [exact Hi|]. apply Forall2_length in Hf. rewrite <-Hf. vm_compute. reflexivity.
Defined.
