(* ===== verification/Idempotency.v ===== *)
(** * Idempotency keys

    [server/src/api/idempotency]: the middleware in front of the [POST] routes
    under [/invoices].  Requests run concurrently against one Redis, so the
    middleware is a program that pauses before each Redis command and before and
    after the handler; SHA-256 and the JSON of a cache entry are third-party
    code. *)

From stdpp Require Import gmap strings list.
From Stdlib Require Import ZArith Lia Ascii.
From S2P Require Import Prelude Events Network Services.

(** ** Configuration *)

Definition MAX_KEY_LENGTH : nat := 255.
Definition MAX_REQUEST_BODY : N := 1024 * 1024.
Definition MAX_RESPONSE_BODY : N := 1024 * 1024.
Definition LOCK_TTL_SECS : Z := 300.
Definition CACHE_PREFIX : string := "idem".
Definition LOCK_PREFIX : string := "idem_lock".
Definition DEFAULT_TTL_SECS : Z := 86400.

(** ** Requests and responses *)

(** Header names are in lower case, as the web framework hands them out. *)
Record HttpRequest := mkHttpRequest {
  rq_method : string;
  rq_path : string;
  rq_headers : list (string * string);
  rq_body : string
}.

Record HttpResponse := mkHttpResponse {
  rs_status : Z;
  rs_headers : list (string * string);
  rs_body : string
}.

Fixpoint get_header (name : string) (headers : list (string * string)) : option string :=
  match headers with
  | [] => None
  | (n, v) :: rest => if String.eqb n name then Some v else get_header name rest
  end.

Fixpoint str_forall (p : ascii -> bool) (s : string) : bool :=
  match s with EmptyString => true | String a rest => p a && str_forall p rest end.

(** [HeaderValue::to_str]: visible ASCII and tabs *)
Definition header_to_str (v : string) : option string :=
  if str_forall (fun a => let n := nat_of_ascii a in ((32 <=? n) && (n <? 127))%nat || (n =? 9)%nat) v
  then Some v else None.

(** [StatusCode::is_success] *)
Definition is_success (status : Z) : bool := (200 <=? status) && (status <? 300).

(** The length of a body, in binary. *)
Fixpoint body_len (s : string) : N := match s with EmptyString => 0%N | String _ rest => N.succ (body_len rest) end.

(** *** Keys *)

(** [validate_key] *)
Definition validate_key (val : string) : option string :=
  key_str ← header_to_str val;
  if String.eqb key_str "" || (MAX_KEY_LENGTH <? String.length key_str)%nat
     || negb (str_forall (fun a => (nat_of_ascii a <? 128)%nat) key_str)
  then None else Some key_str.

(** [str::strip_prefix] *)
Fixpoint strip_bearer (p s : string) : option string :=
  match p, s with
  | EmptyString, _ => Some s
  | String a p', String b s' => if Ascii.eqb a b then strip_bearer p' s' else None
  | _, _ => None
  end.

(** [extract_scope] *)
Definition extract_scope (req : HttpRequest) : option string :=
  h ← get_header "authorization" (rq_headers req);
  auth_str ← header_to_str h;
  token ← strip_bearer "Bearer " auth_str;
  if (String.length token <? 32)%nat then None else Some token.

(** *** Replay *)

Record CachedResponse := mkCachedResponse {
  ca_request_hash : string;
  ca_status : Z;
  ca_body : string;
  ca_headers : list (string * string)
}.

Definition NON_REPLAYABLE_HEADERS : list string :=
  ["date"; "server"; "connection"; "transfer-encoding"; "content-length"; "keep-alive"; "upgrade";
   "proxy-authenticate"; "proxy-authorization"; "te"; "trailers"; "idempotency-replayed"]%string.

(** [is_replayable_header] *)
Definition is_replayable_header (name : string) : bool :=
  negb (existsb (fun d => String.eqb (to_lowercase name) (to_lowercase d)) NON_REPLAYABLE_HEADERS).

(** [collect_cacheable_headers] *)
Definition collect_cacheable_headers (headers : list (string * string)) : list (string * string) :=
  omap (fun '(name, val) => if is_replayable_header name then v ← header_to_str val; Some (name, v) else None) headers.

(** [build_replay_response], on the status codes the cache is written with *)
Definition build_replay_response (cached : CachedResponse) : HttpResponse :=
  mkHttpResponse (ca_status cached) (ca_headers cached ++ [("idempotency-replayed", "true")]%string) (ca_body cached).

Definition conflict_response : HttpResponse := mkHttpResponse 409 [] "idempotency_key_reuse".
Definition in_flight_response : HttpResponse := mkHttpResponse 425 [] "idempotency_in_progress".
Definition invalid_key_response : HttpResponse := mkHttpResponse 400 [] "idempotency_key_invalid".

(** ** The world the requests share *)

(** A Redis value and the instant it expires at, in seconds; the requests whose
    handler was started, in order. *)
Record World := mkWorld {
  iw_now : Z;
  iw_cache : gmap string (string * Z);
  iw_lock : gmap string Z;
  iw_executed : list HttpRequest
}.

Definition live (now : Z) {A} (e : option (A * Z)) : option A :=
  match e with Some (a, until) => if now <? until then Some a else None | None => None end.

Class IdempotencyHost := {
  sha256_hex : string -> string;
  entry_to_json : CachedResponse -> string;
  entry_from_json : string -> option CachedResponse;
  (** the handler behind the middleware, by the number of the execution *)
  handler : nat -> HttpRequest -> HttpResponse
}.

Class IdempotencyLaws `{IdempotencyHost} := {
  entry_roundtrip e : entry_from_json (entry_to_json e) = Some e
}.

Section Middleware.
Context `{IdempotencyHost}.

(** [compute_hash] *)
Definition compute_hash (method path body : string) : string :=
  sha256_hex (method +:+ ":" +:+ path +:+ ":" +:+ body).

(** *** Redis commands: answered, not sent, or carried out with the reply lost *)

Inductive CacheLookup := Replay (r : HttpResponse) | CacheConflict | Miss | LookupError.

(** [cache_lookup] *)
Definition cache_lookup (cache_key request_hash : string) (c : Call) (w : World) : CacheLookup :=
  match c with
  | Answered =>
      match live (iw_now w) (iw_cache w !! cache_key) with
      | None => Miss
      | Some bytes =>
          match entry_from_json bytes with
          | None => Miss
          | Some entry =>
              if String.eqb (ca_request_hash entry) request_hash
              then Replay (build_replay_response entry) else CacheConflict
          end
      end
  | _ => LookupError
  end.

Definition set_locks (locks : gmap string Z) (w : World) : World :=
  mkWorld (iw_now w) (iw_cache w) locks (iw_executed w).

Definition lock_held (key : string) (w : World) : bool :=
  match iw_lock w !! key with Some until => iw_now w <? until | None => false end.

(** [acquire_lock]: [SET NX EX]; a failing command counts as acquired. *)
Definition acquire_lock (lock_key : string) (c : Call) (w : World) : bool * World :=
  let w' := if lock_held lock_key w then w
            else set_locks (<[lock_key := iw_now w + LOCK_TTL_SECS]> (iw_lock w)) w in
  match c with
  | Answered => (negb (lock_held lock_key w), w')
  | NotSent => (true, w)
  | ReplyLost => (true, w')
  end.

(** [release_lock]: [DEL], whoever set it *)
Definition release_lock (lock_key : string) (c : Call) (w : World) : World :=
  match c with NotSent => w | _ => set_locks (delete lock_key (iw_lock w)) w end.

(** The [SETEX] of [handle_and_cache] *)
Definition store_entry (cache_key : string) (ttl_secs : Z) (json : string) (c : Call) (w : World) : World :=
  match c with
  | NotSent => w
  | _ => mkWorld (iw_now w) (<[cache_key := (json, iw_now w + ttl_secs)]> (iw_cache w)) (iw_lock w) (iw_executed w)
  end.

(** *** A request, by what it waits for next *)

(** The two keys and the hash of a request that is handled idempotently. *)
Record Keyed := mkKeyed {
  ky_scope : string;
  ky_key : string;
  ky_hash : string
}.

Definition cache_key (ky : Keyed) : string := CACHE_PREFIX +:+ ":" +:+ ky_scope ky +:+ ":" +:+ ky_key ky.
Definition lock_key (ky : Keyed) : string := LOCK_PREFIX +:+ ":" +:+ ky_scope ky +:+ ":" +:+ ky_key ky.

(** [PassStart], [PassRunning]: the handler without a key; [Lookup], [Acquire]:
    the two commands before it; [Start], [Running]: the handler under the lock;
    [Store], [Release]: the commands after it. *)
Inductive Phase :=
| PassStart
| PassRunning (response : HttpResponse)
| Lookup (ky : Keyed)
| Acquire (ky : Keyed)
| Start (ky : Keyed)
| Running (ky : Keyed) (response : HttpResponse)
| Store (ky : Keyed) (response : HttpResponse)
| Release (ky : Keyed) (response : HttpResponse)
| Done (response : HttpResponse).

(** [middleware] up to its first command. *)
Definition middleware (req : HttpRequest) : Phase :=
  if negb (String.eqb (rq_method req) "POST") then PassStart
  else
    match get_header "idempotency-key" (rq_headers req) with
    | None => PassStart
    | Some key_header =>
        match validate_key key_header with
        | None => Done invalid_key_response
        | Some key_str =>
            match extract_scope req with
            | None => PassStart
            | Some scope =>
                if (MAX_REQUEST_BODY <? body_len (rq_body req))%N
                then Done (mkHttpResponse 413 [] "Request body too large")
                else Lookup (mkKeyed scope key_str (compute_hash (rq_method req) (rq_path req) (rq_body req)))
            end
        end
    end.

(** What [handle_and_cache] does once the handler has answered. *)
Definition after_handler (ky : Keyed) (response : HttpResponse) : Phase :=
  if negb (is_success (rs_status response)) then Release ky response
  else if (MAX_RESPONSE_BODY <? body_len (rs_body response))%N then Release ky (mkHttpResponse 500 [] "")
  else Store ky response.

Definition start_handler (req : HttpRequest) (w : World) : World :=
  mkWorld (iw_now w) (iw_cache w) (iw_lock w) (iw_executed w ++ [req]).

(** The entry [handle_and_cache] stores. *)
Definition cached_entry (ky : Keyed) (response : HttpResponse) : CachedResponse :=
  mkCachedResponse (ky_hash ky) (rs_status response) (rs_body response) (collect_cacheable_headers (rs_headers response)).

(** One step of [middleware] and [handle_and_cache]. *)
Definition middleware_step (ttl_secs : Z) (req : HttpRequest) (p : Phase) (c : Call) (w : World) : Phase * World :=
  match p with
  | PassStart => (PassRunning (handler (length (iw_executed w)) req), start_handler req w)
  | PassRunning response => (Done response, w)
  | Lookup ky =>
      (match cache_lookup (cache_key ky) (ky_hash ky) c w with
       | Replay r => Done r
       | CacheConflict => Done conflict_response
       | Miss => Acquire ky
       | LookupError => PassStart
       end, w)
  | Acquire ky =>
      let '(acquired, w') := acquire_lock (lock_key ky) c w in
      (if (acquired : bool) then Start ky else Done in_flight_response, w')
  | Start ky => (Running ky (handler (length (iw_executed w)) req), start_handler req w)
  | Running ky response => (after_handler ky response, w)
  | Store ky response =>
      (Release ky response, store_entry (cache_key ky) ttl_secs (entry_to_json (cached_entry ky response)) c w)
  | Release ky response => (Done response, release_lock (lock_key ky) c w)
  | Done response => (Done response, w)
  end.

(** ** Running *)

(** A request alone, every command answered. *)
Fixpoint run_alone (fuel : nat) (ttl_secs : Z) (req : HttpRequest) (p : Phase) (w : World) : Phase * World :=
  match fuel with
  | O => (p, w)
  | S fuel => let '(p', w') := middleware_step ttl_secs req p Answered w in run_alone fuel ttl_secs req p' w'
  end.

(** Several requests: one of them steps, or time passes. *)
Inductive Event := Run (i : nat) (c : Call) | Wait (secs : Z).

Definition Pool : Type := list (HttpRequest * Phase) * World.

Definition pool_event (ttl_secs : Z) (x : Pool) (e : Event) : Pool :=
  let '(ts, w) := x in
  match e with
  | Wait secs => (ts, mkWorld (iw_now w + secs) (iw_cache w) (iw_lock w) (iw_executed w))
  | Run i c =>
      match ts !! i with
      | Some (req, p) => let '(p', w') := middleware_step ttl_secs req p c w in (<[i := (req, p')]> ts, w')
      | None => (ts, w)
      end
  end.

Definition run_pool (ttl_secs : Z) (x : Pool) (es : list Event) : Pool := foldl (pool_event ttl_secs) x es.
End Middleware.

(** ** Retries *)

Section Retries.
Context `{IdempotencyLaws}.

Lemma run_alone_done fuel ttl req r w : run_alone fuel ttl req (Done r) w = (Done r, w).
Proof. by induction fuel. Qed.

(** A retry is answered from the cache.  A first request that succeeds runs
    the handler once and releases its lock; from then until its entry expires,
    every request with the same scope and key gets, without running the handler,
    the same status and body with the replayable headers, if it is the same
    request, and a conflict if its hash differs. *)
Theorem retry_replayed ttl req w ky :
  middleware req = Lookup ky ->
  live (iw_now w) (iw_cache w !! cache_key ky) = None -> lock_held (lock_key ky) w = false ->
  let resp := handler (length (iw_executed w)) req in
  is_success (rs_status resp) = true -> (body_len (rs_body resp) <= MAX_RESPONSE_BODY)%N ->
  exists w1, run_alone 6 ttl req (middleware req) w = (Done resp, w1) /\
    iw_executed w1 = iw_executed w ++ [req] /\ lock_held (lock_key ky) w1 = false /\
    forall req' ky' w2, middleware req' = Lookup ky' -> ky_scope ky' = ky_scope ky -> ky_key ky' = ky_key ky ->
      iw_cache w2 !! cache_key ky = iw_cache w1 !! cache_key ky -> iw_now w2 < iw_now w + ttl ->
      run_alone 1 ttl req' (middleware req') w2
      = (Done (if String.eqb (ky_hash ky) (ky_hash ky')
               then mkHttpResponse (rs_status resp)
                      (collect_cacheable_headers (rs_headers resp) ++ [("idempotency-replayed", "true")]%string) (rs_body resp)
               else conflict_response), w2).
Proof.
  intros Hm Hmiss Hfree resp Hok Hsize. eexists. split; [|split; [|split]].
  - rewrite Hm. cbn [run_alone middleware_step]. unfold cache_lookup. rewrite Hmiss. cbn [run_alone middleware_step].
    unfold acquire_lock. rewrite Hfree. cbn [run_alone middleware_step negb set_locks iw_executed start_handler]. fold resp.
    unfold after_handler. rewrite Hok. rewrite (proj2 (N.ltb_ge _ _)) by done. cbn [negb run_alone middleware_step store_entry release_lock].
    reflexivity.
  - done.
  - unfold lock_held, set_locks. cbn. by rewrite lookup_delete_eq.
  - intros req' ky' w2 Hm' Hs Hk Hc Hnow. rewrite Hm'. cbn [run_alone middleware_step]. unfold cache_lookup.
    assert (cache_key ky' = cache_key ky) as -> by (unfold cache_key; by rewrite Hs, Hk).
    rewrite Hc. cbn [iw_cache set_locks start_handler iw_now]. rewrite lookup_insert_eq. unfold live.
    rewrite (proj2 (Z.ltb_lt _ _)) by (cbn; lia). rewrite entry_roundtrip. cbn [cached_entry ca_request_hash].
    by destruct (String.eqb (ky_hash ky) (ky_hash ky')).
Qed.
End Retries.

(** * Idempotency keys under concurrency

    The lock of [middleware.rs] excludes two requests with the same scope and key
    as long as Redis answers and no request outlives its lock. *)

Section Exclusion.
Context `{IdempotencyHost}.
Variable ttl_secs : Z.

(** The key whose lock a request holds: from the acquiring [SET NX] to the [DEL]. *)
Definition holding (p : Phase) : option Keyed :=
  match p with Start ky | Running ky _ | Store ky _ | Release ky _ => Some ky | _ => None end.

Definition holds (x : Pool) (i : nat) (ky : Keyed) : Prop :=
  exists req p, x.1 !! i = Some (req, p) /\ holding p = Some ky.

Definition arrivals (reqs : list HttpRequest) (w : World) : Pool := (map (fun r => (r, middleware r)) reqs, w).

Definition all_answered (es : list Event) : Prop := Forall (fun e => match e with Run _ c => c = Answered | Wait _ => True end) es.

Definition waited (es : list Event) : Z := foldr (fun e acc => (match e with Wait s => s | Run _ _ => 0 end) + acc) 0 es.

(** No request holds its lock for as long as the lock lives. *)
Definition prompt (x : Pool) (es : list Event) : Prop :=
  forall es1 es2 es3 i ky, es = es1 ++ es2 ++ es3 ->
    holds (run_pool ttl_secs x es1) i ky -> holds (run_pool ttl_secs x (es1 ++ es2)) i ky -> waited es2 < LOCK_TTL_SECS.

(** The lock entry of a holder is the one its own [SET NX] wrote. *)
Definition own_lock (x : Pool) (es : list Event) (i : nat) (ky : Keyed) : Prop :=
  exists es1 es2, es = es1 ++ es2 /\ holds (run_pool ttl_secs x es1) i ky /\
    iw_lock (run_pool ttl_secs x es).2 !! lock_key ky
    = Some (iw_now (run_pool ttl_secs x es).2 + LOCK_TTL_SECS - waited es2).

Definition exclusive (x : Pool) : Prop :=
  forall i j ky ky', holds x i ky -> holds x j ky' -> i <> j -> lock_key ky <> lock_key ky'.

Lemma waited_snoc es e : waited (es ++ [e]) = waited es + match e with Wait s => s | Run _ _ => 0 end.
Proof. induction es as [|e' es IH]; cbn [app waited foldr]; [|fold (waited (es ++ [e])) (waited es); rewrite IH]; destruct e; lia. Qed.

Lemma waited_app es es' : waited (es ++ es') = waited es + waited es'.
Proof. induction es as [|e es IH]; cbn [app waited foldr]; [done|]. fold (waited (es ++ es')) (waited es). rewrite IH. lia. Qed.

(** A run shorter than the lock's lifetime is prompt. *)
Lemma short_run_prompt x es :
  Forall (fun e => match e with Wait s => 0 <= s | Run _ _ => True end) es -> waited es < LOCK_TTL_SECS -> prompt x es.
Proof.
  intros Hf Hw es1 es2 es3 i ky -> _ _. apply Forall_app in Hf as [Hf1 [_ Hf3]%Forall_app].
  assert (Hpos : forall l, Forall (fun e => match e with Wait s => 0 <= s | Run _ _ => True end) l -> 0 <= waited l).
  { induction 1 as [|e l He _ IH]; cbn [waited foldr]; [done|]. fold (waited l). destruct e; lia. }
  apply Hpos in Hf1, Hf3. rewrite !waited_app in Hw. lia.
Qed.

Lemma run_pool_snoc x es e : run_pool ttl_secs x (es ++ [e]) = pool_event ttl_secs (run_pool ttl_secs x es) e.
Proof. unfold run_pool. by rewrite foldl_app. Qed.

Lemma arrivals_hold_nothing reqs w i ky : ~ holds (arrivals reqs w) i ky.
Proof.
  intros (req & p & Hi & Hp). unfold arrivals in Hi. cbn in Hi. rewrite list_lookup_fmap in Hi.
  destruct (reqs !! i) as [r|]; [|done]. cbn in Hi. injection Hi as <- <-. unfold middleware in Hp.
  repeat case_match; done.
Qed.

Lemma prompt_prefix x es e : prompt x (es ++ [e]) -> prompt x es.
Proof. intros Hp es1 es2 es3 i ky ->. apply (Hp es1 es2 (es3 ++ [e])). by rewrite <- !app_assoc. Qed.

(** One answered step: the lock map changes only by the stepping request's own
    acquisition or release. *)
Lemma middleware_step_locks req p w p' w' :
  middleware_step ttl_secs req p Answered w = (p', w') ->
  iw_now w' = iw_now w /\
  ((exists ky, p = Acquire ky /\ holding p' = Some ky /\ lock_held (lock_key ky) w = false /\
      iw_lock w' = <[lock_key ky := iw_now w + LOCK_TTL_SECS]> (iw_lock w)) \/
   (exists ky, holding p = Some ky /\ holding p' = None /\ iw_lock w' = delete (lock_key ky) (iw_lock w)) \/
   (iw_lock w' = iw_lock w /\ (forall ky, holding p' = Some ky -> holding p = Some ky))).
Proof.
  intros E. destruct p; cbn [middleware_step] in E.
  4: { unfold acquire_lock in E. destruct (lock_held (lock_key ky) w) eqn:Hh; injection E as <- <-; split; try done.
       - right. right. done.
       - left. by exists ky. }
  7: { injection E as <- <-. split; [done|]. right. left. by exists ky. }
  all: injection E as <- <-; split; [done|]; right; right; split; [done|]; cbn; intros ky'; try done.
  - by repeat case_match.
  - unfold after_handler. by repeat case_match.
Qed.

Lemma holds_insert ts (w : World) i j (req : HttpRequest) (p : Phase) ky :
  holds (<[i := (req, p)]> ts, w) j ky ->
  (j = i /\ holding p = Some ky) \/ (j <> i /\ holds (ts, w) j ky).
Proof.
  intros (req' & p' & Hj & Hp). cbn in Hj. destruct (decide (i = j)) as [<-|Hn].
  - apply list_lookup_insert_Some in Hj as [(_ & E & _)|(E & _)]; [|done]. injection E as <- <-. by left.
  - rewrite list_lookup_insert_ne in Hj by done. right. split; [done|]. by exists req', p'.
Qed.

(** A holder's lock is live while the run is prompt. *)
Lemma own_lock_live x es i ky :
  prompt x es -> own_lock x es i ky -> holds (run_pool ttl_secs x es) i ky ->
  lock_held (lock_key ky) (run_pool ttl_secs x es).2 = true.
Proof.
  intros Hp (es1 & es2 & -> & H1 & Hl) Hh. unfold lock_held. rewrite Hl.
  pose proof (Hp es1 es2 [] i ky ltac:(by rewrite app_nil_r) H1 Hh). apply Z.ltb_lt. lia.
Qed.

Definition lock_invariant (x : Pool) (es : list Event) : Prop :=
  exclusive (run_pool ttl_secs x es) /\
  (forall i ky, holds (run_pool ttl_secs x es) i ky -> own_lock x es i ky).

(** The lock entry survives a step that leaves it alone. *)
Lemma own_lock_step x es e i ky :
  own_lock x es i ky ->
  iw_lock (run_pool ttl_secs x (es ++ [e])).2 !! lock_key ky = iw_lock (run_pool ttl_secs x es).2 !! lock_key ky ->
  iw_now (run_pool ttl_secs x (es ++ [e])).2
  = iw_now (run_pool ttl_secs x es).2 + match e with Wait s => s | Run _ _ => 0 end ->
  own_lock x (es ++ [e]) i ky.
Proof.
  intros (es1 & es2 & -> & H1 & Hl) Hlk Hnow. exists es1, (es2 ++ [e]). split; [by rewrite app_assoc|]. split; [done|].
  rewrite Hlk, Hl, Hnow, waited_snoc. f_equal. lia.
Qed.

Lemma lock_invariant_wait x es s : lock_invariant x es -> lock_invariant x (es ++ [Wait s]).
Proof.
  intros [He Ho]. unfold lock_invariant. rewrite run_pool_snoc.
  destruct (run_pool ttl_secs x es) as [ts w] eqn:Ex. cbn [pool_event]. split.
  - intros i j ky ky' Hi Hj. by apply (He i j).
  - intros i ky Hi. apply own_lock_step; [by apply Ho|rewrite run_pool_snoc, Ex; done..].
Qed.

Lemma lock_invariant_run x es i :
  prompt x es -> lock_invariant x es -> lock_invariant x (es ++ [Run i Answered]).
Proof.
  intros Hprompt [He Ho]. unfold lock_invariant. rewrite run_pool_snoc.
  assert (Hlive : forall j ky, holds (run_pool ttl_secs x es) j ky -> lock_held (lock_key ky) (run_pool ttl_secs x es).2 = true)
    by (intros j ky Hj; apply (own_lock_live x es j ky); eauto).
  destruct (run_pool ttl_secs x es) as [ts w] eqn:Ex. cbn [pool_event].
  destruct (ts !! i) as [[req p]|] eqn:Ei.
  2: { split; [done|]. intros j ky Hj. apply own_lock_step; [by apply Ho|rewrite run_pool_snoc, Ex; cbn; rewrite Ei; try done; cbn; lia..]. }
  destruct (middleware_step ttl_secs req p Answered w) as [p' w'] eqn:Ea.
  assert (Estep : run_pool ttl_secs x (es ++ [Run i Answered]) = (<[i := (req, p')]> ts, w'))
    by (rewrite run_pool_snoc, Ex; cbn; rewrite Ei, Ea; done).
  assert (Hself : forall ky, holding p = Some ky -> holds (ts, w) i ky) by (intros ky Hk; by exists req, p).
  destruct (middleware_step_locks _ _ _ _ _ Ea) as (Hnow & Hcases).
  assert (Hkeep : forall j ky, holds (ts, w) j ky -> iw_lock w' !! lock_key ky = iw_lock w !! lock_key ky ->
                    own_lock x (es ++ [Run i Answered]) j ky)
    by (intros j ky Hj Hl; apply own_lock_step; [by apply Ho|rewrite Estep, Ex; cbn; try done; lia..]).
  destruct Hcases as [(k & -> & Hk' & Hfree & Hl)|[(k & Hk & Hk' & Hl)|(Hl & Hsame)]].
  - assert (Hnew : forall j ky, holds (ts, w) j ky -> lock_key k <> lock_key ky)
      by (intros j ky Hj Heq; pose proof (Hlive j ky Hj) as Hv; cbn in Hv; rewrite <- Heq in Hv; congruence).
    split.
    + intros a b ka kb [[-> Ha]|[Hna Ha]]%holds_insert [[-> Hb]|[Hnb Hb]]%holds_insert Hab; [done|..].
      * assert (ka = k) as -> by congruence. by apply (Hnew b).
      * assert (kb = k) as -> by congruence. intros Heq. by apply (Hnew a ka Ha).
      * by apply (He a b).
    + intros j ky Hj0. pose proof Hj0 as [[-> Hj]|[Hn Hj]]%holds_insert.
      * assert (ky = k) as -> by congruence. exists (es ++ [Run i Answered]), []. rewrite app_nil_r. split; [done|].
        rewrite Estep. split; [done|]. cbn. rewrite Hl, lookup_insert_eq. f_equal. cbn. lia.
      * apply Hkeep; [done|]. rewrite Hl, lookup_insert_ne; [done|]. by apply (Hnew j).
  - split.
    + intros a b ka kb [[-> Ha]|[Hna Ha]]%holds_insert [[-> Hb]|[Hnb Hb]]%holds_insert Hab; [congruence..|by apply (He a b)].
    + intros j ky [[-> Hj]|[Hn Hj]]%holds_insert; [congruence|]. apply Hkeep; [done|]. rewrite Hl, lookup_delete_ne; [done|].
      apply (He i j); auto.
  - split.
    + intros a b ka kb [[-> Ha]|[Hna Ha]]%holds_insert [[-> Hb]|[Hnb Hb]]%holds_insert Hab; [done|..]; eapply He; eauto.
    + intros j ky [[-> Hj]|[Hn Hj]]%holds_insert; apply Hkeep; rewrite ?Hl; auto.
Qed.

Lemma lock_invariant_holds reqs w es :
  all_answered es -> prompt (arrivals reqs w) es -> lock_invariant (arrivals reqs w) es.
Proof.
  induction es as [|e es IH] using rev_ind; intros Ha Hp.
  - split; [intros i j ky ky' Hi|intros i ky Hi]; by apply arrivals_hold_nothing in Hi.
  - unfold all_answered in Ha. apply Forall_app in Ha as [Ha He]. rewrite Forall_singleton in He.
    pose proof (prompt_prefix _ _ _ Hp) as Hp'. specialize (IH Ha Hp').
    destruct e as [i c|s]; [subst c; by apply lock_invariant_run|by apply lock_invariant_wait].
Qed.

(** C18. The lock excludes.  However many requests interleave, while Redis answers
    and none of them holds its lock for its full lifetime, no two of them are
    between acquiring and releasing the lock of the same scope and key, so the
    handler never runs twice at once for one key. *)
Theorem idempotent_runs_exclude reqs w es :
  all_answered es -> prompt (arrivals reqs w) es ->
  forall i j ky ky', i <> j ->
    holds (run_pool ttl_secs (arrivals reqs w) es) i ky -> holds (run_pool ttl_secs (arrivals reqs w) es) j ky' ->
    ky_scope ky = ky_scope ky' -> ky_key ky <> ky_key ky'.
Proof.
  intros Ha Hp i j ky ky' Hij Hi Hj Hs Hk. destruct (lock_invariant_holds reqs w es Ha Hp) as [He _].
  apply (He i j ky ky' Hi Hj Hij). unfold lock_key. by rewrite Hs, Hk.
Qed.
End Exclusion.
