(* ===== verification/Payouts.v ===== *)
(** * Payouts

    [server/src/api/payouts.rs] and [data-service/src/postgres/payout.rs]: a
    merchant records that they will move the money of some invoices out of their
    derived addresses, and later that they did or will not.  A payout claims its
    invoices until it has failed. *)

From stdpp Require Import gmap strings list sorting.
From Stdlib Require Import ZArith Lia.
From S2P Require Import Prelude Events Decimal Database Services Wallets.

(** ** Data *)

Inductive PayoutStatus := PayoutPending | PayoutBroadcasting | PayoutConfirmed | PayoutFailed.

#[export] Instance PayoutStatus_eq_dec : EqDecision PayoutStatus.
Proof. solve_decision. Defined.

Record PayoutData := mkPayoutData {
  pt_id : Uuid;
  pt_store_id : Uuid;
  pt_invoice_ids : list string;
  pt_destination_address : string;
  pt_chain_id : string;
  pt_asset_type : string;
  pt_asset_symbol : string;
  pt_token_address : option string;
  pt_amount : string;
  pt_tx_hash : option string;
  pt_status : PayoutStatus;
  pt_fee_amount : option string;
  pt_error_message : option string;
  pt_created_at : Instant;
  pt_confirmed_at : option Instant
}.

(** [CreatePayoutRequest] *)
Record CreatePayoutRequest := mkCreatePayoutRequest {
  cp_invoice_ids : list string;
  cp_destination_address : string;
  cp_chain_id : string;
  cp_asset_symbol : string;
  cp_token_address : option string
}.

Record SettlePayoutRequest := mkSettlePayoutRequest { sp_tx_hash : string }.
Record AbandonPayoutRequest := mkAbandonPayoutRequest { ap_reason : option string }.

(** The authenticated user. *)
Record SessionUser := mkSessionUser { su_id : Uuid; su_is_admin : bool }.

(** The site with the table [payouts]. *)
Record Books := mkBooks {
  bk_site : Site;
  bk_payouts : gmap Z PayoutData
}.

Definition on_site {E A} (m : St Site E A) : St Books E A :=
  fun b => let '(r, s) := m (bk_site b) in (r, mkBooks s (bk_payouts b)).

(** ** Statements *)

Definition PStatement (A : Type) : Type := Instant -> Books -> result RepositoryError A * gmap Z PayoutData.

(** [PayoutReader::get_payout] *)
Definition get_payout_row (id : Uuid) : PStatement (option PayoutData) := fun _ b => (Ok (bk_payouts b !! id), bk_payouts b).

Definition payouts_where (p : PayoutData -> bool) (b : Books) : list PayoutData :=
  List.filter p (map_to_list (bk_payouts b)).*2.

(** [ORDER BY created_at] *)
Definition payout_older (p q : PayoutData) : Prop := pt_created_at p <= pt_created_at q.
#[export] Instance payout_older_dec p q : Decision (payout_older p q) := Z_le_dec _ _.

(** [PayoutReader::get_payouts_for_store] *)
Definition get_payouts_for_store (store_id : Uuid) (limit offset : nat) : PStatement (nat * list PayoutData) :=
  fun _ b =>
    let own := payouts_where (fun p => pt_store_id p =? store_id) b in
    (Ok (length own, take limit (drop offset (reverse (merge_sort payout_older own)))), bk_payouts b).

(** [PayoutReader::get_active_payouts] *)
Definition get_active_payouts : PStatement (list PayoutData) :=
  fun _ b => (Ok (merge_sort payout_older (payouts_where (fun p =>
      match pt_status p with PayoutPending | PayoutBroadcasting => true | _ => false end) b)), bk_payouts b).

(** [PayoutClaimReader::invoice_ids_already_claimed] *)
Definition invoice_ids_already_claimed (store_id : Uuid) (invoice_ids : list string) : PStatement (list string) :=
  fun _ b =>
    (Ok (if bool_decide (invoice_ids = []) then []
         else remove_dups (List.filter (fun i => bool_decide (i ∈ invoice_ids))
                (concat (pt_invoice_ids <$> payouts_where (fun p =>
                   (pt_store_id p =? store_id) && bool_decide (pt_status p <> PayoutFailed)) b)))), bk_payouts b).

(** [PayoutWriter::create_payout] *)
Definition insert_payout (payout : PayoutData) : PStatement unit :=
  fun _ b =>
    if bool_decide (is_Some (bk_payouts b !! pt_id payout)) then (Err (Database "duplicate key"), bk_payouts b)
    else if negb (bool_decide (is_Some (wd_stores (st_wallets (bk_site b)) !! pt_store_id payout)))
    then (Err (Database "foreign key violation"), bk_payouts b)
    else (Ok tt, <[pt_id payout := payout]> (bk_payouts b)).

(** The [SET] of [update_payout_status]. *)
Definition with_status (status : PayoutStatus) (tx_hash fee_amount error_message : option string) (p : PayoutData) : PayoutData :=
  {| pt_id := pt_id p;
     pt_store_id := pt_store_id p;
     pt_invoice_ids := pt_invoice_ids p;
     pt_destination_address := pt_destination_address p;
     pt_chain_id := pt_chain_id p;
     pt_asset_type := pt_asset_type p;
     pt_asset_symbol := pt_asset_symbol p;
     pt_token_address := pt_token_address p;
     pt_amount := pt_amount p;
     pt_tx_hash := coalesce tx_hash (pt_tx_hash p);
     pt_status := status;
     pt_fee_amount := coalesce fee_amount (pt_fee_amount p);
     pt_error_message := coalesce error_message (pt_error_message p);
     pt_created_at := pt_created_at p;
     pt_confirmed_at := pt_confirmed_at p |}.

(** [PayoutWriter::update_payout_status] *)
Definition update_payout_status (id : Uuid) (status : PayoutStatus) (tx_hash fee_amount error_message : option string)
  : PStatement unit :=
  fun _ b => (Ok tt, alter (with_status status tx_hash fee_amount error_message) id (bk_payouts b)).

(** [PayoutWriter::confirm_payout] *)
Definition confirm_payout (id : Uuid) : PStatement unit :=
  fun now b => (Ok tt, alter (fun p =>
    mkPayoutData (pt_id p) (pt_store_id p) (pt_invoice_ids p) (pt_destination_address p) (pt_chain_id p) (pt_asset_type p)
      (pt_asset_symbol p) (pt_token_address p) (pt_amount p) (pt_tx_hash p) PayoutConfirmed (pt_fee_amount p)
      (pt_error_message p) (pt_created_at p) (Some now)) id (bk_payouts b)).

(** [UserStoreRepository::get_user_store], the role of a member *)
Definition get_user_store (user_id store_id : Uuid) : WStatement (option Uuid) :=
  wselect (fun d => mb_user_stores (wd_members d) !! (user_id, store_id)).

(** [PaymentReader::get_valid_for_invoice] *)
Definition get_valid_for_invoice `{Numeric} (invoice_id : string) : Statement (list PaymentData) :=
  select (fun d => (fun kr => row_to_payment kr.1 kr.2)
                     <$> payments_where (fun _ r => String.eqb (pay_invoice_id r) invoice_id && negb (pay_reorged r)) d).

(** ** Handlers *)

(** The text form of 256-bit integers, of the library of primitive types. *)
Class U256Text := { u256_from_str : string -> option Z }.

Class U256TextLaws `{U256Text} := {
  u256_from_decimal n : u256_from_str (z_to_string n) = if (0 <=? n) && (n <? 2 ^ 256) then Some n else None
}.

(** Addition of [U256], which wraps. *)
Definition u256_add (a b : Z) : Z := (a + b) mod 2 ^ 256.

Section Payouts.
Context `{Runtime} `{Numeric} `{U256Text}.

Abbreviation Reply A := (St Books Z A).

(** One statement of the payout table. *)
Definition pdb {A} (stmt : PStatement A) : St Books RepositoryError A :=
  fun b =>
    let sv := st_server (bk_site b) in
    let b' x := mkBooks (mkSite (tick sv) (st_wallets (bk_site b))) x in
    match calls (sv_ticks sv) with
    | Answered => let '(r, x) := stmt (clock (sv_ticks sv)) b in (r, b' x)
    | NotSent => (Err db_lost, b' (bk_payouts b))
    | ReplyLost => (Err db_lost, b' (snd (stmt (clock (sv_ticks sv)) b)))
    end.

(** [.map_err(|_| StatusCode::INTERNAL_SERVER_ERROR)] *)
Definition or_500 {S A} (m : St S RepositoryError A) : St S Z A := st_map_err (fun _ => 500) m.

(** [sum_payable] *)
Definition sum_payable (payments : list PaymentData) (chain_id asset_symbol : string) : Z :=
  foldl u256_add 0 (omap (fun p => u256_from_str (pda_amount p)) (List.filter (fun p =>
    bool_decide (is_Some (pda_confirmed_at p)) && negb (pda_reorged p) && String.eqb (pda_chain_id p) chain_id
      && String.eqb (pda_asset_symbol p) asset_symbol) payments)).

(** One turn of the loop of [payable_total]. *)
Definition add_invoice (store_id : Uuid) (chain_id asset_symbol : string) (total : Z) (invoice_id : string) : Reply Z :=
  let* r := on_site (on_server (or_500 (db (invoice_get invoice_id)))) in
  match r with
  | None => st_throw 404
  | Some invoice =>
      if negb (id_store_id invoice =? store_id) then st_throw 404
      else
        let* payments := on_site (on_server (or_500 (db (get_valid_for_invoice invoice_id)))) in
        st_ret (u256_add total (sum_payable payments chain_id asset_symbol))
  end.

(** [payable_total] *)
Definition payable_total (store_id : Uuid) (invoice_ids : list string) (chain_id asset_symbol : string) : Reply Z :=
  st_fold (add_invoice store_id chain_id asset_symbol) 0 invoice_ids.

(** [reject_claimed_invoices] *)
Definition reject_claimed_invoices (store_id : Uuid) (invoice_ids : list string) : Reply unit :=
  let* claimed := or_500 (pdb (invoice_ids_already_claimed store_id invoice_ids)) in
  if bool_decide (claimed = []) then st_ret tt else st_throw 409.

(** [payout_for_store] *)
Definition payout_for_store (store_id payout_id : Uuid) : Reply PayoutData :=
  let* r := or_500 (pdb (get_payout_row payout_id)) in
  match r with
  | None => st_throw 404
  | Some payout => if negb (pt_store_id payout =? store_id) then st_throw 404 else st_ret payout
  end.

(** The check every handler starts with. *)
Definition require_member (user : SessionUser) (store_id : Uuid) : Reply unit :=
  if su_is_admin user then st_ret tt
  else
    let* m := on_site (or_500 (wdb (get_user_store (su_id user) store_id))) in
    match m with Some _ => st_ret tt | None => st_throw 404 end.

(** [create_payout] up to its [INSERT]. *)
Definition prepare_payout (user : SessionUser) (store_id : Uuid) (body : CreatePayoutRequest) : Reply PayoutData :=
  do* require_member user store_id;
  if String.eqb (trim (cp_destination_address body)) "" then st_throw 400
  else if bool_decide (cp_invoice_ids body = []) then st_throw 400
  else
  let* total_amount := payable_total store_id (cp_invoice_ids body) (cp_chain_id body) (cp_asset_symbol body) in
  do* reject_claimed_invoices store_id (cp_invoice_ids body);
  if total_amount =? 0 then st_throw 400
  else
  let asset_type := (match cp_token_address body with Some _ => "erc20" | None => "native" end)%string in
  let* id := on_site (on_server fresh) in
  let* created_at := on_site (on_server utc_now) in
  st_ret
    {| pt_id := id;
       pt_store_id := store_id;
       pt_invoice_ids := cp_invoice_ids body;
       pt_destination_address := cp_destination_address body;
       pt_chain_id := cp_chain_id body;
       pt_asset_type := asset_type;
       pt_asset_symbol := cp_asset_symbol body;
       pt_token_address := cp_token_address body;
       pt_amount := z_to_string total_amount;
       pt_tx_hash := None;
       pt_status := PayoutPending;
       pt_fee_amount := None;
       pt_error_message := None;
       pt_created_at := created_at;
       pt_confirmed_at := None |}.

(** [create_payout] *)
Definition create_payout (user : SessionUser) (store_id : Uuid) (body : CreatePayoutRequest) : Reply PayoutData :=
  let* payout := prepare_payout user store_id body in
  do* or_500 (pdb (insert_payout payout));
  st_ret payout.

(** [list_payouts] *)
Definition list_payouts (user : SessionUser) (store_id : Uuid) : Reply (nat * list PayoutData) :=
  do* require_member user store_id;
  or_500 (pdb (get_payouts_for_store store_id 50 0)).

(** [get_payout] *)
Definition get_payout (user : SessionUser) (store_id payout_id : Uuid) : Reply PayoutData :=
  do* require_member user store_id;
  payout_for_store store_id payout_id.

(** The common end of [settle_payout] and [abandon_payout]. *)
Definition close_payout (store_id payout_id : Uuid) (status : PayoutStatus) (tx_hash error_message : option string)
  : Reply PayoutData :=
  let* payout := payout_for_store store_id payout_id in
  if negb (bool_decide (pt_status payout = PayoutPending)) then st_throw 409
  else
  do* or_500 (pdb (update_payout_status payout_id status tx_hash None error_message));
  payout_for_store store_id payout_id.

(** [settle_payout] *)
Definition settle_payout (user : SessionUser) (store_id payout_id : Uuid) (body : SettlePayoutRequest) : Reply PayoutData :=
  do* require_member user store_id;
  let tx_hash := trim (sp_tx_hash body) in
  if String.eqb tx_hash "" then st_throw 400
  else close_payout store_id payout_id PayoutConfirmed (Some tx_hash) None.

(** [abandon_payout] *)
Definition abandon_payout (user : SessionUser) (store_id payout_id : Uuid) (body : option AbandonPayoutRequest) : Reply PayoutData :=
  do* require_member user store_id;
  let reason := default "abandoned by the merchant"%string (b ← body; ap_reason b) in
  close_payout store_id payout_id PayoutFailed None (Some reason).
End Payouts.
