(* ===== verification/PayoutFacts.v ===== *)
(** * Payouts: claims, amounts and the end of a payout

    Handlers that run one after the other, with any of their requests failing,
    keep every invoice's money claimed at most once, and a payout that was
    settled or abandoned stays as it is. *)

From stdpp Require Import gmap strings list relations sorting.
From Stdlib Require Import ZArith Lia.
From S2P Require Import Prelude Events Decimal Database DatabaseFacts Services Wallets Payouts.

(** ** Reading handlers *)

(** What a handler can see of the tables. *)
Definition Tables : Type := Db * WalletDb * gmap Z PayoutData.
Definition tables_of (b : Books) : Tables := (sv_db (st_server (bk_site b)), st_wallets (bk_site b), bk_payouts b).

Lemma same_payouts b b' : tables_of b' = tables_of b -> bk_payouts b' = bk_payouts b.
Proof. intros Ht. exact (f_equal snd Ht). Qed.

(** [m] changes no table, and what it returns is justified by them. *)
Definition reads {E A} (m : St Books E A) (Q : Tables -> A -> Prop) : Prop :=
  forall b r b', m b = (r, b') -> tables_of b' = tables_of b /\ (forall a, r = Ok a -> Q (tables_of b) a).

Create HintDb reads.

Section Reads.
Context {E : Type}.

Lemma reads_ret {A} (a : A) : reads (@st_ret Books E A a) (fun _ x => x = a).
Proof. intros b r b' [= <- <-]. split; [done|]. congruence. Qed.

Lemma reads_throw {A} (e : E) (Q : Tables -> A -> Prop) : reads (@st_throw Books E A e) Q.
Proof. intros b r b' [= <- <-]. done. Qed.

Lemma reads_bind {A B} (m : St Books E A) (f : A -> St Books E B) Q R :
  reads m Q -> (forall a, reads (f a) (R a)) -> reads (st_bind m f) (fun t c => exists a, Q t a /\ R a t c).
Proof.
  intros Hm Hf b r b'. unfold st_bind. destruct (m b) as [[a|e] b1] eqn:E1; destruct (Hm _ _ _ E1) as [T1 Q1].
  - intros E2. destruct (Hf a _ _ _ E2) as [T2 R2]. split; [congruence|]. intros c ->. exists a. split; [by apply Q1|]. rewrite <- T1. by apply R2.
  - intros [= <- <-]. done.
Qed.

Lemma reads_mono {A} (m : St Books E A) (Q R : Tables -> A -> Prop) :
  reads m Q -> (forall t a, Q t a -> R t a) -> reads m R.
Proof. intros Hm Hi b r b' Hb. destruct (Hm _ _ _ Hb) as [T Q1]. eauto. Qed.

Lemma reads_fold {A B} (f : B -> A -> St Books E B) (P : Tables -> A -> Prop) (g : Tables -> B -> A -> B) l acc :
  (forall acc x, reads (f acc x) (fun t acc' => P t x /\ acc' = g t acc x)) ->
  reads (st_fold f acc l) (fun t r => Forall (P t) l /\ r = foldl (g t) acc l).
Proof.
  intros Hf. revert acc. induction l as [|x l IH]; intros acc; cbn [st_fold].
  - eapply reads_mono; [apply reads_ret|]. by intros t a ->.
  - eapply reads_mono; [apply reads_bind; [apply Hf|intros a; apply IH]|].
    intros t c (a & [HP ->] & HF & ->). split; [by constructor|done].
Qed.
End Reads.

#[export] Hint Resolve reads_ret reads_throw : reads.

Section Sources.
Context `{Runtime} `{Numeric} `{U256Text}.

Lemma reads_pdb {A} (stmt : PStatement A) (f : Tables -> A) :
  (forall now b, stmt now b = (Ok (f (tables_of b)), bk_payouts b)) -> reads (or_500 (pdb stmt)) (fun t a => a = f t).
Proof.
  intros Hs b r b'. unfold or_500, st_map_err, pdb. rewrite Hs.
  destruct (calls _); intros [= <- <-]; (split; [done|]); intros a [= <-]. done.
Qed.

Lemma reads_db {A} (f : Db -> A) : reads (on_site (on_server (or_500 (db (select f))))) (fun t a => a = f t.1.1).
Proof.
  intros b r b'. unfold or_500, on_site, on_server, st_map_err, db, exchange, select.
  destruct (calls _); intros [= <- <-]; (split; [done|]); intros a [= <-]. done.
Qed.

Lemma reads_wdb {A} (f : WalletDb -> A) : reads (on_site (or_500 (wdb (wselect f)))) (fun t a => a = f t.1.2).
Proof.
  intros b r b'. unfold or_500, on_site, st_map_err, wdb, wselect.
  destruct (calls _); intros [= <- <-]; (split; [done|]); intros a [= <-]. done.
Qed.

Lemma reads_fresh : reads (E := Z) (on_site (on_server fresh)) (fun _ _ => True).
Proof. intros b r b' [= <- <-]. done. Qed.

Lemma reads_now : reads (E := Z) (on_site (on_server utc_now)) (fun _ _ => True).
Proof. intros b r b' [= <- <-]. done. Qed.

(** *** What the handlers read *)

(** Whom [require_member] lets pass: a member of the store, and an administrator
    whether member or not. *)
Definition admin_or_member (t : Tables) (user : SessionUser) (store_id : Uuid) : Prop :=
  su_is_admin user = true \/ is_Some (mb_user_stores (wd_members t.1.2) !! (su_id user, store_id)).

Lemma require_member_reads user store_id : reads (require_member user store_id) (fun t _ => admin_or_member t user store_id).
Proof.
  unfold require_member. destruct (su_is_admin user) eqn:Ha.
  - eapply reads_mono; [apply reads_ret|]. intros t a _. by left.
  - eapply reads_mono; [apply reads_bind; [apply reads_wdb|]|].
    + intros m. instantiate (1 := fun m t _ => is_Some m). destruct m as [x|]; [|apply reads_throw].
      eapply reads_mono; [apply reads_ret|]. eauto.
    + intros t c (m & -> & Hs). by right.
Qed.

Lemma payout_for_store_reads store_id payout_id :
  reads (payout_for_store store_id payout_id) (fun t p => t.2 !! payout_id = Some p /\ pt_store_id p = store_id).
Proof.
  unfold payout_for_store. eapply reads_mono.
  - apply reads_bind; [by apply (reads_pdb _ (fun t => t.2 !! payout_id))|].
    intros r. instantiate (1 := fun r t p => r = Some p /\ pt_store_id p = store_id). destruct r as [q|]; [|apply reads_throw].
    destruct (Z.eqb_spec (pt_store_id q) store_id) as [Hs|]; [|apply reads_throw].
    eapply reads_mono; [apply reads_ret|]. cbn. by intros t a ->.
  - intros t p (r & -> & Hr & Hs). done.
Qed.

Definition owned (t : Tables) (store_id : Uuid) (invoice_id : string) : Prop :=
  exists row, db_invoices t.1.1 !! invoice_id = Some row /\ inv_store_id row = store_id.

Definition valid_payments (d : Db) (invoice_id : string) : list PaymentData :=
  (fun kr => row_to_payment kr.1 kr.2)
    <$> payments_where (fun _ r => String.eqb (pay_invoice_id r) invoice_id && negb (pay_reorged r)) d.

Lemma payable_total_reads store_id ids chain_id asset :
  reads (payable_total store_id ids chain_id asset) (fun t total => Forall (owned t store_id) ids /\
    total = foldl (fun acc i => u256_add acc (sum_payable (valid_payments t.1.1 i) chain_id asset)) 0 ids).
Proof.
  unfold payable_total.
  apply (reads_fold _ (fun t i => owned t store_id i)
           (fun t acc i => u256_add acc (sum_payable (valid_payments t.1.1 i) chain_id asset))).
  intros acc i. unfold add_invoice. eapply reads_mono.
  - apply reads_bind; [apply reads_db|]. intros r.
    instantiate (1 := fun r t acc' => (exists inv, r = Some inv /\ id_store_id inv = store_id) /\
      acc' = u256_add acc (sum_payable (valid_payments t.1.1 i) chain_id asset)).
    destruct r as [inv|]; [|apply reads_throw].
    destruct (Z.eqb_spec (id_store_id inv) store_id) as [Hs|]; [|apply reads_throw]. cbn [negb].
    eapply reads_mono; [apply reads_bind; [apply reads_db|intros ps; apply reads_ret]|].
    intros t c (ps & -> & ->). split; [by exists inv|done].
  - intros t c (r & Hr & (inv & -> & Hs) & ->). split; [|done].
    destruct (db_invoices t.1.1 !! i) as [row|] eqn:Hi; [|done]. exists row. split; [done|].
    injection Hr as E. rewrite E in Hs. exact Hs.
Qed.

Definition unclaimed (t : Tables) (store_id : Uuid) (ids : list string) : Prop :=
  forall j p i, t.2 !! j = Some p -> pt_store_id p = store_id -> pt_status p <> PayoutFailed ->
    i ∈ ids -> i ∉ pt_invoice_ids p.

Lemma reject_claimed_reads store_id ids :
  reads (reject_claimed_invoices store_id ids) (fun t _ => unclaimed t store_id ids).
Proof.
  unfold reject_claimed_invoices. eapply reads_mono.
  - apply reads_bind.
    + by apply (reads_pdb _ (fun t => if bool_decide (ids = []) then []
        else remove_dups (List.filter (fun i => bool_decide (i ∈ ids)) (concat (pt_invoice_ids <$>
          List.filter (fun p => (pt_store_id p =? store_id) && bool_decide (pt_status p <> PayoutFailed)) (map_to_list t.2).*2))))).
    + intros claimed. instantiate (1 := fun claimed _ _ => claimed = []). case_bool_decide; [|apply reads_throw].
      by eapply reads_mono; [apply reads_ret|].
  - intros t [] (claimed & -> & Hc). intros j p i Hj Hs Hf Hi Hin. case_bool_decide as Hn; [subst; by apply elem_of_nil in Hi|].
    assert (Hx : i ∈ remove_dups (List.filter (fun i => bool_decide (i ∈ ids)) (concat (pt_invoice_ids <$>
          List.filter (fun p => (pt_store_id p =? store_id) && bool_decide (pt_status p <> PayoutFailed)) (map_to_list t.2).*2))));
      [|rewrite Hc in Hx; by apply elem_of_nil in Hx].
    apply elem_of_remove_dups. apply elem_of_filter_b. split; [by apply bool_decide_eq_true|].
    apply list_elem_of_In, in_concat. exists (pt_invoice_ids p). split; [|by apply list_elem_of_In].
    apply list_elem_of_In, list_elem_of_fmap. exists p. split; [done|]. apply elem_of_filter_b. split.
    + apply andb_true_iff. split; [by apply Z.eqb_eq|by apply bool_decide_eq_true].
    + apply list_elem_of_fmap. exists (j, p). split; [done|]. by apply elem_of_map_to_list.
Qed.

(** What [create_payout] has established when it reaches its [INSERT]. *)
Definition payable (t : Tables) (user : SessionUser) (store_id : Uuid) (body : CreatePayoutRequest) (p : PayoutData) : Prop :=
  admin_or_member t user store_id /\ Forall (owned t store_id) (cp_invoice_ids body) /\
  unclaimed t store_id (cp_invoice_ids body) /\
  (exists total, total <> 0 /\ pt_amount p = z_to_string total /\
     total = foldl (fun acc i => u256_add acc (sum_payable (valid_payments t.1.1 i) (cp_chain_id body) (cp_asset_symbol body))) 0
               (cp_invoice_ids body)) /\
  pt_store_id p = store_id /\ pt_invoice_ids p = cp_invoice_ids body /\ pt_status p = PayoutPending.

Lemma prepare_payout_reads user store_id body :
  reads (prepare_payout user store_id body) (fun t p => payable t user store_id body p).
Proof.
  unfold prepare_payout. eapply reads_mono.
  - eapply reads_bind with (R := fun _ t p => admin_or_member t user store_id -> payable t user store_id body p);
      [apply require_member_reads|]. intros u1.
    destruct (String.eqb _ _); [apply reads_throw|]. case_bool_decide; [apply reads_throw|].
    eapply reads_mono.
    + eapply reads_bind; [apply payable_total_reads|]. intros total.
      eapply reads_bind with (R := fun _ _ p => total <> 0 /\ pt_amount p = z_to_string total /\
        pt_store_id p = store_id /\ pt_invoice_ids p = cp_invoice_ids body /\ pt_status p = PayoutPending);
        [apply reject_claimed_reads|]. intros u2.
      destruct (Z.eqb_spec total 0) as [|Hz]; [apply reads_throw|].
      eapply reads_mono; [eapply reads_bind; [apply reads_fresh|intros id; eapply reads_bind; [apply reads_now|intros now; apply reads_ret]]|].
      by intros t p (id & HT & now & HT' & ->).
    + intros t p (total & [Hown Htot] & [] & Hun & Hz & Ha & Hs & Hi & Hst) Hm. unfold payable. eauto 10.
  - intros t p ([] & Hm & Hp). by apply Hp.
Qed.

(** ** What the writing handlers do *)

(** Nothing but the payout table changed. *)
Definition with_payouts (x : gmap Z PayoutData) (t : Tables) : Tables := (t.1, x).

Lemma pdb_write stmt b r b' :
  pdb (A := unit) stmt b = (r, b') ->
  (exists e, r = Err e /\ tables_of b' = tables_of b) \/
  (exists now, let '(r0, x) := stmt now b in tables_of b' = with_payouts x (tables_of b) /\
    (r = r0 \/ exists e, r = Err e)).
Proof.
  unfold pdb. destruct (calls _).
  - destruct (stmt _ b) as [r0 x] eqn:Es. intros [= <- <-]. right. eexists. rewrite Es. split; [done|]. by left.
  - intros [= <- <-]. left. eauto.
  - destruct (stmt _ b) as [r0 x] eqn:Es. intros [= <- <-]. right. eexists. rewrite Es. split; [done|]. right. eauto.
Qed.

Lemma create_payout_run user store_id body b r b' :
  create_payout user store_id body b = (r, b') ->
  (exists e, r = Err e /\ tables_of b' = tables_of b) \/
  (exists p, payable (tables_of b) user store_id body p /\ bk_payouts b !! pt_id p = None /\
     tables_of b' = with_payouts (<[pt_id p := p]> (bk_payouts b)) (tables_of b) /\ (r = Ok p \/ exists e, r = Err e)).
Proof.
  unfold create_payout, st_bind. destruct (prepare_payout user store_id body b) as [[p|e] b1] eqn:E1;
    destruct (prepare_payout_reads _ _ _ _ _ _ E1) as [T1 Q1]; [|intros [= <- <-]; left; eauto].
  specialize (Q1 p eq_refl). unfold or_500, st_map_err. destruct (pdb (insert_payout p) b1) as [r2 b2] eqn:E2. intros Hr.
  assert (Hb : b' = b2 /\ match r2 with Ok _ => r = Ok p | Err _ => r = Err 500 end) by (destruct r2; cbn in Hr; injection Hr as <- <-; done).
  destruct Hb as [-> Hr2]. clear Hr. pose proof (same_payouts _ _ T1) as Hp1.
  destruct (pdb_write _ _ _ _ E2) as [(e & -> & T2)|(now & HW)]; [left; exists 500; split; [done|congruence]|].
  unfold insert_payout in HW. rewrite Hp1 in HW.
  assert (Hsame : forall t, t = tables_of b -> with_payouts (bk_payouts b) t = t) by (by intros t ->).
  destruct (bool_decide (is_Some (bk_payouts b !! pt_id p))) eqn:Hd; [|destruct (negb _)];
    destruct HW as [T2 Hor].
  1,2: left; destruct Hor as [->|[e ->]]; exists 500; (split; [done|]); rewrite T2, T1; by apply Hsame.
  right. exists p. split; [done|]. apply bool_decide_eq_false in Hd. split; [by apply eq_None_not_Some|].
  rewrite T2, T1. split; [done|]. destruct Hor as [->|[e ->]]; [by left|right; eauto].
Qed.

Lemma close_payout_run store_id id status tx err b r b' :
  close_payout store_id id status tx err b = (r, b') ->
  (exists e, r = Err e /\ tables_of b' = tables_of b) \/
  (exists p, bk_payouts b !! id = Some p /\ pt_store_id p = store_id /\ pt_status p = PayoutPending /\
     tables_of b' = with_payouts (<[id := with_status status tx None err p]> (bk_payouts b)) (tables_of b) /\
     (forall q, r = Ok q -> q = with_status status tx None err p)).
Proof.
  unfold close_payout, st_bind. destruct (payout_for_store store_id id b) as [[p|e] b1] eqn:E1;
    destruct (payout_for_store_reads _ _ _ _ _ E1) as [T1 Q1]; [|intros [= <- <-]; left; eauto].
  destruct (Q1 p eq_refl) as [Hp Hs]. case_bool_decide as Hst; [|intros [= <- <-]; left; eauto]. cbn [negb].
  unfold or_500, st_map_err. destruct (pdb _ b1) as [r2 b2] eqn:E2.
  pose proof (same_payouts _ _ T1) as Hp1. cbn in Hp.
  destruct (pdb_write _ _ _ _ E2) as [(e & -> & T2)|(now & T2 & Hor)];
    [intros [= <- <-]; left; exists 500; split; [done|congruence]|].
  assert (T2' : tables_of b2 = with_payouts (<[id := with_status status tx None err p]> (bk_payouts b)) (tables_of b)).
  { rewrite T2, T1, Hp1. unfold with_payouts. f_equal. apply map_eq. intros j. destruct (decide (id = j)) as [<-|Hj].
    - by rewrite lookup_alter_eq, Hp, lookup_insert_eq.
    - by rewrite lookup_alter_ne, lookup_insert_ne. }
  intros Hr. right. exists p. do 3 (split; [done|]).
  destruct r2 as [[]|e2].
  - destruct (payout_for_store_reads _ _ _ _ _ Hr) as [T3 Q3]. split; [congruence|].
    intros q ->. destruct (Q3 q eq_refl) as [Hq _]. rewrite T2' in Hq. cbn in Hq. rewrite lookup_insert_eq in Hq. congruence.
  - injection Hr as <- <-. split; [done|]. congruence.
Qed.

Lemma settle_payout_run user store_id id body b r b' :
  settle_payout user store_id id body b = (r, b') ->
  (exists e, r = Err e /\ tables_of b' = tables_of b) \/
  (exists p, admin_or_member (tables_of b) user store_id /\ bk_payouts b !! id = Some p /\ pt_store_id p = store_id /\
     pt_status p = PayoutPending /\
     tables_of b' = with_payouts (<[id := with_status PayoutConfirmed (Some (trim (sp_tx_hash body))) None None p]> (bk_payouts b))
                      (tables_of b) /\
     (forall q, r = Ok q -> q = with_status PayoutConfirmed (Some (trim (sp_tx_hash body))) None None p)).
Proof.
  unfold settle_payout, st_bind. destruct (require_member user store_id b) as [[[]|e] b1] eqn:E1;
    destruct (require_member_reads _ _ _ _ _ E1) as [T1 Q1]; [|intros [= <- <-]; left; eauto].
  destruct (String.eqb _ _); [intros [= <- <-]; left; eauto|]. intros Hr.
  pose proof (same_payouts _ _ T1) as Hp.
  destruct (close_payout_run _ _ _ _ _ _ _ _ Hr) as [(e & -> & T2)|(p & Hrow & Hs & Hst & T2 & Hq)]; [left; exists e; split; [done|congruence]|].
  right. exists p. rewrite <- Hp, <- T1. specialize (Q1 tt eq_refl). rewrite <- T1 in Q1. done.
Qed.

Lemma abandon_payout_run user store_id id body b r b' :
  abandon_payout user store_id id body b = (r, b') ->
  (exists e, r = Err e /\ tables_of b' = tables_of b) \/
  (exists p reason, admin_or_member (tables_of b) user store_id /\ bk_payouts b !! id = Some p /\ pt_store_id p = store_id /\
     pt_status p = PayoutPending /\
     tables_of b' = with_payouts (<[id := with_status PayoutFailed None None (Some reason) p]> (bk_payouts b)) (tables_of b)).
Proof.
  unfold abandon_payout, st_bind. destruct (require_member user store_id b) as [[[]|e] b1] eqn:E1;
    destruct (require_member_reads _ _ _ _ _ E1) as [T1 Q1]; [|intros [= <- <-]; left; eauto].
  cbv zeta. set (reason := default _ _). intros Hr. pose proof (same_payouts _ _ T1) as Hp.
  destruct (close_payout_run _ _ _ _ _ _ _ _ Hr) as [(e & -> & T2)|(p & Hrow & Hs & Hst & T2 & _)]; [left; exists e; split; [done|congruence]|].
  right. exists p, reason. rewrite <- Hp, <- T1. specialize (Q1 tt eq_refl). rewrite <- T1 in Q1. done.
Qed.
End Sources.

(** * Payouts: the claims of a store's payouts, what they are worth, and their end *)

(** ** Runs *)

(** No invoice is deleted or given to another store. *)
Definition stores_kept (d d' : Db) : Prop :=
  forall i row, db_invoices d !! i = Some row ->
    exists row', db_invoices d' !! i = Some row' /\ inv_store_id row' = inv_store_id row.

Lemma write_stores_kept d d' : write d d' -> stores_kept d d'.
Proof.
  assert (Hput : forall now k r x, stores_kept x (put_payment now k r x)).
  { intros now k r x i row Hi. unfold put_payment, update_invoice_on_payment. cbn.
    destruct (decide (pay_invoice_id r = i)) as [<-|Hn]; [|rewrite lookup_alter_ne by done; by exists row].
    rewrite lookup_alter_eq, Hi. by eexists. }
  destruct 1 as [now k r0 r d Hk Hi Hid|now k r d Hk Hr Hi Hu|j row st d Hj|x d|x d|x d]; try apply Hput.
  - intros i row' Hi. cbn. destruct (decide (j = i)) as [<-|Hn].
    + rewrite lookup_insert_eq. assert (row = row') as -> by congruence. by eexists.
    + rewrite lookup_insert_ne by done. by exists row'.
  - intros i row Hi. by exists row.
  - intros i row Hi. by exists row.
  - intros i row Hi. by exists row.
Qed.

(** What the consumer and the cleanup service write keeps the stores of invoices. *)
Lemma writes_stores_kept d d' : writes d d' -> stores_kept d d'.
Proof.
  induction 1 as [d|d1 d2 d3 H12 _ IH]; [intros i row Hi; by exists row|].
  intros i row Hi. destruct (write_stores_kept _ _ H12 i row Hi) as (row2 & H2 & E2).
  destruct (IH i row2 H2) as (row3 & H3 & E3). exists row3. split; [done|congruence].
Qed.

Section Claims.
Context `{Runtime} `{Numeric} `{U256Text}.

(** A handler runs to its end, with any of its requests failing; or something
    else happens to the other tables. *)
Inductive payout_step : Books -> Books -> Prop :=
| PS_create user store_id body b : payout_step b (snd (create_payout user store_id body b))
| PS_settle user store_id id body b : payout_step b (snd (settle_payout user store_id id body b))
| PS_abandon user store_id id body b : payout_step b (snd (abandon_payout user store_id id body b))
| PS_list user store_id b : payout_step b (snd (list_payouts user store_id b))
| PS_other b b' :
    bk_payouts b' = bk_payouts b -> stores_kept (sv_db (st_server (bk_site b))) (sv_db (st_server (bk_site b'))) ->
    payout_step b b'.

Lemma list_payouts_reads user store_id : reads (list_payouts user store_id) (fun _ _ => True).
Proof.
  unfold list_payouts. eapply reads_mono.
  - eapply reads_bind; [apply require_member_reads|]. intros u.
    by apply (reads_pdb _ (fun t => let own := List.filter (fun p => pt_store_id p =? store_id) (map_to_list t.2).*2 in
      (length own, take 50 (drop 0 (reverse (merge_sort payout_older own)))))).
  - done.
Qed.

(** A step leaves the payouts alone, adds a pending one whose invoices are the
    store's and unclaimed, or closes a pending one. *)
Lemma payout_step_cases b b' :
  payout_step b b' ->
  stores_kept (sv_db (st_server (bk_site b))) (sv_db (st_server (bk_site b'))) /\
  (bk_payouts b' = bk_payouts b \/
   (exists p user body, payable (tables_of b) user (pt_store_id p) body p /\ bk_payouts b !! pt_id p = None /\
      bk_payouts b' = <[pt_id p := p]> (bk_payouts b)) \/
   (exists id p status tx err, bk_payouts b !! id = Some p /\ pt_status p = PayoutPending /\ status <> PayoutPending /\
      bk_payouts b' = <[id := with_status status tx None err p]> (bk_payouts b))).
Proof.
  assert (Hkeep : forall x y, tables_of y = tables_of x \/ (exists z, tables_of y = with_payouts z (tables_of x)) ->
            stores_kept (sv_db (st_server (bk_site x))) (sv_db (st_server (bk_site y)))).
  { intros x y Ht. assert (sv_db (st_server (bk_site y)) = sv_db (st_server (bk_site x))) as ->; [|intros i row Hi; by exists row].
    destruct Ht as [Ht|[z Ht]]; exact (f_equal (fun t => t.1.1) Ht). }
  destruct 1 as [user store_id body b|user store_id id body b|user store_id id body b|user store_id b|b b' Hp Hs].
  - destruct (create_payout user store_id body b) as [r b'] eqn:E. cbn [snd].
    destruct (create_payout_run _ _ _ _ _ _ E) as [(e & _ & T)|(p & Hp & Hn & T & _)].
    + split; [eauto|]. left. by apply same_payouts.
    + split; [eauto|]. right. left. assert (pt_store_id p = store_id) as Hs by apply Hp.
      exists p, user, body. rewrite Hs. split; [done|]. split; [done|]. exact (f_equal snd T).
  - destruct (settle_payout user store_id id body b) as [r b'] eqn:E. cbn [snd].
    destruct (settle_payout_run _ _ _ _ _ _ _ E) as [(e & _ & T)|(p & _ & Hp & _ & Hst & T & _)].
    + split; [eauto|]. left. by apply same_payouts.
    + split; [eauto|]. right. right. exists id, p, PayoutConfirmed, (Some (trim (sp_tx_hash body))), None. do 3 (split; [done|]). exact (f_equal snd T).
  - destruct (abandon_payout user store_id id body b) as [r b'] eqn:E. cbn [snd].
    destruct (abandon_payout_run _ _ _ _ _ _ _ E) as [(e & _ & T)|(p & reason & _ & Hp & _ & Hst & T)].
    + split; [eauto|]. left. by apply same_payouts.
    + split; [eauto|]. right. right. exists id, p, PayoutFailed, None, (Some reason). do 3 (split; [done|]). exact (f_equal snd T).
  - destruct (list_payouts user store_id b) as [r b'] eqn:E. cbn [snd].
    destruct (list_payouts_reads _ _ _ _ _ E) as [T _]. split; [eauto|]. left. by apply same_payouts.
  - split; [done|]. by left.
Qed.

(** ** Claims *)

Record claims_ok (b : Books) : Prop := {
  claims_owned j p i : bk_payouts b !! j = Some p -> i ∈ pt_invoice_ids p -> owned (tables_of b) (pt_store_id p) i;
  claims_disjoint j k p q i : bk_payouts b !! j = Some p -> bk_payouts b !! k = Some q -> j <> k ->
    pt_status p <> PayoutFailed -> pt_status q <> PayoutFailed -> i ∈ pt_invoice_ids p -> i ∉ pt_invoice_ids q
}.

Lemma owned_kept b b' store i :
  stores_kept (sv_db (st_server (bk_site b))) (sv_db (st_server (bk_site b'))) ->
  owned (tables_of b) store i -> owned (tables_of b') store i.
Proof.
  intros Hk (row & Hr & Hs). destruct (Hk i row Hr) as (row' & Hr' & Hs'). exists row'. split; [done|congruence].
Qed.

Lemma owned_unique t s s' i : owned t s i -> owned t s' i -> s = s'.
Proof. intros (r & Hr & Hs) (r' & Hr' & Hs'). congruence. Qed.

Lemma payout_step_claims b b' : payout_step b b' -> claims_ok b -> claims_ok b'.
Proof.
  intros Hstep [Hown Hdis]. destruct (payout_step_cases _ _ Hstep) as [Hk [E|[(p & user & body & Hp & Hn & E)|(id & p & st & tx & err & Hp & Hst & Hne & E)]]].
  - split; [|rewrite E; exact Hdis]. rewrite E. intros j p i Hj Hi. eapply owned_kept, Hown; eauto.
  - destruct Hp as (_ & Hfor & Hun & _ & _ & Hids & _). rewrite <- Hids in Hfor, Hun. rewrite Forall_forall in Hfor.
    assert (Hnew : forall j q i, bk_payouts b !! j = Some q -> pt_status q <> PayoutFailed ->
              i ∈ pt_invoice_ids p -> i ∉ pt_invoice_ids q).
    { intros j q i Hj Hq Hi Hin. apply (Hun j q i Hj); auto. eapply owned_unique; [by eapply Hown|by apply Hfor]. }
    split; rewrite E.
    + intros j q i [[<- <-]|[_ Hj]]%lookup_insert_Some Hi; (eapply owned_kept; [done|]); eauto.
    + intros j k q q' i [[<- <-]|[_ Hj]]%lookup_insert_Some [[<- <-]|[_ Hk']]%lookup_insert_Some Hne Hq Hq' Hi; [done|..]; eauto.
      intros Hin. by eapply Hnew.
  - split; rewrite E.
    + intros j q i [[<- <-]|[_ Hj]]%lookup_insert_Some Hi; (eapply owned_kept; [done|]); [exact (Hown id p i Hp Hi)|eauto].
    + assert (Hpend : pt_status p <> PayoutFailed) by congruence.
      intros j k q q' i [[<- <-]|[_ Hj]]%lookup_insert_Some [[<- <-]|[_ Hk']]%lookup_insert_Some Hjk Hq Hq' Hi; [done|..].
      * exact (Hdis id k p q' i Hp Hk' Hjk Hpend Hq' Hi).
      * exact (Hdis j id q p i Hj Hp Hjk Hq Hpend Hi).
      * exact (Hdis j k q q' i Hj Hk' Hjk Hq Hq' Hi).
Qed.

(** C19. An invoice's money is claimed once.  Through any payouts recorded,
    settled and abandoned one after the other, with any of their requests
    failing, while the other services go on: every invoice a payout names belongs
    to the payout's store, and no invoice is named by two payouts that have not
    failed, whatever their stores. *)
Theorem payout_claims_exclusive b b' :
  claims_ok b -> rtc payout_step b b' ->
  forall j k p q i, bk_payouts b' !! j = Some p -> bk_payouts b' !! k = Some q -> i ∈ pt_invoice_ids p ->
    owned (tables_of b') (pt_store_id p) i /\
    (i ∈ pt_invoice_ids q -> pt_status p <> PayoutFailed -> pt_status q <> PayoutFailed -> j = k).
Proof.
  intros Hb Hrun. assert (Hb' : claims_ok b') by (induction Hrun; eauto using payout_step_claims).
  intros j k p q i Hj Hk Hi. split; [by eapply (claims_owned _ Hb')|].
  intros Hi' Hp Hq. destruct (decide (j = k)) as [|Hjk]; [done|]. exfalso. by eapply (claims_disjoint _ Hb' j k).
Qed.

(** ** The end of a payout *)

(** A payout is closed once.  Through any run a payout stays on file with
    its store, invoices, destination and amount; and once it is not pending any
    more nothing of it changes, its transaction hash included. *)
Theorem payout_closed_once b b' id p :
  rtc payout_step b b' -> bk_payouts b !! id = Some p ->
  exists p', bk_payouts b' !! id = Some p' /\
    (pt_store_id p', pt_invoice_ids p', pt_destination_address p', pt_amount p')
    = (pt_store_id p, pt_invoice_ids p, pt_destination_address p, pt_amount p) /\
    (pt_status p <> PayoutPending -> p' = p).
Proof.
  intros Hrun. revert p. induction Hrun as [b|b1 b2 b3 Hstep _ IH]; intros p Hp; [by exists p|].
  assert (H2 : exists q, bk_payouts b2 !! id = Some q /\
    (pt_store_id q, pt_invoice_ids q, pt_destination_address q, pt_amount q)
    = (pt_store_id p, pt_invoice_ids p, pt_destination_address p, pt_amount p) /\ (pt_status p <> PayoutPending -> q = p)).
  { destruct (payout_step_cases _ _ Hstep) as [_ [->|[(n & user & body & _ & Hn & ->)|(id' & n & st & tx & err & Hn & Hst & _ & ->)]]].
    - by exists p.
    - exists p. rewrite lookup_insert_ne by congruence. done.
    - destruct (decide (id' = id)) as [->|Hd]; [|exists p; by rewrite lookup_insert_ne].
      assert (n = p) as -> by congruence. eexists. rewrite lookup_insert_eq. split; [done|]. split; [done|]. congruence. }
  destruct H2 as (q & Hq & Hsame & Hfin). destruct (IH q Hq) as (p' & Hp' & Hsame' & Hfin').
  exists p'. split; [done|]. split; [congruence|]. intros Hnp. specialize (Hfin Hnp). subst q. by apply Hfin'.
Qed.
End Claims.

(** * Payouts: what a payout is worth *)

Definition total_of (l : list Z) : Z := foldr Z.add 0 l.

Lemma fold_u256 l acc : 0 <= acc < 2 ^ 256 -> foldl u256_add acc l = (acc + total_of l) mod 2 ^ 256.
Proof.
  revert acc. induction l as [|x l IH]; intros acc Hacc; cbn [foldl total_of foldr].
  - by rewrite Z.add_0_r, Z.mod_small.
  - fold (total_of l). unfold u256_add at 2. rewrite IH by (apply Z.mod_pos_bound; lia).
    rewrite Zplus_mod_idemp_l. f_equal. lia.
Qed.

Lemma total_of_mod {A} (f : A -> Z) l :
  total_of ((fun x => f x mod 2 ^ 256) <$> l) mod 2 ^ 256 = total_of (f <$> l) mod 2 ^ 256.
Proof.
  induction l as [|x l IH]; cbn [fmap list_fmap total_of foldr]; [done|]. fold (total_of (f <$> l)).
  fold (total_of ((fun x => f x mod 2 ^ 256) <$> l)). rewrite Zplus_mod_idemp_l, <- Zplus_mod_idemp_r, IH.
  by rewrite Zplus_mod_idemp_r.
Qed.

(** ** The reference *)

(** The payment counts for a payout of this chain and asset. *)
Definition counts (chain_id asset : string) (kr : PaymentKey * PaymentRow) : bool :=
  bool_decide (is_Some (pay_confirmed_at kr.2)) && negb (pay_reorged kr.2) && String.eqb kr.1.1.1 chain_id
    && String.eqb (pay_asset_symbol kr.2) asset && (0 <=? pay_amount kr.2) && (pay_amount kr.2 <? 2 ^ 256).

(** The confirmed, standing payments of the invoices in one asset of one chain. *)
Definition payable_sum (d : Db) (ids : list string) (chain_id asset : string) : Z :=
  total_of ((fun kr => if bool_decide (pay_invoice_id kr.2 ∈ ids) && counts chain_id asset kr then pay_amount kr.2 else 0)
              <$> map_to_list (db_payments d)).

Section Amounts.
Context `{Runtime} `{Numeric} `{U256TextLaws}.

Definition of_invoice (chain_id asset : string) (l : list (PaymentKey * PaymentRow)) (i : string) : Z :=
  total_of ((fun kr => if String.eqb (pay_invoice_id kr.2) i && counts chain_id asset kr then pay_amount kr.2 else 0) <$> l).

Lemma sum_payable_rows d i chain_id asset :
  sum_payable (valid_payments d i) chain_id asset = of_invoice chain_id asset (map_to_list (db_payments d)) i mod 2 ^ 256.
Proof.
  unfold sum_payable. rewrite fold_u256 by lia. rewrite Z.add_0_l. f_equal.
  unfold valid_payments, payments_where, of_invoice. induction (map_to_list (db_payments d)) as [|[k r] l IH]; [done|].
  cbn [List.filter fmap list_fmap total_of foldr fst snd]. fold (total_of ((fun kr : PaymentKey * PaymentRow =>
    if String.eqb (pay_invoice_id kr.2) i && counts chain_id asset kr then pay_amount kr.2 else 0) <$> l)). rewrite <- IH.
  unfold counts. cbn [fst snd]. destruct (String.eqb (pay_invoice_id r) i); [|done].
  destruct (pay_reorged r) eqn:Hr; cbn [andb negb]; [by rewrite andb_false_r|]. rewrite andb_true_r.
  cbn [fmap list_fmap List.filter fst snd]. cbn [pda_confirmed_at pda_reorged pda_chain_id pda_asset_symbol row_to_payment].
  rewrite Hr. cbn [negb]. rewrite andb_true_r.
  destruct (bool_decide (is_Some (pay_confirmed_at r))); [|done]. cbn [andb].
  destruct (String.eqb k.1.1 chain_id); [|done]. cbn [andb]. destruct (String.eqb (pay_asset_symbol r) asset); [|done]. cbn [andb].
  cbn [omap list_omap pda_amount row_to_payment]. rewrite u256_from_decimal.
  destruct ((0 <=? pay_amount r) && (pay_amount r <? 2 ^ 256)); done.
Qed.

Lemma of_invoices_total d ids chain_id asset :
  NoDup ids ->
  total_of (of_invoice chain_id asset (map_to_list (db_payments d)) <$> ids) = payable_sum d ids chain_id asset.
Proof.
  induction 1 as [|i ids Hi _ IH]; unfold payable_sum.
  - cbn. induction (map_to_list (db_payments d)) as [|kr l IHl]; [done|]. exact IHl.
  - cbn [fmap list_fmap total_of foldr]. fold (total_of (of_invoice chain_id asset (map_to_list (db_payments d)) <$> ids)).
    rewrite IH. unfold payable_sum, of_invoice. clear IH. induction (map_to_list (db_payments d)) as [|[k r] l IHl]; [done|].
    cbn [fmap list_fmap total_of foldr fst snd] in *. unfold total_of in IHl. rewrite <- IHl. clear IHl.
    destruct (counts chain_id asset (k, r)); rewrite ?andb_true_r, ?andb_false_r; [|lia].
    destruct (String.eqb_spec (pay_invoice_id r) i) as [<-|Hn].
    + rewrite (bool_decide_eq_false_2 (_ ∈ ids)) by done. rewrite bool_decide_eq_true_2 by left. lia.
    + assert (Hiff : pay_invoice_id r ∈ i :: ids <-> pay_invoice_id r ∈ ids) by (rewrite elem_of_cons; tauto).
      rewrite (bool_decide_ext _ _ Hiff). lia.
Qed.

(** C15. A recorded payout is worth what its invoices were paid: for distinct
    invoices its amount is the sum, as 256-bit integers, of their confirmed
    payments on its chain and in its asset that no reorg retracted, and not zero;
    the row is on file, pending; the invoices are the store's, and the caller is
    an administrator or a member of the store. *)
Theorem payout_amount_exact user store_id body b p b' :
  NoDup (cp_invoice_ids body) -> create_payout user store_id body b = (Ok p, b') ->
  let total := payable_sum (sv_db (st_server (bk_site b))) (cp_invoice_ids body) (cp_chain_id body) (cp_asset_symbol body)
                 mod 2 ^ 256 in
  pt_amount p = z_to_string total /\ total <> 0 /\
  bk_payouts b' = <[pt_id p := p]> (bk_payouts b) /\ pt_status p = PayoutPending /\
  pt_invoice_ids p = cp_invoice_ids body /\ admin_or_member (tables_of b) user store_id /\
  Forall (owned (tables_of b) store_id) (cp_invoice_ids body).
Proof.
  intros Hnd Hc. destruct (create_payout_run _ _ _ _ _ _ Hc) as [(e & ? & _)|(q & Hp & Hn & T & Hor)]; [done|].
  assert (q = p) as -> by (destruct Hor as [E|[e E]]; congruence).
  destruct Hp as (Hm & Hown & _ & (total & Hz & Ha & Ht) & _ & Hids & Hst). cbn in Ht.
  assert (Htot : total = payable_sum (sv_db (st_server (bk_site b))) (cp_invoice_ids body) (cp_chain_id body) (cp_asset_symbol body)
                 mod 2 ^ 256).
  { rewrite Ht, <- (foldl_fmap u256_add 0 (cp_invoice_ids body)
                      (fun i => sum_payable (valid_payments (sv_db (st_server (bk_site b))) i) (cp_chain_id body) (cp_asset_symbol body))).
    rewrite fold_u256 by lia. rewrite Z.add_0_l, <- of_invoices_total by done. rewrite <- (total_of_mod (of_invoice _ _ _)). f_equal. f_equal.
    apply list_fmap_ext. intros _ i _. apply sum_payable_rows. }
  cbv zeta. rewrite <- Htot. split; [done|]. split; [done|]. split; [exact (f_equal snd T)|done].
Qed.
End Amounts.
