(* ===== verification/ApiAuth.v ===== *)
(** * Authentication with API keys, and their management

    [server/src/api/extractors.rs] (who a request acts as),
    [server/src/api/auth_freshness.rs], [server/src/api/users/api_keys.rs] and
    [key_material.rs] (creating, revoking, limiting and rotating keys), and their
    statements in [data-service/src/postgres/mod.rs] and [auth/api_key.rs].
    Sessions, SHA-256 and random bytes belong to other crates: the class
    [AuthHost]. *)

From stdpp Require Import gmap strings list sorting.
From Stdlib Require Import ZArith Lia.
From S2P Require Import Prelude Events Decimal LiveWatch Database Services ApiKeys Idempotency.

#[local] Open Scope Z_scope.

(** ** Data *)

Inductive Role := ServerAdmin | RegularUser.

#[export] Instance Role_eq_dec : EqDecision Role.
Proof. solve_decision. Defined.

(** [UserInfo], as far as it is read *)
Record UserInfo := mkUserInfo { ui_id : Uuid; ui_role : Role }.

(** A row of [api_keys] *)
Record ApiKeyRow := mkApiKeyRow {
  ak_user_id : Uuid;
  ak_name : string;
  ak_key_hash : string;
  ak_key_prefix : string;
  ak_is_active : bool;
  ak_created_at : Instant;
  ak_last_used_at : option Instant;
  ak_expires_at : option Instant;
  ak_rate_limit_rpm : option Z;
  ak_deprecated_at : option Instant;
  ak_is_operator : bool;
  ak_permissions : option (list string)
}.

Record AuthDb := mkAuthDb {
  ad_users : gmap Z Role;
  ad_keys : gmap Z ApiKeyRow
}.

Definition ad_set_keys (x : gmap Z ApiKeyRow) (d : AuthDb) : AuthDb := mkAuthDb (ad_users d) x.

Definition ak_set_active (b : bool) (k : ApiKeyRow) : ApiKeyRow :=
  mkApiKeyRow (ak_user_id k) (ak_name k) (ak_key_hash k) (ak_key_prefix k) b (ak_created_at k) (ak_last_used_at k)
    (ak_expires_at k) (ak_rate_limit_rpm k) (ak_deprecated_at k) (ak_is_operator k) (ak_permissions k).
Definition ak_set_last_used (t : Instant) (k : ApiKeyRow) : ApiKeyRow :=
  mkApiKeyRow (ak_user_id k) (ak_name k) (ak_key_hash k) (ak_key_prefix k) (ak_is_active k) (ak_created_at k) (Some t)
    (ak_expires_at k) (ak_rate_limit_rpm k) (ak_deprecated_at k) (ak_is_operator k) (ak_permissions k).
Definition ak_set_rpm (rpm : option Z) (k : ApiKeyRow) : ApiKeyRow :=
  mkApiKeyRow (ak_user_id k) (ak_name k) (ak_key_hash k) (ak_key_prefix k) (ak_is_active k) (ak_created_at k)
    (ak_last_used_at k) (ak_expires_at k) rpm (ak_deprecated_at k) (ak_is_operator k) (ak_permissions k).
Definition ak_set_deprecated (t : Instant) (k : ApiKeyRow) : ApiKeyRow :=
  mkApiKeyRow (ak_user_id k) (ak_name k) (ak_key_hash k) (ak_key_prefix k) (ak_is_active k) (ak_created_at k)
    (ak_last_used_at k) (ak_expires_at k) (ak_rate_limit_rpm k) (Some t) (ak_is_operator k) (ak_permissions k).

(** [ApiKey], the part of a row the key library knows *)
Record ApiKey := mkApiKey {
  key_id : Uuid;
  key_user_id : Uuid;
  key_name : string;
  key_hash : string;
  key_prefix : string;
  key_is_active : bool;
  key_created_at : Instant;
  key_last_used_at : option Instant;
  key_expires_at : option Instant
}.

(** [ApiKeyRow::into_api_key] *)
Definition into_api_key (id : Uuid) (k : ApiKeyRow) : ApiKey :=
  mkApiKey id (ak_user_id k) (ak_name k) (ak_key_hash k) (ak_key_prefix k) (ak_is_active k) (ak_created_at k)
    (ak_last_used_at k) (ak_expires_at k).

(** ** Statements *)

Definition AStatement (A : Type) : Type := Instant -> AuthDb -> result string A * AuthDb.

Definition aselect {A} (f : AuthDb -> A) : AStatement A := fun _ d => (Ok (f d), d).

(** [get_api_key_auth_info]: the row of a hash, and its id *)
Definition get_api_key_auth_info (hash : string) : AStatement (option (Uuid * ApiKeyRow)) :=
  aselect (fun d => head (List.filter (fun ik => String.eqb (ak_key_hash ik.2) hash) (map_to_list (ad_keys d)))).

(** [get_api_key_auth_info_by_id] *)
Definition get_api_key_auth_info_by_id (id : Uuid) : AStatement (option ApiKeyRow) := aselect (fun d => ad_keys d !! id).

(** [ApiKeyRepository::get_api_key] *)
Definition get_api_key (id : Uuid) : AStatement (option ApiKey) := aselect (fun d => into_api_key id <$> ad_keys d !! id).

(** [ORDER BY created_at DESC] *)
Definition key_newer (a b : Uuid * ApiKeyRow) : Prop := ak_created_at b.2 <= ak_created_at a.2.
#[export] Instance key_newer_dec a b : Decision (key_newer a b) := Z_le_dec _ _.

(** [list_user_api_keys_full] *)
Definition list_user_api_keys_full (user_id : Uuid) : AStatement (list (Uuid * ApiKeyRow)) :=
  aselect (fun d => merge_sort key_newer (List.filter (fun ik => ak_user_id ik.2 =? user_id) (map_to_list (ad_keys d)))).

(** [UserRepository::get_user], the role *)
Definition get_user (id : Uuid) : AStatement (option UserInfo) := aselect (fun d => mkUserInfo id <$> ad_users d !! id).

(** The [INSERT] shared by creation and rotation: the primary key, the unique
    hash and the reference to the owner. *)
Definition insert_api_key (key : ApiKey) (permissions : option (list string)) : AStatement unit :=
  fun _ d =>
    if bool_decide (is_Some (ad_keys d !! key_id key))
       || existsb (fun k => String.eqb (ak_key_hash k) (key_hash key)) (map_to_list (ad_keys d)).*2
       || negb (bool_decide (is_Some (ad_users d !! key_user_id key)))
    then (Err "constraint violation"%string, d)
    else (Ok tt, ad_set_keys (<[key_id key :=
           mkApiKeyRow (key_user_id key) (key_name key) (key_hash key) (key_prefix key) (key_is_active key)
             (key_created_at key) (key_last_used_at key) (key_expires_at key) None None false permissions]> (ad_keys d)) d).

(** [create_api_key_with_permissions] *)
Definition create_api_key_with_permissions (key : ApiKey) (permissions : option (list string)) : AStatement unit :=
  insert_api_key key permissions.

(** An [UPDATE] of one row that must exist. *)
Definition update_key (id : Uuid) (f : ApiKeyRow -> ApiKeyRow) : AStatement unit :=
  fun _ d =>
    match ad_keys d !! id with
    | Some k => (Ok tt, ad_set_keys (<[id := f k]> (ad_keys d)) d)
    | None => (Err "Key not found"%string, d)
    end.

(** [ApiKeyRepository::revoke_api_key], [update_rate_limit] *)
Definition revoke_row (id : Uuid) : AStatement unit := update_key id (ak_set_active false).
Definition update_rate_limit (id : Uuid) (rpm : option Z) : AStatement unit := update_key id (ak_set_rpm rpm).

(** The spawned [UPDATE] of [validate_api_key] *)
Definition touch_key (id : Uuid) : AStatement unit := fun now => update_key id (ak_set_last_used now) now.

(** [set_api_key_deprecated] *)
Definition set_api_key_deprecated (id : Uuid) (at_ : Instant) : AStatement unit :=
  fun _ d => (Ok tt, ad_set_keys (alter (ak_set_deprecated at_) id (ad_keys d)) d).

(** [rotate_api_key_atomic] *)
Definition rotate_api_key_atomic (new_key : ApiKey) (permissions : option (list string)) (old_id : Uuid) (deprecated_at : Instant)
  : AStatement unit :=
  fun now d =>
    match insert_api_key new_key permissions now d with
    | (Err e, _) => (Err e, d)
    | (Ok _, d1) =>
        match ad_keys d1 !! old_id with
        | Some k =>
            if bool_decide (ak_deprecated_at k = None)
            then (Ok tt, ad_set_keys (<[old_id := ak_set_deprecated deprecated_at k]> (ad_keys d1)) d1)
            else (Err "no rows"%string, d)
        | None => (Err "no rows"%string, d)
        end
    end.

(** ** Time windows *)

(** [auth_freshness.rs]: five minutes *)
Definition REAUTH_FRESHNESS : Z := seconds 300.
Definition is_reauth_stale (session_created_at now : Instant) : bool := REAUTH_FRESHNESS <? now - session_created_at.
Definition is_grace_expired (deprecated_at now : Instant) (grace_secs : Z) : bool := deprecated_at + seconds grace_secs <? now.

(** ** Requests *)

(** The tables, the clock, the draws of random bytes and ids, and the two slots
    the middlewares installed for the request at hand. *)
Record Gate := mkGate {
  ga_db : AuthDb;
  ga_ticks : nat;
  ga_draws : nat;
  ga_deprecation : option (Instant * Instant);
  ga_account : option Uuid
}.

Definition ga_tick (g : Gate) : Gate := mkGate (ga_db g) (S (ga_ticks g)) (ga_draws g) (ga_deprecation g) (ga_account g).
Definition ga_draw (g : Gate) : Gate := mkGate (ga_db g) (ga_ticks g) (S (ga_draws g)) (ga_deprecation g) (ga_account g).
Definition set_deprecation (x : option (Instant * Instant)) (g : Gate) : Gate :=
  mkGate (ga_db g) (ga_ticks g) (ga_draws g) x (ga_account g).
Definition set_account (x : option Uuid) (g : Gate) : Gate := mkGate (ga_db g) (ga_ticks g) (ga_draws g) (ga_deprecation g) x.

Class AuthHost := {
  (** the session service: the user and the instant of the login *)
  validate_session_token : nat -> Uuid -> option (UserInfo * Instant);
  key_digest : string -> string;
  random_hex : nat -> nat -> string
}.

Section Auth.
Context `{Runtime} `{PolicyNames} `{UuidText} `{AuthHost}.
(** The environment. *)
Context (var : string -> option string).

Abbreviation Rejection := (Z * string)%type.
Abbreviation Extractor A := (St Gate Rejection A).

(** One statement. *)
Definition adb {A} (stmt : AStatement A) : St Gate string A :=
  fun g =>
    let now := clock (ga_ticks g) in
    let g' d := mkGate d (S (ga_ticks g)) (ga_draws g) (ga_deprecation g) (ga_account g) in
    match calls (ga_ticks g) with
    | Answered => let '(r, d) := stmt now (ga_db g) in (r, g' d)
    | NotSent => (Err "connection lost"%string, g' (ga_db g))
    | ReplyLost => (Err "connection lost"%string, g' (snd (stmt now (ga_db g))))
    end.

Definition ga_now {E} : St Gate E Instant := fun g => (Ok (clock (ga_ticks g)), ga_tick g).

(** [extract_bearer_token] *)
Definition extract_bearer_token (headers : list (string * string)) : result Rejection string :=
  match get_header "authorization" headers with
  | None => Err (401, "Missing Authorization header"%string)
  | Some h =>
      match header_to_str h with
      | None => Err (401, "Invalid Authorization header"%string)
      | Some auth_str =>
          match strip_bearer "Bearer " auth_str with
          | None => Err (401, "Invalid Authorization format"%string)
          | Some token => Ok token
          end
      end
  end.

(** [hash_api_key] *)
Definition hash_api_key (raw_key : string) : string := key_digest raw_key.

(** [deprecation_grace_secs] *)
Definition deprecation_grace_secs : Z :=
  default 172800 (v ← var "API_KEY_DEPRECATION_GRACE_SECS"%string; parse_i64 v).

(** The check of the deprecation window in [validate_api_key]. *)
Definition check_deprecation (deprecated_at : option Instant) : Extractor unit :=
  match deprecated_at with
  | None => st_ret tt
  | Some deprecated_at =>
      let* now := ga_now in
      if is_grace_expired deprecated_at now deprecation_grace_secs
      then st_throw (401, "API key deprecated and grace period expired"%string)
      else st_modify (set_deprecation (Some (deprecated_at, deprecated_at + seconds deprecation_grace_secs)))
  end.

(** [validate_api_key] *)
Definition validate_api_key (raw_key : string) (narrow_role : bool) : Extractor (UserInfo * bool * option (list string)) :=
  let* r := st_map_err (fun _ => (500, "Database error"%string)) (adb (get_api_key_auth_info (hash_api_key raw_key))) in
  match r with
  | None => st_throw (401, "Invalid API key"%string)
  | Some (id, key_info) =>
      if negb (ak_is_active key_info) then st_throw (401, "API key revoked"%string)
      else
      do* (match ak_expires_at key_info with
           | None => st_ret tt
           | Some expires_at =>
               let* now := ga_now in
               if expires_at <? now then st_throw (401, "API key expired"%string) else st_ret tt
           end);
      do* check_deprecation (ak_deprecated_at key_info);
      let* u := st_map_err (fun _ => (500, "Failed to resolve user"%string)) (adb (get_user (ak_user_id key_info))) in
      match u with
      | None => st_throw (500, "User not found"%string)
      | Some user =>
          let user := if narrow_role && bool_decide (ui_role user = ServerAdmin)
                         && negb (key_retains_unrestricted_access (ak_permissions key_info))
                      then mkUserInfo (ui_id user) RegularUser else user in
          do* st_try (adb (touch_key id));
          st_ret (user, ak_is_operator key_info, ak_permissions key_info)
      end
  end.

(** [validate_session_with_scope] *)
Definition validate_session_with_scope (headers : list (string * string)) (narrow_role : bool)
  : Extractor (UserInfo * bool * option (list string)) :=
  let* token := st_lift (extract_bearer_token headers) in
  if String.prefix "ak_" token then
    let* validated := validate_api_key token narrow_role in
    do* st_modify (set_account (Some (ui_id validated.1.1)));
    st_ret validated
  else
    match parse_uuid token with
    | None => st_throw (401, "Invalid session ID format"%string)
    | Some session_id =>
        let* n := st_gets ga_ticks in
        match validate_session_token n session_id with
        | None => st_throw (401, "Invalid or expired session"%string)
        | Some (user_info, _) =>
            do* st_modify (set_account (Some (ui_id user_info)));
            st_ret (user_info, false, None)
        end
    end.

(** [validate_session], the extractor [AuthenticatedUser] *)
Definition validate_session (headers : list (string * string)) : Extractor UserInfo :=
  let* v := validate_session_with_scope headers true in
  if negb (key_retains_unrestricted_access v.2)
  then st_throw (403, "This API key is limited to specific store permissions and cannot be used here"%string)
  else st_ret v.1.1.

(** [FreshlyAuthenticatedUser] *)
Definition freshly_authenticated (headers : list (string * string)) : Extractor UserInfo :=
  let* token := st_lift (extract_bearer_token headers) in
  if String.prefix "ak_" token then st_throw (401, "This action requires a fresh sign-in, not an API key"%string)
  else
    match parse_uuid token with
    | None => st_throw (401, "Invalid session ID format"%string)
    | Some session_id =>
        let* n := st_gets ga_ticks in
        match validate_session_token n session_id with
        | None => st_throw (401, "Invalid or expired session"%string)
        | Some (user_info, created_at) =>
            let* now := ga_now in
            if is_reauth_stale created_at now
            then st_throw (401, "This action requires a fresh sign-in. Please log in again and retry."%string)
            else st_ret user_info
        end
    end.

Definition admin_required : Rejection := (403, "Admin access required"%string).

(** [AdminAuth] *)
Definition admin_auth (headers : list (string * string)) : Extractor UserInfo :=
  let* user_info := validate_session headers in
  if bool_decide (ui_role user_info = ServerAdmin) then st_ret user_info else st_throw admin_required.

(** [MerchantReader] *)
Definition merchant_reader (headers : list (string * string)) : Extractor UserInfo :=
  let* v := validate_session_with_scope headers false in
  if negb (bool_decide (ui_role v.1.1 = ServerAdmin)) then st_throw admin_required
  else if negb (key_grants_merchant_read v.2)
  then st_throw (403, "This API key is not scoped to read the merchant listing"%string)
  else st_ret v.1.1.

(** [StandingPusher] *)
Definition standing_pusher (headers : list (string * string)) : Extractor UserInfo :=
  let* v := validate_session_with_scope headers false in
  if negb (key_grants_standing_push v.2)
  then st_throw (403, "This credential is not scoped to push account standing"%string)
  else if negb (bool_decide (ui_role v.1.1 = ServerAdmin)) then st_throw admin_required
  else st_ret v.1.1.

(** [MaybeAdmin] *)
Definition maybe_admin (headers : list (string * string)) : Extractor bool :=
  let* r := st_try (validate_session headers) in
  st_ret (match r with Ok user => bool_decide (ui_role user = ServerAdmin) | Err _ => false end).

(** ** Managing keys *)

Definition fresh_id {E} : St Gate E Uuid := fun g => (Ok (new_v4 (ga_draws g)), ga_draw g).

(** [generate_key_segment] *)
Definition generate_key_segment {E} (bytes : nat) : St Gate E string := fun g => (Ok (random_hex (ga_draws g) bytes), ga_draw g).

(** [build_api_key] *)
Definition build_api_key {E} (name : string) (user_id : Uuid) (expires_at : option Instant) : St Gate E (string * ApiKey) :=
  let* a := generate_key_segment 4 in
  let* b := generate_key_segment 32 in
  let raw_key := "ak_" +:+ a +:+ "_" +:+ b in
  let prefix := String.substring 0 8 raw_key +:+ "****" +:+ String.substring (String.length raw_key - 4) 4 raw_key in
  let* now := ga_now in
  let* id := fresh_id in
  st_ret (raw_key, mkApiKey id user_id name (hash_api_key raw_key) prefix true now None expires_at).

(** [requested_scope] *)
Definition requested_scope (permissions : list string) : option (list string) :=
  match permissions with [] => None | _ => Some permissions end.

(** [CreateApiKeyPayload] *)
Record CreateApiKeyPayload := mkCreateApiKeyPayload {
  ck_name : string;
  ck_expires_at : option Instant;
  ck_permissions : list string
}.

Abbreviation Answer A := (St Gate Z A).
Definition fail_500 {A} (m : St Gate string A) : Answer A := st_map_err (fun _ => 500) m.

(** [create_api_key]: the plaintext, the key and the scope it was given *)
Definition create_api_key (user : UserInfo) (payload : CreateApiKeyPayload) : Answer (string * ApiKey * option (list string)) :=
  let name := trim (ck_name payload) in
  if String.eqb name "" then st_throw 400
  else
    match validate_requested_permissions (ck_permissions payload) with
    | Err _ => st_throw 400
    | Ok _ =>
        let* (raw_key, api_key) := build_api_key name (ui_id user) (ck_expires_at payload) in
        let requested := requested_scope (ck_permissions payload) in
        do* fail_500 (adb (create_api_key_with_permissions api_key requested));
        st_ret (raw_key, api_key, requested)
    end.

(** [revoke_api_key]; the error is the status *)
Definition revoke_api_key (user : UserInfo) (id : Uuid) : Answer unit :=
  let* key := fail_500 (adb (get_api_key id)) in
  match key with
  | None => st_throw 404
  | Some key => if negb (key_user_id key =? ui_id user) then st_throw 404 else fail_500 (adb (revoke_row id))
  end.

(** [update_api_key]; it answers with the key, its limit and what it read back *)
Definition update_api_key (user : UserInfo) (id : Uuid) (rate_limit_rpm : option Z)
  : Answer (ApiKey * option Z * option Instant * option (list string)) :=
  if match rate_limit_rpm with Some rpm => rpm <? 1 | None => false end then st_throw 400
  else
  let* key := fail_500 (adb (get_api_key id)) in
  match key with
  | None => st_throw 404
  | Some key =>
      if negb (key_user_id key =? ui_id user) && negb (bool_decide (ui_role user = ServerAdmin)) then st_throw 404
      else
      do* fail_500 (adb (update_rate_limit id rate_limit_rpm));
      let* r := st_try (adb (get_api_key_auth_info_by_id id)) in
      let auth_info := match r with Ok x => x | Err _ => None end in
      st_ret (key, rate_limit_rpm, (i ← auth_info; ak_deprecated_at i), (i ← auth_info; ak_permissions i))
  end.

(** [rotate_api_key]: the plaintext, the new key, the instant the old one was
    deprecated and the scope carried over *)
Definition rotate_api_key (user : UserInfo) (id : Uuid) : Answer (string * ApiKey * Instant * option (list string)) :=
  let* key := fail_500 (adb (get_api_key id)) in
  match key with
  | None => st_throw 404
  | Some key =>
      if negb (key_user_id key =? ui_id user) then st_throw 404
      else if negb (key_is_active key) then st_throw 409
      else
      let* auth_info := fail_500 (adb (get_api_key_auth_info_by_id id)) in
      match auth_info with
      | None => st_throw 404
      | Some auth_info =>
          if bool_decide (is_Some (ak_deprecated_at auth_info)) then st_throw 409
          else
          let* (raw_key, new_api_key) := build_api_key (key_name key +:+ " (rotated)") (ui_id user) (key_expires_at key) in
          let* now := ga_now in
          do* fail_500 (adb (rotate_api_key_atomic new_api_key (ak_permissions auth_info) id now));
          st_ret (raw_key, new_api_key, now, ak_permissions auth_info)
      end
  end.

(** [list_api_keys], the rows *)
Definition list_api_keys (user : UserInfo) : Answer (list (Uuid * ApiKeyRow)) := fail_500 (adb (list_user_api_keys_full (ui_id user))).

(** A request to the key routes, which all authenticate with [AuthenticatedUser]. *)
Inductive KeyRequest :=
| CreateKey (payload : CreateApiKeyPayload)
| RevokeKey (id : Uuid)
| UpdateKey (id : Uuid) (rate_limit_rpm : option Z)
| RotateKey (id : Uuid)
| ListKeys.

Definition serve (headers : list (string * string)) (rq : KeyRequest) : Answer unit :=
  let* user := st_map_err fst (validate_session headers) in
  match rq with
  | CreateKey payload => do* create_api_key user payload; st_ret tt
  | RevokeKey id => revoke_api_key user id
  | UpdateKey id rpm => do* update_api_key user id rpm; st_ret tt
  | RotateKey id => do* rotate_api_key user id; st_ret tt
  | ListKeys => do* list_api_keys user; st_ret tt
  end.
End Auth.
