(* ===== verification/ApiKeyLife.v ===== *)
(** * API keys only weaken, and dead keys stay dead *)

From stdpp Require Import gmap strings list relations.
From Stdlib Require Import ZArith Lia.
From S2P Require Import Prelude Events LiveWatch Database Services ApiKeys Idempotency ApiAuth.

#[local] Open Scope Z_scope.

Section Facts.
Context `{Runtime} `{PolicyNames} `{UuidText} `{AuthHost}.
Context (var : string -> option string).

(** ** What may happen to the table of keys *)

(** What a key is, as opposed to whether it still works. *)
Definition identity (k : ApiKeyRow) :=
  (ak_user_id k, ak_name k, ak_key_hash k, ak_key_prefix k, ak_created_at k, ak_expires_at k, ak_is_operator k, ak_permissions k).

Definition weaker (k k' : ApiKeyRow) : Prop :=
  identity k' = identity k /\ (ak_is_active k' = true -> ak_is_active k = true) /\
  (forall t, ak_deprecated_at k = Some t -> ak_deprecated_at k' = Some t).

(** A scope nobody was refused: none, one a request may ask for, or that of a
    key that was there before. *)
Definition allowed (d : AuthDb) (permissions : option (list string)) : Prop :=
  permissions = None \/
  (exists set, permissions = Some set /\ set <> [] /\ validate_requested_permissions set = Ok tt) \/
  (exists id k, ad_keys d !! id = Some k /\ ak_permissions k = permissions).

Definition hashes_unique (d : AuthDb) : Prop :=
  forall i j k k', ad_keys d !! i = Some k -> ad_keys d !! j = Some k' -> ak_key_hash k = ak_key_hash k' -> i = j.

Record grown (d d' : AuthDb) : Prop := {
  gr_users : ad_users d' = ad_users d;
  gr_kept id k : ad_keys d !! id = Some k -> exists k', ad_keys d' !! id = Some k' /\ weaker k k';
  gr_new id k' : ad_keys d' !! id = Some k' -> ad_keys d !! id = None ->
    ak_is_operator k' = false /\ allowed d (ak_permissions k');
  gr_hashes : hashes_unique d -> hashes_unique d'
}.

Lemma weaker_refl k : weaker k k.
Proof. done. Qed.

Lemma weaker_trans k1 k2 k3 : weaker k1 k2 -> weaker k2 k3 -> weaker k1 k3.
Proof. intros (E1 & A1 & D1) (E2 & A2 & D2). split; [congruence|]. auto. Qed.

Lemma keys_grown_refl d : grown d d.
Proof. split; [done| |congruence|done]. intros id k Hk. by exists k. Qed.

Lemma allowed_back d d' p : grown d d' -> allowed d' p -> allowed d p.
Proof.
  intros Hg [->|[Hs|(id & k & Hk & Hp)]]; [by left|by right; left|].
  destruct (ad_keys d !! id) as [k0|] eqn:Hk0.
  - destruct (gr_kept _ _ Hg id k0 Hk0) as (k' & Hk' & (E & _)). right. right. exists id, k0. split; [done|].
    unfold identity in E. congruence.
  - destruct (gr_new _ _ Hg id k Hk Hk0) as [_ Ha]. by rewrite <- Hp.
Qed.

Lemma keys_grown_trans d1 d2 d3 : grown d1 d2 -> grown d2 d3 -> grown d1 d3.
Proof.
  intros H12 H23. split.
  - by rewrite (gr_users _ _ H23), (gr_users _ _ H12).
  - intros id k Hk. destruct (gr_kept _ _ H12 id k Hk) as (k2 & Hk2 & W2).
    destruct (gr_kept _ _ H23 id k2 Hk2) as (k3 & Hk3 & W3). exists k3. split; [done|]. by eapply weaker_trans.
  - intros id k3 Hk3 Hn. destruct (ad_keys d2 !! id) as [k2|] eqn:Hk2.
    + destruct (gr_new _ _ H12 id k2 Hk2 Hn) as [Ho Ha]. destruct (gr_kept _ _ H23 id k2 Hk2) as (k3' & Hk3' & (E & _)).
      assert (k3' = k3) as -> by congruence. unfold identity in E. assert (ak_is_operator k3 = ak_is_operator k2) as -> by congruence.
      assert (ak_permissions k3 = ak_permissions k2) as -> by congruence. done.
    + destruct (gr_new _ _ H23 id k3 Hk3 Hk2) as [Ho Ha]. split; [done|]. by eapply allowed_back.
  - intros Hu. by apply (gr_hashes _ _ H23), (gr_hashes _ _ H12).
Qed.

Lemma update_key_grown id f now d :
  (forall k, weaker k (f k)) -> grown d (snd (update_key id f now d)).
Proof.
  intros Hf. unfold update_key. destruct (ad_keys d !! id) as [k|] eqn:Hk; [|apply keys_grown_refl]. cbn. split; cbn; [done|..].
  - intros j k0 Hj. destruct (decide (id = j)) as [<-|Hn].
    + exists (f k). rewrite lookup_insert_eq. split; [done|]. assert (k0 = k) as -> by congruence. apply Hf.
    + exists k0. by rewrite lookup_insert_ne.
  - intros j k' [[<- _]|[_ Hj]]%lookup_insert_Some Hn; congruence.
  - assert (Hh : ak_key_hash (f k) = ak_key_hash k) by (destruct (Hf k) as [E _]; unfold identity in E; congruence).
    unfold hashes_unique. cbn [ad_keys ad_set_keys]. intros Hu i j ki kj [[<- <-]|[_ Hi]]%lookup_insert_Some [[<- <-]|[_ Hj]]%lookup_insert_Some He; [done|..];
      eapply Hu; eauto; congruence.
Qed.

Lemma insert_key_grown key p now d : allowed d p -> grown d (snd (insert_api_key key p now d)).
Proof.
  intros Ha. unfold insert_api_key. destruct (_ || _) eqn:Hc; [apply keys_grown_refl|]. cbn.
  apply orb_false_iff in Hc as [[Hid Hhash]%orb_false_iff _]. apply bool_decide_eq_false, eq_None_not_Some in Hid.
  assert (Hfresh : forall j k, ad_keys d !! j = Some k -> ak_key_hash k <> key_hash key).
  { intros j k Hj He. apply not_true_iff_false in Hhash. apply Hhash, existsb_exists. exists k. split; [|by apply String.eqb_eq].
    apply list_elem_of_In, (list_elem_of_fmap_2 snd _ (j, k)), elem_of_map_to_list, Hj. }
  split; cbn; [done|..].
  - intros j k Hj. exists k. rewrite lookup_insert_ne by congruence. done.
  - intros j k' [[<- <-]|[_ Hj]]%lookup_insert_Some Hn; [done|congruence].
  - unfold hashes_unique. cbn [ad_keys ad_set_keys]. intros Hu i j ki kj [[<- <-]|[_ Hi]]%lookup_insert_Some [[<- <-]|[_ Hj]]%lookup_insert_Some He; [done|..].
    + exfalso. by eapply Hfresh.
    + exfalso. by eapply Hfresh.
    + by eapply Hu.
Qed.

Lemma rotate_grown key p old at_ now d : allowed d p -> grown d (snd (rotate_api_key_atomic key p old at_ now d)).
Proof.
  intros Ha. unfold rotate_api_key_atomic. pose proof (insert_key_grown key p now d Ha) as Hi.
  destruct (insert_api_key key p now d) as [[[]|e] d1]; [|apply keys_grown_refl]. cbn in Hi.
  destruct (ad_keys d1 !! old) as [k|] eqn:Hk; [|apply keys_grown_refl]. case_bool_decide as Hd; [|apply keys_grown_refl].
  eapply keys_grown_trans; [exact Hi|].
  assert (Hu : grown d1 (snd (update_key old (fun k => if bool_decide (ak_deprecated_at k = None) then ak_set_deprecated at_ k else k) now d1))).
  { apply update_key_grown. intros k0. case_bool_decide as Hk0; [|done]. split; [done|]. split; [done|]. congruence. }
  unfold update_key in Hu. rewrite Hk in Hu. cbn in Hu. by rewrite bool_decide_eq_true_2 in Hu.
Qed.

(** ** Requests *)

Definition from_db (d0 : AuthDb) (g : Gate) : Prop := grown d0 (ga_db g).

Lemma adb_keeps d0 {A} (stmt : AStatement A) :
  (forall now d, grown d0 d -> grown d0 (snd (stmt now d))) -> preserves (from_db d0) (adb stmt).
Proof.
  intros Hs g Hg. unfold adb, from_db in *. destruct (calls _); cbn.
  - specialize (Hs (clock (ga_ticks g)) _ Hg). by destruct (stmt _ _).
  - done.
  - by apply Hs.
Qed.

Lemma adb_reads d0 {A} (f : AuthDb -> A) :
  triple (from_db d0) (adb (aselect f)) (fun a g => from_db d0 g /\ exists d, grown d0 d /\ a = f d) (from_db d0).
Proof. intros g Hg. unfold adb, aselect. destruct (calls _); cbn; [|done..]. split; [done|]. by exists (ga_db g). Qed.

Lemma update_keeps d0 id f : (forall k, weaker k (f k)) -> preserves (from_db d0) (adb (update_key id f)).
Proof. intros Hf. apply adb_keeps. intros now d Hd. eapply keys_grown_trans; [done|]. by apply update_key_grown. Qed.

Lemma touch_keeps d0 id : preserves (from_db d0) (adb (touch_key id)).
Proof. apply adb_keeps. intros now d Hd. eapply keys_grown_trans; [done|]. by apply update_key_grown. Qed.

Lemma select_keeps d0 {A} (f : AuthDb -> A) : preserves (from_db d0) (adb (aselect f)).
Proof. apply adb_keeps. done. Qed.

Lemma now_keeps d0 {E} : preserves (from_db d0) (@ga_now _ E).
Proof. by intros g Hg. Qed.
Lemma fresh_keeps d0 {E} : preserves (from_db d0) (@fresh_id _ E).
Proof. by intros g Hg. Qed.
Lemma segment_keeps d0 {E} n : preserves (from_db d0) (@generate_key_segment _ E n).
Proof. by intros g Hg. Qed.
Lemma modify_keeps d0 {E} f : (forall g, ga_db (f g) = ga_db g) -> preserves (from_db d0) (@st_modify _ E f).
Proof. intros Hf g Hg. unfold from_db in *. cbn. by rewrite Hf. Qed.

#[local] Hint Resolve select_keeps touch_keeps now_keeps fresh_keeps segment_keeps modify_keeps : preserves.

Lemma build_keeps d0 {E} name u e : preserves (from_db d0) (@build_api_key _ _ E name u e).
Proof. unfold build_api_key. repeat (apply preserves_bind; [auto with preserves|intros]). apply preserves_ret. Qed.

Lemma validate_api_key_keeps d0 raw narrow : preserves (from_db d0) (validate_api_key var raw narrow).
Proof.
  unfold validate_api_key, get_api_key_auth_info, get_user. apply preserves_bind; [auto with preserves|].
  intros [[id k]|]; [|auto with preserves]. destruct (negb _); [auto with preserves|].
  apply preserves_bind.
  { destruct (ak_expires_at k); [|auto with preserves]. apply preserves_bind; [auto with preserves|]. intros now.
    destruct (_ <? _); auto with preserves. }
  intros _. apply preserves_bind.
  { unfold check_deprecation. destruct (ak_deprecated_at k); [|auto with preserves]. apply preserves_bind; [auto with preserves|].
    intros now. destruct (is_grace_expired _ _ _); auto with preserves. }
  intros _. apply preserves_bind; [auto with preserves|]. intros [u|]; auto with preserves.
Qed.

Lemma with_scope_keeps d0 headers narrow : preserves (from_db d0) (validate_session_with_scope var headers narrow).
Proof.
  unfold validate_session_with_scope. apply preserves_bind; [auto with preserves|]. intros token.
  destruct (String.prefix _ _).
  - apply preserves_bind; [apply validate_api_key_keeps|]. auto with preserves.
  - destruct (parse_uuid token); [|auto with preserves]. apply preserves_bind; [auto with preserves|]. intros n.
    destruct (validate_session_token _ _) as [[u t]|]; auto with preserves.
Qed.

Lemma create_keeps d0 user payload : preserves (from_db d0) (create_api_key user payload).
Proof.
  unfold create_api_key, fail_500, create_api_key_with_permissions. destruct (String.eqb _ _); [auto with preserves|].
  destruct (validate_requested_permissions (ck_permissions payload)) as [[]|] eqn:Hv; [|auto with preserves].
  apply preserves_bind; [apply build_keeps|]. intros [raw key]. apply preserves_bind; [|auto with preserves].
  apply preserves_map_err, adb_keeps. intros now d Hd. eapply keys_grown_trans; [done|]. apply insert_key_grown.
  destruct (ck_permissions payload) as [|e set] eqn:Hp; [by left|]. right. left. eexists. split; [done|]. done.
Qed.

Lemma rotate_key_keeps d0 user id : preserves (from_db d0) (rotate_api_key user id).
Proof.
  unfold rotate_api_key, fail_500, get_api_key, get_api_key_auth_info_by_id.
  apply preserves_bind; [auto with preserves|]. intros [key|]; [|auto with preserves].
  destruct (negb _); [auto with preserves|]. destruct (negb _); [auto with preserves|].
  apply (preserves_triple (from_db d0)). eapply triple_bind.
  - intros g Hg. unfold st_map_err. pose proof (adb_reads d0 (fun d => ad_keys d !! id) g Hg) as Hr.
    destruct (adb _ g) as [[a|e] g']; [exact Hr|exact Hr].
  - intros [k|]; [|by apply triple_throw; intros g [Hg _]].
    intros g [Hg (d & Hd & Hk)].
    assert (Hall : allowed d0 (ak_permissions k)).
    { eapply allowed_back; [exact Hd|]. right. right. by exists id, k. }
    match goal with |- match ?m g with _ => _ end => assert (Hm : preserves (from_db d0) m) end.
    { case_bool_decide; [auto with preserves|]. apply preserves_bind; [apply build_keeps|]. intros [raw nk].
      apply preserves_bind; [auto with preserves|]. intros now. apply preserves_bind; [|auto with preserves].
      apply preserves_map_err, adb_keeps. intros now' d' Hd'. eapply keys_grown_trans; [exact Hd'|]. apply rotate_grown.
      destruct Hall as [->|[Hs|(j & kj & Hj & Hp)]]; [by left|by right; left|].
      destruct (gr_kept _ _ Hd' j kj Hj) as (kj' & Hj' & (E & _)). right. right. exists j, kj'. split; [done|].
      unfold identity in E. congruence. }
    specialize (Hm g Hg). match goal with |- match ?r with _ => _ end => by destruct r as [[] ?] end.
Qed.

Lemma serve_keeps d0 headers rq : preserves (from_db d0) (serve var headers rq).
Proof.
  unfold serve, validate_session. apply preserves_bind.
  { apply preserves_map_err, preserves_bind; [apply with_scope_keeps|]. intros v. destruct (negb _); auto with preserves. }
  intros user. destruct rq as [payload|id|id rpm|id|].
  - apply preserves_bind; [apply create_keeps|auto with preserves].
  - unfold revoke_api_key, fail_500, get_api_key, revoke_row. apply preserves_bind; [auto with preserves|].
    intros [key|]; [|auto with preserves]. destruct (negb _); [auto with preserves|].
    by apply preserves_map_err, update_keeps.
  - apply preserves_bind; [|auto with preserves]. unfold update_api_key, fail_500, get_api_key, update_rate_limit, get_api_key_auth_info_by_id.
    destruct (match rpm with Some _ => _ | None => _ end); [auto with preserves|]. apply preserves_bind; [auto with preserves|].
    intros [key|]; [|auto with preserves]. destruct (_ && _); [auto with preserves|].
    apply preserves_bind; [by apply preserves_map_err, update_keeps|]. auto with preserves.
  - apply preserves_bind; [apply rotate_key_keeps|auto with preserves].
  - apply preserves_bind; [unfold list_api_keys, fail_500, list_user_api_keys_full|]; auto with preserves.
Qed.
End Facts.

(** * The life of an API key: what requests can make of it, when it stops
      working, and that a narrowed key cannot manage keys *)

Section Life.
Context `{Runtime} `{PolicyNames} `{UuidText} `{AuthHost}.
Context (var : string -> option string).

(** A request to the key routes, a request that only authenticates, or the start
    of the next request. *)
Inductive key_step : Gate -> Gate -> Prop :=
| KS_serve headers rq g : key_step g (snd (serve var headers rq g))
| KS_auth headers narrow g : key_step g (snd (validate_session_with_scope var headers narrow g))
| KS_next g g' : ga_db g' = ga_db g -> key_step g g'.

Lemma key_step_grown g g' : key_step g g' -> grown (ga_db g) (ga_db g').
Proof.
  destruct 1 as [headers rq g|headers narrow g|g g' ->].
  - apply (serve_keeps var (ga_db g) headers rq g), keys_grown_refl.
  - apply (with_scope_keeps var (ga_db g) headers narrow g), keys_grown_refl.
  - apply keys_grown_refl.
Qed.

Lemma key_run_grown g g' : rtc key_step g g' -> grown (ga_db g) (ga_db g').
Proof. induction 1 as [g|g1 g2 g3 Hs _ IH]; [apply keys_grown_refl|]. eapply keys_grown_trans; [by apply key_step_grown|done]. Qed.

(** Keys only weaken.  Through any requests to the key routes by anyone,
    with any statement failing, a key keeps its owner, secret, expiry, operator
    flag and scope; a revoked key is never active again and a deprecation is never
    moved; and a key that was added is not an operator key and has no scope, a
    scope that may be requested, or the scope of a key that was there. *)
Theorem keys_only_weaken g g' id k' :
  rtc key_step g g' -> ad_keys (ga_db g') !! id = Some k' ->
  match ad_keys (ga_db g) !! id with
  | Some k => identity k' = identity k /\ (ak_is_active k = false -> ak_is_active k' = false) /\
      (forall t, ak_deprecated_at k = Some t -> ak_deprecated_at k' = Some t)
  | None => ak_is_operator k' = false /\ allowed (ga_db g) (ak_permissions k')
  end.
Proof.
  intros Hrun Hk'. pose proof (key_run_grown _ _ Hrun) as Hg. destruct (ad_keys (ga_db g) !! id) as [k|] eqn:Hk.
  - destruct (gr_kept _ _ Hg id k Hk) as (k2 & Hk2 & (E & Ha & Hd)). assert (k2 = k') as -> by congruence.
    split; [done|]. split; [|done]. intros Hf. apply not_true_iff_false. intros Ht. rewrite (Ha Ht) in Hf. done.
  - by apply (gr_new _ _ Hg id).
Qed.

(** ** Keys that stopped working *)

(** Revoked, or expired or past its grace period at every reading of the clock
    from the [from]-th on. *)
Definition dead (from : nat) (k : ApiKeyRow) : Prop :=
  ak_is_active k = false \/
  (exists e, ak_expires_at k = Some e /\ forall n, (from <= n)%nat -> e < clock n) \/
  (exists t, ak_deprecated_at k = Some t /\
     forall n, (from <= n)%nat -> t + seconds (deprecation_grace_secs var) < clock n).

Lemma dead_weaker from k k' : weaker k k' -> dead from k -> dead from k'.
Proof.
  intros (E & Ha & Hd) [Hf|[(e & He & Hn)|(t & Ht & Hn)]].
  - left. apply not_true_iff_false. intros Ht. rewrite (Ha Ht) in Hf. done.
  - right. left. exists e. split; [|done]. unfold identity in E. congruence.
  - right. right. exists t. split; [|done]. by apply Hd.
Qed.

Lemma auth_info_found (raw : string) d r :
  head (List.filter (fun ik : Z * ApiKeyRow => String.eqb (ak_key_hash ik.2) (hash_api_key raw)) (map_to_list (ad_keys d))) = Some r ->
  ad_keys d !! r.1 = Some r.2 /\ ak_key_hash r.2 = key_digest raw.
Proof.
  intros Hh. assert (Hin : r ∈ List.filter (fun ik : Z * ApiKeyRow => String.eqb (ak_key_hash ik.2) (hash_api_key raw)) (map_to_list (ad_keys d)))
    by (destruct (List.filter _ _); [done|injection Hh as ->; left]).
  apply elem_of_filter_b in Hin as [He%String.eqb_eq Hin]. destruct r as [i k]. by apply elem_of_map_to_list in Hin.
Qed.

Lemma expiry_checked expires_at g u g' :
  (match expires_at with
   | None => st_ret tt
   | Some e => let* now := ga_now in if e <? now then st_throw (401, "API key expired"%string) else st_ret tt
   end) g = (Ok u, g') ->
  (ga_ticks g <= ga_ticks g')%nat /\ (forall e, expires_at = Some e -> clock (ga_ticks g) <= e).
Proof.
  destruct expires_at as [e|]; [|intros [= _ <-]; done]. unfold st_bind, ga_now. cbn.
  destruct (Z.ltb_spec e (clock (ga_ticks g))) as [Hl|Hl]; [discriminate|]. intros [= _ <-]. cbn. split; [lia|]. by intros e' [= <-].
Qed.

Lemma deprecation_checked deprecated_at g u g' :
  check_deprecation var deprecated_at g = (Ok u, g') ->
  (forall t, deprecated_at = Some t -> clock (ga_ticks g) <= t + seconds (deprecation_grace_secs var)).
Proof.
  unfold check_deprecation. destruct deprecated_at as [t|]; [|done]. unfold st_bind, ga_now, is_grace_expired. cbn.
  destruct (Z.ltb_spec (t + seconds (deprecation_grace_secs var)) (clock (ga_ticks g))) as [Hl|Hl]; [discriminate|].
  intros _ t' [= <-]. done.
Qed.

(** An API key that authenticates is on file and not dead, and the request gets
    its scope and operator flag, and its owner's identity. *)
Lemma validate_api_key_row raw narrow g v g' :
  validate_api_key var raw narrow g = (Ok v, g') ->
  exists id k, ad_keys (ga_db g) !! id = Some k /\ ak_key_hash k = key_digest raw /\ ~ dead (ga_ticks g) k /\
    v.2 = ak_permissions k /\ v.1.2 = ak_is_operator k.
Proof.
  intros Hv. unfold validate_api_key in Hv. inv_ok Hv as r g1 Hr Hv. unfold st_map_err, adb in Hr.
  destruct (calls (ga_ticks g)); try discriminate. cbn in Hr. injection Hr as Hr <-.
  destruct r as [[id k]|]; [|discriminate]. destruct (auth_info_found raw (ga_db g) (id, k) Hr) as [Hk Hh]. cbn in Hk, Hh.
  destruct (ak_is_active k) eqn:Hact; [|discriminate]. cbn [negb] in Hv.
  inv_ok Hv as u2 g2 Hexp Hv. inv_ok Hv as u3 g3 Hdep Hv. inv_ok Hv as user g4 Huser Hv.
  destruct user as [user|]; [|discriminate]. inv_ok Hv as u5 g5 Htouch Hv. injection Hv as <- <-.
  apply expiry_checked in Hexp as [Hticks Hexp]. cbn in Hticks, Hexp. pose proof (deprecation_checked _ _ _ _ Hdep) as Hdep'.
  exists id, k. split; [done|]. split; [done|]. split; [|done].
  intros [Hf|[(e & He & Hn)|(t & Ht & Hn)]]; [congruence|..].
  - specialize (Hexp e He). specialize (Hn (S (ga_ticks g)) ltac:(lia)). lia.
  - specialize (Hdep' t Ht). specialize (Hn (ga_ticks g2) ltac:(lia)). lia.
Qed.

(** A dead key stays dead.  Once the only key with a secret is revoked, or
    expired or past its grace period for good, then after any requests to the key
    routes and any statements failing, no request authenticates with that
    secret. *)
Theorem dead_key_refused g g' id k headers token narrow :
  hashes_unique (ga_db g) -> ad_keys (ga_db g) !! id = Some k -> rtc key_step g g' -> dead (ga_ticks g') k ->
  extract_bearer_token headers = Ok token -> String.prefix "ak_" token = true -> key_digest token = ak_key_hash k ->
  is_ok (fst (validate_session_with_scope var headers narrow g')) = false.
Proof.
  intros Hu Hk Hrun Hdead Htok Hpre Hdig. pose proof (key_run_grown _ _ Hrun) as Hg.
  destruct (gr_kept _ _ Hg id k Hk) as (k' & Hk' & Hw). pose proof (dead_weaker _ _ _ Hw Hdead) as Hdead'.
  destruct (validate_session_with_scope var headers narrow g') as [[v|e] g2] eqn:Hv; [|done]. exfalso.
  unfold validate_session_with_scope in Hv. rewrite Htok in Hv. cbn [st_lift] in Hv. unfold st_bind at 1 in Hv. cbn in Hv. rewrite Hpre in Hv.
  inv_ok Hv as w g3 Hw3 Hv. destruct (validate_api_key_row _ _ _ _ _ Hw3) as (j & kj & Hj & Hh & Hnd & _).
  assert (j = id) as -> by (apply (gr_hashes _ _ Hg Hu j id kj k' Hj Hk'); destruct Hw as [E _]; unfold identity in E; congruence).
  assert (kj = k') as -> by congruence. done.
Qed.

(** ** Narrowed keys *)

(** The tables but for the time keys were last used. *)
Definition ak_core (k : ApiKeyRow) : ApiKeyRow :=
  mkApiKeyRow (ak_user_id k) (ak_name k) (ak_key_hash k) (ak_key_prefix k) (ak_is_active k) (ak_created_at k) None
    (ak_expires_at k) (ak_rate_limit_rpm k) (ak_deprecated_at k) (ak_is_operator k) (ak_permissions k).

Definition core_of (d : AuthDb) : gmap Z Role * gmap Z ApiKeyRow := (ad_users d, ak_core <$> ad_keys d).

Lemma touch_core id now d : core_of (snd (touch_key id now d)) = core_of d.
Proof.
  unfold touch_key, update_key, core_of. destruct (ad_keys d !! id) as [k|] eqn:Hk; [|done]. cbn. f_equal.
  rewrite fmap_insert. apply insert_id. rewrite lookup_fmap, Hk. done.
Qed.

Definition same_core (c : gmap Z Role * gmap Z ApiKeyRow) (g : Gate) : Prop := core_of (ga_db g) = c.

Lemma adb_core c {A} (stmt : AStatement A) :
  (forall now d, core_of (snd (stmt now d)) = core_of d) -> preserves (same_core c) (adb stmt).
Proof.
  intros Hs g Hg. unfold adb, same_core in *. destruct (calls _); cbn; [|done|].
  - specialize (Hs (clock (ga_ticks g)) (ga_db g)). destruct (stmt _ _). cbn in *. congruence.
  - by rewrite Hs.
Qed.

(** Authenticating changes nothing but the time a key was last used. *)
Lemma with_scope_core c headers narrow : preserves (same_core c) (validate_session_with_scope var headers narrow).
Proof.
  assert (Hsel : forall A (f : AuthDb -> A), preserves (same_core c) (adb (aselect f))) by (intros; by apply adb_core).
  assert (Htouch : forall id, preserves (same_core c) (adb (touch_key id))) by (intros id; apply adb_core, touch_core).
  assert (Hnow : forall E, preserves (same_core c) (@ga_now _ E)) by (by intros E g Hg).
  assert (Hmod : forall E f, (forall g, ga_db (f g) = ga_db g) -> preserves (same_core c) (@st_modify _ E f))
    by (intros E f Hf g Hg; unfold same_core in *; cbn; by rewrite Hf).
  unfold validate_session_with_scope. apply preserves_bind; [auto with preserves|]. intros token. destruct (String.prefix _ _).
  - apply preserves_bind; [|auto with preserves]. unfold validate_api_key, get_api_key_auth_info, get_user.
    apply preserves_bind; [auto with preserves|]. intros [[id k]|]; [|auto with preserves]. destruct (negb _); [auto with preserves|].
    apply preserves_bind; [|intros _; apply preserves_bind].
    + destruct (ak_expires_at k); [|auto with preserves]. apply preserves_bind; [auto with preserves|]. intros now.
      destruct (_ <? _); auto with preserves.
    + unfold check_deprecation. destruct (ak_deprecated_at k); [|auto with preserves]. apply preserves_bind; [auto with preserves|].
      intros now. destruct (is_grace_expired _ _ _); auto with preserves.
    + intros _. apply preserves_bind; [auto with preserves|]. intros [u|]; auto with preserves.
  - destruct (parse_uuid token); [|auto with preserves]. apply preserves_bind; [auto with preserves|]. intros n.
    destruct (validate_session_token _ _) as [[u t]|]; auto with preserves.
Qed.

(** A narrowed key cannot manage keys.  A request with an API key whose scope
    is not [unrestricted] is refused by every key route and changes nothing but
    the time a key was last used: it cannot widen itself, or mint, rotate or
    revoke a key. *)
Theorem narrowed_key_confined headers token rq g :
  extract_bearer_token headers = Ok token -> String.prefix "ak_" token = true ->
  (forall id k, ad_keys (ga_db g) !! id = Some k -> ak_key_hash k = key_digest token ->
     key_retains_unrestricted_access (ak_permissions k) = false) ->
  is_ok (fst (serve var headers rq g)) = false /\ core_of (ga_db (snd (serve var headers rq g))) = core_of (ga_db g).
Proof.
  intros Htok Hpre Hnar. pose proof (with_scope_core (core_of (ga_db g)) headers true g eq_refl) as Hc.
  assert (Hv : validate_session var headers g
               = (match fst (validate_session_with_scope var headers true g) with
                  | Ok _ => Err (403, "This API key is limited to specific store permissions and cannot be used here"%string)
                  | Err e => Err e
                  end, snd (validate_session_with_scope var headers true g))).
  { unfold validate_session, st_bind at 1. destruct (validate_session_with_scope var headers true g) as [[v|e] g1] eqn:Hv; [|done]. cbn.
    unfold validate_session_with_scope in Hv. rewrite Htok in Hv. cbn [st_lift] in Hv. unfold st_bind at 1 in Hv. cbn in Hv. rewrite Hpre in Hv.
    inv_ok Hv as w g2 Hw Hv. destruct (validate_api_key_row _ _ _ _ _ Hw) as (id & k & Hk & Hh & _ & Hp & _).
    assert (v = w) as -> by (unfold st_bind, st_modify, st_ret in Hv; cbn in Hv; congruence).
    by rewrite Hp, (Hnar id k Hk Hh). }
  unfold serve, st_bind, st_map_err. rewrite Hv. destruct (fst (validate_session_with_scope var headers true g)); done.
Qed.

(** ** Rotation *)

Lemma select_run {A} (f : AuthDb -> A) g r g' :
  fail_500 (adb (aselect f)) g = (r, g') -> ga_db g' = ga_db g /\ (forall a, r = Ok a -> a = f (ga_db g)).
Proof.
  unfold fail_500, st_map_err, adb, aselect. destruct (calls _); intros [= <- <-]; (split; [done|]); intros a [= <-]; done.
Qed.

Lemma build_run {E} name user expires_at g :
  exists raw prefix now id g', @build_api_key _ _ E name user expires_at g
    = (Ok (raw, mkApiKey id user name (key_digest raw) prefix true now None expires_at), g') /\ ga_db g' = ga_db g.
Proof. do 5 eexists. unfold build_api_key, st_bind, generate_key_segment, ga_now, fresh_id, st_ret. cbn. split; reflexivity. Qed.

(** The row a rotation adds for the owner of [k]. *)
Definition replacement (k : ApiKeyRow) (hash prefix : string) (now : Instant) : ApiKeyRow :=
  mkApiKeyRow (ak_user_id k) (ak_name k +:+ " (rotated)") hash prefix true now None (ak_expires_at k) None None false (ak_permissions k).

(** Rotation swaps the secret.  Whatever statements fail, a rotation leaves
    the table as it was, or deprecates an active, not yet deprecated key of the
    caller and adds, in the same transaction, one active key with its owner,
    expiry and scope; and a rotation that answers has done so. *)
Theorem rotation_swaps_secret user id g r g' :
  rotate_api_key user id g = (r, g') ->
  (ga_db g' = ga_db g /\ is_ok r = false) \/
  (exists k raw prefix created new_id now,
     ad_keys (ga_db g) !! id = Some k /\ ak_user_id k = ui_id user /\ ak_is_active k = true /\ ak_deprecated_at k = None /\
     ad_keys (ga_db g) !! new_id = None /\
     ga_db g' = ad_set_keys (<[id := ak_set_deprecated now k]>
                  (<[new_id := replacement k (key_digest raw) prefix created]> (ad_keys (ga_db g)))) (ga_db g) /\
     (forall a, r = Ok a -> a.1.1.1 = raw /\ a.2 = ak_permissions k)).
Proof.
  unfold rotate_api_key, st_bind at 1. destruct (fail_500 (adb (get_api_key id)) g) as [r1 g1] eqn:E1.
  apply select_run in E1 as [D1 R1]. destruct r1 as [key|e]; [|intros [= <- <-]; left; done].
  specialize (R1 _ eq_refl). destruct (ad_keys (ga_db g) !! id) as [k|] eqn:Hk; cbn in R1; subst key; [|intros [= <- <-]; left; done].
  cbn [into_api_key key_user_id key_is_active key_name key_expires_at].
  destruct (Z.eqb_spec (ak_user_id k) (ui_id user)) as [Hu|]; cbn [negb]; [|intros [= <- <-]; left; done].
  destruct (ak_is_active k) eqn:Hact; cbn [negb]; [|intros [= <- <-]; left; done].
  unfold st_bind at 1. destruct (fail_500 (adb (get_api_key_auth_info_by_id id)) g1) as [r2 g2] eqn:E2.
  apply select_run in E2 as [D2 R2]. rewrite D1 in *. destruct r2 as [info|e]; [|intros [= <- <-]; left; done].
  specialize (R2 _ eq_refl). rewrite Hk in R2. subst info. case_bool_decide as Hdep; [intros [= <- <-]; left; done|].
  apply eq_None_not_Some in Hdep. unfold st_bind at 1.
  destruct (@build_run Z (ak_name k +:+ " (rotated)") (ui_id user) (ak_expires_at k) g2) as (raw & prefix & created & new_id & g3 & -> & D3).
  unfold st_bind at 1, ga_now. unfold st_bind, fail_500, st_map_err, adb. cbn [ga_db ga_ticks ga_tick]. rewrite D3, D2.
  set (new := mkApiKey new_id _ _ _ _ _ _ _ _). set (stmt := rotate_api_key_atomic new (ak_permissions k) id (clock (ga_ticks g3))).
  assert (Hstmt : forall now, (exists e, stmt now (ga_db g) = (Err e, ga_db g)) \/
    (ad_keys (ga_db g) !! new_id = None /\ stmt now (ga_db g) = (Ok tt,
       ad_set_keys (<[id := ak_set_deprecated (clock (ga_ticks g3)) k]>
         (<[new_id := replacement k (key_digest raw) prefix created]> (ad_keys (ga_db g)))) (ga_db g)))).
  { intros now. unfold stmt, rotate_api_key_atomic, insert_api_key. destruct (_ || _) eqn:Hc; [left; eauto|].
    apply orb_false_iff in Hc as [[Hid _]%orb_false_iff _]. apply bool_decide_eq_false, eq_None_not_Some in Hid. cbn [key_id new] in Hid.
    assert (new_id <> id) by congruence. cbn [ad_keys ad_set_keys key_id new]. rewrite lookup_insert_ne, Hk by done.
    rewrite bool_decide_eq_true_2 by done. right. split; [done|]. unfold replacement. rewrite Hu. done. }
  destruct (calls _); [|intros [= <- <-]; left; done|].
  - destruct (Hstmt (clock (S (ga_ticks g3)))) as [(e & ->)|(Hn & ->)]; intros [= <- <-]; [left; done|].
    right. exists k, raw, prefix, created, new_id, (clock (ga_ticks g3)). do 6 (split; [done|]). by intros a [= <-].
  - destruct (Hstmt (clock (S (ga_ticks g3)))) as [(e & ->)|(Hn & ->)]; intros [= <- <-]; [left; done|].
    right. exists k, raw, prefix, created, new_id, (clock (ga_ticks g3)). do 6 (split; [done|]). discriminate.
Qed.
End Life.
