(* ===== verification/RateLimit.v ===== *)
(** * Rate limits

    [server/src/api/rate_limit.rs] (a budget per client address and kind of
    request) and [server/src/api/api_key_rate_limit.rs] (a budget per API key).
    The token bucket itself is the [governor] library: the class [Governor], with
    its documented rate in [GovernorLaws]. *)

From stdpp Require Import gmap strings list.
From Stdlib Require Import ZArith Lia Ascii.
From S2P Require Import Prelude Events Decimal Database Services Consumer Idempotency ApiAuth.

#[local] Open Scope Z_scope.

(** ** The bucket *)

Definition MINUTE : Z := seconds 60.

Class Governor := {
  Cell : Type;
  (** an untouched cell of a quota per minute *)
  new_cell : Z -> Cell;
  (** one request at an instant: how long to wait, when it is refused *)
  check_cell : Instant -> Cell -> option Z * Cell
}.

Section Cells.
Context `{Governor}.

(** The number of requests admitted, of requests at these instants. *)
Fixpoint admitted (c : Cell) (times : list Instant) : nat :=
  match times with
  | [] => 0%nat
  | t :: rest =>
      let '(r, c') := check_cell t c in
      ((match r with None => 1 | Some _ => 0 end) + admitted c' rest)%nat
  end.
End Cells.

(** Every instant is at least the one before. *)
Fixpoint in_order (from : Instant) (times : list Instant) : Prop :=
  match times with [] => True | t :: rest => from <= t /\ in_order t rest end.

(** A quota of [q] per minute admits a burst of [q], and one more for every
    [60 / q] seconds. *)
Class GovernorLaws `{Governor} := {
  quota_rate q t rest : 1 <= q < 2 ^ 32 -> in_order t rest ->
    Z.of_nat (admitted (new_cell q) (t :: rest)) <= q + (List.last rest t - t) / (MINUTE / q)
}.

(** ** Per address and tier *)

Record RateLimitConfig := mkRateLimitConfig {
  auth_rpm : Z;
  write_rpm : Z;
  read_rpm : Z;
  ws_rpm : Z
}.

Definition default_rate_limits : RateLimitConfig := mkRateLimitConfig 30 120 300 60.

(** [str::parse::<u32>] *)
Definition parse_u32 (s : string) : option Z := n ← parse_u64 s; if n <? 2 ^ 32 then Some n else None.

(** [parse_env_u32], [RateLimitConfig::from_env] *)
Definition parse_env_u32 (var : string -> option string) (key : string) (dflt : Z) : Z :=
  default dflt (v ← var key; parse_u32 v).

Definition rate_limits_from_env (var : string -> option string) : RateLimitConfig :=
  mkRateLimitConfig (parse_env_u32 var "RATE_LIMIT_AUTH" 30) (parse_env_u32 var "RATE_LIMIT_WRITE" 120)
    (parse_env_u32 var "RATE_LIMIT_READ" 300) (parse_env_u32 var "RATE_LIMIT_WS" 60).

Inductive Tier := TierHealth | TierAuth | TierWrite | TierRead | TierWebSocket.

#[export] Instance Tier_eq_dec : EqDecision Tier.
Proof. solve_decision. Defined.

(** [str::ends_with] *)
Definition ends_with (suffix s : string) : bool :=
  (String.length suffix <=? String.length s)%nat
  && String.eqb (String.substring (String.length s - String.length suffix) (String.length suffix) s) suffix.

(** [classify] *)
Definition classify (path method : string) : Tier :=
  if String.prefix "/health" path || String.eqb path "/metrics" || String.prefix "/swagger" path || String.prefix "/api-docs" path
  then TierHealth
  else if String.prefix "/auth" path then TierAuth
  else if String.eqb path "/ws" || ends_with "/ws" path then TierWebSocket
  else if String.eqb method "GET" || String.eqb method "HEAD" || String.eqb method "OPTIONS" then TierRead
  else TierWrite.

(** The text of IP addresses, of the standard library. *)
Class IpText := { parse_ip : string -> option Z; localhost : Z }.

(** [client_ip] *)
Definition client_ip `{IpText} (headers : list (string * string)) (fallback : Z) : Z :=
  match (xff ← get_header "x-forwarded-for" headers; s ← header_to_str xff; first ← head (split_on ","%char s); parse_ip (trim first)) with
  | Some ip => ip
  | None =>
      match (xri ← get_header "x-real-ip" headers; s ← header_to_str xri; parse_ip (trim s)) with
      | Some ip => ip
      | None => fallback
      end
  end.

Section Limits.
Context `{Governor} `{IpText}.

Record KeyedLimiter := mkKeyedLimiter { kl_quota : Z; kl_cells : gmap Z Cell }.

(** [NonZeroU32::new(rpm).unwrap_or(NonZeroU32::MIN)] *)
Definition non_zero (rpm : Z) : Z := if rpm =? 0 then 1 else rpm.

(** [make_limiter] *)
Definition make_limiter (rpm : Z) : KeyedLimiter := mkKeyedLimiter (non_zero rpm) ∅.

(** [RateLimiter::check_key] *)
Definition check_key (now : Instant) (ip : Z) (l : KeyedLimiter) : option Z * KeyedLimiter :=
  let '(r, c) := check_cell now (default (new_cell (kl_quota l)) (kl_cells l !! ip)) in
  (r, mkKeyedLimiter (kl_quota l) (<[ip := c]> (kl_cells l))).

(** [RateLimitState] *)
Record RateLimitState := mkRateLimitState {
  rl_auth : KeyedLimiter;
  rl_write : KeyedLimiter;
  rl_read : KeyedLimiter;
  rl_ws : KeyedLimiter
}.

(** [RateLimitState::from_config] *)
Definition from_config (config : RateLimitConfig) : RateLimitState :=
  mkRateLimitState (make_limiter (auth_rpm config)) (make_limiter (write_rpm config))
    (make_limiter (read_rpm config)) (make_limiter (ws_rpm config)).

(** A request as the limiter sees it: when, what, and from where. *)
Record Arrival := mkArrival { ar_at : Instant; ar_request : HttpRequest; ar_peer : option Z }.

Definition tier_of (a : Arrival) : Tier := classify (rq_path (ar_request a)) (rq_method (ar_request a)).
Definition ip_of (a : Arrival) : Z := client_ip (rq_headers (ar_request a)) (default localhost (ar_peer a)).

(** The [Retry-After] of a refusal. *)
Definition retry_after (wait : Z) : Z := wait / NANOS + 1.

(** [rate_limit::middleware]: the [Retry-After] of a refused request *)
Definition rate_limit_middleware (a : Arrival) (st : RateLimitState) : option Z * RateLimitState :=
  let ip := ip_of a in
  match tier_of a with
  | TierHealth => (None, st)
  | TierAuth => let '(r, l) := check_key (ar_at a) ip (rl_auth st) in
      (retry_after <$> r, mkRateLimitState l (rl_write st) (rl_read st) (rl_ws st))
  | TierWrite => let '(r, l) := check_key (ar_at a) ip (rl_write st) in
      (retry_after <$> r, mkRateLimitState (rl_auth st) l (rl_read st) (rl_ws st))
  | TierRead => let '(r, l) := check_key (ar_at a) ip (rl_read st) in
      (retry_after <$> r, mkRateLimitState (rl_auth st) (rl_write st) l (rl_ws st))
  | TierWebSocket => let '(r, l) := check_key (ar_at a) ip (rl_ws st) in
      (retry_after <$> r, mkRateLimitState (rl_auth st) (rl_write st) (rl_read st) l)
  end.

(** ** Per API key *)

Record ApiKeyRateLimitState := mkApiKeyRateLimitState {
  kr_default_rpm : Z;
  kr_limiters : gmap Z (Z * Cell)
}.

(** [ApiKeyRateLimitState::from_env] *)
Definition api_key_limits_from_env (var : string -> option string) : ApiKeyRateLimitState :=
  mkApiKeyRateLimitState (parse_env_u32 var "RATE_LIMIT_API_KEY_DEFAULT" 300) ∅.

(** [make_direct_limiter] *)
Definition make_direct_limiter (rpm : Z) : Cell := new_cell (non_zero rpm).

(** [get_rate_limit_by_hash] *)
Definition get_rate_limit_by_hash (hash : string) (d : AuthDb) : option (Uuid * option Z) :=
  head (omap (fun ik : Z * ApiKeyRow => if String.eqb (ak_key_hash ik.2) hash && ak_is_active ik.2
                                        then Some (ik.1, ak_rate_limit_rpm ik.2) else None) (map_to_list (ad_keys d))).

(** [api_key_rate_limit::middleware]; [c] tells whether the lookup is answered *)
Definition api_key_rate_limit_middleware `{AuthHost} (now : Instant) (headers : list (string * string)) (c : Call) (d : AuthDb)
    (st : ApiKeyRateLimitState) : option Z * ApiKeyRateLimitState :=
  match (h ← get_header "x-api-key" headers; header_to_str h) with
  | None => (None, st)
  | Some raw_key =>
      if String.eqb raw_key "" then (None, st)
      else
      match c with
      | Answered =>
          match get_rate_limit_by_hash (key_digest raw_key) d with
          | None => (None, st)
          | Some (id, rate_limit_rpm) =>
              let effective_rpm := default (kr_default_rpm st) (r ← rate_limit_rpm; if 0 <? r then Some r else None) in
              let '(current_rpm, cell) := default (effective_rpm, make_direct_limiter effective_rpm) (kr_limiters st !! id) in
              let cell := if current_rpm =? effective_rpm then cell else make_direct_limiter effective_rpm in
              let '(r, cell') := check_cell now cell in
              (retry_after <$> r,
               mkApiKeyRateLimitState (kr_default_rpm st) (<[id := (effective_rpm, cell')]> (kr_limiters st)))
          end
      | _ => (None, st)
      end
  end.
End Limits.

(** ** What a client can get through *)

Section Bound.
Context `{GovernorLaws} `{IpText}.

Definition limiter_of (tier : Tier) (st : RateLimitState) : option KeyedLimiter :=
  match tier with
  | TierHealth => None
  | TierAuth => Some (rl_auth st)
  | TierWrite => Some (rl_write st)
  | TierRead => Some (rl_read st)
  | TierWebSocket => Some (rl_ws st)
  end.

Definition cell_of (l : KeyedLimiter) (ip : Z) : Cell := default (new_cell (kl_quota l)) (kl_cells l !! ip).

Definition is_from (tier : Tier) (ip : Z) (a : Arrival) : bool := bool_decide (tier_of a = tier) && (ip_of a =? ip).

(** The requests of one client and tier that pass, of a sequence of requests. *)
Fixpoint passed (tier : Tier) (ip : Z) (arrivals : list Arrival) (st : RateLimitState) : nat :=
  match arrivals with
  | [] => 0%nat
  | a :: rest =>
      let '(r, st') := rate_limit_middleware a st in
      ((if is_from tier ip a then match r with None => 1 | Some _ => 0 end else 0) + passed tier ip rest st')%nat
  end.

Definition times_of (tier : Tier) (ip : Z) (arrivals : list Arrival) : list Instant :=
  ar_at <$> List.filter (is_from tier ip) arrivals.

(** A request moves the cell of its own client and tier, and no other. *)
Lemma middleware_cell tier ip a st l :
  limiter_of tier st = Some l ->
  exists l', limiter_of tier (snd (rate_limit_middleware a st)) = Some l' /\ kl_quota l' = kl_quota l /\
    if is_from tier ip a
    then check_cell (ar_at a) (cell_of l ip) = (fst (check_key (ar_at a) ip l), cell_of l' ip) /\
         fst (rate_limit_middleware a st) = (retry_after <$> fst (check_key (ar_at a) ip l))
    else cell_of l' ip = cell_of l ip.
Proof.
  intros Hl. unfold rate_limit_middleware, is_from.
  assert (Hother : forall l0, ip_of a <> ip -> kl_quota (snd (check_key (ar_at a) (ip_of a) l0)) = kl_quota l0 /\
                     cell_of (snd (check_key (ar_at a) (ip_of a) l0)) ip = cell_of l0 ip).
  { intros l0 Hn. unfold check_key, cell_of. destruct (check_cell _ _) as [r c]. cbn. by rewrite lookup_insert_ne. }
  assert (Hown : kl_quota (snd (check_key (ar_at a) ip l)) = kl_quota l /\
                 check_cell (ar_at a) (cell_of l ip) = (fst (check_key (ar_at a) ip l), cell_of (snd (check_key (ar_at a) ip l)) ip)).
  { unfold check_key, cell_of. destruct (check_cell _ _) as [r c] eqn:E. cbn. by rewrite lookup_insert_eq. }
  destruct (decide (tier_of a = tier)) as [<-|Hne].
  - rewrite bool_decide_eq_true_2 by done. cbn [andb]. destruct (Z.eqb_spec (ip_of a) ip) as [Hip|Hip].
    + destruct (tier_of a); [done|..]; cbn [limiter_of] in *; injection Hl as ->; rewrite Hip in *;
        destruct (check_key (ar_at a) ip l) as [r l'] eqn:E; cbn in *; exists l'; destruct Hown as [-> ->]; done.
    + destruct (tier_of a); [done|..]; cbn [limiter_of] in *; injection Hl as ->; destruct (Hother l Hip) as [Hq Hc];
        destruct (check_key (ar_at a) (ip_of a) l) as [r l'] eqn:E; cbn in *; exists l'; done.
  - rewrite bool_decide_eq_false_2 by done. cbn [andb]. exists l.
    clear Hother Hown. destruct (tier_of a) eqn:Et, tier; try congruence; cbn [limiter_of] in *; try destruct (check_key _ _ _); cbn [fst snd limiter_of rl_auth rl_write rl_read rl_ws]; done.
Qed.

Lemma passed_admitted tier ip arrivals st l :
  limiter_of tier st = Some l -> passed tier ip arrivals st = admitted (cell_of l ip) (times_of tier ip arrivals).
Proof.
  revert st l. induction arrivals as [|a rest IH]; intros st l Hl; [done|]. cbn [passed].
  destruct (middleware_cell tier ip a st l Hl) as (l' & Hl' & _ & Hc).
  destruct (rate_limit_middleware a st) as [r st'] eqn:E. cbn in Hl', Hc. rewrite (IH st' l' Hl').
  unfold times_of. cbn [List.filter]. destruct (is_from tier ip a); [|by rewrite Hc].
  destruct Hc as [Hc ->]. cbn [fmap list_fmap admitted]. rewrite Hc. by destruct (fst (check_key (ar_at a) ip l)).
Qed.

(** C23. A client's requests are bounded.  However the requests of all clients and
    tiers interleave, of those of one address in one limited tier at most the
    tier's quota pass at once, and one more for every [60 / quota] seconds between
    the first and the last of them. *)
Theorem client_rate_bounded config tier ip arrivals l t rest :
  limiter_of tier (from_config config) = Some l -> 1 <= kl_quota l < 2 ^ 32 ->
  times_of tier ip arrivals = t :: rest -> in_order t rest ->
  Z.of_nat (passed tier ip arrivals (from_config config)) <= kl_quota l + (List.last rest t - t) / (MINUTE / kl_quota l).
Proof.
  intros Hl Hq Ht Ho. rewrite (passed_admitted tier ip arrivals _ l Hl), Ht.
  assert (cell_of l ip = new_cell (kl_quota l)) as -> by (destruct tier; cbn in Hl; simplify_eq; unfold cell_of; cbn; by rewrite lookup_empty).
  by apply quota_rate.
Qed.
End Bound.
