(* ===== verification/RpcSource.v ===== *)
(** * The RPC block source

    [evm/src/monitor/source/rpc.rs]: a chain read from a node, over WebSocket
    for block notifications and HTTP for data.  The node, the client library
    that talks to it and the URL parser are parameters ([RpcNode]); their laws
    ([RpcNodeLaws]) are what the client documents about filters and what a node
    promises about its logs. *)

From stdpp Require Import gmap strings list.
From Stdlib Require Import ZArith Lia.
From S2P Require Import Prelude Events Network Commands.

(** ** Status codes *)

Definition STATUS_CONNECTED : Z := 0.
Definition STATUS_CONNECTING : Z := 1.
Definition STATUS_DISCONNECTED : Z := 2.
Definition STATUS_FAILED : Z := 3.

(** ** What a node answers *)

Record Header := mkHeader {
  hdr_number : Z;
  hdr_hash : B256;
  hdr_parent_hash : B256;
  hdr_timestamp : Z
}.

(** The parts of a transaction the source reads; [to] is [None] for a contract
    creation. *)
Record Tx := mkTx {
  tx_hash : B256;
  tx_from : Address;
  tx_to : option Address;
  tx_value : U256
}.

(** The client's three shapes of a transaction list. *)
Inductive BlockTransactions : Type :=
| FullTransactions (txs : list Tx)
| TransactionHashes (hashes : list B256)
| UncleBlock.

Definition is_full (b : BlockTransactions) : bool :=
  match b with FullTransactions _ => true | _ => false end.

Definition is_uncle (b : BlockTransactions) : bool :=
  match b with UncleBlock => true | _ => false end.

(** [txns]: empty for an uncle and for a list of hashes. *)
Definition txns (b : BlockTransactions) : list Tx :=
  match b with FullTransactions txs => txs | _ => [] end.

Record Block := mkBlock {
  blk_header : Header;
  blk_transactions : BlockTransactions
}.

Inductive BlockNumberOrTag : Type :=
| Latest
| Number (n : Z).

Inductive BlockTransactionsKind : Type :=
| KindHashes
| KindFull.

Record Url := mkUrl {
  url_scheme : string;
  url_host_str : option string;
  url_port : option Z
}.

(** How often and how far apart the client redials a dropped WebSocket. *)
Record ConnectionConfig := mkConnectionConfig {
  conn_max_retries : Z;
  conn_retry_interval_ms : Z
}.

(** The client library and the node behind each URL.  A request also takes
    the number of questions asked before it, since answers change over time;
    errors are the text the client renders. *)
Class RpcNode := {
  url_parse : string -> result string Url;
  node_connect : nat -> string -> result string unit;
  node_connect_with_config : nat -> string -> ConnectionConfig -> result string unit;
  node_get_chain_id : nat -> string -> result string Z;
  node_subscribe_blocks : nat -> string -> result string unit;
  node_get_block_by_number : nat -> string -> BlockNumberOrTag -> BlockTransactionsKind ->
                             result string (option Block);
  node_get_block_number : nat -> string -> result string Z;
  node_get_balance : nat -> string -> Address -> BlockNumberOrTag -> result string U256;
  Filter : Type;
  filter_new : Filter;
  filter_address : list Address -> Filter -> Filter;
  filter_event_signature : B256 -> Filter -> Filter;
  filter_topic1 : B256 -> Filter -> Filter;
  filter_topic2 : B256 -> Filter -> Filter;
  filter_topic3 : B256 -> Filter -> Filter;
  filter_from_block : Z -> Filter -> Filter;
  filter_to_block : Z -> Filter -> Filter;
  node_get_logs : nat -> string -> Filter -> result string (list Log)
}.

(** [impl From<&Block> for BlockNotification] *)
Definition notification_of_block (block : Block) : BlockNotification :=
  {| bn_number := hdr_number (blk_header block);
     bn_hash := hdr_hash (blk_header block);
     bn_parent_hash := hdr_parent_hash (blk_header block);
     bn_timestamp := hdr_timestamp (blk_header block) |}.

(** ** Text *)

(** The empty pattern matches between any two characters. *)
Fixpoint interleave (rep s : string) : string :=
  match s with
  | EmptyString => rep
  | String c s' => rep +:+ String c (interleave rep s')
  end.

(** [str::replace] for any pattern; [str_replace] is the scan for one that is
    not empty. *)
Definition text_replace (pat rep s : string) : string :=
  match pat with
  | EmptyString => interleave rep s
  | _ => str_replace 0 pat rep s
  end.

(** ** Configuration *)

Record RpcSourceConfig := mkRpcSourceConfig {
  rsc_ws_url : option string;
  rsc_http_url : string;
  rsc_chain_id : Z;
  rsc_max_reconnect_attempts : Z;
  rsc_reconnect_delay_ms : Z;
  rsc_fallback_to_polling : bool;
  rsc_polling_interval_ms : Z
}.

(** [RpcSourceConfig::with_websocket] *)
Definition with_websocket (ws_url http_url : string) (chain_id : Z) : RpcSourceConfig :=
  {| rsc_ws_url := Some ws_url;
     rsc_http_url := http_url;
     rsc_chain_id := chain_id;
     rsc_max_reconnect_attempts := 0;
     rsc_reconnect_delay_ms := 5000;
     rsc_fallback_to_polling := true;
     rsc_polling_interval_ms := 12000 |}.

(** [RpcSourceConfig::http_only] *)
Definition http_only (http_url : string) (chain_id : Z) : RpcSourceConfig :=
  {| rsc_ws_url := None;
     rsc_http_url := http_url;
     rsc_chain_id := chain_id;
     rsc_max_reconnect_attempts := 0;
     rsc_reconnect_delay_ms := 5000;
     rsc_fallback_to_polling := true;
     rsc_polling_interval_ms := 12000 |}.

(** The configuration [create_chain_monitor] builds. *)
Definition source_config_for (rpc_config : ChainRpcConfig) : RpcSourceConfig :=
  match crc_rpc_ws rpc_config with
  | Some ws_url => with_websocket ws_url (crc_rpc_http rpc_config) (crc_chain_id rpc_config)
  | None => http_only (crc_rpc_http rpc_config) (crc_chain_id rpc_config)
  end.

(** [RpcSourceConfig::ws_connection_config] *)
Definition ws_connection_config (config : RpcSourceConfig) : ConnectionConfig :=
  let max_retries :=
    if rsc_max_reconnect_attempts config =? 0 then 2 ^ 32 - 1
    else rsc_max_reconnect_attempts config in
  {| conn_max_retries := max_retries;
     conn_retry_interval_ms := rsc_reconnect_delay_ms config |}.

(** [RpcBlockSource]; its HTTP provider is the connection to [http_url]. *)
Record RpcBlockSource := mkRpcBlockSource {
  rbs_config : RpcSourceConfig;
  rbs_status : Z;
  rbs_error_message : option string
}.

Definition set_status (code : Z) (s : RpcBlockSource) : RpcBlockSource :=
  mkRpcBlockSource (rbs_config s) code (rbs_error_message s).

(** The two streams of blocks a subscription can return. *)
Inductive BlockStream : Type :=
| WsStream (ws_url : string) (chain_id : Z)
| PollingStream (http_url : string) (interval : Z) (chain_id : Z).

Section Source.
Context `{RpcNode}.

(** [redact_url] *)
Definition redact_url (raw : string) : string :=
  match url_parse raw with
  | Ok url =>
      let host := default "<unknown-host>"%string (url_host_str url) in
      match url_port url with
      | Some port => url_scheme url +:+ "://" +:+ host +:+ ":" +:+ z_to_string port
      | None => url_scheme url +:+ "://" +:+ host
      end
  | Err _ => "<unparseable-url>"
  end.

(** [redact_err] *)
Definition redact_err (e url : string) : string := text_replace url (redact_url url) e.

(** [RpcSourceConfig::scrub] *)
Definition scrub (config : RpcSourceConfig) (e : string) : string :=
  let rendered := redact_err e (rsc_http_url config) in
  match rsc_ws_url config with
  | Some secret => text_replace secret (redact_url secret) rendered
  | None => rendered
  end.

(** [map_err] on a node's answer. *)
Definition node_err {A} (f : string -> EvmError) (r : result string A) : EvmResult A :=
  match r with Ok a => Ok a | Err e => Err (f e) end.

(** [RpcBlockSource::new] *)
Definition rpc_new (t : nat) (config : RpcSourceConfig) : EvmResult RpcBlockSource :=
  match url_parse (rsc_http_url config) with
  | Err e => Err (InvalidChainConfig ("invalid HTTP URL: " +:+ e))
  | Ok _ =>
      match
        match rsc_ws_url config with
        | Some ws_url =>
            match url_parse ws_url with
            | Err e => Err (InvalidChainConfig ("invalid WebSocket URL: " +:+ e))
            | Ok _ => Ok tt
            end
        | None => Ok tt
        end
      with
      | Err e => Err e
      | Ok _ =>
          match node_connect t (rsc_http_url config) with
          | Err e => Err (Connection ("HTTP connection failed: " +:+ redact_err e (rsc_http_url config)))
          | Ok _ =>
              match node_get_chain_id t (rsc_http_url config) with
              | Err e => Err (Connection ("failed to get chain ID: " +:+ scrub config e))
              | Ok chain_id =>
                  if negb (chain_id =? rsc_chain_id config) then
                    Err (InvalidChainConfig ("chain ID mismatch: expected "
                           +:+ z_to_string (rsc_chain_id config) +:+ ", got " +:+ z_to_string chain_id))
                  else
                    Ok {| rbs_config := config;
                          rbs_status := STATUS_DISCONNECTED;
                          rbs_error_message := None |}
              end
          end
      end
  end.

(** [RpcBlockSource::create_ws_stream] *)
Definition create_ws_stream (t : nat) : St RpcBlockSource EvmError BlockStream :=
  let* config := st_gets rbs_config in
  match rsc_ws_url config with
  | None => st_throw (Connection "WebSocket URL not configured")
  | Some ws_url =>
      do* st_modify (set_status STATUS_CONNECTING);
      do* (match node_connect_with_config t ws_url (ws_connection_config config) with
           | Ok _ => st_ret tt
           | Err e =>
               do* st_modify (set_status STATUS_DISCONNECTED);
               st_throw (Connection ("WebSocket connection failed: " +:+ redact_err e ws_url))
           end);
      let* chain_id := st_lift (node_err
        (fun e => Connection ("failed to verify WS chain ID: " +:+ scrub config e))
        (node_get_chain_id t ws_url)) in
      if negb (chain_id =? rsc_chain_id config) then
        st_throw (InvalidChainConfig ("WS chain ID mismatch: expected "
                    +:+ z_to_string (rsc_chain_id config) +:+ ", got " +:+ z_to_string chain_id))
      else
        do* st_modify (set_status STATUS_CONNECTED);
        do* st_lift (node_err
          (fun e => Subscription ("block subscription failed: " +:+ scrub config e))
          (node_subscribe_blocks t ws_url));
        st_ret (WsStream ws_url (rsc_chain_id config))
  end.

(** [RpcBlockSource::create_polling_stream] *)
Definition create_polling_stream (config : RpcSourceConfig) : BlockStream :=
  PollingStream (rsc_http_url config) (rsc_polling_interval_ms config) (rsc_chain_id config).

(** [BlockSource::subscribe_blocks] *)
Definition subscribe_blocks (t : nat) : St RpcBlockSource EvmError BlockStream :=
  let* config := st_gets rbs_config in
  let fallback :=
    if rsc_fallback_to_polling config || option_is_none (rsc_ws_url config) then
      st_ret (create_polling_stream config)
    else st_throw (Connection "no block source available") in
  match rsc_ws_url config with
  | None => fallback
  | Some _ =>
      let* r := st_try (create_ws_stream t) in
      match r with
      | Ok stream => st_ret stream
      | Err e =>
          if negb (rsc_fallback_to_polling config) then st_throw e else fallback
      end
  end.

(** ** The streams *)

(** The WebSocket stream: one item per header, until the subscription ends. *)
Definition ws_items (headers : list Header) : list (EvmResult BlockNotification) :=
  (fun header =>
     Ok {| bn_number := hdr_number header;
           bn_hash := hdr_hash header;
           bn_parent_hash := hdr_parent_hash header;
           bn_timestamp := hdr_timestamp header |}) <$> headers.

(** The [loop] of the polling stream, over the answers to its successive
    requests for the latest block. *)
Fixpoint polling_loop (last_block : option Z) (answers : list (result string (option Block)))
  : list (EvmResult BlockNotification) :=
  match answers with
  | [] => []
  | Ok (Some block) :: rest =>
      let block_num := hdr_number (blk_header block) in
      if match last_block with None => true | Some last => last <? block_num end then
        Ok (notification_of_block block) :: polling_loop (Some block_num) rest
      else polling_loop last_block rest
  | Ok None :: rest => polling_loop last_block rest
  | Err e :: rest => Err (Rpc ("polling error: " +:+ e)) :: polling_loop last_block rest
  end.

(** The polling stream from its creation: [t] is when it connects, [polls] when
    it asks. *)
Definition polling_items (http_url : string) (t : nat) (polls : list nat)
  : list (EvmResult BlockNotification) :=
  match node_connect t http_url with
  | Err e => [Err (Connection ("polling connection failed: " +:+ redact_err e http_url))]
  | Ok _ =>
      polling_loop None
        ((fun t' => node_get_block_by_number t' http_url Latest KindHashes) <$> polls)
  end.

(** ** Reading the chain *)

(** [BlockSource::status] *)
Definition status (s : RpcBlockSource) : SourceStatus :=
  if rbs_status s =? STATUS_CONNECTED then Connected
  else if rbs_status s =? STATUS_CONNECTING then Connecting
  else if rbs_status s =? STATUS_DISCONNECTED then Disconnected
  else if rbs_status s =? STATUS_FAILED then
    Failed (default "unknown error"%string (rbs_error_message s))
  else Disconnected.

(** The loop [for (i, topic) in filter.topics.iter().enumerate()]. *)
Fixpoint add_topics (i : nat) (topics : list (option B256)) (f : Filter) : Filter :=
  match topics with
  | [] => f
  | None :: rest => add_topics (S i) rest f
  | Some t :: rest =>
      let f :=
        match i with
        | 0%nat => filter_event_signature t f
        | 1%nat => filter_topic1 t f
        | 2%nat => filter_topic2 t f
        | 3%nat => filter_topic3 t f
        | _ => f
        end in
      add_topics (S i) rest f
  end.

(** The filter [get_logs] builds. *)
Definition alloy_filter (filter : LogFilter) : Filter :=
  let f := filter_new in
  let f := if decide (lf_addresses filter = []) then f else filter_address (lf_addresses filter) f in
  let f := add_topics 0 (lf_topics filter) f in
  let f := match lf_from_block filter with Some from => filter_from_block from f | None => f end in
  match lf_to_block filter with Some to => filter_to_block to f | None => f end.

(** [BlockSource::get_logs] *)
Definition rpc_get_logs (config : RpcSourceConfig) (t : nat) (filter : LogFilter)
  : EvmResult (list Log) :=
  node_err (fun e => Rpc ("get_logs failed: " +:+ scrub config e))
    (node_get_logs t (rsc_http_url config) (alloy_filter filter)).

(** [BlockSource::get_balance] *)
Definition rpc_get_balance (config : RpcSourceConfig) (t : nat) (address : Address)
    (block : option Z) : EvmResult U256 :=
  let block_id := match block with Some n => Number n | None => Latest end in
  node_err (fun e => Rpc ("get_balance failed: " +:+ scrub config e))
    (node_get_balance t (rsc_http_url config) address block_id).

(** [BlockSource::get_block_number] *)
Definition rpc_get_block_number (config : RpcSourceConfig) (t : nat) : EvmResult Z :=
  node_err (fun e => Rpc ("get_block_number failed: " +:+ scrub config e))
    (node_get_block_number t (rsc_http_url config)).

(** [BlockSource::get_block] *)
Definition rpc_get_block (config : RpcSourceConfig) (t : nat) (number : Z) : EvmResult (option Block) :=
  node_err (fun e => Rpc ("get_block failed: " +:+ scrub config e))
    (node_get_block_by_number t (rsc_http_url config) (Number number) KindHashes).

(** The loop of [extract_native_transfers]: [transfers] is the [mut Vec],
    [tx_index] the count of [enumerate]. *)
Fixpoint extract_loop (watched : gset Z) (tx_index : nat) (transfers : list NativeTransfer)
    (txs : list Tx) : list NativeTransfer :=
  match txs with
  | [] => transfers
  | tx :: rest =>
      match tx_to tx with
      | None => extract_loop watched (S tx_index) transfers rest
      | Some to =>
          if negb (bool_decide (to ∈ watched)) then extract_loop watched (S tx_index) transfers rest
          else if tx_value tx =? 0 then extract_loop watched (S tx_index) transfers rest
          else
            extract_loop watched (S tx_index)
              (transfers ++
                 [{| nt_tx_hash := tx_hash tx;
                     nt_from := tx_from tx;
                     nt_to := to;
                     nt_value := tx_value tx;
                     nt_tx_index := Z.of_nat tx_index |}]) rest
      end
  end.

(** [extract_native_transfers] *)
Definition extract_native_transfers (block : Block) (watched : gset Z)
  : EvmResult (list NativeTransfer) :=
  if negb (is_full (blk_transactions block)) && negb (is_uncle (blk_transactions block)) then
    Err (Rpc "block came back with transaction hashes instead of full transactions; refusing to read it as having no payments")
  else Ok (extract_loop watched 0 [] (txns (blk_transactions block))).

(** [BlockSource::find_native_transfers_to] *)
Definition rpc_find_native_transfers_to (config : RpcSourceConfig) (t : nat) (block_number : Z)
    (addresses : list Address) : EvmResult (list NativeTransfer) :=
  if decide (addresses = []) then Ok []
  else
    let watched : gset Z := list_to_set addresses in
    match node_err (fun e => Rpc ("get_block_with_txs failed: " +:+ scrub config e))
            (node_get_block_by_number t (rsc_http_url config) (Number block_number) KindFull) with
    | Err e => Err e
    | Ok None =>
        Err (Rpc ("block " +:+ z_to_string block_number
                    +:+ " was announced but this endpoint has not imported it yet; refusing to treat it as empty"))
    | Ok (Some block) => extract_native_transfers block watched
    end.

(** ** The source as the monitor sees it

    Only subscribing changes the source.  [subs] says which of the monitor's
    questions are subscriptions, so [source_at subs s t] is the source [s]
    before its [t]-th question. *)

Fixpoint source_at (subs : nat -> bool) (s : RpcBlockSource) (t : nat) : RpcBlockSource :=
  match t with
  | O => s
  | S t' =>
      let s' := source_at subs s t' in
      if subs t' then snd (subscribe_blocks t' s') else s'
  end.

Definition rpc_block_source (subs : nat -> bool) (s : RpcBlockSource) : BlockSource :=
  {| source_status := fun t => status (source_at subs s t);
     source_subscribe_blocks := fun t =>
       match fst (subscribe_blocks t (source_at subs s t)) with Ok _ => Ok tt | Err e => Err e end;
     source_get_logs := rpc_get_logs (rbs_config s);
     source_get_block_number := rpc_get_block_number (rbs_config s);
     source_get_block := fun t n =>
       match rpc_get_block (rbs_config s) t n with
       | Ok b => Ok (hdr_hash ∘ blk_header <$> b)
       | Err e => Err e
       end;
     source_find_native_transfers_to := rpc_find_native_transfers_to (rbs_config s) |}.
End Source.

(** What [create_chain_monitor] connects to: [nodes n] is the world as a source
    created at [n] meets it. *)
Definition rpc_connect (nodes : nat -> RpcNode) (subs : nat -> bool) : RpcConnect :=
  {| rpc_source_new := fun n rpc_config =>
       match @rpc_new (nodes n) 0 (source_config_for rpc_config) with
       | Ok s => Ok (@rpc_block_source (nodes n) subs s)
       | Err e => Err e
       end |}.

(** ** Laws of the client and the node *)

(** What a filter of the client asks for. *)
Record FilterView := mkFilterView {
  fv_addresses : list Address;
  fv_topic0 : option B256;
  fv_topic1 : option B256;
  fv_topic2 : option B256;
  fv_topic3 : option B256;
  fv_from_block : option Z;
  fv_to_block : option Z
}.

(** A topic position that is not set matches any log. *)
Definition topic_matches (want : option B256) (have : option B256) : Prop :=
  match want with Some t => have = Some t | None => True end.

(** The block of a log against a bound that is not set. *)
Definition block_matches (rel : Z -> Z -> Prop) (bound have : option Z) : Prop :=
  match bound with Some b => exists n, have = Some n /\ rel b n | None => True end.

(** [eth_getLogs]: the logs a filter selects. *)
Definition view_matches (v : FilterView) (l : Log) : Prop :=
  (fv_addresses v = [] \/ log_address l ∈ fv_addresses v) /\
  topic_matches (fv_topic0 v) (log_topics l !! 0%nat) /\
  topic_matches (fv_topic1 v) (log_topics l !! 1%nat) /\
  topic_matches (fv_topic2 v) (log_topics l !! 2%nat) /\
  topic_matches (fv_topic3 v) (log_topics l !! 3%nat) /\
  block_matches Z.le (fv_from_block v) (log_block_number l) /\
  block_matches Z.ge (fv_to_block v) (log_block_number l).

(** Each builder method sets its own part of the filter; the node answers a
    log request with exactly the selected logs of the chain it holds then. *)
Class RpcNodeLaws `{RpcNode} := {
  filter_view : Filter -> FilterView;
  node_logs : nat -> string -> list Log;
  view_new : filter_view filter_new = mkFilterView [] None None None None None None;
  view_address l f :
    filter_view (filter_address l f) =
    let v := filter_view f in
    mkFilterView l (fv_topic0 v) (fv_topic1 v) (fv_topic2 v) (fv_topic3 v)
      (fv_from_block v) (fv_to_block v);
  view_event_signature t f :
    filter_view (filter_event_signature t f) =
    let v := filter_view f in
    mkFilterView (fv_addresses v) (Some t) (fv_topic1 v) (fv_topic2 v) (fv_topic3 v)
      (fv_from_block v) (fv_to_block v);
  view_topic1 t f :
    filter_view (filter_topic1 t f) =
    let v := filter_view f in
    mkFilterView (fv_addresses v) (fv_topic0 v) (Some t) (fv_topic2 v) (fv_topic3 v)
      (fv_from_block v) (fv_to_block v);
  view_topic2 t f :
    filter_view (filter_topic2 t f) =
    let v := filter_view f in
    mkFilterView (fv_addresses v) (fv_topic0 v) (fv_topic1 v) (Some t) (fv_topic3 v)
      (fv_from_block v) (fv_to_block v);
  view_topic3 t f :
    filter_view (filter_topic3 t f) =
    let v := filter_view f in
    mkFilterView (fv_addresses v) (fv_topic0 v) (fv_topic1 v) (fv_topic2 v) (Some t)
      (fv_from_block v) (fv_to_block v);
  view_from_block b f :
    filter_view (filter_from_block b f) =
    let v := filter_view f in
    mkFilterView (fv_addresses v) (fv_topic0 v) (fv_topic1 v) (fv_topic2 v) (fv_topic3 v)
      (Some b) (fv_to_block v);
  view_to_block b f :
    filter_view (filter_to_block b f) =
    let v := filter_view f in
    mkFilterView (fv_addresses v) (fv_topic0 v) (fv_topic1 v) (fv_topic2 v) (fv_topic3 v)
      (fv_from_block v) (Some b);
  node_logs_exact t url f ls :
    node_get_logs t url f = Ok ls ->
    forall l, l ∈ ls <-> l ∈ node_logs t url /\ view_matches (filter_view f) l
}.
