(* ===== verification/RpcSourceFacts.v ===== *)
(** * What the RPC block source reads

    The transfers found in a block are exactly those in it, a log request
    selects exactly what its filter describes, polling reports exactly the new
    heads, and a source serves only the chain it is configured for.  With the
    theorems of the chain monitor: a payment in a block the node served is
    announced before the cursor passes that block. *)

From stdpp Require Import gmap strings list.
From Stdlib Require Import ZArith Lia.
From S2P Require Import Prelude Events Network Monitor MonitorFacts MonitorReorg Commands RpcSource.

(** ** Transfers of a block *)

(** The transfer the transaction at [i] makes to a watched address, if any. *)
Definition paying (watched : gset Z) (p : nat * Tx) : option NativeTransfer :=
  to ← tx_to p.2;
  if decide (to ∈ watched /\ tx_value p.2 <> 0) then
    Some (mkNativeTransfer (tx_hash p.2) (tx_from p.2) to (tx_value p.2) (Z.of_nat p.1))
  else None.

Lemma extract_loop_paying watched i acc txs :
  extract_loop watched i acc txs = acc ++ omap (paying watched) (zip (seq i (length txs)) txs).
Proof.
  revert i acc. induction txs as [|tx txs IH]; intros i acc; cbn; [by rewrite app_nil_r|].
  unfold paying at 1. cbn. destruct (tx_to tx) as [to|]; cbn; [|apply IH].
  case_bool_decide as Hw; cbn; [|rewrite decide_False by naive_solver; apply IH].
  destruct (Z.eqb_spec (tx_value tx) 0); [rewrite decide_False by naive_solver; apply IH|].
  rewrite decide_True by done. cbn. rewrite IH, <- app_assoc. done.
Qed.

Lemma extract_ok block watched ts :
  extract_native_transfers block watched = Ok ts ->
  (exists txs, blk_transactions block = FullTransactions txs /\
     ts = omap (paying watched) (zip (seq 0 (length txs)) txs)) \/
  (blk_transactions block = UncleBlock /\ ts = []).
Proof.
  unfold extract_native_transfers. destruct (blk_transactions block) as [txs|hs|]; cbn; intros [= <-].
  - left. exists txs. split; [done|]. by rewrite extract_loop_paying.
  - by right.
Qed.

Lemma paying_elem watched txs tr i tx to :
  txs !! i = Some tx -> tx_to tx = Some to -> tx_value tx <> 0 -> to ∈ watched ->
  tr = mkNativeTransfer (tx_hash tx) (tx_from tx) to (tx_value tx) (Z.of_nat i) ->
  tr ∈ omap (paying watched) (zip (seq 0 (length txs)) txs).
Proof.
  intros Hi Hto Hv Hw ->. apply list_elem_of_omap. exists (i, tx). split.
  - apply list_elem_of_lookup. exists i. apply lookup_zip_with_Some. exists i, tx.
    split; [done|]. split; [|done]. apply lookup_seq. apply lookup_lt_Some in Hi. lia.
  - unfold paying. cbn. rewrite Hto. cbn. by rewrite decide_True.
Qed.

(** ** Log requests *)

(** What a [LogFilter] asks for: any of its contracts (all when it names none),
    its topics by position, blocks between its bounds, both included. *)
Definition selected (f : LogFilter) (l : Log) : Prop :=
  (lf_addresses f = [] \/ log_address l ∈ lf_addresses f) /\
  (forall i t, lf_topics f !! i = Some (Some t) -> log_topics l !! i = Some t) /\
  (forall a, lf_from_block f = Some a -> exists n, log_block_number l = Some n /\ a <= n) /\
  (forall b, lf_to_block f = Some b -> exists n, log_block_number l = Some n /\ n <= b).

Section Logs.
Context `{RpcNodeLaws}.

Lemma add_topics_view topics f :
  (length topics <= 4)%nat ->
  filter_view f = mkFilterView (fv_addresses (filter_view f)) None None None None None None ->
  filter_view (add_topics 0 topics f) =
  mkFilterView (fv_addresses (filter_view f)) (mjoin (topics !! 0%nat)) (mjoin (topics !! 1%nat))
    (mjoin (topics !! 2%nat)) (mjoin (topics !! 3%nat)) None None.
Proof.
  intros Hl Hf. destruct topics as [|t0 [|t1 [|t2 [|t3 [|]]]]]; cbn in Hl; [..|lia];
    repeat match goal with t : option B256 |- _ => destruct t end; cbn;
    rewrite ?view_event_signature, ?view_topic1, ?view_topic2, ?view_topic3, ?view_event_signature,
      ?view_topic1, ?view_topic2, ?view_event_signature, ?view_topic1, ?view_event_signature, Hf; done.
Qed.

Lemma alloy_filter_view f :
  (length (lf_topics f) <= 4)%nat ->
  filter_view (alloy_filter f) =
  mkFilterView (lf_addresses f) (mjoin (lf_topics f !! 0%nat)) (mjoin (lf_topics f !! 1%nat))
    (mjoin (lf_topics f !! 2%nat)) (mjoin (lf_topics f !! 3%nat)) (lf_from_block f) (lf_to_block f).
Proof.
  intros Hl. unfold alloy_filter.
  set (f0 := if decide (lf_addresses f = []) then filter_new else filter_address (lf_addresses f) filter_new).
  assert (Ha : filter_view f0 = mkFilterView (lf_addresses f) None None None None None None).
  { unfold f0. case_decide as Hd; [by rewrite Hd, view_new | by rewrite view_address, view_new]. }
  pose proof (add_topics_view (lf_topics f) f0 Hl) as Ht. rewrite Ha in Ht. specialize (Ht eq_refl).
  cbn [fv_addresses] in Ht.
  destruct (lf_from_block f), (lf_to_block f);
    rewrite ?view_to_block, ?view_from_block, Ht; done.
Qed.

Lemma topic_matches_iff (topics : list (option B256)) i have :
  topic_matches (mjoin (topics !! i)) have <-> forall t, topics !! i = Some (Some t) -> have = Some t.
Proof. destruct (topics !! i) as [[t|]|]; cbn; naive_solver. Qed.

Lemma view_selected f l :
  (length (lf_topics f) <= 4)%nat ->
  view_matches (filter_view (alloy_filter f)) l <-> selected f l.
Proof.
  intros Hl. rewrite alloy_filter_view by done. unfold view_matches, selected. cbn.
  rewrite !topic_matches_iff. unfold block_matches, Z.ge.
  assert (Hi : forall i t, lf_topics f !! i = Some (Some t) -> i ∈ [0; 1; 2; 3]%nat).
  { intros i t Hi. apply lookup_lt_Some in Hi. rewrite !elem_of_cons. lia. }
  split.
  - intros (Ha & Ht0 & Ht1 & Ht2 & Ht3 & Hf & Ht). split; [done|]. split.
    + intros i t Hit. specialize (Hi i t Hit). rewrite !elem_of_cons, elem_of_nil in Hi.
      destruct Hi as [->|[->|[->|[->|[]]]]]; eauto.
    + split; [intros a Ha'; by rewrite Ha' in Hf | intros b Hb; rewrite Hb in Ht].
      destruct Ht as (n & Hn & Hle). exists n. split; [done|]. by apply Z.ge_le.
  - intros (Ha & Ht & Hf & Hto). do 5 (split; [naive_solver|]). split.
    + destruct (lf_from_block f); naive_solver.
    + destruct (lf_to_block f) as [b|]; [|done]. destruct (Hto b eq_refl) as (n & Hn & Hle).
      exists n. split; [done|]. by apply Z.le_ge.
Qed.

Lemma rpc_logs_exact cfg t f ls :
  (length (lf_topics f) <= 4)%nat -> rpc_get_logs cfg t f = Ok ls ->
  forall l, l ∈ ls <-> l ∈ node_logs t (rsc_http_url cfg) /\ selected f l.
Proof.
  intros Hl Hr l. unfold rpc_get_logs, node_err in Hr.
  destruct (node_get_logs _ _ _) as [ls'|] eqn:Hn; [|discriminate]. injection Hr as ->.
  rewrite (node_logs_exact _ _ _ _ Hn), view_selected by done. done.
Qed.
End Logs.

(** ** Payments on the node's chain are announced *)

Section EndToEnd.
Context `{RpcNodeLaws}.
Context (now : nat -> Instant) (u256_from_be_slice : list Z -> U256).
Context (chain_id : Z) (config : ChainMonitorConfig) (subs : nat -> bool) (src : RpcBlockSource).

Abbreviation process :=
  (@process_block (rpc_block_source subs src) now u256_from_be_slice chain_id config).

(** The payment event of the transaction [tx] to [to], found in block [n]. *)
Definition announces_tx (p : PaymentDetected) (n : Z) (tx : Tx) (to : Address) (w : WatchedAddress) : Prop :=
  pd_is_native p = true /\ pd_block_number p = n /\ pd_tx_hash p = tx_hash tx /\
  pd_amount p = tx_value tx /\ pd_payment_address p = to /\ pd_from_address p = tx_from tx /\
  pd_invoice_id p = wa_invoice_id w.

Lemma native_address_elem (w : gmap (Z * option Z) WatchedAddress) a x :
  w !! (a, None) = Some x -> a ∈ native_addresses w.
Proof.
  intros Hx. unfold native_addresses. apply list_elem_of_fmap. exists (a, wa_invoice_id x).
  split; [done|]. apply elem_of_map_to_list. by rewrite native_invoice_map_lookup, Hx.
Qed.

Lemma find_transfers_ok cfg t n addrs ts :
  addrs <> [] -> rpc_find_native_transfers_to cfg t n addrs = Ok ts ->
  exists block, node_get_block_by_number t (rsc_http_url cfg) (Number n) KindFull = Ok (Some block) /\
    extract_native_transfers block (list_to_set addrs) = Ok ts.
Proof.
  intros Ha. unfold rpc_find_native_transfers_to. rewrite decide_False by done.
  destruct (node_get_block_by_number _ _ _ _) as [[block|]|]; cbn; [|discriminate..].
  intros He. by exists block.
Qed.

(** C6. A payment in native currency that the node shows in a block is announced
    before the cursor passes the block.  For every block between the old and
    the new cursor the node was asked for the block with its transactions and
    answered with a block.  Either the answer had them all, and each that pays a
    watched address is in a [PaymentDetected] event of this call; or it had no
    field of transactions, the form of an uncle, which the source takes for a
    block without payments.  An answer with hashes only is never passed. *)
Theorem native_payment_announced lo b s r s' a x :
  block_in_range lo -> block_in_range (bn_number b) ->
  mon_last_block s = Some lo -> monitor_native config = true ->
  mon_watched s !! (a, None) = Some x ->
  process b s = (r, s') ->
  exists hi es, mon_last_block s' = Some hi /\ mon_events s' = mon_events s ++ es /\
    forall n, lo < n <= hi ->
      exists t block, (mon_tick s <= t < mon_tick s')%nat /\
        node_get_block_by_number t (rsc_http_url (rbs_config src)) (Number n) KindFull = Ok (Some block) /\
        (blk_transactions block = UncleBlock \/
         exists txs, blk_transactions block = FullTransactions txs /\
           forall i tx to w, txs !! i = Some tx ->
             tx_to tx = Some to -> tx_value tx <> 0 -> mon_watched s !! (to, None) = Some w ->
             exists p, p ∈ detected_in es /\ announces_tx p n tx to w).
Proof.
  intros Hlo Hb Hcur Hm Hx Hr.
  assert (Hw : mon_watched s <> ∅) by (intros He; rewrite He, lookup_empty in Hx; done).
  destruct (process_covers _ _ _ _ _ _ _ _ _ Hlo Hb Hcur Hw Hr) as (hi & es & Hh & He & Hc).
  exists hi, es. split; [done|]. split; [done|]. intros n Hn.
  destruct (Hc n Hn) as [Hnat _]. destruct (Hnat Hm a x Hx) as (t & ts & Ht & Hf & Hp).
  apply find_transfers_ok in Hf as (block & Hblk & Hex);
    [|intros Hnil; apply native_address_elem in Hx; rewrite Hnil in Hx; by apply elem_of_nil in Hx].
  exists t, block. split; [done|]. split; [done|].
  apply extract_ok in Hex as [(txs & Htx & ->)|[Hu ->]]; [right|by left].
  exists txs. split; [done|]. intros i tx to w Hi Hto Hv Hwt.
  destruct (Hp (mkNativeTransfer (tx_hash tx) (tx_from tx) to (tx_value tx) (Z.of_nat i)) w)
    as (p & Hin & Hann); [|done|].
  - eapply paying_elem; [done..| |done]. apply elem_of_list_to_set. by eapply native_address_elem.
  - exists p. by split.
Qed.

(** C7. A token payment that the node shows is announced before the cursor passes
    its block: every block between the old and the new cursor was covered by
    an answered log request, and each [Transfer] log the node then held for
    that block which pays a watched address in the watched token is in a
    [PaymentDetected] event of this call. *)
Theorem token_payment_announced lo b s r s' a tok x :
  block_in_range lo -> block_in_range (bn_number b) ->
  mon_last_block s = Some lo -> monitor_erc20 config = true ->
  mon_watched s !! (a, Some tok) = Some x ->
  process b s = (r, s') ->
  exists hi es, mon_last_block s' = Some hi /\ mon_events s' = mon_events s ++ es /\
    forall n, lo < n <= hi ->
      exists t, (mon_tick s <= t < mon_tick s')%nat /\
        forall l to w, l ∈ node_logs t (rsc_http_url (rbs_config src)) ->
          log_block_number l = Some n -> log_topics l !! 0%nat = Some TRANSFER_TOPIC ->
          log_recipient l = Some to -> mon_watched s !! (to, Some (log_address l)) = Some w ->
          exists p, p ∈ detected_in es /\ announces_log p l w.
Proof.
  intros Hlo Hb Hcur Hm Hx Hr.
  assert (Hw : mon_watched s <> ∅) by (intros He; rewrite He, lookup_empty in Hx; done).
  destruct (process_covers _ _ _ _ _ _ _ _ _ Hlo Hb Hcur Hw Hr) as (hi & es & Hh & He & Hc).
  exists hi, es. split; [done|]. split; [done|]. intros n Hn.
  destruct (Hc n Hn) as [_ Htok]. destruct (Htok Hm a tok x Hx) as (t & lo' & hi' & ls & Ht & Hr' & Hq & Hp).
  exists t. split; [done|]. intros l to w Hl Hln Htop Hrec Hwt. apply (Hp l to w); [|done..].
  eapply rpc_logs_exact; [|exact Hq|]; [cbn; lia|]. split; [done|].
  split; [by left|]. cbn. split; [|split; intros ? [= <-]; exists n; (split; [done|lia])].
  intros [|[|i]] t' Hi; cbn in Hi; by simplify_eq.
Qed.
End EndToEnd.
