(* ===== verification/RpcStreams.v ===== *)
(** * Subscribing, polling and what errors reveal

    How [subscribe_blocks] ends on each branch, which chain a source can serve,
    what the polling stream yields, the status a source reports, and what is
    left of an endpoint in an error. *)

From stdpp Require Import gmap strings list.
From Stdlib Require Import ZArith Lia Ascii.
From S2P Require Import Prelude Events Network Monitor MonitorFacts Commands RpcSource.

(** ** Replacing text *)

(** [pat] occurs in [s]. *)
Definition occurs (pat s : string) : Prop := exists a b, s = a +:+ pat +:+ b.

Lemma append_nil_l (a : string) : "" +:+ a = a.
Proof. done. Qed.

Lemma prefix_split pat s : String.prefix pat s = true -> exists r, s = pat +:+ r.
Proof.
  revert s. induction pat as [|c pat IH]; intros s Hp; [by exists s|].
  destruct s as [|c' s]; cbn in Hp; [done|]. destruct (Ascii.ascii_dec c c') as [->|]; [|done].
  destruct (IH s Hp) as [r ->]. by exists r.
Qed.

Lemma prefix_append pat r : String.prefix pat (pat +:+ r) = true.
Proof.
  induction pat as [|c pat IH]; [by destruct r|].
  rewrite append_cons. cbn [String.prefix].
  destruct (Ascii.ascii_dec c c) as [_|]; [apply IH | done].
Qed.

Lemma replace_skip pat rep s r :
  str_replace (String.length s) pat rep (s +:+ r) = str_replace 0 pat rep r.
Proof. induction s as [|c s IH]; [done|]. rewrite append_cons. apply IH. Qed.

Lemma replace_match pat rep c s r :
  pat <> EmptyString -> String c s = pat +:+ r ->
  str_replace (String.length pat - 1) pat rep s = str_replace 0 pat rep r /\
  (String.length r <= String.length s)%nat.
Proof.
  intros Hp Hs. destruct pat as [|c' q]; [done|]. rewrite append_cons in Hs. injection Hs as -> ->.
  replace (String.length (String c' q) - 1)%nat with (String.length q) by (cbn; lia).
  rewrite replace_skip, length_string_app. split; [done | lia].
Qed.

Lemma concat_cons_cons (sep p q : string) ps :
  String.concat sep (p :: q :: ps) = p +:+ sep +:+ String.concat sep (q :: ps).
Proof. done. Qed.

Lemma concat_head sep c p ps :
  String.concat sep (String c p :: ps) = String c (String.concat sep (p :: ps)).
Proof. by destruct ps. Qed.

Lemma concat_starts sep p ps : exists r, String.concat sep (p :: ps) = p +:+ r.
Proof.
  destruct ps as [|q ps]; [exists EmptyString|eexists; reflexivity].
  cbn. induction p as [|c p IH]; [done|]. rewrite append_cons. congruence.
Qed.

Section Replace.
Context (pat rep : string) (Hpat : pat <> EmptyString).

Lemma occurs_nil : ~ occurs pat "".
Proof using Hpat. intros (a & b & Hab). by destruct a, pat. Qed.

(** The first character of a piece is kept when the pattern does not match there. *)
Lemma occurs_cons c p ps s :
  s = String.concat pat (p :: ps) ->
  String.prefix pat (String c s) = false -> ~ occurs pat p -> ~ occurs pat (String c p).
Proof using Type.
  intros -> Hp Ho (a & b & Hab). destruct a as [|c' a]; rewrite ?append_nil_l, ?append_cons in Hab.
  - destruct (concat_starts pat p ps) as [r Hr]. rewrite Hr in Hp.
    rewrite <- append_cons in Hp. rewrite Hab in Hp.
    rewrite string_app_assoc, prefix_append in Hp. done.
  - injection Hab as -> ->. apply Ho. by exists a, b.
Qed.

Lemma replace_scan n s :
  (String.length s <= n)%nat ->
  exists p ps, s = String.concat pat (p :: ps) /\
    str_replace 0 pat rep s = String.concat rep (p :: ps) /\
    Forall (fun p => ~ occurs pat p) (p :: ps).
Proof using Hpat.
  revert s. induction n as [|n IH]; intros [|c s] Hn; cbn in Hn; try lia;
    try (by exists EmptyString, []; repeat constructor; apply occurs_nil).
  cbn [str_replace]. destruct (String.prefix pat (String c s)) eqn:Hp.
  - apply prefix_split in Hp as [r Hr].
    destruct (replace_match pat rep c s r Hpat Hr) as [Hrest Hlen]. rewrite Hrest, Hr.
    destruct (IH r) as (p & ps & Hrr & Hrep & Hf); [lia|].
    exists EmptyString, (p :: ps). rewrite !concat_cons_cons, !append_nil_l.
    rewrite Hrep, <- Hrr. repeat split; [done..|]. constructor; [apply occurs_nil | done].
  - destruct (IH s) as (p & ps & Hs & Hrep & Hf); [lia|]. exists (String c p), ps.
    rewrite !concat_head, Hrep, <- Hs. repeat split. inversion_clear Hf as [|? ? Hop Hops].
    constructor; [|done]. eapply (occurs_cons c p ps s); [done..].
Qed.

(** Replacing cuts the text at the occurrences of the pattern, leaving none in
    between, and joins the pieces with the replacement. *)
Lemma replace_pieces s :
  exists ps, s = String.concat pat ps /\ text_replace pat rep s = String.concat rep ps /\
    Forall (fun p => ~ occurs pat p) ps.
Proof using Hpat.
  destruct (replace_scan (String.length s) s) as (p & ps & Hs & Hr & Hf); [done|].
  exists (p :: ps). split; [done|]. split; [|done]. unfold text_replace. by destruct pat.
Qed.
End Replace.

Section Streams.
Context `{RpcNode}.

(** [scrub] leaves no occurrence of an endpoint standing as it was rendered:
    the text is cut at the HTTP URL, rejoined with that URL's origin, and the
    result treated the same way for the WebSocket URL. *)
Lemma scrub_redacts cfg e :
  rsc_http_url cfg <> EmptyString -> rsc_ws_url cfg <> Some EmptyString ->
  exists ps, e = String.concat (rsc_http_url cfg) ps /\
    Forall (fun p => ~ occurs (rsc_http_url cfg) p) ps /\
    let rendered := String.concat (redact_url (rsc_http_url cfg)) ps in
    match rsc_ws_url cfg with
    | None => scrub cfg e = rendered
    | Some ws => exists qs, rendered = String.concat ws qs /\ Forall (fun q => ~ occurs ws q) qs /\
                   scrub cfg e = String.concat (redact_url ws) qs
    end.
Proof.
  intros Hh Hw. destruct (replace_pieces (rsc_http_url cfg) (redact_url (rsc_http_url cfg)) Hh e)
    as (ps & He & Hr & Hps).
  exists ps. split; [done|]. split; [done|]. unfold scrub, redact_err. rewrite Hr. cbn.
  destruct (rsc_ws_url cfg) as [ws|]; [|done].
  assert (Hne : ws <> EmptyString) by congruence.
  destruct (replace_pieces ws (redact_url ws) Hne (String.concat (redact_url (rsc_http_url cfg)) ps))
    as (qs & Hq & Hr' & Hqs). by exists qs.
Qed.

(** The errors of the polling loop are not scrubbed: what the client rendered
    is yielded, the endpoint with its key included. *)
Lemma polling_error_unscrubbed last e url :
  occurs url e ->
  exists msg, polling_loop last [Err e] = [Err (Rpc msg)] /\ occurs url msg.
Proof.
  intros (a & b & ->). eexists. split; [reflexivity|]. exists ("polling error: " +:+ a), b.
  by rewrite string_app_assoc.
Qed.

(** ** Which chain a source serves *)

(** The WebSocket endpoint can be used: it connects, is on the configured chain
    and accepts the subscription. *)
Definition ws_up (t : nat) (cfg : RpcSourceConfig) (ws : string) : bool :=
  is_ok (node_connect_with_config t ws (ws_connection_config cfg)) &&
  bool_decide (result_ok (node_get_chain_id t ws) = Some (rsc_chain_id cfg)) &&
  is_ok (node_subscribe_blocks t ws).

Lemma create_ws_stream_up t s ws :
  rsc_ws_url (rbs_config s) = Some ws -> ws_up t (rbs_config s) ws = true ->
  create_ws_stream t s =
  (Ok (WsStream ws (rsc_chain_id (rbs_config s))), set_status STATUS_CONNECTED s).
Proof.
  intros Hws Hup. unfold ws_up in Hup. apply andb_prop in Hup as [Hup Hsub].
  apply andb_prop in Hup as [Hcon Hid]. apply bool_decide_eq_true in Hid.
  unfold create_ws_stream, st_bind, st_gets. rewrite Hws. cbn.
  destruct (node_connect_with_config _ _ _) as [[]|]; [|done]. cbn.
  destruct (node_get_chain_id _ _) as [c|]; [|done]. injection Hid as ->. cbn. rewrite Z.eqb_refl. cbn.
  destruct (node_subscribe_blocks _ _) as [[]|]; done.
Qed.

Lemma create_ws_stream_down t s ws :
  rsc_ws_url (rbs_config s) = Some ws -> ws_up t (rbs_config s) ws = false ->
  exists e code, create_ws_stream t s = (Err e, set_status code s).
Proof.
  intros Hws Hup. unfold create_ws_stream, st_bind, st_gets. rewrite Hws. cbn.
  unfold ws_up in Hup. destruct (node_connect_with_config _ _ _) as [[]|]; [|by do 2 eexists].
  cbn in *. destruct (node_get_chain_id _ _) as [c|]; [|by do 2 eexists]. cbn in *.
  destruct (Z.eqb_spec c (rsc_chain_id (rbs_config s))) as [->|]; [|by do 2 eexists].
  rewrite bool_decide_eq_true_2 in Hup by done. cbn in Hup |- *.
  destruct (node_subscribe_blocks _ _) as [[]|]; [done|]. by do 2 eexists.
Qed.

(** Subscribing, branch by branch: the WebSocket stream of the configured
    chain exactly when its endpoint is usable and on that chain, else polling of
    the HTTP endpoint where the configuration allows it, else an error; and
    nothing but the status code of the source changes. *)
Theorem subscribe_outcome t s r s' :
  subscribe_blocks t s = (r, s') ->
  rbs_config s' = rbs_config s /\ rbs_error_message s' = rbs_error_message s /\
  let cfg := rbs_config s in
  match rsc_ws_url cfg with
  | None => r = Ok (create_polling_stream cfg) /\ s' = s
  | Some ws =>
      if ws_up t cfg ws then r = Ok (WsStream ws (rsc_chain_id cfg)) /\ status s' = Connected
      else if rsc_fallback_to_polling cfg then r = Ok (create_polling_stream cfg)
      else exists e, r = Err e
  end.
Proof.
  unfold subscribe_blocks, st_bind, st_gets. cbn.
  destruct (rsc_ws_url (rbs_config s)) as [ws|] eqn:Hws; cbn.
  - unfold st_try. destruct (ws_up t (rbs_config s) ws) eqn:Hup.
    + rewrite (create_ws_stream_up t s ws Hws Hup). cbn. by intros [= <- <-].
    + destruct (create_ws_stream_down t s ws Hws Hup) as (e & code & Hc). rewrite Hc. cbn.
      destruct (rsc_fallback_to_polling (rbs_config s)); cbn; intros [= <- <-]; repeat split. by exists e.
  - rewrite orb_true_r. cbn. by intros [= <- <-].
Qed.

(** A created source talks to a node that named the configured chain. *)
Lemma rpc_new_chain t cfg s :
  rpc_new t cfg = Ok s ->
  node_get_chain_id t (rsc_http_url cfg) = Ok (rsc_chain_id cfg) /\
  s = mkRpcBlockSource cfg STATUS_DISCONNECTED None.
Proof.
  unfold rpc_new. intros Hn. repeat case_match; try discriminate; simplify_eq;
    match goal with Hc : negb (?c =? _) = false |- _ =>
      apply negb_false_iff, Z.eqb_eq in Hc; subst c end; done.
Qed.

Lemma source_at_config subs s t :
  rbs_config (source_at subs s t) = rbs_config s /\
  rbs_error_message (source_at subs s t) = rbs_error_message s.
Proof.
  induction t as [|t [IHc IHe]]; cbn [source_at]; [done|]. destruct (subs t); [|done].
  destruct (subscribe_blocks t (source_at subs s t)) as [r s'] eqn:Hs. cbn [snd].
  apply subscribe_outcome in Hs as (Hc & He & _). by rewrite Hc, He.
Qed.

(** ** The status of a source that polls *)

(** A source without a WebSocket URL never changes. *)
Lemma polling_source_constant subs s t :
  rsc_ws_url (rbs_config s) = None -> source_at subs s t = s.
Proof.
  intros Hws. induction t as [|t IH]; [done|]. cbn [source_at]. rewrite IH.
  destruct (subs t); [|done]. destruct (subscribe_blocks t s) as [r s'] eqn:Hs.
  apply subscribe_outcome in Hs as (_ & _ & Hs). cbn zeta in Hs. rewrite Hws in Hs. by destruct Hs as [_ ->].
Qed.

(** A source created without a WebSocket URL polls and works, but says
    [Disconnected] for ever: health never reports its chain as healthy, and
    every confirmation tick subscribes again. *)
Theorem polling_source_never_healthy n cfg s subs now chain_id chain_name config m :
  rpc_new n cfg = Ok s -> rsc_ws_url cfg = None ->
  (forall t, fst (subscribe_blocks t (source_at subs s t)) = Ok (create_polling_stream cfg)) /\
  (exists h m', @get_health (rpc_block_source subs s) chain_id chain_name m = (Ok h, m') /\
     ch_status h = Disconnected /\ ch_is_healthy h = false) /\
  mon_tick (snd (@resubscribe_if_stalled (rpc_block_source subs s) now chain_id chain_name config m)) =
  (2 + mon_tick m)%nat.
Proof.
  intros Hn Hws. apply rpc_new_chain in Hn as [_ Hs].
  assert (Hc : rsc_ws_url (rbs_config s) = None) by by rewrite Hs.
  assert (Hsub : forall t, subscribe_blocks t s = (Ok (create_polling_stream cfg), s)).
  { intros t. destruct (subscribe_blocks t s) as [r s'] eqn:Hr. apply subscribe_outcome in Hr as (_ & _ & Hr).
    cbn zeta in Hr. rewrite Hc in Hr. destruct Hr as [-> ->]. by rewrite Hs. }
  split; [intros t; by rewrite polling_source_constant, Hsub|].
  assert (Hst : status s = Disconnected) by by rewrite Hs.
  assert (Hss : forall t, @source_status (rpc_block_source subs s) t = Disconnected).
  { intros t. cbn [source_status rpc_block_source]. by rewrite polling_source_constant. }
  assert (Hsb : forall t, @source_subscribe_blocks (rpc_block_source subs s) t = Ok tt).
  { intros t. cbn [source_subscribe_blocks rpc_block_source]. by rewrite polling_source_constant, Hsub. }
  revert Hss Hsb. generalize (rpc_block_source subs s). intros src Hss Hsb.
  unfold resubscribe_if_stalled, get_health, st_bind, st_gets, st_try, query, st_ret, st_modify. cbn.
  rewrite Hss. cbn. split; [by do 2 eexists |].
  rewrite bool_decide_eq_false_2 by done. cbn. by rewrite Hsb.
Qed.

(** ** What polling yields *)

(** The block an answer carries. *)
Definition answered (a : result string (option Block)) : option Block :=
  match a with Ok (Some b) => Some b | _ => None end.

(** The item an answer gives rise to after the answers [before]: an error as an
    error, a block if it is above every block seen before. *)
Definition polled (before : list (result string (option Block))) (a : result string (option Block))
  : list (EvmResult BlockNotification) :=
  match a with
  | Err e => [Err (Rpc ("polling error: " +:+ e))]
  | Ok None => []
  | Ok (Some b) =>
      if forallb (fun b' => hdr_number (blk_header b') <? hdr_number (blk_header b)) (omap answered before)
      then [Ok (notification_of_block b)] else []
  end.

(** [last] is the highest block of [before]. *)
Definition highest (last : option Z) (before : list (result string (option Block))) : Prop :=
  forall n, forallb (fun b => hdr_number (blk_header b) <? n) (omap answered before) =
            match last with None => true | Some m => m <? n end.

Lemma highest_snoc last before b :
  highest last before ->
  highest (if match last with None => true | Some m => m <? hdr_number (blk_header b) end
           then Some (hdr_number (blk_header b)) else last) (before ++ [Ok (Some b)]).
Proof.
  intros Hh n. rewrite omap_app, forallb_app, Hh. cbn. rewrite andb_true_r.
  destruct last as [m|]; cbn; [|done].
  destruct (Z.ltb_spec m (hdr_number (blk_header b))); repeat case_match; cbn; lia.
Qed.

Lemma polling_loop_polled last before answers :
  highest last before ->
  polling_loop last answers =
  mjoin (imap (fun i a => polled (before ++ take i answers) a) answers).
Proof.
  revert last before. induction answers as [|a answers IH]; intros last before Hh; [done|].
  assert (Hnext : forall last', highest last' (before ++ [a]) ->
    polling_loop last' answers =
    mjoin (imap ((fun i a' => polled (before ++ take i (a :: answers)) a') ∘ S) answers)).
  { intros last' Hl. rewrite (IH last' (before ++ [a]) Hl). f_equal. apply imap_ext.
    intros i x _. cbn. by rewrite <- app_assoc. }
  cbn [imap mjoin list_join take]. rewrite app_nil_r.
  destruct a as [[b|]|e]; cbn [polling_loop polled].
  - pose proof (highest_snoc last before b Hh) as Hs. rewrite Hh.
    revert Hs. destruct (match last with None => _ | Some m => _ end); intros Hs;
      rewrite (Hnext _ Hs); reflexivity.
  - cbn. apply Hnext. intros n. rewrite omap_app, forallb_app, Hh. cbn. by rewrite andb_true_r.
  - cbn. f_equal. apply Hnext. intros n. rewrite omap_app, forallb_app, Hh. cbn. by rewrite andb_true_r.
Qed.

(** Polling reports exactly the new heads.  Item by item, what the stream
    yields for an answer is determined by the answers before it: an error is an
    error, a block is a notification exactly if its number is above that of
    every block the node answered before on this stream; a stream that cannot
    connect yields one error and ends. *)
Theorem polling_stream_exact url t polls :
  let ask t' := node_get_block_by_number t' url Latest KindHashes in
  polling_items url t polls =
  match node_connect t url with
  | Err e => [Err (Connection ("polling connection failed: " +:+ redact_err e url))]
  | Ok _ => mjoin (imap (fun i t' => polled (ask <$> take i polls) (ask t')) polls)
  end.
Proof.
  intros ask. unfold polling_items. destruct (node_connect t url); [|done].
  rewrite (polling_loop_polled None []) by done. f_equal. rewrite imap_fmap. apply imap_ext.
  intros i t' _. cbn. by rewrite firstn_map.
Qed.
End Streams.
