(* ===== verification/Office.v ===== *)
(** * Request handlers over tables

    What the store, settings, account and deletion routes share: statements on
    a record of tables [D], the requests that carry them (any of which can be
    lost before or after it takes effect), the clock, fresh ids and outgoing
    mail; and [runs], the rule by which their effects are computed. *)

From stdpp Require Import gmap strings list relations.
From Stdlib Require Import ZArith Lia Ascii.
From S2P Require Import Prelude Events Database Services.

#[local] Open Scope Z_scope.

(** ** Statements *)

(** [AuthError] and [RepositoryError], as far as handlers tell them apart *)
Inductive DbError :=
| Lost
| ConstraintViolation
| UserExists
| UserNotInStore
| StoreNotFound
| StoreRoleNotFound
| UserNotFound
| ImmutableField
| MissingOwnerRole
| WalletAlreadyRegistered
| WalletNotFound
| SessionInvalid
| DeviceNotFound
| PasskeyNotFound
| TokenNotFound
| Malformed.

Section Office.
Context {D : Type}.

Definition TStatement (A : Type) : Type := Instant -> D -> result DbError A * D.

Definition tselect {A} (f : D -> A) : TStatement A := fun _ d => (Ok (f d), d).

(** An unconditional write. *)
Definition twrite (f : D -> D) : TStatement unit := fun _ d => (Ok tt, f d).
End Office.
Arguments TStatement : clear implicits.

(** A foreign key or a primary key that is there. *)
Definition present {A} (k : Z) (t : gmap Z A) : bool := bool_decide (is_Some (t !! k)).

(** A message handed to the mail transport. *)
Record Mail := mkMail { ml_to : string; ml_subject : string; ml_body : string }.

(** The tables, the clock, the ids drawn, and the mail handed over so far. *)
Record Office (D : Type) := mkOffice {
  of_db : D;
  of_ticks : nat;
  of_draws : nat;
  of_mail : list Mail
}.

Arguments mkOffice {_}.
Arguments of_db {_}.
Arguments of_ticks {_}.
Arguments of_draws {_}.
Arguments of_mail {_}.

Definition of_tick {D} (o : Office D) : Office D := mkOffice (of_db o) (S (of_ticks o)) (of_draws o) (of_mail o).

(** The mail transport: whether one is configured, and whether it takes the
    n-th message. *)
Class MailHost := {
  mail_configured : bool;
  mail_accepts : nat -> bool
}.

Section Requests.
Context `{Runtime} `{MailHost} {D : Type}.

(** One statement, or one transaction. *)
Definition tdb {A} (stmt : TStatement D A) : St (Office D) DbError A :=
  fun o =>
    let now := clock (of_ticks o) in
    let o' d := mkOffice d (S (of_ticks o)) (of_draws o) (of_mail o) in
    match calls (of_ticks o) with
    | Answered => let '(r, d) := stmt now (of_db o) in (r, o' d)
    | NotSent => (Err Lost, o' (of_db o))
    | ReplyLost => (Err Lost, o' (snd (stmt now (of_db o))))
    end.

Definition of_now {E} : St (Office D) E Instant := fun o => (Ok (clock (of_ticks o)), of_tick o).
Definition of_fresh {E} : St (Office D) E Uuid :=
  fun o => (Ok (new_v4 (of_draws o)), mkOffice (of_db o) (of_ticks o) (S (of_draws o)) (of_mail o)).

(** Handing a message to the transport; [false] is a failure to deliver. *)
Definition send_mail {E} (m : Mail) : St (Office D) E bool :=
  fun o => (Ok (mail_accepts (of_ticks o)), mkOffice (of_db o) (S (of_ticks o)) (of_draws o) (of_mail o ++ [m])).

(** [.map_err(|_| StatusCode::INTERNAL_SERVER_ERROR)] *)
Definition fails_500 {A} (m : St (Office D) DbError A) : St (Office D) Z A := st_map_err (fun _ => 500) m.

(** [.ok_or(status)] *)
Definition ok_or {S A} (status : Z) (o : option A) : St S Z A :=
  match o with Some a => st_ret a | None => st_throw status end.

End Requests.

(** ** Reasoning about a handler

    [runs m d Q]: from any office whose tables are [d], whatever requests are
    lost, [m] ends with an outcome and tables that satisfy [Q]. *)

Section Runs.
Context `{Runtime} `{MailHost} {D : Type}.

Definition runs {E A} (m : St (Office D) E A) (d : D) (Q : result E A -> D -> Prop) : Prop :=
  forall o, of_db o = d -> Q (fst (m o)) (of_db (snd (m o))).

Lemma runs_ret {E A} (a : A) d (Q : result E A -> _) : Q (Ok a) d -> runs (st_ret a) d Q.
Proof. by intros HQ o <-. Qed.

Lemma runs_throw {E A} (e : E) d (Q : result E A -> _) : Q (Err e) d -> runs (st_throw e) d Q.
Proof. by intros HQ o <-. Qed.

Lemma runs_lift {E A} (r : result E A) d (Q : result E A -> _) : Q r d -> runs (st_lift r) d Q.
Proof. by intros HQ o <-. Qed.

Lemma runs_bind {E A B} (m : St (Office D) E A) (f : A -> St (Office D) E B) d (Q : result E B -> _) :
  runs m d (fun r d' => match r with Ok a => runs (f a) d' Q | Err e => Q (Err e) d' end) ->
  runs (st_bind m f) d Q.
Proof.
  intros Hm o Ho. specialize (Hm o Ho). unfold st_bind.
  destruct (m o) as [[a|e] o'] eqn:Hr; cbn in Hm |- *; [by apply Hm | done].
Qed.

Lemma runs_map_err {E E' A} (g : E -> E') (m : St (Office D) E A) d (Q : result E' A -> _) :
  runs m d (fun r d' => Q (match r with Ok a => Ok a | Err e => Err (g e) end) d') -> runs (st_map_err g m) d Q.
Proof. intros Hm o Ho. specialize (Hm o Ho). unfold st_map_err. by destruct (m o) as [[a|e] o']. Qed.

Lemma runs_try {E E' A} (m : St (Office D) E A) d (Q : result E' (result E A) -> _) :
  runs m d (fun r d' => Q (Ok r) d') -> runs (st_try m) d Q.
Proof. intros Hm o Ho. specialize (Hm o Ho). unfold st_try. by destruct (m o) as [r o']. Qed.

Lemma runs_tdb {A} (stmt : TStatement D A) d (Q : result DbError A -> _) :
  Q (Err Lost) d ->
  (forall now, Q (fst (stmt now d)) (snd (stmt now d)) /\ Q (Err Lost) (snd (stmt now d))) ->
  runs (tdb stmt) d Q.
Proof.
  intros Hl Hs o <-. unfold tdb. destruct (Hs (clock (of_ticks o))) as [Ha Hb].
  destruct (calls _); [|done..]. revert Ha. by destruct (stmt _ (of_db o)) as [r d'].
Qed.

Lemma runs_select {A} (f : D -> A) d (Q : result DbError A -> _) :
  Q (Ok (f d)) d -> Q (Err Lost) d -> runs (tdb (tselect f)) d Q.
Proof. intros Ha Hl. by apply runs_tdb. Qed.

Lemma runs_now {E} d (Q : result E Instant -> _) : (forall t, Q (Ok t) d) -> runs of_now d Q.
Proof. intros HQ o <-. apply HQ. Qed.

Lemma runs_fresh {E} d (Q : result E Uuid -> _) : (forall id, Q (Ok id) d) -> runs of_fresh d Q.
Proof. intros HQ o <-. apply HQ. Qed.

Lemma runs_mail {E} m d (Q : result E bool -> _) : (forall b, Q (Ok b) d) -> runs (send_mail m) d Q.
Proof. intros HQ o <-. apply HQ. Qed.

Lemma runs_ok_or {A} status (x : option A) d (Q : result Z A -> _) :
  (forall a, x = Some a -> Q (Ok a) d) -> (x = None -> Q (Err status) d) -> runs (ok_or status x) d Q.
Proof. intros Ha Hn. destruct x; [by apply runs_ret, Ha | by apply runs_throw, Hn]. Qed.

Lemma runs_fold {A B} (f : B -> A -> St (Office D) Z B) l d (Q : result Z B -> _) :
  (forall b x, runs (f b x) d (fun r d' => d' = d /\ is_ok r = true)) ->
  (forall b, Q (Ok b) d) -> forall b, runs (st_fold f b l) d Q.
Proof.
  intros Hf HQ. induction l as [|x l IH]; intros b; [by apply runs_ret|].
  cbn [st_fold]. apply runs_bind. intros o Ho. destruct (Hf b x o Ho) as [-> Hr].
  destruct (fst (f b x o)); [by apply IH | done].
Qed.

Lemma runs_mono {E A} (m : St (Office D) E A) d (Q Q' : result E A -> D -> Prop) :
  runs m d Q -> (forall r d', Q r d' -> Q' r d') -> runs m d Q'.
Proof. intros Hm HQ o Ho. by apply HQ, Hm. Qed.
(** A handler that writes once: what the statement does is what the handler
    does, since only reading follows it. *)
Lemma runs_write {A} (stmt : TStatement D A) d (P : D -> Prop)
    (Q : result DbError A -> D -> Prop) :
  P d -> (forall now, P (snd (stmt now d))) -> (forall r d', P d' -> Q r d') -> runs (tdb stmt) d Q.
Proof. intros Hd Hs HQ. apply runs_tdb; [by apply HQ|]. intros now. split; by apply HQ. Qed.
End Runs.

(** The steps of a handler up to the first statement that writes. *)
Ltac office_step :=
  match goal with
  | |- runs (st_bind _ _) _ _ => apply runs_bind
  | |- runs (st_ret _) _ _ => apply runs_ret
  | |- runs (st_throw _) _ _ => apply runs_throw
  | |- runs (st_lift _) _ _ => apply runs_lift
  | |- runs (st_map_err _ _) _ _ => apply runs_map_err
  | |- runs (fails_500 _) _ _ => apply runs_map_err
  | |- runs (st_try _) _ _ => apply runs_try
  | |- runs of_now _ _ => apply runs_now; intros ?
  | |- runs of_fresh _ _ => apply runs_fresh; intros ?
  | |- runs (send_mail _) _ _ => apply runs_mail; intros ?
  | |- runs (ok_or _ _) _ _ => apply runs_ok_or; intros
  | |- runs (tdb (tselect _)) _ _ => apply runs_select
  | |- runs (if ?b then _ else _) _ _ => destruct b eqn:?
  end; cbn beta iota.
