(* ===== verification/Teams.v ===== *)
(** * Stores and their members

    [server/src/api/stores/crud.rs], [members.rs] and [invites.rs] with their
    statements in [data-service/src/postgres/auth/store.rs],
    [store_creation.rs] and [store_invites.rs]: who belongs to a store, with
    which role, and how one becomes a member.  Outgoing mail is recorded; the
    transport is a parameter ([MailHost]). *)

From stdpp Require Import gmap strings list.
From Stdlib Require Import ZArith Lia Ascii.
From S2P Require Import Prelude Events Network Decimal LiveWatch Database Services ApiKeys Consumer Idempotency ApiAuth RateLimit Office.

#[local] Open Scope Z_scope.

(** ** Data *)

(** [auth::Store] *)
Record Store := mkStore {
  str_id : Uuid;
  str_name : string;
  str_website : option string;
  str_owner_id : Uuid;
  str_archived : bool;
  str_created_at : Instant
}.

(** [auth::StoreRole]; a default role belongs to no store *)
Record StoreRole := mkStoreRole {
  sr_id : Uuid;
  sr_store_id : option Uuid;
  sr_role : string;
  sr_permissions : list string
}.

(** A row of [store_invites], keyed by its token *)
Record InviteRow := mkInviteRow {
  iv_store_id : Uuid;
  iv_email : string;
  iv_role_id : Uuid;
  iv_invited_by : Uuid;
  iv_created_at : Instant;
  iv_expires_at : Instant;
  iv_accepted_at : option Instant
}.

(** A row of [users]; [us_key_material] stands for the encrypted key, its
    parameters and the recovery hash, which the server never looks into. *)
Record UserRow := mkUserRow {
  us_email : option string;
  us_wallet_address : option string;
  us_kdf_salt_identifier : option string;
  us_key_material : string;
  us_created_at : Instant;
  us_last_login_at : option Instant;
  us_failed_login_attempts : Z;
  us_locked_until : option Instant;
  us_role : Role
}.

(** A row of [email_change_requests], keyed by its token *)
Record EmailChangeRow := mkEmailChangeRow {
  ec_user_id : Uuid;
  ec_new_email : string;
  ec_expires_at : Instant;
  ec_consumed_at : option Instant
}.

Record TeamDb := mkTeamDb {
  td_users : gmap Z UserRow;
  td_stores : gmap Z Store;
  td_roles : gmap Z StoreRole;
  td_user_stores : gmap (Z * Z) Z;
  td_invites : gmap Z InviteRow;
  td_email_changes : gmap Z EmailChangeRow
}.

Definition td_set_users (x : gmap Z UserRow) (d : TeamDb) : TeamDb :=
  mkTeamDb x (td_stores d) (td_roles d) (td_user_stores d) (td_invites d) (td_email_changes d).
Definition td_set_stores (x : gmap Z Store) (d : TeamDb) : TeamDb :=
  mkTeamDb (td_users d) x (td_roles d) (td_user_stores d) (td_invites d) (td_email_changes d).
Definition td_set_roles (x : gmap Z StoreRole) (d : TeamDb) : TeamDb :=
  mkTeamDb (td_users d) (td_stores d) x (td_user_stores d) (td_invites d) (td_email_changes d).
Definition td_set_user_stores (x : gmap (Z * Z) Z) (d : TeamDb) : TeamDb :=
  mkTeamDb (td_users d) (td_stores d) (td_roles d) x (td_invites d) (td_email_changes d).
Definition td_set_invites (x : gmap Z InviteRow) (d : TeamDb) : TeamDb :=
  mkTeamDb (td_users d) (td_stores d) (td_roles d) (td_user_stores d) x (td_email_changes d).
Definition td_set_email_changes (x : gmap Z EmailChangeRow) (d : TeamDb) : TeamDb :=
  mkTeamDb (td_users d) (td_stores d) (td_roles d) (td_user_stores d) (td_invites d) x.

(** ** Statements *)

Abbreviation TeamOffice := (Office TeamDb).
Abbreviation TeamStatement := (TStatement TeamDb).

(** [StoreRepository::get_store] *)
Definition store_get (id : Uuid) : TeamStatement (option Store) := tselect (fun d => td_stores d !! id).

(** Whether [user_id] is a member of the store. *)
Definition member_of (user_id store_id : Uuid) (d : TeamDb) : bool :=
  bool_decide (is_Some (td_user_stores d !! (user_id, store_id))).

(** [StoreRepository::get_stores_for_user] *)
Definition get_stores_for_user (user_id : Uuid) : TeamStatement (list Store) :=
  tselect (fun d => List.filter (fun s => (str_owner_id s =? user_id) || member_of user_id (str_id s) d)
                      (map_to_list (td_stores d)).*2).

(** [StoreRepository::get_stores_owned_by] *)
Definition get_stores_owned_by (user_id : Uuid) : TeamStatement (list Store) :=
  tselect (fun d => List.filter (fun s => str_owner_id s =? user_id) (map_to_list (td_stores d)).*2).

(** [StoreRepository::update_store]: name, website and archived flag *)
Definition store_update (store : Store) : TeamStatement unit :=
  fun _ d =>
    match td_stores d !! str_id store with
    | None => (Err StoreNotFound, d)
    | Some s =>
        (Ok tt, td_set_stores (<[str_id store :=
           mkStore (str_id s) (str_name store) (str_website store) (str_owner_id s) (str_archived store)
             (str_created_at s)]> (td_stores d)) d)
    end.

(** [StoreRepository::archive_store] *)
Definition archive_store (id : Uuid) : TeamStatement unit :=
  fun _ d =>
    match td_stores d !! id with
    | None => (Err StoreNotFound, d)
    | Some s =>
        (Ok tt, td_set_stores (<[id :=
           mkStore (str_id s) (str_name s) (str_website s) (str_owner_id s) true (str_created_at s)]> (td_stores d)) d)
    end.

(** [insert_store], the statement of [StoreRepository::create_store] *)
Definition insert_store (store : Store) (d : TeamDb) : result DbError TeamDb :=
  if present (str_id store) (td_stores d) || negb (present (str_owner_id store) (td_users d))
  then Err ConstraintViolation
  else Ok (td_set_stores (<[str_id store := store]> (td_stores d)) d).

(** The default role of a name; names of default roles are unique. *)
Definition default_role_by_name (name : string) (d : TeamDb) : option StoreRole :=
  head (List.filter (fun r => option_is_none (sr_store_id r) && String.eqb (sr_role r) name)
          (map_to_list (td_roles d)).*2).

(** [insert_user_store], the statement of [add_user_to_store] *)
Definition insert_user_store (user_id store_id role_id : Uuid) (d : TeamDb) : result DbError TeamDb :=
  if member_of user_id store_id d || negb (present user_id (td_users d)) ||
     negb (present store_id (td_stores d)) || negb (present role_id (td_roles d))
  then Err ConstraintViolation
  else Ok (td_set_user_stores (<[(user_id, store_id) := role_id]> (td_user_stores d)) d).

(** [StoreCreationWriter::create_store_owned_by], one transaction *)
Definition create_store_owned_by (store : Store) (owner_id : Uuid) : TeamStatement unit :=
  fun _ d =>
    match insert_store store d with
    | Err e => (Err e, d)
    | Ok d1 =>
        match default_role_by_name "Owner" d1 with
        | None => (Err MissingOwnerRole, d)
        | Some role =>
            match insert_user_store owner_id (str_id store) (sr_id role) d1 with
            | Err e => (Err e, d)
            | Ok d2 => (Ok tt, d2)
            end
        end
    end.

(** [StoreRoleRepository::get_store_role], [get_default_role_by_name],
    [get_roles_for_store], [get_default_roles] *)
Definition get_store_role (id : Uuid) : TeamStatement (option StoreRole) := tselect (fun d => td_roles d !! id).
Definition get_default_role_by_name (name : string) : TeamStatement (option StoreRole) :=
  tselect (default_role_by_name name).
Definition get_roles_for_store (store_id : Uuid) : TeamStatement (list StoreRole) :=
  tselect (fun d => List.filter (fun r => match sr_store_id r with Some s => s =? store_id | None => true end)
                      (map_to_list (td_roles d)).*2).
Definition get_default_roles : TeamStatement (list StoreRole) :=
  tselect (fun d => List.filter (fun r => option_is_none (sr_store_id r)) (map_to_list (td_roles d)).*2).

(** [UserStoreRepository::add_user_to_store] *)
Definition add_user_to_store (user_id store_id role_id : Uuid) : TeamStatement unit :=
  fun _ d => match insert_user_store user_id store_id role_id d with
             | Ok d' => (Ok tt, d')
             | Err e => (Err e, d)
             end.

(** [UserStoreRepository::get_user_store], [get_store_users] *)
Definition user_store_get (user_id store_id : Uuid) : TeamStatement (option Uuid) :=
  tselect (fun d => td_user_stores d !! (user_id, store_id)).
Definition get_store_users (store_id : Uuid) : TeamStatement (list (Uuid * Uuid)) :=
  tselect (fun d => (fun kr => (kr.1.1, kr.2)) <$>
     List.filter (fun kr => kr.1.2 =? store_id) (map_to_list (td_user_stores d))).

(** [UserStoreRepository::update_user_store] *)
Definition update_user_store (user_id store_id role_id : Uuid) : TeamStatement unit :=
  fun _ d =>
    if negb (member_of user_id store_id d) then (Err UserNotInStore, d)
    else if negb (present role_id (td_roles d)) then (Err ConstraintViolation, d)
    else (Ok tt, td_set_user_stores (<[(user_id, store_id) := role_id]> (td_user_stores d)) d).

(** [UserStoreRepository::remove_user_from_store] *)
Definition remove_user_from_store (user_id store_id : Uuid) : TeamStatement unit :=
  fun _ d => (Ok tt, td_set_user_stores (delete (user_id, store_id) (td_user_stores d)) d).

(** What [user_has_store_permission] selects. *)
Definition has_permission (user_id store_id : Uuid) (permission : string) (d : TeamDb) : bool :=
  match (role_id ← td_user_stores d !! (user_id, store_id); td_roles d !! role_id) with
  | Some role => contains (sr_permissions role) permission
  | None => false
  end.

(** [UserStoreRepository::user_has_store_permission] *)
Definition store_permission (user_id store_id : Uuid) (permission : string) : TeamStatement bool :=
  tselect (has_permission user_id store_id permission).

(** [lower(btrim(email))]; the handler trimmed the address already *)
Definition invite_address (email : string) : string := to_lowercase (trim email).

(** The pending invite of an address to a store; the partial unique index
    allows one. *)
Definition pending_invite (store_id : Uuid) (email : string) (d : TeamDb) : option Uuid :=
  fst <$> head (List.filter (fun kr => (iv_store_id kr.2 =? store_id) && String.eqb (iv_email kr.2) email
                                        && option_is_none (iv_accepted_at kr.2)) (map_to_list (td_invites d))).

(** [StoreInviteWriter::create_store_invite]; [token] is the id the database
    draws for the row. *)
Definition insert_invite (token store_id : Uuid) (email : string) (role_id invited_by : Uuid) (expires_at : Instant)
  : TeamStatement Uuid :=
  fun now d =>
    let email := invite_address email in
    let others := match pending_invite store_id email d with
                  | Some old => delete old (td_invites d)
                  | None => td_invites d
                  end in
    if present token others || negb (present store_id (td_stores d)) || negb (present role_id (td_roles d))
       || negb (present invited_by (td_users d))
    then (Err ConstraintViolation, d)
    else (Ok token, td_set_invites (<[token := mkInviteRow store_id email role_id invited_by now expires_at None]> others) d).

(** [InviteAcceptance] *)
Inductive InviteAcceptance :=
| Accepted (store_id role_id : Uuid)
| AlreadyMember
| Invalid.

(** An invite that can be redeemed at [now]. *)
Definition redeemable (now : Instant) (i : InviteRow) : bool :=
  option_is_none (iv_accepted_at i) && (now <? iv_expires_at i).

Definition iv_accept (now : Instant) (i : InviteRow) : InviteRow :=
  mkInviteRow (iv_store_id i) (iv_email i) (iv_role_id i) (iv_invited_by i) (iv_created_at i) (iv_expires_at i) (Some now).

(** [StoreInviteWriter::accept_store_invite], one transaction *)
Definition redeem_invite (token user_id : Uuid) : TeamStatement InviteAcceptance :=
  fun now d =>
    match td_invites d !! token with
    | None => (Ok Invalid, d)
    | Some invite =>
        if negb (redeemable now invite) then (Ok Invalid, d)
        else if member_of user_id (iv_store_id invite) d then (Ok AlreadyMember, d)
        else
          match insert_user_store user_id (iv_store_id invite) (iv_role_id invite) d with
          | Err e => (Err e, d)
          | Ok d' =>
              (Ok (Accepted (iv_store_id invite) (iv_role_id invite)),
               td_set_invites (<[token := iv_accept now invite]> (td_invites d')) d')
          end
    end.

(** ** Requests *)

Definition newline : string := String (ascii_of_nat 10) EmptyString.
Definition dquote : string := String (ascii_of_nat 34) EmptyString.

Section Teams.
Context `{Runtime} `{PolicyNames} `{UuidText} `{Formats} `{MailHost}.

Abbreviation Answer A := (St TeamOffice Z A).

(** The user and the scope of the key a request came with. *)
Record StoreScopedUser := mkStoreScopedUser { ssu_user : UserInfo; ssu_key_scope : option (list string) }.

(** The check at the head of the permission-gated routes. *)
Definition require_permission (c : StoreScopedUser) (store_id : Uuid) (permission : string) : Answer unit :=
  let* has := fails_500 (tdb (store_permission (ui_id (ssu_user c)) store_id permission)) in
  if has && key_grants_store_permission (ssu_key_scope c) permission store_id then st_ret tt else st_throw 403.

(** *** Stores *)

(** [store_for_caller] *)
Definition store_for_caller (store : option Store) (caller : Uuid) (is_member owner_only : bool) : result Z Store :=
  match store with
  | None => Err 404
  | Some store =>
      let is_owner := str_owner_id store =? caller in
      if negb is_owner && negb is_member then Err 404
      else if owner_only && negb is_owner then Err 403
      else Ok store
  end.

(** [is_store_member] *)
Definition is_store_member (caller store_id : Uuid) : Answer bool :=
  let* r := fails_500 (tdb (user_store_get caller store_id)) in st_ret (option_is_some r).

(** [list_stores] *)
Definition list_stores (user : UserInfo) (archived : bool) : Answer (list Store) :=
  let* stores := fails_500 (tdb (get_stores_for_user (ui_id user))) in
  st_ret (List.filter (fun s => Bool.eqb (str_archived s) archived) stores).

(** [create_store] *)
Definition create_store (user : UserInfo) (name : string) (website : option string) : Answer Store :=
  let* id := of_fresh in
  let* now := of_now in
  let store := mkStore id name website (ui_id user) false now in
  do* fails_500 (tdb (create_store_owned_by store (ui_id user)));
  st_ret store.

(** [get_store] *)
Definition get_store (user : UserInfo) (store_id : Uuid) : Answer Store :=
  let* store := fails_500 (tdb (store_get store_id)) in
  let* is_member := is_store_member (ui_id user) store_id in
  st_lift (store_for_caller store (ui_id user) is_member false).

Definition MODIFY_SETTINGS : string := "ethpay.store.canmodifystoresettings".

(** [update_store] *)
Definition update_store (c : StoreScopedUser) (store_id : Uuid) (name website : option string) : Answer Store :=
  do* require_permission c store_id MODIFY_SETTINGS;
  let* r := fails_500 (tdb (store_get store_id)) in
  let* store := ok_or 404 r in
  let store := mkStore (str_id store) (default (str_name store) name)
                 (match website with Some w => Some w | None => str_website store end)
                 (str_owner_id store) (str_archived store) (str_created_at store) in
  do* fails_500 (tdb (store_update store));
  st_ret store.

(** [delete_store]: archives *)
Definition delete_store (user : UserInfo) (store_id : Uuid) : Answer unit :=
  let* store := fails_500 (tdb (store_get store_id)) in
  let* is_member := is_store_member (ui_id user) store_id in
  do* st_lift (store_for_caller store (ui_id user) is_member true);
  fails_500 (tdb (archive_store store_id)).

(** [unarchive_store] *)
Definition unarchive_store (user : UserInfo) (store_id : Uuid) : Answer Store :=
  let* store := fails_500 (tdb (store_get store_id)) in
  let* is_member := is_store_member (ui_id user) store_id in
  let* store := st_lift (store_for_caller store (ui_id user) is_member true) in
  let store := mkStore (str_id store) (str_name store) (str_website store) (str_owner_id store) false (str_created_at store) in
  do* fails_500 (tdb (store_update store));
  st_ret store.

(** *** Members *)

Definition VIEW_USERS : string := "ethpay.store.canviewstoreusers".
Definition MODIFY_USERS : string := "ethpay.store.canmodifystoreusers".

(** [MemberResponse] *)
Record MemberResponse := mkMemberResponse {
  mr_user_id : Uuid;
  mr_store_id : Uuid;
  mr_role_id : Uuid;
  mr_role_name : string;
  mr_permissions : list string
}.

Definition member_response (user_id store_id : Uuid) (role : StoreRole) : MemberResponse :=
  mkMemberResponse user_id store_id (sr_id role) (sr_role role) (sr_permissions role).

(** [list_store_members]: a member whose role cannot be read is left out *)
Definition list_store_members (c : StoreScopedUser) (store_id : Uuid) : Answer (list MemberResponse) :=
  do* require_permission c store_id VIEW_USERS;
  let* user_stores := fails_500 (tdb (get_store_users store_id)) in
  st_fold (fun members us =>
      let* r := st_try (tdb (get_store_role us.2)) in
      st_ret (match r with
              | Ok (Some role) =>
                  members ++ [mkMemberResponse us.1 store_id us.2 (sr_role role) (sr_permissions role)]
              | _ => members
              end)) [] user_stores.

(** [add_store_member] *)
Definition add_store_member (c : StoreScopedUser) (store_id user_id : Uuid) (role_name : string) : Answer MemberResponse :=
  do* require_permission c store_id MODIFY_USERS;
  let* r := fails_500 (tdb (store_get store_id)) in
  do* ok_or 404 r;
  let* role := fails_500 (tdb (get_default_role_by_name role_name)) in
  let* role := ok_or 400 role in
  do* fails_500 (tdb (add_user_to_store user_id store_id (sr_id role)));
  st_ret (member_response user_id store_id role).

(** [update_store_member] *)
Definition update_store_member (c : StoreScopedUser) (store_id user_id : Uuid) (role_name : string) : Answer MemberResponse :=
  do* require_permission c store_id MODIFY_USERS;
  let* role := fails_500 (tdb (get_default_role_by_name role_name)) in
  let* role := ok_or 400 role in
  do* st_map_err (fun _ => 404) (tdb (update_user_store user_id store_id (sr_id role)));
  st_ret (member_response user_id store_id role).

(** [remove_store_member] *)
Definition remove_store_member (c : StoreScopedUser) (store_id user_id : Uuid) : Answer unit :=
  do* require_permission c store_id MODIFY_USERS;
  let* r := fails_500 (tdb (store_get store_id)) in
  let* store := ok_or 404 r in
  if str_owner_id store =? user_id then st_throw 403
  else fails_500 (tdb (remove_user_from_store user_id store_id)).

(** *** Invites *)

(** [INVITE_TTL]: seven days *)
Definition INVITE_TTL : Z := seconds (7 * 86400).
Definition INVITE_USERS : string := "ethpay.store.caninviteusers".
Definition INVITABLE_ROLES : list string := ["Manager"; "Employee"; "Guest"]%string.
Definition DEFAULT_INVITE_ROLE : string := "Guest".

Definition str_contains (a : ascii) (s : string) : bool := negb (str_forall (fun b => negb (Ascii.eqb a b)) s).

(** [looks_like_an_email] *)
Definition looks_like_an_email (email : string) : bool :=
  match split_on "@"%char (trim email) with
  | [local; domain] =>
      negb (String.eqb local "") && negb (String.eqb domain "") && str_contains "."%char domain
      && negb (String.prefix "." domain) && negb (ends_with "." domain)
  | _ => false
  end.

(** The message of [create_store_invite]. *)
Definition invite_mail (email store_name role_name : string) (token : Uuid) : Mail :=
  mkMail email ("You have been invited to " +:+ store_name +:+ " on random.cash")
    ("You have been invited to join the store " +:+ dquote +:+ store_name +:+ dquote +:+ " as " +:+ role_name +:+ "."
     +:+ newline +:+ newline +:+ "Sign in (or create an account), then enter this code to accept:"
     +:+ newline +:+ newline +:+ uuid_to_string token +:+ newline +:+ newline
     +:+ "It expires in 7 days and can only be used once. If you were not expecting this, ignore this message - nothing changes unless the code is entered."
     +:+ newline).

(** [create_store_invite] *)
Definition create_store_invite (c : StoreScopedUser) (store_id : Uuid) (email : string) (role : option string) : Answer unit :=
  do* require_permission c store_id INVITE_USERS;
  let email := trim email in
  if negb (looks_like_an_email email) then st_throw 400
  else
  let role_name := default DEFAULT_INVITE_ROLE role in
  if negb (contains INVITABLE_ROLES role_name) then st_throw 400
  else if negb mail_configured then st_throw 503
  else
  let* store := fails_500 (tdb (store_get store_id)) in
  let* store := ok_or 404 store in
  let* role := fails_500 (tdb (get_default_role_by_name role_name)) in
  let* role := ok_or 500 role in
  let* now := of_now in
  let* token := of_fresh in
  let* token := fails_500 (tdb (insert_invite token store_id email (sr_id role) (ui_id (ssu_user c)) (now + INVITE_TTL))) in
  do* send_mail (invite_mail email (str_name store) role_name token);
  st_ret tt.

(** [accept_store_invite]: the store and the role's name *)
Definition accept_store_invite (user : UserInfo) (token : Uuid) : Answer (Uuid * string) :=
  let* r := fails_500 (tdb (redeem_invite token (ui_id user))) in
  match r with
  | Accepted store_id role_id =>
      let* role := fails_500 (tdb (get_store_role role_id)) in
      let* role := ok_or 500 role in
      st_ret (store_id, sr_role role)
  | AlreadyMember => st_throw 409
  | Invalid => st_throw 400
  end.
End Teams.
