(* ===== verification/TeamFacts.v ===== *)
(** * Who can change who belongs to a store *)

From stdpp Require Import gmap strings list relations.
From Stdlib Require Import ZArith Lia.
From S2P Require Import Prelude Events Network Decimal LiveWatch Database Services ApiKeys Consumer ApiAuth RateLimit Office Teams.

#[local] Open Scope Z_scope.

Section Runs.
Context `{Runtime} `{PolicyNames} `{UuidText} `{Formats} `{MailHost}.

Lemma store_for_caller_ok store u m b s : store_for_caller store u m b = Ok s -> store = Some s.
Proof. unfold store_for_caller. destruct store; [|done]. repeat case_match; congruence. Qed.

Lemma runs_caller store u m b (d : TeamDb) (Q : result Z Store -> _) :
  (forall s, store = Some s -> Q (Ok s) d) -> (forall e, Q (Err e) d) ->
  runs (st_lift (store_for_caller store u m b)) d Q.
Proof.
  intros Hs He. apply runs_lift. destruct (store_for_caller _ _ _ _) eqn:Hc; [|apply He].
  apply store_for_caller_ok in Hc. by apply Hs.
Qed.

Lemma runs_permission c s p d (Q : result Z unit -> _) :
  (has_permission (ui_id (ssu_user c)) s p d = true -> key_grants_store_permission (ssu_key_scope c) p s = true -> Q (Ok tt) d) ->
  (forall e, Q (Err e) d) -> runs (require_permission c s p) d Q.
Proof.
  intros Hok He. apply runs_bind, runs_map_err, runs_select; [|apply He].
  destruct (has_permission _ _ _ _) eqn:Hp, (key_grants_store_permission _ _ _) eqn:Hk; cbn;
    first [by apply runs_ret, Hok | apply runs_throw, He].
Qed.
End Runs.

(** The steps of a handler up to the first statement that writes. *)
Ltac runs_step :=
  first
  [ match goal with
    | |- runs (st_lift (store_for_caller _ _ _ _)) _ _ => apply runs_caller; intros
    | |- runs (require_permission _ _ _) _ _ => apply runs_permission; intros
    | |- runs (tdb (store_get _)) _ _ => apply runs_select
    | |- runs (tdb (user_store_get _ _)) _ _ => apply runs_select
    | |- runs (tdb (get_default_role_by_name _)) _ _ => apply runs_select
    | |- runs (tdb (get_store_role _)) _ _ => apply runs_select
    | |- runs (tdb (get_store_users _)) _ _ => apply runs_select
    | |- runs (tdb (get_stores_for_user _)) _ _ => apply runs_select
    | |- runs (is_store_member _ _) _ _ => unfold is_store_member
    end; cbn beta iota
  | office_step ].

(** ** The requests *)

Section Facts.
Context `{Runtime} `{PolicyNames} `{UuidText} `{Formats} `{MailHost}.

(** A request to one of the routes. *)
Inductive TeamRequest :=
| ListStores (user : UserInfo) (archived : bool)
| CreateStore (user : UserInfo) (name : string) (website : option string)
| GetStore (user : UserInfo) (store_id : Uuid)
| UpdateStore (c : StoreScopedUser) (store_id : Uuid) (name website : option string)
| DeleteStore (user : UserInfo) (store_id : Uuid)
| UnarchiveStore (user : UserInfo) (store_id : Uuid)
| ListMembers (c : StoreScopedUser) (store_id : Uuid)
| AddMember (c : StoreScopedUser) (store_id user_id : Uuid) (role : string)
| UpdateMember (c : StoreScopedUser) (store_id user_id : Uuid) (role : string)
| RemoveMember (c : StoreScopedUser) (store_id user_id : Uuid)
| CreateInvite (c : StoreScopedUser) (store_id : Uuid) (email : string) (role : option string)
| AcceptInvite (user : UserInfo) (token : Uuid).

Definition drop_answer {A} (m : St TeamOffice Z A) : St TeamOffice Z unit := st_bind m (fun _ => st_ret tt).

Definition handle_request (q : TeamRequest) : St TeamOffice Z unit :=
  match q with
  | ListStores u a => drop_answer (list_stores u a)
  | CreateStore u n w => drop_answer (create_store u n w)
  | GetStore u s => drop_answer (get_store u s)
  | UpdateStore c s n w => drop_answer (update_store c s n w)
  | DeleteStore u s => delete_store u s
  | UnarchiveStore u s => drop_answer (unarchive_store u s)
  | ListMembers c s => drop_answer (list_store_members c s)
  | AddMember c s u r => drop_answer (add_store_member c s u r)
  | UpdateMember c s u r => drop_answer (update_store_member c s u r)
  | RemoveMember c s u => remove_store_member c s u
  | CreateInvite c s e r => create_store_invite c s e r
  | AcceptInvite u t => drop_answer (accept_store_invite u t)
  end.

(** What one request can do to the tables [d]. *)
Inductive effect (d : TeamDb) : TeamRequest -> TeamDb -> Prop :=
| eff_none q : effect d q d
| eff_create u n w id now role :
    let store := mkStore id n w (ui_id u) false now in
    td_stores d !! id = None -> td_user_stores d !! (ui_id u, id) = None -> td_roles d !! sr_id role <> None ->
    default_role_by_name "Owner" (td_set_stores (<[id := store]> (td_stores d)) d) = Some role ->
    effect d (CreateStore u n w)
      (td_set_user_stores (<[(ui_id u, id) := sr_id role]> (td_user_stores d)) (td_set_stores (<[id := store]> (td_stores d)) d))
| eff_store q sid s s' :
    td_stores d !! sid = Some s -> str_id s' = str_id s -> str_owner_id s' = str_owner_id s ->
    effect d q (td_set_stores (<[sid := s']> (td_stores d)) d)
| eff_add c sid u name role :
    has_permission (ui_id (ssu_user c)) sid MODIFY_USERS d = true ->
    key_grants_store_permission (ssu_key_scope c) MODIFY_USERS sid = true ->
    default_role_by_name name d = Some role -> td_user_stores d !! (u, sid) = None ->
    effect d (AddMember c sid u name) (td_set_user_stores (<[(u, sid) := sr_id role]> (td_user_stores d)) d)
| eff_update c sid u name role :
    has_permission (ui_id (ssu_user c)) sid MODIFY_USERS d = true ->
    key_grants_store_permission (ssu_key_scope c) MODIFY_USERS sid = true ->
    default_role_by_name name d = Some role -> is_Some (td_user_stores d !! (u, sid)) ->
    effect d (UpdateMember c sid u name) (td_set_user_stores (<[(u, sid) := sr_id role]> (td_user_stores d)) d)
| eff_remove c sid u s :
    has_permission (ui_id (ssu_user c)) sid MODIFY_USERS d = true ->
    key_grants_store_permission (ssu_key_scope c) MODIFY_USERS sid = true ->
    td_stores d !! sid = Some s -> str_owner_id s <> u ->
    effect d (RemoveMember c sid u) (td_set_user_stores (delete (u, sid) (td_user_stores d)) d)
| eff_invite c sid email role_name role token now exp d' r :
    has_permission (ui_id (ssu_user c)) sid INVITE_USERS d = true ->
    key_grants_store_permission (ssu_key_scope c) INVITE_USERS sid = true ->
    default_role_by_name (default DEFAULT_INVITE_ROLE role_name) d = Some role ->
    contains INVITABLE_ROLES (default DEFAULT_INVITE_ROLE role_name) = true ->
    insert_invite token sid (trim email) (sr_id role) (ui_id (ssu_user c)) exp now d = (r, d') ->
    effect d (CreateInvite c sid email role_name) d'
| eff_accept u token i now :
    td_invites d !! token = Some i -> redeemable now i = true ->
    td_user_stores d !! (ui_id u, iv_store_id i) = None -> is_Some (td_stores d !! iv_store_id i) ->
    effect d (AcceptInvite u token)
      (td_set_invites (<[token := iv_accept now i]> (td_invites d))
         (td_set_user_stores (<[(ui_id u, iv_store_id i) := iv_role_id i]> (td_user_stores d)) d)).

Lemma member_of_false u s d : member_of u s d = false -> td_user_stores d !! (u, s) = None.
Proof. unfold member_of. intros Hm%bool_decide_eq_false. by apply eq_None_not_Some. Qed.

Lemma present_true {A} k (t : gmap Z A) : present k t = true -> is_Some (t !! k).
Proof. apply bool_decide_eq_true. Qed.

Lemma insert_user_store_ok u s r d d' :
  insert_user_store u s r d = Ok d' ->
  d' = td_set_user_stores (<[(u, s) := r]> (td_user_stores d)) d /\ td_user_stores d !! (u, s) = None /\
  is_Some (td_users d !! u) /\ is_Some (td_stores d !! s) /\ is_Some (td_roles d !! r).
Proof.
  unfold insert_user_store. destruct (member_of u s d) eqn:Hm; [done|].
  destruct (present u _) eqn:Hu, (present s _) eqn:Hs, (present r _) eqn:Hr; cbn; try done.
  intros [= <-]. split_and!; auto using member_of_false, present_true.
Qed.

Lemma default_role_in name d role : default_role_by_name name d = Some role ->
  sr_store_id role = None /\ sr_role role = name /\ exists id, td_roles d !! id = Some role.
Proof.
  unfold default_role_by_name. intros Hh. apply head_Some_elem_of in Hh.
  apply list_elem_of_In, filter_In in Hh as [Hin [Hn Hr]%andb_prop].
  apply list_elem_of_In, list_elem_of_fmap in Hin as ([id r] & -> & Hin%elem_of_map_to_list).
  cbn in *. apply String.eqb_eq in Hr. destruct (sr_store_id r); [done|]. eauto.
Qed.

Lemma create_effect u n w id now d now' :
  effect d (CreateStore u n w) (snd (create_store_owned_by (mkStore id n w (ui_id u) false now) (ui_id u) now' d)).
Proof.
  unfold create_store_owned_by, insert_store. cbn [str_id str_owner_id].
  destruct (present id (td_stores d)) eqn:Hid; [apply eff_none|].
  destruct (present (ui_id u) (td_users d)); [cbn [negb orb]|apply eff_none].
  destruct (default_role_by_name _ _) as [role|] eqn:Hr; [|apply eff_none].
  destruct (insert_user_store _ _ _ _) as [d2|] eqn:Hi; [|apply eff_none].
  apply insert_user_store_ok in Hi as (-> & Hm & _ & _ & Hrole). cbn [snd].
  refine (eff_create d u n w id now role _ Hm _ Hr); cbn in Hrole.
  - apply bool_decide_eq_false in Hid. by apply eq_None_not_Some.
  - destruct Hrole as [x ->]. done.
Qed.

Lemma update_effect q s d now :
  (exists s0, td_stores d !! str_id s = Some s0 /\ str_id s0 = str_id s /\ str_owner_id s = str_owner_id s0) ->
  effect d q (snd (store_update s now d)).
Proof. intros (s0 & Hs & Hi & Ho). unfold store_update. rewrite Hs. cbn. by eapply eff_store. Qed.

Lemma archive_effect q id d now : effect d q (snd (archive_store id now d)).
Proof. unfold archive_store. destruct (td_stores d !! id) eqn:Hs; [by eapply eff_store | apply eff_none]. Qed.

Lemma redeem_effect u token d now : effect d (AcceptInvite u token) (snd (redeem_invite token (ui_id u) now d)).
Proof.
  unfold redeem_invite. destruct (td_invites d !! token) as [i|] eqn:Hi; [|apply eff_none].
  destruct (redeemable now i) eqn:Hr; [cbn [negb]|apply eff_none].
  destruct (member_of _ _ _); [apply eff_none|].
  destruct (insert_user_store _ _ _ _) as [d'|] eqn:Hs; [|apply eff_none].
  apply insert_user_store_ok in Hs as (-> & Hm & _ & Hst & _). exact (eff_accept d u token i now Hi Hr Hm Hst).
Qed.

Lemma add_effect c sid u name role d now :
  has_permission (ui_id (ssu_user c)) sid MODIFY_USERS d = true ->
  key_grants_store_permission (ssu_key_scope c) MODIFY_USERS sid = true ->
  default_role_by_name name d = Some role ->
  effect d (AddMember c sid u name) (snd (add_user_to_store u sid (sr_id role) now d)).
Proof.
  intros Hp Hk Hr. unfold add_user_to_store. destruct (insert_user_store _ _ _ _) as [d'|] eqn:Hi; [|apply eff_none].
  apply insert_user_store_ok in Hi as (-> & Hm & _). by apply eff_add.
Qed.

Lemma role_effect c sid u name role d now :
  has_permission (ui_id (ssu_user c)) sid MODIFY_USERS d = true ->
  key_grants_store_permission (ssu_key_scope c) MODIFY_USERS sid = true ->
  default_role_by_name name d = Some role ->
  effect d (UpdateMember c sid u name) (snd (update_user_store u sid (sr_id role) now d)).
Proof.
  intros Hp Hk Hr. unfold update_user_store. destruct (member_of u sid d) eqn:Hm; [cbn [negb]|apply eff_none].
  destruct (negb _); [apply eff_none|]. apply eff_update; [done..|]. by apply bool_decide_eq_true in Hm.
Qed.

(** Tables whose rows are filed under their own ids. *)
Definition keyed (d : TeamDb) : Prop :=
  (forall id s, td_stores d !! id = Some s -> str_id s = id) /\ (forall id r, td_roles d !! id = Some r -> sr_id r = id).

(** The statement that writes, and the reading that follows it. *)
Ltac write_step :=
  match goal with
  | |- runs (tdb _) ?d ?Q =>
      match Q with context [effect d ?q _] => apply (runs_write _ _ (effect d q)) end;
      [apply eff_none | intros ? | intros [[]|?] ? ?; cbn beta iota; repeat runs_step; done]
  end.

(** Every request has one of these effects, whatever is lost on the way. *)
Lemma request_effect q d : keyed d -> runs (handle_request q) d (fun _ d' => effect d q d').
Proof.
  intros [Hks _]. destruct q; cbn [handle_request]; unfold drop_answer, list_stores, create_store, get_store, update_store,
    delete_store, unarchive_store, list_store_members, add_store_member, update_store_member,
    remove_store_member, create_store_invite, accept_store_invite; repeat runs_step; try apply eff_none.
  all: try write_step; try apply archive_effect; try apply create_effect; try apply redeem_effect; try by apply add_effect.
  all: try by apply role_effect.
  all: try (apply update_effect; match goal with Hs : td_stores _ !! _ = Some ?s, Hk : forall id s, _ -> str_id s = id |- _ =>
    exists s; split; [cbn; by rewrite (Hk _ _ Hs) | by rewrite (Hk _ _ Hs)] end).
  - apply runs_fold; [|intros; by apply runs_ret, eff_none]. intros b x. by repeat runs_step.
  - eapply eff_remove; [done..|]. by apply Z.eqb_neq.
  - by eapply (eff_invite d), surjective_pairing; [|..|apply negb_false_iff].
Qed.
End Facts.

(** * Membership, ownership and invites over time

    Changes of membership are authorised, owners stay members, an invite admits
    one person once and never as owner, and a store a caller has nothing to do
    with looks like one that does not exist. *)

Section Members.
Context `{Runtime} `{PolicyNames} `{UuidText} `{Formats} `{MailHost}.

(** The store and the member a request to the members' routes is about, with
    the caller. *)
Definition manages (q : TeamRequest) : option (StoreScopedUser * Uuid * Uuid) :=
  match q with
  | AddMember c s u _ | UpdateMember c s u _ | RemoveMember c s u => Some (c, s, u)
  | _ => None
  end.

(** The membership row an insertion or deletion changed. *)
Lemma insert_changed (m : gmap (Z * Z) Z) k k' v : <[k := v]> m !! k' <> m !! k' -> k = k'.
Proof. intros Hne. destruct (decide (k = k')); [done|]. by rewrite lookup_insert_ne in Hne. Qed.

Lemma delete_changed (m : gmap (Z * Z) Z) k k' : delete k m !! k' <> m !! k' -> k = k'.
Proof. intros Hne. destruct (decide (k = k')); [done|]. by rewrite lookup_delete_ne in Hne. Qed.

Lemma insert_invite_members token sid e r by_ exp now d :
  let d' := snd (insert_invite token sid e r by_ exp now d) in
  td_user_stores d' = td_user_stores d /\ td_stores d' = td_stores d /\ td_roles d' = td_roles d.
Proof. unfold insert_invite. by destruct (_ || _). Qed.

(** C26. The store, member and invite routes change a membership only with
    authority.  Whatever is lost, if a request to one of them (deleting an account
    or, in tests, a store is elsewhere: [Deletion]) changes whether and as what [x] belongs to store [s], then [x]
    created the store just now and owns it, or the caller held
    [canmodifystoreusers] in that store with a key that grants it and did not
    remove its owner, or [x] itself redeemed an unused invite to that store and
    got the role it names. *)
Theorem membership_changes_authorised q o x s :
  keyed (of_db o) ->
  let d := of_db o in
  let d' := of_db (snd (handle_request q o)) in
  td_user_stores d' !! (x, s) <> td_user_stores d !! (x, s) ->
  (exists u n w st role, q = CreateStore u n w /\ ui_id u = x /\ td_stores d !! s = None /\
     td_stores d' !! s = Some st /\ str_owner_id st = x /\
     td_user_stores d' !! (x, s) = Some (sr_id role) /\ sr_role role = "Owner"%string) \/
  (exists c, manages q = Some (c, s, x) /\
     has_permission (ui_id (ssu_user c)) s MODIFY_USERS d = true /\
     key_grants_store_permission (ssu_key_scope c) MODIFY_USERS s = true /\
     (td_user_stores d' !! (x, s) = None -> exists st, td_stores d !! s = Some st /\ str_owner_id st <> x)) \/
  (exists u token i, q = AcceptInvite u token /\ ui_id u = x /\ td_invites d !! token = Some i /\
     iv_store_id i = s /\ iv_accepted_at i = None /\ td_user_stores d !! (x, s) = None /\
     td_user_stores d' !! (x, s) = Some (iv_role_id i)).
Proof.
  intros Hk d d'. pose proof (request_effect q d Hk o eq_refl) as He. fold d' in He. clearbody d d'.
  destruct He as [q|u n w id now role store Hid Hm Hr Hd|q sid st st'|c sid u name role Hp Hg Hr Hm|c sid u name role Hp Hg Hr Hm
    |c sid u st Hp Hg Hst Ho|c sid email rn role token now exp d1 r Hp Hg Hr Hi Hins|u token i now Hi Hr Hm Hst];
    cbn; intros Hne; try done.
  - apply insert_changed in Hne as [= <- <-]. left. exists u, n, w, store, role. rewrite !lookup_insert_eq.
    split_and!; try done. by apply default_role_in in Hd as (_ & Hn & _).
  - apply insert_changed in Hne as [= <- <-]. right. left. exists c. rewrite lookup_insert_eq. by split_and!.
  - apply insert_changed in Hne as [= <- <-]. right. left. exists c. rewrite lookup_insert_eq. by split_and!.
  - apply delete_changed in Hne as [= <- <-]. right. left. exists c. split_and!; eauto.
  - pose proof (insert_invite_members token sid (trim email) (sr_id role) (ui_id (ssu_user c)) exp now d) as [Hu _].
    rewrite Hins in Hu. cbn in Hu. by rewrite Hu in Hne.
  - apply insert_changed in Hne as [= <- <-]. right. right. exists u, token, i. rewrite lookup_insert_eq.
    split_and!; try done. unfold redeemable in Hr. by destruct (iv_accepted_at i).
Qed.

(** ** Runs *)

Definition team_step (o o' : TeamOffice) : Prop := exists q, o' = snd (handle_request q o).

(** No store is without its owner among the members; every invite is to a
    default role that can be given away, and an address has at most one open
    invite to a store. *)
Record team_inv (d : TeamDb) : Prop := {
  ti_keyed : keyed d;
  ti_owner id st : td_stores d !! id = Some st -> is_Some (td_user_stores d !! (str_owner_id st, id));
  ti_invite t i : td_invites d !! t = Some i -> exists role, td_roles d !! iv_role_id i = Some role /\
    sr_store_id role = None /\ sr_role role ∈ INVITABLE_ROLES;
  ti_pending t t' i i' : td_invites d !! t = Some i -> td_invites d !! t' = Some i' ->
    iv_accepted_at i = None -> iv_accepted_at i' = None -> iv_store_id i = iv_store_id i' -> iv_email i = iv_email i' -> t = t'
}.

Lemma pending_invite_spec s e d :
  match pending_invite s e d with
  | Some t => exists i, td_invites d !! t = Some i /\ iv_store_id i = s /\ iv_email i = e /\ iv_accepted_at i = None
  | None => forall t i, td_invites d !! t = Some i -> iv_store_id i = s -> iv_email i = e -> iv_accepted_at i <> None
  end.
Proof.
  unfold pending_invite. set (p := fun kr : Z * InviteRow => _).
  destruct (List.filter p (map_to_list (td_invites d))) as [|[t i] l] eqn:Hf; cbn.
  - intros t i Hi Hs He Ha. assert (Hin : (t, i) ∈ List.filter p (map_to_list (td_invites d))).
    { apply list_elem_of_In, filter_In. split; [by apply list_elem_of_In, elem_of_map_to_list|].
      unfold p. cbn. rewrite Ha, Hs, He, Z.eqb_refl, String.eqb_refl. done. }
    rewrite Hf in Hin. by apply elem_of_nil in Hin.
  - assert (Hin : In (t, i) (List.filter p (map_to_list (td_invites d)))) by (rewrite Hf; by left).
    apply filter_In in Hin as [Hin Hp]. apply list_elem_of_In, elem_of_map_to_list in Hin.
    unfold p in Hp. cbn in Hp. apply andb_prop in Hp as [[Hs He]%andb_prop Ha].
    exists i. apply Z.eqb_eq in Hs. apply String.eqb_eq in He. split_and!; try done. by destruct (iv_accepted_at i).
Qed.

Lemma insert_invite_inv token sid e r by_ exp now d :
  team_inv d -> (exists role, td_roles d !! r = Some role /\ sr_store_id role = None /\ sr_role role ∈ INVITABLE_ROLES) ->
  team_inv (snd (insert_invite token sid e r by_ exp now d)).
Proof.
  intros [Hk Ho Hi Hp] Hr. unfold insert_invite. cbn zeta. set (e' := invite_address e).
  pose proof (pending_invite_spec sid e' d) as Hs.
  set (others := match pending_invite sid e' d with Some old => _ | None => _ end).
  assert (Hsub : forall t i, others !! t = Some i -> td_invites d !! t = Some i /\
            (iv_store_id i = sid -> iv_email i = e' -> iv_accepted_at i <> None)).
  { unfold others. intros t i. destruct (pending_invite sid e' d) as [old|].
    - intros [Hne Ht]%lookup_delete_Some. split; [done|]. intros Hs1 Hs2 Hs3. destruct Hs as (j & Hj & Hjs & Hje & Hja).
      apply Hne. by apply (Hp old t j i); rewrite ?Hjs, ?Hje.
    - eauto. }
  clearbody others. destruct (_ || _); [by split|]. split; [done..| |]; cbn.
  - intros t i [[<- <-]|[_ Ht]]%lookup_insert_Some; [done | by eapply Hi, Hsub].
  - intros t t' i i' [[<- <-]|[Hne Ht]]%lookup_insert_Some [[<- <-]|[Hne' Ht']]%lookup_insert_Some; cbn; intros Ha Ha' Hst Hem; [done| | |].
    + destruct (Hsub _ _ Ht') as [_ Hx]. by destruct Hx.
    + destruct (Hsub _ _ Ht) as [_ Hx]. by destruct Hx.
    + by apply (Hp t t' i i'); [apply Hsub|apply Hsub|..].
Qed.

Lemma effect_inv q d d' : team_inv d -> effect d q d' -> team_inv d'.
Proof.
  intros Hinv He. pose proof Hinv as [[Hks Hkr] Ho Hi Hp].
  destruct He as [q|u n w id now role store Hid Hm Hr Hd|q sid st st' Hst Hsid Hso|c sid u name role Hpm Hg Hr Hm|c sid u name role Hpm Hg Hr Hm
    |c sid u st Hpm Hg Hst Ho'|c sid email rn role token now exp d1 r Hpm Hg Hr Hc Hins|u token i now Ht Hr Hm Hst].
  - done.
  - split; cbn; [split; cbn| | |]; try done.
    + by intros j s [[<- <-]|[_ Hj]]%lookup_insert_Some; [|apply Hks].
    + intros j s [[<- <-]|[Hne Hj]]%lookup_insert_Some; cbn; [rewrite lookup_insert_eq; eauto|].
      rewrite lookup_insert_ne by congruence. eauto.
  - split; cbn; [split; cbn| | |]; try done.
    + intros j s [[<- <-]|[_ Hj]]%lookup_insert_Some; [rewrite Hsid|]; by apply Hks.
    + intros j s [[<- <-]|[_ Hj]]%lookup_insert_Some; [rewrite Hso|]; by apply Ho.
  - split; cbn; try done. intros j s Hj. destruct (decide ((u, sid) = (str_owner_id s, j))) as [<-|Hne];
      [rewrite lookup_insert_eq | rewrite lookup_insert_ne by done]; eauto.
  - split; cbn; try done. intros j s Hj. destruct (decide ((u, sid) = (str_owner_id s, j))) as [<-|Hne];
      [rewrite lookup_insert_eq | rewrite lookup_insert_ne by done]; eauto.
  - split; cbn; try done. intros j s Hj. rewrite lookup_delete_ne; [by apply Ho|]. intros [= -> ->]. congruence.
  - replace d1 with (snd (insert_invite token sid (trim email) (sr_id role) (ui_id (ssu_user c)) exp now d)) by by rewrite Hins.
    apply insert_invite_inv; [done|]. apply default_role_in in Hr as (Hn & Hrn & id & Hin). exists role.
    rewrite (Hkr _ _ Hin), Hrn. split_and!; try done. unfold contains in Hc.
    apply existsb_exists in Hc as (x & Hx & <-%String.eqb_eq). by apply list_elem_of_In.
  - split; cbn; try done.
    + intros j s Hj. destruct (decide ((ui_id u, iv_store_id i) = (str_owner_id s, j))) as [<-|Hne];
        [rewrite lookup_insert_eq | rewrite lookup_insert_ne by done]; eauto.
    + intros t j [[<- <-]|[_ Hj]]%lookup_insert_Some; cbn; eauto.
    + intros t t' j j' [[<- <-]|[_ Hj]]%lookup_insert_Some; [done|]. intros [[<- <-]|[_ Hj']]%lookup_insert_Some; [done|]. eauto.
Qed.

Lemma run_inv o o' : team_inv (of_db o) -> rtc team_step o o' -> team_inv (of_db o').
Proof.
  intros Hi Hr. induction Hr as [o|o o1 o2 [q ->] _ IH]; [done|]. apply IH.
  eapply effect_inv; [done|]. by apply (request_effect q (of_db o)); [apply Hi|].
Qed.

(** Owners stay members, and invites stay within bounds.  From tables that
    satisfy it, after any requests with anything lost, the owner of every store
    is among its members; every invite is to a default role other than [Owner];
    and an address has at most one open invite to a store. *)
Theorem store_owners_stay_members o o' :
  team_inv (of_db o) -> rtc team_step o o' ->
  let d := of_db o' in
  (forall id st, td_stores d !! id = Some st -> is_Some (td_user_stores d !! (str_owner_id st, id))) /\
  (forall t i, td_invites d !! t = Some i -> exists role, td_roles d !! iv_role_id i = Some role /\
     sr_store_id role = None /\ sr_role role <> "Owner"%string) /\
  (forall t t' i i', td_invites d !! t = Some i -> td_invites d !! t' = Some i' ->
     iv_accepted_at i = None -> iv_accepted_at i' = None ->
     iv_store_id i = iv_store_id i' -> iv_email i = iv_email i' -> t = t').
Proof.
  intros Hi Hr d. destruct (run_inv _ _ Hi Hr) as [_ Ho Hv Hp]. split; [done|]. split; [|done].
  intros t i Ht. destruct (Hv t i Ht) as (role & Hrole & Hn & Hin). exists role. split_and!; [done..|].
  intros He. rewrite He in Hin. unfold INVITABLE_ROLES in Hin. rewrite !elem_of_cons, elem_of_nil in Hin. naive_solver.
Qed.

(** ** Redeeming an invite *)

Lemma accepted_stays q d d' t i a :
  effect d q d' -> td_invites d !! t = Some i -> iv_accepted_at i = Some a -> td_invites d' !! t = Some i.
Proof.
  intros He Ht Ha.
  destruct He as [q|u n w id now role store Hid Hm Hr Hd|q sid st st' Hst Hsid Hso|c sid u name role Hpm Hg Hr Hm|c sid u name role Hpm Hg Hr Hm
    |c sid u st Hpm Hg Hst Ho'|c sid email rn role token now exp d1 r Hpm Hg Hr Hc Hins|u token j now Hj Hr Hm Hst]; try done.
  - revert Hins. unfold insert_invite. cbn zeta. set (e' := invite_address _).
    pose proof (pending_invite_spec sid e' d) as Hs.
    set (others := match pending_invite sid e' d with Some old => _ | None => _ end).
    assert (Ht' : others !! t = Some i).
    { unfold others. destruct (pending_invite sid e' d) as [old|]; [|done]. destruct Hs as (j & Hj & _ & _ & Hja).
      rewrite lookup_delete_ne; [done|]. intros ->. congruence. }
    clearbody others. destruct (present token others) eqn:Hpr; cbn; [by intros [= <- <-]|].
    destruct (_ || _); intros [= <- <-]; [done|]. cbn. rewrite lookup_insert_ne; [done|].
    intros ->. unfold present in Hpr. rewrite Ht' in Hpr. done.
  - cbn. rewrite lookup_insert_ne; [done|]. intros ->. unfold redeemable in Hr. assert (j = i) as -> by congruence.
    by rewrite Ha in Hr.
Qed.

Lemma accepted_runs o o' t i a :
  team_inv (of_db o) -> rtc team_step o o' -> td_invites (of_db o) !! t = Some i -> iv_accepted_at i = Some a ->
  td_invites (of_db o') !! t = Some i.
Proof.
  intros Hi Hr. induction Hr as [o|o o1 o2 [q ->] _ IH]; [done|]. intros Ht Ha.
  pose proof (request_effect q (of_db o) (ti_keyed _ Hi) o eq_refl) as He.
  cbn beta in He. apply IH; [exact (effect_inv _ _ _ Hi He) | exact (accepted_stays _ _ _ _ _ _ He Ht Ha) | done].
Qed.

Lemma accept_ok u token o r o1 :
  accept_store_invite u token o = (Ok r, o1) ->
  exists i a, td_invites (of_db o1) !! token = Some i /\ iv_accepted_at i = Some a.
Proof.
  unfold accept_store_invite, st_bind, fails_500, st_map_err, tdb. intros Hr.
  destruct (calls (of_ticks o)); [|done..].
  unfold redeem_invite in Hr. destruct (td_invites (of_db o) !! token) as [i|]; [|done].
  destruct (redeemable _ i); [|done]. cbn [negb] in Hr. destruct (member_of _ _ _); [done|].
  destruct (insert_user_store _ _ _ _) as [d'|] eqn:Hi; [|done]. apply insert_user_store_ok in Hi as (-> & _).
  cbn in Hr. destruct (calls _); [|done..]. cbn in Hr. destruct (td_roles (of_db o) !! iv_role_id i); [|done].
  injection Hr as _ <-. cbn. rewrite lookup_insert_eq. by do 2 eexists.
Qed.

Lemma accept_used u token o i a :
  td_invites (of_db o) !! token = Some i -> iv_accepted_at i = Some a ->
  (fst (accept_store_invite u token o) = Err 400 \/ fst (accept_store_invite u token o) = Err 500) /\
  of_db (snd (accept_store_invite u token o)) = of_db o.
Proof.
  intros Ht Ha. unfold accept_store_invite, st_bind, fails_500, st_map_err, tdb, redeem_invite, redeemable.
  rewrite Ht, Ha. destruct (calls (of_ticks o)); cbn; auto.
Qed.

(** An invite admits once.  After a redemption was answered, through any
    further requests, nobody can redeem that invite again: the attempt is
    refused, and changes nothing. *)
Theorem invite_redeemed_once u token o r o1 o2 u' :
  team_inv (of_db o) -> accept_store_invite u token o = (Ok r, o1) -> rtc team_step o1 o2 ->
  (fst (accept_store_invite u' token o2) = Err 400 \/ fst (accept_store_invite u' token o2) = Err 500) /\
  of_db (snd (accept_store_invite u' token o2)) = of_db o2.
Proof.
  intros Hi Ha Hr. destruct (accept_ok _ _ _ _ _ Ha) as (i & a & Ht & Hacc).
  assert (Hi1 : team_inv (of_db o1)).
  { apply (run_inv o); [done|]. apply rtc_once. exists (AcceptInvite u token). cbn. unfold drop_answer, st_bind. by rewrite Ha. }
  eapply accept_used; [|done]. by eapply accepted_runs.
Qed.

(** ** Stores of others *)

(** The caller and the store of a request that names a store. *)
Definition about (q : TeamRequest) : option (Uuid * Uuid) :=
  match q with
  | GetStore u s | DeleteStore u s | UnarchiveStore u s => Some (ui_id u, s)
  | UpdateStore c s _ _ | ListMembers c s | AddMember c s _ _ | UpdateMember c s _ _ | RemoveMember c s _
  | CreateInvite c s _ _ => Some (ui_id (ssu_user c), s)
  | _ => None
  end.

(** Neither a member nor the owner. *)
Definition stranger (u s : Uuid) (d : TeamDb) : Prop :=
  td_user_stores d !! (u, s) = None /\ forall st, td_stores d !! s = Some st -> str_owner_id st <> u.

(** The same office without the row of the store. *)
Definition forget (s : Uuid) (o : TeamOffice) : TeamOffice :=
  mkOffice (td_set_stores (delete s (td_stores (of_db o))) (of_db o)) (of_ticks o) (of_draws o) (of_mail o).

(** What the check of a permission answers to a stranger. *)
Lemma refused_permission {A} c s p (k : unit -> St TeamOffice Z A) o :
  td_user_stores (of_db o) !! (ui_id (ssu_user c), s) = None ->
  st_bind (require_permission c s p) k o =
  (Err (match calls (of_ticks o) with Answered => 403 | _ => 500 end), of_tick o).
Proof.
  intros Hm. unfold require_permission, st_bind, fails_500, st_map_err, tdb, store_permission, tselect, has_permission.
  rewrite Hm. by destruct (calls (of_ticks o)).
Qed.

(** What the routes that look at the store itself answer to a stranger. *)
Lemma refused_caller {A} u s (b : bool) (k : Store -> St TeamOffice Z A) o :
  stranger u s (of_db o) ->
  let answer := match calls (of_ticks o), calls (S (of_ticks o)) with Answered, Answered => 404 | _, _ => 500 end in
  let m := st_bind (fails_500 (tdb (store_get s))) (fun store => st_bind (is_store_member u s) (fun m =>
             st_bind (st_lift (store_for_caller store u m b)) k)) in
  fst (m o) = Err answer /\ of_db (snd (m o)) = of_db o.
Proof.
  intros [Hm Ho]. unfold is_store_member, st_bind, fails_500, st_map_err, tdb, store_get, user_store_get, tselect, st_lift, st_ret.
  destruct (calls (of_ticks o)); cbn; [|done..]. destruct (calls _); cbn; [|done..]. rewrite Hm. cbn.
  unfold store_for_caller. destruct (td_stores (of_db o) !! s) as [st|] eqn:Hs; [|done].
  destruct (Z.eqb_spec (str_owner_id st) u) as [He|]; [|done]. by destruct (Ho st).
Qed.

Lemma bind_assoc {A B C} (m : St TeamOffice Z A) (f : A -> St TeamOffice Z B) (g : B -> St TeamOffice Z C) o :
  st_bind (st_bind m f) g o = st_bind m (fun a => st_bind (f a) g) o.
Proof. unfold st_bind. by destruct (m o) as [[]]. Qed.

Lemma bind_ext {A B} (m : St TeamOffice Z A) (f g : A -> St TeamOffice Z B) o :
  (forall a o, f a o = g a o) -> st_bind m f o = st_bind m g o.
Proof. intros Hfg. unfold st_bind. by destruct (m o) as [[]]. Qed.

(** Any handler that starts by looking at the store this way. *)
Lemma refused_handler {A} u s (b : bool) (m : St TeamOffice Z A) (k : Store -> St TeamOffice Z A) o :
  (forall o, m o = st_bind (fails_500 (tdb (store_get s))) (fun store => st_bind (is_store_member u s) (fun m =>
               st_bind (st_lift (store_for_caller store u m b)) k)) o) ->
  stranger u s (of_db o) -> stranger u s (of_db (forget s o)) ->
  exists e, fst (m o) = Err e /\ fst (m (forget s o)) = Err e /\ of_db (snd (m o)) = of_db o.
Proof.
  intros Hm Hs Hf. rewrite !Hm. destruct (refused_caller u s b k o Hs) as [He Hd].
  destruct (refused_caller u s b k (forget s o) Hf) as [He' _]. eexists. split; [exact He|]. by split.
Qed.

(** C27. On the routes that read, change, archive or delete a store, its members
    and its invites, strangers cannot tell the stores of others from stores that
    do not exist.  Whatever such request a caller who is neither member nor owner
    makes, whatever is lost, the answer is an error, the same that a server
    without that store gives, and nothing changes. *)
Theorem strangers_cannot_probe_stores q u s o :
  about q = Some (u, s) -> stranger u s (of_db o) ->
  exists e, fst (handle_request q o) = Err e /\ fst (handle_request q (forget s o)) = Err e /\
    of_db (snd (handle_request q o)) = of_db o.
Proof.
  intros Hq Hs.
  assert (Hf : stranger u s (of_db (forget s o))).
  { destruct Hs as [Hm _]. split; [done|]. cbn. intros st. rewrite lookup_delete_eq. intros; discriminate. }
  destruct q; cbn in Hq; try discriminate; injection Hq as <- <-; cbn [handle_request]; unfold drop_answer;
    try (unfold update_store, list_store_members, add_store_member, update_store_member, remove_store_member,
      create_store_invite; rewrite ?bind_assoc, !refused_permission by apply Hf || apply Hs; by eexists).
  - apply (refused_handler (ui_id user) _ false _ (fun _ => st_ret tt)); [|done..]. intros o'. unfold get_store.
    rewrite bind_assoc. apply bind_ext. intros store o1. by rewrite bind_assoc.
  - by eapply (refused_handler (ui_id user) _ true).
  - eapply (refused_handler (ui_id user) _ true); [|done..]. intros o'. unfold unarchive_store.
    rewrite bind_assoc. apply bind_ext. intros store o1. rewrite bind_assoc. apply bind_ext. intros m o2.
    rewrite bind_assoc. reflexivity.
Qed.
End Members.
