(* ===== verification/StoreSettings.v ===== *)
(** * Store settings, webhooks, settlement tolerance and token policies

    [server/src/api/stores/settings.rs], [webhooks.rs], [settlement_tolerance.rs]
    and [token_policy.rs], the permission check they share in [mod.rs], and their
    statements in [data-service/src/postgres/]: what a store may be configured
    to, which the settlement, the receipts, the webhooks and the quotes rely
    on. *)

From stdpp Require Import gmap strings list.
From Stdlib Require Import ZArith Lia Ascii.
From S2P Require Import Prelude Events Network Decimal LiveWatch Database Services ApiKeys Consumer Idempotency Wallets.
From S2P Require Import ApiAuth Office Teams.

#[local] Open Scope Z_scope.

(** ** Tables *)

(** [StoreSettings], a row of [store_settings] *)
Record StoreSettings := mkStoreSettings {
  st_default_chain_id : option string;
  st_default_display_currency : option string;
  st_logo_url : option string;
  st_accent_color : option string;
  st_notification_prefs : Json;
  st_updated_at : Instant
}.

(** A row of [store_webhooks] *)
Record WebhookRow := mkWebhookRow {
  wr_id : Uuid;
  wr_url : string;
  wr_secret : string;
  wr_enabled : bool;
  wr_created_at : Instant;
  wr_updated_at : Instant
}.

(** [TokenPolicyEntryInput] *)
Record TokenPolicyEntry := mkTokenPolicyEntry {
  te_chain_id : string;
  te_token_address : option string;
  te_asset_symbol : string
}.

(** A row of [store_token_policies] with its entries *)
Record PolicyRow := mkPolicyRow {
  pr_id : Uuid;
  pr_mode : TokenPolicyMode;
  pr_entries : list TokenPolicyEntry;
  pr_created_at : Instant;
  pr_updated_at : Instant
}.

(** [sg_tolerances]: [NUMERIC(78,18)], in units of 10^-18 *)
Record SettingsDb := mkSettingsDb {
  sg_team : TeamDb;
  sg_settings : gmap Z StoreSettings;
  sg_webhooks : gmap Z WebhookRow;
  sg_tolerances : gmap Z Z;
  sg_policies : gmap Z PolicyRow
}.

Definition sg_set_settings (x : gmap Z StoreSettings) (d : SettingsDb) : SettingsDb :=
  mkSettingsDb (sg_team d) x (sg_webhooks d) (sg_tolerances d) (sg_policies d).
Definition sg_set_webhooks (x : gmap Z WebhookRow) (d : SettingsDb) : SettingsDb :=
  mkSettingsDb (sg_team d) (sg_settings d) x (sg_tolerances d) (sg_policies d).
Definition sg_set_tolerances (x : gmap Z Z) (d : SettingsDb) : SettingsDb :=
  mkSettingsDb (sg_team d) (sg_settings d) (sg_webhooks d) x (sg_policies d).
Definition sg_set_policies (x : gmap Z PolicyRow) (d : SettingsDb) : SettingsDb :=
  mkSettingsDb (sg_team d) (sg_settings d) (sg_webhooks d) (sg_tolerances d) x.

Abbreviation Desk := (Office SettingsDb).
Abbreviation DeskStatement := (TStatement SettingsDb).

(** [TokenPolicyMode::from_str], of another crate *)
Class PolicyModes := { parse_policy_mode : string -> option TokenPolicyMode }.

(** ** Validation *)

Definition VALID_NOTIFICATION_EVENTS : list string :=
  ["payment_detected"; "payment_confirmed"; "payment_reorged"; "invoice_expired"; "invoice_cancelled"; "late_paid"]%string.
Definition VALID_NOTIFICATION_SWITCHES : list string := ["customer_receipts_enabled"]%string.

Definition json_is_object (v : Json) : bool := match v with JObject _ => true | _ => false end.
Definition json_is_null (v : Json) : bool := match v with JNull => true | _ => false end.
Definition json_is_boolean (v : Json) : bool := match v with JBool _ => true | _ => false end.

(** What may be stored or sent under a key. *)
Definition pref_ok (key : string) (value : Json) : bool :=
  if contains VALID_NOTIFICATION_EVENTS key then json_is_object value || json_is_null value
  else if contains VALID_NOTIFICATION_SWITCHES key then json_is_boolean value || json_is_null value
  else false.

(** [validate_notification_prefs] *)
Definition validate_notification_prefs (prefs : Json) : result Z unit :=
  match prefs with
  | JObject obj => if forallb (fun kv => pref_ok kv.1 kv.2) obj then Ok tt else Err 400
  | _ => Err 400
  end.

(** [Map::insert] and [Map::remove] *)
Fixpoint map_insert (key : string) (value : Json) (obj : list (string * Json)) : list (string * Json) :=
  match obj with
  | [] => [(key, value)]
  | (k, v) :: rest => if String.eqb k key then (key, value) :: rest else (k, v) :: map_insert key value rest
  end.
Definition map_remove (key : string) (obj : list (string * Json)) : list (string * Json) :=
  List.filter (fun kv => negb (String.eqb kv.1 key)) obj.

(** [merge_notification_prefs] *)
Definition merge_notification_prefs (stored patch : Json) : Json :=
  let out := match stored with JObject obj => obj | _ => [] end in
  JObject (match patch with
           | JObject patch =>
               fold_left (fun out kv => if json_is_null kv.2 then map_remove kv.1 out else map_insert kv.1 kv.2 out) patch out
           | _ => out
           end).

Definition is_ascii_uppercase (a : ascii) : bool := let n := nat_of_ascii a in ((65 <=? n) && (n <=? 90))%nat.
Definition is_ascii_hexdigit (a : ascii) : bool :=
  let n := nat_of_ascii a in
  (((48 <=? n) && (n <=? 57)) || ((65 <=? n) && (n <=? 70)) || ((97 <=? n) && (n <=? 102)))%nat.

(** [currency.len() == 3] and all upper case *)
Definition currency_ok (currency : string) : bool :=
  (String.length currency =? 3)%nat && str_forall is_ascii_uppercase currency.
Definition logo_ok (url : string) : bool := String.prefix "https://" url.
(** [#RRGGBB] *)
Definition color_ok (color : string) : bool :=
  (String.length color =? 7)%nat && String.prefix "#" color
  && match color with String _ rest => str_forall is_ascii_hexdigit rest | EmptyString => false end.
(** A test of prefixes: https, or any text that starts with http://localhost, be
    it the host localhost or http://localhost.example. *)
Definition webhook_url_ok (url : string) : bool :=
  String.prefix "https://" url || String.prefix "http://localhost" url.
(** The loop over the entries of a policy. *)
Definition entry_ok (e : TokenPolicyEntry) : bool :=
  negb (String.eqb (te_asset_symbol e) "") && (String.length (te_asset_symbol e) <=? 32)%nat
  && match te_token_address e with
     | Some addr => (String.length addr =? 42)%nat && String.prefix "0x" addr
     | None => true
     end.

(** ** Statements *)

Section Statements.
Context `{Numeric}.

(** [StoreSettingsReader::get_store_settings] *)
Definition settings_row (store_id : Uuid) : DeskStatement (option StoreSettings) :=
  tselect (fun d => sg_settings d !! store_id).

(** [StoreSettingsWriter::upsert_store_settings] *)
Definition upsert_store_settings (store_id : Uuid) (chain_id currency logo color : option string) (prefs : Json)
  : DeskStatement StoreSettings :=
  fun now d =>
    if present store_id (td_stores (sg_team d)) then
      let row := mkStoreSettings chain_id currency logo color prefs now in
      (Ok row, sg_set_settings (<[store_id := row]> (sg_settings d)) d)
    else (Err ConstraintViolation, d).

(** [StoreWebhookReader::get_webhook] *)
Definition get_webhook (store_id : Uuid) : DeskStatement (option WebhookRow) :=
  tselect (fun d => sg_webhooks d !! store_id).

(** [StoreWebhookWriter::upsert_webhook]; [id] is the id a new row gets. *)
Definition upsert_webhook (id store_id : Uuid) (url secret : string) (enabled : bool) : DeskStatement WebhookRow :=
  fun now d =>
    if present store_id (td_stores (sg_team d)) then
      let row := match sg_webhooks d !! store_id with
                 | Some w => mkWebhookRow (wr_id w) url secret enabled (wr_created_at w) now
                 | None => mkWebhookRow id url secret enabled now now
                 end in
      (Ok row, sg_set_webhooks (<[store_id := row]> (sg_webhooks d)) d)
    else (Err ConstraintViolation, d).

(** [StoreWebhookWriter::delete_webhook] *)
Definition delete_webhook (store_id : Uuid) : DeskStatement bool :=
  fun _ d => (Ok (bool_decide (is_Some (sg_webhooks d !! store_id))), sg_set_webhooks (delete store_id (sg_webhooks d)) d).

(** [SettlementToleranceReader::get_settlement_tolerance] *)
Definition tolerance_text (store_id : Uuid) : DeskStatement (option string) :=
  tselect (fun d => numeric18_out <$> sg_tolerances d !! store_id).

(** [SettlementToleranceWriter::set_settlement_tolerance], with the column's
    check *)
Definition store_tolerance (store_id : Uuid) (tolerance_percent : string) : DeskStatement unit :=
  fun _ d =>
    match numeric18_in tolerance_percent with
    | Some z =>
        if (0 <=? z) && (z <=? 10 ^ 17) && present store_id (td_stores (sg_team d))
        then (Ok tt, sg_set_tolerances (<[store_id := z]> (sg_tolerances d)) d)
        else (Err ConstraintViolation, d)
    | None => (Err ConstraintViolation, d)
    end.

(** [SettlementToleranceWriter::clear_settlement_tolerance] *)
Definition clear_settlement_tolerance (store_id : Uuid) : DeskStatement unit :=
  twrite (fun d => sg_set_tolerances (delete store_id (sg_tolerances d)) d).

(** The two queries of [StoreTokenPolicyReader::get_token_policy]: the header
    and the entries of the policy it names *)
Definition policy_header (store_id : Uuid) : DeskStatement (option PolicyRow) :=
  tselect (fun d => sg_policies d !! store_id).
Definition policy_entries (policy_id : Uuid) : DeskStatement (list TokenPolicyEntry) :=
  tselect (fun d => mjoin ((fun p => if pr_id p =? policy_id then pr_entries p else []) <$> (map_to_list (sg_policies d)).*2)).

(** [UNIQUE (policy_id, chain_id, token_address)]: two rows without a token
    address are distinct. *)
Definition same_token (a b : TokenPolicyEntry) : bool :=
  String.eqb (te_chain_id a) (te_chain_id b)
  && match te_token_address a, te_token_address b with Some x, Some y => String.eqb x y | _, _ => false end.

(** The inserts, one after the other. *)
Fixpoint insert_entries (done todo : list TokenPolicyEntry) : result DbError (list TokenPolicyEntry) :=
  match todo with
  | [] => Ok done
  | e :: rest => if existsb (same_token e) done then Err ConstraintViolation else insert_entries (done ++ [e]) rest
  end.

(** [StoreTokenPolicyWriter::upsert_token_policy], one transaction *)
Definition upsert_token_policy (id store_id : Uuid) (mode : TokenPolicyMode) (entries : list TokenPolicyEntry)
  : DeskStatement PolicyRow :=
  fun now d =>
    if present store_id (td_stores (sg_team d)) then
      match insert_entries [] entries with
      | Ok entries =>
          let row := match sg_policies d !! store_id with
                     | Some p => mkPolicyRow (pr_id p) mode entries (pr_created_at p) now
                     | None => mkPolicyRow id mode entries now now
                     end in
          (Ok row, sg_set_policies (<[store_id := row]> (sg_policies d)) d)
      | Err e => (Err e, d)
      end
    else (Err ConstraintViolation, d).

(** [StoreTokenPolicyWriter::delete_token_policy] *)
Definition drop_token_policy (store_id : Uuid) : DeskStatement unit :=
  twrite (fun d => sg_set_policies (delete store_id (sg_policies d)) d).
End Statements.

(** ** Requests *)

Section Routes.
Context {D : Type} `{BigDecimal D} `{Numeric} `{Runtime} `{PolicyNames} `{UuidText} `{Formats} `{PolicyModes}.

Abbreviation Reply A := (St Desk Z A).

(** [require_store_settings_permission] *)
Definition require_store_settings_permission (c : StoreScopedUser) (store_id : Uuid) : Reply unit :=
  if bool_decide (ui_role (ssu_user c) = ServerAdmin) then st_ret tt
  else
    let* has := fails_500 (tdb (tselect (fun d => has_permission (ui_id (ssu_user c)) store_id MODIFY_SETTINGS (sg_team d)))) in
    if has && key_grants_store_permission (ssu_key_scope c) MODIFY_SETTINGS store_id then st_ret tt else st_throw 403.

(** [let _ = get_store(..).ok_or(NOT_FOUND)?] *)
Definition require_store (store_id : Uuid) : Reply unit :=
  let* r := fails_500 (tdb (tselect (fun d => td_stores (sg_team d) !! store_id))) in
  do* ok_or 404 r;
  st_ret tt.

(** *** Settings *)

(** [get_store_settings]; without a row the empty settings, as of now *)
Definition get_settings (c : StoreScopedUser) (store_id : Uuid) : Reply StoreSettings :=
  do* require_store_settings_permission c store_id;
  do* require_store store_id;
  let* settings := fails_500 (tdb (settings_row store_id)) in
  match settings with
  | Some s => st_ret s
  | None => let* now := of_now in st_ret (mkStoreSettings None None None None (JObject []) now)
  end.

(** [UpdateStoreSettingsRequest] *)
Record UpdateStoreSettingsRequest := mkUpdateStoreSettingsRequest {
  us_default_chain_id : option string;
  us_default_display_currency : option string;
  us_logo_url : option string;
  us_accent_color : option string;
  us_notification_prefs : option Json
}.

Definition opt_ok {A} (p : A -> bool) (o : option A) : bool := match o with Some a => p a | None => true end.

Definition chain_ok (chain_id : string) : bool := option_is_some (c ← evm_chain_id chain_id; get_any_chain_config c).

(** [a.or(b)] *)
Definition opt_or {A} (a b : option A) : option A := match a with Some _ => a | None => b end.

(** The validation of [update_store_settings]. *)
Definition validate_update (req : UpdateStoreSettingsRequest) : result Z unit :=
  if negb (opt_ok chain_ok (us_default_chain_id req)) then Err 400
  else if negb (opt_ok currency_ok (us_default_display_currency req)) then Err 400
  else if negb (opt_ok logo_ok (us_logo_url req)) then Err 400
  else if negb (opt_ok color_ok (us_accent_color req)) then Err 400
  else match us_notification_prefs req with
       | Some prefs => validate_notification_prefs prefs
       | None => Ok tt
       end.

(** [update_store_settings] *)
Definition update_store_settings (c : StoreScopedUser) (store_id : Uuid) (req : UpdateStoreSettingsRequest)
  : Reply StoreSettings :=
  do* require_store_settings_permission c store_id;
  do* require_store store_id;
  do* st_lift (validate_update req);
  let* existing := fails_500 (tdb (settings_row store_id)) in
  fails_500 (tdb (
    match existing with
    | Some e =>
        upsert_store_settings store_id
          (opt_or (us_default_chain_id req) (st_default_chain_id e))
          (opt_or (us_default_display_currency req) (st_default_display_currency e))
          (opt_or (us_logo_url req) (st_logo_url e)) (opt_or (us_accent_color req) (st_accent_color e))
          (match us_notification_prefs req with
           | None => st_notification_prefs e
           | Some patch => merge_notification_prefs (st_notification_prefs e) patch
           end)
    | None =>
        upsert_store_settings store_id (us_default_chain_id req) (us_default_display_currency req) (us_logo_url req)
          (us_accent_color req)
          (match us_notification_prefs req with
           | None => JObject []
           | Some patch => merge_notification_prefs (JObject []) patch
           end)
    end)).

(** *** Webhook *)

(** [get_store_webhook]: without the secret *)
Definition get_store_webhook (c : StoreScopedUser) (store_id : Uuid) : Reply (WebhookRow * option string) :=
  do* require_store_settings_permission c store_id;
  let* r := fails_500 (tdb (get_webhook store_id)) in
  let* webhook := ok_or 404 r in
  st_ret (webhook, None).

(** [configure_store_webhook]: with the new secret *)
Definition configure_store_webhook (c : StoreScopedUser) (store_id : Uuid) (url : string) (enabled : bool)
  : Reply (WebhookRow * option string) :=
  do* require_store_settings_permission c store_id;
  if negb (webhook_url_ok url) then st_throw 400
  else
    do* require_store store_id;
    let* secret := of_fresh in
    let* id := of_fresh in
    let* webhook := fails_500 (tdb (upsert_webhook id store_id url (uuid_to_string secret) enabled)) in
    st_ret (webhook, Some (wr_secret webhook)).

(** [delete_store_webhook] *)
Definition delete_store_webhook (c : StoreScopedUser) (store_id : Uuid) : Reply unit :=
  do* require_store_settings_permission c store_id;
  let* deleted := fails_500 (tdb (delete_webhook store_id)) in
  if negb deleted then st_throw 404 else st_ret tt.

(** *** Settlement tolerance *)

(** [response]: the tolerance in force and where it comes from *)
Definition tolerance_response (own : option string) : string * string :=
  (default DEFAULT_TOLERANCE_PERCENT own, if option_is_some own then "store" else "default")%string.

(** [authorize] *)
Definition authorize (c : StoreScopedUser) (store_id : Uuid) : Reply unit :=
  do* require_store_settings_permission c store_id;
  require_store store_id.

(** [get_settlement_tolerance] *)
Definition get_tolerance (c : StoreScopedUser) (store_id : Uuid) : Reply (string * string) :=
  do* authorize c store_id;
  let* own := fails_500 (tdb (tolerance_text store_id)) in
  st_ret (tolerance_response own).

(** [set_settlement_tolerance] *)
Definition set_settlement_tolerance (c : StoreScopedUser) (store_id : Uuid) (tolerance_percent : string)
  : Reply (string * string) :=
  do* authorize c store_id;
  let* value := st_lift (match parse_tolerance_percent (D := D) tolerance_percent with
                         | Ok v => Ok (bd_to_string v)
                         | Err _ => Err 422
                         end) in
  do* fails_500 (tdb (store_tolerance store_id value));
  st_ret (tolerance_response (Some value)).

(** [delete_settlement_tolerance] *)
Definition delete_settlement_tolerance (c : StoreScopedUser) (store_id : Uuid) : Reply unit :=
  do* authorize c store_id;
  fails_500 (tdb (clear_settlement_tolerance store_id)).

(** *** Token policy *)

(** [get_token_policy] *)
Definition get_policy (c : StoreScopedUser) (store_id : Uuid) : Reply (option PolicyRow) :=
  do* require_store_settings_permission c store_id;
  do* require_store store_id;
  let* header := fails_500 (tdb (policy_header store_id)) in
  match header with
  | None => st_ret None
  | Some p =>
      let* entries := fails_500 (tdb (policy_entries (pr_id p))) in
      st_ret (Some (mkPolicyRow (pr_id p) (pr_mode p) entries (pr_created_at p) (pr_updated_at p)))
  end.

(** [set_token_policy] *)
Definition set_token_policy (c : StoreScopedUser) (store_id : Uuid) (mode : string) (entries : list TokenPolicyEntry)
  : Reply PolicyRow :=
  do* require_store_settings_permission c store_id;
  do* require_store store_id;
  let* mode := ok_or 400 (parse_policy_mode mode) in
  if negb (forallb entry_ok entries) then st_throw 400
  else
    let* id := of_fresh in
    fails_500 (tdb (upsert_token_policy id store_id mode entries)).

(** [delete_token_policy] *)
Definition delete_token_policy (c : StoreScopedUser) (store_id : Uuid) : Reply unit :=
  do* require_store_settings_permission c store_id;
  do* require_store store_id;
  fails_500 (tdb (drop_token_policy store_id)).
End Routes.
