(* ===== verification/SettingsFacts.v ===== *)
(** * What a store can be configured to

    Every stored setting is one the validation accepts, whoever configures the
    store and whatever is lost on the way; a partial update leaves what it does
    not name; and only callers with authority over the store change it. *)

From stdpp Require Import gmap strings list relations.
From Stdlib Require Import ZArith QArith Lia Ascii Lqa.
From S2P Require Import Prelude Events Network Decimal LiveWatch Database Services ApiKeys Consumer Idempotency Wallets ApiAuth Office Teams.
From S2P Require Import StoreSettings.

#[local] Open Scope Z_scope.

(** ** Merging preferences *)

Lemma assoc_insert k key v obj :
  assoc k (map_insert key v obj) = if String.eqb key k then Some v else assoc k obj.
Proof.
  induction obj as [|[k' v'] obj IH]; cbn; [done|].
  destruct (String.eqb_spec k' key) as [->|Hne]; cbn; [by destruct (String.eqb key k)|].
  rewrite IH. destruct (String.eqb_spec k' k) as [->|]; [|done]. by destruct (String.eqb_spec key k) as [->|].
Qed.

Lemma assoc_remove k key obj :
  assoc k (map_remove key obj) = if String.eqb key k then None else assoc k obj.
Proof.
  unfold map_remove. induction obj as [|[k' v'] obj IH]; cbn; [by destruct (String.eqb key k)|].
  destruct (String.eqb_spec k' key) as [->|Hne]; cbn; rewrite IH; [by destruct (String.eqb key k)|].
  destruct (String.eqb_spec k' k) as [->|]; [|done]. by destruct (String.eqb_spec key k) as [->|].
Qed.

(** One step of the merge. *)
Definition merge_step (out : list (string * Json)) (kv : string * Json) : list (string * Json) :=
  if json_is_null kv.2 then map_remove kv.1 out else map_insert kv.1 kv.2 out.

Lemma assoc_notin k obj : k ∉ obj.*1 -> assoc k obj = None.
Proof.
  induction obj as [|[k' v'] obj IH]; [done|]. cbn. intros [Hne Hin]%not_elem_of_cons.
  destruct (String.eqb_spec k' k); [by subst|auto].
Qed.

(** What a preference becomes when a patch is merged over it. *)
Definition patched_pref (k : string) (patch : list (string * Json)) (old : option Json) : option Json :=
  match assoc k patch with
  | Some v => if json_is_null v then None else Some v
  | None => old
  end.

Lemma merge_assoc k patch : NoDup patch.*1 -> forall out,
  assoc k (fold_left merge_step patch out) = patched_pref k patch (assoc k out).
Proof.
  unfold patched_pref. induction patch as [|[k' v'] patch IH]; intros Hnd out; [done|].
  cbn in Hnd |- *. apply NoDup_cons in Hnd as [Hin Hnd]. rewrite (IH Hnd). unfold merge_step. cbn.
  destruct (String.eqb_spec k' k) as [->|Hne].
  - rewrite (assoc_notin _ _ Hin). destruct (json_is_null v'); rewrite ?assoc_remove, ?assoc_insert, String.eqb_refl; done.
  - destruct (assoc k patch); [done|]. destruct (json_is_null v'); rewrite ?assoc_remove, ?assoc_insert;
      by destruct (String.eqb_spec k' k).
Qed.

(** A preferences object: distinct known keys, with values of their kinds. *)
Definition prefs_typed (obj : list (string * Json)) : Prop :=
  NoDup obj.*1 /\ Forall (fun kv => pref_ok kv.1 kv.2 = true /\ json_is_null kv.2 = false) obj.

Lemma insert_keys key v obj x : x ∈ (map_insert key v obj).*1 -> x = key \/ x ∈ obj.*1.
Proof.
  induction obj as [|[k' v'] obj IH]; cbn; [rewrite elem_of_cons, elem_of_nil; naive_solver|].
  destruct (String.eqb_spec k' key) as [->|]; cbn; rewrite !elem_of_cons; [naive_solver|]. naive_solver.
Qed.

Lemma insert_typed key v obj : pref_ok key v = true -> json_is_null v = false -> prefs_typed obj ->
  prefs_typed (map_insert key v obj).
Proof.
  intros Hp Hn [Hnd Hf]. induction obj as [|[k' v'] obj IH]; cbn.
  { split; [by apply NoDup_singleton | by repeat constructor]. }
  cbn in Hnd. apply NoDup_cons in Hnd as [Hin Hnd]. apply Forall_cons in Hf as [Hh Hf].
  destruct (String.eqb_spec k' key) as [->|Hne]; [split; [by constructor | by constructor]|].
  destruct (IH Hnd Hf) as [Hnd' Hf']. split; [|by constructor]. cbn. constructor; [|done].
  intros [->|?]%insert_keys; done.
Qed.

Lemma remove_typed key obj : prefs_typed obj -> prefs_typed (map_remove key obj).
Proof.
  unfold map_remove. intros [Hnd Hf]. induction obj as [|[k' v'] obj IH]; cbn; [done|].
  cbn in Hnd. apply NoDup_cons in Hnd as [Hin Hnd]. apply Forall_cons in Hf as [Hh Hf].
  destruct (IH Hnd Hf) as [Hnd' Hf']. destruct (String.eqb k' key); cbn; [done|]. split; [|by constructor].
  cbn. constructor; [|done]. intros Hx. apply Hin. apply list_elem_of_fmap in Hx as ([k v] & -> & Hx).
  apply list_elem_of_In, filter_In in Hx as [Hx _]. apply list_elem_of_fmap. exists (k, v). by split; [|apply list_elem_of_In].
Qed.

Lemma merge_typed patch : forallb (fun kv => pref_ok kv.1 kv.2) patch = true -> forall out,
  prefs_typed out -> prefs_typed (fold_left merge_step patch out).
Proof.
  induction patch as [|[k v] patch IH]; cbn; [done|]. intros [Hv Hp]%andb_prop out Ho. apply IH; [done|].
  unfold merge_step. cbn. destruct (json_is_null v) eqn:Hn; [by apply remove_typed | by apply insert_typed].
Qed.

(** ** What requests do *)

Section Facts.
Context {D : Type} `{BigDecimal D} `{Numeric} `{Runtime} `{PolicyNames} `{UuidText} `{Formats} `{PolicyModes}.

Inductive SettingsRequest :=
| GetSettings (c : StoreScopedUser) (s : Uuid)
| UpdateSettings (c : StoreScopedUser) (s : Uuid) (req : UpdateStoreSettingsRequest)
| GetWebhook (c : StoreScopedUser) (s : Uuid)
| ConfigureWebhook (c : StoreScopedUser) (s : Uuid) (url : string) (enabled : bool)
| DeleteWebhook (c : StoreScopedUser) (s : Uuid)
| GetTolerance (c : StoreScopedUser) (s : Uuid)
| SetTolerance (c : StoreScopedUser) (s : Uuid) (percent : string)
| DeleteTolerance (c : StoreScopedUser) (s : Uuid)
| GetPolicy (c : StoreScopedUser) (s : Uuid)
| SetPolicy (c : StoreScopedUser) (s : Uuid) (mode : string) (entries : list TokenPolicyEntry)
| DeletePolicy (c : StoreScopedUser) (s : Uuid).

Definition configures (q : SettingsRequest) : StoreScopedUser * Uuid :=
  match q with
  | GetSettings c s | UpdateSettings c s _ | GetWebhook c s | ConfigureWebhook c s _ _ | DeleteWebhook c s
  | GetTolerance c s | SetTolerance c s _ | DeleteTolerance c s | GetPolicy c s | SetPolicy c s _ _ | DeletePolicy c s => (c, s)
  end.

Definition forget_answer {A} (m : St Desk Z A) : St Desk Z unit := st_bind m (fun _ => st_ret tt).

Definition handle_settings (q : SettingsRequest) : St Desk Z unit :=
  match q with
  | GetSettings c s => forget_answer (get_settings c s)
  | UpdateSettings c s req => forget_answer (update_store_settings c s req)
  | GetWebhook c s => forget_answer (get_store_webhook c s)
  | ConfigureWebhook c s url en => forget_answer (configure_store_webhook c s url en)
  | DeleteWebhook c s => delete_store_webhook c s
  | GetTolerance c s => forget_answer (get_tolerance c s)
  | SetTolerance c s p => forget_answer (set_settlement_tolerance (D := D) c s p)
  | DeleteTolerance c s => delete_settlement_tolerance c s
  | GetPolicy c s => forget_answer (get_policy c s)
  | SetPolicy c s m es => forget_answer (set_token_policy c s m es)
  | DeletePolicy c s => delete_token_policy c s
  end.

(** The caller is an administrator, or a member whose role and key both grant
    changing the settings of this store. *)
Definition authorised (c : StoreScopedUser) (s : Uuid) (d : SettingsDb) : Prop :=
  ui_role (ssu_user c) = ServerAdmin \/
  (has_permission (ui_id (ssu_user c)) s MODIFY_SETTINGS (sg_team d) = true /\
   key_grants_store_permission (ssu_key_scope c) MODIFY_SETTINGS s = true).

(** The row an update leaves. *)
Definition patched_settings (e : option StoreSettings) (req : UpdateStoreSettingsRequest) (now : Instant) : StoreSettings :=
  mkStoreSettings (opt_or (us_default_chain_id req) (e ≫= st_default_chain_id))
    (opt_or (us_default_display_currency req) (e ≫= st_default_display_currency))
    (opt_or (us_logo_url req) (e ≫= st_logo_url)) (opt_or (us_accent_color req) (e ≫= st_accent_color))
    (let stored := from_option st_notification_prefs (JObject []) e in
     match us_notification_prefs req with Some patch => merge_notification_prefs stored patch | None => stored end) now.

Lemma opt_or_none {A} (a : option A) : opt_or a None = a.
Proof. by destruct a. Qed.

(** What one request can do to the tables [d]. *)
Inductive edit (d : SettingsDb) : SettingsRequest -> SettingsDb -> Prop :=
| ed_none q : edit d q d
| ed_settings c s req now : validate_update req = Ok tt ->
    edit d (UpdateSettings c s req)
      (sg_set_settings (<[s := patched_settings (sg_settings d !! s) req now]> (sg_settings d)) d)
| ed_webhook c s url en w : wr_url w = url -> webhook_url_ok url = true ->
    edit d (ConfigureWebhook c s url en) (sg_set_webhooks (<[s := w]> (sg_webhooks d)) d)
| ed_unwebhook c s : edit d (DeleteWebhook c s) (sg_set_webhooks (delete s (sg_webhooks d)) d)
| ed_tolerance c s raw z : is_ok (parse_tolerance_percent (D := D) raw) = true -> 0 <= z <= 10 ^ 17 ->
    edit d (SetTolerance c s raw) (sg_set_tolerances (<[s := z]> (sg_tolerances d)) d)
| ed_untolerance c s : edit d (DeleteTolerance c s) (sg_set_tolerances (delete s (sg_tolerances d)) d)
| ed_policy c s mode es p : forallb entry_ok es = true -> insert_entries [] es = Ok (pr_entries p) ->
    edit d (SetPolicy c s mode es) (sg_set_policies (<[s := p]> (sg_policies d)) d)
| ed_unpolicy c s : edit d (DeletePolicy c s) (sg_set_policies (delete s (sg_policies d)) d).

Lemma runs_authority c s d (Q : result Z unit -> _) :
  (authorised c s d -> Q (Ok tt) d) -> (forall e, Q (Err e) d) -> runs (require_store_settings_permission c s) d Q.
Proof.
  intros Hok He. unfold require_store_settings_permission. case_bool_decide as Hr.
  { apply runs_ret, Hok. by left. }
  apply runs_bind, runs_map_err, runs_select; [|apply He]. cbn beta iota.
  destruct (has_permission _ _ _ _) eqn:Hp, (key_grants_store_permission _ _ _) eqn:Hk; cbn;
    first [by apply runs_ret, Hok; right | apply runs_throw, He].
Qed.

Lemma runs_require_store s d (Q : result Z unit -> _) :
  (forall st, td_stores (sg_team d) !! s = Some st -> Q (Ok tt) d) -> (forall e, Q (Err e) d) -> runs (require_store s) d Q.
Proof.
  intros Hok He. unfold require_store. apply runs_bind, runs_map_err, runs_select; [|apply He]. cbn beta iota.
  apply runs_bind, runs_ok_or; [|intros _; apply He]. intros st Hst. by eapply runs_ret, Hok.
Qed.

Ltac settings_step :=
  first
  [ match goal with
    | |- runs (require_store_settings_permission _ _) _ _ => apply runs_authority; intros
    | |- runs (require_store _) _ _ => apply runs_require_store; intros
    | |- runs (tdb (settings_row _)) _ _ => apply runs_select
    | |- runs (tdb (get_webhook _)) _ _ => apply runs_select
    | |- runs (tdb (tolerance_text _)) _ _ => apply runs_select
    | |- runs (tdb (policy_header _)) _ _ => apply runs_select
    | |- runs (tdb (policy_entries _)) _ _ => apply runs_select
    | |- runs (match ?x with Some _ => _ | None => _ end) _ _ => destruct x eqn:?
    end; cbn beta iota
  | office_step ].

Lemma upsert_settings_edit c s req e now d :
  validate_update req = Ok tt -> e = sg_settings d !! s ->
  edit d (UpdateSettings c s req) (snd (
    match e with
    | Some e =>
        upsert_store_settings s
          (opt_or (us_default_chain_id req) (st_default_chain_id e))
          (opt_or (us_default_display_currency req) (st_default_display_currency e))
          (opt_or (us_logo_url req) (st_logo_url e)) (opt_or (us_accent_color req) (st_accent_color e))
          (match us_notification_prefs req with
           | None => st_notification_prefs e
           | Some patch => merge_notification_prefs (st_notification_prefs e) patch
           end)
    | None =>
        upsert_store_settings s (us_default_chain_id req) (us_default_display_currency req) (us_logo_url req)
          (us_accent_color req)
          (match us_notification_prefs req with
           | None => JObject []
           | Some patch => merge_notification_prefs (JObject []) patch
           end)
    end now d)).
Proof.
  intros Hv ->. pose proof (ed_settings d c s req now Hv) as He. unfold patched_settings in He.
  destruct (sg_settings d !! s) as [r|] eqn:Hs; unfold upsert_store_settings; destruct (present _ _); try apply ed_none;
    cbn in He |- *; rewrite ?opt_or_none in He; exact He.
Qed.

Lemma upsert_webhook_edit c s url en id secret now d :
  webhook_url_ok url = true -> edit d (ConfigureWebhook c s url en) (snd (upsert_webhook id s url secret en now d)).
Proof.
  intros Hu. unfold upsert_webhook. destruct (present _ _); [|apply ed_none]. cbn. apply ed_webhook; [|done].
  by destruct (sg_webhooks d !! s).
Qed.

Lemma store_tolerance_edit c s raw v now d :
  is_ok (parse_tolerance_percent (D := D) raw) = true -> edit d (SetTolerance c s raw) (snd (store_tolerance s v now d)).
Proof.
  intros Hp. unfold store_tolerance. destruct (numeric18_in v) as [z|]; [|apply ed_none].
  destruct (_ && _) eqn:Hc; [|apply ed_none]. apply andb_prop in Hc as [[Hlo Hhi]%andb_prop _]. apply ed_tolerance; [done|]. lia.
Qed.

Lemma upsert_policy_edit c s id mode m es now d :
  forallb entry_ok es = true -> edit d (SetPolicy c s mode es) (snd (upsert_token_policy id s m es now d)).
Proof.
  intros Hok. unfold upsert_token_policy. destruct (present _ _); [|apply ed_none].
  destruct (insert_entries [] es) as [es'|] eqn:Hi; [|apply ed_none]. cbn. apply ed_policy; [done|].
  by destruct (sg_policies d !! s).
Qed.

(** A request edits the tables this way, and only with authority. *)
Definition edits (q : SettingsRequest) (d d' : SettingsDb) : Prop :=
  edit d q d' /\ (d' = d \/ authorised (configures q).1 (configures q).2 d).

Lemma edits_none q d : edits q d d.
Proof. split; [apply ed_none | by left]. Qed.

Ltac settings_write :=
  match goal with
  | |- runs (tdb _) ?d ?Q =>
      match Q with context [edits ?q d _] => apply (runs_write _ _ (edits q d)) end;
      [apply edits_none | intros ?; split; [|by right] | intros [[]|?] ? ?; cbn beta iota; repeat settings_step; done]
  end.

Lemma settings_edits q d : runs (handle_settings q) d (fun _ d' => edits q d d').
Proof.
  destruct q; cbn [handle_settings]; unfold forget_answer, get_settings, update_store_settings, get_store_webhook,
    configure_store_webhook, delete_store_webhook, get_tolerance, set_settlement_tolerance, delete_settlement_tolerance,
    authorize, get_policy, set_token_policy, delete_token_policy; repeat settings_step; try apply edits_none.
  - destruct (validate_update req) as [[]|e] eqn:Hv; [|apply edits_none]. repeat settings_step; try apply edits_none.
    settings_write. by apply upsert_settings_edit.
  - settings_write. apply upsert_webhook_edit. by apply negb_false_iff.
  - settings_write. apply ed_unwebhook.
  - destruct (parse_tolerance_percent percent) as [v|e] eqn:Hp; [|apply edits_none]. repeat settings_step.
    settings_write. apply store_tolerance_edit. by rewrite Hp.
  - settings_write. apply ed_untolerance.
  - settings_write. apply upsert_policy_edit. by apply negb_false_iff.
  - settings_write. apply ed_unpolicy.
Qed.
End Facts.

(** * Stored settings are well typed

    The invariant of the configuration tables, what a partial update changes,
    and who may change anything. *)

Section Typed.
Context {D : Type} `{NumericLaws D} `{Runtime} `{PolicyNames} `{UuidText} `{Formats} `{PolicyModes}.

(** ** The types *)

Definition settings_row_typed (r : StoreSettings) : Prop :=
  opt_ok chain_ok (st_default_chain_id r) = true /\
  opt_ok currency_ok (st_default_display_currency r) = true /\
  opt_ok logo_ok (st_logo_url r) = true /\
  opt_ok color_ok (st_accent_color r) = true /\
  exists obj, st_notification_prefs r = JObject obj /\ prefs_typed obj.

Definition policy_typed (p : PolicyRow) : Prop :=
  Forall (fun e => entry_ok e = true) (pr_entries p) /\
  forall i j a b, pr_entries p !! i = Some a -> pr_entries p !! j = Some b -> (i < j)%nat -> same_token b a = false.

Record settings_typed (d : SettingsDb) : Prop := {
  ty_settings s r : sg_settings d !! s = Some r -> settings_row_typed r;
  ty_webhooks s w : sg_webhooks d !! s = Some w -> webhook_url_ok (wr_url w) = true;
  ty_tolerances s z : sg_tolerances d !! s = Some z -> 0 <= z <= 10 ^ 17;
  ty_policies s p : sg_policies d !! s = Some p -> policy_typed p
}.

Lemma opt_or_ok {A} (p : A -> bool) a b : opt_ok p a = true -> opt_ok p b = true -> opt_ok p (opt_or a b) = true.
Proof. by destruct a. Qed.

Lemma validate_update_ok req : validate_update req = Ok tt ->
  opt_ok chain_ok (us_default_chain_id req) = true /\ opt_ok currency_ok (us_default_display_currency req) = true /\
  opt_ok logo_ok (us_logo_url req) = true /\ opt_ok color_ok (us_accent_color req) = true /\
  forall patch, us_notification_prefs req = Some patch ->
    exists obj, patch = JObject obj /\ forallb (fun kv => pref_ok kv.1 kv.2) obj = true.
Proof.
  unfold validate_update. repeat (destruct (opt_ok _ _); cbn [negb]; [|done]). intros Hv. split_and!; try done.
  intros patch Hp. rewrite Hp in Hv. destruct patch as [| | |obj|]; try done. cbn in Hv. exists obj. by destruct (forallb _ _).
Qed.

Lemma patched_typed e req now :
  (forall r, e = Some r -> settings_row_typed r) -> validate_update req = Ok tt ->
  settings_row_typed (patched_settings e req now).
Proof.
  intros He (Hc & Hd & Hl & Ha & Hp)%validate_update_ok.
  assert (Hbase : exists obj, from_option st_notification_prefs (JObject []) e = JObject obj /\ prefs_typed obj).
  { destruct e as [r|]; [by apply He|]. exists []. split; [done|]. split; constructor. }
  destruct Hbase as (obj & Hobj & Hty). unfold patched_settings. rewrite Hobj. split_and!; cbn;
    try (apply opt_or_ok; [done|]; destruct e as [r|]; [|done]; by apply He).
  destruct (us_notification_prefs req) as [patch|]; [|by exists obj].
  destruct (Hp patch eq_refl) as (pobj & -> & Hpo). eexists. split; [reflexivity|]. by apply merge_typed.
Qed.

Lemma insert_entries_ok done todo es : insert_entries done todo = Ok es ->
  es = done ++ todo /\
  ((forall i j a b, done !! i = Some a -> done !! j = Some b -> (i < j)%nat -> same_token b a = false) ->
   forall i j a b, es !! i = Some a -> es !! j = Some b -> (i < j)%nat -> same_token b a = false).
Proof.
  revert done. induction todo as [|e todo IH]; intros done; cbn.
  { intros [= <-]. by rewrite app_nil_r. }
  destruct (existsb (same_token e) done) eqn:Hx; [done|]. intros [-> Hnd]%IH. rewrite <- app_assoc. split; [done|].
  intros Hd. rewrite <- app_assoc in Hnd. apply Hnd. intros i j a b Ha Hb Hij.
  destruct (decide (j < length done)%nat) as [Hj|Hj].
  - rewrite lookup_app_l in Ha, Hb by lia. by eapply Hd.
  - assert (Hi : (i < length done)%nat).
    { apply lookup_lt_Some in Hb. rewrite length_app in Hb. cbn in Hb. lia. }
    rewrite lookup_app_l in Ha by done. apply lookup_app_Some in Hb as [Hb|[_ Hb]]; [apply lookup_lt_Some in Hb; lia|].
    destruct (j - length done)%nat; [|done]. injection Hb as <-.
    rewrite <- not_true_iff_false in Hx. apply not_true_is_false. intros Hs. apply Hx, existsb_exists.
    exists a. split; [|done]. by apply list_elem_of_In, (list_elem_of_lookup_2 _ i).
Qed.

Lemma edit_typed q d d' : settings_typed d -> edit (D := D) d q d' -> settings_typed d'.
Proof.
  intros [Hs Hw Ht Hp] He. destruct He as [q|c s req now Hv|c s url en w Hu Hok|c s|c s raw z Hr Hz|c s|c s mode es p Hes Hi|c s].
  - by split.
  - split; cbn; try done. intros s' r [[<- <-]|[_ Hr]]%lookup_insert_Some; [|by eapply Hs].
    apply patched_typed; [|done]. intros r Hr. by eapply Hs.
  - split; cbn; try done. intros s' w' [[<- <-]|[_ Hr]]%lookup_insert_Some; [by rewrite Hu | by eapply Hw].
  - split; cbn; try done. intros s' w' [_ Hr]%lookup_delete_Some. by eapply Hw.
  - split; cbn; try done. intros s' z' [[<- <-]|[_ Hr']]%lookup_insert_Some; [done | by eapply Ht].
  - split; cbn; try done. intros s' z' [_ Hr]%lookup_delete_Some. by eapply Ht.
  - split; cbn; try done. intros s' p' [[<- <-]|[_ Hr]]%lookup_insert_Some; [|by eapply Hp].
    apply insert_entries_ok in Hi as [Hi Hu]. split; [|by apply Hu]. rewrite Hi. cbn.
    apply Forall_forall. intros e Hin. rewrite forallb_forall in Hes. by apply Hes, list_elem_of_In.
  - split; cbn; try done. intros s' p' [_ Hr]%lookup_delete_Some. by eapply Hp.
Qed.

(** ** Runs *)

(** All rows of a store, gone with it. *)
Definition cascade (s : Uuid) (d : SettingsDb) : SettingsDb :=
  mkSettingsDb (sg_team d) (delete s (sg_settings d)) (delete s (sg_webhooks d)) (delete s (sg_tolerances d))
    (delete s (sg_policies d)).

Definition with_db (d : SettingsDb) (o : Desk) : Desk := mkOffice d (of_ticks o) (of_draws o) (of_mail o).

(** A request to these routes; a change of stores, members and roles; a store
    deleted with its rows. *)
Inductive settings_step : Desk -> Desk -> Prop :=
| SS_request q o : settings_step o (snd (handle_settings (D := D) q o))
| SS_team t o : settings_step o
    (with_db (mkSettingsDb t (sg_settings (of_db o)) (sg_webhooks (of_db o)) (sg_tolerances (of_db o)) (sg_policies (of_db o))) o)
| SS_cascade s o : settings_step o (with_db (cascade s (of_db o)) o).

Lemma step_typed o o' : settings_typed (of_db o) -> settings_step o o' -> settings_typed (of_db o').
Proof.
  intros Ht Hs. destruct Hs as [q o|t o|s o].
  - eapply edit_typed; [exact Ht|]. by apply (settings_edits (D := D) q (of_db o)).
  - by destruct Ht; split.
  - destruct Ht as [Hs Hw Ht Hp]. split; cbn; intros s' x [_ Hx]%lookup_delete_Some; eauto.
Qed.

(** A tolerance column holds a tolerance that settlement can read. *)
Lemma stored_tolerance_readable z : 0 <= z <= 10 ^ 17 ->
  exists t : D, parse_tolerance_percent (numeric18_out z) = Ok t /\ (bd_value t == inject_Z z / inject_Z (10 ^ 18))%Q.
Proof.
  intros Hz. destruct (numeric18_out_parse z) as (t & Hp & Hv). exists t. split; [|done].
  pose proof (tolerance_refused_not_clamped (D := D) (numeric18_out z)) as Hr. rewrite numeric18_out_trim, Hp in Hr.
  apply (proj1 Hr). change (inject_Z (10 ^ 18)) with (1000000000000000000 # 1)%Q in Hv.
  assert (Hz' : (0 <= inject_Z z <= 100000000000000000 # 1)%Q).
  { change ((inject_Z 0 <= inject_Z z)%Q /\ (inject_Z z <= inject_Z (10 ^ 17))%Q). by rewrite <- !Zle_Qle. }
  assert (Hlo : (0 <= inject_Z z / (1000000000000000000 # 1))%Q) by (apply Qle_shift_div_l; [reflexivity | lra]).
  assert (Hhi : (inject_Z z / (1000000000000000000 # 1) <= 1 # 10)%Q) by (apply Qle_shift_div_r; [reflexivity | lra]).
  split; lra.
Qed.

(** C36. Stored settings are well typed.  Through any requests to the settings,
    webhook, tolerance and policy routes, whatever is lost, with stores and
    members changing in between: a stored default chain is one the server
    knows, a currency is three capital letters, a logo is an https URL, a color
    is [#RRGGBB], preferences are an object of distinct known keys with values
    of their kind; a webhook URL starts with https:// or http://localhost; the entries of a
    policy are well formed and name no token twice; and the tolerance that
    settlement reads for any store parses, between zero and a tenth of a
    percent. *)
Theorem stored_settings_well_typed o o' :
  settings_typed (of_db o) -> rtc settings_step o o' ->
  let d := of_db o' in
  (forall s r, sg_settings d !! s = Some r -> settings_row_typed r) /\
  (forall s w, sg_webhooks d !! s = Some w -> webhook_url_ok (wr_url w) = true) /\
  (forall s p, sg_policies d !! s = Some p -> policy_typed p) /\
  (forall s, exists t src, effective_tolerance (D := D) (numeric18_out <$> sg_tolerances d !! s) = Ok (t, src) /\
     (0 <= bd_value t <= 1 # 10)%Q).
Proof.
  intros Ht Hr d. assert (Htd : settings_typed d).
  { unfold d. clear d. induction Hr as [o|o o1 o2 Hs _ IH]; [done|]. by apply IH, (step_typed o). }
  destruct Htd as [Hs Hw Htol Hp]. split_and!; [done..|]. intros s.
  assert (Hex : exists t src, effective_tolerance (D := D) (numeric18_out <$> sg_tolerances d !! s) = Ok (t, src)).
  { destruct (sg_tolerances d !! s) as [z|] eqn:Hz; cbn.
    - destruct (stored_tolerance_readable z) as (t & -> & _); [by eapply Htol|]. by do 2 eexists.
    - destruct bd_parse_literal_0_0001 as (v & Hv & _). unfold DEFAULT_TOLERANCE_PERCENT. rewrite Hv. by do 2 eexists. }
  destruct Hex as (t & src & He). exists t, src. split; [done|]. by eapply effective_tolerance_range.
Qed.

(** ** Partial updates *)

Lemma update_answered c s req o r o' :
  update_store_settings c s req o = (Ok r, o') ->
  exists now, validate_update req = Ok tt /\ r = patched_settings (sg_settings (of_db o) !! s) req now /\
    of_db o' = sg_set_settings (<[s := r]> (sg_settings (of_db o))) (of_db o).
Proof.
  intros Hr.
  assert (Hq : runs (update_store_settings c s req) (of_db o) (fun r d' => forall row, r = Ok row ->
    exists now, validate_update req = Ok tt /\ row = patched_settings (sg_settings (of_db o) !! s) req now /\
      d' = sg_set_settings (<[s := row]> (sg_settings (of_db o))) (of_db o))).
  { unfold update_store_settings. apply runs_bind, runs_authority; [intros _|done].
    apply runs_bind, runs_require_store; [intros st Hst|done]. apply runs_bind, runs_lift.
    destruct (validate_update req) as [[]|] eqn:Hv; [|done]. apply runs_bind, runs_map_err, runs_select; [|done]. cbn beta iota.
    apply runs_map_err. apply runs_tdb; [done|]. intros now. split; [|done]. intros row. destruct (sg_settings (of_db o) !! s) as [e|] eqn:He;
      unfold upsert_store_settings; destruct (present _ _); cbn; try done; intros [= <-]; exists now; (split; [done|]); split; try done;
      unfold patched_settings; cbn; by rewrite ?opt_or_none. }
  specialize (Hq o eq_refl). rewrite Hr in Hq. by apply Hq.
Qed.

(** A partial update changes what it names and nothing else.  An answered
    update returns the row it stored; each field is the requested one where the
    request has one and the stored one otherwise; each preference is the
    requested one, gone if the request sets it to null, and the stored one if
    the request does not name it; no other row of any table changes. *)
Theorem settings_patch_exact c s req o r o' :
  NoDup (from_option (fun p => match p with JObject obj => obj.*1 | _ => [] end) [] (us_notification_prefs req)) ->
  settings_typed (of_db o) ->
  update_store_settings c s req o = (Ok r, o') ->
  let old := sg_settings (of_db o) !! s in
  of_db o' = sg_set_settings (<[s := r]> (sg_settings (of_db o))) (of_db o) /\
  st_default_chain_id r = opt_or (us_default_chain_id req) (old ≫= st_default_chain_id) /\
  st_default_display_currency r = opt_or (us_default_display_currency req) (old ≫= st_default_display_currency) /\
  st_logo_url r = opt_or (us_logo_url req) (old ≫= st_logo_url) /\
  st_accent_color r = opt_or (us_accent_color req) (old ≫= st_accent_color) /\
  forall k, json_get k (st_notification_prefs r) =
    let kept := old ≫= fun e => json_get k (st_notification_prefs e) in
    match us_notification_prefs req with
    | Some p => match json_get k p with
                | Some JNull => None
                | Some v => Some v
                | None => kept
                end
    | None => kept
    end.
Proof.
  intros Hnd Hty (now & Hv & -> & Hd)%update_answered old. split; [done|]. do 4 (split; [reflexivity|]). intros k.
  unfold patched_settings. fold old. cbn. apply validate_update_ok in Hv as (_ & _ & _ & _ & Hp).
  assert (Hkept : json_get k (from_option st_notification_prefs (JObject []) old)
    = old ≫= fun e => json_get k (st_notification_prefs e)) by by destruct old.
  destruct (us_notification_prefs req) as [p|]; [|done]. destruct (Hp p eq_refl) as (obj & -> & _). cbn in Hnd.
  rewrite <- Hkept. clear Hkept. cbn.
  assert (Hm := fun out => merge_assoc k obj Hnd out). unfold merge_step, patched_pref in Hm. rewrite Hm.
  destruct old as [e|] eqn:He; cbn.
  - destruct (ty_settings _ Hty s e He) as (_ & _ & _ & _ & eobj & -> & _). cbn. by destruct (assoc k obj) as [[]|].
  - by destruct (assoc k obj) as [[]|].
Qed.

(** ** Authority *)

(** Whatever the tables hold for a store. *)
Definition config_of (s : Uuid) (d : SettingsDb) :=
  (sg_settings d !! s, sg_webhooks d !! s, sg_tolerances d !! s, sg_policies d !! s).

Lemma edit_elsewhere q d d' s : edit (D := D) d q d' -> s <> (configures q).2 -> config_of s d' = config_of s d.
Proof.
  intros He Hne. unfold config_of. destruct He; cbn in *; rewrite ?lookup_insert_ne, ?lookup_delete_ne by done; done.
Qed.

(** Only authority over a store configures it.  If a request changes what
    the tables hold for a store, it is a request about that store, and its
    caller is an administrator or a member whose role and key both grant
    changing its settings; stores and memberships never change. *)
Theorem settings_changed_with_authority q o s :
  let d := of_db o in
  let d' := of_db (snd (handle_settings (D := D) q o)) in
  sg_team d' = sg_team d /\
  (config_of s d' <> config_of s d ->
   (configures q).2 = s /\
   (ui_role (ssu_user (configures q).1) = ServerAdmin \/
    (has_permission (ui_id (ssu_user (configures q).1)) s MODIFY_SETTINGS (sg_team d) = true /\
     key_grants_store_permission (ssu_key_scope (configures q).1) MODIFY_SETTINGS s = true))).
Proof.
  intros d d'. destruct (settings_edits (D := D) q d o eq_refl) as [He Ha]. fold d' in He, Ha. clearbody d d'.
  split; [by destruct He|]. intros Hne. assert (Hs : s = (configures q).2).
  { destruct (decide (s = (configures q).2)) as [|Hx]; [done|]. by destruct Hne; eapply edit_elsewhere. }
  split; [done|]. destruct Ha as [->|Ha]; [done|]. by rewrite Hs.
Qed.
End Typed.
