(* ===== verification/Accounts.v ===== *)
(** * Accounts

    [data-service/src/postgres/auth/user.rs] and [email_change.rs], with the
    routes on them: changing the email address of an account
    ([server/src/api/users/email.rs]) and the administration of accounts
    ([server/src/api/admin/mod.rs]).  Registration and login are code of another
    crate; their statements are here.  A route is modelled by its statuses; the
    texts that come with them are left out. *)

From stdpp Require Import gmap strings list sorting.
From Stdlib Require Import ZArith Lia Ascii.
From S2P Require Import Prelude Events Network Decimal LiveWatch Database Services ApiKeys Consumer Idempotency.
From S2P Require Import ApiAuth Office Teams.

#[local] Open Scope Z_scope.

(** ** Users *)

(** [auth::User] *)
Record User := mkUser {
  u_id : Uuid;
  u_email : option string;
  u_wallet_address : option string;
  u_kdf_salt_identifier : string;
  u_key_material : string;
  u_created_at : Instant;
  u_last_login_at : option Instant;
  u_failed_login_attempts : Z;
  u_locked_until : option Instant;
  u_role : Role
}.

Definition u_set_email (email : option string) (u : User) : User :=
  mkUser (u_id u) email (u_wallet_address u) (u_kdf_salt_identifier u) (u_key_material u) (u_created_at u)
    (u_last_login_at u) (u_failed_login_attempts u) (u_locked_until u) (u_role u).
Definition u_set_role (role : Role) (u : User) : User :=
  mkUser (u_id u) (u_email u) (u_wallet_address u) (u_kdf_salt_identifier u) (u_key_material u) (u_created_at u)
    (u_last_login_at u) (u_failed_login_attempts u) (u_locked_until u) role.

Definition us_set_locked (until : option Instant) (r : UserRow) : UserRow :=
  mkUserRow (us_email r) (us_wallet_address r) (us_kdf_salt_identifier r) (us_key_material r) (us_created_at r)
    (us_last_login_at r) (us_failed_login_attempts r) until (us_role r).
Definition us_set_failed (n : Z) (r : UserRow) : UserRow :=
  mkUserRow (us_email r) (us_wallet_address r) (us_kdf_salt_identifier r) (us_key_material r) (us_created_at r)
    (us_last_login_at r) n (us_locked_until r) (us_role r).

(** [Role::from_str], of another crate *)
Class RoleNames := { parse_role : string -> option Role }.

Section Accounts.
Context `{Runtime} `{PolicyNames} `{UuidText} `{Formats} `{MailHost} `{RoleNames}.

(** The salt identifier an account has: the stored one, or the one computed
    from the account as it is. *)
Definition salt_of (id : Uuid) (r : UserRow) : string :=
  match us_kdf_salt_identifier r with
  | Some s => s
  | None =>
      match us_email r, us_wallet_address r with
      | _, Some w => "wallet:" +:+ w
      | Some e, None => to_lowercase e
      | None, None => "passkey:" +:+ uuid_to_string id
      end
  end.

(** [row_to_user] *)
Definition row_to_user (id : Uuid) (r : UserRow) : User :=
  mkUser id (us_email r) (us_wallet_address r) (salt_of id r) (us_key_material r) (us_created_at r) (us_last_login_at r)
    (us_failed_login_attempts r) (us_locked_until r) (us_role r).

(** [email VARCHAR(255) UNIQUE] and [primary_wallet_address UNIQUE]: whether a
    row other than [id] has the value *)
Definition taken (id : Uuid) (col : UserRow -> option string) (v : option string) (d : TeamDb) : bool :=
  match v with
  | None => false
  | Some v => existsb (fun kr => negb (kr.1 =? id) && bool_decide (col kr.2 = Some v)) (map_to_list (td_users d))
  end.

(** [UserRepository::create_user], one transaction under the advisory lock *)
Definition create_user (user : User) : TeamStatement unit :=
  fun _ d =>
    if present (u_id user) (td_users d) || taken (u_id user) us_email (u_email user) d
       || taken (u_id user) us_wallet_address (u_wallet_address user) d
    then (Err UserExists, d)
    else
      let role := if bool_decide (u_role user = RegularUser) && bool_decide (td_users d = ∅) then ServerAdmin else u_role user in
      (Ok tt, td_set_users (<[u_id user :=
         mkUserRow (u_email user) (u_wallet_address user) (Some (u_kdf_salt_identifier user)) (u_key_material user)
           (u_created_at user) (u_last_login_at user) (u_failed_login_attempts user) (u_locked_until user) role]> (td_users d)) d).

(** [UserRepository::get_user] *)
Definition user_get (id : Uuid) : TeamStatement (option User) :=
  tselect (fun d => row_to_user id <$> td_users d !! id).

(** [UserRepository::get_user_by_email]: one of the accounts with this address,
    in any letter case *)
Definition get_user_by_email (email : string) : TeamStatement (option User) :=
  tselect (fun d => (fun kr => row_to_user kr.1 kr.2) <$>
    head (List.filter (fun kr => match us_email kr.2 with Some e => String.eqb (to_lowercase e) (to_lowercase email) | None => false end)
            (map_to_list (td_users d)))).

(** [UserRepository::get_user_by_wallet_address] *)
Definition get_user_by_wallet_address (address : string) : TeamStatement (option User) :=
  tselect (fun d => (fun kr => row_to_user kr.1 kr.2) <$>
    head (List.filter (fun kr => bool_decide (us_wallet_address kr.2 = Some address)) (map_to_list (td_users d)))).

(** The [UPDATE] of [update_user]: the rows it affected *)
Definition update_user_row (user : User) : TeamStatement nat :=
  fun _ d =>
    match td_users d !! u_id user with
    | Some r =>
        if match us_kdf_salt_identifier r with Some s => String.eqb s (u_kdf_salt_identifier user) | None => true end then
          if taken (u_id user) us_email (u_email user) d || taken (u_id user) us_wallet_address (u_wallet_address user) d
          then (Err UserExists, d)
          else
            (Ok 1%nat, td_set_users (<[u_id user :=
               mkUserRow (u_email user) (u_wallet_address user)
                 (Some (default (u_kdf_salt_identifier user) (us_kdf_salt_identifier r))) (u_key_material user)
                 (us_created_at r) (u_last_login_at user) (u_failed_login_attempts user) (u_locked_until user) (u_role user)]>
               (td_users d)) d)
        else (Ok 0%nat, d)
    | None => (Ok 0%nat, d)
    end.

(** [UserRepository::update_user] *)
Definition update_user (user : User) : St TeamOffice DbError unit :=
  let* affected := tdb (update_user_row user) in
  if (affected =? 0)%nat then
    let* existing := tdb (tselect (fun d => td_users d !! u_id user)) in
    match existing with
    | Some _ => st_throw ImmutableField
    | None => st_throw UserNotFound
    end
  else st_ret tt.

(** An [UPDATE] of one account by its id. *)
Definition update_by_id (id : Uuid) (f : UserRow -> UserRow) : TeamStatement unit :=
  fun _ d =>
    match td_users d !! id with
    | Some r => (Ok tt, td_set_users (<[id := f r]> (td_users d)) d)
    | None => (Err UserNotFound, d)
    end.

(** [UserRepository::lock_user], [unlock_user], [reset_failed_logins] *)
Definition lock_row (id : Uuid) (until : Instant) : TeamStatement unit := update_by_id id (us_set_locked (Some until)).
Definition unlock_row (id : Uuid) : TeamStatement unit := update_by_id id (us_set_locked None).
Definition reset_failed_logins (id : Uuid) : TeamStatement unit := update_by_id id (us_set_failed 0).

(** [UserRepository::increment_failed_logins]; the column is an [INTEGER] *)
Definition increment_failed_logins (id : Uuid) : TeamStatement Z :=
  fun _ d =>
    match td_users d !! id with
    | Some r =>
        let n := us_failed_login_attempts r + 1 in
        if n <=? 2 ^ 31 - 1 then (Ok n, td_set_users (<[id := us_set_failed n r]> (td_users d)) d) else (Err ConstraintViolation, d)
    | None => (Err UserNotFound, d)
    end.

(** [ORDER BY created_at DESC] *)
Definition newer (a b : User) : Prop := u_created_at b <= u_created_at a.
#[export] Instance newer_dec a b : Decision (newer a b) := Z.le_dec _ _.

(** [UserRepository::list_users], [count_users] *)
Definition list_user_rows (offset limit : Z) : TeamStatement (list User) :=
  fun _ d =>
    if (limit <? 0) || (offset <? 0) then (Err ConstraintViolation, d)
    else (Ok (take (Z.to_nat limit) (drop (Z.to_nat offset)
                (merge_sort newer ((fun kr => row_to_user kr.1 kr.2) <$> map_to_list (td_users d))))), d).
Definition count_users : TeamStatement Z := tselect (fun d => Z.of_nat (size (td_users d))).

(** ** Changing the address *)

(** [EMAIL_CHANGE_TOKEN_TTL]: 30 minutes *)
Definition EMAIL_CHANGE_TOKEN_TTL : Z := seconds (30 * 60).

(** The open request of an account; the partial unique index allows one. *)
Definition open_change (user_id : Uuid) (d : TeamDb) : option Uuid :=
  fst <$> head (List.filter (fun kr => (ec_user_id kr.2 =? user_id) && option_is_none (ec_consumed_at kr.2))
                  (map_to_list (td_email_changes d))).

(** [EmailChangeWriter::create_email_change_request]; [token] is the id the
    database draws for the row; the address column takes 255 characters. *)
Definition create_email_change_request (token user_id : Uuid) (new_email : string) (expires_at : Instant) : TeamStatement Uuid :=
  fun _ d =>
    let others := match open_change user_id d with
                  | Some old => delete old (td_email_changes d)
                  | None => td_email_changes d
                  end in
    if present token others || negb (present user_id (td_users d)) || (255 <? String.length new_email)%nat
    then (Err ConstraintViolation, d)
    else (Ok token, td_set_email_changes (<[token := mkEmailChangeRow user_id new_email expires_at None]> others) d).

(** [EmailChangeWriter::consume_email_change_request] *)
Definition consume_email_change_request (token : Uuid) : TeamStatement (option (Uuid * string)) :=
  fun now d =>
    match td_email_changes d !! token with
    | Some r =>
        if option_is_none (ec_consumed_at r) && (now <? ec_expires_at r) then
          (Ok (Some (ec_user_id r, ec_new_email r)),
           td_set_email_changes (<[token := mkEmailChangeRow (ec_user_id r) (ec_new_email r) (ec_expires_at r) (Some now)]>
             (td_email_changes d)) d)
        else (Ok None, d)
    | None => (Ok None, d)
    end.

(** The account as the session knows it. *)
Record SessionUser := mkSessionUser {
  su_id : Uuid;
  su_email : option string;
  su_wallet_address : option string
}.

(** [send_email_change_verification], the message *)
Definition verification_mail (to : string) (token : Uuid) : Mail :=
  mkMail to "Confirm your new email address"
    ("We received a request to use this address for a random.cash account." +:+ newline +:+ newline
     +:+ "Verification code: " +:+ uuid_to_string token +:+ newline +:+ newline
     +:+ "Enter this code in Account Settings to confirm the change. It expires in 30 minutes and can only be used once."
     +:+ newline +:+ newline
     +:+ "If you did not request this, no action is needed - the address will not change unless this code is entered."
     +:+ newline).

(** [eq_ignore_ascii_case] *)
Definition eq_ignore_ascii_case (a b : string) : bool := String.eqb (to_lowercase a) (to_lowercase b).

(** [request_email_change] *)
Definition request_email_change (user : SessionUser) (new_email : string) : St TeamOffice Z unit :=
  let new_email := trim new_email in
  if negb (looks_like_an_email new_email) then st_throw 400
  else if match su_email user with Some current => eq_ignore_ascii_case current new_email | None => false end then st_throw 400
  else if negb mail_configured then st_throw 503
  else
    let* existing := fails_500 (tdb (get_user_by_email new_email)) in
    if match existing with Some e => negb (u_id e =? su_id user) | None => false end then st_throw 409
    else
      let* now := of_now in
      let* token := of_fresh in
      let* token := fails_500 (tdb (create_email_change_request token (su_id user) new_email (now + EMAIL_CHANGE_TOKEN_TTL))) in
      let* sent := send_mail (verification_mail new_email token) in
      if (sent : bool) then st_ret tt else st_throw 502.

(** [confirm_email_change] *)
Definition confirm_email_change (token : Uuid) : St TeamOffice Z unit :=
  let* r := fails_500 (tdb (consume_email_change_request token)) in
  let* pending := ok_or 400 r in
  let* r := fails_500 (tdb (user_get pending.1)) in
  let* current := ok_or 404 r in
  st_map_err (fun e => match e with UserExists => 409 | _ => 500 end) (update_user (u_set_email (Some pending.2) current)).

(** [email_removal_blocker] *)
Definition email_removal_blocker (has_email has_wallet : bool) : option Z :=
  if negb has_email then Some 400 else if negb has_wallet then Some 409 else None.

(** [remove_email] *)
Definition remove_email (user : SessionUser) : St TeamOffice Z unit :=
  match email_removal_blocker (option_is_some (su_email user)) (option_is_some (su_wallet_address user)) with
  | Some err => st_throw err
  | None =>
      let* r := fails_500 (tdb (user_get (su_id user))) in
      let* current := ok_or 404 r in
      st_map_err (fun _ => 500) (update_user (u_set_email None current))
  end.

(** ** Administration *)

(** [list_users]: a page of accounts and their number *)
Definition list_users (limit offset : option Z) : St TeamOffice Z (list User * Z) :=
  let limit := Z.min (default 50 limit) 200 in
  let offset := default 0 offset in
  let* users := fails_500 (tdb (list_user_rows offset limit)) in
  let* total := fails_500 (tdb count_users) in
  st_ret (users, total).

(** The guard of [update_user_role]: the last administrator is not demoted *)
Definition demotion_guard (user : User) (new_role : Role) : St TeamOffice Z unit :=
  if bool_decide (u_role user = ServerAdmin) && negb (bool_decide (new_role = ServerAdmin)) then
    let* all_users := fails_500 (tdb (list_user_rows 0 10000)) in
    let admin_count := length (List.filter (fun u => bool_decide (u_role u = ServerAdmin)) all_users) in
    if (admin_count <=? 1)%nat then st_throw 400 else st_ret tt
  else st_ret tt.

(** [update_user_role] *)
Definition update_user_role (user_id role : string) : St TeamOffice Z unit :=
  let* new_role := ok_or 400 (parse_role role) in
  let* uid := ok_or 400 (parse_uuid user_id) in
  let* r := fails_500 (tdb (user_get uid)) in
  let* user := ok_or 404 r in
  do* demotion_guard user new_role;
  fails_500 (update_user (u_set_role new_role user)).

(** 9999-12-31T23:59:59Z *)
Definition far_future : Instant := seconds 253402300799.

(** [lock_user], [unlock_user] *)
Definition lock_user (user_id : string) : St TeamOffice Z unit :=
  let* uid := ok_or 400 (parse_uuid user_id) in
  fails_500 (tdb (lock_row uid far_future)).
Definition unlock_user (user_id : string) : St TeamOffice Z unit :=
  let* uid := ok_or 400 (parse_uuid user_id) in
  fails_500 (tdb (unlock_row uid)).
End Accounts.
