(* ===== verification/AccountFacts.v ===== *)
(** * What the account routes do to accounts *)

From stdpp Require Import gmap strings list sorting relations.
From Stdlib Require Import ZArith Lia.
From S2P Require Import Prelude Events Network Decimal LiveWatch Database Services ApiKeys Consumer ApiAuth Office Teams TeamFacts Accounts.

#[local] Open Scope Z_scope.

Section Facts.
Context `{Runtime} `{PolicyNames} `{UuidText} `{Formats} `{MailHost} `{RoleNames}.

(** ** Writing an account back *)

(** The row of an account that was read and written back with this address and
    this role: the salt identifier is pinned. *)
Definition written_back (id : Uuid) (r : UserRow) (email : option string) (role : Role) : UserRow :=
  mkUserRow email (us_wallet_address r) (Some (salt_of id r)) (us_key_material r) (us_created_at r) (us_last_login_at r)
    (us_failed_login_attempts r) (us_locked_until r) role.

Definition put_user (id : Uuid) (r : UserRow) (d : TeamDb) : TeamDb := td_set_users (<[id := r]> (td_users d)) d.

Lemma salt_accepted id r :
  match us_kdf_salt_identifier r with Some s => String.eqb s (salt_of id r) | None => true end = true.
Proof. unfold salt_of. destruct (us_kdf_salt_identifier r); [apply String.eqb_refl | done]. Qed.

Lemma salt_pinned id r : default (salt_of id r) (us_kdf_salt_identifier r) = salt_of id r.
Proof. unfold salt_of. by destruct (us_kdf_salt_identifier r). Qed.

Lemma salt_written_back id r e role : salt_of id (written_back id r e role) = salt_of id r.
Proof. done. Qed.

Lemma update_row_back id r e role now d :
  td_users d !! id = Some r ->
  let out := update_user_row (u_set_role role (u_set_email e (row_to_user id r))) now d in
  out = (Err UserExists, d) \/ out = (Ok 1%nat, put_user id (written_back id r e role) d).
Proof.
  intros Hr. unfold update_user_row. cbn. rewrite Hr, salt_accepted. destruct (_ || _); [by left|]. right.
  by rewrite salt_pinned.
Qed.

(** [update_user] on an account as it is in the tables. *)
Lemma runs_update_back id r e role d (Q : result DbError unit -> TeamDb -> Prop) :
  td_users d !! id = Some r ->
  (forall x, Q (Err x) d) -> (forall x, Q x (put_user id (written_back id r e role) d)) ->
  runs (update_user (u_set_role role (u_set_email e (row_to_user id r)))) d Q.
Proof.
  intros Hr Hd Hp. unfold update_user. apply runs_bind, runs_tdb; [apply Hd|]. intros now.
  destruct (update_row_back id r e role now d Hr) as [-> | ->]; cbn; (split; [|by auto]); [apply Hd|]. by apply runs_ret.
Qed.

Lemma runs_update_email id r e d (Q : result DbError unit -> TeamDb -> Prop) :
  td_users d !! id = Some r ->
  (forall x, Q (Err x) d) -> (forall x, Q x (put_user id (written_back id r e (us_role r)) d)) ->
  runs (update_user (u_set_email e (row_to_user id r))) d Q.
Proof. intros Hr Hd Hp. by apply (runs_update_back id r e (us_role r)). Qed.

Lemma runs_update_role id r role d (Q : result DbError unit -> TeamDb -> Prop) :
  td_users d !! id = Some r ->
  (forall x, Q (Err x) d) -> (forall x, Q x (put_user id (written_back id r (us_email r) role) d)) ->
  runs (update_user (u_set_role role (row_to_user id r))) d Q.
Proof. intros Hr Hd Hp. by apply (runs_update_back id r (us_email r) role). Qed.

Lemma runs_user_get id d (Q : result DbError (option User) -> TeamDb -> Prop) :
  Q (Ok (row_to_user id <$> td_users d !! id)) d -> Q (Err Lost) d -> runs (tdb (user_get id)) d Q.
Proof. intros Ha Hl. by apply runs_select. Qed.

(** A statement that only reads. *)
Lemma runs_read {A} (stmt : TeamStatement A) d (Q : result DbError A -> TeamDb -> Prop) :
  (forall now, snd (stmt now d) = d) -> (forall r, Q r d) -> runs (tdb stmt) d Q.
Proof. intros Hs HQ. apply runs_tdb; [apply HQ|]. intros now. rewrite Hs. split; apply HQ. Qed.

Lemma list_rows_read offset limit now d : snd (list_user_rows offset limit now d) = d.
Proof. unfold list_user_rows. by destruct (_ || _). Qed.

(** ** Requests *)

Inductive AccountRequest :=
| Register (user : User)
| RequestEmail (user : SessionUser) (new_email : string)
| ConfirmEmail (token : Uuid)
| RemoveEmail (user : SessionUser)
| ListUsers (limit offset : option Z)
| SetRole (user_id role : string)
| LockUser (user_id : string)
| UnlockUser (user_id : string)
| FailedLogin (id : Uuid)
| GoodLogin (id : Uuid).

Definition handle_account (q : AccountRequest) : St TeamOffice Z unit :=
  match q with
  | Register u => fails_500 (tdb (create_user u))
  | RequestEmail u e => request_email_change u e
  | ConfirmEmail t => confirm_email_change t
  | RemoveEmail u => remove_email u
  | ListUsers l o => let* _ := list_users l o in st_ret tt
  | SetRole u r => update_user_role u r
  | LockUser u => lock_user u
  | UnlockUser u => unlock_user u
  | FailedLogin id => let* _ := fails_500 (tdb (increment_failed_logins id)) in st_ret tt
  | GoodLogin id => fails_500 (tdb (reset_failed_logins id))
  end.

(** What one request can do to the tables [d], started when the clock shows
    [began]. *)
Inductive change (began : Instant) (d : TeamDb) : AccountRequest -> TeamDb -> Prop :=
| ch_none q : change began d q d
| ch_register u role : td_users d !! u_id u = None ->
    role = (if bool_decide (u_role u = RegularUser) && bool_decide (td_users d = ∅) then ServerAdmin else u_role u) ->
    change began d (Register u)
      (put_user (u_id u) (mkUserRow (u_email u) (u_wallet_address u) (Some (u_kdf_salt_identifier u)) (u_key_material u)
         (u_created_at u) (u_last_login_at u) (u_failed_login_attempts u) (u_locked_until u) role) d)
| ch_request u e token exp now d' r :
    create_email_change_request token (su_id u) (trim e) exp now d = (r, d') -> change began d (RequestEmail u e) d'
| ch_consumed t ec : td_email_changes d !! t = Some ec -> ec_consumed_at ec = None -> began < ec_expires_at ec ->
    change began d (ConfirmEmail t)
      (td_set_email_changes (<[t := mkEmailChangeRow (ec_user_id ec) (ec_new_email ec) (ec_expires_at ec) (Some began)]> (td_email_changes d)) d)
| ch_confirmed t ec r : td_email_changes d !! t = Some ec -> ec_consumed_at ec = None -> began < ec_expires_at ec ->
    td_users d !! ec_user_id ec = Some r ->
    change began d (ConfirmEmail t)
      (put_user (ec_user_id ec) (written_back (ec_user_id ec) r (Some (ec_new_email ec)) (us_role r))
         (td_set_email_changes (<[t := mkEmailChangeRow (ec_user_id ec) (ec_new_email ec) (ec_expires_at ec) (Some began)]> (td_email_changes d)) d))
| ch_removed u r : su_email u <> None -> su_wallet_address u <> None -> td_users d !! su_id u = Some r ->
    change began d (RemoveEmail u) (put_user (su_id u) (written_back (su_id u) r None (us_role r)) d)
| ch_role u name uid role r all :
    parse_uuid u = Some uid -> parse_role name = Some role -> td_users d !! uid = Some r ->
    (forall now, fst (list_user_rows 0 10000 now d) = Ok all) ->
    (us_role r = ServerAdmin -> role <> ServerAdmin ->
     (1 < length (List.filter (fun u => bool_decide (u_role u = ServerAdmin)) all))%nat) ->
    change began d (SetRole u name) (put_user uid (written_back uid r (us_email r) role) d)
| ch_row q id f r : td_users d !! id = Some r ->
    (f = us_set_locked (Some far_future) \/ f = us_set_locked None \/ f = us_set_failed 0 \/
     f = us_set_failed (us_failed_login_attempts r + 1)) ->
    change began d q (put_user id (f r) d).

Lemma update_by_id_change began q id f now d :
  (f = us_set_locked (Some far_future) \/ f = us_set_locked None \/ f = us_set_failed 0) ->
  change began d q (snd (update_by_id id f now d)).
Proof.
  intros Hf. unfold update_by_id. destruct (td_users d !! id) as [r|] eqn:Hr; [|apply ch_none].
  apply (ch_row began d q id f r Hr). tauto.
Qed.

Lemma create_change began u now d : change began d (Register u) (snd (create_user u now d)).
Proof.
  unfold create_user. destruct (present (u_id u) (td_users d)) eqn:Hp; [apply ch_none|]. cbn [orb].
  destruct (_ || _); [apply ch_none|]. apply bool_decide_eq_false in Hp.
  refine (ch_register began d u _ _ eq_refl). by apply eq_None_not_Some.
Qed.

Lemma increment_change began id now d : change began d (FailedLogin id) (snd (increment_failed_logins id now d)).
Proof.
  unfold increment_failed_logins. destruct (td_users d !! id) as [r|] eqn:Hr; [|apply ch_none].
  destruct (_ <=? _); [|apply ch_none]. apply (ch_row began d _ id (us_set_failed (us_failed_login_attempts r + 1)) r Hr). tauto.
Qed.

Ltac account_step :=
  first
  [ match goal with
    | |- runs (tdb (user_get _)) _ _ => apply runs_user_get
    | |- runs (tdb (get_user_by_email _)) _ _ => apply runs_select
    | |- runs (tdb count_users) _ _ => apply runs_select
    | |- runs (tdb (list_user_rows _ _)) _ _ => apply runs_read; [intros ?; apply list_rows_read | intros []]
    end; cbn beta iota
  | office_step ].

Lemma list_rows_ok d : exists all, forall now, list_user_rows 0 10000 now d = (Ok all, d).
Proof. eexists. intros now. reflexivity. Qed.

(** The guard, from an account of the tables. *)
Lemma runs_guard uid r role d (Q : result Z unit -> TeamDb -> Prop) :
  (forall all, (forall now, fst (list_user_rows 0 10000 now d) = Ok all) ->
     (us_role r = ServerAdmin -> role <> ServerAdmin ->
      (1 < length (List.filter (fun u => bool_decide (u_role u = ServerAdmin)) all))%nat) -> Q (Ok tt) d) ->
  (forall e, Q (Err e) d) -> runs (demotion_guard (row_to_user uid r) role) d Q.
Proof.
  intros Hok He. destruct (list_rows_ok d) as [all Hall].
  assert (Hf : forall now, fst (list_user_rows 0 10000 now d) = Ok all) by (intros now; by rewrite Hall).
  unfold demotion_guard. cbn [u_role row_to_user].
  destruct (bool_decide (us_role r = ServerAdmin)) eqn:Hr; cbn [andb];
    [destruct (bool_decide (role = ServerAdmin)) eqn:Hn; cbn [negb]|].
  - apply runs_ret, (Hok all Hf). intros _ Hx. by apply bool_decide_eq_true in Hn.
  - apply runs_bind, runs_map_err, runs_tdb; [apply He|]. intros now. rewrite Hall. cbn [fst snd]. split; [|apply He].
    destruct (_ <=? 1)%nat eqn:Hc; [apply runs_throw, He|]. apply runs_ret, (Hok all Hf). intros _ _. apply Nat.leb_gt in Hc. exact Hc.
  - apply runs_ret, (Hok all Hf). intros Hx. by apply bool_decide_eq_false in Hr.
Qed.

(** The rest of a confirmation, after the code is used up. *)
Lemma runs_confirm_rest uid e d (Q : result Z unit -> TeamDb -> Prop) :
  (forall r, Q r d) ->
  (forall x r, td_users d !! uid = Some r -> Q x (put_user uid (written_back uid r (Some e) (us_role r)) d)) ->
  runs (let* r := fails_500 (tdb (user_get uid)) in
        let* current := ok_or 404 r in
        st_map_err (fun e => match e with UserExists => 409 | _ => 500 end) (update_user (u_set_email (Some e) current))) d Q.
Proof.
  intros Hd Hp. repeat account_step; auto. destruct (td_users d !! uid) as [r|] eqn:Hr; [|done].
  match goal with Hx : row_to_user _ <$> Some _ = Some _ |- _ => injection Hx as <- end.
  apply (runs_update_email uid r); [done|..]; intros; [apply Hd | by apply Hp].
Qed.

Lemma confirm_change t o :
  change (clock (of_ticks o)) (of_db o) (ConfirmEmail t) (of_db (snd (confirm_email_change t o))).
Proof.
  set (d := of_db o). unfold confirm_email_change, st_bind at 1, fails_500, st_map_err at 1, tdb at 1, consume_email_change_request.
  fold d. set (now := clock (of_ticks o)).
  destruct (td_email_changes d !! t) as [ec|] eqn:Ht; [|destruct (calls (of_ticks o)); apply ch_none].
  destruct (option_is_none (ec_consumed_at ec) && (now <? ec_expires_at ec)) eqn:Hv; [|destruct (calls (of_ticks o)); apply ch_none].
  apply andb_prop in Hv as [Hn He]. apply Z.ltb_lt in He.
  assert (Hn' : ec_consumed_at ec = None) by by destruct (ec_consumed_at ec).
  pose proof (ch_consumed now d t ec Ht Hn' He) as Hc. set (d1 := td_set_email_changes _ d) in *.
  destruct (calls (of_ticks o)); [|apply ch_none|exact Hc].
  set (o1 := mkOffice d1 _ _ _).
  refine (runs_confirm_rest (ec_user_id ec) (ec_new_email ec) d1 (fun _ d' => change now d (ConfirmEmail t) d') _ _ o1 eq_refl).
  - done.
  - intros _ r Hr. exact (ch_confirmed now d t ec r Ht Hn' He Hr).
Qed.

(** Every request changes the tables in one of these ways, whatever is lost. *)
Lemma account_change q o : change (clock (of_ticks o)) (of_db o) q (of_db (snd (handle_account q o))).
Proof.
  set (now := clock (of_ticks o)). set (d := of_db o).
  assert (Hruns : runs (handle_account q) d (fun _ d' => change now d q d') -> change now d q (of_db (snd (handle_account q o)))).
  { intros Hr. by apply (Hr o). }
  destruct q as [user|user new_email|token|user|limit offset|user_id role|user_id|user_id|id|id];
    [| |exact (confirm_change token o)|..]; apply Hruns; clear Hruns; cbn [handle_account].
  - apply runs_map_err, (runs_write _ _ (change now d (Register user))); [apply ch_none | intros; apply create_change | done].
  - unfold request_email_change. repeat account_step; try apply ch_none.
    apply (runs_write _ _ (change now d (RequestEmail user new_email))); [apply ch_none | |].
    + intros. by eapply ch_request, surjective_pairing.
    + intros [] d' Hd'; cbn beta iota; repeat account_step; done.
  - unfold remove_email. destruct (email_removal_blocker _ _) eqn:Hb; repeat account_step; try apply ch_none.
    destruct (td_users d !! su_id user) as [r|] eqn:Hr; [|done].
    match goal with Hx : row_to_user _ <$> Some _ = Some _ |- _ => injection Hx as <- end.
    apply (runs_update_email (su_id user) r); [done|..]; intros; [apply ch_none|].
    unfold email_removal_blocker in Hb. apply ch_removed; [| |done];
      [by destruct (su_email user) | by destruct (su_email user), (su_wallet_address user)].
  - unfold list_users. repeat account_step; apply ch_none.
  - unfold update_user_role. repeat account_step; try apply ch_none.
    match goal with Hx : row_to_user ?u <$> _ = Some _ |- _ => destruct (td_users d !! u) as [r|] eqn:Hr; [injection Hx as <-|done] end.
    apply runs_guard; [|intros; apply ch_none]. intros all Hall Hg. repeat account_step.
    apply (runs_update_role _ r); [done|..]; intros; [apply ch_none|]. by eapply ch_role.
  - unfold lock_user. repeat account_step; try apply ch_none.
    apply (runs_write _ _ (change now d (LockUser user_id))); [apply ch_none | intros; apply update_by_id_change; tauto | done].
  - unfold unlock_user. repeat account_step; try apply ch_none.
    apply (runs_write _ _ (change now d (UnlockUser user_id))); [apply ch_none | intros; apply update_by_id_change; tauto | done].
  - apply runs_bind, runs_map_err, (runs_write _ _ (change now d (FailedLogin id))); [apply ch_none | intros; apply increment_change |].
    intros [] d' Hd'; cbn beta iota; repeat account_step; done.
  - apply runs_map_err, (runs_write _ _ (change now d (GoodLogin id))); [apply ch_none | intros; apply update_by_id_change; tauto | done].
Qed.
End Facts.

(** * Accounts over time

    Who administers the server, what recovery relies on, and how the address of
    an account changes. *)

Section Life.
Context `{Runtime} `{PolicyNames} `{UuidText} `{Formats} `{MailHost} `{RoleNames}.

Definition account_run (o o' : TeamOffice) : Prop := exists q, o' = snd (handle_account q o).

(** ** Administrators *)

Definition is_admin (d : TeamDb) (id : Uuid) : Prop := exists r, td_users d !! id = Some r /\ us_role r = ServerAdmin.

Lemma put_user_admin d id r x :
  (forall r0, td_users d !! id = Some r0 -> us_role r0 = ServerAdmin -> us_role r = ServerAdmin) ->
  is_admin d x -> is_admin (put_user id r d) x.
Proof.
  intros Hr (r0 & Hold & Hrole). unfold is_admin. cbn. destruct (decide (id = x)) as [->|Hne].
  - rewrite lookup_insert_eq. exists r. split; [done|]. by apply (Hr r0).
  - rewrite lookup_insert_ne by done. by exists r0.
Qed.

(** The page of accounts the guard counts in: distinct accounts of the tables. *)
Lemma list_rows_spec d all : (forall now, fst (list_user_rows 0 10000 now d) = Ok all) ->
  NoDup (u_id <$> all) /\ forall u, u ∈ all -> exists r, td_users d !! u_id u = Some r /\ us_role r = u_role u.
Proof.
  intros Hall. specialize (Hall 0). unfold list_user_rows in Hall. cbn [Z.ltb Z.compare orb fst] in Hall. injection Hall as <-.
  set (rows := (fun kr => row_to_user kr.1 kr.2) <$> map_to_list (td_users d)).
  pose proof (merge_sort_Permutation newer rows) as Hp. rewrite drop_0. split.
  - eapply sublist_NoDup; [|apply (fmap_sublist u_id), sublist_take]. rewrite Hp. unfold rows. rewrite <- list_fmap_compose.
    apply NoDup_fst_map_to_list.
  - intros u Hu. assert (Hr : u ∈ rows) by (rewrite <- Hp; eapply elem_of_submseteq; [apply Hu | apply sublist_submseteq, sublist_take]).
    apply list_elem_of_fmap in Hr as ([id r] & -> & Hin%elem_of_map_to_list). by exists r.
Qed.

(** Of two administrators, one is another one. *)
Lemma another_of_two (p : User -> bool) l x : NoDup (u_id <$> l) -> (1 < length (List.filter p l))%nat ->
  exists u, u ∈ l /\ p u = true /\ u_id u <> x.
Proof.
  intros Hnd Hlen. destruct (List.filter p l) as [|a [|b rest]] eqn:Hf; cbn in Hlen; [lia..|].
  assert (Hin : forall u, u ∈ a :: b :: rest -> u ∈ l /\ p u = true).
  { intros u Hu. rewrite <- Hf in Hu. apply list_elem_of_In, filter_In in Hu as [Hu Hp]. by rewrite list_elem_of_In. }
  assert (Hab : u_id a <> u_id b).
  { assert (Hnd' : NoDup (u_id <$> a :: b :: rest)).
    { rewrite <- Hf. clear -Hnd. induction l as [|c l IH]; cbn in *; [constructor|]. apply NoDup_cons in Hnd as [Hc Hl].
      destruct (p c); [|by apply IH]. cbn. constructor; [|by apply IH]. intros Hx. apply Hc.
      apply list_elem_of_fmap in Hx as (y & -> & Hy). apply list_elem_of_fmap. exists y. split; [done|].
      apply list_elem_of_In, filter_In in Hy as [Hy _]. by apply list_elem_of_In. }
    cbn in Hnd'. apply NoDup_cons in Hnd' as [Hx _]. intros He. apply Hx. rewrite He. by left. }
  destruct (decide (u_id a = x)) as [<-|Hne].
  - exists b. destruct (Hin b) as [Hl Hp]; [by right; left|]. split_and!; [done..|congruence].
  - exists a. destruct (Hin a) as [Hl Hp]; [by left|]. by split_and!.
Qed.

Lemma change_keeps_admin began q d d' : change began d q d' -> (exists x, is_admin d x) -> exists x, is_admin d' x.
Proof.
  intros Hc [x Hx].
  destruct Hc as [q|u role Hn Hrole|u e token exp now d1 r Hcr|t ec Ht Hn He|t ec r Ht Hn He Hr|u r He Hw Hr
    |u name uid role r all Hu Hp Hr Hall Hg|q id f r Hr Hf].
  - by exists x.
  - exists x. apply put_user_admin; [|done]. intros r0 Hold. congruence.
  - exists x. revert Hcr. unfold create_email_change_request. destruct (_ || _); intros [= <- <-]; done.
  - by exists x.
  - exists x. apply (put_user_admin (td_set_email_changes _ d)); [|done]. cbn. intros r0 Hold Hr0. congruence.
  - exists x. apply put_user_admin; [|done]. cbn. intros r0 Hold Hr0. congruence.
  - destruct (decide (us_role r = ServerAdmin)) as [Ha|Ha], (decide (role = ServerAdmin)) as [Hs|Hs].
    + exists x. apply put_user_admin; [|done]. done.
    + destruct (list_rows_spec d all Hall) as [Hnd Hin].
      destruct (another_of_two _ all uid Hnd (Hg Ha Hs)) as (v & Hv & Hpv & Hne). apply bool_decide_eq_true in Hpv.
      destruct (Hin v Hv) as (rv & Hrv & Hrole). exists (u_id v). unfold is_admin. cbn. rewrite lookup_insert_ne by done.
      exists rv. split; [done|congruence].
    + exists x. apply put_user_admin; [|done]. done.
    + exists x. apply put_user_admin; [|done]. intros r0 Hold Hr0. congruence.
  - exists x. apply put_user_admin; [|done]. intros r0 Hold Hr0. assert (r0 = r) as -> by congruence.
    by destruct Hf as [-> | [-> | [-> | ->]]].
Qed.

(** C37. A server does not lose its last administrator to these routes.  Through
    any requests that register accounts, change or remove addresses, change
    roles, lock, unlock and count logins, one after the other and with anything
    lost, a server that has an administrator keeps one.  Deleting the own account
    is not among them, and has no such guard ([OfficeDemo.last_admin_leaves]). *)
Theorem last_admin_kept o o' :
  (exists id r, td_users (of_db o) !! id = Some r /\ us_role r = ServerAdmin) -> rtc account_run o o' ->
  exists id r, td_users (of_db o') !! id = Some r /\ us_role r = ServerAdmin.
Proof.
  intros (id & r & Hr) Hrun. assert (Hx : exists x, is_admin (of_db o) x) by (exists id, r; done). clear id r Hr.
  induction Hrun as [o|o o1 o2 [q ->] _ IH]; [by destruct Hx as (id & r & Hr); exists id, r|].
  apply IH. eapply change_keeps_admin; [apply account_change | done].
Qed.

(** ** The first account *)

(** Registrations with the default role, one transaction after the other. *)
Fixpoint register_all (users : list User) (d : TeamDb) : TeamDb :=
  match users with
  | [] => d
  | u :: rest => register_all rest (snd (create_user u 0 d))
  end.

Lemma create_user_later u d : td_users d <> ∅ -> u_role u = RegularUser -> forall x,
  is_admin (snd (create_user u 0 d)) x <-> is_admin d x.
Proof.
  intros Hne Hu x. unfold create_user. destruct (present (u_id u) (td_users d)) eqn:Hp; [done|]. cbn [orb].
  destruct (_ || _); [done|]. rewrite (bool_decide_eq_false_2 _ Hne), andb_false_r, Hu. cbn.
  apply bool_decide_eq_false in Hp. assert (Hn : td_users d !! u_id u = None) by by apply eq_None_not_Some.
  unfold is_admin. cbn. destruct (decide (u_id u = x)) as [<-|Hx].
  - rewrite lookup_insert_eq, Hn. naive_solver.
  - by rewrite lookup_insert_ne.
Qed.

Lemma create_user_nonempty u d : td_users d <> ∅ -> td_users (snd (create_user u 0 d)) <> ∅.
Proof.
  intros Hne. unfold create_user. destruct (_ || _); [done|]. cbn. apply insert_non_empty.
Qed.

Lemma register_all_later users : Forall (fun u => u_role u = RegularUser) users -> forall d, td_users d <> ∅ -> forall x,
  is_admin (register_all users d) x <-> is_admin d x.
Proof.
  induction 1 as [|u users Hu _ IH]; intros d Hne x; cbn; [done|].
  rewrite IH by by apply create_user_nonempty. by apply create_user_later.
Qed.

(** Exactly the first account becomes the administrator.  On a server
    without accounts, after registrations with the default role in any order,
    some of them refused as duplicates, the first one is registered and is the
    only administrator. *)
Theorem first_account_is_admin u users d :
  td_users d = ∅ -> Forall (fun v => u_role v = RegularUser) (u :: users) ->
  forall x, (exists r, td_users (register_all (u :: users) d) !! x = Some r /\ us_role r = ServerAdmin) <-> x = u_id u.
Proof.
  intros He Hf x. apply Forall_cons in Hf as [Hu Hf]. cbn [register_all].
  assert (Hc : is_admin (snd (create_user u 0 d)) x <-> x = u_id u).
  { unfold create_user, taken, present. rewrite He, lookup_empty, map_to_list_empty.
    assert (Hn : bool_decide (is_Some (None : option UserRow)) = false) by (apply bool_decide_eq_false; by intros [? ?]).
    assert (Ht : forall v : option string, match v with Some _ => false | None => false end = false) by by intros [].
    rewrite Hn. cbn [existsb]. rewrite !Ht, Hu. cbn. unfold is_admin. cbn.
    destruct (decide (u_id u = x)) as [<-|Hne]; [rewrite lookup_insert_eq | rewrite lookup_insert_ne, lookup_empty by done]; naive_solver. }
  rewrite <- Hc. apply register_all_later; [done|].
  unfold create_user. destruct (_ || _) eqn:Hd; [|cbn; apply insert_non_empty].
  exfalso. revert Hd. unfold taken, present. rewrite He, lookup_empty, map_to_list_empty.
  assert (Hn : bool_decide (is_Some (None : option UserRow)) = false) by (apply bool_decide_eq_false; by intros [? ?]).
  rewrite Hn. by destruct (u_email u), (u_wallet_address u).
Qed.

(** ** Recovery *)

(** Statements of the account routes and of login, interleaved in any way: an
    account that was read, at any time before, is written back with another
    address or role. *)
Inductive salt_step : TeamDb * list User -> TeamDb * list User -> Prop :=
| SA_read id d l : salt_step (d, l) (d, l ++ option_list (row_to_user id <$> td_users d !! id))
| SA_write u email role now d l : u ∈ l -> salt_step (d, l) (snd (update_user_row (u_set_role role (u_set_email email u)) now d), l)
| SA_register u now d l : u_id u ∉ (u_id <$> l) -> salt_step (d, l) (snd (create_user u now d), l)
| SA_row id f now d l :
    f = us_set_locked None \/ (exists t, f = us_set_locked (Some t)) \/ (exists n, f = us_set_failed n) ->
    salt_step (d, l) (snd (update_by_id id f now d), l).

(** Everyone who read an account knows the salt identifier it has. *)
Definition salts_known (s : TeamDb * list User) : Prop :=
  forall u r, u ∈ s.2 -> td_users s.1 !! u_id u = Some r -> u_kdf_salt_identifier u = salt_of (u_id u) r.

Definition salts_kept (d d' : TeamDb) : Prop :=
  forall id r, td_users d !! id = Some r -> exists r', td_users d' !! id = Some r' /\ salt_of id r' = salt_of id r.

Lemma salts_kept_put d id r r0 : td_users d !! id = Some r0 -> salt_of id r = salt_of id r0 -> salts_kept d (put_user id r d).
Proof.
  intros Hold Hs x rx Hx. cbn. destruct (decide (id = x)) as [<-|Hne].
  - rewrite lookup_insert_eq. exists r. split; [done|]. congruence.
  - rewrite lookup_insert_ne by done. by exists rx.
Qed.

Lemma salts_known_put d id r r0 l : td_users d !! id = Some r0 -> salt_of id r = salt_of id r0 ->
  salts_known (d, l) -> salts_known (put_user id r d, l).
Proof.
  intros Hold Hs Hk u ru Hu. cbn in *. destruct (decide (id = u_id u)) as [->|Hne].
  - rewrite lookup_insert_eq. intros [= <-]. rewrite Hs. by apply (Hk u r0).
  - rewrite lookup_insert_ne by done. by apply Hk.
Qed.

Lemma salt_step_inv s s' : salt_step s s' -> salts_known s -> salts_known s' /\ salts_kept s.1 s'.1.
Proof.
  intros Hs Hk. assert (Hrefl : salts_kept s.1 s.1) by (intros id r Hr; by exists r).
  destruct Hs as [id d l|u email role now d l Hu|u now d l Hu|id f now d l Hf]; cbn [fst] in *.
  - split; [|done]. intros u r [Hu|Hu]%elem_of_app; [by apply Hk|]. cbn. destruct (td_users d !! id) as [r0|] eqn:Hr0; cbn in Hu;
      [|by apply elem_of_nil in Hu]. apply list_elem_of_singleton in Hu as ->. cbn. rewrite Hr0. by intros [= ->].
  - unfold update_user_row. cbn. destruct (td_users d !! u_id u) as [r|] eqn:Hr; [|done].
    assert (Hsalt : u_kdf_salt_identifier u = salt_of (u_id u) r) by by apply Hk.
    rewrite Hsalt, salt_accepted. destruct (_ || _); [done|]. cbn. rewrite salt_pinned.
    split; [by eapply salts_known_put | by eapply salts_kept_put].
  - unfold create_user. destruct (present (u_id u) (td_users d)) eqn:Hp; [done|]. cbn [orb]. destruct (_ || _); [done|]. cbn.
    apply bool_decide_eq_false in Hp. assert (Hn : td_users d !! u_id u = None) by by apply eq_None_not_Some. split.
    + intros v r Hv. cbn. rewrite lookup_insert_ne; [by apply Hk|]. intros He. apply Hu. rewrite He. by apply list_elem_of_fmap_2.
    + intros x rx Hx. cbn. rewrite lookup_insert_ne by congruence. by exists rx.
  - unfold update_by_id. destruct (td_users d !! id) as [r|] eqn:Hr; [|done].
    assert (Hsalt : salt_of id (f r) = salt_of id r) by by destruct Hf as [-> | [[t ->] | [n ->]]].
    split; [by eapply salts_known_put | by eapply salts_kept_put].
Qed.

(** What recovery is salted with never changes.  However the statements of
    registration, login, address changes, role changes and locking interleave,
    also when an account is written back long after it was read, every account
    keeps the salt identifier it has, stored or computed, and no write of an
    account that was read is refused for its identifier. *)
Theorem recovery_salt_pinned d d' l :
  rtc salt_step (d, []) (d', l) ->
  (forall id r, td_users d !! id = Some r -> exists r', td_users d' !! id = Some r' /\ salt_of id r' = salt_of id r) /\
  (forall u email role now, u ∈ l -> is_Some (td_users d' !! u_id u) ->
     fst (update_user_row (u_set_role role (u_set_email email u)) now d') <> Ok 0%nat).
Proof.
  intros Hrun.
  assert (Hinv : salts_known (d', l) /\ salts_kept d d').
  { assert (Hg : forall s s', rtc salt_step s s' -> salts_known s -> salts_known s' /\ salts_kept s.1 s'.1).
    { induction 1 as [s|s1 s2 s3 Hs _ IH]; intros Hk; [split; [done|]; intros id r Hr; by exists r|].
      destruct (salt_step_inv _ _ Hs Hk) as [Hk2 H12]. destruct (IH Hk2) as [Hk3 H23]. split; [done|].
      intros id r Hr. destruct (H12 id r Hr) as (r2 & Hr2 & Hs2). destruct (H23 id r2 Hr2) as (r3 & Hr3 & Hs3).
      exists r3. split; [done|]. congruence. }
    apply (Hg _ _ Hrun). intros u r Hu. by apply elem_of_nil in Hu. }
  destruct Hinv as [Hk Hkept]. split; [done|]. intros u email role now Hu [r Hr]. unfold update_user_row. cbn. rewrite Hr.
  rewrite (Hk u r Hu Hr), salt_accepted. by destruct (_ || _).
Qed.

(** ** Addresses *)

Lemma consumed_stays began q d d' t ec a :
  change began d q d' -> td_email_changes d !! t = Some ec -> ec_consumed_at ec = Some a -> td_email_changes d' !! t = Some ec.
Proof.
  intros Hc Ht Ha.
  destruct Hc as [q|u role Hn Hrole|u e token exp now d1 r Hcr|t' ec' Ht' Hn He|t' ec' r Ht' Hn He Hr|u r He Hw Hr
    |u name uid role r all Hu Hp Hr Hall Hg|q id f r Hr Hf]; try done.
  - revert Hcr. unfold create_email_change_request. set (others := match open_change _ _ with Some old => _ | None => _ end).
    assert (Ho : others !! t = Some ec).
    { unfold others, open_change. destruct (List.filter _ _) as [|[old row] rest] eqn:Hf; cbn; [done|].
      assert (Hin : In (old, row) ((old, row) :: rest)) by by left. rewrite <- Hf in Hin.
      apply filter_In in Hin as [Hin Hv]. apply list_elem_of_In, elem_of_map_to_list in Hin. cbn in Hv.
      apply andb_prop in Hv as [_ Hv]. rewrite lookup_delete_ne; [done|]. intros ->. assert (row = ec) as -> by congruence.
      by rewrite Ha in Hv. }
    clearbody others. destruct (present token others) eqn:Hp; cbn [orb]; [by intros [= <- <-]|].
    destruct (_ || _); intros [= <- <-]; [done|]. cbn. rewrite lookup_insert_ne; [done|]. intros ->.
    unfold present in Hp. by rewrite Ho in Hp.
  - cbn. rewrite lookup_insert_ne; [done|]. intros ->. congruence.
  - cbn. rewrite lookup_insert_ne; [done|]. intros ->. congruence.
Qed.

Lemma consumed_refused t o ec a :
  td_email_changes (of_db o) !! t = Some ec -> ec_consumed_at ec = Some a ->
  (fst (confirm_email_change t o) = Err 400 \/ fst (confirm_email_change t o) = Err 500) /\
  of_db (snd (confirm_email_change t o)) = of_db o.
Proof.
  intros Ht Ha. unfold confirm_email_change, st_bind, fails_500, st_map_err, tdb, consume_email_change_request.
  rewrite Ht, Ha. destruct (calls (of_ticks o)); cbn; auto.
Qed.

(** An address changes by its code, once.  If a request changes the address
    of an account, it is the confirmation of a code that was issued to this
    account for the new address, not used and not expired, and that code is
    refused ever after; or the holder of the account removes the address and
    has a wallet to recover with. *)
Theorem address_changes_by_code q o id r r' :
  td_users (of_db o) !! id = Some r ->
  td_users (of_db (snd (handle_account q o))) !! id = Some r' ->
  us_email r' <> us_email r ->
  (exists t ec, q = ConfirmEmail t /\ td_email_changes (of_db o) !! t = Some ec /\ ec_user_id ec = id /\
     us_email r' = Some (ec_new_email ec) /\ ec_consumed_at ec = None /\ clock (of_ticks o) < ec_expires_at ec /\
     forall o2, rtc account_run (snd (handle_account q o)) o2 ->
       (fst (confirm_email_change t o2) = Err 400 \/ fst (confirm_email_change t o2) = Err 500) /\
       of_db (snd (confirm_email_change t o2)) = of_db o2) \/
  (exists u, q = RemoveEmail u /\ su_id u = id /\ us_email r' = None /\ su_wallet_address u <> None).
Proof.
  intros Hr Hr' Hne. pose proof (account_change q o) as Hc. set (o' := snd (handle_account q o)) in *.
  remember (of_db o') as d' eqn:Hd'. remember (of_db o) as d eqn:Hd.
  assert (Hsame : forall r0, td_users d !! id = Some r0 -> us_email r0 = us_email r) by (intros r0 Hx; congruence).
  destruct Hc as [q|u role Hn Hrole|u e token exp now d1 x Hcr|t ec Ht Hn He|t ec r0 Ht Hn He Hr0|u r0 He Hw Hr0
    |u name uid role r0 all Hu Hp Hr0 Hall Hg|q uid f r0 Hr0 Hf].
  - congruence.
  - cbn in Hr'. rewrite lookup_insert_ne in Hr' by congruence. congruence.
  - revert Hcr. unfold create_email_change_request. destruct (_ || _); intros [= <- <-]; cbn in Hr'; congruence.
  - cbn in Hr'. congruence.
  - left. exists t, ec. cbn in Hr'. destruct (decide (ec_user_id ec = id)) as [Hid|Hid];
      [|rewrite lookup_insert_ne in Hr' by done; congruence].
    rewrite Hid, lookup_insert_eq in Hr'. injection Hr' as <-. split_and!; try done.
    intros o2 Hrun.
    assert (Hstay : exists ec' a, td_email_changes (of_db o2) !! t = Some ec' /\ ec_consumed_at ec' = Some a).
    { assert (Hfirst : exists ec' a, td_email_changes (of_db o') !! t = Some ec' /\ ec_consumed_at ec' = Some a).
      { rewrite <- Hd'. cbn. rewrite lookup_insert_eq. by do 2 eexists. }
      clearbody o'. clear -Hrun Hfirst. induction Hrun as [x|x x1 x2 [q ->] _ IH]; [done|]. apply IH.
      destruct Hfirst as (ec & a & Ht & Ha). exists ec, a. split; [|done]. eapply consumed_stays; [apply account_change | done..]. }
    destruct Hstay as (ec' & a & Ht' & Ha). by eapply consumed_refused.
  - right. exists u. cbn in Hr'. destruct (decide (su_id u = id)) as [Hid|Hid];
      [|rewrite lookup_insert_ne in Hr' by done; congruence].
    rewrite Hid, lookup_insert_eq in Hr'. injection Hr' as <-. by split_and!.
  - cbn in Hr'. destruct (decide (uid = id)) as [->|Hid]; [|rewrite lookup_insert_ne in Hr' by done; congruence].
    rewrite lookup_insert_eq in Hr'. injection Hr' as <-. cbn in Hne. by rewrite (Hsame r0) in Hne.
  - cbn in Hr'. destruct (decide (uid = id)) as [->|Hid]; [|rewrite lookup_insert_ne in Hr' by done; congruence].
    rewrite lookup_insert_eq in Hr'. injection Hr' as <-. destruct Hne. rewrite <- (Hsame r0 Hr0). by destruct Hf as [-> | [-> | [-> | ->]]].
Qed.
End Life.
