(* ===== verification/ServerSettings.v ===== *)
(** * Server settings and the payment-method routes

    The administrator's settings ([server/src/api/admin/mod.rs] with
    [data-service/src/postgres/auth/server_settings.rs]) decide which chains a
    store may be paid on: [server/src/api/stores/payment_methods.rs] checks
    every method against them.  Here are both, over the wallet tables, and which
    chains a server takes payments on, and for whom it bills. *)

From stdpp Require Import gmap strings list sorting relations.
From Stdlib Require Import ZArith Lia.
From S2P Require Import Prelude Events Network Decimal LiveWatch Database Services ApiKeys Wallets WalletFacts WalletRouting.
From S2P Require Import Derivation Invoicing ApiAuth Office Teams.

#[local] Open Scope Z_scope.

(** ** Settings *)

(** [auth::ServerSettings]; chain ids are CAIP-2 text *)
Record ServerSettings := mkServerSettings {
  ss_default_confirmations : Z;
  ss_invoice_expiry_minutes : Z;
  ss_rate_limit_rpm : Z;
  ss_enabled_chain_ids : list string;
  ss_operator_store_id : option Uuid
}.

(** [ServerSettings::default], of another crate *)
Class ServerDefaults := { default_server_settings : ServerSettings }.

(** The settings row next to the rest. *)
Record Backoffice := mkBackoffice {
  bo_site : Site;
  bo_settings : option ServerSettings
}.

(** What the server was started with. *)
Record AppState := mkAppState {
  ap_mainnet_enabled : bool;
  ap_operator_account_id : option Uuid;
  ap_operator_store_id : option Uuid
}.

(** [ChainCheckContext] *)
Inductive ChainCheckContext := NewChain | ExistingChain.

Section Settings.
Context `{Runtime} `{Formats} `{PolicyNames} `{UuidText} `{ServerDefaults} `{HdKeys}.

Abbreviation Page A := (St Backoffice Z A).

Definition on_site {E A} (m : St Site E A) : St Backoffice E A :=
  fun b => let '(r, s) := m (bo_site b) in (r, mkBackoffice s (bo_settings b)).

(** One statement on the settings row. *)
Definition sdb {A} (stmt : option ServerSettings -> A * option ServerSettings) : St Backoffice RepositoryError A :=
  fun b =>
    let sv := st_server (bo_site b) in
    let site := mkSite (tick sv) (st_wallets (bo_site b)) in
    match calls (sv_ticks sv) with
    | Answered => let '(a, s) := stmt (bo_settings b) in (Ok a, mkBackoffice site s)
    | NotSent => (Err db_lost, mkBackoffice site (bo_settings b))
    | ReplyLost => (Err db_lost, mkBackoffice site (snd (stmt (bo_settings b))))
    end.

(** [ServerSettingsRepository::get_server_settings], [upsert_server_settings] *)
Definition get_server_settings : St Backoffice RepositoryError (option ServerSettings) := sdb (fun s => (s, s)).
Definition upsert_server_settings (settings : ServerSettings) : St Backoffice RepositoryError unit :=
  sdb (fun _ => (tt, Some settings)).

(** [.map_err(|_| StatusCode::INTERNAL_SERVER_ERROR)] *)
Definition or_500 {A} (m : St Backoffice RepositoryError A) : Page A := st_map_err (fun _ => 500) m.

(** [unconfigured_chain_ids] *)
Definition unconfigured_chain_ids : list string := (fun config => chain_id_evm (cc_chain_id config)) <$> ALL_TESTNETS.

(** [is_mainnet_chain_id] *)
Definition is_mainnet_chain_id (id : string) : bool :=
  match evm_chain_id id with Some cid => option_is_some (get_chain_config_by_id cid) | None => false end.

(** [guard_mainnet_chain_ids] *)
Definition guard_mainnet_chain_ids (enabled_chain_ids : list string) (mainnet_enabled : bool) : result Z unit :=
  if negb (existsb is_mainnet_chain_id enabled_chain_ids) then Ok tt
  else if negb mainnet_enabled then Err 403
  else Ok tt.

(** The settings a server without a row goes by. *)
Definition current_settings (row : option ServerSettings) : ServerSettings :=
  let current_chain_ids := match row with
                           | Some settings => ss_enabled_chain_ids settings
                           | None => unconfigured_chain_ids
                           end in
  let rest := default default_server_settings row in
  mkServerSettings (ss_default_confirmations rest) (ss_invoice_expiry_minutes rest) (ss_rate_limit_rpm rest)
    current_chain_ids (ss_operator_store_id rest).

(** [get_settings]: and whether the stored operator store is the one in use *)
Definition get_server_page (ap : AppState) : Page (ServerSettings * bool) :=
  let* row := or_500 get_server_settings in
  let settings := current_settings row in
  st_ret (settings, bool_decide (ap_operator_store_id ap = ss_operator_store_id settings)).

(** [owned_by_operator] *)
Definition owned_by_operator (store : option StoreRow) (operator_account_id : option Uuid) : bool :=
  match store, operator_account_id with
  | Some store, Some id => so_owner_id store =? id
  | _, _ => false
  end.

(** [billable] *)
Definition billable (methods : list StorePaymentMethod) : bool :=
  match methods with
  | [] => false
  | _ => negb (forallb (fun m => option_is_none (spm_wallet_id m)) methods)
  end.

(** [validate_operator_store] *)
Definition validate_operator_store (ap : AppState) (store_id : Uuid) : Page unit :=
  let* store := or_500 (on_site (wdb (get_store_row store_id))) in
  if negb (owned_by_operator store (ap_operator_account_id ap)) then st_throw 422
  else
    let* methods := or_500 (on_site (wdb (get_enabled_payment_methods store_id))) in
    if negb (billable methods) then st_throw 422 else st_ret tt.

(** [UpdateServerSettingsRequest]; the operator store is absent, cleared or
    set. *)
Record UpdateServerSettingsRequest := mkUpdateServerSettingsRequest {
  up_default_confirmations : Z;
  up_invoice_expiry_minutes : Z;
  up_rate_limit_rpm : Z;
  up_enabled_chain_ids : option (list string);
  up_operator_store_id : option (option Uuid)
}.

(** [update_settings] *)
Definition update_settings (ap : AppState) (body : UpdateServerSettingsRequest) : Page unit :=
  let* row := or_500 get_server_settings in
  let current := current_settings row in
  let operator_store_id := default (ss_operator_store_id current) (up_operator_store_id body) in
  do* (match operator_store_id with
       | Some store_id =>
           if bool_decide (operator_store_id <> ss_operator_store_id current) then validate_operator_store ap store_id
           else st_ret tt
       | None => st_ret tt
       end);
  let enabled_chain_ids := default (ss_enabled_chain_ids current) (up_enabled_chain_ids body) in
  do* st_lift (guard_mainnet_chain_ids enabled_chain_ids (ap_mainnet_enabled ap));
  or_500 (upsert_server_settings (mkServerSettings (up_default_confirmations body) (up_invoice_expiry_minutes body)
            (up_rate_limit_rpm body) enabled_chain_ids operator_store_id)).

(** ** Payment methods *)

(** [require_store_settings_permission] *)
Definition require_settings (c : StoreScopedUser) (store_id : Uuid) : Page unit :=
  if bool_decide (ui_role (ssu_user c) = ServerAdmin) then st_ret tt
  else
    let* has := or_500 (on_site (wdb (user_has_store_permission (ui_id (ssu_user c)) store_id MODIFY_SETTINGS))) in
    if has && key_grants_store_permission (ssu_key_scope c) MODIFY_SETTINGS store_id then st_ret tt else st_throw 403.

(** [repository_error] *)
Definition repository_error (e : RepositoryError) : Z :=
  match e with Conflict _ => 409 | NotFound _ => 404 | _ => 500 end.

(** [chain_has_no_adapter] *)
Definition chain_has_no_adapter (chain_id : string) (settings : option ServerSettings) (context : ChainCheckContext) : bool :=
  match settings with
  | Some settings => negb (contains (ss_enabled_chain_ids settings) chain_id)
  | None =>
      match context with
      | NewChain => option_is_none (c ← evm_chain_id chain_id; get_testnet_config c)
      | ExistingChain => option_is_none (c ← evm_chain_id chain_id; get_any_chain_config c)
      end
  end.

(** [update_should_check_chain] *)
Definition update_should_check_chain (requested_enabled : option bool) : bool :=
  negb (bool_decide (requested_enabled = Some false)).

(** A key the request brings has to be an account's extended public key. *)
Definition check_xpub (xpub : option string) : Page unit :=
  match xpub with
  | Some x => if negb (validate_xpub x) then st_throw 400 else if xpub_depth_problem x then st_throw 400 else st_ret tt
  | None => st_ret tt
  end.

(** [list_payment_methods] *)
Definition list_payment_methods (c : StoreScopedUser) (store_id : Uuid) : Page (list StorePaymentMethod) :=
  do* require_settings c store_id;
  or_500 (on_site (wdb (get_payment_methods store_id))).

(** [CreatePaymentMethodRequest] *)
Record CreatePaymentMethodRequest := mkCreatePaymentMethodRequest {
  cp_chain_id : string;
  cp_token_address : option string;
  cp_asset_symbol : string;
  cp_decimals : Z;
  cp_xpub : option string
}.

(** [create_payment_method], the route *)
Definition create_method (c : StoreScopedUser) (store_id : Uuid) (req : CreatePaymentMethodRequest) : Page StorePaymentMethod :=
  do* require_settings c store_id;
  do* check_xpub (cp_xpub req);
  let* settings := or_500 get_server_settings in
  if chain_has_no_adapter (cp_chain_id req) settings NewChain then st_throw 400
  else
    let* store := or_500 (on_site (wdb (get_store_row store_id))) in
    do* ok_or 404 store;
    st_map_err repository_error (on_site (create_payment_method store_id (cp_chain_id req) (cp_token_address req)
      (cp_asset_symbol req) (cp_decimals req) (cp_xpub req))).

(** The method of this store. *)
Definition method_of (store_id method_id : Uuid) : Page StorePaymentMethod :=
  let* r := or_500 (on_site (wdb (get_payment_method method_id))) in
  let* existing := ok_or 404 r in
  if negb (spm_store_id existing =? store_id) then st_throw 404 else st_ret existing.

(** [get_payment_method], the route *)
Definition get_method (c : StoreScopedUser) (store_id method_id : Uuid) : Page StorePaymentMethod :=
  do* require_settings c store_id;
  method_of store_id method_id.

(** [update_payment_method], the route *)
Definition update_method (c : StoreScopedUser) (store_id method_id : Uuid) (enabled : option bool) (xpub : option string)
  : Page StorePaymentMethod :=
  do* require_settings c store_id;
  do* check_xpub xpub;
  let* existing := method_of store_id method_id in
  do* (if update_should_check_chain enabled then
         let* settings := or_500 get_server_settings in
         if chain_has_no_adapter (spm_chain_id existing) settings ExistingChain then st_throw 400 else st_ret tt
       else st_ret tt);
  st_map_err repository_error (on_site (update_payment_method method_id enabled xpub)).

(** [delete_payment_method], the route *)
Definition delete_method (c : StoreScopedUser) (store_id method_id : Uuid) : Page unit :=
  do* require_settings c store_id;
  do* method_of store_id method_id;
  st_map_err (fun e => match e with NotFound _ => 404 | _ => 500 end) (on_site (wdb (delete_payment_method method_id))).
End Settings.

(** ** What the settings guarantee *)

Section Facts.
Context `{Runtime} `{Formats} `{PolicyNames} `{UuidText} `{ServerDefaults} `{HdKeys}.

(** ** Reasoning about a page

    [serves m v Q]: from any server with these wallet tables and settings,
    whatever is lost, [m] ends in an outcome and tables that satisfy [Q]. *)

Definition view (b : Backoffice) : WalletDb * option ServerSettings := (st_wallets (bo_site b), bo_settings b).

Definition serves {E A} (m : St Backoffice E A) (v : WalletDb * option ServerSettings)
    (Q : result E A -> WalletDb * option ServerSettings -> Prop) : Prop :=
  forall b, view b = v -> Q (fst (m b)) (view (snd (m b))).

Lemma serves_ret {E A} (a : A) v (Q : result E A -> _) : Q (Ok a) v -> serves (st_ret a) v Q.
Proof. by intros HQ b <-. Qed.
Lemma serves_throw {E A} (e : E) v (Q : result E A -> _) : Q (Err e) v -> serves (st_throw e) v Q.
Proof. by intros HQ b <-. Qed.
Lemma serves_lift {E A} (r : result E A) v (Q : result E A -> _) : Q r v -> serves (st_lift r) v Q.
Proof. by intros HQ b <-. Qed.
Lemma serves_bind {E A B} (m : St Backoffice E A) (f : A -> St Backoffice E B) v (Q : result E B -> _) :
  serves m v (fun r v' => match r with Ok a => serves (f a) v' Q | Err e => Q (Err e) v' end) -> serves (st_bind m f) v Q.
Proof.
  intros Hm b Hb. specialize (Hm b Hb). unfold st_bind. destruct (m b) as [[a|e] b']; cbn in Hm |- *; [by apply Hm | done].
Qed.
Lemma serves_map_err {E E' A} (g : E -> E') (m : St Backoffice E A) v (Q : result E' A -> _) :
  serves m v (fun r v' => Q (match r with Ok a => Ok a | Err e => Err (g e) end) v') -> serves (st_map_err g m) v Q.
Proof. intros Hm b Hb. specialize (Hm b Hb). unfold st_map_err. by destruct (m b) as [[a|e] b']. Qed.
Lemma serves_ok_or {A} status (x : option A) v (Q : result Z A -> _) :
  (forall a, x = Some a -> Q (Ok a) v) -> Q (Err status) v -> serves (ok_or status x) v Q.
Proof. intros Ha Hn. destruct x; [by apply serves_ret, Ha | by apply serves_throw]. Qed.

Lemma serves_settings v (Q : result RepositoryError (option ServerSettings) -> _) :
  Q (Ok v.2) v -> (forall e, Q (Err e) v) -> serves get_server_settings v Q.
Proof. intros Ha He b <-. unfold get_server_settings, sdb. destruct (calls _); [exact Ha | apply He | apply He]. Qed.
Lemma serves_upsert s v (Q : result RepositoryError unit -> _) :
  (forall e, Q (Err e) v) -> (forall r, Q r (v.1, Some s)) -> serves (upsert_server_settings s) v Q.
Proof. intros He Ha b <-. unfold upsert_server_settings, sdb. destruct (calls _); [apply Ha | apply He | apply Ha]. Qed.
Lemma serves_read {A} (f : WalletDb -> A) v (Q : result RepositoryError A -> _) :
  Q (Ok (f v.1)) v -> (forall e, Q (Err e) v) -> serves (on_site (wdb (wselect f))) v Q.
Proof. intros Ha He b <-. unfold on_site, wdb. destruct (calls _); [exact Ha | apply He | apply He]. Qed.

(** A program on the wallet tables that keeps an invariant of them. *)
Lemma serves_site {E A} (I : WalletDb -> Prop) (m : St Site E A) v (Q : result E A -> _) :
  preserves (fun s => I (st_wallets s)) m -> I v.1 -> (forall r d, I d -> Q r (d, v.2)) -> serves (on_site m) v Q.
Proof.
  intros Hm Hi HQ b <-. specialize (Hm (bo_site b) Hi). unfold on_site. destruct (m (bo_site b)) as [r s]. by apply HQ.
Qed.

Lemma serves_require c store v (Q : result Z unit -> _) :
  Q (Ok tt) v -> (forall e, Q (Err e) v) -> serves (require_settings c store) v Q.
Proof.
  intros Ha He. unfold require_settings. case_bool_decide; [by apply serves_ret|].
  apply serves_bind, serves_map_err, serves_read; [|intros; apply He]. cbn beta iota.
  by destruct (_ && _); [apply serves_ret | apply serves_throw].
Qed.

Lemma serves_check xpub v (Q : result Z unit -> _) :
  Q (Ok tt) v -> (forall e, Q (Err e) v) -> serves (check_xpub xpub) v Q.
Proof.
  intros Ha He. unfold check_xpub. destruct xpub; [|by apply serves_ret].
  repeat case_match; first [by apply serves_ret | apply serves_throw, He].
Qed.

Lemma serves_method store id v (Q : result Z StorePaymentMethod -> _) :
  (forall m, Q (Ok m) v) -> (forall e, Q (Err e) v) -> serves (method_of store id) v Q.
Proof.
  intros Ha He. unfold method_of. apply serves_bind, serves_map_err, serves_read; [|intros; apply He]. cbn beta iota.
  apply serves_bind, serves_ok_or; [|apply He]. intros m _. destruct (negb _); [apply serves_throw, He | apply serves_ret, Ha].
Qed.

Ltac page_step :=
  match goal with
  | |- serves (st_bind _ _) _ _ => apply serves_bind
  | |- serves (st_ret _) _ _ => apply serves_ret
  | |- serves (st_throw _) _ _ => apply serves_throw
  | |- serves (st_map_err _ _) _ _ => apply serves_map_err
  | |- serves (or_500 _) _ _ => apply serves_map_err
  | |- serves (ok_or _ _) _ _ => apply serves_ok_or; [intros ? ?|]
  | |- serves (require_settings _ _) _ _ => apply serves_require; [|intros ?]
  | |- serves (check_xpub _) _ _ => apply serves_check; [|intros ?]
  | |- serves (method_of _ _) _ _ => apply serves_method; intros ?
  | |- serves get_server_settings _ _ => apply serves_settings; [|intros ?]
  | |- serves (on_site (wdb (get_store_row _))) _ _ => apply serves_read; [|intros ?]
  | |- serves (on_site (wdb (get_payment_methods _))) _ _ => apply serves_read; [|intros ?]
  | |- serves (on_site (wdb (get_enabled_payment_methods _))) _ _ => apply serves_read; [|intros ?]
  | |- serves (if ?b then _ else _) _ _ => destruct b eqn:?
  end; cbn beta iota.

(** ** Requests *)

Inductive PageRequest :=
| GetServer (ap : AppState)
| UpdateServer (ap : AppState) (body : UpdateServerSettingsRequest)
| ListMethods (c : StoreScopedUser) (store : Uuid)
| CreateMethod (c : StoreScopedUser) (store : Uuid) (req : CreatePaymentMethodRequest)
| GetMethod (c : StoreScopedUser) (store method : Uuid)
| UpdateMethod (c : StoreScopedUser) (store method : Uuid) (enabled : option bool) (xpub : option string)
| DeleteMethod (c : StoreScopedUser) (store method : Uuid).

Definition handle_page (q : PageRequest) : St Backoffice Z unit :=
  match q with
  | GetServer ap => let* _ := get_server_page ap in st_ret tt
  | UpdateServer ap body => update_settings ap body
  | ListMethods c s => let* _ := list_payment_methods c s in st_ret tt
  | CreateMethod c s req => let* _ := create_method c s req in st_ret tt
  | GetMethod c s m => let* _ := get_method c s m in st_ret tt
  | UpdateMethod c s m e x => let* _ := update_method c s m e x in st_ret tt
  | DeleteMethod c s m => delete_method c s m
  end.

(** The server a request is made to. *)
Definition asked_of (ap : AppState) (q : PageRequest) : Prop :=
  match q with GetServer ap' | UpdateServer ap' _ => ap' = ap | _ => True end.

(** ** Mainnet *)

Definition methods_closed (d : WalletDb) : Prop :=
  forall i m, wd_methods d !! i = Some m -> is_mainnet_chain_id (pm_chain_id m) = false.
Definition settings_closed (s : option ServerSettings) : Prop :=
  forall row c, s = Some row -> c ∈ ss_enabled_chain_ids row -> is_mainnet_chain_id c = false.
Definition closed (v : WalletDb * option ServerSettings) : Prop := methods_closed v.1 /\ settings_closed v.2.

Lemma testnet_not_mainnet c cfg : get_testnet_config c = Some cfg -> get_chain_config_by_id c = None.
Proof.
  intros Ht. destruct (get_chain_config_by_id c) as [cfg'|] eqn:Hm; [|done]. exfalso.
  apply find_some in Ht as [Hin Hc], Hm as [Hin' Hc']. apply Z.eqb_eq in Hc, Hc'.
  pose proof offered_chain_ids_NoDup as Hnd. unfold offered_chains in Hnd. rewrite fmap_app in Hnd.
  apply NoDup_app in Hnd as (_ & Hdis & _). apply (Hdis c).
  - rewrite <- Hc'. by apply list_elem_of_fmap_2, list_elem_of_In.
  - rewrite <- Hc. by apply list_elem_of_fmap_2, list_elem_of_In.
Qed.

Lemma adapter_not_mainnet chain s : settings_closed s -> chain_has_no_adapter chain s NewChain = false -> is_mainnet_chain_id chain = false.
Proof.
  intros Hs. unfold chain_has_no_adapter. destruct s as [row|].
  - intros Hc%negb_false_iff. unfold contains in Hc. apply existsb_exists in Hc as (x & Hx & <-%String.eqb_eq).
    by apply (Hs row x eq_refl), list_elem_of_In.
  - unfold is_mainnet_chain_id. destruct (evm_chain_id chain) as [c|]; [|done].
    change (option_is_none (get_testnet_config c) = false -> option_is_some (get_chain_config_by_id c) = false).
    destruct (get_testnet_config c) as [cfg|] eqn:Ht; [|done]. intros _. by rewrite (testnet_not_mainnet c cfg Ht).
Qed.

Lemma guard_closed ids : guard_mainnet_chain_ids ids false = Ok tt -> forall c, c ∈ ids -> is_mainnet_chain_id c = false.
Proof.
  unfold guard_mainnet_chain_ids. destruct (existsb _ ids) eqn:He; [done|]. intros _ c Hc.
  apply not_true_is_false. intros Hm. rewrite <- not_true_iff_false in He. apply He, existsb_exists. exists c.
  by rewrite <- list_elem_of_In.
Qed.

Lemma wdb_keeps {A} (I : WalletDb -> Prop) (stmt : WStatement A) :
  (forall now d, I d -> I (snd (stmt now d))) -> preserves (fun s => I (st_wallets s)) (wdb stmt).
Proof.
  intros Hs s Hi. specialize (Hs (clock (sv_ticks (st_server s))) (st_wallets s) Hi). unfold wdb.
  destruct (calls _); [|done..]. by destruct (stmt _ _).
Qed.

Lemma uuid_keeps (I : WalletDb -> Prop) : preserves (fun s => I (st_wallets s)) db_uuid.
Proof. intros s Hi. exact Hi. Qed.

Lemma for_store_closed id store ns xpub now d : methods_closed d -> methods_closed (snd (wallet_for_store_xpub id store ns xpub now d)).
Proof.
  intros Hd. unfold wallet_for_store_xpub. destruct (wd_stores d !! store); [|done].
  destruct (create_wallet _ _ _ _ _ _ _) as [r d'] eqn:Hc. destruct (create_wallet_frame _ _ _ _ _ _ _ _ _ Hc) as (_ & Hm & _).
  destruct r as [[]|]; cbn; unfold methods_closed; by rewrite Hm.
Qed.

Lemma put_method_closed i m d : is_mainnet_chain_id (pm_chain_id m) = false -> methods_closed d ->
  methods_closed (wd_set_methods (<[i := m]> (wd_methods d)) d).
Proof. intros Hm Hd j m'. cbn. intros [[<- <-]|[_ Hj]]%lookup_insert_Some; [done | by eapply Hd]. Qed.

Lemma read_method_keeps (I : WalletDb -> Prop) id : preserves (fun s => I (st_wallets s))
  (let* r := wdb (get_payment_method id) in
   match r with Some m => st_ret m | None => st_throw (NotFound "payment method not found") end)%st.
Proof. apply preserves_bind; [by apply wdb_keeps|]. intros [m|]; by intros s Hs. Qed.

Lemma create_keeps_closed store chain token symbol decimals xpub :
  is_mainnet_chain_id chain = false ->
  preserves (fun s => methods_closed (st_wallets s)) (create_payment_method store chain token symbol decimals xpub).
Proof.
  intros Hc. unfold create_payment_method. apply preserves_bind.
  - destruct xpub as [x|].
    + apply preserves_bind; [apply uuid_keeps|]. intros id. apply preserves_bind; [|by intros wid s Hs].
      apply wdb_keeps. intros. by apply for_store_closed.
    + apply preserves_bind; [by apply wdb_keeps|]. intros []; by intros s Hs.
  - intros wid. apply preserves_bind; [apply uuid_keeps|]. intros id. apply preserves_bind; [|intros; apply read_method_keeps].
    apply wdb_keeps. intros now d Hd. unfold insert_payment_method. destruct (negb _); [done|].
    destruct (head _) as [[existing m]|]; [by apply put_method_closed|]. case_bool_decide; [done|]. by apply put_method_closed.
Qed.

Lemma update_keeps_closed id enabled xpub :
  preserves (fun s => methods_closed (st_wallets s)) (update_payment_method id enabled xpub).
Proof.
  unfold update_payment_method. apply preserves_bind; [by apply wdb_keeps|]. intros [existing|]; [|by intros s Hs].
  apply preserves_bind.
  - destruct xpub as [x|]; [|by intros s Hs]. apply preserves_bind; [apply uuid_keeps|]. intros wid.
    apply preserves_bind; [|by intros w s Hs]. apply wdb_keeps. intros. by apply for_store_closed.
  - intros wid. apply preserves_bind; [|intros; apply read_method_keeps]. apply wdb_keeps. intros now d Hd.
    unfold update_method_row. destruct (wd_methods d !! id) as [m|] eqn:Hm; [|done]. destruct (negb _); [done|].
    apply put_method_closed; [exact (Hd id m Hm)|done].
Qed.

Lemma serves_validate ap store v (Q : result Z unit -> _) :
  (forall s m, wd_stores v.1 !! store = Some s -> ap_operator_account_id ap = Some (so_owner_id s) ->
     m ∈ (merge_sort created_le (methods_where (fun _ m => (pm_store_id m =? store) && pm_enabled m) v.1)) ->
     spm_wallet_id m <> None -> Q (Ok tt) v) ->
  (forall e, Q (Err e) v) -> serves (validate_operator_store ap store) v Q.
Proof.
  intros Hok He. unfold validate_operator_store. repeat page_step; try apply He.
  match goal with Hb : negb (billable ?ms) = false |- _ => set (methods := ms) in *; apply negb_false_iff in Hb; rename Hb into Hbill end.
  match goal with Ho : negb (owned_by_operator _ _) = false |- _ => apply negb_false_iff in Ho; rename Ho into Hown end.
  unfold owned_by_operator in Hown. destruct (wd_stores v.1 !! store) as [s|] eqn:Hs; [|done].
  destruct (ap_operator_account_id ap) as [a|] eqn:Ha; [|done]. apply Z.eqb_eq in Hown.
  assert (Hm : exists m, m ∈ methods /\ spm_wallet_id m <> None).
  { unfold billable in Hbill. clearbody methods. destruct methods as [|m0 ms]; [done|]. apply negb_true_iff in Hbill.
    destruct (decide (Exists (fun m => spm_wallet_id m <> None) (m0 :: ms))) as [Hx|Hx]; [by apply Exists_exists in Hx|].
    exfalso. rewrite <- not_true_iff_false in Hbill. apply Hbill, forallb_forall. intros m Hm. apply list_elem_of_In in Hm.
    destruct (spm_wallet_id m) eqn:Hw; [|done]. exfalso. apply Hx, Exists_exists. exists m. split; [done|]. by rewrite Hw. }
  destruct Hm as (m & Hm & Hw). by apply (Hok s m); rewrite ?Ha, ?Hown.
Qed.

Lemma update_settings_closed ap body v : ap_mainnet_enabled ap = false -> closed v ->
  serves (update_settings ap body) v (fun _ v' => closed v').
Proof.
  intros Hap Hv. unfold update_settings. repeat page_step; try done.
  set (op := default _ _). assert (Hrest : serves (
      let enabled_chain_ids := default (ss_enabled_chain_ids (current_settings v.2)) (up_enabled_chain_ids body) in
      do* st_lift (guard_mainnet_chain_ids enabled_chain_ids (ap_mainnet_enabled ap));
      or_500 (upsert_server_settings (mkServerSettings (up_default_confirmations body) (up_invoice_expiry_minutes body)
                (up_rate_limit_rpm body) enabled_chain_ids op))) v (fun _ v' => closed v')).
  { cbv zeta. apply serves_bind, serves_lift. rewrite Hap. destruct (guard_mainnet_chain_ids _ false) as [[]|] eqn:Hg; [|done].
    apply serves_map_err, serves_upsert; [done|]. intros _. split; [apply Hv|]. intros row c [= <-] Hc. by eapply guard_closed. }
  destruct op as [store|]; [case_bool_decide; [|by apply serves_ret]|by apply serves_ret].
  apply serves_validate; [done|]. done.
Qed.

(** Mainnet stays closed until it is opened.  On a server started without
    [MAINNET_ENABLED], through any requests to the settings and payment-method
    routes, by administrators too and with anything lost, no mainnet chain gets
    into the enabled chains and no store gets a payment method on one. *)
Theorem mainnet_stays_closed ap b b' :
  ap_mainnet_enabled ap = false ->
  (forall i m, wd_methods (st_wallets (bo_site b)) !! i = Some m -> is_mainnet_chain_id (pm_chain_id m) = false) ->
  (forall row c, bo_settings b = Some row -> c ∈ ss_enabled_chain_ids row -> is_mainnet_chain_id c = false) ->
  rtc (fun b b' => exists q, asked_of ap q /\ b' = snd (handle_page q b)) b b' ->
  (forall i m, wd_methods (st_wallets (bo_site b')) !! i = Some m -> is_mainnet_chain_id (pm_chain_id m) = false) /\
  (forall row c, bo_settings b' = Some row -> c ∈ ss_enabled_chain_ids row -> is_mainnet_chain_id c = false).
Proof.
  intros Hap Hm Hs Hrun. assert (Hc : closed (view b)) by by split. clear Hm Hs. enough (closed (view b')) by done.
  induction Hrun as [b|b b1 b2 (q & Hq & ->) _ IH]; [done|]. apply IH. clear IH.
  assert (Hserve : serves (handle_page q) (view b) (fun _ v' => closed v')); [|by apply Hserve].
  destruct q as [ap'|ap' body|c s|c s req|c s m|c s m e x|c s m]; cbn [handle_page asked_of] in *.
  - unfold get_server_page. repeat page_step; done.
  - subst ap'. by apply update_settings_closed.
  - unfold list_payment_methods. repeat page_step; done.
  - unfold create_method. repeat page_step; try done. destruct Hc as [Hm Hs].
    apply (serves_site methods_closed); [|done|intros [] d Hd; cbn beta iota; repeat page_step; by split].
    apply create_keeps_closed. by eapply adapter_not_mainnet.
  - unfold get_method. repeat page_step; done.
  - unfold update_method. repeat page_step; try done.
    all: destruct Hc as [Hm Hs]; apply (serves_site methods_closed); [|done|intros [] d Hd; cbn beta iota; repeat page_step; by split];
      apply update_keeps_closed.
  - unfold delete_method. repeat page_step; try done. destruct Hc as [Hm Hs].
    apply (serves_site methods_closed); [|done|by intros r d Hd; split].
    apply wdb_keeps. intros now d Hd. unfold delete_payment_method. case_bool_decide; [|done].
    intros i mi. cbn. intros [_ Hi]%lookup_delete_Some. by eapply Hd.
Qed.

(** The operator bills on a store of its own.  If a request makes another
    store the operator's, that store is owned by the account the server was
    started with as its operator, and has an enabled payment method for which a
    wallet is on file to derive addresses from. *)
Theorem operator_store_is_operators ap body b s :
  let b' := snd (update_settings ap body b) in
  ss_operator_store_id <$> bo_settings b' = Some (Some s) ->
  ss_operator_store_id (current_settings (bo_settings b)) <> Some s ->
  exists store m, wd_stores (st_wallets (bo_site b)) !! s = Some store /\
    ap_operator_account_id ap = Some (so_owner_id store) /\
    m ∈ merge_sort created_le (methods_where (fun _ m => (pm_store_id m =? s) && pm_enabled m) (st_wallets (bo_site b))) /\
    spm_wallet_id m <> None.
Proof.
  intros b' Hb' Hne.
  set (Good := exists store m, wd_stores (st_wallets (bo_site b)) !! s = Some store /\
    ap_operator_account_id ap = Some (so_owner_id store) /\
    m ∈ merge_sort created_le (methods_where (fun _ m => (pm_store_id m =? s) && pm_enabled m) (st_wallets (bo_site b))) /\
    spm_wallet_id m <> None).
  assert (Hserve : serves (update_settings ap body) (view b)
    (fun _ v' => v'.2 = bo_settings b \/ forall row, v'.2 = Some row -> ss_operator_store_id row = Some s -> Good)).
  { unfold update_settings. repeat page_step; try (by left). cbn [view fst snd]. set (op := default _ _).
    assert (Hrest : (op = Some s -> Good) -> serves (
      let enabled_chain_ids := default (ss_enabled_chain_ids (current_settings (bo_settings b))) (up_enabled_chain_ids body) in
      do* st_lift (guard_mainnet_chain_ids enabled_chain_ids (ap_mainnet_enabled ap));
      or_500 (upsert_server_settings (mkServerSettings (up_default_confirmations body) (up_invoice_expiry_minutes body)
                (up_rate_limit_rpm body) enabled_chain_ids op))) (view b)
      (fun _ v' => v'.2 = bo_settings b \/ forall row, v'.2 = Some row -> ss_operator_store_id row = Some s -> Good)).
    { intros Hop. cbv zeta. apply serves_bind, serves_lift. destruct (guard_mainnet_chain_ids _ _); [|by left].
      apply serves_map_err, serves_upsert; [by left|]. intros _. right. intros row [= <-]. exact Hop. }
    destruct op as [store|] eqn:Hop; [|by apply serves_ret, Hrest].
    case_bool_decide as Hd; [|apply serves_ret, Hrest; intros [= ->]; congruence].
    apply serves_validate; [|by left]. intros st m Hst Ha Hm Hw. apply Hrest. intros [= ->]. by exists st, m. }
  destruct (Hserve b eq_refl) as [Hsame|Hgood]; fold b' in Hsame || fold b' in Hgood.
  - cbn in Hsame. rewrite Hsame in Hb'. destruct (bo_settings b) as [row|]; [|done]. cbn in Hb', Hne. congruence.
  - cbn in Hgood. destruct (bo_settings b') as [row|]; [|done]. apply (Hgood row eq_refl). by injection Hb'.
Qed.
End Facts.
