(* ===== verification/Deletion.v ===== *)
(** * Deleting accounts and stores

    [server/src/api/users/deletion.rs] and [server/src/api/admin/deletion/]
    with [data-service/src/account_deletion.rs],
    [postgres/watched_address_deletion.rs] and the [DELETE] statements of
    [postgres/auth/]: what a deletion may take with it, and when the monitor is
    told to stop watching.  The schema decides what a [DELETE] cascades to; no
    route gives a store roles of its own. *)

From stdpp Require Import gmap strings list.
From Stdlib Require Import ZArith Lia Ascii.
From S2P Require Import Prelude Events Network Decimal LiveWatch Database Services Cleanup ApiKeys Consumer Idempotency Derivation Payouts.
From S2P Require Import ApiAuth Office Teams Accounts.

#[local] Open Scope Z_scope.

(** ** What a deletion touches *)

(** A row of [refunds]: its foreign keys *)
Record RefundRow := mkRefundRow {
  rf_store_id : Uuid;
  rf_payment_id : Uuid
}.

(** The tables, with the commands published to the monitor, the observers told
    of closed accounts, and the failures counted. *)
Record Estate := mkEstate {
  es_team : TeamDb;
  es_db : Db;
  es_payouts : gmap Z PayoutData;
  es_refunds : gmap Z RefundRow;
  es_commands : list UnwatchAddressCommand;
  es_closed : list Uuid;
  es_unwatch_failures : Z
}.

Definition es_set_tables (t : TeamDb) (d : Db) (e : Estate) : Estate :=
  mkEstate t d (es_payouts e) (es_refunds e) (es_commands e) (es_closed e) (es_unwatch_failures e).
Definition es_add_command (c : UnwatchAddressCommand) (e : Estate) : Estate :=
  mkEstate (es_team e) (es_db e) (es_payouts e) (es_refunds e) (es_commands e ++ [c]) (es_closed e) (es_unwatch_failures e).
Definition es_add_closed (u : Uuid) (e : Estate) : Estate :=
  mkEstate (es_team e) (es_db e) (es_payouts e) (es_refunds e) (es_commands e) (es_closed e ++ [u]) (es_unwatch_failures e).
Definition es_add_failures (n : Z) (e : Estate) : Estate :=
  mkEstate (es_team e) (es_db e) (es_payouts e) (es_refunds e) (es_commands e) (es_closed e) (es_unwatch_failures e + n).

Abbreviation EstateStatement := (TStatement Estate).
Abbreviation Chamber := (Office Estate).

(** ** What a [DELETE] takes with it *)

(** Whether a store is owned by the account. *)
Definition owned_by (t : TeamDb) (user_id store_id : Uuid) : bool :=
  match td_stores t !! store_id with Some s => str_owner_id s =? user_id | None => false end.

(** Whether an invoice is of one of the stores [gone]. *)
Definition of_stores (gone : Uuid -> bool) (d : Db) (invoice_id : string) : bool :=
  match db_invoices d !! invoice_id with Some i => gone (inv_store_id i) | None => false end.

(** Whether a payment option is of an invoice of these stores. *)
Definition option_of_stores (gone : Uuid -> bool) (d : Db) (option_id : Uuid) : bool :=
  match db_payment_options d !! option_id with Some o => of_stores gone d (po_invoice_id o) | None => false end.

(** The payments that go with their invoices. *)
Definition payment_gone (gone : Uuid -> bool) (d : Db) (p : PaymentRow) : bool := of_stores gone d (pay_invoice_id p).

(** The payment tables without these stores: invoices with their options,
    watches, payments and allowances, the obligations of those payments, and
    the settings. *)
Definition purge_db (gone : Uuid -> bool) (d : Db) : Db :=
  let lost_ids := pay_id <$> List.filter (payment_gone gone d) (map_to_list (db_payments d)).*2 in
  mkDb (filter (fun kr => gone (inv_store_id kr.2) = false) (db_invoices d))
    (filter (fun kr => payment_gone gone d kr.2 = false) (db_payments d))
    (filter (fun kr => of_stores gone d (po_invoice_id kr.2) = false) (db_payment_options d))
    (List.filter (fun w => negb (option_of_stores gone d (wr_payment_option_id w))) (db_watched d))
    (db_tokens d) (db_cursors d)
    (filter (fun kr => kr.1.1 ∉ lost_ids) (db_outbox d))
    (filter (fun kr => gone kr.1 = false) (db_tolerances d))
    (filter (fun kr => of_stores gone d kr.1 = false) (db_allowances d))
    (filter (fun kr => gone kr.1 = false) (db_webhooks d))
    (filter (fun kr => gone kr.1 = false) (db_settings d))
    (filter (fun kr => gone kr.1 = false) (db_stores d)).

(** Payouts and refunds of these stores, or refunds of payments that would go:
    [NO ACTION] refuses the [DELETE]. *)
Definition held_back (gone : Uuid -> bool) (e : Estate) : bool :=
  existsb (fun p => gone (pt_store_id p)) (map_to_list (es_payouts e)).*2
  || existsb (fun r => gone (rf_store_id r)
       || existsb (fun p => payment_gone gone (es_db e) p && (pay_id p =? rf_payment_id r)) (map_to_list (db_payments (es_db e))).*2)
       (map_to_list (es_refunds e)).*2.

(** [StoreRepository::delete_store] *)
Definition delete_store_row (store_id : Uuid) : EstateStatement unit :=
  fun _ e =>
    let gone s := s =? store_id in
    if held_back gone e then (Err ConstraintViolation, e)
    else
      let t := es_team e in
      let t' := mkTeamDb (td_users t) (delete store_id (td_stores t)) (td_roles t)
                  (filter (fun kr => gone kr.1.2 = false) (td_user_stores t))
                  (filter (fun kr => gone (iv_store_id kr.2) = false) (td_invites t)) (td_email_changes t) in
      (Ok tt, es_set_tables t' (purge_db gone (es_db e)) e).

(** [UserRepository::delete_user] *)
Definition delete_user_row (user_id : Uuid) : EstateStatement unit :=
  fun _ e =>
    let t := es_team e in
    let gone := owned_by t user_id in
    if held_back gone e then (Err ConstraintViolation, e)
    else
      let t' := mkTeamDb (delete user_id (td_users t))
                  (filter (fun kr => str_owner_id kr.2 <> user_id) (td_stores t)) (td_roles t)
                  (filter (fun kr => kr.1.1 <> user_id /\ gone kr.1.2 = false) (td_user_stores t))
                  (filter (fun kr => iv_invited_by kr.2 <> user_id /\ gone (iv_store_id kr.2) = false) (td_invites t))
                  (filter (fun kr => ec_user_id kr.2 <> user_id) (td_email_changes t)) in
      (Ok tt, es_set_tables t' (purge_db gone (es_db e)) e).

(** ** Queries *)

(** [AccountDeletionBlockers] *)
Record AccountDeletionBlockers := mkAccountDeletionBlockers {
  ab_payments : Z;
  ab_payouts : Z;
  ab_refunds : Z
}.

(** [AccountDeletionBlockers::any] *)
Definition blockers_any (b : AccountDeletionBlockers) : bool := (0 <? ab_payments b) || (0 <? ab_payouts b) || (0 <? ab_refunds b).

Definition count {A} (p : A -> bool) (l : list A) : Z := Z.of_nat (length (List.filter p l)).

(** [account_deletion_blockers] *)
Definition account_deletion_blockers (user_id : Uuid) : EstateStatement AccountDeletionBlockers :=
  tselect (fun e =>
    let mine := owned_by (es_team e) user_id in
    mkAccountDeletionBlockers
      (count (payment_gone mine (es_db e)) (map_to_list (db_payments (es_db e))).*2)
      (count (fun p => mine (pt_store_id p)) (map_to_list (es_payouts e)).*2)
      (count (fun r => mine (rf_store_id r)) (map_to_list (es_refunds e)).*2)).

(** [get_active_watched_addresses_for_stores] *)
Definition get_active_watched_addresses_for_stores (store_ids : list Uuid) : EstateStatement (list CleanupAddressInfo) :=
  tselect (fun e =>
    if bool_decide (store_ids = []) then []
    else
      omap (fun w =>
        o ← db_payment_options (es_db e) !! wr_payment_option_id w;
        i ← db_invoices (es_db e) !! po_invoice_id o;
        if wr_is_active w && existsb (Z.eqb (inv_store_id i)) store_ids
        then Some (mkCleanupAddressInfo (wr_address w) (wr_payment_option_id w) (po_invoice_id o) (wr_chain_id w) (wr_token_address w))
        else None) (db_watched (es_db e))).

Section Deletion.
Context `{Runtime} `{PolicyNames} `{UuidText} `{Formats} `{MailHost}.

(** The account as the session knows it: its address and its id. *)
Definition deletion_confirmation_for (user : Accounts.SessionUser) : string :=
  default (uuid_to_string (Accounts.su_id user)) (su_email user).

(** [deletion_confirmation_matches] *)
Definition deletion_confirmation_matches (expected typed : string) : bool :=
  eq_ignore_ascii_case (trim typed) (trim expected).

(** The stores an account owns. *)
Definition owned_stores (user_id : Uuid) : EstateStatement (list Store) :=
  fun now e => let '(r, _) := get_stores_owned_by user_id now (es_team e) in (r, e).

(** [parse_watch_target] *)
Definition parse_watch_target (info : CleanupAddressInfo) : option (Address * option Address * Z) :=
  addr ← parse_address (ca_address info);
  token_contract ← match ca_token_address info with
                   | Some t => Some <$> parse_address t
                   | None => Some None
                   end;
  eip155 ← evm_chain_id (ca_chain_id info);
  Some (addr, token_contract, eip155).

(** [unwatch_address_by_chain_id]: publishing the command *)
Definition publish_unwatch (c : UnwatchAddressCommand) : EstateStatement unit := twrite (es_add_command c).

Definition count_failures {E} (n : Z) : St Chamber E unit :=
  fun o => (Ok tt, mkOffice (es_add_failures n (of_db o)) (of_ticks o) (of_draws o) (of_mail o)).

(** One turn of its loop. *)
Definition unwatch_one {E} (info : CleanupAddressInfo) : St Chamber E unit :=
  match parse_watch_target info with
  | None => st_ret tt
  | Some (addr, token_contract, eip155) =>
      let* r := st_try (tdb (publish_unwatch (mkUnwatchAddressCommand eip155 addr token_contract))) in
      match r with
      | Ok _ => st_ret tt
      | Err _ => count_failures 1
      end
  end.

(** [unwatch_after_delete] *)
Definition unwatch_after_delete {E} (monitor : bool) (addresses : list CleanupAddressInfo) : St Chamber E unit :=
  if negb monitor then count_failures (Z.of_nat (length addresses)) else st_for addresses unwatch_one.

(** [notify_account_closed], to [observers] of them *)
Definition notify_account_closed {E} (observers : nat) (account_id : Uuid) : St Chamber E unit :=
  st_for (seq 0 observers) (fun _ o =>
    (Ok tt, mkOffice (es_add_closed account_id (of_db o)) (of_ticks o) (of_draws o) (of_mail o))).

(** What the server was started with: whether a monitor is wired in, and the
    plugins that observe. *)
Context (evm_monitor : bool) (account_closed_observers : nat).

(** [delete_account] *)
Definition delete_account (user : Accounts.SessionUser) (confirm : string) : St Chamber Z unit :=
  if negb (deletion_confirmation_matches (deletion_confirmation_for user) confirm) then st_throw 400
  else
    let id := Accounts.su_id user in
    let* stores := fails_500 (tdb (owned_stores id)) in
    let* addresses := fails_500 (tdb (get_active_watched_addresses_for_stores (str_id <$> stores))) in
    let* blockers := fails_500 (tdb (account_deletion_blockers id)) in
    if blockers_any blockers then st_throw 409
    else
      do* fails_500 (tdb (delete_user_row id));
      do* unwatch_after_delete evm_monitor addresses;
      notify_account_closed account_closed_observers id.

(** [list_user_stores] *)
Definition list_user_stores (user_id : string) : St Chamber Z (list Store) :=
  let* uid := ok_or 400 (parse_uuid user_id) in
  fails_500 (tdb (fun now e => let '(r, _) := get_stores_for_user uid now (es_team e) in (r, e))).

(** [ensure_no_financial_blockers] *)
Definition ensure_no_financial_blockers (uid : Uuid) : St Chamber Z unit :=
  let* blockers := fails_500 (tdb (account_deletion_blockers uid)) in
  if blockers_any blockers then st_throw 409 else st_ret tt.

(** [delete_user_account] *)
Definition delete_user_account (user_id : string) : St Chamber Z unit :=
  let* uid := ok_or 400 (parse_uuid user_id) in
  let* r := fails_500 (tdb (tselect (fun e => row_to_user uid <$> td_users (es_team e) !! uid))) in
  let* user := ok_or 404 r in
  if bool_decide (u_role user = ServerAdmin) then st_throw 400
  else
    let* stores := fails_500 (tdb (owned_stores uid)) in
    let* addresses := fails_500 (tdb (get_active_watched_addresses_for_stores (str_id <$> stores))) in
    if negb (bool_decide (addresses = [])) then st_throw 409
    else
      do* ensure_no_financial_blockers uid;
      do* fails_500 (tdb (delete_user_row uid));
      notify_account_closed account_closed_observers uid.

(** ** Stores of the end-to-end tests *)

Definition is_ascii_digit (a : ascii) : bool := let n := nat_of_ascii a in ((48 <=? n) && (n <=? 57))%nat.

(** A text against a pattern: [9] for a digit, anything else for itself. *)
Fixpoint shaped (pattern s : string) : bool :=
  match pattern, s with
  | EmptyString, EmptyString => true
  | String p pattern, String a s =>
      (if Ascii.eqb p "9" then is_ascii_digit a else Ascii.eqb a p) && shaped pattern s
  | _, _ => false
  end.

(** [is_synthetic_e2e_store_name] *)
Definition is_synthetic_e2e_store_name (name : string) : bool :=
  match Derivation.strip_prefix "e2e-synthetic-" name with
  | None => false
  | Some rest => shaped "9999-99-99T99-99-99-999Z" rest
  end.

Definition E2E_STORE_OWNER_ID : string := "c5ae10f2-da34-4002-af3b-5a4ec8b6ec97".

(** [is_e2e_store_owner] *)
Definition is_e2e_store_owner (owner_id : Uuid) : bool := String.eqb (uuid_to_string owner_id) E2E_STORE_OWNER_ID.

(** [ensure_no_payout_or_refund] *)
Definition ensure_no_payout_or_refund (sid : Uuid) : St Chamber Z unit :=
  let* payout_count := fails_500 (tdb (tselect (fun e => count (fun p => pt_store_id p =? sid) (map_to_list (es_payouts e)).*2))) in
  let* refund_count := fails_500 (tdb (tselect (fun e => count (fun r => rf_store_id r =? sid) (map_to_list (es_refunds e)).*2))) in
  if (0 <? payout_count) || (0 <? refund_count) then st_throw 409 else st_ret tt.

(** [hard_delete_store] *)
Definition hard_delete_store (store_id : string) : St Chamber Z unit :=
  let* sid := ok_or 400 (parse_uuid store_id) in
  let* r := fails_500 (tdb (tselect (fun e => td_stores (es_team e) !! sid))) in
  let* store := ok_or 404 r in
  if negb (is_synthetic_e2e_store_name (str_name store)) || negb (is_e2e_store_owner (str_owner_id store)) then st_throw 400
  else
    let* addresses := fails_500 (tdb (get_active_watched_addresses_for_stores [sid])) in
    do* ensure_no_payout_or_refund sid;
    do* fails_500 (tdb (delete_store_row sid));
    unwatch_after_delete evm_monitor addresses.
End Deletion.
