(* ===== verification/DeletionFacts.v ===== *)
(** * What deletions leave standing *)

From stdpp Require Import gmap strings list relations.
From Stdlib Require Import ZArith Lia.
From S2P Require Import Prelude Events Network Decimal LiveWatch Database Services Cleanup ApiKeys Consumer Payouts ApiAuth Office Teams.
From S2P Require Import Accounts Deletion TeamFacts.

#[local] Open Scope Z_scope.

(** ** Counting *)

Lemma count_zero {A} (p : A -> bool) l : (0 <? count p l) = false -> forall x, x ∈ l -> p x = false.
Proof.
  unfold count. intros Hc x Hx. apply Z.ltb_ge in Hc. destruct (p x) eqn:Hp; [|done].
  assert (Hin : In x (List.filter p l)) by (apply filter_In; split; [by apply list_elem_of_In | done]).
  destruct (List.filter p l); [done|]. cbn in Hc. lia.
Qed.

Lemma values_in {K} `{Countable K} {A} (m : gmap K A) k a : m !! k = Some a -> a ∈ (map_to_list m).*2.
Proof. intros Hm. apply list_elem_of_fmap. exists (k, a). split; [done|]. by apply elem_of_map_to_list. Qed.

(** A store that holds no payment loses none. *)
Lemma purge_payments gone d :
  (forall p, p ∈ (map_to_list (db_payments d)).*2 -> payment_gone gone d p = false) ->
  db_payments (purge_db gone d) = db_payments d.
Proof.
  intros Hn. apply map_filter_id. intros k p Hp. cbn. by apply Hn, (values_in _ k).
Qed.

Section Facts.
Context `{Runtime} `{PolicyNames} `{UuidText} `{Formats} `{MailHost}.
Context (evm_monitor : bool) (observers : nat).

(** ** After the deletion *)

(** The command that releases a watch. *)
Definition release_of (info : CleanupAddressInfo) (c : UnwatchAddressCommand) : Prop :=
  exists addr token chain, parse_watch_target info = Some (addr, token, chain) /\ c = mkUnwatchAddressCommand chain addr token.

(** The tables are as they were; the commands published since release watches
    of [addresses]. *)
Definition only_releases (addresses : list CleanupAddressInfo) (e e' : Estate) : Prop :=
  es_team e' = es_team e /\ es_db e' = es_db e /\ es_payouts e' = es_payouts e /\ es_refunds e' = es_refunds e /\
  exists cmds, es_commands e' = es_commands e ++ cmds /\ Forall (fun c => exists info, info ∈ addresses /\ release_of info c) cmds.

Lemma releases_refl addresses e : only_releases addresses e e.
Proof. repeat (split; [done|]). exists []. by rewrite app_nil_r. Qed.

Lemma releases_trans addresses e1 e2 e3 : only_releases addresses e1 e2 -> only_releases addresses e2 e3 -> only_releases addresses e1 e3.
Proof.
  intros (Ht & Hd & Hp & Hr & c & Hc & Hf) (Ht' & Hd' & Hp' & Hr' & c' & Hc' & Hf'). split_and!; [congruence..|].
  exists (c ++ c'). rewrite Hc', Hc, app_assoc. split; [done|]. by apply Forall_app.
Qed.

Lemma runs_count {E} addresses n e : runs (count_failures (E := E) n) e (fun _ e' => only_releases addresses e e').
Proof. intros o <-. repeat (split; [done|]). exists []. by rewrite app_nil_r. Qed.

Lemma runs_unwatch {E} addresses e :
  runs (unwatch_after_delete (E := E) evm_monitor addresses) e (fun r e' => is_ok r = true /\ only_releases addresses e e').
Proof.
  unfold unwatch_after_delete. destruct evm_monitor; cbn [negb];
    [|intros o <-; split; [done|]; by apply (runs_count addresses (Z.of_nat (length addresses)) (of_db o) o)].
  assert (Hg : forall l, (forall info, info ∈ l -> info ∈ addresses) -> forall e,
    runs (E := E) (st_for l unwatch_one) e (fun r e' => is_ok r = true /\ only_releases addresses e e')); [|by apply Hg].
  clear e. induction l as [|info l IH]; intros Hl e; cbn [st_for].
  { apply runs_ret. split; [done | apply releases_refl]. }
  assert (Hstep : forall e1, only_releases addresses e e1 -> runs (E := E) (st_for l unwatch_one) e1 (fun r e' => is_ok r = true /\ only_releases addresses e e')).
  { intros e1 He1. eapply runs_mono; [apply IH; set_solver|]. intros r e' [Hr He]. split; [done|]. by eapply releases_trans. }
  apply runs_bind. unfold unwatch_one at 1. destruct (parse_watch_target info) as [[[addr token] chain]|] eqn:Hp; [|by apply runs_ret, Hstep, releases_refl].
  assert (Hone : forall k, only_releases addresses e (es_add_failures k (es_add_command (mkUnwatchAddressCommand chain addr token) e))).
  { intros k. repeat (split; [done|]). exists [mkUnwatchAddressCommand chain addr token]. split; [done|]. constructor; [|constructor].
    exists info. split; [apply Hl; by left|]. by exists addr, token, chain. }
  assert (Hcmd : only_releases addresses e (es_add_command (mkUnwatchAddressCommand chain addr token) e)).
  { repeat (split; [done|]). exists [mkUnwatchAddressCommand chain addr token]. split; [done|]. constructor; [|constructor].
    exists info. split; [apply Hl; by left|]. by exists addr, token, chain. }
  apply runs_bind, runs_try. apply runs_tdb.
  - intros o Ho. cbn. apply Hstep. repeat (split; [by rewrite ?Ho|]). exists []. by rewrite app_nil_r, Ho.
  - intros now. split; [by apply runs_ret, Hstep|]. cbn. intros o Ho. cbn. apply Hstep. rewrite Ho. apply Hone.
Qed.

Lemma runs_notify {E} addresses id e :
  runs (notify_account_closed (E := E) observers id) e (fun _ e' => only_releases addresses e e').
Proof.
  unfold notify_account_closed. generalize (seq 0 observers). intros l. revert e. induction l as [|x l IH]; intros e; cbn [st_for].
  { apply runs_ret, releases_refl. }
  apply runs_bind. intros o Ho. cbn. eapply runs_mono; [apply IH|]. intros r e' He. eapply releases_trans; [|exact He].
  repeat (split; [by rewrite ?Ho|]). exists []. by rewrite app_nil_r, Ho.
Qed.

(** ** Requests *)

Inductive DeletionRequest :=
| DeleteAccount (user : Accounts.SessionUser) (confirm : string)
| DeleteUserAccount (user_id : string)
| HardDeleteStore (store_id : string)
| ListUserStores (user_id : string).

Definition handle_deletion (q : DeletionRequest) : St Chamber Z unit :=
  match q with
  | DeleteAccount u c => delete_account evm_monitor observers u c
  | DeleteUserAccount u => delete_user_account observers u
  | HardDeleteStore s => hard_delete_store evm_monitor s
  | ListUserStores u => let* _ := list_user_stores u in st_ret tt
  end.

(** The watches of these stores, as a deletion reads them. *)
Definition watches_of (e : Estate) (stores : list Uuid) (addresses : list CleanupAddressInfo) : Prop :=
  forall now, fst (get_active_watched_addresses_for_stores stores now e) = Ok addresses.

(** What a request can do. *)
Inductive demise (e : Estate) : DeletionRequest -> Estate -> Prop :=
| dm_none q : demise e q e
| dm_account q id addresses e1 e' :
    (forall u c, q = DeleteAccount u c -> Accounts.su_id u = id /\ deletion_confirmation_matches (deletion_confirmation_for u) c = true) ->
    (forall u, q = DeleteUserAccount u -> parse_uuid u = Some id /\ exists r, td_users (es_team e) !! id = Some r /\ us_role r <> ServerAdmin) ->
    (match q with DeleteAccount _ _ | DeleteUserAccount _ => True | _ => False end) ->
    (forall now, exists b, fst (account_deletion_blockers id now e) = Ok b /\ blockers_any b = false) ->
    watches_of e (str_id <$> List.filter (fun s => str_owner_id s =? id) (map_to_list (td_stores (es_team e))).*2) addresses ->
    (forall now, delete_user_row id now e = (Ok tt, e1)) -> only_releases addresses e1 e' ->
    demise e q e'
| dm_store s sid st addresses e1 e' :
    parse_uuid s = Some sid -> td_stores (es_team e) !! sid = Some st ->
    is_synthetic_e2e_store_name (str_name st) = true -> is_e2e_store_owner (str_owner_id st) = true ->
    watches_of e [sid] addresses ->
    (forall now, delete_store_row sid now e = (Ok tt, e1)) -> only_releases addresses e1 e' ->
    demise e (HardDeleteStore s) e'.

(** The deletion of an account and what follows. *)
Lemma delete_user_out id e :
  (forall now, delete_user_row id now e = (Err ConstraintViolation, e)) \/ exists e1, forall now, delete_user_row id now e = (Ok tt, e1).
Proof. unfold delete_user_row. destruct (held_back _ e); [by left|]. right. by eexists. Qed.

Lemma delete_store_out id e :
  (forall now, delete_store_row id now e = (Err ConstraintViolation, e)) \/ exists e1, forall now, delete_store_row id now e = (Ok tt, e1).
Proof. unfold delete_store_row. destruct (held_back _ e); [by left|]. right. by eexists. Qed.

Lemma runs_deletion {A} (stmt : EstateStatement unit) (k : unit -> St Chamber Z A) e (P : Estate -> Prop) addresses :
  ((forall now, stmt now e = (Err ConstraintViolation, e)) \/ exists e1, forall now, stmt now e = (Ok tt, e1)) ->
  P e -> (forall e1 e', (forall now, stmt now e = (Ok tt, e1)) -> only_releases addresses e1 e' -> P e') ->
  (forall e1, runs (k tt) e1 (fun _ e' => only_releases addresses e1 e')) ->
  runs (st_bind (fails_500 (tdb stmt)) k) e (fun _ e' => P e').
Proof.
  intros Hs Hn Hd Hk. apply runs_bind, runs_map_err, runs_tdb; [done|]. intros now. destruct Hs as [Hs|[e1 Hs]]; rewrite Hs; cbn.
  - by split.
  - split; [|by eapply Hd; [|apply releases_refl]]. eapply runs_mono; [apply Hk|]. intros r e' He. by eapply Hd.
Qed.

Ltac chamber_step :=
  lazymatch goal with
  | |- runs (st_bind (fails_500 (tdb (delete_user_row _))) _) _ _ => fail
  | |- runs (st_bind (fails_500 (tdb (delete_store_row _))) _) _ _ => fail
  | _ => idtac
  end;
  first
  [ match goal with
    | |- runs (tdb (owned_stores _)) _ _ => apply runs_tdb; [|intros ?; unfold owned_stores, get_stores_owned_by, tselect; cbn; split]
    | |- runs (tdb (get_active_watched_addresses_for_stores _)) _ _ => apply runs_select
    | |- runs (tdb (account_deletion_blockers _)) _ _ => apply runs_select
    end; cbn beta iota
  | office_step ].

Lemma deletion_demise q e : runs (handle_deletion q) e (fun _ e' => demise e q e').
Proof.
  destruct q as [u c|u|s|u]; cbn [handle_deletion].
  - unfold delete_account. repeat chamber_step; try apply dm_none.
    eapply (runs_deletion _ _ _ _ _ (delete_user_out _ _)); [apply dm_none| |].
    + intros e1 e' Hd Hr. eapply (dm_account e _ (Accounts.su_id u)); try done.
      * intros u' c' [= <- <-]. split; [done|]. by apply negb_false_iff.
      * intros ?. eexists. split; [reflexivity | done].
    + intros e1. apply runs_bind. eapply runs_mono; [apply runs_unwatch|]. intros [[]|x] e2 [Hok He2]; [|done].
      eapply runs_mono; [apply runs_notify|]. intros r e3 He3. exact (releases_trans _ _ _ _ He2 He3).
  - unfold delete_user_account, ensure_no_financial_blockers. repeat chamber_step; try apply dm_none.
    match goal with Hx : row_to_user ?uid <$> _ = Some _ |- _ => destruct (td_users (es_team e) !! uid) as [r|] eqn:Hr; [injection Hx as <-|done] end.
    eapply (runs_deletion _ _ _ _ _ (delete_user_out _ _)); [apply dm_none| |].
    + intros e1 e' Hd Hrel. eapply (dm_account e _ a); try done.
      * intros u' [= <-]. split; [done|]. exists r. split; [done|]. by apply bool_decide_eq_false in Heqb.
      * intros ?. eexists. split; [reflexivity | done].
    + intros e1. apply runs_notify.
  - unfold hard_delete_store, ensure_no_payout_or_refund. repeat chamber_step; try apply dm_none.
    eapply (runs_deletion _ _ _ _ _ (delete_store_out _ _)); [apply dm_none| |].
    + intros e1 e' Hd Hrel. match goal with Hb : _ || _ = false |- _ => apply orb_false_iff in Hb as [Hn%negb_false_iff Ho%negb_false_iff] end.
      by eapply dm_store.
    + intros e1. eapply runs_mono; [apply runs_unwatch|]. by intros r e' [_ He].
  - unfold list_user_stores. repeat chamber_step; try apply dm_none.
    apply runs_tdb; [apply dm_none|]. intros now. unfold get_stores_for_user, tselect. cbn. split; [|apply dm_none].
    repeat chamber_step; apply dm_none.
Qed.
End Facts.

(** * Deletions: what is never lost, and when the monitor is told *)

(** The stores of an account that hold nothing financial. *)
Lemma no_blockers id e b :
  (forall now, fst (account_deletion_blockers id now e) = Ok b) -> blockers_any b = false ->
  forall p, p ∈ (map_to_list (db_payments (es_db e))).*2 -> payment_gone (owned_by (es_team e) id) (es_db e) p = false.
Proof.
  intros Hb Hany. specialize (Hb 0). injection Hb as <-. unfold blockers_any in Hany. cbn in Hany.
  apply orb_false_iff in Hany as [[Hp _]%orb_false_iff _]. by apply count_zero.
Qed.

(** The tables without an account and what it owned. *)
Record account_gone (id : Uuid) (e e' : Estate) : Prop := {
  ag_user : td_users (es_team e') = delete id (td_users (es_team e));
  ag_stores : td_stores (es_team e') = filter (fun kr => str_owner_id kr.2 <> id) (td_stores (es_team e));
  ag_invoices : db_invoices (es_db e') = filter (fun kr => owned_by (es_team e) id (inv_store_id kr.2) = false) (db_invoices (es_db e));
  ag_payments : db_payments (es_db e') = db_payments (es_db e)
}.

Lemma delete_user_gone id e e1 :
  (forall now, delete_user_row id now e = (Ok tt, e1)) ->
  (forall p, p ∈ (map_to_list (db_payments (es_db e))).*2 -> payment_gone (owned_by (es_team e) id) (es_db e) p = false) ->
  account_gone id e e1 /\ es_payouts e1 = es_payouts e /\ es_refunds e1 = es_refunds e.
Proof.
  intros Hd Hp. specialize (Hd 0). unfold delete_user_row in Hd. destruct (held_back _ e); [done|]. injection Hd as <-.
  split; [|done]. constructor; [done..|]. by apply purge_payments.
Qed.

(** The commands a deletion has published. *)
Lemma same_commands id e e1 : (forall now, delete_user_row id now e = (Ok tt, e1)) -> es_commands e1 = es_commands e.
Proof. intros Hd. specialize (Hd 0). unfold delete_user_row in Hd. destruct (held_back _ e); [done|]. by injection Hd as <-. Qed.

(** An active watch of one of these stores. *)
Definition watch_of (e : Estate) (gone : Uuid -> bool) (w : WatchRow) (o : PaymentOptionRow) (i : InvoiceRow) : Prop :=
  w ∈ db_watched (es_db e) /\ wr_is_active w = true /\
  db_payment_options (es_db e) !! wr_payment_option_id w = Some o /\
  db_invoices (es_db e) !! po_invoice_id o = Some i /\ gone (inv_store_id i) = true.

(** What a deletion reads are watches of the stores it deletes. *)
Lemma read_watches e stores addresses info :
  watches_of e stores addresses -> info ∈ addresses ->
  exists w o i, watch_of e (fun s => existsb (Z.eqb s) stores) w o i /\
    info = mkCleanupAddressInfo (wr_address w) (wr_payment_option_id w) (po_invoice_id o) (wr_chain_id w) (wr_token_address w).
Proof.
  intros Hw Hi. specialize (Hw 0). cbn in Hw. injection Hw as <-. destruct (bool_decide (stores = [])); [by apply elem_of_nil in Hi|].
  apply list_elem_of_omap in Hi as (w & Hin & Hs). exists w.
  destruct (db_payment_options (es_db e) !! wr_payment_option_id w) as [o|] eqn:Ho; [|done]. cbn in Hs.
  destruct (db_invoices (es_db e) !! po_invoice_id o) as [i|] eqn:Hv; [|done]. cbn in Hs.
  destruct (wr_is_active w && _) eqn:Hb; [|done]. apply andb_true_iff in Hb as [Ha Hb]. injection Hs as <-.
  exists o, i. by repeat split.
Qed.

(** The stores an account owns, as the deletion lists them. *)
Lemma owned_listed e id s :
  keyed (es_team e) ->
  existsb (Z.eqb s) (str_id <$> List.filter (fun s => str_owner_id s =? id) (map_to_list (td_stores (es_team e))).*2) = true ->
  owned_by (es_team e) id s = true.
Proof.
  intros [Hk _] Hs. apply existsb_exists in Hs as (s' & Hin & ->%Z.eqb_eq). apply list_elem_of_In, list_elem_of_fmap in Hin as (st & -> & Hin).
  apply list_elem_of_In, filter_In in Hin as [Hin Ho]. apply list_elem_of_In, list_elem_of_fmap in Hin as ([k st'] & -> & Hin).
  apply elem_of_map_to_list in Hin. cbn [snd] in *. unfold owned_by. by rewrite (Hk k st' Hin), Hin.
Qed.

(** A purge takes such a watch with its invoice. *)
Lemma purged_watch (gone stores : Uuid -> bool) e w o i :
  watch_of e stores w o i -> (forall s, stores s = true -> gone s = true) ->
  (w ∉ db_watched (purge_db gone (es_db e))) /\ db_invoices (purge_db gone (es_db e)) !! po_invoice_id o = None.
Proof.
  intros (_ & _ & Ho & Hi & Hs) Hg. apply Hg in Hs. split; cbn.
  - rewrite list_elem_of_In, filter_In. intros [_ Hn]. unfold option_of_stores, of_stores in Hn. by rewrite Ho, Hi, Hs in Hn.
  - apply map_lookup_filter_None. right. intros x Hx. rewrite Hi in Hx. injection Hx as <-. cbn. by rewrite Hs.
Qed.

Section Safe.
Context `{Runtime} `{PolicyNames} `{UuidText} `{Formats} `{MailHost}.
Context (evm_monitor : bool) (observers : nat).

Definition tables_after (q : DeletionRequest) (o : Chamber) : Estate := of_db (snd (handle_deletion evm_monitor observers q o)).

(** The account a request is to delete. *)
Definition target_of (q : DeletionRequest) : option Uuid :=
  match q with
  | DeleteAccount u _ => Some (Accounts.su_id u)
  | DeleteUserAccount u => parse_uuid u
  | _ => None
  end.

Lemma account_case q id o :
  target_of q = Some id ->
  let e := of_db o in let e' := tables_after q o in
  es_payouts e' = es_payouts e /\ es_refunds e' = es_refunds e /\
  (e' = e \/
   account_gone id e e' /\
   forall s, q = DeleteUserAccount s -> exists r, td_users (es_team e) !! id = Some r /\ us_role r <> ServerAdmin).
Proof.
  intros Ht e e'. pose proof (deletion_demise evm_monitor observers q e o eq_refl) as Hd. fold (tables_after q o) e' in Hd.
  destruct Hd as [q|q id' addresses e1 e2 Hself Hadmin Hq Hb Hw Hdel Hrel|s sid st addresses e1 e2]; [by auto| |done].
  assert (id' = id) as ->.
  { destruct q; cbn in Ht; [injection Ht as <-; symmetry; by apply (Hself _ _ eq_refl)| |done..].
    destruct (Hadmin _ eq_refl) as [Hp _]. congruence. }
  destruct (Hb 0) as (b & Hb' & Hany).
  destruct (delete_user_gone id e e1 Hdel (no_blockers id e b (fun now => Hb') Hany)) as ([Hu Hs Hi Hp] & Hpo & Hre).
  destruct Hrel as (Het & Hed & Hep & Her & _). rewrite Hep, Her. split_and!; [done..|]. right. split.
  - constructor; rewrite ?Het, ?Hed; done.
  - intros u ->. by apply (Hadmin _ eq_refl).
Qed.

(** C35. Deleting an account erases no financial record if nothing else writes
    while the request runs: whatever requests are lost, the payments, the payouts
    and the refunds are those from before.  (The check and the deletion are two
    statements: [OfficeDemo.payment_lost_to_deletion] has a payment in between.)
    Either nothing of the tables changed, or the account is gone with the
    stores it owned while every other account, every store of another owner
    and every invoice of such a store is as it was; and the administrator's
    route deletes no administrator. *)
Theorem account_deletion_spares_history q id o :
  target_of q = Some id ->
  let e := of_db o in let e' := tables_after q o in
  (db_payments (es_db e') = db_payments (es_db e) /\ es_payouts e' = es_payouts e /\ es_refunds e' = es_refunds e) /\
  (e' = e \/
   td_users (es_team e') !! id = None /\
   (forall k s, td_stores (es_team e') !! k = Some s -> str_owner_id s <> id) /\
   (forall u, u <> id -> td_users (es_team e') !! u = td_users (es_team e) !! u) /\
   (forall k s, td_stores (es_team e) !! k = Some s -> str_owner_id s <> id ->
      td_stores (es_team e') !! k = Some s /\
      forall n i, db_invoices (es_db e) !! n = Some i -> inv_store_id i = k -> db_invoices (es_db e') !! n = Some i) /\
   (forall s, q = DeleteUserAccount s -> exists r, td_users (es_team e) !! id = Some r /\ us_role r <> ServerAdmin)).
Proof.
  intros Ht e e'. destruct (account_case q id o Ht) as (Hpo & Hre & [He|[[Hu Hs Hi Hp] Ha]]); fold e e' in Hpo, Hre; fold e e'; [fold e e' in He; rewrite He; by auto|fold e e' in Hu, Hs, Hi, Hp, Ha].
  split; [done|]. right. split; [by rewrite Hu, lookup_delete_eq|]. split_and!; [| | |done].
  - intros k s. rewrite Hs, map_lookup_filter_Some. by intros [_ Hn].
  - intros u Hne. by rewrite Hu, lookup_delete_ne.
  - intros k s Hk Ho. split; [by rewrite Hs, map_lookup_filter_Some|].
    intros n i Hn <-. rewrite Hi, map_lookup_filter_Some. split; [done|]. cbn. unfold owned_by. rewrite Hk. by apply Z.eqb_neq.
Qed.

(** The monitor is told to stop watching only what was deleted: every
    command a deletion publishes is the release of a watch that was active
    when the request began, and by then its invoice and its row are gone.  A
    deletion that is refused or fails publishes nothing. *)
Theorem unwatched_only_after_deletion q o :
  keyed (es_team (of_db o)) ->
  let e := of_db o in let e' := tables_after q o in
  exists cmds, es_commands e' = es_commands e ++ cmds /\
  Forall (fun c => exists w po i, watch_of e (fun _ => true) w po i /\
    release_of (mkCleanupAddressInfo (wr_address w) (wr_payment_option_id w) (po_invoice_id po) (wr_chain_id w) (wr_token_address w)) c /\
    (w ∉ db_watched (es_db e')) /\ db_invoices (es_db e') !! po_invoice_id po = None) cmds.
Proof.
  intros Hk e e'. pose proof (deletion_demise evm_monitor observers q e o eq_refl) as Hd. fold (tables_after q o) e' in Hd.
  destruct Hd as [q|q id addresses e1 e2 _ _ _ _ Hw Hdel Hrel|s sid st addresses e1 e2 _ Hs _ _ Hw Hdel Hrel].
  - exists []. by rewrite app_nil_r.
  - destruct Hrel as (_ & Hed & _ & _ & cmds & Hc & Hf). exists cmds. rewrite Hc, (same_commands id e e1 Hdel). split; [done|].
    eapply Forall_impl; [exact Hf|]. intros c (info & Hin & Hrel). destruct (read_watches _ _ _ _ Hw Hin) as (w & po & i & Hwatch & ->).
    exists w, po, i. specialize (Hdel 0). unfold delete_user_row in Hdel. destruct (held_back _ e); [done|]. injection Hdel as <-.
    rewrite Hed. destruct (purged_watch (owned_by (es_team e) id) _ _ _ _ _ Hwatch) as [Hg1 Hg2]; [by intros k; apply owned_listed|].
    destruct Hwatch as (? & ? & ? & ? & _). by repeat split.
  - destruct Hrel as (_ & Hed & _ & _ & cmds & Hc & Hf). specialize (Hdel 0). unfold delete_store_row in Hdel. destruct (held_back _ e); [done|].
    injection Hdel as <-. exists cmds. rewrite Hc. split; [done|]. eapply Forall_impl; [exact Hf|]. intros c (info & Hin & Hrel).
    destruct (read_watches _ _ _ _ Hw Hin) as (w & po & i & Hwatch & ->). exists w, po, i. rewrite Hed.
    destruct (purged_watch (fun s => s =? sid) _ _ _ _ _ Hwatch) as [Hg1 Hg2]; [by intros k; cbn; rewrite orb_false_r|].
    destruct Hwatch as (? & ? & ? & ? & _). by repeat split.
Qed.
End Safe.
