(* ===== verification/Standing.v ===== *)
(** * Account standing and signup

    [data-service/src/account_standing.rs] and its PostgreSQL statements, the
    push route [server/src/api/entitlements.rs], the merchant's own view
    [server/src/api/users/standing.rs], the warning header
    [server/src/api/standing_warning.rs], the plugins' read
    [server/src/services/plugins/host_calls/standing.rs], and signing up with
    the external service ([server/src/services/signup_service.rs],
    [server/src/api/users/signup.rs]).  Text is ASCII. *)

From stdpp Require Import gmap strings list.
From Stdlib Require Import ZArith Lia Ascii.
From S2P Require Import Prelude Events Network Decimal Database LiveWatch Services Idempotency Derivation Consumer Office.

#[local] Open Scope Z_scope.

Definition days (n : Z) : Z := seconds (n * 86400).
Definition str_len (s : string) : Z := Z.of_N (body_len s).

(** ** What is held *)

(** [AccountStanding] *)
Record AccountStanding := mkAccountStanding {
  as_account_id : Uuid;
  as_version : Z;
  as_in_good_standing : bool;
  as_paid_through : option Instant;
  as_plan_name : string;
  as_checkout_url : option string
}.

#[export] Instance account_standing_eq : EqDecision AccountStanding.
Proof. solve_decision. Defined.

(** [HeldStanding] *)
Record HeldStanding := mkHeldStanding { hs_standing : AccountStanding; hs_last_heard_at : Instant }.

(** [ApplyOutcome] *)
Inductive ApplyOutcome :=
| Applied (version : Z)
| Kept (held_version : Z).

(** [StandingDecision] *)
Inductive StandingDecision :=
| StandingAllow
| AllowStale (silent_for : Z)
| AllowUnheard
| StandingDeny (plan_name : string) (checkout_url : option string).

Definition is_fail_open (d : StandingDecision) : bool :=
  match d with AllowStale _ | AllowUnheard => true | _ => false end.

Definition DEFAULT_STANDING_MAX_AGE_DAYS : Z := 7.

(** [decide] *)
Definition decide_standing (held : option HeldStanding) (now : Instant) (max_age : Z) : StandingDecision :=
  match held with
  | None => AllowUnheard
  | Some held =>
      let s := hs_standing held in
      if negb (as_in_good_standing s) then StandingDeny (as_plan_name s) (as_checkout_url s)
      else
        let silent_for := now - hs_last_heard_at held in
        if max_age <? silent_for then AllowStale silent_for else StandingAllow
  end.

(** ** Warnings *)

(** [Warning] *)
Record Warning := mkWarning { wn_text : string; wn_checkout_url : option string }.

Definition WARN_WINDOW_DAYS : Z := 5.
Definition ENDED_NOTICE_DAYS : Z := 7.
Definition CACHE_TTL : Z := seconds 60.
Definition MAX_CACHE_ENTRIES : Z := 10000.

(** The text of a date, the JSON of bodies and claims, and what the HTTP and
    HMAC libraries do. *)
Class StandingHost := {
  format_date : Instant -> string;
  valid_header : string -> bool;
  parse_entitlement : string -> option (Uuid * Z * bool * option Instant * string * option string);
  claims_to_json : string -> string -> string -> Z -> Z -> string;
  signup_mac_hex : string -> string -> string;
  signup_http : nat -> string -> string -> Uuid -> Z -> option (Z * option Json)
}.

(** [StandingState] *)
Inductive StandingState := Unknown | Good | Expiring | Lapsed.

#[export] Instance standing_state_eq : EqDecision StandingState.
Proof. solve_decision. Defined.

(** [StandingResponse] *)
Record StandingResponse := mkStandingResponse {
  sp_state : StandingState;
  sp_plan_name : option string;
  sp_paid_through : option Instant;
  sp_checkout_url : option string
}.

Definition WARN_BEFORE_DAYS : Z := 7.

(** [classify] *)
Definition classify_standing (held : option HeldStanding) (now : Instant) : StandingResponse :=
  match held with
  | None => mkStandingResponse Unknown None None None
  | Some held =>
      let s := hs_standing held in
      let state :=
        if negb (as_in_good_standing s) then Lapsed
        else if match as_paid_through s with Some t => t - now <=? days WARN_BEFORE_DAYS | None => false end then Expiring
        else Good in
      mkStandingResponse state (Some (as_plan_name s)) (as_paid_through s) (as_checkout_url s)
  end.

(** ** The table and the process *)

(** A row of [account_standing] *)
Record StandingRow := mkStandingRow {
  sn_standing : AccountStanding;
  sn_received_at : Instant;
  sn_last_heard_at : Instant
}.

(** The table, the cache of warnings, and the fail-open allows counted. *)
Record Hall := mkHall {
  hl_rows : gmap Z StandingRow;
  hl_cache : gmap Z (Instant * option Warning);
  hl_fail_open : list (Uuid * string)
}.

Definition hl_set_rows (x : gmap Z StandingRow) (h : Hall) : Hall := mkHall x (hl_cache h) (hl_fail_open h).
Definition hl_set_cache (x : gmap Z (Instant * option Warning)) (h : Hall) : Hall := mkHall (hl_rows h) x (hl_fail_open h).

Abbreviation HallStatement := (TStatement Hall).

(** The constraints of the table. *)
Definition row_allowed (s : AccountStanding) : bool :=
  (0 <? as_version s)
  && negb (String.eqb (as_plan_name s) "") && (str_len (as_plan_name s) <=? 200)
  && match as_checkout_url s with
     | None => true
     | Some url => (str_len url <=? 2048) && String.prefix "https://" url
     end.

(** The compare-and-set of [apply_account_standing] *)
Definition insert_standing (s : AccountStanding) : HallStatement (option Z) :=
  fun now h =>
    let put := hl_set_rows (<[as_account_id s := mkStandingRow s now now]> (hl_rows h)) h in
    if negb (row_allowed s) then (Err ConstraintViolation, h)
    else
      match hl_rows h !! as_account_id s with
      | None => (Ok (Some (as_version s)), put)
      | Some r => if as_version (sn_standing r) <? as_version s then (Ok (Some (as_version s)), put) else (Ok None, h)
      end.

(** The sender was heard. *)
Definition touch_standing (s : AccountStanding) : HallStatement unit :=
  fun now h =>
    match hl_rows h !! as_account_id s with
    | Some r =>
        if as_version (sn_standing r) =? as_version s
        then (Ok tt, hl_set_rows (<[as_account_id s := mkStandingRow (sn_standing r) (sn_received_at r) now]> (hl_rows h)) h)
        else (Ok tt, h)
    | None => (Ok tt, h)
    end.

Definition held_version (account_id : Uuid) : HallStatement (option Z) :=
  tselect (fun h => (fun r => as_version (sn_standing r)) <$> hl_rows h !! account_id).

(** [get_account_standing] *)
Definition get_account_standing (account_id : Uuid) : HallStatement (option HeldStanding) :=
  tselect (fun h => (fun r => mkHeldStanding (sn_standing r) (sn_last_heard_at r)) <$> hl_rows h !! account_id).

Section Standing.
Context `{Runtime} `{Formats} `{UuidText} `{StandingHost}.

Abbreviation HallOffice := (Office Hall).

(** [apply_account_standing]; a missing row is an error of [fetch_one]. *)
Definition apply_account_standing (s : AccountStanding) : St HallOffice DbError ApplyOutcome :=
  let* applied := tdb (insert_standing s) in
  match applied with
  | Some version => st_ret (Applied version)
  | None =>
      do* tdb (touch_standing s);
      let* held := tdb (held_version (as_account_id s)) in
      match held with
      | Some v => st_ret (Kept v)
      | None => st_throw Lost
      end
  end.

(** [decide_and_surface] *)
Definition decide_and_surface {E} (account_id : Uuid) (held : option HeldStanding) (now : Instant) (max_age : Z) :
    St HallOffice E StandingDecision :=
  let decision := decide_standing held now max_age in
  let surface reason :=
    st_modify (fun o => mkOffice (mkHall (hl_rows (of_db o)) (hl_cache (of_db o)) (hl_fail_open (of_db o) ++ [(account_id, reason)]))
                          (of_ticks o) (of_draws o) (of_mail o)) in
  do* match decision with
      | AllowUnheard => surface "unheard"%string
      | AllowStale _ => surface "stale"%string
      | _ => st_ret tt
      end;
  st_ret decision.

(** [AccountStandingStore::standing_decision] *)
Definition standing_decision (account_id : Uuid) (max_age : Z) : St HallOffice DbError StandingDecision :=
  let* held := tdb (get_account_standing account_id) in
  let* now := of_now in
  decide_and_surface account_id held now max_age.

(** ** The push *)

Definition MAX_BODY_BYTES : Z := 4096.
Definition MAX_PLAN_NAME_BYTES : Z := 200.
Definition MAX_CHECKOUT_URL_BYTES : Z := 2048.

Definition space_or_control (a : ascii) : bool := let n := nat_of_ascii a in (n <=? 32)%nat || (n =? 127)%nat.

(** [validate] *)
Definition validate_push (s : AccountStanding) : result string unit :=
  if as_version s <? 1 then Err "version must be at least 1"%string
  else if String.eqb (trim (as_plan_name s)) "" || (MAX_PLAN_NAME_BYTES <? str_len (as_plan_name s))
  then Err "plan_name must be non-empty and at most 200 bytes"%string
  else
    match as_checkout_url s with
    | Some url =>
        if (MAX_CHECKOUT_URL_BYTES <? str_len url) || negb (String.prefix "https://" url)
           || (str_len url =? str_len "https://") || negb (str_forall (fun a => negb (space_or_control a)) url)
        then Err "checkout_url must be an https URL of at most 2048 bytes"%string
        else Ok tt
    | None => Ok tt
    end.

(** [push_entitlement], for a caller that may push *)
Definition push_entitlement (body : string) : St HallOffice Z (bool * Z) :=
  let* req := ok_or 400 (parse_entitlement body) in
  let '(account_id, version, in_good_standing, paid_through, plan_name, checkout_url) := req in
  let pushed := mkAccountStanding account_id version in_good_standing paid_through plan_name checkout_url in
  do* st_map_err (fun _ => 400) (st_lift (validate_push pushed));
  let* outcome := st_map_err (fun _ => 503) (apply_account_standing pushed) in
  match outcome with
  | Applied version => st_ret (true, version)
  | Kept held_version =>
      do* (if held_version =? as_version pushed
           then let* _ := st_try (tdb (get_account_standing (as_account_id pushed))) in st_ret tt
           else st_ret tt);
      st_ret (false, held_version)
  end.

(** [route] *)
Definition entitlement_route (body : string) : St HallOffice Z (bool * Z) :=
  if MAX_BODY_BYTES <? str_len body then st_throw 413 else push_entitlement body.

(** ** Readers *)

(** [get_standing] *)
Definition get_standing (user_id : Uuid) : St HallOffice Z StandingResponse :=
  let* held := st_map_err (fun _ => 503) (tdb (get_account_standing user_id)) in
  let* now := of_now in
  st_ret (classify_standing held now).

(** [warning_for] *)
Definition warning_for (held : HeldStanding) (now : Instant) : option Warning :=
  let standing := hs_standing held in
  if negb (as_in_good_standing standing) then None
  else
    ends ← as_paid_through standing;
    if (now + days WARN_WINDOW_DAYS <? ends) || (ends <? now - days ENDED_NOTICE_DAYS) then None
    else
      url ← as_checkout_url standing;
      Some (mkWarning
        (if now <? ends
         then "subscription period ends " +:+ format_date ends +:+ "; renew at " +:+ url
         else "subscription period has ended; renew at " +:+ url)
        (Some url)).

(** A cached answer that is still good; [elapsed] of a later instant is zero. *)
Definition cached_warning (account : Uuid) (now : Instant) (h : Hall) : option (option Warning) :=
  '(at_, warning) ← hl_cache h !! account;
  if Z.max 0 (now - at_) <? CACHE_TTL then Some warning else None.

(** Into the cache, emptied when full. *)
Definition cache_warning (account : Uuid) (now : Instant) (warning : option Warning) (h : Hall) : Hall :=
  let cache := if MAX_CACHE_ENTRIES <=? Z.of_nat (size (hl_cache h)) then ∅ else hl_cache h in
  hl_set_cache (<[account := (now, warning)]> cache) h.

(** [StandingWarningState::warning] *)
Definition account_warning {E} (account : Uuid) : St HallOffice E (option Warning) :=
  let* now := of_now in
  let* o := st_get in
  match cached_warning account now (of_db o) with
  | Some warning => st_ret warning
  | None =>
      let* r := st_try (tdb (get_account_standing account)) in
      let* warning :=
        (match r with
         | Ok held => let* now := of_now in st_ret (held ≫= fun h => warning_for h now)
         | Err _ => st_ret None
         end) in
      let* now := of_now in
      do* st_modify (fun o => mkOffice (cache_warning account now warning (of_db o)) (of_ticks o) (of_draws o) (of_mail o));
      st_ret warning
  end.

(** [middleware], around a handler that answered with [headers] for an account *)
Definition warning_middleware {E} (account : option Uuid) (headers : gmap string string) : St HallOffice E (gmap string string) :=
  match account with
  | None => st_ret headers
  | Some account =>
      let* w := account_warning account in
      match w with
      | None => st_ret headers
      | Some warning =>
          let headers :=
            if valid_header (wn_text warning) then <["x-account-warning"%string := wn_text warning]> headers else headers in
          st_ret
            (match wn_checkout_url warning with
             | Some url => if valid_header url then <["x-account-checkout-url"%string := url]> headers else headers
             | None => headers
             end)
      end
  end.

(** [account_standing_impl]: [None] is a request the plugin got wrong, a host
    without a store or a store that does not answer. *)
Definition account_standing_impl (published : bool) (account_id : string) : St HallOffice unit (option HeldStanding) :=
  match parse_uuid account_id with
  | None => st_throw tt
  | Some account_id =>
      if negb published then st_throw tt
      else
        let* held := st_map_err (fun _ => tt) (tdb (get_account_standing account_id)) in
        let* now := of_now in
        let* _ := decide_and_surface account_id held now (days DEFAULT_STANDING_MAX_AGE_DAYS) in
        st_ret held
  end.

(** ** Signing up *)

Definition TTL_SECS : Z := 60.
Definition MIN_SECRET_LEN : Z := 32.

(** [SignupServiceConfig] *)
Record SignupServiceConfig := mkSignupServiceConfig { sc_url : string; sc_secret : string; sc_audience : string }.

(** [trim_end_matches('/')] *)
Fixpoint trim_end_slash (s : string) : string :=
  match s with
  | EmptyString => EmptyString
  | String a rest =>
      match trim_end_slash rest with
      | EmptyString => if Ascii.eqb a "/" then EmptyString else String a EmptyString
      | rest' => String a rest'
      end
  end.

(** A loopback URL: the host, then nothing, a port or a path. *)
Definition loopback (url : string) : bool :=
  existsb (fun p =>
    match Derivation.strip_prefix p url with
    | Some EmptyString => true
    | Some (String a _) => Ascii.eqb a ":" || Ascii.eqb a "/"
    | None => false
    end) ["http://localhost"; "http://127.0.0.1"; "http://[::1]"]%string.

(** [SignupServiceConfig::from_lookup] *)
Definition from_lookup (lookup : string -> option string) : result unit (option SignupServiceConfig) :=
  let get k := v ← lookup k; if String.eqb v "" then None else Some v in
  match get "SIGNUP_SERVICE_URL"%string, get "SIGNUP_SERVICE_SECRET"%string, get "SIGNUP_SERVICE_AUDIENCE"%string with
  | None, None, None => Ok None
  | Some url, Some secret, Some audience =>
      if negb (String.prefix "https://" url) && negb (loopback url) then Err tt
      else if negb (String.eqb (trim secret) secret) || (str_len secret <? MIN_SECRET_LEN) then Err tt
      else Ok (Some (mkSignupServiceConfig (trim_end_slash url) secret audience))
  | _, _, _ => Err tt
  end.

Definition hex_digit (n : nat) : ascii := ascii_of_nat (if (n <? 10)%nat then 48 + n else 87 + n).

(** [hex::encode] *)
Fixpoint hex_encode (s : string) : string :=
  match s with
  | EmptyString => EmptyString
  | String a rest => let n := nat_of_ascii a in String (hex_digit (n / 16)) (String (hex_digit (n mod 16)) (hex_encode rest))
  end.

(** [SignupServiceConfig::assertion] *)
Definition assertion {E} (c : SignupServiceConfig) (account_id : Uuid) (now : Instant) : St HallOffice E string :=
  let* jti := of_fresh in
  let body := claims_to_json (uuid_to_string account_id) (sc_audience c) (uuid_to_string jti)
                (timestamp now) (timestamp now + TTL_SECS) in
  st_ret (hex_encode body +:+ "." +:+ signup_mac_hex body (sc_secret c)).

(** [SignupServiceConfig::subscribe] *)
Definition subscribe (c : SignupServiceConfig) (account_id : Uuid) (plan_id : Z) : St HallOffice unit (Z * Json) :=
  let* now := of_now in
  let* token := assertion c account_id now in
  let* tick := (fun o => (Ok (of_ticks o), of_tick o)) in
  match signup_http tick (sc_url c +:+ "/signup") token account_id plan_id with
  | None => st_throw tt
  | Some (status, body) => st_ret (status, default JNull body)
  end.

(** [relay_created] *)
Definition relay_created (body : Json) : option (option string) :=
  match json_get "checkout_url" body with
  | Some JNull => Some None
  | Some (JString u) => if String.prefix "https://" u then Some (Some u) else None
  | _ => None
  end.

(** [relay] *)
Definition relay (status : Z) (body : Json) : result Z (option string) :=
  if status =? 201 then match relay_created body with Some r => Ok r | None => Err 502 end
  else if status =? 404 then Err 404
  else if status =? 409 then
    match relay_created body with
    | Some (Some url) => Ok (Some url)
    | _ => Err 409
    end
  else Err 502.

(** [signup], for the session's account *)
Definition signup (service : option SignupServiceConfig) (user_id : Uuid) (plan_id : Z) : St HallOffice Z (option string) :=
  match service with
  | None => st_throw 404
  | Some service =>
      let* r := st_try (subscribe service user_id plan_id) in
      match r with
      | Ok (status, body) => st_lift (relay status body)
      | Err _ => st_throw 502
      end
  end.
End Standing.
