(* ===== verification/StandingFacts.v ===== *)
(** * What is held about an account, and what is said about it *)

From stdpp Require Import gmap strings list relations.
From Stdlib Require Import ZArith Lia.
From S2P Require Import Prelude Events Network Decimal Database LiveWatch Services Idempotency Derivation Consumer Office Standing.

#[local] Open Scope Z_scope.

(** ** The table under any interleaving

    Concurrent pushes reach the table as a sequence of their statements. *)

Inductive StandingOp :=
| OpInsert (s : AccountStanding) (now : Instant)
| OpTouch (s : AccountStanding) (now : Instant).

Definition apply_op (h : Hall) (op : StandingOp) : Hall :=
  match op with
  | OpInsert s now => snd (insert_standing s now h)
  | OpTouch s now => snd (touch_standing s now h)
  end.

Definition run_ops (ops : list StandingOp) (h : Hall) : Hall := fold_left apply_op ops h.

(** The standing held for an account. *)
Definition standing_of (h : Hall) (a : Uuid) : option AccountStanding := sn_standing <$> hl_rows h !! a.

(** The pushes that the table takes. *)
Definition push_of (op : StandingOp) : option AccountStanding :=
  match op with OpInsert s _ => if row_allowed s then Some s else None | OpTouch _ _ => None end.
Definition pushes (ops : list StandingOp) : list AccountStanding := omap push_of ops.

(** The specification: a register per account that takes a push exactly if its
    version is higher. *)
Definition newer_of (a : Uuid) (held : option AccountStanding) (s : AccountStanding) : option AccountStanding :=
  if as_account_id s =? a then
    match held with
    | None => Some s
    | Some t => if as_version t <? as_version s then Some s else held
    end
  else held.
Definition newest (a : Uuid) (l : list AccountStanding) : option AccountStanding := fold_left (newer_of a) l None.

Lemma apply_op_spec h op a :
  standing_of (apply_op h op) a = match push_of op with Some s => newer_of a (standing_of h a) s | None => standing_of h a end.
Proof.
  unfold standing_of. destruct op as [s now|s now]; cbn.
  - unfold insert_standing. destruct (row_allowed s); cbn; [|done]. unfold newer_of.
    destruct (Z.eqb_spec (as_account_id s) a) as [<-|Hne].
    + destruct (hl_rows h !! as_account_id s) as [r|] eqn:Hr; cbn; [|by rewrite lookup_insert_eq].
      destruct (_ <? _); cbn; [by rewrite lookup_insert_eq | by rewrite Hr].
    + destruct (hl_rows h !! as_account_id s) as [r|]; cbn; [|by rewrite lookup_insert_ne].
      destruct (_ <? _); cbn; [by rewrite lookup_insert_ne | done].
  - unfold touch_standing. destruct (hl_rows h !! as_account_id s) as [r|] eqn:Hr; [|done].
    destruct (_ =? _); cbn; [|done]. destruct (decide (as_account_id s = a)) as [<-|Hne];
      [by rewrite lookup_insert_eq, Hr | by rewrite lookup_insert_ne].
Qed.

Lemma run_ops_spec ops a : forall h, standing_of (run_ops ops h) a = fold_left (newer_of a) (pushes ops) (standing_of h a).
Proof.
  induction ops as [|op ops IH]; intros h; [done|]. change (run_ops (op :: ops) h) with (run_ops ops (apply_op h op)).
  rewrite IH, apply_op_spec. unfold pushes. cbn. by destruct (push_of op).
Qed.

(** Two pushes of a version say the same. *)
Definition consistent (l : list AccountStanding) : Prop :=
  forall s t, s ∈ l -> t ∈ l -> as_account_id s = as_account_id t -> as_version s = as_version t -> s = t.

(** What the register holds: a push for the account that none outdoes. *)
Definition is_newest (a : Uuid) (l : list AccountStanding) (r : option AccountStanding) : Prop :=
  match r with
  | None => forall s, s ∈ l -> as_account_id s <> a
  | Some t => t ∈ l /\ as_account_id t = a /\ forall s, s ∈ l -> as_account_id s = a -> as_version s <= as_version t
  end.

Lemma newest_is a l : is_newest a l (newest a l).
Proof.
  unfold newest. induction l as [|s l IH] using rev_ind; [by intros s Hs%elem_of_nil|].
  rewrite fold_left_app. cbn. unfold newer_of at 1. destruct (Z.eqb_spec (as_account_id s) a) as [Ha|Ha].
  - destruct (fold_left (newer_of a) l None) as [t|]; cbn in IH.
    + destruct IH as (Ht & Hta & Hm). destruct (Z.ltb_spec (as_version t) (as_version s)) as [Hv|Hv]; cbn.
      * split_and!; [set_solver | done|]. intros u [Hu|Hu%list_elem_of_singleton]%elem_of_app Hua; [|by subst]. specialize (Hm u Hu Hua). lia.
      * split_and!; [set_solver | done|]. intros u [Hu|Hu%list_elem_of_singleton]%elem_of_app Hua; [by apply Hm | by subst].
    + split_and!; [set_solver | done|]. intros u [Hu|Hu%list_elem_of_singleton]%elem_of_app Hua; [by apply IH in Hu | by subst].
  - destruct (fold_left (newer_of a) l None) as [t|]; cbn in IH |- *.
    + destruct IH as (Ht & Hta & Hm). split_and!; [set_solver | done|].
      intros u [Hu|Hu%list_elem_of_singleton]%elem_of_app Hua; [by apply Hm | by subst].
    + intros u [Hu|Hu%list_elem_of_singleton]%elem_of_app; [by apply IH | by subst].
Qed.

Lemma newest_unique a l r r' : consistent l -> is_newest a l r -> is_newest a l r' -> r = r'.
Proof.
  intros Hc. destruct r as [t|], r' as [t'|]; cbn; [|naive_solver..].
  intros (Ht & Ha & Hm) (Ht' & Ha' & Hm'). f_equal. apply Hc; [done..|congruence|].
  specialize (Hm t' Ht' Ha'). specialize (Hm' t Ht Ha). lia.
Qed.

Definition empty_hall : Hall := mkHall ∅ ∅ [].

(** Pushes converge.  However the statements of concurrent pushes
    interleave, starting without rows, what is held for an account is one of
    the pushes for it, none of the others has a higher version, and nothing is
    held only if there were none; if the sender says the same whenever it
    repeats a version, what is held depends on which pushes came and not on
    their order. *)
Theorem pushes_converge ops ops' a :
  consistent (pushes ops) -> pushes ops ≡ₚ pushes ops' ->
  is_newest a (pushes ops) (standing_of (run_ops ops empty_hall) a) /\
  standing_of (run_ops ops' empty_hall) a = standing_of (run_ops ops empty_hall) a.
Proof.
  intros Hc Hp. rewrite !run_ops_spec. change (standing_of empty_hall a) with (@None AccountStanding).
  assert (Hi : is_newest a (pushes ops) (newest a (pushes ops))) by apply newest_is. split; [exact Hi|].
  apply (newest_unique a (pushes ops)); [done| |exact Hi].
  pose proof (newest_is a (pushes ops')) as Hi'. unfold newest in Hi'.
  destruct (fold_left (newer_of a) (pushes ops') None); cbn in *; setoid_rewrite Hp; done.
Qed.

(** ** A push, answered *)

Section Answers.
Context `{Runtime} `{Formats} `{UuidText} `{StandingHost}.

(** The statements of one push. *)
Definition op_pushes (s : AccountStanding) (op : StandingOp) : Prop := match op with OpInsert t _ | OpTouch t _ => t = s end.

(** The standing a body pushes, if it is in order. *)
Definition pushed_by (body : string) (s : AccountStanding) : Prop :=
  parse_entitlement body = Some (as_account_id s, as_version s, as_in_good_standing s, as_paid_through s, as_plan_name s, as_checkout_url s) /\
  validate_push s = Ok tt.

(** What a push did and answered. *)
Definition push_outcome (body : string) (h : Hall) (r : result Z (bool * Z)) (h' : Hall) : Prop :=
  (h' = h \/ exists s ops, pushed_by body s /\ h' = run_ops ops h /\ Forall (op_pushes s) ops) /\
  match r with
  | Ok (applied, v) => exists s, pushed_by body s /\
      if (applied : bool)
      then v = as_version s /\ standing_of h' (as_account_id s) = Some s /\
           forall t, standing_of h (as_account_id s) = Some t -> as_version t < as_version s
      else (forall a, standing_of h' a = standing_of h a) /\
           exists t, standing_of h (as_account_id s) = Some t /\ as_version t = v /\ as_version s <= v
  | Err status => status = 503 \/ h' = h
  end.

Lemma insert_out s now h :
  (snd (insert_standing s now h) = h /\ fst (insert_standing s now h) = Err ConstraintViolation) \/
  (fst (insert_standing s now h) = Ok (Some (as_version s)) /\ standing_of (snd (insert_standing s now h)) (as_account_id s) = Some s /\
   forall t, standing_of h (as_account_id s) = Some t -> as_version t < as_version s) \/
  (insert_standing s now h = (Ok None, h) /\ exists t, standing_of h (as_account_id s) = Some t /\ as_version s <= as_version t).
Proof.
  unfold insert_standing, standing_of. destruct (row_allowed s); cbn; [|by left]. right.
  destruct (hl_rows h !! as_account_id s) as [r|] eqn:Hr; cbn.
  - destruct (Z.ltb_spec (as_version (sn_standing r)) (as_version s)); cbn; [left|right].
    + rewrite lookup_insert_eq. split_and!; [done..|]. by intros t [= <-].
    + split; [done|]. by exists (sn_standing r).
  - left. by rewrite lookup_insert_eq.
Qed.

(** A push is answered as it was carried out.  Whatever requests are lost,
    a push leaves the table as it was or as statements of this very push leave
    it, and nothing at all changes when it is refused; answered as applied, its
    standing is the one held and it is newer than the one before; answered as
    kept, what is held about every account is as it was, and the version in the
    answer is held and not lower than the pushed one. *)
Theorem push_answered_truly body o :
  push_outcome body (of_db o) (fst (entitlement_route body o)) (of_db (snd (entitlement_route body o))).
Proof.
  assert (Hr : runs (entitlement_route body) (of_db o) (push_outcome body (of_db o))); [|by apply Hr].
  generalize (of_db o). clear o. intros h.
  assert (Hno : forall st, push_outcome body h (Err st) h) by (intros st; split; by auto).
  unfold entitlement_route. destruct (_ <? _); [by apply runs_throw|]. unfold push_entitlement. repeat office_step; [|done].
  destruct a as [[[[[a v] g] p] n] u]. set (s := mkAccountStanding a v g p n u). apply runs_bind, runs_map_err, runs_lift.
  destruct (validate_push s) as [[]|] eqn:Hv; [|done]. assert (Hs : pushed_by body s) by done. clearbody s. clear Hv.
  assert (Hops : forall ops st, Forall (op_pushes s) ops -> st = 503 -> push_outcome body h (Err st) (run_ops ops h)).
  { intros ops st Hf ->. split; [right; by exists s, ops | by left]. }
  apply runs_bind, runs_map_err. unfold apply_account_standing. apply runs_bind, runs_tdb; [done|]. intros now. cbn beta.
  split; [|by apply (Hops [OpInsert s now]); [by apply Forall_singleton|]].
  destruct (insert_out s now h) as [[-> ->]|[(-> & Hh & Hn)|(-> & t & Ht & Hle)]]; cbn.
  { done. }
  { apply runs_ret. cbn. apply runs_ret. split; [right; exists s, [OpInsert s now]; split_and!; [done..|by apply Forall_singleton]|]. exists s. by split. }
  apply runs_bind, runs_tdb; [done|]. intros now'. cbn beta iota.
  split; [|by apply (Hops [OpTouch s now']); [by apply Forall_singleton|]].
  assert (Hk : forall a, standing_of (snd (touch_standing s now' h)) a = standing_of h a) by (intros x; exact (apply_op_spec h (OpTouch s now') x)).
  assert (Hst : fst (touch_standing s now' h) = Ok tt) by (unfold touch_standing; destruct (_ !! _) as [r|]; [|done]; by destruct (_ =? _)).
  rewrite Hst. cbn. apply runs_bind, runs_select; [|by apply (Hops [OpTouch s now']); [by apply Forall_singleton|]].
  assert (Hheld : (fun r => as_version (sn_standing r)) <$> hl_rows (snd (touch_standing s now' h)) !! as_account_id s = Some (as_version t)).
  { specialize (Hk (as_account_id s)). unfold standing_of in Hk, Ht. rewrite Ht in Hk. destruct (hl_rows (snd _) !! _) as [r|]; cbn in Hk; [|done]. by injection Hk as <-. }
  rewrite Hheld. apply runs_ret. cbn.
  assert (Hdone : push_outcome body h (Ok (false, as_version t)) (snd (touch_standing s now' h))).
  { split; [right; exists s, [OpTouch s now']; split_and!; [done..|by apply Forall_singleton]|]. exists s. split; [done|]. split; [done|]. by exists t. }
  unfold get_account_standing. apply runs_bind. destruct (_ =? _); repeat office_step; done.
Qed.
End Answers.

(** ** What is said *)

Section Views.
Context `{StandingHost}.

(** The banner, the header and the gate agree.  Whatever is held and
    however old, the merchant is shown a lapse exactly if invoice creation is
    refused, and nothing exactly if nothing was ever heard; and a response
    carries a warning only for an account that the gate lets through and whose
    banner warns too, with the link the banner has. *)
Theorem standing_views_agree held now max_age :
  let shown := classify_standing held now in let gate := decide_standing held now max_age in
  (sp_state shown = Lapsed <-> exists plan url, gate = StandingDeny plan url) /\
  (sp_state shown = Unknown <-> gate = AllowUnheard) /\
  (forall w, held ≫= (fun h => warning_for h now) = Some w ->
     sp_state shown = Expiring /\ wn_checkout_url w = sp_checkout_url shown /\ is_Some (sp_checkout_url shown) /\
     (gate = StandingAllow \/ exists silent, gate = AllowStale silent)).
Proof.
  destruct held as [held|]; cbn; [|split_and!; naive_solver].
  unfold warning_for. destruct (as_in_good_standing (hs_standing held)); cbn; [|split_and!; naive_solver].
  split_and!.
  - destruct (match as_paid_through _ with Some _ => _ | None => _ end); cbn; (split; [done|]); intros (? & ? & Hg); by destruct (_ <? _).
  - destruct (match as_paid_through _ with Some _ => _ | None => _ end); cbn; (split; [done|]); intros Hg; by destruct (_ <? _).
  - intros w Hw. destruct (as_paid_through (hs_standing held)) as [ends|]; [|done]. cbn in Hw.
    destruct ((_ <? ends) || _) eqn:Hb; [done|]. apply orb_false_iff in Hb as [Hb _]. apply Z.ltb_ge in Hb.
    destruct (as_checkout_url (hs_standing held)) as [url|]; [|done]. injection Hw as <-. cbn.
    assert ((ends - now <=? days WARN_BEFORE_DAYS) = true) as ->.
    { apply Z.leb_le. change (days WARN_BEFORE_DAYS) with 604800000000000. change (days WARN_WINDOW_DAYS) with 432000000000000 in Hb. lia. }
    split_and!; [done..|by eexists|]. destruct (_ <? _); [right; by eexists | by left].
Qed.
End Views.

(** ** The warning header *)

Section Warnings.
Context `{Runtime} `{Formats} `{UuidText} `{StandingHost}.

Abbreviation HallOffice := (Office Hall).

(** What happens to the table and the cache. *)
Inductive hall_step : HallOffice -> HallOffice -> Prop :=
| HS_warning a o : hall_step o (snd (account_warning (E := unit) a o))
| HS_push body o : hall_step o (snd (entitlement_route body o))
| HS_plugin published a o : hall_step o (snd (account_standing_impl published a o)).

(** A warning made from what the table held at [o], no later than [at_]; none
    also if the table could not be read. *)
Definition made_at (a : Uuid) (o : HallOffice) (w : option Warning) (at_ : Instant) : Prop :=
  exists m, (of_ticks o <= m)%nat /\ at_ = clock m /\
  (w = None \/ exists n, (of_ticks o <= n <= m)%nat /\
    w = (hl_rows (of_db o) !! a ≫= fun r => warning_for (mkHeldStanding (sn_standing r) (sn_last_heard_at r)) (clock n))).

Lemma ops_cache ops : forall h, hl_cache (run_ops ops h) = hl_cache h.
Proof.
  induction ops as [|op ops IH]; intros h; [done|]. change (run_ops (op :: ops) h) with (run_ops ops (apply_op h op)). rewrite IH.
  destruct op as [s now|s now]; cbn.
  - unfold insert_standing. destruct (negb _); [done|]. destruct (_ !! _) as [r|]; [|done]. by destruct (_ <? _).
  - unfold touch_standing. destruct (_ !! _) as [r|]; [|done]. by destruct (_ =? _).
Qed.

(** A miss reads, makes the warning and caches it. *)
Lemma warning_out a (o : HallOffice) :
  let '(r, o') := account_warning (E := unit) a o in
  (exists at_ w, hl_cache (of_db o) !! a = Some (at_, w) /\ clock (of_ticks o) - at_ < CACHE_TTL /\ r = Ok w /\ of_db o' = of_db o) \/
  (exists at_ w, r = Ok w /\ of_db o' = cache_warning a at_ w (of_db o) /\ made_at a o w at_).
Proof.
  unfold account_warning, of_now, st_bind, st_get, st_try, tdb, get_account_standing, tselect, st_modify, st_ret. cbn.
  destruct (cached_warning a (clock (of_ticks o)) (of_db o)) as [w|] eqn:Hc; cbn.
  { left. unfold cached_warning in Hc. destruct (hl_cache (of_db o) !! a) as [[at_ w']|]; [|done]. cbn in Hc.
    destruct (Z.max 0 (clock (of_ticks o) - at_) <? CACHE_TTL) eqn:Ht; [|done]. injection Hc as ->. exists at_, w.
    apply Z.ltb_lt in Ht. split_and!; [done|lia|done..]. }
  destruct (calls (S (of_ticks o))); cbn; right; (eexists; eexists; split; [reflexivity|]; split; [reflexivity|];
    eexists; split; [|split; [reflexivity|]]; [lia|]); [|by left..].
  right. exists (S (S (of_ticks o))). split; [lia|]. by destruct (hl_rows (of_db o) !! a).
Qed.

(** Where a cached warning comes from. *)
Definition cache_sound (o0 o : HallOffice) : Prop :=
  forall a at_ w, hl_cache (of_db o) !! a = Some (at_, w) -> exists o1, rtc hall_step o0 o1 /\ rtc hall_step o1 o /\ made_at a o1 w at_.

Lemma same_cache o0 o o' : hl_cache (of_db o') = hl_cache (of_db o) -> hall_step o o' -> cache_sound o0 o -> cache_sound o0 o'.
Proof.
  intros He Hs Hi a at_ w. rewrite He. intros Hc. destruct (Hi a at_ w Hc) as (o1 & Ha & Hb & Hm). exists o1.
  split_and!; [done| |done]. by eapply rtc_r.
Qed.

Lemma plugin_cache published a (o : HallOffice) : hl_cache (of_db (snd (account_standing_impl published a o))) = hl_cache (of_db o).
Proof.
  unfold account_standing_impl. destruct (parse_uuid a) as [id|]; [|done]. destruct published; [|done]. cbn [negb].
  unfold st_bind, st_map_err, tdb, get_account_standing, tselect, of_now, decide_and_surface, st_modify, st_ret, st_throw.
  destruct (calls _); cbn; [|done..]. by destruct (decide_standing _ _ _).
Qed.

Lemma sound_step o0 o o' : rtc hall_step o0 o -> hall_step o o' -> cache_sound o0 o -> cache_sound o0 o'.
Proof.
  intros Hr Hs Hi. destruct Hs as [a o|body o|published a o].
  - pose proof (warning_out a o) as Hw. pose proof (HS_warning a o) as Hs. destruct (account_warning a o) as [r o']; cbn in *.
    destruct Hw as [(at_ & w & _ & _ & _ & Hd)|(at_ & w & _ & Hd & Hm)]; [apply (same_cache o0 o); [by rewrite Hd|done..]|].
    intros b at' w'. rewrite Hd. cbn. intros [[<- [= <- <-]]|[Hne Hc]]%lookup_insert_Some.
    + exists o. split_and!; [done|by apply rtc_once|done].
    + destruct (_ <=? _); [by rewrite lookup_empty in Hc|]. destruct (Hi b at' w' Hc) as (o1 & Ha & Hb & Hm'). exists o1.
      split_and!; [done|by eapply rtc_r|done].
  - apply (same_cache o0 o); [|constructor|done]. destruct (push_answered_truly body o) as [[->|(s & ops & _ & -> & _)] _]; [done|]. apply ops_cache.
  - apply (same_cache o0 o); [apply plugin_cache|constructor|done].
Qed.

(** A warning is at most a minute old.  Through any requests, pushes and
    reads by plugins with anything lost, starting with an empty cache, the
    warning a response gets was made from what the table held at some point of
    the run: now, or when an answer was cached less than a minute ago; or it is
    none because the table could not be read then. *)
Theorem warning_at_most_a_minute_old o0 o a w :
  hl_cache (of_db o0) = ∅ -> rtc hall_step o0 o -> fst (account_warning (E := unit) a o) = Ok w ->
  exists o1 at_, rtc hall_step o0 o1 /\ rtc hall_step o1 o /\ made_at a o1 w at_ /\ (o1 = o \/ clock (of_ticks o) - at_ < seconds 60).
Proof.
  intros He Hr Hw.
  assert (Hs : cache_sound o0 o).
  { clear Hw. revert Hr. apply (rtc_ind_r (fun o => cache_sound o0 o)).
    - intros b at_ w'. by rewrite He, lookup_empty.
    - intros o1 o2 Hr Hstep Hi. by eapply sound_step. }
  pose proof (warning_out a o) as Ho. destruct (account_warning a o) as [r o']. cbn in Hw. subst r.
  destruct Ho as [(at_ & w' & Hc & Hage & [= <-] & _)|(at_ & w' & [= <-] & _ & Hm)].
  - destruct (Hs a at_ w Hc) as (o1 & Ha & Hb & Hm). exists o1, at_. split_and!; [done..|]. by right.
  - exists o, at_. split_and!; [done|done|done|by left].
Qed.
End Warnings.
