(* ===== verification/Reading.v ===== *)
(** * Reading invoices and payments

    The reading routes of [server/src/api/invoices/] ([scope.rs], [list.rs],
    [payments.rs], [lookup.rs]) and the CSV exports ([csv_export.rs]), over the
    queries of [data-service/src/postgres/invoice.rs] and [payment.rs] with the
    search patterns of [postgres/mod.rs].  Text is ASCII. *)

From stdpp Require Import gmap strings list sorting.
From Stdlib Require Import ZArith Lia Ascii.
From S2P Require Import Prelude Events Network Decimal Database LiveWatch Services Idempotency ApiKeys Consumer ApiAuth.
From S2P Require Import Office Teams.

#[local] Open Scope Z_scope.

(** ** CSV *)

Definition CR : ascii := ascii_of_nat 13.
Definition LF : ascii := ascii_of_nat 10.
Definition QUOTE : ascii := ascii_of_nat 34.

Definition needs_quotes (field : string) : bool :=
  negb (str_forall (fun a => negb (Ascii.eqb a "," || Ascii.eqb a QUOTE || Ascii.eqb a LF || Ascii.eqb a CR)) field).

(** The loop that doubles quotes. *)
Fixpoint double_quotes (field : string) : string :=
  match field with
  | EmptyString => EmptyString
  | String a rest => if Ascii.eqb a QUOTE then String QUOTE (String a (double_quotes rest)) else String a (double_quotes rest)
  end.

(** [csv_escape_field] *)
Definition csv_escape_field (field : string) : string :=
  if needs_quotes field then String QUOTE (double_quotes field +:+ String QUOTE EmptyString) else field.

(** [csv_row] *)
Definition csv_row (fields : list string) : string :=
  String.concat "," (csv_escape_field <$> fields) +:+ String CR (String LF EmptyString).

(** ** Search patterns *)

(** The loop of [escape_like] *)
Fixpoint escape_chars (term : string) : string :=
  match term with
  | EmptyString => EmptyString
  | String a rest =>
      if Ascii.eqb a "\" || Ascii.eqb a "%" || Ascii.eqb a "_" then String "\" (String a (escape_chars rest))
      else String a (escape_chars rest)
  end.

(** [escape_like] *)
Definition escape_like (term : string) : string := escape_chars (to_lowercase term).
Definition search_prefix_pattern (term : string) : string := escape_like term +:+ "%".
Definition search_contains_pattern (term : string) : string := "%" +:+ escape_like term +:+ "%".

(** PostgreSQL's [LIKE]; a pattern that ends with the escape matches nothing. *)
Fixpoint like (pattern : string) : string -> bool :=
  match pattern with
  | EmptyString => fun s => match s with EmptyString => true | _ => false end
  | String c p =>
      if Ascii.eqb c "%" then
        fix any (s : string) : bool := like p s || match s with EmptyString => false | String _ s' => any s' end
      else if Ascii.eqb c "_" then fun s => match s with String _ s' => like p s' | EmptyString => false end
      else if Ascii.eqb c "\" then
        match p with
        | String d p' => fun s => match s with String e s' => Ascii.eqb d e && like p' s' | EmptyString => false end
        | EmptyString => fun _ => false
        end
      else fun s => match s with String e s' => Ascii.eqb c e && like p s' | EmptyString => false end
  end.

(** ** Queries *)

(** [InvoiceQueryParams] *)
Record InvoiceQuery := mkInvoiceQuery {
  iq_store_id : option Uuid;
  iq_store_ids : option (list Uuid);
  iq_status : option InvoiceStatus;
  iq_currency : option string;
  iq_search : option string;
  iq_created_after : option Instant;
  iq_created_before : option Instant;
  iq_limit : Z;
  iq_offset : Z
}.

(** [PaymentQueryParams] *)
Record PaymentQuery := mkPaymentQuery {
  pq_store_id : option Uuid;
  pq_store_ids : option (list Uuid);
  pq_confirmed : option bool;
  pq_search : option string;
  pq_limit : Z;
  pq_offset : Z
}.

Definition iq_page (limit offset : Z) (q : InvoiceQuery) : InvoiceQuery :=
  mkInvoiceQuery (iq_store_id q) (iq_store_ids q) (iq_status q) (iq_currency q) (iq_search q) (iq_created_after q) (iq_created_before q) limit offset.
Definition pq_page (limit offset : Z) (q : PaymentQuery) : PaymentQuery :=
  mkPaymentQuery (pq_store_id q) (pq_store_ids q) (pq_confirmed q) (pq_search q) limit offset.

(** The tables the readers use. *)
Record ReadDb := mkReadDb { rb_team : TeamDb; rb_db : Db }.

Abbreviation ReadStatement := (TStatement ReadDb).
Abbreviation Desk := (Office ReadDb).
Abbreviation View A := (St (Office ReadDb) Z A).

(** The request vocabulary and texts of other crates, and the order PostgreSQL
    gives rows in, which [ORDER BY] fixes up to ties. *)
Class ReadHost := {
  default_limit : Z;
  search_term : option string -> option string;
  parse_invoice_status : string -> option InvoiceStatus;
  parse_chain_id : string -> option string;
  json_text : Json -> string;
  rfc3339 : Instant -> string;
  ymd : Instant -> string;
  order_invoices : Instant -> list (string * InvoiceRow) -> list (string * InvoiceRow);
  order_payments : Instant -> list ((string * string * Z) * PaymentRow) -> list ((string * string * Z) * PaymentRow)
}.

Class ReadHostLaws `{ReadHost} := {
  order_invoices_perm t l : order_invoices t l ≡ₚ l;
  order_invoices_sorted t l : Sorted (fun a b => inv_created_at b.2 <= inv_created_at a.2) (order_invoices t l);
  order_payments_perm t l : order_payments t l ≡ₚ l;
  order_payments_sorted t l : Sorted (fun a b => pay_detected_at b.2 <= pay_detected_at a.2) (order_payments t l)
}.

Section Reading.
Context `{Runtime} `{PolicyNames} `{UuidText} `{Formats} `{Numeric} `{ApiTypes} `{ReadHost}.

Definition holds {A} (p : A -> bool) (o : option A) : bool := match o with Some a => p a | None => true end.
Definition one_of (ids : list Uuid) (id : Uuid) : bool := existsb (Z.eqb id) ids.

(** The conditions of [InvoiceReader::query] *)
Definition invoice_matches (q : InvoiceQuery) (kr : string * InvoiceRow) : bool :=
  let r := kr.2 in
  holds (fun s => inv_store_id r =? s) (iq_store_id q)
  && holds (fun ids => one_of ids (inv_store_id r)) (iq_store_ids q)
  && holds (fun st => bool_decide (inv_status r = st)) (iq_status q)
  && holds (fun c => String.eqb (inv_currency r) c) (iq_currency q)
  && holds (fun term =>
       like (search_prefix_pattern term) (to_lowercase kr.1)
       || like (search_contains_pattern term) (to_lowercase (inv_currency r))
       || like (search_contains_pattern term) (numeric18_out (inv_amount r))
       || match inv_metadata r with
          | Some m => like (search_contains_pattern term) (to_lowercase (json_text m))
          | None => false
          end) (search_term (iq_search q))
  && holds (fun after => after <=? inv_created_at r) (iq_created_after q)
  && holds (fun before => inv_created_at r <=? before) (iq_created_before q).

(** The conditions of [PaymentReader::query]; a store filter joins the invoice. *)
Definition payment_matches (q : PaymentQuery) (d : Db) (kr : (string * string * Z) * PaymentRow) : bool :=
  let r := kr.2 in
  let store p := match db_invoices d !! pay_invoice_id r with Some i => p (inv_store_id i) | None => false end in
  holds (fun s => store (fun x => x =? s)) (pq_store_id q)
  && holds (fun ids => store (one_of ids)) (pq_store_ids q)
  && holds (fun term =>
       like (search_prefix_pattern term) (to_lowercase kr.1.1.2)
       || like (search_prefix_pattern term) (to_lowercase (pay_invoice_id r))
       || like (search_contains_pattern term) (to_lowercase (pay_asset_symbol r))
       || match pay_from_address r with
          | Some a => like (search_contains_pattern term) (to_lowercase a)
          | None => false
          end) (search_term (pq_search q))
  && holds (fun c => Bool.eqb (option_is_some (pay_confirmed_at r)) c) (pq_confirmed q).

(** [LIMIT] and [OFFSET], which refuse negative numbers *)
Definition page {A} (limit offset : Z) (l : list A) : result DbError (list A) :=
  if (limit <? 0) || (offset <? 0) then Err ConstraintViolation
  else Ok (take (Z.to_nat limit) (drop (Z.to_nat offset) l)).

(** [InvoiceReader::query] *)
Definition query_invoices (q : InvoiceQuery) : St Desk DbError (Z * list InvoiceData) :=
  let rows d := List.filter (invoice_matches q) (map_to_list (db_invoices (rb_db d))) in
  let* total := tdb (tselect (fun d => Z.of_nat (length (rows d)))) in
  let* found := tdb (fun now d => (page (iq_limit q) (iq_offset q) (order_invoices now (rows d)), d)) in
  st_ret (total, (fun kr => row_to_invoice kr.1 kr.2) <$> found).

(** [PaymentReader::query] *)
Definition query_payments (q : PaymentQuery) : St Desk DbError (Z * list PaymentData) :=
  let rows d := List.filter (payment_matches q (rb_db d)) (map_to_list (db_payments (rb_db d))) in
  let* total := tdb (tselect (fun d => Z.of_nat (length (rows d)))) in
  let* found := tdb (fun now d => (page (pq_limit q) (pq_offset q) (order_payments now (rows d)), d)) in
  st_ret (total, (fun kr => row_to_payment kr.1 kr.2) <$> found).

(** [InvoiceReader::get], [PaymentReader::get], [get_for_invoice] *)
Definition read_invoice (id : string) : ReadStatement (option InvoiceData) :=
  tselect (fun d => row_to_invoice id <$> db_invoices (rb_db d) !! id).

Definition read_payment (id : Uuid) : ReadStatement (option PaymentData) :=
  tselect (fun d => (fun kr => row_to_payment kr.1 kr.2) <$>
    head (List.filter (fun kr => pay_id kr.2 =? id) (map_to_list (db_payments (rb_db d))))).

Definition payments_for_invoice (id : string) : ReadStatement (list PaymentData) :=
  fun now d => (Ok ((fun kr => row_to_payment kr.1 kr.2) <$>
    order_payments now (List.filter (fun kr => String.eqb (pay_invoice_id kr.2) id) (map_to_list (db_payments (rb_db d))))), d).

(** [PaymentOptionReader::get_for_invoice], as a set of rows *)
Definition options_for_invoice (id : string) : ReadStatement (list (Uuid * PaymentOptionRow)) :=
  tselect (fun d => List.filter (fun kr => String.eqb (po_invoice_id kr.2) id) (map_to_list (db_payment_options (rb_db d)))).

(** [get_payment_by_tx_hash]: the first row of the transaction *)
Definition get_payment_by_tx_hash (chain_id tx_hash : string) : ReadStatement (option PaymentData) :=
  tselect (fun d => (fun kr => row_to_payment kr.1 kr.2) <$>
    head (List.filter (fun kr => String.eqb kr.1.1.1 chain_id && String.eqb kr.1.1.2 tx_hash) (map_to_list (db_payments (rb_db d))))).

Definition read_user_store (user_id store_id : Uuid) : ReadStatement (option Uuid) :=
  tselect (fun d => td_user_stores (rb_team d) !! (user_id, store_id)).

(** [get_user_stores] *)
Definition get_user_stores (user_id : Uuid) : ReadStatement (list Uuid) :=
  tselect (fun d => (fun kr => kr.1.2) <$> List.filter (fun kr => kr.1.1 =? user_id) (map_to_list (td_user_stores (rb_team d)))).

Definition get_settlement_allowance (id : string) : ReadStatement (option AllowanceRow) :=
  tselect (fun d => db_allowances (rb_db d) !! id).

(** ** Scope *)

Definition VIEW_INVOICES : string := "ethpay.store.canviewinvoices".

(** [StoreScope] *)
Inductive StoreScope :=
| One (id : Uuid)
| Membership (ids : list Uuid)
| AllStores.

(** [StoreScope::apply_invoice], [apply_payment] *)
Definition apply_invoice (scope : StoreScope) (q : InvoiceQuery) : InvoiceQuery :=
  match scope with
  | One id => mkInvoiceQuery (Some id) (iq_store_ids q) (iq_status q) (iq_currency q) (iq_search q) (iq_created_after q) (iq_created_before q) (iq_limit q) (iq_offset q)
  | Membership ids => mkInvoiceQuery (iq_store_id q) (Some ids) (iq_status q) (iq_currency q) (iq_search q) (iq_created_after q) (iq_created_before q) (iq_limit q) (iq_offset q)
  | AllStores => q
  end.

Definition apply_payment (scope : StoreScope) (q : PaymentQuery) : PaymentQuery :=
  match scope with
  | One id => mkPaymentQuery (Some id) (pq_store_ids q) (pq_confirmed q) (pq_search q) (pq_limit q) (pq_offset q)
  | Membership ids => mkPaymentQuery (pq_store_id q) (Some ids) (pq_confirmed q) (pq_search q) (pq_limit q) (pq_offset q)
  | AllStores => q
  end.

(** [narrow_scope_by_key] *)
Definition narrow_scope_by_key (scope : StoreScope) (key_scope : option (list string)) (policy : string) : result Z StoreScope :=
  match scope with
  | One id => if key_grants_store_permission key_scope policy id then Ok (One id) else Err 403
  | Membership ids => Ok (Membership (List.filter (key_grants_store_permission key_scope policy) ids))
  | AllStores => Ok AllStores
  end.

(** [verify_store_access_for_query] *)
Definition verify_store_access_for_query (user : UserInfo) (store_id : option Uuid) : View StoreScope :=
  match store_id with
  | Some id =>
      let* r := fails_500 (tdb (read_user_store (ui_id user) id)) in
      if negb (option_is_some r) && negb (bool_decide (ui_role user = ServerAdmin)) then st_throw 403
      else st_ret (One id)
  | None =>
      if bool_decide (ui_role user = ServerAdmin) then st_ret AllStores
      else
        let* memberships := fails_500 (tdb (get_user_stores (ui_id user))) in
        st_ret (Membership memberships)
  end.

(** ** Filters *)

(** [ListInvoicesQuery], [ListPaymentsQuery] *)
Record ListInvoicesQuery := mkListInvoicesQuery {
  li_store_id : option Uuid;
  li_status : option string;
  li_currency : option string;
  li_search : option string;
  li_limit : option Z;
  li_offset : option Z
}.

Record ListPaymentsQuery := mkListPaymentsQuery {
  lp_store_id : option Uuid;
  lp_status : option string;
  lp_search : option string;
  lp_limit : option Z;
  lp_offset : option Z
}.

Definition new_invoice_query : InvoiceQuery := mkInvoiceQuery None None None None None None None default_limit 0.
Definition new_payment_query : PaymentQuery := mkPaymentQuery None None None None default_limit 0.

(** [build_invoice_filter_params] *)
Definition build_invoice_filter_params (scope : StoreScope) (status currency search : option string) : result Z InvoiceQuery :=
  let params := apply_invoice scope new_invoice_query in
  let with_status st := mkInvoiceQuery (iq_store_id params) (iq_store_ids params) st currency search (iq_created_after params) (iq_created_before params)
    (iq_limit params) (iq_offset params) in
  match status with
  | Some s => match parse_invoice_status s with Some st => Ok (with_status (Some st)) | None => Err 400 end
  | None => Ok (with_status (iq_status params))
  end.

(** [build_payment_filter_params] *)
Definition build_payment_filter_params (scope : StoreScope) (status search : option string) : result Z PaymentQuery :=
  let params := apply_payment scope new_payment_query in
  let with_confirmed c := mkPaymentQuery (pq_store_id params) (pq_store_ids params) c search (pq_limit params) (pq_offset params) in
  match status with
  | Some s =>
      if String.eqb s "confirmed" then Ok (with_confirmed (Some true))
      else if String.eqb s "pending" then Ok (with_confirmed (Some false))
      else Err 400
  | None => Ok (with_confirmed (pq_confirmed params))
  end.

(** ** Routes *)

(** [InvoiceResponse], [PaymentResponse]: the row and what is added to it *)
Record InvoiceResponse := mkInvoiceResponse {
  ir_invoice : InvoiceData;
  ir_store_name : option string;
  ir_customer_email : option string;
  ir_payment_options : list (Uuid * PaymentOptionRow)
}.

Record PaymentResponse := mkPaymentResponse {
  pr_payment : PaymentData;
  pr_store_id : option Uuid;
  pr_store_name : option string
}.

(** [resolve_store_names] *)
Definition resolve_store_names (ids : list Uuid) : View (gmap Z string) :=
  st_fold (fun names id =>
    let* r := st_try (tdb (tselect (fun d => td_stores (rb_team d) !! id))) in
    st_ret (match r with Ok (Some store) => <[id := str_name store]> names | _ => names end))
    ∅ (merge_sort Z.le (remove_dups ids)).

(** [unwrap_or_default] of the options *)
Definition options_or_none (id : string) : View (list (Uuid * PaymentOptionRow)) :=
  let* r := st_try (tdb (options_for_invoice id)) in
  st_ret (match r with Ok l => l | Err _ => [] end).

Definition respond (store_names : gmap Z string) (invoice : InvoiceData) : View InvoiceResponse :=
  let* options := options_or_none (id_id invoice) in
  st_ret (mkInvoiceResponse invoice (store_names !! id_store_id invoice) (extract_customer_email invoice) options).

(** The scope of a listing. *)
Definition listing_scope (c : StoreScopedUser) (store_id : option Uuid) : View StoreScope :=
  let* scope := verify_store_access_for_query (ssu_user c) store_id in
  st_lift (narrow_scope_by_key scope (ssu_key_scope c) VIEW_INVOICES).

(** [list_invoices] *)
Definition list_invoices (c : StoreScopedUser) (query : ListInvoicesQuery) : View (Z * list InvoiceResponse) :=
  let* scope := listing_scope c (li_store_id query) in
  let* params := st_lift (build_invoice_filter_params scope (li_status query) (li_currency query) (li_search query)) in
  let params := iq_page (default (iq_limit params) (li_limit query)) (default (iq_offset params) (li_offset query)) params in
  let* found := fails_500 (query_invoices params) in
  let* store_names := resolve_store_names (id_store_id <$> found.2) in
  let* responses := st_fold (fun acc invoice => let* r := respond store_names invoice in st_ret (acc ++ [r])) [] found.2 in
  st_ret (found.1, responses).

(** [visible_invoice] *)
Definition visible_invoice (invoice : option InvoiceData) (is_admin is_member : bool) (key_scope : option (list string)) :
    result Z InvoiceData :=
  match invoice with
  | None => Err 404
  | Some invoice =>
      if negb is_admin && negb is_member then Err 404
      else if negb (key_grants_store_permission key_scope VIEW_INVOICES (id_store_id invoice)) then Err 404
      else Ok invoice
  end.

(** [get_invoice_with_permission] *)
Definition get_invoice_with_permission (c : StoreScopedUser) (invoice_id : string) : View InvoiceData :=
  let user := ssu_user c in
  let* invoice := fails_500 (tdb (read_invoice invoice_id)) in
  let* is_member :=
    (match invoice with
     | Some invoice =>
         if negb (bool_decide (ui_role user = ServerAdmin))
         then let* r := fails_500 (tdb (read_user_store (ui_id user) (id_store_id invoice))) in st_ret (option_is_some r)
         else st_ret false
     | None => st_ret false
     end) in
  st_lift (visible_invoice invoice (bool_decide (ui_role user = ServerAdmin)) is_member (ssu_key_scope c)).

(** [get_invoice] *)
Definition get_invoice (c : StoreScopedUser) (invoice_id : string) : View InvoiceResponse :=
  let* invoice := get_invoice_with_permission c invoice_id in
  let* options := options_or_none invoice_id in
  st_ret (mkInvoiceResponse invoice None (extract_customer_email invoice) options).

(** [get_invoice_payments] *)
Definition get_invoice_payments (c : StoreScopedUser) (invoice_id : string) : View (list PaymentData) :=
  do* get_invoice_with_permission c invoice_id;
  fails_500 (tdb (payments_for_invoice invoice_id)).

(** The stores of the invoices that payments are for. *)
Definition stores_of_payments (scope : StoreScope) (payments : list PaymentData) : View (gmap string Uuid) :=
  match scope with
  | One store_id => st_ret (list_to_map ((fun p => (pda_invoice_id p, store_id)) <$> payments))
  | _ =>
      st_fold (fun m id =>
        let* r := st_try (tdb (read_invoice id)) in
        st_ret (match r with Ok (Some invoice) => <[id := id_store_id invoice]> m | _ => m end))
        ∅ (remove_dups (pda_invoice_id <$> payments))
  end.

(** [list_payments] *)
Definition list_payments (c : StoreScopedUser) (query : ListPaymentsQuery) : View (Z * list PaymentResponse) :=
  let* scope := listing_scope c (lp_store_id query) in
  let* params := st_lift (build_payment_filter_params scope (lp_status query) (lp_search query)) in
  let params := pq_page (default (pq_limit params) (lp_limit query)) (default (pq_offset params) (lp_offset query)) params in
  let* found := fails_500 (query_payments params) in
  let* store_of_invoice := stores_of_payments scope found.2 in
  let* store_names := resolve_store_names ((map_to_list store_of_invoice).*2) in
  st_ret (found.1, (fun p =>
    let store_id := store_of_invoice !! pda_invoice_id p in
    mkPaymentResponse p store_id (store_id ≫= fun s => store_names !! s)) <$> found.2).

(** The check of the routes on one payment: a payment of others looks missing. *)
Definition payment_visible (c : StoreScopedUser) (payment : PaymentData) : View InvoiceData :=
  let user := ssu_user c in
  let* r := fails_500 (tdb (read_invoice (pda_invoice_id payment))) in
  let* invoice := ok_or 404 r in
  do* (if bool_decide (ui_role user = ServerAdmin) then st_ret tt
       else
         let* r := fails_500 (tdb (read_user_store (ui_id user) (id_store_id invoice))) in
         if option_is_some r then st_ret tt else st_throw 404);
  if negb (key_grants_store_permission (ssu_key_scope c) VIEW_INVOICES (id_store_id invoice)) then st_throw 404
  else st_ret invoice.

(** [get_payment] *)
Definition get_payment (c : StoreScopedUser) (payment_id : Uuid) : View PaymentResponse :=
  let* r := fails_500 (tdb (read_payment payment_id)) in
  let* payment := ok_or 404 r in
  let* invoice := payment_visible c payment in
  let* store_names := resolve_store_names [id_store_id invoice] in
  st_ret (mkPaymentResponse payment (Some (id_store_id invoice)) (store_names !! id_store_id invoice)).

(** [is_valid_tx_hash] *)
Definition is_valid_tx_hash (hash : string) : bool :=
  (Z.of_N (body_len hash) =? 66)
  && match hash with
     | String a (String b rest) =>
         Ascii.eqb a "0" && Ascii.eqb b "x"
         && str_forall (fun a => let n := nat_of_ascii a in
              ((48 <=? n) && (n <=? 57) || (65 <=? n) && (n <=? 70) || (97 <=? n) && (n <=? 102))%nat) rest
     | _ => false
     end.

(** [lookup_by_tx_hash] *)
Definition lookup_by_tx_hash (c : StoreScopedUser) (chain_id tx_hash : string) : View (InvoiceResponse * PaymentData) :=
  if negb (is_valid_tx_hash tx_hash) then st_throw 400
  else
    let* chain_id := ok_or 400 (parse_chain_id chain_id) in
    let* r := fails_500 (tdb (get_payment_by_tx_hash chain_id tx_hash)) in
    let* payment := ok_or 404 r in
    let* invoice := payment_visible c payment in
    let* options := options_or_none (id_id invoice) in
    st_ret (mkInvoiceResponse invoice None (extract_customer_email invoice) options, payment).

(** [InvoiceStatusResponse] *)
Record InvoiceStatusResponse := mkInvoiceStatusResponse {
  is_invoice : InvoiceData;
  is_payment_count : Z;
  is_confirmed_count : Z;
  is_paid : bool;
  is_expired : bool;
  is_payment_options : list (Uuid * PaymentOptionRow);
  is_payments : list PaymentData
}.

(** [get_invoice_status] *)
Definition get_invoice_status (c : StoreScopedUser) (invoice_id : string) : View InvoiceStatusResponse :=
  let* invoice := get_invoice_with_permission c invoice_id in
  let* payments := fails_500 (tdb (payments_for_invoice invoice_id)) in
  let* options := options_or_none invoice_id in
  let* now := of_now in
  st_ret (mkInvoiceStatusResponse invoice (Z.of_nat (length payments))
    (Z.of_nat (length (List.filter (fun p => option_is_some (pda_confirmed_at p)) payments)))
    (bool_decide (id_status invoice = Paid))
    (bool_decide (id_status invoice = Expired) || (id_expires_at invoice <? now)) options payments).

(** [get_invoice_settlement_allowance] *)
Definition get_invoice_settlement_allowance (c : StoreScopedUser) (invoice_id : string) : View (option AllowanceRow) :=
  do* get_invoice_with_permission c invoice_id;
  fails_500 (tdb (get_settlement_allowance invoice_id)).

(** ** Exports *)

Definition MAX_EXPORT_ROWS : Z := 50000.
Definition EXPORT_PAGE_SIZE : Z := 1000.

(** What an export answers with. *)
Inductive Export :=
| TooLarge (matched_rows : Z)
| Csv (filename body : string).

Definition text_field (key : string) (m : option Json) : string :=
  match m ≫= json_get key with Some (JString s) => s | _ => "" end.

(** The row of an invoice, the row of a payment *)
Definition invoice_fields (inv : InvoiceData) : list string :=
  [id_id inv; uuid_to_string (id_store_id inv); status_to_string (id_status inv); id_currency inv; id_amount inv;
   rfc3339 (id_created_at inv); rfc3339 (id_expires_at inv); "";
   text_field "order_number" (id_metadata inv);
   match id_metadata inv ≫= (fun m => match json_get "customer_email" m with Some v => Some v | None => json_get "buyer_email" m end) with
   | Some (JString s) => s
   | _ => ""
   end]%string.

Definition payment_fields (p : PaymentData) : list string :=
  [uuid_to_string (pda_id p); pda_invoice_id p; pda_chain_id p; pda_tx_hash p; default "" (pda_from_address p); ""; pda_amount p;
   (if pda_reorged p then "reorged" else if option_is_some (pda_confirmed_at p) then "confirmed" else "pending");
   rfc3339 (pda_detected_at p); default "" (rfc3339 <$> pda_confirmed_at p)]%string.

Definition invoice_header : list string :=
  ["id"; "store_id"; "status"; "currency"; "amount"; "created_at"; "expires_at"; "paid_at"; "order_number"; "customer_email"]%string.
Definition payment_header : list string :=
  ["id"; "invoice_id"; "chain_id"; "tx_hash"; "from_address"; "to_address"; "amount"; "status"; "created_at"; "confirmed_at"]%string.

(** The stream of pages, each with a new query; a failed query ends it. *)
Fixpoint export_pages {A} (fuel : nat) (fetch : Z -> St Desk DbError (list A)) (fields : A -> list string) (offset : Z) : View string :=
  match fuel with
  | O => st_ret ""%string
  | S fuel =>
      let* r := st_try (fetch offset) in
      match r with
      | Err _ | Ok [] => st_ret ""%string
      | Ok rows =>
          let* rest := export_pages fuel fetch fields (offset + Z.of_nat (length rows)) in
          st_ret (String.concat "" (csv_row <$> (fields <$> rows)) +:+ rest)
      end
  end.

(** Pages of at least a row each, for at most [MAX_EXPORT_ROWS] rows. *)
Definition export_fuel (total : Z) : nat := S (Z.to_nat total).

Definition store_label (scope : StoreScope) : string :=
  match scope with One s => uuid_to_string s | _ => "all" end.

(** [export_invoices_csv] *)
Definition export_invoices_csv (c : StoreScopedUser) (query : ListInvoicesQuery) : View Export :=
  let* scope := listing_scope c (li_store_id query) in
  let* base := st_lift (build_invoice_filter_params scope (li_status query) (li_currency query) (li_search query)) in
  let* counted := fails_500 (query_invoices (iq_page 1 0 base)) in
  if MAX_EXPORT_ROWS <? counted.1 then st_ret (TooLarge counted.1)
  else
    let* now := of_now in
    let fetch offset := let* r := query_invoices (iq_page EXPORT_PAGE_SIZE offset base) in st_ret r.2 in
    let* body := export_pages (export_fuel counted.1) fetch invoice_fields 0 in
    st_ret (Csv ("invoices_" +:+ store_label scope +:+ "_" +:+ ymd now +:+ ".csv") (csv_row invoice_header +:+ body)).

(** [export_payments_csv] *)
Definition export_payments_csv (c : StoreScopedUser) (query : ListPaymentsQuery) : View Export :=
  let* scope := listing_scope c (lp_store_id query) in
  let* base := st_lift (build_payment_filter_params scope (lp_status query) (lp_search query)) in
  let* counted := fails_500 (query_payments (pq_page 1 0 base)) in
  if MAX_EXPORT_ROWS <? counted.1 then st_ret (TooLarge counted.1)
  else
    let* now := of_now in
    let fetch offset := let* r := query_payments (pq_page EXPORT_PAGE_SIZE offset base) in st_ret r.2 in
    let* body := export_pages (export_fuel counted.1) fetch payment_fields 0 in
    st_ret (Csv ("payments_" +:+ store_label scope +:+ "_" +:+ ymd now +:+ ".csv") (csv_row payment_header +:+ body)).
End Reading.
