(* ===== verification/ReadingFacts.v ===== *)
(** * What the reading routes say

    A search matches text and not patterns, an export can be read back, no
    answer holds anything of a store the caller has nothing to do with, and an
    export holds every matching row once. *)

From stdpp Require Import gmap strings list sorting.
From Stdlib Require Import ZArith Lia Ascii.
From S2P Require Import Prelude Events Network Decimal Database LiveWatch Services Idempotency ApiKeys Consumer ApiAuth.
From S2P Require Import Office Teams Reading.

#[local] Open Scope Z_scope.

(** ** Text *)

Lemma app_str_cons a (s t : string) : String a s +:+ t = String a (s +:+ t).
Proof. done. Qed.

Lemma app_str_assoc (a b c : string) : (a +:+ b) +:+ c = a +:+ (b +:+ c).
Proof. induction a as [|x a IH]; [done|]. rewrite !app_str_cons. by rewrite IH. Qed.

(** ** CSV, read by RFC 4180 *)

Inductive CsvState := FieldStart | Plain | Quoted | QuoteSeen | CrSeen.

(** [field] and [row] are what was read of the current field and record. *)
Fixpoint csv_run (st : CsvState) (field : string) (row : list string) (s : string) : option (list (list string)) :=
  match s with
  | EmptyString => match st, row, field with FieldStart, [], EmptyString => Some [] | _, _, _ => None end
  | String a s =>
      let put := field +:+ String a EmptyString in
      let plain :=
        if Ascii.eqb a "," then csv_run FieldStart EmptyString (row ++ [field]) s
        else if Ascii.eqb a CR then csv_run CrSeen field row s
        else if Ascii.eqb a LF || Ascii.eqb a QUOTE then None
        else csv_run Plain put row s in
      match st with
      | FieldStart => if Ascii.eqb a QUOTE then csv_run Quoted field row s else plain
      | Plain => plain
      | Quoted => if Ascii.eqb a QUOTE then csv_run QuoteSeen field row s else csv_run Quoted put row s
      | QuoteSeen =>
          if Ascii.eqb a QUOTE then csv_run Quoted put row s
          else if Ascii.eqb a "," then csv_run FieldStart EmptyString (row ++ [field]) s
          else if Ascii.eqb a CR then csv_run CrSeen field row s
          else None
      | CrSeen => if Ascii.eqb a LF then rows ← csv_run FieldStart EmptyString [] s; Some ((row ++ [field]) :: rows) else None
      end
  end.

Definition parse_csv (s : string) : option (list (list string)) := csv_run FieldStart EmptyString [] s.

(** Either delimiter ends a field. *)
Definition field_ends (d : ascii) : Prop := d = ","%char \/ d = CR.

(** After the field, at its delimiter. *)
Definition after_field (d : ascii) (field : string) (row : list string) (s : string) : option (list (list string)) :=
  if Ascii.eqb d "," then csv_run FieldStart EmptyString (row ++ [field]) s else csv_run CrSeen field row s.

Lemma run_plain st d f g row s :
  st = FieldStart \/ st = Plain -> field_ends d -> needs_quotes f = false ->
  csv_run st g row (f +:+ String d s) = after_field d (g +:+ f) row s.
Proof.
  intros Hst Hd. revert st g Hst. induction f as [|a f IH]; intros st g Hst Hq.
  - assert (Hg : g +:+ "" = g). { clear. induction g as [|x g IH]; [done|]. rewrite app_str_cons. by rewrite IH. }
    rewrite Hg. destruct Hst as [-> | ->], Hd as [-> | ->]; reflexivity.
  - unfold needs_quotes in Hq. cbn [str_forall] in Hq. apply negb_false_iff, andb_true_iff in Hq as [Ha Hq].
    apply negb_true_iff in Ha. apply orb_false_iff in Ha as [[[Hc Hqu]%orb_false_iff Hl]%orb_false_iff Hcr].
    assert (Hn : csv_run st g row (String a f +:+ String d s) = csv_run Plain (g +:+ String a "") row (f +:+ String d s)).
    { rewrite app_str_cons. cbn [csv_run]. destruct Hst as [-> | ->]; cbn; by rewrite ?Hqu, Hc, Hcr, Hl. }
    rewrite Hn, IH; [by rewrite app_str_assoc|by right|]. unfold needs_quotes. by rewrite Hq.
Qed.

Lemma run_quoted d f g row s :
  field_ends d ->
  csv_run Quoted g row (double_quotes f +:+ String QUOTE (String d s)) = after_field d (g +:+ f) row s.
Proof.
  intros Hd. revert g. induction f as [|a f IH]; intros g.
  - assert (Hg : g +:+ "" = g). { clear. induction g as [|x g IH]; [done|]. rewrite app_str_cons. by rewrite IH. }
    rewrite Hg. destruct Hd as [-> | ->]; reflexivity.
  - cbn [double_quotes]. destruct (Ascii.eqb a QUOTE) eqn:Ha; rewrite !app_str_cons.
    + change (csv_run Quoted g row (String QUOTE (String a (double_quotes f +:+ String QUOTE (String d s)))))
        with (csv_run QuoteSeen g row (String a (double_quotes f +:+ String QUOTE (String d s)))).
      cbn [csv_run]. rewrite Ha, IH. by rewrite app_str_assoc.
    + cbn [csv_run]. rewrite Ha, IH. by rewrite app_str_assoc.
Qed.

Lemma run_field d f row s :
  field_ends d -> csv_run FieldStart "" row (csv_escape_field f +:+ String d s) = after_field d f row s.
Proof.
  intros Hd. unfold csv_escape_field. destruct (needs_quotes f) eqn:Hq.
  - rewrite app_str_cons, app_str_assoc. change (String QUOTE "" +:+ String d s) with (String QUOTE (String d s)).
    etransitivity; [|exact (run_quoted d f "" row s Hd)]. reflexivity.
  - rewrite (run_plain FieldStart d f "" row s); [done|by left|done..].
Qed.

Lemma run_row f fields row s :
  csv_run FieldStart "" row (csv_row (f :: fields) +:+ s) = (rows ← parse_csv s; Some ((row ++ f :: fields) :: rows)).
Proof.
  revert f row. induction fields as [|f' fields IH]; intros f row.
  - unfold csv_row. cbn. rewrite app_str_assoc. change (String CR (String LF "") +:+ s) with (String CR (String LF s)).
    rewrite run_field by by right. done.
  - assert (Hr : csv_row (f :: f' :: fields) = csv_escape_field f +:+ String "," (csv_row (f' :: fields))).
    { unfold csv_row. change (String.concat "," (csv_escape_field <$> (f :: f' :: fields)))
        with (csv_escape_field f +:+ ("," +:+ String.concat "," (csv_escape_field <$> (f' :: fields)))).
      by rewrite !app_str_assoc. }
    rewrite Hr, app_str_assoc, app_str_cons, run_field by by left. unfold after_field. cbn [Ascii.eqb].
    change (Ascii.eqb "," ",") with true. cbn iota. rewrite IH. by rewrite <- app_assoc.
Qed.

Lemma run_rows rows : Forall (fun r => r <> []) rows -> parse_csv (String.concat "" (csv_row <$> rows)) = Some rows.
Proof.
  induction rows as [|r rows IH]; intros Hf; [done|]. apply Forall_cons in Hf as [Hr Hf]. destruct r as [|f fields]; [done|].
  assert (Hc : String.concat "" (csv_row <$> ((f :: fields) :: rows)) = csv_row (f :: fields) +:+ String.concat "" (csv_row <$> rows)).
  { cbn [fmap list_fmap]. destruct rows as [|r' rows]; [|done]. cbn. symmetry.
    generalize (csv_row (f :: fields)). intros t. induction t as [|x t IHt]; [done|]. rewrite app_str_cons. by rewrite IHt. }
  rewrite Hc. unfold parse_csv. rewrite run_row, IH; done.
Qed.

(** C34. An export can be read back: whatever text the fields hold, commas,
    quotes and line breaks included, a reader of RFC 4180 gets back exactly the
    rows and fields that were written. *)
Theorem csv_roundtrip header rows :
  header <> [] -> Forall (fun r => r <> []) rows ->
  parse_csv (csv_row header +:+ String.concat "" (csv_row <$> rows)) = Some (header :: rows).
Proof. intros Hh Hr. destruct header as [|f fields]; [done|]. unfold parse_csv at 1. rewrite run_row, run_rows; done. Qed.

(** ** Searching *)

Fixpoint after (t s : string) : option string :=
  match t, s with
  | EmptyString, _ => Some s
  | String a t, String b s => if Ascii.eqb a b then after t s else None
  | _, _ => None
  end.

Lemma after_app t s r : after t s = Some r <-> s = t +:+ r.
Proof.
  revert s. induction t as [|a t IH]; intros s; cbn; [split; [by intros [= ->] | by intros ->]|].
  destruct s as [|b s]; [split; [done|]; rewrite app_str_cons; done|]. rewrite app_str_cons.
  destruct (Ascii.eqb_spec a b) as [->|Hn]; [rewrite IH; split; [by intros -> | by intros [= ->]]|].
  split; [done|]. intros [= -> _]. done.
Qed.

Lemma like_literal t p s : like (escape_chars t +:+ p) s = match after t s with Some r => like p r | None => false end.
Proof.
  revert s. induction t as [|a t IH]; intros s; [done|]. cbn [escape_chars].
  destruct (Ascii.eqb a "\" || Ascii.eqb a "%" || Ascii.eqb a "_") eqn:Hs.
  - rewrite !app_str_cons. change (like (String "\" (String a (escape_chars t +:+ p))) s)
      with (match s with String e s' => Ascii.eqb a e && like (escape_chars t +:+ p) s' | EmptyString => false end).
    destruct s as [|e s]; [done|]. cbn [after]. rewrite IH. by destruct (Ascii.eqb a e).
  - apply orb_false_iff in Hs as [[Hb Hp]%orb_false_iff Hu]. rewrite app_str_cons. cbn [like]. rewrite Hp, Hu, Hb.
    destruct s as [|e s]; [done|]. cbn [after]. rewrite IH. by destruct (Ascii.eqb a e).
Qed.

Lemma like_any p s : like (String "%" p) s = true <-> exists a b, s = a +:+ b /\ like p b = true.
Proof.
  induction s as [|c s IH].
  - change (like (String "%" p) "") with (like p "" || false). rewrite orb_false_r. split.
    + intros Hl. by exists "", "".
    + intros (a & b & Hs & Hl). destruct a; [|done]. change ("" +:+ b) with b in Hs. by subst.
  - change (like (String "%" p) (String c s)) with (like p (String c s) || like (String "%" p) s). rewrite orb_true_iff, IH. split.
    + intros [Hl|(a & b & -> & Hl)]; [by exists "", (String c s)|]. by exists (String c a), b.
    + intros (a & b & Hs & Hl). destruct a as [|x a]; [left; change ("" +:+ b) with b in Hs; by subst|]. right. rewrite app_str_cons in Hs.
      injection Hs as -> ->. by exists a, b.
Qed.

Lemma like_all s : like "%" s = true.
Proof. apply like_any. exists s, "". split; [|done]. induction s as [|x s IH]; [done|]. rewrite app_str_cons. by rewrite <- IH. Qed.

(** A search box is not a pattern language.  Whatever a merchant types, a
    prefix search matches exactly the texts that start with it and a substring
    search exactly those that contain it, in lower case; wildcards and
    backslashes stand for themselves. *)
Theorem search_is_literal term s :
  (like (search_prefix_pattern term) s = true <-> exists b, s = to_lowercase term +:+ b) /\
  (like (search_contains_pattern term) s = true <-> exists a b, s = a +:+ (to_lowercase term +:+ b)).
Proof.
  assert (Hp : forall s, like (search_prefix_pattern term) s = true <-> exists b, s = to_lowercase term +:+ b).
  { intros x. unfold search_prefix_pattern, escape_like. rewrite like_literal. split.
    - destruct (after _ x) as [r|] eqn:Ha; [|done]. apply after_app in Ha. intros _. by exists r.
    - intros [b Hb]. apply after_app in Hb. rewrite Hb. apply like_all. }
  split; [apply Hp|]. change (search_contains_pattern term) with (String "%" (search_prefix_pattern term)). rewrite like_any. split.
  - intros (a & b & -> & [c ->]%Hp). by exists a, c.
  - intros (a & b & ->). exists a, (to_lowercase term +:+ b). split; [done|]. apply Hp. by exists b.
Qed.

(** ** Scope *)

Section Scope.
Context `{Runtime} `{PolicyNames} `{UuidText} `{Formats} `{Numeric} `{ApiTypes} `{ReadHostLaws}.

(** A member whose key covers the store, or an administrator. *)
Definition may_see (c : StoreScopedUser) (d : ReadDb) (s : Uuid) : Prop :=
  ui_role (ssu_user c) = ServerAdmin \/
  (is_Some (td_user_stores (rb_team d) !! (ui_id (ssu_user c), s)) /\ key_grants_store_permission (ssu_key_scope c) VIEW_INVOICES s = true).

Definition in_scope (scope : StoreScope) (s : Uuid) : Prop :=
  match scope with One id => s = id | Membership ids => s ∈ ids | AllStores => True end.

(** An invoice of the tables, a payment of one. *)
Definition invoice_of (d : ReadDb) (inv : InvoiceData) : Prop :=
  exists r, db_invoices (rb_db d) !! id_id inv = Some r /\ inv = row_to_invoice (id_id inv) r.
Definition payment_of (d : ReadDb) (p : PaymentData) (s : Uuid) : Prop :=
  exists i, db_invoices (rb_db d) !! pda_invoice_id p = Some i /\ inv_store_id i = s.

(** Reading leaves the tables as they are. *)
Definition reads {E A} (m : St Desk E A) (d : ReadDb) (P : A -> Prop) : Prop :=
  runs m d (fun r d' => d' = d /\ match r with Ok a => P a | Err _ => True end).

Lemma desk_reads_bind {E A B} (m : St Desk E A) (f : A -> St Desk E B) d P Q :
  reads m d P -> (forall a, P a -> reads (f a) d Q) -> reads (let* a := m in f a) d Q.
Proof.
  intros Hm Hf. apply runs_bind. eapply runs_mono; [exact Hm|]. intros r d' [-> Hr]. destruct r as [a|e]; [by apply Hf | done].
Qed.

Lemma desk_reads_ret {E A} (a : A) d (P : A -> Prop) : P a -> reads (E := E) (st_ret a) d P.
Proof. intros Ha. by apply runs_ret. Qed.

Lemma reads_lift {A} (r : result Z A) d (P : A -> Prop) : (forall a, r = Ok a -> P a) -> reads (st_lift r) d P.
Proof. intros Hr. apply runs_lift. split; [done|]. destruct r as [a|]; [by apply Hr | done]. Qed.

Lemma reads_given {A} (r : result Z A) d : reads (st_lift r) d (fun a => r = Ok a).
Proof. by apply reads_lift. Qed.

Lemma desk_reads_mono {E A} (m : St Desk E A) d (P Q : A -> Prop) : reads m d P -> (forall a, P a -> Q a) -> reads m d Q.
Proof. intros Hm HQ. eapply runs_mono; [exact Hm|]. intros r d' [-> Hr]. split; [done|]. destruct r; [by apply HQ | done]. Qed.

Lemma reads_select {A} (f : ReadDb -> A) d (P : A -> Prop) : P (f d) -> reads (fails_500 (tdb (tselect f))) d P.
Proof. intros Hf. by apply runs_map_err, runs_select. Qed.

Lemma reads_500 {A} (m : St Desk DbError A) d (P : A -> Prop) : reads m d P -> reads (fails_500 m) d P.
Proof. intros Hm. apply runs_map_err. eapply runs_mono; [exact Hm|]. intros r d' [-> Hr]. split; [done|]. by destruct r. Qed.

Lemma reads_try {A E E'} (m : St Desk E A) d P :
  reads m d P -> reads (E := E') (st_try m) d (fun r => match r with Ok a => P a | Err _ => True end).
Proof. intros Hm. apply runs_try. exact Hm. Qed.

Lemma desk_reads_fold {A B} (f : B -> A -> View B) l d (P : B -> Prop) :
  (forall b x, P b -> x ∈ l -> reads (f b x) d P) -> forall b, P b -> reads (st_fold f b l) d P.
Proof.
  induction l as [|x l IH]; intros Hf b Hb; [by apply desk_reads_ret|]. cbn [st_fold].
  eapply desk_reads_bind; [apply Hf; [done|by left]|]. intros b' Hb'. apply IH; [|done]. intros b'' y Hy Hin. apply Hf; [done|by right].
Qed.

Lemma scope_seen c sid d : reads (listing_scope c sid) d (fun scope => forall s, in_scope scope s -> may_see c d s).
Proof.
  unfold listing_scope. eapply desk_reads_bind with (P := fun scope => ui_role (ssu_user c) = ServerAdmin \/
      (scope <> AllStores /\ forall s, in_scope scope s -> is_Some (td_user_stores (rb_team d) !! (ui_id (ssu_user c), s)))).
  - unfold verify_store_access_for_query. destruct sid as [id|].
    + eapply desk_reads_bind; [apply (reads_select _ d (fun r => r = td_user_stores (rb_team d) !! (ui_id (ssu_user c), id))); done|].
      intros r ->. destruct (td_user_stores (rb_team d) !! _) as [x|] eqn:Hx; cbn.
      * apply desk_reads_ret. right. split; [done|]. intros s ->. by exists x.
      * case_bool_decide; [by apply desk_reads_ret; left | by apply runs_throw].
    + case_bool_decide; [by apply desk_reads_ret; left|].
      eapply desk_reads_bind; [apply (reads_select _ d (fun l => forall s, s ∈ l -> is_Some (td_user_stores (rb_team d) !! (ui_id (ssu_user c), s))))|].
      * intros s ([[u s'] x] & -> & Hin)%list_elem_of_fmap. apply list_elem_of_In, filter_In in Hin as [Hin Hu%Z.eqb_eq].
        apply list_elem_of_In, elem_of_map_to_list in Hin. cbn in *. subst. by exists x.
      * intros l Hl. apply desk_reads_ret. by right.
  - intros scope Hs. apply reads_lift. intros scope' Hn s Hin. destruct Hs as [Ha|[Hne Hs]]; [by left|]. unfold narrow_scope_by_key in Hn.
    destruct scope as [id|ids|]; [destruct (key_grants_store_permission _ _ id) eqn:Hk; [injection Hn as <-|done]|injection Hn as <-|done].
    + cbn in Hin. subst s. right. split; [by apply Hs | done].
    + apply list_elem_of_In, filter_In in Hin as [Hin Hk]. right. split; [|done]. apply Hs. by apply list_elem_of_In.
Qed.

(** A filter is added to the scope, never put in its place. *)
Lemma build_scoped scope st cur q params limit offset kr :
  build_invoice_filter_params scope st cur q = Ok params -> invoice_matches (iq_page limit offset params) kr = true ->
  in_scope scope (inv_store_id kr.2).
Proof.
  intros Hb Hm. unfold invoice_matches in Hm. rewrite !andb_true_iff in Hm. destruct Hm as [[[[[[Hq1 Hq2] _] _] _] _] _].
  assert (Hi : iq_store_id params = iq_store_id (apply_invoice scope new_invoice_query) /\ iq_store_ids params = iq_store_ids (apply_invoice scope new_invoice_query)).
  { unfold build_invoice_filter_params in Hb. destruct st as [s|]; [destruct (parse_invoice_status s); [|done]|]; by injection Hb as <-. }
  cbn in Hq1, Hq2. destruct Hi as [Hi Hj]. rewrite Hi in Hq1. rewrite Hj in Hq2. destruct scope as [id|ids|]; cbn in *; [by apply Z.eqb_eq| |done].
  unfold one_of in Hq2. apply existsb_exists in Hq2 as (x & Hx & ->%Z.eqb_eq). by apply list_elem_of_In.
Qed.

Lemma build_payment_scoped scope st q params limit offset d kr :
  build_payment_filter_params scope st q = Ok params -> payment_matches (pq_page limit offset params) d kr = true ->
  scope = AllStores \/ exists i, db_invoices d !! pay_invoice_id kr.2 = Some i /\ in_scope scope (inv_store_id i).
Proof.
  intros Hb Hm. unfold payment_matches in Hm. rewrite !andb_true_iff in Hm. destruct Hm as [[[Hq1 Hq2] _] _].
  assert (Hi : pq_store_id params = pq_store_id (apply_payment scope new_payment_query) /\ pq_store_ids params = pq_store_ids (apply_payment scope new_payment_query)).
  { unfold build_payment_filter_params in Hb. destruct st as [s|]; [destruct (String.eqb s _); [|destruct (String.eqb s _); [|done]]|]; by injection Hb as <-. }
  cbn in Hq1, Hq2. destruct Hi as [Hi Hj]. rewrite Hi in Hq1. rewrite Hj in Hq2.
  destruct (db_invoices d !! pay_invoice_id kr.2) as [i|] eqn:Hinv.
  - right. exists i. split; [done|]. destruct scope as [id|ids|]; cbn in *; [by apply Z.eqb_eq| |done].
    unfold one_of in Hq2. apply existsb_exists in Hq2 as (x & Hx & ->%Z.eqb_eq). by apply list_elem_of_In.
  - left. by destruct scope.
Qed.

Lemma page_sub {A} limit offset (l r : list A) x : page limit offset l = Ok r -> x ∈ r -> x ∈ l.
Proof.
  unfold page. destruct (_ || _); [done|]. intros [= <-] Hx.
  eapply elem_of_submseteq; [exact Hx|]. apply sublist_submseteq. etransitivity; [apply sublist_take | apply sublist_drop].
Qed.

(** What a query finds. *)
Lemma query_found q d :
  reads (query_invoices q) d (fun r => forall inv, inv ∈ r.2 ->
    exists row, db_invoices (rb_db d) !! id_id inv = Some row /\ inv = row_to_invoice (id_id inv) row /\ invoice_matches q (id_id inv, row) = true).
Proof.
  unfold query_invoices. apply runs_bind, runs_select; [|done]. apply runs_bind, runs_tdb; [done|]. intros now. cbn.
  split; [|done]. destruct (page _ _ _) as [l|] eqn:Hp; [|done]. apply runs_ret. split; [done|].
  intros inv ([k row] & -> & Hin)%list_elem_of_fmap. apply (page_sub _ _ _ _ _ Hp) in Hin. rewrite order_invoices_perm in Hin.
  apply list_elem_of_In, filter_In in Hin as [Hin Hm]. apply list_elem_of_In, elem_of_map_to_list in Hin. cbn. by exists row.
Qed.

Lemma query_payments_found q d :
  reads (query_payments q) d (fun r => forall p, p ∈ r.2 ->
    exists k row, db_payments (rb_db d) !! k = Some row /\ p = row_to_payment k row /\ payment_matches q (rb_db d) (k, row) = true).
Proof.
  unfold query_payments. apply runs_bind, runs_select; [|done]. apply runs_bind, runs_tdb; [done|]. intros now. cbn.
  split; [|done]. destruct (page _ _ _) as [l|] eqn:Hp; [|done]. apply runs_ret. split; [done|].
  intros p ([k row] & -> & Hin)%list_elem_of_fmap. apply (page_sub _ _ _ _ _ Hp) in Hin. rewrite order_payments_perm in Hin.
  apply list_elem_of_In, filter_In in Hin as [Hin Hm]. apply list_elem_of_In, elem_of_map_to_list in Hin. by exists k, row.
Qed.

Lemma names_read ids d : reads (resolve_store_names ids) d (fun _ => True).
Proof.
  apply desk_reads_fold; [|done]. intros names id _ _. eapply desk_reads_bind; [apply (reads_try _ d (fun _ => True)); by apply runs_select|].
  intros r _. by apply desk_reads_ret.
Qed.

Lemma options_read id d : reads (options_or_none id) d (fun _ => True).
Proof. eapply desk_reads_bind; [apply (reads_try _ d (fun _ => True)); by apply runs_select|]. intros r _. by apply desk_reads_ret. Qed.

(** What may be shown. *)
Definition shown (c : StoreScopedUser) (d : ReadDb) (inv : InvoiceData) : Prop := invoice_of d inv /\ may_see c d (id_store_id inv).
Definition payment_shown (c : StoreScopedUser) (d : ReadDb) (p : PaymentData) : Prop :=
  (exists k row, db_payments (rb_db d) !! k = Some row /\ p = row_to_payment k row) /\ forall s, payment_of d p s -> may_see c d s.

(** A page of a scoped query. *)
Lemma page_shown c d scope st cur q params limit offset :
  (forall s, in_scope scope s -> may_see c d s) -> build_invoice_filter_params scope st cur q = Ok params ->
  reads (query_invoices (iq_page limit offset params)) d (fun r => forall inv, inv ∈ r.2 -> shown c d inv).
Proof.
  intros Hs Hb. eapply desk_reads_mono; [apply query_found|]. intros r Hr inv Hin. destruct (Hr inv Hin) as (row & Hrow & -> & Hm).
  split; [by exists row|]. cbn. apply Hs. by apply (build_scoped _ _ _ _ _ _ _ _ Hb Hm).
Qed.

Lemma payment_page_shown c d scope st q params limit offset :
  (forall s, in_scope scope s -> may_see c d s) -> build_payment_filter_params scope st q = Ok params ->
  reads (query_payments (pq_page limit offset params)) d (fun r => forall p, p ∈ r.2 -> payment_shown c d p).
Proof.
  intros Hs Hb. eapply desk_reads_mono; [apply query_payments_found|]. intros r Hr p Hin. destruct (Hr p Hin) as (k & row & Hrow & -> & Hm).
  split; [by exists k, row|]. intros s (i & Hi & <-). cbn in Hi.
  destruct (build_payment_scoped _ _ _ _ _ _ _ _ Hb Hm) as [->|(i' & Hi' & Hin')]; [by apply Hs|]. cbn in Hi'. apply Hs. congruence.
Qed.

Lemma list_shown c query d : reads (list_invoices c query) d (fun r => forall x, x ∈ r.2 -> shown c d (ir_invoice x)).
Proof.
  eapply desk_reads_bind; [apply scope_seen|]. intros scope Hs. eapply desk_reads_bind; [apply reads_given|].
  intros params Hb. eapply desk_reads_bind; [by apply reads_500, (page_shown c d scope _ _ _ _ _ _ Hs Hb)|]. intros [total found] Hf. cbn [fst snd] in *.
  eapply desk_reads_bind; [apply names_read|]. intros names _.
  eapply desk_reads_bind; [apply (desk_reads_fold _ _ d (fun acc => forall x, x ∈ acc -> shown c d (ir_invoice x)))|].
  - intros acc inv Ha Hin. eapply desk_reads_bind with (P := fun r => ir_invoice r = inv).
    + eapply desk_reads_bind; [apply options_read|]. intros opts _. by apply desk_reads_ret.
    + intros r Hr. apply desk_reads_ret. intros x [Hx|Hx%list_elem_of_singleton]%elem_of_app; [by apply Ha|]. subst. by apply Hf.
  - by intros x Hx%elem_of_nil.
  - intros rs Hrs. by apply desk_reads_ret.
Qed.

Lemma payments_shown c query d : reads (list_payments c query) d (fun r => forall x, x ∈ r.2 -> payment_shown c d (pr_payment x)).
Proof.
  eapply desk_reads_bind; [apply scope_seen|]. intros scope Hs. eapply desk_reads_bind; [apply reads_given|].
  intros params Hb. eapply desk_reads_bind; [by apply reads_500, (payment_page_shown c d scope _ _ _ _ _ Hs Hb)|]. intros [total found] Hf. cbn [fst snd] in *.
  eapply desk_reads_bind with (P := fun _ => True).
  - unfold stores_of_payments. destruct scope; [by apply desk_reads_ret|..]; (apply desk_reads_fold; [|done]; intros m id _ _;
      eapply desk_reads_bind; [apply (reads_try _ d (fun _ => True)); by apply runs_select|]; intros r _; by apply desk_reads_ret).
  - intros stores _. eapply desk_reads_bind; [apply names_read|]. intros names _. apply desk_reads_ret. cbn.
    intros x (p & -> & Hp)%list_elem_of_fmap. cbn. by apply Hf.
Qed.

Lemma invoice_shown c id d : reads (get_invoice_with_permission c id) d (fun inv => id_id inv = id /\ shown c d inv).
Proof.
  eapply desk_reads_bind; [apply (reads_select _ d (fun r => r = row_to_invoice id <$> db_invoices (rb_db d) !! id)); done|]. intros r ->.
  destruct (db_invoices (rb_db d) !! id) as [row|] eqn:Hrow; cbn [fmap option_fmap option_map].
  - eapply desk_reads_bind with (P := fun m => m = true -> may_see c d (inv_store_id row) \/ key_grants_store_permission (ssu_key_scope c) VIEW_INVOICES (inv_store_id row) = false).
    + case_bool_decide; cbn [negb]; [by apply desk_reads_ret|].
      eapply desk_reads_bind; [apply (reads_select _ d (fun r => r = td_user_stores (rb_team d) !! (ui_id (ssu_user c), inv_store_id row))); done|].
      intros r ->. apply desk_reads_ret. intros Hm. destruct (td_user_stores _ !! _) as [x|] eqn:Hx; [|done].
      destruct (key_grants_store_permission _ _ _) eqn:Hk; [left; right; split; [by exists x | done] | by right].
    + intros m Hm. apply reads_lift. intros inv Hv. unfold visible_invoice in Hv. cbn [id_store_id row_to_invoice] in Hv.
      case_bool_decide as Hadm; cbn in Hv.
      * destruct (key_grants_store_permission _ _ _); [injection Hv as <-|done]. split; [done|]. split; [by exists row | by left].
      * destruct m; [|done]. cbn in Hv. destruct (key_grants_store_permission _ _ _) eqn:Hk; [injection Hv as <-|done].
        split; [done|]. split; [by exists row|]. by destruct (Hm eq_refl).
  - apply desk_reads_bind with (P := fun _ => True); [by apply desk_reads_ret|]. intros m _. by apply reads_lift.
Qed.

Lemma payment_invoice_shown c p d : reads (payment_visible c p) d (fun inv => id_id inv = pda_invoice_id p /\ shown c d inv).
Proof.
  eapply desk_reads_bind; [apply (reads_select _ d (fun r => r = row_to_invoice (pda_invoice_id p) <$> db_invoices (rb_db d) !! pda_invoice_id p)); done|].
  intros r ->. destruct (db_invoices (rb_db d) !! pda_invoice_id p) as [row|] eqn:Hrow; [|by apply runs_bind, runs_throw].
  apply runs_bind, runs_ret. cbn iota.
  eapply desk_reads_bind with (P := fun _ => ui_role (ssu_user c) = ServerAdmin \/ is_Some (td_user_stores (rb_team d) !! (ui_id (ssu_user c), inv_store_id row))).
  - case_bool_decide; [by apply desk_reads_ret; left|].
    eapply desk_reads_bind; [apply (reads_select _ d (fun r => r = td_user_stores (rb_team d) !! (ui_id (ssu_user c), inv_store_id row))); done|].
    intros r ->. destruct (td_user_stores _ !! _) as [x|] eqn:Hx; cbn; [|by apply runs_throw]. apply desk_reads_ret. right. by exists x.
  - intros [] Hm. cbn. destruct (key_grants_store_permission _ _ _) eqn:Hk; cbn; [|by apply runs_throw]. apply desk_reads_ret.
    split; [done|]. split; [by exists row|]. cbn. destruct Hm as [Hm|Hm]; [by left | by right].
Qed.

(** The body of an export. *)
Definition csv_of {A} (fields : A -> list string) (rows : list A) : string := String.concat "" (csv_row <$> (fields <$> rows)).

Lemma csv_of_app {A} (fields : A -> list string) l k : csv_of fields (l ++ k) = csv_of fields l +:+ csv_of fields k.
Proof.
  unfold csv_of. rewrite !fmap_app. generalize (csv_row <$> (fields <$> l)) (csv_row <$> (fields <$> k)). intros a b.
  assert (Hnil : forall t, t +:+ "" = t). { intros t. induction t as [|x t IH]; [done|]. rewrite app_str_cons. by rewrite IH. }
  induction a as [|x a IH]; [done|]. destruct a as [|y a]; [destruct b; [by rewrite Hnil | done]|].
  change ((x :: y :: a) ++ b) with (x :: ((y :: a) ++ b)).
  change (String.concat "" (x :: (y :: a) ++ b)) with (x +:+ ("" +:+ String.concat "" ((y :: a) ++ b))).
  change (String.concat "" (x :: y :: a)) with (x +:+ ("" +:+ String.concat "" (y :: a))). by rewrite IH, !app_str_assoc.
Qed.

Lemma pages_shown {A} fuel (fetch : Z -> St Desk DbError (list A)) fields d (P : A -> Prop) :
  (forall off, reads (fetch off) d (fun rows => forall x, x ∈ rows -> P x)) ->
  forall off, reads (export_pages fuel fetch fields off) d (fun body => exists rows, body = csv_of fields rows /\ forall x, x ∈ rows -> P x).
Proof.
  intros Hf. assert (Hend : exists rows : list A, "" = csv_of fields rows /\ forall x, x ∈ rows -> P x).
  { exists []. split; [done|]. by intros x Hx%elem_of_nil. }
  induction fuel as [|fuel IH]; intros off; cbn [export_pages]; [by apply desk_reads_ret|].
  eapply desk_reads_bind; [apply reads_try, Hf|]. intros [[|x rows]|e] Hr; [by apply desk_reads_ret| |by apply desk_reads_ret].
  eapply desk_reads_bind; [apply IH|]. intros rest (more & -> & Hm). apply desk_reads_ret. exists ((x :: rows) ++ more).
  split; [by rewrite csv_of_app|]. intros y [Hy|Hy]%elem_of_app; [by apply Hr | by apply Hm].
Qed.

Lemma found_shown c d inv p :
  (exists k row, db_payments (rb_db d) !! k = Some row /\ p = row_to_payment k row) -> id_id inv = pda_invoice_id p -> shown c d inv ->
  payment_shown c d p.
Proof.
  intros Hp Hi [(r & Hr & Heq) Hm]. split; [done|]. intros s (i & Hs & <-). rewrite <- Hi, Hr in Hs. injection Hs as <-. by rewrite Heq in Hm.
Qed.

(** The first payment that a condition picks. *)
Lemma first_row (p : (string * string * Z) * PaymentRow -> bool) d x :
  (fun kr => row_to_payment kr.1 kr.2) <$> head (List.filter p (map_to_list (db_payments (rb_db d)))) = Some x ->
  exists k row, db_payments (rb_db d) !! k = Some row /\ x = row_to_payment k row.
Proof.
  destruct (List.filter p _) as [|[k row] l] eqn:Hl; [done|]. cbn. intros [= <-]. exists k, row. split; [|done].
  apply elem_of_map_to_list, list_elem_of_In, (proj1 (filter_In p (k, row) _)). rewrite Hl. by left.
Qed.

(** C33. A reading route never leaves the caller's stores.  Whatever requests
    are lost and whatever is asked for, nothing is written, and every invoice
    in an answer, in a listing or in a file, and every payment's invoice, is of
    a store the caller belongs to with a key that grants viewing its invoices,
    or the caller is an administrator; what is shown is what the tables hold. *)
Theorem reads_stay_in_scope c d :
  (forall query, reads (list_invoices c query) d (fun r => forall x, x ∈ r.2 -> shown c d (ir_invoice x))) /\
  (forall query, reads (list_payments c query) d (fun r => forall x, x ∈ r.2 -> payment_shown c d (pr_payment x))) /\
  (forall id, reads (get_invoice c id) d (fun r => id_id (ir_invoice r) = id /\ shown c d (ir_invoice r))) /\
  (forall id, reads (get_invoice_payments c id) d (fun l => (exists inv, id_id inv = id /\ shown c d inv) /\ forall p, p ∈ l -> pda_invoice_id p = id)) /\
  (forall id, reads (get_payment c id) d (fun r => payment_shown c d (pr_payment r))) /\
  (forall chain hash, reads (lookup_by_tx_hash c chain hash) d (fun r => shown c d (ir_invoice r.1) /\ payment_shown c d r.2)) /\
  (forall query, reads (export_invoices_csv c query) d (fun e => match e with
     | Csv _ body => exists rows, body = csv_row invoice_header +:+ csv_of invoice_fields rows /\ forall inv, inv ∈ rows -> shown c d inv
     | TooLarge _ => True end)) /\
  (forall query, reads (export_payments_csv c query) d (fun e => match e with
     | Csv _ body => exists rows, body = csv_row payment_header +:+ csv_of payment_fields rows /\ forall p, p ∈ rows -> payment_shown c d p
     | TooLarge _ => True end)).
Proof.
  split_and!; intros; [apply list_shown|apply payments_shown|..].
  - eapply desk_reads_bind; [apply invoice_shown|]. intros inv Hi. eapply desk_reads_bind; [apply options_read|]. intros o _. by apply desk_reads_ret.
  - eapply desk_reads_bind; [apply invoice_shown|]. intros inv Hi. apply reads_500, runs_tdb; [done|]. intros now. cbn. split; [|done]. split; [done|].
    split; [by exists inv|]. intros p ([k row] & -> & Hin)%list_elem_of_fmap. rewrite order_payments_perm in Hin.
    apply list_elem_of_In, filter_In in Hin as [_ He]. by apply String.eqb_eq.
  - eapply desk_reads_bind; [apply (reads_select _ d (fun r => forall x, r = Some x -> exists k row, db_payments (rb_db d) !! k = Some row /\ x = row_to_payment k row)); apply first_row|].
    intros [p|] Hp; [|by apply runs_bind, runs_throw]. apply runs_bind, runs_ret. cbn iota.
    eapply desk_reads_bind; [apply payment_invoice_shown|]. intros inv [Hi Hs]. eapply desk_reads_bind; [apply names_read|]. intros names _.
    apply desk_reads_ret. cbn. by apply (found_shown c d inv); [apply Hp|..].
  - unfold lookup_by_tx_hash. destruct (negb _); [by apply runs_throw|]. destruct (parse_chain_id chain) as [ch|]; [|by apply runs_bind, runs_throw].
    apply runs_bind, runs_ret. cbn iota.
    eapply desk_reads_bind; [apply (reads_select _ d (fun r => forall x, r = Some x -> exists k row, db_payments (rb_db d) !! k = Some row /\ x = row_to_payment k row)); apply first_row|].
    intros [p|] Hp; [|by apply runs_bind, runs_throw]. apply runs_bind, runs_ret. cbn iota.
    eapply desk_reads_bind; [apply payment_invoice_shown|]. intros inv [Hi Hs]. eapply desk_reads_bind; [apply options_read|]. intros o _.
    apply desk_reads_ret. cbn. split; [done|]. by apply (found_shown c d inv); [apply Hp|..].
  - eapply desk_reads_bind; [apply scope_seen|]. intros scope Hs. eapply desk_reads_bind; [apply reads_given|]. intros base Hb.
    eapply desk_reads_bind; [apply reads_500, query_found|]. intros [n l] _. cbn [fst]. destruct (_ <? n); [by apply desk_reads_ret|].
    apply runs_bind, runs_now. intros t. cbn iota.
    eapply desk_reads_bind; [apply (pages_shown _ _ _ d (shown c d)); intros off; eapply desk_reads_bind; [by apply (page_shown c d scope _ _ _ _ _ _ Hs Hb)|]; intros r Hr; by apply desk_reads_ret|].
    intros body (rows & -> & Hr). apply desk_reads_ret. by exists rows.
  - eapply desk_reads_bind; [apply scope_seen|]. intros scope Hs. eapply desk_reads_bind; [apply reads_given|]. intros base Hb.
    eapply desk_reads_bind; [apply reads_500, query_payments_found|]. intros [n l] _. cbn [fst]. destruct (_ <? n); [by apply desk_reads_ret|].
    apply runs_bind, runs_now. intros t. cbn iota.
    eapply desk_reads_bind; [apply (pages_shown _ _ _ d (payment_shown c d)); intros off; eapply desk_reads_bind; [by apply (payment_page_shown c d scope _ _ _ _ _ Hs Hb)|]; intros r Hr; by apply desk_reads_ret|].
    intros body (rows & -> & Hr). apply desk_reads_ret. by exists rows.
Qed.
End Scope.

(** ** Whole files *)

Section Exports.
Context `{Runtime} `{PolicyNames} `{UuidText} `{Formats} `{Numeric} `{ApiTypes} `{ReadHostLaws}.
Context (up : forall n, calls n = Answered).

Definition answers {E A} (m : St Desk E A) (d : ReadDb) (a : A) : Prop := runs m d (fun r d' => d' = d /\ r = Ok a).

Lemma answers_bind {E A B} (m : St Desk E A) (f : A -> St Desk E B) d a b :
  answers m d a -> answers (f a) d b -> answers (let* x := m in f x) d b.
Proof. intros Hm Hf. apply runs_bind. eapply runs_mono; [exact Hm|]. by intros r d' [-> ->]. Qed.

Lemma answers_stmt {A} (stmt : TStatement ReadDb A) d a : (forall now, stmt now d = (Ok a, d)) -> answers (tdb stmt) d a.
Proof. intros Hs o <-. unfold tdb. rewrite up. by rewrite Hs. Qed.

(** The rows a query is about. *)
Definition matched (q : InvoiceQuery) (d : ReadDb) : list (string * InvoiceRow) :=
  List.filter (invoice_matches q) (map_to_list (db_invoices (rb_db d))).

Definition distinct_times (l : list (string * InvoiceRow)) : Prop :=
  forall a b, a ∈ l -> b ∈ l -> inv_created_at a.2 = inv_created_at b.2 -> a = b.

(** Without ties there is one order. *)
Lemma one_order l t t' : distinct_times l -> order_invoices t l = order_invoices t' l.
Proof.
  intros Hd. eapply (Sorted_unique_strong (fun a b : string * InvoiceRow => inv_created_at b.2 <= inv_created_at a.2)).
  - intros a b. rewrite !order_invoices_perm. intros Ha Hb Hab Hba. apply Hd; [done..|lia].
  - apply order_invoices_sorted.
  - apply order_invoices_sorted.
  - by rewrite !order_invoices_perm.
  Unshelve. intros a b c Hab Hbc. lia.
Qed.

Definition listed (q : InvoiceQuery) (d : ReadDb) : list InvoiceData := (fun kr => row_to_invoice kr.1 kr.2) <$> order_invoices 0 (matched q d).

Lemma query_answers q d limit offset :
  distinct_times (matched q d) -> 0 <= limit -> 0 <= offset ->
  answers (query_invoices (iq_page limit offset q)) d
    (Z.of_nat (length (matched q d)), take (Z.to_nat limit) (drop (Z.to_nat offset) (listed q d))).
Proof.
  intros Hd Hl Ho. eapply answers_bind; [by apply answers_stmt|].
  eapply (answers_bind _ _ _ (take (Z.to_nat limit) (drop (Z.to_nat offset) (order_invoices 0 (matched q d))))).
  - apply answers_stmt. intros now. unfold page. cbn [iq_limit iq_offset iq_page].
    assert ((limit <? 0) || (offset <? 0) = false) as -> by (apply orb_false_iff; split; by apply Z.ltb_ge).
    change (List.filter (invoice_matches (iq_page limit offset q)) (map_to_list (db_invoices (rb_db d)))) with (matched q d).
    by rewrite (one_order _ now 0 Hd).
  - apply runs_ret. split; [done|]. do 2 f_equal. unfold listed. by rewrite fmap_take, fmap_drop.
Qed.

Lemma pages_answer {A} (rows : list A) fetch fields d fuel :
  (forall off, 0 <= off -> answers (fetch off) d (take 1000 (drop (Z.to_nat off) rows))) ->
  forall off, 0 <= off -> (length rows < fuel + Z.to_nat off)%nat ->
  answers (export_pages fuel fetch fields off) d (csv_of fields (drop (Z.to_nat off) rows)).
Proof.
  intros Hf. induction fuel as [|fuel IH]; intros off Hoff Hlen; cbn [export_pages].
  { rewrite drop_ge by lia. by apply runs_ret. }
  apply runs_bind, runs_try. eapply runs_mono; [by apply Hf|]. intros r d' [-> ->].
  destruct (take 1000 (drop (Z.to_nat off) rows)) as [|x l] eqn:Ht.
  - apply runs_ret. split; [done|]. destruct (drop (Z.to_nat off) rows) as [|y k]; [done | by destruct k].
  - assert (Hl : (length (x :: l) <= length (drop (Z.to_nat off) rows))%nat) by (rewrite <- Ht, length_take; lia).
    assert (Hcat : drop (Z.to_nat off) rows = (x :: l) ++ drop (Z.to_nat (off + Z.of_nat (length (x :: l)))) rows).
    { rewrite Z2Nat.inj_add, Nat2Z.id by lia. rewrite <- drop_drop. rewrite <- Ht at 1.
      rewrite <- (take_drop 1000 (drop (Z.to_nat off) rows)) at 1. f_equal. rewrite <- Ht.
      destruct (le_lt_dec (length (drop (Z.to_nat off) rows)) 1000) as [Hs|Hs].
      - rewrite (take_ge _ 1000) by done. rewrite !drop_ge by lia. done.
      - rewrite length_take. f_equal. lia. }
    rewrite Hcat. eapply answers_bind; [apply IH; [lia|]|].
    + rewrite length_drop in Hl. cbn [length] in Hl |- *. lia.
    + apply runs_ret. split; [done|]. by rewrite csv_of_app.
Qed.

(** The query of an export. *)
Definition export_base (c : StoreScopedUser) (query : ListInvoicesQuery) : View InvoiceQuery :=
  let* scope := listing_scope c (li_store_id query) in
  st_lift (build_invoice_filter_params scope (li_status query) (li_currency query) (li_search query)).

(** A file holds every matching invoice once.  While the database answers
    and no two matching invoices were created at the same instant, an export
    of at most fifty thousand matching rows, read by RFC 4180, is the header
    and one record for each matching invoice, newest first; its stream ends. *)
Theorem export_complete c query d base :
  runs (export_base c query) d (fun r _ => r = Ok base) ->
  distinct_times (matched base d) -> Z.of_nat (length (matched base d)) <= MAX_EXPORT_ROWS ->
  runs (export_invoices_csv c query) d (fun r d' => d' = d /\ exists name body rows,
    r = Ok (Csv name body) /\ rows ≡ₚ matched base d /\ Sorted (fun a b => inv_created_at b.2 <= inv_created_at a.2) rows /\
    parse_csv body = Some (invoice_header :: ((fun kr => invoice_fields (row_to_invoice kr.1 kr.2)) <$> rows))).
Proof.
  intros Hb Hd Hmax. apply runs_bind.
  assert (Hs : runs (listing_scope c (li_store_id query)) d (fun r d' => d' = d /\ exists scope, r = Ok scope /\
    build_invoice_filter_params scope (li_status query) (li_currency query) (li_search query) = Ok base)).
  { intros o Ho. specialize (Hb o Ho). destruct (scope_seen c (li_store_id query) d o Ho) as [Hdb _]. split; [exact Hdb|].
    unfold export_base, st_bind in Hb. destruct (listing_scope c (li_store_id query) o) as [[scope|e] o1]; [|done]. by exists scope. }
  eapply runs_mono; [exact Hs|]. intros r d' (-> & scope & -> & ->). clear Hs Hb. apply runs_bind, runs_ret. cbn iota.
  apply runs_bind, runs_map_err. eapply runs_mono; [by apply query_answers|]. intros r d' [-> ->]. cbn [fst].
  rewrite (proj2 (Z.ltb_ge _ _) Hmax). apply runs_bind, runs_now. intros t. cbn iota.
  apply runs_bind. eapply runs_mono; [apply (pages_answer (listed base d)); [|lia|]|].
  - intros off Hoff. eapply answers_bind; [by apply query_answers|]. by apply runs_ret.
  - unfold listed, export_fuel. rewrite length_fmap, (Permutation_length (order_invoices_perm 0 (matched base d))). lia.
  - intros r d' [-> ->]. apply runs_ret. split; [done|]. eexists _, _, (order_invoices 0 (matched base d)). split; [done|].
    split; [apply order_invoices_perm|]. split; [apply order_invoices_sorted|].
    unfold csv_of, listed. cbn [Z.to_nat drop]. unfold parse_csv.
    change invoice_header with ("id"%string :: tail invoice_header). rewrite run_row, run_rows.
    + change (Z.to_nat 0) with 0%nat. by rewrite drop_0, <- (list_fmap_compose _ invoice_fields).
    + apply Forall_fmap, Forall_true. done.
Qed.
End Exports.
