(* ===== verification/WalletRoutes.v ===== *)
(** * The routes on wallets

    [server/src/api/stores/wallets.rs]: an account's receiving keys, the wallet a
    store or a payment method derives from, and rotation, over the statements of
    [Wallets] and the deriver of [Derivation]. *)

From stdpp Require Import gmap strings list sorting.
From Stdlib Require Import ZArith Lia Ascii.
From S2P Require Import Prelude Events Network Decimal LiveWatch Database Services Idempotency ApiKeys Wallets WalletFacts WalletRouting.
From S2P Require Import Derivation Invoicing InvoiceFacts ApiAuth Office Teams StoreSettings ServerSettings.

#[local] Open Scope Z_scope.

Definition VERIFICATION_ADDRESS_COUNT : Z := 3.
Definition U32_MAX : Z := 2 ^ 32 - 1.

(** [DerivedAddressEntry] *)
Record DerivedAddressEntry := mkDerivedAddressEntry {
  de_address : string;
  de_index : Z;
  de_derivation_path : string;
  de_used : bool
}.

(** [StoreWalletQuery] *)
Record StoreWalletQuery := mkStoreWalletQuery { sq_namespace : option string; sq_payment_method_id : option Uuid }.

(** [StoreWalletQuery::namespace] *)
Definition query_namespace (q : StoreWalletQuery) : string := default NAMESPACE_EIP155 (sq_namespace q).

(** [StoreWalletResponse], [MethodWalletResponse] *)
Record StoreWalletResponse := mkStoreWalletResponse {
  sw_store_id : Uuid;
  sw_wallet_id : Uuid;
  sw_wallet : WalletRow;
  sw_is_override : bool
}.
Record MethodWalletResponse := mkMethodWalletResponse {
  mw_store_wallet : StoreWalletResponse;
  mw_differs_from_store_wallet : bool
}.

(** [StoreWalletResult] *)
Inductive StoreWalletResult := Bare (r : StoreWalletResponse) | ForMethod (r : MethodWalletResponse).

(** [CreateWalletRequest], [RotateWalletRequest] *)
Record CreateWalletRequest := mkCreateWalletRequest { cw_namespace : string; cw_xpub : string; cw_name : option string }.
Record RotateWalletRequest := mkRotateWalletRequest { rw_namespace : string; rw_xpub : string; rw_reason : option string }.

(** [RotationEntry], less the id of its row *)
Record RotationEntry := mkRotationEntry {
  re_payment_method_id : Uuid;
  re_chain_id : option string;
  re_asset_symbol : option string;
  re_previous_xpub_masked : string;
  re_previous_derivation_index : Z;
  re_rotated_at : Instant
}.

(** [mask_xpub] of the API types *)
Class XpubMask := { mask_xpub : string -> string }.

Section WalletRoutes.
Context `{Runtime} `{Formats} `{PolicyNames} `{UuidText} `{HdKeys} `{XpubMask}.

Abbreviation Route A := (St Site Z A).

Definition site_500 {A} (m : St Site RepositoryError A) : Route A := st_map_err (fun _ => 500) m.

(** [derive_entries] *)
Definition derive_entry (w : WalletRow) (d : XpubDeriver) (i : Z) : result Z DerivedAddressEntry :=
  match derive_address d i with
  | Ok a => Ok (mkDerivedAddressEntry a i (derivation_path (xd_family d) i) (i <? wl_derivation_index w))
  | Err _ => Err 500
  end.

Fixpoint all_entries (w : WalletRow) (d : XpubDeriver) (l : list Z) : result Z (list DerivedAddressEntry) :=
  match l with
  | [] => Ok []
  | i :: l =>
      match derive_entry w d i with
      | Ok e => match all_entries w d l with Ok es => Ok (e :: es) | Err s => Err s end
      | Err s => Err s
      end
  end.

Definition derive_entries (w : WalletRow) (offset count : Z) : result Z (list DerivedAddressEntry) :=
  match from_xpub (wl_namespace w) (wl_xpub w) with
  | Err _ => Err 500
  | Ok d => all_entries w d (seqZ offset (Z.min (offset + count) U32_MAX - offset))
  end.

(** [owned_wallet] *)
Definition owned_wallet (user : UserInfo) (wallet_id : Uuid) : Route WalletRow :=
  let* r := site_500 (wdb (get_wallet wallet_id)) in
  let* wallet := ok_or 404 r in
  if negb (wl_user_id wallet =? ui_id user) then st_throw 404 else st_ret wallet.

(** [list_wallets], the route *)
Definition list_wallets_route (user : UserInfo) : Route (list (Z * WalletRow)) := site_500 (wdb (list_wallets (ui_id user))).

(** The key a request brings. *)
Definition bring_key (namespace xpub : string) : result Z unit :=
  if negb (validate_xpub xpub) then Err 400
  else if xpub_depth_problem xpub then Err 400
  else match family_for_namespace namespace with Ok _ => Ok tt | Err _ => Err 400 end.

(** [create_wallet], the route *)
Definition create_wallet_route (user : UserInfo) (req : CreateWalletRequest) : Route (Uuid * WalletRow * list DerivedAddressEntry) :=
  do* st_lift (bring_key (cw_namespace req) (cw_xpub req));
  let* id := st_map_err (fun _ => 500) db_uuid in
  let* (wallet_id, wallet) := st_map_err repository_error
    (wdb (create_wallet id (ui_id user) (cw_namespace req) (cw_xpub req) (cw_name req))) in
  let* verification_addresses := st_lift (derive_entries wallet 0 VERIFICATION_ADDRESS_COUNT) in
  st_ret (wallet_id, wallet, verification_addresses).

(** [get_wallet_by_id], and [export_wallet_xpub], which answers with the key *)
Definition get_wallet_by_id (user : UserInfo) (wallet_id : Uuid) : Route WalletRow := owned_wallet user wallet_id.
Definition export_wallet_xpub (user : UserInfo) (wallet_id : Uuid) : Route WalletRow := owned_wallet user wallet_id.

(** [update_wallet] *)
Definition update_wallet (user : UserInfo) (wallet_id : Uuid) (name : option string) (is_primary : option bool) : Route WalletRow :=
  let* wallet := owned_wallet user wallet_id in
  let* wallet := (match name with Some _ => site_500 (wdb (rename_wallet wallet_id name)) | None => st_ret wallet end) in
  if bool_decide (is_primary = Some true) then site_500 (wdb (set_primary_wallet (ui_id user) wallet_id)) else st_ret wallet.

(** [delete_wallet], the route *)
Definition delete_wallet_route (user : UserInfo) (wallet_id : Uuid) : Route unit :=
  do* owned_wallet user wallet_id;
  st_map_err repository_error (wdb (delete_wallet wallet_id)).

(** [list_wallet_addresses] *)
Definition list_wallet_addresses (user : UserInfo) (wallet_id : Uuid) (limit offset : option Z) : Route (list DerivedAddressEntry) :=
  let* wallet := owned_wallet user wallet_id in
  st_lift (derive_entries wallet (default 0 offset) (Z.min (default 20 limit) 100)).

Definition VIEW_SETTINGS : string := "ethpay.store.canviewstoresettings".

(** [get_payment_method_wallet] *)
Definition get_payment_method_wallet (store_id method_id : Uuid) : Route StoreWalletResult :=
  let* r := site_500 (wdb (get_payment_method method_id)) in
  let* method := ok_or 404 (m ← r; if spm_store_id m =? store_id then Some m else None) in
  let* wallet_id := ok_or 404 (spm_wallet_id method) in
  let* r := site_500 (wdb (get_wallet wallet_id)) in
  let* wallet := ok_or 404 r in
  let namespace := chain_namespace (spm_chain_id method) in
  let* store_wallet := site_500 (wdb (resolve_store_wallet store_id namespace)) in
  let* override := site_500 (wdb (get_store_wallet_override store_id namespace)) in
  let differs_from_store_wallet := match store_wallet with Some (id, _) => negb (id =? wallet_id) | None => true end in
  st_ret (ForMethod (mkMethodWalletResponse
    (mkStoreWalletResponse store_id wallet_id wallet (option_is_some override)) differs_from_store_wallet)).

(** [get_store_wallet] *)
Definition get_store_wallet (c : StoreScopedUser) (store_id : Uuid) (query : StoreWalletQuery) : Route StoreWalletResult :=
  let* has := site_500 (wdb (user_has_store_permission (ui_id (ssu_user c)) store_id VIEW_SETTINGS)) in
  if negb (has && key_grants_store_permission (ssu_key_scope c) VIEW_SETTINGS store_id) then st_throw 403
  else
    match sq_payment_method_id query with
    | Some method_id => get_payment_method_wallet store_id method_id
    | None =>
        let namespace := query_namespace query in
        let* r := site_500 (wdb (resolve_store_wallet store_id namespace)) in
        let* (wallet_id, wallet) := ok_or 404 r in
        let* override := site_500 (wdb (get_store_wallet_override store_id namespace)) in
        st_ret (Bare (mkStoreWalletResponse store_id wallet_id wallet (option_is_some override)))
    end.

(** [require_store_settings_permission] *)
Definition require_wallet_settings (c : StoreScopedUser) (store_id : Uuid) : Route unit :=
  if bool_decide (ui_role (ssu_user c) = ServerAdmin) then st_ret tt
  else
    let* has := site_500 (wdb (user_has_store_permission (ui_id (ssu_user c)) store_id MODIFY_SETTINGS)) in
    if has && key_grants_store_permission (ssu_key_scope c) MODIFY_SETTINGS store_id then st_ret tt else st_throw 403.

(** [configure_store_wallet] *)
Definition configure_store_wallet (c : StoreScopedUser) (store_id wallet_id : Uuid) : Route StoreWalletResponse :=
  do* require_wallet_settings c store_id;
  let* store := site_500 (wdb (get_store_row store_id)) in
  do* ok_or 404 store;
  do* st_map_err (fun e => match e with NotFound _ => 404 | _ => 500 end) (wdb (set_store_wallet store_id wallet_id));
  let* r := site_500 (wdb (get_wallet wallet_id)) in
  let* wallet := ok_or 404 r in
  st_ret (mkStoreWalletResponse store_id wallet_id wallet true).

(** [delete_store_wallet] *)
Definition delete_store_wallet (c : StoreScopedUser) (store_id : Uuid) (query : StoreWalletQuery) : Route unit :=
  do* require_wallet_settings c store_id;
  site_500 (wdb (clear_store_wallet store_id (query_namespace query))).

(** A row of the answer to a rotation, labelled from the methods read before. *)
Definition rotation_entry (methods : list StorePaymentMethod) (r : RotationRow) : RotationEntry :=
  let m := head (List.filter (fun m => spm_id m =? ro_payment_method_id r) methods) in
  mkRotationEntry (ro_payment_method_id r) (spm_chain_id <$> m) (spm_asset_symbol <$> m)
    (mask_xpub (ro_previous_xpub r)) (ro_previous_derivation_index r) (ro_rotated_at r).

(** [rotate_store_wallet] *)
Definition rotate_store_wallet (c : StoreScopedUser) (store_id : Uuid) (req : RotateWalletRequest) :
    Route (string * list RotationEntry) :=
  do* require_wallet_settings c store_id;
  do* st_lift (bring_key (rw_namespace req) (rw_xpub req));
  let* store := site_500 (wdb (get_store_row store_id)) in
  do* ok_or 404 store;
  let* methods := site_500 (wdb (get_payment_methods store_id)) in
  if bool_decide (methods = []) then st_throw 404
  else
    let* id := st_map_err (fun _ => 500) db_uuid in
    let* rotations := st_map_err repository_error
      (wdb (rotate_store_xpub id store_id (rw_namespace req) (rw_xpub req) (rw_reason req))) in
    if bool_decide (rotations = []) then st_throw 400
    else st_ret (mask_xpub (rw_xpub req), rotation_entry methods <$> rotations).
End WalletRoutes.

(** ** What a route can do

    [acts m d Q]: from any site with these wallet tables, whatever requests are
    lost, [m] leaves the server's tables alone and ends with an outcome and
    wallet tables that satisfy [Q]. *)

Section Acts.
Context `{Runtime}.

Definition acts {E A} (m : St Site E A) (d : WalletDb) (Q : result E A -> WalletDb -> Prop) : Prop :=
  forall s, st_wallets s = d ->
    sv_db (st_server (snd (m s))) = sv_db (st_server s) /\ Q (fst (m s)) (st_wallets (snd (m s))).

Lemma acts_lift {E A} (r : result E A) d (Q : result E A -> _) : Q r d -> acts (st_lift r) d Q.
Proof. by intros HQ s <-. Qed.

Lemma acts_ret {E A} (a : A) d (Q : result E A -> _) : Q (Ok a) d -> acts (st_ret a) d Q.
Proof. apply (acts_lift (Ok a)). Qed.

Lemma acts_throw {E A} (e : E) d (Q : result E A -> _) : Q (Err e) d -> acts (st_throw e) d Q.
Proof. apply (acts_lift (Err e)). Qed.

Lemma acts_bind {E A B} (m : St Site E A) (f : A -> St Site E B) d (Q : result E B -> _) :
  acts m d (fun r d' => match r with Ok a => acts (f a) d' Q | Err e => Q (Err e) d' end) -> acts (st_bind m f) d Q.
Proof.
  intros Hm s Hs. destruct (Hm s Hs) as [Hd HQ]. unfold st_bind. destruct (m s) as [[a|e] s']; cbn in *; [|done].
  destruct (HQ s' eq_refl) as [Hd' HQ']. split; [congruence|done].
Qed.

Lemma acts_map_err {E E' A} (g : E -> E') (m : St Site E A) d (Q : result E' A -> _) :
  acts m d (fun r d' => Q (match r with Ok a => Ok a | Err e => Err (g e) end) d') -> acts (st_map_err g m) d Q.
Proof. intros Hm s Hs. specialize (Hm s Hs). unfold st_map_err. by destruct (m s) as [[a|e] s']. Qed.

Lemma acts_wdb {A} (stmt : WStatement A) d (Q : result RepositoryError A -> _) :
  (forall e, Q (Err e) d) -> (forall now, let '(r, d') := stmt now d in Q r d' /\ forall e, Q (Err e) d') -> acts (wdb stmt) d Q.
Proof.
  intros He Hs s <-. unfold wdb. specialize (Hs (clock (sv_ticks (st_server s)))). destruct (calls _); cbn.
  - destruct (stmt _ _) as [r d'], Hs. by split.
  - split; [done|apply He].
  - destruct (stmt _ _) as [r d'], Hs as [_ Hs]. split; [done|apply Hs].
Qed.

Lemma acts_read {A} (f : WalletDb -> A) d (Q : result RepositoryError A -> _) :
  Q (Ok (f d)) d -> (forall e, Q (Err e) d) -> acts (wdb (wselect f)) d Q.
Proof. intros Ha He. by apply acts_wdb; [|intros now]. Qed.

Lemma acts_uuid d (Q : result RepositoryError Uuid -> _) : (forall id, Q (Ok id) d) -> acts db_uuid d Q.
Proof. intros HQ s <-. split; [done|apply HQ]. Qed.

Lemma acts_ok_or {A} status (x : option A) d (Q : result Z A -> _) :
  (forall a, x = Some a -> Q (Ok a) d) -> Q (Err status) d -> acts (ok_or status x) d Q.
Proof. intros Ha Hn. destruct x; [by apply acts_ret, Ha | by apply acts_throw]. Qed.

Lemma acts_mono {E A} (m : St Site E A) d (Q Q' : result E A -> WalletDb -> Prop) :
  acts m d Q -> (forall r d', Q r d' -> Q' r d') -> acts m d Q'.
Proof. intros Hm HQ s Hs. destruct (Hm s Hs). auto. Qed.
End Acts.

(** ** Who may change what *)

(** A key keeps its account, family, text and counter. *)
Definition same_key (w w' : WalletRow) : Prop := wl_core w' = wl_core w.

(** What account [who], who may manage the stores of [manages], may do. *)
Record Kept (who : Uuid) (manages : Uuid -> Prop) (d d' : WalletDb) : Prop := {
  kp_wallets id w : wd_wallets d !! id = Some w ->
    (exists w', wd_wallets d' !! id = Some w' /\ same_key w w' /\ (wl_user_id w <> who -> w' = w)) \/
    (wl_user_id w = who /\ wallet_in_use id d = false /\ wd_wallets d' !! id = None);
  kp_new id w' : wd_wallets d !! id = None -> wd_wallets d' !! id = Some w' ->
    wl_derivation_index w' = 0 /\
    (wl_user_id w' = who \/ exists store st, manages store /\ wd_stores d !! store = Some st /\ so_owner_id st = wl_user_id w') /\
    (forall i w, wd_wallets d !! i = Some w -> wl_xpub w = wl_xpub w' -> wl_user_id w = wl_user_id w');
  kp_overrides store ns : wd_store_wallets d' !! (store, ns) = wd_store_wallets d !! (store, ns) \/
    manages store /\ (forall id, wd_store_wallets d' !! (store, ns) = Some id -> belongs d' store ns id);
  kp_methods id : wd_methods d' !! id = wd_methods d !! id \/
    exists m pin, wd_methods d !! id = Some m /\ manages (pm_store_id m) /\ wd_methods d' !! id = Some (pm_set_wallet pin m) /\
      (forall wid, pin = Some wid -> belongs d' (pm_store_id m) (method_namespace m) wid);
  kp_rest : wd_stores d' = wd_stores d /\ wd_members d' = wd_members d /\ wd_issued d' = wd_issued d
}.

Section KeptFacts.
Context (who : Uuid) (manages : Uuid -> Prop).

Lemma kept_refl d : Kept who manages d d.
Proof. split; [intros id w Hw; left; by exists w|congruence|by left..|done]. Qed.

(** A change of the wallet rows alone. *)
Lemma kept_wallets d ws :
  (forall id w, wd_wallets d !! id = Some w ->
    (exists w', ws !! id = Some w' /\ same_key w w' /\ (wl_user_id w <> who -> w' = w)) \/
    (wl_user_id w = who /\ wallet_in_use id d = false /\ ws !! id = None)) ->
  (forall id w', wd_wallets d !! id = None -> ws !! id = Some w' ->
    wl_derivation_index w' = 0 /\
    (wl_user_id w' = who \/ exists store st, manages store /\ wd_stores d !! store = Some st /\ so_owner_id st = wl_user_id w') /\
    (forall i w, wd_wallets d !! i = Some w -> wl_xpub w = wl_xpub w' -> wl_user_id w = wl_user_id w')) ->
  Kept who manages d (wd_set_wallets ws d).
Proof. intros Hold Hnew. split; [exact Hold|exact Hnew|by left..|done]. Qed.

Lemma kept_create id ns xpub name now d r d' :
  create_wallet id who ns xpub name now d = (r, d') -> Kept who manages d d'.
Proof.
  intros Hc%create_wallet_run. destruct r as [[i w]|e]; [|subst; apply kept_refl].
  destruct Hc as (Hu & Hn & Hx & -> & Hcase). apply kept_wallets.
  - intros j v Hv. left. destruct (decide (j = i)) as [->|Hne]; [|exists v; by rewrite lookup_insert_ne].
    destruct Hcase as [(v' & Hv' & Hcore & _)|(_ & Hnone & _)]; [|congruence].
    assert (v' = v) as -> by congruence. exists w. rewrite lookup_insert_eq. split_and!; [done..|].
    intros Hne. injection Hcore as Hcu _ _ _. congruence.
  - intros j w' Hnone. rewrite lookup_insert. case_decide as Hj; [|congruence]. subst j. intros [= <-].
    destruct Hcase as [(v & Hv & _)|(_ & _ & H0 & Hother & _)]; [congruence|]. split; [done|]. split; [by left|].
    intros k v Hv Hxv. rewrite Hu. apply (Hother k v Hv). congruence.
Qed.

Lemma create_unnamed id u ns xpub now d i w d' :
  create_wallet id u ns xpub None now d = (Ok (i, w), d') -> wd_wallets d !! i = Some w \/ wd_wallets d !! i = None.
Proof.
  unfold create_wallet, upsert_wallet. destruct (reject_if_another_account_holds _ _ _); [|done].
  destruct (head _) as [[j v]|] eqn:Hh.
  - intros [= <- <- _]. left. assert (Hin : (j, v) ∈ wallets_where (holds_key u ns xpub) d)
      by (destruct (wallets_where _ _); [done|injection Hh as ->; left]).
    apply elem_of_filter_b in Hin as [_ Hin%elem_of_map_to_list]. rewrite Hin. by destruct v.
  - case_bool_decide as Hs; [done|]. intros [= <- _ _]. right. by apply eq_None_not_Some.
Qed.

Lemma kept_rename wid name now d : (forall w, wd_wallets d !! wid = Some w -> wl_user_id w = who) ->
  Kept who manages d (snd (rename_wallet wid name now d)).
Proof.
  intros Hown. unfold rename_wallet. destruct (wd_wallets d !! wid) as [w|] eqn:Hw; [|apply kept_refl]. apply kept_wallets.
  - intros id v Hv. left. destruct (decide (id = wid)) as [->|Hne]; [|exists v; by rewrite lookup_insert_ne].
    exists (wl_set_name name w). rewrite lookup_insert_eq. assert (v = w) as -> by congruence. split_and!; [done..|].
    intros Hne. by destruct (Hne (Hown _ eq_refl)).
  - intros id w' Hnone. rewrite lookup_insert. case_decide; congruence.
Qed.

Lemma kept_primary wid now d : Kept who manages d (snd (set_primary_wallet who wid now d)).
Proof.
  unfold set_primary_wallet. destruct (wd_wallets d !! wid) as [w|] eqn:Hw; [|apply kept_refl].
  destruct (Z.eqb_spec (wl_user_id w) who) as [Hu|]; [|apply kept_refl]. apply kept_wallets.
  - intros id v Hv. left. destruct (decide (id = wid)) as [->|Hne].
    + exists (wl_set_primary true w). rewrite lookup_insert_eq. assert (v = w) as -> by congruence. by split_and!.
    + rewrite lookup_insert_ne, lookup_fmap, Hv by done. eexists. split; [reflexivity|].
      destruct (is_primary_of who (wl_namespace w) v) eqn:Hp; [|done]. split; [done|].
      apply andb_true_iff in Hp as [[Hvu%Z.eqb_eq _]%andb_true_iff _]. by intros Hne'.
  - intros id w' Hnone. rewrite lookup_insert, lookup_fmap, Hnone. case_decide; [congruence|done].
Qed.

Lemma kept_delete wid now d : (forall w, wd_wallets d !! wid = Some w -> wl_user_id w = who) ->
  Kept who manages d (snd (delete_wallet wid now d)).
Proof.
  intros Hown. unfold delete_wallet. case_bool_decide; [|apply kept_refl]. destruct (wallet_in_use wid d) eqn:Hu; [apply kept_refl|].
  apply kept_wallets.
  - intros id w Hw. destruct (decide (id = wid)) as [->|Hne]; [right; by rewrite lookup_delete_eq, (Hown _ Hw)|].
    left. exists w. by rewrite lookup_delete_ne.
  - intros id w' Hnone. rewrite lookup_delete. case_decide; congruence.
Qed.

(** One change of wallet rows after another that deleted none. *)
Lemma kept_then d ws ws' :
  (forall id, is_Some (wd_wallets d !! id) -> is_Some (ws !! id)) -> Kept who manages d (wd_set_wallets ws d) ->
  Kept who manages (wd_set_wallets ws d) (wd_set_wallets ws' d) -> Kept who manages d (wd_set_wallets ws' d).
Proof.
  intros Hall H1 H2. apply kept_wallets.
  - intros id w Hw. destruct (kp_wallets _ _ _ _ H1 id w Hw) as [(w1 & Hw1 & Hk1 & Hs1)|(_ & _ & Hn)].
    2: { cbn in Hn. destruct (Hall id) as [? ?]; [by eexists|congruence]. }
    assert (Hu : wl_user_id w1 = wl_user_id w) by (injection Hk1; done).
    destruct (kp_wallets _ _ _ _ H2 id w1 Hw1) as [(w2 & Hw2 & Hk2 & Hs2)|(Hu2 & Hin & Hn)].
    + left. exists w2. split; [done|]. split; [by unfold same_key in *; rewrite Hk2|]. intros Hne. rewrite Hs2 by congruence. by apply Hs1.
    + right. by rewrite <- Hu.
  - intros id w2 Hnone Hw2. destruct (ws !! id) as [w1|] eqn:Hw1.
    + destruct (kp_new _ _ _ _ H1 id w1 Hnone Hw1) as (Hz & Ho & Hx).
      destruct (kp_wallets _ _ _ _ H2 id w1 Hw1) as [(w2' & Hw2' & Hk & _)|(_ & _ & Hn)]; cbn in *; [|congruence].
      assert (w2' = w2) as -> by congruence. injection Hk as Hu _ Hxp Hi. rewrite Hi, Hu. split; [done|]. split; [done|].
      intros i w Hw Hxw. apply (Hx i w Hw). congruence.
    + destruct (kp_new _ _ _ _ H2 id w2 Hw1 Hw2) as (Hz & Ho & Hx). split; [done|]. split; [exact Ho|].
      intros i w Hw Hxw. destruct (kp_wallets _ _ _ _ H1 i w Hw) as [(w1 & Hwi & Hk & _)|(_ & _ & Hn)].
      * injection Hk as Hu _ Hxp _. rewrite <- Hu. apply (Hx i w1 Hwi). congruence.
      * cbn in Hn. destruct (Hall i) as [? ?]; [by eexists|congruence].
Qed.

(** A change of overrides and pins, with the wallets there. *)
Lemma kept_unpin store ns sw d : manages store ->
  (forall s n, (s, n) <> (store, ns) -> sw !! (s, n) = wd_store_wallets d !! (s, n)) ->
  (forall id, sw !! (store, ns) = Some id -> belongs d store ns id) ->
  Kept who manages d (wd_set_methods (unpin store ns <$> wd_methods d) (wd_set_store_wallets sw d)).
Proof.
  intros Hm Hother Hown. split; [intros id w Hw; left; by exists w|intros id w' Hn; cbn; congruence| | |done].
  - intros s n. destruct (decide ((s, n) = (store, ns))) as [[= -> ->]|Hne]; [right|left; by apply Hother]. by split.
  - intros id. cbn. rewrite lookup_fmap. destruct (wd_methods d !! id) as [m|]; [|by left]. cbn. unfold unpin.
    destruct (_ && _) eqn:He; [|by left]. apply andb_true_iff in He as [<-%Z.eqb_eq _]. right. by exists m, None.
Qed.
End KeptFacts.

Section Rotated.
Context (who : Uuid) (manages : Uuid -> Prop).

Lemma rotate_fold_issued now store xpub reason new mts d :
  let d' := foldl (rotate_one now store xpub reason new) d mts in wd_issued d' = wd_issued d /\ wd_members d' = wd_members d.
Proof.
  revert d. induction mts as [|mt mts IH]; intros d; [done|]. cbn [foldl].
  destruct (IH (rotate_one now store xpub reason new d mt)) as [-> ->]. unfold rotate_one. by destruct (mtr_pinned mt).
Qed.

Lemma rotate_issued id store only ns xpub reason now d :
  let d' := snd (rotate_methods id store only ns xpub reason now d) in wd_issued d' = wd_issued d /\ wd_members d' = wd_members d.
Proof.
  cbn zeta. unfold rotate_methods. destruct (wd_stores d !! store) as [s|]; [|done].
  destruct (create_wallet id (so_owner_id s) ns xpub None now d) as [[[new w]|e] d1] eqn:Hc; [|done].
  apply create_wallet_run in Hc as (_ & _ & _ & -> & _). cbv zeta. cbn [snd].
  match goal with |- context [foldl ?f ?x ?l] => destruct (rotate_fold_issued now store xpub reason new l x) as [Hi Hm] end.
  destruct (existsb _ _); cbn [wd_set_store_wallets wd_issued wd_members]; by rewrite Hi, Hm.
Qed.

Lemma kept_rotate id store ns xpub reason now d : manages store ->
  Kept who manages d (snd (rotate_store_xpub id store ns xpub reason now d)).
Proof.
  intros Hm. unfold rotate_store_xpub. destruct (rotate_methods id store None ns xpub reason now d) as [[rs|e] d'] eqn:Hr.
  2: { revert Hr. unfold rotate_methods. destruct (wd_stores d !! store) as [s|]; [|intros [= _ <-]; apply kept_refl].
       destruct (create_wallet _ _ _ _ _ _ _) as [[[new w]|e'] d1]; [done|]. intros [= _ <-]. apply kept_refl. }
  destruct (rotate_issued id store None ns xpub reason now d) as [Hi Hmb]. rewrite Hr in Hi, Hmb. cbn [snd] in *.
  apply rotate_run in Hr as (s & new & w & d1 & mts & Hs & Hc & -> & _ & Hw & Hst & _ & Hms & Hsw).
  destruct (created_belongs _ _ _ _ _ _ _ _ _ _ Hs Hc) as (Hs1 & Hw1 & Hu & Hn & _).
  assert (Hbel : belongs d' store ns new) by (exists s, w; by rewrite Hst, Hw, Hs1).
  assert (Hd1 : wd_stores d1 = wd_stores d) by (pose proof (proj1 (create_wallet_extend id (so_owner_id s) ns xpub None now d)) as He; by rewrite Hc in He).
  pose proof (create_unnamed _ _ _ _ _ _ _ _ _ Hc) as Hsame. pose proof (create_wallet_run _ _ _ _ _ _ _ _ _ Hc) as (_ & _ & Hx & Hd1' & Hcase).
  split.
  - intros j v Hv. left. rewrite Hw, Hd1'. cbn. rewrite lookup_insert. case_decide as Hj; [|by exists v]. subst j.
    destruct Hsame as [He|He]; [|congruence]. exists w. assert (v = w) as -> by congruence. done.
  - intros j w' Hnone. rewrite Hw, Hd1'. cbn. rewrite lookup_insert. case_decide as Hj; [|congruence]. subst j. intros [= <-].
    destruct Hcase as [(v & Hv & _)|(_ & _ & H0 & Hother & _)]; [congruence|]. split; [done|]. split; [right; by exists store, s|].
    intros k v Hv Hxv. rewrite Hu. apply (Hother k v Hv). congruence.
  - intros st n. rewrite Hsw. destruct (existsb _ _); [|by left]. rewrite lookup_insert. case_decide as He; [|by left].
    injection He as <- <-. right. split; [done|]. by intros k [= <-].
  - intros i. rewrite Hms. destruct (wd_methods d !! i) as [m|] eqn:Hmi; [|by left]. cbn. unfold pins_moved.
    
    destruct (existsb (fun mt => (mtr_payment_method_id mt =? i) && mtr_pinned mt) _) eqn:He; [|by left].
    apply existsb_exists in He as (mt & Hin%list_elem_of_In & [Hi'%Z.eqb_eq Hp]%andb_true_iff).
    apply elem_of_methods_to_rotate in Hin as (m' & wid & w' & Hm' & _ & Hstore & _ & Hns & _).
    destruct (create_wallet_frame _ _ _ _ _ _ _ _ _ Hc) as (_ & Hmeth & _). rewrite Hi', Hmeth in Hm'.
    assert (m' = m) as -> by congruence. right. exists m, (Some new). rewrite Hstore, Hns. split_and!; try done. by intros k [= <-].
  - by rewrite Hst, Hd1.
Qed.
End Rotated.

(** ** Theorems *)

(** The requests of [server/src/api/stores/wallets.rs]. *)
Inductive WalletRequest :=
| ListWallets (user : UserInfo)
| CreateWallet (user : UserInfo) (req : CreateWalletRequest)
| GetWallet (user : UserInfo) (wallet_id : Uuid)
| UpdateWallet (user : UserInfo) (wallet_id : Uuid) (name : option string) (is_primary : option bool)
| DeleteWallet (user : UserInfo) (wallet_id : Uuid)
| ExportXpub (user : UserInfo) (wallet_id : Uuid)
| WalletAddresses (user : UserInfo) (wallet_id : Uuid) (limit offset : option Z)
| GetStoreWallet (c : StoreScopedUser) (store_id : Uuid) (query : StoreWalletQuery)
| SetStoreWallet (c : StoreScopedUser) (store_id wallet_id : Uuid)
| ClearStoreWallet (c : StoreScopedUser) (store_id : Uuid) (query : StoreWalletQuery)
| RotateStoreWallet (c : StoreScopedUser) (store_id : Uuid) (req : RotateWalletRequest).

Definition no_key (user : UserInfo) : StoreScopedUser := mkStoreScopedUser user None.

Definition wallet_caller (q : WalletRequest) : StoreScopedUser :=
  match q with
  | ListWallets u | CreateWallet u _ | GetWallet u _ | UpdateWallet u _ _ _ | DeleteWallet u _ | ExportXpub u _
  | WalletAddresses u _ _ _ => no_key u
  | GetStoreWallet c _ _ | SetStoreWallet c _ _ | ClearStoreWallet c _ _ | RotateStoreWallet c _ _ => c
  end.

Section Authority.
Context `{Runtime} `{Formats} `{PolicyNames} `{UuidText} `{HdKeys} `{XpubMask}.

Definition discard {A} (m : St Site Z A) : St Site Z unit := do* m; st_ret tt.

Definition handle_wallet (q : WalletRequest) : St Site Z unit :=
  match q with
  | ListWallets u => discard (list_wallets_route u)
  | CreateWallet u req => discard (create_wallet_route u req)
  | GetWallet u id => discard (get_wallet_by_id u id)
  | UpdateWallet u id name primary => discard (update_wallet u id name primary)
  | DeleteWallet u id => delete_wallet_route u id
  | ExportXpub u id => discard (export_wallet_xpub u id)
  | WalletAddresses u id limit offset => discard (list_wallet_addresses u id limit offset)
  | GetStoreWallet c store query => discard (get_store_wallet c store query)
  | SetStoreWallet c store id => discard (configure_store_wallet c store id)
  | ClearStoreWallet c store query => delete_store_wallet c store query
  | RotateStoreWallet c store req => discard (rotate_store_wallet c store req)
  end.

(** May change where a store's payments go. *)
Definition may_manage (c : StoreScopedUser) (d : WalletDb) (store : Uuid) : Prop :=
  ui_role (ssu_user c) = ServerAdmin \/
  (fst (user_has_store_permission (ui_id (ssu_user c)) store MODIFY_SETTINGS 0 d) = Ok true /\
   key_grants_store_permission (ssu_key_scope c) MODIFY_SETTINGS store = true).

Lemma acts_owned u id d (Q : result Z WalletRow -> _) :
  (forall w, wd_wallets d !! id = Some w -> wl_user_id w = ui_id u -> Q (Ok w) d) -> (forall e, Q (Err e) d) -> acts (owned_wallet u id) d Q.
Proof.
  intros Ha He. unfold owned_wallet, get_wallet. apply acts_bind, acts_map_err, acts_read; [|done].
  apply acts_bind, acts_ok_or; [|done]. intros w Hw. destruct (Z.eqb_spec (wl_user_id w) (ui_id u)); [by apply acts_ret, Ha|by apply acts_throw].
Qed.

Lemma acts_settings c store d (Q : result Z unit -> _) :
  (may_manage c d store -> Q (Ok tt) d) -> (forall e, Q (Err e) d) -> acts (require_wallet_settings c store) d Q.
Proof.
  intros Ha He. unfold require_wallet_settings. case_bool_decide as Hadm; [by apply acts_ret, Ha; left|].
  unfold user_has_store_permission. apply acts_bind, acts_map_err, acts_read; [|done]. cbn beta iota.
  destruct (_ && _) eqn:Hp; [|by apply acts_throw]. apply andb_true_iff in Hp as [Hp Hk]. apply acts_ret, Ha. right. split; [|done].
  cbn. by f_equal.
Qed.

Lemma acts_update u id name primary d manages :
  acts (update_wallet u id name primary) d (fun _ d' => Kept (ui_id u) manages d d').
Proof.
  unfold update_wallet. apply acts_bind, acts_owned; [|intros; apply kept_refl]. intros w Hw Hu.
  assert (Hprim : forall d1 w1, Kept (ui_id u) manages d d1 ->
    (forall now, Kept (ui_id u) manages d (snd (set_primary_wallet (ui_id u) id now d1))) ->
    acts (if bool_decide (primary = Some true) then site_500 (wdb (set_primary_wallet (ui_id u) id)) else st_ret w1) d1
      (fun _ d' => Kept (ui_id u) manages d d')).
  { intros d1 w1 Hk Hp. case_bool_decide; [|by apply acts_ret]. apply acts_map_err, acts_wdb; [done|]. intros now. specialize (Hp now).
    by destruct (set_primary_wallet _ _ _ _). }
  apply acts_bind. destruct name as [n|].
  2: { apply acts_ret, Hprim; [apply kept_refl|intros now; apply kept_primary]. }
  apply acts_map_err, acts_wdb; [intros; apply kept_refl|]. intros now.
  pose proof (kept_rename (ui_id u) manages id (Some n) now d) as Hk. unfold rename_wallet in Hk |- *. rewrite Hw in Hk |- *. cbn [snd] in Hk.
  assert (Hk1 := Hk ltac:(intros w' [= <-]; done)). split; [|done]. apply Hprim; [done|]. clear Hprim. intros now'.
  pose proof (kept_primary (ui_id u) manages id now' (wd_set_wallets (<[id := wl_set_name (Some n) w]> (wd_wallets d)) d)) as Hk2.
  unfold set_primary_wallet in Hk2 |- *. cbn [wd_wallets wd_set_wallets] in Hk2 |- *. rewrite lookup_insert_eq in Hk2 |- *.
  destruct (_ =? _); [|done]. cbn [snd] in Hk2 |- *.
  match goal with |- Kept _ _ _ (wd_set_wallets ?x _) => change (Kept (ui_id u) manages d (wd_set_wallets x d)) end.
  eapply kept_then; [|exact Hk1|exact Hk2]. intros j [x Hx]. rewrite lookup_insert. case_decide; by eexists.
Qed.

(** Reading leaves the tables as they are. *)
Definition only_reads {A} (m : St Site Z A) : Prop := forall d, acts m d (fun _ d' => d' = d).

Lemma reads_method_wallet store id : only_reads (get_payment_method_wallet store id).
Proof.
  intros d. unfold get_payment_method_wallet, get_payment_method, get_wallet, resolve_store_wallet, get_store_wallet_override.
  repeat first [apply acts_bind | apply acts_map_err | apply acts_read; [|done] | apply acts_ok_or; [intros ? ?|done] | by apply acts_ret].
Qed.

Lemma reads_store_wallet c store query : only_reads (get_store_wallet c store query).
Proof.
  intros d. unfold get_store_wallet, user_has_store_permission. apply acts_bind, acts_map_err, acts_read; [|done].
  destruct (negb _); [by apply acts_throw|]. destruct (sq_payment_method_id query) as [m|]; [apply reads_method_wallet|].
  unfold resolve_store_wallet, get_store_wallet_override.
  repeat first [apply acts_bind | apply acts_map_err | apply acts_read; [|done] | apply acts_ok_or; [intros [? ?] ?|done] | by apply acts_ret].
Qed.

Lemma acts_discard {A} (m : St Site Z A) d (Q : WalletDb -> Prop) : acts m d (fun _ => Q) -> acts (discard m) d (fun _ => Q).
Proof. intros Hm. apply acts_bind. eapply acts_mono; [exact Hm|]. intros [a|e] d' HQ; [by apply acts_ret|done]. Qed.

Lemma acts_create u req d manages : acts (create_wallet_route u req) d (fun _ d' => Kept (ui_id u) manages d d').
Proof.
  unfold create_wallet_route. apply acts_bind, acts_lift. destruct (bring_key _ _); [|apply kept_refl].
  apply acts_bind, acts_map_err, acts_uuid. intros id. apply acts_bind, acts_map_err, acts_wdb; [intros; apply kept_refl|]. intros now.
  destruct (create_wallet _ _ _ _ _ _ _) as [r d'] eqn:Hc. apply (kept_create _ manages) in Hc. split; [|done].
  destruct r as [[wid w]|]; [|done]. apply acts_bind, acts_lift. by destruct (derive_entries _ _ _); [apply acts_ret|].
Qed.

Lemma acts_delete u id d manages : acts (delete_wallet_route u id) d (fun _ d' => Kept (ui_id u) manages d d').
Proof.
  unfold delete_wallet_route. apply acts_bind, acts_owned; [|intros; apply kept_refl]. intros w Hw Hu.
  apply acts_map_err, acts_wdb; [intros; apply kept_refl|]. intros now.
  pose proof (kept_delete (ui_id u) manages id now d ltac:(congruence)) as Hk. by destruct (delete_wallet _ _ _).
Qed.

Section Store.
Context (c : StoreScopedUser) (store : Uuid) (d : WalletDb).
Let kept d' := Kept (ui_id (ssu_user c)) (may_manage c d) d d'.

Lemma acts_configure wid : acts (configure_store_wallet c store wid) d (fun _ => kept).
Proof.
  unfold configure_store_wallet. apply acts_bind, acts_settings; [|intros; apply kept_refl]. intros Hm. unfold get_store_row.
  apply acts_bind, acts_map_err, acts_read; [|intros; apply kept_refl]. apply acts_bind, acts_ok_or; [|apply kept_refl]. intros st Hst.
  apply acts_bind, acts_map_err, acts_wdb; [intros; apply kept_refl|]. intros now. unfold set_store_wallet. rewrite Hst.
  destruct (wd_wallets d !! wid) as [w|] eqn:Hw; [|by split; intros; apply kept_refl].
  destruct (Z.eqb_spec (wl_user_id w) (so_owner_id st)) as [Hu|]; [|by split; intros; apply kept_refl].
  match goal with |- acts _ ?x _ /\ _ => assert (Hk : kept x) end.
  { apply kept_unpin; [done| |].
    - intros s1 n1 Hne. by rewrite lookup_insert_ne by congruence.
    - intros id. rewrite lookup_insert_eq. intros [= <-]. by exists st, w. }
  split; [|done]. unfold get_wallet. apply acts_bind, acts_map_err, acts_read; [|done]. apply acts_bind, acts_ok_or; [|done].
  intros w' _. by apply acts_ret.
Qed.

Lemma acts_clear query : acts (delete_store_wallet c store query) d (fun _ => kept).
Proof.
  unfold delete_store_wallet. apply acts_bind, acts_settings; [|intros; apply kept_refl]. intros Hm.
  apply acts_map_err, acts_wdb; [intros; apply kept_refl|]. intros now. unfold clear_store_wallet.
  destruct (wd_stores d !! store); [|by split; intros; apply kept_refl].
  match goal with |- kept ?x /\ _ => assert (Hk : kept x) end; [|done].
  apply kept_unpin; [done| |].
  - intros s1 n1 Hne. by rewrite lookup_delete_ne by congruence.
  - intros id. by rewrite lookup_delete_eq.
Qed.

Lemma acts_rotate req : acts (rotate_store_wallet c store req) d (fun _ => kept).
Proof.
  unfold rotate_store_wallet. apply acts_bind, acts_settings; [|intros; apply kept_refl]. intros Hm.
  apply acts_bind, acts_lift. destruct (bring_key _ _); [|apply kept_refl]. unfold get_store_row, get_payment_methods.
  apply acts_bind, acts_map_err, acts_read; [|intros; apply kept_refl]. apply acts_bind, acts_ok_or; [|apply kept_refl]. intros st Hst.
  apply acts_bind, acts_map_err, acts_read; [|intros; apply kept_refl]. case_bool_decide; [apply acts_throw, kept_refl|].
  apply acts_bind, acts_map_err, acts_uuid. intros id. apply acts_bind, acts_map_err, acts_wdb; [intros; apply kept_refl|]. intros now.
  pose proof (kept_rotate (ui_id (ssu_user c)) _ id store (rw_namespace req) (rw_xpub req) (rw_reason req) now d Hm) as Hk.
  destruct (rotate_store_xpub _ _ _ _ _ _ _) as [[rs|e] d']; [|done]. split; [|done].
  case_bool_decide; [by apply acts_throw | by apply acts_ret].
Qed.
End Store.

End Authority.

(** ** What a merchant is shown *)

Section Shown.
Context `{Runtime} `{Formats} `{PolicyNames} `{UuidText} `{HdKeys} `{!HdKeysLaws} `{XpubMask}.

Lemma all_entries_spec w d l es : all_entries w d l = Ok es ->
  Forall2 (fun i e => exists a, derive_address_bytes d i = Ok a /\
    e = mkDerivedAddressEntry (encode_address (xd_family d) a) i (derivation_path (xd_family d) i) (i <? wl_derivation_index w)) l es.
Proof.
  revert es. induction l as [|i l IH]; intros es; cbn; [by intros [= <-]|]. unfold derive_entry, derive_address.
  destruct (derive_address_bytes d i) as [a|] eqn:Ha; [|done]. destruct (all_entries w d l) as [es'|]; [|done]. intros [= <-].
  constructor; [by exists a|by apply IH].
Qed.

Lemma forall2_impl_in {A B} (P Q : A -> B -> Prop) l k : (forall x y, x ∈ l -> P x y -> Q x y) -> Forall2 P l k -> Forall2 Q l k.
Proof. intros HPQ Hl. induction Hl as [|x y l k Hxy Hl IH]; constructor; [apply HPQ; [left|done]|]. apply IH. intros; apply HPQ; [by right|done]. Qed.

(** What a merchant is shown is what the merchant's own wallet shows.  When
    the account key a wallet exports for a family is registered for it, the
    answer carries its first three addresses, each the address the wallet itself
    derives at that index, in the family's encoding and with its path; and an
    address is marked as used exactly below the counter that issues addresses. *)
Theorem registered_key_shows_own_addresses hd f user name s id row entries s' :
  account_xpub_string_for hd f = Ok (wl_xpub row) -> wl_namespace row = family_namespace f ->
  create_wallet_route user (mkCreateWalletRequest (wl_namespace row) (wl_xpub row) name) s = (Ok (id, row, entries), s') ->
  Forall2 (fun i e => exists a, derive_address_for hd f i = Ok a /\
    e = mkDerivedAddressEntry (encode_address f a) i (derivation_path f i) (i <? wl_derivation_index row)) [0; 1; 2] entries.
Proof.
  intros Ht Hn Hr. assert (Hd : derive_entries row 0 3 = Ok entries).
  { unfold create_wallet_route in Hr. inv_ok Hr as u s1 Hk Hr. inv_ok Hr as i s2 Hi Hr. inv_ok Hr as wr s3 Hw Hr. destruct wr as [wid w].
    inv_ok Hr as es s4 He Hr. injection Hr as -> -> -> _. by injection He. }
  unfold derive_entries in Hd. destruct (deriver_matches hd f (wl_xpub row) 0 Ht ltac:(lia)) as (d & Hx & Hf & _).
  rewrite Hn, Hx in Hd. apply all_entries_spec in Hd. change (seqZ 0 _) with [0; 1; 2] in Hd.
  eapply forall2_impl_in; [|exact Hd]. intros i e Hin (a & Ha & ->). exists a. rewrite Hf. split; [|done].
  assert (Hi : 0 <= i < 2 ^ 31) by (repeat (apply elem_of_cons in Hin as [-> |Hin]; [lia|]); by apply elem_of_nil in Hin).
  destruct (deriver_matches hd f (wl_xpub row) i Ht Hi) as (d' & Hx' & _ & Hm). assert (d' = d) as -> by congruence.
  rewrite Ha in Hm. by destruct (derive_address_for hd f i).
Qed.

(** The row of a method by its id. *)
Lemma method_read d id m : head (methods_where (fun i _ => i =? id) d) = Some m ->
  exists row, wd_methods d !! id = Some row /\ m = row_to_payment_method d id row.
Proof.
  unfold methods_where. destruct (List.filter _ _) as [|[i row] l] eqn:Hf; [done|]. intros [= <-].
  assert (Hin : (i, row) ∈ (i, row) :: l) by left. rewrite <- Hf in Hin. apply elem_of_filter_b in Hin as [Hp Hin].
  cbn in Hp. apply andb_true_iff in Hp as [->%Z.eqb_eq _]. apply elem_of_map_to_list in Hin. by exists row.
Qed.

(** What a report on a method says. *)
Definition reports (store method : Uuid) (d : WalletDb) (r : MethodWalletResponse) : Prop :=
  let w := mw_store_wallet r in
  (forall now, allocate_derivation method now d = advance_counter (sw_wallet_id w) (sw_wallet w) d) /\
  exists row, wd_methods d !! method = Some row /\ pm_store_id row = store /\
    (mw_differs_from_store_wallet r = false <->
     fst <$> (i ← store_wallet_resolution store (method_namespace row) d; x ← wd_wallets d !! i; Some (i, x)) = Some (sw_wallet_id w)).

Lemma acts_report store method d :
  acts (get_payment_method_wallet store method) d (fun r _ => forall x, r = Ok x -> exists r', x = ForMethod r' /\ reports store method d r').
Proof.
  unfold get_payment_method_wallet, get_payment_method, get_wallet, resolve_store_wallet, get_store_wallet_override.
  apply acts_bind, acts_map_err, acts_read; [|done]. apply acts_bind, acts_ok_or; [|done]. intros m Hm.
  destruct (head _) as [m'|] eqn:Hh; [|done]. cbn in Hm. destruct (Z.eqb_spec (spm_store_id m') store) as [Hst|]; [|done]. injection Hm as ->.
  apply method_read in Hh as (row & Hrow & ->). apply acts_bind, acts_ok_or; [|done]. intros wid Hwid. cbn in Hwid.
  destruct (resolved_wallet row d) as [[wid' w]|] eqn:Hres; [|done]. injection Hwid as ->.
  apply acts_bind, acts_map_err, acts_read; [|done]. apply acts_bind, acts_ok_or; [|done]. intros w' Hw'.
  assert (w' = w) as ->.
  { unfold resolved_wallet in Hres. destruct (if bool_decide _ then _ else _) as [i|]; [|done]. cbn in Hres.
    destruct (wd_wallets d !! i) as [x|] eqn:Hx; [|done]. cbn in Hres. destruct (String.eqb _ _); [|done]. injection Hres as -> ->. congruence. }
  apply acts_bind, acts_map_err, acts_read; [|done]. apply acts_bind, acts_map_err, acts_read; [|done].
  apply acts_ret. intros x [= <-]. eexists. split; [reflexivity|]. split.
  - intros now. unfold allocate_derivation. rewrite Hrow. cbn [mbind option_bind]. by rewrite Hres.
  - exists row. split; [done|]. split; [done|]. cbn [mw_differs_from_store_wallet mw_store_wallet sw_wallet_id].
    destruct (store_wallet_resolution _ _ _ ≫= _) as [[i x]|]; [|done]. cbn. rewrite negb_false_iff, Z.eqb_eq. by split; [intros ->|intros [= ->]].
Qed.

(** The wallet a payment method is reported to derive from is the wallet it
    derives from: on the tables the report was read from, allocating the
    method's next address advances the counter of exactly that wallet, from the
    reported key; and the report says that it differs from the store's exactly
    if the store itself resolves to another wallet or to none. *)
Theorem reported_wallet_allocated c store query method s r s' :
  sq_payment_method_id query = Some method -> get_store_wallet c store query s = (Ok (ForMethod r), s') ->
  st_wallets s' = st_wallets s /\ reports store method (st_wallets s) r.
Proof.
  intros Hq Hr. destruct (reads_store_wallet c store query (st_wallets s) s eq_refl) as [_ Hs]. rewrite Hr in Hs. split; [exact Hs|].
  enough (Ha : acts (get_store_wallet c store query) (st_wallets s)
    (fun r _ => forall x, r = Ok x -> exists r', x = ForMethod r' /\ reports store method (st_wallets s) r')).
  { destruct (Ha s eq_refl) as [_ Hx]. rewrite Hr in Hx. by destruct (Hx _ eq_refl) as (r' & [= <-] & Hrep). }
  unfold get_store_wallet, user_has_store_permission. apply acts_bind, acts_map_err, acts_read; [|done].
  destruct (negb _); [by apply acts_throw|]. rewrite Hq. apply acts_report.
Qed.
End Shown.
