(* ===== verification/Credentials.v ===== *)
(** * Login credentials

    The tables behind logging in: wallet credentials, devices, sessions,
    passkeys and pending challenges, with the statements of
    [data-service/src/postgres/auth/] that another crate's login service calls,
    and the routes of [server/src/api/users/wallets.rs] that list wallet
    credentials and change the one an account logs in by.  Length limits of
    columns are left out. *)

From stdpp Require Import gmap strings list.
From Stdlib Require Import ZArith Lia Ascii.
From S2P Require Import Prelude Events LiveWatch Database Services ApiKeys ApiAuth Office Teams Accounts.

#[local] Open Scope Z_scope.

(** What PostgreSQL keeps of an instant: [TIMESTAMPTZ] has microseconds, the
    clock of the server nanoseconds. *)
Definition pg_timestamp (t : Instant) : Instant := t / 1000 * 1000.

(** A [COUNT( * )] returned [as u32]. *)
Definition count_u32 {A} (l : list A) : Z := Z.of_nat (length l) mod 2 ^ 32.

(** ** Rows *)

(** [auth::WalletCredential] *)
Record WalletCredential := mkWalletCredential {
  wc_id : Uuid;
  wc_user_id : Uuid;
  wc_address : string;
  wc_name : string;
  wc_is_primary : bool;
  wc_created_at : Instant;
  wc_last_used_at : option Instant;
  wc_is_active : bool
}.

Definition wc_set_primary (b : bool) (w : WalletCredential) : WalletCredential :=
  mkWalletCredential (wc_id w) (wc_user_id w) (wc_address w) (wc_name w) b (wc_created_at w) (wc_last_used_at w) (wc_is_active w).
Definition wc_set_active (b : bool) (w : WalletCredential) : WalletCredential :=
  mkWalletCredential (wc_id w) (wc_user_id w) (wc_address w) (wc_name w) (wc_is_primary w) (wc_created_at w) (wc_last_used_at w) b.

(** [WalletReauthChallenge], and [auth::WalletChallenge], its shape at login *)
Record WalletReauthChallenge := mkWalletReauthChallenge {
  rc_address : string;
  rc_challenge : string;
  rc_created_at : Instant
}.

(** [auth::DeviceType] *)
Inductive DeviceType := Browser | Desktop | Mobile | ApiClient | UnknownDevice.

(** [device_type_to_db] *)
Definition device_type_to_db (dt : DeviceType) : string :=
  match dt with
  | Browser => "browser"
  | Desktop => "desktop"
  | Mobile => "mobile"
  | ApiClient => "api_client"
  | UnknownDevice => "unknown"
  end.

(** [db_to_device_type] *)
Definition db_to_device_type (s : string) : DeviceType :=
  if String.eqb s "browser" then Browser
  else if String.eqb s "desktop" then Desktop
  else if String.eqb s "mobile" then Mobile
  else if String.eqb s "api_client" then ApiClient
  else UnknownDevice.

(** A [JSONB] value *)
Abbreviation Json := string.

(** Rows of [devices], [sessions], [passkey_credentials] *)
Record DeviceRow := mkDeviceRow {
  dr_user_id : Uuid;
  dr_name : string;
  dr_device_type : string;
  dr_encrypted_symmetric_key : Json;
  dr_kdf_params : Json;
  dr_created_at : Instant;
  dr_last_used_at : option Instant;
  dr_is_active : bool
}.
Record Session := mkSession {
  se_id : Uuid;
  se_user_id : Uuid;
  se_device_id : Uuid;
  se_created_at : Instant;
  se_expires_at : Instant;
  se_last_activity_at : Instant;
  se_ip_address : option string;
  se_user_agent : option string
}.
Record PasskeyRow := mkPasskeyRow {
  pr_user_id : Uuid;
  pr_name : string;
  pr_passkey : Json;
  pr_created_at : Instant;
  pr_last_used_at : option Instant;
  pr_is_active : bool
}.

(** A table of pending challenges: per key what to answer, and since when. *)
Abbreviation Waiting V := (gmap Z (V * Instant)).

Record CredDb := mkCredDb {
  cd_team : TeamDb;
  cd_wallets : gmap Z WalletCredential;
  cd_devices : gmap Z DeviceRow;
  cd_sessions : gmap Z Session;
  cd_passkeys : gmap Z PasskeyRow;
  cd_registration : Waiting (string * Json);
  cd_authentication : Waiting Json;
  cd_discoverable : Waiting Json;
  cd_challenges : Waiting (string * string);
  cd_reauth : Waiting (string * string)
}.

Definition cd_users (d : CredDb) : gmap Z UserRow := td_users (cd_team d).

Definition cd_set_team (x : TeamDb) (d : CredDb) : CredDb :=
  mkCredDb x (cd_wallets d) (cd_devices d) (cd_sessions d) (cd_passkeys d) (cd_registration d) (cd_authentication d)
    (cd_discoverable d) (cd_challenges d) (cd_reauth d).
Definition cd_set_wallets (x : gmap Z WalletCredential) (d : CredDb) : CredDb :=
  mkCredDb (cd_team d) x (cd_devices d) (cd_sessions d) (cd_passkeys d) (cd_registration d) (cd_authentication d)
    (cd_discoverable d) (cd_challenges d) (cd_reauth d).
Definition cd_set_devices (x : gmap Z DeviceRow) (d : CredDb) : CredDb :=
  mkCredDb (cd_team d) (cd_wallets d) x (cd_sessions d) (cd_passkeys d) (cd_registration d) (cd_authentication d)
    (cd_discoverable d) (cd_challenges d) (cd_reauth d).
Definition cd_set_sessions (x : gmap Z Session) (d : CredDb) : CredDb :=
  mkCredDb (cd_team d) (cd_wallets d) (cd_devices d) x (cd_passkeys d) (cd_registration d) (cd_authentication d)
    (cd_discoverable d) (cd_challenges d) (cd_reauth d).
Definition cd_set_passkeys (x : gmap Z PasskeyRow) (d : CredDb) : CredDb :=
  mkCredDb (cd_team d) (cd_wallets d) (cd_devices d) (cd_sessions d) x (cd_registration d) (cd_authentication d)
    (cd_discoverable d) (cd_challenges d) (cd_reauth d).
Definition cd_set_registration (x : Waiting (string * Json)) (d : CredDb) : CredDb :=
  mkCredDb (cd_team d) (cd_wallets d) (cd_devices d) (cd_sessions d) (cd_passkeys d) x (cd_authentication d)
    (cd_discoverable d) (cd_challenges d) (cd_reauth d).
Definition cd_set_authentication (x : Waiting Json) (d : CredDb) : CredDb :=
  mkCredDb (cd_team d) (cd_wallets d) (cd_devices d) (cd_sessions d) (cd_passkeys d) (cd_registration d) x
    (cd_discoverable d) (cd_challenges d) (cd_reauth d).
Definition cd_set_discoverable (x : Waiting Json) (d : CredDb) : CredDb :=
  mkCredDb (cd_team d) (cd_wallets d) (cd_devices d) (cd_sessions d) (cd_passkeys d) (cd_registration d) (cd_authentication d)
    x (cd_challenges d) (cd_reauth d).
Definition cd_set_challenges (x : Waiting (string * string)) (d : CredDb) : CredDb :=
  mkCredDb (cd_team d) (cd_wallets d) (cd_devices d) (cd_sessions d) (cd_passkeys d) (cd_registration d) (cd_authentication d)
    (cd_discoverable d) x (cd_reauth d).
Definition cd_set_reauth (x : Waiting (string * string)) (d : CredDb) : CredDb :=
  mkCredDb (cd_team d) (cd_wallets d) (cd_devices d) (cd_sessions d) (cd_passkeys d) (cd_registration d) (cd_authentication d)
    (cd_discoverable d) (cd_challenges d) x.

Abbreviation Vault := (Office CredDb).
Abbreviation CredStatement A := (TStatement CredDb A).

(** ** Pending challenges *)

(** [INSERT ... ON CONFLICT (key) DO UPDATE] *)
Definition put_pending {V} (k : Z) (v : V) (created_at : Instant) (t : Waiting V) : Waiting V := <[k := (v, pg_timestamp created_at)]> t.

(** [DELETE ... WHERE key = $1 AND created_at > NOW() - INTERVAL ... RETURNING] *)
Definition take_pending {V} (ttl k : Z) (now : Instant) (t : Waiting V) : option (V * Instant) * Waiting V :=
  match t !! k with
  | Some (v, created_at) => if now - ttl <? created_at then (Some (v, created_at), delete k t) else (None, t)
  | None => (None, t)
  end.

(** [DELETE ... WHERE created_at < NOW() - INTERVAL ...]: the rows it affected *)
Definition expired_pending {V} (ttl : Z) (now : Instant) (t : Waiting V) : list (Z * (V * Instant)) :=
  List.filter (fun kv => kv.2.2 <? now - ttl) (map_to_list t).
Definition sweep_pending {V} (ttl : Z) (now : Instant) (t : Waiting V) : Waiting V :=
  filter (fun kv => (kv.2.2 <? now - ttl) = false) t.

Definition CHALLENGE_TTL : Z := seconds (10 * 60).
Definition REAUTH_TTL : Z := seconds (5 * 60).

(** [WALLET_REAUTH_CHALLENGE_TTL_SECS] *)
Definition WALLET_REAUTH_CHALLENGE_TTL_SECS : Z := 5 * 60.

(** A statement on one table. *)
Definition on_table {V A} (get : CredDb -> Waiting V) (set : Waiting V -> CredDb -> CredDb)
    (f : Instant -> Waiting V -> A * Waiting V) : CredStatement A :=
  fun now d => let '(a, t) := f now (get d) in (Ok a, set t d).

(** A table whose key is an account. *)
Definition of_account {A} (user_id : Uuid) (stmt : CredStatement A) : CredStatement A :=
  fun now d => if present user_id (cd_users d) then stmt now d else (Err ConstraintViolation, d).

(** ** The types of the login service *)

(** [serde_json::to_value] and [from_value] at a type *)
Class JsonCodec (A : Type) := {
  to_value : A -> option Json;
  from_value : Json -> option A
}.

(** A value reads back as it was written. *)
Class JsonCodecLaws (A : Type) `{JsonCodec A} := {
  value_roundtrip (x : A) j : to_value x = Some j -> from_value j = Some x
}.

(** Types of the [auth] crate that the tables keep as JSON, the text of an
    [INET], and what PostgreSQL and [base64] do with a passkey's id. *)
Class AuthTypes := {
  KdfParams : Type;
  EncryptedKey : Type;
  Passkey : Type;
  PasskeyRegistration : Type;
  PasskeyAuthentication : Type;
  DiscoverableAuthentication : Type;
  kdf_json :: JsonCodec KdfParams;
  key_json :: JsonCodec EncryptedKey;
  passkey_json :: JsonCodec Passkey;
  registration_json :: JsonCodec PasskeyRegistration;
  authentication_json :: JsonCodec PasskeyAuthentication;
  discoverable_json :: JsonCodec DiscoverableAuthentication;
  inet_text : string -> option string;
  json_cred_id : Json -> option string;
  base64_url : string -> string
}.

(** [k256], [sha3], [hex] and [chrono]: bytes are strings, and a public key is
    its uncompressed point. *)
Class WalletCrypto := {
  hex_decode : string -> option string;
  hex_encode : string -> string;
  EcdsaSignature : Type;
  signature_from_slice : string -> option EcdsaSignature;
  keccak256 : string -> string;
  recover_from_prehash : string -> EcdsaSignature -> bool -> option string;
  to_rfc3339 : Instant -> string
}.

(** RFC 3339 with as many digits as the instant needs tells instants apart. *)
Class WalletCryptoLaws `{WalletCrypto} := {
  rfc3339_inj t t' : to_rfc3339 t = to_rfc3339 t' -> t = t'
}.

(** [auth::Device] *)
Record Device `{AuthTypes} := mkDevice {
  dv_id : Uuid;
  dv_user_id : Uuid;
  dv_name : string;
  dv_device_type : DeviceType;
  dv_encrypted_symmetric_key : EncryptedKey;
  dv_kdf_params : KdfParams;
  dv_created_at : Instant;
  dv_last_used_at : option Instant;
  dv_is_active : bool
}.

(** [auth::PasskeyCredential] *)
Record PasskeyCredential `{AuthTypes} := mkPasskeyCredential {
  pk_id : Uuid;
  pk_user_id : Uuid;
  pk_name : string;
  pk_passkey : Passkey;
  pk_created_at : Instant;
  pk_last_used_at : option Instant;
  pk_is_active : bool
}.

Arguments mkDevice {_}.
Arguments mkPasskeyCredential {_}.

Section Credentials.
Context `{Runtime} `{AuthTypes}.

Abbreviation Repo A := (St Vault DbError A).

(** [serde_json::to_value(..).map_err(..)?] and [from_value(..).map_err(..)?] *)
Definition json_of {A} `{JsonCodec A} (x : A) : Repo Json := match to_value x with Some j => st_ret j | None => st_throw Malformed end.
Definition of_json {A} `{JsonCodec A} (j : Json) : result DbError A := match from_value j with Some x => Ok x | None => Err Malformed end.

(** [.map(..).transpose()] and a [collect] into a [Result] *)
Definition transpose {A B} (f : A -> result DbError B) (o : option A) : result DbError (option B) :=
  match o with
  | Some a => match f a with Ok b => Ok (Some b) | Err e => Err e end
  | None => Ok None
  end.
Fixpoint collect {A B} (f : A -> result DbError B) (l : list A) : result DbError (list B) :=
  match l with
  | [] => Ok []
  | a :: l =>
      match f a with
      | Ok b => match collect f l with Ok bs => Ok (b :: bs) | Err e => Err e end
      | Err e => Err e
      end
  end.

(** *** [challenge.rs] *)

Definition store_registration_challenge (user_id : Uuid) (email : string) (state : PasskeyRegistration) : Repo unit :=
  let* state_json := json_of state in
  tdb (on_table cd_registration cd_set_registration (fun now t => (tt, put_pending user_id (email, state_json) now t))).

Definition take_registration_challenge (user_id : Uuid) : Repo (option (PasskeyRegistration * string)) :=
  let* row := tdb (on_table cd_registration cd_set_registration (take_pending CHALLENGE_TTL user_id)) in
  st_lift (transpose (fun r : (string * Json) * Instant =>
    match of_json r.1.2 with Ok state => Ok (state, r.1.1) | Err e => Err e end) row).

Definition store_authentication_challenge (user_id : Uuid) (state : PasskeyAuthentication) : Repo unit :=
  let* state_json := json_of state in
  tdb (of_account user_id
    (on_table cd_authentication cd_set_authentication (fun now t => (tt, put_pending user_id state_json now t)))).

Definition take_authentication_challenge (user_id : Uuid) : Repo (option PasskeyAuthentication) :=
  let* row := tdb (on_table cd_authentication cd_set_authentication (take_pending CHALLENGE_TTL user_id)) in
  st_lift (transpose (fun r : Json * Instant => of_json r.1) row).

Definition store_discoverable_authentication_challenge (challenge_id : Uuid) (state : DiscoverableAuthentication) : Repo unit :=
  let* state_json := json_of state in
  tdb (on_table cd_discoverable cd_set_discoverable (fun now t => (tt, put_pending challenge_id state_json now t))).

Definition take_discoverable_authentication_challenge (challenge_id : Uuid) : Repo (option DiscoverableAuthentication) :=
  let* row := tdb (on_table cd_discoverable cd_set_discoverable (take_pending CHALLENGE_TTL challenge_id)) in
  st_lift (transpose (fun r : Json * Instant => of_json r.1) row).

(** The challenge a row of either wallet table holds. *)
Definition row_to_challenge (r : (string * string) * Instant) : WalletReauthChallenge := mkWalletReauthChallenge r.1.1 r.1.2 r.2.

Definition store_wallet_challenge (user_id : Uuid) (c : WalletReauthChallenge) : CredStatement unit :=
  on_table cd_challenges cd_set_challenges (fun _ t => (tt, put_pending user_id (rc_address c, rc_challenge c) (rc_created_at c) t)).

Definition take_wallet_challenge (user_id : Uuid) : CredStatement (option WalletReauthChallenge) :=
  on_table cd_challenges cd_set_challenges (fun now t =>
    let '(r, t') := take_pending CHALLENGE_TTL user_id now t in (row_to_challenge <$> r, t')).

(** One of the four statements of [cleanup_expired_challenges]. *)
Definition sweep {V} (get : CredDb -> Waiting V) (set : Waiting V -> CredDb -> CredDb) : CredStatement nat :=
  on_table get set (fun now t => (length (expired_pending CHALLENGE_TTL now t), sweep_pending CHALLENGE_TTL now t)).

Definition cleanup_expired_challenges : Repo Z :=
  let* r1 := tdb (sweep cd_registration cd_set_registration) in
  let* r2 := tdb (sweep cd_authentication cd_set_authentication) in
  let* r3 := tdb (sweep cd_challenges cd_set_challenges) in
  let* r4 := tdb (sweep cd_discoverable cd_set_discoverable) in
  st_ret (Z.of_nat (r1 + r2 + r3 + r4)).

(** *** [wallet.rs] *)

(** [idx_wallet_credentials_one_primary]: an active primary of the account
    besides [id] *)
Definition other_primary (id user_id : Uuid) (t : gmap Z WalletCredential) : bool :=
  existsb (fun kw => negb (kw.1 =? id) && (wc_user_id kw.2 =? user_id) && wc_is_primary kw.2 && wc_is_active kw.2) (map_to_list t).

(** [UNIQUE (address)] *)
Definition address_taken (address : string) (t : gmap Z WalletCredential) : bool :=
  existsb (fun kw => String.eqb (wc_address kw.2) address) (map_to_list t).

(** [WalletRepository::create_wallet] *)
Definition create_credential (c : WalletCredential) : CredStatement unit :=
  fun _ d =>
    if present (wc_id c) (cd_wallets d) || address_taken (wc_address c) (cd_wallets d)
       || wc_is_primary c && wc_is_active c && other_primary (wc_id c) (wc_user_id c) (cd_wallets d)
    then (Err WalletAlreadyRegistered, d)
    else if negb (present (wc_user_id c) (cd_users d)) then (Err ConstraintViolation, d)
    else (Ok tt, cd_set_wallets (<[wc_id c :=
            mkWalletCredential (wc_id c) (wc_user_id c) (wc_address c) (wc_name c) (wc_is_primary c)
              (pg_timestamp (wc_created_at c)) (pg_timestamp <$> wc_last_used_at c) (wc_is_active c)]> (cd_wallets d)) d).

(** [WalletRepository::get_wallet], [get_wallet_by_address],
    [get_wallets_for_user], [count_active_wallets] *)
Definition get_credential (id : Uuid) : CredStatement (option WalletCredential) := tselect (fun d => cd_wallets d !! id).

Definition credentials_where (p : WalletCredential -> bool) (d : CredDb) : list WalletCredential :=
  List.filter p (snd <$> map_to_list (cd_wallets d)).

Definition get_wallet_by_address (address : string) : CredStatement (option WalletCredential) :=
  tselect (fun d => head (credentials_where (fun w => String.eqb (wc_address w) address && wc_is_active w) d)).
Definition get_wallets_for_user (user_id : Uuid) : CredStatement (list WalletCredential) :=
  tselect (credentials_where (fun w => wc_user_id w =? user_id)).
Definition count_active_wallets (user_id : Uuid) : CredStatement Z :=
  tselect (fun d => count_u32 (credentials_where (fun w => (wc_user_id w =? user_id) && wc_is_active w) d)).

(** [WalletRepository::update_wallet] *)
Definition update_credential (c : WalletCredential) : CredStatement unit :=
  fun _ d =>
    match cd_wallets d !! wc_id c with
    | Some w =>
        if wc_is_primary c && wc_is_active c && other_primary (wc_id c) (wc_user_id w) (cd_wallets d) then (Err UserExists, d)
        else (Ok tt, cd_set_wallets (<[wc_id c :=
                mkWalletCredential (wc_id w) (wc_user_id w) (wc_address w) (wc_name c) (wc_is_primary c) (wc_created_at w)
                  (pg_timestamp <$> wc_last_used_at c) (wc_is_active c)]> (cd_wallets d)) d)
    | None => (Err WalletNotFound, d)
    end.

(** [WalletRepository::deactivate_wallet], [delete_wallet],
    [delete_all_wallets_for_user] *)
Definition deactivate_credential (id : Uuid) : CredStatement unit :=
  fun _ d =>
    match cd_wallets d !! id with
    | Some w => (Ok tt, cd_set_wallets (<[id := wc_set_active false w]> (cd_wallets d)) d)
    | None => (Err WalletNotFound, d)
    end.
Definition delete_credential (id : Uuid) : CredStatement unit := twrite (fun d => cd_set_wallets (delete id (cd_wallets d)) d).
Definition delete_all_wallets_for_user (user_id : Uuid) : CredStatement unit :=
  twrite (fun d => cd_set_wallets (filter (fun kw => (wc_user_id kw.2 =? user_id) = false) (cd_wallets d)) d).

(** The [UPDATE] that demotes whatever is primary. *)
Definition demote_credential (user_id : Uuid) (w : WalletCredential) : WalletCredential :=
  if (wc_user_id w =? user_id) && wc_is_primary w then wc_set_primary false w else w.

Definition us_set_wallet (address : string) (r : UserRow) : UserRow :=
  mkUserRow (us_email r) (Some address) (us_kdf_salt_identifier r) (us_key_material r) (us_created_at r)
    (us_last_login_at r) (us_failed_login_attempts r) (us_locked_until r) (us_role r).

(** [PgDataService::set_primary_wallet_credential], one transaction *)
Definition set_primary (user_id wallet_id : Uuid) : CredStatement WalletCredential :=
  fun _ d =>
    match cd_wallets d !! wallet_id with
    | Some target =>
        if negb ((wc_user_id target =? user_id) && wc_is_active target) then (Err WalletNotFound, d)
        else if wc_is_primary target then (Ok target, d)
        else
          let demoted := demote_credential user_id <$> cd_wallets d in
          if other_primary wallet_id user_id demoted then (Err UserExists, d)
          else if taken user_id us_wallet_address (Some (wc_address target)) (cd_team d) then (Err UserExists, d)
          else
            (Ok (wc_set_primary true target),
             cd_set_team (td_set_users (alter (us_set_wallet (wc_address target)) user_id (cd_users d)) (cd_team d))
               (cd_set_wallets (alter (wc_set_primary true) wallet_id demoted) d))
    | None => (Err WalletNotFound, d)
    end.

(** [PgDataService::store_wallet_reauth_challenge], [take_wallet_reauth_challenge] *)
Definition store_wallet_reauth_challenge (user_id : Uuid) (address challenge : string) (created_at : Instant) : CredStatement unit :=
  of_account user_id
    (on_table cd_reauth cd_set_reauth (fun _ t => (tt, put_pending user_id (address, challenge) created_at t))).
Definition take_wallet_reauth_challenge (user_id : Uuid) : CredStatement (option WalletReauthChallenge) :=
  on_table cd_reauth cd_set_reauth (fun now t =>
    let '(r, t') := take_pending REAUTH_TTL user_id now t in (row_to_challenge <$> r, t')).

(** *** [device.rs] *)

(** The columns [create_device] and [update_device] bind. *)
Definition device_row (device : Device) (key kdf : Json) (created_at : Instant) (user_id : Uuid) : DeviceRow :=
  mkDeviceRow user_id (dv_name device) (device_type_to_db (dv_device_type device)) key kdf created_at
    (pg_timestamp <$> dv_last_used_at device) (dv_is_active device).

Definition insert_device (device : Device) (key kdf : Json) : CredStatement unit :=
  fun _ d =>
    if present (dv_id device) (cd_devices d) then (Err UserExists, d)
    else if negb (present (dv_user_id device) (cd_users d)) then (Err ConstraintViolation, d)
    else (Ok tt, cd_set_devices (<[dv_id device :=
            device_row device key kdf (pg_timestamp (dv_created_at device)) (dv_user_id device)]> (cd_devices d)) d).

(** [DeviceRepository::create_device] *)
Definition create_device (device : Device) : Repo unit :=
  let* kdf_params := json_of (dv_kdf_params device) in
  let* encrypted_key := json_of (dv_encrypted_symmetric_key device) in
  tdb (insert_device device encrypted_key kdf_params).

(** [row_to_device] *)
Definition row_to_device (kr : Z * DeviceRow) : result DbError Device :=
  let '(id, r) := kr in
  match of_json (dr_encrypted_symmetric_key r) with
  | Ok key =>
      match of_json (dr_kdf_params r) with
      | Ok kdf =>
          Ok (mkDevice id (dr_user_id r) (dr_name r) (db_to_device_type (dr_device_type r)) key kdf (dr_created_at r)
                (dr_last_used_at r) (dr_is_active r))
      | Err e => Err e
      end
  | Err e => Err e
  end.

Definition devices_where (p : DeviceRow -> bool) (d : CredDb) : list (Z * DeviceRow) :=
  List.filter (fun kr => p kr.2) (map_to_list (cd_devices d)).

(** [DeviceRepository::get_device], [get_devices_for_user], [count_active_devices] *)
Definition get_device (id : Uuid) : Repo (option Device) :=
  let* row := tdb (tselect (fun d => pair id <$> cd_devices d !! id)) in
  st_lift (transpose row_to_device row).
Definition get_devices_for_user (user_id : Uuid) : Repo (list Device) :=
  let* rows := tdb (tselect (devices_where (fun r => dr_user_id r =? user_id))) in
  st_lift (collect row_to_device rows).
Definition count_active_devices (user_id : Uuid) : CredStatement Z :=
  tselect (fun d => count_u32 (devices_where (fun r => (dr_user_id r =? user_id) && dr_is_active r) d)).

(** [DeviceRepository::update_device], [deactivate_device] *)
Definition update_device_row (device : Device) (key kdf : Json) : CredStatement unit :=
  fun _ d =>
    match cd_devices d !! dv_id device with
    | Some r => (Ok tt, cd_set_devices (<[dv_id device := device_row device key kdf (dr_created_at r) (dr_user_id r)]> (cd_devices d)) d)
    | None => (Err DeviceNotFound, d)
    end.
Definition update_device (device : Device) : Repo unit :=
  let* kdf_params := json_of (dv_kdf_params device) in
  let* encrypted_key := json_of (dv_encrypted_symmetric_key device) in
  tdb (update_device_row device encrypted_key kdf_params).

Definition deactivate_device (id : Uuid) : CredStatement unit :=
  fun _ d =>
    match cd_devices d !! id with
    | Some r => (Ok tt, cd_set_devices (<[id :=
        mkDeviceRow (dr_user_id r) (dr_name r) (dr_device_type r) (dr_encrypted_symmetric_key r) (dr_kdf_params r)
          (dr_created_at r) (dr_last_used_at r) false]> (cd_devices d)) d)
    | None => (Err DeviceNotFound, d)
    end.

(** Rows that go take their sessions with them: [ON DELETE CASCADE]. *)
Definition drop_devices (p : Z -> DeviceRow -> bool) (d : CredDb) : CredDb :=
  let kept := filter (fun kr => p kr.1 kr.2 = false) (cd_devices d) in
  cd_set_sessions (filter (fun ks => present (se_device_id ks.2) kept = true) (cd_sessions d)) (cd_set_devices kept d).

(** [DeviceRepository::delete_device], [delete_all_devices_for_user] *)
Definition delete_device (id : Uuid) : CredStatement unit := twrite (drop_devices (fun i _ => i =? id)).
Definition delete_all_devices_for_user (user_id : Uuid) : CredStatement unit := twrite (drop_devices (fun _ r => dr_user_id r =? user_id)).

(** *** [session.rs] *)

(** [$7::inet], and [ip_address::text] when it is read *)
Definition inet_in (ip : option string) : option (option string) :=
  match ip with
  | Some s => match inet_text s with Some t => Some (Some t) | None => None end
  | None => Some None
  end.

(** [SessionRepository::create_session] *)
Definition create_session (s : Session) : CredStatement unit :=
  fun _ d =>
    match inet_in (se_ip_address s) with
    | None => (Err ConstraintViolation, d)
    | Some ip =>
        if present (se_id s) (cd_sessions d) then (Err UserExists, d)
        else if negb (present (se_user_id s) (cd_users d) && present (se_device_id s) (cd_devices d)) then (Err ConstraintViolation, d)
        else (Ok tt, cd_set_sessions (<[se_id s :=
                mkSession (se_id s) (se_user_id s) (se_device_id s) (pg_timestamp (se_created_at s)) (pg_timestamp (se_expires_at s))
                  (pg_timestamp (se_last_activity_at s)) ip (se_user_agent s)]> (cd_sessions d)) d)
    end.

(** [SessionRepository::get_session], [get_sessions_for_user] *)
Definition get_session (id : Uuid) : CredStatement (option Session) := tselect (fun d => cd_sessions d !! id).
Definition get_sessions_for_user (user_id : Uuid) : CredStatement (list Session) :=
  tselect (fun d => List.filter (fun s => se_user_id s =? user_id) (snd <$> map_to_list (cd_sessions d))).

(** [SessionRepository::update_session] *)
Definition update_session (s : Session) : CredStatement unit :=
  fun _ d =>
    match inet_in (se_ip_address s) with
    | None => (Err ConstraintViolation, d)
    | Some ip =>
        match cd_sessions d !! se_id s with
        | Some r => (Ok tt, cd_set_sessions (<[se_id s :=
            mkSession (se_id r) (se_user_id r) (se_device_id r) (se_created_at r) (se_expires_at r)
              (pg_timestamp (se_last_activity_at s)) ip (se_user_agent s)]> (cd_sessions d)) d)
        | None => (Err SessionInvalid, d)
        end
    end.

Definition drop_sessions (p : Session -> bool) (d : CredDb) : CredDb :=
  cd_set_sessions (filter (fun ks => p ks.2 = false) (cd_sessions d)) d.

(** A [DELETE] on sessions that reports how many rows it affected. *)
Definition delete_sessions_where (p : Instant -> Session -> bool) : CredStatement Z :=
  fun now d => (Ok (Z.of_nat (length (List.filter (fun ks => p now ks.2) (map_to_list (cd_sessions d))))), drop_sessions (p now) d).

(** [SessionRepository::delete_session], [delete_all_sessions_for_user],
    [delete_sessions_for_device] *)
Definition delete_session (id : Uuid) : CredStatement unit := twrite (fun d => cd_set_sessions (delete id (cd_sessions d)) d).
Definition delete_all_sessions_for_user (user_id : Uuid) : CredStatement unit := twrite (drop_sessions (fun s => se_user_id s =? user_id)).
Definition delete_sessions_for_device (device_id : Uuid) : CredStatement unit := twrite (drop_sessions (fun s => se_device_id s =? device_id)).

(** [SessionRepository::delete_expired_sessions], [delete_stale_sessions] *)
Definition delete_expired_sessions : CredStatement Z := delete_sessions_where (fun now s => se_expires_at s <? now).
Definition delete_stale_sessions (idle_timeout : option Z) : Repo Z :=
  match idle_timeout with
  | Some timeout =>
      let* now := of_now in
      let idle_cutoff := pg_timestamp (now - timeout) in
      tdb (delete_sessions_where (fun now s => (se_expires_at s <? now) || (se_last_activity_at s <? idle_cutoff)))
  | None => tdb (delete_sessions_where (fun now s => se_expires_at s <? now))
  end.

(** *** [passkey.rs] *)

(** [PasskeyRepository::create_passkey] *)
Definition insert_passkey (c : PasskeyCredential) (data : Json) : CredStatement unit :=
  fun _ d =>
    if present (pk_id c) (cd_passkeys d) then (Err UserExists, d)
    else if negb (present (pk_user_id c) (cd_users d)) then (Err ConstraintViolation, d)
    else (Ok tt, cd_set_passkeys (<[pk_id c :=
            mkPasskeyRow (pk_user_id c) (pk_name c) data (pg_timestamp (pk_created_at c)) (pg_timestamp <$> pk_last_used_at c)
              (pk_is_active c)]> (cd_passkeys d)) d).
Definition create_passkey (c : PasskeyCredential) : Repo unit :=
  let* passkey_data := json_of (pk_passkey c) in tdb (insert_passkey c passkey_data).

(** [row_to_passkey] *)
Definition row_to_passkey (kr : Z * PasskeyRow) : result DbError PasskeyCredential :=
  let '(id, r) := kr in
  match of_json (pr_passkey r) with
  | Ok p => Ok (mkPasskeyCredential id (pr_user_id r) (pr_name r) p (pr_created_at r) (pr_last_used_at r) (pr_is_active r))
  | Err e => Err e
  end.

Definition passkeys_where (p : PasskeyRow -> bool) (d : CredDb) : list (Z * PasskeyRow) :=
  List.filter (fun kr => p kr.2) (map_to_list (cd_passkeys d)).

(** [PasskeyRepository::get_passkey], [get_passkey_by_credential_id],
    [get_passkeys_for_user], [count_active_passkeys] *)
Definition get_passkey (id : Uuid) : Repo (option PasskeyCredential) :=
  let* row := tdb (tselect (fun d => pair id <$> cd_passkeys d !! id)) in
  st_lift (transpose row_to_passkey row).
Definition get_passkey_by_credential_id (credential_id : string) : Repo (option PasskeyCredential) :=
  let cred_id_b64 := base64_url credential_id in
  let* row := tdb (tselect (fun d =>
    head (passkeys_where (fun r => pr_is_active r && bool_decide (json_cred_id (pr_passkey r) = Some cred_id_b64)) d))) in
  st_lift (transpose row_to_passkey row).
Definition get_passkeys_for_user (user_id : Uuid) : Repo (list PasskeyCredential) :=
  let* rows := tdb (tselect (passkeys_where (fun r => pr_user_id r =? user_id))) in
  st_lift (collect row_to_passkey rows).
Definition count_active_passkeys (user_id : Uuid) : CredStatement Z :=
  tselect (fun d => count_u32 (passkeys_where (fun r => (pr_user_id r =? user_id) && pr_is_active r) d)).

(** [PasskeyRepository::update_passkey], [deactivate_passkey], [delete_passkey],
    [delete_all_passkeys_for_user] *)
Definition update_passkey_row (c : PasskeyCredential) (data : Json) : CredStatement unit :=
  fun _ d =>
    match cd_passkeys d !! pk_id c with
    | Some r => (Ok tt, cd_set_passkeys (<[pk_id c :=
        mkPasskeyRow (pr_user_id r) (pk_name c) data (pr_created_at r) (pg_timestamp <$> pk_last_used_at c) (pk_is_active c)]>
        (cd_passkeys d)) d)
    | None => (Err PasskeyNotFound, d)
    end.
Definition update_passkey (c : PasskeyCredential) : Repo unit :=
  let* passkey_data := json_of (pk_passkey c) in tdb (update_passkey_row c passkey_data).
Definition deactivate_passkey (id : Uuid) : CredStatement unit :=
  fun _ d =>
    match cd_passkeys d !! id with
    | Some r => (Ok tt, cd_set_passkeys (<[id :=
        mkPasskeyRow (pr_user_id r) (pr_name r) (pr_passkey r) (pr_created_at r) (pr_last_used_at r) false]> (cd_passkeys d)) d)
    | None => (Err PasskeyNotFound, d)
    end.
Definition delete_passkey (id : Uuid) : CredStatement unit := twrite (fun d => cd_set_passkeys (delete id (cd_passkeys d)) d).
Definition delete_all_passkeys_for_user (user_id : Uuid) : CredStatement unit :=
  twrite (fun d => cd_set_passkeys (filter (fun kr => (pr_user_id kr.2 =? user_id) = false) (cd_passkeys d)) d).
End Credentials.

(** ** The routes on wallet credentials *)

Definition NEWLINE : string := String (ascii_of_nat 10) EmptyString.

(** [str::trim_start_matches("0x")] *)
Fixpoint trim_start_0x (s : string) : string :=
  match s with
  | String "0" (String "x" s') => trim_start_0x s'
  | _ => s
  end.

(** [match v[0] { 27 | 0 => .., 28 | 1 => .., _ => return false }] *)
Definition recovery_id (v : option ascii) : option bool :=
  match v with
  | Some a =>
      let n := nat_of_ascii a in
      if (n =? 27)%nat || (n =? 0)%nat then Some false
      else if (n =? 28)%nat || (n =? 1)%nat then Some true
      else None
  | None => None
  end.

(** [&bytes[n..]] *)
Definition bytes_from (n : nat) (s : string) : string := String.substring n (String.length s - n) s.

Section Routes.
Context `{Runtime} `{AuthHost} `{WalletCrypto}.

(** [wallet_reauth_challenge_message] *)
Definition wallet_reauth_challenge_message (challenge address : string) (created_at : Instant) : string :=
  "Confirm this wallet change on random.cash:" +:+ NEWLINE +:+ NEWLINE +:+ "Challenge: " +:+ challenge +:+ NEWLINE +:+
  "Timestamp: " +:+ to_rfc3339 created_at +:+ NEWLINE +:+ "Address: " +:+ address.

(** The EIP-191 hash of a message. *)
Definition message_hash (message : string) : string :=
  keccak256 (String (ascii_of_nat 25) ("Ethereum Signed Message:" +:+ NEWLINE +:+ z_to_string (Z.of_nat (String.length message))) +:+ message).

(** [verify_wallet_signature] *)
Definition verify_wallet_signature (message signature_hex expected_address : string) : bool :=
  match hex_decode (trim_start_0x signature_hex) with
  | None => false
  | Some signature_bytes =>
      if negb (String.length signature_bytes =? 65)%nat then false
      else
        match signature_from_slice (String.substring 0 64 signature_bytes) with
        | None => false
        | Some signature =>
            match recovery_id (String.get 64 signature_bytes) with
            | None => false
            | Some id =>
                match recover_from_prehash (message_hash message) signature id with
                | None => false
                | Some public_key_bytes =>
                    let public_key_hash := keccak256 (bytes_from 1 public_key_bytes) in
                    let recovered_address := "0x" +:+ hex_encode (bytes_from 12 public_key_hash) in
                    eq_ignore_ascii_case recovered_address expected_address
                end
            end
        end
  end.

(** [generate_key_segment] *)
Definition draw_segment {E} (bytes : nat) : St Vault E string :=
  fun o => (Ok (random_hex (of_draws o) bytes), mkOffice (of_db o) (of_ticks o) (S (of_draws o)) (of_mail o)).

Abbreviation Page A := (St Vault Z A).

(** [list_wallet_credentials] *)
Definition list_wallet_credentials (user : UserInfo) : Page (list WalletCredential) :=
  let* wallets := fails_500 (tdb (get_wallets_for_user (ui_id user))) in
  st_ret (List.filter wc_is_active wallets).

(** The wallet a request names, if it is an active one of the caller. *)
Definition own_credential (user : UserInfo) (id : Uuid) : Page WalletCredential :=
  let* r := fails_500 (tdb (get_credential id)) in
  ok_or 404 (w ← r; if (wc_user_id w =? ui_id user) && wc_is_active w then Some w else None).

(** [create_wallet_reauth_challenge] *)
Definition create_wallet_reauth_challenge (user : UserInfo) (id : Uuid) : Page (string * Z) :=
  let* wallet := own_credential user id in
  let* challenge := draw_segment 32 in
  let* created_at := of_now in
  do* fails_500 (tdb (store_wallet_reauth_challenge (ui_id user) (wc_address wallet) challenge created_at));
  st_ret (wallet_reauth_challenge_message challenge (wc_address wallet) created_at, WALLET_REAUTH_CHALLENGE_TTL_SECS).

(** [set_primary_wallet_credential], the route *)
Definition set_primary_wallet_credential (user : UserInfo) (id : Uuid) (signature : string) : Page WalletCredential :=
  let* wallet := own_credential user id in
  let* r := fails_500 (tdb (take_wallet_reauth_challenge (ui_id user))) in
  let* challenge := ok_or 401 r in
  if negb (eq_ignore_ascii_case (rc_address challenge) (wc_address wallet)) then st_throw 401
  else
    let expected_message := wallet_reauth_challenge_message (rc_challenge challenge) (rc_address challenge) (rc_created_at challenge) in
    if negb (verify_wallet_signature expected_message signature (rc_address challenge)) then st_throw 401
    else st_map_err (fun e => match e with WalletNotFound => 404 | _ => 500 end) (tdb (set_primary (ui_id user) id)).
End Routes.
