(* ===== verification/CredentialFacts.v ===== *)
(** * What login credentials guarantee

    Pending challenges are answered at most once, with the latest one and in
    time; the credential tables stay sound under any interleaving of their
    statements; and the wallet an account logs in by changes only against a
    signature over a fresh challenge for that very wallet. *)

From stdpp Require Import gmap strings list sorting.
From Stdlib Require Import ZArith Lia Ascii.
From S2P Require Import Prelude Events LiveWatch Database Services ApiKeys ApiAuth Office Teams Accounts Credentials.

#[local] Open Scope Z_scope.

(** ** The statements that write *)

Section Writes.
Context `{Runtime} `{AuthTypes}.

Inductive CredOp :=
| OpCreateWallet (c : WalletCredential)
| OpUpdateWallet (c : WalletCredential)
| OpDeactivateWallet (id : Uuid)
| OpDeleteWallet (id : Uuid)
| OpDeleteWallets (user_id : Uuid)
| OpSetPrimary (user_id wallet_id : Uuid)
| OpInsertDevice (device : Device) (key kdf : string)
| OpUpdateDevice (device : Device) (key kdf : string)
| OpDeactivateDevice (id : Uuid)
| OpDeleteDevice (id : Uuid)
| OpDeleteDevices (user_id : Uuid)
| OpCreateSession (s : Session)
| OpUpdateSession (s : Session)
| OpDeleteSession (id : Uuid)
| OpDeleteUserSessions (user_id : Uuid)
| OpDeleteDeviceSessions (device_id : Uuid)
| OpExpireSessions (idle_cutoff : option Instant)
| OpInsertPasskey (c : PasskeyCredential) (data : string)
| OpUpdatePasskey (c : PasskeyCredential) (data : string)
| OpDeactivatePasskey (id : Uuid)
| OpDeletePasskey (id : Uuid)
| OpDeletePasskeys (user_id : Uuid)
| OpStoreRegistration (k : Uuid) (v : string * string)
| OpTakeRegistration (k : Uuid)
| OpStoreAuthentication (k : Uuid) (v : string)
| OpTakeAuthentication (k : Uuid)
| OpStoreDiscoverable (k : Uuid) (v : string)
| OpTakeDiscoverable (k : Uuid)
| OpStoreChallenge (k : Uuid) (c : WalletReauthChallenge)
| OpTakeChallenge (k : Uuid)
| OpSweepRegistration
| OpSweepAuthentication
| OpSweepChallenges
| OpSweepDiscoverable
| OpStoreReauth (k : Uuid) (address challenge : string) (created_at : Instant)
| OpTakeReauth (k : Uuid).

Definition cred_effect (op : CredOp) (now : Instant) (d : CredDb) : CredDb :=
  match op with
  | OpCreateWallet c => snd (create_credential c now d)
  | OpUpdateWallet c => snd (update_credential c now d)
  | OpDeactivateWallet id => snd (deactivate_credential id now d)
  | OpDeleteWallet id => snd (delete_credential id now d)
  | OpDeleteWallets u => snd (delete_all_wallets_for_user u now d)
  | OpSetPrimary u id => snd (set_primary u id now d)
  | OpInsertDevice dev key kdf => snd (insert_device dev key kdf now d)
  | OpUpdateDevice dev key kdf => snd (update_device_row dev key kdf now d)
  | OpDeactivateDevice id => snd (deactivate_device id now d)
  | OpDeleteDevice id => snd (delete_device id now d)
  | OpDeleteDevices u => snd (delete_all_devices_for_user u now d)
  | OpCreateSession s => snd (create_session s now d)
  | OpUpdateSession s => snd (update_session s now d)
  | OpDeleteSession id => snd (delete_session id now d)
  | OpDeleteUserSessions u => snd (delete_all_sessions_for_user u now d)
  | OpDeleteDeviceSessions id => snd (delete_sessions_for_device id now d)
  | OpExpireSessions cutoff =>
      snd (delete_sessions_where (fun now s => (se_expires_at s <? now) ||
             match cutoff with Some c => se_last_activity_at s <? c | None => false end) now d)
  | OpInsertPasskey c data => snd (insert_passkey c data now d)
  | OpUpdatePasskey c data => snd (update_passkey_row c data now d)
  | OpDeactivatePasskey id => snd (deactivate_passkey id now d)
  | OpDeletePasskey id => snd (delete_passkey id now d)
  | OpDeletePasskeys u => snd (delete_all_passkeys_for_user u now d)
  | OpStoreRegistration k v => snd (on_table cd_registration cd_set_registration (fun now t => (tt, put_pending k v now t)) now d)
  | OpTakeRegistration k => snd (on_table cd_registration cd_set_registration (take_pending CHALLENGE_TTL k) now d)
  | OpStoreAuthentication k v =>
      snd (of_account k (on_table cd_authentication cd_set_authentication (fun now t => (tt, put_pending k v now t))) now d)
  | OpTakeAuthentication k => snd (on_table cd_authentication cd_set_authentication (take_pending CHALLENGE_TTL k) now d)
  | OpStoreDiscoverable k v => snd (on_table cd_discoverable cd_set_discoverable (fun now t => (tt, put_pending k v now t)) now d)
  | OpTakeDiscoverable k => snd (on_table cd_discoverable cd_set_discoverable (take_pending CHALLENGE_TTL k) now d)
  | OpStoreChallenge k c => snd (store_wallet_challenge k c now d)
  | OpTakeChallenge k => snd (take_wallet_challenge k now d)
  | OpSweepRegistration => snd (sweep cd_registration cd_set_registration now d)
  | OpSweepAuthentication => snd (sweep cd_authentication cd_set_authentication now d)
  | OpSweepChallenges => snd (sweep cd_challenges cd_set_challenges now d)
  | OpSweepDiscoverable => snd (sweep cd_discoverable cd_set_discoverable now d)
  | OpStoreReauth k address challenge created_at => snd (store_wallet_reauth_challenge k address challenge created_at now d)
  | OpTakeReauth k => snd (take_wallet_reauth_challenge k now d)
  end.

Definition cred_run (ops : list (Instant * CredOp)) (d : CredDb) : CredDb := foldl (fun d op => cred_effect op.2 op.1 d) d ops.

Lemma cred_run_snoc ops op d : cred_run (ops ++ [op]) d = cred_effect op.2 op.1 (cred_run ops d).
Proof. unfold cred_run. by rewrite foldl_snoc. Qed.
End Writes.

(** ** Soundness of the tables *)

(** Wallet rows under their ids, one per address, one active primary per
    account, each of an account that exists. *)
Record wallets_ok (us : gmap Z UserRow) (ws : gmap Z WalletCredential) : Prop := {
  wo_key i w : ws !! i = Some w -> wc_id w = i;
  wo_address i j w v : ws !! i = Some w -> ws !! j = Some v -> wc_address w = wc_address v -> i = j;
  wo_primary i j w v : ws !! i = Some w -> ws !! j = Some v -> wc_user_id w = wc_user_id v ->
    wc_is_primary w && wc_is_active w = true -> wc_is_primary v && wc_is_active v = true -> i = j;
  wo_user i w : ws !! i = Some w -> is_Some (us !! wc_user_id w)
}.

(** Everything else names accounts and devices that exist. *)
Record anchored (d : CredDb) : Prop := {
  an_device i r : cd_devices d !! i = Some r -> is_Some (cd_users d !! dr_user_id r);
  an_session i s : cd_sessions d !! i = Some s -> is_Some (cd_users d !! se_user_id s) /\ is_Some (cd_devices d !! se_device_id s);
  an_passkey i r : cd_passkeys d !! i = Some r -> is_Some (cd_users d !! pr_user_id r);
  an_authentication i x : cd_authentication d !! i = Some x -> is_Some (cd_users d !! i);
  an_reauth i x : cd_reauth d !! i = Some x -> is_Some (cd_users d !! i)
}.

Definition cred_ok (d : CredDb) : Prop := wallets_ok (cd_users d) (cd_wallets d) /\ anchored d.

Section Sound.
Context `{Runtime} `{AuthTypes}.

Lemma present_spec {A} k (t : gmap Z A) : present k t = true <-> is_Some (t !! k).
Proof. unfold present. by rewrite bool_decide_eq_true. Qed.

Lemma existsb_map_false {A} (p : Z * A -> bool) (t : gmap Z A) i x : existsb p (map_to_list t) = false -> t !! i = Some x -> p (i, x) = false.
Proof.
  intros He Hx. destruct (p (i, x)) eqn:Hp; [|done]. rewrite <- He. symmetry. apply existsb_exists.
  exists (i, x). split; [|done]. by apply list_elem_of_In, elem_of_map_to_list.
Qed.

Lemma other_primary_false id u ws i w : other_primary id u ws = false -> ws !! i = Some w -> wc_user_id w = u ->
  wc_is_primary w && wc_is_active w = true -> i = id.
Proof.
  intros Ho Hw <- Hp. pose proof (existsb_map_false _ _ _ _ Ho Hw) as Hf. cbn in Hf.
  rewrite Z.eqb_refl, andb_true_r in Hf. destruct (Z.eqb_spec i id) as [|]; [done|]. cbn in Hf. congruence.
Qed.

(** Fewer rows are as sound. *)
Lemma wallets_ok_sub us ws ws' : (forall i w, ws' !! i = Some w -> ws !! i = Some w) -> wallets_ok us ws -> wallets_ok us ws'.
Proof. intros Hs []. split; eauto. Qed.

(** One row changed or added, its account and address kept. *)
Lemma wallets_ok_insert us ws id w :
  wallets_ok us ws -> wc_id w = id -> is_Some (us !! wc_user_id w) ->
  (forall j v, ws !! j = Some v -> wc_address v = wc_address w -> j = id) ->
  (wc_is_primary w && wc_is_active w = true -> forall j v, ws !! j = Some v -> wc_user_id v = wc_user_id w ->
    wc_is_primary v && wc_is_active v = true -> j = id) ->
  wallets_ok us (<[id := w]> ws).
Proof.
  intros [Hk Ha Hp Hu] Hid Hus Had Hpr. split.
  - intros i v [[<- <-]|[_ Hv]]%lookup_insert_Some; eauto.
  - intros i j v v' [[<- <-]|[? Hv]]%lookup_insert_Some [[<- <-]|[? Hv']]%lookup_insert_Some He; eauto. symmetry. eauto.
  - intros i j v v' [[<- <-]|[? Hv]]%lookup_insert_Some [[<- <-]|[? Hv']]%lookup_insert_Some He Hp1 Hp2; eauto; symmetry; eauto.
  - intros i v [[<- <-]|[_ Hv]]%lookup_insert_Some; eauto.
Qed.

(** Accounts stay. *)
Lemma wallets_ok_users us us' ws : (forall u, is_Some (us !! u) -> is_Some (us' !! u)) -> wallets_ok us ws -> wallets_ok us' ws.
Proof. intros Hs []. split; eauto. Qed.

Lemma demoted_ok us ws u : wallets_ok us ws -> wallets_ok us (demote_credential u <$> ws).
Proof.
  intros [Hk Ha Hp Hu].
  assert (Hd : forall i w, (demote_credential u <$> ws) !! i = Some w -> exists v, ws !! i = Some v /\ wc_id w = wc_id v /\ wc_user_id w = wc_user_id v /\
    wc_address w = wc_address v /\ (wc_is_primary w && wc_is_active w = true -> wc_is_primary v && wc_is_active v = true)).
  { intros i w. rewrite lookup_fmap. destruct (ws !! i) as [v|]; [|done]. cbn. intros [= <-]. exists v. unfold demote_credential.
    by destruct (_ && _). }
  split.
  - intros i w (v & Hv & -> & _)%Hd. eauto.
  - intros i j w w' (v & Hv & _ & _ & -> & _)%Hd (v' & Hv' & _ & _ & -> & _)%Hd. eauto.
  - intros i j w w' (v & Hv & _ & -> & _ & H1)%Hd (v' & Hv' & _ & -> & _ & H2)%Hd. eauto.
  - intros i w (v & Hv & _ & -> & _)%Hd. eauto.
Qed.

(** After the demotion nothing of the account is primary. *)
Lemma demoted_none u (ws : gmap Z WalletCredential) i w : (demote_credential u <$> ws) !! i = Some w -> wc_user_id w = u -> wc_is_primary w = false.
Proof.
  rewrite lookup_fmap. destruct (ws !! i) as [v|]; [|done]. cbn. intros [= <-]. unfold demote_credential.
  destruct (wc_user_id v =? u) eqn:He; [|cbn; intros <-; by rewrite Z.eqb_refl in He]. cbn. by destruct (wc_is_primary v) eqn:Hp.
Qed.

(** So the index never refuses a promotion. *)
Lemma demoted_not_refused id u (ws : gmap Z WalletCredential) : other_primary id u (demote_credential u <$> ws) = false.
Proof.
  apply not_true_is_false. intros ([i w] & Hin & Hp)%existsb_exists. apply list_elem_of_In, elem_of_map_to_list in Hin. cbn in Hp.
  rewrite !andb_true_iff in Hp. destruct Hp as [[[_ Hu%Z.eqb_eq] Hp] _]. by rewrite (demoted_none _ _ _ _ Hin Hu) in Hp.
Qed.

(** A change of the wallet rows alone. *)
Lemma ok_wallets d ws : wallets_ok (cd_users d) ws -> anchored d -> cred_ok (cd_set_wallets ws d).
Proof. intros Hw []. split; [exact Hw|]. split; assumption. Qed.

Lemma create_ok c now d : cred_ok d -> cred_ok (snd (create_credential c now d)).
Proof.
  intros [Hw Ha]. unfold create_credential. destruct (_ || _) eqn:Ht; [done|]. destruct (present (wc_user_id c) _) eqn:Hu; [|done]. cbn.
  apply orb_false_iff in Ht as [[Hid Had]%orb_false_iff Hp]. apply ok_wallets; [|done].
  apply wallets_ok_insert; cbn; [done|done|by apply present_spec| |].
  - intros j v Hv He. pose proof (existsb_map_false _ _ _ _ Had Hv) as Hf. cbn in Hf. by rewrite He, String.eqb_refl in Hf.
  - intros Hpa j v Hv. rewrite Hpa in Hp. exact (other_primary_false _ _ _ j v Hp Hv).
Qed.

Lemma update_ok c now d : cred_ok d -> cred_ok (snd (update_credential c now d)).
Proof.
  intros [Hw Ha]. unfold update_credential. destruct (cd_wallets d !! wc_id c) as [w|] eqn:Hc; [|done]. destruct (_ && _) eqn:Hp; [done|]. cbn.
  apply ok_wallets; [|done]. pose proof Hw as [Hk Hadr Hpr Hu]. apply wallets_ok_insert; cbn; eauto.
  intros Hpa j v Hv. rewrite Hpa in Hp. exact (other_primary_false _ _ _ j v Hp Hv).
Qed.

Lemma deactivate_ok id now d : cred_ok d -> cred_ok (snd (deactivate_credential id now d)).
Proof.
  intros [Hw Ha]. unfold deactivate_credential. destruct (cd_wallets d !! id) as [w|] eqn:Hc; [|done]. cbn.
  apply ok_wallets; [|done]. pose proof Hw as [Hk Hadr Hpr Hu]. apply wallets_ok_insert; cbn; eauto. by rewrite andb_false_r.
Qed.

Lemma alter_present {A} f k (t : gmap Z A) u : is_Some (alter f k t !! u) <-> is_Some (t !! u).
Proof. destruct (decide (u = k)) as [->|Hne]; [rewrite lookup_alter_eq, fmap_is_Some|rewrite lookup_alter_ne]; done. Qed.

(** What a promotion does. *)
Lemma set_primary_run u id now d r d' :
  set_primary u id now d = (r, d') ->
  (exists e, r = Err e /\ d' = d) \/
  (exists w, r = Ok w /\ d' = d /\ cd_wallets d !! id = Some w /\ wc_user_id w = u /\ wc_is_active w = true /\ wc_is_primary w = true) \/
  (exists w, r = Ok (wc_set_primary true w) /\ cd_wallets d !! id = Some w /\ wc_user_id w = u /\ wc_is_active w = true /\ wc_is_primary w = false /\
     taken u us_wallet_address (Some (wc_address w)) (cd_team d) = false /\
     d' = cd_set_team (td_set_users (alter (us_set_wallet (wc_address w)) u (cd_users d)) (cd_team d))
            (cd_set_wallets (<[id := wc_set_primary true w]> (demote_credential u <$> cd_wallets d)) d)).
Proof.
  unfold set_primary. destruct (cd_wallets d !! id) as [w|] eqn:Hw; [|by intros [= <- <-]; left; eexists].
  destruct (_ && _) eqn:Hg; [|by intros [= <- <-]; left; eexists]. cbn [negb]. apply andb_true_iff in Hg as [Hu%Z.eqb_eq Ha].
  destruct (wc_is_primary w) eqn:Hp; [intros [= <- <-]; right; left; by exists w|]. cbv zeta. rewrite demoted_not_refused.
  destruct (taken _ _ _ _) eqn:Ht; [by intros [= <- <-]; left; eexists|]. intros [= <- <-]. right; right. exists w. split_and!; try done.
  do 2 f_equal. apply map_eq. intros i. rewrite lookup_alter, lookup_insert. case_decide; [|done]. subst i.
  rewrite lookup_fmap, Hw. cbn. unfold demote_credential. by rewrite Hp, andb_false_r.
Qed.

Lemma set_primary_ok u id now d : cred_ok d -> cred_ok (snd (set_primary u id now d)).
Proof.
  intros [Hw Ha]. destruct (set_primary u id now d) as [r d'] eqn:Hr.
  apply set_primary_run in Hr as [(e & _ & ->)|[(w & _ & -> & _)|(w & _ & Hl & Hu & Hact & Hp & _ & ->)]]; [done..|]. cbn [snd].
  split.
  - apply (wallets_ok_users (cd_users d)); [intros v Hv; cbn; by apply alter_present|]. cbn. pose proof Hw as [Hk Hadr Hpr Hus].
    assert (Hdw : (demote_credential u <$> cd_wallets d) !! id = Some w) by (rewrite lookup_fmap, Hl; cbn; unfold demote_credential; by rewrite Hp, andb_false_r).
    apply wallets_ok_insert; cbn; [by apply demoted_ok|eauto|eauto| |].
    + intros j v Hv He. by apply (wo_address _ _ (demoted_ok _ _ u Hw) j id v w).
    + intros _ j v Hv Huv Hpv. rewrite Hu in Huv. rewrite (demoted_none _ _ _ _ Hv Huv) in Hpv. done.
  - destruct Ha as [H1 H2 H3 H4 H5]. split; cbn; unfold cd_users; cbn; intros i x Hx; rewrite ?alter_present; eauto.
Qed.

Lemma take_pending_sub {V} ttl k now (t : Waiting V) i x : snd (take_pending ttl k now t) !! i = Some x -> t !! i = Some x.
Proof.
  unfold take_pending. destruct (t !! k) as [[v c]|]; [|done]. destruct (_ <? _); [|done]. cbn. by intros [_ ?]%lookup_delete_Some.
Qed.

Lemma put_pending_key {V} k (v : V) c t i x : put_pending k v c t !! i = Some x -> i = k \/ t !! i = Some x.
Proof. unfold put_pending. intros [[<- _]|[_ Hx]]%lookup_insert_Some; eauto. Qed.

Lemma sweep_pending_sub {V} ttl now (t : Waiting V) i x : sweep_pending ttl now t !! i = Some x -> t !! i = Some x.
Proof. by intros [? _]%map_lookup_filter_Some. Qed.

(** The tables of challenges. *)
Lemma ok_pending {V A} get set (f : Instant -> Waiting V -> A * Waiting V) now d :
  (forall t, cd_users (set t d) = cd_users d /\ cd_wallets (set t d) = cd_wallets d) ->
  anchored (set (snd (f now (get d))) d) -> cred_ok d -> cred_ok (snd (on_table get set f now d)).
Proof.
  intros Hs Ha [Hw _]. unfold on_table. destruct (f now (get d)) as [a t]. cbn in *. destruct (Hs t) as [Hu Ht].
  split; [by rewrite Hu, Ht|done].
Qed.

(** What goes takes its sessions along. *)
Lemma drop_devices_ok p d : cred_ok d -> cred_ok (drop_devices p d).
Proof.
  intros [Hw [H1 H2 H3 H4 H5]]. split; [exact Hw|]. split; cbn; unfold cd_users in *; eauto.
  - intros i r [Hr _]%map_lookup_filter_Some. eauto.
  - intros i s [Hs Hp]%map_lookup_filter_Some. cbn in Hp. apply present_spec in Hp. split; [by apply (H2 i s)|done].
Qed.

Lemma drop_sessions_ok p d : cred_ok d -> cred_ok (drop_sessions p d).
Proof. intros [Hw [H1 H2 H3 H4 H5]]. split; [exact Hw|]. split; cbn; eauto. intros i s [Hs _]%map_lookup_filter_Some. eauto. Qed.

(** Devices, sessions and passkeys written one at a time. *)
Lemma ok_device d i r : cred_ok d -> is_Some (cd_users d !! dr_user_id r) -> cred_ok (cd_set_devices (<[i := r]> (cd_devices d)) d).
Proof.
  intros [Hw [H1 H2 H3 H4 H5]] Hu. split; [exact Hw|]. split; cbn; eauto.
  - intros j x [[<- <-]|[_ Hx]]%lookup_insert_Some; [done|by apply (H1 j)].
  - intros j s Hs. destruct (H2 j s Hs) as [Hsu Hsd]. split; [done|]. rewrite lookup_insert. by case_decide.
Qed.

Lemma ok_session d i s : cred_ok d -> is_Some (cd_users d !! se_user_id s) -> is_Some (cd_devices d !! se_device_id s) ->
  cred_ok (cd_set_sessions (<[i := s]> (cd_sessions d)) d).
Proof.
  intros [Hw [H1 H2 H3 H4 H5]] Hu Hd. split; [exact Hw|]. split; cbn; eauto.
  intros j x [[<- <-]|[_ Hx]]%lookup_insert_Some; [done|by apply (H2 j)].
Qed.

Lemma ok_passkey d i r : cred_ok d -> is_Some (cd_users d !! pr_user_id r) -> cred_ok (cd_set_passkeys (<[i := r]> (cd_passkeys d)) d).
Proof.
  intros [Hw [H1 H2 H3 H4 H5]] Hu. split; [exact Hw|]. split; cbn; eauto.
  intros j x [[<- <-]|[_ Hx]]%lookup_insert_Some; [done|by apply (H3 j)].
Qed.

Lemma ok_passkeys_sub d t : cred_ok d -> (forall i r, t !! i = Some r -> cd_passkeys d !! i = Some r) -> cred_ok (cd_set_passkeys t d).
Proof. intros [Hw [H1 H2 H3 H4 H5]] Hs. split; [exact Hw|]. split; cbn; eauto. Qed.
End Sound.

Section Runs.
Context `{Runtime} `{AuthTypes}.

(** One statement on a table of challenges. *)
Ltac pending_ok := apply ok_pending; [done| |done]; match goal with Hok : cred_ok _ |- _ => destruct Hok as [_ [Hd1 Hd2 Hd3 Hd4 Hd5]] end;
  split; cbn; eauto; intros i x Hx;
  first [apply take_pending_sub in Hx | apply sweep_pending_sub in Hx | idtac]; eauto.

Lemma challenge_effects_ok op now d :
  match op with
  | OpStoreRegistration _ _ | OpTakeRegistration _ | OpStoreAuthentication _ _ | OpTakeAuthentication _ | OpStoreDiscoverable _ _
  | OpTakeDiscoverable _ | OpStoreChallenge _ _ | OpTakeChallenge _ | OpSweepRegistration | OpSweepAuthentication | OpSweepChallenges
  | OpSweepDiscoverable | OpStoreReauth _ _ _ _ | OpTakeReauth _ => True
  | _ => False
  end -> cred_ok d -> cred_ok (cred_effect op now d).
Proof.
  destruct op; try done; intros _ Hok; cbn [cred_effect]; unfold store_wallet_challenge, take_wallet_challenge, sweep; try pending_ok.
  - unfold of_account. destruct (present k (cd_users d)) eqn:Hp; [|done]. apply present_spec in Hp. pending_ok.
    apply put_pending_key in Hx as [-> |Hx]; eauto.
  - unfold store_wallet_reauth_challenge, of_account. destruct (present k (cd_users d)) eqn:Hp; [|done]. apply present_spec in Hp. pending_ok.
    apply put_pending_key in Hx as [-> |Hx]; eauto.
  - destruct (take_pending _ _ _ _) as [r t] eqn:Ht. cbn in Hx.
    apply (Hd5 i x), (take_pending_sub REAUTH_TTL k now). by rewrite Ht.
Qed.

Lemma effect_ok op now d : cred_ok d -> cred_ok (cred_effect op now d).
Proof.
  intros Hok. pose proof Hok as [Hw [Hd1 Hd2 Hd3 Hd4 Hd5]]. destruct op; try (by apply challenge_effects_ok); cbn [cred_effect].
  - by apply create_ok.
  - by apply update_ok.
  - by apply deactivate_ok.
  - apply ok_wallets; [|by apply Hok]. eapply wallets_ok_sub; [|exact Hw]. by intros i w [_ ?]%lookup_delete_Some.
  - apply ok_wallets; [|by apply Hok]. eapply wallets_ok_sub; [|exact Hw]. by intros i w [? _]%map_lookup_filter_Some.
  - by apply set_primary_ok.
  - unfold insert_device. destruct (present (dv_id _) _); [done|]. destruct (present _ (cd_users d)) eqn:Hp; [|done].
    apply ok_device; [done|]. by apply present_spec.
  - unfold update_device_row. destruct (cd_devices d !! _) as [r|] eqn:Hr; [|done]. apply ok_device; [done|]. cbn. eauto.
  - unfold deactivate_device. destruct (cd_devices d !! _) as [r|] eqn:Hr; [|done]. apply ok_device; [done|]. cbn. eauto.
  - by apply drop_devices_ok.
  - by apply drop_devices_ok.
  - unfold create_session. destruct (inet_in _); [|done]. destruct (present (se_id s) _); [done|]. destruct (_ && _) eqn:Hp; [|done].
    apply andb_true_iff in Hp as [Hu%present_spec Hdv%present_spec]. by apply ok_session.
  - unfold update_session. destruct (inet_in _); [|done]. destruct (cd_sessions d !! _) as [r|] eqn:Hr; [|done].
    apply ok_session; [done|by apply (Hd2 (se_id s) r)..].
  - split; [exact Hw|]. split; cbn; eauto. intros i s [_ Hs]%lookup_delete_Some. eauto.
  - by apply drop_sessions_ok.
  - by apply drop_sessions_ok.
  - by apply drop_sessions_ok.
  - unfold insert_passkey. destruct (present (pk_id _) _); [done|]. destruct (present _ (cd_users d)) eqn:Hp; [|done].
    apply ok_passkey; [done|]. by apply present_spec.
  - unfold update_passkey_row. destruct (cd_passkeys d !! _) as [r|] eqn:Hr; [|done]. apply ok_passkey; [done|]. cbn. eauto.
  - unfold deactivate_passkey. destruct (cd_passkeys d !! _) as [r|] eqn:Hr; [|done]. apply ok_passkey; [done|]. cbn. eauto.
  - apply ok_passkeys_sub; [done|]. by intros i r [_ ?]%lookup_delete_Some.
  - apply ok_passkeys_sub; [done|]. by intros i r [? _]%map_lookup_filter_Some.
Qed.

(** The credential tables stay sound.  However the statements of the login
    service and of the routes interleave, from sound tables every wallet
    address is registered once, no account has two active primary wallets, and
    every credential, device, session and pending challenge of an account
    belongs to one that exists - a session also to a device that does. *)
Theorem credentials_stay_sound ops d : cred_ok d -> cred_ok (cred_run ops d).
Proof.
  intros Hok. induction ops as [|op ops IH] using rev_ind; [done|]. rewrite cred_run_snoc. by apply effect_ok.
Qed.
End Runs.

(** ** What a challenge is answered with

    The slot of an account in one of the two tables of wallet challenges: the
    latest challenge stored, until it is asked for. *)

Inductive WalletTable := LoginTable | ReauthTable.

Section Slots.
Context `{Runtime} `{AuthTypes}.

Definition slot_ttl (t : WalletTable) : Z := match t with LoginTable => CHALLENGE_TTL | ReauthTable => REAUTH_TTL end.
Definition slot_rows (t : WalletTable) (d : CredDb) : Waiting (string * string) :=
  match t with LoginTable => cd_challenges d | ReauthTable => cd_reauth d end.
Definition slot_take (t : WalletTable) (k : Uuid) : CredStatement (option WalletReauthChallenge) :=
  match t with LoginTable => take_wallet_challenge k | ReauthTable => take_wallet_reauth_challenge k end.

Definition slot_step (t : WalletTable) (k : Uuid) (slot : option ((string * string) * Instant)) (op : CredOp) :
    option ((string * string) * Instant) :=
  match t, op with
  | LoginTable, OpStoreChallenge k' c => if k' =? k then Some ((rc_address c, rc_challenge c), pg_timestamp (rc_created_at c)) else slot
  | LoginTable, OpTakeChallenge k' => if k' =? k then None else slot
  | ReauthTable, OpStoreReauth k' address challenge at_ => if k' =? k then Some ((address, challenge), pg_timestamp at_) else slot
  | ReauthTable, OpTakeReauth k' => if k' =? k then None else slot
  | _, _ => slot
  end.
Definition slot_after (t : WalletTable) (k : Uuid) (ops : list (Instant * CredOp)) (d : CredDb) : option ((string * string) * Instant) :=
  foldl (fun s op => slot_step t k s op.2) (slot_rows t d !! k) ops.

(** What of a slot can still be answered. *)
Definition in_time {V} (ttl : Z) (now : Instant) (x : option (V * Instant)) : option (V * Instant) :=
  r ← x; if now - ttl <? r.2 then Some r else None.

Lemma on_table_snd {V A} get set (f : Instant -> Waiting V -> A * Waiting V) now d :
  snd (on_table get set f now d) = set (snd (f now (get d))) d.
Proof. unfold on_table. by destruct (f now (get d)). Qed.

Lemma take_pending_fst {V} ttl k now (t : Waiting V) : fst (take_pending ttl k now t) = in_time ttl now (t !! k).
Proof. unfold take_pending, in_time. destruct (t !! k) as [[v c]|]; [|done]. cbn. by destruct (_ <? _). Qed.

(** A take leaves nothing of its key that could be answered later. *)
Lemma take_pending_rest {V} ttl k i now T (t : Waiting V) : now <= T ->
  in_time ttl T (snd (take_pending ttl k now t) !! i) = if k =? i then None else in_time ttl T (t !! i).
Proof.
  intros Hle. unfold take_pending. destruct (Z.eqb_spec k i) as [-> |Hne].
  - destruct (t !! i) as [[v c]|] eqn:Ht; cbn; [|by rewrite Ht]. destruct (Z.ltb_spec (now - ttl) c); cbn; [by rewrite lookup_delete_eq|].
    rewrite Ht. cbn. by destruct (Z.ltb_spec (T - ttl) c); [lia|].
  - destruct (t !! k) as [[v c]|]; [|done]. destruct (_ <? _); [|done]. cbn. by rewrite lookup_delete_ne.
Qed.

Lemma sweep_pending_rest {V} ttl i now T (t : Waiting V) : now <= T ->
  in_time ttl T (sweep_pending ttl now t !! i) = in_time ttl T (t !! i).
Proof.
  intros Hle. unfold sweep_pending. rewrite map_lookup_filter. destruct (t !! i) as [[v c]|]; [|done]. cbn.
  case_guard as Hg; [done|]. cbn. apply not_false_is_true, Z.ltb_lt in Hg. by destruct (Z.ltb_spec (T - ttl) c); [lia|].
Qed.

Lemma put_pending_rest {V} k i (v : V) c t : put_pending k v c t !! i = if k =? i then Some (v, pg_timestamp c) else t !! i.
Proof. unfold put_pending. rewrite lookup_insert. destruct (Z.eqb_spec k i); by case_decide. Qed.

Lemma snd_mapped {A B C} (f : A -> B) (p : A * C) : (let '(r, t) := p in (f r, t)).2 = p.2.
Proof. by destruct p. Qed.

(** Accounts do not go. *)
Lemma set_primary_users u id now d k : present k (cd_users (snd (set_primary u id now d))) = present k (cd_users d).
Proof.
  destruct (set_primary u id now d) as [r d'] eqn:Hr.
  apply set_primary_run in Hr as [(e & _ & ->)|[(w & _ & -> & _)|(w & _ & _ & _ & _ & _ & _ & ->)]]; [done..|].
  cbn. unfold present. apply bool_decide_ext, alter_present.
Qed.

Ltac open_statements :=
  unfold store_wallet_challenge, take_wallet_challenge, sweep, take_wallet_reauth_challenge, store_wallet_reauth_challenge, of_account,
    create_credential, update_credential, deactivate_credential, insert_device, update_device_row, deactivate_device,
    create_session, update_session, insert_passkey, update_passkey_row, deactivate_passkey.

Lemma effect_users op now d k : present k (cd_users (cred_effect op now d)) = present k (cd_users d).
Proof.
  destruct op; cbn [cred_effect]; try apply set_primary_users; open_statements; rewrite ?on_table_snd; try reflexivity;
    repeat case_match; rewrite ?on_table_snd; done.
Qed.

(** A statement on other rows. *)
Lemma set_primary_slots t u id now d : slot_rows t (snd (set_primary u id now d)) = slot_rows t d.
Proof.
  destruct (set_primary u id now d) as [r d'] eqn:Hr.
  apply set_primary_run in Hr as [(e & _ & ->)|[(w & _ & -> & _)|(w & _ & _ & _ & _ & _ & _ & ->)]]; by destruct t.
Qed.

Lemma effect_slot t k op now T d s :
  now <= T -> present k (cd_users d) = true ->
  in_time (slot_ttl t) T (slot_rows t d !! k) = in_time (slot_ttl t) T s ->
  in_time (slot_ttl t) T (slot_rows t (cred_effect op now d) !! k) = in_time (slot_ttl t) T (slot_step t k s op).
Proof.
  intros Hle Hp Hs.
  assert (Hframe : slot_rows t (cred_effect op now d) = slot_rows t d -> slot_step t k s op = s ->
    in_time (slot_ttl t) T (slot_rows t (cred_effect op now d) !! k) = in_time (slot_ttl t) T (slot_step t k s op)) by by intros -> ->.
  destruct op; cbn [cred_effect] in *; try (apply Hframe; [by apply set_primary_slots|by destruct t]);
    try (apply Hframe; [|by destruct t]; open_statements; rewrite ?on_table_snd; try (by destruct t);
         repeat case_match; rewrite ?on_table_snd; by destruct t).
  all: unfold store_wallet_challenge, take_wallet_challenge, sweep, take_wallet_reauth_challenge, store_wallet_reauth_challenge in *.
  all: rewrite ?on_table_snd in *; destruct t; try (by apply Hframe); cbn -[in_time] in *; rewrite ?snd_mapped.
  - rewrite put_pending_rest. by destruct (k0 =? k).
  - rewrite take_pending_rest by done. by destruct (k0 =? k).
  - by rewrite sweep_pending_rest.
  - unfold of_account. destruct (present k0 _); [by rewrite on_table_snd|done].
  - unfold of_account. destruct (Z.eqb_spec k0 k) as [-> |Hne].
    + rewrite Hp, on_table_snd. cbn -[in_time]. by rewrite put_pending_rest, Z.eqb_refl.
    + destruct (present k0 _); [|done]. rewrite on_table_snd. cbn -[in_time]. by rewrite put_pending_rest, (proj2 (Z.eqb_neq _ _) Hne).
  - rewrite take_pending_rest by done. by destruct (k0 =? k).
Qed.

Lemma slot_snoc t k ops op d : slot_after t k (ops ++ [op]) d = slot_step t k (slot_after t k ops d) op.2.
Proof. unfold slot_after. by rewrite foldl_snoc. Qed.

Lemma run_slot t k ops T d :
  Forall (fun op => op.1 <= T) ops -> present k (cd_users d) = true ->
  present k (cd_users (cred_run ops d)) = true /\
  in_time (slot_ttl t) T (slot_rows t (cred_run ops d) !! k) = in_time (slot_ttl t) T (slot_after t k ops d).
Proof.
  intros Hops Hp. induction ops as [|op ops IH] using rev_ind; [done|]. apply Forall_app in Hops as [Hops Hop].
  inversion Hop; subst. destruct (IH Hops) as [Hp' IH']. rewrite cred_run_snoc, slot_snoc. split; [by rewrite effect_users|].
  by apply effect_slot.
Qed.

(** C29. A challenge is answered at most once, with the latest one, and in time.
    However the statements on credentials interleave, asking for the wallet
    challenge of an account - to log in, or to confirm a change of wallet -
    answers with the latest one stored in that table for that account since it
    was last asked for, if it was stored less than ten, respectively five
    minutes ago, and otherwise with nothing; what the other table holds, or
    holds for other accounts, does not matter. *)
Theorem challenge_answered_once t k ops now d :
  Forall (fun op => op.1 <= now) ops -> present k (cd_users d) = true ->
  fst (slot_take t k now (cred_run ops d)) = Ok (row_to_challenge <$> in_time (slot_ttl t) now (slot_after t k ops d)).
Proof.
  intros Hops Hp. destruct (run_slot t k ops now d Hops Hp) as [_ Hs]. rewrite <- Hs.
  destruct t; cbn -[in_time]; unfold take_wallet_challenge, take_wallet_reauth_challenge, on_table; rewrite <- take_pending_fst;
    by destruct (take_pending _ _ _ _) as [r t'].
Qed.
End Slots.

(** ** Changing the wallet an account logs in by *)

(** What the account's own promotion of a wallet does to the tables. *)
Record Promoted (u id : Uuid) (w : WalletCredential) (d d' : CredDb) : Prop := {
  pm_target : cd_wallets d' !! id = Some (wc_set_primary true w);
  pm_only j v : cd_wallets d' !! j = Some v -> wc_user_id v = u -> wc_is_primary v = true -> j = id;
  pm_rows j v : cd_wallets d !! j = Some v -> exists b, cd_wallets d' !! j = Some (wc_set_primary b v) /\ (wc_user_id v <> u -> b = wc_is_primary v);
  pm_new j : cd_wallets d !! j = None -> cd_wallets d' !! j = None;
  pm_user : cd_users d' !! u = us_set_wallet (wc_address w) <$> cd_users d !! u;
  pm_users v : v <> u -> cd_users d' !! v = cd_users d !! v;
  pm_login : forall v r, cd_users d !! v = Some r -> us_wallet_address r = Some (wc_address w) -> v = u
}.

Section Promotion.
Context `{Runtime} `{AuthHost} `{WalletCrypto}.

Lemma wc_set_primary_same w : wc_set_primary (wc_is_primary w) w = w.
Proof. by destruct w. Qed.

Lemma taken_false u col v d i r : taken u col (Some v) d = false -> td_users d !! i = Some r -> col r = Some v -> i = u.
Proof.
  intros Ht Hr Hv. pose proof (existsb_map_false _ _ _ _ Ht Hr) as Hf. cbn in Hf. rewrite bool_decide_eq_true_2, andb_true_r in Hf by done.
  by destruct (Z.eqb_spec i u).
Qed.

Lemma set_primary_promotes u id now d r d' : set_primary u id now d = (r, d') ->
  cd_wallets d' = cd_wallets d /\ cd_team d' = cd_team d \/
  exists w, cd_wallets d !! id = Some w /\ wc_user_id w = u /\ wc_is_active w = true /\ r = Ok (wc_set_primary true w) /\ Promoted u id w d d'.
Proof.
  intros [(e & _ & ->)|[(w & _ & -> & _)|(w & -> & Hl & Hu & Ha & Hp & Ht & ->)]]%set_primary_run; [by left..|].
  right. exists w. split_and!; try done. split; cbn.
  - apply lookup_insert_eq.
  - intros j v [[<- _]|[_ Hv]]%lookup_insert_Some Hvu Hvp; [done|]. by rewrite (demoted_none _ _ _ _ Hv Hvu) in Hvp.
  - intros j v Hv. rewrite lookup_insert. case_decide as Hj.
    + subst j. assert (v = w) as -> by congruence. by exists true.
    + rewrite lookup_fmap, Hv. cbn. unfold demote_credential. destruct (Z.eqb_spec (wc_user_id v) u) as [Hvu|Hvu].
      * destruct (wc_is_primary v) eqn:Hvp; cbn; [by exists false|]. exists (wc_is_primary v). by rewrite wc_set_primary_same.
      * exists (wc_is_primary v). by rewrite wc_set_primary_same.
  - intros j Hn. rewrite lookup_insert_ne by congruence. by rewrite lookup_fmap, Hn.
  - apply lookup_alter_eq.
  - intros v Hv. by apply lookup_alter_ne.
  - intros v r Hr Hv. by apply (taken_false _ _ _ _ _ _ Ht Hr).
Qed.

(** What one statement can do. *)
Lemma tdb_cases {A} (stmt : CredStatement A) (o : Vault) :
  of_ticks (snd (tdb stmt o)) = S (of_ticks o) /\ of_draws (snd (tdb stmt o)) = of_draws o /\
  (fst (tdb stmt o) = Err Lost /\ of_db (snd (tdb stmt o)) = of_db o \/
   (fst (tdb stmt o) = fst (stmt (clock (of_ticks o)) (of_db o)) \/ fst (tdb stmt o) = Err Lost) /\
   of_db (snd (tdb stmt o)) = snd (stmt (clock (of_ticks o)) (of_db o))).
Proof. unfold tdb. destruct (calls _); cbn; [|tauto..]. destruct (stmt _ _); cbn; tauto. Qed.

Lemma own_credential_run user id (o : Vault) r o' : own_credential user id o = (r, o') ->
  of_db o' = of_db o /\ of_ticks o' = S (of_ticks o) /\ of_draws o' = of_draws o /\
  (forall w, r = Ok w -> cd_wallets (of_db o) !! id = Some w /\ wc_user_id w = ui_id user /\ wc_is_active w = true).
Proof.
  unfold own_credential, fails_500, st_map_err, st_bind. destruct (tdb_cases (get_credential id) o) as (Ht & Hd & Hc).
  destruct (tdb (get_credential id) o) as [[x|e] o1]; cbn in *.
  - assert (Hx : x = cd_wallets (of_db o) !! id) by (by destruct Hc as [[? _]|[[[= ->]|?] _]]).
    assert (Hdb : of_db o1 = of_db o) by (by destruct Hc as [[_ ?]|[_ ?]]).
    destruct x as [w|]; cbn; [|by intros [= <- <-]]. destruct (_ && _) eqn:Hg; cbn; intros [= <- <-]; [|done].
    apply andb_true_iff in Hg as [Hu%Z.eqb_eq Ha]. split_and!; [done..|]. by intros w' [= <-].
  - intros [= <- <-]. split_and!; try done. by destruct Hc as [[_ ?]|[_ ?]].
Qed.

Lemma take_reauth_run u now d :
  fst (take_wallet_reauth_challenge u now d) = Ok (row_to_challenge <$> in_time REAUTH_TTL now (cd_reauth d !! u)) /\
  snd (take_wallet_reauth_challenge u now d) = cd_set_reauth (snd (take_pending REAUTH_TTL u now (cd_reauth d))) d.
Proof.
  unfold take_wallet_reauth_challenge, on_table. rewrite <- take_pending_fst. by destruct (take_pending _ _ _ _) as [r t].
Qed.

(** A challenge that was answered with is gone. *)
Lemma take_pending_gone {V} ttl k now (t : Waiting V) x : in_time ttl now (t !! k) = Some x -> snd (take_pending ttl k now t) = delete k t.
Proof. unfold take_pending, in_time. destruct (t !! k) as [[v c]|]; [|done]. cbn. by destruct (_ <? _). Qed.

(** The rest of the route, once the challenge was taken. *)
Definition check_and_promote (user : UserInfo) (id : Uuid) (signature : string) (wallet : WalletCredential) (challenge : WalletReauthChallenge) :
    St Vault Z WalletCredential :=
  if negb (eq_ignore_ascii_case (rc_address challenge) (wc_address wallet)) then st_throw 401
  else if negb (verify_wallet_signature
            (wallet_reauth_challenge_message (rc_challenge challenge) (rc_address challenge) (rc_created_at challenge)) signature
            (rc_address challenge)) then st_throw 401
  else st_map_err (fun e => match e with WalletNotFound => 404 | _ => 500 end) (tdb (set_primary (ui_id user) id)).

Lemma check_and_promote_run user id signature w c (o : Vault) :
  let d := of_db o in
  let d' := of_db (snd (check_and_promote user id signature w c o)) in
  cd_wallets d' = cd_wallets d /\ cd_team d' = cd_team d \/
  eq_ignore_ascii_case (rc_address c) (wc_address w) = true /\
  verify_wallet_signature (wallet_reauth_challenge_message (rc_challenge c) (rc_address c) (rc_created_at c)) signature (rc_address c) = true /\
  exists w', cd_wallets d !! id = Some w' /\ cd_reauth d' = cd_reauth d /\ Promoted (ui_id user) id w' d d'.
Proof.
  cbv zeta. unfold check_and_promote. destruct (eq_ignore_ascii_case _ _); [|by left]. destruct (verify_wallet_signature _ _ _); [|by left].
  cbn [negb]. unfold st_map_err. destruct (tdb_cases (set_primary (ui_id user) id) o) as (_ & _ & Hc).
  destruct (tdb (set_primary (ui_id user) id) o) as [r o']. assert (Hs : of_db o' = of_db o \/ of_db o' = snd (set_primary (ui_id user) id (clock (of_ticks o)) (of_db o)))
    by (cbn in Hc; tauto).
  assert (Ho : of_db (snd (match r with Ok a => (Ok a, o') | Err e => (Err (match e with WalletNotFound => 404 | _ => 500 end), o') end)) = of_db o') by by destruct r.
  rewrite Ho. clear Ho Hc. destruct Hs as [-> | ->]; [by left|].
  destruct (set_primary (ui_id user) id _ (of_db o)) as [r' d'] eqn:Hp. cbn [snd]. pose proof Hp as Hrun.
  apply set_primary_promotes in Hp as [?|(w' & Hw' & _ & _ & _ & Hpm)]; [by left|]. right. split_and!; [done..|]. exists w'. split_and!; try done.
  by apply set_primary_run in Hrun as [(e & _ & ->)|[(v & _ & -> & _)|(v & _ & _ & _ & _ & _ & _ & ->)]].
Qed.

(** C28. The wallet an account logs in by changes only with proof.  Whatever
    requests fail, asking to make a credential primary changes no credential
    and no account, or: the credential is an active one of the caller; a
    challenge for its address was pending for the caller, not five minutes old;
    the signature is over exactly that challenge and by that address; the
    challenge is gone; and the credential is now the only primary one of the
    account, the account logs in by its address, which no other account does,
    and nothing else changed. *)
Theorem primary_changes_with_proof user id signature o :
  let u := ui_id user in
  let d := of_db o in
  let d' := of_db (snd (set_primary_wallet_credential user id signature o)) in
  cd_wallets d' = cd_wallets d /\ cd_team d' = cd_team d \/
  exists w c, cd_wallets d !! id = Some w /\ wc_user_id w = u /\ wc_is_active w = true /\
    in_time REAUTH_TTL (clock (S (of_ticks o))) (cd_reauth d !! u) = Some (rc_address c, rc_challenge c, rc_created_at c) /\
    eq_ignore_ascii_case (rc_address c) (wc_address w) = true /\
    verify_wallet_signature (wallet_reauth_challenge_message (rc_challenge c) (rc_address c) (rc_created_at c)) signature (rc_address c) = true /\
    cd_reauth d' = delete u (cd_reauth d) /\ Promoted u id w d d'.
Proof.
  cbv zeta. destruct (set_primary_wallet_credential user id signature o) as [r o'] eqn:Hrun. cbn [snd]. revert Hrun.
  unfold set_primary_wallet_credential, st_bind at 1. destruct (own_credential user id o) as [r1 o1] eqn:Ho.
  apply own_credential_run in Ho as (Hd1 & Ht1 & _ & Hw). destruct r1 as [w|e]; [|intros [= _ <-]; left; by rewrite Hd1].
  destruct (Hw w eq_refl) as (Hl & Hu & Ha). unfold fails_500, st_map_err at 1, st_bind.
  destruct (tdb_cases (take_wallet_reauth_challenge (ui_id user)) o1) as (_ & _ & Hc).
  destruct (tdb (take_wallet_reauth_challenge (ui_id user)) o1) as [r2 o2]. cbn [fst snd] in Hc. rewrite Hd1, Ht1 in Hc.
  destruct (take_reauth_run (ui_id user) (clock (S (of_ticks o))) (of_db o)) as [Hf Hsn]. rewrite Hf, Hsn in Hc.
  assert (Hsame : cd_wallets (of_db o2) = cd_wallets (of_db o) /\ cd_team (of_db o2) = cd_team (of_db o))
    by (by destruct Hc as [[_ ->]|[_ ->]]).
  destruct r2 as [x|e]; [|intros [= _ <-]; by left]. destruct Hc as [[[=] _]|[[[= Hx]|[=]] Hdb]].
  destruct x as [c|]; [|intros [= _ <-]; by left]. cbn [ok_or st_ret].
  intros Hrun. change (check_and_promote user id signature w c o2 = (r, o')) in Hrun.
  pose proof (check_and_promote_run user id signature w c o2) as Hcp. cbv zeta in Hcp. rewrite Hrun in Hcp. cbn [snd] in Hcp.
  destruct Hsame as [Hsw Hst]. destruct Hcp as [[-> ->]|(He & Hv & w' & Hw' & Hr & Hpm)]; [by left|]. right.
  rewrite Hsw in Hw'. assert (w' = w) as -> by congruence.
  destruct (in_time REAUTH_TTL _ _) as [[[a ch] at_]|] eqn:Hin; [|done]. cbn in Hx. injection Hx as ->. exists w, (row_to_challenge (a, ch, at_)).
  split_and!; try done.
  - rewrite Hr, Hdb. cbn. exact (take_pending_gone _ _ _ _ _ Hin).
  - destruct Hpm as [P1 P2 P3 P4 P5 P6 P7]. unfold cd_users in *. rewrite Hsw in P3, P4. rewrite Hst in P5, P6, P7. split; done.
Qed.
End Promotion.

(** ** The owner of a wallet who signs what is shown *)

Section Honest.
Context `{Runtime} `{AuthHost} `{WalletCrypto} `{!WalletCryptoLaws} (Hcalls : forall n, calls n = Answered).

Lemma message_inj c a t t' : wallet_reauth_challenge_message c a t = wallet_reauth_challenge_message c a t' -> t = t'.
Proof.
  unfold wallet_reauth_challenge_message. intros He. repeat apply (inj (String.append _)) in He.
  by apply string_app_inj_r, rfc3339_inj in He.
Qed.

Lemma tdb_answered {A} (stmt : CredStatement A) (o : Vault) :
  tdb stmt o = (fst (stmt (clock (of_ticks o)) (of_db o)),
    mkOffice (snd (stmt (clock (of_ticks o)) (of_db o))) (S (of_ticks o)) (of_draws o) (of_mail o)).
Proof. unfold tdb. rewrite Hcalls. by destruct (stmt _ _). Qed.

Lemma own_credential_answered user id (o : Vault) w :
  cd_wallets (of_db o) !! id = Some w -> wc_user_id w = ui_id user -> wc_is_active w = true ->
  own_credential user id o = (Ok w, mkOffice (of_db o) (S (of_ticks o)) (of_draws o) (of_mail o)).
Proof.
  intros Hw Hu Ha. unfold own_credential, fails_500, st_map_err, st_bind. rewrite tdb_answered. cbn. rewrite Hw. cbn.
  by rewrite Hu, Z.eqb_refl, Ha.
Qed.

(** A challenge that was handed out is on file, to the microsecond. *)
Lemma challenge_issued user id (o : Vault) m ttl o1 :
  create_wallet_reauth_challenge user id o = (Ok (m, ttl), o1) ->
  exists w c, cd_wallets (of_db o) !! id = Some w /\ wc_user_id w = ui_id user /\ wc_is_active w = true /\
    let at_ := clock (S (of_ticks o)) in
    m = wallet_reauth_challenge_message c (wc_address w) at_ /\
    cd_reauth (of_db o1) !! ui_id user = Some (wc_address w, c, pg_timestamp at_) /\
    cd_wallets (of_db o1) = cd_wallets (of_db o) /\ cd_team (of_db o1) = cd_team (of_db o).
Proof.
  unfold create_wallet_reauth_challenge, st_bind at 1. destruct (own_credential user id o) as [[w|e] o2] eqn:Ho; [|done].
  apply own_credential_run in Ho as (Hd & Ht & _ & Hw). destruct (Hw w eq_refl) as (Hl & Hu & Ha).
  unfold st_bind, draw_segment, of_now, fails_500, st_map_err. rewrite tdb_answered. cbn [of_db of_ticks of_draws of_mail of_tick].
  rewrite Hd, Ht. unfold store_wallet_reauth_challenge, of_account. destruct (present _ _); [|done]. intros [= <- _ <-].
  exists w, (random_hex (of_draws o2) 32). split_and!; try done. apply lookup_insert_eq.
Qed.

Lemma set_primary_answer u id now d w :
  cd_wallets d !! id = Some w -> wc_user_id w = u -> wc_is_active w = true ->
  taken u us_wallet_address (Some (wc_address w)) (cd_team d) = false -> fst (set_primary u id now d) = Ok (wc_set_primary true w).
Proof.
  intros Hw Hu Ha Ht. unfold set_primary. rewrite Hw, Hu, Z.eqb_refl, Ha. cbn [andb negb]. destruct (wc_is_primary w) eqn:Hp.
  - cbn. f_equal. rewrite <- (wc_set_primary_same w) at 1. by rewrite Hp.
  - cbv zeta. by rewrite demoted_not_refused, Ht.
Qed.

Lemma eq_ignore_refl a : eq_ignore_ascii_case a a = true.
Proof. apply String.eqb_refl. Qed.

(** What the route answers, with a challenge for the wallet on file. *)
Lemma promotion_answer user id signature (o : Vault) w c at_ :
  cd_wallets (of_db o) !! id = Some w -> wc_user_id w = ui_id user -> wc_is_active w = true ->
  cd_reauth (of_db o) !! ui_id user = Some (wc_address w, c, at_) -> clock (S (of_ticks o)) - REAUTH_TTL < at_ ->
  taken (ui_id user) us_wallet_address (Some (wc_address w)) (cd_team (of_db o)) = false ->
  fst (set_primary_wallet_credential user id signature o) =
    if verify_wallet_signature (wallet_reauth_challenge_message c (wc_address w) at_) signature (wc_address w)
    then Ok (wc_set_primary true w) else Err 401.
Proof.
  intros Hw Hu Ha Hr Hf Ht. unfold set_primary_wallet_credential, st_bind at 1. rewrite (own_credential_answered user id o w Hw Hu Ha).
  unfold fails_500, st_map_err at 1, st_bind. rewrite tdb_answered. cbn [of_db of_ticks of_draws of_mail].
  destruct (take_reauth_run (ui_id user) (clock (S (of_ticks o))) (of_db o)) as [-> ->]. rewrite Hr. unfold in_time. cbn [mbind option_bind snd].
  rewrite (proj2 (Z.ltb_lt _ _) Hf). cbn [fmap option_fmap option_map ok_or st_ret row_to_challenge rc_address rc_challenge rc_created_at fst snd]. rewrite eq_ignore_refl.
  cbn [negb]. destruct (verify_wallet_signature _ _ _); [|done]. cbn [negb]. unfold st_map_err. rewrite tdb_answered.
  cbn [of_db of_ticks of_draws of_mail]. by rewrite (set_primary_answer _ _ _ _ w).
Qed.

(** C30. Whoever signs what was shown is believed if the clock stood at a whole
    microsecond.  While the database answers, let an account be given a message
    to sign for one of its active wallets whose address no other account logs
    in by, and answer within five minutes with a signature that the address
    made over that message and no other: the wallet becomes primary if the
    challenge was issued at a whole microsecond; otherwise the answer is 401,
    since the stored instant, and so the message that is checked, is not the
    one that was shown. *)
Theorem promotion_needs_whole_microseconds user id o m ttl o1 w signature :
  create_wallet_reauth_challenge user id o = (Ok (m, ttl), o1) ->
  cd_wallets (of_db o) !! id = Some w ->
  taken (ui_id user) us_wallet_address (Some (wc_address w)) (cd_team (of_db o)) = false ->
  (forall m', verify_wallet_signature m' signature (wc_address w) = true <-> m' = m) ->
  clock (S (of_ticks o1)) - REAUTH_TTL < pg_timestamp (clock (S (of_ticks o))) ->
  fst (set_primary_wallet_credential user id signature o1) =
    if clock (S (of_ticks o)) mod 1000 =? 0 then Ok (wc_set_primary true w) else Err 401.
Proof.
  intros (w' & c & Hw' & Hu & Ha & Hm & Hr & Hws & Hts)%challenge_issued Hw Ht Hsig Hf. assert (w' = w) as -> by congruence.
  rewrite (promotion_answer user id signature o1 w c _) by (try done; congruence). subst m.
  assert (Hpg : pg_timestamp (clock (S (of_ticks o))) = clock (S (of_ticks o)) <-> clock (S (of_ticks o)) mod 1000 = 0)
    by (unfold pg_timestamp; pose proof (Z.div_mod (clock (S (of_ticks o))) 1000 ltac:(done)); lia).
  destruct (Z.eqb_spec (clock (S (of_ticks o)) mod 1000) 0) as [Hz|Hz].
  - by rewrite (proj2 (Hsig _)) by by rewrite (proj2 Hpg Hz).
  - destruct (verify_wallet_signature _ _ _) eqn:Hv; [|done]. apply Hsig, message_inj in Hv. tauto.
Qed.
End Honest.
