(* ===== verification/LiveFeed.v ===== *)
(** * Live updates

    [server/src/api/ws.rs] and the socket of [server/src/api/checkout.rs]: status
    updates are published to one channel per store, per invoice and for the
    administrators; a socket listens to the channels of the stores its user may
    see, and decides for every update, from the database, whether to send it.

    A socket is a machine.  Everything it waits for is an [Action]: a reply of
    the session service or the database, a branch of its [select!], a listener
    task that receives or hands over, a frame that was taken or not.  So is
    what goes on around it: tables and sessions change, updates are published,
    other sockets come and go.  [act] is the step, [None] when it is not
    possible in that state.  Writing an update as JSON does not fail. *)

From stdpp Require Import gmap strings list.
From Stdlib Require Import ZArith Lia.
From S2P Require Import Prelude Events Network Decimal LiveWatch Database Services ApiKeys ApiAuth Office Teams Reading.

#[local] Open Scope Z_scope.

(** ** Channels *)

(** A [broadcast] channel: what was sent, and where each receiver is. *)
Record Channel := mkChannel { ch_sent : list StatusUpdate; ch_receivers : gmap nat nat }.

Definition ch_new : Channel := mkChannel [] ∅.
Definition ch_live (ch : Channel) : bool := negb (bool_decide (ch_receivers ch = ∅)).
Definition ch_join (rid : nat) (ch : Channel) : Channel :=
  mkChannel (ch_sent ch) (<[rid := length (ch_sent ch)]> (ch_receivers ch)).
Definition ch_leave (rid : nat) (ch : Channel) : Channel := mkChannel (ch_sent ch) (delete rid (ch_receivers ch)).
Definition ch_push (u : StatusUpdate) (ch : Channel) : Channel := mkChannel (ch_sent ch ++ [u]) (ch_receivers ch).
Definition ch_move (rid next : nat) (ch : Channel) : Channel := mkChannel (ch_sent ch) (<[rid := next]> (ch_receivers ch)).

Section Channels.
Context {K : Type} `{Countable K}.

(** [Channels::subscribe] *)
Definition channel_subscribe (rid : nat) (key : K) (map : gmap K Channel) : gmap K Channel :=
  let map := filter (fun kc => ch_live kc.2 = true) map in
  <[key := ch_join rid (default ch_new (map !! key))]> map.

(** [Channels::publish] *)
Definition publish (key : K) (u : StatusUpdate) (map : gmap K Channel) : gmap K Channel :=
  match map !! key with
  | Some tx => if ch_live tx then <[key := ch_push u tx]> map else delete key map
  | None => map
  end.
End Channels.

(** [broadcast::Receiver::recv]: the ring keeps the last [ring] updates. *)
Inductive Recv :=
| Update (u : StatusUpdate) (next : nat)
| Lagged
| Empty
| ClosedChannel.

Definition recv (ring rid : nat) (c : option Channel) : Recv :=
  match c with
  | None => ClosedChannel
  | Some ch =>
      match ch_receivers ch !! rid with
      | None => ClosedChannel
      | Some next =>
          if (next + ring <? length (ch_sent ch))%nat then Lagged
          else match ch_sent ch !! next with Some u => Update u (S next) | None => Empty end
      end
  end.

(** [Topic] *)
Inductive Topic := AdminTopic | StoreTopic (id : Uuid).

#[export] Instance topic_eq_dec : EqDecision Topic.
Proof. solve_decision. Defined.
#[export] Instance topic_countable : Countable Topic.
Proof.
  refine (inj_countable' (fun t => match t with AdminTopic => None | StoreTopic id => Some id end)
    (fun o => match o with None => AdminTopic | Some id => StoreTopic id end) _).
  by intros [].
Defined.

(** [WsBroadcast] *)
Record WsBroadcast := mkWsBroadcast {
  wb_stores : gmap Z Channel;
  wb_invoices : gmap string Channel;
  wb_admins : gmap unit Channel;
  wb_next : nat
}.

Definition update_invoice_id (u : StatusUpdate) : string :=
  match u with InvoiceStatusUpdate invoice_id _ => invoice_id | PaymentUpdate _ invoice_id _ _ => invoice_id end.

(** [WsBroadcast::send] *)
Definition broadcast_send (store_id : Uuid) (u : StatusUpdate) (b : WsBroadcast) : WsBroadcast :=
  mkWsBroadcast (publish store_id u (wb_stores b)) (publish (update_invoice_id u) u (wb_invoices b)) (publish tt u (wb_admins b)) (wb_next b).

(** [subscribe_topic], [subscribe_store]: the receiver is numbered. *)
Definition subscribe_topic (t : Topic) (b : WsBroadcast) : nat * WsBroadcast :=
  let rid := wb_next b in
  (rid, match t with
        | AdminTopic => mkWsBroadcast (wb_stores b) (wb_invoices b) (channel_subscribe rid tt (wb_admins b)) (S rid)
        | StoreTopic id => mkWsBroadcast (channel_subscribe rid id (wb_stores b)) (wb_invoices b) (wb_admins b) (S rid)
        end).

(** [subscribe_invoice] *)
Definition subscribe_invoice (invoice_id : string) (b : WsBroadcast) : nat * WsBroadcast :=
  let rid := wb_next b in
  (rid, mkWsBroadcast (wb_stores b) (channel_subscribe rid invoice_id (wb_invoices b)) (wb_admins b) (S rid)).

(** The channel of a topic, and a change of it. *)
Definition channel_of (t : Topic) (b : WsBroadcast) : option Channel :=
  match t with AdminTopic => wb_admins b !! tt | StoreTopic id => wb_stores b !! id end.
Definition on_channel (t : Topic) (f : Channel -> Channel) (b : WsBroadcast) : WsBroadcast :=
  match t with
  | AdminTopic => mkWsBroadcast (wb_stores b) (wb_invoices b) (alter f tt (wb_admins b)) (wb_next b)
  | StoreTopic id => mkWsBroadcast (alter f id (wb_stores b)) (wb_invoices b) (wb_admins b) (wb_next b)
  end.

(** ** A socket *)

(** [Entitlement] *)
Abbreviation Entitlement := (gset Topic).

(** What a listener task of [sync_listeners] is doing: waiting for an update,
    holding one until there is room, or done. *)
Inductive ListenerState := Idle | Holding (u : StatusUpdate) | Ended.
Record Listener := mkListener { ln_rid : nat; ln_state : ListenerState }.

(** What a re-validation is for. *)
Inductive Purpose := ForStart | ForUpdate (t : Topic) (u : StatusUpdate) | ForTick.

Inductive Frame := ConnectedFrame | PingFrame | UpdateFrame (t : Topic) (u : StatusUpdate).

(** Where the task of the socket is. *)
Inductive SocketPhase :=
| Validating (p : Purpose)
| ReadingUser (user_id : Uuid) (p : Purpose)
| ReadingStores (user_id : Uuid) (p : Purpose)
| Selecting
| Sending (f : Frame)
| Closed.

(** [sk_delivered]: the updates the client took, with the topic they came by. *)
Record Socket := mkSocket {
  sk_session : Uuid;
  sk_phase : SocketPhase;
  sk_listeners : gmap Topic Listener;
  sk_queue : list (Topic * StatusUpdate);
  sk_lagged : bool;
  sk_delivered : list (Topic * StatusUpdate)
}.

Definition sk_in (phase : SocketPhase) (s : Socket) : Socket :=
  mkSocket (sk_session s) phase (sk_listeners s) (sk_queue s) (sk_lagged s) (sk_delivered s).

(** The accounts, the sessions that are valid, the channels, and the socket. *)
Record FeedWorld := mkFeedWorld {
  wo_team : TeamDb;
  wo_sessions : gmap Z Uuid;
  wo_broadcast : WsBroadcast;
  wo_socket : Socket
}.

Definition wo_with (b : WsBroadcast) (s : Socket) (w : FeedWorld) : FeedWorld := mkFeedWorld (wo_team w) (wo_sessions w) b s.

(** [drop] of a listener: its receiver goes with it. *)
Definition drop_listener (b : WsBroadcast) (tl : Topic * Listener) : WsBroadcast := on_channel tl.1 (ch_leave (ln_rid tl.2)) b.
Definition drop_listeners (ls : list (Topic * Listener)) (b : WsBroadcast) : WsBroadcast := foldl drop_listener b ls.

(** One turn of the loop of [sync_listeners] *)
Definition start_listener (bl : WsBroadcast * gmap Topic Listener) (t : Topic) : WsBroadcast * gmap Topic Listener :=
  let '(b, listeners) := bl in
  match listeners !! t with
  | Some _ => (b, listeners)
  | None => let '(rid, b) := subscribe_topic t b in (b, <[t := mkListener rid Idle]> listeners)
  end.

(** [sync_listeners] *)
Definition sync_listeners (e : Entitlement) (w : FeedWorld) : FeedWorld :=
  let s := wo_socket w in
  let kept := filter (fun tl => tl.1 ∈ e) (sk_listeners s) in
  let b := drop_listeners (map_to_list (filter (fun tl => tl.1 ∉ e) (sk_listeners s))) (wo_broadcast w) in
  let '(b, listeners) := foldl start_listener (b, kept) (elements e) in
  wo_with b (mkSocket (sk_session s) (sk_phase s) listeners (sk_queue s) (sk_lagged s) (sk_delivered s)) w.

(** The end of the task: its listeners and what was queued go with it. *)
Definition close_socket (w : FeedWorld) : FeedWorld :=
  let s := wo_socket w in
  wo_with (drop_listeners (map_to_list (sk_listeners s)) (wo_broadcast w))
    (mkSocket (sk_session s) Closed ∅ [] (sk_lagged s) (sk_delivered s)) w.

Definition in_phase (phase : SocketPhase) (w : FeedWorld) : FeedWorld := wo_with (wo_broadcast w) (sk_in phase (wo_socket w)) w.

(** What follows a re-validation that answered with [Some(entitlement)]. *)
Definition revalidated (p : Purpose) (e : Entitlement) (w : FeedWorld) : FeedWorld :=
  let w := sync_listeners e w in
  match p with
  | ForStart => in_phase (Sending ConnectedFrame) w
  | ForUpdate t u => if bool_decide (t ∈ e) then in_phase (Sending (UpdateFrame t u)) w else in_phase Selecting w
  | ForTick => in_phase Selecting w
  end.

(** [entitlement_of], once the memberships of a user who is no administrator
    were read: the [StoreScope::Membership] of [verify_store_access_for_query] *)
Definition membership_topics (user_id : Uuid) (d : TeamDb) : Entitlement :=
  list_to_set (StoreTopic <$> ((fun kr => kr.1.2) <$> List.filter (fun kr => kr.1.1 =? user_id) (map_to_list (td_user_stores d)))).

Definition QUEUE_CAPACITY : nat := 256.

(** ** Steps *)

Inductive Action :=
(* around the socket *)
| TablesChange (d : TeamDb)
| SessionsChange (m : gmap Z Uuid)
| Publish (store_id : Uuid) (u : StatusUpdate)
| OtherJoins (t : Topic)
| OtherLeaves (t : Topic) (rid : nat)
| CheckoutJoins (invoice_id : string)
(* the listener tasks *)
| ListenerRecv (t : Topic)
| ListenerPush (t : Topic)
(* the replies a re-validation waits for; [false] is an error *)
| SessionReply (ok : bool)
| UserReply (ok : bool)
| StoresReply (ok : bool)
(* the branches of [select!] *)
| PickUpdate
| PickLagged
| PickKeepalive
| PickTick
| PickIncoming (ends : bool)
(* whether [send_within] got the frame out in time *)
| FrameSent (ok : bool).

Section Act.
(** The size of a channel's ring: the capacity, rounded up to a power of two. *)
Context (ring : nat).

Definition set_listener (t : Topic) (l : Listener) (s : Socket) : Socket :=
  mkSocket (sk_session s) (sk_phase s) (<[t := l]> (sk_listeners s)) (sk_queue s) (sk_lagged s) (sk_delivered s).
Definition raise_lagged (s : Socket) : Socket :=
  mkSocket (sk_session s) (sk_phase s) (sk_listeners s) (sk_queue s) true (sk_delivered s).
Definition set_outgoing (q : list (Topic * StatusUpdate)) (s : Socket) : Socket :=
  mkSocket (sk_session s) (sk_phase s) (sk_listeners s) q (sk_lagged s) (sk_delivered s).
Definition add_delivered (x : Topic * StatusUpdate) (s : Socket) : Socket :=
  mkSocket (sk_session s) (sk_phase s) (sk_listeners s) (sk_queue s) (sk_lagged s) (sk_delivered s ++ [x]).

(** The loop of a listener task, up to where it waits next. *)
Definition listener_recv (t : Topic) (w : FeedWorld) : option FeedWorld :=
  l ← sk_listeners (wo_socket w) !! t;
  match ln_state l with
  | Idle =>
      let b := wo_broadcast w in
      match recv ring (ln_rid l) (channel_of t b) with
      | Update u next =>
          Some (wo_with (on_channel t (ch_move (ln_rid l) next) b) (set_listener t (mkListener (ln_rid l) (Holding u)) (wo_socket w)) w)
      | Lagged | ClosedChannel =>
          Some (wo_with (on_channel t (ch_leave (ln_rid l)) b) (raise_lagged (set_listener t (mkListener (ln_rid l) Ended) (wo_socket w))) w)
      | Empty => None
      end
  | _ => None
  end.

Definition listener_push (t : Topic) (w : FeedWorld) : option FeedWorld :=
  let s := wo_socket w in
  l ← sk_listeners s !! t;
  match ln_state l with
  | Holding u =>
      if (length (sk_queue s) <? QUEUE_CAPACITY)%nat
      then Some (wo_with (wo_broadcast w) (set_outgoing (sk_queue s ++ [(t, u)]) (set_listener t (mkListener (ln_rid l) Idle) s)) w)
      else None
  | _ => None
  end.

(** The three replies of [revalidate]: [validate_session], [get_user], and
    [get_user_stores], which an administrator does not need. *)
Definition session_reply (ok : bool) (w : FeedWorld) : option FeedWorld :=
  match sk_phase (wo_socket w) with
  | Validating p =>
      Some (match (if ok then wo_sessions w !! sk_session (wo_socket w) else None) with
            | Some user_id => in_phase (ReadingUser user_id p) w
            | None => close_socket w
            end)
  | _ => None
  end.

Definition user_reply (ok : bool) (w : FeedWorld) : option FeedWorld :=
  match sk_phase (wo_socket w) with
  | ReadingUser user_id p =>
      Some (match (if ok then td_users (wo_team w) !! user_id else None) with
            | Some user =>
                if bool_decide (us_role user = ServerAdmin) then revalidated p {[AdminTopic]} w
                else in_phase (ReadingStores user_id p) w
            | None => close_socket w
            end)
  | _ => None
  end.

Definition stores_reply (ok : bool) (w : FeedWorld) : option FeedWorld :=
  match sk_phase (wo_socket w) with
  | ReadingStores user_id p =>
      Some (if ok then revalidated p (membership_topics user_id (wo_team w)) w else close_socket w)
  | _ => None
  end.

(** [handle_socket_forwarding]: the branches of the loop, and the end of a
    send. *)
Definition when_selecting (f : FeedWorld -> option FeedWorld) (w : FeedWorld) : option FeedWorld :=
  match sk_phase (wo_socket w) with Selecting => f w | _ => None end.

Definition pick_update (w : FeedWorld) : option FeedWorld :=
  match sk_queue (wo_socket w) with
  | (t, u) :: q => Some (in_phase (Validating (ForUpdate t u)) (wo_with (wo_broadcast w) (set_outgoing q (wo_socket w)) w))
  | [] => None
  end.

Definition frame_sent (ok : bool) (w : FeedWorld) : option FeedWorld :=
  match sk_phase (wo_socket w) with
  | Sending f =>
      Some (if ok then
              let s := match f with UpdateFrame t u => add_delivered (t, u) (wo_socket w) | _ => wo_socket w end in
              in_phase Selecting (wo_with (wo_broadcast w) s w)
            else close_socket w)
  | _ => None
  end.

(** A receiver of another socket. *)
Definition ours (t : Topic) (rid : nat) (s : Socket) : bool :=
  match sk_listeners s !! t with Some l => (ln_rid l =? rid)%nat | None => false end.

Definition act (a : Action) (w : FeedWorld) : option FeedWorld :=
  match a with
  | TablesChange d => Some (mkFeedWorld d (wo_sessions w) (wo_broadcast w) (wo_socket w))
  | SessionsChange m => Some (mkFeedWorld (wo_team w) m (wo_broadcast w) (wo_socket w))
  | Publish store_id u => Some (wo_with (broadcast_send store_id u (wo_broadcast w)) (wo_socket w) w)
  | OtherJoins t => Some (wo_with (snd (subscribe_topic t (wo_broadcast w))) (wo_socket w) w)
  | OtherLeaves t rid =>
      if ours t rid (wo_socket w) then None else Some (wo_with (on_channel t (ch_leave rid) (wo_broadcast w)) (wo_socket w) w)
  | CheckoutJoins i => Some (wo_with (snd (subscribe_invoice i (wo_broadcast w))) (wo_socket w) w)
  | ListenerRecv t => listener_recv t w
  | ListenerPush t => listener_push t w
  | SessionReply ok => session_reply ok w
  | UserReply ok => user_reply ok w
  | StoresReply ok => stores_reply ok w
  | PickUpdate => when_selecting pick_update w
  | PickLagged => when_selecting (fun w => if sk_lagged (wo_socket w) then Some (close_socket w) else None) w
  | PickKeepalive => when_selecting (fun w => Some (in_phase (Sending PingFrame) w)) w
  | PickTick => when_selecting (fun w => Some (in_phase (Validating ForTick) w)) w
  | PickIncoming ends => when_selecting (fun w => Some (if ends then close_socket w else w)) w
  | FrameSent ok => frame_sent ok w
  end.

Fixpoint feed_run (acts : list Action) (w : FeedWorld) : option FeedWorld :=
  match acts with
  | [] => Some w
  | a :: acts => w' ← act a w; feed_run acts w'
  end.
End Act.

(** [handle_socket]: a socket that has named its session. *)
Definition new_socket (session_id : Uuid) : Socket := mkSocket session_id (Validating ForStart) ∅ [] false [].

(** The first frame: [ClientMessage::Auth], and a token that is a UUID. *)
Definition first_frame `{UuidText} (parse_auth : string -> option string) (text : option string) : option Uuid :=
  t ← text; token ← parse_auth t; parse_uuid token.

(** ** The public checkout page *)

(** [CheckoutResponse], less what its conversions leave out of a payment *)
Record CheckoutResponse := mkCheckoutResponse {
  co_id : string;
  co_currency : string;
  co_status : InvoiceStatus;
  co_amount : string;
  co_amount_received : string;
  co_expires_at : Instant;
  co_is_expired : bool;
  co_is_paid : bool;
  co_payment_options : list (Uuid * PaymentOptionRow);
  co_payments : list PaymentData
}.

(** [get_checkout] *)
Definition get_checkout `{Runtime} `{Formats} `{Numeric} `{ReadHost} (invoice_id : string) : View CheckoutResponse :=
  let* r := fails_500 (tdb (read_invoice invoice_id)) in
  let* invoice := ok_or 404 r in
  let* payments := fails_500 (tdb (payments_for_invoice invoice_id)) in
  let* options := fails_500 (tdb (options_for_invoice invoice_id)) in
  let* now := of_now in
  st_ret (mkCheckoutResponse (id_id invoice) (id_currency invoice) (id_status invoice) (id_amount invoice) (id_amount_received invoice)
    (id_expires_at invoice) (bool_decide (id_status invoice = Expired) || (id_expires_at invoice <? now))
    (bool_decide (id_status invoice = Paid)) options (List.filter (fun p => negb (pda_reorged p)) payments)).

(** [CheckoutFrame] and [CheckoutFrame::from_update]; an update is about an
    invoice. *)
Inductive CheckoutFrame :=
| CheckoutInvoiceStatus (invoice_id status : string)
| CheckoutPaymentUpdate (payment_id invoice_id status : string) (amount : option string)
| CheckoutConnected.

Definition from_update (u : StatusUpdate) : CheckoutFrame :=
  match u with
  | InvoiceStatusUpdate invoice_id status => CheckoutInvoiceStatus invoice_id status
  | PaymentUpdate payment_id invoice_id status amount => CheckoutPaymentUpdate payment_id invoice_id status amount
  end.

(** [checkout_ws_handler]: the answer, and the receiver of the invoice's own
    channel *)
Definition checkout_ws_handler `{Runtime} `{Numeric} `{Formats} `{ReadHost} (configured : bool) (invoice_id : string)
    (b : WsBroadcast) : View (nat * WsBroadcast) :=
  let* r := st_try (tdb (read_invoice invoice_id)) in
  match r with
  | Ok (Some _) => if configured then st_ret (subscribe_invoice invoice_id b) else st_throw 503
  | _ => st_throw 404
  end.

(** The sending half of [handle_checkout_socket] *)
Inductive CheckoutAction :=
| InvoicePublish (store_id : Uuid) (u : StatusUpdate)
| AnotherJoins (invoice_id : string)
| AnotherLeaves (invoice_id : string) (rid : nat)
| CheckoutTurn (taken : bool).

Record CheckoutSocket := mkCheckoutSocket {
  ck_invoice : string;
  ck_rid : nat;
  ck_open : bool;
  ck_broadcast : WsBroadcast;
  ck_frames : list CheckoutFrame
}.

Definition on_invoice (f : Channel -> Channel) (invoice_id : string) (b : WsBroadcast) : WsBroadcast :=
  mkWsBroadcast (wb_stores b) (alter f invoice_id (wb_invoices b)) (wb_admins b) (wb_next b).
Definition ck_with (b : WsBroadcast) (k : CheckoutSocket) : CheckoutSocket :=
  mkCheckoutSocket (ck_invoice k) (ck_rid k) (ck_open k) b (ck_frames k).
Definition ck_end (k : CheckoutSocket) : CheckoutSocket :=
  mkCheckoutSocket (ck_invoice k) (ck_rid k) false (on_invoice (ch_leave (ck_rid k)) (ck_invoice k) (ck_broadcast k)) (ck_frames k).

Definition checkout_act (ring : nat) (a : CheckoutAction) (k : CheckoutSocket) : option CheckoutSocket :=
  let b := ck_broadcast k in
  match a with
  | InvoicePublish store_id u => Some (ck_with (broadcast_send store_id u b) k)
  | AnotherJoins i => Some (ck_with (snd (subscribe_invoice i b)) k)
  | AnotherLeaves i rid => if (rid =? ck_rid k)%nat then None else Some (ck_with (on_invoice (ch_leave rid) i b) k)
  | CheckoutTurn taken =>
      if negb (ck_open k) then None
      else
        match recv ring (ck_rid k) (wb_invoices b !! ck_invoice k) with
        | Update u next =>
            if taken then
              Some (mkCheckoutSocket (ck_invoice k) (ck_rid k) true (on_invoice (ch_move (ck_rid k) next) (ck_invoice k) b)
                (ck_frames k ++ [from_update u]))
            else Some (ck_end k)
        | Lagged | ClosedChannel => Some (ck_end k)
        | Empty => None
        end
  end.

(** A page that was just let in. *)
Definition checkout_joined (invoice_id : string) (b : WsBroadcast) : CheckoutSocket :=
  let '(rid, b) := subscribe_invoice invoice_id b in mkCheckoutSocket invoice_id rid true b [].

Definition checkout_run (ring : nat) (acts : list CheckoutAction) (k : CheckoutSocket) : option CheckoutSocket :=
  foldl (fun k a => k ≫= checkout_act ring a) (Some k) acts.
