(* ===== verification/LiveFeedFacts.v ===== *)
(** * What live updates guarantee

    An update reaches a client only if its user was entitled to it after it was
    published and before it was sent; and what a client gets of a store is, from
    the moment it is connected, everything that is published for it in order,
    until the socket closes. *)

From stdpp Require Import gmap strings list.
From Stdlib Require Import ZArith Lia.
From S2P Require Import Prelude Events Network Decimal LiveWatch Database Services ApiKeys ApiAuth Office Teams Reading LiveFeed.

#[local] Open Scope Z_scope.

(** ** Histories *)

(** What happened so far: every action with the state it found, oldest first. *)
Abbreviation History := (list (FeedWorld * Action)).

Inductive history (ring : nat) (w0 : FeedWorld) : History -> FeedWorld -> Prop :=
| history_nil : history ring w0 [] w0
| history_snoc h w a w' : history ring w0 h w -> act ring a w = Some w' -> history ring w0 (h ++ [(w, a)]) w'.

(** The history of a run. *)
Fixpoint feed_trace (ring : nat) (acts : list Action) (w : FeedWorld) : History :=
  match acts with
  | [] => []
  | a :: acts => (w, a) :: match act ring a w with Some w' => feed_trace ring acts w' | None => [] end
  end.

Lemma run_snoc ring acts a w0 w : feed_run ring (acts ++ [a]) w0 = Some w ->
  exists w1, feed_run ring acts w0 = Some w1 /\ act ring a w1 = Some w /\ feed_trace ring (acts ++ [a]) w0 = feed_trace ring acts w0 ++ [(w1, a)].
Proof.
  revert w0. induction acts as [|b acts IH]; intros w0; cbn.
  - destruct (act ring a w0) as [w'|] eqn:Ha; [|done]. intros [= <-]. by exists w0.
  - destruct (act ring b w0) as [w'|]; [|done]. intros (w1 & Hr & Ha & ->)%IH. by exists w1.
Qed.

Lemma run_history ring acts w0 w : feed_run ring acts w0 = Some w -> history ring w0 (feed_trace ring acts w0) w.
Proof.
  revert w. induction acts as [|a acts IH] using rev_ind; intros w; [intros [= <-]; constructor|].
  intros (w1 & Hr & Ha & ->)%run_snoc. econstructor; [by apply IH|done].
Qed.

(** ** Channels *)

(** The topics an update of a store is published to. *)
Definition concerns (t : Topic) (store_id : Uuid) : bool := match t with AdminTopic => true | StoreTopic id => id =? store_id end.

Lemma live_receiver ch rid next : ch_receivers ch !! rid = Some next -> ch_live ch = true.
Proof. intros Hr. unfold ch_live. rewrite bool_decide_eq_false_2; [done|]. intros He. by rewrite He, lookup_empty in Hr. Qed.

Lemma publish_at {K} `{Countable K} (key k : K) u (m : gmap K Channel) ch :
  m !! k = Some ch -> ch_live ch = true -> publish key u m !! k = Some (if decide (key = k) then ch_push u ch else ch).
Proof.
  intros Hk Hl. unfold publish. case_decide as Hd; [subst; rewrite Hk, Hl; apply lookup_insert_eq|].
  destruct (m !! key) as [tx|]; [|done]. destruct (ch_live tx); [by rewrite lookup_insert_ne|by rewrite lookup_delete_ne].
Qed.

Lemma subscribe_at {K} `{Countable K} rid (key k : K) (m : gmap K Channel) ch :
  m !! k = Some ch -> ch_live ch = true -> channel_subscribe rid key m !! k = Some (if decide (key = k) then ch_join rid ch else ch).
Proof.
  intros Hk Hl. unfold channel_subscribe. assert (Hf : filter (fun kc => ch_live kc.2 = true) m !! k = Some ch) by (by apply map_lookup_filter_Some).
  case_decide as Hd; [subst; rewrite lookup_insert_eq, Hf; done|]. by rewrite lookup_insert_ne.
Qed.

Lemma subscribed {K} `{Countable K} rid (key : K) (m : gmap K Channel) :
  exists ch, channel_subscribe rid key m !! key = Some ch /\ ch_receivers ch !! rid = Some (length (ch_sent ch)).
Proof. eexists. split; [apply lookup_insert_eq|]. cbn. apply lookup_insert_eq. Qed.

Section Feed.
Context (b : WsBroadcast) (t : Topic) (ch : Channel).

Lemma channel_send store u : channel_of t b = Some ch -> ch_live ch = true ->
  channel_of t (broadcast_send store u b) = Some (if concerns t store then ch_push u ch else ch).
Proof.
  destruct t as [|id]; cbn; intros Hc Hl.
  - rewrite (publish_at _ _ _ _ _ Hc Hl). by rewrite decide_True.
  - rewrite (publish_at _ _ _ _ _ Hc Hl). case_decide as Hd; [subst; by rewrite Z.eqb_refl|].
    destruct (Z.eqb_spec id store); [by subst|done].
Qed.

Lemma channel_join t' : channel_of t b = Some ch -> ch_live ch = true ->
  channel_of t (snd (subscribe_topic t' b)) = Some (if decide (t' = t) then ch_join (wb_next b) ch else ch).
Proof.
  destruct t as [|id], t' as [|id']; cbn; intros Hc Hl; try done.
  - rewrite (subscribe_at _ _ _ _ _ Hc Hl). by rewrite decide_True.
  - rewrite (subscribe_at _ _ _ _ _ Hc Hl). repeat case_decide; congruence.
Qed.
End Feed.

Lemma channel_on t t' f b : channel_of t (on_channel t' f b) = if decide (t' = t) then f <$> channel_of t b else channel_of t b.
Proof.
  destruct t as [|id], t' as [|id']; cbn; try done.
  - apply lookup_alter_eq.
  - case_decide as Hd; [injection Hd as ->; apply lookup_alter_eq|]. apply lookup_alter_ne. congruence.
Qed.

Lemma channel_fresh t b : exists ch, channel_of t (snd (subscribe_topic t b)) = Some ch /\ ch_receivers ch !! wb_next b = Some (length (ch_sent ch)).
Proof. destruct t; cbn; apply subscribed. Qed.

(** A receiver of ours, on a channel of which everything it has not read yet
    satisfies [P]. *)
Definition hears (P : StatusUpdate -> Prop) (b : WsBroadcast) (t : Topic) (rid : nat) : Prop :=
  exists ch next, channel_of t b = Some ch /\ ch_receivers ch !! rid = Some next /\
    forall i u, (next <= i)%nat -> ch_sent ch !! i = Some u -> P u.

Section Hears.
Context (P : StatusUpdate -> Prop) (b : WsBroadcast) (t : Topic) (rid : nat).

Lemma hears_mono (Q : StatusUpdate -> Prop) : (forall u, P u -> Q u) -> hears P b t rid -> hears Q b t rid.
Proof. intros HPQ (ch & next & Hc & Hr & Hu). exists ch, next. eauto. Qed.

Lemma hears_send store u : (concerns t store = true -> P u) -> hears P b t rid -> hears P (broadcast_send store u b) t rid.
Proof.
  intros Hu (ch & next & Hc & Hr & Hold). rewrite <- (app_nil_r (ch_sent ch)) in Hold.
  exists (if concerns t store then ch_push u ch else ch), next.
  split; [apply channel_send; [done|by eapply live_receiver]|]. destruct (concerns t store); cbn; (split; [done|]).
  - intros i v Hi [Hv|[_ Hv]]%lookup_app_Some; [eapply Hold; [exact Hi|by rewrite app_nil_r]|].
    apply list_lookup_singleton_Some in Hv as [_ <-]. by apply Hu.
  - intros i v Hi Hv. eapply Hold; [exact Hi|by rewrite app_nil_r].
Qed.

Lemma hears_join t' : (rid < wb_next b)%nat -> hears P b t rid -> hears P (snd (subscribe_topic t' b)) t rid.
Proof.
  intros Hlt (ch & next & Hc & Hr & Hold). exists (if decide (t' = t) then ch_join (wb_next b) ch else ch), next.
  split; [apply channel_join; [done|by eapply live_receiver]|]. case_decide; cbn; [|done]. rewrite lookup_insert_ne by lia. done.
Qed.

Lemma hears_leave t' rid' : (t' = t -> rid' <> rid) -> hears P b t rid -> hears P (on_channel t' (ch_leave rid') b) t rid.
Proof.
  intros Hne (ch & next & Hc & Hr & Hold). unfold hears. rewrite channel_on. case_decide as Hd; [|by exists ch, next].
  rewrite Hc. cbn. exists (ch_leave rid' ch), next. split; [done|]. cbn. rewrite lookup_delete_ne by (by apply Hne). done.
Qed.

Lemma hears_move t' rid' next' : t' <> t -> hears P b t rid -> hears P (on_channel t' (ch_move rid' next') b) t rid.
Proof. intros Hne (ch & next & Hc & Hr & Hold). unfold hears. rewrite channel_on. case_decide; [congruence|]. by exists ch, next. Qed.
End Hears.

Lemma hears_checkout P b t rid i : hears P b t rid -> hears P (snd (subscribe_invoice i b)) t rid.
Proof. by destruct t. Qed.

Lemma hears_fresh P b t : hears P (snd (subscribe_topic t b)) t (wb_next b).
Proof.
  destruct (channel_fresh t b) as (ch & Hc & Hr). exists ch, (length (ch_sent ch)). split; [done|]. split; [done|].
  intros i u Hi Hu. apply lookup_lt_Some in Hu. lia.
Qed.

(** Receiving what is next. *)
Lemma hears_recv P b t rid ring u next : hears P b t rid -> recv ring rid (channel_of t b) = Update u next ->
  P u /\ hears P (on_channel t (ch_move rid next) b) t rid.
Proof.
  intros (ch & n & Hc & Hr & Hold). unfold recv. rewrite Hc, Hr. destruct (_ <? _)%nat; [done|].
  destruct (ch_sent ch !! n) as [v|] eqn:Hv; [|done]. intros [= -> <-]. split; [by apply (Hold n)|].
  unfold hears. rewrite channel_on. case_decide; [|congruence]. rewrite Hc. cbn. exists (ch_move rid (S n) ch), (S n).
  split; [done|]. cbn. rewrite lookup_insert_eq. split; [done|]. intros i x Hi. apply Hold. lia.
Qed.

(** A live listener never finds its channel closed. *)
Lemma hears_open P b t rid ring : hears P b t rid -> recv ring rid (channel_of t b) <> ClosedChannel.
Proof. intros (ch & n & Hc & Hr & _). unfold recv. rewrite Hc, Hr. destruct (_ <? _)%nat; [done|]. destruct (ch_sent ch !! n); discriminate. Qed.

Lemma next_send s u b : wb_next (broadcast_send s u b) = wb_next b.
Proof. done. Qed.
Lemma next_on t f b : wb_next (on_channel t f b) = wb_next b.
Proof. by destruct t. Qed.
Lemma next_join t b : wb_next (snd (subscribe_topic t b)) = S (wb_next b).
Proof. by destruct t. Qed.

(** ** Who gets what *)

(** The update was published, to the channel of this topic. *)
Definition published (h : History) (t : Topic) (u : StatusUpdate) : Prop :=
  exists w store, (w, Publish store u) ∈ h /\ concerns t store = true.

(** After that the session was found to be valid, and whose it is. *)
Definition session_known (session : Uuid) (h : History) (t : Topic) (u : StatusUpdate) (user_id : Uuid) : Prop :=
  exists h1 w h2, h = h1 ++ (w, SessionReply true) :: h2 /\ wo_sessions w !! session = Some user_id /\ published h1 t u.

(** After that the user was read. *)
Definition user_known (session : Uuid) (h : History) (t : Topic) (u : StatusUpdate) (user_id : Uuid) (user : UserRow) (since : History) : Prop :=
  exists h1 w, h = h1 ++ (w, UserReply true) :: since /\ td_users (wo_team w) !! user_id = Some user /\ session_known session h1 t u user_id.

(** And the user was an administrator then and the update came by their
    channel, or after that was read to be a member of the very store. *)
Definition entitled (session : Uuid) (h : History) (t : Topic) (u : StatusUpdate) : Prop :=
  exists user_id user since, user_known session h t u user_id user since /\
    (us_role user = ServerAdmin /\ t = AdminTopic \/
     exists store h1 w h2, t = StoreTopic store /\ since = h1 ++ (w, StoresReply true) :: h2 /\
       is_Some (td_user_stores (wo_team w) !! (user_id, store))).

Section Evidence.
Context (session : Uuid) (h k : History) (t : Topic) (u : StatusUpdate).

Lemma published_app : published h t u -> published (h ++ k) t u.
Proof. intros (w & s & Hin & Hc). exists w, s. split; [|done]. apply elem_of_app. by left. Qed.

Lemma session_known_app user_id : session_known session h t u user_id -> session_known session (h ++ k) t u user_id.
Proof. intros (h1 & w & h2 & -> & Hs & Hp). exists h1, w, (h2 ++ k). split; [by rewrite <- app_assoc|done]. Qed.

Lemma user_known_app user_id user since :
  user_known session h t u user_id user since -> user_known session (h ++ k) t u user_id user (since ++ k).
Proof. intros (h1 & w & -> & Hs & Hp). exists h1, w. split; [by rewrite <- app_assoc|done]. Qed.

Lemma entitled_app : entitled session h t u -> entitled session (h ++ k) t u.
Proof.
  intros (uid & user & since & Hu & Hr). exists uid, user, (since ++ k). split; [by apply user_known_app|].
  destruct Hr as [?|(store & h1 & w & h2 & Ht & -> & Hm)]; [by left|right]. exists store, h1, w, (h2 ++ k). split_and!; [done| |done].
  by rewrite <- app_assoc.
Qed.
End Evidence.

(** What is known at each point of the loop. *)
Definition phase_ok (session : Uuid) (h : History) (p : SocketPhase) : Prop :=
  match p with
  | Validating (ForUpdate t u) => published h t u
  | ReadingUser user_id (ForUpdate t u) => session_known session h t u user_id
  | ReadingStores user_id (ForUpdate t u) => exists user since, user_known session h t u user_id user since
  | Sending (UpdateFrame t u) => entitled session h t u
  | _ => True
  end.

Definition listener_ok (h : History) (b : WsBroadcast) (t : Topic) (l : Listener) : Prop :=
  (ln_rid l < wb_next b)%nat /\
  match ln_state l with
  | Idle => hears (published h t) b t (ln_rid l)
  | Holding u => hears (published h t) b t (ln_rid l) /\ published h t u
  | Ended => True
  end.

Definition listeners_ok (h : History) (b : WsBroadcast) (ls : gmap Topic Listener) : Prop :=
  forall t l, ls !! t = Some l -> listener_ok h b t l.

Record safe (session : Uuid) (h : History) (w : FeedWorld) : Prop := {
  sf_session : sk_session (wo_socket w) = session;
  sf_phase : phase_ok session h (sk_phase (wo_socket w));
  sf_listeners : listeners_ok h (wo_broadcast w) (sk_listeners (wo_socket w));
  sf_queue : Forall (fun x => published h x.1 x.2) (sk_queue (wo_socket w));
  sf_delivered : Forall (fun x => entitled session h x.1 x.2) (sk_delivered (wo_socket w))
}.

Lemma phase_ok_app session h k p : phase_ok session h p -> phase_ok session (h ++ k) p.
Proof.
  destruct p as [[]|? []|? []| |[]|]; cbn; try done.
  - apply published_app.
  - apply session_known_app.
  - intros (user & since & Hu). exists user, (since ++ k). by apply user_known_app.
  - apply entitled_app.
Qed.

Lemma listener_ok_app h k b t l : listener_ok h b t l -> listener_ok (h ++ k) b t l.
Proof.
  intros [Hn Hs]. split; [done|]. destruct (ln_state l); [| |done].
  - eapply hears_mono; [|exact Hs]. intros u. apply published_app.
  - destruct Hs as [Hh Hp]. split; [|by apply published_app]. eapply hears_mono; [|exact Hh]. intros v. apply published_app.
Qed.

(** A change of the channels that keeps what is heard. *)
Lemma listener_ok_feed h b b' t l : (wb_next b <= wb_next b')%nat ->
  (forall P, (ln_rid l < wb_next b)%nat -> hears P b t (ln_rid l) -> hears P b' t (ln_rid l)) -> listener_ok h b t l -> listener_ok h b' t l.
Proof. intros Hle Hh [Hn Hs]. split; [lia|]. destruct (ln_state l); [by apply Hh| |done]. destruct Hs. split; [by apply Hh|done]. Qed.

Lemma drop_next ls b : wb_next (drop_listeners ls b) = wb_next b.
Proof.
  unfold drop_listeners. induction ls as [|x ls IH] using rev_ind; [done|]. rewrite foldl_snoc. unfold drop_listener. by rewrite next_on.
Qed.

(** Dropping the listeners of other topics. *)
Lemma drop_others h ls b t l : (forall x, x ∈ ls -> x.1 <> t) -> listener_ok h b t l -> listener_ok h (drop_listeners ls b) t l.
Proof.
  unfold drop_listeners. induction ls as [|x ls IH] using rev_ind; intros Hx Hl; [done|]. rewrite foldl_snoc.
  assert (Hne : x.1 <> t) by (apply Hx, elem_of_app; right; by apply list_elem_of_singleton).
  apply (listener_ok_feed h (foldl drop_listener b ls)); [unfold drop_listener; by rewrite next_on| |apply IH; [|done]].
  - intros P _. apply hears_leave. congruence.
  - intros y Hy. apply Hx, elem_of_app. by left.
Qed.

Lemma start_listeners_ok h ts b ls : listeners_ok h b ls ->
  let '(b', ls') := foldl start_listener (b, ls) ts in listeners_ok h b' ls'.
Proof.
  revert b ls. induction ts as [|t ts IH]; intros b ls Hls; [done|]. cbn. destruct (ls !! t) as [l|]; [by apply IH|].
  apply (IH (snd (subscribe_topic t b)) (<[t := mkListener (wb_next b) Idle]> ls)).
  intros t' l [[<- <-]|[Hne Hl]]%lookup_insert_Some.
  - split; [rewrite next_join; cbn; lia|apply hears_fresh].
  - apply (listener_ok_feed h b); [rewrite next_join; lia| |by apply Hls]. intros P Hlt. by apply hears_join.
Qed.

Lemma sync_safe session h e w : safe session h w -> safe session h (sync_listeners e w).
Proof.
  intros [Hs Hp Hl Hq Hd]. unfold sync_listeners.
  assert (Hk : listeners_ok h (drop_listeners (map_to_list (filter (fun tl => tl.1 ∉ e) (sk_listeners (wo_socket w)))) (wo_broadcast w))
    (filter (fun tl => tl.1 ∈ e) (sk_listeners (wo_socket w)))).
  { intros t l [Hlt Hin]%map_lookup_filter_Some. apply drop_others; [|by apply Hl].
    intros [t' l'] [_ Hnot]%elem_of_map_to_list%map_lookup_filter_Some. cbn in *. congruence. }
  pose proof (start_listeners_ok h (elements e) _ _ Hk) as Hst. destruct (foldl start_listener _ _) as [b ls]. by split.
Qed.

Lemma close_safe session h w : safe session h w -> safe session h (close_socket w).
Proof. intros [Hs Hp Hl Hq Hd]. by split. Qed.

Lemma in_phase_safe session h p w : phase_ok session h p -> safe session h w -> safe session h (in_phase p w).
Proof. intros Hph []. by split. Qed.

Lemma safe_app session h k w : safe session h w -> safe session (h ++ k) w.
Proof.
  intros [Hs Hp Hl Hq Hd]. split; [done|by apply phase_ok_app| | |].
  - intros t l Hlt. by apply listener_ok_app, Hl.
  - eapply Forall_impl; [exact Hq|]. intros x. apply published_app.
  - eapply Forall_impl; [exact Hd|]. intros x. apply entitled_app.
Qed.

(** Only the channels changed. *)
Lemma safe_feed session h w b :
  (wb_next (wo_broadcast w) <= wb_next b)%nat ->
  (forall t l, sk_listeners (wo_socket w) !! t = Some l -> (ln_rid l < wb_next (wo_broadcast w))%nat ->
     hears (published h t) (wo_broadcast w) t (ln_rid l) -> hears (published h t) b t (ln_rid l)) ->
  safe session h w -> safe session h (wo_with b (wo_socket w) w).
Proof.
  intros Hle Hh [Hs Hp Hl Hq Hd]. split; try done. intros t l Hlt. destruct (Hl t l Hlt) as [Hn Hst]. split; [cbn; lia|].
  destruct (ln_state l); [by eapply Hh| |done]. destruct Hst. split; [by eapply Hh|done].
Qed.

Lemma revalidated_safe session h p e w :
  (forall t u, p = ForUpdate t u -> t ∈ e -> entitled session h t u) -> safe session h w -> safe session h (revalidated p e w).
Proof.
  intros He Hw. apply (sync_safe _ _ e) in Hw. unfold revalidated. destruct p as [|t u|]; [by apply in_phase_safe| |by apply in_phase_safe].
  case_bool_decide as Hin; apply in_phase_safe; try done. by apply He.
Qed.

Lemma membership_topics_spec user_id d t : t ∈ membership_topics user_id d ->
  exists store, t = StoreTopic store /\ is_Some (td_user_stores d !! (user_id, store)).
Proof.
  unfold membership_topics. rewrite elem_of_list_to_set, list_elem_of_fmap. intros (store & -> & Hs). exists store. split; [done|].
  apply list_elem_of_fmap in Hs as ([[u s] r] & -> & Hin). apply elem_of_filter_b in Hin as [Hu Hin]. cbn in *.
  apply Z.eqb_eq in Hu. subst. apply elem_of_map_to_list in Hin. by eexists.
Qed.

(** The listener tasks. *)
Lemma listener_recv_safe ring session h t w w' : listener_recv ring t w = Some w' -> safe session h w -> safe session h w'.
Proof.
  unfold listener_recv. destruct (sk_listeners (wo_socket w) !! t) as [l|] eqn:Hl; [|done]. cbn. intros Ha Hw. pose proof Hw as [Hs Hp Hls Hq Hd].
  destruct (Hls t l Hl) as [Hn Hst]. destruct (ln_state l) eqn:Hstate; [|done..].
  destruct (recv ring (ln_rid l) _) as [u next| | |] eqn:Hr; try discriminate Ha; injection Ha as <-.
  - destruct (hears_recv _ _ _ _ _ _ _ Hst Hr) as [Hu Hh]. split; try done. cbn. intros t' l' [[<- <-]|[Hne Hl']]%lookup_insert_Some.
    + split; [by rewrite next_on|done].
    + apply (listener_ok_feed h (wo_broadcast w)); [by rewrite next_on| |by apply Hls]. intros P _. by apply hears_move.
  - split; try done. cbn. intros t' l' [[<- <-]|[Hne Hl']]%lookup_insert_Some; [split; [by rewrite next_on|done]|].
    apply (listener_ok_feed h (wo_broadcast w)); [by rewrite next_on| |by apply Hls]. intros P _. by apply hears_leave.
  - split; try done. cbn. intros t' l' [[<- <-]|[Hne Hl']]%lookup_insert_Some; [split; [by rewrite next_on|done]|].
    apply (listener_ok_feed h (wo_broadcast w)); [by rewrite next_on| |by apply Hls]. intros P _. by apply hears_leave.
Qed.

Lemma listener_push_safe session h t w w' : listener_push t w = Some w' -> safe session h w -> safe session h w'.
Proof.
  unfold listener_push. destruct (sk_listeners (wo_socket w) !! t) as [l|] eqn:Hl; [|done]. cbn. intros Ha Hw. pose proof Hw as [Hs Hp Hls Hq Hd].
  destruct (Hls t l Hl) as [Hn Hst]. destruct (ln_state l) as [|u|] eqn:Hstate; [done| |done]. destruct (_ <=? _)%nat; [|done]. injection Ha as <-.
  destruct Hst as [Hh Hu]. split; try done; cbn.
  - intros t' l' [[<- <-]|[_ Hl']]%lookup_insert_Some; [by split|by apply Hls].
  - apply Forall_app. split; [done|]. by apply Forall_singleton.
Qed.

(** The replies. *)
Lemma replies_safe session h w w' a ok :
  a = SessionReply ok /\ session_reply ok w = Some w' \/ a = UserReply ok /\ user_reply ok w = Some w' \/
  a = StoresReply ok /\ stores_reply ok w = Some w' ->
  safe session h w -> safe session (h ++ [(w, a)]) w'.
Proof.
  intros Ha Hw. pose proof Hw as [Hs Hp Hls Hq Hd]. apply (safe_app _ _ [(w, a)]) in Hw. destruct Ha as [[-> Ha]|[[-> Ha]|[-> Ha]]].
  - unfold session_reply in Ha. destruct (sk_phase _) as [p| | | | |]; try done. injection Ha as <-.
    destruct ok; [|by apply close_safe]. destruct (wo_sessions w !! _) as [uid|] eqn:Hu; [|by apply close_safe].
    apply in_phase_safe; [|done]. destruct p; try done. exists h, w, []. by rewrite <- Hs.
  - unfold user_reply in Ha. destruct (sk_phase _) as [|uid p| | | |]; try done. injection Ha as <-.
    destruct ok; [|by apply close_safe]. destruct (td_users _ !! uid) as [user|] eqn:Hu; [|by apply close_safe].
    assert (Hk : forall t u, p = ForUpdate t u -> user_known session (h ++ [(w, UserReply true)]) t u uid user []).
    { intros t u ->. exists h, w. split_and!; done. }
    case_bool_decide as Hr; [apply revalidated_safe|apply in_phase_safe]; try done.
    + intros t u Hpu ->%elem_of_singleton. exists uid, user, []. split; [by apply Hk|by left].
    + destruct p; try done. exists user, []. by apply Hk.
  - unfold stores_reply in Ha. destruct (sk_phase _) as [| |uid p| | |]; try done. injection Ha as <-.
    destruct ok; [|by apply close_safe]. apply revalidated_safe; [|done].
    intros t u -> (store & -> & Hm)%membership_topics_spec. destruct Hp as (user & since & Hk).
    exists uid, user, (since ++ [(w, StoresReply true)]). split; [by apply user_known_app|]. right. exists store, since, w, []. done.
Qed.

(** The branches of the loop. *)
Lemma branches_safe session h f w w' :
  when_selecting f w = Some w' ->
  f = pick_update \/ (forall w, f w = None \/ f w = Some (close_socket w) \/ f w = Some w \/
    exists p, f w = Some (in_phase p w) /\ (p = Sending PingFrame \/ p = Validating ForTick)) ->
  safe session h w -> safe session h w'.
Proof.
  unfold when_selecting. destruct (sk_phase (wo_socket w)); try done. intros Ha [-> |Hf] Hw.
  - unfold pick_update in Ha. destruct (sk_queue (wo_socket w)) as [|[t u] q] eqn:Hq; [done|]. injection Ha as <-.
    destruct Hw as [Hs Hp Hls Hqs Hd]. rewrite Hq in Hqs. apply Forall_cons in Hqs as [Hu Hqs]. by split.
  - destruct (Hf w) as [He|[He|[He|(p & He & Hp)]]]; rewrite He in Ha; [done| | |]; injection Ha as <-; [by apply close_safe|done|].
    apply in_phase_safe; [by destruct Hp as [-> | ->]|done].
Qed.

Lemma frame_safe session h ok w w' : frame_sent ok w = Some w' -> safe session h w -> safe session h w'.
Proof.
  unfold frame_sent. intros Ha Hw. pose proof Hw as [Hs Hp Hls Hq Hd]. destruct (sk_phase _) as [| | | |f|] eqn:Hph; try done.
  injection Ha as <-. destruct ok; [|by apply close_safe]. destruct f; split; try done. cbn. apply Forall_app. split; [done|]. by apply Forall_singleton.
Qed.

Lemma act_safe ring session h a w w' : act ring a w = Some w' -> safe session h w -> safe session (h ++ [(w, a)]) w'.
Proof.
  intros Ha Hw. pose proof (safe_app _ _ [(w, a)] _ Hw) as Hk.
  destruct a as [d|m|store u|t|t rid|i|t|t|ok|ok|ok| | | | |ends|ok]; cbn [act] in Ha.
  - injection Ha as <-. by destruct Hk.
  - injection Ha as <-. by destruct Hk.
  - injection Ha as <-. apply safe_feed; [done| |done]. intros t l _ _. apply hears_send. intros Hc. exists w, store. split; [|done].
    apply elem_of_app. right. by apply list_elem_of_singleton.
  - injection Ha as <-. apply safe_feed; [destruct t; cbn; lia| |done]. intros t' l _ Hlt. by apply (hears_join _ _ _ _ t).
  - destruct (ours t rid _) eqn:Ho; [done|]. injection Ha as <-. apply safe_feed; [by rewrite next_on| |done].
    intros t' l Hl _. apply hears_leave. intros <-. unfold ours in Ho. rewrite Hl in Ho. apply Nat.eqb_neq in Ho. done.
  - injection Ha as <-. apply safe_feed; [cbn; lia| |done]. intros t l _ _. apply hears_checkout.
  - by eapply listener_recv_safe.
  - by eapply listener_push_safe.
  - eapply replies_safe; [|done]. by left.
  - eapply replies_safe; [|done]. by right; left.
  - eapply replies_safe; [|done]. by right; right.
  - eapply branches_safe; [exact Ha|by left|done].
  - eapply branches_safe; [exact Ha|right|done]. intros v. destruct (sk_lagged _); [by right; left|by left].
  - eapply branches_safe; [exact Ha|right|done]. intros v. right; right; right. eexists. split; [reflexivity|by left].
  - eapply branches_safe; [exact Ha|right|done]. intros v. right; right; right. eexists. split; [reflexivity|by right].
  - eapply branches_safe; [exact Ha|right|done]. intros v. destruct ends; [by right; left|by right; right; left].
  - by eapply frame_safe.
Qed.

(** C31. Nothing is sent to who may not see it.  However a socket's listeners,
    queue, timers and replies interleave with publications, other sockets and
    changes of accounts, memberships and sessions: of every update the client
    got, it holds that it was published for some store, that after that its
    session was found valid, that after that its user was read, and that the
    user was an administrator then, or was after that read to be a member of
    the very store it was published for - all before it was sent. *)
Theorem updates_only_to_entitled ring w0 session h w :
  wo_socket w0 = new_socket session -> history ring w0 h w ->
  Forall (fun x => entitled session h x.1 x.2) (sk_delivered (wo_socket w)).
Proof.
  intros H0 Hh. apply sf_delivered. induction Hh as [|h w a w' Hh IH Ha].
  - by split; rewrite H0.
  - by eapply act_safe.
Qed.

(** ** Nothing is left out *)

(** A receiver of ours, and what it has yet to read. *)
Definition follows (b : WsBroadcast) (t : Topic) (rid : nat) (rest : list StatusUpdate) : Prop :=
  exists ch next, channel_of t b = Some ch /\ ch_receivers ch !! rid = Some next /\ (next <= length (ch_sent ch))%nat /\
    rest = drop next (ch_sent ch).

Section Follows.
Context (b : WsBroadcast) (t : Topic) (rid : nat) (rest : list StatusUpdate).

Lemma follows_send store u : follows b t rid rest ->
  follows (broadcast_send store u b) t rid (rest ++ if concerns t store then [u] else []).
Proof.
  intros (ch & next & Hc & Hr & Hle & ->). exists (if concerns t store then ch_push u ch else ch), next.
  split; [apply channel_send; [done|by eapply live_receiver]|]. destruct (concerns t store); cbn; [|by rewrite app_nil_r].
  rewrite length_app. split_and!; [done|cbn; lia|]. by rewrite drop_app_le.
Qed.

Lemma follows_join t' : (rid < wb_next b)%nat -> follows b t rid rest -> follows (snd (subscribe_topic t' b)) t rid rest.
Proof.
  intros Hlt (ch & next & Hc & Hr & Hle & ->). exists (if decide (t' = t) then ch_join (wb_next b) ch else ch), next.
  split; [apply channel_join; [done|by eapply live_receiver]|]. case_decide; cbn; [|done]. rewrite lookup_insert_ne by lia. done.
Qed.

Lemma follows_on t' f : t' <> t -> follows b t rid rest -> follows (on_channel t' f b) t rid rest.
Proof. intros Hne. unfold follows. rewrite channel_on. case_decide; [congruence|done]. Qed.

Lemma follows_leave rid' : rid' <> rid -> follows b t rid rest -> follows (on_channel t (ch_leave rid') b) t rid rest.
Proof.
  intros Hne (ch & next & Hc & Hr & Hle & ->). unfold follows. rewrite channel_on. case_decide; [|done].
  rewrite Hc. cbn. exists (ch_leave rid' ch), next. cbn. rewrite lookup_delete_ne by done. done.
Qed.

Lemma follows_recv ring u next : follows b t rid rest -> recv ring rid (channel_of t b) = Update u next ->
  exists rest', rest = u :: rest' /\ follows (on_channel t (ch_move rid next) b) t rid rest'.
Proof.
  intros (ch & n & Hc & Hr & Hle & ->). unfold recv. rewrite Hc, Hr. destruct (_ <? _)%nat; [done|].
  destruct (ch_sent ch !! n) as [v|] eqn:Hv; [|done]. intros [= -> <-]. exists (drop (S n) (ch_sent ch)). split; [by apply drop_S|].
  unfold follows. rewrite channel_on. case_decide; [|done]. rewrite Hc. cbn. exists (ch_move rid (S n) ch), (S n). cbn.
  rewrite lookup_insert_eq. apply lookup_lt_Some in Hv. split_and!; try done; lia.
Qed.
End Follows.

Lemma follows_drop ls b t rid rest : (forall x, x ∈ ls -> x.1 <> t) -> follows b t rid rest -> follows (drop_listeners ls b) t rid rest.
Proof.
  unfold drop_listeners. induction ls as [|x ls IH] using rev_ind; intros Hx Hf; [done|]. rewrite foldl_snoc. apply follows_on.
  - apply Hx, elem_of_app. right. by apply list_elem_of_singleton.
  - apply IH; [|done]. intros y Hy. apply Hx, elem_of_app. by left.
Qed.

Lemma follows_checkout b t rid rest i : follows b t rid rest -> follows (snd (subscribe_invoice i b)) t rid rest.
Proof. by destruct t. Qed.

Lemma follows_fresh b t : follows (snd (subscribe_topic t b)) t (wb_next b) [].
Proof.
  destruct (channel_fresh t b) as (ch & Hc & Hr). exists ch, (length (ch_sent ch)). split_and!; [done|done|done|]. by rewrite drop_all.
Qed.

Section Gapless.
Context (t : Topic) (session user_id : Uuid).

(** The updates of the topic in a list of updates and topics, among the
    publications of a history, and on their way through the loop. *)
Definition of_topic (l : list (Topic * StatusUpdate)) : list StatusUpdate :=
  omap (fun x => if decide (x.1 = t) then Some x.2 else None) l.
Definition announced (a : Action) : list StatusUpdate :=
  match a with Publish store u => if concerns t store then [u] else [] | _ => [] end.
Definition published_since (h : History) : list StatusUpdate := h ≫= (fun x => announced x.2).
Definition in_flight (p : SocketPhase) : list StatusUpdate :=
  match p with
  | Validating (ForUpdate t' u) | ReadingUser _ (ForUpdate t' u) | ReadingStores _ (ForUpdate t' u) | Sending (UpdateFrame t' u) =>
      of_topic [(t', u)]
  | _ => []
  end.
Definition held (l : Listener) : list StatusUpdate := match ln_state l with Holding u => [u] | _ => [] end.

(** The user the session is of keeps the access the topic is for. *)
Definition keeps_access (w : FeedWorld) : Prop :=
  (forall v, wo_sessions w !! session = Some v -> v = user_id) /\
  (forall r, td_users (wo_team w) !! user_id = Some r -> us_role r = ServerAdmin <-> t = AdminTopic) /\
  (forall store, t = StoreTopic store -> is_Some (td_user_stores (wo_team w) !! (user_id, store))).

(** Everything published since is delivered, or on its way. *)
Definition phase_user (p : SocketPhase) : Prop :=
  match p with
  | ReadingUser v _ => v = user_id
  | ReadingStores v _ => v = user_id /\ t <> AdminTopic
  | _ => True
  end.

Definition followed (pub seen : list StatusUpdate) (b : WsBroadcast) (ls : gmap Topic Listener) (lagged : bool) : Prop :=
  exists l, ls !! t = Some l /\ (ln_rid l < wb_next b)%nat /\
    match ln_state l with
    | Ended => lagged = true /\ seen `prefix_of` pub
    | _ => exists rest, follows b t (ln_rid l) rest /\ pub = seen ++ held l ++ rest
    end.

Definition seen (s : Socket) : list StatusUpdate :=
  of_topic (sk_delivered s) ++ in_flight (sk_phase s) ++ of_topic (sk_queue s).

Definition gapless (pub : list StatusUpdate) (w : FeedWorld) : Prop :=
  let s := wo_socket w in
  sk_session s = session /\ phase_user (sk_phase s) /\
  (sk_phase s = Closed /\ of_topic (sk_delivered s) `prefix_of` pub \/
   sk_phase s <> Closed /\ followed pub (seen s) (wo_broadcast w) (sk_listeners s) (sk_lagged s)).

Lemma of_topic_app l k : of_topic (l ++ k) = of_topic l ++ of_topic k.
Proof. apply omap_app. Qed.

Lemma followed_prefix pub sn b ls lg : followed pub sn b ls lg -> sn `prefix_of` pub.
Proof. intros (l & _ & _ & Hst). destruct (ln_state l); [destruct Hst as (rest & _ & ->)..|by destruct Hst]; by apply prefix_app_r. Qed.

(** Only the channels changed, and publications were added. *)
Lemma followed_feed pub more sn b b' ls lg :
  (wb_next b <= wb_next b')%nat ->
  (forall l rest, ls !! t = Some l -> (ln_rid l < wb_next b)%nat -> follows b t (ln_rid l) rest -> follows b' t (ln_rid l) (rest ++ more)) ->
  followed pub sn b ls lg -> followed (pub ++ more) sn b' ls lg.
Proof.
  intros Hle Hf (l & Hl & Hlt & Hst). exists l. split; [done|]. split; [lia|].
  destruct (ln_state l) eqn:He.
  - destruct Hst as (rest & Hr & ->). exists (rest ++ more). split; [by apply Hf|]. by rewrite !app_assoc.
  - destruct Hst as (rest & Hr & ->). exists (rest ++ more). split; [by apply Hf|]. by rewrite !app_assoc.
  - destruct Hst as [Hg Hp]. split; [done|]. by apply prefix_app_r.
Qed.

Lemma followed_feed' pub sn b b' ls lg :
  (wb_next b <= wb_next b')%nat ->
  (forall l rest, ls !! t = Some l -> (ln_rid l < wb_next b)%nat -> follows b t (ln_rid l) rest -> follows b' t (ln_rid l) rest) ->
  followed pub sn b ls lg -> followed pub sn b' ls lg.
Proof.
  intros Hle Hf Hx. rewrite <- (app_nil_r pub). apply (followed_feed _ _ _ b); [done| |done].
  intros l rest Hl Hlt Hr. rewrite app_nil_r. by apply Hf.
Qed.

Lemma followed_start pub sn ts b ls lg : followed pub sn b ls lg ->
  let '(b', ls') := foldl start_listener (b, ls) ts in followed pub sn b' ls' lg.
Proof.
  revert b ls. induction ts as [|t' ts IH]; intros b ls Hls; [done|]. cbn. destruct (ls !! t') as [l'|] eqn:Ht'; [by apply IH|].
  apply (IH (snd (subscribe_topic t' b)) (<[t' := mkListener (wb_next b) Idle]> ls)).
  assert (Hne : t' <> t) by (destruct Hls as (l & Hl & _); congruence).
  apply (followed_feed' _ _ _ (snd (subscribe_topic t' b))) in Hls; [|rewrite next_join; lia|intros; by apply follows_join].
  destruct Hls as (l & Hl & Hst). exists l. by rewrite lookup_insert_ne.
Qed.

Lemma followed_sync pub sn e w : t ∈ e -> followed pub sn (wo_broadcast w) (sk_listeners (wo_socket w)) (sk_lagged (wo_socket w)) ->
  followed pub sn (wo_broadcast (sync_listeners e w)) (sk_listeners (wo_socket (sync_listeners e w))) (sk_lagged (wo_socket (sync_listeners e w))).
Proof.
  intros He Hf. unfold sync_listeners.
  set (b1 := drop_listeners (map_to_list (filter (fun tl => tl.1 ∉ e) (sk_listeners (wo_socket w)))) (wo_broadcast w)).
  assert (Hk : followed pub sn b1 (filter (fun tl => tl.1 ∈ e) (sk_listeners (wo_socket w))) (sk_lagged (wo_socket w))).
  { apply (followed_feed' _ _ _ b1) in Hf; [|unfold b1; by rewrite drop_next|].
    - destruct Hf as (l & Hl & Hst). exists l. split; [|done]. by apply map_lookup_filter_Some.
    - intros l rest _ _. apply follows_drop. intros [t' l'] [_ Hnot]%elem_of_map_to_list%map_lookup_filter_Some. cbn in *. congruence. }
  pose proof (followed_start pub sn (elements e) _ _ _ Hk) as Hst. by destruct (foldl start_listener _ _) as [b ls].
Qed.

Lemma sync_socket e w : let s := wo_socket (sync_listeners e w) in
  sk_session s = sk_session (wo_socket w) /\ sk_queue s = sk_queue (wo_socket w) /\ sk_delivered s = sk_delivered (wo_socket w).
Proof. unfold sync_listeners. by destruct (foldl start_listener _ _) as [b ls]. Qed.

Lemma gapless_close pub w : gapless pub w -> gapless pub (close_socket w).
Proof.
  intros (Hs & Hp & Hg). split; [done|]. split; [done|]. left. split; [done|]. cbn.
  destruct Hg as [[_ Hg]|[_ Hg]]; [done|]. apply followed_prefix in Hg. etrans; [|exact Hg]. unfold seen. by apply prefix_app_r.
Qed.

(** A step within a re-validation, or to one that is not about an update. *)
Lemma gapless_phase pub w p :
  phase_user p -> p <> Closed -> sk_phase (wo_socket w) <> Closed -> in_flight p = in_flight (sk_phase (wo_socket w)) ->
  gapless pub w -> gapless pub (in_phase p w).
Proof.
  intros Hu Hc Hc' Hi (Hs & Hp & Hg). split; [done|]. split; [done|]. right. split; [done|].
  destruct Hg as [[? _]|[_ Hg]]; [done|]. unfold seen in *. cbn. by rewrite Hi.
Qed.

Definition purpose_in_flight (p : Purpose) : list StatusUpdate := in_flight (Validating p).

Lemma gapless_revalidated pub w p e :
  t ∈ e -> sk_phase (wo_socket w) <> Closed -> purpose_in_flight p = in_flight (sk_phase (wo_socket w)) ->
  gapless pub w -> gapless pub (revalidated p e w).
Proof.
  intros He Hc Hi (Hs & Hp & Hg). destruct Hg as [[? _]|[_ Hg]]; [done|].
  destruct (sync_socket e w) as (Hss & Hsq & Hsd). apply (followed_sync _ _ e) in Hg; [|done].
  assert (Hx : forall ph, phase_user ph -> ph <> Closed -> in_flight ph = purpose_in_flight p -> gapless pub (in_phase ph (sync_listeners e w))).
  { intros ph Hu Hne Hif. split; [by cbn; rewrite Hss|]. split; [done|]. right. split; [done|].
    unfold seen in Hg |- *. cbn. rewrite Hsq, Hsd, Hif, Hi. exact Hg. }
  unfold revalidated. destruct p as [|t' u|]; [by apply Hx| |by apply Hx].
  case_bool_decide as Hin; [by apply Hx|]. apply Hx; [done|done|]. cbn. by rewrite decide_False by congruence.
Qed.

(** A change of the channels around the socket. *)
Lemma gapless_feed pub more w b :
  (wb_next (wo_broadcast w) <= wb_next b)%nat ->
  (forall l rest, sk_listeners (wo_socket w) !! t = Some l -> (ln_rid l < wb_next (wo_broadcast w))%nat ->
     follows (wo_broadcast w) t (ln_rid l) rest -> follows b t (ln_rid l) (rest ++ more)) ->
  gapless pub w -> gapless (pub ++ more) (wo_with b (wo_socket w) w).
Proof.
  intros Hle Hf (Hs & Hp & Hg). split; [done|]. split; [done|]. destruct Hg as [[Hc Hg]|[Hc Hg]]; [left|right].
  - split; [done|]. by apply prefix_app_r.
  - split; [done|]. by eapply followed_feed.
Qed.

(** A listener that gave up: it raised the alarm. *)
Lemma followed_ended pub sn b ls lg t' l : ls !! t' = Some l -> followed pub sn b ls lg ->
  followed pub sn (on_channel t' (ch_leave (ln_rid l)) b) (<[t' := mkListener (ln_rid l) Ended]> ls) true.
Proof.
  intros Hl Hg. destruct (decide (t' = t)) as [->|Hne].
  - pose proof (followed_prefix _ _ _ _ _ Hg) as Hpre. destruct Hg as (l0 & Hl0 & Hlt & _). assert (l0 = l) as -> by congruence.
    exists (mkListener (ln_rid l) Ended). by rewrite lookup_insert_eq, next_on.
  - apply (followed_feed' _ _ _ (on_channel t' (ch_leave (ln_rid l)) b)) in Hg; [|by rewrite next_on|intros; by apply follows_on].
    destruct Hg as (l0 & Hl0 & Hlt & Hg). exists l0. rewrite lookup_insert_ne by done. split; [done|]. split; [done|].
    by destruct (ln_state l0); [| |destruct Hg].
Qed.

Lemma listener_recv_gapless ring t' w w' pub : listener_recv ring t' w = Some w' -> gapless pub w -> gapless pub w'.
Proof.
  unfold listener_recv. destruct (sk_listeners (wo_socket w) !! t') as [l|] eqn:Hl; [|done]. cbn. intros Ha (Hs & Hp & Hg).
  destruct (ln_state l) eqn:Hst; [|done..].
  assert (Hcl : forall b l' lg, sk_phase (wo_socket w) = Closed /\ of_topic (sk_delivered (wo_socket w)) `prefix_of` pub ->
    gapless pub (wo_with b (mkSocket (sk_session (wo_socket w)) (sk_phase (wo_socket w)) (<[t' := l']> (sk_listeners (wo_socket w)))
      (sk_queue (wo_socket w)) lg (sk_delivered (wo_socket w))) w)) by (intros b l' lg Hc; split; [done|]; split; [done|]; by left).
  destruct (recv ring (ln_rid l) _) as [u next| | |] eqn:Hr; try discriminate Ha; injection Ha as <-;
    (destruct Hg as [Hg|[Hc Hg]]; [by apply Hcl|]; split; [done|]; split; [done|]; right; split; [done|]).
  - destruct (decide (t' = t)) as [->|Hne].
    + destruct Hg as (l0 & Hl0 & Hlt & Hg). assert (l0 = l) as -> by congruence. rewrite Hst in Hg. destruct Hg as (rest & Hf & Hpub).
      destruct (follows_recv _ _ _ _ _ _ _ Hf Hr) as (rest' & -> & Hf'). exists (mkListener (ln_rid l) (Holding u)).
      cbn. rewrite lookup_insert_eq, next_on. split; [done|]. split; [done|]. exists rest'. split; [done|]. unfold held in Hpub. by rewrite Hst in Hpub.
    + apply (followed_feed' _ _ _ (on_channel t' (ch_move (ln_rid l) next) (wo_broadcast w))) in Hg;
        [|by rewrite next_on|intros; by apply follows_on]. destruct Hg as (l0 & Hl0 & Hg). exists l0. cbn. by rewrite lookup_insert_ne.
  - by eapply followed_ended.
  - by eapply followed_ended.
Qed.

Lemma listener_push_gapless t' w w' pub : listener_push t' w = Some w' -> gapless pub w -> gapless pub w'.
Proof.
  unfold listener_push. destruct (sk_listeners (wo_socket w) !! t') as [l|] eqn:Hl; [|done]. cbn. intros Ha (Hs & Hp & Hg).
  destruct (ln_state l) as [|u|] eqn:Hst; [done| |done]. destruct (_ <=? _)%nat; [|done]. injection Ha as <-.
  split; [done|]. split; [done|]. destruct Hg as [Hg|[Hc Hg]]; [by left|]. right. split; [done|].
  assert (Hq : seen (set_outgoing (sk_queue (wo_socket w) ++ [(t', u)]) (set_listener t' (mkListener (ln_rid l) Idle) (wo_socket w))) =
    seen (wo_socket w) ++ of_topic [(t', u)]) by (unfold seen; cbn -[of_topic]; by rewrite of_topic_app, !app_assoc).
  cbn [wo_socket wo_with wo_broadcast]. rewrite Hq. cbn. destruct Hg as (l0 & Hl0 & Hlt & Hg). destruct (decide (t' = t)) as [->|Hne].
  - assert (l0 = l) as -> by congruence. rewrite Hst in Hg. destruct Hg as (rest & Hf & ->). exists (mkListener (ln_rid l) Idle).
    rewrite lookup_insert_eq. split; [done|]. split; [done|]. exists rest. split; [done|]. unfold held. rewrite Hst. cbn. by rewrite <- !app_assoc.
  - exists l0. rewrite lookup_insert_ne, app_nil_r by done. done.
Qed.

Lemma membership_topics_in store d : is_Some (td_user_stores d !! (user_id, store)) -> StoreTopic store ∈ membership_topics user_id d.
Proof.
  intros [r Hr]. unfold membership_topics. rewrite elem_of_list_to_set, list_elem_of_fmap. exists store. split; [done|].
  apply list_elem_of_fmap. exists (user_id, store, r). split; [done|]. apply elem_of_filter_b. cbn. rewrite Z.eqb_refl.
  split; [done|]. by apply elem_of_map_to_list.
Qed.

Lemma replies_gapless ok w w' pub :
  session_reply ok w = Some w' \/ user_reply ok w = Some w' \/ stores_reply ok w = Some w' ->
  keeps_access w -> gapless pub w -> gapless pub w'.
Proof.
  intros Ha (Hks & Hku & Hkm) Hw. pose proof Hw as (Hs & Hp & _). destruct Ha as [Ha|[Ha|Ha]].
  - unfold session_reply in Ha. destruct (sk_phase _) as [p| | | | |] eqn:Hph; try done. injection Ha as <-.
    destruct ok; [|by apply gapless_close]. destruct (wo_sessions w !! sk_session (wo_socket w)) as [v|] eqn:Hv; [|by apply gapless_close].
    apply gapless_phase; rewrite ?Hph; try done. apply Hks. congruence.
  - unfold user_reply in Ha. destruct (sk_phase _) as [|v p| | | |] eqn:Hph; try done. injection Ha as <-. cbn in Hp. subst v.
    destruct ok; [|by apply gapless_close]. destruct (td_users (wo_team w) !! user_id) as [r|] eqn:Hr; [|by apply gapless_close].
    case_bool_decide as Hadm.
    + apply gapless_revalidated; rewrite ?Hph; try done. apply (Hku r eq_refl) in Hadm. rewrite Hadm. by apply elem_of_singleton.
    + apply gapless_phase; rewrite ?Hph; try done. split; [done|]. intros He. by apply Hadm, (Hku r eq_refl).
  - unfold stores_reply in Ha. destruct (sk_phase _) as [| |v p| | |] eqn:Hph; try done. injection Ha as <-. destruct Hp as [-> Hne].
    destruct ok; [|by apply gapless_close]. apply gapless_revalidated; rewrite ?Hph; try done.
    destruct t as [|store] eqn:Ht; [done|]. by apply membership_topics_in, Hkm.
Qed.

Lemma pick_update_gapless w w' pub : when_selecting pick_update w = Some w' -> gapless pub w -> gapless pub w'.
Proof.
  unfold when_selecting, pick_update. intros Ha (Hs & Hp & Hg). destruct (sk_phase _) eqn:Hph; try done.
  destruct (sk_queue (wo_socket w)) as [|[t' u] q] eqn:Hq; [done|]. injection Ha as <-. destruct Hg as [[? _]|[_ Hg]]; [done|].
  split; [done|]. split; [done|]. right. split; [done|]. unfold seen in Hg |- *. cbn -[of_topic]. rewrite Hph, Hq in Hg. cbn -[of_topic] in Hg.
  change ((t', u) :: q) with ([(t', u)] ++ q) in Hg. rewrite of_topic_app in Hg. exact Hg.
Qed.

Lemma frame_gapless ok w w' pub : frame_sent ok w = Some w' -> gapless pub w -> gapless pub w'.
Proof.
  unfold frame_sent. intros Ha Hw. pose proof Hw as (Hs & Hp & Hg). destruct (sk_phase _) as [| | | |f|] eqn:Hph; try done. injection Ha as <-.
  destruct ok; [|by apply gapless_close]. destruct Hg as [[? _]|[_ Hg]]; [done|].
  assert (Hseen : seen (wo_socket w) = of_topic (sk_delivered (wo_socket w)) ++
    match f with UpdateFrame t' u => of_topic [(t', u)] | _ => [] end ++ of_topic (sk_queue (wo_socket w))) by (unfold seen; by rewrite Hph).
  rewrite Hseen in Hg. destruct f; (split; [done|]; split; [done|]; right; split; [done|]); unfold seen; cbn -[of_topic] in *; try done.
  by rewrite of_topic_app, <- app_assoc.
Qed.

Lemma act_gapless ring a w w' pub : act ring a w = Some w' -> keeps_access w -> gapless pub w -> gapless (pub ++ announced a) w'.
Proof.
  intros Ha Hk Hw.
  assert (Hnil : gapless pub w' -> gapless (pub ++ []) w') by by rewrite app_nil_r.
  assert (Hbranch : forall f, when_selecting f w = Some w' -> (f w = Some (close_socket w) \/ f w = Some w \/
    exists p, f w = Some (in_phase p w) /\ phase_user p /\ p <> Closed /\ in_flight p = []) -> gapless pub w').
  { intros f. unfold when_selecting. destruct (sk_phase (wo_socket w)) eqn:Hph; try done. intros Hf [He|[He|(p & He & Hu & Hc & Hi)]]; rewrite He in Hf; injection Hf as <-.
    - by apply gapless_close.
    - done.
    - apply gapless_phase; rewrite ?Hph; done. }
  destruct a as [d|m|store u|t'|t' rid|i|t'|t'|ok|ok|ok| | | | |ends|ok]; cbn [act announced] in *.
  - apply Hnil. by injection Ha as <-.
  - apply Hnil. by injection Ha as <-.
  - injection Ha as <-. apply gapless_feed; [done| |done]. intros l rest _ _. apply follows_send.
  - injection Ha as <-. apply gapless_feed; [destruct t'; cbn; lia| |done]. intros l rest _ Hlt. rewrite app_nil_r. by apply (follows_join _ _ _ _ t').
  - destruct (ours t' rid _) eqn:Ho; [done|]. injection Ha as <-. apply gapless_feed; [by rewrite next_on| |done].
    intros l rest Hl _. rewrite app_nil_r. destruct (decide (t' = t)) as [->|Hne]; [|by apply follows_on]. apply follows_leave.
    unfold ours in Ho. rewrite Hl in Ho. apply Nat.eqb_neq in Ho. done.
  - injection Ha as <-. apply gapless_feed; [cbn; lia| |done]. intros l rest _ _. rewrite app_nil_r. apply follows_checkout.
  - by eapply Hnil, listener_recv_gapless.
  - by eapply Hnil, listener_push_gapless.
  - eapply Hnil, replies_gapless; [by left|done|done].
  - eapply Hnil, replies_gapless; [by right; left|done|done].
  - eapply Hnil, replies_gapless; [by right; right|done|done].
  - by eapply Hnil, pick_update_gapless.
  - apply Hnil. eapply Hbranch; [exact Ha|]. unfold when_selecting in Ha. destruct (sk_phase _); try done. cbn in Ha |- *. destruct (sk_lagged _); [by left|done].
  - apply Hnil. eapply Hbranch; [exact Ha|]. right; right. by eexists.
  - apply Hnil. eapply Hbranch; [exact Ha|]. right; right. by eexists.
  - apply Hnil. eapply Hbranch; [exact Ha|]. destruct ends; [by left|by right; left].
  - by eapply Hnil, frame_gapless.
Qed.

Lemma followed_begin ts b ls lg : t ∈ ts -> ls !! t = None ->
  let '(b', ls') := foldl start_listener (b, ls) ts in followed [] [] b' ls' lg.
Proof.
  revert b ls. induction ts as [|t' ts IH]; intros b ls Hin Hn; [by apply elem_of_nil in Hin|]. cbn.
  apply elem_of_cons in Hin. destruct (decide (t' = t)) as [->|Hne].
  - rewrite Hn. apply (followed_start [] [] ts (snd (subscribe_topic t b)) (<[t := mkListener (wb_next b) Idle]> ls)).
    exists (mkListener (wb_next b) Idle). rewrite lookup_insert_eq. split; [done|]. split; [rewrite next_join; cbn; lia|].
    exists []. split; [apply follows_fresh|done].
  - destruct Hin as [?|Hin]; [congruence|]. destruct (ls !! t') as [l'|]; [by apply IH|].
    apply (IH (snd (subscribe_topic t' b)) (<[t' := mkListener (wb_next b) Idle]> ls)); [done|]. by rewrite lookup_insert_ne.
Qed.

Lemma gapless_begin ph e w : wo_socket w = sk_in ph (new_socket session) -> t ∈ e -> gapless [] (revalidated ForStart e w).
Proof.
  intros Hw He. destruct (sync_socket e w) as (Hss & Hsq & Hsd). unfold revalidated.
  assert (Hf : followed [] [] (wo_broadcast (sync_listeners e w)) (sk_listeners (wo_socket (sync_listeners e w))) (sk_lagged (wo_socket (sync_listeners e w)))).
  { unfold sync_listeners. rewrite Hw. cbn [sk_in sk_listeners new_socket sk_lagged]. pose proof (followed_begin (elements e)) as Hb.
    match goal with |- context [foldl start_listener (?b, ?ls) _] => specialize (Hb b ls false) end.
    destruct (foldl start_listener _ _) as [b' ls']. apply Hb; [by apply elem_of_elements|].
    apply map_lookup_filter_None. left. apply lookup_empty. }
  rewrite Hw in Hss, Hsq, Hsd. split; [exact Hss|]. split; [done|]. right. split; [done|]. unfold seen. cbn -[of_topic]. by rewrite Hsq, Hsd.
Qed.

Lemma published_snoc h x : published_since (h ++ [x]) = published_since h ++ announced x.2.
Proof. unfold published_since. rewrite bind_app. cbn. by rewrite app_nil_r. Qed.

(** C32. A live feed has no gaps.  From the moment a socket is being told that it
    is connected, as long as its user keeps the access a topic is for: the
    updates of the topic the client got are, in order and without repetition or
    omission, the first of those published for it since, however listeners,
    queue, timers and replies interleave with other sockets and with
    publications that overflow a channel; and while the socket is open and no
    alarm was raised, all others are on their way - being decided on, queued,
    held by the listener, or in the channel ahead of it. *)
Theorem live_feed_gapless ring ph e w0 h w :
  wo_socket w0 = sk_in ph (new_socket session) -> t ∈ e -> history ring (revalidated ForStart e w0) h w ->
  Forall (fun x => keeps_access x.1) h ->
  of_topic (sk_delivered (wo_socket w)) `prefix_of` published_since h /\
  (sk_phase (wo_socket w) <> Closed -> sk_lagged (wo_socket w) = false ->
   exists l rest, sk_listeners (wo_socket w) !! t = Some l /\ follows (wo_broadcast w) t (ln_rid l) rest /\
     published_since h = seen (wo_socket w) ++ held l ++ rest).
Proof.
  intros Hw He Hh Hk. assert (Hg : gapless (published_since h) w).
  { induction Hh as [|h w a w' Hh IH Ha]; [by eapply gapless_begin|]. apply Forall_app in Hk as [Hk Hka].
    inversion Hka; subst. rewrite published_snoc. eapply act_gapless; [exact Ha|done|by apply IH]. }
  destruct Hg as (_ & _ & [[Hc Hg]|[Hc Hg]]); (split; [|intros Ho Hl]); [done|done| |].
  - apply followed_prefix in Hg. etrans; [|exact Hg]. by apply prefix_app_r.
  - destruct Hg as (l & Hlt & _ & Hg). exists l. rewrite Hl in Hg. destruct (ln_state l); [destruct Hg as (rest & Hf & Hp); by exists rest..|by destruct Hg].
Qed.
End Gapless.

(** ** The checkout page *)

Definition invoice_update (i : string) (a : CheckoutAction) : list StatusUpdate :=
  match a with InvoicePublish _ u => if decide (update_invoice_id u = i) then [u] else [] | _ => [] end.

(** The page's receiver, and what it has yet to read. *)
Definition page_follows (k : CheckoutSocket) (rest : list StatusUpdate) : Prop :=
  (ck_rid k < wb_next (ck_broadcast k))%nat /\
  exists ch next, wb_invoices (ck_broadcast k) !! ck_invoice k = Some ch /\ ch_receivers ch !! ck_rid k = Some next /\
    (next <= length (ch_sent ch))%nat /\ rest = drop next (ch_sent ch).

Definition page_ok (pub : list StatusUpdate) (k : CheckoutSocket) : Prop :=
  exists got, ck_frames k = from_update <$> got /\
    if ck_open k then exists rest, page_follows k rest /\ pub = got ++ rest else got `prefix_of` pub.

Lemma page_ok_prefix pub k : page_ok pub k -> exists got, ck_frames k = from_update <$> got /\ got `prefix_of` pub.
Proof. intros (got & Hf & Ho). exists got. split; [done|]. destruct (ck_open k); [|done]. destruct Ho as (rest & _ & ->). by apply prefix_app_r. Qed.

(** A change around the page. *)
Lemma page_around pub more b k :
  (forall rest, page_follows k rest -> page_follows (ck_with b k) (rest ++ more)) -> page_ok pub k -> page_ok (pub ++ more) (ck_with b k).
Proof.
  intros Hb (got & Hf & Ho). exists got. split; [done|]. cbn. destruct (ck_open k); [|by apply prefix_app_r].
  destruct Ho as (rest & Hr & ->). exists (rest ++ more). split; [by apply Hb|]. by rewrite app_assoc.
Qed.

Lemma page_end pub k : page_ok pub k -> page_ok pub (ck_end k).
Proof. intros Hk. destruct (page_ok_prefix _ _ Hk) as (got & Hf & Hp). by exists got. Qed.

Lemma checkout_act_ok ring a k k' pub : checkout_act ring a k = Some k' -> page_ok pub k -> page_ok (pub ++ invoice_update (ck_invoice k) a) k'.
Proof.
  intros Ha Hk. destruct a as [store u|i|i rid|taken]; cbn [checkout_act invoice_update] in *.
  - injection Ha as <-. apply page_around; [|done]. intros rest (Hlt & ch & next & Hc & Hr & Hle & ->). split; [done|].
    exists (if decide (update_invoice_id u = ck_invoice k) then ch_push u ch else ch), next.
    split; [apply publish_at; [done|by eapply live_receiver]|]. case_decide; cbn; [|by rewrite app_nil_r].
    rewrite length_app. split_and!; [done|cbn; lia|]. by rewrite drop_app_le.
  - injection Ha as <-. apply page_around; [|done]. intros rest (Hlt & ch & next & Hc & Hr & Hle & ->). split; [cbn; lia|].
    exists (if decide (i = ck_invoice k) then ch_join (wb_next (ck_broadcast k)) ch else ch), next.
    split; [apply subscribe_at; [done|by eapply live_receiver]|]. rewrite app_nil_r. case_decide; cbn; [|done]. rewrite lookup_insert_ne by lia. done.
  - destruct (Nat.eqb_spec rid (ck_rid k)); [done|]. injection Ha as <-. apply page_around; [|done].
    intros rest (Hlt & ch & next & Hc & Hr & Hle & ->). split; [done|]. rewrite app_nil_r. cbn. rewrite lookup_alter. case_decide as Hi.
    + exists (ch_leave rid ch), next. rewrite ?Hi, Hc. cbn. rewrite lookup_delete_ne by done. done.
    + by exists ch, next.
  - rewrite app_nil_r. destruct (ck_open k) eqn:Ho; [|done]. cbn [negb] in Ha.
    destruct (recv ring (ck_rid k) _) as [u next| | |] eqn:Hr; [destruct taken|..]; try discriminate Ha; injection Ha as <-; try by apply page_end.
    destruct Hk as (got & Hf & Hk). rewrite Ho in Hk. destruct Hk as (rest & (Hlt & ch & n & Hc & Hrn & Hle & ->) & ->).
    unfold recv in Hr. rewrite Hc, Hrn in Hr. destruct (_ <? _)%nat; [done|]. destruct (ch_sent ch !! n) as [v|] eqn:Hv; [|done]. injection Hr as -> <-.
    exists (got ++ [u]). split; [cbn; by rewrite Hf, fmap_app|]. cbn. exists (drop (S n) (ch_sent ch)). split.
    + split; [done|]. cbn. rewrite lookup_alter_eq, Hc. exists (ch_move (ck_rid k) (S n) ch), (S n). cbn. rewrite lookup_insert_eq.
      apply lookup_lt_Some in Hv. split_and!; try done; lia.
    + rewrite (drop_S _ _ _ Hv). by rewrite <- app_assoc.
Qed.

Lemma checkout_act_invoice ring a k k' : checkout_act ring a k = Some k' -> ck_invoice k' = ck_invoice k.
Proof.
  destruct a as [store u|i|i rid|taken]; cbn; [by intros [= <-]|by intros [= <-]|destruct (_ =? _)%nat; [done|by intros [= <-]]|].
  destruct (ck_open k); [|done]. cbn. destruct (recv _ _ _); [destruct taken|..]; by intros [= <-].
Qed.

(** A public page is sent the updates of its own invoice, all of them in order
    from the moment it is let in until it is closed, and nothing else. *)
Theorem checkout_page_exact ring i b acts k :
  checkout_run ring acts (checkout_joined i b) = Some k ->
  exists got, ck_frames k = from_update <$> got /\ got `prefix_of` (acts ≫= invoice_update i).
Proof.
  intros Hrun. apply page_ok_prefix. enough (Hk : ck_invoice k = i /\ page_ok (acts ≫= invoice_update i) k) by apply Hk. revert k Hrun.
  unfold checkout_run. induction acts as [|a acts IH] using rev_ind; intros k.
  - cbn. intros [= <-]. split; [done|]. exists []. split; [done|]. exists []. split; [|done]. split; [cbn; lia|].
    destruct (subscribed (wb_next b) i (wb_invoices b)) as (ch & Hc & Hr). exists ch, (length (ch_sent ch)). split_and!; [done|done|done|]. by rewrite drop_all.
  - rewrite foldl_snoc. destruct (foldl _ _ acts) as [k1|]; [|done]. cbn. intros Ha. destruct (IH k1 eq_refl) as [Hi Hk].
    rewrite bind_app. cbn. rewrite app_nil_r. split; [by rewrite (checkout_act_invoice _ _ _ _ Ha)|]. rewrite <- Hi. eapply checkout_act_ok; [exact Ha|]. by rewrite Hi.
Qed.

Section Page.
Context `{Runtime} `{Formats} `{Numeric} `{ReadHost} `{!ReadHostLaws}.

Lemma filter_fmap_b {A B} (f : A -> B) (p : B -> bool) l : List.filter p (f <$> l) = f <$> List.filter (fun x => p (f x)) l.
Proof. induction l as [|x l IH]; cbn; [done|]. destruct (p (f x)); cbn; by rewrite IH. Qed.

Lemma filter_perm_b {A} (p : A -> bool) l k : l ≡ₚ k -> List.filter p l ≡ₚ List.filter p k.
Proof.
  induction 1 as [|x l k _ IH|x y l|l k m _ IH1 _ IH2]; cbn; [done| | |by etrans].
  - destruct (p x); [by apply perm_skip|done].
  - destruct (p x), (p y); (apply perm_swap || reflexivity).
Qed.

(** The public page shows the payments of the invoice that stand, all of them
    and no others, and calls it paid exactly when it is. *)
Theorem checkout_shows_standing id o r o' :
  get_checkout id o = (Ok r, o') ->
  of_db o' = of_db o /\
  co_payments r ≡ₚ (fun kr => row_to_payment kr.1 kr.2) <$>
    List.filter (fun kr => negb (pay_reorged kr.2) && String.eqb (pay_invoice_id kr.2) id) (map_to_list (db_payments (rb_db (of_db o)))) /\
  (co_is_paid r = true <-> exists row, db_invoices (rb_db (of_db o)) !! id = Some row /\ inv_status row = Paid).
Proof.
  intros Hrun. enough (Hq : runs (get_checkout id) (of_db o) (fun x d' => forall r, x = Ok r -> d' = of_db o /\
    co_payments r ≡ₚ (fun kr => row_to_payment kr.1 kr.2) <$>
      List.filter (fun kr => negb (pay_reorged kr.2) && String.eqb (pay_invoice_id kr.2) id) (map_to_list (db_payments (rb_db (of_db o)))) /\
    (co_is_paid r = true <-> exists row, db_invoices (rb_db (of_db o)) !! id = Some row /\ inv_status row = Paid))).
  { specialize (Hq o eq_refl). rewrite Hrun in Hq. by apply Hq. }
  clear Hrun. generalize (of_db o). intros d. unfold get_checkout, read_invoice, options_for_invoice.
  office_step. apply runs_map_err, runs_select; [|done]. office_step. apply runs_ok_or; [|done]. intros invoice Hinv.
  office_step. apply runs_map_err. unfold payments_for_invoice. apply runs_tdb; [done|]. intros now. split; [|done]. cbn [fst snd].
  office_step. apply runs_map_err, runs_select; [|done]. office_step. apply runs_now. intros t. apply runs_ret. intros x [= <-]. split; [done|]. cbn.
  split.
  - rewrite filter_fmap_b. apply fmap_Permutation. cbn. rewrite (filter_perm_b _ _ _ (order_payments_perm _ _)).
    clear. induction (map_to_list (db_payments (rb_db d))) as [|kr l IH]; [done|]. cbn.
    destruct (String.eqb (pay_invoice_id kr.2) id), (pay_reorged kr.2) eqn:He; cbn; rewrite ?He; cbn; by rewrite ?IH.
  - rewrite bool_decide_eq_true. destruct (db_invoices (rb_db d) !! id) as [row|]; [|done]. injection Hinv as <-. cbn. split; [by exists row|by intros (? & [= <-] & ?)].
Qed.
End Page.
