(* ===== verification/Deliveries.v ===== *)
(** * The delivery log of webhooks

    [server/src/api/webhook_deliveries.rs] over
    [data-service/src/postgres/webhook_delivery.rs] and the status vocabulary of
    [data-service/src/webhook_delivery.rs]: what was sent to a merchant's
    endpoint, who may list it, and what a replay queues.  The log and the queue
    are tables here; handing over a job is [queue_webhook] of the webhook
    service. *)

From stdpp Require Import gmap strings list sorting.
From Stdlib Require Import ZArith Lia.
From S2P Require Import Prelude Events Network Decimal LiveWatch Database Services Webhook ApiKeys ApiAuth Office Teams Reading.

#[local] Open Scope Z_scope.

(** ** Statuses *)

(** [WebhookDeliveryStatus::as_str] *)
Definition delivery_status_as_str (s : WebhookDeliveryStatus) : string :=
  match s with DPending => "pending" | DRetrying => "retrying" | DDelivered => "delivered" | DFailed => "failed" end.

(** [WebhookDeliveryStatus::from_str] *)
Definition delivery_status_from_str (s : string) : option WebhookDeliveryStatus :=
  if String.eqb s "pending" then Some DPending
  else if String.eqb s "retrying" then Some DRetrying
  else if String.eqb s "delivered" then Some DDelivered
  else if String.eqb s "failed" then Some DFailed
  else None.

(** ** The log *)

(** A row of [webhook_deliveries]. *)
Record DeliveryRecord := mkDeliveryRecord {
  dr_store_webhook_id : Uuid;
  dr_invoice_id : string;
  dr_event_type : string;
  dr_status : string;
  dr_attempts : Z;
  dr_max_attempts : Z;
  dr_last_error : option string;
  dr_payload : Json;
  dr_created_at : Instant;
  dr_updated_at : Instant
}.

(** [WebhookDeliveryData]: a row joined with the store of its webhook *)
Record WebhookDeliveryData := mkWebhookDeliveryData {
  de_id : Uuid;
  de_store_webhook_id : Uuid;
  de_store_id : Uuid;
  de_invoice_id : string;
  de_event_type : string;
  de_status : WebhookDeliveryStatus;
  de_attempts : Z;
  de_max_attempts : Z;
  de_last_error : option string;
  de_payload : Json;
  de_created_at : Instant;
  de_updated_at : Instant
}.

(** [row_to_delivery]: a status it does not know is read as [Failed]. *)
Definition row_to_delivery (id store_id : Uuid) (r : DeliveryRecord) : WebhookDeliveryData :=
  mkWebhookDeliveryData id (dr_store_webhook_id r) store_id (dr_invoice_id r) (dr_event_type r)
    (default DFailed (delivery_status_from_str (dr_status r))) (dr_attempts r) (dr_max_attempts r) (dr_last_error r)
    (dr_payload r) (dr_created_at r) (dr_updated_at r).

(** [UpsertDeliveryParams] *)
Record UpsertDeliveryParams := mkUpsertDeliveryParams {
  up_id : Uuid;
  up_store_webhook_id : Uuid;
  up_invoice_id : string;
  up_event_type : string;
  up_status : WebhookDeliveryStatus;
  up_attempts : Z;
  up_max_attempts : Z;
  up_last_error : option string;
  up_payload : Json
}.

(** The tables of the readers, the log, and the ready queue in Redis. *)
Record DeliveryDb := mkDeliveryDb {
  dd_read : ReadDb;
  dd_deliveries : gmap Z DeliveryRecord;
  dd_ready : gmap string Z
}.

Definition dd_set_deliveries (x : gmap Z DeliveryRecord) (d : DeliveryDb) : DeliveryDb := mkDeliveryDb (dd_read d) x (dd_ready d).
Definition dd_set_ready (x : gmap string Z) (d : DeliveryDb) : DeliveryDb := mkDeliveryDb (dd_read d) (dd_deliveries d) x.
Definition dd_webhooks (d : DeliveryDb) : gmap Z StoreWebhook := db_webhooks (rb_db (dd_read d)).

Abbreviation LogStatement := (TStatement DeliveryDb).
Abbreviation Log A := (St (Office DeliveryDb) Z A).

(** The row an upsert leaves. *)
Definition upserted (p : UpsertDeliveryParams) (now : Instant) (stored : option DeliveryRecord) : DeliveryRecord :=
  let status := delivery_status_as_str (up_status p) in
  match stored with
  | Some r =>
      mkDeliveryRecord (dr_store_webhook_id r) (dr_invoice_id r) (dr_event_type r) status (up_attempts p) (dr_max_attempts r)
        (up_last_error p) (dr_payload r) (dr_created_at r) now
  | None =>
      mkDeliveryRecord (up_store_webhook_id p) (up_invoice_id p) (up_event_type p) status (up_attempts p) (up_max_attempts p)
        (up_last_error p) (up_payload p) now now
  end.

(** [WebhookDeliveryWriter::upsert_delivery]; a trigger sets [updated_at]. *)
Definition upsert_delivery (p : UpsertDeliveryParams) : LogStatement unit :=
  fun now d => (Ok tt, dd_set_deliveries (<[up_id p := upserted p now (dd_deliveries d !! up_id p)]> (dd_deliveries d)) d).

(** [webhook_deliveries JOIN store_webhooks] *)
Definition joined (d : DeliveryDb) : list WebhookDeliveryData :=
  kr ← map_to_list (dd_deliveries d);
  sw ← map_to_list (dd_webhooks d);
  if sw_id sw.2 =? dr_store_webhook_id kr.2 then [row_to_delivery kr.1 sw.1 kr.2] else [].

(** [WebhookDeliveryReader::get_delivery] *)
Definition get_delivery (id : Uuid) : LogStatement (option WebhookDeliveryData) :=
  tselect (fun d => head (List.filter (fun x => de_id x =? id) (joined d))).

(** [StoreWebhookReader::get_enabled_webhook] *)
Definition enabled_webhook (store_id : Uuid) : LogStatement (option StoreWebhook) :=
  tselect (fun d => w ← dd_webhooks d !! store_id; if sw_enabled w then Some w else None).

(** The JSON value of a payload and the assignment of its [event_id], of another
    crate; the order PostgreSQL gives rows in; whether a sink is configured. *)
Class DeliveryHost `{ApiTypes} := {
  payload_to_value : WebhookPayload -> Json;
  payload_of_value : Json -> option WebhookPayload;
  with_event_id : Uuid -> WebhookPayload -> WebhookPayload;
  order_deliveries : Instant -> list WebhookDeliveryData -> list WebhookDeliveryData;
  sink_configured : bool
}.

Class DeliveryHostLaws `{DeliveryHost} `{!HttpWorld} := {
  payload_value_roundtrip p : payload_of_value (payload_to_value p) = Some p;
  with_event_id_key id p : payload_idempotency_key (with_event_id id p) = payload_idempotency_key p;
  with_event_id_invoice id p : payload_invoice_id (with_event_id id p) = payload_invoice_id p;
  with_event_id_type id p : payload_event_type (with_event_id id p) = payload_event_type p;
  order_deliveries_perm t l : order_deliveries t l ≡ₚ l;
  order_deliveries_sorted t l : Sorted (fun a b => de_created_at b <= de_created_at a) (order_deliveries t l)
}.

(** [WebhookDeliveryResponse] *)
Record WebhookDeliveryResponse := mkWebhookDeliveryResponse {
  wr_id : Uuid;
  wr_invoice_id : string;
  wr_event_type : string;
  wr_status : string;
  wr_attempts : Z;
  wr_max_attempts : Z;
  wr_last_error : option string;
  wr_created_at : Instant;
  wr_updated_at : Instant
}.

(** [From<WebhookDeliveryData>] *)
Definition delivery_response (d : WebhookDeliveryData) : WebhookDeliveryResponse :=
  mkWebhookDeliveryResponse (de_id d) (de_invoice_id d) (de_event_type d) (delivery_status_as_str (de_status d)) (de_attempts d)
    (de_max_attempts d) (de_last_error d) (de_created_at d) (de_updated_at d).

Definition DEFAULT_LIMIT : Z := 50.

(** ** Routes *)

Section Routes.
Context `{Runtime} `{Formats} `{Numeric} `{ApiTypes} `{!JobCodec} `{!DeliveryHost}.

(** The two queries of [list_deliveries_for_invoice] and [_for_store] *)
Definition list_joined (keep : WebhookDeliveryData -> bool) (limit offset : Z) : St (Office DeliveryDb) DbError (Z * list WebhookDeliveryData) :=
  let rows d := List.filter keep (joined d) in
  let* total := tdb (tselect (fun d => Z.of_nat (length (rows d)))) in
  let* found := tdb (fun now d => (page limit offset (order_deliveries now (rows d)), d)) in
  st_ret (total, found).

(** [WebhookDeliveryReader::list_deliveries_for_invoice], [list_deliveries_for_store] *)
Definition deliveries_of_invoice (invoice_id : string) := list_joined (fun x => String.eqb (de_invoice_id x) invoice_id).
Definition deliveries_of_store (store_id : Uuid) := list_joined (fun x => de_store_id x =? store_id).

(** The check of the three handlers: others' data looks missing. *)
Definition store_gate (user : UserInfo) (store_id : Uuid) : Log unit :=
  if negb (bool_decide (ui_role user = ServerAdmin)) then
    let* r := fails_500 (tdb (tselect (fun d => td_user_stores (rb_team (dd_read d)) !! (ui_id user, store_id)))) in
    if negb (option_is_some r) then st_throw 404 else st_ret tt
  else st_ret tt.

(** [delivery_for_store] *)
Definition delivery_for_store (store_id delivery_id : Uuid) : Log WebhookDeliveryData :=
  let* r := fails_500 (tdb (get_delivery delivery_id)) in
  let* delivery := ok_or 404 r in
  if negb (de_store_id delivery =? store_id) then st_throw 404 else st_ret delivery.

(** The handler [list_deliveries_for_invoice] *)
Definition list_deliveries_for_invoice (user : UserInfo) (invoice_id : string) : Log (Z * list WebhookDeliveryResponse) :=
  let* r := fails_500 (tdb (tselect (fun d => row_to_invoice invoice_id <$> db_invoices (rb_db (dd_read d)) !! invoice_id))) in
  let* invoice := ok_or 404 r in
  do* store_gate user (id_store_id invoice);
  let* found := fails_500 (deliveries_of_invoice invoice_id DEFAULT_LIMIT 0) in
  st_ret (found.1, delivery_response <$> found.2).

(** The handler [list_deliveries_for_store] *)
Definition list_deliveries_for_store (user : UserInfo) (store_id : Uuid) : Log (Z * list WebhookDeliveryResponse) :=
  do* store_gate user store_id;
  let* found := fails_500 (deliveries_of_store store_id DEFAULT_LIMIT 0) in
  st_ret (found.1, delivery_response <$> found.2).

(** The parameters [write_delivery_record] builds. *)
Definition delivery_params (job : WebhookJob) (status : WebhookDeliveryStatus) (attempts : Z) (last_error : option string) : UpsertDeliveryParams :=
  mkUpsertDeliveryParams (wj_id job) (wj_store_webhook_id job) (payload_invoice_id (wj_payload job)) (payload_event_type (wj_payload job))
    status attempts (u32_as_i32 (wj_max_attempts job)) last_error (payload_to_value (wj_payload job)).

(** [WebhookSink::queue], by [queue_webhook]: a connection, the [ZADD], and the
    row of the log, whose failure is only logged *)
Definition sink_queue (job : WebhookJob) : St (Office DeliveryDb) DbError unit :=
  do* tdb (tselect (fun _ => tt));
  do* tdb (twrite (fun d => dd_set_ready (<[job_to_json job := timestamp (wj_scheduled_at job)]> (dd_ready d)) d));
  do* st_try (tdb (upsert_delivery (delivery_params job DPending 0 None)));
  st_ret tt.

(** [replayed_payload] *)
Definition replayed_payload (original : WebhookPayload) : Log WebhookPayload :=
  let* id := of_fresh in
  st_ret (with_event_id id original).

(** [replay_delivery] *)
Definition replay_delivery (user : UserInfo) (store_id delivery_id : Uuid) : Log WebhookDeliveryResponse :=
  do* store_gate user store_id;
  let* delivery := delivery_for_store store_id delivery_id in
  let* original := ok_or 500 (payload_of_value (de_payload delivery)) in
  let* payload := replayed_payload original in
  let* r := fails_500 (tdb (enabled_webhook store_id)) in
  let* webhook_config := ok_or 409 r in
  if negb sink_configured then st_throw 503
  else
  let* id := of_fresh in
  let* now := of_now in
  let job := new_job id now (sw_id webhook_config) (sw_url webhook_config) (sw_secret webhook_config) payload in
  let response := mkWebhookDeliveryResponse (wj_id job) (payload_invoice_id (wj_payload job)) (payload_event_type (wj_payload job))
                    "pending" 0 (u32_as_i32 (wj_max_attempts job)) None (wj_created_at job) (wj_created_at job) in
  do* fails_500 (sink_queue job);
  st_ret response.
End Routes.

(** ** What is on file *)

Lemma delivery_status_roundtrip s : delivery_status_from_str (delivery_status_as_str s) = Some s.
Proof. by destruct s. Qed.

Lemma elem_of_joined d x : x ∈ joined d <->
  exists id s r w, dd_deliveries d !! id = Some r /\ dd_webhooks d !! s = Some w /\ sw_id w = dr_store_webhook_id r /\ x = row_to_delivery id s r.
Proof.
  unfold joined. rewrite list_elem_of_bind. setoid_rewrite list_elem_of_bind. setoid_rewrite elem_of_map_to_list'. split.
  - intros ([id r] & ([s w] & Hx & Hw) & Hr). cbn in *. destruct (Z.eqb_spec (sw_id w) (dr_store_webhook_id r)); [|by apply not_elem_of_nil in Hx].
    apply list_elem_of_singleton in Hx. by exists id, s, r, w.
  - intros (id & s & r & w & Hr & Hw & He & ->). exists (id, r). split; [|done]. exists (s, w). split; [|done].
    cbn. rewrite (proj2 (Z.eqb_eq _ _) He). by apply list_elem_of_singleton.
Qed.

(** The caller is an administrator or belongs to the store. *)
Definition may_see (user : UserInfo) (store_id : Uuid) (d : DeliveryDb) : Prop :=
  ui_role user = ServerAdmin \/ is_Some (td_user_stores (rb_team (dd_read d)) !! (ui_id user, store_id)).

(** What happens to the log: rows are written, and the other tables move on. *)
Inductive LogOp :=
| LogWrite (now : Instant) (p : UpsertDeliveryParams)
| TablesMove (r : ReadDb) (ready : gmap string Z).

Definition log_step (d : DeliveryDb) (op : LogOp) : DeliveryDb :=
  match op with
  | LogWrite now p => snd (upsert_delivery p now d)
  | TablesMove r ready => mkDeliveryDb r (dd_deliveries d) ready
  end.
Definition log_run (ops : list LogOp) (d : DeliveryDb) : DeliveryDb := foldl log_step d ops.

(** What a row says of the event, as opposed to the attempts. *)
Definition event_of (r : DeliveryRecord) :=
  (dr_store_webhook_id r, dr_invoice_id r, dr_event_type r, dr_max_attempts r, dr_payload r, dr_created_at r).

Lemma log_keeps_event ops d id r : dd_deliveries d !! id = Some r ->
  exists r', dd_deliveries (log_run ops d) !! id = Some r' /\ event_of r' = event_of r.
Proof.
  revert d r. induction ops as [|[now p|rd q] ops IH]; intros d r Hr; [by exists r| |by apply IH].
  destruct (decide (up_id p = id)) as [<- |Hne].
  - edestruct (IH (log_step d (LogWrite now p))) as (r' & Hr' & He); [apply lookup_insert_eq|].
    exists r'. split; [done|]. rewrite He. cbn. by rewrite Hr.
  - apply IH. cbn. by rewrite lookup_insert_ne.
Qed.

(** ** What the routes do *)

Section Facts.
Context `{Runtime} `{Formats} `{Numeric} `{ApiTypes} `{!JobCodec} `{!DeliveryHost} `{!HttpWorld} `{!DeliveryHostLaws}.

Lemma runs_store_gate user store_id d (Q : result Z unit -> DeliveryDb -> Prop) :
  (may_see user store_id d -> Q (Ok tt) d) -> (forall e, Q (Err e) d) -> runs (store_gate user store_id) d Q.
Proof.
  intros Hok Herr. unfold store_gate. case_bool_decide as Hr; cbn [negb].
  - apply runs_ret, Hok. by left.
  - repeat office_step; auto. apply Hok. right. by destruct (_ !! _).
Qed.

Lemma runs_delivery_for_store store_id id d (Q : result Z WebhookDeliveryData -> DeliveryDb -> Prop) :
  (forall r w, dd_deliveries d !! id = Some r -> dd_webhooks d !! store_id = Some w -> sw_id w = dr_store_webhook_id r ->
     Q (Ok (row_to_delivery id store_id r)) d) ->
  (forall e, Q (Err e) d) -> runs (delivery_for_store store_id id) d Q.
Proof.
  intros Hok Herr. unfold delivery_for_store, get_delivery. repeat office_step; auto.
  destruct (List.filter _ (joined d)) as [|y l] eqn:Hf; [done|]. simplify_eq/=.
  assert (Hin : a ∈ List.filter (fun x => de_id x =? id) (joined d)) by (rewrite Hf; apply list_elem_of_here).
  apply elem_of_filter_b in Hin as [Hid (id' & s & r & w & Hr & Hw & He & ->)%elem_of_joined].
  apply Z.eqb_eq in Hid. cbn in Hid. subst id'.
  match goal with Hs : negb _ = false |- _ => apply negb_false_iff, Z.eqb_eq in Hs; cbn in Hs; subst s end. eauto.
Qed.

(** A job on the queue, and on the log unless that write was lost. *)
Definition queued_in (job : WebhookJob) (d d' : DeliveryDb) : Prop :=
  dd_read d' = dd_read d /\
  dd_ready d' = <[job_to_json job := timestamp (wj_scheduled_at job)]> (dd_ready d) /\
  (dd_deliveries d' = dd_deliveries d \/
   exists now, dd_deliveries d' = <[wj_id job := upserted (delivery_params job DPending 0 None) now (dd_deliveries d !! wj_id job)]> (dd_deliveries d)).

Lemma runs_sink_queue job d (Q : result DbError unit -> DeliveryDb -> Prop) :
  (forall e, Q (Err e) d) -> (forall r d', queued_in job d d' -> Q r d') -> runs (sink_queue job) d Q.
Proof.
  intros Herr Hq. unfold sink_queue. apply runs_bind, runs_select; [|by apply Herr].
  apply runs_bind, runs_tdb; [by apply Herr|]. intros t. cbn. split; [|apply Hq; split_and!; auto].
  apply runs_bind, runs_try, runs_tdb; [|intros t'; split]; apply runs_ret, Hq; split_and!; cbn; eauto.
Qed.

(** A job that carries [payload] to the endpoint of [w]. *)
Definition carries (w : StoreWebhook) (payload : WebhookPayload) (job : WebhookJob) : Prop :=
  wj_store_webhook_id job = sw_id w /\ wj_webhook_url job = sw_url w /\ wj_webhook_secret job = sw_secret w /\
  wj_payload job = payload /\ wj_attempts job = 0 /\ wj_scheduled_at job = wj_created_at job.

Lemma runs_replay user store_id id d :
  runs (replay_delivery user store_id id) d (fun r d' =>
    (d' = d /\ is_ok r = false) \/
    exists row w original event_id job,
      may_see user store_id d /\ dd_deliveries d !! id = Some row /\ dd_webhooks d !! store_id = Some w /\
      sw_id w = dr_store_webhook_id row /\ sw_enabled w = true /\ payload_of_value (dr_payload row) = Some original /\
      carries w (with_event_id event_id original) job /\ queued_in job d d' /\ (forall resp, r = Ok resp -> wr_id resp = wj_id job)).
Proof.
  unfold replay_delivery. apply runs_bind, runs_store_gate; [|by left]. intros Hsee.
  apply runs_bind, runs_delivery_for_store; [|by left]. intros row w Hrow Hw Hid. cbn [de_payload row_to_delivery].
  apply runs_bind, runs_ok_or; [intros original Hp|by left]. unfold replayed_payload.
  apply runs_bind, runs_bind, runs_fresh. intros event_id. apply runs_ret.
  apply runs_bind, runs_map_err, runs_select; [|by left]. rewrite Hw. cbn [mbind option_bind].
  destruct (sw_enabled w) eqn:Hen; [|by apply runs_bind, runs_throw; left]. apply runs_bind, runs_ret.
  destruct (negb sink_configured); [by apply runs_throw; left|].
  apply runs_bind, runs_fresh. intros jid. apply runs_bind, runs_now. intros now.
  apply runs_bind, runs_map_err, runs_sink_queue; [by left|]. intros r d' Hq.
  destruct r as [[]|e]; [apply runs_ret|]; right; exists row, w, original, event_id, (new_job jid now (sw_id w) (sw_url w) (sw_secret w) (with_event_id event_id original));
    repeat (split; [done|]); by intros ? [= <-].
Qed.

(** A delivery that was logged when its job was queued, after any later
    writes to the log and any change of the other tables: asked to replay it,
    the server changes nothing and answers with an error, or the caller is an
    administrator or a member of the store, the store's webhook is enabled and
    the very one the delivery went to, and one job was added to the queue: the
    payload of the first time with another event id, so with the same
    idempotency key, for the URL and secret the webhook has now.  An answer
    names that job. *)
Theorem replay_resends_first_event user store_id job now ops d :
  dd_deliveries d !! wj_id job = None ->
  let d1 := log_run ops (snd (upsert_delivery (delivery_params job DPending 0 None) now d)) in
  runs (replay_delivery user store_id (wj_id job)) d1 (fun r d' =>
    (d' = d1 /\ is_ok r = false) \/
    exists w event_id again,
      may_see user store_id d1 /\ dd_webhooks d1 !! store_id = Some w /\ sw_enabled w = true /\ sw_id w = wj_store_webhook_id job /\
      carries w (with_event_id event_id (wj_payload job)) again /\
      payload_idempotency_key (wj_payload again) = payload_idempotency_key (wj_payload job) /\
      queued_in again d1 d' /\ (forall resp, r = Ok resp -> wr_id resp = wj_id again)).
Proof.
  intros Hnew d1. eapply runs_mono; [apply runs_replay|]. cbn beta.
  intros r d' [Hd|(row & w & original & event_id & again & Hsee & Hrow & Hw & Hid & Hen & Hp & Hc & Hq & Hr)]; [by left|].
  right. exists w, event_id, again.
  destruct (log_keeps_event ops (snd (upsert_delivery (delivery_params job DPending 0 None) now d)) (wj_id job)
    (upserted (delivery_params job DPending 0 None) now None)) as (row' & Hrow' & He); [cbn; rewrite lookup_insert_eq; by rewrite Hnew|].
  fold d1 in Hrow'. rewrite Hrow in Hrow'. injection Hrow' as <-. injection He as Hwid _ _ _ Hpay _.
  rewrite Hpay, payload_value_roundtrip in Hp. injection Hp as <-. rewrite <- Hwid.
  split_and!; try done; destruct Hc as (_ & _ & _ & -> & _); [done..|]. apply with_event_id_key.
Qed.

(** No two stores have a webhook of the same id, the primary key. *)
Definition webhooks_distinct (d : DeliveryDb) : Prop :=
  forall s s' w w', dd_webhooks d !! s = Some w -> dd_webhooks d !! s' = Some w' -> sw_id w = sw_id w' -> s = s'.

Lemma get_delivery_exact id store_id r w d now :
  webhooks_distinct d -> dd_deliveries d !! id = Some r -> dd_webhooks d !! store_id = Some w -> sw_id w = dr_store_webhook_id r ->
  get_delivery id now d = (Ok (Some (row_to_delivery id store_id r)), d).
Proof.
  intros Hpk Hr Hw He. unfold get_delivery, tselect. do 3 f_equal.
  assert (Hin : row_to_delivery id store_id r ∈ List.filter (fun x => de_id x =? id) (joined d)).
  { apply elem_of_filter_b. split; [apply Z.eqb_refl|]. apply elem_of_joined. eauto 10. }
  destruct (List.filter _ (joined d)) as [|x l] eqn:Hf; [by apply not_elem_of_nil in Hin|]. cbn. f_equal.
  assert (Hx : x ∈ List.filter (fun x => de_id x =? id) (joined d)) by (rewrite Hf; apply list_elem_of_here).
  apply elem_of_filter_b in Hx as [Hid (id' & s & r' & w' & Hr' & Hw' & He' & ->)%elem_of_joined].
  apply Z.eqb_eq in Hid. cbn in Hid. subst id'. simplify_eq. f_equal. eapply Hpk; [exact Hw'|exact Hw|congruence].
Qed.

(** While every request is answered, a replay by who may see the store, of a
    delivery on file whose payload can be read, to the store's enabled webhook,
    is queued and answered. *)
Theorem replay_accepted user store_id id r w original (o : Office DeliveryDb) :
  (forall n, calls n = Answered) -> sink_configured = true -> webhooks_distinct (of_db o) -> may_see user store_id (of_db o) ->
  dd_deliveries (of_db o) !! id = Some r -> payload_of_value (dr_payload r) = Some original ->
  dd_webhooks (of_db o) !! store_id = Some w -> sw_id w = dr_store_webhook_id r -> sw_enabled w = true ->
  exists resp o' again event_id, replay_delivery user store_id id o = (Ok resp, o') /\ carries w (with_event_id event_id original) again /\
    wr_id resp = wj_id again /\ dd_ready (of_db o') !! job_to_json again = Some (timestamp (wj_scheduled_at again)) /\
    dd_deliveries (of_db o') !! wj_id again =
      Some (upserted (delivery_params again DPending 0 None) (clock (pred (of_ticks o'))) (dd_deliveries (of_db o) !! wj_id again)).
Proof.
  intros Hup Hsink Hpk Hsee Hr Hp Hw He Hen.
  assert (Hgate : exists o1, store_gate user store_id o = (Ok tt, o1) /\ of_db o1 = of_db o).
  { unfold store_gate. case_bool_decide as Hadm; cbn [negb]; [by exists o|]. destruct Hsee as [?|[role Hrole]]; [done|].
    unfold st_bind, fails_500, st_map_err, tdb. rewrite Hup. cbn. rewrite Hrole. by eexists. }
  destruct Hgate as (o1 & Hg & Hdb).
  unfold replay_delivery, delivery_for_store, replayed_payload, sink_queue, st_bind. rewrite Hg.
  unfold fails_500, st_map_err, st_try, tdb, st_bind, st_ret, ok_or, of_fresh, of_now, of_tick.
  rewrite !Hup, Hdb, (get_delivery_exact id store_id r w _ _ Hpk Hr Hw He). cbn -[upserted new_job].
  rewrite Z.eqb_refl. cbn -[upserted new_job]. rewrite Hp. cbn -[upserted new_job]. rewrite !Hup. cbn -[upserted new_job]. rewrite Hw. cbn -[upserted new_job].
  rewrite Hen, Hsink. cbn -[upserted new_job].
  repeat (rewrite ?Hup; cbn -[upserted new_job]).
  eexists _, _, (new_job _ _ (sw_id w) (sw_url w) (sw_secret w) (with_event_id _ original)), _. split; [reflexivity|]. cbn.
  rewrite !lookup_insert_eq. done.
Qed.

(** Newest first. *)
Definition newest_on_top (l : list WebhookDeliveryData) : Prop := Sorted (fun a b => de_created_at b <= de_created_at a) l.

(** A listing is the fifty newest of the deliveries it is about, with their
    number. *)
Definition lists (keep : WebhookDeliveryData -> bool) (d : DeliveryDb) (answer : Z * list WebhookDeliveryResponse) : Prop :=
  let rows := List.filter keep (joined d) in
  answer.1 = Z.of_nat (length rows) /\
  exists ordered, ordered ≡ₚ rows /\ newest_on_top ordered /\ answer.2 = delivery_response <$> take 50 ordered.

Lemma runs_list_joined keep d (Q : result DbError (Z * list WebhookDeliveryData) -> DeliveryDb -> Prop) :
  (forall total found, lists keep d (total, delivery_response <$> found) -> Q (Ok (total, found)) d) -> (forall e, Q (Err e) d) ->
  runs (list_joined keep DEFAULT_LIMIT 0) d Q.
Proof.
  intros Hok Herr. unfold list_joined. apply runs_bind, runs_select; [|by apply Herr]. apply runs_bind, runs_tdb; [by apply Herr|].
  intros now. cbn. split; [|by apply Herr]. apply runs_ret, Hok. split; [done|].
  exists (order_deliveries now (List.filter keep (joined d))). split_and!; [apply order_deliveries_perm|apply order_deliveries_sorted|done].
Qed.

(** Whatever fails, listing deliveries changes nothing, and an answer goes only
    to an administrator or a member of the store, respectively of the store of
    the invoice: the number of its deliveries, and the fifty newest of them. *)
Theorem delivery_lists_exact user store_id invoice_id d :
  runs (list_deliveries_for_store user store_id) d (fun r d' => d' = d /\
    forall answer, r = Ok answer -> may_see user store_id d /\ lists (fun x => de_store_id x =? store_id) d answer) /\
  runs (list_deliveries_for_invoice user invoice_id) d (fun r d' => d' = d /\
    forall answer, r = Ok answer -> exists i, db_invoices (rb_db (dd_read d)) !! invoice_id = Some i /\ may_see user (inv_store_id i) d /\
      lists (fun x => String.eqb (de_invoice_id x) invoice_id) d answer).
Proof.
  split.
  - unfold list_deliveries_for_store, deliveries_of_store. apply runs_bind, runs_store_gate; [|done]. intros Hsee.
    apply runs_bind, runs_map_err, runs_list_joined; [|done]. intros total found Hl. apply runs_ret. split; [done|]. by intros ? [= <-].
  - unfold list_deliveries_for_invoice, deliveries_of_invoice. apply runs_bind, runs_map_err, runs_select; [|done].
    destruct (db_invoices _ !! invoice_id) as [i|] eqn:Hi; [|by apply runs_bind, runs_throw]. cbn [fmap option_fmap option_map].
    apply runs_bind, runs_ret, runs_bind, runs_store_gate; [|done]. intros Hsee.
    apply runs_bind, runs_map_err, runs_list_joined; [|done]. intros total found Hl. apply runs_ret. split; [done|].
    intros ? [= <-]. by exists i.
Qed.

(** Once no store has the webhook a delivery went to, the delivery is in no
    listing and a replay of it fails: also when the store has a webhook again. *)
Theorem deleted_webhook_hides_deliveries id r d :
  dd_deliveries d !! id = Some r -> (forall s w, dd_webhooks d !! s = Some w -> sw_id w <> dr_store_webhook_id r) ->
  (forall x, x ∈ joined d -> de_id x <> id) /\
  forall user store_id, runs (replay_delivery user store_id id) d (fun res d' => d' = d /\ is_ok res = false).
Proof.
  intros Hr Hgone. split.
  - intros x (id' & s & r' & w & Hr' & Hw & He & ->)%elem_of_joined Hid. cbn in Hid. subst id'. simplify_eq. by eapply Hgone.
  - intros user store_id. eapply runs_mono; [apply runs_replay|]. cbn beta.
    intros res d' [Hd|(row & w & ? & ? & ? & _ & Hrow & Hw & He & _)]; [done|]. simplify_eq. by destruct (Hgone _ _ Hw).
Qed.
End Facts.
