(* ===== verification/Tokens.v ===== *)
(** * The token registry

    [evm/src/api/tokens.rs], [networks.rs] and [extractors.rs], the standards of
    [evm/src/tokens.rs], and the table of [data-service/src/postgres/token.rs]:
    which tokens the server knows, who may change that, and what a lookup by
    contract finds.  Text is ASCII. *)

From stdpp Require Import gmap strings list sorting.
From Stdlib Require Import ZArith Lia Ascii.
From S2P Require Import Prelude Events Network Decimal LiveWatch Database Services Idempotency ApiKeys ApiAuth Office Teams Reading.

#[local] Open Scope Z_scope.

(** ** Standards *)

(** [EvmTokenStandard] *)
Inductive EvmTokenStandard := Erc20 | Erc721 | Erc1155.

(** [EvmTokenStandard::as_str] *)
Definition standard_as_str (s : EvmTokenStandard) : string :=
  match s with Erc20 => "erc20" | Erc721 => "erc721" | Erc1155 => "erc1155" end.

(** [EvmTokenStandard::from_str] *)
Definition standard_from_str (s : string) : option EvmTokenStandard :=
  let l := to_lowercase s in
  if String.eqb l "erc20" then Some Erc20
  else if String.eqb l "erc721" then Some Erc721
  else if String.eqb l "erc1155" then Some Erc1155
  else None.

(** [EvmTokenStandard::validate] *)
Definition standard_validate (s : EvmTokenStandard) (decimals : option Z) (token_id : option string) : bool :=
  match s with
  | Erc20 => option_is_some decimals && negb (option_is_some token_id)
  | Erc721 => negb (option_is_some decimals)
  | Erc1155 => option_is_some token_id
  end.

(** ** The table *)

(** [TokenData], and a row of [tokens] *)
Record TokenData := mkTokenData {
  tk_id : option Z;
  tk_type : string;
  tk_address : string;
  tk_chain_id : string;
  tk_enabled : bool;
  tk_name : option string;
  tk_symbol : option string;
  tk_decimals : option Z;
  tk_token_id : option string
}.

Record TokenRecord := mkTokenRecord {
  tr_type : string;
  tr_address : string;
  tr_chain_id : string;
  tr_enabled : bool;
  tr_name : option string;
  tr_symbol : option string;
  tr_decimals : option Z;
  tr_token_id : option string
}.

(** The rows, and the next value of the sequence behind [BIGSERIAL]. *)
Record TokenDb := mkTokenDb { tb_rows : gmap Z TokenRecord; tb_next : Z }.

Abbreviation TokenStatement := (TStatement TokenDb).
Abbreviation Registry A := (St (Office TokenDb) Z A).

(** [row_to_token]; [decimals] is a [SMALLINT] read as [u8]. *)
Definition row_to_token (id : Z) (r : TokenRecord) : TokenData :=
  mkTokenData (Some id) (tr_type r) (tr_address r) (tr_chain_id r) (tr_enabled r) (tr_name r) (tr_symbol r)
    ((fun d => d mod 256) <$> tr_decimals r) (tr_token_id r).

(** What [INSERT] and [UPDATE] bind. *)
Definition bound_row (t : TokenData) : TokenRecord :=
  mkTokenRecord (tk_type t) (tk_address t) (tk_chain_id t) (tk_enabled t) (tk_name t) (tk_symbol t) (tk_decimals t) (tk_token_id t).

(** The domain [caip2] *)
Definition in_range (lo hi : nat) (a : ascii) : bool := let n := nat_of_ascii a in ((lo <=? n) && (n <=? hi))%nat.
Definition namespace_char (a : ascii) : bool := in_range 97 122 a || in_range 48 57 a || Ascii.eqb a "-".
Definition reference_char (a : ascii) : bool := namespace_char a || in_range 65 90 a || Ascii.eqb a "_".
Fixpoint caip2_from (seen : nat) (s : string) : bool :=
  match s with
  | EmptyString => false
  | String a rest =>
      if Ascii.eqb a ":" then
        (3 <=? seen)%nat && (seen <=? 8)%nat && (1 <=? String.length rest)%nat && (String.length rest <=? 32)%nat && str_forall reference_char rest
      else namespace_char a && caip2_from (S seen) rest
  end.
Definition caip2 (s : string) : bool := caip2_from 0 s.

Definition fits (n : nat) (s : string) : bool := (String.length s <=? n)%nat.
Definition fits_opt (n : nat) (o : option string) : bool := holds (fits n) o.

(** The types and checks of the columns *)
Definition columns_ok (r : TokenRecord) : bool :=
  fits 32 (tr_type r) && fits 128 (tr_address r) && caip2 (tr_chain_id r) && fits_opt 128 (tr_name r) && fits_opt 32 (tr_symbol r)
  && holds (fun d => (0 <=? d) && (d <=? 18)) (tr_decimals r) && fits_opt 78 (tr_token_id r).

(** [UNIQUE NULLS NOT DISTINCT (chain_id, address, token_id)] *)
Definition token_key (r : TokenRecord) : string * string * option string := (tr_chain_id r, tr_address r, tr_token_id r).
Definition key_free (id : Z) (r : TokenRecord) (rows : gmap Z TokenRecord) : bool :=
  forallb (fun kr => (kr.1 =? id) || negb (bool_decide (token_key kr.2 = token_key r))) (map_to_list rows).
Definition row_accepted (id : Z) (r : TokenRecord) (rows : gmap Z TokenRecord) : bool := columns_ok r && key_free id r rows.

(** [TokenReader::get] *)
Definition token_get (id : Z) : TokenStatement (option TokenData) := tselect (fun d => row_to_token id <$> tb_rows d !! id).

(** [TokenWriter::insert]: the sequence moves on also when the row is refused. *)
Definition token_insert (t : TokenData) : TokenStatement Z :=
  fun _ d =>
    let id := tb_next d in
    if row_accepted id (bound_row t) (tb_rows d)
    then (Ok id, mkTokenDb (<[id := bound_row t]> (tb_rows d)) (id + 1))
    else (Err ConstraintViolation, mkTokenDb (tb_rows d) (id + 1)).

(** [TokenWriter::update] *)
Definition token_update (t : TokenData) : TokenStatement unit :=
  fun _ d =>
    match tk_id t with
    | None => (Err Malformed, d)
    | Some id =>
        match tb_rows d !! id with
        | None => (Err TokenNotFound, d)
        | Some _ =>
            if row_accepted id (bound_row t) (tb_rows d)
            then (Ok tt, mkTokenDb (<[id := bound_row t]> (tb_rows d)) (tb_next d))
            else (Err ConstraintViolation, d)
        end
    end.

(** [TokenWriter::delete] *)
Definition token_delete (id : Z) : TokenStatement unit :=
  fun _ d =>
    match tb_rows d !! id with
    | Some _ => (Ok tt, mkTokenDb (delete id (tb_rows d)) (tb_next d))
    | None => (Err TokenNotFound, d)
    end.

Definition with_enabled (enabled : bool) (r : TokenRecord) : TokenRecord :=
  mkTokenRecord (tr_type r) (tr_address r) (tr_chain_id r) enabled (tr_name r) (tr_symbol r) (tr_decimals r) (tr_token_id r).

(** [TokenWriter::set_enabled] *)
Definition token_set_enabled (id : Z) (enabled : bool) : TokenStatement unit :=
  fun _ d =>
    match tb_rows d !! id with
    | Some r => (Ok tt, mkTokenDb (<[id := with_enabled enabled r]> (tb_rows d)) (tb_next d))
    | None => (Err TokenNotFound, d)
    end.

(** [TokenQueryParams] *)
Record TokenQuery := mkTokenQuery {
  tq_type : option string;
  tq_chain_id : option string;
  tq_enabled : option bool;
  tq_symbol : option string;
  tq_limit : Z;
  tq_offset : Z
}.

(** The conditions of [TokenReader::query] *)
Definition token_matches (q : TokenQuery) (t : TokenData) : bool :=
  holds (String.eqb (tk_type t)) (tq_type q)
  && holds (String.eqb (tk_chain_id t)) (tq_chain_id q)
  && holds (Bool.eqb (tk_enabled t)) (tq_enabled q)
  && holds (fun s => match tk_symbol t with Some x => String.eqb (to_lowercase x) (to_lowercase s) | None => false end) (tq_symbol q).

Definition all_tokens (d : TokenDb) : list TokenData := (fun kr => row_to_token kr.1 kr.2) <$> map_to_list (tb_rows d).

(** Chain ids and permissions of roles, of other crates, and the orders in which
    PostgreSQL gives rows. *)
Class TokenHost := {
  chain_parse : string -> option string;
  chain_is_evm : string -> bool;
  manages_tokens : Role -> bool;
  order_by_token_id : Instant -> list TokenData -> list TokenData;
  order_tokens : Instant -> list TokenData -> list TokenData
}.

Class TokenHostLaws `{TokenHost} := {
  order_by_token_id_perm t l : order_by_token_id t l ≡ₚ l;
  order_by_token_id_nulls t l : StronglySorted (fun a b => tk_token_id b = None -> tk_token_id a = None) (order_by_token_id t l);
  order_tokens_perm t l : order_tokens t l ≡ₚ l
}.

(** ** Requests *)

(** [CreateTokenRequest], [UpdateTokenRequest], [ListTokensQuery] *)
Record CreateTokenRequest := mkCreateTokenRequest {
  ct_standard : string;
  ct_address : string;
  ct_chain_id : string;
  ct_name : option string;
  ct_symbol : option string;
  ct_decimals : option Z;
  ct_token_id : option string;
  ct_enabled : bool
}.

Record UpdateTokenRequest := mkUpdateTokenRequest {
  ut_name : option string;
  ut_symbol : option string;
  ut_decimals : option Z;
  ut_enabled : option bool
}.

Record ListTokensQuery := mkListTokensQuery {
  lt_token_type : option string;
  lt_chain_id : option string;
  lt_enabled : option bool;
  lt_symbol : option string;
  lt_limit : Z;
  lt_offset : Z
}.

(** [TokenResponse]: the token, with 0 for an id that is not set *)
Definition token_response (t : TokenData) : TokenData :=
  mkTokenData (Some (default 0 (tk_id t))) (tk_type t) (tk_address t) (tk_chain_id t) (tk_enabled t) (tk_name t) (tk_symbol t)
    (tk_decimals t) (tk_token_id t).

Section Routes.
Context `{Runtime} `{UuidText} `{AuthHost} `{TokenHost}.

(** [TokenReader::get_by_address] *)
Definition get_by_address (chain_id address : string) : TokenStatement (option TokenData) :=
  fun now d =>
    (Ok (head (order_by_token_id now (List.filter (fun t => String.eqb (tk_chain_id t) chain_id
       && String.eqb (to_lowercase (tk_address t)) (to_lowercase address)) (all_tokens d)))), d).

(** [TokenReader::find_by_symbol]: the row that comes first *)
Definition find_by_symbol (chain_id symbol : string) : TokenStatement (option TokenData) :=
  fun now d =>
    (Ok (head (order_tokens now (List.filter (fun t => String.eqb (tk_chain_id t) chain_id
       && match tk_symbol t with Some x => String.eqb (to_lowercase x) (to_lowercase symbol) | None => false end) (all_tokens d)))), d).

(** [TokenReader::get_enabled_for_chain] *)
Definition get_enabled_for_chain (chain_id : string) : TokenStatement (list TokenData) :=
  fun now d => (Ok (order_tokens now (List.filter (fun t => String.eqb (tk_chain_id t) chain_id && tk_enabled t) (all_tokens d))), d).

(** [TokenReader::query] *)
Definition query_tokens (q : TokenQuery) : St (Office TokenDb) DbError (Z * list TokenData) :=
  let* total := tdb (tselect (fun d => Z.of_nat (length (List.filter (token_matches q) (all_tokens d))))) in
  let* found := tdb (fun now d => (page (tq_limit q) (tq_offset q) (order_tokens now (List.filter (token_matches q) (all_tokens d))), d)) in
  st_ret (total, found).

(** [extract_session_id] *)
Definition extract_session_id (headers : list (string * string)) : result Z Uuid :=
  match (h ← get_header "authorization" headers; s ← header_to_str h; token ← strip_bearer "Bearer " s; parse_uuid token) with
  | Some id => Ok id
  | None => Err 401
  end.

(** [AdminAuth] *)
Definition evm_admin_auth (headers : list (string * string)) : Registry UserInfo :=
  let* session_id := st_lift (extract_session_id headers) in
  let* n := st_gets of_ticks in
  match validate_session_token n session_id with
  | None => st_throw 401
  | Some (user_info, _) => if negb (manages_tokens (ui_role user_info)) then st_throw 403 else st_ret user_info
  end.

(** [validate_token_standard] *)
Definition validate_token_standard (standard : string) (decimals : option Z) (token_id : option string) : result Z unit :=
  match standard_from_str standard with
  | None => Err 400
  | Some std => if standard_validate std decimals token_id then Ok tt else Err 400
  end.

(** [list_tokens] *)
Definition list_tokens (query : ListTokensQuery) : Registry (Z * list TokenData) :=
  let* chain := (match lt_chain_id query with
                 | Some c => let* c := ok_or 400 (chain_parse c) in st_ret (Some c)
                 | None => st_ret None
                 end) in
  let params := mkTokenQuery (lt_token_type query) chain (lt_enabled query) (lt_symbol query) (lt_limit query) (lt_offset query) in
  let* found := fails_500 (query_tokens params) in
  st_ret (found.1, token_response <$> found.2).

(** [get_token] *)
Definition get_token (id : Z) : Registry TokenData :=
  let* r := fails_500 (tdb (token_get id)) in
  let* token := ok_or 404 r in
  st_ret (token_response token).

(** [create_token] *)
Definition create_token (req : CreateTokenRequest) : Registry TokenData :=
  let* chain_id := ok_or 400 (chain_parse (ct_chain_id req)) in
  if negb (chain_is_evm chain_id) then st_throw 400
  else
  do* st_lift (validate_token_standard (ct_standard req) (ct_decimals req) (ct_token_id req));
  let token := mkTokenData None (ct_standard req) (ct_address req) chain_id (ct_enabled req) (ct_name req) (ct_symbol req)
                 (ct_decimals req) (ct_token_id req) in
  let* id := st_map_err (fun _ => 400) (tdb (token_insert token)) in
  st_ret (token_response (mkTokenData (Some id) (tk_type token) (tk_address token) (tk_chain_id token) (tk_enabled token) (tk_name token)
    (tk_symbol token) (tk_decimals token) (tk_token_id token))).

(** [if let Some(x) = req.field { token.field = Some(x) }] *)
Definition or_else {A} (new old : option A) : option A := match new with Some x => Some x | None => old end.

(** The updates [update_token] applies *)
Definition apply_update (req : UpdateTokenRequest) (t : TokenData) : TokenData :=
  mkTokenData (tk_id t) (tk_type t) (tk_address t) (tk_chain_id t) (default (tk_enabled t) (ut_enabled req)) (or_else (ut_name req) (tk_name t))
    (or_else (ut_symbol req) (tk_symbol t)) (or_else (ut_decimals req) (tk_decimals t)) (tk_token_id t).

(** [update_token] *)
Definition update_token (id : Z) (req : UpdateTokenRequest) : Registry TokenData :=
  let* r := fails_500 (tdb (token_get id)) in
  let* token := ok_or 404 r in
  let token := apply_update req token in
  do* st_map_err (fun _ => 400) (tdb (token_update token));
  st_ret (token_response token).

(** [delete_token] *)
Definition delete_token (id : Z) : Registry unit := st_map_err (fun _ => 404) (tdb (token_delete id)).

(** [set_token_enabled] *)
Definition set_token_enabled (id : Z) (enabled : bool) : Registry unit := st_map_err (fun _ => 404) (tdb (token_set_enabled id enabled)).

(** A request to the routes of the registry, all of which take [AdminAuth]. *)
Inductive TokenRequest :=
| RqListTokens (query : ListTokensQuery)
| RqGetToken (id : Z)
| RqCreateToken (req : CreateTokenRequest)
| RqUpdateToken (id : Z) (req : UpdateTokenRequest)
| RqDeleteToken (id : Z)
| RqSetEnabled (id : Z) (enabled : bool).

Definition serve (rq : TokenRequest) : Registry unit :=
  match rq with
  | RqListTokens query => do* list_tokens query; st_ret tt
  | RqGetToken id => do* get_token id; st_ret tt
  | RqCreateToken req => do* create_token req; st_ret tt
  | RqUpdateToken id req => do* update_token id req; st_ret tt
  | RqDeleteToken id => delete_token id
  | RqSetEnabled id enabled => set_token_enabled id enabled
  end.

Definition token_route (headers : list (string * string)) (rq : TokenRequest) : Registry unit :=
  do* evm_admin_auth headers;
  serve rq.
End Routes.

(** ** Networks *)

(** [NetworkInfo] *)
Record NetworkInfo := mkNetworkInfo {
  ni_id : string;
  ni_name : string;
  ni_chain_id : Z;
  ni_native_symbol : string;
  ni_block_time_secs : Z;
  ni_confirmations : Z;
  ni_explorer_url : string
}.

(** [From<&ChainConfig>] *)
Definition network_info (c : ChainConfig) : NetworkInfo :=
  mkNetworkInfo (match cc_network c with Some n => as_str n | None => z_to_string (cc_chain_id c) end) (cc_name c) (cc_chain_id c)
    (cc_native_symbol c) (cc_block_time_secs c) (cc_confirmations_required c) (cc_explorer_url c).

(** [list_networks], [get_network] *)
Definition list_networks : list NetworkInfo := network_info <$> ALL_CHAINS.
Definition get_network (network : string) : result Z (option NetworkInfo) :=
  match network_from_str network with
  | Err _ => Err 404
  | Ok n => Ok (network_info <$> get_chain_config n)
  end.

(** ** What a request changes *)

(** The row of a new token; a row after an update. *)
Definition created_row (chain_id : string) (req : CreateTokenRequest) : TokenRecord :=
  mkTokenRecord (ct_standard req) (ct_address req) chain_id (ct_enabled req) (ct_name req) (ct_symbol req) (ct_decimals req) (ct_token_id req).
Definition updated_row (req : UpdateTokenRequest) (r : TokenRecord) : TokenRecord :=
  mkTokenRecord (tr_type r) (tr_address r) (tr_chain_id r) (default (tr_enabled r) (ut_enabled req)) (or_else (ut_name req) (tr_name r))
    (or_else (ut_symbol req) (tr_symbol r)) (or_else (ut_decimals req) ((fun d => d mod 256) <$> tr_decimals r)) (tr_token_id r).

Section Facts.
Context `{Runtime} `{UuidText} `{AuthHost} `{TokenHost}.

(** The headers carry a session the service took, at some instant, for one of an
    account that may manage tokens. *)
Definition admin_session (headers : list (string * string)) : Prop :=
  exists n session_id user login, extract_session_id headers = Ok session_id /\ validate_session_token n session_id = Some (user, login) /\
    manages_tokens (ui_role user) = true.

Definition token_change (rq : TokenRequest) (d d' : TokenDb) : Prop :=
  match rq with
  | RqListTokens _ | RqGetToken _ => False
  | RqCreateToken req =>
      exists chain_id, chain_parse (ct_chain_id req) = Some chain_id /\ chain_is_evm chain_id = true /\
        validate_token_standard (ct_standard req) (ct_decimals req) (ct_token_id req) = Ok tt /\
        tb_next d' = tb_next d + 1 /\
        (tb_rows d' = tb_rows d \/
         row_accepted (tb_next d) (created_row chain_id req) (tb_rows d) = true /\ tb_rows d' = <[tb_next d := created_row chain_id req]> (tb_rows d))
  | RqUpdateToken id req =>
      exists r, tb_rows d !! id = Some r /\ row_accepted id (updated_row req r) (tb_rows d) = true /\
        d' = mkTokenDb (<[id := updated_row req r]> (tb_rows d)) (tb_next d)
  | RqDeleteToken id => is_Some (tb_rows d !! id) /\ d' = mkTokenDb (delete id (tb_rows d)) (tb_next d)
  | RqSetEnabled id enabled =>
      exists r, tb_rows d !! id = Some r /\ d' = mkTokenDb (<[id := with_enabled enabled r]> (tb_rows d)) (tb_next d)
  end.

Lemma runs_admin_auth headers d (Q : result Z UserInfo -> TokenDb -> Prop) :
  (forall user, admin_session headers -> Q (Ok user) d) -> (forall e, Q (Err e) d) -> runs (evm_admin_auth headers) d Q.
Proof.
  intros Hok Herr o <-. unfold evm_admin_auth, st_bind, st_lift, st_gets. destruct (extract_session_id headers) as [sid|e] eqn:Hs; [|apply Herr].
  destruct (validate_session_token _ sid) as [[user login]|] eqn:Hv; [|apply Herr].
  destruct (manages_tokens (ui_role user)) eqn:Hm; [|apply Herr]. apply Hok. unfold admin_session. eauto 10.
Qed.

(** What a route of the registry does to it, whatever fails: nothing, or the
    headers hold a session of an account that may manage tokens and the table
    changes as asked for: a new row of a valid standard on an EVM chain, the
    named fields of one row, or one row less. *)
Theorem token_changes_exact headers rq d :
  runs (token_route headers rq) d (fun _ d' => d' = d \/ admin_session headers /\ token_change rq d d').
Proof.
  unfold token_route. apply runs_bind, runs_admin_auth; [|by left]. intros _ Hadm. eapply runs_mono with (fun _ d' => d' = d \/ token_change rq d d').
  2:{ intros _ d' [->|Hc]; auto. }
  destruct rq as [query|id|req|id req|id|id enabled]; cbn [serve].
  - unfold list_tokens, query_tokens. apply runs_bind, runs_bind. destruct (lt_chain_id query) as [c|].
    1: destruct (chain_parse c); [|by apply runs_bind, runs_throw; left]; apply runs_bind, runs_ret, runs_ret.
    2: apply runs_ret.
    all: apply runs_bind, runs_map_err, runs_bind, runs_select; [|by left]; apply runs_bind, runs_tdb; [by left|];
      intros now; cbn [fst snd]; split; [|by left]; destruct (page _ _ _); [|by left]; apply runs_ret, runs_ret, runs_ret; by left.
  - unfold get_token, token_get. repeat office_step; auto.
  - unfold create_token. destruct (chain_parse (ct_chain_id req)) as [chain|] eqn:Hc; [|by apply runs_bind, runs_bind, runs_throw; left].
    apply runs_bind, runs_bind, runs_ret. destruct (chain_is_evm chain) eqn:He; cbn [negb]; [|by apply runs_throw; left].
    apply runs_bind, runs_lift. destruct (validate_token_standard _ _ _) as [[]|e] eqn:Hv; [|by left].
    apply runs_bind, runs_map_err, runs_write with (fun d' => d' = d \/ token_change (RqCreateToken req) d d'); [by left| |].
    + intros now. right. exists chain. unfold token_insert.
      change (bound_row _) with (created_row chain req). destruct (row_accepted _ _ _) eqn:Ha; cbn [snd tb_next tb_rows]; auto 10.
    + intros [z|e] d' HP; [apply runs_ret, runs_ret|]; exact HP.
  - unfold update_token, token_get. apply runs_bind, runs_bind, runs_map_err, runs_select; [|by left].
    destruct (tb_rows d !! id) as [r|] eqn:Hr; cbn [fmap option_fmap option_map]; [|by apply runs_bind, runs_throw; left].
    apply runs_bind, runs_ret. apply runs_bind, runs_map_err.
    apply runs_write with (fun d' => d' = d \/ token_change (RqUpdateToken id req) d d'); [by left| |].
    + intros now. unfold token_update. cbn [tk_id apply_update row_to_token]. rewrite Hr.
      change (bound_row _) with (updated_row req r). destruct (row_accepted _ _ _) eqn:Ha; cbn [snd]; [|by left].
      right. exists r. auto.
    + intros [z|e] d' HP; [apply runs_ret, runs_ret|]; exact HP.
  - unfold delete_token. apply runs_map_err, runs_write with (fun d' => d' = d \/ token_change (RqDeleteToken id) d d'); [by left| |done].
    intros now. unfold token_delete. destruct (tb_rows d !! id) as [r|] eqn:Hr; cbn [snd]; [|by left]. right. split; [by rewrite Hr; eexists|done].
  - unfold set_token_enabled. apply runs_map_err, runs_write with (fun d' => d' = d \/ token_change (RqSetEnabled id enabled) d d'); [by left| |done].
    intros now. unfold token_set_enabled. destruct (tb_rows d !! id) as [r|] eqn:Hr; cbn [snd]; [|by left]. right. by exists r.
Qed.

(** ** A sound registry *)

(** What a standard asks of a row for as long as it is there. *)
Definition standard_kept (std : EvmTokenStandard) (r : TokenRecord) : Prop :=
  match std with
  | Erc20 => is_Some (tr_decimals r) /\ tr_token_id r = None
  | Erc721 => True
  | Erc1155 => is_Some (tr_token_id r)
  end.

Definition token_ok (r : TokenRecord) : Prop :=
  columns_ok r = true /\ chain_is_evm (tr_chain_id r) = true /\
  exists std, standard_from_str (tr_type r) = Some std /\ standard_kept std r.

Definition registry_ok (d : TokenDb) : Prop :=
  (forall id r, tb_rows d !! id = Some r -> id < tb_next d /\ token_ok r) /\
  (forall id id' r r', tb_rows d !! id = Some r -> tb_rows d !! id' = Some r' -> token_key r = token_key r' -> id = id').

Lemma key_free_spec id r rows id' r' : key_free id r rows = true -> rows !! id' = Some r' -> token_key r' = token_key r -> id' = id.
Proof.
  unfold key_free. rewrite forallb_forall. intros Hf Hr Hk.
  specialize (Hf (id', r') (proj1 (list_elem_of_In _ _) (proj2 (elem_of_map_to_list _ _ _) Hr))). cbn in Hf.
  rewrite bool_decide_eq_true_2, orb_false_r in Hf by done. by apply Z.eqb_eq.
Qed.

(** A row that is accepted keeps the registry sound. *)
Lemma registry_put id r rows next next' : registry_ok (mkTokenDb rows next) -> row_accepted id r rows = true -> id < next' -> next <= next' ->
  token_ok r -> registry_ok (mkTokenDb (<[id := r]> rows) next').
Proof.
  intros [Hrows Hkeys] [Hc Hf]%andb_true_iff Hlt Hle Hok. cbn in *. split; cbn.
  - intros i x [[<- <-]|[Hne Hx]]%lookup_insert_Some; [done|]. destruct (Hrows i x Hx). split; [lia|done].
  - intros i j x y [[<- <-]|[Hi Hx]]%lookup_insert_Some [[<- <-]|[Hj Hy]]%lookup_insert_Some Hk; [done| | |eauto].
    + symmetry. by eapply key_free_spec.
    + by eapply key_free_spec.
Qed.

Lemma validated_kept standard decimals token_id :
  validate_token_standard standard decimals token_id = Ok tt ->
  exists std, standard_from_str standard = Some std /\
    match std with Erc20 => is_Some decimals /\ token_id = None | Erc721 => True | Erc1155 => is_Some token_id end.
Proof.
  unfold validate_token_standard. destruct (standard_from_str standard) as [std|]; [|done]. intros Hv. exists std. split; [done|].
  destruct std, decimals, token_id; try done; eauto.
Qed.

Lemma change_keeps rq d d' : registry_ok d -> token_change rq d d' -> registry_ok d'.
Proof.
  intros Hok. destruct d as [rows next], rq as [?|?|req|id req|id|id enabled]; cbn [token_change tb_rows tb_next]; [done|done|..].
  - intros (chain & _ & He & Hv & Hn & [Hr|[Ha Hr]]); destruct d' as [rows' next']; cbn in *; subst.
    + destruct Hok as [Hrows Hkeys]. split; [|done]. cbn in *. intros i x Hx. destruct (Hrows i x Hx). split; [lia|done].
    + apply registry_put with next; try done; try lia. split; [by apply andb_true_iff in Ha as [Ha _]|]. split; [done|].
      destruct (validated_kept _ _ _ Hv) as (std & Hs & Hk). exists std. split; [done|]. by destruct std.
  - intros (r & Hr & Ha & ->). destruct (proj1 Hok id r Hr) as (Hlt & _ & He & std & Hs & Hk). cbn in Hlt.
    apply registry_put with next; try done; try lia. split; [by apply andb_true_iff in Ha as [Ha _]|]. split; [done|].
    exists std. split; [done|]. destruct std; cbn in *; [|done..]. destruct Hk as [[dec Hd] Ht]. rewrite Hd. split; [|done].
    by destruct (ut_decimals req); eexists.
  - intros (_ & ->). destruct Hok as [Hrows Hkeys]. split; cbn in *.
    + intros i x [_ Hx]%lookup_delete_Some. by apply Hrows.
    + intros i j x y [_ Hx]%lookup_delete_Some [_ Hy]%lookup_delete_Some. by apply Hkeys.
  - intros (r & Hr & ->). destruct (proj1 Hok id r Hr) as (Hlt & Hok'). cbn in Hlt.
    apply registry_put with next; try done; try lia. unfold row_accepted. apply andb_true_iff. split; [apply Hok'|].
    apply forallb_forall. intros [i x] Hx%list_elem_of_In%elem_of_map_to_list. cbn.
    destruct (Z.eqb_spec i id); [done|]. cbn. rewrite bool_decide_eq_false_2; [done|]. intros Hk. by destruct (proj2 Hok i id x r Hx Hr Hk).
Qed.

(** Requests one after the other. *)
Definition token_run (reqs : list (list (string * string) * TokenRequest)) (o : Office TokenDb) : Office TokenDb :=
  foldl (fun o x => snd (token_route x.1 x.2 o)) o reqs.

(** Through any requests, with anything lost: every token is on an EVM chain and
    of a known standard, an ERC-20 token has between 0 and 18 decimals and no
    token id, an ERC-1155 token has a token id, every column fits, and no two
    tokens have the same chain, contract and token id. *)
Theorem token_registry_sound reqs o : registry_ok (of_db o) -> registry_ok (of_db (token_run reqs o)).
Proof.
  revert o. induction reqs as [|[headers rq] reqs IH]; intros o Hok; [done|]. cbn. apply IH.
  destruct (token_changes_exact headers rq (of_db o) o eq_refl) as [Hd|[_ Hc]]; [by rewrite Hd|by eapply change_keeps].
Qed.

(** ** Reading *)

Lemma row_of_decimals r : columns_ok r = true -> (fun d => d mod 256) <$> tr_decimals r = tr_decimals r.
Proof.
  unfold columns_ok. rewrite !andb_true_iff. intros [[_ Hd] _]. destruct (tr_decimals r) as [d|]; [|done]. cbn in *.
  apply andb_true_iff in Hd as [Hlo%Z.leb_le Hhi%Z.leb_le]. by rewrite Z.mod_small by lia.
Qed.

(** While requests are answered, a token that was created is read back as it was
    answered. *)
Theorem created_token_reads_back req o t o' :
  (forall n, calls n = Answered) -> create_token req o = (Ok t, o') ->
  exists id, tk_id t = Some id /\ fst (get_token id o') = Ok t.
Proof.
  intros Hup. unfold create_token, st_bind, ok_or, st_lift, st_map_err, tdb, st_ret, st_throw.
  destruct (chain_parse _) as [chain|]; [|done]. destruct (chain_is_evm chain); [|done]. destruct (validate_token_standard _ _ _); [|done].
  cbn [negb]. rewrite Hup. unfold token_insert. change (bound_row _) with (created_row chain req).
  destruct (row_accepted _ _ _) eqn:Ha; [|done]. cbn -[created_row]. intros [= <- <-]. exists (tb_next (of_db o)). split; [done|].
  unfold get_token, st_bind, fails_500, st_map_err, tdb. cbn -[created_row]. rewrite Hup. cbn -[created_row]. rewrite lookup_insert_eq. cbn.
  apply andb_true_iff in Ha as [Hc%row_of_decimals _]. cbn in Hc. unfold row_to_token, token_response. cbn. by rewrite Hc.
Qed.

(** The tokens of a contract on a chain, whatever the case of its address. *)
Definition of_contract (chain_id address : string) (t : TokenData) : Prop :=
  tk_chain_id t = chain_id /\ to_lowercase (tk_address t) = to_lowercase address.

(** A lookup by contract finds a token of it, if there is one, and one without
    token id, if there is one. *)
Theorem lookup_by_contract `{!TokenHostLaws} chain_id address now d :
  match fst (get_by_address chain_id address now d) with
  | Ok (Some t) => t ∈ all_tokens d /\ of_contract chain_id address t /\
      forall t', t' ∈ all_tokens d -> of_contract chain_id address t' -> tk_token_id t' = None -> tk_token_id t = None
  | Ok None => forall t, t ∈ all_tokens d -> ~ of_contract chain_id address t
  | Err _ => False
  end.
Proof.
  unfold get_by_address. cbn [fst].
  set (l := List.filter _ (all_tokens d)).
  assert (Hl : forall t, t ∈ l <-> of_contract chain_id address t /\ t ∈ all_tokens d).
  { intros t. unfold l. rewrite elem_of_filter_b, andb_true_iff, !String.eqb_eq. done. }
  pose proof (order_by_token_id_perm now l) as Hp. pose proof (order_by_token_id_nulls now l) as Hs.
  destruct (order_by_token_id now l) as [|t rest]; cbn [head].
  - intros t Ht Hc. assert (Hin : t ∈ l) by (by apply Hl). rewrite <- Hp in Hin. by apply not_elem_of_nil in Hin.
  - assert (Hin : t ∈ l) by (rewrite <- Hp; apply list_elem_of_here). apply Hl in Hin as [Hc Ht]. split_and!; [done..|].
    intros t' Ht' Hc' Hn. assert (Hin : t' ∈ l) by (by apply Hl). rewrite <- Hp in Hin.
    apply elem_of_cons in Hin as [-> |Hin]; [done|]. apply StronglySorted_inv in Hs as [_ Hall].
    rewrite Forall_forall in Hall. by apply (Hall t').
Qed.
End Facts.

(** A network that is listed is found by its id, and what is found is listed. *)
Theorem listed_networks_found :
  (forall info, info ∈ list_networks -> get_network (ni_id info) = Ok (Some info)) /\
  (forall s r, get_network s = Ok r -> exists info, r = Some info /\ info ∈ list_networks).
Proof.
  split.
  - apply Forall_forall. repeat constructor; reflexivity.
  - intros s r. unfold get_network. destruct (network_from_str s) as [n|]; [|done]. intros [= <-].
    assert (Hc : exists c, get_chain_config n = Some c /\ c ∈ ALL_CHAINS).
    { unfold get_chain_config. destruct (List.find _ ALL_CHAINS) as [c|] eqn:Hf.
      - exists c. split; [done|]. apply find_some in Hf as [Hf _]. by apply list_elem_of_In.
      - by destruct n. }
    destruct Hc as (c & -> & Hin). exists (network_info c). split; [done|]. by apply list_elem_of_fmap_2.
Qed.
