(* ===== verification/OfficeDemo.v ===== *)
(** * Stores, accounts, settings, deletions and standing on concrete tables

    A store with its team and its invites first; each part below builds on it. *)

From stdpp Require Import gmap strings list relations sorting.
From Stdlib Require Import ZArith Lia QArith.
From S2P Require Import Prelude Events Network Decimal LiveWatch Database Services ConsumerDemo ProcessDemo ApiKeys Consumer ApiAuth RateLimit.
From S2P Require Import Reading ReadingFacts Office Teams TeamFacts Wallets Invoicing StoreSettings SettingsFacts Accounts AccountFacts Derivation InvoiceDemo ServerSettings.
From S2P Require Import Cleanup Deletion DeletionFacts Standing StandingFacts WalletRoutes Credentials CredentialFacts LiveFeed LiveFeedFacts Webhook Deliveries Tokens.

#[local] Open Scope Z_scope.
#[local] Existing Instance demo_up.

#[export] Instance demo_mail : MailHost := { mail_configured := true; mail_accepts := fun _ => true }.

(** The seeded default roles, [Owner] with the two permissions on members that
    the members' routes ask for added by hand. *)
Definition owner_role : StoreRole :=
  mkStoreRole 901 None "Owner" [VIEW_USERS; MODIFY_USERS; INVITE_USERS; MODIFY_SETTINGS].
Definition guest_role : StoreRole := mkStoreRole 904 None "Guest" ["ethpay.store.canviewinvoices"%string].

Definition demo_user : UserRow := mkUserRow None None None "" 0 None 0 None RegularUser.

(** Store 5 belongs to user 1; user 2 is a guest; user 3 is invited. *)
Definition shop : Store := mkStore 5 "shop" None 1 false 0.
Definition shop_invite : InviteRow := mkInviteRow 5 "c@example.org" 904 1 0 INVITE_TTL None.

Definition demo_team : TeamDb :=
  mkTeamDb {[1 := demo_user; 2 := demo_user; 3 := demo_user]} {[5 := shop]} {[901 := owner_role; 904 := guest_role]}
    {[(1, 5) := 901; (2, 5) := 904]} {[700 := shop_invite]} ∅.
Definition demo_office : TeamOffice := mkOffice demo_team 0 0 [].

Definition caller (id : Uuid) : StoreScopedUser := mkStoreScopedUser (mkUserInfo id RegularUser) None.

Lemma demo_keyed : keyed demo_team.
Proof.
  split; cbn; intros id x.
  - by intros [<- <-]%lookup_singleton_Some.
  - by intros [[<- <-]|[_ [<- <-]%lookup_singleton_Some]]%lookup_insert_Some.
Qed.

Lemma demo_team_inv : team_inv demo_team.
Proof.
  split; [exact demo_keyed|..]; cbn.
  - intros id st [<- <-]%lookup_singleton_Some. by eexists.
  - intros t i [<- <-]%lookup_singleton_Some. exists guest_role. split_and!; [done..|]. vm_compute. set_solver.
  - intros t t' i i' [<- <-]%lookup_singleton_Some [<- <-]%lookup_singleton_Some. done.
Qed.

(** The owner adds user 3 as a guest. *)
Definition add_third : TeamRequest := AddMember (caller 1) 5 3 "Guest".

Lemma membership_changes_authorised_witness :
  td_user_stores (of_db (snd (handle_request add_third demo_office))) !! (3, 5) = Some 904 /\
  has_permission 1 5 MODIFY_USERS demo_team = true.
Proof.
  split; [vm_compute; reflexivity|].
  assert (Hne : td_user_stores (of_db (snd (handle_request add_third demo_office))) !! (3, 5) <> td_user_stores demo_team !! (3, 5))
    by (intros He; vm_compute in He; discriminate He).
  destruct (membership_changes_authorised add_third demo_office 3 5 demo_keyed Hne)
    as [(u & n & w & st & role & Hq & _)|[(c & Hm & Hp & _)|(u & token & i & Hq & _)]]; [discriminate Hq| |discriminate Hq].
  injection Hm as <-. exact Hp.
Defined.

(** User 3 redeems the invite. *)
Definition redeemed : TeamOffice := snd (handle_request (AcceptInvite (mkUserInfo 3 RegularUser) 700) demo_office).

Lemma redeemed_run : rtc team_step demo_office redeemed.
Proof. apply rtc_once. by eexists. Qed.

Lemma store_owners_stay_members_witness :
  td_user_stores (of_db redeemed) !! (3, 5) = Some 904 /\ is_Some (td_user_stores (of_db redeemed) !! (1, 5)).
Proof.
  split; [vm_compute; reflexivity|].
  exact (proj1 (store_owners_stay_members demo_office redeemed demo_team_inv redeemed_run) 5 shop ltac:(vm_compute; reflexivity)).
Defined.

Lemma invite_redeemed_once_witness :
  let again := accept_store_invite (mkUserInfo 2 RegularUser) 700 redeemed in
  (fst again = Err 400 \/ fst again = Err 500) /\ of_db (snd again) = of_db redeemed.
Proof.
  intros again. apply (invite_redeemed_once (mkUserInfo 3 RegularUser) 700 demo_office (5, "Guest"%string) redeemed redeemed).
  - exact demo_team_inv.
  - vm_compute. reflexivity.
  - apply rtc_refl.
Defined.

(** User 3, before the invite, asks for the store. *)
Lemma strangers_cannot_probe_stores_witness :
  let q := GetStore (mkUserInfo 3 RegularUser) 5 in
  fst (handle_request q demo_office) = Err 404 /\
  exists e, fst (handle_request q demo_office) = Err e /\ fst (handle_request q (forget 5 demo_office)) = Err e /\
    of_db (snd (handle_request q demo_office)) = demo_team.
Proof.
  intros q. split; [vm_compute; reflexivity|].
  apply (strangers_cannot_probe_stores q 3 5 demo_office); [reflexivity|].
  split; [reflexivity|]. cbn. intros st [_ <-]%lookup_singleton_Some. discriminate.
Defined.

(** The route that removes members refuses to remove the owner; the one that
    changes roles demotes the owner to a guest. *)
Example owner_not_removed : fst (remove_store_member (caller 1) 5 1 demo_office) = Err 403.
Proof. vm_compute. reflexivity. Qed.

Example owner_demoted :
  td_user_stores (of_db (snd (update_store_member (caller 1) 5 1 "Guest" demo_office))) !! (1, 5) = Some 904.
Proof. vm_compute. reflexivity. Qed.

(** A role seeded as the migration does, without permissions on members: the
    owner of the store is refused the list of its members. *)
Definition seeded_owner : StoreRole :=
  mkStoreRole 901 None "Owner" [MODIFY_SETTINGS; INVITE_USERS; "ethpay.store.canviewstoresettings"]%string.

Example seeded_owner_refused :
  fst (list_store_members (caller 1) 5
    (mkOffice (td_set_roles {[901 := seeded_owner; 904 := guest_role]} demo_team) 0 0 [])) = Err 403.
Proof. vm_compute. reflexivity. Qed.

(** Addresses that look like one, and some that do not. *)
Example addresses :
  (fun e => looks_like_an_email e) <$> ["a@b.c"; "a@b"; "@b.c"; "a@.c"; "a@b.c@d"; " a@b.co "]%string
  = [true; false; false; false; false; true].
Proof. vm_compute. reflexivity. Qed.

(** Two stores created one after the other are both owned by their creator. *)
Example created :
  (fun s => (str_owner_id s, str_name s)) <$>
    match fst (list_stores (mkUserInfo 2 RegularUser) false (snd (handle_request (CreateStore (mkUserInfo 2 RegularUser) "mine" None) demo_office)))
    with Ok l => l | Err _ => [] end = [(1, "shop"); (2, "mine")]%string.
Proof. vm_compute. reflexivity. Qed.

(** * A store configured step by step *)

#[local] Existing Instance demo_up.

#[export] Instance demo_modes : PolicyModes := {
  parse_policy_mode := fun s => if String.eqb s "allowlist" then Some Allowlist
                                else if String.eqb s "blocklist" then Some Blocklist else None
}.

Abbreviation run_settings := (handle_settings (D := Q)) (only parsing).

Definition bare_desk : Desk := mkOffice (mkSettingsDb demo_team ∅ ∅ ∅ ∅) 0 0 [].

Definition no_receipts : UpdateStoreSettingsRequest :=
  mkUpdateStoreSettingsRequest (Some "eip155:1") (Some "EUR") None (Some "#a0B1c2")
    (Some (JObject [("customer_receipts_enabled", JBool false)]))%string.
Definition no_late_hook : UpdateStoreSettingsRequest :=
  mkUpdateStoreSettingsRequest None None None None (Some (JObject [("late_paid", JObject [("webhook", JBool false)])]))%string.

(** The owner switches receipts off. *)
Definition configured : Desk := snd (run_settings (UpdateSettings (caller 1) 5 no_receipts) bare_desk).

Lemma bare_typed : settings_typed (of_db bare_desk).
Proof. split; cbn; intros s x Hx; by rewrite lookup_empty in Hx. Qed.

Lemma configured_run : rtc (settings_step (D := Q)) bare_desk configured.
Proof. apply rtc_once, SS_request. Qed.

Lemma stored_settings_well_typed_witness :
  st_accent_color <$> sg_settings (of_db configured) !! 5 = Some (Some "#a0B1c2"%string) /\
  forall s r, sg_settings (of_db configured) !! s = Some r -> settings_row_typed r.
Proof.
  split; [vm_compute; reflexivity|].
  exact (proj1 (stored_settings_well_typed (D := Q) bare_desk configured bare_typed configured_run)).
Defined.

(** Saving another preference keeps receipts switched off. *)
Definition resaved := update_store_settings (caller 1) 5 no_late_hook configured.

Lemma configured_typed : settings_typed (of_db configured).
Proof. apply (step_typed (D := Q) bare_desk); [exact bare_typed | apply SS_request]. Qed.

Lemma settings_patch_exact_witness :
  exists r, fst resaved = Ok r /\
    json_get "customer_receipts_enabled" (st_notification_prefs r) = Some (JBool false) /\
    st_default_display_currency r = Some "EUR"%string.
Proof.
  destruct (fst resaved) as [r|e] eqn:Hr; [|vm_compute in Hr; discriminate Hr]. exists r. split; [reflexivity|].
  destruct (settings_patch_exact (caller 1) 5 no_late_hook configured r (snd resaved)) as (_ & _ & Hc & _ & _ & Hp).
  - cbn. apply NoDup_singleton.
  - exact configured_typed.
  - fold resaved. rewrite <- Hr. apply surjective_pairing.
  - split; [rewrite Hp; vm_compute; reflexivity | rewrite Hc; vm_compute; reflexivity].
Defined.

(** A guest of the store may not. *)
Lemma settings_changed_with_authority_witness :
  let q := ConfigureWebhook (caller 1) 5 "https://shop.example/hook" true in
  sg_webhooks (of_db (snd (run_settings q bare_desk))) !! 5 <> None /\
  has_permission 1 5 MODIFY_SETTINGS demo_team = true.
Proof.
  intros q. assert (Hne : sg_webhooks (of_db (snd (run_settings q bare_desk))) !! 5 <> None).
  { intros Hx. vm_compute in Hx. discriminate Hx. }
  split; [exact Hne|].
  destruct (settings_changed_with_authority (D := Q) q bare_desk 5) as [_ Ha].
  destruct Ha as [_ [Hadm|[Hp _]]].
  - intros Heq. apply Hne. exact (f_equal (fun x => x.1.1.2) Heq).
  - discriminate Hadm.
  - exact Hp.
Defined.

Example guest_refused :
  fst (run_settings (ConfigureWebhook (caller 2) 5 "https://shop.example/hook" true) bare_desk) = Err 403.
Proof. vm_compute. reflexivity. Qed.

(** What the validation refuses. *)
Example refused :
  (fun req => fst (update_store_settings (caller 1) 5 req bare_desk)) <$>
    [mkUpdateStoreSettingsRequest (Some "tron:728126428") None None None None;
     mkUpdateStoreSettingsRequest None (Some "eur") None None None;
     mkUpdateStoreSettingsRequest None None (Some "http://logo.example") None None;
     mkUpdateStoreSettingsRequest None None None (Some "#12345g") None;
     mkUpdateStoreSettingsRequest None None None None (Some (JObject [("late_paid", JBool false)]));
     mkUpdateStoreSettingsRequest None None None None (Some (JObject [("customer_receipts_enabled", JString "false")]))]%string
  = replicate 6 (Err 400).
Proof. vm_compute. reflexivity. Qed.

Example tolerance_set :
  (fun p => fst (set_settlement_tolerance (D := Q) (caller 1) 5 p bare_desk)) <$> ["1"; "-1"; "x"]%string
  = [Err 422; Err 422; Err 422].
Proof. vm_compute. reflexivity. Qed.

(** An entry of a blocklist written in another letter case than the token of
    the payment method does not match it, so the token stays accepted. *)
Definition usdc_lower : string := "0xa0b86991c6218b36c1d19d4a2e9eb0ce3606eb48".
Definition usdc_upper : string := "0xA0B86991C6218B36C1D19D4A2E9EB0CE3606EB48".

Example blocklist_misses_other_case :
  entry_ok (mkTokenPolicyEntry "eip155:1" (Some usdc_upper) "USDC") = true /\
  forall pm, spm_chain_id pm = "eip155:1"%string -> spm_token_address pm = Some usdc_lower ->
    apply_token_policy_filter [pm] (mkTokenPolicy Blocklist [("eip155:1", Some usdc_upper)]%string) = [pm].
Proof.
  split; [vm_compute; reflexivity|]. intros pm Hc Ha. unfold apply_token_policy_filter. cbn. by rewrite Hc, Ha.
Qed.

(** * Accounts, on concrete tables *)

#[local] Existing Instance demo_up.

#[export] Instance demo_roles : RoleNames := {
  parse_role := fun s => if String.eqb s "server_admin" then Some ServerAdmin else if String.eqb s "user" then Some RegularUser else None
}.

(** Two administrators; the second row was written before identifiers were
    stored. *)
Definition boss : UserRow := mkUserRow (Some "Boss@x.org") (Some "0xb055") (Some "boss@x.org") "k1" 1 None 0 None ServerAdmin.
Definition deputy : UserRow := mkUserRow (Some "Dep@x.org") None None "k2" 2 None 0 None ServerAdmin.

Definition staff : TeamDb := mkTeamDb {[1 := boss; 2 := deputy]} ∅ ∅ ∅ ∅ ∅.
Definition head_office : TeamOffice := mkOffice staff 0 0 [].

(** The deputy is demoted; the boss then cannot be. *)
Definition demoted : TeamOffice := snd (handle_account (SetRole "2" "user") head_office).

Example last_one_refused : fst (handle_account (SetRole "1" "user") demoted) = Err 400.
Proof. vm_compute. reflexivity. Qed.

Lemma last_admin_kept_witness :
  us_role <$> td_users (of_db demoted) !! 2 = Some RegularUser /\
  exists id r, td_users (of_db demoted) !! id = Some r /\ us_role r = ServerAdmin.
Proof.
  split; [vm_compute; reflexivity|].
  apply (last_admin_kept head_office demoted).
  - exists 1, boss. split; reflexivity.
  - apply rtc_once. exists (SetRole "2" "user"). reflexivity.
Defined.

Definition newcomer (id : Uuid) : User := mkUser id (Some (uuid_to_string id)) None (uuid_to_string id) "k" id None 0 None RegularUser.
Definition nobody : TeamDb := mkTeamDb ∅ ∅ ∅ ∅ ∅ ∅.

Lemma first_account_is_admin_witness :
  exists r, td_users (register_all [newcomer 7; newcomer 8; newcomer 7] nobody) !! 7 = Some r /\ us_role r = ServerAdmin.
Proof.
  apply (first_account_is_admin (newcomer 7) [newcomer 8; newcomer 7] nobody); [reflexivity | repeat constructor | reflexivity].
Defined.

(** The deputy's account is read; its address changes, which stores the
    identifier; the account as it was read is written back. *)
Lemma recovery_salt_pinned_witness :
  exists d', rtc salt_step (staff, []) (d', [row_to_user 2 deputy]) /\
    (us_kdf_salt_identifier <$> td_users d' !! 2 = Some (Some "dep@x.org"%string)) /\
    exists r', td_users d' !! 2 = Some r' /\ salt_of 2 r' = salt_of 2 deputy.
Proof.
  set (d1 := snd (update_user_row (u_set_role ServerAdmin (u_set_email (Some "new@x.org"%string) (row_to_user 2 deputy))) 5 staff)).
  set (d2 := snd (update_user_row (u_set_role RegularUser (u_set_email (Some "Dep@x.org"%string) (row_to_user 2 deputy))) 6 d1)).
  assert (Hrun : rtc salt_step (staff, []) (d2, [row_to_user 2 deputy])).
  { eapply rtc_l; [exact (SA_read 2 staff [])|]. cbn.
    eapply rtc_l; [exact (SA_write (row_to_user 2 deputy) (Some "new@x.org"%string) ServerAdmin 5 staff [row_to_user 2 deputy] (list_elem_of_here _ _))|].
    apply rtc_once. exact (SA_write (row_to_user 2 deputy) (Some "Dep@x.org"%string) RegularUser 6 d1 [row_to_user 2 deputy] (list_elem_of_here _ _)). }
  exists d2. split; [exact Hrun|]. split; [vm_compute; reflexivity|].
  exact (proj1 (recovery_salt_pinned staff d2 [row_to_user 2 deputy] Hrun) 2 deputy ltac:(reflexivity)).
Defined.

(** The deputy changes address. *)
Definition asked : TeamOffice := snd (handle_account (RequestEmail (mkSessionUser 2 (Some "Dep@x.org"%string) None) " dep@y.org ") head_office).

Lemma address_changes_by_code_witness :
  let q := ConfirmEmail 1000 in
  exists r', td_users (of_db (snd (handle_account q asked))) !! 2 = Some r' /\ us_email r' = Some "dep@y.org"%string /\
    fst (confirm_email_change 1000 (snd (handle_account q asked))) <> Ok tt.
Proof.
  intros q. destruct (td_users (of_db (snd (handle_account q asked))) !! 2) as [r'|] eqn:Hr'; [|vm_compute in Hr'; discriminate Hr'].
  exists r'. split; [reflexivity|].
  assert (He : us_email r' = Some "dep@y.org"%string) by (vm_compute in Hr'; injection Hr' as <-; reflexivity).
  split; [exact He|].
  destruct (address_changes_by_code q asked 2 deputy r') as [(t & ec & Hq & _ & _ & _ & _ & _ & Hrest)|(u & Hq & _)].
  - reflexivity.
  - exact Hr'.
  - rewrite He. discriminate.
  - injection Hq as <-. destruct (Hrest _ (rtc_refl _ _)) as [[Hx|Hx] _]; rewrite Hx; discriminate.
  - discriminate Hq.
Defined.

(** ** What interleaving breaks *)

(** Two requests that demote one administrator each, both past the guard before
    either writes: no administrator is left. *)
Definition admins (d : TeamDb) : nat :=
  length (List.filter (fun kr => bool_decide (us_role kr.2 = ServerAdmin)) (map_to_list (td_users d))).

Example concurrent_demotions :
  (fst (demotion_guard (row_to_user 1 boss) RegularUser head_office), fst (demotion_guard (row_to_user 2 deputy) RegularUser head_office),
   admins (of_db (snd (update_user (u_set_role RegularUser (row_to_user 2 deputy))
     (snd (update_user (u_set_role RegularUser (row_to_user 1 boss)) head_office))))))
  = (Ok tt, Ok tt, 0%nat).
Proof. vm_compute. reflexivity. Qed.

(** An account that confirms a new address while it is demoted: the request
    read the account before and writes the role it read, so the demotion is
    undone. *)
Example confirmation_undoes_demotion :
  us_role <$> td_users (of_db (snd (update_user (u_set_email (Some "dep@y.org"%string) (row_to_user 2 deputy)) demoted))) !! 2
  = Some ServerAdmin.
Proof. vm_compute. reflexivity. Qed.

(** Two accounts ask for one address in different letter case and both confirm
    it: the check is made when the code is requested, and the constraint is on
    the exact text. *)
Example shared_address :
  let ask u e := RequestEmail (mkSessionUser u None None) e in
  let o := snd (handle_account (ask 2 "Shop@y.org") (snd (handle_account (ask 1 "shop@y.org") head_office))) in
  let o := snd (handle_account (ConfirmEmail 1001) (snd (handle_account (ConfirmEmail 1000) o))) in
  (fun kr => to_lowercase <$> us_email kr.2) <$> map_to_list (td_users (of_db o))
  = [Some "shop@y.org"; Some "shop@y.org"]%string.
Proof. vm_compute. reflexivity. Qed.

(** * The settings of a test server *)

#[local] Existing Instance demo_up.

#[export] Instance demo_defaults : ServerDefaults := {
  default_server_settings := mkServerSettings 3 60 100 ["eip155:1"; "eip155:137"]%string None
}.

(** Store 5 of account 1, paid on Sepolia; nobody saved settings yet. *)
Definition sepolia_methods : gmap Z MethodRow := <[20 := meth 5 "eip155:11155111" None 0]> ∅.
Definition test_server : Backoffice := mkBackoffice (InvoiceDemo.shop sepolia_methods) None.
Definition test_app : AppState := mkAppState false (Some 1) None.

Definition admin : StoreScopedUser := mkStoreScopedUser (mkUserInfo 1 ServerAdmin) None.
Definition save_limits : UpdateServerSettingsRequest := mkUpdateServerSettingsRequest 6 30 50 None None.

(** Saving something else stores the chains the server goes by already. *)
Definition saved : Backoffice := snd (handle_page (UpdateServer test_app save_limits) test_server).

Lemma mainnet_stays_closed_witness :
  (exists row, bo_settings saved = Some row /\ length (ss_enabled_chain_ids row) = length ALL_TESTNETS) /\
  (forall row c, bo_settings saved = Some row -> c ∈ ss_enabled_chain_ids row -> is_mainnet_chain_id c = false).
Proof.
  split; [eexists; split; vm_compute; reflexivity|].
  apply (mainnet_stays_closed test_app test_server saved).
  - reflexivity.
  - cbn. unfold sepolia_methods. intros i m [[_ <-]|[_ Hm]]%lookup_insert_Some; [vm_compute; reflexivity|]. rewrite lookup_empty in Hm. discriminate Hm.
  - discriminate.
  - apply rtc_once. exists (UpdateServer test_app save_limits). split; reflexivity.
Defined.

(** An administrator who asks for mainnet, in the settings and for a store. *)
Example mainnet_refused :
  (fst (handle_page (UpdateServer test_app (mkUpdateServerSettingsRequest 6 30 50 (Some ["eip155:1"%string]) None)) test_server),
   fst (handle_page (CreateMethod admin 5 (mkCreatePaymentMethodRequest "eip155:1" None "ETH" 18 None)) test_server),
   fst (handle_page (CreateMethod admin 5 (mkCreatePaymentMethodRequest "eip155:1" None "ETH" 18 None)) saved),
   fst (handle_page (CreateMethod admin 5 (mkCreatePaymentMethodRequest "eip155:11155111" (Some "0xusdc"%string) "USDC" 6 None)) saved))
  = (Err 403, Err 400, Err 400, Ok tt).
Proof. vm_compute. reflexivity. Qed.

Definition nominate : UpdateServerSettingsRequest := mkUpdateServerSettingsRequest 6 30 50 None (Some (Some 5)).

Lemma operator_store_is_operators_witness :
  exists store m, wd_stores (st_wallets (bo_site test_server)) !! 5 = Some store /\
    ap_operator_account_id test_app = Some (so_owner_id store) /\
    m ∈ merge_sort created_le (methods_where (fun _ m => (pm_store_id m =? 5) && pm_enabled m) (st_wallets (bo_site test_server))) /\
    spm_wallet_id m <> None.
Proof.
  apply (operator_store_is_operators test_app nominate test_server 5).
  - vm_compute. reflexivity.
  - vm_compute. discriminate.
Defined.

(** A store of somebody else is refused. *)
Example stranger_store_refused :
  fst (update_settings (mkAppState false (Some 2) None) nominate test_server) = Err 422.
Proof. vm_compute. reflexivity. Qed.

(** * Deletions, on concrete tables *)

#[local] Existing Instance demo_up.

(** The boss administers; user 3 owns store 1, whose invoice 77 is watched and
    unpaid. *)
Definition small_shop : Store := mkStore 1 "small shop" None 3 false 0.
Definition ledger : Estate :=
  mkEstate (mkTeamDb {[1 := boss; 3 := demo_user]} {[1 := small_shop]} ∅ {[(3, 1) := 901]} ∅ ∅)
    demo_db ∅ ∅ [] [] 0.
Definition chamber : Chamber := mkOffice ledger 0 0 [].

Lemma ledger_keyed : keyed (es_team ledger).
Proof. split; cbn; intros id x; [by intros [<- <-]%lookup_singleton_Some | by rewrite lookup_empty]. Qed.

(** The merchant types the id of the account and is deleted with the store. *)
Definition leave : DeletionRequest := DeleteAccount (mkSessionUser 3 None None) " 3 ".

Lemma account_deletion_spares_history_witness :
  td_users (es_team (tables_after true 1 leave chamber)) !! 3 = None /\
  db_payments (es_db (tables_after true 1 leave chamber)) = db_payments demo_db.
Proof.
  split; [vm_compute; reflexivity|].
  exact (proj1 (proj1 (account_deletion_spares_history true 1 leave 3 chamber ltac:(reflexivity)))).
Defined.

Lemma unwatched_only_after_deletion_witness :
  es_commands (tables_after true 1 leave chamber) = [mkUnwatchAddressCommand 1 7 None] /\
  exists w po i, watch_of ledger (fun _ => true) w po i /\ db_invoices (es_db (tables_after true 1 leave chamber)) !! po_invoice_id po = None.
Proof.
  assert (Hc : es_commands (tables_after true 1 leave chamber) = [mkUnwatchAddressCommand 1 7 None]) by (vm_compute; reflexivity).
  split; [exact Hc|].
  destruct (unwatched_only_after_deletion true 1 leave chamber ledger_keyed) as (cmds & He & Hf).
  rewrite Hc in He. cbn in He. rewrite <- He in Hf. apply Forall_cons in Hf as [(w & po & i & Hw & _ & _ & Hi) _].
  exists w, po, i. exact (conj Hw Hi).
Defined.

(** The account has no financial record when it is checked; the consumer records
    a payment to its store's invoice; then the row is deleted, and the payment
    goes with the invoice. *)
Definition paid_meanwhile : Estate :=
  mkEstate (es_team ledger) (sv_db demo_after_detect) (es_payouts ledger) (es_refunds ledger)
    (es_commands ledger) (es_closed ledger) (es_unwatch_failures ledger).

Example payment_lost_to_deletion :
  (blockers_any <$> result_ok (fst (account_deletion_blockers 3 0 ledger)), size (db_payments (es_db paid_meanwhile)),
   is_ok (fst (delete_user_row 3 0 paid_meanwhile)),
   size (db_payments (es_db (snd (delete_user_row 3 0 paid_meanwhile)))))
  = (Some false, 1%nat, true, 0%nat).
Proof. vm_compute. reflexivity. Qed.

(** The operator's route refuses while the address is watched; and refuses an
    administrator. *)
Example operator_refuses :
  (fst (handle_deletion true 1 (DeleteUserAccount "3") chamber), fst (handle_deletion true 1 (DeleteUserAccount "1") chamber))
  = (Err 409, Err 400).
Proof. vm_compute. reflexivity. Qed.

(** The self-service route has no such guard: the only administrator deletes
    itself, and whoever registers next is an ordinary user. *)
Example last_admin_leaves :
  let e := tables_after true 1 (DeleteAccount (mkSessionUser 1 (Some "Boss@x.org"%string) None) "boss@x.org") chamber in
  let d := snd (create_user (newcomer 8) 0 (es_team e)) in
  (admins (es_team e), us_role <$> td_users d !! 8) = (0%nat, Some RegularUser).
Proof. vm_compute. reflexivity. Qed.

(** * Standing, on concrete pushes *)

#[local] Existing Instance demo_up.

(** Days as dates; bodies name a version of account 1. *)
#[local] Instance demo_standing : StandingHost := {
  format_date := fun t => z_to_string (t / seconds 86400);
  valid_header := fun _ => true;
  parse_entitlement := fun s => v ← z_parse s; Some (1, v, negb (v =? 3), Some (days 3), "basic"%string, Some "https://pay.example/c"%string);
  claims_to_json := fun sub aud jti iat exp => sub +:+ aud +:+ jti;
  signup_mac_hex := fun _ _ => "00"%string;
  signup_http := fun _ _ _ _ _ => Some (201, Some (JObject [("checkout_url"%string, JString "https://pay.example/1")]))
}.

Definition said (v : Z) : AccountStanding := mkAccountStanding 1 v (negb (v =? 3)) (Some (days 3)) "basic" (Some "https://pay.example/c"%string).

(** The second push overtakes the first. *)
Definition in_order : list StandingOp := [OpInsert (said 1) 10; OpInsert (said 2) 20; OpTouch (said 2) 30].
Definition overtaken : list StandingOp := [OpInsert (said 2) 10; OpInsert (said 1) 20; OpTouch (said 1) 30].

Lemma pushes_converge_witness :
  standing_of (run_ops in_order empty_hall) 1 = Some (said 2) /\
  standing_of (run_ops overtaken empty_hall) 1 = standing_of (run_ops in_order empty_hall) 1.
Proof.
  split; [vm_compute; reflexivity|]. apply (pushes_converge in_order overtaken 1).
  - intros s t Hs Ht _. change (pushes in_order) with [said 1; said 2] in Hs, Ht.
    apply elem_of_cons in Hs as [->|Hs%list_elem_of_singleton]; apply elem_of_cons in Ht as [->|Ht%list_elem_of_singleton]; subst; by vm_compute.
  - apply (Permutation_swap (said 2) (said 1) []).
Defined.

Definition lobby : Office Hall := mkOffice empty_hall 0 0 [].
Definition told : Office Hall := snd (entitlement_route "1" lobby).

Example push_answers :
  (fst (entitlement_route "1" lobby), fst (entitlement_route "1" told), fst (entitlement_route "0" told), fst (entitlement_route "x" told))
  = (Ok (true, 1), Ok (false, 1), Err 400, Err 400).
Proof. vm_compute. reflexivity. Qed.

(** The merchant is warned; a lapse pushed right after shows once the minute is
    over. *)
Definition warned : Office Hall := snd (account_warning (E := unit) 1 told).
Definition lapsed : Office Hall := snd (entitlement_route "3" warned).

Lemma warning_at_most_a_minute_old_witness :
  exists w o1 at_, fst (account_warning (E := unit) 1 lapsed) = Ok (Some w) /\
    rtc hall_step lobby o1 /\ rtc hall_step o1 lapsed /\ made_at 1 o1 (Some w) at_ /\
    (o1 = lapsed \/ clock (of_ticks lapsed) - at_ < seconds 60).
Proof.
  destruct (fst (account_warning (E := unit) 1 lapsed)) as [[w|]|] eqn:Hw; [|vm_compute in Hw; discriminate Hw..].
  exists w. destruct (warning_at_most_a_minute_old lobby lapsed 1 (Some w)) as (o1 & at_ & Hr).
  - reflexivity.
  - eapply rtc_l; [exact (HS_push "1" lobby)|]. eapply rtc_l; [exact (HS_warning 1 told)|]. apply rtc_once. exact (HS_push "3" warned).
  - exact Hw.
  - exists o1, at_. split; [reflexivity | exact Hr].
Defined.

(** Plain HTTP is for loopback only, and a host that merely starts like it is
    another host. *)
Example loopback_hosts :
  loopback <$> ["http://localhost"; "http://127.0.0.1:8080"; "http://[::1]/x"; "http://localhost.evil.example"; "https://a"]%string
  = [true; true; true; false; false].
Proof. vm_compute. reflexivity. Qed.

Example signup_link :
  fst (signup (Some (mkSignupServiceConfig "https://s.example" "k" "a")) 1 7 lobby) = Ok (Some "https://pay.example/1"%string).
Proof. vm_compute. reflexivity. Qed.

(** * Reading, on concrete tables *)

#[local] Instance newer_dec : RelDecision (fun a b : string * InvoiceRow => inv_created_at b.2 <= inv_created_at a.2).
Proof. intros a b. apply _. Defined.
#[local] Instance newer_payment_dec : RelDecision (fun a b : (string * string * Z) * PaymentRow => pay_detected_at b.2 <= pay_detected_at a.2).
Proof. intros a b. apply _. Defined.

(** Rows of equal age come in another order at every other instant. *)
#[local] Instance demo_read : ReadHost := {
  default_limit := 50;
  search_term := fun s => s;
  parse_invoice_status := fun _ => None;
  parse_chain_id := Some;
  json_text := fun _ => ""%string;
  rfc3339 := fun t => z_to_string t;
  ymd := fun t => "19700101"%string;
  order_invoices := fun t l => merge_sort (fun a b => inv_created_at b.2 <= inv_created_at a.2) (if Z.even (t / seconds 1) then l else reverse l);
  order_payments := fun t l => merge_sort (fun a b => pay_detected_at b.2 <= pay_detected_at a.2) l
}.

#[local] Instance demo_read_laws : ReadHostLaws.
Proof.
  split; cbn; intros t l.
  - rewrite merge_sort_Permutation. destruct (Z.even _); [done|]. apply reverse_Permutation.
  - apply Sorted_merge_sort. intros a b. lia.
  - apply merge_sort_Permutation.
  - apply Sorted_merge_sort. intros a b. lia.
Qed.

(** Store 5 of user 1 and store 6 of user 9, an invoice of each, the second
    with the customer's address in its column; one transaction pays both. *)
Definition sale (store : Uuid) (at_ : Instant) (email : option string) : InvoiceRow :=
  mkInvoiceRow store "ETH" Pending ether 0 at_ (seconds 1000) None email.
Definition batched (id : Uuid) (invoice : string) : PaymentRow :=
  mkPaymentRow id invoice None Native ether "ETH" None (Some 5) 0 None None false None None None None.
Definition books : ReadDb :=
  mkReadDb (mkTeamDb ∅ ∅ ∅ {[(1, 5) := 901; (9, 6) := 901]} ∅ ∅)
    (mkDb {["a" := sale 5 10 None; "b" := sale 6 20 (Some "buyer@example.com")]}%string
       {[("eip155:1", "0x5", 0) := batched 1 "a"; ("eip155:1", "0x5", 1) := batched 2 "b"]}%string
       ∅ [] [] ∅ ∅ ∅ ∅ ∅ ∅ ∅).
Definition reading_room : Office ReadDb := mkOffice books 0 0 [].

Definition viewer (id : Uuid) (role : Role) (key : option (list string)) : StoreScopedUser := mkStoreScopedUser (mkUserInfo id role) key.
Definition everything : ListInvoicesQuery := mkListInvoicesQuery None None None None None None.

Definition ids_of {E} (r : result E (Z * list InvoiceResponse)) : list string :=
  match r with Ok (_, l) => (fun x => id_id (ir_invoice x)) <$> l | Err _ => [] end.

Lemma csv_roundtrip_witness :
  csv_row [String QUOTE "a"; "b"]%string <> "" /\
  parse_csv (csv_row ["h"]%string +:+ String.concat "" (csv_row <$> [["x, y"; ""]; [String CR "z"]]%string)) = Some [["h"]; ["x, y"; ""]; [String CR "z"]]%string.
Proof. split; [discriminate|]. apply csv_roundtrip; [discriminate|]. repeat constructor; discriminate. Defined.

Lemma reads_stay_in_scope_witness :
  ids_of (fst (list_invoices (viewer 1 RegularUser None) everything reading_room)) = ["a"%string] /\
  reads (list_invoices (viewer 1 RegularUser None) everything) books (fun r => forall x, x ∈ r.2 -> shown (viewer 1 RegularUser None) books (ir_invoice x)).
Proof.
  split; [vm_compute; reflexivity|]. exact (proj1 (reads_stay_in_scope (viewer 1 RegularUser None) books) everything).
Defined.

(** The file of an administrator. *)
Definition all_invoices : InvoiceQuery := mkInvoiceQuery None None None None None None None 50 0.

Lemma export_complete_witness :
  runs (export_invoices_csv (viewer 3 ServerAdmin None) everything) books (fun r d' => d' = books /\ exists name body rows,
    r = Ok (Csv name body) /\ rows ≡ₚ matched all_invoices books /\ Sorted (fun a b => inv_created_at b.2 <= inv_created_at a.2) rows /\
    parse_csv body = Some (invoice_header :: ((fun kr => invoice_fields (row_to_invoice kr.1 kr.2)) <$> rows))).
Proof.
  assert (Hup : forall n, calls (Runtime := demo_up) n = Answered) by (intros n; reflexivity).
  apply (export_complete Hup (viewer 3 ServerAdmin None) everything books all_invoices).
  - intros o Ho. reflexivity.
  - intros x y Hx Hy. assert (Hm : matched all_invoices books = [("a", sale 5 10 None); ("b", sale 6 20 (Some "buyer@example.com"))]%string
      \/ matched all_invoices books = [("b", sale 6 20 (Some "buyer@example.com")); ("a", sale 5 10 None)]%string) by (vm_compute; auto).
    destruct Hm as [Hm|Hm]; rewrite Hm in Hx, Hy; 
      apply elem_of_cons in Hx as [Hx|Hx%list_elem_of_singleton]; apply elem_of_cons in Hy as [Hy|Hy%list_elem_of_singleton]; subst x y; done.
  - vm_compute. discriminate.
Defined.

(** ** What can go wrong *)

(** The key of an administrator is limited to store 5.  Asking for store 6 is
    refused; asking for no store lists store 6 all the same. *)
Example admin_key_not_narrowed :
  let c := viewer 3 ServerAdmin (Some ["ethpay.store.canviewinvoices:5"]%string) in
  (fst (list_invoices c (mkListInvoicesQuery (Some 6) None None None None None) reading_room), ids_of (fst (list_invoices c everything reading_room)))
  = (Err 403, ["b"; "a"]%string).
Proof. vm_compute. reflexivity. Qed.

(** The request for a page is lost: the file ends there, and is answered as if
    it were whole. *)
Definition rows_of (r : result Z Export) : option nat :=
  match r with Ok (Csv _ body) => length <$> parse_csv body | _ => None end.

Example export_cut_short :
  let c := viewer 3 ServerAdmin None in
  (rows_of (fst (export_invoices_csv (H := demo_up) c everything reading_room)),
   rows_of (fst (export_invoices_csv (H := demo_drop 4) c everything reading_room))) = (Some 3%nat, Some 1%nat).
Proof. vm_compute. reflexivity. Qed.

(** The listing shows the customer's address of an invoice, the file does not. *)
Example export_without_email :
  let c := viewer 9 RegularUser None in
  (match fst (list_invoices c everything reading_room) with Ok (_, l) => List.map ir_customer_email l | _ => [] end,
   match fst (export_invoices_csv c everything reading_room) with Ok (Csv _ body) => option_map (List.map last) (parse_csv body) | _ => None end)
  = ([Some "buyer@example.com"], Some [Some "customer_email"; Some ""])%string.
Proof. vm_compute. reflexivity. Qed.

(** Two invoices of one instant, read one to a page: the first page and the
    second show the same one. *)
Definition twins : ReadDb :=
  mkReadDb (rb_team books) (db_set_invoices {["a" := sale 5 10 None; "c" := sale 5 10 None]}%string (rb_db books)).

Example pages_overlap :
  let c := viewer 1 RegularUser None in
  let ask off o := list_invoices c (mkListInvoicesQuery None None None None (Some 1) (Some off)) o in
  let first := ask 0 (mkOffice twins 0 0 []) in
  ids_of (fst first) = ids_of (fst (ask 1 (snd first))).
Proof. vm_compute. reflexivity. Qed.

(** One transaction pays an invoice of each store.  The owner of one of them
    looks it up and is told that there is none. *)
Definition tx_hash : string := "0x0000000000000000000000000000000000000000000000000000000000000005".
Definition batch_books : ReadDb :=
  mkReadDb (rb_team books) (db_set_payments {[("eip155:1", tx_hash, 0) := batched 1 "a"; ("eip155:1", tx_hash, 1) := batched 2 "b"]}%string (rb_db books)).

Example batched_payment_not_found :
  let ask u := is_ok (fst (lookup_by_tx_hash (viewer u RegularUser None) "eip155:1" tx_hash (mkOffice batch_books 0 0 []))) in
  xorb (ask 1) (ask 9) = true.
Proof. vm_compute. reflexivity. Qed.

(** * The wallet page of a store *)

#[local] Instance demo_mask : XpubMask := { mask_xpub := fun s => s }.

(** Two methods of store 5, one pinned to a wallet the store does not use. *)
Definition wallet_site : Site :=
  mkSite (st_server (InvoiceDemo.shop one_method))
    (mkWalletDb {[10 := mkWalletRow 1 "eip155" account_text 3 None true 0; 11 := mkWalletRow 1 "eip155" "xpubB" 7 None false 1]} ∅
       (<[20 := meth 5 "eip155:1" None 0]> (<[21 := meth 5 "eip155:137" (Some 11) 1]> ∅))
       {[5 := mkStoreRow 1 false]} [] [] (mkMemberships {[(1, 5) := 40]} {[40 := [VIEW_SETTINGS]]} ∅)).

Definition wallet_of (method : Uuid) : StoreWalletQuery := mkStoreWalletQuery None (Some method).
Definition pinned_report : MethodWalletResponse :=
  mkMethodWalletResponse (mkStoreWalletResponse 5 11 (mkWalletRow 1 "eip155" "xpubB" 7 None false 1) false) true.

Definition wallet_site_read : Site := snd (get_store_wallet (caller 1) 5 (wallet_of 21) wallet_site).

Lemma reported_wallet_allocated_witness :
  st_wallets wallet_site_read = st_wallets wallet_site /\ reports 5 21 (st_wallets wallet_site) pinned_report.
Proof.
  apply (reported_wallet_allocated (caller 1) 5 (wallet_of 21) 21 wallet_site pinned_report wallet_site_read).
  - reflexivity.
  - vm_compute. reflexivity.
Defined.

(** Registering a key the account has shows the addresses of it that were used. *)
Definition readded : result Z (Uuid * WalletRow * list DerivedAddressEntry) * Site :=
  create_wallet_route (mkUserInfo 1 RegularUser) (mkCreateWalletRequest "eip155" account_text None) wallet_site.
Definition readded_row : WalletRow := mkWalletRow 1 "eip155" account_text 3 None true 0.
Definition readded_entries : list DerivedAddressEntry := match fst readded with Ok (_, _, es) => es | Err _ => [] end.

Lemma registered_key_shows_own_addresses_witness :
  List.map de_index readded_entries = [0; 1; 2] /\ Forall2 (fun i e => exists a, derive_address_for toy_wallet Evm i = Ok a /\
    e = mkDerivedAddressEntry (encode_address Evm a) i (derivation_path Evm i) (i <? 3)) [0; 1; 2] readded_entries.
Proof.
  split; [vm_compute; reflexivity|].
  apply (registered_key_shows_own_addresses toy_wallet Evm (mkUserInfo 1 RegularUser) None wallet_site 10 readded_row readded_entries (snd readded)).
  - vm_compute. reflexivity.
  - reflexivity.
  - vm_compute. reflexivity.
Defined.

(** The wallets of another account do not exist, and the primary wallet of a
    store that inherits it goes without a refusal. *)
Example wallet_routes_run :
  (fst (handle_wallet (ExportXpub (mkUserInfo 2 RegularUser) 10) wallet_site),
   fst (handle_wallet (DeleteWallet (mkUserInfo 2 RegularUser) 10) wallet_site),
   fst (handle_wallet (SetStoreWallet (caller 1) 5 11) wallet_site),
   fst (handle_wallet (SetStoreWallet admin 5 11) wallet_site),
   fst (handle_wallet (DeleteWallet (mkUserInfo 1 RegularUser) 11) wallet_site),
   fst (handle_wallet (DeleteWallet (mkUserInfo 1 RegularUser) 10) wallet_site))
  = (Err 404, Err 404, Err 403, Ok tt, Err 409, Ok tt).
Proof. vm_compute. reflexivity. Qed.

(** * Login credentials *)

#[local] Instance unit_json : JsonCodec unit := { to_value := fun _ => Some "null"%string; from_value := fun _ => Some tt }.
#[local] Instance demo_auth_types : AuthTypes := {
  KdfParams := unit; EncryptedKey := unit; Passkey := unit; PasskeyRegistration := unit; PasskeyAuthentication := unit;
  DiscoverableAuthentication := unit;
  inet_text := fun s => Some (s +:+ "/32"); json_cred_id := fun s => Some s; base64_url := fun s => s
}.
#[local] Instance demo_draws : AuthHost := {
  validate_session_token := fun _ _ => None; key_digest := fun s => s; random_hex := fun _ _ => "c0ffee"%string
}.

(** A clock that stands [off] nanoseconds after a whole second. *)
Definition late_clock (off : Z) : Runtime :=
  {| calls := fun _ => Answered; clock := fun n => seconds (Z.of_nat n) + off; new_v4 := fun n => 1000 + Z.of_nat n |}.

(** What is shown to the owner of [0xabc] at [t], and a world in which its
    signature is known for that message only. *)
Definition shown_text (t : Z) : string :=
  "Confirm this wallet change on random.cash:" +:+ NEWLINE +:+ NEWLINE +:+ "Challenge: " +:+ "c0ffee" +:+ NEWLINE +:+
  "Timestamp: " +:+ z_to_string t +:+ NEWLINE +:+ "Address: " +:+ "0xabc".
Definition eip191 (m : string) : string :=
  String (Ascii.ascii_of_nat 25) ("Ethereum Signed Message:" +:+ NEWLINE +:+ z_to_string (Z.of_nat (String.length m))) +:+ m.
Definition toy_crypto (t : Z) : WalletCrypto := {|
  hex_decode := Some; hex_encode := fun s => s; EcdsaSignature := unit; signature_from_slice := fun _ => Some tt;
  keccak256 := fun s => s;
  recover_from_prehash := fun h _ _ => if String.eqb h (eip191 (shown_text t)) then Some ".............abc"%string else None;
  to_rfc3339 := z_to_string |}.

Definition toy_signature : string :=
  "................................................................" +:+ String (Ascii.ascii_of_nat 27) EmptyString.

(** The account logs in by one wallet and has another. *)
Definition login_user : UserRow := mkUserRow (Some "a@x.org"%string) (Some "0xold"%string) (Some "a@x.org"%string) "k" 0 None 0 None RegularUser.
Definition vault_db : CredDb :=
  mkCredDb (mkTeamDb {[1 := login_user]} ∅ ∅ ∅ ∅ ∅)
    (<[30 := mkWalletCredential 30 1 "0xold" "old" true 0 None true]> (<[31 := mkWalletCredential 31 1 "0xabc" "new" false 0 None true]> ∅))
    ∅ ∅ ∅ ∅ ∅ ∅ ∅ ∅.
Definition vault : Office CredDb := mkOffice vault_db 0 0 [].
Definition me : UserInfo := mkUserInfo 1 RegularUser.

Definition asked_at (off : Z) : result Z (string * Z) * Office CredDb :=
  create_wallet_reauth_challenge (H := late_clock off) (H1 := toy_crypto (seconds 1 + off)) me 31 vault.
Definition answered_at (off : Z) : result Z WalletCredential * Office CredDb :=
  set_primary_wallet_credential (H := late_clock off) (H1 := toy_crypto (seconds 1 + off)) me 31 toy_signature (snd (asked_at off)).

(** The same request and the same signature, a nanosecond apart. *)
Example owner_refused_by_a_nanosecond :
  (is_ok (fst (answered_at 0)), us_wallet_address <$> cd_users (of_db (snd (answered_at 0))) !! 1,
   fst (answered_at 1), us_wallet_address <$> cd_users (of_db (snd (answered_at 1))) !! 1)
  = (true, Some (Some "0xabc"), Err 401, Some (Some "0xold"))%string.
Proof. vm_compute. reflexivity. Qed.

(** The world knows the signature for the shown message and for no other. *)
Lemma toy_verifies t m' : verify_wallet_signature (H1 := toy_crypto t) m' toy_signature "0xabc" = String.eqb (eip191 m') (eip191 (shown_text t)).
Proof.
  unfold verify_wallet_signature. change (message_hash m') with (eip191 m'). cbn -[eip191 shown_text]. destruct (String.eqb _ _); vm_compute; reflexivity.
Qed.

Definition digits (n : nat) : nat := String.length (z_to_string (Z.of_nat n)).

(** The length in front of a message of the length of the shown one. *)
Lemma shown_length n : (digits n + n = digits 98 + 98)%nat -> n = 98%nat.
Proof.
  intros He. assert (Hle : (n < 110)%nat) by (change (digits 98) with 2%nat in He; lia).
  assert (Hall : forallb (fun n => implb (digits n + n =? digits 98 + 98)%nat (n =? 98)%nat) (List.seq 0 110) = true) by (vm_compute; reflexivity).
  rewrite forallb_forall in Hall. specialize (Hall n ltac:(apply in_seq; lia)). rewrite (proj2 (Nat.eqb_eq _ _) He) in Hall. by apply Nat.eqb_eq in Hall.
Qed.

Lemma toy_signature_exact m' :
  verify_wallet_signature (H1 := toy_crypto (seconds 1 + 0)) m' toy_signature "0xabc" = true <-> m' = shown_text (seconds 1 + 0).
Proof.
  rewrite toy_verifies, String.eqb_eq. split; [|by intros ->]. unfold eip191. rewrite !append_cons. intros [= He].
  rewrite !string_app_assoc in He. repeat apply (inj (String.append _)) in He.
  assert (Hl : String.length m' = 98%nat).
  { apply shown_length. apply (f_equal String.length) in He. rewrite !length_string_app in He. exact He. }
  rewrite Hl in He. by apply (inj (String.append _)) in He.
Qed.

#[local] Instance toy_crypto_laws t : @WalletCryptoLaws (toy_crypto t).
Proof. split. intros x y He. apply (f_equal z_parse) in He. rewrite !z_parse_to_string in He. by injection He. Qed.

Lemma promotion_needs_whole_microseconds_witness :
  fst (answered_at 0) = Ok (wc_set_primary true (mkWalletCredential 31 1 "0xabc" "new" false 0 None true)).
Proof.
  unfold answered_at.
  rewrite (promotion_needs_whole_microseconds (H := late_clock 0) (H1 := toy_crypto (seconds 1 + 0)) (fun _ => eq_refl) me 31 vault
    (shown_text (seconds 1 + 0)) WALLET_REAUTH_CHALLENGE_TTL_SECS (snd (asked_at 0)) (mkWalletCredential 31 1 "0xabc" "new" false 0 None true)
    toy_signature).
  - vm_compute. reflexivity.
  - vm_compute. reflexivity.
  - reflexivity.
  - vm_compute. reflexivity.
  - exact toy_signature_exact.
  - vm_compute. reflexivity.
Defined.

Lemma vault_sound : cred_ok vault_db.
Proof.
  split; [split; cbn [cd_users cd_wallets vault_db cd_team td_users]|split; cbn; intros ? ? Hx; by rewrite lookup_empty in Hx].
  - intros i w Hw. lookups; done.
  - intros i j w v Hw Hv He. lookups; done.
  - intros i j w v Hw Hv He Hp Hp'. lookups; done.
  - intros i w Hw. lookups; by eexists.
Qed.

(** A promotion, a deactivated primary, and a wallet that takes its place. *)
Definition busy_night : list (Instant * CredOp) :=
  [(1, OpSetPrimary 1 31); (2, OpDeactivateWallet 31); (3, OpCreateWallet (mkWalletCredential 32 1 "0xdef" "third" true 3 None true));
   (4, OpUpdateWallet (mkWalletCredential 31 1 "" "back" true 0 None true)); (5, OpStoreReauth 1 "0xdef" "c0ffee" 5)].

(** The last [UPDATE] is refused: it would make a second active primary. *)
Lemma credentials_stay_sound_witness :
  cred_ok (cred_run busy_night vault_db) /\ wc_is_active <$> cd_wallets (cred_run busy_night vault_db) !! 31 = Some false.
Proof. split; [exact (credentials_stay_sound busy_night vault_db vault_sound)|vm_compute; reflexivity]. Defined.

Lemma challenge_answered_once_witness :
  fst (slot_take ReauthTable 1 9 (cred_run busy_night vault_db)) = Ok (Some (mkWalletReauthChallenge "0xdef" "c0ffee" 0)) /\
  fst (slot_take LoginTable 1 9 (cred_run busy_night vault_db)) = Ok None.
Proof.
  split; [rewrite (challenge_answered_once ReauthTable 1 busy_night 9 vault_db)|vm_compute; reflexivity].
  - vm_compute. reflexivity.
  - repeat constructor; discriminate.
  - reflexivity.
Defined.

(** A wallet its account gave up cannot be registered again, by nobody. *)
Example revoked_address_stays_taken :
  fst (create_credential (mkWalletCredential 40 1 "0xabc" "again" false 0 None true) 3
         (cred_run [(1, OpDeactivateWallet 31)] vault_db)) = Err WalletAlreadyRegistered.
Proof. vm_compute. reflexivity. Qed.

(** * Live updates *)

(** Session 77 of account 1, a member of store 5. *)
Definition feed_team (role : Role) : TeamDb :=
  mkTeamDb {[1 := mkUserRow None None None "" 0 None 0 None role]} ∅ ∅ {[(1, 5) := 904]} ∅ ∅.
Definition feed_start (role : Role) : FeedWorld :=
  mkFeedWorld (feed_team role) {[77 := 1]} (mkWsBroadcast ∅ ∅ ∅ 0) (new_socket 77).
Definition news (status : string) : StatusUpdate := InvoiceStatusUpdate "inv" status.
Definition own_store : Topic := StoreTopic 5.

(** One update of the own store and one of another, up to the client. *)
Definition deliver_one (t : Topic) : list Action := [ListenerRecv t; ListenerPush t; PickUpdate].
Definition member_says : list Action := [SessionReply true; UserReply true; StoresReply true; FrameSent true].
Definition feed_day : list Action :=
  member_says ++ [Publish 5 (news "paid"); Publish 6 (news "secret"); Publish 5 (news "refunded")] ++ deliver_one own_store ++ member_says.
Definition feed_evening : FeedWorld := default (feed_start RegularUser) (feed_run 16 feed_day (feed_start RegularUser)).

Lemma updates_only_to_entitled_witness :
  sk_delivered (wo_socket feed_evening) = [(own_store, news "paid")] /\
  entitled 77 (feed_trace 16 feed_day (feed_start RegularUser)) own_store (news "paid").
Proof.
  assert (Hd : sk_delivered (wo_socket feed_evening) = [(own_store, news "paid")]) by (vm_compute; reflexivity).
  split; [exact Hd|].
  pose proof (updates_only_to_entitled 16 (feed_start RegularUser) 77 (feed_trace 16 feed_day (feed_start RegularUser)) feed_evening
    eq_refl (run_history 16 feed_day (feed_start RegularUser) feed_evening ltac:(vm_compute; reflexivity))) as Hall.
  rewrite Hd in Hall. inversion Hall; subst. assumption.
Defined.

(** The socket as it is told that it is connected, and the rest of the day. *)
Definition feed_told : FeedWorld := revalidated ForStart {[own_store]} (feed_start RegularUser).
Definition feed_rest : list Action :=
  [FrameSent true; Publish 5 (news "paid"); Publish 6 (news "secret"); Publish 5 (news "refunded")] ++ deliver_one own_store ++ member_says.
Definition feed_later : FeedWorld := default feed_told (feed_run 16 feed_rest feed_told).

Lemma feed_access : Forall (fun x => keeps_access own_store 77 1 x.1) (feed_trace 16 feed_rest feed_told).
Proof.
  assert (Hall : Forall (fun x : FeedWorld * Action => wo_team x.1 = feed_team RegularUser /\ wo_sessions x.1 = {[77 := 1]}) (feed_trace 16 feed_rest feed_told))
    by (vm_compute; repeat constructor).
  eapply Forall_impl; [exact Hall|]. intros [w a] [Ht Hs]. cbn in *. unfold keeps_access. rewrite Ht, Hs. split_and!.
  - intros v Hv. vm_compute in Hv. by injection Hv.
  - intros r Hr. vm_compute in Hr. injection Hr as <-. by split.
  - intros store [= <-]. by eexists.
Qed.

Lemma live_feed_gapless_witness :
  published_since own_store (feed_trace 16 feed_rest feed_told) = [news "paid"; news "refunded"] /\
  of_topic own_store (sk_delivered (wo_socket feed_later)) = [news "paid"] /\
  of_topic own_store (sk_delivered (wo_socket feed_later)) `prefix_of` published_since own_store (feed_trace 16 feed_rest feed_told).
Proof.
  split; [vm_compute; reflexivity|]. split; [vm_compute; reflexivity|].
  apply (live_feed_gapless own_store 77 1 16 (Validating ForStart) {[own_store]} (feed_start RegularUser) (feed_trace 16 feed_rest feed_told) feed_later).
  - reflexivity.
  - by apply elem_of_singleton.
  - exact (run_history 16 feed_rest feed_told feed_later ltac:(vm_compute; reflexivity)).
  - exact feed_access.
Defined.

(** An administrator who is also a member of the store loses the role while an
    update is queued: it came by the administrators' channel and is dropped,
    the store's channel is joined too late, and the open socket never says so. *)
Definition demoted_midway : list Action :=
  [SessionReply true; UserReply true; FrameSent true; Publish 5 (news "paid")] ++ deliver_one AdminTopic ++
  [TablesChange (feed_team RegularUser); SessionReply true; UserReply true; StoresReply true].

Example demoted_admin_misses_update :
  (fun w => (sk_phase (wo_socket w), sk_lagged (wo_socket w), sk_delivered (wo_socket w), sk_queue (wo_socket w),
             bool_decide (is_Some (sk_listeners (wo_socket w) !! own_store)),
             recv 16 1 (channel_of own_store (wo_broadcast w)))) <$> feed_run 16 demoted_midway (feed_start ServerAdmin)
  = Some (Selecting, false, [], [], true, Empty).
Proof. vm_compute. reflexivity. Qed.

(** * The delivery log *)

(** A payload with the id of the delivery, the type and the invoice. *)
#[local] Instance log_api : ApiTypes := {
  status_to_string := status_to_db;
  WebhookEventType := string;
  PaymentDetectedEvent := "payment_detected"%string;
  PaymentConfirmedEvent := "payment_confirmed"%string;
  LatePaidEvent := "late_paid"%string;
  InvoiceExpiredEvent := "invoice_expired"%string;
  event_type_str := fun e => e;
  event_type_of_str := Some;
  WebhookPayload := Uuid * string * string;
  payload_event_type := fun p => p.1.2;
  payload_invoice_id := snd;
  invoice_event := fun n e i => (Z.of_nat n, e, id_id i);
  payment_event := fun n e i _ => (Z.of_nat n, e, id_id i);
  payment_reorged := fun n i _ => (Z.of_nat n, "payment_reorged"%string, id_id i)
}.
#[local] Instance log_codec : JobCodec := { job_to_json := fun j => "job " +:+ z_to_string (wj_id j); job_from_json := fun _ => None }.
#[local] Instance log_http : HttpWorld := {
  http_send := fun _ _ => HttpStatus 204;
  hmac_sha256_hex := fun payload secret => secret +:+ "#" +:+ payload;
  payload_to_json := fun p => p.1.2 +:+ " " +:+ p.2;
  payload_event_id := fun p => z_to_string p.1.1;
  payload_idempotency_key := fun p => p.1.2 +:+ ":" +:+ p.2
}.

#[local] Instance newer_delivery_dec : RelDecision (fun a b => de_created_at b <= de_created_at a).
Proof. intros a b. apply _. Defined.

#[local] Instance log_host : DeliveryHost := {
  payload_to_value := fun p => JObject [("event_id", JString (z_to_string p.1.1)); ("event_type", JString p.1.2); ("invoice_id", JString p.2)];
  payload_of_value := fun v =>
    match json_get "event_id" v, json_get "event_type" v, json_get "invoice_id" v with
    | Some (JString e), Some (JString t), Some (JString i) => e ← z_parse e; Some (e, t, i)
    | _, _, _ => None
    end;
  with_event_id := fun id p => (id, p.1.2, p.2);
  order_deliveries := fun _ => merge_sort (fun a b => de_created_at b <= de_created_at a);
  sink_configured := true
}.

#[local] Instance log_host_laws : DeliveryHostLaws.
Proof.
  split; try done; cbn.
  - intros [[e t] i]. cbn. by rewrite z_parse_to_string.
  - intros _ l. apply merge_sort_Permutation.
  - intros _ l. apply Sorted_merge_sort. intros a b. lia.
Qed.

(** Store 5 of member 1 with its webhook; the URL was changed since. *)
Definition log_tables (hook : StoreWebhook) : ReadDb :=
  mkReadDb (feed_team RegularUser) (mkDb ∅ ∅ ∅ [] [] ∅ ∅ ∅ ∅ {[5 := hook]} ∅ ∅).
Definition old_hook : StoreWebhook := mkStoreWebhook 50 "https://old.example" "secret" true.
Definition new_hook : StoreWebhook := mkStoreWebhook 50 "https://new.example" "rotated" true.
Definition log_job : WebhookJob := new_job 7 3 50 "https://old.example" "secret" (1, "invoice_expired"%string, "inv"%string).
Definition log_start : DeliveryDb := mkDeliveryDb (log_tables old_hook) ∅ ∅.
Definition log_later : list LogOp :=
  [LogWrite (seconds 60) (delivery_params log_job DFailed 7 (Some "timed out"%string)); TablesMove (log_tables new_hook) ∅].
Definition log_evening : DeliveryDb := log_run log_later (snd (upsert_delivery (delivery_params log_job DPending 0 None) 3 log_start)).
Definition log_office (d : DeliveryDb) : Office DeliveryDb := mkOffice d 100 0 [].
Definition log_member : UserInfo := mkUserInfo 1 RegularUser.

Lemma log_webhooks d hook s w : dd_read d = log_tables hook -> dd_webhooks d !! s = Some w -> s = 5 /\ w = hook.
Proof. intros Hd Hs. unfold dd_webhooks in Hs. rewrite Hd in Hs. cbn in Hs. by apply lookup_singleton_Some in Hs as [<- <-]. Qed.

Lemma replay_resends_first_event_witness :
  exists w event_id again, sw_url w = "https://new.example"%string /\ wj_webhook_url again = sw_url w /\
    wj_payload again = (event_id, "invoice_expired"%string, "inv"%string) /\
    payload_idempotency_key (wj_payload again) = payload_idempotency_key (wj_payload log_job).
Proof.
  destruct (replay_resends_first_event log_member 5 log_job 3 log_later log_start eq_refl (log_office log_evening) eq_refl)
    as [[_ Hbad]|(w & event_id & again & _ & Hw & _ & _ & (_ & Hurl & _ & Hp & _) & Hkey & _)]; [vm_compute in Hbad; discriminate|].
  exists w, event_id, again. vm_compute in Hw. injection Hw as <-. split; [reflexivity|]. split; [exact Hurl|]. split; [exact Hp|exact Hkey].
Defined.

Lemma replay_accepted_witness : exists resp o', replay_delivery log_member 5 7 (log_office log_evening) = (Ok resp, o').
Proof.
  destruct (replay_accepted log_member 5 7 (default (upserted (delivery_params log_job DPending 0 None) 3 None) (dd_deliveries log_evening !! 7))
    new_hook (wj_payload log_job) (log_office log_evening)) as (resp & o' & _ & _ & Hr & _).
  - done.
  - reflexivity.
  - intros s s' w w' Hs Hs' _. destruct (log_webhooks log_evening new_hook _ _ eq_refl Hs) as [-> _]. by destruct (log_webhooks log_evening new_hook _ _ eq_refl Hs') as [-> _].
  - right. by eexists.
  - vm_compute. reflexivity.
  - vm_compute. reflexivity.
  - vm_compute. reflexivity.
  - vm_compute. reflexivity.
  - reflexivity.
  - by exists resp, o'.
Defined.

(** The webhook was deleted and set again: the store has one, with another id. *)
Definition log_reset : DeliveryDb := log_step log_evening (TablesMove (log_tables (mkStoreWebhook 51 "https://new.example" "rotated" true)) ∅).

Lemma deleted_webhook_hides_deliveries_witness :
  joined log_reset = [] /\ fst (replay_delivery log_member 5 7 (log_office log_reset)) = Err 404 /\
  is_ok (fst (replay_delivery log_member 5 7 (log_office log_reset))) = false.
Proof.
  split; [vm_compute; reflexivity|]. split; [vm_compute; reflexivity|].
  destruct (deleted_webhook_hides_deliveries 7 (default (upserted (delivery_params log_job DPending 0 None) 3 None) (dd_deliveries log_reset !! 7)) log_reset)
    as [_ Hreplay].
  - vm_compute. reflexivity.
  - intros s w Hs. destruct (log_webhooks log_reset _ _ _ eq_refl Hs) as [_ ->]. vm_compute. discriminate.
  - exact (proj2 (Hreplay log_member 5 (log_office log_reset) eq_refl)).
Defined.

(** An outcome no caller wrote is shown as a failure. *)
Example unknown_status_reads_failed :
  de_status (row_to_delivery 1 5 (mkDeliveryRecord 50 "inv" "x" "paused" 1 7 None JNull 0 0)) = DFailed.
Proof. reflexivity. Qed.

(** * The token registry *)

#[local] Instance token_auth : AuthHost := {
  validate_session_token := fun _ id => if id =? 9 then Some (mkUserInfo 1 ServerAdmin, 0) else None;
  key_digest := fun s => s;
  random_hex := fun _ _ => "c0ffee"%string
}.

Definition nulls_first (a b : TokenData) : Prop := tk_token_id b = None -> tk_token_id a = None.
#[local] Instance nulls_first_dec : RelDecision nulls_first.
Proof. intros a b. unfold nulls_first. destruct (tk_token_id a), (tk_token_id b); (left; congruence) || (right; intros Hn; by specialize (Hn eq_refl)). Defined.

(** Rows that tie come in another order at every other second. *)
#[local] Instance demo_tokens : TokenHost := {
  chain_parse := Some;
  chain_is_evm := String.prefix "eip155:";
  manages_tokens := fun r => bool_decide (r = ServerAdmin);
  order_by_token_id := fun t l => merge_sort nulls_first (if Z.even (t / seconds 1) then l else reverse l);
  order_tokens := fun _ l => l
}.

#[local] Instance nulls_first_trans : Transitive nulls_first.
Proof. intros a b c Hab Hbc Hc. by apply Hab, Hbc. Qed.
#[local] Instance nulls_first_total : Total nulls_first.
Proof. intros a b. unfold nulls_first. destruct (tk_token_id a), (tk_token_id b); (left; congruence) || (right; congruence). Qed.

#[local] Instance demo_tokens_laws : TokenHostLaws.
Proof.
  split; intros t l.
  - cbn. rewrite merge_sort_Permutation. destruct (Z.even _); [done|]. apply reverse_Permutation.
  - exact (StronglySorted_merge_sort nulls_first _).
  - done.
Qed.

Definition session_nine : list (string * string) := [("authorization", "Bearer 9")]%string.
Definition new_token (standard address : string) (decimals : option Z) : TokenRequest :=
  RqCreateToken (mkCreateTokenRequest standard address "eip155:1" None (Some "T"%string) decimals None true).
Definition registry_open : Office TokenDb := mkOffice (mkTokenDb ∅ 1) 0 0 [].

Lemma registry_open_ok : registry_ok (of_db registry_open).
Proof. split; cbn; intros *; by rewrite lookup_empty. Qed.

(** A token of each standard, a change, a stranger's request, and a refusal. *)
Definition registry_day : list (list (string * string) * TokenRequest) :=
  [(session_nine, new_token "erc20" "0xAB" (Some 6)); (session_nine, new_token "erc20" "0xAB" (Some 18));
   (session_nine, new_token "erc721" "0xCD" None); ([], RqDeleteToken 1);
   (session_nine, RqUpdateToken 1 (mkUpdateTokenRequest (Some "Name"%string) None None None)); (session_nine, RqSetEnabled 3 false)].

Lemma token_registry_sound_witness :
  registry_ok (of_db (token_run registry_day registry_open)) /\ size (tb_rows (of_db (token_run registry_day registry_open))) = 2%nat.
Proof. split; [exact (token_registry_sound registry_day registry_open registry_open_ok)|vm_compute; reflexivity]. Defined.

Definition usdt : CreateTokenRequest := mkCreateTokenRequest "erc20" "0xAB" "eip155:1" None (Some "USDT"%string) (Some 6) None true.
Definition usdt_created : TokenData := mkTokenData (Some 1) "erc20" "0xAB" "eip155:1" true None (Some "USDT"%string) (Some 6) None.

Lemma created_token_reads_back_witness : fst (get_token 1 (snd (create_token usdt registry_open))) = Ok usdt_created.
Proof.
  destruct (created_token_reads_back (H := demo_up) usdt registry_open usdt_created (snd (create_token usdt registry_open)) (fun _ => eq_refl)) as (id & Hid & Hget).
  - vm_compute. reflexivity.
  - injection Hid as <-. exact Hget.
Defined.

(** The same contract in two spellings, with other decimals: both are accepted,
    and a lookup answers with one or the other. *)
Definition two_spellings : TokenDb :=
  of_db (token_run [(session_nine, new_token "erc20" "0xAB" (Some 6)); (session_nine, new_token "erc20" "0xab" (Some 18))] registry_open).

Example one_contract_two_tokens :
  (size (tb_rows two_spellings), tk_decimals <$> (default None (result_ok (fst (get_by_address "eip155:1" "0xab" 0 two_spellings)))),
   tk_decimals <$> (default None (result_ok (fst (get_by_address "eip155:1" "0xab" (seconds 1) two_spellings)))))
  = (2%nat, Some (Some 18), Some (Some 6)).
Proof. vm_compute. reflexivity. Qed.

(** The standard is stored as it was written: a filter by type misses it. *)
Example upper_case_standard_missed :
  let d := token_run [(session_nine, new_token "ERC20" "0xAB" (Some 6))] registry_open in
  (size (tb_rows (of_db d)), fst (list_tokens (mkListTokensQuery (Some "erc20"%string) None None None 100 0) d)) = (1%nat, Ok (0, [])).
Proof. vm_compute. reflexivity. Qed.

(** An update is not checked against the standard: an NFT gets decimals. *)
Example nft_given_decimals :
  tr_decimals <$> tb_rows (of_db (token_run
    [(session_nine, new_token "erc721" "0xCD" None); (session_nine, RqUpdateToken 1 (mkUpdateTokenRequest None None (Some 6) None))] registry_open)) !! 1
  = Some (Some 6).
Proof. vm_compute. reflexivity. Qed.
