(* ===== verification/Plugins.v ===== *)
(** * Plugins: install records, storage, pools, boot and pages

    A plugin's life on the server: the install records of
    [data-service/src/postgres/installed_plugins.rs], its schema and login role
    ([server/src/services/plugins/storage.rs]), its connection pool
    ([pools.rs]), loading at startup ([boot.rs]), the administrator's routes
    ([server/src/api/admin/plugins.rs]), pages ([server/src/api/plugins.rs],
    [page_renderer.rs]) and who is called for what ([dispatch.rs]).  Manifests,
    artifacts on disk and the WebAssembly host are another crate's: the class
    [PluginCrates]. *)

From stdpp Require Import gmap strings list.
From Stdlib Require Import ZArith Lia Ascii.
From S2P Require Import Prelude Events Network Decimal Database LiveWatch Services Idempotency ApiKeys Consumer ApiAuth.
From S2P Require Import Derivation Quotes Wallets Invoicing Office Standing Teams Reading.

#[local] Open Scope Z_scope.

(** ** Install records *)

(** [InstalledPlugin] *)
Record InstalledPlugin := mkInstalledPlugin {
  ip_id : string;
  ip_version : string;
  ip_manifest_toml : string;
  ip_artifact_sha256 : string;
  ip_enabled : bool;
  ip_disabled_reason : option string;
  ip_db_role_password : option string;
  ip_installed_at : Instant;
  ip_updated_at : Instant
}.

(** [NewInstalledPlugin] *)
Record NewInstalledPlugin := mkNewInstalledPlugin {
  np_id : string;
  np_version : string;
  np_manifest_toml : string;
  np_artifact_sha256 : string;
  np_db_role_password : option string
}.

(** [PluginEventKind] *)
Inductive PluginEventKind := EvInstalled | EvUpgraded | EvEnabled | EvDisabled | EvUninstalled | EvLoadFailed.

(** [PluginEventKind::as_str] *)
Definition plugin_event_str (k : PluginEventKind) : string :=
  match k with
  | EvInstalled => "installed" | EvUpgraded => "upgraded" | EvEnabled => "enabled"
  | EvDisabled => "disabled" | EvUninstalled => "uninstalled" | EvLoadFailed => "load_failed"
  end.

(** [PluginEvent] *)
Record PluginEvent := mkPluginEvent {
  pe_plugin_id : string;
  pe_event : string;
  pe_version : option string;
  pe_detail : option string;
  pe_actor_user_id : option Uuid;
  pe_at : Instant
}.

(** ** PostgreSQL's catalog *)

(** A privilege, on the objects of one schema. *)
Inductive Privilege := UsageOnSchema | DmlOnTables | UseSequences | DefaultDml | DefaultSequences.

#[export] Instance privilege_eq : EqDecision Privilege.
Proof. solve_decision. Defined.

Record PgRole := mkPgRole {
  rl_password : string;
  rl_statement_timeout : option string;
  rl_idle_timeout : option string;
  rl_connection_limit : option Z;
  rl_grants : list (Privilege * string)
}.

(** What the host's role can reach of the database, as far as plugins go: the
    install records, and every schema and role. *)
Record PgDatabase (Tables : Type) := mkPgDatabase {
  pg_plugins : gmap string InstalledPlugin;
  pg_events : list PluginEvent;
  pg_schemas : gmap string Tables;
  pg_roles : gmap string PgRole
}.
Arguments mkPgDatabase {Tables} _ _ _ _.
Arguments pg_plugins {Tables} _.
Arguments pg_events {Tables} _.
Arguments pg_schemas {Tables} _.
Arguments pg_roles {Tables} _.

(** ** The plugin crates

    Manifests, artifacts and the host.  A [PluginId] is its text. *)

(** [ArtifactError] *)
Inductive ArtifactError := DigestMismatch | UnsafeVersion | ArtifactNotFound | Unreadable | Unwritable.

(** [PluginStatusSnapshot] *)
Record PluginStatusSnapshot := mkPluginStatusSnapshot {
  ps_enabled : bool;
  ps_disabled_reason : option string;
  ps_consecutive_failures : Z
}.

(** [PageIcon] *)
Inductive PageIcon := Card | Coins | Chart | Users | Shield | Bell | Key | Tag | Plug.

(** [PageDeclaration]; a placement is whether it is for administrators only. *)
Record PageDeclaration := mkPageDeclaration {
  pd_path : string;
  pd_label : string;
  pd_icon : PageIcon;
  pd_admin_only : bool;
  pd_placement_is_admin_only : bool
}.

Class PluginCrates := {
  (** [PluginId::new], [PluginSlug::new] *)
  valid_plugin_id : string -> bool;
  valid_slug : string -> bool;
  (** [Manifest] *)
  Manifest : Type;
  parse_manifest : string -> result string Manifest;
  mf_id : Manifest -> string;
  mf_version : Manifest -> string;
  mf_slug : Manifest -> option string;
  mf_ui_schema : Manifest -> option Z;
  mf_pages : Manifest -> list PageDeclaration;
  mf_is_filter : Manifest -> bool;
  (** [PluginRegistry::register] on a fresh registry of this host's version *)
  registry_accepts : Manifest -> bool;
  (** [PluginArtifacts] on the plugin directory *)
  Disk : Type;
  artifact_digest : string -> string;
  artifact_write : string -> string -> string -> Disk -> option string * Disk;
  artifact_read_verified : string -> string -> string -> Disk -> result ArtifactError string;
  artifact_remove : string -> string -> Disk -> option bool * Disk;
  artifact_error_text : ArtifactError -> string;
  (** [PluginHost]; host calls are named by the plugin whose database they use *)
  Host : Type;
  host_register_with_calls : Manifest -> string -> option string -> Host -> result string Host;
  host_enable : string -> Host -> bool * Host;
  host_disable : string -> string -> Host -> bool * Host;
  host_status : string -> Host -> option PluginStatusSnapshot;
  (** [base64], the random source, [sqlx]'s migrator and URL parser *)
  base64_decode : string -> option string;
  random_bytes : nat -> option string;
  Tables : Type;
  no_tables : Tables;
  migrator_new : list (string * string) -> result string unit;
  (** the SQL of a plugin's migrations, run as the host's role on a connection
      with a search path: a default for names, which keeps them from nothing *)
  migrate : list (string * string) -> option string -> PgDatabase Tables -> result string unit * PgDatabase Tables;
  connect_options : string -> option unit;
  (** [ORDER BY id] in the collation of the database *)
  collated : list InstalledPlugin -> list InstalledPlugin;
  (** [UserId]'s [Display] *)
  actor_text : Uuid -> string
}.

(** What these promise. *)
Class PluginCratesLaws `{PluginCrates} := {
  (** an id is made of letters, digits and [. - _] *)
  plugin_id_chars id : valid_plugin_id id = true ->
    str_forall (fun a => let n := nat_of_ascii a in
      (((48 <=? n) && (n <=? 57)) || ((65 <=? n) && (n <=? 90)) || ((97 <=? n) && (n <=? 122)) ||
       (n =? 46) || (n =? 45) || (n =? 95))%nat) id = true;
  manifest_id_valid text m : parse_manifest text = Ok m -> valid_plugin_id (mf_id m) = true;
  (** an artifact that was written is read back exactly when its digest is asked
      for, and writing or removing one leaves the others alone *)
  write_digest id v w d sha d' : artifact_write id v w d = (Some sha, d') -> sha = artifact_digest w;
  read_written id v w d sha d' : artifact_write id v w d = (Some sha, d') -> artifact_read_verified id v sha d' = Ok w;
  read_checked id v sha d w : artifact_read_verified id v sha d = Ok w -> artifact_digest w = sha;
  write_elsewhere id v w d id' v' sha : (id', v') <> (id, v) ->
    artifact_read_verified id' v' sha (artifact_write id v w d).2 = artifact_read_verified id' v' sha d;
  remove_elsewhere id v d id' v' sha : (id', v') <> (id, v) ->
    artifact_read_verified id' v' sha (artifact_remove id v d).2 = artifact_read_verified id' v' sha d;
  (** the host holds what it registered, enabled; enabling and disabling concern
      one plugin it holds *)
  host_registered m w c h h' : host_register_with_calls m w c h = Ok h' ->
    (exists s, host_status (mf_id m) h' = Some s /\ ps_enabled s = true) /\
    forall id, id <> mf_id m -> host_status id h' = host_status id h;
  host_disabled id reason h : let '(held, h') := host_disable id reason h in
    held = option_is_some (host_status id h) /\
    (forall s, host_status id h' = Some s -> ps_enabled s = false) /\
    (forall id', id' <> id -> host_status id' h' = host_status id' h) /\
    (host_status id h = None -> host_status id h' = None);
  host_enabled id h : let '(held, h') := host_enable id h in
    held = option_is_some (host_status id h) /\
    (forall s, host_status id h' = Some s -> ps_enabled s = true) /\
    (forall id', id' <> id -> host_status id' h' = host_status id' h) /\
    (host_status id h = None -> host_status id h' = None);
  collated_perm l : collated l ≡ₚ l
}.

(** ** Identifiers in SQL text *)

(** Reading a quoted identifier; names are cut to 63 bytes. *)
Fixpoint read_quoted (q : ascii) (s : string) : option string :=
  match s with
  | EmptyString => None
  | String a rest =>
      if Ascii.eqb a q then
        match rest with
        | EmptyString => Some EmptyString
        | String b rest' => if Ascii.eqb b q then String q <$> read_quoted q rest' else None
        end
      else String a <$> read_quoted q rest
  end.

Definition pg_ident (text : string) : option string :=
  match text with
  | String a rest => if Ascii.eqb a QUOTE then String.substring 0 63 <$> read_quoted QUOTE rest else None
  | EmptyString => None
  end.

Definition APOSTROPHE : ascii := ascii_of_nat 39.

Definition pg_literal (text : string) : option string :=
  match text with
  | String a rest => if Ascii.eqb a APOSTROPHE then read_quoted APOSTROPHE rest else None
  | EmptyString => None
  end.

(** ** Names and connection strings *)

(** [PluginStorageError] *)
Inductive PluginStorageError :=
| InvalidRolePassword
| Randomness
| SchemaNameTooLong (name : string)
| StorageDatabase (e : DbError)
| StorageMigration (e : string).

Definition MAX_IDENTIFIER_LEN : Z := 63.
Definition STATEMENT_TIMEOUT_MS : Z := 2000.
Definition IDLE_TX_TIMEOUT_MS : Z := 5000.
Definition ROLE_CONNECTION_LIMIT : Z := 2.

(** [role_name] *)
Definition role_name (plugin_id : string) : result PluginStorageError string :=
  let name := ("plugin_" +:+ plugin_id)%string in
  if MAX_IDENTIFIER_LEN <? Z.of_nat (String.length name) then Err (SchemaNameTooLong name) else Ok name.

(** [schema_name] *)
Definition schema_name (id : string) : result PluginStorageError string := role_name id.

(** [quote_ident] *)
Definition quote_ident (name : string) : string := String QUOTE (double_quotes name +:+ String QUOTE EmptyString).

(** [char::is_ascii_alphanumeric] *)
Definition is_ascii_alphanumeric (a : ascii) : bool :=
  let n := nat_of_ascii a in
  (((48 <=? n) && (n <=? 57)) || ((65 <=? n) && (n <=? 90)) || ((97 <=? n) && (n <=? 122)))%nat.

Definition hex_digit_upper (n : nat) : ascii := ascii_of_nat (if (n <? 10)%nat then 48 + n else 55 + n).

(** [percent_encode] *)
Fixpoint percent_encode (value : string) : string :=
  match value with
  | EmptyString => EmptyString
  | String a rest =>
      let n := nat_of_ascii a in
      if (is_ascii_alphanumeric a || Ascii.eqb a "-" || Ascii.eqb a "_" || Ascii.eqb a "." || Ascii.eqb a "~")
      then String a (percent_encode rest)
      else String "%" (String (hex_digit_upper (n / 16)) (String (hex_digit_upper (n mod 16)) (percent_encode rest)))
  end.

(** [str::split_once("://")] *)
Fixpoint split_scheme (s : string) : option (string * string) :=
  match s with
  | EmptyString => None
  | String a rest =>
      match strip_prefix "://" s with
      | Some after => Some (EmptyString, after)
      | None => match split_scheme rest with Some (b, after) => Some (String a b, after) | None => None end
      end
  end.

(** [str::rsplit_once('@')], the part after *)
Fixpoint after_last_at (s : string) : option string :=
  match s with
  | EmptyString => None
  | String a rest =>
      match after_last_at rest with
      | Some after => Some after
      | None => if Ascii.eqb a "@" then Some rest else None
      end
  end.

(** [PluginPoolError] *)
Inductive PluginPoolError := NotRegistered (id : string) | Busy | BadDatabaseUrl | PoolDatabase.

(** [connection_url_for] *)
Definition connection_url_for (base_url plugin_id password : string) : result PluginPoolError string :=
  match split_scheme base_url with
  | None => Err BadDatabaseUrl
  | Some (scheme, rest) =>
      let host_and_rest := match after_last_at rest with Some after => after | None => rest end in
      if String.eqb host_and_rest "" then Err BadDatabaseUrl
      else
        match role_name plugin_id with
        | Err _ => Err BadDatabaseUrl
        | Ok role => Ok (scheme +:+ "://" +:+ percent_encode role +:+ ":" +:+ percent_encode password +:+ "@" +:+ host_and_rest)%string
        end
  end.

(** ** The yard: tables and catalog, disk, live host and pools *)

Section Plugins.
Context `{Runtime} `{MailHost} `{PluginCrates}.

(** [yd_host] is [None] in safe mode; [yd_pools] maps a plugin to its
    connection string; [yd_search_path] is that of the migrating connection. *)
Record Yard := mkYard {
  yd_plugins : gmap string InstalledPlugin;
  yd_events : list PluginEvent;
  yd_schemas : gmap string Tables;
  yd_roles : gmap string PgRole;
  yd_search_path : option string;
  yd_disk : Disk;
  yd_host : option Host;
  yd_pools : option (gmap string string)
}.

Definition with_plugins t (y : Yard) : Yard :=
  mkYard t (yd_events y) (yd_schemas y) (yd_roles y) (yd_search_path y) (yd_disk y) (yd_host y) (yd_pools y).
Definition with_events l (y : Yard) : Yard :=
  mkYard (yd_plugins y) l (yd_schemas y) (yd_roles y) (yd_search_path y) (yd_disk y) (yd_host y) (yd_pools y).
Definition with_schemas t (y : Yard) : Yard :=
  mkYard (yd_plugins y) (yd_events y) t (yd_roles y) (yd_search_path y) (yd_disk y) (yd_host y) (yd_pools y).
Definition with_roles t (y : Yard) : Yard :=
  mkYard (yd_plugins y) (yd_events y) (yd_schemas y) t (yd_search_path y) (yd_disk y) (yd_host y) (yd_pools y).
Definition with_search_path p (y : Yard) : Yard :=
  mkYard (yd_plugins y) (yd_events y) (yd_schemas y) (yd_roles y) p (yd_disk y) (yd_host y) (yd_pools y).
Definition with_disk d (y : Yard) : Yard :=
  mkYard (yd_plugins y) (yd_events y) (yd_schemas y) (yd_roles y) (yd_search_path y) d (yd_host y) (yd_pools y).
Definition with_host h (y : Yard) : Yard :=
  mkYard (yd_plugins y) (yd_events y) (yd_schemas y) (yd_roles y) (yd_search_path y) (yd_disk y) h (yd_pools y).
Definition with_pools p (y : Yard) : Yard :=
  mkYard (yd_plugins y) (yd_events y) (yd_schemas y) (yd_roles y) (yd_search_path y) (yd_disk y) (yd_host y) p.

Abbreviation Works E A := (St (Office Yard) E A).

(** Steps on what the process and its disk hold. *)
Definition look {E A} (f : Yard -> A) : Works E A := fun o => (Ok (f (of_db o)), o).
Definition local {E} (f : Yard -> Yard) : Works E unit :=
  fun o => (Ok tt, mkOffice (f (of_db o)) (of_ticks o) (of_draws o) (of_mail o)).

(** A write to a temporary file. *)
Definition scratch_file : Works unit unit :=
  fun o => (match calls (of_ticks o) with Answered => Ok tt | _ => Err tt end, of_tick o).

(** ** Statements on the install records *)

(** [list_installed_plugins] *)
Definition list_installed_plugins : TStatement Yard (list InstalledPlugin) :=
  tselect (fun y => collated (map_to_list (yd_plugins y)).*2).

(** [get_installed_plugin] *)
Definition get_installed_plugin (id : string) : TStatement Yard (option InstalledPlugin) :=
  tselect (fun y => yd_plugins y !! id).

(** [plugin_events]; the newest first *)
Definition plugin_event_rows (id : string) (limit : Z) : TStatement Yard (list PluginEvent) :=
  tselect (fun y => take (Z.to_nat limit) (rev (List.filter (fun e => String.eqb (pe_plugin_id e) id) (yd_events y)))).

(** [upsert_installed_plugin] *)
Definition upsert_installed_plugin (p : NewInstalledPlugin) : TStatement Yard unit := fun now y =>
  let row := match yd_plugins y !! np_id p with
    | Some old => mkInstalledPlugin (np_id p) (np_version p) (np_manifest_toml p) (np_artifact_sha256 p) true None
        (match np_db_role_password p with Some s => Some s | None => ip_db_role_password old end) (ip_installed_at old) now
    | None => mkInstalledPlugin (np_id p) (np_version p) (np_manifest_toml p) (np_artifact_sha256 p) true None
        (np_db_role_password p) now now
    end in
  (Ok tt, with_plugins (<[np_id p := row]> (yd_plugins y)) y).

(** [set_plugin_enabled] *)
Definition set_plugin_enabled (id : string) (enabled : bool) (reason : option string) : TStatement Yard bool := fun now y =>
  let stored_reason := if enabled then None else reason in
  match yd_plugins y !! id with
  | Some r => (Ok true, with_plugins (<[id := mkInstalledPlugin (ip_id r) (ip_version r) (ip_manifest_toml r) (ip_artifact_sha256 r)
      enabled stored_reason (ip_db_role_password r) (ip_installed_at r) now]> (yd_plugins y)) y)
  | None => (Ok false, y)
  end.

(** [remove_installed_plugin] *)
Definition remove_installed_plugin (id : string) : TStatement Yard bool := fun _ y =>
  (Ok (option_is_some (yd_plugins y !! id)), with_plugins (delete id (yd_plugins y)) y).

(** [record_plugin_event] *)
Definition record_plugin_event (id : string) (kind : PluginEventKind) (version detail : option string) (actor : option Uuid) :
    TStatement Yard unit := fun now y =>
  (Ok tt, with_events (yd_events y ++ [mkPluginEvent id (plugin_event_str kind) version detail actor now]) y).

(** ** Schemas and roles *)

(** A statement that names a schema or role of that name. *)
Definition ddl (quoted : string) (f : string -> Yard -> result DbError Yard) : TStatement Yard unit := fun _ y =>
  match pg_ident quoted with
  | Some name => match f name y with Ok y' => (Ok tt, y') | Err e => (Err e, y) end
  | None => (Err ConstraintViolation, y)
  end.

Definition create_schema (quoted : string) : TStatement Yard unit := ddl quoted (fun name y =>
  Ok (match yd_schemas y !! name with Some _ => y | None => with_schemas (<[name := no_tables]> (yd_schemas y)) y end)).

Definition drop_schema_cascade (quoted : string) : TStatement Yard unit := ddl quoted (fun name y =>
  Ok (with_schemas (delete name (yd_schemas y)) y)).

Definition set_search_path (quoted : string) : TStatement Yard unit := ddl quoted (fun name y => Ok (with_search_path (Some name) y)).
Definition reset_search_path : TStatement Yard unit := twrite (with_search_path None).

Definition yd_database (y : Yard) : PgDatabase Tables :=
  mkPgDatabase (yd_plugins y) (yd_events y) (yd_schemas y) (yd_roles y).
Definition with_database (db : PgDatabase Tables) (y : Yard) : Yard :=
  with_roles (pg_roles db) (with_schemas (pg_schemas db) (with_events (pg_events db) (with_plugins (pg_plugins db) y))).

(** [Migrator::run] on the borrowed connection *)
Definition run_migrator (files : list (string * string)) : TStatement Yard (result string unit) := fun _ y =>
  let '(r, db) := migrate files (yd_search_path y) (yd_database y) in (Ok r, with_database db y).

Definition role_exists (name : string) : TStatement Yard bool := tselect (fun y => option_is_some (yd_roles y !! name)).

(** [CREATE ROLE] or [ALTER ROLE .. LOGIN PASSWORD ..] *)
Definition create_or_alter_role (exists_ : bool) (quoted password : string) : TStatement Yard unit := ddl quoted (fun name y =>
  match pg_literal password, yd_roles y !! name with
  | None, _ => Err ConstraintViolation
  | Some pw, None => if exists_ then Err ConstraintViolation else Ok (with_roles (<[name := mkPgRole pw None None None []]> (yd_roles y)) y)
  | Some pw, Some r => if exists_
      then Ok (with_roles (<[name := mkPgRole pw (rl_statement_timeout r) (rl_idle_timeout r) (rl_connection_limit r) (rl_grants r)]> (yd_roles y)) y)
      else Err ConstraintViolation
  end).

Definition on_role (f : PgRole -> PgRole) (name : string) (y : Yard) : result DbError Yard :=
  match yd_roles y !! name with
  | Some r => Ok (with_roles (<[name := f r]> (yd_roles y)) y)
  | None => Err ConstraintViolation
  end.

Definition ms (n : Z) : string := (z_to_string n +:+ "ms")%string.
Definition set_statement_timeout (r : PgRole) : PgRole :=
  mkPgRole (rl_password r) (Some (ms STATEMENT_TIMEOUT_MS)) (rl_idle_timeout r) (rl_connection_limit r) (rl_grants r).
Definition set_idle_timeout (r : PgRole) : PgRole :=
  mkPgRole (rl_password r) (rl_statement_timeout r) (Some (ms IDLE_TX_TIMEOUT_MS)) (rl_connection_limit r) (rl_grants r).
Definition set_connection_limit (r : PgRole) : PgRole :=
  mkPgRole (rl_password r) (rl_statement_timeout r) (rl_idle_timeout r) (Some ROLE_CONNECTION_LIMIT) (rl_grants r).
Definition regrant (f : list (Privilege * string) -> list (Privilege * string)) (r : PgRole) : PgRole :=
  mkPgRole (rl_password r) (rl_statement_timeout r) (rl_idle_timeout r) (rl_connection_limit r) (f (rl_grants r)).

(** [GRANT .. IN SCHEMA name TO name] *)
Definition grant_own (p : Privilege) (name : string) (y : Yard) : result DbError Yard :=
  if option_is_none (yd_schemas y !! name) then Err ConstraintViolation
  else on_role (regrant (fun l => if bool_decide ((p, name) ∈ l) then l else (p, name) :: l)) name y.

(** [REVOKE ALL .. public FROM name] *)
Definition revoke_public (p : Privilege) : string -> Yard -> result DbError Yard :=
  on_role (regrant (List.filter (fun g => negb (bool_decide (g = (p, "public"%string)))))).

(** The statements of [provision_role] after the role is there. *)
Definition role_statements : list (string -> Yard -> result DbError Yard) :=
  [ on_role set_statement_timeout; on_role set_idle_timeout; on_role set_connection_limit;
    grant_own UsageOnSchema; grant_own DmlOnTables; grant_own UseSequences;
    grant_own DefaultDml; grant_own DefaultSequences;
    revoke_public UsageOnSchema; revoke_public DmlOnTables ].

(** [DROP OWNED BY] *)
Definition drop_owned (quoted : string) : TStatement Yard unit := ddl quoted (on_role (regrant (fun _ => []))).

(** [DROP ROLE IF EXISTS], refused while a grant refers to the role *)
Definition drop_role_statement (quoted : string) : TStatement Yard unit := ddl quoted (fun name y =>
  match yd_roles y !! name with
  | Some r => if bool_decide (rl_grants r = []) then Ok (with_roles (delete name (yd_roles y)) y) else Err ConstraintViolation
  | None => Ok y
  end).

Definition storage_db {A} (stmt : TStatement Yard A) : Works PluginStorageError A := st_map_err StorageDatabase (tdb stmt).

(** [generate_role_password] *)
Definition generate_role_password : Works PluginStorageError string := fun o =>
  (match random_bytes (of_draws o) with Some bytes => Ok (hex_encode bytes) | None => Err Randomness end,
   mkOffice (of_db o) (of_ticks o) (S (of_draws o)) (of_mail o)).

(** [PluginStorage::install]; the empty statement borrows the connection *)
Definition storage_install (id : string) (migrations : list (string * string)) : Works PluginStorageError string :=
  let* name := st_lift (schema_name id) in
  do* storage_db (create_schema (quote_ident name));
  do* st_lift (match migrator_new migrations with Ok _ => Ok tt | Err e => Err (StorageMigration e) end);
  do* storage_db (tselect (fun _ => tt));
  do* storage_db (set_search_path (quote_ident name));
  let* migration_result := st_try (storage_db (run_migrator migrations)) in
  let* reset_result := st_try (storage_db reset_search_path) in
  let* r := st_lift migration_result in
  do* st_lift (match r with Ok _ => Ok tt | Err e => Err (StorageMigration e) end);
  do* st_lift reset_result;
  st_ret name.

(** [PluginStorage::uninstall] *)
Definition storage_uninstall (id : string) (drop_schema : bool) : Works PluginStorageError unit :=
  if negb drop_schema then st_ret tt
  else
    let* name := st_lift (schema_name id) in
    storage_db (drop_schema_cascade (quote_ident name)).

(** [PluginStorage::provision_role] *)
Definition provision_role (id password : string) : Works PluginStorageError unit :=
  if String.eqb password "" || negb (str_forall is_ascii_alphanumeric password) then st_throw InvalidRolePassword
  else
    let* name := st_lift (schema_name id) in
    let quoted := quote_ident name in
    let* exists_ := storage_db (role_exists name) in
    do* storage_db (create_or_alter_role exists_ quoted (String APOSTROPHE (password +:+ String APOSTROPHE EmptyString)));
    st_for role_statements (fun f => storage_db (ddl quoted f)).

(** [PluginStorage::drop_role] *)
Definition drop_role (id : string) : Works PluginStorageError unit :=
  let* name := st_lift (schema_name id) in
  let quoted := quote_ident name in
  let* exists_ := storage_db (role_exists name) in
  if negb exists_ then st_ret tt
  else
    do* storage_db (drop_owned quoted);
    storage_db (drop_role_statement quoted).

(** ** Pools *)

Context (base_url : string).

(** [PluginPools::register] *)
Definition pool_register (id password : string) : Works PluginPoolError unit :=
  let* url := st_lift (connection_url_for base_url id password) in
  match connect_options url with
  | None => st_throw BadDatabaseUrl
  | Some _ => local (fun y => with_pools ((fun p => <[id := url]> p) <$> yd_pools y) y)
  end.

(** [PluginPools::remove] *)
Definition pool_remove {E} (id : string) : Works E unit :=
  local (fun y => with_pools ((fun p => delete id p) <$> yd_pools y) y).

(** ** Boot *)

(** [FailureKind] *)
Inductive FailureKind := FaultOfPlugin | FaultOfEnvironment.

(** [PluginLoadFailure] *)
Record PluginLoadFailure := mkPluginLoadFailure { lf_id : string; lf_reason : string; lf_disabled : bool }.

(** [PluginBootReport] *)
Record PluginBootReport := mkPluginBootReport {
  br_loaded : list string;
  br_skipped : list (string * option string);
  br_failed : list PluginLoadFailure;
  br_safe_mode : bool
}.

(** [PluginBootReport::total] *)
Definition report_total (r : PluginBootReport) : Z :=
  Z.of_nat (length (br_loaded r) + length (br_skipped r) + length (br_failed r)).

(** [classify] *)
Definition classify_failure (e : ArtifactError) : FailureKind :=
  match e with
  | DigestMismatch | UnsafeVersion => FaultOfPlugin
  | ArtifactNotFound | Unreadable => FaultOfEnvironment
  | Unwritable => FaultOfEnvironment
  end.

(** [host_calls_for] *)
Definition host_calls_for {E} (id : string) (row : InstalledPlugin) : Works E (option string) :=
  let* pools := look yd_pools in
  match pools, ip_db_role_password row with
  | Some _, Some password =>
      let* r := st_try (pool_register id password) in
      st_ret (match r with Ok _ => Some id | Err _ => None end)
  | _, _ => st_ret None
  end.

(** [load_one] *)
Definition load_one (id version manifest_toml expected_sha256 : string) (calls_ : option string) (host : Host) :
    Works (FailureKind * string) unit :=
  match parse_manifest manifest_toml with
  | Err e => st_throw (FaultOfPlugin, ("stored manifest no longer parses: " +:+ e)%string)
  | Ok manifest =>
      if negb (String.eqb (mf_id manifest) id)
      then st_throw (FaultOfPlugin, ("stored manifest declares id " +:+ mf_id manifest +:+ ", but it is installed as " +:+ id)%string)
      else if negb (String.eqb (mf_version manifest) version)
      then st_throw (FaultOfPlugin,
             ("stored manifest declares version " +:+ mf_version manifest +:+ ", but it is installed as " +:+ version)%string)
      else
        let* wasm := look (fun y => artifact_read_verified id version expected_sha256 (yd_disk y)) in
        match wasm with
        | Err e => st_throw (classify_failure e, artifact_error_text e)
        | Ok wasm =>
            match host_register_with_calls manifest wasm calls_ host with
            | Ok host' => local (with_host (Some host'))
            | Err e => st_throw (FaultOfPlugin, ("host refused it: " +:+ e)%string)
            end
        end
  end.

(** [persist_disable] *)
Definition persist_disable {E} (id reason : string) : Works E unit :=
  do* st_try (tdb (set_plugin_enabled id false (Some reason)));
  st_ret tt.

(** [record_failure] *)
Definition record_failure {E} (id version reason : string) (disable : bool) : Works E unit :=
  do* st_when disable (persist_disable id reason);
  do* st_try (tdb (record_plugin_event id EvLoadFailed (Some version) (Some reason) None));
  st_ret tt.

(** [register_or_disable] *)
Definition register_or_disable (id : string) (row : InstalledPlugin) (host : Host) : Works PluginLoadFailure unit :=
  let* calls_ := host_calls_for id row in
  let* r := st_try (load_one id (ip_version row) (ip_manifest_toml row) (ip_artifact_sha256 row) calls_ host) in
  match r with
  | Ok _ => st_ret tt
  | Err (kind, reason) =>
      let disabled := match kind with FaultOfPlugin => true | FaultOfEnvironment => false end in
      do* record_failure (ip_id row) (ip_version row) reason disabled;
      st_throw (mkPluginLoadFailure id reason disabled)
  end.

Definition report_loaded id (r : PluginBootReport) : PluginBootReport :=
  mkPluginBootReport (br_loaded r ++ [id]) (br_skipped r) (br_failed r) (br_safe_mode r).
Definition report_skipped id reason (r : PluginBootReport) : PluginBootReport :=
  mkPluginBootReport (br_loaded r) (br_skipped r ++ [(id, reason)]) (br_failed r) (br_safe_mode r).
Definition report_failed f (r : PluginBootReport) : PluginBootReport :=
  mkPluginBootReport (br_loaded r) (br_skipped r) (br_failed r ++ [f]) (br_safe_mode r).

(** One row of the loop. *)
Definition boot_row {E} (report : PluginBootReport) (row : InstalledPlugin) : Works E PluginBootReport :=
  if negb (valid_plugin_id (ip_id row)) then st_ret report
  else
    let* host := look yd_host in
    match host with
    | None => st_ret (report_skipped (ip_id row) (Some "safe mode"%string) report)
    | Some host =>
        if negb (ip_enabled row) then st_ret (report_skipped (ip_id row) (ip_disabled_reason row) report)
        else
          let* r := st_try (register_or_disable (ip_id row) row host) in
          st_ret (match r with Ok _ => report_loaded (ip_id row) report | Err failure => report_failed failure report end)
    end.

(** [load_installed_plugins] *)
Definition load_installed_plugins : Works DbError PluginBootReport :=
  let* installed := tdb list_installed_plugins in
  let* host := look yd_host in
  st_fold boot_row (mkPluginBootReport [] [] [] (option_is_none host)) installed.

(** ** The administrator's routes *)

Definition MAX_WASM_BYTES : Z := 32 * 1024 * 1024.
Definition SUPPORTED_UI_SCHEMA : Z := 1.

(** [check_ui_schema] *)
Definition check_ui_schema (requested : option Z) : result unit unit :=
  match requested with
  | Some v => if SUPPORTED_UI_SCHEMA <? v then Err tt else Ok tt
  | None => Ok tt
  end.

(** [AdminPluginInfo] *)
Record AdminPluginInfo := mkAdminPluginInfo {
  ai_id : string;
  ai_version : string;
  ai_enabled : bool;
  ai_loaded : bool;
  ai_disabled_reason : option string;
  ai_consecutive_failures : Z;
  ai_installed_at : Instant;
  ai_updated_at : Instant
}.

(** [InstallPluginRequest]; migrations in the order of a [BTreeMap] *)
Record InstallPluginRequest := mkInstallPluginRequest {
  rq_manifest_toml : string;
  rq_wasm_base64 : string;
  rq_migrations : list (string * string)
}.

(** [PluginMutationResponse], without its sentence for a reader *)
Record PluginMutationResponse := mkPluginMutationResponse {
  mr_id : string;
  mr_outcome : string;
  mr_restart_required : bool
}.

(** [parse_id] *)
Definition parse_id (raw : string) : result Z string := if valid_plugin_id raw then Ok raw else Err 400.

(** [record_event] *)
Definition record_event {E} (id : string) (kind : PluginEventKind) (version detail : option string) (actor : option Uuid) :
    Works E unit :=
  do* st_try (tdb (record_plugin_event id kind version detail actor));
  st_ret tt.

(** The slug of a stored manifest that still parses. *)
Definition row_slug (row : InstalledPlugin) : option string :=
  match parse_manifest (ip_manifest_toml row) with Ok m => mf_slug m | Err _ => None end.

(** [refuse_a_taken_slug] *)
Definition refuse_a_taken_slug (manifest : Manifest) (id : string) : Works Z unit :=
  match mf_slug manifest with
  | None => st_ret tt
  | Some slug =>
      let* installed := fails_500 (tdb list_installed_plugins) in
      st_for installed (fun row =>
        if String.eqb (ip_id row) id then st_ret tt
        else if bool_decide (row_slug row = Some slug) then st_throw 400
        else st_ret tt)
  end.

(** Whether a text holds another. *)
Fixpoint str_has (pat s : string) : bool :=
  String.prefix pat s || match s with EmptyString => false | String _ rest => str_has pat rest end.

(** A migration's filename is a path component. *)
Definition plain_filename (name : string) : bool :=
  negb (str_has "/" name || str_has "\" name || str_has ".." name).

(** [provision_storage] *)
Definition provision_storage (id : string) (migrations : list (string * string)) : Works Z (option string) :=
  let* pools := look yd_pools in
  match pools with
  | None => st_ret None
  | Some _ =>
      do* st_map_err (fun _ => 500) scratch_file;
      do* st_for migrations (fun nm =>
        if negb (plain_filename nm.1) then st_throw 400 else st_map_err (fun _ => 500) scratch_file);
      do* st_map_err (fun _ => 400) (storage_install id migrations);
      let* password := st_map_err (fun _ => 500) generate_role_password in
      do* st_map_err (fun _ => 500) (provision_role id password);
      do* st_map_err (fun _ => 500) (pool_register id password);
      st_ret (Some password)
  end.

(** [release_database_access] *)
Definition release_database_access {E} (id : string) : Works E unit :=
  do* pool_remove id;
  do* st_try (drop_role id);
  st_ret tt.

(** [list_plugins] *)
Definition plugin_info (host : option Host) (row : InstalledPlugin) : AdminPluginInfo :=
  let snapshot := if valid_plugin_id (ip_id row) then h ← host; host_status (ip_id row) h else None in
  mkAdminPluginInfo (ip_id row) (ip_version row) (ip_enabled row)
    (match snapshot with Some s => ps_enabled s | None => false end)
    (match s ← snapshot; ps_disabled_reason s with Some r => Some r | None => ip_disabled_reason row end)
    (match snapshot with Some s => ps_consecutive_failures s | None => 0 end)
    (ip_installed_at row) (ip_updated_at row).

Definition list_plugins : Works Z (list AdminPluginInfo * bool) :=
  let* installed := fails_500 (tdb list_installed_plugins) in
  let* host := look yd_host in
  st_ret (plugin_info host <$> installed, option_is_none host).

(** [install_plugin] *)
Definition install_plugin (admin : UserInfo) (req : InstallPluginRequest) : Works Z PluginMutationResponse :=
  match parse_manifest (rq_manifest_toml req) with
  | Err _ => st_throw 400
  | Ok manifest =>
  match base64_decode (trim (rq_wasm_base64 req)) with
  | None => st_throw 400
  | Some wasm =>
      if String.eqb wasm "" then st_throw 400
      else if MAX_WASM_BYTES <? Z.of_nat (String.length wasm) then st_throw 400
      else if negb (registry_accepts manifest) then st_throw 400
      else
        do* st_lift (match check_ui_schema (mf_ui_schema manifest) with Ok _ => Ok tt | Err _ => Err 400 end);
        let id := mf_id manifest in
        let version := mf_version manifest in
        do* refuse_a_taken_slug manifest id;
        let* existing := fails_500 (tdb (get_installed_plugin id)) in
        let upgrade := option_is_some existing in
        let* sha256 := look (fun y => fst (artifact_write id version wasm (yd_disk y))) in
        do* local (fun y => with_disk (snd (artifact_write id version wasm (yd_disk y))) y);
        let* sha256 := ok_or 500 sha256 in
        let* db_role_password := provision_storage id (rq_migrations req) in
        do* fails_500 (tdb (upsert_installed_plugin (mkNewInstalledPlugin id version (rq_manifest_toml req) sha256 db_role_password)));
        do* record_event id (if upgrade then EvUpgraded else EvInstalled) (Some version) None (Some (ui_id admin));
        st_ret (mkPluginMutationResponse id (if upgrade then "upgraded" else "installed") true)
  end
  end.

(** [enable_plugin] *)
Definition enable_plugin (admin : UserInfo) (raw_id : string) : Works Z PluginMutationResponse :=
  let* id := st_lift (parse_id raw_id) in
  let* changed := fails_500 (tdb (set_plugin_enabled id true None)) in
  if negb changed then st_throw 404
  else
    let* host := look yd_host in
    let* started_now := match host with
      | Some h => do* local (with_host (Some (snd (host_enable id h)))); st_ret (fst (host_enable id h))
      | None => st_ret false end in
    do* record_event id EvEnabled None None (Some (ui_id admin));
    st_ret (mkPluginMutationResponse id "enabled" (negb started_now)).

(** [disable_plugin] *)
Definition disable_plugin (admin : UserInfo) (raw_id : string) (reason : option string) : Works Z PluginMutationResponse :=
  let* id := st_lift (parse_id raw_id) in
  let reason := match reason with
    | Some r => if String.eqb (trim r) "" then ("disabled by admin " +:+ actor_text (ui_id admin))%string else r
    | None => ("disabled by admin " +:+ actor_text (ui_id admin))%string end in
  let* changed := fails_500 (tdb (set_plugin_enabled id false (Some reason))) in
  if negb changed then st_throw 404
  else
    let* host := look yd_host in
    do* match host with Some h => local (with_host (Some (snd (host_disable id reason h)))) | None => st_ret tt end;
    do* record_event id EvDisabled None (Some reason) (Some (ui_id admin));
    st_ret (mkPluginMutationResponse id "disabled" false).

(** [uninstall_plugin] *)
Definition uninstall_plugin (admin : UserInfo) (raw_id : string) : Works Z PluginMutationResponse :=
  let* id := st_lift (parse_id raw_id) in
  let* row := fails_500 (tdb (get_installed_plugin id)) in
  let* row := ok_or 404 row in
  let* host := look yd_host in
  do* match host with Some h => local (with_host (Some (snd (host_disable id "uninstalled" h)))) | None => st_ret tt end;
  do* release_database_access id;
  do* fails_500 (tdb (remove_installed_plugin id));
  let* removed := look (fun y => fst (artifact_remove id (ip_version row) (yd_disk y))) in
  do* local (fun y => with_disk (snd (artifact_remove id (ip_version row) (yd_disk y))) y);
  let artifact_removed := match removed with Some b => b | None => false end in
  do* record_event id EvUninstalled (Some (ip_version row))
        (Some (if artifact_removed then "record and artifact removed" else "record removed; artifact left on disk")%string)
        (Some (ui_id admin));
  st_ret (mkPluginMutationResponse id "uninstalled" false).

(** [plugin_events] *)
Definition plugin_events (raw_id : string) : Works Z (list PluginEvent) :=
  let* id := st_lift (parse_id raw_id) in
  fails_500 (tdb (plugin_event_rows id 100)).

(** ** Pages *)

(** [visible_pages] *)
Definition visible_pages (declared : list PageDeclaration) (is_admin : bool) : list (string * string * PageIcon) :=
  (fun p => (pd_path p, pd_label p, pd_icon p)) <$>
    List.filter (fun p => is_admin || negb (pd_admin_only p || pd_placement_is_admin_only p)) declared.

(** [PluginPagesInfo] *)
Record PluginPagesInfo := mkPluginPagesInfo { pp_id : string; pp_slug : string; pp_pages : list (string * string * PageIcon) }.

(** What is listed of one row. *)
Definition row_pages (host : option Host) (is_admin : bool) (row : InstalledPlugin) : option PluginPagesInfo :=
  if negb (ip_enabled row && valid_plugin_id (ip_id row)) then None
  else
    let loaded := match h ← host; host_status (ip_id row) h with Some s => ps_enabled s | None => false end in
    if negb loaded then None
    else
      match parse_manifest (ip_manifest_toml row) with
      | Err _ => None
      | Ok manifest =>
          slug ← mf_slug manifest;
          let pages := visible_pages (mf_pages manifest) is_admin in
          if bool_decide (pages = []) then None else Some (mkPluginPagesInfo (ip_id row) slug pages)
      end.

(** [list_plugin_pages] *)
Definition list_plugin_pages (user : UserInfo) : Works Z (list PluginPagesInfo) :=
  let* installed := fails_500 (tdb list_installed_plugins) in
  let* host := look yd_host in
  st_ret (omap (row_pages host (bool_decide (ui_role user = ServerAdmin))) installed).

(** [resolve_plugin] *)
Definition row_with_slug (slug : string) (row : InstalledPlugin) : option string :=
  match parse_manifest (ip_manifest_toml row) with
  | Ok m => if bool_decide (mf_slug m = Some slug) then Some (mf_id m) else None
  | Err _ => None
  end.

Definition resolve_plugin (slug : string) : Works Z (option string) :=
  if negb (valid_slug slug) then st_ret None
  else
    let* r := st_try (tdb list_installed_plugins) in
    st_ret (match r with Ok installed => head (omap (row_with_slug slug) installed) | Err _ => None end).

(** [viewer_for] *)
Inductive Viewer := ViewAdmin | ViewMerchant.
Definition viewer_for (role : Role) : Viewer := match role with ServerAdmin => ViewAdmin | RegularUser => ViewMerchant end.

(** [PageRequest] *)
Record PageRequest := mkPageRequest { pq_path : string; pq_viewer : Viewer; pq_account_id : option Uuid }.

(** [PageError] *)
Inductive PageError := PluginNotFound | PageNotFound | PageUnavailable.

(** [From<PageError> for ApiErr] *)
Definition page_error_status (e : PageError) : Z :=
  match e with PageUnavailable => 502 | PluginNotFound | PageNotFound => 404 end.

(** [get_page]; [render] is [PageHost::render] *)
Definition get_page {Page} (render : string -> PageRequest -> result PageError Page) (user : UserInfo) (plugin_ref path : string) :
    Works Z Page :=
  let* found := resolve_plugin plugin_ref in
  let* plugin_id := match found with
    | Some id => st_ret id
    | None => if valid_plugin_id plugin_ref then st_ret plugin_ref else st_throw 404 end in
  st_lift (match render plugin_id (mkPageRequest path (viewer_for (ui_role user)) (Some (ui_id user))) with
           | Ok page => Ok page
           | Err e => Err (page_error_status e) end).

End Plugins.

(** ** Dispatch *)

Definition FILTER_INVOICE_CREATION : string := "filter_invoice_creation".
Definition PAYMENT_SETTLED : string := "payment_settled".
Definition ACCOUNT_CLOSED : string := "account_closed".
Definition CANCEL_SUBSCRIPTION : string := "cancel_subscription".
Definition RENDER_PAGE : string := "render_page".
Definition UNAVAILABLE : string := "Invoice creation is temporarily unavailable. Please try again shortly.".
Definition BASIS_REPORTING_PLUGIN : string := "cash.random.billing".

(** [StandingBasis] *)
Inductive StandingBasis := NeverReceived | Confirmed (last_heard_at : Instant).

(** [WireFilterVerdict] *)
Record WireFilterVerdict := mkWireFilterVerdict {
  wv_allow : bool;
  wv_reason : option string;
  wv_standing_basis : option Json
}.

(** [FilterOutcome] *)
Inductive FilterOutcome := Ran (v : WireFilterVerdict) | CouldNotRun (allowed : bool) (reason : string).

(** [CancelSubscriptionOutcome] *)
Inductive CancelSubscriptionOutcome := Cancelled | Refused (reason : option string) | CancelCouldNotRun (reason : string).

(** The loaded host as the dispatchers see it: the kind of a plugin
    ([PluginHost::kind], whether it is a filter), its answers to a filter call
    and to queries; [serde]'s readings of answers. *)
Class PluginAnswers (Page : Type) := {
  kind_is_filter : string -> option bool;
  run_filter : string -> string -> Uuid -> Uuid -> FilterOutcome;
  run_cancel_query : string -> string -> string -> result string (bool * option string);
  run_page_query : string -> string -> PageRequest -> result string Json;
  basis_of_json : Json -> option StandingBasis;
  page_of_json : Json -> option Page
}.

Section Dispatch.
Context {Page : Type} `{PluginAnswers Page}.

(** [fail_open_reason] *)
Definition fail_open_reason (plugin : string) (basis : option Json) (now : Instant) (max_age : Z) : option (string * option Z) :=
  match basis with
  | None => if String.eqb plugin BASIS_REPORTING_PLUGIN then Some ("absent"%string, None) else None
  | Some basis =>
      match basis_of_json basis with
      | None => Some ("unreadable"%string, None)
      | Some NeverReceived => Some ("unheard"%string, None)
      | Some (Confirmed last_heard_at) =>
          let age := now - last_heard_at in
          if age <=? max_age then None else Some ("stale"%string, Some age)
      end
  end.

(** [PluginInvoiceCreationFilter::filter_invoice_creation] *)
Definition plugin_invoice_creation_filter (id : string) : InvoiceCreationFilter := fun store_id account_id =>
  match run_filter id FILTER_INVOICE_CREATION store_id account_id with
  | Ran verdict =>
      if wv_allow verdict then Allow
      else Deny (match wv_reason verdict with Some r => r | None => UNAVAILABLE end)
  | CouldNotRun true _ => Allow
  | CouldNotRun false _ => Deny UNAVAILABLE
  end.

(** [invoice_creation_filters] *)
Definition invoice_creation_filters (loaded : list string) : list InvoiceCreationFilter :=
  plugin_invoice_creation_filter <$> List.filter (fun id => match kind_is_filter id with Some b => b | None => false end) loaded.

(** [cancel_subscription] *)
Definition cancel_subscription (id account_id : string) : CancelSubscriptionOutcome :=
  match run_cancel_query id CANCEL_SUBSCRIPTION account_id with
  | Ok (true, _) => Cancelled
  | Ok (false, reason) => Refused reason
  | Err reason => CancelCouldNotRun reason
  end.

(** [cancel_plugin_subscription] of [admin/plugins.rs] *)
Definition cancel_plugin_subscription (host_up : bool) (valid : string -> bool) (raw_id account_id : string) :
    result Z (bool * option string) :=
  if negb (valid raw_id) then Err 400
  else if negb host_up then Err 404
  else
    match cancel_subscription raw_id account_id with
    | Cancelled => Ok (true, None)
    | Refused reason => Ok (false, reason)
    | CancelCouldNotRun _ => Err 502
    end.

(** [own_store_payment_reporting] *)
Definition own_store_payment_reporting {O} (operator_store_id : option Uuid) (observers : list O) : option (Uuid * list O) :=
  match observers with
  | [] => None
  | _ => (fun s => (s, observers)) <$> operator_store_id
  end.

(** [WirePageAnswer], tried in the order of its variants *)
Inductive WirePageAnswer := PageFailed (error : string) | PageAnswer (page : option Page).

Definition page_answer (j : Json) : option WirePageAnswer :=
  match j with
  | JObject fields =>
      match assoc "error" fields with
      | Some (JString e) => Some (PageFailed e)
      | _ => (fun p => PageAnswer (Some p)) <$> page_of_json j
      end
  | JNull => Some (PageAnswer None)
  | _ => (fun p => PageAnswer (Some p)) <$> page_of_json j
  end.

(** [WasmPageRenderer::render_page]; the error is the plugin's or the host's *)
Definition render_page (id : string) (request : PageRequest) : result string (option Page) :=
  match run_page_query id RENDER_PAGE request with
  | Err reason => Err reason
  | Ok j =>
      match page_answer j with
      | Some (PageAnswer page) => Ok page
      | Some (PageFailed error) => Err error
      | None => Err "the plugin's answer could not be read"
      end
  end.
End Dispatch.
