(* ===== verification/PluginFacts.v ===== *)
(** * What a plugin's life keeps

    Names and connection strings lead back to what they were made from; a boot
    runs only what was installed and accounts for every record; through any
    lifecycle requests and restarts records stay sound, slugs unique and roles
    confined to their own schema; what was accepted is what is run, until it is
    disabled. *)

From stdpp Require Import gmap strings list relations.
From Stdlib Require Import ZArith Lia Ascii.
From S2P Require Import Prelude Events Network Decimal Database LiveWatch Services Idempotency ApiKeys Consumer ApiAuth.
From S2P Require Import Derivation Quotes Wallets Invoicing Office Standing Teams Reading ReadingFacts Plugins.

#[local] Open Scope Z_scope.

(** ** Quoting *)

Lemma read_doubled s t : (forall b u, t = String b u -> b <> QUOTE) ->
  read_quoted QUOTE (double_quotes s +:+ String QUOTE t) = (if bool_decide (t = EmptyString) then Some s else None).
Proof.
  intros Ht. induction s as [|a s IH].
  - change (double_quotes "" +:+ String QUOTE t) with (String QUOTE t). cbn [read_quoted]. rewrite Ascii.eqb_refl.
    destruct t as [|b u]; [done|]. specialize (Ht b u eq_refl). by rewrite (proj2 (Ascii.eqb_neq b QUOTE) Ht).
  - cbn [double_quotes]. destruct (Ascii.eqb a QUOTE) eqn:Ha.
    + apply Ascii.eqb_eq in Ha as ->. change (String QUOTE (String QUOTE (double_quotes s)) +:+ String QUOTE t)
        with (String QUOTE (String QUOTE (double_quotes s +:+ String QUOTE t))). cbn [read_quoted].
      rewrite !Ascii.eqb_refl, IH. by case_bool_decide.
    + change (String a (double_quotes s) +:+ String QUOTE t) with (String a (double_quotes s +:+ String QUOTE t)).
      cbn [read_quoted]. rewrite Ha, IH. by case_bool_decide.
Qed.

Lemma substring_all n s : (String.length s <= n)%nat -> String.substring 0 n s = s.
Proof. revert s. induction n as [|n IH]; intros [|a s] Hs; cbn in *; [done|lia|done|]. f_equal. apply IH. lia. Qed.

(** A quoted name of at most 63 bytes names what it quotes. *)
Lemma quoted_names name : Z.of_nat (String.length name) <= MAX_IDENTIFIER_LEN -> pg_ident (quote_ident name) = Some name.
Proof.
  intros Hn. unfold pg_ident, quote_ident. rewrite Ascii.eqb_refl, read_doubled by done.
  rewrite bool_decide_eq_true_2 by done. change (Some (String.substring 0 63 name) = Some name). f_equal. apply substring_all. unfold MAX_IDENTIFIER_LEN in Hn. lia.
Qed.

Lemma role_name_inv id name : role_name id = Ok name ->
  name = ("plugin_" +:+ id)%string /\ Z.of_nat (String.length name) <= MAX_IDENTIFIER_LEN.
Proof. unfold role_name. destruct (_ <? _) eqn:Hn; [done|]. intros [= <-]. apply Z.ltb_ge in Hn. done. Qed.

Lemma role_quoted id name : role_name id = Ok name -> pg_ident (quote_ident name) = Some name.
Proof. intros Hn. apply quoted_names. by apply role_name_inv in Hn as [_ Hl]. Qed.

Lemma role_name_inj id id' name : role_name id = Ok name -> role_name id' = Ok name -> id = id'.
Proof. intros [-> _]%role_name_inv [He _]%role_name_inv. by injection He. Qed.

(** A password without quotes is read as it was written. *)
Lemma read_plain q s : str_forall (fun a => negb (Ascii.eqb a q)) s = true -> read_quoted q (s +:+ String q EmptyString) = Some s.
Proof.
  induction s as [|a s IH]; cbn [str_forall]; [intros _; change ("" +:+ String q "") with (String q ""); cbn [read_quoted]; by rewrite Ascii.eqb_refl|].
  intros [Ha Hs]%andb_true_iff. rewrite app_str_cons. cbn [read_quoted]. apply negb_true_iff in Ha as ->. by rewrite IH.
Qed.

Lemma str_forall_impl (p q : ascii -> bool) s : (forall a, p a = true -> q a = true) -> str_forall p s = true -> str_forall q s = true.
Proof. intros Hpq. induction s as [|a s IH]; [done|]. cbn. intros [Ha Hs]%andb_true_iff. by rewrite Hpq, IH. Qed.

Lemma password_read pw : str_forall is_ascii_alphanumeric pw = true ->
  pg_literal (String APOSTROPHE (pw +:+ String APOSTROPHE EmptyString)) = Some pw.
Proof.
  intros Hpw. cbn [pg_literal]. rewrite Ascii.eqb_refl. apply read_plain. revert Hpw. apply str_forall_impl.
  intros a Ha. destruct (Ascii.eqb_spec a APOSTROPHE) as [-> |]; done.
Qed.

(** The generated password passes the guard. *)
Lemma hex_digit_alnum n : (n < 16)%nat -> is_ascii_alphanumeric (hex_digit n) = true.
Proof. intros Hn. do 16 (destruct n as [|n]; [done|]). lia. Qed.

Lemma hex_encode_alnum s : str_forall is_ascii_alphanumeric (hex_encode s) = true.
Proof.
  induction s as [|a s IH]; [done|]. cbn [hex_encode str_forall]. pose proof (nat_ascii_bounded a).
  rewrite !hex_digit_alnum, IH; [done|apply Nat.mod_upper_bound; lia|]. apply Nat.Div0.div_lt_upper_bound; lia.
Qed.

(** ** Connection strings *)

Definition hex_value (a : ascii) : option nat :=
  let n := nat_of_ascii a in
  if ((48 <=? n) && (n <=? 57))%nat then Some (n - 48)%nat
  else if ((65 <=? n) && (n <=? 70))%nat then Some (n - 55)%nat else None.

(** Reading percent-encoded text. *)
Fixpoint percent_decode (s : string) : option string :=
  match s with
  | EmptyString => Some EmptyString
  | String a rest =>
      if Ascii.eqb a "%" then
        match rest with
        | String h (String l rest') =>
            match hex_value h, hex_value l with
            | Some x, Some y => String (ascii_of_nat (16 * x + y)) <$> percent_decode rest'
            | _, _ => None
            end
        | _ => None
        end
      else String a <$> percent_decode rest
  end.

Lemma hex_value_digit n : (n < 16)%nat -> hex_value (hex_digit_upper n) = Some n.
Proof. intros Hn. do 16 (destruct n as [|n]; [done|]). lia. Qed.

Lemma percent_roundtrip s : percent_decode (percent_encode s) = Some s.
Proof.
  induction s as [|a s IH]; [done|]. cbn [percent_encode]. destruct (is_ascii_alphanumeric a || _ || _ || _ || _) eqn:Ha.
  - cbn [percent_decode]. destruct (Ascii.eqb_spec a "%") as [-> |_]; [done|]. by rewrite IH.
  - cbn [percent_decode]. rewrite Ascii.eqb_refl. pose proof (nat_ascii_bounded a).
    rewrite !hex_value_digit; [|apply Nat.mod_upper_bound; lia|apply Nat.Div0.div_lt_upper_bound; lia].
    rewrite IH. cbn [fmap option_fmap option_map]. do 2 f_equal.
    rewrite <- (Nat.div_mod_eq (nat_of_ascii a) 16). apply ascii_nat_embedding.
Qed.

(** Encoded text holds none of the separators. *)
Lemma encoded_plain c s : is_ascii_alphanumeric c = false ->
  c <> "-"%char -> c <> "_"%char -> c <> "."%char -> c <> "~"%char -> c <> "%"%char ->
  str_forall (fun a => negb (Ascii.eqb a c)) (percent_encode s) = true.
Proof.
  intros Hc H1 H2 H3 H4 H5. induction s as [|a s IH]; [done|]. cbn [percent_encode].
  assert (Hd : forall n, (n < 16)%nat -> Ascii.eqb (hex_digit_upper n) c = false).
  { intros n Hn. apply Ascii.eqb_neq. intros <-. do 16 (destruct n as [|n]; [done|]). lia. }
  pose proof (nat_ascii_bounded a). destruct (is_ascii_alphanumeric a || _ || _ || _ || _) eqn:Ha; cbn [str_forall]; rewrite IH, andb_true_r.
  - apply negb_true_iff, Ascii.eqb_neq. intros ->. rewrite Hc in Ha.
    rewrite !(proj2 (Ascii.eqb_neq _ _)) in Ha by done. done.
  - rewrite !Hd; [|apply Nat.mod_upper_bound; lia|apply Nat.Div0.div_lt_upper_bound; lia].
    by rewrite (proj2 (Ascii.eqb_neq _ _)).
Qed.

(** A connection string as its reader takes it apart: scheme, user, password,
    and the host with what follows. *)
Fixpoint before_last_at (s : string) : option (string * string) :=
  match s with
  | EmptyString => None
  | String a rest =>
      match before_last_at rest with
      | Some (b, after) => Some (String a b, after)
      | None => if Ascii.eqb a "@" then Some (EmptyString, rest) else None
      end
  end.

Definition read_url (url : string) : option (string * string * string * string) :=
  '(scheme, rest) ← split_scheme url;
  '(userinfo, host) ← before_last_at rest;
  '(user, pass) ← split_once_colon userinfo;
  user ← percent_decode user; pass ← percent_decode pass;
  Some (scheme, user, pass, host).

Lemma before_after s : after_last_at s = snd <$> before_last_at s.
Proof. induction s as [|a s IH]; [done|]. cbn. rewrite IH. destruct (before_last_at s) as [[? ?]|]; [done|]. cbn. by destruct (Ascii.eqb a "@"). Qed.

Definition no_at (s : string) : Prop := before_last_at s = None.

Lemma no_at_forall s : no_at s <-> str_forall (fun a => negb (Ascii.eqb a "@")) s = true.
Proof.
  unfold no_at. induction s as [|a s IH]; [done|]. cbn. rewrite andb_true_iff, <-IH, negb_true_iff.
  destruct (before_last_at s) as [[? ?]|]; [naive_solver|]. destruct (Ascii.eqb a "@"); naive_solver.
Qed.

Lemma after_at_clean s b h : before_last_at s = Some (b, h) -> no_at h.
Proof.
  revert b. induction s as [|a s IH]; [done|]. intros b. cbn. destruct (before_last_at s) as [[b' h']|] eqn:Hs.
  - intros [= <- <-]. by apply (IH b').
  - destruct (Ascii.eqb a "@"); [|done]. by intros [= <- <-].
Qed.

Lemma before_at_app u h : no_at h -> before_last_at (u +:+ String "@" h) = Some (u, h).
Proof.
  intros Hh. induction u as [|a u IH].
  - change ("" +:+ String "@" h) with (String "@" h). cbn. by rewrite Hh.
  - rewrite app_str_cons. cbn. by rewrite IH.
Qed.

Lemma split_once_colon_app u p : str_forall (fun a => negb (Ascii.eqb a ":")) u = true ->
  split_once_colon (u +:+ String ":" p) = Some (u, p).
Proof.
  induction u as [|a u IH]; [done|]. cbn [str_forall]. intros [Ha Hu]%andb_true_iff. rewrite app_str_cons.
  cbn [split_once_colon]. change (Ascii.ascii_of_nat 58) with ":"%char. apply negb_true_iff in Ha. rewrite Ha, IH by done. done.
Qed.

Lemma strip_none_app p x y y' : (String.length p <= String.length x)%nat ->
  strip_prefix p (x +:+ y) = None -> strip_prefix p (x +:+ y') = None.
Proof.
  revert x. induction p as [|c p IH]; intros [|a x] Hl; cbn in Hl; [by destruct y|done|lia|].
  rewrite !app_str_cons. cbn [strip_prefix]. destruct (Ascii.eqb c a); [|done]. apply IH. lia.
Qed.

Lemma strip_some p s after : strip_prefix p s = Some after -> s = p +:+ after.
Proof.
  revert s. induction p as [|c p IH]; intros s; [cbn; by intros [= ->]|]. destruct s as [|a s]; [done|]. cbn [strip_prefix].
  destruct (Ascii.eqb_spec c a) as [-> |]; [|done]. intros ->%IH. done.
Qed.

Lemma split_scheme_some s scheme rest : split_scheme s = Some (scheme, rest) -> s = scheme +:+ "://" +:+ rest.
Proof.
  revert scheme. induction s as [|a s IH]; [done|]. intros scheme. cbn [split_scheme].
  destruct (strip_prefix "://" (String a s)) as [after|] eqn:Hp; [intros [= <- <-]; by apply strip_some in Hp|].
  destruct (split_scheme s) as [[b after]|]; [|done]. intros [= <- <-]. rewrite (IH b eq_refl). done.
Qed.

(** Taking a scheme off depends only on the text up to its separator. *)
Lemma split_scheme_swap s scheme rest rest' : split_scheme s = Some (scheme, rest) ->
  split_scheme (scheme +:+ "://" +:+ rest') = Some (scheme, rest').
Proof.
  revert scheme. induction s as [|a s IH]; [done|]. intros scheme. cbn [split_scheme].
  destruct (strip_prefix "://" (String a s)) as [after|] eqn:Hp; [by intros [= <- <-]|].
  destruct (split_scheme s) as [[b after]|] eqn:Hs; [|done]. intros [= <- <-]. specialize (IH b eq_refl).
  rewrite app_str_cons. cbn [split_scheme]. rewrite IH. apply split_scheme_some in Hs as ->.
  change (String a (b +:+ "://" +:+ after)) with (String a b +:+ ("://" +:+ after)) in Hp. rewrite <- app_str_assoc in Hp.
  change (String a (b +:+ "://" +:+ rest')) with (String a b +:+ ("://" +:+ rest')). rewrite <- app_str_assoc.
  assert (Hl : (3 <= String.length (String a b +:+ "://"))%nat).
  { clear. generalize (String a b) as x. induction x as [|c x IH]; [done|]. rewrite app_str_cons. cbn [String.length]. lia. }
  by rewrite (strip_none_app "://" _ _ rest' Hl Hp).
Qed.

Lemma url_shape base id pw url : connection_url_for base id pw = Ok url ->
  exists scheme rest host role, split_scheme base = Some (scheme, rest) /\ role_name id = Ok role /\
    host = match after_last_at rest with Some h => h | None => rest end /\ no_at host /\
    url = scheme +:+ "://" +:+ percent_encode role +:+ ":" +:+ percent_encode pw +:+ "@" +:+ host.
Proof.
  unfold connection_url_for. destruct (split_scheme base) as [[scheme rest]|]; [|done].
  destruct (String.eqb _ ""); [done|]. destruct (role_name id) as [role|]; [|done]. intros [= <-].
  exists scheme, rest, (match after_last_at rest with Some h => h | None => rest end), role. split_and!; try done. rewrite before_after. destruct (before_last_at rest) as [[b h]|] eqn:Hr; [|done].
  by apply (after_at_clean rest b).
Qed.

(** A plugin's pool connects as the plugin.  Taken apart, the connection
    string of a plugin has the scheme and host of the server's own, the role
    whose name is that of the plugin's schema as user, and the given password,
    whatever characters these hold. *)
Lemma plugin_url_reads base id pw url : connection_url_for base id pw = Ok url ->
  exists scheme rest role, split_scheme base = Some (scheme, rest) /\ role_name id = Ok role /\
    read_url url = Some (scheme, role, pw, match after_last_at rest with Some h => h | None => rest end).
Proof.
  intros (scheme & rest & host & role & Hb & Hr & Hh & Hn & ->)%url_shape. exists scheme, rest, role. split_and!; [done..|].
  rewrite <- Hh. unfold read_url. rewrite (split_scheme_swap _ _ _ _ Hb). cbn [mbind option_bind].
  change ("@" +:+ host) with (String "@" host). rewrite <- !app_str_assoc. rewrite before_at_app by done. cbn [mbind option_bind].
  rewrite app_str_assoc. change (":" +:+ percent_encode pw) with (String ":" (percent_encode pw)).
  rewrite split_once_colon_app by (by apply encoded_plain). cbn [mbind option_bind]. by rewrite !percent_roundtrip.
Qed.

(** ** Rules *)

Section Works.
Context `{Runtime} `{MailHost} `{PluginCrates}.

Abbreviation Works E A := (St (Office Yard) E A).

Lemma runs_look {E A} (f : Yard -> A) y (Q : result E A -> _) : Q (Ok (f y)) y -> runs (look f) y Q.
Proof. by intros HQ o <-. Qed.

Lemma runs_local {E} (f : Yard -> Yard) y (Q : result E unit -> _) : Q (Ok tt) (f y) -> runs (local f) y Q.
Proof. by intros HQ o <-. Qed.

Lemma runs_scratch y (Q : result unit unit -> _) : (forall r, Q r y) -> runs scratch_file y Q.
Proof. intros HQ o <-. apply HQ. Qed.

Lemma runs_when {E} b (m : Works E unit) y (Q : result E unit -> _) :
  (b = true -> runs m y Q) -> (b = false -> Q (Ok tt) y) -> runs (st_when b m) y Q.
Proof. intros Ht Hf. destruct b; cbn; [by apply Ht|by apply runs_ret, Hf]. Qed.

(** A loop keeps what each round keeps. *)
Lemma runs_for_inv {E A} (body : A -> Works E unit) l (I : Yard -> Prop) y (Q : result E unit -> _) :
  (forall x y, x ∈ l -> I y -> runs (body x) y (fun _ y' => I y')) -> I y -> (forall r y', I y' -> Q r y') -> runs (st_for l body) y Q.
Proof.
  intros Hb HI HQ. revert y HI. induction l as [|x l IH]; intros y HI; [by apply runs_ret, HQ|]. cbn [st_for].
  apply runs_bind. eapply runs_mono; [apply Hb; [by left|done]|]. intros [u|e] y' HI'; [|by apply HQ].
  apply IH; [|done]. intros x' y'' Hin. apply Hb. by right.
Qed.

(** ** Boot *)

Context (base_url : string).

(** What a row needs to be run: its manifest, and the bytes its digest names. *)
Definition runnable (d : Disk) (row : InstalledPlugin) (m : Manifest) (w : string) : Prop :=
  parse_manifest (ip_manifest_toml row) = Ok m /\ mf_id m = ip_id row /\ mf_version m = ip_version row /\
  artifact_read_verified (ip_id row) (ip_version row) (ip_artifact_sha256 row) d = Ok w.

Definition switched_off (row : InstalledPlugin) (reason : string) (at_ : Instant) : InstalledPlugin :=
  mkInstalledPlugin (ip_id row) (ip_version row) (ip_manifest_toml row) (ip_artifact_sha256 row) false (Some reason)
    (ip_db_role_password row) (ip_installed_at row) at_.

(** Same catalog and disk. *)
Definition same_stock (y y' : Yard) : Prop :=
  yd_disk y' = yd_disk y /\ yd_schemas y' = yd_schemas y /\ yd_roles y' = yd_roles y /\ yd_search_path y' = yd_search_path y.

Lemma calls_registered {E} id row y :
  runs (host_calls_for (E := E) base_url id row) y (fun r y' => (exists c, r = Ok c) /\ exists p, y' = with_pools p y).
Proof.
  unfold host_calls_for. apply runs_bind, runs_look. destruct (yd_pools y) as [p|] eqn:Hp.
  2: { apply runs_ret. split; [by eexists|]. exists (yd_pools y). by destruct y. }
  destruct (ip_db_role_password row) as [pw|]; [|apply runs_ret; split; [by eexists|]; exists (yd_pools y); by destruct y].
  apply runs_bind, runs_try. unfold pool_register. apply runs_bind, runs_lift.
  destruct (connection_url_for base_url id pw) as [url|e]; [|apply runs_ret; split; [by eexists|]; exists (yd_pools y); by destruct y].
  destruct (connect_options url); [apply runs_local|apply runs_throw]; apply runs_ret.
  - split; [by eexists|]. by eexists.
  - split; [by eexists|]. exists (yd_pools y). by destruct y.
Qed.

Lemma one_loaded row c h y :
  runs (load_one (ip_id row) (ip_version row) (ip_manifest_toml row) (ip_artifact_sha256 row) c h) y (fun r y' =>
    match r with
    | Ok _ => exists m w h', runnable (yd_disk y) row m w /\ host_register_with_calls m w c h = Ok h' /\ y' = with_host (Some h') y
    | Err _ => y' = y /\ forall m w, runnable (yd_disk y) row m w -> is_ok (host_register_with_calls m w c h) = false
    end).
Proof.
  unfold load_one, runnable. destruct (parse_manifest (ip_manifest_toml row)) as [m|e] eqn:Hm.
  2: { apply runs_throw. split; [done|]. by intros m w [? _]. }
  destruct (String.eqb_spec (mf_id m) (ip_id row)) as [Hid|Hid].
  2: { apply runs_throw. split; [done|]. intros m' w ([= <-] & ? & _). done. }
  destruct (String.eqb_spec (mf_version m) (ip_version row)) as [Hv|Hv]; cbn [negb].
  2: { apply runs_throw. split; [done|]. intros m' w ([= <-] & _ & ? & _). done. }
  apply runs_bind, runs_look. destruct (artifact_read_verified _ _ _ (yd_disk y)) as [w|e] eqn:Hw.
  2: { apply runs_throw. split; [done|]. intros m' w (_ & _ & _ & ?). done. }
  destruct (host_register_with_calls m w c h) as [h'|e] eqn:Hr.
  - apply runs_local. exists m, w, h'. done.
  - apply runs_throw. split; [done|]. intros m' w' ([= <-] & _ & _ & [= <-]). by rewrite Hr.
Qed.

Lemma failure_recorded {E} id version reason disable y :
  runs (record_failure (E := E) id version reason disable) y (fun r y' => r = Ok tt /\ exists evs,
    y' = with_events evs y \/ disable = true /\ exists now, y' = with_events evs (snd (set_plugin_enabled id false (Some reason) now y))).
Proof.
  assert (He : forall z (P : Yard -> Prop), (forall evs, P (with_events evs z)) ->
    runs (st_bind (st_try (tdb (record_plugin_event id EvLoadFailed (Some version) (Some reason) None))) (fun _ => st_ret tt)) z
      (fun (r : result E unit) y' => r = Ok tt /\ P y')).
  { intros z P HP. apply runs_bind, runs_try, runs_tdb; [|intros now; split]; apply runs_ret; (split; [done|]); [|apply HP..].
    specialize (HP (yd_events z)). by destruct z. }
  unfold record_failure. apply runs_bind, runs_when.
  - intros ->. unfold persist_disable. apply runs_bind, runs_try, runs_tdb; [|intros now; split]; apply runs_ret.
    + apply He. intros evs. exists evs. by left.
    + apply He. intros evs. exists evs. right. split; [done|]. by exists now.
    + apply He. intros evs. exists evs. right. split; [done|]. by exists now.
  - intros ->. apply He. intros evs. exists evs. by left.
Qed.
End Works.

Section Boot.
Context `{Runtime} `{MailHost} `{PluginCratesLaws}.
Context (base_url : string).

Definition report_ids (r : PluginBootReport) : list string := br_loaded r ++ (br_skipped r).*1 ++ (lf_id <$> br_failed r).

Definition valid_ids (rows : list InstalledPlugin) : list string :=
  ip_id <$> List.filter (fun row => valid_plugin_id (ip_id row)) rows.

Lemma valid_ids_snoc pre row :
  valid_ids (pre ++ [row]) = valid_ids pre ++ (if valid_plugin_id (ip_id row) then [ip_id row] else []).
Proof. unfold valid_ids. rewrite List.filter_app, fmap_app. cbn. by destruct (valid_plugin_id (ip_id row)). Qed.

Lemma valid_ids_perm l l' : l ≡ₚ l' -> valid_ids l ≡ₚ valid_ids l'.
Proof.
  intros Hl. unfold valid_ids. apply Permutation_map. induction Hl as [|x l l' _ IH|x x' l|l l' l'' _ IH1 _ IH2]; cbn.
  - done.
  - destruct (valid_plugin_id (ip_id x)); [by apply Permutation_skip|done].
  - destruct (valid_plugin_id (ip_id x)), (valid_plugin_id (ip_id x')); try done. apply Permutation_swap.
  - by rewrite IH1.
Qed.

(** Whether the host would take a plugin, whatever it holds. *)
Definition host_takes (m : Manifest) (w : string) : Prop := forall c h, is_ok (host_register_with_calls m w c h) = true.

(** After the rows [pre], from [y0]. *)
Record Booted (y0 : Yard) (pre : list InstalledPlugin) (y : Yard) (report : PluginBootReport) : Prop := {
  bt_stock : same_stock y0 y;
  bt_safe : br_safe_mode report = option_is_none (yd_host y0);
  bt_ids : report_ids report ≡ₚ valid_ids pre;
  bt_loaded id : id ∈ br_loaded report -> exists row m w,
    row ∈ pre /\ ip_id row = id /\ ip_enabled row = true /\ runnable (yd_disk y0) row m w;
  bt_host : match yd_host y0, yd_host y with
    | None, None => y = y0 /\ br_loaded report = []
    | Some h0, Some h => forall id, if bool_decide (id ∈ br_loaded report)
        then exists s, host_status id h = Some s /\ ps_enabled s = true
        else host_status id h = host_status id h0
    | _, _ => False
    end;
  bt_rows k : yd_plugins y !! k = yd_plugins y0 !! k \/
    exists row reason at_, yd_plugins y0 !! k = Some row /\ yd_plugins y !! k = Some (switched_off row reason at_) /\
      mkPluginLoadFailure k reason true ∈ br_failed report;
  bt_takes row m w : row ∈ pre -> valid_plugin_id (ip_id row) = true -> ip_enabled row = true -> is_Some (yd_host y0) ->
    runnable (yd_disk y0) row m w -> host_takes m w -> ip_id row ∈ br_loaded report
}.

Lemma booted_skip y0 pre y report row reason :
  Booted y0 pre y report -> valid_plugin_id (ip_id row) = true ->
  (yd_host y0 = None \/ ip_enabled row = false) -> Booted y0 (pre ++ [row]) y (report_skipped (ip_id row) reason report).
Proof.
  intros [Hs Hsf Hi Hl Hh Hr Ht] Hv Hoff. split; [done|done| | |done|done|].
  - unfold report_ids in *. cbn [report_skipped br_loaded br_skipped br_failed]. rewrite valid_ids_snoc, Hv, <-Hi, fmap_app. cbn. solve_Permutation.
  - intros id Hin. destruct (Hl id Hin) as (r & m & w & Hr' & Hx). exists r, m, w. split; [set_solver|done].
  - intros r m w [Hin| <-%list_elem_of_singleton]%elem_of_app Hv' He Hup Hrun Htk; [by apply (Ht r m w)|].
    destruct Hoff as [Hn|Hn]; [rewrite Hn in Hup; by destruct Hup|congruence].
Qed.

Lemma booted_invalid y0 pre y report row :
  Booted y0 pre y report -> valid_plugin_id (ip_id row) = false -> Booted y0 (pre ++ [row]) y report.
Proof.
  intros [Hs Hsf Hi Hl Hh Hr Ht] Hv. split; [done|done| | |done|done|].
  - by rewrite valid_ids_snoc, Hv, app_nil_r.
  - intros id Hin. destruct (Hl id Hin) as (r & m & w & Hr' & Hx). exists r, m, w. split; [set_solver|done].
  - intros r m w [Hin| <-%list_elem_of_singleton]%elem_of_app Hv' He Hup Hrun Htk; [by apply (Ht r m w)|congruence].
Qed.

Lemma not_yet_loaded y0 pre y report id :
  Booted y0 pre y report -> id ∉ ip_id <$> pre -> id ∉ report_ids report.
Proof.
  intros Hb Hn Hin. apply Hn. rewrite (bt_ids _ _ _ _ Hb) in Hin. apply list_elem_of_fmap in Hin as (r & -> & Hr).
  apply list_elem_of_fmap. exists r. split; [done|]. apply list_elem_of_In in Hr. apply filter_In in Hr as [Hr _]. by apply list_elem_of_In.
Qed.

Lemma booted_load y0 pre y report row m w c h h' p :
  Booted y0 pre y report -> ip_id row ∉ ip_id <$> pre -> valid_plugin_id (ip_id row) = true -> ip_enabled row = true ->
  yd_host y = Some h -> runnable (yd_disk y) row m w -> host_register_with_calls m w c h = Ok h' ->
  Booted y0 (pre ++ [row]) (with_host (Some h') (with_pools p y)) (report_loaded (ip_id row) report).
Proof.
  intros Hb Hnew Hv He Hh Hrun Hreg. pose proof (not_yet_loaded _ _ _ _ _ Hb Hnew) as Hny.
  destruct Hb as [Hs Hsf Hi Hl Hho Hr Ht]. destruct (Hs) as (Hd & _). rewrite Hd in Hrun.
  split; [by destruct y|done|..].
  - unfold report_ids in *. cbn [report_loaded br_loaded br_skipped br_failed]. rewrite valid_ids_snoc, Hv, <-Hi. solve_Permutation.
  - intros id [Hin| ->%list_elem_of_singleton]%elem_of_app.
    + destruct (Hl id Hin) as (r & m' & w' & Hr' & Hx). exists r, m', w'. split; [set_solver|done].
    + exists row, m, w. split; [set_solver|done].
  - destruct (yd_host y0) as [h0|]; rewrite Hh in Hho; [|done]. cbn. intros id.
    destruct (host_registered _ _ _ _ _ Hreg) as [Hon Helse]. destruct Hrun as (_ & Hid & _). rewrite Hid in Hon, Helse.
    case_bool_decide as Hin; specialize (Hho id).
    + apply elem_of_app in Hin as [Hin| ->%list_elem_of_singleton]; [|done].
      rewrite bool_decide_eq_true_2 in Hho by done. rewrite Helse; [done|].
      intros ->. apply Hny. unfold report_ids. set_solver.
    + rewrite bool_decide_eq_false_2 in Hho by set_solver. rewrite Helse; [done|]. set_solver.
  - intros k. apply Hr.
  - intros r m' w' [Hin| <-%list_elem_of_singleton]%elem_of_app Hv' He' Hup Hrun' Htk; cbn.
    + apply elem_of_app. left. by apply (Ht r m' w').
    + set_solver.
Qed.

Lemma booted_fail y0 pre y report row y' f :
  Booted y0 pre y report -> ip_id row ∉ ip_id <$> pre -> valid_plugin_id (ip_id row) = true ->
  yd_plugins y0 !! ip_id row = Some row -> is_Some (yd_host y) -> lf_id f = ip_id row ->
  (forall m w, runnable (yd_disk y0) row m w -> host_takes m w -> False) ->
  same_stock y y' -> yd_host y' = yd_host y ->
  (yd_plugins y' = yd_plugins y \/ lf_disabled f = true /\ exists now, yd_plugins y' =
    yd_plugins (snd (set_plugin_enabled (ip_id row) false (Some (lf_reason f)) now y))) ->
  Booted y0 (pre ++ [row]) y' (report_failed f report).
Proof.
  intros Hb Hnew Hv Hrow Hup Hf Hno Hst Hho Hpl. pose proof (not_yet_loaded _ _ _ _ _ Hb Hnew) as Hny.
  destruct Hb as [Hs Hsf Hi Hl Hh Hr Ht]. split; [|done|..].
  - destruct Hs as (? & ? & ? & ?), Hst as (? & ? & ? & ?). split_and!; congruence.
  - unfold report_ids in *. cbn [report_failed br_loaded br_skipped br_failed]. rewrite valid_ids_snoc, Hv, <-Hi, fmap_app. cbn. rewrite Hf. solve_Permutation.
  - intros id Hin. destruct (Hl id Hin) as (r & m & w & Hr' & Hx). exists r, m, w. split; [set_solver|done].
  - rewrite Hho. by destruct (yd_host y0), (yd_host y).
  - intros k. cbn [report_failed br_failed]. destruct (decide (k = ip_id row)) as [-> |Hne].
    + assert (Hk : yd_plugins y !! ip_id row = Some row).
      { destruct (Hr (ip_id row)) as [-> |(r & reason & at_ & _ & _ & Hin)]; [done|]. destruct Hny. unfold report_ids.
        rewrite !elem_of_app. right; right. by apply (list_elem_of_fmap_2 lf_id) in Hin. }
      destruct Hpl as [-> |(Hd & now & ->)]; [left; congruence|]. right. exists row, (lf_reason f), now.
      unfold set_plugin_enabled. rewrite Hk. cbn. rewrite lookup_insert_eq. split_and!; [done..|].
      apply elem_of_app. right. apply list_elem_of_singleton. destruct f; cbn in *. by subst.
    + assert (Hk : yd_plugins y' !! k = yd_plugins y !! k).
      { destruct Hpl as [-> |(_ & now & ->)]; [done|]. unfold set_plugin_enabled. destruct (yd_plugins y !! ip_id row); [|done].
        cbn. by rewrite lookup_insert_ne. }
      rewrite Hk. destruct (Hr k) as [Hk'|(r & reason & at_ & Hk0 & Hk1 & Hin)]; [by left|]. right. exists r, reason, at_.
      split_and!; [done..|]. apply elem_of_app. by left.
  - intros r m w [Hin| <-%list_elem_of_singleton]%elem_of_app Hv' He' Hup' Hrun' Htk; [by apply (Ht r m w)|].
    by destruct (Hno m w).
Qed.

Lemma boot_row_books {E} y0 pre y report row :
  Booted y0 pre y report -> ip_id row ∉ ip_id <$> pre -> yd_plugins y0 !! ip_id row = Some row ->
  runs (boot_row (E := E) base_url report row) y (fun r y' => exists report', r = Ok report' /\ Booted y0 (pre ++ [row]) y' report').
Proof.
  intros Hb Hnew Hrow. unfold boot_row. destruct (valid_plugin_id (ip_id row)) eqn:Hv; cbn [negb].
  2: { apply runs_ret. eexists. split; [done|]. by apply booted_invalid. }
  apply runs_bind, runs_look. destruct (yd_host y) as [h|] eqn:Hh.
  2: { apply runs_ret. eexists. split; [done|]. apply booted_skip; [done..|]. left.
       pose proof (bt_host _ _ _ _ Hb) as Hho. rewrite Hh in Hho. by destruct (yd_host y0). }
  destruct (ip_enabled row) eqn:He; cbn [negb].
  2: { apply runs_ret. eexists. split; [done|]. apply booted_skip; [done..|]. by right. }
  apply runs_bind, runs_try. unfold register_or_disable. apply runs_bind.
  eapply runs_mono; [apply calls_registered|]. intros r y1 [(c & ->) (p & ->)]. apply runs_bind, runs_try.
  assert (Hd : yd_disk (with_pools p y) = yd_disk y0) by apply (bt_stock _ _ _ _ Hb).
  eapply runs_mono; [apply one_loaded|]. intros [u|[kind reason]] y2.
  - intros (m & w & h' & Hrun & Hreg & ->). apply runs_ret, runs_ret. eexists. split; [done|].
    by apply (booted_load y0 pre y report row m w c h h' p).
  - intros [-> Hno]. apply runs_bind. eapply runs_mono; [apply failure_recorded|]. intros r y3 [-> (evs & Hy3)].
    apply runs_throw, runs_ret. eexists. split; [done|].
    assert (Hset : forall now, same_stock y (with_events evs (set_plugin_enabled (ip_id row) false (Some reason) now (with_pools p y)).2) /\
      yd_host (with_events evs (set_plugin_enabled (ip_id row) false (Some reason) now (with_pools p y)).2) = yd_host y /\
      yd_plugins (with_events evs (set_plugin_enabled (ip_id row) false (Some reason) now (with_pools p y)).2) =
      yd_plugins (set_plugin_enabled (ip_id row) false (Some reason) now y).2).
    { intros now. unfold set_plugin_enabled. cbn. by destruct (yd_plugins y !! ip_id row). }
    apply (booted_fail y0 pre y); [done|done|done|done|by rewrite Hh|done| |..].
    + intros m w Hrun Htk. rewrite Hd in Hno. specialize (Hno m w Hrun). by rewrite Htk in Hno.
    + destruct Hy3 as [-> |(_ & now & ->)]; [done|apply Hset].
    + destruct Hy3 as [-> |(_ & now & ->)]; [done|apply Hset].
    + destruct Hy3 as [-> |(Hdis & now & ->)]; [by left|]. right. split; [done|]. exists now. apply Hset.
Qed.

Lemma boot_rows_book {E} y0 l : forall pre y report,
  Booted y0 pre y report -> NoDup (ip_id <$> (pre ++ l)) -> (forall row, row ∈ l -> yd_plugins y0 !! ip_id row = Some row) ->
  runs (st_fold (boot_row (E := E) base_url) report l) y (fun r y' => exists report', r = Ok report' /\ Booted y0 (pre ++ l) y' report').
Proof.
  induction l as [|row l IH]; intros pre y report Hb Hnd Hin.
  - apply runs_ret. rewrite app_nil_r. by eexists.
  - cbn [st_fold]. apply runs_bind. eapply runs_mono; [apply (boot_row_books y0 pre); [done| |apply Hin; by left]|].
    + rewrite fmap_app, fmap_cons in Hnd. apply NoDup_app in Hnd as (_ & Hx & _). intros Hin'. by apply (Hx _ Hin'); left.
    + intros r y' (report' & -> & Hb'). rewrite (cons_middle row pre l), app_assoc. rewrite (cons_middle row pre l), app_assoc in Hnd.
      apply IH; [done|done|]. intros r' Hr'. apply Hin. by right.
Qed.

(** Records are kept under their own id. *)
Definition keyed (y : Yard) : Prop := forall k row, yd_plugins y !! k = Some row -> ip_id row = k.

Lemma installed_rows y : keyed y ->
  NoDup (ip_id <$> collated (map_to_list (yd_plugins y)).*2) /\
  (forall row, row ∈ collated (map_to_list (yd_plugins y)).*2 <-> yd_plugins y !! ip_id row = Some row).
Proof.
  intros Hk. split.
  - rewrite collated_perm. assert (Heq : ip_id <$> (map_to_list (yd_plugins y)).*2 = (map_to_list (yd_plugins y)).*1).
    { rewrite <- list_fmap_compose. apply list_fmap_ext. intros i [k row] Hi. apply list_elem_of_lookup_2 in Hi.
      apply elem_of_map_to_list in Hi. by apply Hk. }
    rewrite Heq. apply NoDup_fst_map_to_list.
  - intros row. rewrite collated_perm, list_elem_of_fmap. split.
    + intros ([k row'] & -> & Hin). apply elem_of_map_to_list in Hin. cbn. by rewrite (Hk _ _ Hin).
    + intros Hin. exists (ip_id row, row). split; [done|]. by apply elem_of_map_to_list.
Qed.

Lemma booted_nil y : Booted y [] y (mkPluginBootReport [] [] [] (option_is_none (yd_host y))).
Proof.
  split; [done|done|done|set_solver| |by left|set_solver]. destruct (yd_host y); [|done]. intros id. cbn. by case_bool_decide; [set_solver|].
Qed.

Lemma boot_books y : keyed y ->
  runs (load_installed_plugins base_url) y (fun r y' => match r with
    | Ok report => Booted y (collated (map_to_list (yd_plugins y)).*2) y' report
    | Err _ => y' = y end).
Proof.
  intros Hk. destruct (installed_rows y Hk) as [Hnd Hin]. unfold load_installed_plugins. apply runs_bind, runs_select; [|done].
  apply runs_bind, runs_look.
  set (l := collated _) in *.
  eapply runs_mono; [by apply (boot_rows_book y l [] y _ (booted_nil y) Hnd), Hin|]. by intros r y' (report & -> & Hb).
Qed.

(** A boot whose read is answered reports. *)
Lemma boot_answers o : keyed (of_db o) -> calls (of_ticks o) = Answered -> is_ok (fst (load_installed_plugins base_url o)) = true.
Proof.
  intros Hk Ha. destruct (installed_rows _ Hk) as [Hnd Hin]. unfold load_installed_plugins, st_bind, tdb. rewrite Ha. cbn.
  assert (Hb0 : Booted (of_db o) [] (of_db o) (mkPluginBootReport [] [] [] (option_is_none (yd_host (of_db o))))) by apply booted_nil.
  destruct (boot_rows_book (E := DbError) (of_db o) _ [] (of_db o) _ Hb0 Hnd (fun row => proj1 (Hin row))
    (mkOffice (of_db o) (S (of_ticks o)) (of_draws o) (of_mail o)) eq_refl) as (report & Hr & _).
  by rewrite Hr.
Qed.

(** A boot runs what was installed and nothing else, and never stops the
    server.  Whatever requests fail after the records were read, every record
    is reported once, as loaded, skipped or failed.  What is loaded is enabled,
    its manifest names it and its version, and its bytes have the recorded
    digest; what is enabled, readable and acceptable to the host is loaded.  A
    record changes only by being switched off for a failure the report names,
    and in safe mode nothing changes. *)
Theorem boot_runs_only_installed y : keyed y ->
  runs (load_installed_plugins base_url) y (fun r y' => match r with
    | Err _ => y' = y
    | Ok report =>
        report_ids report ≡ₚ valid_ids (map_to_list (yd_plugins y)).*2 /\
        (forall id, id ∈ br_loaded report -> exists row m w,
           yd_plugins y !! id = Some row /\ ip_enabled row = true /\ parse_manifest (ip_manifest_toml row) = Ok m /\ mf_id m = id /\
           mf_version m = ip_version row /\ artifact_read_verified id (ip_version row) (ip_artifact_sha256 row) (yd_disk y) = Ok w /\
           artifact_digest w = ip_artifact_sha256 row) /\
        (forall id row m w, yd_plugins y !! id = Some row -> valid_plugin_id id = true -> ip_enabled row = true -> is_Some (yd_host y) ->
           runnable (yd_disk y) row m w -> host_takes m w -> id ∈ br_loaded report) /\
        (forall k, yd_plugins y' !! k = yd_plugins y !! k \/ exists row reason at_, yd_plugins y !! k = Some row /\
           yd_plugins y' !! k = Some (switched_off row reason at_) /\ mkPluginLoadFailure k reason true ∈ br_failed report) /\
        match yd_host y, yd_host y' with
        | Some h, Some h' => forall id, if bool_decide (id ∈ br_loaded report)
            then exists s, host_status id h' = Some s /\ ps_enabled s = true else host_status id h' = host_status id h
        | None, _ => y' = y /\ br_loaded report = []
        | Some _, None => False
        end
    end).
Proof.
  intros Hk. destruct (installed_rows y Hk) as [_ Hin]. eapply runs_mono; [by apply boot_books|]. intros [report|e] y'; [|done].
  intros [Hs Hsf Hi Hl Hh Hr Ht]. split_and!.
  - rewrite Hi. apply valid_ids_perm, collated_perm.
  - intros id Hid. destruct (Hl id Hid) as (row & m & w & Hrow & <- & He & Hp & Hmi & Hv & Hw). exists row, m, w.
    split_and!; try done; [by apply Hin|]. by apply read_checked in Hw.
  - intros id row m w Hrow Hv He Hup Hrun Htk. pose proof (Hk _ _ Hrow) as Hid. subst id. by apply (Ht row m w); [apply Hin|..].
  - exact Hr.
  - by destruct (yd_host y), (yd_host y').
Qed.
End Boot.

(** ** Schemas and roles *)

Section Storage.
Context `{Runtime} `{MailHost} `{PluginCratesLaws}.
Context (base_url : string).

Definition within (I : Yard -> Prop) (o : Office Yard) : Prop := I (of_db o).

Lemma keeps_tdb {A} (I : Yard -> Prop) (stmt : TStatement Yard A) :
  (forall now y, I y -> I (snd (stmt now y))) -> preserves (within I) (tdb stmt).
Proof.
  intros Hs o Ho. unfold tdb, within in *. specialize (Hs (clock (of_ticks o)) _ Ho). destruct (calls _); [|done..].
  by destruct (stmt _ _).
Qed.

Lemma keeps_look {E A} I (f : Yard -> A) : preserves (within I) (look (E := E) f).
Proof. by intros o Ho. Qed.

Lemma keeps_local {E} (I : Yard -> Prop) f : (forall y, I y -> I (f y)) -> preserves (within I) (local (E := E) f).
Proof. intros Hf o Ho. by apply Hf. Qed.

Lemma keeps_scratch I : preserves (within I) scratch_file.
Proof. by intros o Ho. Qed.

Lemma keeps_password I : preserves (within I) generate_role_password.
Proof. by intros o Ho. Qed.

Lemma runs_of_keeps {E A} (m : St (Office Yard) E A) (I : Yard -> Prop) y (Q : result E A -> _) :
  preserves (within I) m -> I y -> (forall r y', I y' -> Q r y') -> runs m y Q.
Proof. intros Hm HI HQ o <-. by apply HQ, Hm. Qed.

(** What provisioning and releasing a plugin's storage may change: its own
    schema and role, whose grants are on that schema. *)
Record Moved (id : string) (y y' : Yard) : Prop := {
  mv_plugins : yd_plugins y' = yd_plugins y;
  mv_events : yd_events y' = yd_events y;
  mv_disk : yd_disk y' = yd_disk y;
  mv_host : yd_host y' = yd_host y;
  mv_schemas n : role_name id <> Ok n -> yd_schemas y' !! n = yd_schemas y !! n;
  mv_roles n : role_name id <> Ok n -> yd_roles y' !! n = yd_roles y !! n;
  mv_grants n r' : role_name id = Ok n -> yd_roles y' !! n = Some r' ->
    forall p s, (p, s) ∈ rl_grants r' -> s = n \/ exists r, yd_roles y !! n = Some r /\ (p, s) ∈ rl_grants r
}.

(** Migrations that use the connection as it is meant: what they change is in the
    schema the search path names. *)
Definition stays_home (files : list (string * string)) : Prop :=
  forall n db, let db' := snd (migrate files (Some n) db) in
    pg_plugins db' = pg_plugins db /\ pg_events db' = pg_events db /\ pg_roles db' = pg_roles db /\
    forall k, k <> n -> pg_schemas db' !! k = pg_schemas db !! k.

Lemma moved_refl id y : Moved id y y.
Proof. split; try done. intros n r' _ Hr p s Hin. right. by exists r'. Qed.

(** Replacing the role or schema of that name. *)
Lemma moved_role id y0 y n r' : role_name id = Ok n -> Moved id y0 y ->
  (forall p s, (p, s) ∈ rl_grants r' -> s = n \/ exists r, yd_roles y !! n = Some r /\ (p, s) ∈ rl_grants r) ->
  Moved id y0 (with_roles (<[n := r']> (yd_roles y)) y).
Proof.
  intros Hn [? ? ? ? ? Hr Hg] Hgr. split; try done; cbn.
  - intros k Hk. rewrite lookup_insert_ne by congruence. by apply Hr.
  - intros k r'' Hk. rewrite Hn in Hk. injection Hk as <-. rewrite lookup_insert_eq. intros [= <-] p s Hin.
    destruct (Hgr p s Hin) as [-> |(r & Hr' & Hin')]; [by left|]. by apply (Hg n r).
Qed.

Lemma moved_schema id y0 y n t : role_name id = Ok n -> Moved id y0 y -> Moved id y0 (with_schemas (<[n := t]> (yd_schemas y)) y).
Proof. intros Hn [? ? ? ? Hs ? ?]. split; try done. cbn. intros k Hk. rewrite lookup_insert_ne by congruence. by apply Hs. Qed.

Lemma moved_migrated id y0 y n files : role_name id = Ok n -> stays_home files -> Moved id y0 y ->
  Moved id y0 (with_database (snd (migrate files (Some n) (yd_database y))) y).
Proof.
  intros Hn Hh [Hp He Hd Ho Hs Hr Hg]. destruct (Hh n (yd_database y)) as (Hp' & He' & Hr' & Hs').
  split; cbn; try done; [by rewrite Hp'|by rewrite He'|..].
  - intros k Hk. rewrite Hs' by congruence. by apply Hs.
  - intros k Hk. rewrite Hr'. by apply Hr.
  - intros k r'. rewrite Hr'. apply Hg.
Qed.

Lemma moved_other id y0 y path pools : Moved id y0 y -> Moved id y0 (with_search_path path (with_pools pools y)).
Proof. intros [? ? ? ? ? ? ?]. by split. Qed.

Lemma ddl_moves id y0 n f : role_name id = Ok n ->
  (forall y y', Moved id y0 y -> f n y = Ok y' -> Moved id y0 y') -> preserves (within (Moved id y0)) (storage_db (ddl (quote_ident n) f)).
Proof.
  intros Hn Hf. apply preserves_map_err, keeps_tdb. intros now y Hy. unfold ddl. rewrite (role_quoted _ _ Hn).
  destruct (f n y) as [y'|] eqn:Hy'; [|done]. by apply (Hf y).
Qed.

Lemma on_role_moves id y0 n g : role_name id = Ok n ->
  (forall r p s, (p, s) ∈ rl_grants (g r) -> s = n \/ (p, s) ∈ rl_grants r) ->
  forall y y', Moved id y0 y -> on_role g n y = Ok y' -> Moved id y0 y'.
Proof.
  intros Hn Hg y y' Hm. unfold on_role. destruct (yd_roles y !! n) as [r|] eqn:Hr; [|done]. intros [= <-].
  apply (moved_role id); [done..|]. intros p s Hin. destruct (Hg r p s Hin) as [-> |Hin']; [by left|]. right. by exists r.
Qed.

Lemma role_statements_move id y0 n f : role_name id = Ok n -> f ∈ role_statements ->
  forall y y', Moved id y0 y -> f n y = Ok y' -> Moved id y0 y'.
Proof.
  intros Hn Hf. assert (Hgr : forall p y y', Moved id y0 y -> grant_own p n y = Ok y' -> Moved id y0 y').
  { intros p y y' Hm. unfold grant_own. destruct (option_is_none _); [done|]. apply (on_role_moves id); [done| |done].
    intros r p' s. cbn. case_bool_decide; [by right|]. rewrite elem_of_cons. intros [[= -> ->]|Hin]; [by left|by right]. }
  assert (Hrv : forall p y y', Moved id y0 y -> revoke_public p n y = Ok y' -> Moved id y0 y').
  { intros p. apply (on_role_moves id); [done|]. intros r p' s. cbn. rewrite elem_of_filter_b. intros [_ Hin]. by right. }
  unfold role_statements in Hf. repeat (apply elem_of_cons in Hf as [-> |Hf]; [first [apply Hgr | apply Hrv | apply (on_role_moves id); [done|by right]]|]).
  by apply not_elem_of_nil in Hf.
Qed.

Lemma keeps_given {E A B} I (r : result E A) (f : A -> St (Office Yard) E B) :
  (forall a, r = Ok a -> preserves (within I) (f a)) -> preserves (within I) (st_bind (st_lift r) f).
Proof. intros Hf o Ho. unfold st_bind, st_lift. destruct r as [a|e]; [by apply (Hf a)|done]. Qed.

Lemma runs_ddl id n f y (Q : result PluginStorageError unit -> _) : role_name id = Ok n ->
  Q (Err (StorageDatabase Lost)) y ->
  match f n y with
  | Ok y' => Q (Ok tt) y' /\ Q (Err (StorageDatabase Lost)) y'
  | Err e => Q (Err (StorageDatabase e)) y
  end -> runs (storage_db (ddl (quote_ident n) f)) y Q.
Proof.
  intros Hn Hl Hf. apply runs_map_err, runs_tdb; [done|]. intros now. unfold ddl. rewrite (role_quoted _ _ Hn).
  destruct (f n y) as [y'|e]; [done|]. by split.
Qed.

(** Creating the schema and migrating it. *)
Lemma install_moves id y0 files y : stays_home files -> Moved id y0 y ->
  runs (storage_install id files) y (fun r y' => Moved id y0 y' /\ (is_ok r = true -> yd_search_path y' = None)).
Proof.
  intros Hhome Hm. unfold storage_install, schema_name. apply runs_bind, runs_lift. destruct (role_name id) as [n|e] eqn:Hn; [|done].
  apply runs_bind, (runs_ddl id); [done..|].
  set (y1 := match yd_schemas y !! n with Some _ => y | None => _ end). cbn iota.
  assert (Hm1 : Moved id y0 y1) by (subst y1; destruct (yd_schemas y !! n); [done|by apply (moved_schema id)]).
  split; [|done]. apply runs_bind, runs_lift. destruct (migrator_new files); [|done].
  apply runs_bind, runs_map_err, runs_tdb; [done|]. intros now0. split; [|done]. cbn [fst snd tselect].
  apply runs_bind, (runs_ddl id); [done..|]. cbn iota. set (y2 := with_search_path (Some n) y1).
  assert (Hm2 : Moved id y0 y2) by (apply (moved_other id y0 y1 (Some n) (yd_pools y1)), Hm1). split; [|done].
  assert (Hreset : forall z (r : result PluginStorageError (result string unit)), Moved id y0 z -> runs
    (st_bind (st_try (storage_db reset_search_path)) (fun reset_result => st_bind (st_lift r) (fun r =>
       st_bind (st_lift (match r with Ok _ => Ok tt | Err e => Err (StorageMigration e) end)) (fun _ =>
       st_bind (st_lift reset_result) (fun _ => st_ret n))))) z
    (fun r y' => Moved id y0 y' /\ (is_ok r = true -> yd_search_path y' = None))).
  { intros z r Hz. assert (Hz' : Moved id y0 (with_search_path None z)) by (apply (moved_other id y0 z None (yd_pools z)), Hz).
    apply runs_bind, runs_try, runs_map_err, runs_tdb; [|intros now; split].
    all: destruct r as [[u|e]|e]; repeat (apply runs_bind, runs_lift); try (apply runs_ret); done. }
  apply runs_bind, runs_try, runs_map_err, runs_tdb; [by apply Hreset|]. intros now. unfold run_migrator. cbn [yd_search_path y2 with_search_path].
  pose proof (moved_migrated id y0 y2 n files Hn Hhome Hm2) as Hm3. destruct (migrate _ _ _) as [r db].
  split; by apply Hreset.
Qed.

Lemma provision_moves id y0 pw : preserves (within (Moved id y0)) (provision_role id pw).
Proof.
  unfold provision_role. destruct (_ || _) eqn:Hpw; [apply preserves_throw|]. apply keeps_given. unfold schema_name. intros n Hn.
  apply preserves_bind; [apply preserves_map_err, keeps_tdb; done|]. intros ex. apply preserves_bind.
  - apply (ddl_moves id); [done|]. intros y y' Hm. destruct (pg_literal _) as [pw'|]; [|done].
    destruct (yd_roles y !! n) as [r|] eqn:Hr, ex; try done; intros [= <-]; apply (moved_role id); try done.
    + intros p s Hin. right. by exists r.
    + intros p s Hin. by apply not_elem_of_nil in Hin.
  - intros _. apply preserves_for. intros f Hf. apply (ddl_moves id); [done|]. by apply role_statements_move.
Qed.

Lemma drop_moves id y0 : preserves (within (Moved id y0)) (drop_role id).
Proof.
  unfold drop_role. apply keeps_given. unfold schema_name. intros n Hn.
  apply preserves_bind; [apply preserves_map_err, keeps_tdb; done|]. intros ex. destruct ex; [|apply preserves_ret]. cbn [negb].
  apply preserves_bind; [apply (ddl_moves id); [done|]; apply (on_role_moves id); [done|]; intros r p s Hin; by apply not_elem_of_nil in Hin|].
  intros _. apply (ddl_moves id); [done|]. intros y y' Hm. destruct (yd_roles y !! n) as [r|]; [|by intros [= <-]].
  case_bool_decide; [|done]. intros [= <-]. destruct Hm as [? ? ? ? ? Hr Hg]. split; try done; cbn.
  - intros k Hk. rewrite lookup_delete_ne by congruence. by apply Hr.
  - intros k r' Hk. rewrite Hn in Hk. injection Hk as <-. by rewrite lookup_delete_eq.
Qed.

Lemma pool_register_moves id id' y0 pw : preserves (within (Moved id' y0)) (pool_register base_url id pw).
Proof.
  unfold pool_register. apply keeps_given. intros url _. destruct (connect_options url); [|apply preserves_throw].
  apply keeps_local. intros y Hy. exact (moved_other id' y0 y (yd_search_path y) _ Hy).
Qed.

Lemma release_moves {E} id y0 : preserves (within (Moved id y0)) (release_database_access (E := E) id).
Proof.
  unfold release_database_access. apply preserves_bind; [apply keeps_local|intros _; apply preserves_bind; [apply preserves_try, drop_moves|intros r; apply preserves_ret]].
  intros y Hy. exact (moved_other id y0 y (yd_search_path y) _ Hy).
Qed.

Lemma storage_moves id y0 files : stays_home files -> preserves (within (Moved id y0)) (provision_storage base_url id files).
Proof.
  intros Hhome. unfold provision_storage. apply preserves_bind; [apply keeps_look|]. intros [p|]; [|apply preserves_ret].
  apply preserves_bind; [apply preserves_map_err, keeps_scratch|]. intros _. apply preserves_bind.
  { apply preserves_for. intros nm _. destruct (plain_filename nm.1); [apply preserves_map_err, keeps_scratch|apply preserves_throw]. }
  intros _. apply preserves_bind.
  { apply preserves_map_err. intros o Ho. by apply (install_moves id y0 files (of_db o) Hhome Ho o). }
  intros n. apply preserves_bind; [apply preserves_map_err, keeps_password|]. intros pw.
  apply preserves_bind; [apply preserves_map_err, provision_moves|]. intros _.
  apply preserves_bind; [apply preserves_map_err, pool_register_moves|]. intros _. apply preserves_ret.
Qed.

(** The statements that follow one another. *)
Fixpoint chain (n : string) (l : list (string -> Yard -> result DbError Yard)) (y : Yard) : result DbError Yard :=
  match l with
  | [] => Ok y
  | f :: l => match f n y with Ok y' => chain n l y' | Err e => Err e end
  end.

Lemma chain_runs id n l y : role_name id = Ok n ->
  runs (st_for l (fun f => storage_db (ddl (quote_ident n) f))) y (fun r y' => r = Ok tt -> chain n l y = Ok y').
Proof.
  intros Hn. revert y. induction l as [|f l IH]; intros y; [by apply runs_ret|]. cbn [st_for chain].
  apply runs_bind, (runs_ddl id); [done..|]. by destruct (f n y) as [y'|e].
Qed.

Lemma on_role_inv g n y y' : on_role g n y = Ok y' ->
  exists r, yd_roles y !! n = Some r /\ yd_roles y' !! n = Some (g r) /\ yd_pools y' = yd_pools y.
Proof. unfold on_role. destruct (yd_roles y !! n) as [r|]; [|done]. intros [= <-]. exists r. split_and!; [done|by apply lookup_insert_eq|done]. Qed.

Definition add_own n p (l : list (Privilege * string)) := if bool_decide ((p, n) ∈ l) then l else (p, n) :: l.

Lemma grant_own_inv p n y y' : grant_own p n y = Ok y' ->
  exists r, yd_roles y !! n = Some r /\ yd_roles y' !! n = Some (regrant (add_own n p) r) /\ yd_pools y' = yd_pools y.
Proof. unfold grant_own. destruct (option_is_none _); [done|]. apply on_role_inv. Qed.

Lemma add_own_in n p l : (p, n) ∈ add_own n p l.
Proof. unfold add_own. case_bool_decide; [done|by left]. Qed.

Lemma add_own_keeps n p l x : x ∈ l -> x ∈ add_own n p l.
Proof. unfold add_own. case_bool_decide; [done|by right]. Qed.

Ltac chain_step Hc lem :=
  match type of Hc with
  | match ?t with Ok _ => _ | Err _ => _ end = _ => let E := fresh in destruct t eqn:E; [|done]; apply lem in E as (? & ? & ? & ?)
  end.

(** The limits, and every privilege on the own schema. *)
Definition provisioned (n : string) (r : PgRole) : Prop :=
  rl_statement_timeout r = Some "2000ms"%string /\ rl_idle_timeout r = Some "5000ms"%string /\ rl_connection_limit r = Some 2 /\
  forall p, (p, n) ∈ rl_grants r.

Lemma chain_provisions n y y' r : n <> "public"%string -> yd_roles y !! n = Some r -> chain n role_statements y = Ok y' ->
  exists r', yd_roles y' !! n = Some r' /\ rl_password r' = rl_password r /\ provisioned n r' /\ yd_pools y' = yd_pools y.
Proof.
  intros Hn Hr Hc. unfold role_statements in Hc. cbn [chain] in Hc.
  do 3 chain_step Hc @on_role_inv. do 5 chain_step Hc @grant_own_inv. unfold revoke_public in Hc. do 2 chain_step Hc @on_role_inv.
  injection Hc as <-. simplify_eq. eexists. split; [done|]. split_and!; [done| |congruence]. split_and!; [done..|].
  intros p. cbn. assert (Hkeep : forall q, negb (bool_decide ((p, n) = (q, "public"%string))) = true).
  { intros q. apply negb_true_iff, bool_decide_eq_false. congruence. }
  rewrite !elem_of_filter_b. split; [apply Hkeep|]. split; [apply Hkeep|].
  destruct p; eauto 8 using add_own_in, add_own_keeps.
Qed.

Lemma provision_result id pw y :
  runs (provision_role id pw) y (fun r y' => r = Ok tt -> exists n role, role_name id = Ok n /\
    yd_roles y' !! n = Some role /\ rl_password role = pw /\ provisioned n role /\ yd_pools y' = yd_pools y).
Proof.
  unfold provision_role. destruct (_ || _) eqn:Hpw; [by apply runs_throw|]. apply runs_bind, runs_lift. unfold schema_name.
  destruct (role_name id) as [n|e] eqn:Hn; [|done]. apply runs_bind, runs_map_err, runs_select; [|done].
  apply runs_bind, (runs_ddl id); [done..|]. rewrite password_read.
  2: { apply orb_false_iff in Hpw as [_ Hpw]. by apply negb_false_iff. }
  assert (Hgo : forall y1 r1, yd_roles y1 !! n = Some r1 -> rl_password r1 = pw -> yd_pools y1 = yd_pools y ->
    runs (st_for role_statements (fun f => storage_db (ddl (quote_ident n) f))) y1 (fun r y' => r = Ok tt -> exists n0 role,
      Ok n = Ok (E := PluginStorageError) n0 /\ yd_roles y' !! n0 = Some role /\ rl_password role = pw /\ provisioned n0 role /\ yd_pools y' = yd_pools y)).
  { intros y1 r1 Hr1 Hp1 Hps. eapply runs_mono; [by apply (chain_runs id)|]. intros r y' Hc Hok.
    destruct (chain_provisions n y1 y' r1) as (r' & ? & ? & ? & ?); [|done|by apply Hc|].
    - apply role_name_inv in Hn as [-> _]. done.
    - exists n, r'. split_and!; congruence. }
  destruct (yd_roles y !! n) as [r0|] eqn:Hr0; cbn [option_is_some option_is_none negb].
  - split; [|done]. eapply Hgo; [apply lookup_insert_eq|done|done].
  - split; [|done]. eapply Hgo; [apply lookup_insert_eq|done|done].
Qed.

Lemma runs_and {E A} (m : St (Office Yard) E A) y Q Q' : runs m y Q -> runs m y Q' -> runs m y (fun r y' => Q r y' /\ Q' r y').
Proof. intros HQ HQ' o Ho. split; [by apply HQ|by apply HQ']. Qed.

Lemma runs_any {E A} (m : St (Office Yard) E A) y (Q : result E A -> Yard -> Prop) : (forall r y', Q r y') -> runs m y Q.
Proof. intros HQ o _. apply HQ. Qed.

Definition roles_confined (y : Yard) : Prop :=
  forall id n r p s, role_name id = Ok n -> yd_roles y !! n = Some r -> (p, s) ∈ rl_grants r -> s = n.

Lemma moved_confined id y y' : Moved id y y' -> roles_confined y -> roles_confined y'.
Proof.
  intros Hm Hc id' n r p s Hn Hr Hin. assert (He : role_name id = Ok n \/ role_name id <> Ok n).
  { destruct (role_name id) as [n'|e]; [|by right]. destruct (decide (n' = n)) as [-> |Hne]; [by left|right; congruence]. }
  destruct He as [He|He].
  - destruct (mv_grants _ _ _ Hm n r He Hr p s Hin) as [-> |(r0 & Hr0 & Hin0)]; [done|]. by apply (Hc id' n r0 p s).
  - rewrite (mv_roles _ _ _ Hm n He) in Hr. by apply (Hc id' n r p s).
Qed.

Lemma pool_result id pw y :
  runs (pool_register base_url id pw) y (fun r y' => r = Ok tt -> exists url, connection_url_for base_url id pw = Ok url /\
    y' = with_pools ((fun p => <[id := url]> p) <$> yd_pools y) y).
Proof.
  unfold pool_register. apply runs_bind, runs_lift. destruct (connection_url_for base_url id pw) as [url|]; [|done].
  destruct (connect_options url); [apply runs_local; by exists url|by apply runs_throw].
Qed.

Lemma install_pools id files : preserves (within (fun z => is_Some (yd_pools z))) (storage_install id files).
Proof.
  unfold storage_install. repeat (first [apply preserves_bind; [|intros ?] | apply preserves_lift | apply preserves_try
    | apply preserves_map_err | apply preserves_ret]); try (apply keeps_tdb; intros now z Hz; unfold create_schema, set_search_path, ddl, run_migrator; by repeat case_match).
Qed.

(** C39. Provisioning gives a plugin its own schema and role.  If its migrations
    keep to the schema the search path names, then whatever fails, no other
    schema or role changes, and if every plugin's role had only grants on the
    schema of its own name, it still has only those.  When provisioning succeeds,
    whatever the migrations did, the pool's connection string names the plugin's
    role with the password the role now has, and the role has its time and
    connection limits and every privilege on its schema. *)
Theorem plugin_storage_confined id files y :
  runs (provision_storage base_url id files) y (fun r y' =>
    (stays_home files ->
      (roles_confined y -> roles_confined y') /\
      forall n, role_name id <> Ok n -> yd_schemas y' !! n = yd_schemas y !! n /\ yd_roles y' !! n = yd_roles y !! n) /\
    forall pw, r = Ok (Some pw) -> exists n role url pools scheme host, role_name id = Ok n /\
      yd_roles y' !! n = Some role /\ rl_password role = pw /\ provisioned n role /\
      yd_pools y' = Some pools /\ pools !! id = Some url /\ read_url url = Some (scheme, n, pw, host)).
Proof.
  apply runs_and.
  { intros o <- Hhome. pose proof (storage_moves id (of_db o) files Hhome o (moved_refl id (of_db o))) as Hm.
    unfold within in Hm. split; [by apply (moved_confined id)|]. intros n Hn.
    split; [by apply (mv_schemas _ _ _ Hm)|by apply (mv_roles _ _ _ Hm)]. }
  unfold provision_storage. apply runs_bind, runs_look. destruct (yd_pools y) as [pools|] eqn:Hp; [|by apply runs_ret].
  assert (Hrest : forall z, is_Some (yd_pools z) -> runs (st_bind (st_map_err (fun _ => 500) generate_role_password) (fun password =>
      st_bind (st_map_err (fun _ => 500) (provision_role id password)) (fun _ =>
      st_bind (st_map_err (fun _ => 500) (pool_register base_url id password)) (fun _ => st_ret (Some password))))) z
    (fun (r : result Z (option string)) y' => forall pw, r = Ok (Some pw) -> exists n role url pools scheme host, role_name id = Ok n /\
      yd_roles y' !! n = Some role /\ rl_password role = pw /\ provisioned n role /\
      yd_pools y' = Some pools /\ pools !! id = Some url /\ read_url url = Some (scheme, n, pw, host))).
  { intros z [zp Hz]. apply runs_bind, runs_map_err. intros o <-. cbn. destruct (random_bytes _) as [bytes|]; [|done].
    apply runs_bind, runs_map_err. eapply runs_mono; [apply provision_result|].
    intros [[]|e] y1; [|done]. intros (n & role & Hn & Hr & Hpw & Hpr & Hps)%(fun f => f eq_refl).
    apply runs_bind, runs_map_err. eapply runs_mono; [apply pool_result|]. intros [[]|e] y2; [|done].
    intros (url & Hu & ->)%(fun f => f eq_refl). apply runs_ret. intros pw [= <-].
    destruct (plugin_url_reads _ _ _ _ Hu) as (scheme & rest & role' & _ & Hr' & Hread). rewrite Hn in Hr'. injection Hr' as <-.
    exists n, role, url, (<[id := url]> zp), scheme. eexists. split_and!; [done..| |by apply lookup_insert_eq|exact Hread].
    cbn. by rewrite Hps, Hz. }
  assert (Hkeep : forall E A (m : St (Office Yard) E A) z (Q : result E A -> Yard -> Prop),
    preserves (within (fun z => is_Some (yd_pools z))) m -> is_Some (yd_pools z) ->
    (forall r z', is_Some (yd_pools z') -> Q r z') -> runs m z Q) by (intros; by eapply runs_of_keeps).
  apply runs_bind, runs_map_err, runs_scratch. intros [[]|[]]; [|done].
  apply runs_bind, Hkeep; [|by rewrite Hp|intros [u|e] z Hz; [|done]].
  { apply preserves_for. intros nm _. destruct (plain_filename nm.1); [apply preserves_map_err, keeps_scratch|apply preserves_throw]. }
  apply runs_bind, runs_map_err, Hkeep; [apply install_pools|done|]. intros [name|e] z' Hz'; [by apply Hrest|done].
Qed.
End Storage.

(** ** Lifecycle *)

Section Life.
Context `{Runtime} `{MailHost} `{PluginCratesLaws}.
Context (base_url : string).

(** A record as an accepted install leaves it. *)
Definition record_ok (row : InstalledPlugin) : Prop :=
  (exists m, parse_manifest (ip_manifest_toml row) = Ok m /\ mf_id m = ip_id row /\ mf_version m = ip_version row /\
    registry_accepts m = true /\ is_ok (check_ui_schema (mf_ui_schema m)) = true) /\
  (ip_enabled row = true -> ip_disabled_reason row = None).

Definition slugs_distinct (t : gmap string InstalledPlugin) : Prop :=
  forall k k' row row' s, t !! k = Some row -> t !! k' = Some row' -> row_slug row = Some s -> row_slug row' = Some s -> k = k'.

Record Sound (y : Yard) : Prop := {
  so_keyed : keyed y;
  so_records k row : yd_plugins y !! k = Some row -> record_ok row;
  so_slugs : slugs_distinct (yd_plugins y);
  so_roles : roles_confined y
}.

Lemma sound_same y y' : yd_plugins y' = yd_plugins y -> roles_confined y' -> Sound y -> Sound y'.
Proof. intros Hp Hr [? ? ? _]. split; [unfold keyed; by rewrite Hp|by rewrite Hp..|done]. Qed.

(** One record replaced. *)
Lemma sound_put y k row : Sound y -> ip_id row = k -> record_ok row ->
  (forall k' row' s, k' <> k -> yd_plugins y !! k' = Some row' -> row_slug row = Some s -> row_slug row' <> Some s) ->
  Sound (with_plugins (<[k := row]> (yd_plugins y)) y).
Proof.
  intros [Hk Hr Hs Hc] Hid Hok Hfree. split; [| | |done].
  - intros k' row'. cbn. rewrite lookup_insert_Some. intros [[<- <-]|[_ Hin]]; [done|by apply Hk].
  - intros k' row'. cbn. rewrite lookup_insert_Some. intros [[<- <-]|[_ Hin]]; [done|by apply (Hr k')].
  - intros k1 k2 r1 r2 s. cbn. rewrite !lookup_insert_Some. intros [[<- <-]|[H1' Hin1]] [[<- <-]|[H2' Hin2]] Hs1 Hs2; [done| | |by apply (Hs k1 k2 r1 r2 s)].
    + by destruct (Hfree k2 r2 s (not_eq_sym H2') Hin2 Hs1).
    + by destruct (Hfree k1 r1 s (not_eq_sym H1') Hin1 Hs2).
Qed.

Lemma sound_enabled id en reason now y : Sound y -> Sound (snd (set_plugin_enabled id en reason now y)).
Proof.
  intros Hy. unfold set_plugin_enabled. destruct (yd_plugins y !! id) as [row|] eqn:Hrow; [|done]. cbn [snd].
  apply sound_put; [done|exact (so_keyed _ Hy _ _ Hrow)| |].
  - destruct (so_records _ Hy _ _ Hrow) as [Hm _]. split; [exact Hm|]. cbn. by destruct en.
  - intros k' row' s Hne Hin Hs Hs'. by apply Hne, (so_slugs _ Hy k' id row' row s).
Qed.

Lemma sound_removed id now y : Sound y -> Sound (snd (remove_installed_plugin id now y)).
Proof.
  intros [Hk Hr Hs Hc]. split; [| | |done].
  - intros k' row'. cbn. rewrite lookup_delete_Some. intros [_ Hin]. by apply Hk.
  - intros k' row'. cbn. rewrite lookup_delete_Some. intros [_ Hin]. by apply (Hr k').
  - intros k1 k2 r1 r2 s. cbn. rewrite !lookup_delete_Some. intros [_ ?] [_ ?]. by apply Hs.
Qed.

(** ** Installing *)

Definition slug_free (m : Manifest) (t : gmap string InstalledPlugin) : Prop :=
  forall s k row, mf_slug m = Some s -> t !! k = Some row -> k <> mf_id m -> row_slug row <> Some s.

Lemma slug_checked m y : keyed y ->
  runs (refuse_a_taken_slug m (mf_id m)) y (fun r y' => y' = y /\ (is_ok r = true -> slug_free m (yd_plugins y))).
Proof.
  intros Hk. unfold refuse_a_taken_slug, slug_free. destruct (mf_slug m) as [slug|]; [|apply runs_ret; split; [done|by intros _ s]].
  apply runs_bind, runs_map_err, runs_select; [|done].
  assert (Hl : forall l, runs (st_for l (fun row => if String.eqb (ip_id row) (mf_id m) then st_ret tt
      else if bool_decide (row_slug row = Some slug) then st_throw 400 else st_ret tt)) y
    (fun r y' => y' = y /\ (is_ok r = true -> forall row, row ∈ l -> ip_id row <> mf_id m -> row_slug row <> Some slug))).
  { induction l as [|row l IH]; [apply runs_ret; split; [done|]; intros _ row Hin; by apply not_elem_of_nil in Hin|].
    cbn [st_for]. apply runs_bind. destruct (String.eqb_spec (ip_id row) (mf_id m)) as [He|He].
    - apply runs_ret. eapply runs_mono; [exact IH|]. intros r y' [-> Hr]. split; [done|]. intros Hok row' [-> |Hin]%elem_of_cons Hne; [done|by apply Hr].
    - case_bool_decide as Hs; [by apply runs_throw|]. apply runs_ret. eapply runs_mono; [exact IH|]. intros r y' [-> Hr].
      split; [done|]. intros Hok row' [-> |Hin]%elem_of_cons Hne; [done|by apply Hr]. }
  eapply runs_mono; [apply Hl|]. intros r y' [-> Hr]. split; [done|]. intros Hok s k row [= <-] Hin Hne.
  pose proof (Hk _ _ Hin) as Hid. apply Hr; [done| |congruence]. apply (proj2 (installed_rows y Hk)). by rewrite Hid.
Qed.

(** What an install that got as far as the record did. *)
Definition Recorded (req : InstallPluginRequest) (y y' : Yard) : Prop :=
  exists m w pw now, parse_manifest (rq_manifest_toml req) = Ok m /\ base64_decode (trim (rq_wasm_base64 req)) = Some w /\
    registry_accepts m = true /\ is_ok (check_ui_schema (mf_ui_schema m)) = true /\ slug_free m (yd_plugins y) /\
    yd_plugins y' = yd_plugins (snd (upsert_installed_plugin
      (mkNewInstalledPlugin (mf_id m) (mf_version m) (rq_manifest_toml req) (artifact_digest w) pw) now y)) /\
    artifact_read_verified (mf_id m) (mf_version m) (artifact_digest w) (yd_disk y') = Ok w.

Lemma event_only {E} id kind v d a y :
  runs (record_event (E := E) id kind v d a) y (fun r y' => r = Ok tt /\ exists evs, y' = with_events evs y).
Proof.
  unfold record_event. apply runs_bind, runs_try, runs_tdb; [|intros now; split]; apply runs_ret; (split; [done|]); [|by eexists..].
  exists (yd_events y). by destruct y.
Qed.

Lemma install_effect admin req y : stays_home (rq_migrations req) -> keyed y ->
  runs (install_plugin base_url admin req) y (fun r y' => yd_host y' = yd_host y /\ (roles_confined y -> roles_confined y') /\
    (yd_plugins y' = yd_plugins y /\ is_ok r = false \/ Recorded req y y')).
Proof.
  intros Hhome Hk. unfold install_plugin. destruct (parse_manifest (rq_manifest_toml req)) as [m|] eqn:Hm; [|apply runs_throw; auto].
  destruct (base64_decode _) as [w|] eqn:Hw; [|apply runs_throw; auto].
  destruct (String.eqb w ""); [apply runs_throw; auto|]. destruct (_ <? _); [apply runs_throw; auto|].
  destruct (registry_accepts m) eqn:Hreg; [|apply runs_throw; auto]. cbn [negb]. apply runs_bind, runs_lift.
  destruct (check_ui_schema _) as [u|e] eqn:Hui; [|auto].
  apply runs_bind. eapply runs_mono; [by apply slug_checked|]. intros [u'|e] y1 [-> Hfree]; [|auto]. specialize (Hfree eq_refl).
  apply runs_bind, runs_map_err, runs_select; [|auto]. apply runs_bind, runs_look, runs_bind, runs_local.
  destruct (artifact_write (mf_id m) (mf_version m) w (yd_disk y)) as [sha d'] eqn:Hwr. cbn [fst snd].
  apply runs_bind, runs_ok_or; [|auto]. intros sha' ->. pose proof (write_digest _ _ _ _ _ _ Hwr) as ->. pose proof (read_written _ _ _ _ _ _ Hwr) as Hrd.
  apply runs_bind. apply (runs_of_keeps _ (Moved (mf_id m) (with_disk d' y))); [by apply storage_moves|apply moved_refl|].
  intros [pw|e] y2 Hmv.
  2: { split; [apply (mv_host _ _ _ Hmv)|]. split; [by apply (moved_confined _ _ _ Hmv)|]. left. split; [apply (mv_plugins _ _ _ Hmv)|done]. }
  assert (Hrec : forall now, Recorded req y (snd (upsert_installed_plugin
      (mkNewInstalledPlugin (mf_id m) (mf_version m) (rq_manifest_toml req) (artifact_digest w) pw) now y2))).
  { intros now. exists m, w, pw, now. rewrite Hm, Hui. split_and!; try done.
    - cbn. by rewrite (mv_plugins _ _ _ Hmv).
    - cbn. rewrite (mv_disk _ _ _ Hmv). exact Hrd. }
  assert (Hroles : roles_confined y -> roles_confined y2) by apply (moved_confined _ _ _ Hmv).
  apply runs_bind, runs_map_err, runs_tdb.
  - split; [apply (mv_host _ _ _ Hmv)|]. split; [done|]. left. split; [apply (mv_plugins _ _ _ Hmv)|done].
  - intros now. split; [|split; [apply (mv_host _ _ _ Hmv)|by split; [|right]]].
    apply runs_bind. eapply runs_mono; [apply event_only|]. intros r y3 [-> (evs & ->)]. apply runs_ret.
    split; [apply (mv_host _ _ _ Hmv)|]. split; [done|]. right. exact (Hrec now).
Qed.

Lemma recorded_sound req y y' : Sound y -> Recorded req y y' -> roles_confined y' -> Sound y'.
Proof.
  intros Hy (m & w & pw & now & Hm & _ & Hreg & Hui & Hfree & Hp & _) Hr.
  apply (sound_same (snd (upsert_installed_plugin
      (mkNewInstalledPlugin (mf_id m) (mf_version m) (rq_manifest_toml req) (artifact_digest w) pw) now y))); [done..|].
  apply sound_put; [done|by destruct (yd_plugins y !! _)|by destruct (yd_plugins y !! _); (split; [exists m|])|].
  intros k' row' s Hne Hin Hs. apply (Hfree s k'); [|done..]. revert Hs. unfold row_slug. cbn [np_id]. destruct (yd_plugins y !! mf_id m); cbn; by rewrite Hm.
Qed.

(** ** Through requests and restarts *)

(** A fresh process: a new host or none, new pools or none. *)
Definition restarted (h : option Host) (p : option (gmap string string)) (y : Yard) : Yard :=
  with_host h (with_pools p (with_search_path None y)).

(** Requests of administrators and restarts.  A plugin's migrations run as the
    host and could change anything: the runs considered are those in which they
    keep to the plugin's schema. *)
Inductive plugin_step : Yard -> Yard -> Prop :=
| step_install admin req o : stays_home (rq_migrations req) ->
    plugin_step (of_db o) (of_db (snd (install_plugin base_url admin req o)))
| step_enable admin id o : plugin_step (of_db o) (of_db (snd (enable_plugin admin id o)))
| step_disable admin id reason o : plugin_step (of_db o) (of_db (snd (disable_plugin admin id reason o)))
| step_uninstall admin id o : plugin_step (of_db o) (of_db (snd (uninstall_plugin admin id o)))
| step_restart y h p o : of_db o = restarted h p y -> plugin_step y (of_db (snd (load_installed_plugins base_url o))).

Lemma keeps_event {E} id kind v d a I : (forall evs y, I y -> I (with_events evs y)) ->
  preserves (within I) (record_event (E := E) id kind v d a).
Proof.
  intros HI. unfold record_event. apply preserves_bind; [|intros r; apply preserves_ret]. apply preserves_try, keeps_tdb. intros now y Hy.
  by apply HI.
Qed.

Lemma sound_with_host y h : Sound y -> Sound (with_host h y).
Proof. intros Hy. apply (sound_same y); [done|apply (so_roles _ Hy)|done]. Qed.

Lemma sound_with_events evs y : Sound y -> Sound (with_events evs y).
Proof. intros Hy. apply (sound_same y); [done|apply (so_roles _ Hy)|done]. Qed.

Lemma enable_keeps admin id : preserves (within Sound) (enable_plugin admin id).
Proof.
  unfold enable_plugin. apply preserves_bind; [apply preserves_lift|]. intros i. apply preserves_bind.
  { apply preserves_map_err, keeps_tdb. intros now y. apply sound_enabled. }
  intros [|]; [|apply preserves_throw]. cbn [negb]. apply preserves_bind; [apply keeps_look|]. intros h. apply preserves_bind.
  { destruct h as [h|]; [|apply preserves_ret]. apply preserves_bind; [apply keeps_local; intros y; apply sound_with_host|]. intros _. apply preserves_ret. }
  intros b. apply preserves_bind; [apply keeps_event, sound_with_events|]. intros _. apply preserves_ret.
Qed.

Lemma disable_keeps admin id reason : preserves (within Sound) (disable_plugin admin id reason).
Proof.
  unfold disable_plugin. apply preserves_bind; [apply preserves_lift|]. intros i. apply preserves_bind.
  { apply preserves_map_err, keeps_tdb. intros now y. apply sound_enabled. }
  intros [|]; [|apply preserves_throw]. cbn [negb]. apply preserves_bind; [apply keeps_look|]. intros h. apply preserves_bind.
  { destruct h as [h|]; [|apply preserves_ret]. apply keeps_local. intros y. apply sound_with_host. }
  intros b. apply preserves_bind; [apply keeps_event, sound_with_events|]. intros _. apply preserves_ret.
Qed.

Lemma uninstall_keeps admin id : preserves (within Sound) (uninstall_plugin admin id).
Proof.
  unfold uninstall_plugin. apply preserves_bind; [apply preserves_lift|]. intros i. apply preserves_bind.
  { apply preserves_map_err, keeps_tdb. done. }
  intros row. apply preserves_bind; [destruct row; [apply preserves_ret|apply preserves_throw]|]. intros r.
  apply preserves_bind; [apply keeps_look|]. intros h. apply preserves_bind.
  { destruct h as [h|]; [|apply preserves_ret]. apply keeps_local. intros y. apply sound_with_host. }
  intros _. apply preserves_bind.
  { intros o Ho. pose proof (release_moves (E := Z) i (of_db o) o (moved_refl i (of_db o))) as Hm. unfold within in *.
    apply (sound_same (of_db o)); [apply (mv_plugins _ _ _ Hm)|apply (moved_confined _ _ _ Hm), (so_roles _ Ho)|done]. }
  intros _. apply preserves_bind; [apply preserves_map_err, keeps_tdb; intros now y; apply sound_removed|]. intros _.
  apply preserves_bind; [apply keeps_look|]. intros rm. apply preserves_bind.
  { apply keeps_local. intros y Hy. apply (sound_same y); [done|apply (so_roles _ Hy)|done]. }
  intros _. apply preserves_bind; [apply keeps_event, sound_with_events|]. intros _. apply preserves_ret.
Qed.

Lemma booted_sound y l y' report : Sound y -> Booted y l y' report -> Sound y'.
Proof.
  intros Hy [(_ & _ & Hro & _) _ _ _ _ Hr _].
  assert (Hold : forall k row', yd_plugins y' !! k = Some row' -> exists row, yd_plugins y !! k = Some row /\
    ip_id row' = ip_id row /\ ip_manifest_toml row' = ip_manifest_toml row /\ record_ok row').
  { intros k row' Hk'. destruct (Hr k) as [Hk|(row & reason & at_ & Hk & Hk2 & _)].
    - rewrite Hk in Hk'. exists row'. split_and!; try done. by apply (so_records _ Hy k).
    - rewrite Hk2 in Hk'. injection Hk' as <-. exists row. split_and!; try done.
      destruct (so_records _ Hy _ _ Hk) as [Hm _]. by split. }
  split.
  - intros k row' Hk'. destruct (Hold _ _ Hk') as (row & Hk & -> & _). by apply (so_keyed _ Hy).
  - intros k row' Hk'. by destruct (Hold _ _ Hk') as (row & Hk & _ & _ & ?).
  - intros k1 k2 r1 r2 s H1' H2'. destruct (Hold _ _ H1') as (w1 & Hw1 & _ & Ht1 & _), (Hold _ _ H2') as (w2 & Hw2 & _ & Ht2 & _).
    unfold row_slug. rewrite Ht1, Ht2. by apply (so_slugs _ Hy k1 k2 w1 w2 s).
  - intros id n r p s. rewrite Hro. apply (so_roles _ Hy).
Qed.

Lemma boot_keeps : preserves (within Sound) (load_installed_plugins base_url).
Proof.
  intros o Ho. pose proof (boot_books base_url _ (so_keyed _ Ho) o eq_refl) as Hb. unfold within.
  destruct (load_installed_plugins base_url o) as [[report|e] o']; cbn in *; [by apply (booted_sound (of_db o) _ _ _ Ho Hb)|by rewrite Hb].
Qed.

(** C38. What is installed stays sound.  Through any requests of administrators
    and restarts, one after the other, with any request lost, if the migrations
    of what is installed change nothing outside the plugin's schema, every install
    record is kept under the id and version its manifest declares, names a
    manifest the host's registry and client accept, gives no reason for being
    off while it is on, and shares its slug with no other; and the database
    role of a plugin holds no grant outside the schema of its own name. *)
Theorem plugin_records_sound y y' : rtc plugin_step y y' -> Sound y -> Sound y'.
Proof.
  induction 1 as [|y y1 y2 Hst _ IH]; [done|]. intros Hy. apply IH. clear IH.
  destruct Hst as [admin req o Hhome|admin id o|admin id reason o|admin id o|y h p o Ho].
  - destruct (install_effect admin req _ Hhome (so_keyed _ Hy) o eq_refl) as (_ & Hr & [[Hp _]|Hrec]).
    + apply (sound_same (of_db o)); [done|apply Hr, (so_roles _ Hy)|done].
    + by apply (recorded_sound req _ _ Hy Hrec), Hr, (so_roles _ Hy).
  - by apply enable_keeps.
  - by apply disable_keeps.
  - by apply uninstall_keeps.
  - apply boot_keeps. unfold within. rewrite Ho. apply (sound_same y); [done|apply (so_roles _ Hy)|done].
Qed.

(** What was accepted is what runs.  When an install whose migrations change
    nothing outside the plugin's schema is answered with success, the next boot that can read the records runs the plugin the
    manifest names from exactly the uploaded bytes, unless the host refuses
    them. *)
Theorem installed_plugin_boots admin req o resp o' o2 h p m w :
  stays_home (rq_migrations req) -> keyed (of_db o) -> install_plugin base_url admin req o = (Ok resp, o') ->
  of_db o2 = restarted (Some h) p (of_db o') ->
  parse_manifest (rq_manifest_toml req) = Ok m -> base64_decode (trim (rq_wasm_base64 req)) = Some w -> host_takes m w ->
  match fst (load_installed_plugins base_url o2) with
  | Err _ => calls (of_ticks o2) <> Answered
  | Ok report => mf_id m ∈ br_loaded report /\ exists row, yd_plugins (of_db o') !! mf_id m = Some row /\
      artifact_read_verified (mf_id m) (ip_version row) (ip_artifact_sha256 row) (yd_disk (of_db o2)) = Ok w
  end.
Proof.
  intros Hhome Hk Hi Ho2 Hm Hw Htk. pose proof (install_effect admin req _ Hhome Hk o eq_refl) as (_ & _ & Hin). rewrite Hi in Hin. cbn [fst snd] in Hin.
  destruct Hin as [[_ ?]|(m' & w' & pw & now & Hm' & Hw' & _ & _ & _ & Hp & Hrd)]; [done|].
  rewrite Hm in Hm'. injection Hm' as <-. rewrite Hw in Hw'. injection Hw' as <-.
  assert (Hrow : exists row, yd_plugins (of_db o') !! mf_id m = Some row /\ ip_id row = mf_id m /\ ip_version row = mf_version m /\
    ip_manifest_toml row = rq_manifest_toml req /\ ip_artifact_sha256 row = artifact_digest w /\ ip_enabled row = true).
  { rewrite Hp. cbn. rewrite lookup_insert_eq. destruct (yd_plugins (of_db o) !! mf_id m); eexists; by split_and!. }
  destruct Hrow as (row & Hrow & Hid & Hv & Ht & Hs & He).
  assert (Hk2 : keyed (of_db o2)).
  { rewrite Ho2. intros k r. cbn. rewrite Hp. cbn. rewrite lookup_insert_Some. intros [[<- <-]|[_ Hr]]; [|by apply Hk].
    by destruct (yd_plugins (of_db o) !! mf_id m). }
  pose proof (boot_books base_url _ Hk2 o2 eq_refl) as Hb. destruct (fst (load_installed_plugins base_url o2)) as [report|e] eqn:Hr.
  - assert (Hrun : runnable (yd_disk (of_db o2)) row m w).
    { rewrite Ho2. unfold runnable. rewrite Ht, Hid, Hv, Hs. by split_and!. }
    split; [|exists row; split; [done|]; destruct Hrun as (_ & _ & _ & <-); by rewrite Hid].
    rewrite <- Hid. apply (bt_takes _ _ _ _ Hb row m w); [|by rewrite Hid; apply (manifest_id_valid _ _ Hm)|done|by rewrite Ho2|done..].
    apply (proj2 (installed_rows _ Hk2)). rewrite Ho2, Hid. exact Hrow.
  - intros Ha. pose proof (boot_answers base_url o2 Hk2 Ha) as Hok. by rewrite Hr in Hok.
Qed.

(** Off means off.  When a disable is answered with success the plugin's
    record is off, the live host does not run it, no other record or running
    plugin is touched, and no later boot runs it while its record stays so. *)
Theorem disabled_plugin_stays_off admin id reason y :
  runs (disable_plugin admin id reason) y (fun r y' => is_ok r = true ->
    (exists row, yd_plugins y' !! id = Some row /\ ip_enabled row = false) /\
    (forall k, k <> id -> yd_plugins y' !! k = yd_plugins y !! k) /\
    (forall h', yd_host y' = Some h' -> (forall s, host_status id h' = Some s -> ps_enabled s = false) /\
       forall k, k <> id -> host_status k h' = (h ← yd_host y; host_status k h)) /\
    forall o report, keyed (of_db o) -> yd_plugins (of_db o) !! id = yd_plugins y' !! id ->
      fst (load_installed_plugins base_url o) = Ok report -> id ∉ br_loaded report).
Proof.
  unfold disable_plugin. apply runs_bind, runs_lift. unfold parse_id. destruct (valid_plugin_id id); [|done].
  apply runs_bind, runs_map_err, runs_tdb; [done|]. intros now. split; [|done]. unfold set_plugin_enabled.
  destruct (yd_plugins y !! id) as [row|] eqn:Hrow; [|by apply runs_throw]. cbn [negb fst snd]. set (why := match reason with Some _ => _ | None => _ end).
  apply runs_bind, runs_look. apply runs_bind.
  assert (Hend : forall y1, yd_plugins y1 = <[id := switched_off row why now]> (yd_plugins y) ->
    (forall h', yd_host y1 = Some h' -> (forall s, host_status id h' = Some s -> ps_enabled s = false) /\
       forall k, k <> id -> host_status k h' = (h ← yd_host y; host_status k h)) ->
    runs (st_bind (record_event id EvDisabled None (Some why) (Some (ui_id admin)))
            (fun _ => st_ret (mkPluginMutationResponse id "disabled" false))) y1
    (fun (r : result Z PluginMutationResponse) y' => is_ok r = true ->
    (exists row, yd_plugins y' !! id = Some row /\ ip_enabled row = false) /\
    (forall k, k <> id -> yd_plugins y' !! k = yd_plugins y !! k) /\
    (forall h', yd_host y' = Some h' -> (forall s, host_status id h' = Some s -> ps_enabled s = false) /\
       forall k, k <> id -> host_status k h' = (h ← yd_host y; host_status k h)) /\
    forall o report, keyed (of_db o) -> yd_plugins (of_db o) !! id = yd_plugins y' !! id ->
      fst (load_installed_plugins base_url o) = Ok report -> id ∉ br_loaded report)).
  { intros y1 Hp Hh. apply runs_bind. eapply runs_mono; [apply event_only|]. intros r y2 [-> (evs & ->)]. apply runs_ret. intros _. cbn. rewrite Hp.
    split_and!; [exists (switched_off row why now); by rewrite lookup_insert_eq|intros k Hk; by rewrite lookup_insert_ne|exact Hh|].
    intros o report Hk Hsame Hload Hin. pose proof (boot_books base_url _ Hk o eq_refl) as Hb. rewrite Hload in Hb.
    destruct (bt_loaded _ _ _ _ Hb id Hin) as (r & m & w & Hr & Hid & He & _). apply (proj2 (installed_rows _ Hk)) in Hr.
    rewrite Hid, Hsame, lookup_insert_eq in Hr. injection Hr as <-. done. }
  destruct (yd_host y) as [h|] eqn:Hho; cbn [yd_host with_plugins]; rewrite Hho.
  - apply runs_local, Hend; [done|]. intros h' [= <-]. pose proof (host_disabled id why h) as Hd. destruct (host_disable id why h) as [held h'].
    destruct Hd as (_ & Hoff & Helse & _). split; [done|]. intros k Hk. by apply Helse.
  - apply runs_ret, Hend; [done|]. cbn. by rewrite Hho.
Qed.
End Life.

(** ** Dispatch *)

Section DispatchFacts.
Context {Page : Type} `{PluginAnswers Page}.

(** Why a filter says no, in words that are the plugin's own or the host's fixed
    sentence. *)
Definition refuses (id : string) (store_id account_id : Uuid) (reason : string) : Prop :=
  match run_filter id FILTER_INVOICE_CREATION store_id account_id with
  | Ran v => wv_allow v = false /\ reason = match wv_reason v with Some r => r | None => UNAVAILABLE end
  | CouldNotRun allowed _ => allowed = false /\ reason = UNAVAILABLE
  end.

Lemma filter_verdict id store_id account_id :
  match plugin_invoice_creation_filter id store_id account_id with
  | Allow => forall reason, ~ refuses id store_id account_id reason
  | Deny reason => refuses id store_id account_id reason
  end.
Proof.
  unfold plugin_invoice_creation_filter, refuses. destruct (run_filter _ _ _ _) as [v|[] r]; [|by intros reason [? _]|done].
  destruct (wv_allow v); [by intros reason [? _]|done].
Qed.

(** Only a filter can refuse an invoice.  Invoice creation is refused
    exactly if some loaded plugin whose manifest declares a filter refuses it,
    by its answer or, when it could not run, by its manifest; a plugin of
    another kind has no say, and the words a merchant is shown are the refusing
    plugin's own or a fixed sentence, never the host's reason a call failed. *)
Theorem only_filters_refuse loaded store_id account_id :
  match run_invoice_creation_filters (invoice_creation_filters loaded) store_id account_id with
  | Allow => forall id reason, id ∈ loaded -> kind_is_filter id = Some true -> ~ refuses id store_id account_id reason
  | Deny reason => exists id, id ∈ loaded /\ kind_is_filter id = Some true /\ refuses id store_id account_id reason
  end.
Proof.
  unfold invoice_creation_filters. induction loaded as [|id loaded IH]; [cbn; intros id reason Hin; by apply not_elem_of_nil in Hin|].
  cbn [List.filter]. destruct (kind_is_filter id) as [[]|] eqn:Hk; cbn iota.
  - rewrite fmap_cons. cbn [run_invoice_creation_filters]. pose proof (filter_verdict id store_id account_id) as Hv.
    destruct (plugin_invoice_creation_filter id store_id account_id) as [|reason].
    + destruct (run_invoice_creation_filters _ _ _) as [|reason].
      * intros id' reason [-> |Hin]%elem_of_cons Hk'; [apply Hv|by apply IH].
      * destruct IH as (id' & Hin & Hx). exists id'. split; [by right|done].
    + exists id. split; [by left|done].
  - destruct (run_invoice_creation_filters _ _ _) as [|reason].
    + intros id' reason [-> |Hin]%elem_of_cons Hk'; [congruence|by apply IH].
    + destruct IH as (id' & Hin & Hx). exists id'. split; [by right|done].
  - destruct (run_invoice_creation_filters _ _ _) as [|reason].
    + intros id' reason [-> |Hin]%elem_of_cons Hk'; [congruence|by apply IH].
    + destruct IH as (id' & Hin & Hx). exists id'. split; [by right|done].
Qed.
End DispatchFacts.
