(* ===== verification/PluginCalls.v ===== *)
(** * What a plugin can ask the host for

    The host calls of [server/src/services/plugins/host_calls/]: statements on
    the plugin's own schema ([sql.rs]), an invoice on the instance's own store
    ([invoicing.rs], [invoice_issuer.rs]), an account's settled volume
    ([volume.rs], [merchant_volume.rs] and the queries of
    [data-service/src/postgres/payment.rs]); telling an account something
    ([account_notice.rs]); and the pull half of payment reporting
    ([payment_observer.rs], [reconcile.rs]).  A storage call is one transaction on
    the plugin's own schema; an invoice is issued on the instance's own store or
    not at all; settled payments are delivered again; and reading many accounts'
    volumes is reading each. *)

From stdpp Require Import gmap strings list sorting.
From Stdlib Require Import ZArith Lia Ascii.
From S2P Require Import Prelude Events Network Decimal Database LiveWatch Services Idempotency ApiKeys Consumer ApiAuth.
From S2P Require Import Derivation Quotes Wallets WalletFacts Invoicing InvoiceFacts InvoiceCreated Office Standing Teams Accounts.
From S2P Require Import Reading ReadingFacts Plugins PluginFacts.

#[local] Open Scope Z_scope.

(** ** Statements on the plugin's own schema *)

Definition MAX_ROWS : Z := 1000.
Definition MAX_RESPONSE_BYTES : Z := 1024 * 1024.
Definition MAX_STATEMENTS : Z := 32.

(** [Statement] *)
Record PluginStatement := mkPluginStatement { pst_sql : string; pst_params : list (option string) }.

(** A column of a row: text, or of a type that is not converted. *)
Inductive Cell := TextCell (value : option string) | OtherCell.

Abbreviation SqlRow := (list (string * Cell)).

(** [StatementResult] *)
Record StatementResult := mkStatementResult { sr_rows_affected : string; sr_rows : list (gmap string (option string)) }.

(** [serde]'s reading and writing, and PostgreSQL's execution of a statement by
    the plugin's role inside its transaction, which by the role's grants reaches
    the tables of its own schema (the migrations of some plugin could have widened
    the grants: [PluginDemo.migration_grants_elsewhere]); a statement that itself
    commits or rolls back, or that changes settings of the session or attributes
    of the role, is outside this reading. *)
Class SqlHost `{PluginCrates} := {
  parse_storage_request : string -> option (list PluginStatement);
  storage_response_text : list StatementResult -> string;
  exec_sql : PluginStatement -> Tables -> option (list SqlRow * Tables)
}.

(** Why a storage call failed. *)
Inductive StorageFault :=
| UnreadableRequest
| NoStatements
| TooManyStatements
| StorageBusy
| NoAccess
| StatementFailed (index : Z)
| TooManyRows
| UnconvertedColumn (index : Z)
| CommitFailed
| AnswerTooLarge.

(** [decode_row] *)
Fixpoint decode_row (row : SqlRow) : option (gmap string (option string)) :=
  match row with
  | [] => Some ∅
  | (name, TextCell v) :: rest => m ← decode_row rest; Some (match m !! name with Some _ => m | None => <[name := v]> m end)
  | (_, OtherCell) :: _ => None
  end.

Section Storage.
Context `{Runtime} `{MailHost} `{SqlHost}.

(** Whether a request on the plugin's connection gets through. *)
Definition connection_ok {E} : St (Office Yard) E bool :=
  fun o => (Ok (match calls (of_ticks o) with Answered => true | _ => false end), of_tick o).

(** [PluginPools::begin]: a permit and a transaction on the role's own schema,
    which its name makes the first of its search path *)
Definition pool_begin (plugin : string) : St (Office Yard) PluginPoolError (string * Tables) :=
  let* pools := look yd_pools in
  match p ← pools; p !! plugin with
  | None => st_throw (NotRegistered plugin)
  | Some _ =>
      let* permit := connection_ok in
      if negb permit then st_throw Busy
      else
        let* up := connection_ok in
        if negb up then st_throw PoolDatabase
        else
          let* schemas := look yd_schemas in
          match role_name plugin with
          | Ok n => match schemas !! n with Some t => st_ret (n, t) | None => st_throw PoolDatabase end
          | Err _ => st_throw PoolDatabase
          end
  end.

(** The loop of [run]: results, rows so far and the transaction's tables. *)
Fixpoint run_statements (index total : Z) (results : list StatementResult) (l : list PluginStatement) (tx : Tables) :
    St (Office Yard) StorageFault (list StatementResult * Tables) :=
  match l with
  | [] => st_ret (results, tx)
  | stmt :: l =>
      let* up := connection_ok in
      if negb up then st_throw (StatementFailed index)
      else
        match exec_sql stmt tx with
        | None => st_throw (StatementFailed index)
        | Some (rows, tx) =>
            let total := total + Z.of_nat (length rows) in
            if MAX_ROWS <? total then st_throw TooManyRows
            else
              match mapM decode_row rows with
              | None => st_throw (UnconvertedColumn index)
              | Some decoded =>
                  run_statements (index + 1) total
                    (results ++ [mkStatementResult (z_to_string (Z.of_nat (length decoded))) decoded]) l tx
              end
        end
  end.

(** [PluginCalls::run] *)
Definition run_storage (plugin : string) (request : list PluginStatement) : St (Office Yard) StorageFault (list StatementResult) :=
  if bool_decide (request = []) then st_throw NoStatements
  else if MAX_STATEMENTS <? Z.of_nat (length request) then st_throw TooManyStatements
  else
    let* (n, tx) := st_map_err (fun e => match e with Busy => StorageBusy | _ => NoAccess end) (pool_begin plugin) in
    let* (results, tx) := run_statements 0 0 [] request tx in
    do* st_map_err (fun _ => CommitFailed) (tdb (twrite (fun y => with_schemas (<[n := tx]> (yd_schemas y)) y)));
    st_ret results.

(** [storage_query_impl] *)
Definition storage_query_impl (plugin request : string) : St (Office Yard) StorageFault string :=
  match parse_storage_request request with
  | None => st_throw UnreadableRequest
  | Some parsed =>
      let* response := run_storage plugin parsed in
      let bytes := storage_response_text response in
      if MAX_RESPONSE_BYTES <? Z.of_nat (String.length bytes) then st_throw AnswerTooLarge else st_ret bytes
  end.
End Storage.

#[export] Instance plugin_statement_eq : EqDecision PluginStatement.
Proof. solve_decision. Defined.

(** ** Issuing an invoice *)

(** [InvoiceIssuerError] *)
Inductive InvoiceIssuerError :=
| ForbiddenStore (requested : Uuid)
| UnsupportedAsset
| NoWallet
| InvalidAmount (message : string)
| IssuerInternal.

(** [InvoiceCreateRequest] *)
Record InvoiceCreateRequest := mkInvoiceCreateRequest {
  ic_store_id : Uuid;
  ic_asset_symbol : string;
  ic_amount : string;
  ic_metadata : option Json;
  ic_customer_email : option string
}.

(** [enforce_own_store] *)
Definition enforce_own_store (own_store_id requested : Uuid) : result InvoiceIssuerError unit :=
  if negb (requested =? own_store_id) then Err (ForbiddenStore requested) else Ok tt.

(** [Iterator::position] *)
Fixpoint position {A} (p : A -> bool) (l : list A) : option (nat * A) :=
  match l with
  | [] => None
  | x :: l => if p x then Some (0%nat, x) else match position p l with Some (i, y) => Some (S i, y) | None => None end
  end.

Section Issuer.
Context {R : Type} `{RustDecimal R} `{!InvoiceHost R}.
Context `{Runtime} `{Numeric} `{Formats} `{HdKeys} `{PolicyNames} `{UuidText}.
Context (evm_monitor : bool).

(** [PluginHostApi::invoice_create] *)
Definition issuer_invoice_create (own_store_id : Uuid) (request : InvoiceCreateRequest) : St Site InvoiceIssuerError InvoiceData :=
  do* st_lift (enforce_own_store own_store_id (ic_store_id request));
  let* payment_methods := st_map_err (fun _ => IssuerInternal) (wdb (get_enabled_payment_methods (ic_store_id request))) in
  let* policy := st_map_err (fun _ => IssuerInternal) (get_token_policy (ic_store_id request)) in
  let payment_methods := match policy with Some p => apply_token_policy_filter payment_methods p | None => payment_methods end in
  match position (fun pm => eq_ignore_ascii_case (spm_asset_symbol pm) (ic_asset_symbol request)) payment_methods with
  | None => st_throw UnsupportedAsset
  | Some (method_idx, pm) =>
      if option_is_none (spm_wallet_id pm) then st_throw NoWallet
      else
        match convert_human_to_smallest_unit (R := R) (ic_amount request) (spm_decimals pm) with
        | Err e => st_throw (InvalidAmount e)
        | Ok crypto_amount =>
            let* now := on_server utc_now in
            let expires_at := now + seconds (u64_as_i64 DEFAULT_INVOICE_EXPIRATION_SECS) in
            let* id := on_server fresh in
            let* created_at := on_server utc_now in
            let invoice := {|
              id_id := new_invoice_id id;
              id_store_id := ic_store_id request;
              id_currency := spm_asset_symbol pm;
              id_status := Pending;
              id_amount := ic_amount request;
              id_amount_received := "0";
              id_created_at := created_at;
              id_expires_at := expires_at;
              id_metadata := ic_metadata request;
              id_customer_email := ic_customer_email request |} in
            let* derived := st_map_err (fun _ => IssuerInternal)
              (derive_payment_options (R := R) invoice payment_methods [(method_idx, crypto_amount, None, None)]) in
            do* st_map_err (fun _ => IssuerInternal) (on_server (create_invoice_with_options invoice (do_option <$> derived)));
            do* on_server (notify_monitor_for evm_monitor invoice derived);
            st_ret invoice
        end
  end.

(** [InvoiceRequest]: a plugin's request names no store. *)
Record PluginInvoiceRequest := mkPluginInvoiceRequest {
  pir_asset_symbol : string;
  pir_amount : string;
  pir_metadata : option Json;
  pir_customer_email : option string
}.

(** [PluginCalls::issue]; [issuer] is the store of the published issuer *)
Definition issue (issuer : option Uuid) (request : PluginInvoiceRequest) : St Site (option InvoiceIssuerError) InvoiceData :=
  match issuer with
  | None => st_throw None
  | Some store_id =>
      st_map_err Some (issuer_invoice_create store_id
        (mkInvoiceCreateRequest store_id (pir_asset_symbol request) (pir_amount request) (pir_metadata request) (pir_customer_email request)))
  end.
End Issuer.

(** ** Telling an account something *)

(** [notice_address] *)
Definition notice_address (email : option string) : result unit string :=
  match trim <$> email with
  | Some e => if String.eqb e "" then Err tt else Ok e
  | None => Err tt
  end.

Section Notices.
Context `{Runtime} `{MailHost}.

(** [PluginAccountNotifier::notify_account] *)
Definition notify_account (account_id : Uuid) (subject body : string) : St (Office TeamDb) unit unit :=
  let* user := st_map_err (fun _ => tt) (tdb (tselect (fun d => td_users d !! account_id))) in
  match user with
  | None => st_throw tt
  | Some user =>
      let* email := st_lift (notice_address (us_email user)) in
      if negb mail_configured then st_throw tt
      else
        let* sent := send_mail (mkMail email subject body) in
        if (sent : bool) then st_ret tt else st_throw tt
  end.
End Notices.

(** ** Reading back what settled *)

Section Settled.
Context `{Runtime} `{Formats} `{Numeric} `{ApiTypes} `{ReadHost}.

(** [sort_by_key(Reverse(settled_at))] *)
Definition newest_first (a b : OwnStorePayment) : Prop := os_settled_at b <= os_settled_at a.
#[local] Instance newest_first_dec : RelDecision newest_first.
Proof. intros a b. unfold newest_first. apply _. Defined.

Definition settled_query (own_store_id : Uuid) (status : InvoiceStatus) (created_since : Instant) (limit : Z) : InvoiceQuery :=
  mkInvoiceQuery (Some own_store_id) None (Some status) None None (Some created_since) None limit 0.

(** [PluginHostApi::settled_since] *)
Definition settled_since (own_store_id : Uuid) (created_since : Instant) (limit : Z) : St Desk DbError (list OwnStorePayment) :=
  let* settled := st_fold (fun settled status =>
    let* (_, page) := query_invoices (settled_query own_store_id status created_since limit) in
    st_ret (settled ++ ((fun invoice => from_invoice invoice (id_created_at invoice)) <$> page))) [] [Paid; LatePaid] in
  st_ret (take (Z.to_nat (Z.max limit 0)) (merge_sort newest_first settled)).

Definition DEFAULT_LOOKBACK : Z := seconds (24 * 60 * 60).
Definition DEFAULT_RECONCILE_LIMIT : Z := 500.

(** [reconcile_once]: how many payments, and the calls of observers in order *)
Definition reconcile_once {E} (own_store_id : Uuid) (observers : list nat) (lookback limit : Z) :
    St Desk E (Z * list (nat * OwnStorePayment)) :=
  if bool_decide (observers = []) then st_ret (0, [])
  else
    let* now := of_now in
    let* r := st_try (settled_since own_store_id (now - lookback) limit) in
    match r with
    | Err _ => st_ret (0, [])
    | Ok settled => st_ret (Z.of_nat (length settled), payment ← settled; (fun o => (o, payment)) <$> observers)
    end.
End Settled.

(** ** Settled volume *)

Definition MAX_WINDOW_DAYS : Z := 366.
Definition MAX_ACCOUNTS_PER_BULK_READ : Z := 500.
Definition BRIDGE_CURRENCY : string := "USD".
Definition DEFAULT_VOLUME_CURRENCY : string := "USD".

(** [PaymentVolumeQuery] *)
Record PaymentVolumeQuery := mkPaymentVolumeQuery { vq_store_ids : list Uuid; vq_since : Instant; vq_until : Instant }.

(** [StorePaymentVolumeBucket]; [PaymentVolumeBucket] has no store. *)
Record StoreBucket := mkStoreBucket {
  sb_store_id : Uuid;
  sb_day : Z;
  sb_asset_symbol : string;
  sb_decimals : Z;
  sb_raw_amount : string;
  sb_payment_count : Z
}.

Record PaymentVolumeBucket := mkPaymentVolumeBucket {
  vb_day : Z;
  vb_asset_symbol : string;
  vb_decimals : Z;
  vb_raw_amount : string;
  vb_payment_count : Z
}.

(** A payment joined with its invoice and option. *)
Record VolumeRow := mkVolumeRow { vr_store : Uuid; vr_day : Z; vr_asset : string; vr_decimals : Z; vr_amount : Z }.

Definition utc_day (t : Instant) : Z := t / days 1.

(** The [FROM] and [WHERE] of both queries. *)
Definition volume_row (q : PaymentVolumeQuery) (d : Db) (p : PaymentRow) : option VolumeRow :=
  i ← db_invoices d !! pay_invoice_id p;
  if one_of (vq_store_ids q) (inv_store_id i) && negb (pay_reorged p) && (vq_since q <=? pay_detected_at p) && (pay_detected_at p <? vq_until q)
  then Some (mkVolumeRow (inv_store_id i) (utc_day (pay_detected_at p)) (pay_asset_symbol p)
    (match o ← pay_payment_option_id p; db_payment_options d !! o with Some o => po_decimals o | None => 18 end) (pay_amount p))
  else None.

Definition volume_rows (q : PaymentVolumeQuery) (d : Db) : list VolumeRow := omap (volume_row q d) (map_to_list (db_payments d)).*2.

(** [SUM] and [COUNT] of a group *)
Definition amounts (l : list VolumeRow) : Z := foldr (fun r acc => vr_amount r + acc) 0 l.

(** [GROUP BY] *)
Definition groups {K} `{EqDecision K} (key : VolumeRow -> K) (l : list VolumeRow) : list (K * list VolumeRow) :=
  (fun k => (k, List.filter (fun r => bool_decide (key r = k)) l)) <$> remove_dups (key <$> l).

(** [u8::try_from] of the decimals *)
Definition decimals_ok (n : Z) : bool := (0 <=? n) && (n <=? 255).

(** [payment_volume_by_day] *)
Definition payment_volume_by_day (q : PaymentVolumeQuery) : ReadStatement (list PaymentVolumeBucket) := fun _ d =>
  if bool_decide (vq_store_ids q = []) then (Ok [], d)
  else
    let buckets := (fun g => let '((day, asset, dec), rows) := g in
      mkPaymentVolumeBucket day asset dec (z_to_string (amounts rows)) (Z.of_nat (length rows))) <$>
      groups (fun r => (vr_day r, vr_asset r, vr_decimals r)) (volume_rows q (rb_db d)) in
    (if forallb (fun b => decimals_ok (vb_decimals b)) buckets then Ok buckets else Err ConstraintViolation, d).

(** [payment_volume_by_day_per_store] *)
Definition payment_volume_by_day_per_store (q : PaymentVolumeQuery) : ReadStatement (list StoreBucket) := fun _ d =>
  if bool_decide (vq_store_ids q = []) then (Ok [], d)
  else
    let buckets := (fun g => let '((store, day, asset, dec), rows) := g in
      mkStoreBucket store day asset dec (z_to_string (amounts rows)) (Z.of_nat (length rows))) <$>
      groups (fun r => (vr_store r, vr_day r, vr_asset r, vr_decimals r)) (volume_rows q (rb_db d)) in
    (if forallb (fun b => decimals_ok (sb_decimals b)) buckets then Ok buckets else Err ConstraintViolation, d).

(** More of [rust_decimal]: [checked_add] (whose [None] is where [+=] panics),
    [checked_div], [set_scale], [trunc_with_scale]; and the rate provider, asked
    at the given request. *)
Class VolumeHost (R : Type) := {
  rd_checked_add : R -> R -> option R;
  rd_checked_div : R -> R -> option R;
  rd_set_scale : Z -> R -> option R;
  rd_trunc_with_scale : Z -> R -> R;
  provider_rate : nat -> string -> string -> option R
}.

(** Whole numbers: read when they fit 96 bits, and added exactly then. *)
Class VolumeLaws (R : Type) `{RustDecimal R} `{!VolumeHost R} := {
  parse_whole z : 0 <= z -> rd_parse (z_to_string z) = if z <? 2 ^ 96 then Some (rd_of_Z z) else None;
  add_whole a b : 0 <= a -> 0 <= b -> rd_checked_add (rd_of_Z a) (rd_of_Z b) = if a + b <? 2 ^ 96 then Some (rd_of_Z (a + b)) else None
}.

(** [MerchantVolume] *)
Record MerchantVolume := mkMerchantVolume { mv_volume : string; mv_currency : string; mv_unpriced_assets : list string }.

(** Why a volume could not be told; [VolumePanic] is an addition that did not
    fit. *)
Inductive VolumeFault := VolumeUnread | TooManyAccounts | VolumePanic.

Definition asset_leb (a b : string * Z) : Prop :=
  match String.compare a.1 b.1 with Lt => True | Eq => a.2 <= b.2 | Gt => False end.
(** The orders of [BTreeMap] and [BTreeSet]. *)
Definition by_asset {A} (a b : (string * Z) * A) : Prop := asset_leb a.1 b.1.
Definition by_text (a b : string) : Prop := String.leb a b = true.
Definition by_account {A} (a b : Z * A) : Prop := a.1 <= b.1.
#[export] Instance by_asset_dec {A} : RelDecision (@by_asset A).
Proof. intros a b. unfold by_asset, asset_leb. destruct (String.compare a.1.1 b.1.1); apply _. Defined.
#[export] Instance by_text_dec : RelDecision by_text.
Proof. intros a b. unfold by_text. apply _. Defined.
#[export] Instance by_account_dec {A} : RelDecision (@by_account A).
Proof. intros a b. unfold by_account. apply _. Defined.

Section Volume.
Context {R : Type} `{RustDecimal R} `{!VolumeHost R} `{Runtime} `{MailHost}.

Abbreviation Gauge A := (St (Office ReadDb) VolumeFault A).

(** [collapse_by_asset] *)
Definition collapse_bucket (acc : option (gmap (string * Z) R)) (b : PaymentVolumeBucket) : option (gmap (string * Z) R) :=
  per_asset ← acc;
  match rd_parse (vb_raw_amount b) with
  | None => Some per_asset
  | Some raw =>
      let k := (vb_asset_symbol b, vb_decimals b) in
      sum ← rd_checked_add (default (rd_of_Z 0) (per_asset !! k)) raw;
      Some (<[k := sum]> per_asset)
  end.

Definition collapse_by_asset (buckets : list PaymentVolumeBucket) : option (gmap (string * Z) R) :=
  foldl collapse_bucket (Some ∅) buckets.

(** [scale] *)
Definition scale (raw : R) (decimals : Z) : option R := rd_set_scale (decimals + rd_scale raw) raw.

(** [x > Decimal::ZERO], [is_zero] *)
Definition positive (r : R) : bool := negb (rd_leb r (rd_of_Z 0)).
Definition is_zero (r : R) : bool := rd_leb r (rd_of_Z 0) && rd_leb (rd_of_Z 0) r.

(** The loop of [total_in]. *)
Definition total_step (currency : string) (rates : gmap string R) (acc : option (R * list string)) (e : (string * Z) * R) :
    option (R * list string) :=
  '(total, unpriced) ← acc;
  let '((asset, decimals), raw) := e in
  match scale raw decimals with
  | None => Some (total, asset :: unpriced)
  | Some amount =>
      if is_zero amount then Some (total, unpriced)
      else if eq_ignore_ascii_case asset currency then t ← rd_checked_add total amount; Some (t, unpriced)
      else
        match rates !! asset with
        | Some rate =>
            if positive rate then
              match rd_checked_div amount rate with
              | Some quoted => t ← rd_checked_add total quoted; Some (t, unpriced)
              | None => Some (total, asset :: unpriced)
              end
            else Some (total, asset :: unpriced)
        | None => Some (total, asset :: unpriced)
        end
  end.

(** [total_in], over the map in its order *)
Definition total_in (per_asset : gmap (string * Z) R) (currency : string) (rates : gmap string R) : option (R * list string) :=
  '(total, unpriced) ← foldl (total_step currency rates) (Some (rd_of_Z 0, []))
    (merge_sort by_asset (map_to_list per_asset));
  Some (total, merge_sort by_text (remove_dups unpriced)).

(** [reportable] *)
Definition reportable (total : R) : R := rd_normalize (rd_trunc_with_scale 2 total).

(** [bridged_rate] *)
Definition bridged_rate (to_asset to_currency : R) : option R :=
  if negb (positive to_currency) then None else rd_checked_div to_asset to_currency.

(** One question to the provider. *)
Definition ask_rate (from to : string) : Gauge (option R) := fun o => (Ok (provider_rate (of_ticks o) from to), of_tick o).

(** [positive_rate] *)
Definition positive_rate (from to : string) : Gauge (option R) :=
  let* r := ask_rate from to in
  st_ret (match r with Some rate => if positive rate then Some rate else None | None => None end).

(** One asset of [rates_for], with the bridge's own rate once it was asked. *)
Definition rate_step (currency : string) (acc : gmap string R * option (option R)) (asset : string) :
    Gauge (gmap string R * option (option R)) :=
  let '(rates, bridge) := acc in
  match rates !! asset with
  | Some _ => st_ret acc
  | None =>
      let* direct := positive_rate currency asset in
      match direct with
      | Some rate => st_ret (<[asset := rate]> rates, bridge)
      | None =>
          let* to_currency := match bridge with
            | Some cached => st_ret cached
            | None => positive_rate BRIDGE_CURRENCY currency end in
          let* to_asset := positive_rate BRIDGE_CURRENCY asset in
          st_ret (match to_currency, to_asset with
                  | Some c, Some a => match bridged_rate a c with Some rate => <[asset := rate]> rates | None => rates end
                  | _, _ => rates end, Some to_currency)
      end
  end.

(** [rates_for] *)
Definition rates_for (assets : list string) (currency : string) : Gauge (gmap string R) :=
  let* acc := st_fold (rate_step currency) (∅, None) assets in
  st_ret acc.1.

(** The figure of one account. *)
Definition volume_of (per_asset : gmap (string * Z) R) (currency : string) (rates : gmap string R) : Gauge MerchantVolume :=
  match total_in per_asset currency rates with
  | None => st_throw VolumePanic
  | Some (total, unpriced) => st_ret (mkMerchantVolume (rd_to_string (reportable total)) currency unpriced)
  end.

Definition window_start (until : Instant) (window_days : Z) : Instant :=
  until - days (Z.max 1 (Z.min window_days MAX_WINDOW_DAYS)).

Definition collapsed (buckets : list PaymentVolumeBucket) : Gauge (gmap (string * Z) R) :=
  match collapse_by_asset buckets with Some m => st_ret m | None => st_throw VolumePanic end.

Definition stores_of (account_id : Uuid) : ReadStatement (list Uuid) :=
  fun now d => let '(r, _) := get_stores_owned_by account_id now (rb_team d) in
    (match r with Ok l => Ok (str_id <$> l) | Err e => Err e end, d).

Definition volume_db {A} (stmt : ReadStatement A) : Gauge A := st_map_err (fun _ => VolumeUnread) (tdb stmt).

Definition foreign_assets (currency : string) (assets : list string) : list string :=
  List.filter (fun a => negb (eq_ignore_ascii_case a currency)) assets.

Definition keys_of (per_asset : gmap (string * Z) R) : list string :=
  (fun e => e.1.1) <$> merge_sort by_asset (map_to_list per_asset).

(** [merchant_volume] *)
Definition merchant_volume (account_id : Uuid) (window_days : Z) (currency : string) : Gauge MerchantVolume :=
  let* until := of_now in
  let since := window_start until window_days in
  let* stores := volume_db (stores_of account_id) in
  if bool_decide (stores = []) then st_ret (mkMerchantVolume "0" currency [])
  else
    let* buckets := volume_db (payment_volume_by_day (mkPaymentVolumeQuery stores since until)) in
    let* per_asset := collapsed buckets in
    let* rates := rates_for (foreign_assets currency (keys_of per_asset)) currency in
    volume_of per_asset currency rates.

(** [buckets_by_account]: the account of every store, then the buckets *)
Definition store_owners (account_ids : list Uuid) : Gauge (gmap Z Uuid) :=
  st_fold (fun owners account_id =>
    let* stores := volume_db (stores_of account_id) in
    st_ret (foldl (fun m s => <[s := account_id]> m) owners stores)) ∅ account_ids.

Definition without_store (b : StoreBucket) : PaymentVolumeBucket :=
  mkPaymentVolumeBucket (sb_day b) (sb_asset_symbol b) (sb_decimals b) (sb_raw_amount b) (sb_payment_count b).

Definition place_bucket (owners : gmap Z Uuid) (m : gmap Z (list PaymentVolumeBucket)) (b : StoreBucket) :
    gmap Z (list PaymentVolumeBucket) :=
  match owners !! sb_store_id b with
  | Some account_id => <[account_id := default [] (m !! account_id) ++ [without_store b]]> m
  | None => m
  end.

Definition buckets_by_account (account_ids : list Uuid) (since until : Instant) : Gauge (gmap Z (list PaymentVolumeBucket)) :=
  let per_account := list_to_map ((fun a => (a, [])) <$> account_ids) in
  let* owners := store_owners account_ids in
  if bool_decide (owners = ∅) then st_ret per_account
  else
    let* buckets := volume_db (payment_volume_by_day_per_store (mkPaymentVolumeQuery (map_to_list owners).*1 since until)) in
    st_ret (foldl (place_bucket owners) per_account buckets).

(** [merchant_volumes]; the answer in the order of account ids *)
Definition merchant_volumes (account_ids : list Uuid) (window_days : Z) (currency : string) : Gauge (list (Uuid * MerchantVolume)) :=
  if MAX_ACCOUNTS_PER_BULK_READ <? Z.of_nat (length account_ids) then st_throw TooManyAccounts
  else
    let* until := of_now in
    let since := window_start until window_days in
    let* per_account := buckets_by_account account_ids since until in
    let accounts := merge_sort by_account (map_to_list per_account) in
    let* per_account_assets := st_fold (fun acc e => let* m := collapsed e.2 in st_ret (acc ++ [(e.1, m)])) [] accounts in
    let assets := merge_sort by_text (remove_dups (per_account_assets ≫= (fun e => keys_of e.2))) in
    let* rates := rates_for (foreign_assets currency assets) currency in
    st_fold (fun acc e => let* v := volume_of e.2 currency rates in st_ret (acc ++ [(e.1, v)])) [] per_account_assets.

(** [read_volume], [read_volumes]: the request as a plugin sends it *)
Definition volume_currency (currency : string) : string :=
  if String.eqb (trim currency) "" then DEFAULT_VOLUME_CURRENCY else trim currency.

Definition read_volume (published : bool) (parse_uuid_text : string -> option Uuid) (account_id : string) (window_days : Z) (currency : string) :
    Gauge MerchantVolume :=
  if negb published then st_throw VolumeUnread
  else
    match parse_uuid_text account_id with
    | None => st_throw VolumeUnread
    | Some id => merchant_volume id window_days (volume_currency currency)
    end.

Definition read_volumes (published : bool) (parse_uuid_text : string -> option Uuid) (account_ids : list string) (window_days : Z)
    (currency : string) : Gauge (list (Uuid * MerchantVolume)) :=
  if negb published then st_throw VolumeUnread
  else
    match mapM parse_uuid_text account_ids with
    | None => st_throw VolumeUnread
    | Some ids => merchant_volumes ids window_days (volume_currency currency)
    end.
End Volume.

(** * What plugins can do through the host *)

(** ** Storage calls *)

Section StorageFacts.
Context `{Runtime} `{MailHost} `{SqlHost}.

(** The statements one after the other, as PostgreSQL runs them. *)
Fixpoint run_all (l : list PluginStatement) (t : Tables) : option (list (list SqlRow) * Tables) :=
  match l with
  | [] => Some ([], t)
  | stmt :: l => '(rows, t) ← exec_sql stmt t; '(rest, t) ← run_all l t; Some (rows :: rest, t)
  end.

Definition row_count (answers : list (list SqlRow)) : Z := Z.of_nat (length (mjoin answers)).

Lemma row_count_cons rows more : row_count (rows :: more) = Z.of_nat (length rows) + row_count more.
Proof. unfold row_count. rewrite <- Nat2Z.inj_add, <- length_app. done. Qed.

Definition result_of (decoded : list (gmap string (option string))) : StatementResult :=
  mkStatementResult (z_to_string (Z.of_nat (length decoded))) decoded.

Lemma runs_connection {E} y (Q : result E bool -> _) : (forall b, Q (Ok b) y) -> runs connection_ok y Q.
Proof. intros HQ o <-. apply HQ. Qed.

Lemma statements_run l : forall index total results tx y, total <= MAX_ROWS ->
  runs (run_statements index total results l tx) y (fun r y' => y' = y /\ forall res tx', r = Ok (res, tx') ->
    exists rows decoded, run_all l tx = Some (rows, tx') /\ total + row_count rows <= MAX_ROWS /\
      mapM (mapM decode_row) rows = Some decoded /\ res = results ++ (result_of <$> decoded)).
Proof.
  induction l as [|stmt l IH]; intros index total results tx y Ht; cbn [run_statements].
  - apply runs_ret. split; [done|]. intros res tx' [= <- <-]. exists [], []. split_and!; [done|by change (row_count []) with 0; lia|done|by cbn; rewrite app_nil_r].
  - apply runs_bind, runs_connection. intros [|]; cbn [negb]; [|by apply runs_throw].
    destruct (exec_sql stmt tx) as [[rows tx1]|] eqn:He; [|by apply runs_throw].
    destruct (MAX_ROWS <? total + Z.of_nat (length rows)) eqn:Hm; [by apply runs_throw|]. apply Z.ltb_ge in Hm.
    destruct (mapM decode_row rows) as [dec|] eqn:Hd; [|by apply runs_throw].
    eapply runs_mono; [by apply IH|]. intros r y' [-> Hr]. split; [done|]. intros res tx' Hok.
    destruct (Hr res tx' Hok) as (more & decoded & Hrun & Hc & Hdec & ->). exists (rows :: more), (dec :: decoded).
    split_and!.
    + cbn. rewrite He. cbn. by rewrite Hrun.
    + rewrite row_count_cons. lia.
    + cbn. rewrite Hd. cbn. by rewrite Hdec.
    + by rewrite <- app_assoc.
Qed.

(** The whole call was carried out. *)
Definition carried_out (plugin request : string) (y y' : Yard) (rows : list (list SqlRow)) : Prop :=
  exists n stmts t t', role_name plugin = Ok n /\ parse_storage_request request = Some stmts /\ yd_schemas y !! n = Some t /\
    1 <= Z.of_nat (length stmts) <= MAX_STATEMENTS /\ run_all stmts t = Some (rows, t') /\ row_count rows <= MAX_ROWS /\
    y' = with_schemas (<[n := t']> (yd_schemas y)) y.

#[local] Ltac nothing_done := split; [by left|done].

(** C40. A plugin's storage call, of statements that do not themselves end the
    transaction, is one transaction on its own schema.  Whatever fails, the call changed nothing at all, or every one of its at most 32
    statements was carried out in order, on the schema of the plugin's own name
    and nothing else; an answer holds every row they returned, at most a
    thousand, each column the exact text, in at most a mebibyte. *)
Theorem storage_call_atomic plugin request y :
  runs (storage_query_impl plugin request) y (fun r y' =>
    (y' = y \/ exists rows, carried_out plugin request y y' rows) /\
    forall bytes, r = Ok bytes -> exists rows decoded, carried_out plugin request y y' rows /\
      mapM (mapM decode_row) rows = Some decoded /\ bytes = storage_response_text (result_of <$> decoded) /\
      Z.of_nat (String.length bytes) <= MAX_RESPONSE_BYTES).
Proof.
  unfold storage_query_impl. destruct (parse_storage_request request) as [stmts|] eqn:Hp; [|apply runs_throw; nothing_done].
  apply runs_bind. unfold run_storage. case_bool_decide as Hne; [apply runs_throw; nothing_done|].
  destruct (MAX_STATEMENTS <? Z.of_nat (length stmts)) eqn:Hmax; [apply runs_throw; nothing_done|]. apply Z.ltb_ge in Hmax.
  apply runs_bind, runs_map_err. unfold pool_begin. apply runs_bind, runs_look.
  destruct (p ← yd_pools y; p !! plugin) as [url|]; [|apply runs_throw; nothing_done].
  apply runs_bind, runs_connection. intros [|]; cbn [negb]; [|apply runs_throw; nothing_done].
  apply runs_bind, runs_connection. intros [|]; cbn [negb]; [|apply runs_throw; nothing_done].
  apply runs_bind, runs_look. destruct (role_name plugin) as [n|] eqn:Hn; [|apply runs_throw; nothing_done].
  destruct (yd_schemas y !! n) as [t|] eqn:Ht; [|apply runs_throw; nothing_done]. apply runs_ret.
  apply runs_bind. eapply runs_mono; [apply (statements_run stmts 0 0 [] t y); done|].
  intros [[res tx']|e] y1 [-> Hr]; [|by nothing_done]. destruct (Hr res tx' eq_refl) as (rows & decoded & Hrun & Hc & Hdec & ->). cbn [app] in *.
  assert (Hdone : carried_out plugin request y (with_schemas (<[n := tx']> (yd_schemas y)) y) rows).
  { exists n, stmts, t, tx'. split_and!; try done. destruct stmts; [done|cbn; lia]. }
  apply runs_bind, runs_map_err, runs_tdb; [by nothing_done|]. intros now. split; [|split; [right; by exists rows|done]].
  apply runs_ret. cbv zeta. destruct (_ <? _) eqn:Hb.
  - apply runs_throw. split; [right; by exists rows|done].
  - apply Z.ltb_ge in Hb. apply runs_ret. split; [right; by exists rows|]. intros bytes [= <-]. by exists rows, decoded.
Qed.
End StorageFacts.

(** ** Issuing an invoice *)

Section IssuerFacts.
Context {R : Type} `{RustDecimal R} `{!InvoiceHost R}.
Context `{Runtime} `{Numeric} `{Formats} `{HdKeys} `{PolicyNames} `{UuidText}.
Context (evm_monitor : bool).

Lemma position_lookup {A} (p : A -> bool) l i x : position p l = Some (i, x) -> l !! i = Some x /\ p x = true.
Proof.
  revert i. induction l as [|y l IH]; intros i; [done|]. cbn. destruct (p y) eqn:Hp; [by intros [= <- <-]|].
  destruct (position p l) as [[j z]|]; [|done]. intros [= <- <-]. by apply IH.
Qed.

(** An option of the invoice's own method. *)
Lemma one_method_NoDup (v : ValidatedMethod) : NoDup (v_idx <$> [v]).
Proof. apply NoDup_singleton. Qed.

Lemma methods_read_triple {E} (g : RepositoryError -> E) store d wd F :
  methods_unique wd -> (forall s, tables s = (d, wd) -> F s) ->
  triple (fun s => tables s = (d, wd)) (st_map_err g (wdb (get_enabled_payment_methods store)))
    (fun pms s => tables s = (d, wd) /\ NoDup (spm_key <$> pms)) F.
Proof.
  intros Hu HF. apply triple_map_err. intros s Hs. injection Hs as Hd Hw. unfold wdb.
  destruct (calls _); cbn; [|by apply HF; unfold tables; rewrite <- Hd, <- Hw..].
  split; [by unfold tables; cbn; rewrite Hd, Hw|].
  apply (enabled_methods_distinct store (clock (sv_ticks (st_server s))) (st_wallets s) _ (st_wallets s)); [by rewrite Hw|done].
Qed.

Lemma policy_triple {E} (g : RepositoryError -> E) store d wd (N : Prop) F :
  (forall s, tables s = (d, wd) -> F s) ->
  triple (fun s => tables s = (d, wd) /\ N) (st_map_err g (get_token_policy store)) (fun _ s => tables s = (d, wd) /\ N) F.
Proof.
  intros HF. apply triple_map_err, triple_preserves; [|by intros s [Hs _]; apply HF].
  intros s [Hs Hn]. pose proof (get_token_policy_read_only store (d, wd) s Hs) as Ht. by destruct (get_token_policy store s).
Qed.

(** Nothing, or one invoice of the store. *)
Definition own_or_nothing (own : Uuid) (d : Db) (s : Site) : Prop :=
  sv_db (st_server s) = d \/ exists invoice, id_store_id invoice = own /\ this_or_nothing invoice d s.

Lemma issue_triple request d wd :
  methods_unique wd ->
  triple (fun s => tables s = (d, wd)) (issuer_invoice_create (R := R) evm_monitor (ic_store_id request) request)
    (fun invoice s => id_store_id invoice = ic_store_id request /\ exists options, created_ok d (wd_issued wd) invoice options s)
    (own_or_nothing (ic_store_id request) d).
Proof.
  intros Hu. assert (HF : forall s, tables s = (d, wd) -> own_or_nothing (ic_store_id request) d s) by (intros s [= Hd _]; by left).
  unfold issuer_invoice_create, enforce_own_store. rewrite Z.eqb_refl. cbn [negb st_lift].
  apply (triple_bind _ _ _ (fun _ s => tables s = (d, wd))); [by intros s Hs|]. intros _.
  eapply triple_bind; [by apply methods_read_triple|]. intros all.
  eapply triple_bind; [by apply policy_triple|]. intros policy. cbv zeta.
  set (kept := match policy with Some p => _ | None => all end).
  assert (Hkept : NoDup (spm_key <$> all) -> NoDup (spm_key <$> kept)) by (unfold kept; destruct policy; [apply filter_NoDup_fmap|done]).
  clearbody kept. destruct (position _ kept) as [[idx pm]|]; [|by apply triple_throw; intros s [Hs _]; apply HF].
  destruct (option_is_none _); [by apply triple_throw; intros s [Hs _]; apply HF|].
  destruct (convert_human_to_smallest_unit _ _) as [amount|e]; [|by apply triple_throw; intros s [Hs _]; apply HF].
  set (I0 := fun s => tables s = (d, wd) /\ NoDup (spm_key <$> all)).
  apply (triple_bind _ _ _ (fun _ => I0)); [by intros s Hs|]. intros now. apply (triple_bind _ _ _ (fun _ => I0)); [by intros s Hs|]. intros id.
  apply (triple_bind _ _ _ (fun _ => I0)); [by intros s Hs|]. intros at_. cbv beta. set (invoice := {| id_id := _ |}).
  intros s [[= Hd Hw] Hn]. revert s Hd Hw. set (vs := [(idx, amount, None, None)] : list ValidatedMethod).
  enough (Ht : triple (before d (wd_issued wd)) (st_bind (st_map_err (fun _ => IssuerInternal) (derive_payment_options (R := R) invoice kept vs))
    (fun derived => do* st_map_err (fun _ => IssuerInternal) (on_server (create_invoice_with_options invoice (do_option <$> derived)));
      do* on_server (notify_monitor_for evm_monitor invoice derived); st_ret invoice))
    (fun invoice s => id_store_id invoice = ic_store_id request /\ exists options, created_ok d (wd_issued wd) invoice options s)
    (this_or_nothing invoice d)).
  { intros s Hd Hw. assert (Hb : before d (wd_issued wd) s) by (split; [done|by rewrite Hw]). specialize (Ht s Hb). cbv zeta.
    destruct (st_bind _ _ s) as [[x|e] s']; [exact Ht|]. right. by exists invoice. }
  eapply triple_bind; [apply derive_part|]. intros derived.
  eapply triple_bind; [apply record_part; [done|by apply Hkept|apply one_method_NoDup|done]|]. intros u.
  eapply triple_bind; [apply announce_part; [done|by apply Hkept|apply one_method_NoDup|done]|]. intros u2.
  apply triple_ret. intros s Hs. split; [done|]. by eexists.
Qed.

(** A plugin invoices the instance's own store only.  Asked for another
    store, the issuer refuses and does nothing; and whatever a plugin asks and
    whatever fails, the reply to the commit too, the database is as it was or
    all of one pending invoice of the instance's own store is on file, with an
    active watch for its address; an answer is the invoice written. *)
Theorem plugin_issues_on_own_store own request s r s' :
  methods_unique (st_wallets s) -> issuer_invoice_create (R := R) evm_monitor own request s = (r, s') ->
  (ic_store_id request <> own -> r = Err (ForbiddenStore (ic_store_id request)) /\ s' = s) /\
  match r with
  | Ok invoice => id_store_id invoice = own /\ exists options, whole invoice options (sv_db (st_server s)) (sv_db (st_server s'))
  | Err _ => sv_db (st_server s') = sv_db (st_server s) \/ exists invoice options, id_store_id invoice = own /\
      whole invoice options (sv_db (st_server s)) (sv_db (st_server s'))
  end.
Proof.
  intros Hu Hr. destruct (decide (ic_store_id request = own)) as [<-|Hne].
  - split; [done|]. pose proof (issue_triple request (sv_db (st_server s)) (st_wallets s) Hu s eq_refl) as Ht. rewrite Hr in Ht.
    destruct r as [invoice|e].
    + destruct Ht as (Hst & options & d1 & derived & allocs & _ & Hcom & Hfl & _ & _ & Hwr). split; [done|]. exists options.
      by eapply whole_committed.
    + destruct Ht as [Hd|(invoice & Hst & [Hd|(options & Hwr & Hcom)])]; [by left..|]. right. exists invoice, options.
      split; [done|]. eapply whole_committed; [done..|apply flags_refl].
  - unfold issuer_invoice_create, enforce_own_store in Hr. rewrite (proj2 (Z.eqb_neq _ _) Hne) in Hr. injection Hr as <- <-.
    split; [done|]. by left.
Qed.
End IssuerFacts.
