(* ===== verification/PluginDemo.v ===== *)
(** * Plugins on a concrete server

    A plugin directory, host and database small enough to run: the plugin
    theorems at work, and what the install, uninstall and storage routes do
    when a step in their middle fails. *)

From stdpp Require Import gmap strings list relations.
From Stdlib Require Import ZArith QArith Lia Ascii.
From S2P Require Import Prelude Events Network Decimal LiveWatch Database Services ConsumerDemo ProcessDemo ApiKeys Consumer ApiAuth.
From S2P Require Import Derivation Quotes Wallets WalletFacts Invoicing InvoiceFacts InvoiceCreated InvoiceDemo Office Standing Teams.
From S2P Require Import Idempotency Reading OfficeDemo Plugins PluginFacts PluginCalls.

#[local] Open Scope Z_scope.
#[local] Existing Instances demo_up demo_columns demo_host.

(** ** The crates *)

Record ToyManifest := mkToyManifest { tm_id : string; tm_version : string; tm_slug : option string }.

(** Four manifests: two versions of one plugin, and two plugins of one slug. *)
Definition toy_manifests : list (string * ToyManifest) :=
  [("tips 1", mkToyManifest "cash.tips" "1" (Some "tips")); ("tips 2", mkToyManifest "cash.tips" "2" (Some "tips"));
   ("jar 1", mkToyManifest "cash.jar" "1" (Some "tips")); ("log 1", mkToyManifest "cash.log" "1" None)]%string.

Definition toy_parse (text : string) : result string ToyManifest :=
  match list_to_map (M := gmap string ToyManifest) toy_manifests !! text with Some m => Ok m | None => Err "unknown"%string end.

Definition id_char (a : ascii) : bool :=
  let n := nat_of_ascii a in
  (((48 <=? n) && (n <=? 57)) || ((65 <=? n) && (n <=? 90)) || ((97 <=? n) && (n <=? 122)) ||
   (n =? 46) || (n =? 45) || (n =? 95))%nat.

Abbreviation toy_disk := (gmap (string * string) string).
Definition toy_digest (w : string) : string := ("sha of " +:+ w)%string.
Definition toy_read (id v sha : string) (d : toy_disk) : result ArtifactError string :=
  match d !! (id, v) with
  | Some w => if String.eqb (toy_digest w) sha then Ok w else Err DigestMismatch
  | None => Err ArtifactNotFound
  end.

(** Migrations write their names to the schema of the search path; one says to
    let the role of the tips plugin at the jar plugin's tables. *)
Definition STRAY : string := "grant on jar".

Definition toy_statement (path : option string) (db : PgDatabase (list string)) (file : string * string)
  : PgDatabase (list string) :=
  if String.eqb file.2 STRAY then
    mkPgDatabase (pg_plugins db) (pg_events db) (pg_schemas db)
      (alter (fun r => mkPgRole (rl_password r) (rl_statement_timeout r) (rl_idle_timeout r) (rl_connection_limit r)
                         ((DmlOnTables, "plugin_cash.jar"%string) :: rl_grants r)) "plugin_cash.tips" (pg_roles db))
  else
    mkPgDatabase (pg_plugins db) (pg_events db)
      (match path with Some n => alter (fun t => t ++ [file.1]) n (pg_schemas db) | None => pg_schemas db end) (pg_roles db).

Definition toy_migrate (files : list (string * string)) (path : option string) (db : PgDatabase (list string))
  : result string unit * PgDatabase (list string) :=
  if forallb (fun f => negb (String.eqb f.2 "broken")) files then (Ok tt, foldl (toy_statement path) db files)
  else (Err "syntax error"%string, db).

#[local] Instance toy_crates : PluginCrates := {
  valid_plugin_id := fun s => negb (String.eqb s "") && str_forall id_char s;
  valid_slug := fun s => negb (String.eqb s "") && str_forall id_char s;
  Manifest := ToyManifest;
  parse_manifest := toy_parse;
  mf_id := tm_id;
  mf_version := tm_version;
  mf_slug := tm_slug;
  mf_ui_schema := fun _ => Some 1;
  mf_pages := fun _ => [];
  mf_is_filter := fun _ => true;
  registry_accepts := fun _ => true;
  Disk := toy_disk;
  artifact_digest := toy_digest;
  artifact_write := fun id v w d => (Some (toy_digest w), <[(id, v) := w]> d);
  artifact_read_verified := toy_read;
  artifact_remove := fun id v d => (Some (option_is_some (d !! (id, v))), delete (id, v) d);
  artifact_error_text := fun _ => "artifact"%string;
  Host := gmap string bool;
  host_register_with_calls := fun m w _ h => if String.eqb w "junk" then Err "not a module"%string else Ok (<[tm_id m := true]> h);
  host_enable := fun id h => (option_is_some (h !! id), alter (fun _ => true) id h);
  host_disable := fun id _ h => (option_is_some (h !! id), alter (fun _ => false) id h);
  host_status := fun id h => (fun b => mkPluginStatusSnapshot b None 0) <$> h !! id;
  base64_decode := Some;
  random_bytes := fun n => Some (String (ascii_of_nat (n mod 256)) EmptyString);
  Tables := list string;
  no_tables := [];
  migrator_new := fun _ => Ok tt;
  migrate := toy_migrate;
  connect_options := fun _ => Some tt;
  collated := fun l => l;
  actor_text := z_to_string
}.

Lemma toy_parsed text m : toy_parse text = Ok m -> m ∈ toy_manifests.*2.
Proof.
  unfold toy_parse. destruct (_ !! text) as [x|] eqn:Hx; [|done]. intros [= <-].
  apply elem_of_list_to_map_2 in Hx. by apply (list_elem_of_fmap_2' _ _ (text, x)).
Qed.

Lemma toy_switch (b : bool) id (h : gmap string bool) : let h' := alter (fun _ => b) id h in
  let status id (h : gmap string bool) := (fun b => mkPluginStatusSnapshot b None 0) <$> h !! id in
  option_is_some (h !! id) = option_is_some (status id h) /\
  (forall s, status id h' = Some s -> ps_enabled s = b) /\
  (forall id', id' <> id -> status id' h' = status id' h) /\
  (status id h = None -> status id h' = None).
Proof.
  cbn. rewrite lookup_alter_eq. split_and!.
  - by destruct (h !! id).
  - intros s. by destruct (h !! id); intros [= <-].
  - intros id' Hne. by rewrite lookup_alter_ne by congruence.
  - by destruct (h !! id).
Qed.

#[local] Instance toy_laws : PluginCratesLaws.
Proof.
  split.
  - intros id Hv. apply andb_true_iff in Hv as [_ Hv]. exact Hv.
  - intros text m Hm%toy_parsed. cbn in Hm. repeat (apply elem_of_cons in Hm as [-> |Hm]; [reflexivity|]). by apply elem_of_nil in Hm.
  - by intros id v w d sha d' [= <- _].
  - intros id v w d sha d' [= <- <-]. change (toy_read id v (toy_digest w) (<[(id, v) := w]> (d : toy_disk)) = Ok w).
    unfold toy_read. by rewrite lookup_insert_eq, String.eqb_refl.
  - intros id v sha d w Hr. change (toy_read id v sha (d : toy_disk) = Ok w) in Hr. unfold toy_read in Hr.
    destruct (_ !! _) as [w'|]; [|discriminate Hr].
    destruct (String.eqb_spec (toy_digest w') sha) as [<-|]; [by injection Hr as <-|discriminate Hr].
  - intros id v w d id' v' sha Hne. change (toy_read id' v' sha (<[(id, v) := w]> (d : toy_disk)) = toy_read id' v' sha d).
    unfold toy_read. by rewrite lookup_insert_ne by congruence.
  - intros id v d id' v' sha Hne. change (toy_read id' v' sha (delete (id, v) (d : toy_disk)) = toy_read id' v' sha d).
    unfold toy_read. by rewrite lookup_delete_ne by congruence.
  - intros m w c h h'. cbn. destruct (String.eqb w "junk"); [done|]. intros [= <-]. split.
    + rewrite lookup_insert_eq. by eexists.
    + intros id Hne. by rewrite lookup_insert_ne by congruence.
  - intros id reason h. exact (toy_switch false id h).
  - intros id h. exact (toy_switch true id h).
  - done.
Qed.

(** ** A server *)

Definition url : string := "postgres://ethpay:secret@db:5432/ethpay".
Definition fresh_yard : Yard := mkYard ∅ [] ∅ ∅ None (∅ : toy_disk) (Some ∅) (Some ∅).
Definition works : Office Yard := mkOffice fresh_yard 0 0 [].
Definition boss_info : UserInfo := mkUserInfo 1 ServerAdmin.

Definition tips (version wasm : string) (files : list (string * string)) : InstallPluginRequest :=
  mkInstallPluginRequest ("tips " +:+ version)%string wasm files.

(** Version 1 with one migration. *)
Definition tips_request : InstallPluginRequest := tips "1" "bytes" [("0001_init.sql", "create")]%string.
Definition tips_on : Office Yard := snd (install_plugin url boss_info tips_request works).
Definition boots (o : Office Yard) : Office Yard := mkOffice (restarted (Some ∅) (Some ∅) (of_db o)) 0 0 [].

Example tips_installed :
  fst (install_plugin url boss_info tips_request works) = Ok (mkPluginMutationResponse "cash.tips" "installed" true) /\
  yd_pools (of_db tips_on) = Some {["cash.tips" := "postgres://plugin_cash.tips:00@db:5432/ethpay"]}%string /\
  yd_schemas (of_db tips_on) = {["plugin_cash.tips" := ["0001_init.sql"]]}%string /\
  fst (load_installed_plugins url (boots tips_on)) = Ok (mkPluginBootReport ["cash.tips"%string] [] [] false).
Proof. vm_compute. repeat split. Qed.

Lemma toy_home files : forallb (fun f => negb (String.eqb f.2 STRAY)) files = true -> stays_home files.
Proof.
  intros Hf n db. cbn. unfold toy_migrate. destruct (forallb _ files) eqn:Hb in |- *; [|done]. cbn [snd]. clear Hb.
  revert db Hf. induction files as [|file files IH]; intros db; cbn; [done|]. intros [Hs Hf]%andb_true_iff.
  destruct (IH (toy_statement (Some n) db file) Hf) as (-> & -> & -> & Hk). unfold toy_statement in *.
  destruct (String.eqb file.2 STRAY); [done|]. cbn in *. split_and!; [done..|]. intros k Hne.
  rewrite (Hk k Hne). by apply lookup_alter_ne.
Qed.

Lemma no_roles_confined y : yd_roles y = ∅ -> roles_confined y.
Proof. intros He id n r p s _ Hr. by rewrite He, lookup_empty in Hr. Qed.

Lemma fresh_sound : Sound fresh_yard.
Proof. split; [intros k row; cbn; by rewrite lookup_empty..|intros k k' row row' s; cbn; by rewrite lookup_empty|by apply no_roles_confined]. Qed.

Lemma keyed_by_running y : bool_decide (map_Forall (fun k row => ip_id row = k) (yd_plugins y)) = true -> PluginFacts.keyed y.
Proof. intros Hb%bool_decide_eq_true_1 k row Hr. exact (Hb k row Hr). Qed.

Lemma boots_restarts o : of_db (boots o) = restarted (Some ∅) (Some ∅) (of_db o).
Proof. done. Qed.

(** ** The theorems at work *)

Lemma plugin_storage_confined_witness :
  let y' := of_db (snd (provision_storage url "cash.tips" [("0001_init.sql", "create")]%string works)) in
  roles_confined y' /\ exists n role url pools scheme host, role_name "cash.tips" = Ok n /\
      yd_roles y' !! n = Some role /\ rl_password role = "00"%string /\ provisioned n role /\
      yd_pools y' = Some pools /\ pools !! "cash.tips"%string = Some url /\ read_url url = Some (scheme, n, "00"%string, host).
Proof.
  intros y'.
  destruct (plugin_storage_confined url "cash.tips" [("0001_init.sql", "create")]%string fresh_yard works eq_refl) as (Hc & Hp).
  split; [exact (proj1 (Hc (toy_home [("0001_init.sql", "create")]%string eq_refl)) (no_roles_confined fresh_yard eq_refl))|]. apply (Hp "00"%string). vm_compute. reflexivity.
Defined.

Lemma boot_runs_only_installed_witness :
  exists row m w, yd_plugins (of_db (boots tips_on)) !! "cash.tips"%string = Some row /\ parse_manifest (ip_manifest_toml row) = Ok m /\
    artifact_digest w = ip_artifact_sha256 row.
Proof.
  assert (Hk : PluginFacts.keyed (of_db (boots tips_on))).
  { by apply keyed_by_running; vm_compute. }
  pose proof (boot_runs_only_installed url (of_db (boots tips_on)) Hk (boots tips_on) eq_refl) as Hb.
  assert (Hr : fst (load_installed_plugins url (boots tips_on)) = Ok (mkPluginBootReport ["cash.tips"%string] [] [] false)) by (vm_compute; reflexivity).
  rewrite Hr in Hb. destruct Hb as (_ & Hl & _).
  destruct (Hl "cash.tips"%string) as (row & m & w & Hrow & _ & Hm & _ & _ & _ & Hd); [by constructor|].
  exists row, m, w. exact (conj Hrow (conj Hm Hd)).
Defined.

Lemma plugin_records_sound_witness :
  let y' := of_db (snd (load_installed_plugins url (boots tips_on))) in
  option_is_some (yd_plugins y' !! "cash.tips"%string) = true /\ Sound y'.
Proof.
  intros y'. split; [vm_compute; reflexivity|]. apply (plugin_records_sound url fresh_yard y'); [|exact fresh_sound].
  apply (rtc_l _ _ (of_db tips_on)); [exact (step_install url boss_info tips_request works (toy_home (rq_migrations tips_request) eq_refl))|].
  apply rtc_once. exact (step_restart url (of_db tips_on) (Some ∅) (Some ∅) (boots tips_on) eq_refl).
Defined.

Lemma installed_plugin_boots_witness :
  let report := mkPluginBootReport ["cash.tips"%string] [] [] false in
  fst (load_installed_plugins url (boots tips_on)) = Ok report /\ "cash.tips"%string ∈ br_loaded report.
Proof.
  intros report. assert (Hr : fst (load_installed_plugins url (boots tips_on)) = Ok report) by (vm_compute; reflexivity).
  assert (Hk : PluginFacts.keyed (of_db works)) by (by apply keyed_by_running; vm_compute).
  assert (Hi : install_plugin url boss_info tips_request works = (Ok (mkPluginMutationResponse "cash.tips" "installed" true), tips_on))
    by (apply (ran (install_plugin url boss_info tips_request works)); vm_compute; reflexivity).
  assert (Hm : parse_manifest (rq_manifest_toml tips_request) = Ok (mkToyManifest "cash.tips" "1" (Some "tips"%string))) by (vm_compute; reflexivity).
  assert (Hw : base64_decode (trim (rq_wasm_base64 tips_request)) = Some "bytes"%string) by (vm_compute; reflexivity).
  assert (Hb := installed_plugin_boots url boss_info tips_request works _ tips_on (boots tips_on) ∅ (Some ∅)
    (mkToyManifest "cash.tips" "1" (Some "tips"%string)) "bytes" (toy_home (rq_migrations tips_request) eq_refl) Hk Hi (boots_restarts tips_on) Hm Hw (fun c h => eq_refl)).
  rewrite Hr in Hb. exact (conj Hr (proj1 Hb)).
Defined.

Lemma plugin_issues_on_own_store_witness :
  let ran := issuer_invoice_create (R := Q) true 5 (mkInvoiceCreateRequest 5 "eth" "0.5" None None) (InvoiceDemo.shop one_method) in
  match fst ran with
  | Ok invoice => id_store_id invoice = 5 /\ exists options, whole invoice options shop_db (sv_db (st_server (snd ran)))
  | Err _ => False
  end.
Proof.
  intros ran. destruct (fst ran) as [invoice|e] eqn:Hr; [|vm_compute in Hr; discriminate Hr].
  assert (Hu : methods_unique (st_wallets (InvoiceDemo.shop one_method))) by exact shop_unique.
  destruct (plugin_issues_on_own_store (R := Q) true 5 (mkInvoiceCreateRequest 5 "eth" "0.5" None None) (InvoiceDemo.shop one_method)
    (Ok invoice) (snd ran) Hu (ConsumerDemo.ran ran (Ok invoice) Hr)) as [_ Hp]. exact Hp.
Defined.

(** ** A step in the middle fails *)

Definition enabled_row (y : Yard) : option (string * bool) :=
  (fun row => (ip_version row, ip_enabled row)) <$> yd_plugins y !! "cash.tips"%string.
Definition restart_office (o : Office Yard) : Office Yard := mkOffice (of_db o) 0 (of_draws o) [].

(** The installed version is sent again with other bytes and a migration that
    does not run: the request is refused, the bytes on disk are the new ones,
    and the next boot switches the installed plugin off. *)
Definition resent : Office Yard := snd (install_plugin url boss_info (tips "1" "bytes, fixed" [("0002_fix.sql", "broken")]%string) tips_on).

Example refused_reinstall_breaks_installed :
  fst (install_plugin url boss_info (tips "1" "bytes, fixed" [("0002_fix.sql", "broken")]%string) tips_on) = Err 400 /\
  yd_plugins (of_db resent) = yd_plugins (of_db tips_on) /\
  fst (load_installed_plugins url (boots resent)) = Ok (mkPluginBootReport [] [] [mkPluginLoadFailure "cash.tips" "artifact" true] false) /\
  enabled_row (of_db (snd (load_installed_plugins url (boots resent)))) = Some ("1"%string, false).
Proof. vm_compute. repeat split. Qed.

(** An upgrade whose last statement is not sent: the role has a new password,
    the record the old one, and after a restart the pool logs in with that. *)
Definition half_upgraded : result Z PluginMutationResponse * Office Yard :=
  @install_plugin (demo_drop 20) _ url boss_info (tips "2" "more bytes" []) (restart_office tips_on).

Example failed_upgrade_strands_password :
  fst half_upgraded = Err 500 /\ enabled_row (of_db (snd half_upgraded)) = Some ("1"%string, true) /\
  rl_password <$> yd_roles (of_db (snd half_upgraded)) !! "plugin_cash.tips"%string = Some "01"%string /\
  yd_pools (of_db (snd (load_installed_plugins url (boots (snd half_upgraded)))))
    = Some {["cash.tips" := "postgres://plugin_cash.tips:00@db:5432/ethpay"]}%string.
Proof. vm_compute. repeat split. Qed.

(** An uninstall whose removal of the record is not sent: the plugin is still
    installed and enabled, without its role, and boots. *)
Definition half_removed : result Z PluginMutationResponse * Office Yard :=
  @uninstall_plugin (demo_drop 4) _ boss_info "cash.tips" (restart_office tips_on).

Example failed_uninstall_drops_role :
  fst half_removed = Err 500 /\ enabled_row (of_db (snd half_removed)) = Some ("1"%string, true) /\
  yd_roles (of_db (snd half_removed)) = ∅ /\
  fst (load_installed_plugins url (boots (snd half_removed))) = Ok (mkPluginBootReport ["cash.tips"%string] [] [] false).
Proof. vm_compute. repeat split. Qed.

(** An upgrade whose migration does not keep to its schema: it grants the
    plugin's own role another plugin's tables, and provisioning, which revokes
    only what is on [public], leaves that. *)
Definition strayed : Office Yard :=
  snd (install_plugin url boss_info (tips "2" "more bytes" [("0002_grant.sql"%string, STRAY)]) tips_on).

Example migration_grants_elsewhere :
  fst (install_plugin url boss_info (tips "2" "more bytes" [("0002_grant.sql"%string, STRAY)]) tips_on)
    = Ok (mkPluginMutationResponse "cash.tips" "upgraded" true) /\
  (fun r => bool_decide ((DmlOnTables, "plugin_cash.jar"%string) ∈ rl_grants r))
    <$> yd_roles (of_db strayed) !! "plugin_cash.tips"%string = Some true.
Proof. vm_compute. repeat split. Qed.

(** Another plugin of the slug is refused; when the first install is recorded
    between the check and the upsert, both have it. *)
Definition jar : InstallPluginRequest := mkInstallPluginRequest "jar 1" "jar bytes" [].

Example taken_slug_refused : fst (install_plugin url boss_info jar tips_on) = Err 400.
Proof. vm_compute. reflexivity. Qed.

Example slug_shared_by_two_installs :
  let checked := refuse_a_taken_slug (mkToyManifest "cash.jar" "1" (Some "tips"%string)) "cash.jar" works in
  let between := upsert_installed_plugin (mkNewInstalledPlugin "cash.tips" "1" "tips 1" "sha of bytes" None) 0 (of_db (snd checked)) in
  let after := upsert_installed_plugin (mkNewInstalledPlugin "cash.jar" "1" "jar 1" "sha of jar bytes" None) 1 (snd between) in
  fst checked = Ok tt /\ row_slug <$> (map_to_list (yd_plugins (snd after))).*2 = [Some "tips"; Some "tips"]%string.
Proof. vm_compute. repeat split. Qed.
